(* ===== verification/_CoqProject ===== *)
-Q . S2P
Prelude.v
Util.v
Sds.v
VectorClock.v
VcTheory.v
VcText.v
VcClaims.v
Proxy.v
CrdtServer.v
Gc.v
Crc.v
Objects.v
Glob.v
Keyspace.v
Backlog.v
Resp.v
Pubsub.v
PubsubTheory.v
PubsubClaims.v
Rio.v
World.v
Feed.v
Evict.v
EvictPool.v
EvictTheory.v
EvictClaims.v
Psync.v
PeerLink.v
PeerState.v
MasterLink.v
Mirror.v
Merge.v
Handshake.v
Lzf.v
Rdb.v
RdbInfo.v
Convert.v
RdbFile.v
Cron.v
Slave.v
SlaveTheory.v
Transfer.v
Failover.v
Expire.v
Output.v
OutputTheory.v
OutputClaims.v
Dict.v
DictScan.v
Scan.v
KeyCommands.v
Siphash.v
Intset.v
Multi.v
MultiTheory.v
MultiClaims.v
PeerServer.v
PeerMulti.v
