(* ===== verification/Prelude.v ===== *)
(** * xredis-crdt: a verification development

    xredis-crdt is Redis with several masters.  Each group of servers (a "gid"
    from 1 to 15) has one master that accepts writes; the masters replicate to
    each other as peers, and data types that merge (CRDTs, loaded as a module)
    make them converge.  Vector clocks record which writes of which group a
    server has seen.

    ** The parts of the program and the files that model them

    - Clocks.  [VectorClock] translates [ctrip_vector_clock.c] and its header,
      [VcTheory] relates each operation to the abstract clock (a finite map),
      [VcText] treats the textual form, [VcClaims] states the properties.
      [CrdtServer] has the clock of the server, its copy without the groups that
      are offline, and the commands on both ([ctrip.c], [module.c], [server.c]).
    - Deletion.  [Gc] is the collection of tombstones ([ctrip_crdt_gc.c]).
      [Keyspace] has the databases with lookup, insertion, deletion and expiry on
      access ([db.c], [ctrip_crdt_common.c]), [Expire] the cycle of active expiry
      ([expire.c]), [Scan] the commands that walk through a database, and
      [KeyCommands] those on single keys ([db.c], [expire.c]).
    - Streams.  [Backlog] is the circular buffer of [replication.c], [World] the
      state of the two server structures of the program ([server] replicates to
      its own slaves, [crdtServer] to the peers), [Feed] what a write adds to
      both streams, [Psync] the serving of PSYNC and CRDT.PSYNC, [Resp] the wire
      protocol and [PeerLink] the reading and running of a peer's stream
      ([networking.c]).  [PeerServer] is what the link expects of the server that
      runs the commands, and [PeerMulti] shows that the commands and transactions
      of [Multi] do it.
    - Peers.  [Handshake] is the client side of the handshake, [PeerState] the
      commands that create, cache and end links, [Cron] what happens once a second
      and after a restart ([ctrip_crdt_replication.c]); [Proxy] the proxies a peer
      is reached through ([proxy.c], [xpipe_proxy.c]).
    - Slaves.  [MasterLink] is the reading of the own master's stream on a slave
      ([networking.c]), [Mirror] compares the slave with the master, [Slave] is the
      slave's side of [replication.c] (SLAVEOF, the handshake, the transfer of the
      file, the cron), [SlaveTheory] its lemmas, [Transfer] the transfer, and
      [Failover] a slave that takes over.
    - Full resynchronization.  [Rio] is the destination and source of bytes,
      [Merge] writes a database as merge commands and runs them at the peer
      ([ctrip_crdt_rdb.c]).
    - Files.  [Rdb] has lengths, numbers and strings, [RdbInfo] the auxiliary
      fields, [Convert] values of Redis without CRDTs, [RdbFile] whole files
      ([rdb.c], [ctrip_crdt_rdb.c]); [Lzf] is the compression and [Crc] the
      checksums, DUMP payloads and hash slots.
    - Containers.  [Dict] is the hash table with incremental rehashing, [DictScan]
      its traversals ([dict.c]), [Siphash] its hash functions ([siphash.c]),
      [Intset] the sorted arrays of integers ([intset.c]).
    - Clients.  [Multi] is the way of a request from its check to its propagation,
      with transactions and watched keys ([multi.c], [processCommand] and [call] of
      [server.c]; the commands are a table of handlers), [MultiTheory] its
      invariant, [MultiClaims] the properties.  [Pubsub], [PubsubTheory] and
      [PubsubClaims] are publishing, subscribing and the events of keys
      ([pubsub.c], [notify.c]); [Output], [OutputTheory] and [OutputClaims] the
      buffers of replies, their limits and their way to the sockets
      ([networking.c]); [Glob] the patterns ([util.c]), [Objects] the
      string objects ([object.c]).
    - Memory.  [Evict] is the choice of keys and tombstones to evict and the loop
      that evicts them ([evict.c]); [EvictPool] has the pool, [EvictTheory] the
      ages and scores, [EvictClaims] the whole.
    - [Util] and [Sds] are the number and string functions of [util.c] and [sds.c]
      that the others use.  This file has the integers, the result type and the
      generic lemmas and tactics.

    ** How code becomes definitions

    Definitions carry the names of the C functions; a part of a long function
    that is a definition of its own has a descriptive name.  A struct is a record
    with a [set_<field>] function per field that is assigned.  Functions that
    change global state take it and return it.  The result type [res] has [Ok],
    [Abort] (a failed assertion stops the server) and [Undef] (the behaviour of
    the C program is not defined: a null pointer, an index outside an array,
    memory that was never written); theorems that conclude [Ok] thereby show that
    none of these happens.  Integers are [Z], wrapped with [uwrap] and [swrap]
    where a C type is stored or converted; bytes are [Z] and strings lists of
    them.  Dictionaries of the keyspace are finite maps.

    Code outside the repository and the operating system are parameters: the
    module with the CRDT types ([TombstoneModule] in [Gc], [CrdtModule] in
    [Keyspace], [RdbModule] in [RdbFile]; a command of the module is a function on
    the data), the outcome of socket operations, the
    clock, random ids.  Each theorem with such a parameter has a witness with a
    concrete one.

    ** What is shown

    - Clocks: merging refines the pointwise maximum and is a semilattice,
      comparison is the pointwise order, the text form can be read back.
    - Safety of deletion: a tombstone is dropped only when every peer that counts
      has seen the deletion, and collection ends.  Active expiry ends too, removes
      only keys whose time has passed and that need not be kept for their last
      writer, and all of them if there is time.
    - Keys: a client that follows the cursors of SCAN sees every key that stayed;
      RENAME moves a value with its expire time.
    - Streams: the backlog is the end of the stream; a partial resynchronization
      is accepted exactly when possible and sends exactly what is missing; a full
      one leaves no gap; every write is run exactly once at a peer also when the
      link is lost, inside a command or a transaction, and resumed; the offset of a
      link follows the last point with no transaction open; what a peer sent is not
      echoed.
    - Peers: the handshake writes the right commands, ends or advances with every
      answer; the cron leaves no silent link and loses no position; after a
      restart data is kept exactly when no peer knows later writes.
    - Slaves: a slave has the streams and positions of its master; made a master it
      serves everyone from where they were with exactly what they miss; the file
      of the master arrives whole, however the network cuts it.
    - Full resynchronization: the receiver ends with the merge of both keyspaces.
    - Files and formats: strings, fields, whole files, compressed data, commands,
      proxies and payloads are read back as they were written; loading any bytes
      ends; checksums equal their bit-by-bit definitions.
    - Containers: a dictionary answers as a finite map and an intset as a finite
      set whatever is done with them; a scan misses no key unless a table shrinks
      under it; rehashing ends.
    - Clients: EXEC fails exactly if a watched key was touched, else it runs the
      queue as one block, which is one block of both streams and is applied at
      once where it arrives; the tables of watched keys stay consistent.  Every
      message reaches exactly the clients subscribed to its channel or to a
      pattern that matches, and matching is the meaning of the pattern.  Replies
      reach the sockets complete and in order, whatever the sockets take at once.
    - Memory: the pool is a bounded ordered list; ages and scores stay in their
      fields; freeing memory ends, takes no key while there is a tombstone,
      announces every tombstone it takes, and takes no key for a peer's command.
    - Defects of the code are theorems or lemmas of the model too (the group ids
      that are not checked, the uninitialised replication id, the stale copy of
      the clock, the cached link that a refused PSYNC leaves, the order dependence of the save's filter, and others).

    ** Fuel

    Loops without a structural measure take fuel.  The fuel is computed from the
    input where the definition is used (the number of bytes left, the size of a
    table, the number of keys), and the theorems show that the result is not the
    one for lack of fuel: they conclude [Ok], or that more fuel changes nothing.

    ** Not modelled

    The data types of the CRDT module are not in the repository.  Of the
    repository, not modelled are: what only does input and output or talks to the
    operating system (event loop, sockets, forks, files, memory allocation,
    logging), the parts that the CRDT server takes over unchanged from Redis and
    that this development does not need (commands on Redis' own data types, most
    of which are commented out of the command table, ziplists, quicklists and
    radix trees, scripting, cluster, sentinel, the append only file, modules other
    than their clock functions), the command line tools, and the bundled
    libraries.  Within modelled files, functions that report
    (INFO, ROLE, DEBUG), free memory or write the log are left out; the manifest
    says so for each component.
*)

From stdpp Require Export base option list numbers gmap sets strings sorting.
Set Default Goal Selector "!".

Declare Scope crdt_scope.
Delimit Scope crdt_scope with crdt.
Global Open Scope Z_scope.

(** ** Machine integers

    A [w]-bit C integer is a [Z] in its range; storing an out-of-range value
    wraps.  [uwrap] is the conversion to an unsigned type, [swrap] the
    (two's complement) conversion to a signed one. *)

Definition uwrap (w z : Z) : Z := z mod 2 ^ w.

Definition swrap (w z : Z) : Z := (z + 2 ^ (w - 1)) mod 2 ^ w - 2 ^ (w - 1).

Definition LLONG_MAX : Z := 2 ^ 63 - 1.

Definition LLONG_MIN : Z := - 2 ^ 63.

Definition ULLONG_MAX : Z := 2 ^ 64 - 1.

(** The conversions that the C sources write as [(char)], [(int)],
    [(long long)] and [(unsigned long long)]. *)

Definition to_char (z : Z) : Z := swrap 8 z.

Definition to_int (z : Z) : Z := swrap 32 z.

Definition to_ll (z : Z) : Z := swrap 64 z.

Definition to_ull (z : Z) : Z := uwrap 64 z.

Lemma uwrap_range w z : 0 <= w -> 0 <= uwrap w z < 2 ^ w.
Proof. intros. apply Z.mod_pos_bound. by apply Z.pow_pos_nonneg. Qed.

Lemma uwrap_id w z : 0 <= z < 2 ^ w -> uwrap w z = z.
Proof. apply Z.mod_small. Qed.

Lemma swrap_range w z : 0 < w -> - 2 ^ (w - 1) <= swrap w z < 2 ^ (w - 1).
Proof.
  intros. unfold swrap.
  assert (2 ^ w = 2 * 2 ^ (w - 1)) as E.
  { rewrite <- Z.pow_succ_r by lia. f_equal. lia. }
  pose proof (Z.mod_pos_bound (z + 2 ^ (w - 1)) (2 ^ w)) as B.
  assert (0 < 2 ^ (w - 1)) by (apply Z.pow_pos_nonneg; lia). lia.
Qed.

Lemma swrap_id w z : 0 < w -> - 2 ^ (w - 1) <= z < 2 ^ (w - 1) -> swrap w z = z.
Proof.
  intros. unfold swrap.
  assert (2 ^ w = 2 * 2 ^ (w - 1)) as E.
  { rewrite <- Z.pow_succ_r by lia. f_equal. lia. }
  rewrite Z.mod_small by lia. lia.
Qed.

Lemma to_char_id z : -128 <= z < 128 -> to_char z = z.
Proof. intros. apply swrap_id; lia. Qed.

Lemma to_int_id z : - 2 ^ 31 <= z < 2 ^ 31 -> to_int z = z.
Proof. intros. apply swrap_id; lia. Qed.

Lemma to_ll_id z : LLONG_MIN <= z <= LLONG_MAX -> to_ll z = z.
Proof. unfold LLONG_MIN, LLONG_MAX. intros. apply swrap_id; lia. Qed.

(** ** Results of C code

    [Ok a]: the code runs to its end with value [a].  [Abort]: an [assert] or
    [serverAssert] fails, or the code panics: the process stops there.
    [Undef]: the code has no defined behaviour from there on (a NULL pointer
    is read, an index is out of bounds, an indeterminate value is used). *)

Inductive res (A : Type) : Type :=
| Ok (a : A)
| Abort
| Undef.

Arguments Ok {A} _.
Arguments Abort {A}.
Arguments Undef {A}.

#[global] Instance res_ret : MRet res := @Ok.

#[global] Instance res_bind : MBind res := fun A B f m =>
  match m with
  | Ok a => f a
  | Abort => Abort
  | Undef => Undef
  end.

#[global] Instance res_fmap : FMap res := fun A B f m =>
  match m with
  | Ok a => Ok (f a)
  | Abort => Abort
  | Undef => Undef
  end.

#[global] Instance res_eq_dec {A} `{EqDecision A} : EqDecision (res A).
Proof. solve_decision. Defined.

(** [assert(b)] *)

Definition c_assert (b : bool) : res unit := if b then Ok tt else Abort.

(** Reading an object that must be there. *)

Definition need {A} (o : option A) : res A :=
  match o with
  | Some a => Ok a
  | None => Undef
  end.

Lemma res_bind_Ok {A B} (m : res A) (f : A -> res B) b :
  m ≫= f = Ok b -> exists a, m = Ok a /\ f a = Ok b.
Proof. destruct m; try done. eauto. Qed.

Lemma c_assert_Ok b u : c_assert b = Ok u -> b = true.
Proof. by destruct b. Qed.

Lemma need_Ok {A} (o : option A) a : need o = Ok a -> o = Some a.
Proof. destruct o; simpl; congruence. Qed.

(** Steps through the binds of a hypothesis that says some code returned. *)

Ltac res_inv :=
  repeat match goal with
  | H : _ ≫= _ = Ok _ |- _ =>
      let a := fresh "v" in let E := fresh "E" in
      apply res_bind_Ok in H; destruct H as (a & E & H)
  | H : c_assert _ = Ok _ |- _ => apply c_assert_Ok in H
  | H : need _ = Ok _ |- _ => apply need_Ok in H
  | H : Ok _ = Ok _ |- _ => injection H as H
  | H : mret _ = Ok _ |- _ => injection H as H
  | H : Abort = Ok _ |- _ => discriminate H
  | H : Undef = Ok _ |- _ => discriminate H
  end.

(** ** Byte strings

    An sds or a C string is the list of its bytes ([0..255]); the terminating
    NUL of a C string is not part of the list. *)

Abbreviation bytes := (list Z).

Definition byte_of_ascii (a : Ascii.ascii) : Z := Z.of_N (Ascii.N_of_ascii a).

Fixpoint str (s : string) : bytes :=
  match s with
  | EmptyString => []
  | String a s => byte_of_ascii a :: str s
  end.

Arguments str _%_string.

Definition bytes_ok (s : bytes) : Prop := Forall (fun c => 0 <= c < 256) s.

#[global] Instance bytes_ok_dec s : Decision (bytes_ok s).
Proof. unfold bytes_ok. apply _. Defined.

Lemma str_ok s : bytes_ok (str s).
Proof.
  induction s as [|a s IH]; simpl; constructor; [|done].
  unfold byte_of_ascii. pose proof (Ascii.N_ascii_bounded a). lia.
Qed.

Lemma bytes_ok_app s t : bytes_ok s -> bytes_ok t -> bytes_ok (s ++ t).
Proof. apply Forall_app_2. Qed.

(** The C string that starts at the beginning of [s]: up to the first NUL. *)

Fixpoint cstr (s : bytes) : bytes :=
  match s with
  | [] => []
  | c :: s => if c =? 0 then [] else c :: cstr s
  end.

Lemma cstr_id s : 0 ∉ s -> cstr s = s.
Proof.
  induction s as [|c s IH]; [done|]. rewrite not_elem_of_cons. intros [Hc Hs]. simpl.
  replace (c =? 0) with false by lia. by rewrite IH.
Qed.

Lemma cstr_app s t : 0 ∉ s -> cstr (s ++ 0 :: t) = s.
Proof.
  induction s as [|c s IH]; [done|]. rewrite not_elem_of_cons. intros [Hc Hs]. simpl.
  replace (c =? 0) with false by lia. by rewrite IH.
Qed.

Definition CR : Z := 13.

Definition LF : Z := 10.

(** [tolower] of the C locale, and the comparison [strcasecmp(s,t) == 0]. *)

Definition tolower (c : Z) : Z := if (65 <=? c) && (c <=? 90) then c + 32 else c.

Definition strcaseeq (s t : bytes) : bool :=
  bool_decide (map tolower s = map tolower t).

(** [strncmp(s, p, length p) == 0]: [p] is a prefix of [s]. *)

Fixpoint has_prefix (p s : bytes) : bool :=
  match p, s with
  | [], _ => true
  | c :: p, d :: s => (c =? d) && has_prefix p s
  | _ :: _, [] => false
  end.

Lemma has_prefix_app p s : has_prefix p (p ++ s) = true.
Proof. induction p as [|c p IH]; simpl; [done|]. by rewrite Z.eqb_refl, IH. Qed.

Lemma has_prefix_true p s : has_prefix p s = true -> exists r, s = p ++ r.
Proof.
  revert s. induction p as [|c p IH]; intros s; simpl; [by exists s|].
  destruct s as [|d s]; [done|]. intros [->%Z.eqb_eq H]%andb_prop.
  destruct (IH s H) as [r ->]. by exists r.
Qed.

Lemma strcaseeq_refl s : strcaseeq s s = true.
Proof. unfold strcaseeq. by rewrite bool_decide_true. Qed.

Lemma strcaseeq_sym s t : strcaseeq s t = strcaseeq t s.
Proof. unfold strcaseeq. apply bool_decide_ext. split; congruence. Qed.

(** ** Folds *)

(** A fold that keeps an invariant and is simulated, through [h], by another. *)

Lemma fold_left_simulation {A B X} (f : A -> X -> A) (g : B -> X -> B) (h : A -> B)
    (P : A -> Prop) (Q : X -> Prop) :
  (forall a x, P a -> Q x -> P (f a x) /\ h (f a x) = g (h a) x) ->
  forall l a, P a -> Forall Q l ->
  P (fold_left f l a) /\ h (fold_left f l a) = fold_left g l (h a).
Proof.
  intros Hstep l. induction l as [|x l IH]; intros a Ha Hl; [done|].
  inversion Hl; subst. simpl. destruct (Hstep a x) as [Hp <-]; [done|done|]. by apply IH.
Qed.

(** ** Proof automation shared by the components *)

Create HintDb crdt.
#[export] Hint Resolve str_ok bytes_ok_app : crdt.
#[export] Hint Resolve Forall_nil_2 Forall_cons_2 : crdt.

(** Case analysis on the boolean comparisons of the goal and hypotheses. *)

Ltac bool_cases :=
  repeat match goal with
  | H : (_ && _) = true |- _ => apply andb_prop in H; destruct H
  | H : (_ || _) = false |- _ => apply orb_false_elim in H; destruct H
  | H : negb _ = true |- _ => apply negb_true_iff in H
  | H : negb _ = false |- _ => apply negb_false_iff in H
  | H : (_ =? _) = true |- _ => apply Z.eqb_eq in H
  | H : (_ =? _) = false |- _ => apply Z.eqb_neq in H
  | H : (_ <? _) = true |- _ => apply Z.ltb_lt in H
  | H : (_ <? _) = false |- _ => apply Z.ltb_ge in H
  | H : (_ <=? _) = true |- _ => apply Z.leb_le in H
  | H : (_ <=? _) = false |- _ => apply Z.leb_gt in H
  | H : (_ >? _) = true |- _ => apply Z.gtb_lt in H
  | H : (_ >? _) = false |- _ => rewrite Z.gtb_ltb in H
  | H : bool_decide _ = true |- _ => apply bool_decide_eq_true in H
  | H : bool_decide _ = false |- _ => apply bool_decide_eq_false in H
  end.

(** Splits every [if] over a [Z] comparison in the goal. *)

Ltac z_cases :=
  repeat match goal with
  | |- context [if ?x =? ?y then _ else _] => destruct (Z.eqb_spec x y)
  | |- context [if ?x <? ?y then _ else _] => destruct (Z.ltb_spec x y)
  | |- context [if ?x <=? ?y then _ else _] => destruct (Z.leb_spec x y)
  end.

(** Decides a closed decidable proposition by evaluation. *)

Ltac decide_now := apply (bool_decide_unpack _); vm_compute; exact I.
