(* ===== verification/Util.v ===== *)
(** * Number and string conversions of [src/src/util.c]

    [digits10], [sdigits10], [ll2string], [string2ll], [string2l] with their
    machine-width behaviour, against the reference decimal printer [print_Z]
    (which is also what the C library's [%d] and [%lld] produce). *)

From S2P Require Import Prelude.

(** ** Reference decimal notation *)

Fixpoint dec_fuel (fuel : nat) (n : Z) : bytes :=
  match fuel with
  | O => []
  | S f => if n <? 10 then [48 + n] else dec_fuel f (n / 10) ++ [48 + n mod 10]
  end.

Definition dec (n : Z) : bytes := dec_fuel (S (Z.to_nat (Z.log2 n))) n.

Definition print_Z (z : Z) : bytes :=
  if z <? 0 then 45 :: dec (- z) else dec z.

Definition is_digit (c : Z) : bool := (48 <=? c) && (c <=? 57).

(** The number a digit string denotes, continuing from the value [v]. *)

Definition num_from (v : Z) (s : bytes) : Z := foldl (fun v c => v * 10 + (c - 48)) v s.

Lemma log2_div10 n : 10 <= n -> 0 <= Z.log2 (n / 10) < Z.log2 n.
Proof.
  intros. split; [apply Z.log2_nonneg|].
  assert (n / 10 <= n / 2) by (apply Z.div_le_compat_l; lia).
  assert (Z.log2 (n / 10) <= Z.log2 (n / 2)) by (by apply Z.log2_le_mono).
  assert (1 <= Z.log2 n) by (change 1 with (Z.log2 2); apply Z.log2_le_mono; lia).
  assert (Z.log2 (n / 2) = Z.log2 n - 1)
    by (rewrite <- Z.div2_div, Z.div2_spec, Z.log2_shiftr; lia).
  lia.
Qed.

Lemma dec_fuel_enough f1 f2 n :
  0 <= n -> (Z.to_nat (Z.log2 n) < f1)%nat -> (Z.to_nat (Z.log2 n) < f2)%nat ->
  dec_fuel f1 n = dec_fuel f2 n.
Proof.
  revert f2 n. induction f1 as [|f1 IH]; intros f2 n Hn H1 H2; [lia|].
  destruct f2 as [|f2]; [lia|]. simpl. destruct (Z.ltb_spec n 10); [done|]. f_equal.
  pose proof (log2_div10 n). apply IH; [apply Z.div_pos; lia|lia|lia].
Qed.

Lemma dec_small n : 0 <= n < 10 -> dec n = [48 + n].
Proof. intros. unfold dec. simpl. destruct (Z.ltb_spec n 10); [done|lia]. Qed.

Lemma dec_step n : 10 <= n -> dec n = dec (n / 10) ++ [48 + n mod 10].
Proof.
  intros. unfold dec at 1. simpl. destruct (Z.ltb_spec n 10); [lia|].
  f_equal. pose proof (log2_div10 n). apply dec_fuel_enough; [apply Z.div_pos; lia|lia|lia].
Qed.

(** Induction along the decimal digits of a number. *)

Lemma digits_ind (P : Z -> Prop) :
  (forall n, 0 <= n < 10 -> P n) ->
  (forall n, 10 <= n -> 0 <= n / 10 < n -> P (n / 10) -> P n) ->
  forall n, 0 <= n -> P n.
Proof.
  intros H0 H1. apply (Zlt_0_ind P).
  intros x IH Hx. destruct (Z_lt_ge_dec x 10); [by apply H0|].
  assert (0 <= x / 10 < x) by (split; [apply Z.div_pos; lia|apply Z.div_lt; lia]).
  apply H1; [lia|done|by apply IH].
Qed.

Lemma num_from_app v s t : num_from v (s ++ t) = num_from (num_from v s) t.
Proof. apply foldl_app. Qed.

Lemma num_of_dec n : 0 <= n -> num_from 0 (dec n) = n.
Proof.
  revert n. apply digits_ind; intros n Hn.
  - rewrite dec_small by done. cbn. lia.
  - intros Hd IH. rewrite dec_step, num_from_app, IH by done. cbn.
    pose proof (Z.div_mod n 10). lia.
Qed.

Lemma dec_digits n : 0 <= n -> Forall (fun c => is_digit c = true) (dec n).
Proof.
  revert n. apply digits_ind; intros n Hn.
  - rewrite dec_small by done. repeat constructor. unfold is_digit. lia.
  - intros Hd IH. rewrite dec_step by done. apply Forall_app_2; [done|].
    repeat constructor. pose proof (Z.mod_pos_bound n 10). unfold is_digit. lia.
Qed.

Lemma dec_head n : 0 <= n ->
  exists c t, dec n = c :: t /\ (n = 0 -> c = 48 /\ t = []) /\ (0 < n -> 49 <= c <= 57).
Proof.
  revert n. apply digits_ind; intros n Hn.
  - rewrite dec_small by done. exists (48 + n), []. repeat split; lia.
  - intros Hd (c & t & E & _ & H2). rewrite dec_step, E by done.
    exists c, (t ++ [48 + n mod 10]). split; [done|].
    assert (0 < n / 10) by (apply Z.div_str_pos; lia). split; [lia|auto].
Qed.

Lemma dec_length n : 0 <= n ->
  (0 < length (dec n))%nat /\ n < 10 ^ Z.of_nat (length (dec n)) /\
  (0 < n -> 10 ^ (Z.of_nat (length (dec n)) - 1) <= n).
Proof.
  revert n. apply digits_ind; intros n Hn.
  - rewrite dec_small by done. cbn. repeat split; lia.
  - intros Hd (H1 & H2 & H3). rewrite dec_step by done. rewrite length_app. simpl.
    set (k := length (dec (n / 10))) in *.
    assert (0 < n / 10) by (apply Z.div_str_pos; lia).
    assert (Z.of_nat (k + 1) = Z.succ (Z.of_nat k)) as -> by lia.
    rewrite Z.pow_succ_r by lia.
    assert (Z.succ (Z.of_nat k) - 1 = Z.succ (Z.of_nat k - 1)) as -> by lia.
    rewrite Z.pow_succ_r by lia. specialize (H3 ltac:(lia)).
    pose proof (Z.div_mod n 10). pose proof (Z.mod_pos_bound n 10).
    split; [lia|]. split; lia.
Qed.

Lemma print_Z_ok z : bytes_ok (print_Z z).
Proof.
  assert (forall n, 0 <= n -> bytes_ok (dec n)) as H.
  { intros n Hn. eapply Forall_impl; [by apply dec_digits|].
    unfold is_digit. intros c Hc. lia. }
  unfold print_Z. destruct (Z.ltb_spec z 0); [|by apply H].
  constructor; [lia|]. apply H. lia.
Qed.

(** ** [digits10]: the number of decimal digits, by comparisons only

    The C function calls itself on [v / 10^12]; a 64-bit [v] leaves a value
    below [10^8], so one level of the recursion is ever entered. *)

Definition digits10_step (digits10 : Z -> Z) (v : Z) : Z :=
  if v <? 10 then 1 else
  if v <? 100 then 2 else
  if v <? 1000 then 3 else
  if v <? 1000000000000 then
    if v <? 100000000 then
      if v <? 1000000 then
        if v <? 10000 then 4 else 5 + Z.b2z (v >=? 100000)
      else 7 + Z.b2z (v >=? 10000000)
    else if v <? 10000000000 then 9 + Z.b2z (v >=? 1000000000)
    else 11 + Z.b2z (v >=? 100000000000)
  else 12 + digits10 (v / 1000000000000).

Definition digits10 (v : Z) : Z := digits10_step (digits10_step (fun _ => 0)) v.

Definition sdigits10 (v : Z) : Z :=
  if v <? 0 then
    let uv := if negb (v =? LLONG_MIN) then to_ull (- v) else LLONG_MAX + 1 in
    digits10 uv + 1
  else digits10 v.

(** The number of digits is the only [d] with [10^(d-1) <= v < 10^d]. *)

Lemma digits_unique v d e :
  0 < d -> 0 < e -> 10 ^ (d - 1) <= v < 10 ^ d -> 10 ^ (e - 1) <= v < 10 ^ e -> d = e.
Proof.
  intros Hd He H1 H2.
  assert (d - 1 < e) by (apply (Z.pow_lt_mono_r_iff 10); lia).
  assert (e - 1 < d) by (apply (Z.pow_lt_mono_r_iff 10); lia). lia.
Qed.

Lemma digits10_step_small f v :
  0 < v < 1000000000000 ->
  0 < digits10_step f v <= 12 /\ 10 ^ (digits10_step f v - 1) <= v < 10 ^ digits10_step f v.
Proof.
  intros Hv. unfold digits10_step, Z.b2z, Z.geb.
  repeat match goal with
  | |- context [?x <? ?y] => destruct (Z.ltb_spec x y); try lia
  | |- context [?x ?= ?y] => destruct (Z.compare_spec x y); try lia
  end; cbn; lia.
Qed.

Lemma digits10_bounds v :
  0 < v < 2 ^ 64 -> 0 < digits10 v /\ 10 ^ (digits10 v - 1) <= v < 10 ^ digits10 v.
Proof.
  intros Hv. destruct (Z_lt_ge_dec v 1000000000000) as [Hs|Hb].
  { pose proof (digits10_step_small (digits10_step (fun _ => 0)) v). unfold digits10. lia. }
  assert (digits10 v = 12 + digits10_step (fun _ => 0) (v / 1000000000000)) as ->.
  { unfold digits10, digits10_step at 1.
    repeat match goal with |- context [?x <? ?y] => destruct (Z.ltb_spec x y); try lia end. }
  assert (0 < v / 1000000000000 < 1000000000000) as Hq.
  { split; [apply Z.div_str_pos; lia|apply Z.div_lt_upper_bound; lia]. }
  destruct (digits10_step_small (fun _ => 0) _ Hq) as [Hd1 Hd2].
  set (d := digits10_step (fun _ => 0) (v / 1000000000000)) in *.
  assert (12 + d - 1 = 12 + (d - 1)) as -> by lia.
  rewrite !Z.pow_add_r by lia. pose proof (Z.div_mod v 1000000000000).
  pose proof (Z.mod_pos_bound v 1000000000000). lia.
Qed.

Lemma digits10_dec v : 0 <= v < 2 ^ 64 -> digits10 v = Z.of_nat (length (dec v)).
Proof.
  intros Hv. destruct (decide (v = 0)) as [->|Hnz]; [reflexivity|].
  destruct (digits10_bounds v) as [H1 H2]; [lia|].
  destruct (dec_length v) as (H3 & H4 & H5); [lia|]. specialize (H5 ltac:(lia)).
  eapply digits_unique; [| |exact H2|]; lia.
Qed.

(** ** [ll2string]: two digits at a time, from the end of the buffer *)

Definition digits_table : bytes :=
  str "0001020304050607080910111213141516171819" ++
  str "2021222324252627282930313233343536373839" ++
  str "4041424344454647484950515253545556575859" ++
  str "6061626364656667686970717273747576777879" ++
  str "8081828384858687888990919293949596979899".

Definition digits_at (i : Z) : Z := nth (Z.to_nat i) digits_table 0.

Definition buf_put (dst : bytes) (i : Z) (c : Z) : bytes := <[Z.to_nat i := c]> dst.

(** [while (value >= 100)]; a 64-bit value leaves the loop within 10 rounds. *)

Fixpoint ll2string_loop (fuel : nat) (dst : bytes) (next value : Z) : bytes * Z * Z :=
  match fuel with
  | O => (dst, next, value)
  | S f =>
      if value <? 100 then (dst, next, value) else
      let i := (value mod 100) * 2 in
      let value := value / 100 in
      let dst := buf_put dst next (digits_at (i + 1)) in
      let dst := buf_put dst (next - 1) (digits_at i) in
      ll2string_loop f dst (next - 2) value
  end.

Definition ll2string_last (dst : bytes) (next value : Z) : bytes :=
  if value <? 10 then buf_put dst next (48 + value)
  else
    let i := value * 2 in
    let dst := buf_put dst next (digits_at (i + 1)) in
    buf_put dst (next - 1) (digits_at i).

(** [int ll2string(char *dst, size_t dstlen, long long svalue)]: the buffer
    after the call and the returned length (0: the buffer is too small). *)

Definition ll2string (dst : bytes) (svalue : Z) : bytes * Z :=
  let negative := svalue <? 0 in
  let value :=
    if negative then
      if negb (svalue =? LLONG_MIN) then to_ull (- svalue) else LLONG_MAX + 1
    else svalue in
  let len := digits10 value + Z.b2z negative in
  if Z.of_nat (length dst) <=? len then (dst, 0) else
  let dst := buf_put dst len 0 in
  let '(dst, next, value) := ll2string_loop 10 dst (len - 1) value in
  let dst := ll2string_last dst next value in
  (if negative then buf_put dst 0 45 else dst, len).

Lemma digits_at_pair k :
  0 <= k < 100 -> digits_at (k * 2) = 48 + k / 10 /\ digits_at (k * 2 + 1) = 48 + k mod 10.
Proof.
  intros Hk.
  assert (forallb (fun n => let k := Z.of_nat n in
      (digits_at (k * 2) =? 48 + k / 10) && (digits_at (k * 2 + 1) =? 48 + k mod 10))
      (seq 0 100) = true) as H by (vm_compute; reflexivity).
  rewrite forallb_forall in H. specialize (H (Z.to_nat k)).
  rewrite Z2Nat.id in H by lia.
  destruct (andb_prop _ _ (H ltac:(apply in_seq; lia))). lia.
Qed.

Lemma dec_step2 n :
  100 <= n -> dec n = dec (n / 100) ++ [48 + n mod 100 / 10; 48 + (n mod 100) mod 10].
Proof.
  intros. rewrite dec_step by lia. rewrite dec_step by (apply Z.div_le_lower_bound; lia).
  rewrite Z.div_div by lia. rewrite <- app_assoc. simpl. change (10 * 10) with 100.
  assert ((n / 10) mod 10 = n mod 100 / 10) as -> by (Z.to_euclidean_division_equations; lia).
  assert ((n mod 100) mod 10 = n mod 10) as -> by (Z.to_euclidean_division_equations; lia).
  done.
Qed.

Lemma dec_two n : 10 <= n < 100 -> dec n = [48 + n / 10; 48 + n mod 10].
Proof.
  intros. rewrite dec_step, dec_small by (try split; try apply Z.div_pos; try apply Z.div_lt_upper_bound; lia).
  done.
Qed.

Lemma buf_put_mid pre x suf c i :
  i = Z.of_nat (length pre) -> buf_put (pre ++ x :: suf) i c = pre ++ c :: suf.
Proof.
  intros ->. unfold buf_put. rewrite Nat2Z.id.
  rewrite insert_app_r_alt by lia. by rewrite Nat.sub_diag.
Qed.

Lemma last_two {A} (l : list A) :
  (2 <= length l)%nat -> exists l0 x y, l = l0 ++ [x; y] /\ length l = (length l0 + 2)%nat.
Proof.
  intros H. exists (take (length l - 2) l).
  destruct (drop (length l - 2) l) as [|x [|y [|]]] eqn:E;
    pose proof (f_equal length E) as L; rewrite length_drop in L; simpl in L; try lia.
  exists x, y. rewrite <- E, take_drop. split; [done|]. rewrite length_take. lia.
Qed.

(** Two writes at the end of [pre] replace its last two bytes. *)

Lemma put_two pre suf n c d :
  (2 <= length pre)%nat -> n = Z.of_nat (length pre) - 1 ->
  buf_put (buf_put (pre ++ suf) n d) (n - 1) c =
  take (length pre - 2) pre ++ c :: d :: suf.
Proof.
  intros H ->. destruct (last_two pre H) as (l0 & x & y & -> & E). rewrite E.
  replace (length l0 + 2 - 2)%nat with (length l0) by lia. rewrite take_app_length.
  assert ((l0 ++ [x; y]) ++ suf = (l0 ++ [x]) ++ y :: suf) as -> by (by rewrite <- !app_assoc).
  rewrite buf_put_mid by (rewrite length_app; simpl; lia).
  rewrite <- app_assoc. simpl. apply buf_put_mid. lia.
Qed.

Lemma put_one pre suf n c :
  (1 <= length pre)%nat -> n = Z.of_nat (length pre) - 1 ->
  buf_put (pre ++ suf) n c = take (length pre - 1) pre ++ c :: suf.
Proof.
  intros H ->. destruct (exists_last (l := pre)) as (l0 & x & ->); [by intros ->; simpl in H; lia|].
  rewrite length_app. simpl. replace (length l0 + 1 - 1)%nat with (length l0) by lia.
  rewrite take_app_length. rewrite <- app_assoc. simpl. apply buf_put_mid. lia.
Qed.

(** The loop and the last digits fill the end of [pre] with the number. *)

Lemma ll2string_fill fuel : forall pre suf value k,
  0 <= value < 100 * 100 ^ Z.of_nat fuel ->
  length pre = (k + length (dec value))%nat ->
  (let '(d, n, v) := ll2string_loop fuel (pre ++ suf) (Z.of_nat (length pre) - 1) value in
   ll2string_last d n v) = take k pre ++ dec value ++ suf.
Proof.
  induction fuel as [|fuel IH]; intros pre suf value k Hv Hl; simpl ll2string_loop.
  2: destruct (Z.ltb_spec value 100) as [Hs|Hb].
  1-2: unfold ll2string_last; destruct (Z.ltb_spec value 10).
  1,3: rewrite dec_small in * by lia; simpl in Hl; rewrite put_one by lia;
       by replace (length pre - 1)%nat with k by lia.
  1,2: rewrite dec_two in * by (simpl in Hv; lia); simpl in Hl;
       destruct (digits_at_pair value) as [-> ->]; [simpl in Hv; lia|];
       rewrite put_two by lia; by replace (length pre - 2)%nat with k by lia.
  rewrite dec_step2 in Hl by lia. rewrite length_app in Hl. simpl in Hl.
  rewrite put_two by lia.
  destruct (digits_at_pair (value mod 100)) as [-> ->]; [apply Z.mod_pos_bound; lia|].
  set (pre' := take (length pre - 2) pre).
  assert (length pre' = (k + length (dec (value / 100)))%nat) as Hl'
    by (unfold pre'; rewrite length_take; lia).
  replace (Z.of_nat (length pre) - 1 - 2) with (Z.of_nat (length pre') - 1) by lia.
  rewrite (IH pre' _ _ k); [|split; [apply Z.div_pos; lia|]|done].
  2: { apply Z.div_lt_upper_bound; [lia|]. rewrite Nat2Z.inj_succ, Z.pow_succ_r in Hv by lia. lia. }
  unfold pre'. rewrite take_take, (dec_step2 value) by lia.
  rewrite Nat.min_l by lia. by rewrite <- app_assoc.
Qed.

Lemma ll2string_value z :
  LLONG_MIN <= z <= LLONG_MAX ->
  (if z <? 0 then if negb (z =? LLONG_MIN) then to_ull (- z) else LLONG_MAX + 1 else z) = Z.abs z.
Proof.
  unfold LLONG_MIN, LLONG_MAX, to_ull. intros.
  destruct (Z.ltb_spec z 0); [|lia]. destruct (Z.eqb_spec z (- 2 ^ 63)); simpl; [lia|].
  rewrite uwrap_id by lia. lia.
Qed.

Lemma print_Z_length z :
  LLONG_MIN <= z <= LLONG_MAX ->
  Z.of_nat (length (print_Z z)) = digits10 (Z.abs z) + Z.b2z (z <? 0).
Proof.
  unfold LLONG_MIN, LLONG_MAX. intros. rewrite digits10_dec by lia. unfold print_Z.
  destruct (Z.ltb_spec z 0); cbn [length Z.b2z].
  - rewrite Z.abs_neq; lia.
  - rewrite Z.abs_eq; lia.
Qed.

Lemma sdigits10_print z :
  LLONG_MIN <= z <= LLONG_MAX -> sdigits10 z = Z.of_nat (length (print_Z z)).
Proof.
  intros Hz. rewrite print_Z_length by done. rewrite <- (ll2string_value z Hz).
  unfold sdigits10. destruct (z <? 0); simpl; lia.
Qed.

Lemma ll2string_spec dst z :
  LLONG_MIN <= z <= LLONG_MAX ->
  ll2string dst z =
    if Z.of_nat (length dst) <=? Z.of_nat (length (print_Z z)) then (dst, 0)
    else (print_Z z ++ 0 :: drop (S (length (print_Z z))) dst, Z.of_nat (length (print_Z z))).
Proof.
  intros Hz. pose proof (print_Z_length z Hz) as L. unfold ll2string.
  rewrite ll2string_value, <- L by done.
  destruct (Z.leb_spec (Z.of_nat (length dst)) (Z.of_nat (length (print_Z z)))); [done|].
  set (n := length (print_Z z)) in *.
  assert (dst = take n dst ++ drop n dst) as Hsplit by (by rewrite take_drop).
  destruct (drop n dst) as [|x rest] eqn:Hd.
  { pose proof (f_equal length Hd) as E. rewrite length_drop in E. simpl in E. lia. }
  assert (rest = drop (S n) dst) as ->.
  { pose proof (drop_drop dst 1 n) as E. rewrite Hd in E. simpl in E.
    rewrite drop_0 in E. rewrite E. f_equal. lia. }
  assert (length (take n dst) = n) as Ln by (rewrite length_take; lia).
  rewrite Hsplit at 1. rewrite (buf_put_mid (take n dst)) by lia.
  unfold LLONG_MIN, LLONG_MAX in Hz. rewrite digits10_dec in L by lia.
  assert (0 <= Z.abs z < 100 * 100 ^ Z.of_nat 10) as Hb.
  { change (100 * 100 ^ Z.of_nat 10) with (10 ^ 22). lia. }
  assert (n = Nat.add (Z.to_nat (Z.b2z (z <? 0))) (length (dec (Z.abs z)))) as Hn
    by (destruct (z <? 0); cbn [Z.b2z] in *; lia).
  pose proof (ll2string_fill 10 (take n dst) (0 :: drop (S n) dst) (Z.abs z) _ Hb
                (eq_trans Ln Hn)) as F.
  rewrite Ln in F.
  destruct (ll2string_loop 10 _ _ _) as [[d m] v]. rewrite F.
  f_equal. unfold print_Z. destruct (Z.ltb_spec z 0).
  - rewrite Z.abs_neq by lia. destruct (take n dst) as [|y l]; cbn in Ln, Hn; [lia|].
    done.
  - rewrite Z.abs_eq by lia. done.
Qed.

(** ** [string2ll]: strict parsing of a long long

    [None] is the return value 0 (the output is then left unwritten). *)

(** The loop over the digits after the first one, with both overflow tests;
    it returns the value and the unread rest. *)

Fixpoint string2ll_loop (v : Z) (p : bytes) : option (Z * bytes) :=
  match p with
  | c :: p' =>
      if is_digit c then
        if v >? ULLONG_MAX / 10 then None else
        let v := v * 10 in
        if v >? ULLONG_MAX - (c - 48) then None else
        string2ll_loop (v + (c - 48)) p'
      else Some (v, p)
  | [] => Some (v, [])
  end.

Definition string2ll (s : bytes) : option Z :=
  match s with
  | [] => None
  | c0 :: rest0 =>
      if bool_decide (rest0 = []) && (c0 =? 48) then Some 0 else
      let negative := c0 =? 45 in
      let p := if negative then rest0 else s in
      match p with
      | [] => None
      | c :: p' =>
          if (49 <=? c) && (c <=? 57) then
            match string2ll_loop (c - 48) p' with
            | None => None
            | Some (_, _ :: _) => None
            | Some (v, []) =>
                if negative then
                  if v >? - (LLONG_MIN + 1) + 1 then None else Some (to_ll (- v))
                else if v >? LLONG_MAX then None else Some (to_ll v)
            end
          else None
      end
  end.

(** [long] has 64 bits, so the range test of [string2l] never fails. *)

Definition string2l (s : bytes) : option Z :=
  match string2ll s with
  | None => None
  | Some llval =>
      if (llval <? LLONG_MIN) || (llval >? LLONG_MAX) then None else Some (to_ll llval)
  end.

Lemma num_from_ge v s :
  0 <= v -> Forall (fun c => is_digit c = true) s -> v <= num_from v s.
Proof.
  revert v. induction s as [|c s IH]; intros v Hv Hs; cbn; [lia|].
  apply Forall_cons in Hs as [Hc Hs]. unfold is_digit in Hc.
  etrans; [|apply IH; [lia|done]]. lia.
Qed.

(** The loop returns exactly on digit strings whose value fits 64 bits. *)

Lemma string2ll_loop_spec v s w :
  0 <= v -> v <= ULLONG_MAX ->
  string2ll_loop v s = Some (w, []) <->
  Forall (fun c => is_digit c = true) s /\ w = num_from v s /\ w <= ULLONG_MAX.
Proof.
  revert v. induction s as [|c s IH]; intros v Hv Hm; cbn [string2ll_loop].
  { split; [intros [= ->]; eauto|intros (_ & -> & _); done]. }
  destruct (is_digit c) eqn:Hc.
  2: { split; [done|]. intros (H & _). apply Forall_cons in H as [H _]. congruence. }
  rewrite Z.gtb_ltb, Z.gtb_ltb. pose proof Hc as Hd. unfold is_digit in Hd.
  unfold ULLONG_MAX in *.
  assert (forall x, num_from v (c :: s) = x -> Forall (fun c => is_digit c = true) s -> v * 10 + (c - 48) <= x) as Hge.
  { intros x <- Hs. cbn. apply num_from_ge; [lia|done]. }
  destruct (Z.ltb_spec ((2 ^ 64 - 1) / 10) v) as [H1|H1];
    [|destruct (Z.ltb_spec (2 ^ 64 - 1 - (c - 48)) (v * 10)) as [H2|H2]].
  - split; [done|]. intros (H & -> & Hle). apply Forall_cons in H as [_ H].
    specialize (Hge _ eq_refl H). change ((2 ^ 64 - 1) / 10) with 1844674407370955161 in H1. lia.
  - split; [done|]. intros (H & -> & Hle). apply Forall_cons in H as [_ H].
    specialize (Hge _ eq_refl H). lia.
  - rewrite IH by lia. rewrite Forall_cons.
    change (num_from v (c :: s)) with (num_from (v * 10 + (c - 48)) s). tauto.
Qed.

Lemma string2ll_loop_dec n :
  0 < n <= ULLONG_MAX -> exists c t, dec n = c :: t /\ 49 <= c <= 57 /\
  string2ll_loop (c - 48) t = Some (n, []).
Proof.
  intros Hn. destruct (dec_head n) as (c & t & E & _ & Hc); [lia|]. specialize (Hc ltac:(lia)).
  exists c, t. split; [done|]. split; [done|].
  apply string2ll_loop_spec; [lia|unfold ULLONG_MAX; lia|].
  pose proof (dec_digits n ltac:(lia)) as D. pose proof (num_of_dec n ltac:(lia)) as N.
  rewrite E in D, N. apply Forall_cons in D as [_ D]. split; [done|].
  cbn in N. split; [by rewrite <- N|lia].
Qed.

(** Decimal notation is unique: a digit string without a leading zero is the
    notation of its value. *)

Lemma dec_num s : Forall (fun c => is_digit c = true) s ->
  forall n, 0 < n -> dec (num_from n s) = dec n ++ s.
Proof.
  induction s as [|c s IH] using rev_ind; intros Hs n Hn; [by rewrite app_nil_r|].
  apply Forall_app in Hs as [Hs Hc]. apply Forall_cons in Hc as [Hc _]. unfold is_digit in Hc.
  rewrite num_from_app.
  change (num_from (num_from n s) [c]) with (num_from n s * 10 + (c - 48)). pose proof (num_from_ge n s ltac:(lia) Hs).
  rewrite dec_step by lia. rewrite app_assoc.
  assert ((num_from n s * 10 + (c - 48)) / 10 = num_from n s) as ->.
  { rewrite Z.div_add_l, Z.div_small by lia. lia. }
  assert ((num_from n s * 10 + (c - 48)) mod 10 = c - 48) as ->.
  { rewrite Z.add_comm, Z.mod_add, Z.mod_small by lia. done. }
  rewrite IH by done. repeat f_equal. lia.
Qed.

Lemma string2ll_loop_inv c t v :
  49 <= c <= 57 -> string2ll_loop (c - 48) t = Some (v, []) -> c :: t = dec v /\ 0 < v <= ULLONG_MAX.
Proof.
  intros Hc. rewrite string2ll_loop_spec by (unfold ULLONG_MAX; lia). intros (D & -> & Hle).
  pose proof (num_from_ge (c - 48) t ltac:(lia) D).
  split; [|lia]. rewrite dec_num, dec_small by (done || lia). simpl. f_equal. lia.
Qed.

Lemma string2ll_print z :
  LLONG_MIN <= z <= LLONG_MAX -> string2ll (print_Z z) = Some z.
Proof.
  unfold LLONG_MIN, LLONG_MAX. intros Hz. unfold print_Z.
  destruct (decide (z = 0)) as [->|Hnz]; [reflexivity|].
  destruct (string2ll_loop_dec (Z.abs z)) as (c & t & E & Hc & L); [unfold ULLONG_MAX; lia|].
  destruct (Z.ltb_spec z 0).
  - rewrite Z.abs_neq in * by lia. rewrite E. simpl.
    rewrite ?andb_false_r. replace ((49 <=? c) && (c <=? 57)) with true by lia. rewrite L.
    unfold LLONG_MIN. destruct (- z >? _) eqn:G; [lia|]. f_equal.
    rewrite Z.opp_involutive. apply to_ll_id. unfold LLONG_MIN, LLONG_MAX. lia.
  - rewrite Z.abs_eq in * by lia. rewrite E. simpl.
    replace (c =? 48) with false by lia. rewrite andb_false_r. replace (c =? 45) with false by lia.
    replace ((49 <=? c) && (c <=? 57)) with true by lia. rewrite L.
    unfold LLONG_MAX. destruct (z >? _) eqn:G; [lia|]. f_equal.
    apply to_ll_id. unfold LLONG_MIN, LLONG_MAX. lia.
Qed.

Lemma string2ll_canonical s z :
  string2ll s = Some z -> s = print_Z z /\ LLONG_MIN <= z <= LLONG_MAX.
Proof.
  unfold string2ll. destruct s as [|c0 rest]; [done|].
  destruct (bool_decide (rest = []) && (c0 =? 48)) eqn:E0.
  { intros [= <-]. bool_cases. subst. done. }
  destruct (c0 =? 45) eqn:En.
  - destruct rest as [|c p]; [done|]. destruct ((49 <=? c) && (c <=? 57)) eqn:Hc; [|done].
    destruct (string2ll_loop (c - 48) p) as [[v [|]]|] eqn:L; try done.
    destruct (v >? _) eqn:G; [done|]. intros [= <-].
    apply string2ll_loop_inv in L as [L Hv]; [|lia]. unfold LLONG_MIN, LLONG_MAX in *.
    rewrite to_ll_id by (unfold LLONG_MIN, LLONG_MAX; lia).
    split; [|lia]. unfold print_Z. destruct (Z.ltb_spec (- v) 0); [|lia].
    rewrite Z.opp_involutive, <- L. f_equal. lia.
  - destruct ((49 <=? c0) && (c0 <=? 57)) eqn:Hc; [|done].
    destruct (string2ll_loop (c0 - 48) rest) as [[v [|]]|] eqn:L; try done.
    destruct (v >? _) eqn:G; [done|]. intros [= <-].
    apply string2ll_loop_inv in L as [L Hv]; [|lia]. unfold LLONG_MIN, LLONG_MAX in *.
    rewrite to_ll_id by (unfold LLONG_MIN, LLONG_MAX; lia).
    split; [|lia]. unfold print_Z. destruct (Z.ltb_spec v 0); [lia|done].
Qed.

Lemma string2l_string2ll s : string2l s = string2ll s.
Proof.
  unfold string2l. destruct (string2ll s) as [z|] eqn:E; [|done].
  destruct (string2ll_canonical _ _ E) as [_ H].
  destruct ((z <? LLONG_MIN) || (z >? LLONG_MAX)) eqn:G; [lia|]. by rewrite to_ll_id.
Qed.

Lemma print_Z_short z : LLONG_MIN <= z <= LLONG_MAX -> (0 < length (print_Z z) <= 20)%nat.
Proof.
  unfold LLONG_MIN, LLONG_MAX, print_Z. intros Hz.
  assert (forall n, 0 <= n <= 2 ^ 63 -> (0 < length (dec n) <= 19)%nat) as H.
  { intros n Hn. destruct (dec_length n ltac:(lia)) as (H1 & _ & H3). split; [done|].
    destruct (Z.eq_dec n 0) as [-> |]; [vm_compute; lia|]. specialize (H3 ltac:(lia)).
    destruct (Nat.le_gt_cases (length (dec n)) 19); [done|]. exfalso.
    assert (10 ^ 19 <= 10 ^ (Z.of_nat (length (dec n)) - 1)) by (apply Z.pow_le_mono_r; lia).
    assert (2 ^ 63 < 10 ^ 19) by done. lia. }
  destruct (Z.ltb_spec z 0); [pose proof (H (- z) ltac:(lia)); simpl; lia|pose proof (H z ltac:(lia)); lia].
Qed.

Lemma print_Z_no_nul z : 0 ∉ print_Z z.
Proof.
  unfold print_Z. assert (forall n, 0 <= n -> 0 ∉ dec n) as H.
  { intros n Hn Hin. pose proof (dec_digits n Hn) as Hd. rewrite Forall_forall in Hd. by specialize (Hd 0 Hin). }
  destruct (Z.ltb_spec z 0); [apply not_elem_of_cons; split; [done|]|]; apply H; lia.
Qed.

(** ** Claims *)

(** [string2ll] accepts exactly the canonical decimal notation of the
    numbers that fit in a [long long], and yields that number. *)
Lemma string2ll_iff s z :
  string2ll s = Some z <-> s = print_Z z /\ LLONG_MIN <= z <= LLONG_MAX.
Proof.
  split; [apply string2ll_canonical|]. intros [-> H]. by apply string2ll_print.
Qed.

(** [ll2string] writes the decimal notation of any [long long] and a NUL
    when the buffer has room for both, and otherwise writes nothing and
    returns 0; what it writes, [string2ll] reads back. *)
Lemma ll2string_string2ll dst z (Hz : LLONG_MIN <= z <= LLONG_MAX) :
  let len := Z.of_nat (length (print_Z z)) in
  ll2string dst z =
    (if Z.of_nat (length dst) <=? len then (dst, 0)
     else (print_Z z ++ 0 :: drop (S (length (print_Z z))) dst, len)) /\
  (len < Z.of_nat (length dst) ->
   string2ll (take (Z.to_nat (snd (ll2string dst z))) (fst (ll2string dst z))) = Some z).
Proof.
  cbv zeta. rewrite ll2string_spec by done. split; [done|]. intros H.
  replace (Z.of_nat (length dst) <=? Z.of_nat (length (print_Z z))) with false by lia.
  cbn [fst snd]. rewrite Nat2Z.id, take_app_length. by apply string2ll_print.
Qed.

Lemma ll2string_string2ll_witness :
  let len := Z.of_nat (length (print_Z (-1234))) in
  ll2string (replicate 8 7) (-1234) =
    (if Z.of_nat (length (replicate 8 7)) <=? len then (replicate 8 7, 0)
     else (print_Z (-1234) ++ 0 :: drop (S (length (print_Z (-1234)))) (replicate 8 7), len)) /\
  (len < Z.of_nat (length (replicate 8 7)) ->
   string2ll (take (Z.to_nat (snd (ll2string (replicate 8 7) (-1234))))
                   (fst (ll2string (replicate 8 7) (-1234)))) = Some (-1234)).
Proof. apply ll2string_string2ll. unfold LLONG_MIN, LLONG_MAX. lia. Defined.
