(* ===== verification/Sds.v ===== *)
(** * Dynamic strings of [src/src/sds.c]

    An sds is the list of its bytes.  The operations that the CRDT code uses
    to read and write its textual formats: splitting and joining, trimming,
    sub-ranges, comparison, number formatting, and the quoted notation of
    [sdscatrepr] / [sdssplitargs]. *)

From S2P Require Import Prelude Util.

(** ** Splitting and joining *)

(** The scanning loop of [sdssplitlen]: [cur] is [s+start .. s+j) and [rest]
    is [s+j ..].  A round consumes a byte or a separator, so the length of the
    string bounds the rounds. *)

Fixpoint split_loop (fuel : nat) (sep cur rest : bytes) : list bytes :=
  match fuel with
  | O => []
  | S f =>
      if Z.of_nat (length rest) <? Z.of_nat (length sep) then [cur ++ rest]
      else if has_prefix sep rest then
        cur :: split_loop f sep [] (drop (length sep) rest)
      else
        match rest with
        | [] => [cur]
        | c :: rest => split_loop f sep (cur ++ [c]) rest
        end
  end.

(** [None]: NULL is returned. *)

Definition sdssplitlen (s sep : bytes) : option (list bytes) :=
  match sep with
  | [] => None
  | _ => match s with
         | [] => Some []
         | _ => Some (split_loop (S (length s)) sep [] s)
         end
  end.

Fixpoint sdsjoinsds (argv : list bytes) (sep : bytes) : bytes :=
  match argv with
  | [] => []
  | [s] => s
  | s :: rest => s ++ sep ++ sdsjoinsds rest sep
  end.

(** ** Trimming, sub-ranges, comparison *)

Definition strchr_in (cset : bytes) (c : Z) : bool := existsb (Z.eqb c) cset.

Fixpoint skip_left (cset s : bytes) : bytes :=
  match s with
  | [] => []
  | c :: t => if strchr_in cset c then skip_left cset t else s
  end.

(** [while (ep > sp && strchr(cset, *ep)) ep--], on the bytes after [*sp]: the
    byte [*sp] itself is never dropped from the right. *)

Fixpoint skip_right (cset s : bytes) : bytes :=
  match s with
  | [] => []
  | c :: t =>
      match skip_right cset t with
      | [] => if strchr_in cset c then [] else [c]
      | u => c :: u
      end
  end.

(** [strchr] also finds the terminating NUL of [cset], so a NUL byte is
    trimmed whatever the set is. *)

Definition sdstrim (s cset : bytes) : bytes :=
  match skip_left (cset ++ [0]) s with
  | [] => []
  | c :: t => c :: skip_right (cset ++ [0]) t
  end.

Definition sdsrange (s : bytes) (start stop : Z) : bytes :=
  let len := Z.of_nat (length s) in
  if len =? 0 then s else
  let start := if start <? 0 then (if len + start <? 0 then 0 else len + start) else start in
  let stop := if stop <? 0 then (if len + stop <? 0 then 0 else len + stop) else stop in
  let newlen := if stop <? start then 0 else stop - start + 1 in
  let '(start, newlen) :=
    if negb (newlen =? 0) then
      if len <=? start then (start, 0)
      else if len <=? stop then
        (start, if len - 1 <? start then 0 else (len - 1) - start + 1)
      else (start, newlen)
    else (0, newlen) in
  take (Z.to_nat newlen)
       (if negb (start =? 0) && negb (newlen =? 0) then drop (Z.to_nat start) s else s).

Fixpoint memcmp (s t : bytes) : Z :=
  match s, t with
  | c :: s, d :: t => if c =? d then memcmp s t else c - d
  | _, _ => 0
  end.

Definition sdscmp (s1 s2 : bytes) : Z :=
  let l1 := length s1 in
  let l2 := length s2 in
  let minlen := Nat.min l1 l2 in
  let cmp := memcmp (take minlen s1) (take minlen s2) in
  if cmp =? 0 then
    if (l2 <? l1)%nat then 1 else if (l1 <? l2)%nat then -1 else 0
  else cmp.

Definition sdstolower (s : bytes) : bytes := map tolower s.

(** ** Numbers *)

(** [do { *p++ = '0'+(v%10); v /= 10; } while(v)]: the digits in reverse. *)

Fixpoint rev_digits (fuel : nat) (v : Z) : bytes :=
  match fuel with
  | O => []
  | S f => (48 + v mod 10) :: (if v / 10 =? 0 then [] else rev_digits f (v / 10))
  end.

Definition sdsull2str (v : Z) : bytes := rev (rev_digits 20 v).

(** [-value] overflows for [LLONG_MIN]. *)

Definition sdsll2str (value : Z) : res bytes :=
  if value =? LLONG_MIN then Undef else
  let v := if value <? 0 then to_ull (- value) else value in
  Ok (rev (rev_digits 20 v ++ (if value <? 0 then [45] else []))).

Definition sdsfromlonglong (value : Z) : res bytes := sdsll2str value.

(** ** Quoted notation *)

Definition isprint (c : Z) : bool := (32 <=? c) && (c <=? 126).

Definition isspace (c : Z) : bool := (c =? 32) || ((9 <=? c) && (c <=? 13)).

Definition hex_char (d : Z) : Z := if d <? 10 then 48 + d else 97 + (d - 10).

(** The switch of [sdscatrepr] for one byte. *)

Definition repr_byte (c : Z) : bytes :=
  if (c =? 92) || (c =? 34) then [92; c] else
  if c =? 10 then str "\n" else
  if c =? 13 then str "\r" else
  if c =? 9 then str "\t" else
  if c =? 7 then str "\a" else
  if c =? 8 then str "\b" else
  if isprint c then [c]
  else str "\x" ++ [hex_char (c / 16); hex_char (c mod 16)].

Fixpoint repr_bytes (p : bytes) : bytes :=
  match p with
  | [] => []
  | c :: p => repr_byte c ++ repr_bytes p
  end.

Definition sdscatrepr (s p : bytes) : bytes := s ++ [34] ++ repr_bytes p ++ [34].

Definition is_hex_digit (c : Z) : bool :=
  ((48 <=? c) && (c <=? 57)) || ((97 <=? c) && (c <=? 102)) || ((65 <=? c) && (c <=? 70)).

Definition hex_digit_to_int (c : Z) : Z :=
  if (48 <=? c) && (c <=? 57) then c - 48 else
  if (97 <=? c) && (c <=? 102) then c - 87 else
  if (65 <=? c) && (c <=? 70) then c - 55 else 0.

(** The escapes [\n \r \t \b \a]; another escaped byte stands for itself. *)

Definition unescape (c : Z) : Z :=
  if c =? 110 then 10 else if c =? 114 then 13 else if c =? 116 then 9 else
  if c =? 98 then 8 else if c =? 97 then 7 else c.

(** A closing quote must be followed by a space or nothing at all. *)

Definition quote_end_ok (p : bytes) : bool :=
  match p with
  | [] => true
  | c :: _ => isspace c
  end.

Inductive quoting := Plain | InQ | InSq.

(** The token loop of [sdssplitargs]: [p] is what is left of the line (its end
    is the NUL the code tests); the result is the token and the rest, [None]
    the jump to [err]. *)

Fixpoint split_token (q : quoting) (current p : bytes) {struct p} : option (bytes * bytes) :=
  match q with
  | InQ =>
      match p with
      | [] => None
      | c :: p1 =>
          let other :=
            if c =? 34 then (if quote_end_ok p1 then Some (current, p1) else None)
            else split_token InQ (current ++ [c]) p1 in
          if c =? 92 then
            match p1 with
            | [] => other
            | x :: p2 =>
                let escape := split_token InQ (current ++ [unescape x]) p2 in
                match p2 with
                | h1 :: h2 :: p4 =>
                    if (x =? 120) && is_hex_digit h1 && is_hex_digit h2 then
                      split_token InQ
                        (current ++ [hex_digit_to_int h1 * 16 + hex_digit_to_int h2]) p4
                    else escape
                | _ => escape
                end
            end
          else other
      end
  | InSq =>
      match p with
      | [] => None
      | c :: p1 =>
          let other :=
            if c =? 39 then (if quote_end_ok p1 then Some (current, p1) else None)
            else split_token InSq (current ++ [c]) p1 in
          match p1 with
          | x :: p2 =>
              if (c =? 92) && (x =? 39) then split_token InSq (current ++ [39]) p2 else other
          | [] => other
          end
      end
  | Plain =>
      match p with
      | [] => Some (current, [])
      | c :: p1 =>
          if (c =? 32) || (c =? 10) || (c =? 13) || (c =? 9) then Some (current, p1)
          else if c =? 34 then split_token InQ current p1
          else if c =? 39 then split_token InSq current p1
          else split_token Plain (current ++ [c]) p1
      end
  end.

Fixpoint skip_blanks (p : bytes) : bytes :=
  match p with
  | [] => []
  | c :: p' => if isspace c then skip_blanks p' else p
  end.

(** ** Numbers at the start of a string: [strtoll(s, &end, 10)], [atoi] *)

Fixpoint digits_value (v : Z) (s : bytes) : Z :=
  match s with
  | c :: s => if is_digit c then digits_value (v * 10 + (c - 48)) s else v
  | [] => v
  end.

Fixpoint after_digits (s : bytes) : bytes :=
  match s with
  | c :: s' => if is_digit c then after_digits s' else s
  | [] => []
  end.

(** The sign, and what follows it. *)

Definition after_sign (s : bytes) : bool * bytes :=
  match skip_blanks s with
  | c :: t => if c =? 45 then (true, t) else if c =? 43 then (false, t) else (false, c :: t)
  | [] => (false, [])
  end.

Definition strtoll (s : bytes) : Z :=
  let '(neg, t) := after_sign s in
  let z := if (neg : bool) then - digits_value 0 t else digits_value 0 t in
  if z >? LLONG_MAX then LLONG_MAX else if z <? LLONG_MIN then LLONG_MIN else z.

(** What [end] points to: the whole string if there is no number. *)

Definition strtoll_end (s : bytes) : bytes :=
  match snd (after_sign s) with
  | c :: t => if is_digit c then after_digits t else s
  | [] => s
  end.

Definition atoi (s : bytes) : Z := to_int (strtoll s).

(** Every round of the outer loop consumes at least one byte. *)

Fixpoint splitargs_loop (fuel : nat) (p : bytes) : option (list bytes) :=
  match fuel with
  | O => None
  | S f =>
      match skip_blanks p with
      | [] => Some []
      | q =>
          match split_token Plain [] q with
          | None => None
          | Some (tok, rest) =>
              match splitargs_loop f rest with
              | None => None
              | Some toks => Some (tok :: toks)
              end
          end
      end
  end.

Definition sdssplitargs (line : bytes) : option (list bytes) :=
  splitargs_loop (S (length line)) line.

(** ** Facts about splitting and joining *)

(** Reference: splitting at a single byte. *)

Fixpoint splitc (c : Z) (s : bytes) : list bytes :=
  match s with
  | [] => [[]]
  | x :: s =>
      if x =? c then [] :: splitc c s
      else match splitc c s with
           | [] => [[x]]
           | t :: ts => (x :: t) :: ts
           end
  end.

Lemma splitc_not_nil c s : splitc c s <> [].
Proof. destruct s as [|x s]; simpl; [done|]. destruct (x =? c); [done|]. by destruct (splitc c s). Qed.

Lemma split_loop_splitc c fuel cur rest :
  (length rest < fuel)%nat ->
  split_loop fuel [c] cur rest =
    match splitc c rest with [] => [cur] | t :: ts => (cur ++ t) :: ts end.
Proof.
  revert cur rest. induction fuel as [|fuel IH]; intros cur rest Hf; [lia|].
  destruct rest as [|x rest]; [done|]. simpl in Hf.
  cbn [split_loop length has_prefix drop splitc].
  destruct (Z.ltb_spec (Z.of_nat (S (length rest))) (Z.of_nat 1)); [lia|].
  rewrite (Z.eqb_sym x c). destruct (c =? x); simpl.
  - rewrite drop_0, IH by lia. rewrite app_nil_r.
    pose proof (splitc_not_nil c rest). by destruct (splitc c rest).
  - rewrite IH by lia. destruct (splitc c rest); [done|]. by rewrite <- app_assoc.
Qed.

Lemma sdssplitlen_splitc c s :
  s <> [] -> sdssplitlen s [c] = Some (splitc c s).
Proof.
  intros Hs. unfold sdssplitlen. destruct s as [|x s]; [done|].
  f_equal. rewrite split_loop_splitc by lia.
  pose proof (splitc_not_nil c (x :: s)). by destruct (splitc c (x :: s)).
Qed.

Lemma splitc_app_sep c t s : c ∉ t -> splitc c (t ++ c :: s) = t :: splitc c s.
Proof.
  induction t as [|x t IH]; intros Ht; simpl; [by rewrite Z.eqb_refl|].
  apply not_elem_of_cons in Ht as [Hx Ht].
  destruct (Z.eqb_spec x c); [congruence|]. by rewrite IH.
Qed.

Lemma splitc_no_sep c t : c ∉ t -> splitc c t = [t].
Proof.
  induction t as [|x t IH]; intros Ht; simpl; [done|].
  apply not_elem_of_cons in Ht as [Hx Ht].
  destruct (Z.eqb_spec x c); [congruence|]. by rewrite IH.
Qed.

Lemma sdsjoinsds_cons s l sep :
  l <> [] -> sdsjoinsds (s :: l) sep = s ++ sep ++ sdsjoinsds l sep.
Proof. by destruct l. Qed.

Lemma splitc_join c toks :
  toks <> [] -> Forall (fun t => c ∉ t) toks -> splitc c (sdsjoinsds toks [c]) = toks.
Proof.
  induction toks as [|t toks IH]; intros Hn Ht; [done|]. apply Forall_cons in Ht as [Ht Hts].
  destruct toks as [|u toks]; [by apply splitc_no_sep|].
  rewrite sdsjoinsds_cons by done. set (r := sdsjoinsds _ _).
  change (t ++ [c] ++ r) with (t ++ c :: r). rewrite splitc_app_sep by done.
  f_equal. by apply IH.
Qed.

Lemma splitc_tokens c s : Forall (fun t => c ∉ t) (splitc c s).
Proof.
  induction s as [|x s IH]; simpl; [repeat constructor; apply not_elem_of_nil|].
  destruct (Z.eqb_spec x c); [constructor; [apply not_elem_of_nil|done]|].
  destruct (splitc c s) as [|t ts].
  - repeat constructor. rewrite list_elem_of_singleton. congruence.
  - apply Forall_cons in IH as [H1 H2]. constructor; [|done]. rewrite elem_of_cons. by intros [?|?].
Qed.

Lemma split_loop_join sep fuel cur rest :
  sep <> [] -> (length rest < fuel)%nat ->
  split_loop fuel sep cur rest <> [] /\
  sdsjoinsds (split_loop fuel sep cur rest) sep = cur ++ rest.
Proof.
  intros Hsep. revert cur rest. induction fuel as [|fuel IH]; intros cur rest Hf; [lia|].
  cbn [split_loop]. destruct (Z.ltb_spec (Z.of_nat (length rest)) (Z.of_nat (length sep))); [done|].
  destruct (has_prefix sep rest) eqn:Hp.
  - apply has_prefix_true in Hp as [r ->]. rewrite drop_app_length. rewrite length_app in Hf.
    assert (0 < length sep)%nat by (destruct sep; [done|simpl; lia]).
    destruct (IH [] r) as [Hn Hj]; [lia|]. split; [done|].
    rewrite sdsjoinsds_cons, Hj by done. done.
  - destruct rest as [|c rest]; [by rewrite app_nil_r|]. simpl in Hf.
    destruct (IH (cur ++ [c]) rest) as [Hn Hj]; [lia|]. split; [done|].
    rewrite Hj. by rewrite <- app_assoc.
Qed.

(** ** Facts about ranges, comparison and numbers *)

(** [sdsrange(s, n, -1)] drops the first [n] bytes. *)

Lemma sdsrange_suffix s n : 0 <= n -> sdsrange s n (-1) = drop (Z.to_nat n) s.
Proof.
  intros Hn. unfold sdsrange. set (len := Z.of_nat (length s)).
  destruct (Z.eqb_spec len 0) as [E|E].
  { destruct s; [by rewrite drop_nil|unfold len in E; simpl in E; lia]. }
  replace (n <? 0) with false by lia. replace (-1 <? 0) with true by done.
  replace (len + -1 <? 0) with false by lia.
  destruct (Z.ltb_spec (len + -1) n) as [Hlt|Hge].
  - simpl. symmetry. apply drop_ge. lia.
  - replace (len + -1 - n + 1 =? 0) with false by lia. simpl.
    replace (len <=? n) with false by lia. replace (len <=? len + -1) with false by lia.
    replace (len + -1 - n + 1 =? 0) with false by lia. rewrite andb_true_r.
    destruct (Z.eqb_spec n 0) as [->|]; simpl;
      apply take_ge; rewrite ?length_drop; lia.
Qed.

Lemma memcmp_eq s t : length s = length t -> memcmp s t = 0 <-> s = t.
Proof.
  revert t. induction s as [|c s IH]; intros [|d t]; simpl; try done.
  intros [= H]. destruct (Z.eqb_spec c d) as [->|Hne].
  - rewrite IH by done. split; congruence.
  - split; [lia|congruence].
Qed.

Lemma sdscmp_eq s t : sdscmp s t = 0 <-> s = t.
Proof.
  unfold sdscmp.
  assert (length (take (Nat.min (length s) (length t)) s) =
          length (take (Nat.min (length s) (length t)) t)) as Hl
    by (rewrite !length_take; lia).
  destruct (Z.eqb_spec (memcmp (take (Nat.min (length s) (length t)) s)
                               (take (Nat.min (length s) (length t)) t)) 0) as [E|E].
  - apply memcmp_eq in E; [|done].
    destruct (Nat.ltb_spec (length t) (length s)); [split; [done|intros ->; lia]|].
    destruct (Nat.ltb_spec (length s) (length t)); [split; [done|intros ->; lia]|].
    rewrite !take_ge in E by lia. split; [done|]. done.
  - split; [done|]. intros ->. exfalso. apply E. by apply memcmp_eq.
Qed.

Lemma rev_digits_dec fuel v :
  0 <= v < 10 ^ Z.of_nat fuel -> (0 < fuel)%nat -> rev (rev_digits fuel v) = dec v.
Proof.
  revert v. induction fuel as [|fuel IH]; intros v Hv Hf; [lia|]. cbn [rev_digits].
  destruct (Z_lt_ge_dec v 10) as [Hs|Hb].
  - rewrite Z.div_small by lia. rewrite Z.mod_small by lia. by rewrite dec_small by lia.
  - assert (1 <= v / 10) by (apply Z.div_le_lower_bound; lia).
    replace (v / 10 =? 0) with false by lia. simpl. rewrite IH, (dec_step v); [done|lia|split; [lia|]|].
    + apply Z.div_lt_upper_bound; [lia|]. rewrite Nat2Z.inj_succ, Z.pow_succ_r in Hv; lia.
    + destruct fuel; [simpl in Hv; lia|lia].
Qed.

Lemma sdsull2str_dec v : 0 <= v <= ULLONG_MAX -> sdsull2str v = dec v.
Proof.
  unfold ULLONG_MAX. intros. apply rev_digits_dec; [|lia].
  change (10 ^ Z.of_nat 20) with 100000000000000000000. lia.
Qed.

Lemma sdsll2str_print z :
  LLONG_MIN < z <= LLONG_MAX -> sdsll2str z = Ok (print_Z z).
Proof.
  unfold LLONG_MIN, LLONG_MAX. intros Hz. unfold sdsll2str, LLONG_MIN, print_Z.
  replace (z =? - 2 ^ 63) with false by lia. f_equal. rewrite rev_app_distr.
  destruct (Z.ltb_spec z 0).
  - unfold to_ull. rewrite uwrap_id by lia. change (rev [45]) with [45]. cbn [app]. f_equal. apply (sdsull2str_dec (- z)).
    unfold ULLONG_MAX. lia.
  - apply (sdsull2str_dec z). unfold ULLONG_MAX. lia.
Qed.

(** ** Facts about the quoted notation *)

Lemma hex_char_digit d :
  0 <= d < 16 -> is_hex_digit (hex_char d) = true /\ hex_digit_to_int (hex_char d) = d.
Proof.
  intros. unfold is_hex_digit, hex_digit_to_int, hex_char.
  destruct (Z.ltb_spec d 10); split.
  - lia.
  - replace ((48 <=? 48 + d) && (48 + d <=? 57)) with true by lia. lia.
  - lia.
  - replace ((48 <=? 97 + (d - 10)) && (97 + (d - 10) <=? 57)) with false by lia.
    replace ((97 <=? 97 + (d - 10)) && (97 + (d - 10) <=? 102)) with true by lia. lia.
Qed.

(** Inside double quotes the token loop reads one escaped byte back. *)

Lemma split_token_repr_byte c cur rest :
  0 <= c < 256 ->
  split_token InQ cur (repr_byte c ++ rest) = split_token InQ (cur ++ [c]) rest.
Proof.
  intros Hc. unfold repr_byte.
  destruct (Z.eqb_spec c 92) as [->|]; [by destruct rest as [|? [|? ?]]|].
  destruct (Z.eqb_spec c 34) as [->|]; [by destruct rest as [|? [|? ?]]|].
  destruct (Z.eqb_spec c 10) as [->|]; [by destruct rest as [|? [|? ?]]|].
  destruct (Z.eqb_spec c 13) as [->|]; [by destruct rest as [|? [|? ?]]|].
  destruct (Z.eqb_spec c 9) as [->|]; [by destruct rest as [|? [|? ?]]|].
  destruct (Z.eqb_spec c 7) as [->|]; [by destruct rest as [|? [|? ?]]|].
  destruct (Z.eqb_spec c 8) as [->|]; [by destruct rest as [|? [|? ?]]|].
  simpl orb. cbv iota. destruct (isprint c) eqn:Hp.
  - cbn [app split_token]. replace (c =? 92) with false by lia. by replace (c =? 34) with false by lia.
  - destruct (hex_char_digit (c / 16)) as [H1 H2].
    { split; [apply Z.div_pos; lia|apply Z.div_lt_upper_bound; lia]. }
    destruct (hex_char_digit (c mod 16)) as [H3 H4]; [apply Z.mod_pos_bound; lia|].
    remember (hex_char (c / 16)) as x. remember (hex_char (c mod 16)) as y.
    change (str "\x" ++ [x; y]) with [92; 120; x; y]. cbn [app split_token].
    rewrite H1, H3, H2, H4. simpl. do 3 f_equal. pose proof (Z.div_mod c 16). lia.
Qed.

Lemma split_token_repr p cur rest :
  bytes_ok p -> split_token InQ cur (repr_bytes p ++ rest) = split_token InQ (cur ++ p) rest.
Proof.
  revert cur. induction p as [|c p IH]; intros cur Hp; [by rewrite app_nil_r|].
  apply Forall_cons in Hp as [Hc Hp]. cbn [repr_bytes].
  rewrite <- app_assoc, split_token_repr_byte, IH by done. by rewrite <- app_assoc.
Qed.

Lemma split_token_quoted p rest :
  bytes_ok p -> quote_end_ok rest = true ->
  split_token Plain [] (sdscatrepr [] p ++ rest) = Some (p, rest).
Proof.
  intros Hp Hr. unfold sdscatrepr. rewrite <- !app_assoc. cbn [app split_token].
  simpl orb. cbv iota. simpl. rewrite split_token_repr by done. simpl.
  by rewrite Hr.
Qed.

Lemma sdscatrepr_head p : exists q, sdscatrepr [] p = 34 :: q.
Proof. unfold sdscatrepr. simpl. eauto. Qed.

Lemma splitargs_loop_head fuel p q tok rest :
  skip_blanks p = 34 :: q -> split_token Plain [] (34 :: q) = Some (tok, rest) ->
  splitargs_loop (S fuel) p = (toks ← splitargs_loop fuel rest; Some (tok :: toks)).
Proof. intros H1 H2. cbn [splitargs_loop]. rewrite H1, H2. by destruct splitargs_loop. Qed.

Lemma splitargs_loop_quoted fuel args pre :
  Forall bytes_ok args -> skip_blanks pre = [] ->
  (length args < fuel)%nat ->
  splitargs_loop fuel (pre ++ sdsjoinsds (map (sdscatrepr []) args) [32]) = Some args.
Proof.
  revert args pre. induction fuel as [|fuel IH]; intros args pre Hok Hpre Hf; [lia|].
  assert (forall q, skip_blanks (pre ++ q) = skip_blanks q) as Hskip.
  { clear -Hpre. induction pre as [|c pre IHp]; [done|]. simpl in *. destruct (isspace c); [auto|done]. }
  destruct args as [|a args].
  { cbn [map sdsjoinsds splitargs_loop]. by rewrite Hskip. }
  apply Forall_cons in Hok as [Ha Hok]. cbn [map] in *. destruct (sdscatrepr_head a) as [q Hq].
  destruct args as [|a2 args].
  - cbn [map sdsjoinsds]. pose proof (split_token_quoted a [] Ha eq_refl) as T.
    rewrite app_nil_r in T. rewrite Hq in T. erewrite (splitargs_loop_head _ _ q); [|rewrite Hskip, ?Hq; done|exact T].
    simpl in Hf. destruct fuel; [lia|done].
  - rewrite sdsjoinsds_cons by done. set (r := sdsjoinsds _ _).
    pose proof (split_token_quoted a ([32] ++ r) Ha eq_refl) as T. rewrite Hq in T.
    erewrite (splitargs_loop_head _ _ (q ++ [32] ++ r)); [|by rewrite Hskip, Hq|exact T].
    unfold r. rewrite (IH (a2 :: args) [32]); [done..|simpl in *; lia].
Qed.

Lemma sdsjoinsds_length argv sep :
  Forall (fun a => (1 <= length a)%nat) argv -> (length argv <= length (sdsjoinsds argv sep))%nat.
Proof.
  induction argv as [|a argv IH]; [simpl; lia|]. intros [Ha H]%Forall_cons.
  destruct argv as [|b argv]; [simpl in *; lia|].
  rewrite sdsjoinsds_cons, !length_app by done. specialize (IH H). simpl length in *. lia.
Qed.

(** ** Claims *)

(** Splitting a non-empty string at any separator and joining the pieces
    with that separator gives the string back; and a list of pieces that hold
    no separator byte, joined and split again, is unchanged. *)
Lemma sdssplitlen_join_roundtrip :
  (forall s sep toks, s <> [] -> sdssplitlen s sep = Some toks -> sdsjoinsds toks sep = s) /\
  (forall c toks, sdsjoinsds toks [c] <> [] -> Forall (fun t => c ∉ t) toks ->
     sdssplitlen (sdsjoinsds toks [c]) [c] = Some toks).
Proof.
  split.
  - intros s sep toks Hs. unfold sdssplitlen.
    destruct sep as [|d sep]; [done|]. destruct s as [|x s]; [done|].
    intros H. apply (inj Some) in H. rewrite <- H.
    exact (proj2 (split_loop_join (d :: sep) (S (length (x :: s))) [] (x :: s) ltac:(done) ltac:(lia))).
  - intros c toks Hn Ht. rewrite sdssplitlen_splitc by done. f_equal.
    apply splitc_join; [|done]. by intros ->.
Qed.

Lemma sdssplitargs_repr (args : list bytes) (Hok : Forall bytes_ok args) :
  sdssplitargs (sdsjoinsds (map (sdscatrepr []) args) [32]) = Some args.
Proof.
  unfold sdssplitargs. apply (splitargs_loop_quoted _ args []); [done..|].
  rewrite Nat.lt_succ_r. rewrite <- (length_map (sdscatrepr []) args) at 1.
  apply sdsjoinsds_length. apply Forall_map. eapply Forall_impl; [exact Hok|].
  intros a _. destruct (sdscatrepr_head a) as [q E]. cbv beta. rewrite E. simpl. lia.
Qed.

(** The quoted form has no control byte. *)

Lemma repr_bytes_clean p c : bytes_ok p -> 0 <= c < 32 -> c ∉ repr_bytes p.
Proof.
  intros Hp Hc. induction Hp as [|d p Hd Hp IH]; cbn [repr_bytes]; [apply not_elem_of_nil|].
  rewrite not_elem_of_app. split; [|done]. unfold repr_byte.
  repeat case_match; simpl; rewrite ?not_elem_of_cons; unfold byte_of_ascii; simpl;
    bool_cases; unfold isprint, hex_char in *; repeat split; try apply not_elem_of_nil; try lia;
    repeat case_match; bool_cases; try lia;
    pose proof (Z.mod_pos_bound d 16); pose proof (Z.div_pos d 16); lia.
Qed.

Lemma repr_line_clean args c :
  Forall bytes_ok args -> 0 <= c < 32 -> c ∉ sdsjoinsds (map (sdscatrepr []) args) [32].
Proof.
  intros H Hc. induction H as [|a args Ha Hargs IH]; [apply not_elem_of_nil|].
  assert (c ∉ sdscatrepr [] a) as N.
  { unfold sdscatrepr. simpl. rewrite not_elem_of_cons, not_elem_of_app, list_elem_of_singleton.
    split; [lia|]. split; [by apply repr_bytes_clean|lia]. }
  destruct args as [|b args]; [exact N|]. cbn [map sdsjoinsds]. cbn [map] in IH.
  rewrite !not_elem_of_app, list_elem_of_singleton. split; [done|]. split; [lia|done].
Qed.

(** A printed number is read back. *)

Lemma digits_value_all v s : Forall (fun c => is_digit c = true) s -> digits_value v s = num_from v s /\ after_digits s = [].
Proof.
  intros H. revert v. induction H as [|c s Hc Hs IH]; intros v; [done|]. cbn [digits_value after_digits]. rewrite Hc.
  split; [apply IH|apply (IH 0)].
Qed.

(** The sign and the digits of a printed number. *)

Lemma print_Z_parts z : exists c t, after_sign (print_Z z) = (z <? 0, c :: t) /\ dec (Z.abs z) = c :: t /\ is_digit c = true.
Proof.
  destruct (dec_head (Z.abs z) ltac:(lia)) as (c & t & E & H0 & H1). exists c, t.
  assert (48 <= c <= 57) by (destruct (Z.eq_dec z 0) as [->|]; [destruct (H0 eq_refl); lia|specialize (H1 ltac:(lia)); lia]).
  split; [|split; [done|unfold is_digit; lia]]. unfold print_Z, after_sign. destruct (Z.ltb_spec z 0).
  - rewrite <- Z.abs_neq, E by lia. done.
  - rewrite <- (Z.abs_eq z), E by lia. cbn [skip_blanks]. replace (isspace c) with false by (unfold isspace; lia).
    destruct (Z.eqb_spec c 45); [lia|]. destruct (Z.eqb_spec c 43); [lia|done].
Qed.

Lemma print_Z_reads z : LLONG_MIN <= z <= LLONG_MAX ->
  strtoll (print_Z z) = z /\ strtoll_end (print_Z z) = [].
Proof.
  intros Hz. unfold LLONG_MIN, LLONG_MAX in Hz. destruct (print_Z_parts z) as (c & t & Es & Ed & Hc).
  destruct (digits_value_all 0 _ (dec_digits (Z.abs z) ltac:(lia))) as [Hv Ha].
  unfold strtoll, strtoll_end. rewrite Es. cbn [snd]. rewrite Hc, Ed in *. cbn [after_digits] in Ha. rewrite Hc in Ha. split; [|done].
  rewrite Hv, <- Ed, num_of_dec by lia. unfold LLONG_MAX, LLONG_MIN.
  replace (if z <? 0 then - Z.abs z else Z.abs z) with z by (destruct (Z.ltb_spec z 0); lia).
  destruct (Z.gtb_spec z (2 ^ 63 - 1)); [lia|]. destruct (Z.ltb_spec z (- 2 ^ 63)); lia.
Qed.

(** The quoted notation is lossless: the space-separated quoted forms
    ([sdscatrepr]) of any list of byte strings are read back by
    [sdssplitargs] as that list. *)
Lemma sdssplitargs_repr_roundtrip (args : list bytes) (Hok : Forall bytes_ok args) :
  sdssplitargs (sdsjoinsds (map (sdscatrepr []) args) [32]) = Some args.
Proof. by apply sdssplitargs_repr. Qed.

Lemma sdssplitargs_repr_roundtrip_witness :
  sdssplitargs (sdsjoinsds (map (sdscatrepr []) [str "set"; [0; 34; 255]; []]) [32])
  = Some [str "set"; [0; 34; 255]; []].
Proof.
  apply sdssplitargs_repr_roundtrip. decide_now.
Defined.
