(* ===== verification/VectorClock.v ===== *)
(** * Vector clocks ([src/src/ctrip_vector_clock.c], [.h]): the operations

    A clock is the list of its units in storage order.  In memory a clock with
    one unit is that unit (a 64-bit word) and a longer one is a pointer to an
    array; a pointer to a unit is here its position in the list.  The 4-bit
    and 56-bit fields wrap as the bit fields do.  The functions that write
    through a [VectorClock *] argument return the new clock; memory that has
    been allocated but not yet written is [None] in a buffer under
    construction.  [Abort] stands for a failed [assert]. *)

From S2P Require Import Prelude Util Sds.

(** ** Units *)

Definition GIDSIZE : Z := 4.

Definition MAX_PEERS : Z := Z.shiftl 1 GIDSIZE - 1.

(** [opt], the third field of the struct, is never read. *)

Record clk := Clk { gid : Z; clock : Z }.

#[global] Instance clk_eq_dec : EqDecision clk.
Proof. solve_decision. Defined.

Abbreviation VectorClock := (list clk).

Definition get_gid (c : clk) : Z := to_char (gid c).

Definition get_logic_clock (c : clk) : Z := to_ll (clock c).

(** [set_gid] and [set_logic_clock] on the unit [c] points to. *)

Definition set_gid (c : clk) (g : Z) : res clk :=
  _ ← c_assert ((g <? Z.shiftl 1 GIDSIZE) && (g >? 0));
  Ok (Clk (uwrap GIDSIZE g) (clock c)).

Definition set_logic_clock (c : clk) (logic_time : Z) : clk :=
  Clk (gid c) (uwrap (64 - 2 * GIDSIZE) logic_time).

Definition init_clock (g logic_clk : Z) : clk :=
  Clk (uwrap GIDSIZE g) (uwrap (64 - 2 * GIDSIZE) logic_clk).

Definition zero_unit : clk := Clk 0 0.

(** ** Storage *)

Definition get_len {A} (vc : list A) : Z := Z.of_nat (length vc).

Definition isNullVectorClock {A} (vc : list A) : bool := get_len vc =? 0.

Definition isNullVectorClockUnit (u : clk) : bool := clock u =? 0.

Definition ismulti {A} (vc : list A) : bool := get_len vc >? 1.

(** A buffer whose units may be indeterminate. *)

Abbreviation vc_buf := (list (option clk)).

(** The number of units is kept in a [char] and then asserted to fit in four
    bits.  (Where the conversion to [char] changes the number, the model keeps
    the converted length, with indeterminate units.) *)

Definition newVectorClock (numVcUnits : Z) : res vc_buf :=
  if numVcUnits =? 0 then Ok [] else
  let length := to_char numVcUnits in
  _ ← c_assert ((length <? Z.shiftl 1 GIDSIZE) && (length >? 0));
  Ok (if numVcUnits =? 1 then [Some zero_unit] else replicate (Z.to_nat length) None).

(** The unit pointer: NULL past [len]; with one unit always that unit. *)

Definition get_clock_unit_by_index {A} (vc : list A) (index : Z) : option Z :=
  let len := get_len vc in
  if index >? len then None
  else if len =? 1 then Some 0
  else Some index.

Definition set_clock_unit_by_index (vclock : vc_buf) (index : Z) (c : clk) : res vc_buf :=
  let p := get_clock_unit_by_index vclock index in
  _ ← c_assert ((get_gid c <? Z.shiftl 1 GIDSIZE) && (get_gid c >? 0));
  p ← need p;
  if (0 <=? p) && (p <? get_len vclock) then
    Ok (<[Z.to_nat p := Some (init_clock (get_gid c) (get_logic_clock c))]> vclock)
  else Undef.

(** Using a buffer as a clock: all its units must have been written. *)

Fixpoint freeze (b : vc_buf) : res VectorClock :=
  match b with
  | [] => Ok []
  | None :: _ => Undef
  | Some u :: b => vc ← freeze b; Ok (u :: vc)
  end.

(** The loops [for i: set_clock_unit_by_index(&target, i, unit_i)]. *)

Fixpoint set_units (target : vc_buf) (index : Z) (units : list clk) : res vc_buf :=
  match units with
  | [] => Ok target
  | u :: units => t ← set_clock_unit_by_index target index u; set_units t (index + 1) units
  end.

(** ** Sorting *)

Definition sort_vector_clock_unit (a b : clk) : Z :=
  if get_gid a >? get_gid b then 1
  else if get_gid a =? get_gid b then 0
  else -1.

Definition unit_le (a b : clk) : Prop := sort_vector_clock_unit a b <= 0.

#[global] Instance unit_le_dec : RelDecision unit_le.
Proof. intros a b. apply Z_le_dec. Defined.

(** [qsort] with that comparison. *)

Definition sortVectorClock (vc : VectorClock) : VectorClock :=
  if get_len vc =? 1 then vc else merge_sort unit_le vc.

(** ** Look-up and update of one unit *)

Fixpoint find_unit (vc : VectorClock) (g : Z) : option nat :=
  match vc with
  | [] => None
  | c :: vc => if get_gid c =? g then Some 0%nat else S <$> find_unit vc g
  end.

Definition get_clock_unit (vc : VectorClock) (g : Z) : option nat := find_unit vc (to_char g).

Definition getVectorClockUnit (vc : VectorClock) (g : Z) : clk :=
  if isNullVectorClock vc then zero_unit else
  match get_clock_unit vc g with
  | None => zero_unit
  | Some p => default zero_unit (vc !! p)
  end.

(** The value and the index (−1 when there is none) that it reports. *)

Fixpoint get_vcu_from (i : Z) (vc : VectorClock) (g : Z) : Z * Z :=
  match vc with
  | [] => (0, -1)
  | c :: vc => if get_gid c =? g then (get_logic_clock c, i) else get_vcu_from (i + 1) vc g
  end.

Definition get_vcu_from_vc (vc : VectorClock) (g : Z) : Z * Z := get_vcu_from 0 vc g.

Definition addVectorClockUnit (vc : VectorClock) (g logic_time : Z) : res VectorClock :=
  match get_clock_unit vc g with
  | Some p =>
      u ← need (vc !! p);
      u ← set_gid u (to_char g);
      Ok (<[p := set_logic_clock u logic_time]> vc)
  | None =>
      target ← newVectorClock (get_len vc + 1);
      target ← set_units target 0 vc;
      let wanted := init_clock (to_char g) logic_time in
      target ← (if get_len vc <? get_len target
                then set_clock_unit_by_index target (get_len vc) wanted
                else Ok target);
      target ← freeze target;
      Ok (sortVectorClock target)
  end.

(** The sum is computed in [long long]. *)

Definition incrLogicClock (vc : VectorClock) (g delta : Z) : res VectorClock :=
  match get_clock_unit vc g with
  | None => Ok vc
  | Some p =>
      u ← need (vc !! p);
      let logic_clock := get_logic_clock u + delta in
      if (LLONG_MIN <=? logic_clock) && (logic_clock <=? LLONG_MAX) then
        Ok (<[p := set_logic_clock u logic_clock]> vc)
      else Undef
  end.

Definition dupVectorClock (vc : VectorClock) : res VectorClock :=
  let length := get_len vc in
  dup ← newVectorClock length;
  if length >? 1 then Ok vc
  else if length =? 1 then
    u ← need (vc !! 0%nat);
    dup ← set_clock_unit_by_index dup 0 u;
    freeze dup
  else freeze dup.

(** ** Merging one gid *)

Inductive merge_flag := CLOCK_UNIT_MAX | CLOCK_UNIT_ALIGN.

Definition max_clock (x y : Z) : Z := if x >? y then x else y.

Definition min_clock (x y : Z) : Z := if x >? y then y else x.

Definition commonMergeFunction (dst src : VectorClock) (g : Z) (flag : merge_flag)
  : res VectorClock :=
  match get_clock_unit src g with
  | None => Ok dst
  | Some ps =>
      s ← need (src !! ps);
      match get_clock_unit dst g with
      | None =>
          let dst_length := get_len dst in
          result ← newVectorClock (dst_length + 1);
          result ← set_units result 0 dst;
          result ← set_clock_unit_by_index result dst_length
                     (init_clock (to_char g) (get_logic_clock s));
          result ← freeze result;
          Ok (sortVectorClock result)
      | Some pd =>
          d ← need (dst !! pd);
          let logic_clock :=
            match flag with
            | CLOCK_UNIT_MAX => max_clock (get_logic_clock s) (get_logic_clock d)
            | CLOCK_UNIT_ALIGN => get_logic_clock s
            end in
          d ← set_gid d (to_char g);
          Ok (<[pd := set_logic_clock d logic_clock]> dst)
      end
  end.

Definition mergeLogicClock (dst src : VectorClock) (g : Z) : res VectorClock :=
  commonMergeFunction dst src g CLOCK_UNIT_MAX.

Definition updateProcessVectorClock (dst src : VectorClock) (g currentGid : Z)
  : res VectorClock :=
  if g =? currentGid then commonMergeFunction dst src g CLOCK_UNIT_ALIGN
  else commonMergeFunction dst src g CLOCK_UNIT_MAX.

Definition getMonoVectorClock (src : VectorClock) (g : Z) : res VectorClock :=
  match get_clock_unit src g with
  | None => Ok []
  | Some p =>
      c ← need (src !! p);
      f ← set_gid (set_logic_clock zero_unit (get_logic_clock c)) (get_gid c);
      Ok [f]
  end.

(** ** Merging whole clocks *)

(** One gid of the bitmap loop: counted when its bit is clear. *)

Definition count_gid (st : Z * Z) (c : clk) : Z * Z :=
  let '(bit_map, num) := st in
  let g := uwrap 8 (get_gid c) in
  if Z.land (Z.shiftr bit_map g) 1 =? 0
  then (Z.lor bit_map (uwrap 32 (Z.shiftl 1 g)), num + 1)
  else (bit_map, num).

Definition count_all_gid_num (dst src : VectorClock) : Z :=
  snd (fold_left count_gid dst (fold_left count_gid src (0, 0))).

(** The three [while] loops that merge two sorted clocks into [target]: [both]
    combines the clocks of a gid that both have, [one] is applied to the clock
    of a gid that only one has. *)

Fixpoint merge_rest (one : Z -> Z) (target : vc_buf) (tar_index : Z) (l : list clk)
  : res vc_buf :=
  match l with
  | [] => Ok target
  | c :: l =>
      t ← set_clock_unit_by_index target tar_index
            (init_clock (get_gid c) (one (get_logic_clock c)));
      merge_rest one t (tar_index + 1) l
  end.

Fixpoint merge_loop (both : Z -> Z -> Z) (one : Z -> Z) (target : vc_buf) (tar_index : Z)
    (l1 l2 : list clk) {struct l1} : res vc_buf :=
  (fix inner (target : vc_buf) (tar_index : Z) (l2 : list clk) {struct l2} : res vc_buf :=
     match l1, l2 with
     | [], _ => merge_rest one target tar_index l2
     | _, [] => merge_rest one target tar_index l1
     | src_clock :: l1', dst_clock :: l2' =>
         if get_gid src_clock =? get_gid dst_clock then
           t ← set_clock_unit_by_index target tar_index
                 (init_clock (get_gid src_clock)
                    (both (get_logic_clock src_clock) (get_logic_clock dst_clock)));
           merge_loop both one t (tar_index + 1) l1' l2'
         else if get_gid src_clock >? get_gid dst_clock then
           t ← set_clock_unit_by_index target tar_index
                 (init_clock (get_gid dst_clock) (one (get_logic_clock dst_clock)));
           inner t (tar_index + 1) l2'
         else
           t ← set_clock_unit_by_index target tar_index
                 (init_clock (get_gid src_clock) (one (get_logic_clock src_clock)));
           merge_loop both one t (tar_index + 1) l1' l2
     end) target tar_index l2.

(** The two arguments are sorted in place ([sortVectorClock] on both) when the
    loops run; [merge_args] is what the callers' clocks then hold. *)

Definition merge_args (vclock1 vclock2 : VectorClock) : VectorClock * VectorClock :=
  if isNullVectorClock vclock1 || isNullVectorClock vclock2 then (vclock1, vclock2)
  else if count_all_gid_num vclock1 vclock2 >? 1
  then (sortVectorClock vclock1, sortVectorClock vclock2)
  else (vclock1, vclock2).

Definition vectorClockMerge (vclock1 vclock2 : VectorClock) : res VectorClock :=
  if isNullVectorClock vclock1 && isNullVectorClock vclock2 then Ok []
  else if isNullVectorClock vclock1 then dupVectorClock vclock2
  else if isNullVectorClock vclock2 then dupVectorClock vclock1
  else
    let gid_num := count_all_gid_num vclock1 vclock2 in
    if gid_num >? 1 then
      target ← newVectorClock gid_num;
      target ← merge_loop max_clock id target 0
                 (sortVectorClock vclock1) (sortVectorClock vclock2);
      freeze target
    else
      target ← dupVectorClock vclock2;
      u2 ← need (vclock2 !! 0%nat);
      u1 ← need (vclock1 !! 0%nat);
      t ← need (target !! 0%nat);
      Ok (<[0%nat := set_logic_clock t (max_clock (get_logic_clock u2) (get_logic_clock u1))]> target).

Definition cleanVectorClock (vclock : VectorClock) : VectorClock :=
  map (fun c => set_logic_clock c 0) vclock.

Definition mergeMinVectorClock (vclock1 vclock2 : VectorClock) : res VectorClock :=
  if isNullVectorClock vclock1 && isNullVectorClock vclock2 then Ok []
  else if isNullVectorClock vclock1 then cleanVectorClock <$> dupVectorClock vclock2
  else if isNullVectorClock vclock2 then cleanVectorClock <$> dupVectorClock vclock1
  else
    let gid_nums := count_all_gid_num vclock1 vclock2 in
    if gid_nums >? 1 then
      target ← newVectorClock gid_nums;
      target ← merge_loop min_clock (fun _ => 0) target 0
                 (sortVectorClock vclock1) (sortVectorClock vclock2);
      freeze target
    else
      target ← dupVectorClock vclock2;
      u2 ← need (vclock2 !! 0%nat);
      u1 ← need (vclock1 !! 0%nat);
      t ← need (target !! 0%nat);
      Ok (<[0%nat := set_logic_clock t (min_clock (get_logic_clock u2) (get_logic_clock u1))]> target).

(** ** Comparing, purging, resetting *)

(** The test the loops of [isVectorClockMonoIncr] and [purgeVectorClock] make:
    the unit [vcu1] is ahead of the clock [vc]. *)

Definition unit_ahead (vcu1 : clk) (vc : VectorClock) : bool :=
  match get_clock_unit vc (get_gid vcu1) with
  | None => negb (get_logic_clock vcu1 =? 0)
  | Some p => get_logic_clock (default zero_unit (vc !! p)) <? get_logic_clock vcu1
  end.

Definition isVectorClockMonoIncr (current future : VectorClock) : bool :=
  if isNullVectorClock current || isNullVectorClock future then false
  else if get_len current >? get_len future then false
  else forallb (fun vcu1 => negb (unit_ahead vcu1 future)) current.

Definition purgeVectorClock (targe src : VectorClock) : res VectorClock :=
  if isNullVectorClock targe then Ok targe
  else if isNullVectorClock src then Ok targe
  else
    let c := List.filter (fun vcu1 => unit_ahead vcu1 src) targe in
    result ← newVectorClock (get_len c);
    result ← set_units result 0 c;
    result ← freeze result;
    Ok (sortVectorClock result).

Fixpoint units_equal (a b : VectorClock) : bool :=
  match a, b with
  | c1 :: a, c2 :: b =>
      (get_gid c1 =? get_gid c2) && (get_logic_clock c1 =? get_logic_clock c2) && units_equal a b
  | _, _ => true
  end.

Definition VectorClockEqual (a b : VectorClock) : bool :=
  if isNullVectorClock a then isNullVectorClock b
  else if isNullVectorClock b then false
  else if negb (get_len a =? get_len b) then false
  else units_equal a b.

(** [resetVectorClock] takes the clock by value: with one unit it resets its
    own copy, with several it resets the shared array. *)

Definition resetVectorClock (vc : VectorClock) : VectorClock :=
  if get_len vc >? 1 then map (fun c => set_logic_clock c 0) vc else vc.
