(* ===== verification/VcTheory.v ===== *)
(** * Vector clocks: the abstract clock and the theory of the operations

    A well-formed clock ([vc_ok]) has units with gids 1 to 15, no gid twice
    and clocks of 56 bits; [vc_map] is the abstract clock, the finite map from
    gids to clock values, and [vcu] its total reading (0 for an absent gid).
    The lemmas give each operation of [VectorClock] its effect on the map. *)

From S2P Require Import Prelude Util Sds VectorClock.

(** ** Well-formedness and the abstract clock *)

Definition unit_ok (u : clk) : Prop := 0 < gid u < 16 /\ 0 <= clock u < 2 ^ 56.

#[global] Instance unit_ok_dec u : Decision (unit_ok u).
Proof. unfold unit_ok. apply _. Defined.

Definition vc_ok (vc : VectorClock) : Prop := Forall unit_ok vc /\ NoDup (map gid vc).

#[global] Instance vc_ok_dec vc : Decision (vc_ok vc).
Proof. unfold vc_ok. apply _. Defined.

Definition unit_lt (a b : clk) : Prop := gid a < gid b.

#[global] Instance unit_lt_dec : RelDecision unit_lt.
Proof. intros a b. unfold unit_lt. apply _. Defined.

Fixpoint sortedb (vc : VectorClock) : bool :=
  match vc with
  | u :: vc => forallb (fun v => gid u <? gid v) vc && sortedb vc
  | [] => true
  end.

Definition vc_sorted (vc : VectorClock) : Prop := sortedb vc = true.

Definition vc_map (vc : VectorClock) : gmap Z Z :=
  list_to_map (map (fun u => (gid u, clock u)) vc).

Definition vcu (vc : VectorClock) (g : Z) : Z := default 0 (vc_map vc !! g).

Lemma vc_map_cons u vc : vc_map (u :: vc) = <[gid u := clock u]> (vc_map vc).
Proof. done. Qed.

Lemma vc_ok_cons u vc : vc_ok (u :: vc) <-> unit_ok u /\ (gid u ∉ map gid vc) /\ vc_ok vc.
Proof. unfold vc_ok. cbn [map]. rewrite Forall_cons, NoDup_cons. tauto. Qed.

Lemma vc_ok_nil : vc_ok [].
Proof. split; constructor. Qed.

Lemma vc_map_dom vc g : g ∈ map gid vc <-> is_Some (vc_map vc !! g).
Proof.
  induction vc as [|u vc IH]; [split; [intros H; by apply not_elem_of_nil in H|by intros [? ?]]|].
  cbn [map]. rewrite elem_of_cons, vc_map_cons, lookup_insert_is_Some', IH. split; (intros [?|?]; [left; congruence|by right]).
Qed.

Lemma vc_map_None vc g : g ∉ map gid vc <-> vc_map vc !! g = None.
Proof. rewrite vc_map_dom. symmetry. apply eq_None_not_Some. Qed.

Lemma vc_map_elem vc u : vc_ok vc -> u ∈ vc -> vc_map vc !! gid u = Some (clock u).
Proof.
  induction vc as [|v vc IH]; intros Hok Hu; [by apply not_elem_of_nil in Hu|].
  apply vc_ok_cons in Hok as (Hv & Hn & Hok). rewrite vc_map_cons.
  apply elem_of_cons in Hu as [->|Hu]; [by rewrite lookup_insert_eq|].
  rewrite lookup_insert_ne; [auto|]. intros E. apply Hn. rewrite E.
  apply list_elem_of_In, in_map, list_elem_of_In, Hu.
Qed.

Lemma vc_map_Some vc g c : vc_map vc !! g = Some c -> Clk g c ∈ vc.
Proof.
  induction vc as [|v vc IH]; [done|]. rewrite vc_map_cons, lookup_insert_Some, elem_of_cons.
  intros [[<- <-]|[_ H]]; [by left; destruct v|auto].
Qed.

Lemma vc_map_range vc g c :
  Forall unit_ok vc -> vc_map vc !! g = Some c -> 0 < g < 16 /\ 0 <= c < 2 ^ 56.
Proof. intros H1 H%vc_map_Some. rewrite Forall_forall in H1. exact (H1 _ H). Qed.

(** At most fifteen gids, hence at most fifteen units. *)

Lemma gids_bound (l : list Z) : NoDup l -> Forall (fun g => 0 < g < 16) l -> (length l <= 15)%nat.
Proof.
  intros Hn Hf. assert (l ⊆ seqZ 1 15) as Hs.
  { intros g Hg. rewrite Forall_forall in Hf. specialize (Hf g Hg). apply elem_of_seqZ. lia. }
  apply submseteq_length with (l2 := seqZ 1 15). apply NoDup_submseteq; [done|exact Hs].
Qed.

Lemma vc_ok_length vc : vc_ok vc -> (length vc <= 15)%nat.
Proof.
  intros [Hu Hn]. rewrite <- (length_map gid). apply gids_bound; [done|].
  apply Forall_map. eapply Forall_impl; [exact Hu|]. intros u [? _]. done.
Qed.

Lemma vc_ok_get_len vc : vc_ok vc -> 0 <= get_len vc <= 15.
Proof. intros H%vc_ok_length. unfold get_len. lia. Qed.

Lemma unit_get_gid u : unit_ok u -> get_gid u = gid u.
Proof. intros [? _]. apply to_char_id. lia. Qed.

Lemma unit_get_clock u : unit_ok u -> get_logic_clock u = clock u.
Proof. intros [_ ?]. apply to_ll_id. unfold LLONG_MIN, LLONG_MAX. lia. Qed.

Lemma init_clock_ok g c : 0 < g < 16 -> 0 <= c < 2 ^ 56 -> init_clock g c = Clk g c.
Proof.
  intros. unfold init_clock, GIDSIZE. change (64 - 2 * 4) with 56.
  by rewrite !uwrap_id by (change (2 ^ 4) with 16; lia).
Qed.

Lemma init_clock_unit u : unit_ok u -> init_clock (get_gid u) (get_logic_clock u) = u.
Proof.
  intros H. rewrite unit_get_gid, unit_get_clock by done. destruct H.
  rewrite init_clock_ok by done. by destruct u.
Qed.

Lemma set_logic_clock_ok u c : 0 <= c < 2 ^ 56 -> set_logic_clock u c = Clk (gid u) c.
Proof. intros. unfold set_logic_clock, GIDSIZE. by rewrite uwrap_id. Qed.

Lemma uwrap56_range z : 0 <= uwrap 56 z < 2 ^ 56.
Proof. apply uwrap_range. lia. Qed.

(** ** Sorted clocks *)

Lemma vc_sorted_cons u vc :
  vc_sorted (u :: vc) <-> Forall (fun v => gid u < gid v) vc /\ vc_sorted vc.
Proof.
  unfold vc_sorted. cbn [sortedb]. rewrite andb_true_iff, <- (Is_true_true (forallb _ _)), forallb_True.
  split; intros [H1 H2]; (split; [|done]); (eapply Forall_impl; [exact H1|]); intros v; simpl;
    rewrite Is_true_true, Z.ltb_lt; done.
Qed.

Lemma vc_sorted_NoDup vc : vc_sorted vc -> NoDup (map gid vc).
Proof.
  induction vc as [|u vc IH]; [constructor|]. rewrite vc_sorted_cons. intros [H1 H2].
  cbn [map]. constructor; [|auto]. intros Hin.
  apply list_elem_of_In, in_map_iff in Hin as (v & E & Hv).
  rewrite Forall_forall in H1. apply list_elem_of_In in Hv. specialize (H1 v Hv). lia.
Qed.

Lemma sorted_head_None u vc g :
  vc_sorted (u :: vc) -> g <= gid u -> vc_map vc !! g = None.
Proof.
  rewrite vc_sorted_cons. intros [H _] Hg. apply vc_map_None. intros Hin.
  apply list_elem_of_In, in_map_iff in Hin as (v & E & Hv).
  rewrite Forall_forall in H. apply list_elem_of_In in Hv. specialize (H v Hv). lia.
Qed.

(** A sorted clock is determined by its abstract clock. *)

Lemma sorted_map_inj vc1 vc2 :
  vc_sorted vc1 -> vc_sorted vc2 -> vc_map vc1 = vc_map vc2 -> vc1 = vc2.
Proof.
  revert vc2. induction vc1 as [|u vc1 IH]; intros [|v vc2] S1 S2 E; [done| | |].
  - exfalso. apply (f_equal (fun m => m !! gid v)) in E.
    rewrite vc_map_cons, lookup_insert_eq in E. done.
  - exfalso. apply (f_equal (fun m => m !! gid u)) in E.
    rewrite vc_map_cons, lookup_insert_eq in E. done.
  - pose proof (f_equal (fun m => m !! gid u) E) as Eu.
    pose proof (f_equal (fun m => m !! gid v) E) as Ev. cbn beta in Eu, Ev.
    rewrite !vc_map_cons, lookup_insert_eq in Eu. rewrite !vc_map_cons, lookup_insert_eq in Ev.
    assert (gid u = gid v) as G.
    { destruct (Z.lt_trichotomy (gid u) (gid v)) as [H|[H|H]]; [|done|].
      - rewrite lookup_insert_ne, (sorted_head_None v vc2) in Eu; [done|done|lia|lia].
      - rewrite lookup_insert_ne, (sorted_head_None u vc1) in Ev; [done|done|lia|lia]. }
    rewrite G, lookup_insert_eq in Eu. injection Eu as C.
    assert (u = v) as -> by (destruct u, v; simpl in *; congruence). f_equal.
    assert (vc_map vc1 = vc_map vc2) as E'.
    { rewrite !vc_map_cons in E. apply (f_equal (delete (gid v))) in E.
      rewrite !delete_insert_id in E; [done|..];
        eapply sorted_head_None; [exact S2|lia|exact S1|lia]. }
    apply vc_sorted_cons in S1 as [_ S1]. apply vc_sorted_cons in S2 as [_ S2]. auto.
Qed.

Lemma unit_le_gid a b : unit_le a b <-> get_gid a <= get_gid b.
Proof.
  unfold unit_le, sort_vector_clock_unit.
  destruct (Z.gtb_spec (get_gid a) (get_gid b)); [lia|].
  destruct (Z.eqb_spec (get_gid a) (get_gid b)); lia.
Qed.

#[global] Instance unit_le_trans : Transitive unit_le.
Proof. intros a b c. rewrite !unit_le_gid. lia. Qed.

#[global] Instance unit_le_total : Total unit_le.
Proof. intros a b. rewrite !unit_le_gid. lia. Qed.

Lemma vc_ok_perm vc vc' : vc ≡ₚ vc' -> vc_ok vc -> vc_ok vc'.
Proof. intros P [H1 H2]. split; [by rewrite <- P|]. by rewrite <- P. Qed.

Lemma vc_map_perm vc vc' : vc ≡ₚ vc' -> vc_ok vc -> vc_map vc = vc_map vc'.
Proof.
  intros P [_ H]. apply list_to_map_proper; [|by rewrite P].
  rewrite <- list_fmap_compose. exact H.
Qed.

Lemma sort_perm vc : sortVectorClock vc ≡ₚ vc.
Proof. unfold sortVectorClock. destruct (get_len vc =? 1); [done|]. apply merge_sort_Permutation. Qed.

Lemma StronglySorted_vc_sorted vc : vc_ok vc -> StronglySorted unit_le vc -> vc_sorted vc.
Proof.
  induction vc as [|u vc IH]; intros Hok Hs; [done|].
  apply vc_ok_cons in Hok as (Hu & Hn & Hok). apply StronglySorted_inv in Hs as [Hs Hle].
  apply vc_sorted_cons. split; [|auto]. rewrite Forall_forall in Hle |- *. intros v Hv.
  specialize (Hle v Hv). rewrite unit_le_gid in Hle.
  assert (unit_ok v) by (destruct Hok as [F _]; rewrite Forall_forall in F; auto).
  rewrite !unit_get_gid in Hle by done.
  assert (gid u <> gid v); [|lia]. intros E. apply Hn. rewrite E.
  apply list_elem_of_In, in_map, list_elem_of_In, Hv.
Qed.

Lemma sort_spec vc :
  vc_ok vc ->
  vc_ok (sortVectorClock vc) /\ vc_sorted (sortVectorClock vc) /\
  vc_map (sortVectorClock vc) = vc_map vc /\ length (sortVectorClock vc) = length vc.
Proof.
  intros H. pose proof (sort_perm vc) as P. assert (vc_ok (sortVectorClock vc)) as Hok
    by (by eapply vc_ok_perm; [symmetry; exact P|]).
  split; [done|]. split; [|split; [by apply vc_map_perm|by rewrite P]].
  unfold sortVectorClock in *. destruct (Z.eqb_spec (get_len vc) 1) as [E|E].
  - unfold get_len in E. destruct vc as [|u [|v vc]]; [done|done|simpl in E; lia].
  - apply StronglySorted_vc_sorted; [done|]. apply StronglySorted_merge_sort; apply _.
Qed.

Lemma sort_sorted_id vc : vc_ok vc -> vc_sorted vc -> sortVectorClock vc = vc.
Proof.
  intros Hok Hs. destruct (sort_spec vc Hok) as (? & ? & ? & ?). by apply sorted_map_inj.
Qed.

(** ** Writing units into a fresh buffer *)

Lemma newVectorClock_ok n :
  0 <= n <= 15 -> exists b, newVectorClock n = Ok b /\ length b = Z.to_nat n.
Proof.
  intros Hn. unfold newVectorClock. destruct (Z.eqb_spec n 0) as [->|]; [by eexists|].
  rewrite to_char_id by lia. change (Z.shiftl 1 GIDSIZE) with 16.
  replace ((n <? 16) && (n >? 0)) with true by lia. simpl.
  destruct (Z.eqb_spec n 1) as [->|]; eexists; (split; [done|]); [done|apply length_replicate].
Qed.

Lemma newVectorClock_abort n : 16 <= n < 128 -> newVectorClock n = Abort.
Proof.
  intros Hn. unfold newVectorClock. replace (n =? 0) with false by lia.
  rewrite to_char_id by lia. change (Z.shiftl 1 GIDSIZE) with 16.
  by replace ((n <? 16) && (n >? 0)) with false by lia.
Qed.

Lemma freeze_Some units : freeze (map Some units) = Ok units.
Proof. induction units as [|u units IH]; [done|]. simpl. by rewrite IH. Qed.

Lemma set_clock_unit_ok pre x suf u :
  unit_ok u ->
  set_clock_unit_by_index (pre ++ x :: suf) (get_len pre) u = Ok (pre ++ Some u :: suf).
Proof.
  intros Hu. unfold set_clock_unit_by_index, get_clock_unit_by_index. rewrite init_clock_unit by done.
  rewrite unit_get_gid by done. change (Z.shiftl 1 GIDSIZE) with 16. destruct (Hu) as [? _].
  replace ((gid u <? 16) && (gid u >? 0)) with true by lia. simpl.
  assert (get_len (pre ++ x :: suf) = get_len pre + get_len suf + 1) as L
    by (unfold get_len; rewrite length_app; simpl; lia).
  assert (0 <= get_len pre /\ 0 <= get_len suf) as [? ?] by (unfold get_len; lia). rewrite L.
  replace (get_len pre >? get_len pre + get_len suf + 1) with false by lia.
  destruct (Z.eqb_spec (get_len pre + get_len suf + 1) 1); simpl.
  - assert (pre = []) as -> by (destruct pre; [done|unfold get_len in *; simpl in *; lia]).
    assert (suf = []) as -> by (destruct suf; [done|unfold get_len in *; simpl in *; lia]). done.
  - replace ((0 <=? get_len pre) && (get_len pre <? get_len pre + get_len suf + 1)) with true by lia.
    f_equal. unfold get_len. rewrite Nat2Z.id. rewrite insert_app_r_alt by lia.
    by rewrite Nat.sub_diag.
Qed.

Lemma set_units_ok pre suf units rest :
  Forall unit_ok units -> length suf = length units ->
  set_units (pre ++ suf ++ rest) (get_len pre) units = Ok (pre ++ map Some units ++ rest).
Proof.
  revert pre suf. induction units as [|u units IH]; intros pre suf Hu Hl.
  { destruct suf; [done|simpl in Hl; lia]. }
  destruct suf as [|x suf]; [simpl in Hl; lia|]. apply Forall_cons in Hu as [Hu Hus].
  cbn [set_units]. change ((x :: suf) ++ rest) with (x :: (suf ++ rest)).
  rewrite set_clock_unit_ok by done. cbn [mbind res_bind].
  specialize (IH (pre ++ [Some u]) suf Hus ltac:(simpl in Hl; lia)).
  rewrite <- app_assoc in IH. simpl app in IH.
  replace (get_len pre + 1) with (get_len (pre ++ [Some u]))
    by (unfold get_len; rewrite length_app; simpl; lia).
  rewrite IH, <- app_assoc. done.
Qed.

(** Filling a fresh buffer of the right size and reading it as a clock. *)

Lemma fill_ok b units :
  Forall unit_ok units -> length b = length units ->
  (t ← set_units b 0 units; freeze t) = Ok units.
Proof.
  intros Hu Hl. pose proof (set_units_ok [] b units [] Hu Hl) as E. simpl app in E.
  rewrite !app_nil_r in E. change (get_len []) with 0 in E. rewrite E. simpl. apply freeze_Some.
Qed.

Lemma set_units_snoc t i units u :
  set_units t i (units ++ [u]) =
  (t ← set_units t i units; set_clock_unit_by_index t (i + get_len units) u).
Proof.
  revert t i. induction units as [|v units IH]; intros t i.
  - unfold get_len. simpl. rewrite Z.add_0_r. by destruct set_clock_unit_by_index.
  - cbn [app set_units]. destruct set_clock_unit_by_index as [t'| |]; [|done..].
    cbn [mbind res_bind]. rewrite IH. unfold get_len. simpl length.
    by replace (i + 1 + Z.of_nat (length units)) with (i + Z.of_nat (S (length units))) by lia.
Qed.

(** Extending a clock by one unit, as [addVectorClockUnit] and
    [commonMergeFunction] do. *)

Lemma extend_ok vc u :
  Forall unit_ok vc -> unit_ok u -> (length vc <= 14)%nat ->
  exists b1 b2 b3,
    newVectorClock (get_len vc + 1) = Ok b1 /\ set_units b1 0 vc = Ok b2 /\
    get_len vc < get_len b2 /\
    set_clock_unit_by_index b2 (get_len vc) u = Ok b3 /\ freeze b3 = Ok (vc ++ [u]).
Proof.
  intros Hvc Hu Hl. destruct (newVectorClock_ok (get_len vc + 1)) as (b & E & Lb);
    [unfold get_len; lia|].
  assert (length b = length (vc ++ [u])) as Lb'
    by (rewrite Lb, length_app; unfold get_len; simpl; lia).
  pose proof (set_units_ok [] b (vc ++ [u]) [] ltac:(by apply Forall_app_2; [|constructor]) Lb') as S.
  simpl app in S. rewrite !app_nil_r, set_units_snoc in S. change (get_len []) with 0 in S.
  apply res_bind_Ok in S as (b2 & S1 & S2).
  assert (length b = S (length vc)) by (rewrite Lb', length_app; simpl; lia).
  destruct b as [|x b _] using rev_ind; [done|]. rewrite length_app in *. simpl in *.
  pose proof (set_units_ok [] b vc [x] Hvc ltac:(lia)) as S1'. simpl app in S1'.
  change (get_len []) with 0 in S1'. rewrite S1' in S1. injection S1 as <-.
  eexists _, _, _. split; [exact E|]. split; [exact S1'|]. split; [|split; [exact S2|apply freeze_Some]].
  unfold get_len. rewrite length_app, length_map. simpl. lia.
Qed.

(** ** Look-up *)

Lemma find_unit_Some vc g p :
  Forall unit_ok vc -> find_unit vc g = Some p ->
  exists u, vc !! p = Some u /\ unit_ok u /\ gid u = g /\ vc_map vc !! g = Some (clock u).
Proof.
  revert p. induction vc as [|u vc IH]; intros p Hok; [done|].
  apply Forall_cons in Hok as [Hu Hok]. cbn [find_unit]. rewrite unit_get_gid by done.
  rewrite vc_map_cons. destruct (Z.eqb_spec (gid u) g) as [<-|Hne].
  - intros [= <-]. exists u. by rewrite lookup_insert_eq.
  - destruct (find_unit vc g) as [q|]; [|done]. intros [= <-].
    destruct (IH q Hok eq_refl) as (v & ? & ? & ? & ?). exists v. by rewrite lookup_insert_ne.
Qed.

Lemma find_unit_None vc g :
  Forall unit_ok vc -> find_unit vc g = None <-> vc_map vc !! g = None.
Proof.
  induction vc as [|u vc IH]; intros Hok; [done|].
  apply Forall_cons in Hok as [Hu Hok]. cbn [find_unit]. rewrite unit_get_gid by done.
  rewrite vc_map_cons. destruct (Z.eqb_spec (gid u) g) as [<-|Hne].
  - by rewrite lookup_insert_eq.
  - rewrite lookup_insert_ne, fmap_None by done. auto.
Qed.

(** The case analysis of [get_clock_unit] on a well-formed clock. *)

Lemma get_clock_unit_cases vc g :
  Forall unit_ok vc -> -128 <= g < 128 ->
  (exists p u, get_clock_unit vc g = Some p /\ vc !! p = Some u /\ unit_ok u /\ gid u = g /\
               vc_map vc !! g = Some (clock u)) \/
  (get_clock_unit vc g = None /\ vc_map vc !! g = None).
Proof.
  intros Hok Hg. unfold get_clock_unit. rewrite to_char_id by done.
  destruct (find_unit vc g) as [p|] eqn:E.
  - left. destruct (find_unit_Some _ _ _ Hok E) as (u & H). eauto 10.
  - right. split; [done|]. by apply find_unit_None.
Qed.

(** Writing the clock of the unit a look-up found. *)

Lemma update_unit_spec vc p u c :
  vc_ok vc -> vc !! p = Some u -> 0 <= c < 2 ^ 56 ->
  vc_ok (<[p := Clk (gid u) c]> vc) /\
  vc_map (<[p := Clk (gid u) c]> vc) = <[gid u := c]> (vc_map vc) /\
  map gid (<[p := Clk (gid u) c]> vc) = map gid vc.
Proof.
  intros Hok Hp Hc. revert p Hp. induction vc as [|v vc IH]; intros p Hp; [done|].
  apply vc_ok_cons in Hok as (Hv & Hn & Hok). destruct p as [|p]; simpl in Hp.
  - injection Hp as ->. cbn [insert list_insert]. rewrite vc_ok_cons, !vc_map_cons. simpl.
    rewrite insert_insert_eq. split; [|done]. split; [|done]. destruct Hv. done.
  - destruct (IH Hok p Hp) as (H1 & H2 & H3).
    change (<[S p := Clk (gid u) c]> (v :: vc)) with (v :: <[p := Clk (gid u) c]> vc). rewrite vc_ok_cons, !vc_map_cons, H2.
    cbn [map]. rewrite H3. split; [done|]. split; [|done].
    apply insert_insert_ne. intros E. apply Hn. rewrite E.
    apply list_elem_of_In, in_map. eapply list_elem_of_In, list_elem_of_lookup_2, Hp.
Qed.

Lemma vc_sorted_gids vc vc' : map gid vc = map gid vc' -> vc_sorted vc -> vc_sorted vc'.
Proof.
  revert vc'. induction vc as [|u vc IH]; intros [|v vc'] E; try done.
  cbn [map] in E. injection E as E1 E2. rewrite !vc_sorted_cons. intros [H1 H2]. split; [|auto].
  rewrite <- E1. rewrite <- (Forall_map gid (fun g => gid u < g)) in H1.
  rewrite E2 in H1. by rewrite Forall_map in H1.
Qed.

(** ** Effect of the single-unit operations *)

Lemma max_clock_max x y : max_clock x y = Z.max x y.
Proof. unfold max_clock. destruct (Z.gtb_spec x y); lia. Qed.

Lemma min_clock_min x y : min_clock x y = Z.min x y.
Proof. unfold min_clock. destruct (Z.gtb_spec x y); lia. Qed.

Lemma set_gid_ok u g : 0 < g < 16 -> set_gid u g = Ok (Clk g (clock u)).
Proof.
  intros. unfold set_gid. change (Z.shiftl 1 GIDSIZE) with 16.
  replace ((g <? 16) && (g >? 0)) with true by lia. simpl.
  unfold GIDSIZE. rewrite uwrap_id; [done|]. change (2 ^ 4) with 16. lia.
Qed.

Lemma set_gid_unit u : unit_ok u -> set_gid u (gid u) = Ok u.
Proof. intros [H _]. rewrite set_gid_ok by done. by destruct u. Qed.

Lemma absent_room vc g : vc_ok vc -> 0 < g < 16 -> vc_map vc !! g = None -> (length vc <= 14)%nat.
Proof.
  intros Hok Hg Hn. apply vc_map_None in Hn.
  assert (vc_ok (Clk g 0 :: vc)) as H by (rewrite vc_ok_cons; split; [split; simpl; lia|done]).
  apply vc_ok_length in H. simpl in H. lia.
Qed.

(** Appending a unit of a new gid and sorting. *)

Lemma extend_sorted_spec vc u :
  vc_ok vc -> unit_ok u -> vc_map vc !! gid u = None ->
  let r := sortVectorClock (vc ++ [u]) in
  vc_ok r /\ vc_sorted r /\ vc_map r = <[gid u := clock u]> (vc_map vc).
Proof.
  intros Hok Hu Hn. cbv zeta.
  assert (vc_ok (u :: vc)) as Hok' by (rewrite vc_ok_cons, vc_map_None; done).
  assert (u :: vc ≡ₚ vc ++ [u]) as P by apply Permutation_cons_append.
  assert (vc_ok (vc ++ [u])) as Hok'' by (by eapply vc_ok_perm).
  destruct (sort_spec _ Hok'') as (H1 & H2 & H3 & _). split; [done|]. split; [done|].
  rewrite H3, <- (vc_map_perm _ _ P Hok'). apply vc_map_cons.
Qed.

Lemma addVectorClockUnit_spec vc g t :
  vc_ok vc -> 0 < g < 16 ->
  exists r, addVectorClockUnit vc g t = Ok r /\ vc_ok r /\ (vc_sorted vc -> vc_sorted r) /\
            vc_map r = <[g := uwrap 56 t]> (vc_map vc).
Proof.
  intros Hok Hg. pose proof (uwrap56_range t) as Ht. unfold addVectorClockUnit.
  rewrite to_char_id by lia.
  destruct (get_clock_unit_cases vc g) as [(p & u & -> & Hp & Hu & E & _)|[-> Hn]]; [apply Hok|lia|..].
  - rewrite Hp. cbn [need mbind res_bind]. rewrite <- E, set_gid_unit by done. cbn [mbind res_bind].
    destruct (update_unit_spec vc p u (uwrap 56 t) Hok Hp Ht) as (H1 & H2 & H3).
    eexists. split; [reflexivity|]. split; [done|]. split; [|done].
    apply vc_sorted_gids. done.
  - assert (unit_ok (Clk g (uwrap 56 t))) as Hu by (split; simpl; lia).
    assert (init_clock g t = Clk g (uwrap 56 t)) as ->.
    { unfold init_clock. f_equal. apply uwrap_id. change (2 ^ GIDSIZE) with 16. lia. }
    destruct (extend_ok vc (Clk g (uwrap 56 t))) as (b1 & b2 & b3 & -> & E2 & L & E3 & E4);
      [apply Hok|done|by eapply absent_room|].
    cbn [mbind res_bind]. rewrite E2. cbn [mbind res_bind].
    replace (get_len vc <? get_len b2) with true by lia. rewrite E3. cbn [mbind res_bind].
    rewrite E4. cbn [mbind res_bind]. eexists. split; [reflexivity|].
    destruct (extend_sorted_spec vc (Clk g (uwrap 56 t)) Hok Hu Hn) as (H1 & H2 & H3). done.
Qed.

Lemma incrLogicClock_spec vc g delta :
  vc_ok vc -> 0 < g < 16 -> LLONG_MIN <= delta <= 2 ^ 62 ->
  exists r, incrLogicClock vc g delta = Ok r /\ vc_ok r /\ map gid r = map gid vc /\
            vc_map r = alter (fun c => uwrap 56 (c + delta)) g (vc_map vc).
Proof.
  intros Hok Hg Hd. unfold incrLogicClock.
  destruct (get_clock_unit_cases vc g) as [(p & u & -> & Hp & Hu & E & Em)|[-> Hn]]; [apply Hok|lia|..].
  - rewrite Hp. cbn [need mbind res_bind]. rewrite unit_get_clock by done.
    destruct (Hu) as [_ ?]. unfold LLONG_MIN, LLONG_MAX in *.
    replace ((- 2 ^ 63 <=? clock u + delta) && (clock u + delta <=? 2 ^ 63 - 1)) with true by lia.
    destruct (update_unit_spec vc p u (uwrap 56 (clock u + delta)) Hok Hp) as (H1 & H2 & H3);
      [apply uwrap56_range|].
    eexists. split; [reflexivity|]. split; [done|]. split; [done|].
    etransitivity; [exact H2|]. rewrite E. symmetry. apply map_eq. intros i.
    destruct (decide (i = g)) as [->|Hne].
    + by rewrite lookup_alter_eq, lookup_insert_eq, Em.
    + by rewrite lookup_alter_ne, lookup_insert_ne.
  - exists vc. split; [done|]. split; [done|]. split; [done|]. symmetry. apply map_eq. intros i.
    destruct (decide (i = g)) as [->|Hne]; [by rewrite lookup_alter_eq, Hn|by rewrite lookup_alter_ne].
Qed.

Lemma dupVectorClock_spec vc : vc_ok vc -> dupVectorClock vc = Ok vc.
Proof.
  intros Hok. pose proof (vc_ok_get_len vc Hok). unfold dupVectorClock.
  destruct (newVectorClock_ok (get_len vc)) as (b & E & L); [lia|]. rewrite E. cbn [mbind res_bind].
  destruct (Z.gtb_spec (get_len vc) 1); [done|].
  destruct (Z.eqb_spec (get_len vc) 1) as [H1|H1].
  - destruct vc as [|u [|v vc]]; unfold get_len in *; simpl in *; [lia| |lia].
    destruct b as [|x [|? ?]]; [done| |done].
    assert (unit_ok u) as Hu by (destruct Hok as [F _]; by apply Forall_cons in F as [? _]).
    pose proof (set_clock_unit_ok [] x [] u Hu) as S. simpl in S. change (get_len []) with 0 in S.
    rewrite S. done.
  - destruct vc as [|u vc]; [|unfold get_len in *; simpl in *; lia].
    destruct b; [done|done].
Qed.

Lemma commonMergeFunction_spec dst src g flag :
  vc_ok dst -> vc_ok src -> 0 < g < 16 ->
  exists r, commonMergeFunction dst src g flag = Ok r /\ vc_ok r /\ (vc_sorted dst -> vc_sorted r) /\
    vc_map r =
      match vc_map src !! g with
      | None => vc_map dst
      | Some c => <[g := match flag, vc_map dst !! g with
                         | CLOCK_UNIT_MAX, Some d => Z.max c d
                         | _, _ => c
                         end]> (vc_map dst)
      end.
Proof.
  intros Hd Hs Hg. unfold commonMergeFunction. rewrite to_char_id by lia.
  destruct (get_clock_unit_cases src g) as [(ps & s & -> & Hps & Hsu & Es & Ems)|[-> Hsn]];
    [apply Hs|lia| |by rewrite Hsn; exists dst].
  rewrite Hps, Ems. cbn [need mbind res_bind]. rewrite unit_get_clock by done.
  pose proof (proj2 Hsu) as Hsc.
  destruct (get_clock_unit_cases dst g) as [(pd & d & -> & Hpd & Hdu & Ed & Emd)|[-> Hdn]];
    [apply Hd|lia|..].
  - rewrite Hpd, Emd. cbn [need mbind res_bind]. rewrite unit_get_clock, <- Ed, set_gid_unit by done.
    cbn [mbind res_bind]. rewrite max_clock_max. pose proof (proj2 Hdu).
    set (c := match flag with CLOCK_UNIT_MAX => _ | CLOCK_UNIT_ALIGN => _ end).
    assert (0 <= c < 2 ^ 56) as Hc by (unfold c; destruct flag; lia).
    destruct (update_unit_spec dst pd d c Hd Hpd Hc) as (H1 & H2 & H3).
    rewrite set_logic_clock_ok by done.
    eexists. split; [reflexivity|]. split; [done|]. split; [by apply vc_sorted_gids|done].
  - rewrite Hdn. assert (unit_ok (Clk g (clock s))) as Hu by (split; simpl; lia).
    rewrite init_clock_ok by done.
    destruct (extend_ok dst (Clk g (clock s))) as (b1 & b2 & b3 & -> & E2 & _ & E3 & E4);
      [apply Hd|done|by eapply absent_room|].
    cbn [mbind res_bind]. rewrite E2. cbn [mbind res_bind]. rewrite E3. cbn [mbind res_bind].
    rewrite E4. cbn [mbind res_bind]. eexists. split; [reflexivity|].
    destruct (extend_sorted_spec dst (Clk g (clock s)) Hd Hu Hdn) as (H1 & H2 & H3).
    split; [done|]. split; [done|]. rewrite H3. by destruct flag.
Qed.

(** ** The gid bitmap counts the distinct gids *)

Lemma shiftr_bit bm g : 0 <= g -> (Z.land (Z.shiftr bm g) 1 =? 0) = negb (Z.testbit bm g).
Proof.
  intros Hg. rewrite Z.testbit_odd, (Z.land_ones _ 1) by lia. change (2 ^ 1) with 2.
  rewrite Zmod_odd. by destruct (Z.odd (Z.shiftr bm g)).
Qed.

Definition bitmap_rep (st : Z * Z) (S : gset Z) : Prop :=
  snd st = Z.of_nat (size S) /\ forall g, 0 <= g < 16 -> Z.testbit (fst st) g = bool_decide (g ∈ S).

Lemma count_gid_rep st S u :
  bitmap_rep st S -> unit_ok u -> bitmap_rep (count_gid st u) (S ∪ {[gid u]}).
Proof.
  intros [Hn Hb] Hu. destruct st as [bm n]. simpl in Hn, Hb. unfold count_gid.
  rewrite unit_get_gid by done. destruct Hu as [Hg _].
  rewrite uwrap_id by (change (2 ^ 8) with 256; lia).
  rewrite shiftr_bit, Hb by lia. destruct (decide (gid u ∈ S)) as [Hin|Hout].
  - rewrite bool_decide_true by done. simpl. assert (S ∪ {[gid u]} = S) as -> by set_solver. done.
  - rewrite bool_decide_false by done. simpl. split; simpl.
    + rewrite size_union by set_solver. rewrite size_singleton. lia.
    + intros g Hg'. rewrite Z.lor_spec, Hb by lia.
      rewrite uwrap_id.
      2:{ rewrite Z.shiftl_1_l. split; [apply Z.pow_nonneg; lia|apply Z.pow_lt_mono_r; lia]. }
      rewrite Z.shiftl_spec by lia. destruct (decide (g = gid u)) as [->|Hne].
      * rewrite Z.sub_diag. rewrite (bool_decide_true (gid u ∈ S ∪ _)) by set_solver.
        apply orb_true_r.
      * assert (Z.testbit 1 (g - gid u) = false) as ->.
        { destruct (Z_lt_le_dec (g - gid u) 0); [by apply Z.testbit_neg_r|].
          apply (Z.bits_above_log2 1); simpl; lia. }
        rewrite orb_false_r. apply bool_decide_ext. set_solver.
Qed.

Lemma count_fold_rep l st S :
  bitmap_rep st S -> Forall unit_ok l ->
  bitmap_rep (fold_left count_gid l st) (S ∪ list_to_set (map gid l)).
Proof.
  revert st S. induction l as [|u l IH]; intros st S H Hl; simpl.
  - by rewrite union_empty_r_L.
  - apply Forall_cons in Hl as [Hu Hl]. rewrite union_assoc_L. apply IH; [|done].
    by apply count_gid_rep.
Qed.

Lemma vc_dom vc : dom (vc_map vc) = list_to_set (map gid vc).
Proof. apply set_eq. intros g. by rewrite elem_of_dom, elem_of_list_to_set, vc_map_dom. Qed.

Lemma count_all_gid_num_spec dst src :
  Forall unit_ok dst -> Forall unit_ok src ->
  count_all_gid_num dst src = Z.of_nat (size (dom (vc_map dst) ∪ dom (vc_map src))).
Proof.
  intros Hd Hs. unfold count_all_gid_num.
  assert (bitmap_rep (0, 0) ∅) as H0.
  { split; [done|]. intros g Hg. simpl. rewrite Z.bits_0. by rewrite bool_decide_false by set_solver. }
  destruct (count_fold_rep dst _ _ (count_fold_rep src _ _ H0 Hs) Hd) as [E _]. rewrite E.
  do 2 f_equal. rewrite !vc_dom. rewrite union_empty_l_L. apply union_comm_L.
Qed.

Lemma vc_ok_size vc : vc_ok vc -> size (dom (vc_map vc)) = length vc.
Proof. intros [_ H]. rewrite vc_dom, size_list_to_set by done. apply length_map. Qed.

(** ** Merging two sorted clocks *)

(** Reference: the merged unit list. *)

Fixpoint merge_units (both : Z -> Z -> Z) (one : Z -> Z) (l1 l2 : list clk) {struct l1} : list clk :=
  (fix inner (l2 : list clk) {struct l2} : list clk :=
     match l1, l2 with
     | [], _ => map (fun c => Clk (gid c) (one (clock c))) l2
     | _, [] => map (fun c => Clk (gid c) (one (clock c))) l1
     | a :: l1', b :: l2' =>
         if gid a =? gid b then Clk (gid a) (both (clock a) (clock b)) :: merge_units both one l1' l2'
         else if gid a >? gid b then Clk (gid b) (one (clock b)) :: inner l2'
         else Clk (gid a) (one (clock a)) :: merge_units both one l1' l2
     end) l2.

Lemma merge_units_nil_l both one l2 :
  merge_units both one [] l2 = map (fun c => Clk (gid c) (one (clock c))) l2.
Proof. by destruct l2. Qed.

Lemma merge_units_nil_r both one l1 :
  merge_units both one l1 [] = map (fun c => Clk (gid c) (one (clock c))) l1.
Proof. by destruct l1. Qed.

Lemma merge_units_cons both one a l1 b l2 :
  merge_units both one (a :: l1) (b :: l2) =
  if gid a =? gid b then Clk (gid a) (both (clock a) (clock b)) :: merge_units both one l1 l2
  else if gid a >? gid b then Clk (gid b) (one (clock b)) :: merge_units both one (a :: l1) l2
  else Clk (gid a) (one (clock a)) :: merge_units both one l1 (b :: l2).
Proof. done. Qed.

Lemma merge_loop_cons both one t i a l1 b l2 :
  merge_loop both one t i (a :: l1) (b :: l2) =
  if get_gid a =? get_gid b then
    t ← set_clock_unit_by_index t i
          (init_clock (get_gid a) (both (get_logic_clock a) (get_logic_clock b)));
    merge_loop both one t (i + 1) l1 l2
  else if get_gid a >? get_gid b then
    t ← set_clock_unit_by_index t i (init_clock (get_gid b) (one (get_logic_clock b)));
    merge_loop both one t (i + 1) (a :: l1) l2
  else
    t ← set_clock_unit_by_index t i (init_clock (get_gid a) (one (get_logic_clock a)));
    merge_loop both one t (i + 1) l1 (b :: l2).
Proof. done. Qed.

Section merging.

Context (both : Z -> Z -> Z) (one : Z -> Z).
Context (both_range : forall x y, 0 <= x < 2 ^ 56 -> 0 <= y < 2 ^ 56 -> 0 <= both x y < 2 ^ 56).
Context (one_range : forall x, 0 <= x < 2 ^ 56 -> 0 <= one x < 2 ^ 56).

Let unit_one (c : clk) : clk := Clk (gid c) (one (clock c)).

Lemma unit_one_init c :
  unit_ok c -> init_clock (get_gid c) (one (get_logic_clock c)) = unit_one c /\ unit_ok (unit_one c).
Proof.
  intros H. rewrite unit_get_gid, unit_get_clock by done. destruct H as [H1 H2].
  specialize (one_range _ H2). rewrite init_clock_ok by done. done.
Qed.

Lemma merge_rest_units t i l :
  Forall unit_ok l -> merge_rest one t i l = set_units t i (map unit_one l).
Proof.
  revert t i. induction l as [|c l IH]; intros t i H; [done|]. apply Forall_cons in H as [Hc Hl].
  cbn [merge_rest map set_units]. destruct (unit_one_init c Hc) as [-> _].
  destruct set_clock_unit_by_index; [|done..]. cbn [mbind res_bind]. auto.
Qed.

Lemma merge_loop_units t i l1 l2 :
  Forall unit_ok l1 -> Forall unit_ok l2 ->
  merge_loop both one t i l1 l2 = set_units t i (merge_units both one l1 l2).
Proof.
  revert t i l2. induction l1 as [|a l1 IH1]; intros t i l2 H1 H2.
  { rewrite merge_units_nil_l. transitivity (merge_rest one t i l2); [by destruct l2|].
    by apply merge_rest_units. }
  revert t i. induction l2 as [|b l2 IH2]; intros t i; [by apply merge_rest_units|].
  pose proof H1 as H1'. apply Forall_cons in H1' as [Ha Hl1].
  pose proof H2 as H2'. apply Forall_cons in H2' as [Hb Hl2].
  destruct (unit_one_init a Ha) as [Ea _]. destruct (unit_one_init b Hb) as [Eb _].
  rewrite merge_units_cons, merge_loop_cons. rewrite !unit_get_gid in * by done.
  destruct (Z.eqb_spec (gid a) (gid b)) as [E|E].
  - rewrite !unit_get_clock by done. destruct Ha as [Ha1 Ha2], Hb as [Hb1 Hb2].
    rewrite init_clock_ok by auto. cbn [set_units].
    destruct set_clock_unit_by_index; [|done..]. cbn [mbind res_bind]. by apply IH1.
  - destruct (gid a >? gid b); cbn [set_units].
    + rewrite Eb. fold (unit_one b). destruct set_clock_unit_by_index; [|done..].
      cbn [mbind res_bind]. apply IH2; done.
    + rewrite Ea. fold (unit_one a). destruct set_clock_unit_by_index; [|done..].
      cbn [mbind res_bind]. by apply IH1.
Qed.

Lemma merge_units_ok l1 l2 :
  Forall unit_ok l1 -> Forall unit_ok l2 -> Forall unit_ok (merge_units both one l1 l2).
Proof.
  assert (forall l, Forall unit_ok l -> Forall unit_ok (map unit_one l)) as Hmap.
  { intros l H. apply Forall_map. eapply Forall_impl; [exact H|]. intros c Hc. by apply unit_one_init. }
  revert l2. induction l1 as [|a l1 IH1]; intros l2 H1 H2.
  { rewrite merge_units_nil_l. by apply Hmap. }
  induction l2 as [|b l2 IH2]; [rewrite merge_units_nil_r; by apply Hmap|].
  pose proof H1 as H1'. apply Forall_cons in H1' as [Ha Hl1].
  pose proof H2 as H2'. apply Forall_cons in H2' as [Hb Hl2]. rewrite merge_units_cons.
  destruct (gid a =? gid b).
  { constructor; [|auto]. destruct Ha, Hb. split; simpl; auto. }
  destruct (gid a >? gid b); (constructor; [by apply unit_one_init|auto]).
Qed.

(** The abstract clock of the merge. *)

Definition merge_map (m1 m2 : gmap Z Z) : gmap Z Z :=
  merge (fun x y => match x, y with
                    | Some x, Some y => Some (both x y)
                    | Some x, None => Some (one x)
                    | None, Some y => Some (one y)
                    | None, None => None
                    end) m1 m2.

Lemma merge_map_lookup m1 m2 g :
  merge_map m1 m2 !! g =
  match m1 !! g, m2 !! g with
  | Some x, Some y => Some (both x y)
  | Some x, None => Some (one x)
  | None, Some y => Some (one y)
  | None, None => None
  end.
Proof. unfold merge_map. rewrite lookup_merge. by destruct (m1 !! g), (m2 !! g). Qed.

Lemma map_one_lookup l g : vc_map (map unit_one l) !! g = one <$> (vc_map l !! g).
Proof.
  induction l as [|c l IH]; [done|]. cbn [map]. rewrite !vc_map_cons. cbn [gid clock unit_one].
  destruct (decide (gid c = g)) as [<-|Hne]; [by rewrite !lookup_insert_eq|by rewrite !lookup_insert_ne].
Qed.

Lemma merge_units_map l1 l2 :
  vc_sorted l1 -> vc_sorted l2 ->
  vc_map (merge_units both one l1 l2) = merge_map (vc_map l1) (vc_map l2).
Proof.
  intros S1 S2. apply map_eq. intros g. revert l2 S1 S2.
  induction l1 as [|a l1 IH1]; intros l2 S1 S2.
  { rewrite merge_units_nil_l, merge_map_lookup. fold unit_one. rewrite map_one_lookup.
    by destruct (vc_map l2 !! g). }
  induction l2 as [|b l2 IH2].
  { rewrite merge_units_nil_r, merge_map_lookup. fold unit_one. rewrite map_one_lookup.
    by destruct (vc_map (a :: l1) !! g). }
  pose proof (proj2 (proj1 (vc_sorted_cons _ _) S1)) as S1'.
  pose proof (proj2 (proj1 (vc_sorted_cons _ _) S2)) as S2'.
  rewrite merge_units_cons. destruct (Z.eqb_spec (gid a) (gid b)) as [E|E].
  - specialize (IH1 l2 S1' S2'). rewrite merge_map_lookup in *. rewrite !vc_map_cons, <- E. cbn [gid clock].
    destruct (decide (gid a = g)) as [<-|Hne]; [by rewrite !lookup_insert_eq|by rewrite !lookup_insert_ne].
  - destruct (Z.gtb_spec (gid a) (gid b)).
    + specialize (IH2 S2'). rewrite merge_map_lookup in *. rewrite vc_map_cons, (vc_map_cons b). cbn [gid clock].
      destruct (decide (gid b = g)) as [<-|Hne]; [|by rewrite !lookup_insert_ne].
      rewrite !lookup_insert_eq, vc_map_cons, lookup_insert_ne, (sorted_head_None a l1) by (done || lia). done.
    + specialize (IH1 (b :: l2) S1' S2). rewrite merge_map_lookup in *.
      rewrite vc_map_cons, (vc_map_cons a). cbn [gid clock].
      destruct (decide (gid a = g)) as [<-|Hne]; [|by rewrite !lookup_insert_ne].
      rewrite !lookup_insert_eq, vc_map_cons, lookup_insert_ne, (sorted_head_None b l2) by (done || lia). done.
Qed.

Lemma merge_units_gids l1 l2 g :
  g ∈ map gid (merge_units both one l1 l2) -> g ∈ map gid l1 \/ g ∈ map gid l2.
Proof.
  assert (forall l, map gid (map unit_one l) = map gid l) as Hm
    by (intros l; rewrite map_map; by apply map_ext).
  revert l2. induction l1 as [|a l1 IH1]; intros l2.
  { rewrite merge_units_nil_l. fold unit_one. rewrite Hm. auto. }
  induction l2 as [|b l2 IH2]; [rewrite merge_units_nil_r; fold unit_one; rewrite Hm; auto|].
  rewrite merge_units_cons. destruct (Z.eqb_spec (gid a) (gid b)) as [E|E]; [|destruct (gid a >? gid b)];
    cbn [map gid]; rewrite !elem_of_cons; (intros [H|H]; [tauto|]).
  - destruct (IH1 _ H); tauto.
  - destruct (IH2 H) as [H'|H']; [|tauto]. cbn [map] in H'. rewrite elem_of_cons in H'. tauto.
  - destruct (IH1 _ H) as [H'|H']; [tauto|]. cbn [map] in H'. rewrite elem_of_cons in H'. tauto.
Qed.

Lemma gids_forall (P : Z -> Prop) vc : Forall (fun u => P (gid u)) vc <-> forall g, g ∈ map gid vc -> P g.
Proof.
  rewrite <- (Forall_map gid P), Forall_forall. done.
Qed.

Lemma merge_units_sorted l1 l2 :
  vc_sorted l1 -> vc_sorted l2 -> vc_sorted (merge_units both one l1 l2).
Proof.
  assert (forall l, map gid l = map gid (map unit_one l)) as Hm
    by (intros l; rewrite map_map; by apply map_ext).
  revert l2. induction l1 as [|a l1 IH1]; intros l2 S1 S2.
  { rewrite merge_units_nil_l. by eapply vc_sorted_gids; [apply Hm|]. }
  induction l2 as [|b l2 IH2]; [rewrite merge_units_nil_r; by eapply vc_sorted_gids; [apply Hm|]|].
  pose proof (proj1 (vc_sorted_cons _ _) S1) as [F1 S1'].
  pose proof (proj1 (vc_sorted_cons _ _) S2) as [F2 S2'].
  rewrite (gids_forall (fun g => gid a < g)) in F1. rewrite (gids_forall (fun g => gid b < g)) in F2.
  rewrite merge_units_cons. destruct (Z.eqb_spec (gid a) (gid b)) as [E|E].
  - apply vc_sorted_cons. split; [|auto]. cbn [gid]. apply (gids_forall (fun g => gid a < g)).
    intros g [Hg|Hg]%merge_units_gids; [auto|]. specialize (F2 g Hg). lia.
  - destruct (Z.gtb_spec (gid a) (gid b)); apply vc_sorted_cons; (split; [|auto]); cbn [gid].
    + apply (gids_forall (fun g => gid b < g)). intros g [Hg|Hg]%merge_units_gids; [|auto].
      cbn [map] in Hg. apply elem_of_cons in Hg as [->|Hg]; [lia|]. specialize (F1 g Hg). lia.
    + apply (gids_forall (fun g => gid a < g)). intros g [Hg|Hg]%merge_units_gids; [auto|].
      cbn [map] in Hg. apply elem_of_cons in Hg as [->|Hg]; [lia|]. specialize (F2 g Hg). lia.
Qed.

Lemma merge_map_dom m1 m2 : dom (merge_map m1 m2) = dom m1 ∪ dom m2.
Proof.
  apply set_eq. intros g. rewrite elem_of_union, !elem_of_dom, merge_map_lookup.
  destruct (m1 !! g), (m2 !! g); split; intros H; try (destruct H; done); eauto;
    try (by destruct H as [[? ?]|[? ?]]).
Qed.

(** The part of the two whole-clock merges that runs the loops. *)

Lemma merge_run vc1 vc2 :
  vc_ok vc1 -> vc_ok vc2 ->
  exists r,
    (target ← newVectorClock (count_all_gid_num vc1 vc2);
     target ← merge_loop both one target 0 (sortVectorClock vc1) (sortVectorClock vc2);
     freeze target) = Ok r /\
    vc_ok r /\ vc_sorted r /\ vc_map r = merge_map (vc_map vc1) (vc_map vc2).
Proof.
  intros H1 H2. destruct (sort_spec vc1 H1) as (K1 & S1 & M1 & _).
  destruct (sort_spec vc2 H2) as (K2 & S2 & M2 & _).
  set (r := merge_units both one (sortVectorClock vc1) (sortVectorClock vc2)).
  assert (Forall unit_ok r) as Hr by (apply merge_units_ok; [apply K1|apply K2]).
  assert (vc_sorted r) as Sr by (by apply merge_units_sorted).
  assert (vc_ok r) as Ok_r by (split; [done|by apply vc_sorted_NoDup]).
  assert (vc_map r = merge_map (vc_map vc1) (vc_map vc2)) as Mr
    by (unfold r; by rewrite merge_units_map, M1, M2).
  assert (count_all_gid_num vc1 vc2 = get_len r) as Hc.
  { rewrite count_all_gid_num_spec by (apply H1 || apply H2).
    rewrite <- merge_map_dom, <- Mr, vc_ok_size by done. done. }
  exists r. split; [|done]. rewrite Hc.
  destruct (newVectorClock_ok (get_len r) (vc_ok_get_len r Ok_r)) as (b & -> & L).
  cbn [mbind res_bind]. rewrite merge_loop_units by (apply K1 || apply K2). fold r.
  apply fill_ok; [done|]. rewrite L. unfold get_len. lia.
Qed.

(** The part that handles one common gid. *)

Lemma merge_single vc1 vc2 :
  (forall x y, both x y = both y x) ->
  vc_ok vc1 -> vc_ok vc2 -> vc1 <> [] -> vc2 <> [] ->
  ~ 1 < count_all_gid_num vc1 vc2 ->
  exists u1 u2, vc1 = [u1] /\ vc2 = [u2] /\ gid u1 = gid u2 /\ unit_ok u1 /\ unit_ok u2 /\
    merge_map (vc_map vc1) (vc_map vc2) = {[gid u2 := both (clock u2) (clock u1)]}.
Proof.
  clear both_range one_range. intros Hcomm H1 H2 N1 N2 Hc. rewrite count_all_gid_num_spec in Hc by (apply H1 || apply H2).
  pose proof (subseteq_size _ _ (union_subseteq_l (dom (vc_map vc1)) (dom (vc_map vc2)))) as L1.
  pose proof (subseteq_size _ _ (union_subseteq_r (dom (vc_map vc1)) (dom (vc_map vc2)))) as L2.
  rewrite vc_ok_size in L1, L2 by done.
  destruct vc1 as [|u1 [|? ?]]; [done| |simpl in L1; lia].
  destruct vc2 as [|u2 [|? ?]]; [done| |simpl in L2; lia].
  assert (gid u1 = gid u2) as E.
  { destruct (decide (gid u1 = gid u2)) as [|Hne]; [done|]. exfalso. apply Hc.
    rewrite !vc_dom. cbn [map list_to_set]. rewrite !union_empty_r_L.
    rewrite size_union, !size_singleton by set_solver. lia. }
  exists u1, u2. split; [done|]. split; [done|]. split; [done|].
  apply vc_ok_cons in H1 as [? _]. apply vc_ok_cons in H2 as [? _]. split; [done|]. split; [done|].
  apply map_eq. intros g. rewrite merge_map_lookup, !vc_map_cons, E.
  destruct (decide (gid u2 = g)) as [<-|Hne].
  - rewrite !lookup_insert_eq, lookup_singleton_eq. f_equal. apply Hcomm.
  - by rewrite !lookup_insert_ne, lookup_singleton_ne.
Qed.

End merging.

Lemma isNull_spec {A} (vc : list A) : isNullVectorClock vc = bool_decide (vc = []).
Proof. by destruct vc. Qed.

Lemma isNull_nil {A} : isNullVectorClock (@nil A) = true.
Proof. done. Qed.

Lemma isNull_cons {A} (u : A) vc : isNullVectorClock (u :: vc) = false.
Proof. done. Qed.

Lemma max_range x y : 0 <= x < 2 ^ 56 -> 0 <= y < 2 ^ 56 -> 0 <= max_clock x y < 2 ^ 56.
Proof. rewrite max_clock_max. lia. Qed.

Lemma min_range x y : 0 <= x < 2 ^ 56 -> 0 <= y < 2 ^ 56 -> 0 <= min_clock x y < 2 ^ 56.
Proof. rewrite min_clock_min. lia. Qed.

(** The abstract merges: pointwise maximum of what is present, and pointwise
    minimum with an absent gid counting as 0. *)

Definition map_max (m1 m2 : gmap Z Z) : gmap Z Z := union_with (fun x y => Some (Z.max x y)) m1 m2.

Definition map_min (m1 m2 : gmap Z Z) : gmap Z Z :=
  merge (fun x y => match x, y with
                    | None, None => None
                    | _, _ => Some (Z.min (default 0 x) (default 0 y))
                    end) m1 m2.

Lemma merge_map_max m1 m2 : merge_map max_clock id m1 m2 = map_max m1 m2.
Proof.
  apply map_eq. intros g. rewrite merge_map_lookup. unfold map_max. rewrite lookup_union_with.
  destruct (m1 !! g), (m2 !! g); simpl; [|done..]. by rewrite max_clock_max.
Qed.

Lemma map_max_lookup m1 m2 g :
  map_max m1 m2 !! g =
  match m1 !! g, m2 !! g with
  | Some x, Some y => Some (Z.max x y)
  | Some x, None => Some x
  | None, o => o
  end.
Proof. unfold map_max. rewrite lookup_union_with. by destruct (m1 !! g), (m2 !! g). Qed.

Lemma map_max_empty_l m : map_max ∅ m = m.
Proof. apply map_eq. intros g. rewrite map_max_lookup, lookup_empty. done. Qed.

Lemma map_max_empty_r m : map_max m ∅ = m.
Proof. apply map_eq. intros g. rewrite map_max_lookup, lookup_empty. by destruct (m !! g). Qed.

Definition map_nonneg (m : gmap Z Z) : Prop := forall g c, m !! g = Some c -> 0 <= c.

Lemma vc_map_nonneg vc : vc_ok vc -> map_nonneg (vc_map vc).
Proof. intros [H _] g c Hc. apply (vc_map_range vc g c H) in Hc. lia. Qed.

Lemma merge_map_min m1 m2 :
  map_nonneg m1 -> map_nonneg m2 -> merge_map min_clock (fun _ => 0) m1 m2 = map_min m1 m2.
Proof.
  intros N1 N2. apply map_eq. intros g. rewrite merge_map_lookup. unfold map_min. rewrite lookup_merge.
  destruct (m1 !! g) as [x|] eqn:E1, (m2 !! g) as [y|] eqn:E2; simpl; [|..|done].
  - by rewrite min_clock_min.
  - f_equal. apply N1 in E1. lia.
  - f_equal. apply N2 in E2. lia.
Qed.

Lemma single_spec u1 u2 c :
  unit_ok u1 -> unit_ok u2 -> gid u1 = gid u2 -> 0 <= c < 2 ^ 56 ->
  vc_ok [Clk (gid u2) c] /\ vc_sorted [Clk (gid u2) c] /\ vc_map [Clk (gid u2) c] = {[gid u2 := c]}.
Proof.
  intros [? _] [? _] E Hc. split; [|done]. rewrite vc_ok_cons.
  split; [split; simpl; lia|]. split; [apply not_elem_of_nil|apply vc_ok_nil].
Qed.

Lemma vectorClockMerge_spec vc1 vc2 :
  vc_ok vc1 -> vc_ok vc2 ->
  exists r, vectorClockMerge vc1 vc2 = Ok r /\ vc_ok r /\
            (vc_sorted vc1 -> vc_sorted vc2 -> vc_sorted r) /\
            vc_map r = map_max (vc_map vc1) (vc_map vc2).
Proof.
  intros H1 H2. unfold vectorClockMerge. rewrite !isNull_spec.
  case_bool_decide as N1; case_bool_decide as N2; simpl.
  - subst. exists []. split; [done|]. split; [apply vc_ok_nil|done].
  - subst. rewrite dupVectorClock_spec by done. exists vc2. split; [done|]. split; [done|].
    split; [done|]. by rewrite map_max_empty_l.
  - subst. rewrite dupVectorClock_spec by done. exists vc1. split; [done|]. split; [done|].
    split; [done|]. by rewrite map_max_empty_r.
  - rewrite <- merge_map_max. destruct (Z.gtb_spec (count_all_gid_num vc1 vc2) 1).
    + destruct (merge_run max_clock id max_range ltac:(done) vc1 vc2 H1 H2) as (r & E & ? & ? & ?).
      exists r. done.
    + destruct (merge_single max_clock id vc1 vc2)
        as (u1 & u2 & -> & -> & E & O1 & O2 & M); [intros; rewrite !max_clock_max; lia|done..|lia|].
      rewrite dupVectorClock_spec by done. cbn [need mbind res_bind lookup list_lookup insert list_insert].
      rewrite !unit_get_clock by done.
      pose proof (max_range (clock u2) (clock u1) (proj2 O2) (proj2 O1)) as R.
      rewrite set_logic_clock_ok by done.
      destruct (single_spec u1 u2 _ O1 O2 E R) as (? & ? & Mr).
      eexists. split; [reflexivity|]. split; [done|]. split; [done|]. by rewrite M, Mr.
Qed.

Lemma clean_spec vc :
  vc_ok vc -> vc_ok (cleanVectorClock vc) /\ map gid (cleanVectorClock vc) = map gid vc /\
  vc_map (cleanVectorClock vc) = (fun _ => 0) <$> vc_map vc.
Proof.
  intros Hok. assert (map gid (cleanVectorClock vc) = map gid vc) as G
    by (unfold cleanVectorClock; rewrite map_map; by apply map_ext).
  split; [split|split; [done|]].
  - destruct Hok as [F _]. apply Forall_map. eapply Forall_impl; [exact F|]. intros u [? _].
    split; [done|]. simpl. apply uwrap56_range.
  - rewrite G. apply Hok.
  - clear Hok G. induction vc as [|u vc IH]; [done|]. unfold cleanVectorClock in *. cbn [map].
    rewrite !vc_map_cons, IH, fmap_insert. done.
Qed.

Lemma mergeMinVectorClock_spec vc1 vc2 :
  vc_ok vc1 -> vc_ok vc2 ->
  exists r, mergeMinVectorClock vc1 vc2 = Ok r /\ vc_ok r /\
            (vc_sorted vc1 -> vc_sorted vc2 -> vc_sorted r) /\
            vc_map r = map_min (vc_map vc1) (vc_map vc2).
Proof.
  intros H1 H2. unfold mergeMinVectorClock. rewrite !isNull_spec.
  rewrite <- merge_map_min by (by apply vc_map_nonneg).
  case_bool_decide as N1; case_bool_decide as N2; simpl.
  - subst. exists []. split; [done|]. split; [apply vc_ok_nil|done].
  - subst. rewrite dupVectorClock_spec by done. destruct (clean_spec vc2 H2) as (C1 & C2 & C3).
    eexists. split; [reflexivity|]. split; [done|]. split; [intros _; by apply vc_sorted_gids|].
    rewrite C3. apply map_eq. intros g. rewrite merge_map_lookup, lookup_fmap. by destruct (vc_map vc2 !! g).
  - subst. rewrite dupVectorClock_spec by done. destruct (clean_spec vc1 H1) as (C1 & C2 & C3).
    eexists. split; [reflexivity|]. split; [done|]. split; [intros ? _; by eapply vc_sorted_gids|].
    rewrite C3. apply map_eq. intros g. rewrite merge_map_lookup, lookup_fmap. by destruct (vc_map vc1 !! g).
  - destruct (Z.gtb_spec (count_all_gid_num vc1 vc2) 1).
    + destruct (merge_run min_clock (fun _ => 0) min_range ltac:(lia) vc1 vc2 H1 H2) as (r & E & ? & ? & ?).
      exists r. done.
    + destruct (merge_single min_clock (fun _ => 0) vc1 vc2)
        as (u1 & u2 & -> & -> & E & O1 & O2 & M); [intros; rewrite !min_clock_min; lia|done..|lia|].
      rewrite dupVectorClock_spec by done. cbn [need mbind res_bind lookup list_lookup insert list_insert].
      rewrite !unit_get_clock by done.
      pose proof (min_range (clock u2) (clock u1) (proj2 O2) (proj2 O1)) as R.
      rewrite set_logic_clock_ok by done.
      destruct (single_spec u1 u2 _ O1 O2 E R) as (? & ? & Mr).
      eexists. split; [reflexivity|]. split; [done|]. split; [done|]. by rewrite M, Mr.
Qed.

(** ** Reading, comparing and purging *)

Lemma vcu_None vc g : vc_map vc !! g = None -> vcu vc g = 0.
Proof. unfold vcu. by intros ->. Qed.

Lemma vcu_Some vc g c : vc_map vc !! g = Some c -> vcu vc g = c.
Proof. unfold vcu. by intros ->. Qed.

Lemma vcu_range vc g : vc_ok vc -> 0 <= vcu vc g < 2 ^ 56.
Proof.
  intros [H _]. unfold vcu. destruct (vc_map vc !! g) as [c|] eqn:E; simpl; [|lia].
  apply (vc_map_range _ _ _ H E).
Qed.

Lemma get_vcu_from_spec vc g i :
  vc_ok vc -> fst (get_vcu_from i vc g) = vcu vc g.
Proof.
  unfold vcu. revert i. induction vc as [|u vc IH]; intros i Hok; [done|].
  apply vc_ok_cons in Hok as (Hu & _ & Hok). cbn [get_vcu_from]. rewrite unit_get_gid, vc_map_cons by done.
  destruct (Z.eqb_spec (gid u) g) as [<-|Hne].
  - rewrite lookup_insert_eq. by apply unit_get_clock.
  - rewrite lookup_insert_ne by done. auto.
Qed.

Lemma getVectorClockUnit_clock vc g :
  vc_ok vc -> 0 < g < 16 -> clock (getVectorClockUnit vc g) = vcu vc g.
Proof.
  intros Hok Hg. unfold getVectorClockUnit. rewrite isNull_spec. case_bool_decide; [by subst|].
  destruct (get_clock_unit_cases vc g) as [(p & u & -> & Hp & _ & _ & E)|[-> E]]; [apply Hok|lia|..].
  - rewrite Hp. simpl. by rewrite (vcu_Some _ _ _ E).
  - by rewrite (vcu_None _ _ E).
Qed.

Lemma getVectorClockUnit_ok vc g :
  vc_ok vc -> 0 < g < 16 -> 0 <= clock (getVectorClockUnit vc g) < 2 ^ 56.
Proof. intros. rewrite getVectorClockUnit_clock by done. by apply vcu_range. Qed.

Lemma getVectorClockUnit_logic vc g :
  vc_ok vc -> 0 < g < 16 -> get_logic_clock (getVectorClockUnit vc g) = vcu vc g.
Proof.
  intros Hok Hg. pose proof (getVectorClockUnit_ok vc g Hok Hg). unfold get_logic_clock.
  rewrite to_ll_id by (unfold LLONG_MIN, LLONG_MAX; lia). by apply getVectorClockUnit_clock.
Qed.

Lemma unit_ahead_spec u vc :
  unit_ok u -> vc_ok vc -> unit_ahead u vc = (vcu vc (gid u) <? clock u).
Proof.
  intros Hu Hok. unfold unit_ahead. rewrite unit_get_gid, unit_get_clock by done.
  destruct Hu as [Hg Hc].
  destruct (get_clock_unit_cases vc (gid u)) as [(p & v & -> & Hp & Hv & _ & E)|[-> E]]; [apply Hok|lia|..].
  - rewrite Hp. simpl. rewrite unit_get_clock by done. by rewrite (vcu_Some _ _ _ E).
  - rewrite (vcu_None _ _ E). lia.
Qed.

(** The pointwise order of abstract clocks. *)

Definition vc_le (vc1 vc2 : VectorClock) : Prop := forall g, vcu vc1 g <= vcu vc2 g.

Lemma vc_le_units vc1 vc2 :
  vc_ok vc1 -> vc_ok vc2 ->
  Forall (fun u => clock u <= vcu vc2 (gid u)) vc1 <-> vc_le vc1 vc2.
Proof.
  intros H1 H2. split.
  - intros F g. unfold vcu at 1. destruct (vc_map vc1 !! g) as [c|] eqn:E; simpl.
    + apply vc_map_Some in E. rewrite Forall_forall in F. exact (F _ E).
    + by apply vcu_range.
  - intros L. apply Forall_forall. intros u Hu. pose proof (vc_map_elem vc1 u H1 Hu) as E.
    rewrite <- (vcu_Some _ _ _ E). apply L.
Qed.

Lemma isVectorClockMonoIncr_spec current future :
  vc_ok current -> vc_ok future ->
  isVectorClockMonoIncr current future = true <->
  current <> [] /\ future <> [] /\ (length current <= length future)%nat /\ vc_le current future.
Proof.
  intros H1 H2. unfold isVectorClockMonoIncr. rewrite !isNull_spec.
  case_bool_decide as N1; [by split; [|intros []]|].
  case_bool_decide as N2; [by split; [|intros (_ & [] & _)]|]. cbn [orb].
  unfold get_len. destruct (Z.gtb_spec (Z.of_nat (length current)) (Z.of_nat (length future))).
  { split; [done|]. lia. }
  rewrite <- vc_le_units by done.
  rewrite <- Is_true_true, forallb_True.
  assert (Forall (fun x => Is_true (negb (unit_ahead x future))) current <->
          Forall (fun u => clock u <= vcu future (gid u)) current) as ->; [|intuition lia].
  rewrite !Forall_forall. apply forall_proper. intros u.
  split; intros K Hu; specialize (K Hu); destruct H1 as [F _]; rewrite Forall_forall in F;
    rewrite unit_ahead_spec in * by auto.
  - rewrite Is_true_true, negb_true_iff in K. lia.
  - rewrite Is_true_true, negb_true_iff. lia.
Qed.

Lemma map_gid_filter (f : clk -> bool) vc g : g ∈ map gid (List.filter f vc) -> g ∈ map gid vc.
Proof.
  rewrite !list_elem_of_In, !in_map_iff. intros (u & E & Hu). apply filter_In in Hu as [Hu _]. eauto.
Qed.

Lemma filter_ok (f : clk -> bool) vc : vc_ok vc -> vc_ok (List.filter f vc).
Proof.
  induction vc as [|u vc IH]; [done|]. rewrite vc_ok_cons. intros (Hu & Hn & Hok). cbn [List.filter].
  destruct (f u); [|auto]. rewrite vc_ok_cons. split; [done|]. split; [|auto].
  intros H%map_gid_filter. done.
Qed.

Lemma purgeVectorClock_spec targe src :
  vc_ok targe -> vc_ok src ->
  exists r, purgeVectorClock targe src = Ok r /\ vc_ok r /\
    vc_map r = filter (fun p => vcu src (fst p) < snd p \/ src = []) (vc_map targe).
Proof.
  intros H1 H2. unfold purgeVectorClock. rewrite !isNull_spec.
  case_bool_decide as N1.
  { subst. exists []. split; [done|]. split; [done|]. symmetry. apply map_filter_empty. }
  case_bool_decide as N2.
  { exists targe. split; [done|]. split; [done|]. symmetry. apply map_filter_id. auto. }
  set (c := List.filter _ targe). assert (vc_ok c) as Hc by (by apply filter_ok).
  destruct (newVectorClock_ok (get_len c) (vc_ok_get_len c Hc)) as (b & -> & L). cbn [mbind res_bind].
  pose proof (fill_ok b c (proj1 Hc) ltac:(rewrite L; unfold get_len; lia)) as F.
  apply res_bind_Ok in F as (t & -> & F). cbn [mbind res_bind]. rewrite F. cbn [mbind res_bind].
  destruct (sort_spec c Hc) as (K1 & _ & K2 & _). eexists. split; [reflexivity|]. split; [done|].
  rewrite K2. clear -H1 H2 N2. subst c. induction targe as [|u vc IH]; [symmetry; apply map_filter_empty|].
  apply vc_ok_cons in H1 as (Hu & Hn & Hok). cbn [List.filter]. rewrite unit_ahead_spec, vc_map_cons by done.
  specialize (IH Hok). destruct (Z.ltb_spec (vcu src (gid u)) (clock u)).
  - rewrite vc_map_cons, IH, map_filter_insert_True; [done|]. simpl. auto.
  - rewrite map_filter_insert_False, delete_id by (simpl; (by apply vc_map_None) || (intros [?|?]; [lia|done])).
    done.
Qed.

Lemma units_equal_spec a b :
  Forall unit_ok a -> Forall unit_ok b -> length a = length b -> units_equal a b = true <-> a = b.
Proof.
  revert b. induction a as [|u a IH]; intros [|v b] Ha Hb L; try done.
  apply Forall_cons in Ha as [Hu Ha]. apply Forall_cons in Hb as [Hv Hb]. cbn [units_equal].
  rewrite !unit_get_gid, !unit_get_clock by done. rewrite !andb_true_iff, IH by (done || (simpl in L; lia)).
  rewrite !Z.eqb_eq. split.
  - intros [[E1 E2] ->]. f_equal. destruct u, v. simpl in *. congruence.
  - intros [= -> ->]. done.
Qed.

Lemma VectorClockEqual_spec a b :
  Forall unit_ok a -> Forall unit_ok b -> VectorClockEqual a b = true <-> a = b.
Proof.
  intros Ha Hb. unfold VectorClockEqual. rewrite !isNull_spec.
  case_bool_decide as Na; [subst; case_bool_decide; split; congruence|].
  case_bool_decide as Nb; [subst; split; congruence|].
  unfold get_len. destruct (Z.eqb_spec (Z.of_nat (length a)) (Z.of_nat (length b))); simpl.
  - apply units_equal_spec; [done..|lia].
  - split; [done|]. intros ->. done.
Qed.
