(* ===== verification/VcText.v ===== *)
(** * Vector clocks as text ([src/src/ctrip_vector_clock.c], lines 346-518)

    The notation ["<gid>:<clock>;<gid>:<clock>"], read by [sdsToVectorClock]
    and (with [strtok], on a C buffer) by [stringToVectorClock], written by
    [vectorClockToSds] and [vectorClockToString]. *)

From S2P Require Import Prelude Util Sds VectorClock VcTheory.

Definition VECTOR_CLOCK_SEPARATOR : bytes := str ";".

Definition VECTOR_CLOCK_UNIT_SEPARATOR : bytes := str ":".

(** ** Reading an sds *)

(** [string2ll] leaves its target indeterminate when it fails, and the result
    is not looked at: the unit is then indeterminate. *)

Definition unit_of_numbers (s_gid s_time : bytes) : res clk :=
  ll_gid ← need (string2ll s_gid);
  ll_time ← need (string2ll s_time);
  Ok (init_clock (to_char ll_gid) ll_time).

Definition sdsToVectorClockUnit (vcUnitStr : bytes) : res clk :=
  match sdssplitlen vcUnitStr VECTOR_CLOCK_UNIT_SEPARATOR with
  | Some [s_gid; s_time] => unit_of_numbers s_gid s_time
  | _ => Ok zero_unit
  end.

(** The loop over the pieces: parse one, store it at its index. *)

Fixpoint parse_units (parse : bytes -> res clk) (result : vc_buf) (i : Z) (vcUnits : list bytes)
  : res vc_buf :=
  match vcUnits with
  | [] => Ok result
  | s :: vcUnits =>
      u ← parse s;
      result ← set_clock_unit_by_index result i u;
      parse_units parse result (i + 1) vcUnits
  end.

(** The last piece, trimmed of NUL bytes, is dropped when nothing is left. *)

Definition drop_blank_last (trim : bytes -> bytes) (vcUnits : list bytes) : list bytes :=
  match last vcUnits with
  | None => []
  | Some s =>
      if bool_decide (trim s = []) then removelast vcUnits
      else removelast vcUnits ++ [trim s]
  end.

Definition sdsToVectorClock (vcStr : bytes) : res VectorClock :=
  match sdssplitlen vcStr VECTOR_CLOCK_SEPARATOR with
  | None | Some [] => Ok []
  | Some vcUnits =>
      let units := drop_blank_last (fun s => sdstrim s []) vcUnits in
      result ← newVectorClock (get_len units);
      result ← parse_units sdsToVectorClockUnit result 0 units;
      freeze result
  end.

(** ** Reading a C buffer *)

(** [split] with [strtok]: the maximal runs of bytes other than the separator;
    [cap] is the size of the caller's array, which [split] does not check. *)

Fixpoint strtok_loop (sep : Z) (cur s : bytes) : list bytes :=
  let emit rest := if bool_decide (cur = []) then rest else cur :: rest in
  match s with
  | [] => emit []
  | c :: s => if c =? sep then emit (strtok_loop sep [] s) else strtok_loop sep (cur ++ [c]) s
  end.

Definition split (src : bytes) (separator : Z) (cap : Z) : res (list bytes) :=
  let dest := strtok_loop separator [] src in
  if get_len dest <=? cap then Ok dest else Undef.

Fixpoint trim_left (s : bytes) : bytes :=
  match s with
  | [] => []
  | c :: t => if isspace c then trim_left t else s
  end.

Fixpoint trim_right (s : bytes) : bytes :=
  match s with
  | [] => []
  | c :: t =>
      match trim_right t with
      | [] => if isspace c then [] else [c]
      | u => c :: u
      end
  end.

(** The first byte that is not blank is never cut from the right. *)

Definition trim (s : bytes) : bytes :=
  match trim_left s with
  | [] => []
  | c :: t => c :: trim_right t
  end.

Definition stringToVectorClockUnit (vcUnitStr : bytes) : res clk :=
  vcUnits ← split vcUnitStr 58 2;
  match vcUnits with
  | [s_gid; s_time] => unit_of_numbers s_gid s_time
  | _ => Ok zero_unit
  end.

Definition stringToVectorClock (buf : bytes) : res VectorClock :=
  vcUnits ← split buf 59 (Z.shiftl 2 GIDSIZE);
  match vcUnits with
  | [] => Ok []
  | _ =>
      let units := drop_blank_last trim vcUnits in
      result ← newVectorClock (get_len units);
      result ← parse_units stringToVectorClockUnit result 0 units;
      freeze result
  end.

(** ** Writing *)

(** [do { len += 1; v /= 10; } while (v)] *)

Fixpoint lllen_loop (fuel : nat) (v len : Z) : Z :=
  match fuel with
  | O => len
  | S f => let v := Z.quot v 10 in if v =? 0 then len + 1 else lllen_loop f v (len + 1)
  end.

Definition lllen (v : Z) : res Z :=
  if v <? 0 then
    if v =? LLONG_MIN then Undef else Ok (lllen_loop 20 (- v) 1)
  else Ok (lllen_loop 20 v 0).

Fixpoint string_len_rest (vc : VectorClock) (buflen : Z) : res Z :=
  match vc with
  | [] => Ok buflen
  | u :: vc =>
      n ← lllen (get_logic_clock u);
      string_len_rest vc (buflen + (if get_gid u >=? 10 then 4 else 3) + n)
  end.

Definition vectorClockToStringLen (vc : VectorClock) : res Z :=
  match vc with
  | [] => Ok 0
  | u :: vc =>
      n ← lllen (get_logic_clock u);
      string_len_rest vc ((if get_gid u >=? 10 then 3 else 2) + n)
  end.

(** The formats ["%d:%lld"] and [";%d:%lld"]. *)

Definition print_unit (u : clk) : bytes :=
  print_Z (get_gid u) ++ VECTOR_CLOCK_UNIT_SEPARATOR ++ print_Z (get_logic_clock u).

Fixpoint print_rest (buf : bytes) (vc : VectorClock) : bytes :=
  match vc with
  | [] => buf
  | u :: vc => print_rest (buf ++ VECTOR_CLOCK_SEPARATOR ++ print_unit u) vc
  end.

(** The bytes written before the terminating NUL; their number is returned. *)

Definition vectorClockToString (vc : VectorClock) : bytes :=
  match vc with
  | [] => []
  | u :: vc => print_rest (print_unit u) vc
  end.

(** [if (i != length - 1) vcStr = sdscat(vcStr, SEPARATOR)] *)

Fixpoint sds_units (vcStr : bytes) (vc : VectorClock) : bytes :=
  match vc with
  | [] => vcStr
  | u :: vc =>
      let vcStr := vcStr ++ print_unit u in
      let vcStr := if negb (isNullVectorClock vc) then vcStr ++ VECTOR_CLOCK_SEPARATOR else vcStr in
      sds_units vcStr vc
  end.

Definition vectorClockToSds (vc : VectorClock) : bytes :=
  if isNullVectorClock vc then []
  else sds_units [] vc.

(** ** The written form *)

Lemma sds_units_join s vc : sds_units s vc = s ++ sdsjoinsds (map print_unit vc) [59].
Proof.
  revert s. induction vc as [|u vc IH]; intros s; [simpl; by rewrite app_nil_r|].
  cbn [sds_units map]. rewrite IH. destruct vc as [|v vc].
  - simpl. by rewrite app_nil_r.
  - cbn [map]. rewrite (sdsjoinsds_cons (print_unit u)) by done. simpl negb. cbv iota.
    rewrite <- !app_assoc. done.
Qed.

Lemma vectorClockToSds_join vc : vectorClockToSds vc = sdsjoinsds (map print_unit vc) [59].
Proof.
  unfold vectorClockToSds. rewrite isNull_spec. case_bool_decide as N; [by subst|].
  apply sds_units_join.
Qed.

Lemma print_rest_join s vc : vc <> [] -> print_rest s vc = s ++ [59] ++ sdsjoinsds (map print_unit vc) [59].
Proof.
  revert s. induction vc as [|u vc IH]; intros s N; [done|]. cbn [print_rest map].
  destruct vc as [|v vc]; [done|]. rewrite IH by done. cbn [map].
  rewrite (sdsjoinsds_cons (print_unit u)) by done. rewrite <- !app_assoc. done.
Qed.

Lemma vectorClockToString_join vc : vectorClockToString vc = sdsjoinsds (map print_unit vc) [59].
Proof.
  destruct vc as [|u [|v vc]]; [done|done|]. cbn [vectorClockToString].
  rewrite print_rest_join by done. cbn [map]. by rewrite (sdsjoinsds_cons (print_unit u)).
Qed.

(** ** Bytes of the written form *)

Definition text_byte (c : Z) : Prop := 48 <= c <= 58.

Lemma print_digits z : 0 <= z -> Forall (fun c => 48 <= c <= 57) (print_Z z) /\ print_Z z <> [].
Proof.
  intros Hz. unfold print_Z. replace (z <? 0) with false by lia.
  split.
  - eapply Forall_impl; [by apply dec_digits|]. unfold is_digit. intros c Hc. lia.
  - by destruct (dec_head z Hz) as (c & t & -> & _).
Qed.

Lemma print_unit_ok u :
  unit_ok u ->
  print_unit u = print_Z (gid u) ++ [58] ++ print_Z (clock u) /\ Forall text_byte (print_unit u).
Proof.
  intros Hu. unfold print_unit. rewrite unit_get_gid, unit_get_clock by done.
  split; [done|]. destruct Hu as [H1 H2].
  destruct (print_digits (gid u)) as [D1 _]; [lia|]. destruct (print_digits (clock u)) as [D2 _]; [lia|].
  apply Forall_app_2; [eapply Forall_impl; [exact D1|]; unfold text_byte; simpl; lia|].
  change VECTOR_CLOCK_UNIT_SEPARATOR with [58].
  apply Forall_app_2; [apply Forall_singleton; unfold text_byte; lia|eapply Forall_impl; [exact D2|]; unfold text_byte; simpl; lia].
Qed.

Lemma print_unit_not_nil u : print_unit u <> [].
Proof. unfold print_unit. intros E. apply app_eq_nil in E as [_ E]. done. Qed.

Lemma skip_left_id cset s : Forall (fun c => strchr_in cset c = false) s -> skip_left cset s = s.
Proof. destruct s as [|c s]; [done|]. intros [E _]%Forall_cons. simpl. by rewrite E. Qed.

Lemma skip_right_id cset s : Forall (fun c => strchr_in cset c = false) s -> skip_right cset s = s.
Proof.
  induction s as [|c s IH]; [done|]. intros [E F]%Forall_cons. simpl. rewrite IH, E by done.
  by destruct s.
Qed.

Lemma sdstrim_id cset s : Forall (fun c => strchr_in (cset ++ [0]) c = false) s -> sdstrim s cset = s.
Proof.
  intros F. unfold sdstrim. rewrite skip_left_id by done. destruct s as [|c s]; [done|].
  apply Forall_cons in F as [_ F]. by rewrite skip_right_id.
Qed.

Lemma trim_right_id s : Forall (fun c => isspace c = false) s -> trim_right s = s.
Proof.
  induction s as [|c s IH]; [done|]. intros [E F]%Forall_cons. simpl. rewrite IH, E by done.
  by destruct s.
Qed.

Lemma trim_id s : Forall (fun c => isspace c = false) s -> trim s = s.
Proof.
  intros F. unfold trim. destruct s as [|c s]; [done|]. apply Forall_cons in F as [E F]. simpl.
  rewrite E. by rewrite trim_right_id.
Qed.

Lemma text_trims s : Forall text_byte s -> sdstrim s [] = s /\ trim s = s.
Proof.
  intros F. split; [apply sdstrim_id|apply trim_id]; (eapply Forall_impl; [exact F|]);
    intros c Hc; unfold text_byte in Hc; simpl; [lia|unfold isspace; lia].
Qed.

Lemma drop_blank_last_id trim l :
  Forall (fun s => trim s = s /\ s <> []) l -> drop_blank_last trim l = l.
Proof.
  intros F. destruct l as [|x l _] using rev_ind; [done|]. unfold drop_blank_last. rewrite last_snoc.
  apply Forall_app in F as [_ [[-> Hn] _]%Forall_cons]. rewrite bool_decide_false by done.
  by rewrite removelast_last.
Qed.

Lemma not_in_text c s : Forall text_byte s -> ~ text_byte c -> c ∉ s.
Proof. intros F Hn Hin. rewrite Forall_forall in F. auto. Qed.

Lemma unit_of_numbers_ok u :
  unit_ok u -> unit_of_numbers (print_Z (gid u)) (print_Z (clock u)) = Ok u.
Proof.
  intros [H1 H2]. unfold unit_of_numbers.
  rewrite !string2ll_print by (unfold LLONG_MIN, LLONG_MAX; lia). cbn [need mbind res_bind].
  rewrite to_char_id, init_clock_ok by lia. by destruct u.
Qed.

Lemma digits_no_sep z c : 0 <= z -> 57 < c -> c ∉ print_Z z.
Proof.
  intros Hz Hc Hin. destruct (print_digits z Hz) as [F _]. rewrite Forall_forall in F.
  specialize (F c Hin). lia.
Qed.

Lemma sdsToVectorClockUnit_print u : unit_ok u -> sdsToVectorClockUnit (print_unit u) = Ok u.
Proof.
  intros Hu. unfold sdsToVectorClockUnit. change VECTOR_CLOCK_UNIT_SEPARATOR with [58].
  rewrite sdssplitlen_splitc by apply print_unit_not_nil.
  destruct (print_unit_ok u Hu) as [-> _]. change ([58] ++ ?x) with (58 :: x).
  assert (0 <= gid u /\ 0 <= clock u) as [? ?] by (destruct Hu; lia).
  rewrite splitc_app_sep, splitc_no_sep by (apply digits_no_sep; lia).
  by apply unit_of_numbers_ok.
Qed.

(** ** [strtok] *)

Lemma strtok_app sep cur t s :
  sep ∉ t -> strtok_loop sep cur (t ++ s) = strtok_loop sep (cur ++ t) s.
Proof.
  revert cur. induction t as [|c t IH]; intros cur H; [by rewrite app_nil_r|].
  apply not_elem_of_cons in H as [Hc Ht]. cbn [app strtok_loop].
  replace (c =? sep) with false by lia. rewrite IH by done. by rewrite <- app_assoc.
Qed.

Lemma strtok_end sep cur : cur <> [] -> strtok_loop sep cur [] = [cur].
Proof. intros H. cbn [strtok_loop]. by rewrite bool_decide_false. Qed.

Lemma strtok_sep sep cur s : cur <> [] -> strtok_loop sep cur (sep :: s) = cur :: strtok_loop sep [] s.
Proof. intros H. cbn [strtok_loop]. rewrite Z.eqb_refl. by rewrite bool_decide_false. Qed.

Lemma strtok_join sep toks :
  Forall (fun t => (sep ∉ t) /\ t <> []) toks -> strtok_loop sep [] (sdsjoinsds toks [sep]) = toks.
Proof.
  induction toks as [|t toks IH]; [done|]. intros [[Ht Hn] F]%Forall_cons. destruct toks as [|u toks].
  - cbn [sdsjoinsds]. rewrite <- (app_nil_r t) at 1. rewrite strtok_app by done. by apply strtok_end.
  - rewrite sdsjoinsds_cons by done. rewrite strtok_app by done.
    change ([sep] ++ ?x) with (sep :: x). rewrite strtok_sep by done. by rewrite IH.
Qed.

Lemma stringToVectorClockUnit_print u : unit_ok u -> stringToVectorClockUnit (print_unit u) = Ok u.
Proof.
  intros Hu. unfold stringToVectorClockUnit, split.
  assert (0 <= gid u /\ 0 <= clock u) as [H1 H2] by (destruct Hu; lia).
  assert (print_unit u = sdsjoinsds [print_Z (gid u); print_Z (clock u)] [58]) as ->
    by (by destruct (print_unit_ok u Hu) as [-> _]).
  rewrite strtok_join.
  - cbn. by apply unit_of_numbers_ok.
  - repeat constructor; (apply digits_no_sep; lia) || (by apply print_digits).
Qed.

(** ** Reading the written form back *)

Lemma parse_units_ok (parse : bytes -> res clk) b i vc :
  (forall u, unit_ok u -> parse (print_unit u) = Ok u) -> Forall unit_ok vc ->
  parse_units parse b i (map print_unit vc) = set_units b i vc.
Proof.
  intros Hp. revert b i. induction vc as [|u vc IH]; intros b i H; [done|].
  apply Forall_cons in H as [Hu H]. cbn [map parse_units set_units]. rewrite Hp by done.
  cbn [mbind res_bind]. destruct set_clock_unit_by_index; [|done..]. cbn [mbind res_bind]. auto.
Qed.

Lemma parse_fill parse vc :
  (forall u, unit_ok u -> parse (print_unit u) = Ok u) -> vc_ok vc ->
  (result ← newVectorClock (get_len (map print_unit vc));
   result ← parse_units parse result 0 (map print_unit vc);
   freeze result) = Ok vc.
Proof.
  intros Hp Hok. replace (get_len (map print_unit vc)) with (get_len vc)
    by (unfold get_len; by rewrite length_map).
  destruct (newVectorClock_ok (get_len vc) (vc_ok_get_len vc Hok)) as (b & -> & L).
  cbn [mbind res_bind]. rewrite parse_units_ok by (done || apply Hok).
  apply fill_ok; [apply Hok|]. rewrite L. unfold get_len. lia.
Qed.

Lemma texts_ok vc :
  Forall unit_ok vc ->
  Forall (fun s => Forall text_byte s) (map print_unit vc) /\
  Forall (fun s => (59 ∉ s) /\ s <> []) (map print_unit vc) /\
  (forall tr, (forall s, Forall text_byte s -> tr s = s) ->
   drop_blank_last tr (map print_unit vc) = map print_unit vc).
Proof.
  intros H. assert (Forall (fun s => Forall text_byte s) (map print_unit vc)) as F.
  { apply Forall_map. eapply Forall_impl; [exact H|]. intros u Hu. by apply print_unit_ok. }
  split; [done|]. split.
  - apply Forall_map. eapply Forall_impl; [exact H|]. intros u Hu. simpl.
    split; [|apply print_unit_not_nil]. apply not_in_text; [by apply print_unit_ok|unfold text_byte; lia].
  - intros tr Htr. apply drop_blank_last_id. apply Forall_map. eapply Forall_impl; [exact H|].
    intros u Hu. split; [apply Htr; by apply print_unit_ok|apply print_unit_not_nil].
Qed.

Lemma clock_text_bytes vc : vc_ok vc -> bytes_ok (vectorClockToSds vc).
Proof.
  intros Hok. rewrite vectorClockToSds_join. destruct (texts_ok vc (proj1 Hok)) as (H & _).
  induction H as [|s l Hs Hl IH]; [constructor|].
  assert (bytes_ok s) as Hb by (eapply Forall_impl; [exact Hs|]; unfold text_byte; simpl; lia).
  destruct l as [|s' l]; [done|]. rewrite sdsjoinsds_cons by done.
  apply bytes_ok_app; [done|]. apply bytes_ok_app; [decide_now|done].
Qed.

Lemma join_not_nil vc : vc <> [] -> sdsjoinsds (map print_unit vc) [59] <> [].
Proof.
  intros N E. destruct vc as [|u [|v vc]]; [done|by apply print_unit_not_nil in E|].
  cbn [map] in E. rewrite sdsjoinsds_cons in E by done. apply app_eq_nil in E as [E _].
  by apply print_unit_not_nil in E.
Qed.

Lemma sds_split_text vc :
  Forall unit_ok vc -> vc <> [] ->
  splitc 59 (sdsjoinsds (map print_unit vc) [59]) = map print_unit vc.
Proof.
  intros H N. destruct (texts_ok vc H) as (_ & F & _). apply splitc_join; [by destruct vc|].
  eapply Forall_impl; [exact F|]. by intros s [? _].
Qed.

Lemma sdsjoinsds_snoc_nil l sep : l <> [] -> sdsjoinsds (l ++ [[]]) sep = sdsjoinsds l sep ++ sep.
Proof.
  induction l as [|x l IH]; intros N; [done|]. cbn [app]. destruct l as [|y l].
  - cbn [app sdsjoinsds]. by rewrite app_nil_r.
  - rewrite !sdsjoinsds_cons, IH by done. by rewrite <- !app_assoc.
Qed.

Lemma clock_text vc :
  vc_ok vc ->
  sdsToVectorClock (vectorClockToSds vc) = Ok vc /\
  stringToVectorClock (vectorClockToString vc) = Ok vc /\
  (vc <> [] -> sdsToVectorClock (vectorClockToSds vc ++ VECTOR_CLOCK_SEPARATOR) = Ok vc).
Proof.
  intros Hok.
  destruct (texts_ok vc (proj1 Hok)) as (_ & F & D).
  assert (forall s, Forall text_byte s -> sdstrim s [] = s) as T1 by (intros; by apply text_trims).
  assert (forall s, Forall text_byte s -> trim s = s) as T2 by (intros; by apply text_trims).
  rewrite vectorClockToSds_join, vectorClockToString_join.
  unfold sdsToVectorClock, stringToVectorClock, split. change VECTOR_CLOCK_SEPARATOR with [59].
  rewrite strtok_join by done.
  destruct (decide (vc = [])) as [->|N]; [done|].
  assert (map print_unit vc <> []) as N' by (by destruct vc).
  assert (0 < get_len (map print_unit vc) <= 15) as L.
  { unfold get_len. rewrite length_map. apply vc_ok_length in Hok. destruct vc; [done|simpl in *; lia]. }
  split; [|split; [|intros _]].
  - rewrite sdssplitlen_splitc by (by apply join_not_nil). rewrite sds_split_text by (done || apply Hok).
    rewrite D by done. destruct (map print_unit vc) eqn:E; [done|]. rewrite <- E.
    apply parse_fill; [apply sdsToVectorClockUnit_print|done].
  - change (Z.shiftl 2 GIDSIZE) with 32.
    replace (get_len (map print_unit vc) <=? 32) with true by lia.
    cbn [mbind res_bind]. rewrite D by done. destruct (map print_unit vc) eqn:E; [done|]. rewrite <- E.
    apply parse_fill; [apply stringToVectorClockUnit_print|done].
  - assert (splitc 59 (sdsjoinsds (map print_unit vc) [59] ++ [59]) = map print_unit vc ++ [[]]) as S.
    { rewrite <- (splitc_join 59 (map print_unit vc ++ [[]])); [|by destruct (map print_unit vc)|].
      - by rewrite sdsjoinsds_snoc_nil.
      - apply Forall_app_2; [eapply Forall_impl; [exact F|]; by intros s [? _]|].
        repeat constructor. apply not_elem_of_nil. }
    rewrite sdssplitlen_splitc by (intros E; apply app_eq_nil in E as [_ E]; done). rewrite S.
    assert (drop_blank_last (fun s => sdstrim s []) (map print_unit vc ++ [[]]) = map print_unit vc) as DB.
    { unfold drop_blank_last. rewrite last_snoc, bool_decide_true by done. by rewrite removelast_last. }
    destruct (map print_unit vc ++ [[]]) eqn:E; [by destruct (map print_unit vc)|]. rewrite DB.
    apply parse_fill; [apply sdsToVectorClockUnit_print|done].
Qed.

(** Writing a well-formed vector clock and reading it back gives the clock,
    through the sds functions and through the C-buffer functions; a trailing
    separator is accepted. *)
Lemma vector_clock_text_roundtrip vc (Hok : vc_ok vc) :
  sdsToVectorClock (vectorClockToSds vc) = Ok vc /\
  stringToVectorClock (vectorClockToString vc) = Ok vc /\
  (vc <> [] -> sdsToVectorClock (vectorClockToSds vc ++ VECTOR_CLOCK_SEPARATOR) = Ok vc).
Proof. by apply clock_text. Qed.

Lemma vector_clock_text_roundtrip_witness :
  sdsToVectorClock (vectorClockToSds [Clk 1 100; Clk 3 7]) = Ok [Clk 1 100; Clk 3 7] /\
  stringToVectorClock (vectorClockToString [Clk 1 100; Clk 3 7]) = Ok [Clk 1 100; Clk 3 7] /\
  ([Clk 1 100; Clk 3 7] <> [] ->
   sdsToVectorClock (vectorClockToSds [Clk 1 100; Clk 3 7] ++ VECTOR_CLOCK_SEPARATOR)
   = Ok [Clk 1 100; Clk 3 7]).
Proof. apply vector_clock_text_roundtrip. decide_now. Defined.

(** ** The announced length *)

Lemma lllen_loop_dec fuel v len :
  0 <= v < 10 ^ Z.of_nat fuel -> (0 < fuel)%nat ->
  lllen_loop fuel v len = len + Z.of_nat (length (dec v)).
Proof.
  revert v len. induction fuel as [|fuel IH]; intros v len Hv Hf; [lia|]. cbn [lllen_loop].
  rewrite Z.quot_div_nonneg by lia. destruct (Z_lt_ge_dec v 10) as [Hs|Hb].
  - rewrite Z.div_small by lia. rewrite dec_small by lia. done.
  - assert (1 <= v / 10) by (apply Z.div_le_lower_bound; lia).
    replace (v / 10 =? 0) with false by lia.
    rewrite Nat2Z.inj_succ, Z.pow_succ_r in Hv by lia.
    rewrite IH, (dec_step v), length_app; [simpl length; lia|lia|split; [lia|]|].
    + apply Z.div_lt_upper_bound; lia.
    + destruct fuel; [simpl in Hv; lia|lia].
Qed.

Lemma lllen_print v : 0 <= v < 2 ^ 63 -> lllen v = Ok (Z.of_nat (length (print_Z v))).
Proof.
  intros Hv. unfold lllen, print_Z. replace (v <? 0) with false by lia. f_equal.
  rewrite lllen_loop_dec; [done| |lia]. change (10 ^ Z.of_nat 20) with 100000000000000000000. lia.
Qed.

Lemma gid_text_length g :
  0 < g < 16 -> Z.of_nat (length (print_Z g)) = if g >=? 10 then 2 else 1.
Proof.
  intros Hg. assert (g ∈ seqZ 1 15) as Hin by (apply elem_of_seqZ; lia). clear Hg.
  revert g Hin. apply Forall_forall. decide_now.
Qed.

Lemma print_unit_length u :
  unit_ok u ->
  Z.of_nat (length (print_unit u)) =
  (if get_gid u >=? 10 then 3 else 2) + Z.of_nat (length (print_Z (get_logic_clock u))).
Proof.
  intros Hu. destruct (print_unit_ok u Hu) as [-> _]. rewrite unit_get_gid, unit_get_clock by done.
  rewrite !length_app. pose proof (gid_text_length (gid u) (proj1 Hu)) as E. simpl length.
  destruct (gid u >=? 10); lia.
Qed.

Lemma string_len_rest_spec vc s :
  Forall unit_ok vc ->
  string_len_rest vc (Z.of_nat (length s)) = Ok (Z.of_nat (length (print_rest s vc))).
Proof.
  revert s. induction vc as [|u vc IH]; intros s H; [done|]. apply Forall_cons in H as [Hu H].
  cbn [string_len_rest print_rest]. pose proof (print_unit_length u Hu) as L.
  rewrite lllen_print by (rewrite unit_get_clock by done; destruct Hu; lia). cbn [mbind res_bind].
  rewrite <- IH by done. f_equal. rewrite !length_app.
  change (length VECTOR_CLOCK_SEPARATOR) with 1%nat. destruct (get_gid u >=? 10); lia.
Qed.

(** [vectorClockToStringLen] announces exactly the number of bytes
    [vectorClockToString] writes before the terminating NUL, so a buffer of
    that size plus one is enough. *)
Lemma vectorClockToStringLen_exact vc (Hok : Forall unit_ok vc) :
  vectorClockToStringLen vc = Ok (Z.of_nat (length (vectorClockToString vc))).
Proof.
  destruct vc as [|u vc]; [done|]. apply Forall_cons in Hok as [Hu H].
  cbn [vectorClockToStringLen vectorClockToString].
  rewrite lllen_print by (rewrite unit_get_clock by done; destruct Hu; lia). cbn [mbind res_bind].
  rewrite <- print_unit_length by done. by apply string_len_rest_spec.
Qed.

Lemma vectorClockToStringLen_exact_witness :
  vectorClockToStringLen [Clk 12 1000; Clk 3 0] = Ok 11.
Proof. apply (vectorClockToStringLen_exact [Clk 12 1000; Clk 3 0]). decide_now. Defined.
