(* ===== verification/VcClaims.v ===== *)
(** * Vector clocks: the properties of [ctrip_vector_clock.c]

    The merges refine the pointwise maximum and minimum of the abstract clocks
    and form a semilattice; the comparison is the pointwise order; adding,
    reading, aligning and purging act on one gid as they should. *)

From S2P Require Import Prelude Util Sds VectorClock VcTheory.

(** ** Facts shared with the clients *)

Lemma vcu_map_max m1 m2 g :
  map_nonneg m1 -> map_nonneg m2 ->
  default 0 (map_max m1 m2 !! g) = Z.max (default 0 (m1 !! g)) (default 0 (m2 !! g)).
Proof.
  intros N1 N2. rewrite map_max_lookup.
  destruct (m1 !! g) as [x|] eqn:E1, (m2 !! g) as [y|] eqn:E2; simpl; [done|..].
  - apply N1 in E1. lia.
  - apply N2 in E2. lia.
  - done.
Qed.

Lemma map_min_lookup m1 m2 g :
  map_min m1 m2 !! g =
  match m1 !! g, m2 !! g with
  | None, None => None
  | x, y => Some (Z.min (default 0 x) (default 0 y))
  end.
Proof. unfold map_min. rewrite lookup_merge. by destruct (m1 !! g), (m2 !! g). Qed.

Lemma vcu_map_min m1 m2 g :
  default 0 (map_min m1 m2 !! g) = Z.min (default 0 (m1 !! g)) (default 0 (m2 !! g)).
Proof. rewrite map_min_lookup. by destruct (m1 !! g), (m2 !! g). Qed.

(** Merging, read one gid at a time. *)

Lemma merge_vcu a b :
  vc_ok a -> vc_ok b ->
  exists r, vectorClockMerge a b = Ok r /\ vc_ok r /\ (vc_sorted a -> vc_sorted b -> vc_sorted r) /\
            (forall g, vcu r g = Z.max (vcu a g) (vcu b g)).
Proof.
  intros Ha Hb. destruct (vectorClockMerge_spec a b Ha Hb) as (r & E & Hr & S & M).
  exists r. split; [done|]. split; [done|]. split; [done|]. intros g. unfold vcu. rewrite M.
  apply vcu_map_max; by apply vc_map_nonneg.
Qed.

Lemma min_vcu a b :
  vc_ok a -> vc_ok b ->
  exists r, mergeMinVectorClock a b = Ok r /\ vc_ok r /\ (vc_sorted a -> vc_sorted b -> vc_sorted r) /\
            (forall g, vcu r g = Z.min (vcu a g) (vcu b g)).
Proof.
  intros Ha Hb. destruct (mergeMinVectorClock_spec a b Ha Hb) as (r & E & Hr & S & M).
  exists r. split; [done|]. split; [done|]. split; [done|]. intros g. unfold vcu. rewrite M.
  apply vcu_map_min.
Qed.

Lemma map_max_comm m1 m2 : map_max m1 m2 = map_max m2 m1.
Proof.
  apply map_eq. intros g. rewrite !map_max_lookup.
  destruct (m1 !! g), (m2 !! g); [|done..]. f_equal. lia.
Qed.

Lemma map_max_assoc m1 m2 m3 : map_max m1 (map_max m2 m3) = map_max (map_max m1 m2) m3.
Proof.
  apply map_eq. intros g. rewrite !map_max_lookup.
  destruct (m1 !! g), (m2 !! g), (m3 !! g); [|done..]. f_equal. lia.
Qed.

Lemma map_max_idem m : map_max m m = m.
Proof.
  apply map_eq. intros g. rewrite !map_max_lookup. destruct (m !! g); [|done]. f_equal. lia.
Qed.

(** ** Claims *)

(** C3: [vectorClockMerge] of two well-formed clocks returns (no assertion
    fails, the target array is filled exactly) a well-formed clock, sorted when
    the arguments are, whose abstract clock is the pointwise maximum. *)
Theorem vectorClockMerge_refines_max a b (Ha : vc_ok a) (Hb : vc_ok b) :
  exists r, vectorClockMerge a b = Ok r /\ vc_ok r /\ (vc_sorted a -> vc_sorted b -> vc_sorted r) /\
            vc_map r = map_max (vc_map a) (vc_map b).
Proof. by apply vectorClockMerge_spec. Qed.

Lemma vectorClockMerge_refines_max_witness :
  exists r, vectorClockMerge [Clk 1 5; Clk 2 9] [Clk 2 3; Clk 4 1] = Ok r /\ vc_ok r /\
    (vc_sorted [Clk 1 5; Clk 2 9] -> vc_sorted [Clk 2 3; Clk 4 1] -> vc_sorted r) /\
    vc_map r = map_max (vc_map [Clk 1 5; Clk 2 9]) (vc_map [Clk 2 3; Clk 4 1]).
Proof. apply vectorClockMerge_refines_max; decide_now. Defined.

(** Merging is commutative, associative and idempotent: on sorted
    well-formed clocks the results are the same unit lists, so replicas that
    merge the same clocks in any order and any number of times agree. *)
Lemma vectorClockMerge_semilattice a b c
  (Ha : vc_ok a /\ vc_sorted a) (Hb : vc_ok b /\ vc_sorted b) (Hc : vc_ok c /\ vc_sorted c) :
  vectorClockMerge a b = vectorClockMerge b a /\
  (ab ← vectorClockMerge a b; vectorClockMerge ab c) =
  (bc ← vectorClockMerge b c; vectorClockMerge a bc) /\
  vectorClockMerge a a = Ok a.
Proof.
  destruct Ha as [Ha Sa], Hb as [Hb Sb], Hc as [Hc Sc].
  destruct (vectorClockMerge_spec a b Ha Hb) as (ab & Eab & Kab & Sab & Mab).
  destruct (vectorClockMerge_spec b a Hb Ha) as (ba & Eba & Kba & Sba & Mba).
  destruct (vectorClockMerge_spec b c Hb Hc) as (bc & Ebc & Kbc & Sbc & Mbc).
  destruct (vectorClockMerge_spec a a Ha Ha) as (aa & Eaa & Kaa & Saa & Maa).
  destruct (vectorClockMerge_spec ab c Kab Hc) as (abc & Eabc & Kabc & Sabc & Mabc).
  destruct (vectorClockMerge_spec a bc Ha Kbc) as (abc' & Eabc' & Kabc' & Sabc' & Mabc').
  rewrite Eab, Eba, Ebc, Eaa. cbn [mbind res_bind]. rewrite Eabc, Eabc'.
  split; [|split]; f_equal; apply sorted_map_inj; auto.
  - by rewrite Mab, Mba, map_max_comm.
  - by rewrite Mabc, Mab, Mabc', Mbc, map_max_assoc.
  - by rewrite Maa, map_max_idem.
Qed.

Lemma vectorClockMerge_semilattice_witness :
  vectorClockMerge [Clk 1 5] [Clk 2 3; Clk 4 1] = vectorClockMerge [Clk 2 3; Clk 4 1] [Clk 1 5] /\
  (ab ← vectorClockMerge [Clk 1 5] [Clk 2 3; Clk 4 1]; vectorClockMerge ab [Clk 2 8]) =
  (bc ← vectorClockMerge [Clk 2 3; Clk 4 1] [Clk 2 8]; vectorClockMerge [Clk 1 5] bc) /\
  vectorClockMerge [Clk 1 5] [Clk 1 5] = Ok [Clk 1 5].
Proof. apply vectorClockMerge_semilattice; (split; [decide_now|reflexivity]). Defined.

(** The merge is the least upper bound and the min-merge the greatest lower
    bound in the pointwise order on clocks (an absent gid counts as 0). *)
Lemma merge_bounds a b (Ha : vc_ok a) (Hb : vc_ok b) :
  (exists r, vectorClockMerge a b = Ok r /\ vc_ok r /\ vc_le a r /\ vc_le b r /\
             forall d, vc_le a d -> vc_le b d -> vc_le r d) /\
  (exists r, mergeMinVectorClock a b = Ok r /\ vc_ok r /\ vc_le r a /\ vc_le r b /\
             forall d, vc_le d a -> vc_le d b -> vc_le d r).
Proof.
  destruct (merge_vcu a b Ha Hb) as (r & E & Hr & _ & M).
  destruct (min_vcu a b Ha Hb) as (s & Es & Hs & _ & Ms). unfold vc_le.
  split; [exists r|exists s]; (split; [done|]); (split; [done|]).
  - repeat split; intros; rewrite ?M; [lia..|]. apply Z.max_lub; auto.
  - repeat split; intros; rewrite ?Ms; [lia..|]. apply Z.min_glb; auto.
Qed.

Lemma merge_bounds_witness :
  (exists r, vectorClockMerge [Clk 3 5; Clk 2 9] [Clk 2 3] = Ok r /\ vc_ok r /\
     vc_le [Clk 3 5; Clk 2 9] r /\ vc_le [Clk 2 3] r /\
     forall d, vc_le [Clk 3 5; Clk 2 9] d -> vc_le [Clk 2 3] d -> vc_le r d) /\
  (exists r, mergeMinVectorClock [Clk 3 5; Clk 2 9] [Clk 2 3] = Ok r /\ vc_ok r /\
     vc_le r [Clk 3 5; Clk 2 9] /\ vc_le r [Clk 2 3] /\
     forall d, vc_le d [Clk 3 5; Clk 2 9] -> vc_le d [Clk 2 3] -> vc_le d r).
Proof. apply merge_bounds; decide_now. Defined.

(** [isVectorClockMonoIncr(current, future)] holds exactly when both clocks
    are non-null, [current] has no more units than [future] and is below it in
    the pointwise order; in particular the merge of a clock with another one
    is always accepted as its future. *)
Lemma isVectorClockMonoIncr_iff current future (Hc : vc_ok current) (Hf : vc_ok future) :
  (isVectorClockMonoIncr current future = true <->
   current <> [] /\ future <> [] /\ (length current <= length future)%nat /\ vc_le current future) /\
  (forall r, current <> [] -> vectorClockMerge current future = Ok r ->
             isVectorClockMonoIncr current r = true).
Proof.
  split; [by apply isVectorClockMonoIncr_spec|]. intros r N E.
  destruct (vectorClockMerge_spec current future Hc Hf) as (r' & E' & Hr & _ & M).
  destruct (merge_vcu current future Hc Hf) as (r'' & E'' & _ & _ & V).
  rewrite E in E', E''. injection E' as <-. injection E'' as <-.
  assert (length current <= length r)%nat as L.
  { rewrite <- !vc_ok_size by done. apply subseteq_size. rewrite M. intros g.
    rewrite !elem_of_dom, map_max_lookup. intros [x ->]. by destruct (vc_map future !! g). }
  apply isVectorClockMonoIncr_spec; [done..|]. split; [done|].
  split; [intros ->; destruct current; [done|simpl in L; lia]|]. split; [done|].
  intros g. rewrite V. lia.
Qed.

Lemma isVectorClockMonoIncr_iff_witness :
  (isVectorClockMonoIncr [Clk 2 3] [Clk 1 5; Clk 2 9] = true <->
   [Clk 2 3] <> [] /\ [Clk 1 5; Clk 2 9] <> [] /\
   (length [Clk 2 3] <= length [Clk 1 5; Clk 2 9])%nat /\ vc_le [Clk 2 3] [Clk 1 5; Clk 2 9]) /\
  (forall r, [Clk 2 3] <> [] -> vectorClockMerge [Clk 2 3] [Clk 1 5; Clk 2 9] = Ok r ->
             isVectorClockMonoIncr [Clk 2 3] r = true).
Proof. apply isVectorClockMonoIncr_iff; decide_now. Defined.

(** Adding a unit: the clock stays well-formed and sorted, reads back the
    new value (cut to 56 bits) at that gid and is unchanged at every other
    one, whether the gid was there or not. *)
Lemma addVectorClockUnit_lookup vc g t (Hok : vc_ok vc) (Hg : 0 < g < 16) :
  exists r, addVectorClockUnit vc g t = Ok r /\ vc_ok r /\ (vc_sorted vc -> vc_sorted r) /\
    get_logic_clock (getVectorClockUnit r g) = uwrap 56 t /\
    forall h, 0 < h < 16 -> h <> g -> getVectorClockUnit r h = getVectorClockUnit vc h.
Proof.
  destruct (addVectorClockUnit_spec vc g t Hok Hg) as (r & E & Hr & S & M).
  exists r. split; [done|]. split; [done|]. split; [done|]. split.
  - rewrite getVectorClockUnit_logic by done. unfold vcu. by rewrite M, lookup_insert_eq.
  - intros h Hh Hne. assert (vc_map r !! h = vc_map vc !! h) as L by (by rewrite M, lookup_insert_ne).
    unfold getVectorClockUnit. rewrite !isNull_spec.
    assert (forall v : VectorClock, vc_ok v ->
      (if bool_decide (v = []) then zero_unit else
       match get_clock_unit v h with None => zero_unit | Some p => default zero_unit (v !! p) end) =
      match vc_map v !! h with Some c => Clk h c | None => zero_unit end) as G.
    { intros v Hv. case_bool_decide; [by subst|].
      destruct (get_clock_unit_cases v h) as [(p & u & -> & Hp & _ & <- & ->)|[-> ->]];
        [apply Hv|lia| |done]. rewrite Hp. by destruct u. }
    by rewrite !G, L.
Qed.

Lemma addVectorClockUnit_lookup_witness :
  exists r, addVectorClockUnit [Clk 1 5; Clk 4 9] 2 70 = Ok r /\ vc_ok r /\
    (vc_sorted [Clk 1 5; Clk 4 9] -> vc_sorted r) /\
    get_logic_clock (getVectorClockUnit r 2) = uwrap 56 70 /\
    forall h, 0 < h < 16 -> h <> 2 -> getVectorClockUnit r h = getVectorClockUnit [Clk 1 5; Clk 4 9] h.
Proof. apply addVectorClockUnit_lookup; [decide_now|lia]. Defined.

(** [updateProcessVectorClock] takes over, for the given gid only, the
    source's clock when the gid is the server's own, and otherwise the larger
    of the two clocks; when the source has no unit for it nothing changes. *)
Lemma updateProcessVectorClock_vcu dst src g cur
  (Hd : vc_ok dst) (Hs : vc_ok src) (Hg : 0 < g < 16) :
  exists r, updateProcessVectorClock dst src g cur = Ok r /\ vc_ok r /\
    (forall h, h <> g -> vcu r h = vcu dst h) /\
    (vc_map src !! g = None -> r = dst) /\
    (g <> cur -> vcu r g = Z.max (vcu dst g) (vcu src g)) /\
    (g = cur -> is_Some (vc_map src !! g) -> vcu r g = vcu src g).
Proof.
  set (fl := if g =? cur then CLOCK_UNIT_ALIGN else CLOCK_UNIT_MAX).
  assert (updateProcessVectorClock dst src g cur = commonMergeFunction dst src g fl) as ->
    by (unfold updateProcessVectorClock, fl; by destruct (g =? cur)).
  destruct (commonMergeFunction_spec dst src g fl Hd Hs Hg) as (r & E & Hr & _ & M).
  exists r. split; [done|]. split; [done|]. unfold vcu. rewrite M. clear M. split.
  - intros h Hh. destruct (vc_map src !! g); [|done]. by rewrite lookup_insert_ne.
  - split.
    + intros N. unfold commonMergeFunction in E.
      destruct (get_clock_unit_cases src g) as [(? & ? & _ & _ & _ & _ & K)|[K _]];
        [apply Hs|lia|congruence|]. rewrite K in E. by injection E.
    + split.
      * intros Hne. replace fl with CLOCK_UNIT_MAX by (unfold fl; by replace (g =? cur) with false by lia).
        pose proof (vcu_range dst g Hd) as R. unfold vcu in R.
        destruct (vc_map src !! g) as [c|] eqn:Es; simpl; [|lia].
        rewrite lookup_insert_eq. apply vc_map_nonneg in Es; [|done].
        destruct (vc_map dst !! g); simpl; lia.
      * intros -> [c ->]. replace fl with CLOCK_UNIT_ALIGN by (unfold fl; by rewrite Z.eqb_refl).
        rewrite lookup_insert_eq. done.
Qed.

Lemma updateProcessVectorClock_vcu_witness :
  exists r, updateProcessVectorClock [Clk 1 5] [Clk 1 3; Clk 2 8] 2 1 = Ok r /\ vc_ok r /\
    (forall h, h <> 2 -> vcu r h = vcu [Clk 1 5] h) /\
    (vc_map [Clk 1 3; Clk 2 8] !! 2 = None -> r = [Clk 1 5]) /\
    (2 <> 1 -> vcu r 2 = Z.max (vcu [Clk 1 5] 2) (vcu [Clk 1 3; Clk 2 8] 2)) /\
    (2 = 1 -> is_Some (vc_map [Clk 1 3; Clk 2 8] !! 2) -> vcu r 2 = vcu [Clk 1 3; Clk 2 8] 2).
Proof. apply updateProcessVectorClock_vcu; [decide_now..|lia]. Defined.

(** [purgeVectorClock(target, src)] keeps exactly the units that are ahead
    of [src]; nothing is lost: merging the purged clock with [src] gives what
    merging the original with [src] gives. *)
Lemma purgeVectorClock_lossless targe src (Ht : vc_ok targe) (Hs : vc_ok src) :
  exists r, purgeVectorClock targe src = Ok r /\ vc_ok r /\
    (forall g c, src <> [] -> vc_map r !! g = Some c <-> vc_map targe !! g = Some c /\ vcu src g < c) /\
    (exists m1 m2, vectorClockMerge r src = Ok m1 /\ vectorClockMerge targe src = Ok m2 /\
                   forall g, vcu m1 g = vcu m2 g).
Proof.
  destruct (purgeVectorClock_spec targe src Ht Hs) as (r & E & Hr & M).
  exists r. split; [done|]. split; [done|]. split.
  - intros g c N. rewrite M, map_lookup_filter_Some. simpl. naive_solver.
  - destruct (merge_vcu r src Hr Hs) as (m1 & E1 & _ & _ & V1).
    destruct (merge_vcu targe src Ht Hs) as (m2 & E2 & _ & _ & V2).
    exists m1, m2. split; [done|]. split; [done|]. intros g. rewrite V1, V2.
    assert (vcu r g = vcu targe g \/ (vcu r g = 0 /\ vcu targe g <= vcu src g)) as [->|[-> ?]].
    { unfold vcu at 1 2 3 4. destruct (vc_map r !! g) as [c|] eqn:Er.
      - left. rewrite M, map_lookup_filter_Some in Er. destruct Er as [-> _]. done.
      - right. split; [done|]. rewrite M, map_lookup_filter_None in Er. destruct Er as [->|Er].
        + simpl. by apply vcu_range.
        + destruct (vc_map targe !! g) as [c|] eqn:Et; simpl; [|by apply vcu_range].
          specialize (Er c eq_refl). simpl in Er. lia. }
    + done.
    + pose proof (vcu_range src g Hs). lia.
Qed.

Lemma purgeVectorClock_lossless_witness :
  exists r, purgeVectorClock [Clk 1 5; Clk 2 8] [Clk 1 5; Clk 2 7] = Ok r /\ vc_ok r /\
    (forall g c, [Clk 1 5; Clk 2 7] <> [] ->
       vc_map r !! g = Some c <->
       vc_map [Clk 1 5; Clk 2 8] !! g = Some c /\ vcu [Clk 1 5; Clk 2 7] g < c) /\
    (exists m1 m2, vectorClockMerge r [Clk 1 5; Clk 2 7] = Ok m1 /\
                   vectorClockMerge [Clk 1 5; Clk 2 8] [Clk 1 5; Clk 2 7] = Ok m2 /\
                   forall g, vcu m1 g = vcu m2 g).
Proof. apply purgeVectorClock_lossless; decide_now. Defined.

(** A clock has room for fifteen gids and no more: a sixteenth unit stops
    the server on the assertion of [set_len], and a gid above fifteen is not
    refused but reduced modulo sixteen, which can duplicate a gid. *)
Lemma addVectorClockUnit_limits :
  addVectorClockUnit (map (fun g => Clk g 1) (seqZ 1 15)) 16 1 = Abort /\
  addVectorClockUnit [Clk 1 5] 17 9 = Ok [Clk 1 5; Clk 1 9] /\
  (forall vc g t, vc_ok vc -> -128 <= g < 128 -> g mod 16 = 0 -> addVectorClockUnit vc g t = Abort).
Proof.
  split; [vm_compute; reflexivity|]. split; [vm_compute; reflexivity|].
  intros vc g t Hok Hg Hm. unfold addVectorClockUnit. rewrite to_char_id by done.
  destruct (get_clock_unit_cases vc g) as [(p & u & _ & _ & [Hu _] & <- & _)|[-> Hn]]; [apply Hok|lia| |].
  { rewrite Z.mod_small in Hm by lia. lia. }
  pose proof (vc_ok_get_len vc Hok) as L.
  destruct (decide (get_len vc = 15)) as [->|N]; [by rewrite newVectorClock_abort|].
  destruct (newVectorClock_ok (get_len vc + 1)) as (b & -> & Lb); [lia|]. cbn [mbind res_bind].
  assert (length b = S (length vc)) as Lb' by (rewrite Lb; unfold get_len; lia).
  destruct b as [|x b _] using rev_ind; [done|]. rewrite length_app in Lb'. simpl in Lb'.
  pose proof (set_units_ok [] b vc [x] (proj1 Hok) ltac:(lia)) as S. simpl app in S.
  change (get_len []) with 0 in S. rewrite S. cbn [mbind res_bind].
  assert (get_len vc < get_len (map Some vc ++ [x])) as ->%Z.ltb_lt
    by (unfold get_len; rewrite length_app, length_map; simpl; lia).
  unfold set_clock_unit_by_index. unfold get_gid, init_clock. simpl gid.
  unfold uwrap. change (2 ^ GIDSIZE) with 16. rewrite Hm. done.
Qed.

(** [VectorClockEqual] decides equality of the unit lists, hence, on sorted
    clocks, equality of the abstract clocks. *)
Lemma VectorClockEqual_iff a b
  (Ha : vc_ok a /\ vc_sorted a) (Hb : vc_ok b /\ vc_sorted b) :
  (VectorClockEqual a b = true <-> a = b) /\
  (VectorClockEqual a b = true <-> vc_map a = vc_map b).
Proof.
  destruct Ha as [Ha Sa], Hb as [Hb Sb]. rewrite VectorClockEqual_spec by (apply Ha || apply Hb).
  split; [done|]. split; [by intros ->|]. by apply sorted_map_inj.
Qed.

Lemma VectorClockEqual_iff_witness :
  (VectorClockEqual [Clk 1 5; Clk 2 8] [Clk 1 5] = true <-> [Clk 1 5; Clk 2 8] = [Clk 1 5]) /\
  (VectorClockEqual [Clk 1 5; Clk 2 8] [Clk 1 5] = true <->
   vc_map [Clk 1 5; Clk 2 8] = vc_map [Clk 1 5]).
Proof. apply VectorClockEqual_iff; (split; [decide_now|reflexivity]). Defined.

(** [resetVectorClock] sets every unit of a clock with several units to
    0, and leaves a clock with one unit as it was. *)
Lemma resetVectorClock_single_unit :
  (forall u, resetVectorClock [u] = [u]) /\
  (forall vc, (1 < length vc)%nat -> Forall (fun u => clock u = 0) (resetVectorClock vc)).
Proof.
  split; [done|]. intros vc L. unfold resetVectorClock, get_len.
  replace (Z.of_nat (length vc) >? 1) with true by lia. apply Forall_map.
  apply Forall_true. done.
Qed.
