(* ===== verification/Proxy.v ===== *)
(** * Proxies of peer links ([src/src/proxy.c], [src/src/xpipe_proxy.c])

    A peer may be reached through an xpipe proxy: a list of proxy points, the
    index of the one in use and optional routing parameters.  The proxy is read
    from the arguments of [PEEROF] or of a configuration line, and written to
    and read from a string kept in the RDB file. *)

From S2P Require Import Prelude Util Sds.

Definition NONE_PROXY : Z := 0.

Definition XPIPE_PROXY : Z := 1.

Inductive point_type := XPIPE_PROXY_NONE | XPIPE_PROXY_TCP | XPIPE_PROXY_TLS.

#[global] Instance point_type_eq_dec : EqDecision point_type.
Proof. solve_decision. Defined.

Record Point := MkPoint { host : bytes; port : Z; type : point_type }.

#[global] Instance Point_eq_dec : EqDecision Point.
Proof. solve_decision. Defined.

Record XpipeProxy := MkXpipeProxy { servers : list Point; servers_index : Z; params : option bytes }.

#[global] Instance XpipeProxy_eq_dec : EqDecision XpipeProxy.
Proof. solve_decision. Defined.

Definition PROXYTCP : bytes := str "PROXYTCP".

(** ** Reading *)

Definition parsePoint (s : bytes) : option Point :=
  match sdssplitlen s (str ":") with
  | Some [h; port_str] =>
      p ← string2l port_str; Some (MkPoint h (to_int p) XPIPE_PROXY_NONE)
  | Some [proto; h; port_str] =>
      if bool_decide (cstr proto = PROXYTCP) then
        p ← string2l port_str; Some (MkPoint (sdsrange h 2 (-1)) (to_int p) XPIPE_PROXY_TCP)
      else None
  | _ => None
  end.

Fixpoint parse_points (units : list bytes) : option (list Point) :=
  match units with
  | [] => Some []
  | s :: units => p ← parsePoint s; ps ← parse_points units; Some (p :: ps)
  end.

Definition parseServers (s : bytes) : option (list Point) :=
  units ← sdssplitlen s (str ","); parse_points units.

Definition createXpipeProxy : XpipeProxy := MkXpipeProxy [] 0 None.

(** The loop [for (i = 4; i < argc; i++)] of [parseXpipeProxyByArray], on the
    arguments from position 4: a keyword without a value reads past the end of
    the array. *)

Fixpoint parse_proxy_args (proxy : XpipeProxy) (argv : list bytes) : res XpipeProxy :=
  match argv with
  | [] => Ok proxy
  | a :: rest =>
      if strcaseeq (cstr a) (str "proxy-servers") then
        match rest with
        | [] => Undef
        | v :: rest =>
            match parseServers v with
            | Some servers => parse_proxy_args (MkXpipeProxy servers 0 (params proxy)) rest
            | None => parse_proxy_args proxy rest
            end
        end
      else if strcaseeq (cstr a) (str "proxy-params") then
        match rest with
        | [] => Undef
        | v :: rest =>
            parse_proxy_args (MkXpipeProxy (servers proxy) (servers_index proxy) (Some (cstr v))) rest
        end
      else parse_proxy_args proxy rest
  end.

Definition parseXpipeProxyByArray (argv : list bytes) : res (option XpipeProxy) :=
  proxy ← parse_proxy_args createXpipeProxy (drop 4 argv);
  Ok (if bool_decide (servers proxy = []) then None else Some proxy).

Definition str2XpipeProxy (s : bytes) : res (option XpipeProxy) :=
  match sdssplitlen s (str "|") with
  | None | Some [] => Undef
  | Some (length_str :: splits) =>
      match string2l length_str with
      | None => Ok None
      | Some _ =>
          match splits with
          | [] => Undef
          | servers_str :: more =>
              match parseServers servers_str with
              | None => Ok None
              | Some servers =>
                  Ok (Some (MkXpipeProxy servers 0
                              (match more with [p] => Some p | _ => None end)))
              end
          end
      end
  end.

(** ** Writing *)

Definition getPointInfo (p : Point) : bytes :=
  let t := match type p with
           | XPIPE_PROXY_TCP => str "PROXYTCP://"
           | XPIPE_PROXY_TLS => str "PROXYTLS://"
           | XPIPE_PROXY_NONE => []
           end in
  t ++ cstr (host p) ++ str ":" ++ print_Z (port p).

(** With no server the code reads [servers[0]] of an empty array. *)

Definition getProxyServersInfo (proxy : XpipeProxy) : res bytes :=
  match servers proxy with
  | [] => Undef
  | p :: ps =>
      Ok (fold_left (fun result p => result ++ str "," ++ getPointInfo p) ps (getPointInfo p))
  end.

Definition getXpipeProxyInfo (peer_index : Z) (proxy : XpipeProxy) : res bytes :=
  servers_str ← getProxyServersInfo proxy;
  server ← need (servers proxy !! Z.to_nat (servers_index proxy));
  let peer := str "peer" ++ print_Z peer_index in
  let result :=
    peer ++ str "_proxy_type:XPIPE-PROXY" ++ [CR; LF] ++
    peer ++ str "_proxy_servers:" ++ servers_str ++ [CR; LF] ++
    peer ++ str "_proxy_server:" ++ getPointInfo server ++ [CR; LF] in
  Ok (match params proxy with
      | None => result
      | Some ps => result ++ peer ++ str "_proxy_params:" ++ cstr ps ++ [CR; LF]
      end).

Definition getXpipeProxyConfigInfo (proxy : XpipeProxy) : res bytes :=
  servers_str ← getProxyServersInfo proxy;
  let result := str "proxy-type XPIPE-PROXY proxy-servers " ++ servers_str in
  Ok (match params proxy with
      | None => result
      | Some ps => result ++ str " proxy-params '" ++ cstr ps ++ str "'"
      end).

Definition xpipeProxy2str (proxy : XpipeProxy) : res bytes :=
  let n := match params proxy with None => 1 | Some _ => 2 end in
  result ← sdsfromlonglong n;
  servers_info ← getProxyServersInfo proxy;
  let result := result ++ str "|" ++ servers_info in
  Ok (match params proxy with
      | None => result
      | Some ps => result ++ str "|" ++ cstr ps
      end).

(** The routing command sent to the proxy before anything else. *)

Definition proxy_route (proxy : XpipeProxy) (dst_host : bytes) (dst_port : Z) : bytes :=
  str "+PROXY ROUTE" ++
  (match params proxy with None => [] | Some ps => str " " ++ cstr ps end) ++
  str " TCP://" ++ cstr dst_host ++ str ":" ++ print_Z dst_port ++ [CR; LF].

(** [written] is the outcome of [syncWrite] on the socket. *)

Definition xipieProxyConnectedAfter (written : bytes -> bool) (proxy : XpipeProxy)
    (dst_host : bytes) (dst_port : Z) : bool :=
  written (proxy_route proxy dst_host dst_port).

(** ** Comparing *)

Definition eqPoint (p1 p2 : Point) : bool :=
  if negb (sdscmp (host p1) (host p2) =? 0) then false
  else if negb (port p1 =? port p2) then false
  else true.

Definition eqXpipeProxy (proxy1 proxy2 : XpipeProxy) : bool :=
  match params proxy1, params proxy2 with
  | None, Some _ | Some _, None => false
  | o1, o2 =>
      let differ := match o1, o2 with
                    | Some s1, Some s2 => negb (sdscmp s1 s2 =? 0)
                    | _, _ => false
                    end in
      if differ then false
      else if negb (Nat.eqb (length (servers proxy1)) (length (servers proxy2))) then false
      else forallb (fun p1 => existsb (eqPoint p1) (servers proxy2)) (servers proxy1)
  end.

(** The first server of the new proxy that is the one in use; its index is
    stored in the new proxy.  (When exactly one of the two has no parameters
    the pointers differ.) *)

Fixpoint find_point (point : Point) (i : Z) (l : list Point) : option Z :=
  match l with
  | [] => None
  | p :: l => if eqPoint point p then Some i else find_point point (i + 1) l
  end.

Definition xpipeProxyIsKeepConnected (current peer : XpipeProxy) : res (bool * XpipeProxy) :=
  point ← need (servers current !! Z.to_nat (servers_index current));
  let same_params :=
    match params peer, params current with
    | Some s1, Some s2 => sdscmp s1 s2 =? 0
    | None, None => true
    | _, _ => false
    end in
  if negb same_params then Ok (false, peer)
  else match find_point point 0 (servers peer) with
       | Some i => Ok (true, MkXpipeProxy (servers peer) i (params peer))
       | None => Ok (false, peer)
       end.

(** ** Connecting *)

(** [rand() % dis + start]; [r] is the value of [rand()]. *)

Definition ramdonIndex (r start stop : Z) : res Z :=
  let dis := stop - start in
  if dis =? 0 then Undef else Ok (Z.rem r dis + start).

(** [connect] is the outcome of the non-blocking connect (−1: failed). *)

Definition xpipeProxyConnect (r : Z) (connect : bytes -> Z -> Z) (proxy : XpipeProxy)
  : res (Z * XpipeProxy) :=
  i ← ramdonIndex r 0 (Z.of_nat (length (servers proxy)));
  let proxy := MkXpipeProxy (servers proxy) i (params proxy) in
  point ← need (servers proxy !! Z.to_nat i);
  Ok (connect (host point) (port point), proxy).

(** ** Dispatch on the proxy type ([proxy.c]) *)

Definition getProxyType (t : bytes) : Z :=
  if strcaseeq (cstr t) (str "xpipe-proxy") then XPIPE_PROXY else NONE_PROXY.

Definition parseProxyByRobjArray (proxy_type : Z) (argv : list bytes) : res (option XpipeProxy) :=
  if proxy_type =? XPIPE_PROXY then parseXpipeProxyByArray argv else Ok None.

Definition parseProxyBySdsArray (proxy_type : Z) (argv : list bytes) : res (option XpipeProxy) :=
  if proxy_type =? XPIPE_PROXY then parseXpipeProxyByArray argv else Ok None.

Definition getProxyInfo (peer_index proxy_type : Z) (proxy : option XpipeProxy) : res (option bytes) :=
  if proxy_type =? XPIPE_PROXY then
    match proxy with
    | None => Ok None
    | Some p => Some <$> getXpipeProxyInfo peer_index p
    end
  else Ok None.

Definition getProxyConfigInfo (proxy_type : Z) (proxy : option XpipeProxy) : res (option bytes) :=
  if proxy_type =? XPIPE_PROXY then
    p ← need proxy; Some <$> getXpipeProxyConfigInfo p
  else Ok None.

Definition eqProxy (proxy_type : Z) (p1 p2 : option XpipeProxy) : res bool :=
  if proxy_type =? XPIPE_PROXY then
    p1 ← need p1; p2 ← need p2; Ok (eqXpipeProxy p1 p2)
  else Ok ((proxy_type =? NONE_PROXY) && bool_decide (p1 = None) && bool_decide (p2 = None)).

Definition proxyConnect (r : Z) (connect : bytes -> Z -> Z) (proxy_type : Z) (proxy : option XpipeProxy)
  : res (Z * option XpipeProxy) :=
  if proxy_type =? XPIPE_PROXY then
    p ← need proxy;
    '(fd, p) ← xpipeProxyConnect r connect p;
    Ok (fd, Some p)
  else Ok (-1, proxy).

Definition proxyConnectedAfter (written : bytes -> bool) (proxy_type : Z) (proxy : option XpipeProxy)
    (dst_host : bytes) (dst_port : Z) : res bool :=
  if proxy_type =? XPIPE_PROXY then
    p ← need proxy; Ok (xipieProxyConnectedAfter written p dst_host dst_port)
  else Ok false.

Definition str2proxy (proxy_type : Z) (s : bytes) : res (option XpipeProxy) :=
  if proxy_type =? XPIPE_PROXY then str2XpipeProxy s else Ok None.

Definition proxy2str (proxy_type : Z) (proxy : option XpipeProxy) : res (option bytes) :=
  if proxy_type =? XPIPE_PROXY then
    p ← need proxy; Some <$> xpipeProxy2str p
  else Ok None.

Definition proxyIsKeepConnected (proxy_type : Z) (current proxy : option XpipeProxy)
  : res (bool * option XpipeProxy) :=
  if proxy_type =? XPIPE_PROXY then
    c ← need current;
    p ← need proxy;
    '(b, p) ← xpipeProxyIsKeepConnected c p;
    Ok (b, Some p)
  else Ok (false, proxy).

(** ** Round trip *)

Definition point_ok (p : Point) : Prop :=
  Forall (fun c => c <> 58 /\ c <> 44 /\ c <> 124 /\ c <> 0) (host p) /\
  - 2 ^ 31 <= port p < 2 ^ 31 /\ type p <> XPIPE_PROXY_TLS.

#[global] Instance point_ok_dec p : Decision (point_ok p).
Proof. unfold point_ok. apply _. Defined.

Definition proxy_ok (proxy : XpipeProxy) : Prop :=
  servers proxy <> [] /\ Forall point_ok (servers proxy) /\
  match params proxy with
  | None => True
  | Some ps => Forall (fun c => c <> 124 /\ c <> 0) ps
  end.

#[global] Instance proxy_ok_dec proxy : Decision (proxy_ok proxy).
Proof. unfold proxy_ok. destruct (params proxy); apply _. Defined.

Lemma not_in_Forall (P : Z -> Prop) c s : Forall P s -> ~ P c -> c ∉ s.
Proof. intros F N H. rewrite Forall_forall in F. auto. Qed.

Lemma print_Z_chars z c : c <> 45 -> ~ (48 <= c <= 57) -> c ∉ print_Z z.
Proof.
  intros Hc Hd. apply (not_in_Forall (fun d => d = 45 \/ 48 <= d <= 57)); [|lia].
  assert (forall n, 0 <= n -> Forall (fun d => d = 45 \/ 48 <= d <= 57) (dec n)) as D.
  { intros n Hn. eapply Forall_impl; [by apply dec_digits|]. unfold is_digit. simpl. lia. }
  unfold print_Z. destruct (Z.ltb_spec z 0); [constructor; [by left|]|]; apply D; lia.
Qed.

Lemma host_facts p :
  point_ok p -> (58 ∉ host p) /\ (44 ∉ host p) /\ (124 ∉ host p) /\ cstr (host p) = host p.
Proof.
  intros (H & _). split; [|split; [|split]]; [..|apply cstr_id]; eapply not_in_Forall; try exact H; simpl; lia.
Qed.

Lemma parsePoint_print p : point_ok p -> parsePoint (getPointInfo p) = Some p.
Proof.
  intros Hok. destruct (host_facts p Hok) as (H58 & _ & _ & C). destruct Hok as (_ & Hp & Ht).
  destruct p as [h n t]. simpl in *. unfold parsePoint, getPointInfo. cbn [host port type]. rewrite C.
  assert (58 ∉ print_Z n) as Hn by (apply print_Z_chars; lia).
  assert (string2l (print_Z n) = Some n) as N
    by (rewrite string2l_string2ll; apply string2ll_print; unfold LLONG_MIN, LLONG_MAX; lia).
  change (str ":") with [58]. destruct t; [| |done].
  - cbn [app]. rewrite sdssplitlen_splitc by (intros E; by apply app_eq_nil in E as [_ ?]).
    rewrite splitc_app_sep, splitc_no_sep by done. rewrite N. simpl. by rewrite to_int_id.
  - change (str "PROXYTCP://") with (PROXYTCP ++ 58 :: [47; 47]).
    rewrite <- app_assoc. cbn [app].
    rewrite sdssplitlen_splitc by (by destruct PROXYTCP).
    rewrite splitc_app_sep by (apply (bool_decide_unpack _); vm_compute; exact I).
    change (47 :: 47 :: h ++ 58 :: print_Z n) with ((47 :: 47 :: h) ++ 58 :: print_Z n).
    rewrite splitc_app_sep, splitc_no_sep; [|done|rewrite !not_elem_of_cons; split; [lia|split; [lia|done]]].
    rewrite bool_decide_true by done. rewrite N. simpl. rewrite to_int_id by done.
    rewrite sdsrange_suffix by lia. done.
Qed.

Lemma parse_points_print ps :
  Forall point_ok ps -> parse_points (map getPointInfo ps) = Some ps.
Proof.
  induction ps as [|p ps IH]; [done|]. intros [Hp Hps]%Forall_cons. cbn [map parse_points].
  rewrite parsePoint_print by done. simpl. by rewrite IH.
Qed.

Lemma servers_info_join proxy :
  servers proxy <> [] ->
  getProxyServersInfo proxy = Ok (sdsjoinsds (map getPointInfo (servers proxy)) [44]).
Proof.
  intros N. unfold getProxyServersInfo. destruct (servers proxy) as [|p ps]; [done|]. f_equal.
  cbn [map]. generalize (getPointInfo p) as s. clear. induction ps as [|q ps IH]; intros s; [done|].
  cbn [fold_left map]. rewrite IH. rewrite (sdsjoinsds_cons s) by done.
  destruct ps as [|r ps]; [done|]. cbn [map]. rewrite !sdsjoinsds_cons by done.
  by rewrite <- !app_assoc.
Qed.

Lemma getPointInfo_chars p c :
  point_ok p -> (c = 44 \/ c = 124) -> c ∉ getPointInfo p.
Proof.
  intros Hok Hc. destruct (host_facts p Hok) as (_ & H44 & H124 & C). unfold getPointInfo. rewrite C.
  rewrite !not_elem_of_app. split; [|split; [|split]].
  - destruct Hc as [->| ->], (type p); decide_now.
  - destruct Hc as [->| ->]; done.
  - destruct Hc as [->| ->]; decide_now.
  - apply print_Z_chars; lia.
Qed.

Lemma getPointInfo_not_nil p : getPointInfo p <> [].
Proof.
  unfold getPointInfo. intros E. apply app_eq_nil in E as [_ E]. apply app_eq_nil in E as [_ E]. done.
Qed.

Lemma join_point_chars ps c :
  Forall point_ok ps -> c = 124 -> c ∉ sdsjoinsds (map getPointInfo ps) [44].
Proof.
  intros H ->. induction ps as [|p ps IH]; [apply not_elem_of_nil|].
  apply Forall_cons in H as [Hp H]. specialize (IH H). cbn [map].
  assert (124 ∉ getPointInfo p) as Hn by (apply getPointInfo_chars; auto).
  destruct ps as [|q ps]; [done|]. cbn [map] in *. rewrite sdsjoinsds_cons by done.
  rewrite !not_elem_of_app. split; [done|]. split; [|done]. decide_now.
Qed.

Lemma parseServers_print ps :
  ps <> [] -> Forall point_ok ps ->
  parseServers (sdsjoinsds (map getPointInfo ps) [44]) = Some ps.
Proof.
  intros N H. unfold parseServers. change (str ",") with [44].
  rewrite sdssplitlen_splitc.
  - rewrite splitc_join; [by apply parse_points_print|by destruct ps|].
    apply Forall_map. eapply Forall_impl; [exact H|]. intros p Hp. apply getPointInfo_chars; auto.
  - destruct ps as [|p [|q ps]]; [done|apply getPointInfo_not_nil|]. cbn [map].
    rewrite sdsjoinsds_cons by done. intros E. apply app_eq_nil in E as [E _].
    by apply getPointInfo_not_nil in E.
Qed.

Lemma xpipe_text proxy :
  proxy_ok proxy ->
  exists s, xpipeProxy2str proxy = Ok s /\
            str2XpipeProxy s = Ok (Some (MkXpipeProxy (servers proxy) 0 (params proxy))).
Proof.
  intros Hok. destruct Hok as (N & F & Hp). unfold xpipeProxy2str.
  set (n := match params proxy with None => 1 | Some _ => 2 end).
  assert (0 < n < 3) as Hn by (unfold n; destruct (params proxy); lia).
  unfold sdsfromlonglong. rewrite sdsll2str_print by (unfold LLONG_MIN, LLONG_MAX; lia).
  cbn [mbind res_bind]. rewrite servers_info_join by done. cbn [mbind res_bind].
  set (info := sdsjoinsds (map getPointInfo (servers proxy)) [44]).
  eexists. split; [reflexivity|]. unfold str2XpipeProxy. change (str "|") with [124].
  assert (124 ∉ print_Z n) as Hpn by (apply print_Z_chars; lia).
  assert (124 ∉ info) as Hi by (by apply join_point_chars).
  assert (string2l (print_Z n) = Some n) as En
    by (rewrite string2l_string2ll; apply string2ll_print; unfold LLONG_MIN, LLONG_MAX; lia).
  assert (print_Z n <> []) as Nn by (unfold n; by destruct (params proxy)).
  destruct (params proxy) as [ps|]; cbn [app].
  - assert (124 ∉ ps) as Hps by (eapply not_in_Forall; [exact Hp|simpl; lia]).
    rewrite cstr_id by (eapply not_in_Forall; [exact Hp|simpl; lia]).
    rewrite <- app_assoc. cbn [app].
    rewrite sdssplitlen_splitc by (intros E; by apply app_eq_nil in E as [? _]).
    rewrite !splitc_app_sep, splitc_no_sep by done. rewrite En.
    unfold info. by rewrite parseServers_print.
  - rewrite sdssplitlen_splitc by (intros E; by apply app_eq_nil in E as [? _]).
    rewrite splitc_app_sep, splitc_no_sep by done. rewrite En.
    unfold info. by rewrite parseServers_print.
Qed.

(** ** Claims *)

(** A proxy written to its RDB string is read back with the same servers
    and parameters (the index of the server in use starts at 0 again), for
    hosts and parameters without the separator bytes. *)
Lemma xpipeProxy_str_roundtrip proxy (Hok : proxy_ok proxy) :
  exists s, xpipeProxy2str proxy = Ok s /\
            str2XpipeProxy s = Ok (Some (MkXpipeProxy (servers proxy) 0 (params proxy))).
Proof. by apply xpipe_text. Qed.

Lemma xpipeProxy_str_roundtrip_witness :
  let proxy := MkXpipeProxy [MkPoint (str "10.0.0.1") 80 XPIPE_PROXY_NONE;
                             MkPoint (str "p") 443 XPIPE_PROXY_TCP] 1 (Some (str "PROXYTCP://x")) in
  exists s, xpipeProxy2str proxy = Ok s /\
            str2XpipeProxy s = Ok (Some (MkXpipeProxy (servers proxy) 0 (params proxy))).
Proof. apply xpipeProxy_str_roundtrip. decide_now. Defined.

(** [eqXpipeProxy] looks for every server of the first proxy among those
    of the second and compares hosts and ports: it is reflexive, but with a
    repeated server it is not symmetric. *)
Lemma eqXpipeProxy_not_symmetric :
  (forall p, eqXpipeProxy p p = true) /\
  exists p1 p2, eqXpipeProxy p1 p2 = true /\ eqXpipeProxy p2 p1 = false.
Proof.
  split.
  - intros p. unfold eqXpipeProxy. assert (sdscmp (default [] (params p)) (default [] (params p)) = 0) as E
      by (by apply sdscmp_eq).
    assert (forallb (fun p1 => existsb (eqPoint p1) (servers p)) (servers p) = true) as F.
    { apply forallb_forall. intros q Hq. apply existsb_exists. exists q. split; [done|].
      unfold eqPoint. rewrite (proj2 (sdscmp_eq _ _) eq_refl). simpl. by rewrite Z.eqb_refl. }
    rewrite Nat.eqb_refl. destruct (params p); simpl in *; rewrite ?E; done.
  - set (a := MkPoint (str "a") 1 XPIPE_PROXY_NONE). set (b := MkPoint (str "b") 1 XPIPE_PROXY_NONE).
    exists (MkXpipeProxy [a; a] 0 None), (MkXpipeProxy [a; b] 0 None). split; vm_compute; reflexivity.
Qed.

(** When a new proxy keeps the connection, the index stored in it is that of
    a server with the host and port of the one in use, and the parameters are
    equal. *)
Theorem xpipeProxyIsKeepConnected_index current peer p'
  (H : xpipeProxyIsKeepConnected current peer = Ok (true, p')) :
  servers p' = servers peer /\ params p' = params peer /\ params peer = params current /\
  exists a b, servers current !! Z.to_nat (servers_index current) = Some a /\
              servers p' !! Z.to_nat (servers_index p') = Some b /\
              host a = host b /\ port a = port b.
Proof.
  unfold xpipeProxyIsKeepConnected in H. apply res_bind_Ok in H as (a & Ea & H).
  apply need_Ok in Ea. set (same := match params peer with Some _ => _ | None => _ end) in H.
  destruct same eqn:Es; simpl in H; [|done].
  assert (params peer = params current) as Ep.
  { unfold same in Es. destruct (params peer), (params current); try done.
    apply Z.eqb_eq, sdscmp_eq in Es. by subst. }
  assert (forall i l j, 0 <= i -> find_point a i l = Some j ->
            i <= j /\ exists b, l !! Z.to_nat (j - i) = Some b /\ host a = host b /\ port a = port b) as Hf.
  { clear. intros i l. revert i. induction l as [|p l IH]; intros i j Hi; [done|]. cbn [find_point].
    destruct (eqPoint a p) eqn:E.
    - intros [= <-]. split; [lia|]. exists p. rewrite Z.sub_diag. split; [done|].
      unfold eqPoint in E. destruct (sdscmp (host a) (host p) =? 0) eqn:E1; [|done].
      destruct (port a =? port p) eqn:E2; [|done]. bool_cases. apply sdscmp_eq in E1. done.
    - intros Hj. destruct (IH (i + 1) j ltac:(lia) Hj) as (L & b & Hb & ?). split; [lia|]. exists b.
      replace (Z.to_nat (j - i)) with (S (Z.to_nat (j - (i + 1)))) by lia. done. }
  destruct (find_point a 0 (servers peer)) as [i|] eqn:Ei; [|done]. injection H as <-. simpl.
  destruct (Hf 0 _ _ ltac:(lia) Ei) as (L & b & Hb & H1 & H2). rewrite Z.sub_0_r in Hb.
  split; [done|]. split; [done|]. split; [done|]. eauto 10.
Qed.

Lemma xpipeProxyIsKeepConnected_index_witness :
  let a := MkPoint (str "a") 1 XPIPE_PROXY_NONE in
  let b := MkPoint (str "b") 2 XPIPE_PROXY_NONE in
  let current := MkXpipeProxy [a; b] 1 None in
  let peer := MkXpipeProxy [b] 0 None in
  servers peer = servers peer /\ params peer = params peer /\ params peer = params current /\
  exists x y, servers current !! Z.to_nat (servers_index current) = Some x /\
              servers peer !! Z.to_nat (servers_index peer) = Some y /\
              host x = host y /\ port x = port y.
Proof.
  cbv zeta. apply (xpipeProxyIsKeepConnected_index). vm_compute. reflexivity.
Defined.
