(* ===== verification/CrdtServer.v ===== *)
(** * The CRDT part of the server state and its clocks

    [client] is a client structure as far as the link with a peer uses it,
    [peer] is [CRDT_Master_Instance] ([src/src/server.h]), [crdtServer] the
    CRDT fields of the global [crdtServer].  The operations here are those of
    [src/src/ctrip.c], the clock functions of [src/src/module.c] and
    [src/src/server.c], and the peer set of [src/src/ctrip_crdt_gc.c]. *)

From S2P Require Import Prelude Util Sds VectorClock VcTheory VcText VcClaims Proxy.

(** ** State *)

(** [cl_crdt_master] is the flag [CLIENT_CRDT_MASTER]; [cl_closing] holds when
    one of the flags is set that keep [freeClient] from caching a master
    (close-after-reply, close-asap, blocked, unblocked). *)

Record client := MkClient {
  cl_gid : Z;
  cl_fd : Z;
  cl_crdt_master : bool;
  cl_closing : bool;
  cl_db : Z;
  cl_reploff : Z;
  cl_read_reploff : Z;
  cl_replid : option bytes;
  cl_lastinteraction : Z
}.

Definition set_cl_gid (v : Z) (c : client) : client :=
  MkClient v (cl_fd c) (cl_crdt_master c) (cl_closing c) (cl_db c) (cl_reploff c) (cl_read_reploff c) (cl_replid c) (cl_lastinteraction c).

Definition set_cl_fd (v : Z) (c : client) : client :=
  MkClient (cl_gid c) v (cl_crdt_master c) (cl_closing c) (cl_db c) (cl_reploff c) (cl_read_reploff c) (cl_replid c) (cl_lastinteraction c).

Definition set_cl_crdt_master (v : bool) (c : client) : client :=
  MkClient (cl_gid c) (cl_fd c) v (cl_closing c) (cl_db c) (cl_reploff c) (cl_read_reploff c) (cl_replid c) (cl_lastinteraction c).

Definition set_cl_closing (v : bool) (c : client) : client :=
  MkClient (cl_gid c) (cl_fd c) (cl_crdt_master c) v (cl_db c) (cl_reploff c) (cl_read_reploff c) (cl_replid c) (cl_lastinteraction c).

Definition set_cl_db (v : Z) (c : client) : client :=
  MkClient (cl_gid c) (cl_fd c) (cl_crdt_master c) (cl_closing c) v (cl_reploff c) (cl_read_reploff c) (cl_replid c) (cl_lastinteraction c).

Definition set_cl_reploff (v : Z) (c : client) : client :=
  MkClient (cl_gid c) (cl_fd c) (cl_crdt_master c) (cl_closing c) (cl_db c) v (cl_read_reploff c) (cl_replid c) (cl_lastinteraction c).

Definition set_cl_read_reploff (v : Z) (c : client) : client :=
  MkClient (cl_gid c) (cl_fd c) (cl_crdt_master c) (cl_closing c) (cl_db c) (cl_reploff c) v (cl_replid c) (cl_lastinteraction c).

Definition set_cl_replid (v : option bytes) (c : client) : client :=
  MkClient (cl_gid c) (cl_fd c) (cl_crdt_master c) (cl_closing c) (cl_db c) (cl_reploff c) (cl_read_reploff c) v (cl_lastinteraction c).

Definition set_cl_lastinteraction (v : Z) (c : client) : client :=
  MkClient (cl_gid c) (cl_fd c) (cl_crdt_master c) (cl_closing c) (cl_db c) (cl_reploff c) (cl_read_reploff c) (cl_replid c) v.

(** NULL hosts, passwords, clients and proxies are [None].  A 41-byte buffer for
    a replication id is [None] until something is written to it, and then the
    string it holds; the byte after a 40-byte id is taken to be its NUL. *)

Record peer := MkPeer {
  p_gid : Z;
  masterauth : option bytes;
  masterhost : option bytes;
  masterport : Z;
  master : option client;
  cached_master : option client;
  repl_state : Z;
  repl_transfer_s : Z;
  repl_transfer_lastio : Z;
  repl_down_since : Z;
  master_replid : option bytes;
  master_initial_offset : Z;
  p_vectorClock : VectorClock;
  dbid : Z;
  backstream_vc : VectorClock;
  lazy_time : Z;
  proxy_type : Z;
  proxy : option XpipeProxy
}.

Definition set_p_gid (v : Z) (p : peer) : peer :=
  MkPeer v (masterauth p) (masterhost p) (masterport p) (master p) (cached_master p) (repl_state p) (repl_transfer_s p) (repl_transfer_lastio p) (repl_down_since p) (master_replid p) (master_initial_offset p) (p_vectorClock p) (dbid p) (backstream_vc p) (lazy_time p) (proxy_type p) (proxy p).

Definition set_masterauth (v : option bytes) (p : peer) : peer :=
  MkPeer (p_gid p) v (masterhost p) (masterport p) (master p) (cached_master p) (repl_state p) (repl_transfer_s p) (repl_transfer_lastio p) (repl_down_since p) (master_replid p) (master_initial_offset p) (p_vectorClock p) (dbid p) (backstream_vc p) (lazy_time p) (proxy_type p) (proxy p).

Definition set_masterhost (v : option bytes) (p : peer) : peer :=
  MkPeer (p_gid p) (masterauth p) v (masterport p) (master p) (cached_master p) (repl_state p) (repl_transfer_s p) (repl_transfer_lastio p) (repl_down_since p) (master_replid p) (master_initial_offset p) (p_vectorClock p) (dbid p) (backstream_vc p) (lazy_time p) (proxy_type p) (proxy p).

Definition set_masterport (v : Z) (p : peer) : peer :=
  MkPeer (p_gid p) (masterauth p) (masterhost p) v (master p) (cached_master p) (repl_state p) (repl_transfer_s p) (repl_transfer_lastio p) (repl_down_since p) (master_replid p) (master_initial_offset p) (p_vectorClock p) (dbid p) (backstream_vc p) (lazy_time p) (proxy_type p) (proxy p).

Definition set_master (v : option client) (p : peer) : peer :=
  MkPeer (p_gid p) (masterauth p) (masterhost p) (masterport p) v (cached_master p) (repl_state p) (repl_transfer_s p) (repl_transfer_lastio p) (repl_down_since p) (master_replid p) (master_initial_offset p) (p_vectorClock p) (dbid p) (backstream_vc p) (lazy_time p) (proxy_type p) (proxy p).

Definition set_cached_master (v : option client) (p : peer) : peer :=
  MkPeer (p_gid p) (masterauth p) (masterhost p) (masterport p) (master p) v (repl_state p) (repl_transfer_s p) (repl_transfer_lastio p) (repl_down_since p) (master_replid p) (master_initial_offset p) (p_vectorClock p) (dbid p) (backstream_vc p) (lazy_time p) (proxy_type p) (proxy p).

Definition set_repl_state (v : Z) (p : peer) : peer :=
  MkPeer (p_gid p) (masterauth p) (masterhost p) (masterport p) (master p) (cached_master p) v (repl_transfer_s p) (repl_transfer_lastio p) (repl_down_since p) (master_replid p) (master_initial_offset p) (p_vectorClock p) (dbid p) (backstream_vc p) (lazy_time p) (proxy_type p) (proxy p).

Definition set_repl_transfer_s (v : Z) (p : peer) : peer :=
  MkPeer (p_gid p) (masterauth p) (masterhost p) (masterport p) (master p) (cached_master p) (repl_state p) v (repl_transfer_lastio p) (repl_down_since p) (master_replid p) (master_initial_offset p) (p_vectorClock p) (dbid p) (backstream_vc p) (lazy_time p) (proxy_type p) (proxy p).

Definition set_repl_transfer_lastio (v : Z) (p : peer) : peer :=
  MkPeer (p_gid p) (masterauth p) (masterhost p) (masterport p) (master p) (cached_master p) (repl_state p) (repl_transfer_s p) v (repl_down_since p) (master_replid p) (master_initial_offset p) (p_vectorClock p) (dbid p) (backstream_vc p) (lazy_time p) (proxy_type p) (proxy p).

Definition set_repl_down_since (v : Z) (p : peer) : peer :=
  MkPeer (p_gid p) (masterauth p) (masterhost p) (masterport p) (master p) (cached_master p) (repl_state p) (repl_transfer_s p) (repl_transfer_lastio p) v (master_replid p) (master_initial_offset p) (p_vectorClock p) (dbid p) (backstream_vc p) (lazy_time p) (proxy_type p) (proxy p).

Definition set_master_replid (v : option bytes) (p : peer) : peer :=
  MkPeer (p_gid p) (masterauth p) (masterhost p) (masterport p) (master p) (cached_master p) (repl_state p) (repl_transfer_s p) (repl_transfer_lastio p) (repl_down_since p) v (master_initial_offset p) (p_vectorClock p) (dbid p) (backstream_vc p) (lazy_time p) (proxy_type p) (proxy p).

Definition set_master_initial_offset (v : Z) (p : peer) : peer :=
  MkPeer (p_gid p) (masterauth p) (masterhost p) (masterport p) (master p) (cached_master p) (repl_state p) (repl_transfer_s p) (repl_transfer_lastio p) (repl_down_since p) (master_replid p) v (p_vectorClock p) (dbid p) (backstream_vc p) (lazy_time p) (proxy_type p) (proxy p).

Definition set_p_vectorClock (v : VectorClock) (p : peer) : peer :=
  MkPeer (p_gid p) (masterauth p) (masterhost p) (masterport p) (master p) (cached_master p) (repl_state p) (repl_transfer_s p) (repl_transfer_lastio p) (repl_down_since p) (master_replid p) (master_initial_offset p) v (dbid p) (backstream_vc p) (lazy_time p) (proxy_type p) (proxy p).

Definition set_dbid (v : Z) (p : peer) : peer :=
  MkPeer (p_gid p) (masterauth p) (masterhost p) (masterport p) (master p) (cached_master p) (repl_state p) (repl_transfer_s p) (repl_transfer_lastio p) (repl_down_since p) (master_replid p) (master_initial_offset p) (p_vectorClock p) v (backstream_vc p) (lazy_time p) (proxy_type p) (proxy p).

Definition set_backstream_vc (v : VectorClock) (p : peer) : peer :=
  MkPeer (p_gid p) (masterauth p) (masterhost p) (masterport p) (master p) (cached_master p) (repl_state p) (repl_transfer_s p) (repl_transfer_lastio p) (repl_down_since p) (master_replid p) (master_initial_offset p) (p_vectorClock p) (dbid p) v (lazy_time p) (proxy_type p) (proxy p).

Definition set_lazy_time (v : Z) (p : peer) : peer :=
  MkPeer (p_gid p) (masterauth p) (masterhost p) (masterport p) (master p) (cached_master p) (repl_state p) (repl_transfer_s p) (repl_transfer_lastio p) (repl_down_since p) (master_replid p) (master_initial_offset p) (p_vectorClock p) (dbid p) (backstream_vc p) v (proxy_type p) (proxy p).

Definition set_proxy_type (v : Z) (p : peer) : peer :=
  MkPeer (p_gid p) (masterauth p) (masterhost p) (masterport p) (master p) (cached_master p) (repl_state p) (repl_transfer_s p) (repl_transfer_lastio p) (repl_down_since p) (master_replid p) (master_initial_offset p) (p_vectorClock p) (dbid p) (backstream_vc p) (lazy_time p) v (proxy p).

Definition set_proxy (v : option XpipeProxy) (p : peer) : peer :=
  MkPeer (p_gid p) (masterauth p) (masterhost p) (masterport p) (master p) (cached_master p) (repl_state p) (repl_transfer_s p) (repl_transfer_lastio p) (repl_down_since p) (master_replid p) (master_initial_offset p) (p_vectorClock p) (dbid p) (backstream_vc p) (lazy_time p) (proxy_type p) v.

(** The array [crdtMasters] of 16 pointers is a finite map: a NULL entry is
    absent. *)

Record crdtServer := MkServer {
  crdt_gid : Z;
  crdt_namespace : bytes;
  vectorClock : VectorClock;
  vectorClockCache : VectorClock;
  gcVectorClock : VectorClock;
  crdtMasters : gmap Z peer;
  peer_set : Z;
  offline_peer_set : Z;
  loading : bool;
  dirty : Z
}.

Definition set_crdt_gid (v : Z) (s : crdtServer) : crdtServer :=
  MkServer v (crdt_namespace s) (vectorClock s) (vectorClockCache s) (gcVectorClock s) (crdtMasters s) (peer_set s) (offline_peer_set s) (loading s) (dirty s).

Definition set_crdt_namespace (v : bytes) (s : crdtServer) : crdtServer :=
  MkServer (crdt_gid s) v (vectorClock s) (vectorClockCache s) (gcVectorClock s) (crdtMasters s) (peer_set s) (offline_peer_set s) (loading s) (dirty s).

Definition set_vectorClock (v : VectorClock) (s : crdtServer) : crdtServer :=
  MkServer (crdt_gid s) (crdt_namespace s) v (vectorClockCache s) (gcVectorClock s) (crdtMasters s) (peer_set s) (offline_peer_set s) (loading s) (dirty s).

Definition set_vectorClockCache (v : VectorClock) (s : crdtServer) : crdtServer :=
  MkServer (crdt_gid s) (crdt_namespace s) (vectorClock s) v (gcVectorClock s) (crdtMasters s) (peer_set s) (offline_peer_set s) (loading s) (dirty s).

Definition set_gcVectorClock (v : VectorClock) (s : crdtServer) : crdtServer :=
  MkServer (crdt_gid s) (crdt_namespace s) (vectorClock s) (vectorClockCache s) v (crdtMasters s) (peer_set s) (offline_peer_set s) (loading s) (dirty s).

Definition set_crdtMasters (v : gmap Z peer) (s : crdtServer) : crdtServer :=
  MkServer (crdt_gid s) (crdt_namespace s) (vectorClock s) (vectorClockCache s) (gcVectorClock s) v (peer_set s) (offline_peer_set s) (loading s) (dirty s).

Definition set_peer_set (v : Z) (s : crdtServer) : crdtServer :=
  MkServer (crdt_gid s) (crdt_namespace s) (vectorClock s) (vectorClockCache s) (gcVectorClock s) (crdtMasters s) v (offline_peer_set s) (loading s) (dirty s).

Definition set_offline_peer_set (v : Z) (s : crdtServer) : crdtServer :=
  MkServer (crdt_gid s) (crdt_namespace s) (vectorClock s) (vectorClockCache s) (gcVectorClock s) (crdtMasters s) (peer_set s) v (loading s) (dirty s).

Definition set_loading (v : bool) (s : crdtServer) : crdtServer :=
  MkServer (crdt_gid s) (crdt_namespace s) (vectorClock s) (vectorClockCache s) (gcVectorClock s) (crdtMasters s) (peer_set s) (offline_peer_set s) v (dirty s).

Definition set_dirty (v : Z) (s : crdtServer) : crdtServer :=
  MkServer (crdt_gid s) (crdt_namespace s) (vectorClock s) (vectorClockCache s) (gcVectorClock s) (crdtMasters s) (peer_set s) (offline_peer_set s) (loading s) v.

(** ** Bit sets of gids *)

(** [set & (1 << index)] *)

Definition gid_in (set index : Z) : bool := negb (Z.land set (Z.shiftl 1 index) =? 0).

Definition check_gid (gid : Z) : bool := (gid >? 0) && (gid <? Z.shiftl 1 GIDSIZE).

Definition addPeerSet (gid : Z) (s : crdtServer) : crdtServer :=
  if gid =? crdt_gid s then s
  else set_peer_set (Z.lor (peer_set s) (Z.shiftl 1 gid)) s.

(** ** The server's clocks *)

Definition incrLocalVcUnit (delta : Z) (s : crdtServer) : res crdtServer :=
  vc ← incrLogicClock (vectorClock s) (crdt_gid s) delta;
  let s := set_vectorClock vc s in
  if negb (isNullVectorClock (vectorClockCache s)) then
    cache ← incrLogicClock (vectorClockCache s) (crdt_gid s) delta;
    Ok (set_vectorClockCache cache s)
  else Ok s.

(** The loop of [initVectorClockCache] over the units of the server's clock. *)

Fixpoint cache_units (offline : Z) (vectorClockCache vc : VectorClock) : res VectorClock :=
  match vc with
  | [] => Ok vectorClockCache
  | u :: vc =>
      if negb (gid_in offline (get_gid u)) then
        cache ← addVectorClockUnit vectorClockCache (get_gid u) (get_logic_clock u);
        cache_units offline cache vc
      else cache_units offline vectorClockCache vc
  end.

Definition initVectorClockCache (s : crdtServer) : res crdtServer :=
  cache ← cache_units (offline_peer_set s) [] (vectorClock s);
  Ok (set_vectorClockCache cache s).

Definition setOfflinePeerSet (gids : Z) (s : crdtServer) : res crdtServer :=
  if offline_peer_set s =? gids then Ok s else
  let s := set_offline_peer_set gids s in
  if gids =? 0 then
    if negb (isNullVectorClock (vectorClockCache s)) then Ok (set_vectorClockCache [] s) else Ok s
  else initVectorClockCache s.

(** Replies of the commands. *)

Inductive reply :=
| ReplyOk
| ReplyError (msg : bytes)
| ReplyStatus (msg : bytes)
| ReplyBulk (s : bytes)
| ReplySyntaxErr
| ReplyNullBulk.

Definition err_not_integer : reply := ReplyError (str "value is not an integer or out of range").

(** The argument loop of [setOfflineGidCommand]: [1 << gid] has no value for a
    negative [gid]. *)

Fixpoint offline_args (gids : Z) (argv : list bytes) : res (Z + reply) :=
  match argv with
  | [] => Ok (inl gids)
  | a :: argv =>
      match string2ll a with
      | None => Ok (inr err_not_integer)
      | Some gid =>
          if gid >? Z.shiftl 1 GIDSIZE then Ok (inr (ReplyError (str "peer gid invalid")))
          else if gid <? 0 then Undef
          else offline_args (Z.lor gids (Z.shiftl 1 gid)) argv
      end
  end.

(** [argv] without the command name; [rewrite_ok] is the outcome of rewriting
    the configuration file (true also when there is none). *)

Definition setOfflineGidCommand (rewrite_ok : bool) (argv : list bytes) (s : crdtServer)
  : res (crdtServer * reply) :=
  r ← offline_args 0 argv;
  match r with
  | inr e => Ok (s, e)
  | inl gids =>
      s ← setOfflinePeerSet gids s;
      let s := set_dirty (dirty s + 1) s in
      if negb rewrite_ok then Ok (s, ReplyBulk (str "OK,but save config fail"))
      else Ok (s, ReplyOk)
  end.

Definition getOfflineGidCommand (s : crdtServer) : reply :=
  let gids := fold_left (fun gids i =>
                if gid_in (offline_peer_set s) i then gids ++ print_Z i ++ str " " else gids)
                (seqZ 0 (Z.shiftl 1 GIDSIZE)) [] in
  ReplyBulk (sdstrim gids (str " ")).

Definition RM_CurrentVectorClock (s : crdtServer) : res (VectorClock * crdtServer) :=
  if offline_peer_set s =? 0 then
    let s := if negb (isNullVectorClock (vectorClockCache s)) then set_vectorClockCache [] s else s in
    Ok (vectorClock s, s)
  else
    s ← (if isNullVectorClock (vectorClockCache s) then initVectorClockCache s else Ok s);
    Ok (vectorClockCache s, s).

Definition refreshGcVectorClock (other : VectorClock) (s : crdtServer) : res crdtServer :=
  vc ← mergeMinVectorClock (gcVectorClock s) other;
  Ok (set_gcVectorClock vc s).

(** [qps] is the value of [getQps()]; the product is a [long long]. *)

Definition jumpVectorClock (qps : Z) (s : crdtServer) : res crdtServer :=
  let day := qps * 60 * 60 * 24 in
  if (day <? LLONG_MIN) || (day >? LLONG_MAX) then Undef
  else incrLocalVcUnit (max_clock day 1000000) s.

Definition RM_IncrLocalVectorClock (delta : Z) (s : crdtServer) : res crdtServer :=
  incrLocalVcUnit delta s.

Definition RM_MergeVectorClock (gid : Z) (vclock : VectorClock) (s : crdtServer) : res crdtServer :=
  vc ← updateProcessVectorClock (vectorClock s) vclock gid (crdt_gid s);
  let s := set_vectorClock vc s in
  s ← (if negb (isNullVectorClock (vectorClockCache s)) then
         cache ← updateProcessVectorClock (vectorClockCache s) vclock gid (crdt_gid s);
         Ok (set_vectorClockCache cache s)
       else Ok s);
  refreshGcVectorClock vclock s.

Definition crdtVcCommand (s : crdtServer) : reply := ReplyBulk (vectorClockToSds (vectorClock s)).

Definition getMyGidLogicTime (s : crdtServer) (vc : VectorClock) : Z :=
  if isNullVectorClock vc then 0
  else
    let u := getVectorClockUnit vc (crdt_gid s) in
    if isNullVectorClockUnit u then 0 else get_logic_clock u.

Definition getMyLogicTime (s : crdtServer) : Z := getMyGidLogicTime s (vectorClock s).

(** ** Invariants *)

Definition peer_ok (p : peer) : Prop := vc_ok (p_vectorClock p) /\ vc_ok (backstream_vc p).

Definition server_ok (s : crdtServer) : Prop :=
  0 < crdt_gid s < 16 /\ vc_ok (vectorClock s) /\ vc_ok (vectorClockCache s) /\
  vc_ok (gcVectorClock s) /\ map_Forall (fun _ p => peer_ok p) (crdtMasters s).

(** The clock without the units of offline gids. *)

Definition online_map (offline : Z) (m : gmap Z Z) : gmap Z Z :=
  filter (fun p => gid_in offline (fst p) = false) m.

Lemma online_map_lookup offline m g :
  online_map offline m !! g = if gid_in offline g then None else m !! g.
Proof.
  unfold online_map. destruct (gid_in offline g) eqn:E.
  - apply map_lookup_filter_None. right. intros x _. simpl. congruence.
  - destruct (m !! g) as [x|] eqn:Em.
    + by apply map_lookup_filter_Some.
    + apply map_lookup_filter_None. by left.
Qed.

(** What [vectorClockCache] holds when it is not null. *)

Definition cache_ok (s : crdtServer) : Prop :=
  vectorClockCache s = [] \/
  vc_map (vectorClockCache s) = online_map (offline_peer_set s) (vc_map (vectorClock s)).

Lemma gid_in_0 g : gid_in 0 g = false.
Proof. unfold gid_in. by rewrite Z.land_0_l. Qed.

Lemma online_map_0 m : online_map 0 m = m.
Proof. apply map_eq. intros g. by rewrite online_map_lookup, gid_in_0. Qed.

Lemma cache_units_spec offline acc vc :
  vc_ok acc -> vc_ok vc ->
  exists r, cache_units offline acc vc = Ok r /\ vc_ok r /\
    forall g, vc_map r !! g = match online_map offline (vc_map vc) !! g with
                              | Some c => Some c
                              | None => vc_map acc !! g
                              end.
Proof.
  revert acc. induction vc as [|u vc IH]; intros acc Ha Hv; [by exists acc|].
  apply vc_ok_cons in Hv as (Hu & Hn & Hv). cbn [cache_units].
  rewrite unit_get_gid, unit_get_clock by done.
  assert (vc_map vc !! gid u = None) as Nu by (by apply vc_map_None).
  destruct (gid_in offline (gid u)) eqn:E; simpl.
  - destruct (IH acc Ha Hv) as (r & Er & Hr & M). exists r. split; [done|]. split; [done|].
    intros g. rewrite M, !online_map_lookup, vc_map_cons. destruct (decide (gid u = g)) as [<-|Hne].
    + by rewrite E.
    + by rewrite lookup_insert_ne.
  - destruct (addVectorClockUnit_spec acc (gid u) (clock u) Ha (proj1 Hu)) as (a & Ea & Ka & _ & Ma).
    rewrite Ea. cbn [mbind res_bind]. destruct (IH a Ka Hv) as (r & Er & Hr & M).
    exists r. split; [done|]. split; [done|]. intros g. rewrite M, !online_map_lookup, vc_map_cons, Ma.
    rewrite uwrap_id by apply Hu. destruct (decide (gid u = g)) as [<-|Hne].
    + by rewrite E, Nu, !lookup_insert_eq.
    + rewrite !lookup_insert_ne by done. done.
Qed.

Lemma initVectorClockCache_spec s :
  server_ok s ->
  exists s', initVectorClockCache s = Ok s' /\ server_ok s' /\ vectorClock s' = vectorClock s /\
    offline_peer_set s' = offline_peer_set s /\ crdt_gid s' = crdt_gid s /\
    vc_map (vectorClockCache s') = online_map (offline_peer_set s) (vc_map (vectorClock s)).
Proof.
  intros (Hg & Hv & Hc & Hgc & Hm). unfold initVectorClockCache.
  destruct (cache_units_spec (offline_peer_set s) [] (vectorClock s) vc_ok_nil Hv) as (r & -> & Hr & M).
  eexists. split; [reflexivity|]. split; [done|]. split; [done|]. split; [done|]. split; [done|].
  simpl. apply map_eq. intros g. rewrite M. by destruct (online_map _ _ !! g).
Qed.

(** ** Claims *)

(** The clock the modules see ([RM_CurrentVectorClock]) is the server's clock
    without the units of the offline gids, and the call keeps the invariants. *)
Lemma RM_CurrentVectorClock_online s (Hs : server_ok s) (Hc : cache_ok s) :
  exists vc s', RM_CurrentVectorClock s = Ok (vc, s') /\ server_ok s' /\ cache_ok s' /\
    vectorClock s' = vectorClock s /\
    vc_map vc = online_map (offline_peer_set s) (vc_map (vectorClock s)).
Proof.
  unfold RM_CurrentVectorClock. destruct (Z.eqb_spec (offline_peer_set s) 0) as [E|E].
  - eexists _, _. split; [reflexivity|]. rewrite E, online_map_0.
    destruct Hs as (Hg & Hv & Hca & Hgc & Hm).
    destruct (negb (isNullVectorClock (vectorClockCache s))); simpl;
      (split; [unfold server_ok; simpl; auto using vc_ok_nil|]);
      [split; [by left|done]|split; [done|done]].
  - rewrite isNull_spec. case_bool_decide as N.
    + destruct (initVectorClockCache_spec s Hs) as (s' & -> & Hs' & Ev & Eo & _ & M). cbn [mbind res_bind].
      eexists _, _. split; [reflexivity|]. split; [done|]. split; [right; by rewrite M, Eo, Ev|]. done.
    + cbn [mbind res_bind]. eexists _, _. split; [reflexivity|]. split; [done|]. split; [done|].
      split; [done|]. by destruct Hc as [Hc|Hc].
Qed.

Definition example_server : crdtServer :=
  MkServer 1 (str "ns") [Clk 1 5; Clk 2 8; Clk 3 4] [] [] ∅ 12 4 false 0.

Lemma example_server_ok : server_ok example_server.
Proof.
  split; [simpl; lia|]. split; [decide_now|]. split; [decide_now|]. split; [decide_now|].
  apply map_Forall_empty.
Qed.

Lemma RM_CurrentVectorClock_online_witness :
  exists vc s', RM_CurrentVectorClock example_server = Ok (vc, s') /\ server_ok s' /\ cache_ok s' /\
    vectorClock s' = vectorClock example_server /\
    vc_map vc = online_map (offline_peer_set example_server) (vc_map (vectorClock example_server)).
Proof. apply RM_CurrentVectorClock_online; [apply example_server_ok|by left]. Defined.

Lemma filter_alter_online offline (f : Z -> Z) g m :
  online_map offline (alter f g m) = alter f g (online_map offline m).
Proof.
  apply map_eq. intros h. rewrite online_map_lookup. destruct (decide (g = h)) as [<-|Hne].
  - rewrite !lookup_alter_eq, online_map_lookup. by destruct (gid_in offline g).
  - rewrite !lookup_alter_ne, online_map_lookup by done. done.
Qed.

Lemma set_cache_ok s cache : server_ok s -> vc_ok cache -> server_ok (set_vectorClockCache cache s).
Proof. intros (? & ? & ? & ? & ?) ?. unfold server_ok. simpl. auto. Qed.

Lemma map_gid_nil vc vc' : map gid vc = map gid vc' -> vc = [] -> vc' = [].
Proof. intros E ->. by destruct vc'. Qed.

(** [incrLocalVcUnit] adds [delta] to the server's own unit (modulo 2^56),
    changes no other unit, and keeps the filtered copy in step with the clock. *)
Lemma incrLocalVcUnit_spec delta s
  (Hs : server_ok s) (Hc : cache_ok s) (Hd : LLONG_MIN <= delta <= 2 ^ 62) :
  exists s', incrLocalVcUnit delta s = Ok s' /\ server_ok s' /\ cache_ok s' /\
    vc_map (vectorClock s') =
      alter (fun c => uwrap 56 (c + delta)) (crdt_gid s) (vc_map (vectorClock s)).
Proof.
  pose proof Hs as (Hg & Hv & Hca & Hgc & Hm). unfold incrLocalVcUnit.
  destruct (incrLogicClock_spec (vectorClock s) (crdt_gid s) delta Hv Hg Hd) as (v & -> & Kv & Gv & Mv).
  cbn [mbind res_bind]. simpl. rewrite isNull_spec. case_bool_decide as N; simpl.
  - eexists. split; [reflexivity|]. split; [done|]. split; [by left|done].
  - destruct (incrLogicClock_spec (vectorClockCache s) (crdt_gid s) delta Hca Hg Hd)
      as (c & -> & Kc & Gc & Mc). cbn [mbind res_bind].
    eexists. split; [reflexivity|]. split; [done|]. split; [|done]. right. simpl.
    rewrite Mc, Mv. destruct Hc as [Hc|Hc]; [done|]. by rewrite Hc, filter_alter_online.
Qed.

Lemma incrLocalVcUnit_spec_witness :
  exists s', incrLocalVcUnit 10 example_server = Ok s' /\ server_ok s' /\ cache_ok s' /\
    vc_map (vectorClock s') = alter (fun c => uwrap 56 (c + 10)) (crdt_gid example_server)
                                (vc_map (vectorClock example_server)).
Proof.
  apply incrLocalVcUnit_spec; [apply example_server_ok|by left|unfold LLONG_MIN; lia].
Defined.

(** Merging a peer's clock for an online gid updates the clock and its
    filtered copy alike; for an offline gid the copy, when it is in use, gets
    the unit it is meant to leave out. *)
Lemma RM_MergeVectorClock_cache :
  (forall gid vclock s, server_ok s -> cache_ok s -> vc_ok vclock -> 0 < gid < 16 ->
     gid_in (offline_peer_set s) gid = false ->
     exists s', RM_MergeVectorClock gid vclock s = Ok s' /\ server_ok s' /\ cache_ok s') /\
  (exists gid vclock s s', server_ok s /\ cache_ok s /\ vc_ok vclock /\ 0 < gid < 16 /\
     RM_MergeVectorClock gid vclock s = Ok s' /\ ~ cache_ok s').
Proof.
  split.
  - intros gid vclock s Hs Hc Hvc Hgid On. pose proof Hs as (Hg & Hv & Hca & Hgc & Hm).
    unfold RM_MergeVectorClock, refreshGcVectorClock.
    set (fl := if gid =? crdt_gid s then CLOCK_UNIT_ALIGN else CLOCK_UNIT_MAX).
    assert (forall d, updateProcessVectorClock d vclock gid (crdt_gid s) =
                      commonMergeFunction d vclock gid fl) as U
      by (intros d; unfold updateProcessVectorClock, fl; by destruct (gid =? crdt_gid s)).
    rewrite U. destruct (commonMergeFunction_spec (vectorClock s) vclock gid fl Hv Hvc Hgid)
      as (v & -> & Kv & _ & Mv). cbn [mbind res_bind]. simpl.
    destruct (mergeMinVectorClock_spec (gcVectorClock s) vclock Hgc Hvc) as (g & Eg & Kg & _ & _).
    rewrite isNull_spec. case_bool_decide as N; simpl.
    + rewrite Eg. simpl. eexists. split; [reflexivity|]. split; [done|]. by left.
    + rewrite U. destruct (commonMergeFunction_spec (vectorClockCache s) vclock gid fl Hca Hvc Hgid)
        as (c & -> & Kc & _ & Mc). simpl. rewrite Eg. simpl. eexists. split; [reflexivity|].
      split; [done|]. right. simpl. destruct Hc as [Hc|Hc]; [done|].
      apply map_eq. intros h. rewrite online_map_lookup, Mc, Mv, Hc.
      destruct (vc_map vclock !! gid) as [x|] eqn:Ex; [|by rewrite online_map_lookup].
      rewrite online_map_lookup, On. destruct (decide (gid = h)) as [<-|Hne].
      * by rewrite !lookup_insert_eq, On.
      * by rewrite !lookup_insert_ne, online_map_lookup.
  - exists 2, [Clk 2 9], (set_vectorClockCache [Clk 1 5; Clk 3 4] example_server).
    exists (MkServer 1 (str "ns") [Clk 1 5; Clk 2 9; Clk 3 4] [Clk 1 5; Clk 2 9; Clk 3 4] [Clk 2 0]
              ∅ 12 4 false 0).
    split; [apply set_cache_ok; [apply example_server_ok|decide_now]|]. split; [right; decide_now|].
    split; [decide_now|]. split; [lia|]. split; [vm_compute; reflexivity|].
    intros [E|E]; [discriminate E|]. apply (f_equal (fun m => m !! 2)) in E. vm_compute in E. discriminate E.
Qed.

Lemma gid_in_testbit set i : 0 <= i -> gid_in set i = Z.testbit set i.
Proof.
  intros Hi. unfold gid_in. assert (forall j, Z.testbit (Z.shiftl 1 i) j = (i =? j)) as B.
  { intros j. rewrite Z.shiftl_1_l. apply Z.pow2_bits_eqb. done. }
  destruct (Z.testbit set i) eqn:E.
  - apply negb_true_iff, Z.eqb_neq. intros L. apply (f_equal (fun z => Z.testbit z i)) in L.
    rewrite Z.land_spec, B, Z.eqb_refl, E, Z.bits_0 in L. done.
  - apply negb_false_iff, Z.eqb_eq. apply Z.bits_inj'. intros j Hj.
    rewrite Z.land_spec, B, Z.bits_0. destruct (Z.eqb_spec i j) as [<-|]; [by rewrite E|].
    apply andb_false_r.
Qed.

Lemma gid_in_lor set h g : 0 <= h -> 0 <= g -> gid_in (Z.lor set (Z.shiftl 1 h)) g = gid_in set g || (h =? g).
Proof.
  intros Hh Hg. rewrite !gid_in_testbit, Z.lor_spec by done. f_equal.
  rewrite Z.shiftl_1_l. by apply Z.pow2_bits_eqb.
Qed.

Lemma offline_args_spec acc gids :
  Forall (fun g => 0 <= g <= 16) gids ->
  exists r, offline_args acc (map print_Z gids) = Ok (inl r) /\
            forall g, 0 <= g -> gid_in r g = gid_in acc g || bool_decide (g ∈ gids).
Proof.
  revert acc. induction gids as [|h gids IH]; intros acc H.
  { exists acc. split; [done|]. intros g _. rewrite bool_decide_false by apply not_elem_of_nil.
    by rewrite orb_false_r. }
  apply Forall_cons in H as [Hh H]. cbn [map offline_args].
  rewrite string2ll_print by (unfold LLONG_MIN, LLONG_MAX; lia). change (Z.shiftl 1 GIDSIZE) with 16.
  replace (h >? 16) with false by lia. replace (h <? 0) with false by lia.
  destruct (IH (Z.lor acc (Z.shiftl 1 h)) H) as (r & E & M). exists r. split; [done|]. intros g Hg.
  rewrite M, gid_in_lor by (done || lia). rewrite <- orb_assoc. f_equal.
  destruct (Z.eqb_spec h g) as [->|Hne]; simpl.
  - symmetry. apply bool_decide_eq_true. apply elem_of_cons. by left.
  - apply bool_decide_ext. rewrite elem_of_cons. split; [by right|]. by intros [?|?].
Qed.

Lemma setOfflinePeerSet_spec gids s :
  server_ok s -> cache_ok s ->
  exists s', setOfflinePeerSet gids s = Ok s' /\ server_ok s' /\ cache_ok s' /\
             offline_peer_set s' = gids /\ vectorClock s' = vectorClock s.
Proof.
  intros Hs Hc. unfold setOfflinePeerSet. destruct (Z.eqb_spec (offline_peer_set s) gids); [by exists s|].
  set (s1 := set_offline_peer_set gids s).
  assert (server_ok s1) as Hs1 by (by destruct Hs as (? & ? & ? & ? & ?)).
  destruct (gids =? 0).
  - rewrite isNull_spec. case_bool_decide as N; simpl.
    + exists s1. split; [done|]. split; [done|]. split; [by left|done].
    + eexists. split; [reflexivity|]. split; [apply set_cache_ok; [done|apply vc_ok_nil]|].
      split; [by left|done].
  - destruct (initVectorClockCache_spec s1 Hs1) as (s' & E & Hs' & Ev & Eo & _ & M).
    exists s'. split; [done|]. split; [done|]. split; [right; by rewrite M, Eo, Ev|]. done.
Qed.

(** [setOfflineGidCommand] makes exactly the named gids offline and keeps
    the filtered clock right; it accepts 16, which is not a gid. *)
Lemma setOfflineGidCommand_members gids s
  (Hs : server_ok s) (Hc : cache_ok s) (Hg : Forall (fun g => 0 <= g <= 16) gids) :
  exists s', setOfflineGidCommand true (map print_Z gids) s = Ok (s', ReplyOk) /\
    server_ok s' /\ cache_ok s' /\ vectorClock s' = vectorClock s /\
    forall g, 0 <= g -> gid_in (offline_peer_set s') g = bool_decide (g ∈ gids).
Proof.
  unfold setOfflineGidCommand. destruct (offline_args_spec 0 gids Hg) as (r & -> & M). cbn [mbind res_bind].
  destruct (setOfflinePeerSet_spec r s Hs Hc) as (s' & -> & Hs' & Hc' & Eo & Ev). cbn [mbind res_bind].
  eexists. split; [reflexivity|]. split; [by destruct Hs' as (? & ? & ? & ? & ?)|].
  split; [done|]. split; [done|]. intros g Hg'. simpl. rewrite Eo, M by done. by rewrite gid_in_0.
Qed.

Lemma setOfflineGidCommand_members_witness :
  exists s', setOfflineGidCommand true (map print_Z [2; 16]) example_server = Ok (s', ReplyOk) /\
    server_ok s' /\ cache_ok s' /\ vectorClock s' = vectorClock example_server /\
    forall g, 0 <= g -> gid_in (offline_peer_set s') g = bool_decide (g ∈ [2; 16]).
Proof.
  apply setOfflineGidCommand_members; [apply example_server_ok|by left|decide_now].
Defined.
