(* ===== verification/Gc.v ===== *)
(** * Tombstones and their collection ([src/src/ctrip_crdt_gc.c])

    A deleted key leaves a tombstone in [deleted_keys]; it may be dropped once
    every peer has seen the deletion.  The collection clock is the minimum of
    the server's clock and of the clocks of the online peers, and a tombstone
    is dropped when its module's [gc] method accepts that clock.

    The tombstone objects and their methods live in a module that is loaded
    into the server: they are parameters here ([TombstoneModule]). *)

From S2P Require Import Prelude Util Sds VectorClock VcTheory VcText VcClaims Proxy CrdtServer.

(** What the server asks of a value of [deleted_keys]: [retrieveCrdtObject]
    (NULL when the value is not a CRDT object) and, for the object, the [gc]
    method of [getCrdtTombstoneMethod] (NULL when there is none). *)

Class TombstoneModule (robj tombstone : Type) := {
  retrieveCrdtObject : robj -> option tombstone;
  gc_method : option tombstone -> option (option tombstone -> VectorClock -> bool)
}.

(** ** The collection clock *)

(** One round of the loop of [getGcVectorClock]. *)

Definition gc_merge_peer (s : crdtServer) (gcVectorClock : VectorClock) (index : Z) : res VectorClock :=
  if gid_in (peer_set s) index && negb (gid_in (offline_peer_set s) index) then
    let other := match crdtMasters s !! index with
                 | None => []
                 | Some crdtMaster => p_vectorClock crdtMaster
                 end in
    mergeMinVectorClock gcVectorClock other
  else Ok gcVectorClock.

Fixpoint gc_merge_peers (s : crdtServer) (gcVectorClock : VectorClock) (indices : list Z)
  : res VectorClock :=
  match indices with
  | [] => Ok gcVectorClock
  | index :: indices => vc ← gc_merge_peer s gcVectorClock index; gc_merge_peers s vc indices
  end.

Definition getGcVectorClock (s : crdtServer) : res VectorClock :=
  gcVectorClock ← dupVectorClock (vectorClock s);
  gc_merge_peers s gcVectorClock (seqZ 0 (MAX_PEERS + 1)).

Definition updateGcVectorClock (s : crdtServer) : res crdtServer :=
  vc ← getGcVectorClock s;
  Ok (set_gcVectorClock vc s).

(** ** Tombstones of a database *)

Section tombstones.

Context {robj tombstone : Type} `{TombstoneModule robj tombstone}.

Definition tombstoneAdd (d : gmap bytes robj) (key : bytes) (val : robj) : res (gmap bytes robj) :=
  _ ← c_assert (bool_decide (d !! key = None));
  Ok (<[key := val]> d).

Definition tombstoneOverwrite (d : gmap bytes robj) (key : bytes) (val : robj) : gmap bytes robj :=
  <[key := val]> d.

Definition lookupTombstone (d : gmap bytes robj) (key : bytes) : option robj := d !! key.

Definition setKeyToTombstone (d : gmap bytes robj) (key : bytes) (val : robj) : res (gmap bytes robj) :=
  match lookupTombstone d key with
  | None => tombstoneAdd d key val
  | Some _ => Ok (tombstoneOverwrite d key val)
  end.

Definition removeDel (d : gmap bytes robj) (key : bytes) : gmap bytes robj :=
  match d !! key with
  | None => d
  | Some _ => delete key d
  end.

(** The [gc] method's verdict on a value; [None]: the object has no methods. *)

Definition gc_verdict (val : robj) (clock : VectorClock) : option bool :=
  let t := retrieveCrdtObject val in
  gc ← gc_method t; Some (gc t clock).

(** [any_loading] is [server.loading || crdtServer.loading]. *)

Definition gcIfNeeded (any_loading : bool) (d : gmap bytes robj) (key : bytes) (s : crdtServer)
  : res (bool * gmap bytes robj * crdtServer) :=
  match lookupTombstone d key with
  | None => Ok (false, d, s)
  | Some val =>
      if any_loading then Ok (false, d, s) else
      s ← updateGcVectorClock s;
      match gc_verdict val (gcVectorClock s) with
      | None => Ok (false, d, s)
      | Some false => Ok (false, d, s)
      | Some true => Ok (true, delete key d, s)
      end
  end.

Definition lookupTombstoneKey (any_loading : bool) (d : gmap bytes robj) (key : bytes) (s : crdtServer)
  : res (option robj * gmap bytes robj * crdtServer) :=
  '(_, d, s) ← gcIfNeeded any_loading d key s;
  Ok (lookupTombstone d key, d, s).

(** ** The collection cycle *)

Record gc_stats := MkStats { stat_gc_hits : Z; stat_gc_misses : Z }.

(** [activeGcCycleTryGc] on the entry [(key, val)]. *)

Definition activeGcCycleTryGc (clock : VectorClock) (d : gmap bytes robj) (key : bytes) (val : robj)
    (st : gc_stats) : bool * gmap bytes robj * gc_stats :=
  match retrieveCrdtObject val with
  | None => (false, d, st)
  | Some t =>
      match gc_method (Some t) with
      | None => (false, d, st)
      | Some gc =>
          if negb (gc (Some t) clock) then
            (false, d, MkStats (stat_gc_hits st) (stat_gc_misses st + 1))
          else (true, delete key d, MkStats (stat_gc_hits st + 1) (stat_gc_misses st))
      end
  end.

(** [dictGetRandomKey]: the random numbers come from a list; a run takes them
    from its front. *)

Definition dictGetRandomKey (d : gmap bytes robj) (r : nat) : option (bytes * robj) :=
  map_to_list d !! Nat.modulo r (size d).

(** [while (num--)]: sample [num] entries. *)

Fixpoint gc_sample (num : nat) (clock : VectorClock) (d : gmap bytes robj) (rnd : list nat)
    (deleted : Z) (st : gc_stats) : Z * gmap bytes robj * list nat * gc_stats :=
  match num with
  | O => (deleted, d, rnd, st)
  | S num =>
      let r := hd O rnd in
      match dictGetRandomKey d r with
      | None => (deleted, d, tl rnd, st)
      | Some (key, val) =>
          let '(b, d, st) := activeGcCycleTryGc clock d key val st in
          gc_sample num clock d (tl rnd) (if b then deleted + 1 else deleted) st
      end
  end.

(** The settings the cycle uses; [dictSlots] is the size of the hash table. *)

Record gc_config := MkGcConfig {
  active_gc_cycle_lookups_per_loop : Z;
  active_gc_cycle_slow_time_perc : Z;
  active_gc_cycle_non_gc_perc : Z;
  hz : Z;
  dictSlots : gmap bytes robj -> Z
}.

Definition DICT_HT_INITIAL_SIZE : Z := 4.

(** What a cycle reads and writes outside the databases: random numbers, clock
    readings ([ustime]), statistics, the iteration counter. *)

Record gc_env := MkGcEnv { rnd : list nat; times : list Z; stats : gc_stats; iteration : Z }.

(** The inner [do ... while] loop on one database.  Each round that repeats has
    deleted something, so a fuel larger than the database is enough (see
    [gc_db_fuel]).  The result says whether the time limit was hit. *)

Fixpoint gc_db (fuel : nat) (cfg : gc_config) (clock : VectorClock) (start timelimit : Z)
    (d : gmap bytes robj) (e : gc_env) : option (bool * gmap bytes robj * gc_env) :=
  match fuel with
  | O => None
  | S fuel =>
      let it := iteration e + 1 in
      let num := Z.of_nat (size d) in
      let e := MkGcEnv (rnd e) (times e) (stats e) it in
      if num =? 0 then Some (false, d, e) else
      let slots := dictSlots cfg d in
      if (slots >? DICT_HT_INITIAL_SIZE) && (num * 100 / slots <? 1) then Some (false, d, e) else
      let num := if num >? to_ull (active_gc_cycle_lookups_per_loop cfg)
                 then to_ull (active_gc_cycle_lookups_per_loop cfg) else num in
      let '(deleted, d, rnd', st) := gc_sample (Z.to_nat num) clock d (rnd e) 0 (stats e) in
      let e := MkGcEnv rnd' (times e) st it in
      if (Z.land it 15 =? 0) then
        let elapsed := hd start (times e) - start in
        let e := MkGcEnv (rnd e) (tl (times e)) (stats e) it in
        if elapsed >? timelimit then Some (true, d, e)
        else if deleted >? active_gc_cycle_lookups_per_loop cfg * active_gc_cycle_non_gc_perc cfg / 100
             then gc_db fuel cfg clock start timelimit d e
             else Some (false, d, e)
      else if deleted >? active_gc_cycle_lookups_per_loop cfg * active_gc_cycle_non_gc_perc cfg / 100
           then gc_db fuel cfg clock start timelimit d e
           else Some (false, d, e)
  end.

(** The state kept across calls: next database, time limit hit, last fast cycle. *)

Record gc_cycle := MkCycle { current_db : Z; timelimit_exit : bool; last_fast_cycle : Z }.

(** The outer loop over at most [n] databases. *)

Fixpoint gc_dbs (n : nat) (cfg : gc_config) (clock : VectorClock) (start timelimit : Z)
    (dbs : list (gmap bytes robj)) (cy : gc_cycle) (e : gc_env)
  : res (list (gmap bytes robj) * gc_cycle * gc_env) :=
  match n with
  | O => Ok (dbs, cy, e)
  | S n =>
      if timelimit_exit cy then Ok (dbs, cy, e) else
      let i := Z.to_nat (current_db cy mod Z.of_nat (length dbs)) in
      d ← need (dbs !! i);
      let cur := uwrap 32 (current_db cy + 1) in
      '(hit, d, e) ← need (gc_db (S (size d)) cfg clock start timelimit d e);
      gc_dbs n cfg clock start timelimit (<[i := d]> dbs)
        (MkCycle cur hit (last_fast_cycle cy)) e
  end.

Inductive cycle_type := ACTIVE_GC_CYCLE_SLOW | ACTIVE_GC_CYCLE_FAST.

Definition ACTIVE_GC_CYCLE_FAST_DURATION : Z := 1000.

Definition CRON_DBS_PER_CALL : Z := 16.

Definition is_fast (t : cycle_type) : bool :=
  match t with ACTIVE_GC_CYCLE_FAST => true | ACTIVE_GC_CYCLE_SLOW => false end.

(** [Gc]; [paused] is [clientsArePaused()], [start] the first clock reading. *)

Definition Gc (t : cycle_type) (paused : bool) (start : Z) (cfg : gc_config)
    (dbs : list (gmap bytes robj)) (cy : gc_cycle) (e : gc_env) (s : crdtServer)
  : res (list (gmap bytes robj) * gc_cycle * gc_env * crdtServer) :=
  if paused then Ok (dbs, cy, e, s) else
  s ← updateGcVectorClock s;
  if is_fast t && negb (timelimit_exit cy) then Ok (dbs, cy, e, s) else
  if is_fast t && (start <? last_fast_cycle cy + ACTIVE_GC_CYCLE_FAST_DURATION * 2)
  then Ok (dbs, cy, e, s) else
  let last := if is_fast t then start else last_fast_cycle cy in
  let dbnum := Z.of_nat (length dbs) in
  let dbs_per_call := if (CRON_DBS_PER_CALL >? dbnum) || timelimit_exit cy then dbnum
                      else CRON_DBS_PER_CALL in
  let timelimit := Z.quot (Z.quot (1000000 * active_gc_cycle_slow_time_perc cfg) (hz cfg)) 100 in
  let timelimit := if timelimit <=? 0 then 1 else timelimit in
  let timelimit := if is_fast t then ACTIVE_GC_CYCLE_FAST_DURATION else timelimit in
  '(dbs, cy, e) ← gc_dbs (Z.to_nat dbs_per_call) cfg (gcVectorClock s) start timelimit dbs
                    (MkCycle (current_db cy) false last) e;
  Ok (dbs, cy, e, s).

(** ** What a collection removes *)

(** [d'] is [d] without some tombstones whose [gc] method accepts [clock]. *)

Definition collected (clock : VectorClock) (d d' : gmap bytes robj) : Prop :=
  d' ⊆ d /\ forall k v, d !! k = Some v -> d' !! k = None -> gc_verdict v clock = Some true.

Lemma collected_refl clock d : collected clock d d.
Proof. split; [done|]. intros k v H1 H2. congruence. Qed.

Lemma collected_trans clock d1 d2 d3 :
  collected clock d1 d2 -> collected clock d2 d3 -> collected clock d1 d3.
Proof.
  intros [S1 C1] [S2 C2]. split; [by transitivity d2|]. intros k v H1 H3.
  destruct (d2 !! k) as [v'|] eqn:E2; [|eauto].
  assert (v' = v) as -> by (pose proof (lookup_weaken _ _ _ _ E2 S1); congruence). eauto.
Qed.

Lemma try_gc_spec clock d key val st :
  d !! key = Some val ->
  let '(b, d', _) := activeGcCycleTryGc clock d key val st in
  collected clock d d' /\ (size d' + (if b then 1 else 0) = size d)%nat.
Proof.
  intros Hk. unfold activeGcCycleTryGc. destruct (retrieveCrdtObject val) as [t|] eqn:Er;
    [|split; [apply collected_refl|lia]].
  destruct (gc_method (Some t)) as [gc|] eqn:Em; [|split; [apply collected_refl|lia]].
  destruct (gc (Some t) clock) eqn:Eg; simpl; [|split; [apply collected_refl|lia]].
  split.
  - split; [apply delete_subseteq|]. intros k v Hv Hd.
    assert (k = key) as -> by (apply lookup_delete_None in Hd as [->|]; congruence).
    rewrite Hk in Hv. injection Hv as <-. unfold gc_verdict. rewrite Er, Em. simpl. by rewrite Eg.
  - rewrite map_size_delete, Hk. assert (size d <> 0%nat); [|lia].
    intros E. apply map_size_empty_inv in E. subst. by rewrite lookup_empty in Hk.
Qed.

Lemma random_key_in d r key val : dictGetRandomKey d r = Some (key, val) -> d !! key = Some val.
Proof.
  unfold dictGetRandomKey. intros E. apply elem_of_map_to_list. by eapply list_elem_of_lookup_2.
Qed.

Lemma gc_sample_spec num clock d rnd deleted st :
  let '(deleted', d', _, _) := gc_sample num clock d rnd deleted st in
  collected clock d d' /\ deleted' - deleted = Z.of_nat (size d) - Z.of_nat (size d').
Proof.
  revert d rnd deleted st. induction num as [|num IH]; intros d rnd deleted st; simpl.
  { split; [apply collected_refl|lia]. }
  destruct (dictGetRandomKey d (hd O rnd)) as [[key val]|] eqn:E; [|split; [apply collected_refl|lia]].
  apply random_key_in in E. pose proof (try_gc_spec clock d key val st E) as T.
  destruct (activeGcCycleTryGc clock d key val st) as [[b d1] st1]. destruct T as [C1 L1].
  specialize (IH d1 (tl rnd) (if b then deleted + 1 else deleted) st1).
  destruct (gc_sample num clock d1 (tl rnd) _ st1) as [[[del' d'] r'] st']. destruct IH as [C2 L2].
  split; [by eapply collected_trans|]. destruct b; lia.
Qed.

Lemma gc_db_collected fuel cfg clock start timelimit d e hit d' e' :
  gc_db fuel cfg clock start timelimit d e = Some (hit, d', e') -> collected clock d d'.
Proof.
  revert d e. induction fuel as [|fuel IH]; intros d e; [done|]. cbn [gc_db].
  destruct (Z.of_nat (size d) =? 0); [intros [= _ <- _]; apply collected_refl|].
  destruct (_ && _); [intros [= _ <- _]; apply collected_refl|].
  cbn [rnd times stats iteration].
  match goal with |- context [gc_sample ?n ?c ?dd ?r ?de ?s] =>
    pose proof (gc_sample_spec n c dd r de s) as T; destruct (gc_sample n c dd r de s) as [[[del d1] r1] st1] end.
  destruct T as [C1 _].
  destruct (Z.land (iteration e + 1) 15 =? 0); cbn [rnd times stats iteration];
    repeat match goal with |- context [if ?b then _ else _] => destruct b end;
    intros E; try (injection E as _ <- _; done); (eapply collected_trans; [exact C1|eapply IH; exact E]).
Qed.

Lemma gc_db_fuel fuel cfg clock start timelimit d e :
  0 <= active_gc_cycle_lookups_per_loop cfg -> 0 <= active_gc_cycle_non_gc_perc cfg ->
  (size d < fuel)%nat -> is_Some (gc_db fuel cfg clock start timelimit d e).
Proof.
  intros Hl Hp. assert (0 <= active_gc_cycle_lookups_per_loop cfg * active_gc_cycle_non_gc_perc cfg / 100)
    by (apply Z.div_pos; [apply Z.mul_nonneg_nonneg|]; lia).
  revert d e. induction fuel as [|fuel IH]; intros d e Hf; [lia|]. cbn [gc_db].
  destruct (Z.of_nat (size d) =? 0); [by eexists|]. destruct (_ && _); [by eexists|].
  cbn [rnd times stats iteration].
  match goal with |- context [gc_sample ?n ?c ?dd ?r ?de ?s] =>
    pose proof (gc_sample_spec n c dd r de s) as T; destruct (gc_sample n c dd r de s) as [[[del d1] r1] st1] end.
  destruct T as [_ L].
  destruct (Z.land (iteration e + 1) 15 =? 0); cbn [rnd times stats iteration];
    repeat match goal with |- context [if ?b then _ else _] => destruct b eqn:? end;
    try (by eexists); apply IH; bool_cases; lia.
Qed.

(** The databases, one by one. *)

Definition all_collected (clock : VectorClock) (dbs dbs' : list (gmap bytes robj)) : Prop :=
  Forall2 (collected clock) dbs dbs'.

Lemma all_collected_refl clock dbs : all_collected clock dbs dbs.
Proof. apply Forall2_same_length_lookup. split; [done|]. intros i x y H1 H2.
  assert (x = y) as -> by congruence. apply collected_refl. Qed.

Lemma all_collected_trans clock a b c :
  all_collected clock a b -> all_collected clock b c -> all_collected clock a c.
Proof.
  intros H1. revert c. induction H1 as [|x y a b Hx H1 IH]; intros c H2; inversion H2; subst; constructor.
  - by eapply collected_trans.
  - by apply IH.
Qed.

Lemma all_collected_insert clock dbs i d d' :
  dbs !! i = Some d -> collected clock d d' -> all_collected clock dbs (<[i := d']> dbs).
Proof.
  intros Hi Hc. apply Forall2_same_length_lookup. split; [by rewrite length_insert|].
  intros j x y Hx Hy. destruct (decide (i = j)) as [<-|Hne].
  - rewrite list_lookup_insert_eq in Hy by (by eapply lookup_lt_Some).
    rewrite Hi in Hx. injection Hx as <-. by injection Hy as <-.
  - rewrite list_lookup_insert_ne in Hy by done. assert (x = y) as -> by congruence. apply collected_refl.
Qed.

Lemma gc_dbs_collected n cfg clock start timelimit dbs cy e :
  0 <= active_gc_cycle_lookups_per_loop cfg -> 0 <= active_gc_cycle_non_gc_perc cfg ->
  dbs <> [] ->
  exists dbs' cy' e', gc_dbs n cfg clock start timelimit dbs cy e = Ok (dbs', cy', e') /\
                      all_collected clock dbs dbs'.
Proof.
  intros Hl Hp. revert dbs cy e. induction n as [|n IH]; intros dbs cy e N.
  { eexists _, _, _. split; [reflexivity|apply all_collected_refl]. }
  cbn [gc_dbs]. destruct (timelimit_exit cy).
  { eexists _, _, _. split; [reflexivity|apply all_collected_refl]. }
  assert (0 < Z.of_nat (length dbs)) as L by (destruct dbs; [done|simpl; lia]).
  pose proof (Z.mod_pos_bound (current_db cy) (Z.of_nat (length dbs)) L) as B.
  set (i := Z.to_nat (current_db cy mod Z.of_nat (length dbs))).
  destruct (lookup_lt_is_Some_2 dbs i) as [d Hd]; [unfold i; lia|]. rewrite Hd. cbn [need mbind res_bind].
  destruct (gc_db_fuel (S (size d)) cfg clock start timelimit d e Hl Hp ltac:(lia)) as [[[hit d'] e'] E].
  rewrite E. cbn [need mbind res_bind].
  destruct (IH (<[i := d']> dbs) (MkCycle (uwrap 32 (current_db cy + 1)) hit (last_fast_cycle cy)) e')
    as (dbs' & cy' & e'' & E' & C).
  { intros Z. apply N. apply (f_equal length) in Z. rewrite length_insert in Z. by destruct dbs. }
  exists dbs', cy', e''. split; [done|]. eapply all_collected_trans; [|exact C].
  eapply all_collected_insert; [exact Hd|]. by eapply gc_db_collected.
Qed.

End tombstones.

(** ** The collection clock is below every online peer *)

Definition peer_clock (s : crdtServer) (g : Z) : VectorClock :=
  match crdtMasters s !! g with
  | None => []
  | Some p => p_vectorClock p
  end.

Lemma peer_clock_ok s g : server_ok s -> vc_ok (peer_clock s g).
Proof.
  intros (_ & _ & _ & _ & Hm). unfold peer_clock. destruct (crdtMasters s !! g) as [p|] eqn:E.
  - by destruct (Hm g p E).
  - apply vc_ok_nil.
Qed.

Lemma vc_le_trans a b c : vc_le a b -> vc_le b c -> vc_le a c.
Proof. intros H1 H2 g. specialize (H1 g). specialize (H2 g). lia. Qed.

Lemma gc_merge_peers_spec s acc indices :
  server_ok s -> vc_ok acc ->
  exists r, gc_merge_peers s acc indices = Ok r /\ vc_ok r /\ vc_le r acc /\
    (forall g, g ∈ indices -> gid_in (peer_set s) g = true -> gid_in (offline_peer_set s) g = false ->
               vc_le r (peer_clock s g)).
Proof.
  intros Hs. revert acc. induction indices as [|i l IH]; intros acc Ha.
  { exists acc. split; [done|]. split; [done|]. split; [by intros g|].
    intros g Hg. by apply not_elem_of_nil in Hg. }
  cbn [gc_merge_peers]. unfold gc_merge_peer. fold (peer_clock s i).
  destruct (min_vcu acc (peer_clock s i) Ha (peer_clock_ok s i Hs)) as (m & Em & Km & _ & Vm).
  destruct (gid_in (peer_set s) i && negb (gid_in (offline_peer_set s) i)) eqn:E.
  - rewrite Em. cbn [mbind res_bind]. destruct (IH m Km) as (r & Er & Kr & Lr & Pr).
    exists r. split; [done|]. split; [done|].
    assert (vc_le m acc) as L1 by (intros g; rewrite Vm; lia).
    assert (vc_le m (peer_clock s i)) as L2 by (intros g; rewrite Vm; lia).
    split; [by eapply vc_le_trans|]. intros g Hg H1 H2.
    apply elem_of_cons in Hg as [->|Hg]; [by eapply vc_le_trans|auto].
  - cbn [mbind res_bind]. destruct (IH acc Ha) as (r & Er & Kr & Lr & Pr).
    exists r. split; [done|]. split; [done|]. split; [done|]. intros g Hg H1 H2.
    apply elem_of_cons in Hg as [->|Hg]; [|auto]. by rewrite H1, H2 in E.
Qed.

Lemma updateGcVectorClock_spec s :
  server_ok s ->
  exists s', updateGcVectorClock s = Ok s' /\ server_ok s' /\ vectorClock s' = vectorClock s /\
    vc_le (gcVectorClock s') (vectorClock s) /\
    (forall g, 0 <= g < 16 -> gid_in (peer_set s) g = true -> gid_in (offline_peer_set s) g = false ->
               vc_le (gcVectorClock s') (peer_clock s g)).
Proof.
  intros Hs. pose proof Hs as (Hg & Hv & Hc & Hgc & Hm).
  unfold updateGcVectorClock, getGcVectorClock. rewrite dupVectorClock_spec by done. cbn [mbind res_bind].
  destruct (gc_merge_peers_spec s (vectorClock s) (seqZ 0 (MAX_PEERS + 1)) Hs Hv) as (r & -> & Kr & Lr & Pr).
  cbn [mbind res_bind]. eexists. split; [reflexivity|]. split; [done|]. split; [done|]. split; [done|].
  intros g Hg'. apply Pr. apply elem_of_seqZ. change (MAX_PEERS + 1) with 16. lia.
Qed.

(** ** Claims *)

Section claims.

Context {robj tombstone : Type} `{TombstoneModule robj tombstone}.

(** The clock of the deletion a tombstone records, and what the modules'
    [gc] methods promise: they accept a clock only when it is at or above the
    clock of the deletion. *)

Context (tomb_vc : robj -> VectorClock).
Context (gc_respects_clock : forall v clock, gc_verdict v clock = Some true -> vc_le (tomb_vc v) clock).

(** C5: a collection cycle returns (its loops end), only removes tombstones, and
    every deletion it forgets has been seen by this server and by every peer
    that is in the peer set and not offline: the peer's clock is at or above
    the clock of the deletion.  A peer of the set with no link has the null
    clock, so then only tombstones with a null clock go. *)
Theorem Gc_safe t paused start (cfg : gc_config) dbs cy e s
  (Hs : server_ok s) (Hdbs : dbs <> [])
  (Hl : 0 <= active_gc_cycle_lookups_per_loop cfg) (Hp : 0 <= active_gc_cycle_non_gc_perc cfg) :
  exists dbs' cy' e' s', Gc t paused start cfg dbs cy e s = Ok (dbs', cy', e', s') /\ server_ok s' /\
    length dbs' = length dbs /\
    forall i d d' k v, dbs !! i = Some d -> dbs' !! i = Some d' -> d' ⊆ d /\
      (d !! k = Some v -> d' !! k = None ->
       vc_le (tomb_vc v) (vectorClock s) /\
       forall g, 0 <= g < 16 -> gid_in (peer_set s) g = true -> gid_in (offline_peer_set s) g = false ->
                 vc_le (tomb_vc v) (peer_clock s g)).
Proof.
  unfold Gc. assert (forall clock dbs', all_collected clock dbs dbs' ->
    vc_le clock (vectorClock s) ->
    (forall g, 0 <= g < 16 -> gid_in (peer_set s) g = true -> gid_in (offline_peer_set s) g = false ->
               vc_le clock (peer_clock s g)) ->
    length dbs' = length dbs /\
    forall i d d' k v, dbs !! i = Some d -> dbs' !! i = Some d' -> d' ⊆ d /\
      (d !! k = Some v -> d' !! k = None ->
       vc_le (tomb_vc v) (vectorClock s) /\
       forall g, 0 <= g < 16 -> gid_in (peer_set s) g = true -> gid_in (offline_peer_set s) g = false ->
                 vc_le (tomb_vc v) (peer_clock s g))) as Main.
  { intros clock dbs' C L P. split; [symmetry; by eapply Forall2_length|].
    intros i d d' k v H1 H2. destruct (Forall2_lookup_lr _ _ _ _ _ _ C H1 H2) as [Sub Col].
    split; [done|]. intros Hk Hk'. specialize (gc_respects_clock _ _ (Col k v Hk Hk')).
    split; [by eapply vc_le_trans|]. intros g Hg Hin Hoff. eapply vc_le_trans; [done|auto]. }
  destruct (updateGcVectorClock_spec s Hs) as (s' & E & Hs' & Ev & L & P).
  destruct paused.
  { eexists _, _, _, _. split; [reflexivity|]. split; [done|]. by apply (Main (gcVectorClock s')),
      P; [apply all_collected_refl|]. }
  rewrite E. cbn [mbind res_bind].
  destruct (is_fast t && negb (timelimit_exit cy)).
  { eexists _, _, _, _. split; [reflexivity|]. split; [done|]. apply (Main (gcVectorClock s')); [|done..].
    apply all_collected_refl. }
  destruct (is_fast t && _).
  { eexists _, _, _, _. split; [reflexivity|]. split; [done|]. apply (Main (gcVectorClock s')); [|done..].
    apply all_collected_refl. }
  match goal with |- context [gc_dbs ?n ?c ?cl ?st ?tl ?d ?cyy ?ee] =>
    destruct (gc_dbs_collected n c cl st tl d cyy ee Hl Hp Hdbs) as (dbs' & cy' & e' & -> & C) end.
  cbn [mbind res_bind]. eexists _, _, _, _. split; [reflexivity|]. split; [done|]. by eapply Main.
Qed.

(** Looking up a tombstone for a key collects it at most when the same
    condition holds, never while data is being loaded, and otherwise returns
    it. *)
Lemma lookupTombstoneKey_safe any_loading d key s (Hs : server_ok s) :
  exists r d' s', lookupTombstoneKey any_loading d key s = Ok (r, d', s') /\ server_ok s' /\
    ((r = d !! key /\ d' = d) \/
     (any_loading = false /\ r = None /\ d' = delete key d /\
      exists v, d !! key = Some v /\ vc_le (tomb_vc v) (vectorClock s) /\
      forall g, 0 <= g < 16 -> gid_in (peer_set s) g = true -> gid_in (offline_peer_set s) g = false ->
                vc_le (tomb_vc v) (peer_clock s g))).
Proof.
  unfold lookupTombstoneKey, gcIfNeeded, lookupTombstone.
  destruct (d !! key) as [v|] eqn:Ek; cbn [mbind res_bind].
  2:{ eexists _, _, _. split; [reflexivity|]. split; [done|]. left. by rewrite Ek. }
  destruct any_loading; cbn [mbind res_bind].
  { eexists _, _, _. split; [reflexivity|]. split; [done|]. left. by rewrite Ek. }
  destruct (updateGcVectorClock_spec s Hs) as (s' & -> & Hs' & Ev & L & P). cbn [mbind res_bind].
  destruct (gc_verdict v (gcVectorClock s')) as [[|]|] eqn:Eg; cbn [mbind res_bind];
    (eexists _, _, _; split; [reflexivity|]; split; [done|]); [|by left; rewrite Ek..].
  right. split; [done|]. rewrite lookup_delete_eq. split; [done|]. split; [done|].
  exists v. specialize (gc_respects_clock _ _ Eg). split; [done|].
  split; [by eapply vc_le_trans|]. intros g H1 H2 H3. eapply vc_le_trans; [done|auto].
Qed.

End claims.

(** ** A concrete module

    Tombstones that are their clock, collected when [isVectorClockMonoIncr]
    holds: the rule the comment of [gcIfNeeded] gives. *)

#[local] Instance clock_tombstones : TombstoneModule VectorClock VectorClock := {|
  retrieveCrdtObject := Some;
  gc_method := fun _ => Some (fun t clock =>
    match t with
    | Some vc => bool_decide (vc_ok vc /\ vc_ok clock) && isVectorClockMonoIncr vc clock
    | None => false
    end)
|}.

Lemma clock_tombstones_respect v clock : gc_verdict v clock = Some true -> vc_le v clock.
Proof.
  unfold gc_verdict. simpl. case_bool_decide as H; [|done]. destruct H as [H1 H2]. simpl.
  intros [= E]. by apply isVectorClockMonoIncr_spec in E as (_ & _ & _ & ?).
Qed.

Definition example_peer : peer :=
  MkPeer 2 None (Some (str "10.0.0.2")) 6379 None None 25 (-1) 0 0 None (-1) [Clk 1 4; Clk 2 9] 0 [] 0 0 None.

Definition example_gc_server : crdtServer :=
  MkServer 1 (str "ns") [Clk 1 5; Clk 2 8] [] [] {[2 := example_peer]} 4 0 false 0.

Lemma example_gc_server_ok : server_ok example_gc_server.
Proof.
  split; [simpl; lia|]. split; [decide_now|]. split; [decide_now|]. split; [decide_now|].
  apply map_Forall_singleton. split; decide_now.
Qed.

Definition example_dbs : list (gmap bytes VectorClock) :=
  [{[str "a" := [Clk 1 4]; str "b" := [Clk 1 5]]}].

Definition example_gc_config : gc_config (robj := VectorClock) := MkGcConfig 20 25 25 10 (fun _ => 4).

Lemma Gc_safe_witness :
  exists dbs' cy' e' s',
    Gc ACTIVE_GC_CYCLE_SLOW false 0 example_gc_config example_dbs (MkCycle 0 false 0)
       (MkGcEnv [0; 1; 0]%nat [] (MkStats 0 0) 0) example_gc_server = Ok (dbs', cy', e', s') /\
    server_ok s' /\ length dbs' = length example_dbs /\
    forall i d d' k v, example_dbs !! i = Some d -> dbs' !! i = Some d' -> d' ⊆ d /\
      (d !! k = Some v -> d' !! k = None ->
       vc_le (id v) (vectorClock example_gc_server) /\
       forall g, 0 <= g < 16 -> gid_in (peer_set example_gc_server) g = true ->
                 gid_in (offline_peer_set example_gc_server) g = false ->
                 vc_le (id v) (peer_clock example_gc_server g)).
Proof.
  apply (Gc_safe id clock_tombstones_respect);
    [apply example_gc_server_ok|discriminate|simpl; lia|simpl; lia].
Defined.

Lemma lookupTombstoneKey_safe_witness :
  exists r d' s', lookupTombstoneKey false {[str "a" := [Clk 1 4]]} (str "a") example_gc_server
                  = Ok (r, d', s') /\ server_ok s' /\
    ((r = ({[str "a" := [Clk 1 4]]} : gmap bytes VectorClock) !! str "a" /\ d' = {[str "a" := [Clk 1 4]]}) \/
     (false = false /\ r = None /\ d' = delete (str "a") {[str "a" := [Clk 1 4]]} /\
      exists v, ({[str "a" := [Clk 1 4]]} : gmap bytes VectorClock) !! str "a" = Some v /\
      vc_le (id v) (vectorClock example_gc_server) /\
      forall g, 0 <= g < 16 -> gid_in (peer_set example_gc_server) g = true ->
                gid_in (offline_peer_set example_gc_server) g = false ->
                vc_le (id v) (peer_clock example_gc_server g))).
Proof.
  apply (lookupTombstoneKey_safe id clock_tombstones_respect). apply example_gc_server_ok.
Defined.
