(* ===== verification/Crc.v ===== *)
(** * Checksums and hash slots ([src/src/crc64.c], [src/src/crcspeed.c],
      [src/src/crc16.c], [src/src/cluster.c])

    CRC64 is computed eight bytes at a time from tables that are filled, at
    start-up, with a bit-by-bit routine; CRC16 byte by byte from a constant
    table.  Both are shown to be the bit-by-bit division they optimise.  The
    routines are those of a little-endian machine. *)

From S2P Require Import Prelude.

(** ** The bit-by-bit CRC64 ([crc64.c]) *)

Definition POLY : Z := 0xad93d23594c935a9.

Fixpoint reflect_loop (n : nat) (data ret : Z) : Z :=
  match n with
  | O => ret
  | S n =>
      let data := Z.shiftr data 1 in
      reflect_loop n data (Z.lor (uwrap 64 (Z.shiftl ret 1)) (Z.land data 1))
  end.

Definition crc_reflect (data : Z) (data_len : nat) : Z :=
  reflect_loop (data_len - 1) data (Z.land data 1).

(** The round of the inner loop for the bit [i] of the byte [c]. *)

Definition crc64_bit (c crc i : Z) : Z :=
  let bit := Z.land crc 0x8000000000000000 in
  let bit := if negb (Z.land c i =? 0) then (if bit =? 0 then 1 else 0) else bit in
  let crc := uwrap 64 (Z.shiftl crc 1) in
  if negb (bit =? 0) then Z.lxor crc POLY else crc.

Definition crc64_byte (crc c : Z) : Z :=
  Z.land (fold_left (crc64_bit c) [0x01; 0x02; 0x04; 0x08; 0x10; 0x20; 0x40; 0x80] crc) 0xffffffffffffffff.

Definition _crc64 (crc : Z) (data : bytes) : Z :=
  Z.lxor (crc_reflect (Z.land (fold_left crc64_byte data crc) 0xffffffffffffffff) 64) 0.

(** ** Eight bytes at a time ([crcspeed.c]) *)

Definition next_entry (row0 : list Z) (crc : Z) : Z :=
  Z.lxor (row0 !!! Z.to_nat (Z.land crc 0xff)) (Z.shiftr crc 8).

(** Row [k+1] of the table is made from row [k]. *)

Fixpoint crc_rows (n : nat) (row0 row : list Z) : list (list Z) :=
  match n with
  | O => []
  | S n => row :: crc_rows n row0 (map (next_entry row0) row)
  end.

Definition crcspeed64little_init (crcfn : Z -> bytes -> Z) : list (list Z) :=
  let row0 := map (fun n => crcfn 0 [n]) (seqZ 0 256) in
  crc_rows 8 row0 row0.

Definition table_at (table : list (list Z)) (k : nat) (i : Z) : Z := (table !!! k) !!! Z.to_nat i.

Definition table_byte (table : list (list Z)) (crc c : Z) : Z :=
  Z.lxor (table_at table 0 (Z.land (Z.lxor crc c) 0xff)) (Z.shiftr crc 8).

(** The bytes before the first address that is a multiple of eight. *)

Fixpoint crc_head (table : list (list Z)) (addr crc : Z) (buf : bytes) : Z * bytes :=
  match buf with
  | [] => (crc, [])
  | c :: rest =>
      if negb (Z.land addr 7 =? 0) then crc_head table (addr + 1) (table_byte table crc c) rest
      else (crc, buf)
  end.

(** A little-endian 64-bit load. *)

Fixpoint le_word (bs : bytes) : Z :=
  match bs with
  | [] => 0
  | b :: bs => Z.lor b (Z.shiftl (le_word bs) 8)
  end.

Definition table_word (table : list (list Z)) (crc w : Z) : Z :=
  let crc := Z.lxor crc w in
  Z.lxor (Z.lxor (Z.lxor (Z.lxor (Z.lxor (Z.lxor (Z.lxor
    (table_at table 7 (Z.land crc 0xff))
    (table_at table 6 (Z.land (Z.shiftr crc 8) 0xff)))
    (table_at table 5 (Z.land (Z.shiftr crc 16) 0xff)))
    (table_at table 4 (Z.land (Z.shiftr crc 24) 0xff)))
    (table_at table 3 (Z.land (Z.shiftr crc 32) 0xff)))
    (table_at table 2 (Z.land (Z.shiftr crc 40) 0xff)))
    (table_at table 1 (Z.land (Z.shiftr crc 48) 0xff)))
    (table_at table 0 (Z.shiftr crc 56)).

Fixpoint crc_words (table : list (list Z)) (crc : Z) (buf : bytes) : Z * bytes :=
  match buf with
  | b0 :: b1 :: b2 :: b3 :: b4 :: b5 :: b6 :: b7 :: rest =>
      crc_words table (table_word table crc (le_word [b0; b1; b2; b3; b4; b5; b6; b7])) rest
  | _ => (crc, buf)
  end.

(** [addr] is the address of [buf]. *)

Definition crcspeed64little (table : list (list Z)) (addr crc : Z) (buf : bytes) : Z :=
  let '(crc, buf) := crc_head table addr crc buf in
  let '(crc, buf) := crc_words table crc buf in
  fold_left (table_byte table) buf crc.

Definition crc64_table : list (list Z) := crcspeed64little_init _crc64.

Definition crc64 (addr crc : Z) (s : bytes) : Z := crcspeed64little crc64_table addr crc s.

(** ** The payload of DUMP and of the merge commands ([cluster.c])

    [body] is the object in RDB format, written by [rdbSaveObject]. *)

Definition RDB_VERSION : Z := 8.

Fixpoint le_split (n : nat) (w : Z) : bytes :=
  match n with
  | O => []
  | S n => Z.land w 0xff :: le_split n (Z.shiftr w 8)
  end.

Definition createDumpPayload (addr : Z) (body : bytes) : bytes :=
  let payload := body ++ [Z.land RDB_VERSION 0xff; Z.land (Z.shiftr RDB_VERSION 8) 0xff] in
  payload ++ le_split 8 (crc64 addr 0 payload).

Definition verifyDumpPayload (addr : Z) (p : bytes) : bool :=
  let len := length p in
  if (len <? 10)%nat then false else
  let footer := drop (len - 10) p in
  let rdbver := Z.lor (Z.shiftl (footer !!! 1%nat) 8) (footer !!! 0%nat) in
  if rdbver >? RDB_VERSION then false
  else bool_decide (le_split 8 (crc64 addr 0 (take (len - 8) p)) = drop 2 footer).

(** ** The division, seen from the low end

    Reflected, one step of the bit-by-bit routine divides by two and subtracts
    the reflected polynomial if a bit falls out: a function that is linear for
    exclusive or. *)

Definition RPOLY : Z := Eval vm_compute in crc_reflect POLY 64.

Definition R (x : Z) : Z := Z.lxor (Z.shiftr x 1) (if Z.odd x then RPOLY else 0).

Definition Rn (n : nat) (x : Z) : Z := Nat.iter n R x.

Lemma odd_lxor x y : Z.odd (Z.lxor x y) = xorb (Z.odd x) (Z.odd y).
Proof. by rewrite <- !Z.bit0_odd, Z.lxor_spec. Qed.

Lemma R_lxor x y : R (Z.lxor x y) = Z.lxor (R x) (R y).
Proof.
  unfold R. rewrite Z.shiftr_lxor, odd_lxor. apply Z.bits_inj'. intros i _.
  rewrite !Z.lxor_spec.
  destruct (Z.odd x), (Z.odd y), (Z.testbit (Z.shiftr x 1) i), (Z.testbit (Z.shiftr y 1) i);
    simpl; rewrite ?Z.bits_0; by destruct (Z.testbit RPOLY i).
Qed.

Lemma Rn_lxor n x y : Rn n (Z.lxor x y) = Z.lxor (Rn n x) (Rn n y).
Proof. induction n as [|n IH]; [done|]. simpl. by rewrite IH, R_lxor. Qed.

Lemma Rn_0 n : Rn n 0 = 0.
Proof. induction n as [|n IH]; [done|]. simpl. by rewrite IH. Qed.

Lemma Rn_add m n x : Rn (m + n) x = Rn m (Rn n x).
Proof. induction m as [|m IH]; [done|]. simpl. by rewrite IH. Qed.

Lemma R_double x : R (2 * x) = x.
Proof.
  unfold R. rewrite Z.odd_mul. simpl. rewrite Z.lxor_0_r, Z.shiftr_div_pow2 by lia.
  rewrite Z.mul_comm. by apply Z.div_mul.
Qed.

Lemma Rn_shiftl n x : Rn n (Z.shiftl x (Z.of_nat n)) = x.
Proof.
  induction n as [|n IH]; [by rewrite Z.shiftl_0_r|].
  replace (S n) with (n + 1)%nat at 1 by lia. rewrite Rn_add.
  change (Rn 1 ?a) with (R a).
  replace (Z.shiftl x (Z.of_nat (S n))) with (2 * Z.shiftl x (Z.of_nat n)); [by rewrite R_double|].
  rewrite !Z.shiftl_mul_pow2, Nat2Z.inj_succ, Z.pow_succ_r by lia. ring.
Qed.

(** A byte is divided out by its table entry. *)

Lemma split_byte x : x = Z.lxor (Z.land x 255) (Z.shiftl (Z.shiftr x 8) 8).
Proof.
  apply Z.bits_inj'. intros i Hi. rewrite Z.lxor_spec, Z.land_spec, Z.shiftl_spec by lia.
  change 255 with (Z.ones 8). destruct (decide (i < 8)).
  - rewrite Z.ones_spec_low, (Z.testbit_neg_r _ (i - 8)) by lia. by rewrite andb_true_r, xorb_false_r.
  - rewrite Z.ones_spec_high, Z.shiftr_spec by lia. rewrite andb_false_r, xorb_false_l. f_equal. lia.
Qed.

Lemma Rn_byte m x : Rn (m + 8) x = Z.lxor (Rn (m + 8) (Z.land x 255)) (Rn m (Z.shiftr x 8)).
Proof.
  rewrite (split_byte x) at 1. rewrite Rn_lxor. f_equal. rewrite Rn_add. f_equal. apply (Rn_shiftl 8).
Qed.

(** ** Reflection *)

Lemma land_1_bit x i : 0 <= i -> Z.testbit (Z.land x 1) i = (i =? 0) && Z.testbit x 0.
Proof.
  intros Hi. rewrite Z.land_spec. destruct (Z.eqb_spec i 0) as [->|]; [by rewrite andb_true_r|].
  change 1 with (Z.ones 1). rewrite Z.ones_spec_high by lia. by rewrite andb_false_r.
Qed.

Lemma bit_high x k i : 0 <= x < 2 ^ k -> k <= i -> Z.testbit x i = false.
Proof.
  intros [H1 H2] Hi. destruct (decide (0 <= k)) as [Hk|]; [|rewrite Z.pow_neg_r in H2; lia].
  destruct (decide (x = 0)) as [->|]; [apply Z.bits_0|].
  apply Z.bits_above_log2; [done|]. apply Z.log2_lt_pow2 in H2; lia.
Qed.

Lemma bits_range x k : 0 <= k -> (forall i, k <= i -> Z.testbit x i = false) -> 0 <= x -> x < 2 ^ k.
Proof.
  intros Hk Hb Hx. destruct (decide (x = 0)) as [->|]; [apply Z.pow_pos_nonneg; lia|].
  apply Z.log2_lt_pow2; [lia|]. destruct (decide (Z.log2 x < k)); [done|].
  specialize (Hb (Z.log2 x)). rewrite Z.bit_log2 in Hb by lia. exfalso. by discriminate Hb; lia.
Qed.

Lemma reflect_loop_bits n data ret k i :
  0 <= ret < 2 ^ k -> 0 <= k -> k + Z.of_nat n <= 64 -> 0 <= i ->
  Z.testbit (reflect_loop n data ret) i =
  if i <? Z.of_nat n then Z.testbit data (Z.of_nat n - i) else Z.testbit ret (i - Z.of_nat n).
Proof.
  revert data ret k. induction n as [|n IH]; intros data ret k Hr Hk Hn Hi.
  - destruct (Z.ltb_spec i (Z.of_nat 0)); [lia|]. simpl. by rewrite Z.sub_0_r.
  - cbn [reflect_loop].
    assert (0 <= Z.shiftl ret 1 < 2 ^ (k + 1)) as Hs.
    { rewrite Z.shiftl_mul_pow2, Z.pow_add_r by lia. lia. }
    assert (2 ^ (k + 1) <= 2 ^ 64) by (apply Z.pow_le_mono_r; lia).
    rewrite uwrap_id by lia. set (d := Z.shiftr data 1).
    assert (forall j, 0 <= j -> Z.testbit (Z.lor (Z.shiftl ret 1) (Z.land d 1)) j =
              if j =? 0 then Z.testbit data 1 else Z.testbit ret (j - 1)) as Hb.
    { intros j Hj. rewrite Z.lor_spec, Z.shiftl_spec, land_1_bit by done.
      unfold d. rewrite Z.shiftr_spec by lia. destruct (Z.eqb_spec j 0) as [->|]; simpl.
      - done.
      - by rewrite orb_false_r. }
    rewrite (IH d _ (k + 1)); [| |lia|lia|done].
    + unfold d. destruct (Z.ltb_spec i (Z.of_nat n)), (Z.ltb_spec i (Z.of_nat (S n))); try lia.
      * rewrite Z.shiftr_spec by lia. f_equal. lia.
      * rewrite Hb by lia. replace (i - Z.of_nat n =? 0) with true by lia. f_equal. lia.
      * rewrite Hb by lia. replace (i - Z.of_nat n =? 0) with false by lia. f_equal. lia.
    + assert (0 <= Z.lor (Z.shiftl ret 1) (Z.land d 1)).
      { apply Z.lor_nonneg. split; [lia|]. apply Z.land_nonneg. lia. }
      split; [done|]. apply bits_range; [lia| |done]. intros j Hj. rewrite Hb by lia.
      replace (j =? 0) with false by lia. apply (bit_high _ k); [done|lia].
Qed.

Lemma reflect_bits x i :
  0 <= i -> Z.testbit (crc_reflect x 64) i = (i <? 64) && Z.testbit x (63 - i).
Proof.
  intros Hi. unfold crc_reflect. rewrite (reflect_loop_bits _ _ _ 1); [| |lia|simpl; lia|done].
  - change (Z.of_nat (64 - 1)) with 63. destruct (Z.ltb_spec i 63).
    + by replace (i <? 64) with true by lia.
    + rewrite land_1_bit by lia. destruct (Z.ltb_spec i 64); simpl.
      * replace i with 63 by lia. done.
      * by replace (i - 63 =? 0) with false by lia.
  - change (Z.land x 1) with (Z.land x (Z.ones 1)). rewrite Z.land_ones by lia. apply Z.mod_pos_bound. lia.
Qed.

Lemma reflect_nonneg x : 0 <= crc_reflect x 64.
Proof.
  apply Z.bits_iff_nonneg_ex. exists 64. intros i Hi. rewrite reflect_bits by lia.
  by replace (i <? 64) with false by lia.
Qed.

Lemma reflect_range x : 0 <= crc_reflect x 64 < 2 ^ 64.
Proof.
  split; [apply reflect_nonneg|]. apply bits_range; [lia| |apply reflect_nonneg].
  intros i Hi. rewrite reflect_bits by lia. by replace (i <? 64) with false by lia.
Qed.

Lemma reflect_involutive x : 0 <= x < 2 ^ 64 -> crc_reflect (crc_reflect x 64) 64 = x.
Proof.
  intros Hx. apply Z.bits_inj'. intros i Hi. rewrite reflect_bits by done.
  destruct (Z.ltb_spec i 64); simpl.
  - rewrite reflect_bits by lia. replace (63 - i <? 64) with true by lia. simpl. f_equal. lia.
  - symmetry. by apply (bit_high _ 64).
Qed.

(** ** The bit-by-bit routine is the division *)

Definition bit_of (c j : Z) : Z := if Z.testbit c j then 1 else 0.

Lemma land_pow2_zero c j : 0 <= j -> (Z.land c (2 ^ j) =? 0) = negb (Z.testbit c j).
Proof.
  intros Hj. apply eq_true_iff_eq. rewrite Z.eqb_eq, negb_true_iff. split.
  - intros H. apply (f_equal (fun z => Z.testbit z j)) in H.
    rewrite Z.land_spec, Z.pow2_bits_true, Z.bits_0 in H by done. by rewrite andb_true_r in H.
  - intros H. apply Z.bits_inj'. intros i Hi. rewrite Z.land_spec, Z.bits_0.
    destruct (decide (i = j)) as [->|]; [by rewrite H|]. rewrite Z.pow2_bits_false by lia. apply andb_false_r.
Qed.

Lemma crc64_bit_range c crc i : 0 <= crc64_bit c crc i < 2 ^ 64.
Proof.
  unfold crc64_bit. pose proof (uwrap_range 64 (Z.shiftl crc 1) ltac:(lia)) as Hu.
  set (x := uwrap 64 (Z.shiftl crc 1)) in *.
  match goal with |- context [if ?b then _ else _] => destruct b end; [|done].
  assert (0 <= Z.lxor x POLY) by (apply Z.lxor_nonneg; unfold POLY; lia).
  split; [done|]. apply bits_range; [lia| |done]. intros j Hj. rewrite Z.lxor_spec.
  rewrite (bit_high x 64), (bit_high POLY 64); [done|unfold POLY; lia|done|done|done].
Qed.

Lemma uwrap_bits w x i : 0 <= w -> 0 <= i -> Z.testbit (uwrap w x) i = (i <? w) && Z.testbit x i.
Proof.
  intros Hw Hi. unfold uwrap. destruct (Z.ltb_spec i w); simpl.
  - by apply Z.mod_pow2_bits_low.
  - apply Z.mod_pow2_bits_high. lia.
Qed.

Lemma R_bits x i :
  0 <= i -> Z.testbit (R x) i = xorb (Z.testbit x (i + 1)) (Z.testbit x 0 && Z.testbit RPOLY i).
Proof.
  intros Hi. unfold R. rewrite Z.lxor_spec, Z.shiftr_spec, <- Z.bit0_odd by done.
  f_equal. destruct (Z.testbit x 0); simpl; [done|apply Z.bits_0].
Qed.

Lemma RPOLY_reflect : RPOLY = crc_reflect POLY 64.
Proof. reflexivity. Qed.

Lemma bit_of_bits c j i : 0 <= i -> Z.testbit (bit_of c j) i = (i =? 0) && Z.testbit c j.
Proof.
  intros Hi. unfold bit_of. destruct (Z.testbit c j); rewrite ?andb_false_r, ?andb_true_r; [|apply Z.bits_0].
  destruct (Z.eqb_spec i 0) as [->|]; [done|]. apply (bit_high 1 1); lia.
Qed.

Lemma bit_step c crc j :
  0 <= crc < 2 ^ 64 -> 0 <= j ->
  crc_reflect (crc64_bit c crc (2 ^ j)) 64 = R (Z.lxor (crc_reflect crc 64) (bit_of c j)).
Proof.
  intros Hc Hj. apply Z.bits_inj'. intros i Hi.
  rewrite reflect_bits, R_bits, !Z.lxor_spec, !reflect_bits, !bit_of_bits by lia.
  replace (i + 1 =? 0) with false by lia. simpl. rewrite xorb_false_r.
  rewrite RPOLY_reflect, reflect_bits by done.
  assert (Z.testbit (crc64_bit c crc (2 ^ j)) (63 - i) =
    xorb (Z.testbit (uwrap 64 (Z.shiftl crc 1)) (63 - i))
         (xorb (Z.testbit crc 63) (Z.testbit c j) && Z.testbit POLY (63 - i))) as ->.
  { unfold crc64_bit. rewrite land_pow2_zero by done.
    change 0x8000000000000000 with (2 ^ 63). pose proof (land_pow2_zero crc 63 ltac:(lia)) as E.
    rewrite negb_involutive. destruct (Z.testbit c j); rewrite E;
      destruct (Z.testbit crc 63); simpl; rewrite ?E, ?Z.lxor_spec, ?xorb_false_r; done. }
  destruct (Z.ltb_spec i 64); simpl; [|by rewrite ?andb_false_r; replace (i + 1 <? 64) with false by lia].
  rewrite uwrap_bits, Z.shiftl_spec by lia. replace (63 - i <? 64) with true by lia. simpl. f_equal.
  destruct (Z.ltb_spec (i + 1) 64); simpl; [f_equal; lia|]. apply Z.testbit_neg_r. lia.
Qed.

(** The lowest [n] bits of [c], fed one after the other. *)

Lemma fold_bits c n crc :
  0 <= crc < 2 ^ 64 ->
  let r := fold_left (crc64_bit c) (map (fun j => 2 ^ Z.of_nat j) (seq 0 n)) crc in
  0 <= r < 2 ^ 64 /\
  crc_reflect r 64 = Rn n (Z.lxor (crc_reflect crc 64) (Z.land c (Z.ones (Z.of_nat n)))).
Proof.
  intros Hc. induction n as [|n [Hr IH]].
  - simpl. split; [done|]. by rewrite Z.land_0_r, Z.lxor_0_r.
  - rewrite seq_S, map_app, fold_left_app. cbn [map fold_left plus].
    split; [apply crc64_bit_range|]. rewrite bit_step, IH by lia.
    rewrite <- (Rn_shiftl n (bit_of c (Z.of_nat n))), <- Rn_lxor.
    change (R (Rn n ?x)) with (Rn (S n) x). f_equal.
    rewrite Z.lxor_assoc. f_equal.
    apply Z.bits_inj'. intros i Hi. rewrite Z.lxor_spec, !Z.land_spec, Z.shiftl_spec by done.
    destruct (decide (i < Z.of_nat n)).
    + rewrite !Z.ones_spec_low, (Z.testbit_neg_r _ (i - _)) by lia. by rewrite xorb_false_r.
    + rewrite (Z.ones_spec_high (Z.of_nat n)), bit_of_bits, andb_false_r by lia.
      destruct (Z.eqb_spec (i - Z.of_nat n) 0); simpl.
      * rewrite Z.ones_spec_low by lia. rewrite andb_true_r. f_equal. lia.
      * rewrite Z.ones_spec_high by lia. by rewrite andb_false_r.
Qed.

Lemma land_mask x : 0 <= x < 2 ^ 64 -> Z.land x 0xffffffffffffffff = x.
Proof.
  intros H. change 0xffffffffffffffff with (Z.ones 64). rewrite Z.land_ones by lia. by apply Z.mod_small.
Qed.

Lemma byte_step crc c :
  0 <= crc < 2 ^ 64 -> 0 <= c < 256 ->
  0 <= crc64_byte crc c < 2 ^ 64 /\
  crc_reflect (crc64_byte crc c) 64 = Rn 8 (Z.lxor (crc_reflect crc 64) c).
Proof.
  intros Hcrc Hc. destruct (fold_bits c 8 crc Hcrc) as [Hr E].
  change (map _ (seq 0 8)) with [0x01; 0x02; 0x04; 0x08; 0x10; 0x20; 0x40; 0x80] in Hr, E.
  unfold crc64_byte. rewrite land_mask by done. split; [done|]. rewrite E. do 2 f_equal.
  rewrite Z.land_ones by lia. by apply Z.mod_small.
Qed.

Lemma Rn_byte0 x : Rn 8 x = Z.lxor (Rn 8 (Z.land x 255)) (Z.shiftr x 8).
Proof. apply (Rn_byte 0). Qed.

Lemma lxor_range x y k : 0 <= k -> 0 <= x < 2 ^ k -> 0 <= y < 2 ^ k -> 0 <= Z.lxor x y < 2 ^ k.
Proof.
  intros Hk Hx Hy. assert (0 <= Z.lxor x y) by (apply Z.lxor_nonneg; lia). split; [done|].
  apply bits_range; [done| |done]. intros i Hi. by rewrite Z.lxor_spec, (bit_high x k), (bit_high y k).
Qed.

Lemma Rn_range n x : 0 <= x < 2 ^ 64 -> 0 <= Rn n x < 2 ^ 64.
Proof.
  intros Hx. induction n as [|n IH]; [done|]. simpl. unfold R. apply lxor_range; [lia| |].
  - rewrite Z.shiftr_div_pow2 by lia. split; [apply Z.div_pos; lia|]. apply Z.div_lt_upper_bound; lia.
  - unfold RPOLY. destruct Z.odd; lia.
Qed.

#[local] Opaque crc_reflect Rn crc64_byte.

(** The reference: bytes divided out one after the other. *)

Definition crc_spec (crc : Z) (data : bytes) : Z := fold_left (fun x c => Rn 8 (Z.lxor x c)) data crc.

Lemma fold_bytes data crc :
  0 <= crc < 2 ^ 64 -> bytes_ok data ->
  0 <= fold_left crc64_byte data crc < 2 ^ 64 /\
  crc_reflect (fold_left crc64_byte data crc) 64 = crc_spec (crc_reflect crc 64) data.
Proof.
  intros Hc Hd. unfold crc_spec.
  apply (fold_left_simulation crc64_byte (fun x c => Rn 8 (Z.lxor x c)) (fun crc => crc_reflect crc 64)
           (fun crc => 0 <= crc < 2 ^ 64) (fun c => 0 <= c < 256)); [|done|done].
  intros a x Ha Hx. by apply byte_step.
Qed.

Lemma _crc64_spec crc data :
  0 <= crc < 2 ^ 64 -> bytes_ok data -> _crc64 crc data = crc_spec (crc_reflect crc 64) data.
Proof.
  intros Hc Hd. destruct (fold_bytes data crc Hc Hd) as [Hr E]. unfold _crc64.
  by rewrite Z.lxor_0_r, land_mask, E.
Qed.

(** ** The tables *)

Definition row_ok (k : nat) (row : list Z) : Prop :=
  length row = 256%nat /\ forall n, 0 <= n < 256 -> row !!! Z.to_nat n = Rn (8 * k + 8) n.

Lemma land_255 x : 0 <= Z.land x 255 < 256.
Proof. change 255 with (Z.ones 8). rewrite Z.land_ones by lia. apply Z.mod_pos_bound. lia. Qed.

Lemma row_next row0 k row :
  row_ok 0 row0 -> row_ok k row -> row_ok (S k) (map (next_entry row0) row).
Proof.
  intros [_ H0] [Hl Hk]. split; [by rewrite length_map|]. intros n Hn.
  rewrite (list_lookup_total_fmap (next_entry row0)) by lia.
  rewrite Hk by done. unfold next_entry. rewrite H0 by apply land_255.
  change (8 * 0 + 8)%nat with 8%nat. rewrite <- Rn_byte0, <- Rn_add. f_equal. lia.
Qed.

Lemma rows_ok n k row0 row j :
  row_ok 0 row0 -> row_ok k row -> (j < n)%nat -> row_ok (k + j) (crc_rows n row0 row !!! j).
Proof.
  intros H0. revert k row j. induction n as [|n IH]; intros k row j Hk Hj; [lia|].
  cbn [crc_rows]. destruct j as [|j]; [by rewrite Nat.add_0_r|].
  change ((?a :: ?l) !!! S j) with (l !!! j). replace (k + S j)%nat with (S k + j)%nat by lia.
  apply IH; [by apply row_next|lia].
Qed.

Lemma crc64_table_at k n : (k < 8)%nat -> 0 <= n < 256 -> table_at crc64_table k n = Rn (8 * k + 8) n.
Proof.
  intros Hk Hn. unfold table_at, crc64_table, crcspeed64little_init.
  match goal with |- context [crc_rows 8 ?r ?r] => assert (row_ok 0 r) as H0 end.
  { split; [by rewrite length_map, length_seqZ|]. intros i Hi. rewrite (list_lookup_total_fmap (fun n => _crc64 0 [n])) by (rewrite length_seqZ; lia).
    rewrite (list_lookup_total_correct (seqZ 0 256) _ i) by (rewrite lookup_seqZ_lt by lia; f_equal; lia).
    rewrite _crc64_spec; [|lia|apply Forall_cons_2; [lia|apply Forall_nil_2]].
    change (crc_reflect 0 64) with 0. unfold crc_spec. cbn [fold_left].
    rewrite Z.lxor_0_l. done. }
  destruct (rows_ok 8 0 _ _ k H0 H0 Hk) as [_ E]. by rewrite E.
Qed.

Lemma table_byte_spec crc c :
  0 <= c < 256 -> table_byte crc64_table crc c = Rn 8 (Z.lxor crc c).
Proof.
  intros Hc. unfold table_byte. rewrite crc64_table_at by (try apply land_255; lia).
  change (8 * 0 + 8)%nat with 8%nat. rewrite (Rn_byte0 (Z.lxor crc c)). f_equal.
  rewrite Z.shiftr_lxor. replace (Z.shiftr c 8) with 0; [by rewrite Z.lxor_0_r|].
  rewrite Z.shiftr_div_pow2 by lia. symmetry. by apply Z.div_small.
Qed.

(** A word of eight bytes at once is the eight bytes one after the other. *)

Lemma lor_byte b w : 0 <= b < 256 -> Z.lor b (Z.shiftl w 8) = Z.lxor b (Z.shiftl w 8).
Proof.
  intros Hb. apply Z.bits_inj'. intros i Hi. rewrite Z.lor_spec, Z.lxor_spec, Z.shiftl_spec by done.
  destruct (decide (i < 8)).
  - rewrite (Z.testbit_neg_r w) by lia. by rewrite orb_false_r, xorb_false_r.
  - by rewrite (bit_high b 8) by lia.
Qed.

Lemma crc_spec_app crc s t : crc_spec crc (s ++ t) = crc_spec (crc_spec crc s) t.
Proof. unfold crc_spec. apply fold_left_app. Qed.

Lemma crc_spec_cons crc c s : crc_spec crc (c :: s) = crc_spec (Rn 8 (Z.lxor crc c)) s.
Proof. apply (crc_spec_app crc [c] s). Qed.

Lemma spec_word bs crc :
  bytes_ok bs -> crc_spec crc bs = Rn (8 * length bs) (Z.lxor crc (le_word bs)).
Proof.
  intros Hb. revert crc. induction bs as [|b bs IH]; intros crc.
  - cbn [le_word length]. rewrite Z.lxor_0_r. done.
  - inversion Hb as [|?? Hb0 Hbs]; subst. rewrite crc_spec_cons. cbn [le_word length]. rewrite IH by done.
    rewrite lor_byte, <- Z.lxor_assoc, (Rn_lxor _ (Z.lxor crc b)), Rn_lxor by done.
    replace (8 * S (length bs))%nat with (8 * length bs + 8)%nat by lia.
    rewrite !Rn_add. by rewrite (Rn_shiftl 8).
Qed.

Ltac peel m m8 y :=
  let E := fresh in pose proof (Rn_byte m y) as E; change (m + 8)%nat with m8 in E; rewrite E; clear E.

Lemma table_word_spec crc w :
  0 <= Z.lxor crc w < 2 ^ 64 -> table_word crc64_table crc w = Rn 64 (Z.lxor crc w).
Proof.
  unfold table_word. set (x := Z.lxor crc w). intros Hx.
  assert (0 <= Z.shiftr x 56 < 256).
  { rewrite Z.shiftr_div_pow2 by lia. split; [apply Z.div_pos; lia|]. apply Z.div_lt_upper_bound; lia. }
  rewrite !crc64_table_at by (try apply land_255; lia). cbn [Nat.mul Nat.add].
  peel 56%nat 64%nat x. peel 48%nat 56%nat (Z.shiftr x 8). rewrite Z.shiftr_shiftr by lia.
  peel 40%nat 48%nat (Z.shiftr x (8 + 8)). rewrite Z.shiftr_shiftr by lia.
  peel 32%nat 40%nat (Z.shiftr x (8 + 8 + 8)). rewrite Z.shiftr_shiftr by lia.
  peel 24%nat 32%nat (Z.shiftr x (8 + 8 + 8 + 8)). rewrite Z.shiftr_shiftr by lia.
  peel 16%nat 24%nat (Z.shiftr x (8 + 8 + 8 + 8 + 8)). rewrite Z.shiftr_shiftr by lia.
  peel 8%nat 16%nat (Z.shiftr x (8 + 8 + 8 + 8 + 8 + 8)). rewrite Z.shiftr_shiftr by lia.
  by rewrite !Z.lxor_assoc.
Qed.

(** ** The three loops *)

Lemma crc_spec_range s crc : 0 <= crc < 2 ^ 64 -> bytes_ok s -> 0 <= crc_spec crc s < 2 ^ 64.
Proof.
  revert crc. induction s as [|c s IH]; intros crc Hc Hs; [done|].
  inversion Hs; subst. rewrite crc_spec_cons. apply IH; [|done]. apply Rn_range.
  apply lxor_range; lia.
Qed.

Lemma le_word_range bs : bytes_ok bs -> 0 <= le_word bs < 2 ^ (8 * Z.of_nat (length bs)).
Proof.
  induction bs as [|b bs IH]; intros Hb; [done|]. inversion Hb as [|?? Hb0 Hbs]; subst.
  specialize (IH Hbs). cbn [le_word length]. rewrite lor_byte by done.
  replace (8 * Z.of_nat (S (length bs))) with (8 + 8 * Z.of_nat (length bs)) by lia.
  assert (2 ^ 8 <= 2 ^ (8 + 8 * Z.of_nat (length bs))) by (apply Z.pow_le_mono_r; lia).
  apply lxor_range; [lia|lia|]. rewrite Z.shiftl_mul_pow2, Z.pow_add_r by lia. nia.
Qed.

Lemma table_bytes_spec buf crc :
  bytes_ok buf -> fold_left (table_byte crc64_table) buf crc = crc_spec crc buf.
Proof.
  intros Hb. apply (fold_left_simulation (table_byte crc64_table) (fun x c => Rn 8 (Z.lxor x c)) id
    (fun _ => True) (fun c => 0 <= c < 256)); [|done|done].
  intros a x _ Hx. split; [done|]. by apply table_byte_spec.
Qed.

Lemma crc_head_spec buf addr crc :
  bytes_ok buf -> exists pre rest, buf = pre ++ rest /\
    crc_head crc64_table addr crc buf = (crc_spec crc pre, rest).
Proof.
  revert addr crc. induction buf as [|c buf IH]; intros addr crc Hb; [by exists [], []|].
  inversion Hb; subst. cbn [crc_head]. destruct (negb _); [|by exists [], (c :: buf)].
  rewrite table_byte_spec by done. destruct (IH (addr + 1) (Rn 8 (Z.lxor crc c))) as (pre & rest & -> & ->); [done|].
  exists (c :: pre), rest. split; [done|]. by rewrite crc_spec_cons.
Qed.

Lemma crc_words_spec n buf crc :
  (length buf <= n)%nat -> bytes_ok buf -> 0 <= crc < 2 ^ 64 -> exists pre rest, buf = pre ++ rest /\
    crc_words crc64_table crc buf = (crc_spec crc pre, rest).
Proof.
  revert buf crc. induction n as [|n IH]; intros buf crc Hn Hb Hc.
  { destruct buf; [by exists [], []|simpl in Hn; lia]. }
  destruct buf as [|b0 [|b1 [|b2 [|b3 [|b4 [|b5 [|b6 [|b7 rest]]]]]]]];
    try (eexists [], _; split; [symmetry; apply app_nil_l|done]).
  cbn [crc_words]. set (w := [b0; b1; b2; b3; b4; b5; b6; b7]).
  change (b0 :: _) with (w ++ rest) in Hb |- *. apply Forall_app in Hb as [Hw Hr].
  assert (table_word crc64_table crc (le_word w) = crc_spec crc w) as ->.
  { rewrite table_word_spec by (apply lxor_range; [lia|done|apply (le_word_range w Hw)]).
    by rewrite (spec_word w crc Hw). }
  destruct (IH rest (crc_spec crc w)) as (pre & rest' & -> & ->);
    [simpl in Hn; lia|done|by apply crc_spec_range|].
  exists (w ++ pre), rest'. split; [by rewrite app_assoc|]. by rewrite crc_spec_app.
Qed.

Lemma crc64_spec addr crc s : 0 <= crc < 2 ^ 64 -> bytes_ok s -> crc64 addr crc s = crc_spec crc s.
Proof.
  intros Hc Hs. unfold crc64, crcspeed64little.
  destruct (crc_head_spec s addr crc Hs) as (pre & rest & -> & ->). apply Forall_app in Hs as [H1 H2].
  destruct (crc_words_spec (length rest) rest (crc_spec crc pre)) as (mid & tail & -> & ->);
    [done|done|by apply crc_spec_range|]. apply Forall_app in H2 as [H2 H3].
  by rewrite table_bytes_spec, !crc_spec_app.
Qed.

(** ** CRC16 and the hash slots ([crc16.c], [cluster.c]) *)

Definition crc16tab : list Z :=
  [0x0000; 0x1021; 0x2042; 0x3063; 0x4084; 0x50a5; 0x60c6; 0x70e7;
   0x8108; 0x9129; 0xa14a; 0xb16b; 0xc18c; 0xd1ad; 0xe1ce; 0xf1ef;
   0x1231; 0x0210; 0x3273; 0x2252; 0x52b5; 0x4294; 0x72f7; 0x62d6;
   0x9339; 0x8318; 0xb37b; 0xa35a; 0xd3bd; 0xc39c; 0xf3ff; 0xe3de;
   0x2462; 0x3443; 0x0420; 0x1401; 0x64e6; 0x74c7; 0x44a4; 0x5485;
   0xa56a; 0xb54b; 0x8528; 0x9509; 0xe5ee; 0xf5cf; 0xc5ac; 0xd58d;
   0x3653; 0x2672; 0x1611; 0x0630; 0x76d7; 0x66f6; 0x5695; 0x46b4;
   0xb75b; 0xa77a; 0x9719; 0x8738; 0xf7df; 0xe7fe; 0xd79d; 0xc7bc;
   0x48c4; 0x58e5; 0x6886; 0x78a7; 0x0840; 0x1861; 0x2802; 0x3823;
   0xc9cc; 0xd9ed; 0xe98e; 0xf9af; 0x8948; 0x9969; 0xa90a; 0xb92b;
   0x5af5; 0x4ad4; 0x7ab7; 0x6a96; 0x1a71; 0x0a50; 0x3a33; 0x2a12;
   0xdbfd; 0xcbdc; 0xfbbf; 0xeb9e; 0x9b79; 0x8b58; 0xbb3b; 0xab1a;
   0x6ca6; 0x7c87; 0x4ce4; 0x5cc5; 0x2c22; 0x3c03; 0x0c60; 0x1c41;
   0xedae; 0xfd8f; 0xcdec; 0xddcd; 0xad2a; 0xbd0b; 0x8d68; 0x9d49;
   0x7e97; 0x6eb6; 0x5ed5; 0x4ef4; 0x3e13; 0x2e32; 0x1e51; 0x0e70;
   0xff9f; 0xefbe; 0xdfdd; 0xcffc; 0xbf1b; 0xaf3a; 0x9f59; 0x8f78;
   0x9188; 0x81a9; 0xb1ca; 0xa1eb; 0xd10c; 0xc12d; 0xf14e; 0xe16f;
   0x1080; 0x00a1; 0x30c2; 0x20e3; 0x5004; 0x4025; 0x7046; 0x6067;
   0x83b9; 0x9398; 0xa3fb; 0xb3da; 0xc33d; 0xd31c; 0xe37f; 0xf35e;
   0x02b1; 0x1290; 0x22f3; 0x32d2; 0x4235; 0x5214; 0x6277; 0x7256;
   0xb5ea; 0xa5cb; 0x95a8; 0x8589; 0xf56e; 0xe54f; 0xd52c; 0xc50d;
   0x34e2; 0x24c3; 0x14a0; 0x0481; 0x7466; 0x6447; 0x5424; 0x4405;
   0xa7db; 0xb7fa; 0x8799; 0x97b8; 0xe75f; 0xf77e; 0xc71d; 0xd73c;
   0x26d3; 0x36f2; 0x0691; 0x16b0; 0x6657; 0x7676; 0x4615; 0x5634;
   0xd94c; 0xc96d; 0xf90e; 0xe92f; 0x99c8; 0x89e9; 0xb98a; 0xa9ab;
   0x5844; 0x4865; 0x7806; 0x6827; 0x18c0; 0x08e1; 0x3882; 0x28a3;
   0xcb7d; 0xdb5c; 0xeb3f; 0xfb1e; 0x8bf9; 0x9bd8; 0xabbb; 0xbb9a;
   0x4a75; 0x5a54; 0x6a37; 0x7a16; 0x0af1; 0x1ad0; 0x2ab3; 0x3a92;
   0xfd2e; 0xed0f; 0xdd6c; 0xcd4d; 0xbdaa; 0xad8b; 0x9de8; 0x8dc9;
   0x7c26; 0x6c07; 0x5c64; 0x4c45; 0x3ca2; 0x2c83; 0x1ce0; 0x0cc1;
   0xef1f; 0xff3e; 0xcf5d; 0xdf7c; 0xaf9b; 0xbfba; 0x8fd9; 0x9ff8;
   0x6e17; 0x7e36; 0x4e55; 0x5e74; 0x2e93; 0x3eb2; 0x0ed1; 0x1ef0].

Definition crc16_byte (crc c : Z) : Z :=
  Z.lxor (uwrap 16 (Z.shiftl crc 8)) (crc16tab !!! Z.to_nat (Z.land (Z.lxor (Z.shiftr crc 8) c) 0x00FF)).

Definition crc16 (buf : bytes) : Z := fold_left crc16_byte buf 0.

(** The index of the first byte [c], or the length if there is none. *)

Fixpoint find_byte (c : Z) (s : bytes) : nat :=
  match s with
  | [] => 0
  | b :: s => if b =? c then 0 else S (find_byte c s)
  end.

Definition keyHashSlot (key : bytes) : Z :=
  let keylen := length key in
  let s := find_byte 123 key in
  if Nat.eqb s keylen then Z.land (crc16 key) 0x3FFF else
  let e := (s + 1 + find_byte 125 (drop (s + 1) key))%nat in
  if Nat.eqb e keylen || Nat.eqb e (s + 1) then Z.land (crc16 key) 0x3FFF
  else Z.land (crc16 (take (e - s - 1) (drop (s + 1) key))) 0x3FFF.

(** The division the table stands for: the standard definition of this CRC,
    polynomial [x^16 + x^12 + x^5 + 1], bits from the high end. *)

Definition crc16_shift (crc : Z) : Z :=
  Z.lxor (uwrap 16 (Z.shiftl crc 1)) (if Z.testbit crc 15 then 0x1021 else 0).

Definition crc16_ref_byte (crc c : Z) : Z := Nat.iter 8 crc16_shift (Z.lxor crc (Z.shiftl c 8)).

Definition crc16_ref (buf : bytes) : Z := fold_left crc16_ref_byte buf 0.

Lemma uwrap_lxor w x y : 0 <= w -> uwrap w (Z.lxor x y) = Z.lxor (uwrap w x) (uwrap w y).
Proof.
  intros Hw. apply Z.bits_inj'. intros i Hi. rewrite Z.lxor_spec, !uwrap_bits, Z.lxor_spec by done.
  by destruct (i <? w).
Qed.

Lemma shift16_lxor x y : crc16_shift (Z.lxor x y) = Z.lxor (crc16_shift x) (crc16_shift y).
Proof.
  unfold crc16_shift. rewrite Z.shiftl_lxor, uwrap_lxor, Z.lxor_spec by lia. apply Z.bits_inj'. intros i _.
  rewrite !Z.lxor_spec. destruct (Z.testbit x 15), (Z.testbit y 15); simpl; rewrite ?Z.bits_0;
    by destruct (Z.testbit (uwrap _ _) i), (Z.testbit (uwrap _ _) i), (Z.testbit 4129 i).
Qed.

Lemma shift16_8_lxor x y :
  Nat.iter 8 crc16_shift (Z.lxor x y) = Z.lxor (Nat.iter 8 crc16_shift x) (Nat.iter 8 crc16_shift y).
Proof. cbn [Nat.iter nat_rect]. by rewrite !shift16_lxor. Qed.

(** The 256 entries of the table, and the 256 low bytes, by evaluation. *)

Lemma crc16tab_entries n :
  0 <= n < 256 ->
  crc16tab !!! Z.to_nat n = Nat.iter 8 crc16_shift (Z.shiftl n 8) /\
  Nat.iter 8 crc16_shift n = Z.shiftl n 8.
Proof.
  intros Hn. assert (Forall (fun n => crc16tab !!! Z.to_nat n = Nat.iter 8 crc16_shift (Z.shiftl n 8) /\
    Nat.iter 8 crc16_shift n = Z.shiftl n 8) (seqZ 0 256)) as H by decide_now.
  rewrite Forall_forall in H. apply H. apply elem_of_seqZ. lia.
Qed.

Lemma crc16_byte_spec crc c :
  0 <= crc < 2 ^ 16 -> 0 <= c < 256 ->
  0 <= crc16_byte crc c < 2 ^ 16 /\ crc16_byte crc c = crc16_ref_byte crc c.
Proof.
  intros Hcrc Hc. set (h := Z.lxor (Z.shiftr crc 8) c).
  assert (0 <= h < 256) as Hh.
  { apply (lxor_range _ _ 8); [lia| |lia]. rewrite Z.shiftr_div_pow2 by lia.
    split; [apply Z.div_pos; lia|apply Z.div_lt_upper_bound; lia]. }
  assert (Z.land h 255 = h) as El.
  { change 255 with (Z.ones 8). rewrite Z.land_ones by lia. by apply Z.mod_small. }
  assert (uwrap 16 (Z.shiftl crc 8) = Z.shiftl (Z.land crc 255) 8) as Eu.
  { apply Z.bits_inj'. intros i Hi. rewrite uwrap_bits, !Z.shiftl_spec by lia.
    change 255 with (Z.ones 8). rewrite Z.land_spec. destruct (Z.ltb_spec i 16); simpl.
    - destruct (decide (i < 8)); [by rewrite !(Z.testbit_neg_r _ (i - 8)) by lia|].
      rewrite Z.ones_spec_low by lia. by rewrite andb_true_r.
    - rewrite Z.ones_spec_high by lia. by rewrite andb_false_r. }
  destruct (crc16tab_entries h Hh) as [Et _], (crc16tab_entries (Z.land crc 255) (land_255 crc)) as [_ Es].
  unfold crc16_byte. change (Z.lxor (Z.shiftr crc 8) c) with h. change 0x00FF with 255. rewrite El. split.
  - apply lxor_range; [lia|apply uwrap_range; lia|].
    assert (Forall (fun x => 0 <= x < 2 ^ 16) crc16tab) as Hf by decide_now.
    apply Forall_lookup_total_1; [done|]. change (length crc16tab) with 256%nat. lia.
  - rewrite Et, Eu. unfold crc16_ref_byte. rewrite <- Es, <- shift16_8_lxor. f_equal.
    unfold h. rewrite Z.shiftl_lxor, <- Z.lxor_assoc. f_equal. symmetry. apply split_byte.
Qed.

Lemma crc16_range buf : bytes_ok buf -> 0 <= crc16 buf < 2 ^ 16 /\ crc16 buf = crc16_ref buf.
Proof.
  intros Hb. unfold crc16, crc16_ref.
  apply (fold_left_simulation crc16_byte crc16_ref_byte id (fun x => 0 <= x < 2 ^ 16) (fun c => 0 <= c < 256));
    [|lia|done]. intros a x Ha Hx. by apply crc16_byte_spec.
Qed.

Lemma find_byte_app c s t : c ∉ s -> find_byte c (s ++ c :: t) = length s.
Proof.
  induction s as [|b s IH]; simpl; [by rewrite Z.eqb_refl|]. rewrite not_elem_of_cons. intros [Hb Hs].
  replace (b =? c) with false by lia. by rewrite IH.
Qed.

Lemma find_byte_none c s : c ∉ s -> find_byte c s = length s.
Proof.
  induction s as [|b s IH]; simpl; [done|]. rewrite not_elem_of_cons. intros [Hb Hs].
  replace (b =? c) with false by lia. by rewrite IH.
Qed.

(** ** Errors in a burst are detected *)

Lemma R_kernel x : 0 <= x < 2 ^ 64 -> R x = 0 -> x = 0.
Proof.
  intros Hx. unfold R. intros E. apply Z.lxor_eq in E.
  assert (x = 2 * Z.shiftr x 1 + Z.b2z (Z.odd x)) as Ex.
  { rewrite Z.shiftr_div_pow2, <- Z.bit0_odd, Z.bit0_mod by lia. change (2 ^ 1) with 2. apply Z.div_mod. lia. }
  destruct (Z.odd x); rewrite E in Ex; [unfold RPOLY in Ex; simpl in Ex; lia|done].
Qed.

Lemma Rn_S n x : Rn (S n) x = R (Rn n x).
Proof. reflexivity. Qed.

Lemma Rn_kernel n x : 0 <= x < 2 ^ 64 -> Rn n x = 0 -> x = 0.
Proof.
  intros Hx. induction n as [|n IH]; [done|]. rewrite Rn_S. intros E.
  apply IH. apply R_kernel; [by apply Rn_range|done].
Qed.

Lemma Rn_inj n x y : 0 <= x < 2 ^ 64 -> 0 <= y < 2 ^ 64 -> Rn n x = Rn n y -> x = y.
Proof.
  intros Hx Hy E. apply Z.lxor_eq. apply (Rn_kernel n); [by apply lxor_range|].
  rewrite Rn_lxor, E. apply Z.lxor_nilpotent.
Qed.

Lemma le_word_inj s t : bytes_ok s -> bytes_ok t -> length s = length t -> le_word s = le_word t -> s = t.
Proof.
  revert t. induction s as [|b s IH]; intros [|c t] Hs Ht Hl E; try done.
  inversion Hs as [|?? Hb Hs']; inversion Ht as [|?? Hc Ht']; subst. cbn [le_word] in E.
  rewrite !lor_byte in E by done.
  assert (b = c) as ->.
  { apply Z.bits_inj'. intros i Hi. destruct (decide (i < 8)).
    - apply (f_equal (fun z => Z.testbit z i)) in E. rewrite !Z.lxor_spec, !Z.shiftl_spec in E by done.
      rewrite !(Z.testbit_neg_r _ (i - 8)) in E by lia. by rewrite !xorb_false_r in E.
    - rewrite (bit_high b 8), (bit_high c 8); [done|lia..]. }
  f_equal. apply IH; [done|done|by injection Hl|].
  apply (f_equal (Z.lxor c)) in E. rewrite <- !Z.lxor_assoc, !Z.lxor_nilpotent, !Z.lxor_0_l in E.
  rewrite !Z.shiftl_mul_pow2 in E by lia. lia.
Qed.

Lemma crc_spec_inj s x y :
  0 <= x < 2 ^ 64 -> 0 <= y < 2 ^ 64 -> bytes_ok s -> crc_spec x s = crc_spec y s -> x = y.
Proof.
  revert x y. induction s as [|c s IH]; intros x y Hx Hy Hs; [done|].
  inversion Hs; subst. rewrite !crc_spec_cons. intros E.
  assert (forall z, 0 <= z < 2 ^ 64 -> 0 <= Z.lxor z c < 2 ^ 64) as Hr by (intros; apply lxor_range; lia).
  apply IH in E; [|apply Rn_range, Hr, Hx|apply Rn_range, Hr, Hy|done].
  apply Rn_inj in E; [|by apply Hr..].
  apply (f_equal (fun z => Z.lxor z c)) in E. by rewrite !Z.lxor_assoc, !Z.lxor_nilpotent, !Z.lxor_0_r in E.
Qed.

Lemma le_word_range8 s : bytes_ok s -> (length s <= 8)%nat -> 0 <= le_word s < 2 ^ 64.
Proof.
  intros Hs Hl. pose proof (le_word_range s Hs).
  assert (2 ^ (8 * Z.of_nat (length s)) <= 2 ^ 64) by (apply Z.pow_le_mono_r; lia). lia.
Qed.

(** Two strings that differ only in eight bytes in a row have different
    checksums. *)

Lemma crc_spec_burst crc p a b q :
  0 <= crc < 2 ^ 64 -> bytes_ok p -> bytes_ok a -> bytes_ok b -> bytes_ok q ->
  length a = length b -> (length a <= 8)%nat -> crc_spec crc (p ++ a ++ q) = crc_spec crc (p ++ b ++ q) -> a = b.
Proof.
  intros Hc Hp Ha Hb Hq Hl H8. rewrite !crc_spec_app.
  assert (0 <= crc_spec crc p < 2 ^ 64) as Hr by by apply crc_spec_range.
  intros E. apply crc_spec_inj in E; [|by apply crc_spec_range|by apply crc_spec_range|done].
  rewrite (spec_word a), (spec_word b), <- Hl in E by done.
  apply Rn_inj in E; [|apply lxor_range; [lia|done|apply le_word_range8; [done|lia]]..].
  apply (f_equal (Z.lxor (crc_spec crc p))) in E.
  rewrite <- !Z.lxor_assoc, !Z.lxor_nilpotent, !Z.lxor_0_l in E. by apply le_word_inj.
Qed.

(** ** The footer of a payload *)

Lemma le_split_word n w : 0 <= w < 2 ^ (8 * Z.of_nat n) -> bytes_ok (le_split n w) /\
  length (le_split n w) = n /\ le_word (le_split n w) = w.
Proof.
  revert w. induction n as [|n IH]; intros w Hw.
  - split; [apply Forall_nil_2|]. split; [done|]. simpl in Hw. cbn [le_split le_word]. lia.
  - cbn [le_split]. destruct (IH (Z.shiftr w 8)) as (H1 & H2 & H3).
    { rewrite Z.shiftr_div_pow2 by lia. replace (8 * Z.of_nat (S n)) with (8 + 8 * Z.of_nat n) in Hw by lia.
      rewrite Z.pow_add_r in Hw by lia. split; [apply Z.div_pos; lia|apply Z.div_lt_upper_bound; lia]. }
    split; [apply Forall_cons_2; [apply land_255|done]|]. split; [cbn [length]; by rewrite H2|].
    cbn [le_word]. rewrite H3, lor_byte by apply land_255. symmetry. apply split_byte.
Qed.

(** A payload is accepted only if its last eight bytes make the checksum zero. *)

Lemma verify_residue addr p :
  bytes_ok p -> verifyDumpPayload addr p = true -> crc_spec 0 p = 0.
Proof.
  intros Hp. unfold verifyDumpPayload. destruct (Nat.ltb_spec (length p) 10) as [|Hl]; [done|].
  match goal with |- context [if ?b then _ else _] => destruct b; [done|] end.
  rewrite bool_decide_eq_true, drop_drop. replace (length p - 10 + 2)%nat with (length p - 8)%nat by lia.
  set (n := (length p - 8)%nat). intros E.
  rewrite <- (take_drop n p) in Hp |- * at 1. apply Forall_app in Hp as [H1 H2].
  assert (0 <= crc_spec 0 (take n p) < 2 ^ 64) as Hr by (apply crc_spec_range; [lia|done]).
  rewrite crc64_spec in E by (done || lia). rewrite crc_spec_app, <- E.
  destruct (le_split_word 8 _ Hr) as (H3 & H4 & H5). rewrite spec_word, H4, H5 by done.
  rewrite Z.lxor_nilpotent. apply Rn_0.
Qed.

Lemma verify_created addr addr' body : bytes_ok body -> verifyDumpPayload addr' (createDumpPayload addr body) = true.
Proof.
  intros Hb. unfold createDumpPayload. cbv zeta.
  set (ver := [Z.land RDB_VERSION 0xff; Z.land (Z.shiftr RDB_VERSION 8) 0xff]).
  assert (bytes_ok (body ++ ver)) as Hok by (apply bytes_ok_app; [done|decide_now]).
  assert (0 <= crc_spec 0 (body ++ ver) < 2 ^ 64) as Hr by (apply crc_spec_range; [lia|done]).
  rewrite crc64_spec by (done || lia). destruct (le_split_word 8 _ Hr) as (_ & Hl & _).
  set (foot := le_split 8 (crc_spec 0 (body ++ ver))) in *.
  assert (length ((body ++ ver) ++ foot) = length body + 10)%nat as El.
  { rewrite !length_app, Hl. change (length ver) with 2%nat. lia. }
  unfold verifyDumpPayload. rewrite El. destruct (Nat.ltb_spec (length body + 10) 10); [lia|].
  replace (length body + 10 - 10)%nat with (length body) by lia.
  replace (length body + 10 - 8)%nat with (length (body ++ ver))
    by (rewrite length_app; change (length ver) with 2%nat; lia).
  rewrite take_app_length, <- app_assoc, drop_app_length. cbv zeta.
  replace (Z.lor _ _ >? RDB_VERSION) with false by reflexivity.
  rewrite bool_decide_eq_true, crc64_spec by (done || lia). reflexivity.
Qed.

(** ** Claims *)

(** C36: CRC64 with slicing-by-eight tables is the bit-by-bit CRC it is built
    from: for every buffer, wherever it starts relative to an eight-byte
    boundary, and every running checksum, the three loops give what [_crc64]
    gives (whose running checksum is bit-reversed); and a buffer may be fed in
    pieces. *)
Theorem crc64_is_reference (addr crc : Z) (s : bytes) (Hc : 0 <= crc < 2 ^ 64) (Hs : bytes_ok s) :
  crc64 addr crc s = _crc64 (crc_reflect crc 64) s /\
  forall addr' t, bytes_ok t -> crc64 addr' (crc64 addr crc s) t = crc64 addr crc (s ++ t).
Proof.
  split.
  - rewrite crc64_spec, _crc64_spec by (done || apply reflect_range). by rewrite reflect_involutive.
  - intros addr' t Ht. rewrite (crc64_spec addr crc s), (crc64_spec addr crc (s ++ t)) by (try apply bytes_ok_app; done).
    rewrite crc64_spec by (done || by apply crc_spec_range). by rewrite crc_spec_app.
Qed.

Lemma crc64_is_reference_witness : crc64 3 0 (str "123456789abcdefghij") = _crc64 0 (str "123456789abcdefghij").
Proof.
  destruct (crc64_is_reference 3 0 (str "123456789abcdefghij")) as [H _]; [lia|apply str_ok|exact H].
Defined.

(** C31: the payload of DUMP and of the merge commands is accepted as it was
    written, and rejected after any damage to at most eight bytes in a row,
    wherever they are: in the object, the version or the checksum itself. *)
Theorem dump_payload_detects (addr addr' : Z) (body : bytes) (Hb : bytes_ok body) :
  verifyDumpPayload addr' (createDumpPayload addr body) = true /\
  forall p a b q, createDumpPayload addr body = p ++ a ++ q -> length a = length b -> (length a <= 8)%nat ->
    bytes_ok b -> a <> b -> verifyDumpPayload addr' (p ++ b ++ q) = false.
Proof.
  split; [by apply verify_created|]. intros p a b q E Hl H8 Hbok Hne.
  assert (bytes_ok (createDumpPayload addr body)) as Hok.
  { unfold createDumpPayload. cbv zeta. set (ver := [Z.land RDB_VERSION 0xff; Z.land (Z.shiftr RDB_VERSION 8) 0xff]).
    assert (bytes_ok (body ++ ver)) as Hv by (apply bytes_ok_app; [done|decide_now]).
    apply bytes_ok_app; [done|]. rewrite crc64_spec by (done || lia).
    apply le_split_word. apply crc_spec_range; [lia|done]. }
  pose proof (verify_residue addr' _ Hok (verify_created addr addr' body Hb)) as Hz.
  rewrite E in Hok, Hz. apply Forall_app in Hok as [Hp [Ha Hq]%Forall_app].
  apply not_true_is_false. intros Hv. apply verify_residue in Hv; [|by repeat apply bytes_ok_app].
  apply Hne, (crc_spec_burst 0 p a b q); try done. congruence.
Qed.

Lemma dump_payload_detects_witness :
  let p := createDumpPayload 0 [0; 1; 120] in
  verifyDumpPayload 0 p = true /\ verifyDumpPayload 0 ([0] ++ [2] ++ drop 2 p) = false.
Proof.
  intros p. destruct (dump_payload_detects 0 0 [0; 1; 120]) as [H1 H2]; [decide_now|].
  split; [exact H1|]. apply (H2 [0] [1] [2] (drop 2 p)); [vm_compute; reflexivity|reflexivity|simpl; lia|decide_now|discriminate].
Defined.

(** Hash slots.  The table-driven CRC16 is the bit-by-bit division by its
    polynomial; a slot is one of the 16384; a key with a non-empty tag between
    its first brace and the first closing brace after it has the slot of the
    tag, and a key without an opening brace that of the whole key. *)
Lemma keyHashSlot_tags :
  (forall s, bytes_ok s -> crc16 s = crc16_ref s) /\
  (forall key, 0 <= keyHashSlot key < 16384) /\
  (forall pre tag post, 123 ∉ pre -> 125 ∉ tag -> tag <> [] ->
     keyHashSlot (pre ++ 123 :: tag ++ 125 :: post) = Z.land (crc16 tag) 0x3FFF) /\
  (forall key, 123 ∉ key -> keyHashSlot key = Z.land (crc16 key) 0x3FFF).
Proof.
  split; [by intros s Hs; apply crc16_range|]. split; [|split].
  - intros key. assert (forall x, 0 <= Z.land x 0x3FFF < 16384) as H.
    { intros x. change 0x3FFF with (Z.ones 14). rewrite Z.land_ones by lia. apply Z.mod_pos_bound. lia. }
    unfold keyHashSlot. destruct (Nat.eqb _ _); [apply H|]. destruct (_ || _); apply H.
  - intros pre tag post Hpre Htag Hne. unfold keyHashSlot. rewrite find_byte_app by done.
    rewrite length_app. cbn [length]. rewrite length_app. cbn [length].
    destruct (Nat.eqb_spec (length pre) (length pre + S (length tag + S (length post)))); [lia|].
    replace (drop (length pre + 1) (pre ++ 123 :: tag ++ 125 :: post)) with (tag ++ 125 :: post)
      by (rewrite drop_app_add; done).
    rewrite find_byte_app by done. assert (length tag <> 0%nat) by (by destruct tag).
    destruct (Nat.eqb_spec (length pre + 1 + length tag) (length pre + S (length tag + S (length post)))),
      (Nat.eqb_spec (length pre + 1 + length tag) (length pre + 1)); try lia. cbn [orb].
    replace (length pre + 1 + length tag - length pre - 1)%nat with (length tag) by lia.
    by rewrite take_app_length.
  - intros key Hk. unfold keyHashSlot. by rewrite find_byte_none, Nat.eqb_refl.
Qed.
