(* ===== verification/Objects.v ===== *)
(** * String objects ([src/src/object.c])

    A string value is an array of characters (raw, or embedded in the object
    when it is short) or, if it is the notation of a 64-bit integer, that
    integer.  The choice is an optimization: [string_value] is what an object
    stands for, and the functions here give the same answer for all objects
    that stand for the same string.  Reference counts and the shared small
    integers are not modelled; an object that is not shared is what
    [dbUnshareStringValue] makes before a value is changed in place. *)

From S2P Require Import Prelude Util Sds.

Definition OBJ_SHARED_INTEGERS : Z := 10000.

Definition OBJ_ENCODING_EMBSTR_SIZE_LIMIT : Z := 44.

Inductive strobj : Type :=
| ObjRaw (s : bytes)
| ObjEmb (s : bytes)
| ObjInt (n : Z).

#[global] Instance strobj_eq_dec : EqDecision strobj.
Proof. solve_decision. Defined.

Definition zlen (s : bytes) : Z := Z.of_nat (length s).

Definition createRawStringObject (s : bytes) : strobj := ObjRaw s.

Definition createEmbeddedStringObject (s : bytes) : strobj := ObjEmb s.

Definition createStringObject (s : bytes) : strobj :=
  if zlen s <=? OBJ_ENCODING_EMBSTR_SIZE_LIMIT then createEmbeddedStringObject s else createRawStringObject s.

(** The first branch takes the shared object of the small integer. *)

Definition createStringObjectFromLongLong (value : Z) : res strobj :=
  if (value >=? 0) && (value <? OBJ_SHARED_INTEGERS) then Ok (ObjInt value)
  else if (value >=? LLONG_MIN) && (value <=? LLONG_MAX) then Ok (ObjInt value)
  else s ← sdsfromlonglong value; Ok (ObjRaw s).

Definition dupStringObject (o : strobj) : strobj :=
  match o with
  | ObjRaw s => createRawStringObject s
  | ObjEmb s => createEmbeddedStringObject s
  | ObjInt n => ObjInt n
  end.

Definition isObjectRepresentableAsLongLong (o : strobj) : option Z :=
  match o with
  | ObjInt n => Some n
  | ObjRaw s | ObjEmb s => string2ll s
  end.

(** The object is not referenced by anything else here: it is an argument of the
    running command. *)

Definition tryObjectEncoding (o : strobj) : strobj :=
  match o with
  | ObjInt _ => o
  | ObjRaw s | ObjEmb s =>
      match (if zlen s <=? 20 then string2l s else None) with
      | Some value => ObjInt value
      | None => if zlen s <=? OBJ_ENCODING_EMBSTR_SIZE_LIMIT then createEmbeddedStringObject s else o
      end
  end.

(** The text of an integer in a buffer of [n] bytes. *)

Definition int_text (n : nat) (value : Z) : bytes :=
  let '(buf, len) := ll2string (replicate n 0) value in take (Z.to_nat len) buf.

Definition getDecodedObject (o : strobj) : strobj :=
  match o with
  | ObjInt n => createStringObject (cstr (fst (ll2string (replicate 32 0) n)))
  | _ => o
  end.

Definition stringObjectLen (o : strobj) : Z :=
  match o with
  | ObjInt n => sdigits10 n
  | ObjRaw s | ObjEmb s => zlen s
  end.

Definition compare_text (o : strobj) : bytes :=
  match o with
  | ObjInt n => int_text 128 n
  | ObjRaw s | ObjEmb s => s
  end.

(** [REDIS_COMPARE_BINARY]; the difference of the lengths is returned as an
    [int]. *)

Definition compareStringObjects (a b : strobj) : Z :=
  let s := compare_text a in
  let t := compare_text b in
  let minlen := Nat.min (length s) (length t) in
  let cmp := memcmp (take minlen s) (take minlen t) in
  if cmp =? 0 then to_int (zlen s - zlen t) else cmp.

Definition equalStringObjects (a b : strobj) : bool :=
  match a, b with
  | ObjInt m, ObjInt n => m =? n
  | _, _ => compareStringObjects a b =? 0
  end.

(** [None] is [C_ERR], a missing object is 0. *)

Definition getLongLongFromObject (o : option strobj) : option Z :=
  match o with
  | None => Some 0
  | Some (ObjInt n) => Some n
  | Some (ObjRaw s | ObjEmb s) => string2ll s
  end.

(** ** What an object stands for *)

Definition string_value (o : strobj) : bytes :=
  match o with
  | ObjInt n => print_Z n
  | ObjRaw s | ObjEmb s => s
  end.

Definition strobj_ok (o : strobj) : Prop :=
  match o with
  | ObjInt n => LLONG_MIN <= n <= LLONG_MAX
  | ObjEmb s => zlen s <= OBJ_ENCODING_EMBSTR_SIZE_LIMIT
  | ObjRaw _ => True
  end.

Lemma print_Z_inj m n :
  LLONG_MIN <= m <= LLONG_MAX -> LLONG_MIN <= n <= LLONG_MAX -> print_Z m = print_Z n -> m = n.
Proof. intros Hm Hn E. apply string2ll_print in Hm, Hn. congruence. Qed.

Lemma ll2string_room n value :
  (20 < n)%nat -> LLONG_MIN <= value <= LLONG_MAX ->
  exists rest, ll2string (replicate n 0) value = (print_Z value ++ 0 :: rest, zlen (print_Z value)).
Proof.
  intros Hn Hv. rewrite ll2string_spec by done. pose proof (print_Z_short value Hv).
  rewrite length_replicate. destruct (Z.leb_spec (Z.of_nat n) (Z.of_nat (length (print_Z value)))); [lia|].
  by eexists.
Qed.

Lemma int_text_value n value :
  (20 < n)%nat -> LLONG_MIN <= value <= LLONG_MAX -> int_text n value = print_Z value.
Proof.
  intros Hn Hv. unfold int_text. destruct (ll2string_room n value Hn Hv) as [rest ->].
  unfold zlen. by rewrite Nat2Z.id, take_app_length.
Qed.

Lemma createStringObject_value s : string_value (createStringObject s) = s /\ strobj_ok (createStringObject s).
Proof.
  unfold createStringObject. destruct (Z.leb_spec (zlen s) OBJ_ENCODING_EMBSTR_SIZE_LIMIT); by split.
Qed.

Lemma createStringObjectFromLongLong_ok value :
  LLONG_MIN <= value <= LLONG_MAX -> createStringObjectFromLongLong value = Ok (ObjInt value).
Proof.
  intros Hv. unfold createStringObjectFromLongLong.
  destruct ((value >=? 0) && (value <? OBJ_SHARED_INTEGERS)); [done|].
  destruct ((value >=? LLONG_MIN) && (value <=? LLONG_MAX)) eqn:E; [done|]. lia.
Qed.

Lemma tryObjectEncoding_value o :
  strobj_ok o -> string_value (tryObjectEncoding o) = string_value o /\ strobj_ok (tryObjectEncoding o).
Proof.
  intros Ho. assert (forall s, (string_value o = s) ->
    let o' := match (if zlen s <=? 20 then string2l s else None) with
              | Some value => ObjInt value
              | None => if zlen s <=? OBJ_ENCODING_EMBSTR_SIZE_LIMIT then createEmbeddedStringObject s else o
              end in string_value o' = string_value o /\ strobj_ok o') as H.
  { intros s Es. destruct (if zlen s <=? 20 then string2l s else None) as [value|] eqn:E.
    - destruct (zlen s <=? 20); [|done]. rewrite string2l_string2ll in E.
      apply string2ll_canonical in E as [-> Hv]. by rewrite Es.
    - cbv zeta. destruct (Z.leb_spec (zlen s) OBJ_ENCODING_EMBSTR_SIZE_LIMIT); [|done]. by rewrite Es. }
  destruct o as [s|s|n]; [by apply (H s)|by apply (H s)|done].
Qed.

Lemma getDecodedObject_value o :
  strobj_ok o -> string_value (getDecodedObject o) = string_value o /\ strobj_ok (getDecodedObject o) /\
    match getDecodedObject o with ObjInt _ => False | _ => True end.
Proof.
  intros Ho. destruct o as [s|s|n]; [done|done|]. cbn [getDecodedObject].
  destruct (ll2string_room 32 n) as [rest ->]; [lia|done|]. cbn [fst].
  rewrite cstr_app by apply print_Z_no_nul. destruct (createStringObject_value (print_Z n)) as [E Hok].
  split; [done|]. split; [done|]. unfold createStringObject. by destruct (_ <=? _).
Qed.

Lemma stringObjectLen_value o : strobj_ok o -> stringObjectLen o = zlen (string_value o).
Proof. destruct o; [done|done|]. apply sdigits10_print. Qed.

Lemma compare_text_value o : strobj_ok o -> compare_text o = string_value o.
Proof. destruct o; [done|done|]. apply int_text_value. lia. Qed.

Lemma getLongLongFromObject_value o :
  strobj_ok o -> getLongLongFromObject (Some o) = string2ll (string_value o).
Proof. destruct o as [s|s|n]; [done|done|]. intros Hn. cbn. by rewrite string2ll_print. Qed.

Lemma isObjectRepresentableAsLongLong_value o :
  strobj_ok o -> isObjectRepresentableAsLongLong o = string2ll (string_value o).
Proof. apply getLongLongFromObject_value. Qed.

Lemma compareStringObjects_eq a b :
  strobj_ok a -> strobj_ok b -> zlen (string_value a) < 2 ^ 31 -> zlen (string_value b) < 2 ^ 31 ->
  compareStringObjects a b = 0 <-> string_value a = string_value b.
Proof.
  intros Ha Hb La Lb. unfold compareStringObjects. rewrite !compare_text_value by done.
  set (s := string_value a) in *. set (t := string_value b) in *. unfold zlen in *.
  assert (length (take (Nat.min (length s) (length t)) s) = length (take (Nat.min (length s) (length t)) t)) as Hl
    by (rewrite !length_take; lia).
  pose proof (memcmp_eq _ _ Hl) as Hm. rewrite to_int_id by lia.
  destruct (Z.eqb_spec (memcmp (take (Nat.min (length s) (length t)) s) (take (Nat.min (length s) (length t)) t)) 0) as [E|E].
  - apply Hm in E. split; [|intros ->; lia]. intros Hd.
    rewrite !take_ge in E by lia. done.
  - split; [done|]. intros Hst. exfalso. apply E, Hm. by rewrite Hst.
Qed.

Lemma equalStringObjects_value a b :
  strobj_ok a -> strobj_ok b -> zlen (string_value a) < 2 ^ 31 -> zlen (string_value b) < 2 ^ 31 ->
  equalStringObjects a b = true <-> string_value a = string_value b.
Proof.
  intros Ha Hb La Lb. pose proof (compareStringObjects_eq a b Ha Hb La Lb) as H.
  destruct a as [s|s|m], b as [t|t|n]; cbn [equalStringObjects]; try (by rewrite Z.eqb_eq).
  rewrite Z.eqb_eq. split; [by intros ->|]. by apply print_Z_inj.
Qed.
