(* ===== verification/Glob.v ===== *)
(** * Glob-style patterns ([stringmatchlen] of [src/src/util.c])

    The matcher that KEYS, SCAN and the subscriptions to patterns use, against
    the meaning of a pattern.  The pattern and the string are in memory with a
    NUL after them. *)

From S2P Require Import Prelude.

(** The loop over a set in brackets: [c] is the character of the string.  It
    gives whether one of the elements is [c], and the pattern after the set. *)

Fixpoint class_loop (nocase : bool) (c : Z) (p : bytes) (mat : bool) : bool * bytes :=
  match p with
  | [] => (mat, [])
  | p0 :: p1 =>
      let single (p' : bytes) :=
        class_loop nocase c p'
          (mat || (if nocase then tolower (to_char p0) =? tolower (to_char c) else to_char p0 =? to_char c)) in
      if (p0 =? 92) && negb (bool_decide (p1 = [])) then
        match p1 with
        | x :: p' => class_loop nocase c p' (mat || (to_char x =? to_char c))
        | [] => (mat, [])
        end
      else if p0 =? 93 then (mat, p1)
      else match p1 with
           | d :: p2 :: p' =>
               if d =? 45 then
                 let start := to_char p0 in
                 let stop := to_char p2 in
                 let '(start, stop) := if start >? stop then (stop, start) else (start, stop) in
                 let '(start, stop, ch) :=
                   if nocase then (tolower start, tolower stop, tolower (to_char c)) else (start, stop, to_char c) in
                 class_loop nocase c p' (mat || ((ch >=? start) && (ch <=? stop)))
               else single p1
           | _ => single p1
           end
  end.

(** The [^] after the bracket. *)

Definition negated (p : bytes) : bool * bytes :=
  match p with
  | c :: q => if c =? 94 then (true, q) else (false, p)
  | [] => (false, p)
  end.

(** Is the character of the string looked at? *)

Definition class_reads (p : bytes) : bool :=
  match p with
  | c :: _ => negb (c =? 93)
  | [] => false
  end.

(** What follows the pointer into the string: [None] once it has moved past the
    NUL, and [stringLen] is negative. *)

Definition read (s : option bytes) : res Z :=
  match s with
  | Some (c :: _) => Ok c
  | Some [] => Ok 0
  | None => Undef
  end.

Definition advance (s : option bytes) : option bytes :=
  match s with
  | Some (_ :: s) => Some s
  | _ => None
  end.

Definition drop_stars : bytes -> bytes :=
  fix go p := match p with c :: q => if c =? 42 then go q else p | [] => [] end.

(** [while(stringLen)] of a star: try every suffix that is not empty.  Past the
    end, the loop goes on until the length overflows, unless the rest of the
    pattern matches without looking at the string. *)

Definition star_loop (rest : option bytes -> res bool) : option bytes -> res bool :=
  fun s => match s with
           | None => b ← rest None; if b : bool then Ok true else Undef
           | Some s => (fix go (s : bytes) : res bool :=
                          match s with
                          | [] => Ok false
                          | _ :: s' => b ← rest (Some s); if b : bool then Ok true else go s'
                          end) s
           end.

(** [fuel] bounds the length of the pattern. *)

Fixpoint match_loop (fuel : nat) (nocase : bool) (p : bytes) (s : option bytes) : res bool :=
  match fuel with
  | O => Undef
  | S fuel =>
      let continue (p : bytes) (s : option bytes) : res bool :=
        if bool_decide (s = Some []) then Ok (bool_decide (drop_stars p = [])) else match_loop fuel nocase p s in
      let literal (p0 : Z) (p : bytes) : res bool :=
        c ← read s;
        if (if nocase then tolower (to_char p0) =? tolower (to_char c) else to_char p0 =? to_char c)
        then continue p (advance s) else Ok false in
      match p with
      | [] => Ok (bool_decide (s = Some []))
      | p0 :: p' =>
          if p0 =? 42 then
            match drop_stars p' with
            | [] => Ok true
            | q => star_loop (match_loop fuel nocase q) s
            end
          else if p0 =? 63 then
            if bool_decide (s = Some []) then Ok false else continue p' (advance s)
          else if p0 =? 91 then
            let '(neg, p') := negated p' in
            c ← (if class_reads p' then read s else Ok 0);
            let '(mat, rest) := class_loop nocase c p' false in
            if xorb neg mat then continue rest (advance s) else Ok false
          else match p' with
               | p1 :: q => if p0 =? 92 then literal p1 q else literal p0 p'
               | [] => literal p0 p'
               end
      end
  end.

Definition stringmatchlen (pattern string : bytes) (nocase : bool) : res bool :=
  match_loop (S (length pattern)) nocase pattern (Some string).

(** ** The meaning of a pattern *)

Inductive element :=
| ElChar (c : Z)
| ElEscaped (c : Z)
| ElRange (a b : Z).

Inductive item :=
| Star
| One
| Literal (c : Z)
| OneOf (neg : bool) (els : list element).

Section meaning.

Context (nocase : bool).

Definition same_char (a b : Z) : bool :=
  if nocase then tolower (to_char a) =? tolower (to_char b) else to_char a =? to_char b.

Definition element_has (c : Z) (e : element) : bool :=
  match e with
  | ElChar a => same_char a c
  | ElEscaped a => to_char a =? to_char c
  | ElRange a b =>
      let low := Z.min (to_char a) (to_char b) in
      let high := Z.max (to_char a) (to_char b) in
      if nocase then (tolower low <=? tolower (to_char c)) && (tolower (to_char c) <=? tolower high)
      else (low <=? to_char c) && (to_char c <=? high)
  end.

Definition item_has (i : item) (c : Z) : bool :=
  match i with
  | Star | One => true
  | Literal a => same_char a c
  | OneOf neg els => xorb neg (existsb (element_has c) els)
  end.

(** Does the whole string match?  A star stands for any string. *)

Fixpoint denote (items : list item) : bytes -> bool :=
  match items with
  | [] => fun s => bool_decide (s = [])
  | Star :: items => fix go (s : bytes) := denote items s || match s with [] => false | _ :: s => go s end
  | i :: items => fun s => match s with [] => false | c :: s => item_has i c && denote items s end
  end.

End meaning.

(** The elements of a set, up to its bracket, and the rest. *)

Fixpoint parse_class (p : bytes) : list element * bytes :=
  match p with
  | [] => ([], [])
  | p0 :: p1 =>
      let add (e : element) (r : list element * bytes) := (e :: fst r, snd r) in
      if (p0 =? 92) && negb (bool_decide (p1 = [])) then
        match p1 with
        | x :: p' => add (ElEscaped x) (parse_class p')
        | [] => ([], [])
        end
      else if p0 =? 93 then ([], p1)
      else match p1 with
           | d :: p2 :: p' => if d =? 45 then add (ElRange p0 p2) (parse_class p') else add (ElChar p0) (parse_class p1)
           | _ => add (ElChar p0) (parse_class p1)
           end
  end.

Fixpoint parse_loop (fuel : nat) (p : bytes) : list item :=
  match fuel with
  | O => []
  | S fuel =>
      match p with
      | [] => []
      | p0 :: p' =>
          if p0 =? 42 then Star :: parse_loop fuel p'
          else if p0 =? 63 then One :: parse_loop fuel p'
          else if p0 =? 91 then
            let '(neg, q) := negated p' in
            let '(els, q) := parse_class q in OneOf neg els :: parse_loop fuel q
          else match p' with
               | p1 :: q => if p0 =? 92 then Literal p1 :: parse_loop fuel q else Literal p0 :: parse_loop fuel p'
               | [] => [Literal p0]
               end
      end
  end.

Definition parse (p : bytes) : list item := parse_loop (length p) p.

(** ** Sets *)

(** Induction along a pattern by its length. *)

Lemma pattern_ind (P : bytes -> Prop) :
  (forall p, (forall q, (length q < length p)%nat -> P q) -> P p) -> forall p, P p.
Proof.
  intros H p. remember (length p) as n eqn:E. revert p E. induction n as [n IH] using lt_wf_ind.
  intros p ->. apply H. intros q Hq. by apply (IH (length q)).
Qed.

Lemma parse_class_shorter p : (length (snd (parse_class p)) <= length p)%nat.
Proof.
  induction p as [p IH] using pattern_ind. destruct p as [|p0 p1]; [done|]. cbn [parse_class].
  assert (forall q, (length q <= length p1)%nat -> (length (snd (parse_class q)) <= length (p0 :: p1))%nat) as H.
  { intros q Hq. specialize (IH q ltac:(simpl; lia)). simpl. lia. }
  destruct ((p0 =? 92) && negb (bool_decide (p1 = []))).
  - destruct p1 as [|x p']; [simpl; lia|]. apply H. simpl. lia.
  - destruct (p0 =? 93); [simpl; lia|]. destruct p1 as [|d [|p2 p']]; [simpl; lia|apply H; simpl; lia|].
    destruct (d =? 45); apply H; simpl; lia.
Qed.

Lemma class_loop_parse nocase c p : forall mat,
  class_loop nocase c p mat = (mat || existsb (element_has nocase c) (fst (parse_class p)), snd (parse_class p)).
Proof.
  induction p as [p IH] using pattern_ind. intros mat. destruct p as [|p0 p1]; [cbn; by rewrite orb_false_r|].
  cbn [class_loop parse_class].
  destruct ((p0 =? 92) && negb (bool_decide (p1 = []))).
  { destruct p1 as [|x p']; [simpl; by rewrite orb_false_r|]. rewrite IH by (simpl; lia). cbn [fst snd existsb element_has].
    by rewrite orb_assoc. }
  destruct (p0 =? 93); [simpl; by rewrite orb_false_r|].
  assert (forall q, (length q < length (p0 :: p1))%nat ->
    class_loop nocase c q (mat || (if nocase then tolower (to_char p0) =? tolower (to_char c) else to_char p0 =? to_char c)) =
    (mat || existsb (element_has nocase c) (ElChar p0 :: fst (parse_class q)), snd (parse_class q))) as Hone.
  { intros q Hq. rewrite IH by done. cbn [existsb element_has]. by rewrite orb_assoc. }
  destruct p1 as [|d [|p2 p']]; [apply Hone; simpl; lia|apply Hone; simpl; lia|].
  destruct (d =? 45); [|apply Hone; simpl; lia].
  destruct (Z.gtb_spec (to_char p0) (to_char p2)) as [Hgt|Hle], nocase; rewrite IH by (simpl; lia);
    cbn [fst snd existsb element_has]; rewrite ?Z.min_r, ?Z.max_l, ?Z.min_l, ?Z.max_r by lia;
    rewrite orb_assoc, !Z.geb_leb; done.
Qed.

(** ** Items *)

Lemma negated_shorter p : (length (snd (negated p)) <= length p)%nat.
Proof. destruct p as [|c q]; [done|]. simpl. destruct (c =? 94); simpl; lia. Qed.

Lemma parse_loop_enough f1 f2 p : (length p <= f1)%nat -> (length p <= f2)%nat -> parse_loop f1 p = parse_loop f2 p.
Proof.
  revert f2 p. induction f1 as [|f1 IH]; intros f2 p H1 H2; [by destruct p, f2; simpl in *; try lia|].
  destruct f2 as [|f2]; [by destruct p; simpl in *; try lia|]. cbn [parse_loop].
  destruct p as [|p0 p']; [done|]. simpl in H1, H2.
  destruct (p0 =? 42); [f_equal; apply IH; lia|]. destruct (p0 =? 63); [f_equal; apply IH; lia|].
  destruct (p0 =? 91).
  - pose proof (negated_shorter p'). destruct (negated p') as [neg q]. pose proof (parse_class_shorter q).
    destruct (parse_class q) as [els r]. simpl in *. f_equal. apply IH; lia.
  - destruct p' as [|p1 q]; [done|]. simpl in H1, H2. destruct (p0 =? 92); f_equal; apply IH; simpl; lia.
Qed.

Lemma parse_loop_parse f p : (length p <= f)%nat -> parse_loop f p = parse p.
Proof. intros H. by apply parse_loop_enough. Qed.

Lemma parse_cons p0 p' :
  parse (p0 :: p') =
    if p0 =? 42 then Star :: parse p'
    else if p0 =? 63 then One :: parse p'
    else if p0 =? 91 then OneOf (fst (negated p')) (fst (parse_class (snd (negated p')))) :: parse (snd (parse_class (snd (negated p'))))
    else match p' with
         | p1 :: q => if p0 =? 92 then Literal p1 :: parse q else Literal p0 :: parse p'
         | [] => [Literal p0]
         end.
Proof.
  unfold parse at 1. cbn [length parse_loop].
  destruct (p0 =? 42); [done|]. destruct (p0 =? 63); [done|]. destruct (p0 =? 91).
  - pose proof (negated_shorter p'). destruct (negated p') as [neg q]. pose proof (parse_class_shorter q).
    cbn [fst snd] in *. destruct (parse_class q) as [els r]. cbn [fst snd] in *. f_equal. apply parse_loop_parse. lia.
  - destruct p' as [|p1 q]; [done|]. destruct (p0 =? 92); f_equal; apply parse_loop_parse; simpl; lia.
Qed.

(** An item that stands for one character. *)

Definition consumes (i : item) : bool := match i with Star => false | _ => true end.

Lemma denote_consumes nocase i items s :
  consumes i = true ->
  denote nocase (i :: items) s = match s with [] => false | c :: s => item_has nocase i c && denote nocase items s end.
Proof. by destruct i. Qed.

Lemma denote_star nocase items s :
  denote nocase (Star :: items) s = denote nocase items s || match s with [] => false | _ :: s => denote nocase (Star :: items) s end.
Proof. by destruct s. Qed.

Lemma denote_star_star nocase items s : denote nocase (Star :: Star :: items) s = denote nocase (Star :: items) s.
Proof.
  induction s as [|c s IH]; rewrite denote_star.
  - by rewrite orb_false_r.
  - rewrite IH. rewrite denote_star. by destruct (denote nocase items (c :: s)), (denote nocase (Star :: items) s).
Qed.

Lemma denote_star_only nocase s : denote nocase [Star] s = true.
Proof. induction s as [|c s IH]; rewrite denote_star; [done|]. by rewrite IH, orb_true_r. Qed.

Lemma drop_stars_shorter p : (length (drop_stars p) <= length p)%nat.
Proof. induction p as [|c p IH]; [done|]. simpl. destruct (c =? 42); simpl; lia. Qed.

(** Several stars are one. *)

Lemma denote_drop_stars nocase p s : denote nocase (Star :: parse p) s = denote nocase (Star :: parse (drop_stars p)) s.
Proof.
  induction p as [|c p IH]; [done|]. cbn [drop_stars]. destruct (c =? 42) eqn:E; [|done].
  rewrite parse_cons, E, denote_star_star. apply IH.
Qed.

Lemma drop_stars_head p : match drop_stars p with c :: _ => (c =? 42) = false | [] => True end.
Proof. induction p as [|c p IH]; [done|]. cbn [drop_stars]. by destruct (c =? 42) eqn:E. Qed.

Lemma parse_nonstar p0 p' : (p0 =? 42) = false -> exists i items, parse (p0 :: p') = i :: items /\ consumes i = true.
Proof.
  intros E. rewrite parse_cons, E. destruct (p0 =? 63); [by eexists _, _|]. destruct (p0 =? 91); [by eexists _, _|].
  destruct p' as [|p1 q]; [by eexists _, _|]. destruct (p0 =? 92); by eexists _, _.
Qed.

Lemma nonstar_empty nocase p0 p' : (p0 =? 42) = false -> denote nocase (parse (p0 :: p')) [] = false.
Proof.
  intros E. destruct (parse_nonstar p0 p' E) as (i & items & -> & Hi). by rewrite denote_consumes.
Qed.

Lemma denote_empty nocase p : denote nocase (parse p) [] = bool_decide (drop_stars p = []).
Proof.
  induction p as [|c p IH]; [done|]. cbn [drop_stars]. destruct (c =? 42) eqn:E.
  - by rewrite parse_cons, E, denote_star, orb_false_r, IH.
  - rewrite nonstar_empty by done. by rewrite bool_decide_false.
Qed.

(** ** The matcher *)

Lemma star_loop_denote nocase rest p0 p' s :
  (p0 =? 42) = false -> (forall t, t <> [] -> rest (Some t) = Ok (denote nocase (parse (p0 :: p')) t)) ->
  star_loop rest (Some s) = Ok (denote nocase (Star :: parse (p0 :: p')) s).
Proof.
  intros E Hrest. unfold star_loop. induction s as [|c s IH]; rewrite denote_star.
  - by rewrite nonstar_empty.
  - rewrite Hrest by done. cbn [mbind res_bind]. destruct (denote nocase (parse (p0 :: p')) (c :: s)); [done|]. cbn [orb].
    exact IH.
Qed.

Lemma class_item nocase p' c :
  let q := snd (negated p') in
  class_loop nocase c q false = (existsb (element_has nocase c) (fst (parse_class q)), snd (parse_class q)).
Proof. cbv zeta. by rewrite class_loop_parse. Qed.

Lemma match_loop_denote nocase fuel : forall p s,
  (length p < fuel)%nat -> s <> [] -> match_loop fuel nocase p (Some s) = Ok (denote nocase (parse p) s).
Proof.
  induction fuel as [|fuel IH]; intros p s Hf Hs; [lia|]. cbn [match_loop].
  destruct s as [|c s]; [done|]. cbn [advance read].
  set (continue := fun (p : bytes) (s : option bytes) =>
        if bool_decide (s = Some []) then Ok (bool_decide (drop_stars p = [])) else match_loop fuel nocase p s).
  assert (forall q t, (length q < fuel)%nat -> continue q (Some t) = Ok (denote nocase (parse q) t)) as Hcont.
  { intros q t Hq. unfold continue. destruct t as [|d t].
    - rewrite bool_decide_true by done. by rewrite denote_empty.
    - rewrite bool_decide_false by done. by apply IH. }
  assert (forall i p' (b : bool), consumes i = true -> (length p' < fuel)%nat -> item_has nocase i c = b ->
            (if b then continue p' (Some s) else Ok false) = Ok (denote nocase (i :: parse p') (c :: s))) as Hitem.
  { intros i p' b Hi Hp <-. rewrite denote_consumes by done. destruct (item_has nocase i c); [by apply Hcont|done]. }
  destruct p as [|p0 p']; [done|]. simpl in Hf. rewrite parse_cons.
  destruct (p0 =? 42) eqn:E42.
  { rewrite denote_drop_stars. pose proof (drop_stars_head p') as Hh. pose proof (drop_stars_shorter p').
    destruct (drop_stars p') as [|q0 q]; [by rewrite denote_star_only|].
    apply star_loop_denote; [done|]. intros t Ht. apply IH; [simpl in *; lia|done]. }
  destruct (p0 =? 63).
  { rewrite bool_decide_false by done. apply (Hitem One p' true); [done|lia|done]. }
  destruct (p0 =? 91).
  { pose proof (negated_shorter p') as Hn. pose proof (class_item nocase p') as Hcl. cbv zeta in Hcl.
    destruct (negated p') as [neg q]. cbn [fst snd] in *. pose proof (parse_class_shorter q).
    assert ((if class_reads q then Ok c else Ok 0) = Ok (if class_reads q then c else 0)) as -> by (by destruct (class_reads q)).
    cbn [mbind res_bind]. rewrite Hcl. apply Hitem; [done|lia|]. cbn [item_has]. f_equal.
    destruct q as [|q0 q]; [done|]. cbn [class_reads]. destruct (Z.eqb_spec q0 93) as [-> |]; [done|done]. }
  assert (forall a q, (length q < fuel)%nat ->
            (c ← Ok c; if (if nocase then tolower (to_char a) =? tolower (to_char c) else to_char a =? to_char c)
                       then continue q (Some s) else Ok false) = Ok (denote nocase (Literal a :: parse q) (c :: s))) as Hlit.
  { intros a q Hq. cbn [mbind res_bind]. by apply Hitem. }
  destruct p' as [|p1 q]; [apply (Hlit p0 []); simpl; lia|].
  destruct (p0 =? 92); apply Hlit; simpl in *; lia.
Qed.

(** The one way to get past the end of the string: it is empty, and the first
    item is a character or a set that has the NUL. *)

Definition nul_first (nocase : bool) (p : bytes) : bool :=
  match parse p with
  | (Literal _ | OneOf _ _) as i :: _ => item_has nocase i 0
  | _ => false
  end.

Lemma match_empty nocase p :
  nul_first nocase p = false -> stringmatchlen p [] nocase = Ok (denote nocase (parse p) []).
Proof.
  unfold nul_first, stringmatchlen. cbn [match_loop read advance]. rewrite denote_empty.
  destruct p as [|p0 p']; [done|]. rewrite parse_cons. cbn [drop_stars]. destruct (p0 =? 42).
  { intros _. destruct (drop_stars p') as [|q0 q]; [done|]. by rewrite bool_decide_false. }
  destruct (p0 =? 63); [by rewrite (bool_decide_false (_ :: _ = []))|].
  destruct (p0 =? 91).
  { pose proof (class_item nocase p') as Hcl. cbv zeta in Hcl. destruct (negated p') as [neg q]. cbn [fst snd] in *.
    intros Hn. assert ((if class_reads q then Ok 0 else Ok 0) = Ok 0) as -> by (by destruct (class_reads q)).
    cbn [mbind res_bind]. rewrite Hcl. cbn [item_has] in Hn. rewrite Hn. by rewrite bool_decide_false. }
  rewrite (bool_decide_false (_ :: _ = [])) by done.
  destruct p' as [|p1 q].
  - cbn [mbind res_bind item_has]. unfold same_char. by intros ->.
  - destruct (p0 =? 92); cbn [mbind res_bind item_has]; unfold same_char; by intros ->.
Qed.

Lemma stringmatchlen_spec (pattern string : bytes) (nocase : bool)
    (Hnul : string <> [] \/ nul_first nocase pattern = false) :
  stringmatchlen pattern string nocase = Ok (denote nocase (parse pattern) string).
Proof.
  destruct string as [|c s]; [destruct Hnul; [done|by apply match_empty]|]. apply match_loop_denote; [lia|done].
Qed.

(** ** Claims *)

(** C30: the matcher decides the meaning of the pattern.  For every pattern and
    every string, with or without regard to case, [stringmatchlen] ends, reads
    nothing outside the two strings, and tells whether the string is in the
    language of the pattern: [*] for any string, [?] for any character, a set in
    brackets for its elements and ranges or for all others, a backslash for the
    character after it.  The exception is an empty string against a pattern that
    begins with a NUL, or with a set that contains it. *)
Theorem stringmatchlen_decides (pattern string : bytes) (nocase : bool)
    (Hnul : string <> [] \/ nul_first nocase pattern = false) :
  stringmatchlen pattern string nocase = Ok (denote nocase (parse pattern) string).
Proof. by apply stringmatchlen_spec. Qed.

Lemma stringmatchlen_decides_witness :
  stringmatchlen (str "h[^a-c]*o?\*") (str "hello!*") false = Ok true /\
  denote false (parse (str "h[^a-c]*o?\*")) (str "hello!*") = true.
Proof.
  assert (denote false (parse (str "h[^a-c]*o?\*")) (str "hello!*") = true) as E by (vm_compute; reflexivity).
  split; [|exact E]. rewrite <- E. apply stringmatchlen_decides. by left.
Defined.

(** On the empty string [[^a]] takes the NUL for a character, and the length
    becomes -1: the star that follows reads on behind the string. *)

Lemma stringmatchlen_past_end : stringmatchlen (str "[^a]*b") [] false = Undef.
Proof. reflexivity. Qed.
