(* ===== verification/Keyspace.v ===== *)
(** * The keyspace of a database ([src/src/db.c], [src/src/ctrip_crdt_common.c])

    The dictionary of the values, that of the expire times and that of the
    tombstones; lookups, additions, deletions, expire times, and the expiry of
    a key on access.  The CRDT objects and their methods live in a module that
    is loaded into the server: they are a parameter ([CrdtModule]). *)

From S2P Require Import Prelude Util Sds VectorClock VcTheory VcText VcClaims Proxy CrdtServer Gc Objects.

(** ** Values *)

Record moduleType := MkModuleType { mt_name : bytes; mt_id : Z }.

#[global] Instance moduleType_eq_dec : EqDecision moduleType.
Proof. solve_decision. Defined.

(** A value is one of a module, a string, or one of another of Redis' own
    types. *)

Inductive dbval (object : Type) : Type :=
| ModuleValue (mtype : moduleType) (value : object)
| StringValue (o : strobj)
| OtherValue (otype : Z).

Arguments ModuleValue {object} _ _.
Arguments StringValue {object} _.
Arguments OtherValue {object} _.

Definition isModuleCrdt {object : Type} (obj : dbval object) : bool :=
  match obj with
  | ModuleValue mtype _ => has_prefix (str "crdt") (mt_name mtype)
  | _ => false
  end.

Definition retrieveObject {object : Type} (obj : dbval object) : option object :=
  match obj with
  | ModuleValue mtype value => if isModuleCrdt obj then Some value else None
  | _ => None
  end.

Record redisDb (object : Type) := MkDb {
  dict : gmap bytes (dbval object);
  expires : gmap bytes Z;
  deleted_keys : gmap bytes (dbval object)
}.

Arguments MkDb {object} _ _ _.
Arguments dict {object} _.
Arguments expires {object} _.
Arguments deleted_keys {object} _.

Definition set_dict {object : Type} (v : gmap bytes (dbval object)) (db : redisDb object) : redisDb object :=
  MkDb v (expires db) (deleted_keys db).

Definition set_expires {object : Type} (v : gmap bytes Z) (db : redisDb object) : redisDb object :=
  MkDb (dict db) v (deleted_keys db).

Definition set_deleted_keys {object : Type} (v : gmap bytes (dbval object)) (db : redisDb object) : redisDb object :=
  MkDb (dict db) (expires db) v.

(** ** What the module gives

    The result of splitting an object for a peer: nothing to send, an object
    that is too big, or the pieces to send. *)

Inductive filter_result (object : Type) : Type :=
| FilterNone
| FilterTooBig
| FilterPieces (pieces : list object).

Arguments FilterNone {object}.
Arguments FilterTooBig {object}.
Arguments FilterPieces {object} _.

Inductive purge_result := PURGE_VAL | PURGE_TOMBSTONE | PURGE_NONE.

Record CrdtObjectMethod (object : Type) := MkObjectMethod {
  om_merge : option object -> object -> object;
  om_filterAndSplit2 : object -> Z -> VectorClock -> Z -> filter_result object
}.

Arguments om_merge {object} _ _ _.
Arguments om_filterAndSplit2 {object} _ _ _ _ _.

Record CrdtTombstoneMethod (object : Type) := MkTombstoneMethod {
  tm_merge : object -> object -> object;
  tm_filterAndSplit2 : object -> Z -> VectorClock -> Z -> filter_result object;
  tm_gc : object -> VectorClock -> bool;
  tm_purge : object -> object -> purge_result;
  tm_getVc : object -> VectorClock
}.

Arguments tm_merge {object} _ _ _.
Arguments tm_filterAndSplit2 {object} _ _ _ _ _.
Arguments tm_gc {object} _ _ _.
Arguments tm_purge {object} _ _ _.
Arguments tm_getVc {object} _ _.

(** [dm_propagateDel] turns the expiry of a key into a deletion of its own: it
    writes a tombstone. *)

Record CrdtDataMethod (object : Type) := MkDataMethod {
  dm_getLastGid : option (object -> Z);
  dm_propagateDel : bytes -> object -> Z -> gmap bytes (dbval object) -> gmap bytes (dbval object)
}.

Arguments dm_getLastGid {object} _.
Arguments dm_propagateDel {object} _ _ _ _ _.

(** A method that is [None] is a NULL pointer. *)

Class CrdtModule (object : Type) := {
  obj_type : object -> Z;
  isData : object -> bool;
  isTombstone : object -> bool;
  getDataType : object -> Z;
  getCrdtDataMethod : object -> option (CrdtDataMethod object);
  getCrdtObjectMethod : object -> option (CrdtObjectMethod object);
  getCrdtTombstoneMethod : object -> option (CrdtTombstoneMethod object);
  rdbSaveObject : dbval object -> bytes;
  rdbLoadObject : bytes -> option (dbval object)
}.

(** The collection of tombstones ([Gc]) asks for the [gc] method. *)

#[global] Instance keyspace_tombstones {object : Type} `{CrdtModule object} : TombstoneModule (dbval object) object := {|
  retrieveCrdtObject := retrieveObject;
  gc_method t := match t with
                 | None => None
                 | Some t => match getCrdtTombstoneMethod t with
                             | None => None
                             | Some m => Some (fun u clock => match u with
                                                              | Some u => tm_gc m u clock
                                                              | None => false
                                                              end)
                             end
                 end
|}.

Section keyspace.

Context {object : Type} `{CrdtModule object}.

Implicit Types (db : redisDb object) (key : bytes) (val : dbval object).

(** ** Operations *)

(** The access time that [lookupKey] updates is not modelled. *)

Definition lookupKey db key : option (dbval object) := dict db !! key.

Definition dbAdd db key val : res (redisDb object) :=
  _ ← c_assert (bool_decide (dict db !! key = None));
  Ok (set_dict (<[key := val]> (dict db)) db).

Definition dbOverwrite db key val : res (redisDb object) :=
  _ ← c_assert (bool_decide (is_Some (dict db !! key)));
  Ok (set_dict (<[key := val]> (dict db)) db).

Definition dbExists db key : bool := bool_decide (is_Some (dict db !! key)).

(** [dbDelete] is this function or [dbAsyncDelete], which leaves the same
    dictionaries. *)

Definition dbSyncDelete db key : bool * redisDb object :=
  let db := set_expires (delete key (expires db)) db in
  match dict db !! key with
  | Some _ => (true, set_dict (delete key (dict db)) db)
  | None => (false, db)
  end.

Definition dbDelete db key : redisDb object := snd (dbSyncDelete db key).

Definition removeExpire db key : res (bool * redisDb object) :=
  _ ← c_assert (bool_decide (is_Some (dict db !! key)));
  Ok (bool_decide (is_Some (expires db !! key)), set_expires (delete key (expires db)) db).

Definition setExpire db key (when : Z) : res (redisDb object) :=
  _ ← c_assert (bool_decide (is_Some (dict db !! key)));
  Ok (set_expires (<[key := when]> (expires db)) db).

Definition getExpire db key : res Z :=
  match expires db !! key with
  | None => Ok (-1)
  | Some when =>
      _ ← c_assert (bool_decide (is_Some (dict db !! key)));
      Ok when
  end.

Definition emptyDb_one db : redisDb object := MkDb ∅ ∅ ∅.

(** The number of keys removed and the databases; [dbnum] -1 stands for all of
    them. *)

Definition emptyDb (dbnum : Z) (dbs : list (redisDb object)) : Z * list (redisDb object) :=
  if (dbnum <? -1) || (dbnum >=? Z.of_nat (length dbs)) then (-1, dbs) else
  let chosen (j : nat) := (dbnum =? -1) || (dbnum =? Z.of_nat j) in
  (Z.of_nat (sum_list (imap (fun j db => if chosen j then size (dict db) else 0%nat) dbs)),
   imap (fun j db => if chosen j then emptyDb_one db else db) dbs).

(** ** Expiry *)

(** The bytes of the key are [char]s; the result of [%] on a negative sum is
    negative, and [get_clock_unit_by_index] then reads before the units. *)

Definition modGidByKey (clock : VectorClock) key : res Z :=
  let key_len := length key in
  let len := get_len clock in
  a ← need (key !! 0%nat);
  b ← need (key !! Nat.div key_len 2);
  c ← need (key !! (key_len - 1)%nat);
  if len =? 0 then Undef else
  let index := Z.rem (to_char a + to_char b + to_char c) len in
  i ← need (get_clock_unit_by_index clock index);
  if i <? 0 then Undef else
  u ← need (clock !! Z.to_nat i);
  Ok (get_gid u).

(** The client that runs a command: none, the link of a peer, or another. *)

Inductive running := NoClient | PeerClient | OtherClient.

#[global] Instance running_eq_dec : EqDecision running.
Proof. solve_decision. Defined.

Definition isNeedDelayExpire (current : running) (method : CrdtDataMethod object) (s : crdtServer) key
    (obj : object) : res bool :=
  match current with
  | NoClient =>
      match dm_getLastGid method with
      | Some last => Ok (negb (last obj =? crdt_gid s))
      | None => g ← modGidByKey (vectorClock s) key; Ok (negb (g =? crdt_gid s))
      end
  | PeerClient => Abort
  | OtherClient => Ok false
  end.

(** The propagation of the expiry: [None] if the key is not to expire now.
    [feed_del] feeds the deletion of a plain key to the slaves; [delay] is
    [non_last_write_delay_expire_time], [mk_ok] whether the module gives a
    handle for the key. *)

Definition crdtPropagateExpire (current : running) (s : crdtServer) (now delay : Z) (mk_ok : bool) db key
    (expireTime : Z) : res (option (redisDb object)) :=
  match current with
  | PeerClient => Ok None
  | _ =>
      match dict db !! key with
      | None => Ok None
      | Some val =>
          if isModuleCrdt val then
            obj ← need (retrieveObject val);
            if negb mk_ok then Ok None else
            method ← need (getCrdtDataMethod obj);
            wait ← isNeedDelayExpire current method s key obj;
            if wait && (expireTime + delay - now >? 0) then Ok None
            else Ok (Some (set_deleted_keys (dm_propagateDel method key obj expireTime (deleted_keys db)) db))
          else Ok (Some db)
      end
  end.

(** [now] is the time of the call, or of the start of the script if one runs: a
    script runs for a client, and then the delay is not looked at.  The clock that
    [crdtPropagateExpire] reads again in the same call is taken to show the same
    millisecond. *)

Definition expireIfNeeded (current : running) (loading is_master : bool) (s : crdtServer) (now delay : Z)
    (mk_ok : bool) db key : res (bool * redisDb object) :=
  when ← getExpire db key;
  if when <? 0 then Ok (false, db) else
  if loading then Ok (false, db) else
  if negb is_master then Ok (now >? when, db) else
  if now <=? when then Ok (false, db) else
  o ← crdtPropagateExpire current s now delay mk_ok db key when;
  match o with
  | None => Ok (false, db)
  | Some db => Ok (dbSyncDelete db key)
  end.

Definition lookupKeyWrite (current : running) (loading is_master : bool) (s : crdtServer) (now delay : Z)
    (mk_ok : bool) db key : res (option (dbval object) * redisDb object) :=
  '(_, db) ← expireIfNeeded current loading is_master s now delay mk_ok db key;
  Ok (lookupKey db key, db).

(** [ro]: the command is read-only and its client is not the master. *)

Definition lookupKeyRead (ro : bool) (current : running) (loading is_master : bool) (s : crdtServer)
    (now delay : Z) (mk_ok : bool) db key : res (option (dbval object) * redisDb object) :=
  '(expired, db) ← expireIfNeeded current loading is_master s now delay mk_ok db key;
  if (expired : bool) && (is_master || ro) then Ok (None, db) else Ok (lookupKey db key, db).

Definition setKey (current : running) (loading is_master : bool) (s : crdtServer) (now delay : Z)
    (mk_ok : bool) db key val : res (redisDb object) :=
  '(o, db) ← lookupKeyWrite current loading is_master s now delay mk_ok db key;
  db ← match o with
       | None => dbAdd db key val
       | Some _ => dbOverwrite db key val
       end;
  '(_, db) ← removeExpire db key;
  Ok db.

(** ** The invariant: only keys that exist have an expire time *)

Definition db_ok db : Prop := dom (expires db) ⊆ dom (dict db).

Lemma getExpire_ok db key : db_ok db -> getExpire db key = Ok (default (-1) (expires db !! key)).
Proof.
  intros Hok. unfold getExpire. destruct (expires db !! key) as [when|] eqn:E; [|done].
  assert (is_Some (dict db !! key)) as Hs.
  { apply elem_of_dom, Hok, elem_of_dom. by rewrite E. }
  by rewrite bool_decide_true.
Qed.

Lemma dbDelete_ok db key : db_ok db -> db_ok (dbDelete db key) /\
  dict (dbDelete db key) = delete key (dict db) /\ expires (dbDelete db key) = delete key (expires db) /\
  deleted_keys (dbDelete db key) = deleted_keys db.
Proof.
  intros Hok. unfold dbDelete, dbSyncDelete. simpl. destruct (dict db !! key) eqn:E; simpl.
  - split; [|done]. unfold db_ok in *. simpl. set_solver.
  - split; [|by rewrite delete_id]. unfold db_ok in *. simpl. set_solver.
Qed.

Lemma dbAdd_ok db key val :
  db_ok db -> dict db !! key = None ->
  dbAdd db key val = Ok (set_dict (<[key := val]> (dict db)) db) /\ db_ok (set_dict (<[key := val]> (dict db)) db).
Proof.
  intros Hok Hn. unfold dbAdd. rewrite bool_decide_true by done. split; [done|].
  unfold db_ok in *. simpl. set_solver.
Qed.

Lemma setExpire_ok db key when :
  db_ok db -> is_Some (dict db !! key) ->
  setExpire db key when = Ok (set_expires (<[key := when]> (expires db)) db) /\
  db_ok (set_expires (<[key := when]> (expires db)) db).
Proof.
  intros Hok Hs. unfold setExpire. rewrite bool_decide_true by done. split; [done|].
  unfold db_ok in *. simpl. apply elem_of_dom in Hs. set_solver.
Qed.

(** While the command of a peer runs, and on a slave, no key expires. *)

Lemma expireIfNeeded_noop current loading is_master s now delay mk_ok db key :
  db_ok db -> current = PeerClient \/ is_master = false ->
  exists b, expireIfNeeded current loading is_master s now delay mk_ok db key = Ok (b, db).
Proof.
  intros Hok Hc. unfold expireIfNeeded. rewrite getExpire_ok by done. cbn [mbind res_bind].
  destruct (_ <? 0); [by eexists|]. destruct loading; [by eexists|].
  destruct is_master; [|by eexists]. destruct Hc as [-> |]; [|done]. simpl.
  destruct (_ <=? _); by eexists.
Qed.

Lemma lookupKeyWrite_noop current loading is_master s now delay mk_ok db key :
  db_ok db -> current = PeerClient \/ is_master = false ->
  lookupKeyWrite current loading is_master s now delay mk_ok db key = Ok (dict db !! key, db).
Proof.
  intros Hok Hc. unfold lookupKeyWrite.
  destruct (expireIfNeeded_noop current loading is_master s now delay mk_ok db key Hok Hc) as [b ->]. done.
Qed.

(** ** The rule of expiry

    [due]: the time of the key has passed.  [blocked]: a CRDT value is kept for
    now, because the module gives no handle for it, or because nobody asks for
    it, its last writer is another group, and that group's delay has not
    passed. *)

Definition due (loading : bool) (now : Z) db key : bool :=
  match expires db !! key with
  | Some when => (0 <=? when) && negb loading && (when <? now)
  | None => false
  end.

Definition blocked (current : running) (s : crdtServer) (now delay : Z) (mk_ok : bool) db key : bool :=
  match dict db !! key, expires db !! key with
  | Some val, Some when =>
      match retrieveObject val with
      | None => false
      | Some obj =>
          negb mk_ok ||
          (bool_decide (current = NoClient) && (now <? when + delay) &&
           match getCrdtDataMethod obj with
           | Some m => match dm_getLastGid m with
                       | Some last => negb (last obj =? crdt_gid s)
                       | None => false
                       end
           | None => false
           end)
      end
  | _, _ => false
  end.

(** Every CRDT value of the key has the methods, and tells its last writer. *)

Definition methods_ok db key : Prop :=
  forall val obj, dict db !! key = Some val -> retrieveObject val = Some obj ->
  exists m last, getCrdtDataMethod obj = Some m /\ dm_getLastGid m = Some last.

Lemma retrieve_crdt (val : dbval object) :
  retrieveObject val = None <-> isModuleCrdt val = false.
Proof. destruct val as [mt v| |]; [|done|done]. cbn [retrieveObject]. by destruct (isModuleCrdt (ModuleValue mt v)). Qed.

Lemma propagate_spec current s now delay mk_ok db key when :
  methods_ok db key -> expires db !! key = Some when -> is_Some (dict db !! key) -> current <> PeerClient ->
  exists o, crdtPropagateExpire current s now delay mk_ok db key when = Ok o /\
    if blocked current s now delay mk_ok db key then o = None
    else exists del, o = Some (set_deleted_keys del db).
Proof.
  intros Hm Ew [val Ev] Hc. unfold crdtPropagateExpire, blocked. rewrite Ew, Ev.
  destruct (retrieveObject val) as [obj|] eqn:Er.
  - assert (isModuleCrdt val = true) as ->.
    { destruct (isModuleCrdt val) eqn:E; [done|]. apply retrieve_crdt in E. congruence. }
    destruct (Hm val obj Ev Er) as (m & last & Em & El). cbn [need mbind res_bind]. rewrite Em, El.
    destruct current; [| done |]; destruct mk_ok; cbn [negb orb need mbind res_bind]; try (by eexists).
    + unfold isNeedDelayExpire. rewrite El. cbn [mbind res_bind].
      rewrite bool_decide_true by done. cbn [andb].
      destruct (Z.ltb_spec now (when + delay)), (Z.gtb_spec (when + delay - now) 0); try lia; cbn [andb];
        destruct (negb (last obj =? crdt_gid s)); cbn [andb]; by repeat eexists.
    + rewrite bool_decide_false by done. cbn. by repeat eexists.
  - assert (isModuleCrdt val = false) as -> by by apply retrieve_crdt.
    destruct current; [|done|]; exists (Some db); (split; [done|]); exists (deleted_keys db); by destruct db.
Qed.

End keyspace.

Lemma expireIfNeeded_spec {object : Type} `{CrdtModule object} (current : running)
    (loading is_master : bool) (s : crdtServer) (now delay : Z) (mk_ok : bool) (db : redisDb object) (key : bytes)
    (Hok : db_ok db) (Hm : methods_ok db key) :
  exists b db', expireIfNeeded current loading is_master s now delay mk_ok db key = Ok (b, db') /\ db_ok db' /\
    (forall k, k <> key -> dict db' !! k = dict db !! k /\ expires db' !! k = expires db !! k) /\
    if due loading now db key && is_master && negb (bool_decide (current = PeerClient)) &&
       negb (blocked current s now delay mk_ok db key)
    then b = true /\ dict db' !! key = None /\ expires db' !! key = None
    else b = due loading now db key && negb is_master /\ db' = db.
Proof.
  unfold expireIfNeeded. rewrite getExpire_ok by done. cbn [mbind res_bind]. unfold due.
  destruct (expires db !! key) as [when|] eqn:Ew; simpl; [|by exists false, db].
  destruct (Z.ltb_spec when 0), (Z.leb_spec 0 when); try lia; simpl; [by exists false, db|].
  destruct loading; simpl; [by exists false, db|].
  destruct is_master; simpl.
  2:{ exists (when <? now), db. rewrite Z.gtb_ltb, andb_false_r, andb_true_r. by repeat split. }
  rewrite andb_true_r, andb_false_r.
  destruct (Z.leb_spec now when), (Z.ltb_spec when now); try lia; simpl; [by exists false, db|].
  assert (is_Some (dict db !! key)) as Hs by (apply elem_of_dom, Hok, elem_of_dom; by rewrite Ew).
  destruct (decide (current = PeerClient)) as [-> |Hc]; simpl; [by exists false, db|].
  rewrite bool_decide_false by done. simpl.
  destruct (propagate_spec current s now delay mk_ok db key when Hm Ew Hs Hc) as (o & -> & Ho).
  cbn [mbind res_bind]. destruct (blocked _ _ _ _ _ _ _); simpl; [subst o; by exists false, db|].
  destruct Ho as [del ->]. destruct Hs as [val Ev]. unfold dbSyncDelete. simpl. rewrite Ev.
  eexists _, _. split; [reflexivity|]. split; [|split].
  - unfold db_ok in *. simpl. set_solver.
  - intros k Hk. simpl. by rewrite !lookup_delete_ne.
  - simpl. by rewrite !lookup_delete_eq.
Qed.

(** ** Claims *)

(** C34: expiry on access.  On a well-formed database it always completes, keeps
    the database well-formed, and touches no other key.  The key goes, with its
    expire time, exactly if its time has passed, this server is a master that is
    not loading, the command that looks it up is not one of a peer, and it is
    not to be kept for its last writer; otherwise nothing changes, and a slave
    only reports that the time has passed. *)
Theorem expireIfNeeded_decides {object : Type} `{CrdtModule object} (current : running)
    (loading is_master : bool) (s : crdtServer) (now delay : Z) (mk_ok : bool) (db : redisDb object) (key : bytes)
    (Hok : db_ok db) (Hm : methods_ok db key) :
  exists b db', expireIfNeeded current loading is_master s now delay mk_ok db key = Ok (b, db') /\ db_ok db' /\
    (forall k, k <> key -> dict db' !! k = dict db !! k /\ expires db' !! k = expires db !! k) /\
    if due loading now db key && is_master && negb (bool_decide (current = PeerClient)) &&
       negb (blocked current s now delay mk_ok db key)
    then b = true /\ dict db' !! key = None /\ expires db' !! key = None
    else b = due loading now db key && negb is_master /\ db' = db.
Proof. by apply expireIfNeeded_spec. Qed.

(** A module with plain numbers as objects, for the examples: the merge is the
    maximum, the last writer is group 2. *)

Definition number_module : CrdtModule Z := {|
  obj_type _ := 0;
  isData _ := true;
  isTombstone _ := true;
  getDataType _ := 0;
  getCrdtDataMethod _ := Some (MkDataMethod Z (Some (fun _ => 2)) (fun key o t d => <[key := ModuleValue (MkModuleType (str "crdt") 0) o]> d));
  getCrdtObjectMethod _ := Some (MkObjectMethod Z (fun a b => match a with Some a => Z.max a b | None => b end)
    (fun o _ _ _ => FilterPieces [o]));
  getCrdtTombstoneMethod _ := Some (MkTombstoneMethod Z Z.max (fun o _ _ _ => FilterPieces [o]) (fun _ _ => false)
    (fun t v => if t <? v then PURGE_TOMBSTONE else PURGE_VAL) (fun t => [Clk 2 t]));
  rdbSaveObject v := match v with ModuleValue _ z => [7; Z.land z 255] | _ => [0; 0] end;
  rdbLoadObject b := match b with
                     | 7 :: z :: _ => Some (ModuleValue (MkModuleType (str "crdt") 0) z)
                     | 0 :: _ => Some (OtherValue 0)
                     | _ => None
                     end
|}.

Definition number (z : Z) : dbval Z := ModuleValue (MkModuleType (str "crdt") 0) z.

Definition example_db : redisDb Z :=
  MkDb {[ str "a" := number 5; str "b" := number 6 ]} {[ str "a" := 1000 ]} ∅.

Lemma example_db_ok : db_ok example_db.
Proof. unfold db_ok. decide_now. Qed.

Lemma expireIfNeeded_decides_witness :
  exists b db', @expireIfNeeded Z number_module OtherClient false true example_server 2000 0 true example_db (str "a") =
    Ok (b, db') /\ b = true /\ dict db' !! str "a" = None /\ expires db' !! str "a" = None.
Proof.
  destruct (@expireIfNeeded_decides Z number_module OtherClient false true example_server 2000 0 true example_db
              (str "a") example_db_ok) as (b & db' & H1 & _ & _ & H2).
  - intros val obj _ _. by eexists _, _.
  - exists b, db'. split; [exact H1|]. exact H2.
Defined.

(** A key whose bytes are above 127 makes the sum negative: the index is then
    negative too, and what precedes the units is read. *)

Lemma modGidByKey_negative :
  modGidByKey [Clk 1 10; Clk 2 20] [255; 255; 255] = Undef /\ modGidByKey [Clk 1 10; Clk 2 20] [] = Undef.
Proof. split; reflexivity. Qed.
