(* ===== verification/Backlog.v ===== *)
(** * The replication backlog ([src/src/replication.c])

    The replication part of [struct redisServer], which the program has twice
    ([server] for its own slaves, [crdtServer] for the peers), the slave
    clients it feeds, and the circular backlog buffer.  Offsets are long long in
    the code and count the bytes of a stream, which do not reach 2^63; they are not
    wrapped here. *)

From S2P Require Import Prelude Util Sds VectorClock VcTheory VcText VcClaims.

(** ** State *)

(** A slave client: [sl_wire] is what was written directly to its socket,
    [sl_output] what is queued in its output buffer; [sl_flag_slave],
    [sl_flag_crdt_slave] and [sl_flag_pre_psync] are the flags [CLIENT_SLAVE],
    [CLIENT_CRDT_SLAVE] and [CLIENT_PRE_PSYNC]; [sl_close_asap] is set by
    [freeClientAsync]. *)

Record slave := MkSlave {
  sl_id : Z;
  sl_flag_slave : bool;
  sl_flag_crdt_slave : bool;
  sl_flag_pre_psync : bool;
  sl_close_after_reply : bool;
  sl_close_asap : bool;
  sl_capa : Z;
  sl_replstate : Z;
  sl_wire : bytes;
  sl_output : bytes;
  sl_repl_ack_off : Z;
  sl_repl_ack_time : Z;
  sl_put_online_on_ack : bool;
  sl_psync_initial_offset : Z;
  sl_vectorClock : VectorClock;
  sl_filterVectorClock : VectorClock;
  sl_listening_port : Z;
  sl_ip : bytes;
  sl_lastinteraction : Z
}.

Definition set_sl_id (v : Z) (c : slave) : slave :=
  MkSlave v (sl_flag_slave c) (sl_flag_crdt_slave c) (sl_flag_pre_psync c) (sl_close_after_reply c) (sl_close_asap c) (sl_capa c) (sl_replstate c) (sl_wire c) (sl_output c) (sl_repl_ack_off c) (sl_repl_ack_time c) (sl_put_online_on_ack c) (sl_psync_initial_offset c) (sl_vectorClock c) (sl_filterVectorClock c) (sl_listening_port c) (sl_ip c) (sl_lastinteraction c).

Definition set_sl_flag_slave (v : bool) (c : slave) : slave :=
  MkSlave (sl_id c) v (sl_flag_crdt_slave c) (sl_flag_pre_psync c) (sl_close_after_reply c) (sl_close_asap c) (sl_capa c) (sl_replstate c) (sl_wire c) (sl_output c) (sl_repl_ack_off c) (sl_repl_ack_time c) (sl_put_online_on_ack c) (sl_psync_initial_offset c) (sl_vectorClock c) (sl_filterVectorClock c) (sl_listening_port c) (sl_ip c) (sl_lastinteraction c).

Definition set_sl_flag_crdt_slave (v : bool) (c : slave) : slave :=
  MkSlave (sl_id c) (sl_flag_slave c) v (sl_flag_pre_psync c) (sl_close_after_reply c) (sl_close_asap c) (sl_capa c) (sl_replstate c) (sl_wire c) (sl_output c) (sl_repl_ack_off c) (sl_repl_ack_time c) (sl_put_online_on_ack c) (sl_psync_initial_offset c) (sl_vectorClock c) (sl_filterVectorClock c) (sl_listening_port c) (sl_ip c) (sl_lastinteraction c).

Definition set_sl_flag_pre_psync (v : bool) (c : slave) : slave :=
  MkSlave (sl_id c) (sl_flag_slave c) (sl_flag_crdt_slave c) v (sl_close_after_reply c) (sl_close_asap c) (sl_capa c) (sl_replstate c) (sl_wire c) (sl_output c) (sl_repl_ack_off c) (sl_repl_ack_time c) (sl_put_online_on_ack c) (sl_psync_initial_offset c) (sl_vectorClock c) (sl_filterVectorClock c) (sl_listening_port c) (sl_ip c) (sl_lastinteraction c).

Definition set_sl_close_after_reply (v : bool) (c : slave) : slave :=
  MkSlave (sl_id c) (sl_flag_slave c) (sl_flag_crdt_slave c) (sl_flag_pre_psync c) v (sl_close_asap c) (sl_capa c) (sl_replstate c) (sl_wire c) (sl_output c) (sl_repl_ack_off c) (sl_repl_ack_time c) (sl_put_online_on_ack c) (sl_psync_initial_offset c) (sl_vectorClock c) (sl_filterVectorClock c) (sl_listening_port c) (sl_ip c) (sl_lastinteraction c).

Definition set_sl_close_asap (v : bool) (c : slave) : slave :=
  MkSlave (sl_id c) (sl_flag_slave c) (sl_flag_crdt_slave c) (sl_flag_pre_psync c) (sl_close_after_reply c) v (sl_capa c) (sl_replstate c) (sl_wire c) (sl_output c) (sl_repl_ack_off c) (sl_repl_ack_time c) (sl_put_online_on_ack c) (sl_psync_initial_offset c) (sl_vectorClock c) (sl_filterVectorClock c) (sl_listening_port c) (sl_ip c) (sl_lastinteraction c).

Definition set_sl_capa (v : Z) (c : slave) : slave :=
  MkSlave (sl_id c) (sl_flag_slave c) (sl_flag_crdt_slave c) (sl_flag_pre_psync c) (sl_close_after_reply c) (sl_close_asap c) v (sl_replstate c) (sl_wire c) (sl_output c) (sl_repl_ack_off c) (sl_repl_ack_time c) (sl_put_online_on_ack c) (sl_psync_initial_offset c) (sl_vectorClock c) (sl_filterVectorClock c) (sl_listening_port c) (sl_ip c) (sl_lastinteraction c).

Definition set_sl_replstate (v : Z) (c : slave) : slave :=
  MkSlave (sl_id c) (sl_flag_slave c) (sl_flag_crdt_slave c) (sl_flag_pre_psync c) (sl_close_after_reply c) (sl_close_asap c) (sl_capa c) v (sl_wire c) (sl_output c) (sl_repl_ack_off c) (sl_repl_ack_time c) (sl_put_online_on_ack c) (sl_psync_initial_offset c) (sl_vectorClock c) (sl_filterVectorClock c) (sl_listening_port c) (sl_ip c) (sl_lastinteraction c).

Definition set_sl_wire (v : bytes) (c : slave) : slave :=
  MkSlave (sl_id c) (sl_flag_slave c) (sl_flag_crdt_slave c) (sl_flag_pre_psync c) (sl_close_after_reply c) (sl_close_asap c) (sl_capa c) (sl_replstate c) v (sl_output c) (sl_repl_ack_off c) (sl_repl_ack_time c) (sl_put_online_on_ack c) (sl_psync_initial_offset c) (sl_vectorClock c) (sl_filterVectorClock c) (sl_listening_port c) (sl_ip c) (sl_lastinteraction c).

Definition set_sl_output (v : bytes) (c : slave) : slave :=
  MkSlave (sl_id c) (sl_flag_slave c) (sl_flag_crdt_slave c) (sl_flag_pre_psync c) (sl_close_after_reply c) (sl_close_asap c) (sl_capa c) (sl_replstate c) (sl_wire c) v (sl_repl_ack_off c) (sl_repl_ack_time c) (sl_put_online_on_ack c) (sl_psync_initial_offset c) (sl_vectorClock c) (sl_filterVectorClock c) (sl_listening_port c) (sl_ip c) (sl_lastinteraction c).

Definition set_sl_repl_ack_off (v : Z) (c : slave) : slave :=
  MkSlave (sl_id c) (sl_flag_slave c) (sl_flag_crdt_slave c) (sl_flag_pre_psync c) (sl_close_after_reply c) (sl_close_asap c) (sl_capa c) (sl_replstate c) (sl_wire c) (sl_output c) v (sl_repl_ack_time c) (sl_put_online_on_ack c) (sl_psync_initial_offset c) (sl_vectorClock c) (sl_filterVectorClock c) (sl_listening_port c) (sl_ip c) (sl_lastinteraction c).

Definition set_sl_repl_ack_time (v : Z) (c : slave) : slave :=
  MkSlave (sl_id c) (sl_flag_slave c) (sl_flag_crdt_slave c) (sl_flag_pre_psync c) (sl_close_after_reply c) (sl_close_asap c) (sl_capa c) (sl_replstate c) (sl_wire c) (sl_output c) (sl_repl_ack_off c) v (sl_put_online_on_ack c) (sl_psync_initial_offset c) (sl_vectorClock c) (sl_filterVectorClock c) (sl_listening_port c) (sl_ip c) (sl_lastinteraction c).

Definition set_sl_put_online_on_ack (v : bool) (c : slave) : slave :=
  MkSlave (sl_id c) (sl_flag_slave c) (sl_flag_crdt_slave c) (sl_flag_pre_psync c) (sl_close_after_reply c) (sl_close_asap c) (sl_capa c) (sl_replstate c) (sl_wire c) (sl_output c) (sl_repl_ack_off c) (sl_repl_ack_time c) v (sl_psync_initial_offset c) (sl_vectorClock c) (sl_filterVectorClock c) (sl_listening_port c) (sl_ip c) (sl_lastinteraction c).

Definition set_sl_psync_initial_offset (v : Z) (c : slave) : slave :=
  MkSlave (sl_id c) (sl_flag_slave c) (sl_flag_crdt_slave c) (sl_flag_pre_psync c) (sl_close_after_reply c) (sl_close_asap c) (sl_capa c) (sl_replstate c) (sl_wire c) (sl_output c) (sl_repl_ack_off c) (sl_repl_ack_time c) (sl_put_online_on_ack c) v (sl_vectorClock c) (sl_filterVectorClock c) (sl_listening_port c) (sl_ip c) (sl_lastinteraction c).

Definition set_sl_vectorClock (v : VectorClock) (c : slave) : slave :=
  MkSlave (sl_id c) (sl_flag_slave c) (sl_flag_crdt_slave c) (sl_flag_pre_psync c) (sl_close_after_reply c) (sl_close_asap c) (sl_capa c) (sl_replstate c) (sl_wire c) (sl_output c) (sl_repl_ack_off c) (sl_repl_ack_time c) (sl_put_online_on_ack c) (sl_psync_initial_offset c) v (sl_filterVectorClock c) (sl_listening_port c) (sl_ip c) (sl_lastinteraction c).

Definition set_sl_filterVectorClock (v : VectorClock) (c : slave) : slave :=
  MkSlave (sl_id c) (sl_flag_slave c) (sl_flag_crdt_slave c) (sl_flag_pre_psync c) (sl_close_after_reply c) (sl_close_asap c) (sl_capa c) (sl_replstate c) (sl_wire c) (sl_output c) (sl_repl_ack_off c) (sl_repl_ack_time c) (sl_put_online_on_ack c) (sl_psync_initial_offset c) (sl_vectorClock c) v (sl_listening_port c) (sl_ip c) (sl_lastinteraction c).

Definition set_sl_listening_port (v : Z) (c : slave) : slave :=
  MkSlave (sl_id c) (sl_flag_slave c) (sl_flag_crdt_slave c) (sl_flag_pre_psync c) (sl_close_after_reply c) (sl_close_asap c) (sl_capa c) (sl_replstate c) (sl_wire c) (sl_output c) (sl_repl_ack_off c) (sl_repl_ack_time c) (sl_put_online_on_ack c) (sl_psync_initial_offset c) (sl_vectorClock c) (sl_filterVectorClock c) v (sl_ip c) (sl_lastinteraction c).

Definition set_sl_ip (v : bytes) (c : slave) : slave :=
  MkSlave (sl_id c) (sl_flag_slave c) (sl_flag_crdt_slave c) (sl_flag_pre_psync c) (sl_close_after_reply c) (sl_close_asap c) (sl_capa c) (sl_replstate c) (sl_wire c) (sl_output c) (sl_repl_ack_off c) (sl_repl_ack_time c) (sl_put_online_on_ack c) (sl_psync_initial_offset c) (sl_vectorClock c) (sl_filterVectorClock c) (sl_listening_port c) v (sl_lastinteraction c).

Definition set_sl_lastinteraction (v : Z) (c : slave) : slave :=
  MkSlave (sl_id c) (sl_flag_slave c) (sl_flag_crdt_slave c) (sl_flag_pre_psync c) (sl_close_after_reply c) (sl_close_asap c) (sl_capa c) (sl_replstate c) (sl_wire c) (sl_output c) (sl_repl_ack_off c) (sl_repl_ack_time c) (sl_put_online_on_ack c) (sl_psync_initial_offset c) (sl_vectorClock c) (sl_filterVectorClock c) (sl_listening_port c) (sl_ip c) v.

(** A byte of the buffer is [None] until it is written. *)

Record replServer := MkRepl {
  repl_backlog : option (list (option Z));
  repl_backlog_size : Z;
  repl_backlog_histlen : Z;
  repl_backlog_idx : Z;
  repl_backlog_off : Z;
  master_repl_offset : Z;
  replid : bytes;
  replid2 : bytes;
  second_replid_offset : Z;
  slaves : list slave;
  slaveseldb : Z;
  repl_no_slaves_since : Z;
  repl_backlog_time_limit : Z;
  stat_sync_full : Z;
  stat_sync_partial_ok : Z;
  stat_sync_partial_err : Z;
  stat_sync_backstream : Z
}.

Definition set_repl_backlog (v : option (list (option Z))) (s : replServer) : replServer :=
  MkRepl v (repl_backlog_size s) (repl_backlog_histlen s) (repl_backlog_idx s) (repl_backlog_off s) (master_repl_offset s) (replid s) (replid2 s) (second_replid_offset s) (slaves s) (slaveseldb s) (repl_no_slaves_since s) (repl_backlog_time_limit s) (stat_sync_full s) (stat_sync_partial_ok s) (stat_sync_partial_err s) (stat_sync_backstream s).

Definition set_repl_backlog_size (v : Z) (s : replServer) : replServer :=
  MkRepl (repl_backlog s) v (repl_backlog_histlen s) (repl_backlog_idx s) (repl_backlog_off s) (master_repl_offset s) (replid s) (replid2 s) (second_replid_offset s) (slaves s) (slaveseldb s) (repl_no_slaves_since s) (repl_backlog_time_limit s) (stat_sync_full s) (stat_sync_partial_ok s) (stat_sync_partial_err s) (stat_sync_backstream s).

Definition set_repl_backlog_histlen (v : Z) (s : replServer) : replServer :=
  MkRepl (repl_backlog s) (repl_backlog_size s) v (repl_backlog_idx s) (repl_backlog_off s) (master_repl_offset s) (replid s) (replid2 s) (second_replid_offset s) (slaves s) (slaveseldb s) (repl_no_slaves_since s) (repl_backlog_time_limit s) (stat_sync_full s) (stat_sync_partial_ok s) (stat_sync_partial_err s) (stat_sync_backstream s).

Definition set_repl_backlog_idx (v : Z) (s : replServer) : replServer :=
  MkRepl (repl_backlog s) (repl_backlog_size s) (repl_backlog_histlen s) v (repl_backlog_off s) (master_repl_offset s) (replid s) (replid2 s) (second_replid_offset s) (slaves s) (slaveseldb s) (repl_no_slaves_since s) (repl_backlog_time_limit s) (stat_sync_full s) (stat_sync_partial_ok s) (stat_sync_partial_err s) (stat_sync_backstream s).

Definition set_repl_backlog_off (v : Z) (s : replServer) : replServer :=
  MkRepl (repl_backlog s) (repl_backlog_size s) (repl_backlog_histlen s) (repl_backlog_idx s) v (master_repl_offset s) (replid s) (replid2 s) (second_replid_offset s) (slaves s) (slaveseldb s) (repl_no_slaves_since s) (repl_backlog_time_limit s) (stat_sync_full s) (stat_sync_partial_ok s) (stat_sync_partial_err s) (stat_sync_backstream s).

Definition set_master_repl_offset (v : Z) (s : replServer) : replServer :=
  MkRepl (repl_backlog s) (repl_backlog_size s) (repl_backlog_histlen s) (repl_backlog_idx s) (repl_backlog_off s) v (replid s) (replid2 s) (second_replid_offset s) (slaves s) (slaveseldb s) (repl_no_slaves_since s) (repl_backlog_time_limit s) (stat_sync_full s) (stat_sync_partial_ok s) (stat_sync_partial_err s) (stat_sync_backstream s).

Definition set_replid (v : bytes) (s : replServer) : replServer :=
  MkRepl (repl_backlog s) (repl_backlog_size s) (repl_backlog_histlen s) (repl_backlog_idx s) (repl_backlog_off s) (master_repl_offset s) v (replid2 s) (second_replid_offset s) (slaves s) (slaveseldb s) (repl_no_slaves_since s) (repl_backlog_time_limit s) (stat_sync_full s) (stat_sync_partial_ok s) (stat_sync_partial_err s) (stat_sync_backstream s).

Definition set_replid2 (v : bytes) (s : replServer) : replServer :=
  MkRepl (repl_backlog s) (repl_backlog_size s) (repl_backlog_histlen s) (repl_backlog_idx s) (repl_backlog_off s) (master_repl_offset s) (replid s) v (second_replid_offset s) (slaves s) (slaveseldb s) (repl_no_slaves_since s) (repl_backlog_time_limit s) (stat_sync_full s) (stat_sync_partial_ok s) (stat_sync_partial_err s) (stat_sync_backstream s).

Definition set_second_replid_offset (v : Z) (s : replServer) : replServer :=
  MkRepl (repl_backlog s) (repl_backlog_size s) (repl_backlog_histlen s) (repl_backlog_idx s) (repl_backlog_off s) (master_repl_offset s) (replid s) (replid2 s) v (slaves s) (slaveseldb s) (repl_no_slaves_since s) (repl_backlog_time_limit s) (stat_sync_full s) (stat_sync_partial_ok s) (stat_sync_partial_err s) (stat_sync_backstream s).

Definition set_slaves (v : list slave) (s : replServer) : replServer :=
  MkRepl (repl_backlog s) (repl_backlog_size s) (repl_backlog_histlen s) (repl_backlog_idx s) (repl_backlog_off s) (master_repl_offset s) (replid s) (replid2 s) (second_replid_offset s) v (slaveseldb s) (repl_no_slaves_since s) (repl_backlog_time_limit s) (stat_sync_full s) (stat_sync_partial_ok s) (stat_sync_partial_err s) (stat_sync_backstream s).

Definition set_slaveseldb (v : Z) (s : replServer) : replServer :=
  MkRepl (repl_backlog s) (repl_backlog_size s) (repl_backlog_histlen s) (repl_backlog_idx s) (repl_backlog_off s) (master_repl_offset s) (replid s) (replid2 s) (second_replid_offset s) (slaves s) v (repl_no_slaves_since s) (repl_backlog_time_limit s) (stat_sync_full s) (stat_sync_partial_ok s) (stat_sync_partial_err s) (stat_sync_backstream s).

Definition set_repl_no_slaves_since (v : Z) (s : replServer) : replServer :=
  MkRepl (repl_backlog s) (repl_backlog_size s) (repl_backlog_histlen s) (repl_backlog_idx s) (repl_backlog_off s) (master_repl_offset s) (replid s) (replid2 s) (second_replid_offset s) (slaves s) (slaveseldb s) v (repl_backlog_time_limit s) (stat_sync_full s) (stat_sync_partial_ok s) (stat_sync_partial_err s) (stat_sync_backstream s).

Definition set_repl_backlog_time_limit (v : Z) (s : replServer) : replServer :=
  MkRepl (repl_backlog s) (repl_backlog_size s) (repl_backlog_histlen s) (repl_backlog_idx s) (repl_backlog_off s) (master_repl_offset s) (replid s) (replid2 s) (second_replid_offset s) (slaves s) (slaveseldb s) (repl_no_slaves_since s) v (stat_sync_full s) (stat_sync_partial_ok s) (stat_sync_partial_err s) (stat_sync_backstream s).

Definition set_stat_sync_full (v : Z) (s : replServer) : replServer :=
  MkRepl (repl_backlog s) (repl_backlog_size s) (repl_backlog_histlen s) (repl_backlog_idx s) (repl_backlog_off s) (master_repl_offset s) (replid s) (replid2 s) (second_replid_offset s) (slaves s) (slaveseldb s) (repl_no_slaves_since s) (repl_backlog_time_limit s) v (stat_sync_partial_ok s) (stat_sync_partial_err s) (stat_sync_backstream s).

Definition set_stat_sync_partial_ok (v : Z) (s : replServer) : replServer :=
  MkRepl (repl_backlog s) (repl_backlog_size s) (repl_backlog_histlen s) (repl_backlog_idx s) (repl_backlog_off s) (master_repl_offset s) (replid s) (replid2 s) (second_replid_offset s) (slaves s) (slaveseldb s) (repl_no_slaves_since s) (repl_backlog_time_limit s) (stat_sync_full s) v (stat_sync_partial_err s) (stat_sync_backstream s).

Definition set_stat_sync_partial_err (v : Z) (s : replServer) : replServer :=
  MkRepl (repl_backlog s) (repl_backlog_size s) (repl_backlog_histlen s) (repl_backlog_idx s) (repl_backlog_off s) (master_repl_offset s) (replid s) (replid2 s) (second_replid_offset s) (slaves s) (slaveseldb s) (repl_no_slaves_since s) (repl_backlog_time_limit s) (stat_sync_full s) (stat_sync_partial_ok s) v (stat_sync_backstream s).

Definition set_stat_sync_backstream (v : Z) (s : replServer) : replServer :=
  MkRepl (repl_backlog s) (repl_backlog_size s) (repl_backlog_histlen s) (repl_backlog_idx s) (repl_backlog_off s) (master_repl_offset s) (replid s) (replid2 s) (second_replid_offset s) (slaves s) (slaveseldb s) (repl_no_slaves_since s) (repl_backlog_time_limit s) (stat_sync_full s) (stat_sync_partial_ok s) (stat_sync_partial_err s) v.

Definition SLAVE_STATE_WAIT_BGSAVE_START : Z := 6.

Definition SLAVE_STATE_WAIT_BGSAVE_END : Z := 7.

Definition SLAVE_STATE_SEND_BULK : Z := 8.

Definition SLAVE_STATE_ONLINE : Z := 9.

Definition SLAVE_CAPA_EOF : Z := 1.

Definition SLAVE_CAPA_PSYNC2 : Z := 2.

Definition SLAVE_CAPA_CRDT : Z := 4.

Definition SLAVE_CAPA_BACKSTREAM : Z := 8.

Definition has_capa (c : slave) (capa : Z) : bool := negb (Z.land (sl_capa c) capa =? 0).

(** [addReply...] on a slave: the bytes are queued, unless the client is to be
    closed once it has read what is queued already. *)

Definition queue (b : bytes) (c : slave) : slave :=
  if sl_close_after_reply c then c else set_sl_output (sl_output c ++ b) c.

(** ** Life of the buffer *)

Definition CONFIG_REPL_BACKLOG_MIN_SIZE : Z := 16384.

Definition createServerReplicationBacklog (s : replServer) : res replServer :=
  _ ← c_assert (bool_decide (repl_backlog s = None));
  let s := set_repl_backlog (Some (replicate (Z.to_nat (repl_backlog_size s)) None)) s in
  let s := set_repl_backlog_histlen 0 s in
  let s := set_repl_backlog_idx 0 s in
  Ok (set_repl_backlog_off (master_repl_offset s + 1) s).

Definition resizeReplicationBacklog (newsize : Z) (s : replServer) : replServer :=
  let newsize := if newsize <? CONFIG_REPL_BACKLOG_MIN_SIZE then CONFIG_REPL_BACKLOG_MIN_SIZE
                 else newsize in
  if repl_backlog_size s =? newsize then s else
  let s := set_repl_backlog_size newsize s in
  match repl_backlog s with
  | None => s
  | Some _ =>
      let s := set_repl_backlog (Some (replicate (Z.to_nat (repl_backlog_size s)) None)) s in
      let s := set_repl_backlog_histlen 0 s in
      let s := set_repl_backlog_idx 0 s in
      set_repl_backlog_off (master_repl_offset s + 1) s
  end.

Definition freeReplicationBacklog (s : replServer) : res replServer :=
  _ ← c_assert (bool_decide (slaves s = []));
  Ok (set_repl_backlog None s).

(** ** Feeding *)

(** [memcpy(buf + idx, p, length p)] *)

Definition buf_write (buf : list (option Z)) (idx : nat) (p : bytes) : list (option Z) :=
  take idx buf ++ map Some p ++ drop (idx + length p) buf.

(** The [while (len)] loop: each round writes up to the end of the buffer.
    With [idx] inside the buffer a round writes at least one byte, so as many
    rounds as there are bytes are enough. *)

Fixpoint feed_loop (fuel : nat) (size : Z) (buf : list (option Z)) (idx histlen : Z) (p : bytes)
  : res (list (option Z) * Z * Z) :=
  match p, fuel with
  | [], _ => Ok (buf, idx, histlen)
  | _, O => Undef
  | _, S fuel =>
      let len := Z.of_nat (length p) in
      let thislen := size - idx in
      let thislen := if thislen >? len then len else thislen in
      let buf := buf_write buf (Z.to_nat idx) (take (Z.to_nat thislen) p) in
      let idx := idx + thislen in
      let idx := if idx =? size then 0 else idx in
      feed_loop fuel size buf idx (histlen + thislen) (drop (Z.to_nat thislen) p)
  end.

Definition feedReplicationBacklog (p : bytes) (s : replServer) : res replServer :=
  let s := set_master_repl_offset (master_repl_offset s + Z.of_nat (length p)) s in
  buf ← need (repl_backlog s);
  '(buf, idx, histlen) ← feed_loop (length p) (repl_backlog_size s) buf (repl_backlog_idx s)
                           (repl_backlog_histlen s) p;
  let histlen := if histlen >? repl_backlog_size s then repl_backlog_size s else histlen in
  let s := set_repl_backlog (Some buf) s in
  let s := set_repl_backlog_idx idx s in
  let s := set_repl_backlog_histlen histlen s in
  Ok (set_repl_backlog_off (master_repl_offset s - repl_backlog_histlen s + 1) s).

(** ** Reading *)

Fixpoint read_bytes (l : list (option Z)) : res bytes :=
  match l with
  | [] => Ok []
  | None :: _ => Undef
  | Some c :: l => s ← read_bytes l; Ok (c :: s)
  end.

(** The [while (len)] loop that copies [len] bytes from position [j] on. *)

Fixpoint reply_loop (fuel : nat) (size : Z) (buf : list (option Z)) (j len : Z) : res bytes :=
  if len =? 0 then Ok [] else
  match fuel with
  | O => Undef
  | S fuel =>
      let thislen := if size - j <? len then size - j else len in
      chunk ← read_bytes (take (Z.to_nat thislen) (drop (Z.to_nat j) buf));
      rest ← reply_loop fuel size buf 0 (len - thislen);
      Ok (chunk ++ rest)
  end.

(** The bytes queued for the slave, whose number is returned. *)

Definition addReplyReplicationBacklog (s : replServer) (offset : Z) : res bytes :=
  if repl_backlog_histlen s =? 0 then Ok [] else
  let skip := offset - repl_backlog_off s in
  buf ← need (repl_backlog s);
  if repl_backlog_size s =? 0 then Undef else
  let j := Z.rem (repl_backlog_idx s + (repl_backlog_size s - repl_backlog_histlen s))
                 (repl_backlog_size s) in
  let j := Z.rem (j + skip) (repl_backlog_size s) in
  reply_loop (S (S (Z.to_nat (repl_backlog_histlen s)))) (repl_backlog_size s) buf j
    (repl_backlog_histlen s - skip).

(** ** The buffer holds the end of the stream *)

(** The bytes of [stream] from [length stream - sz] on, each at its position
    modulo the size. *)

Definition buf_rep (sz : nat) (buf : list (option Z)) (stream : bytes) : Prop :=
  length buf = sz /\
  forall j, (length stream - sz <= j < length stream)%nat ->
            buf !! (j mod sz)%nat = Some (stream !! j).

Lemma buf_write_length buf idx p :
  (idx + length p <= length buf)%nat -> length (buf_write buf idx p) = length buf.
Proof.
  intros H. unfold buf_write. rewrite !length_app, length_map, length_take, length_drop. lia.
Qed.

Lemma buf_write_in buf idx p k :
  (idx + length p <= length buf)%nat -> (idx <= k < idx + length p)%nat ->
  buf_write buf idx p !! k = Some (p !! (k - idx)%nat).
Proof.
  intros H Hk. unfold buf_write. rewrite lookup_app_r by (rewrite length_take; lia).
  rewrite length_take, Nat.min_l by lia. rewrite lookup_app_l by (rewrite length_map; lia).
  rewrite list_lookup_fmap. destruct (lookup_lt_is_Some_2 p (k - idx)) as [c E]; [lia|].
  by rewrite E.
Qed.

Lemma buf_write_out buf idx p k :
  (idx + length p <= length buf)%nat -> (k < idx \/ idx + length p <= k)%nat ->
  buf_write buf idx p !! k = buf !! k.
Proof.
  intros H Hk. unfold buf_write. destruct (decide (k < idx)%nat).
  - rewrite lookup_app_l by (rewrite length_take; lia). by apply lookup_take_lt.
  - rewrite lookup_app_r by (rewrite length_take; lia). rewrite length_take, Nat.min_l by lia.
    rewrite lookup_app_r by (rewrite length_map; lia). rewrite length_map, lookup_drop. f_equal. lia.
Qed.

Lemma buf_rep_write sz buf stream p :
  (0 < sz)%nat -> buf_rep sz buf stream -> (length stream mod sz + length p <= sz)%nat ->
  buf_rep sz (buf_write buf (length stream mod sz) p) (stream ++ p).
Proof.
  intros Hsz [Hl Hb] Hp. set (n := length stream) in *. set (i := (n mod sz)%nat) in *.
  assert (n = sz * (n / sz) + i)%nat as En by (apply Nat.div_mod; lia).
  split; [rewrite buf_write_length; lia|]. rewrite length_app. fold n. intros j Hj.
  destruct (decide (n <= j)%nat).
  - assert (j mod sz = i + (j - n))%nat as ->
      by (symmetry; apply (Nat.mod_unique _ _ (n / sz)%nat); lia).
    rewrite buf_write_in by lia. rewrite lookup_app_r by (fold n; lia). fold n.
    do 2 f_equal. lia.
  - rewrite lookup_app_l by (fold n; lia). rewrite buf_write_out.
    + apply Hb. lia.
    + lia.
    + destruct (decide (n - j <= i)%nat).
      * left. assert (j mod sz = i - (n - j))%nat as ->; [|lia].
        symmetry. apply (Nat.mod_unique _ _ (n / sz)%nat); lia.
      * right. assert (n / sz <> 0)%nat as Q by (intros Q; rewrite Q in En; lia).
        assert (sz * (n / sz) = sz + sz * (n / sz - 1))%nat as Q'
          by (destruct (n / sz)%nat as [|q]; [lia|]; rewrite Nat.mul_succ_r; replace (S q - 1)%nat with q by lia; lia).
        assert (j mod sz = sz + i - (n - j))%nat as ->; [|lia].
        symmetry. apply (Nat.mod_unique _ _ (n / sz - 1)%nat); lia.
Qed.

Lemma feed_loop_spec fuel size buf stream histlen p :
  0 < size -> buf_rep (Z.to_nat size) buf stream -> (length p <= fuel)%nat ->
  exists buf', feed_loop fuel size buf (Z.of_nat (length stream mod Z.to_nat size)) histlen p =
      Ok (buf', Z.of_nat (length (stream ++ p) mod Z.to_nat size), histlen + Z.of_nat (length p)) /\
    buf_rep (Z.to_nat size) buf' (stream ++ p).
Proof.
  intros Hs. set (sz := Z.to_nat size). revert buf stream histlen p.
  induction fuel as [|fuel IH]; intros buf stream histlen p Hr Hf.
  { destruct p; [|simpl in Hf; lia]. exists buf. simpl. rewrite app_nil_r, Z.add_0_r. done. }
  destruct p as [|c p].
  { exists buf. simpl. rewrite app_nil_r, Z.add_0_r. done. }
  cbn [feed_loop]. set (q := c :: p) in *. assert (0 < length q)%nat by (simpl; lia).
  assert (length stream mod sz < sz)%nat as Hi by (apply Nat.mod_upper_bound; lia).
  set (i := (length stream mod sz)%nat) in *.
  set (t := if _ >? _ then _ else _). assert (t = Z.of_nat (Nat.min (sz - i) (length q))) as Et.
  { unfold t. destruct (Z.gtb_spec (size - Z.of_nat i) (Z.of_nat (length q))); unfold sz in *; lia. }
  clearbody t. subst t. set (m := Nat.min (sz - i) (length q)) in *.
  rewrite !Nat2Z.id. set (c1 := take m q). assert (length c1 = m) as L1 by (unfold c1; rewrite length_take; lia).
  assert (buf_rep sz (buf_write buf i c1) (stream ++ c1)) as Hr1
    by (apply buf_rep_write; [lia|done|fold i; lia]).
  assert ((if Z.of_nat i + Z.of_nat m =? size then 0 else Z.of_nat i + Z.of_nat m) =
          Z.of_nat (length (stream ++ c1) mod sz)) as ->.
  { rewrite length_app, L1. rewrite Nat.Div0.add_mod. fold i.
    destruct (Z.eqb_spec (Z.of_nat i + Z.of_nat m) size).
    - destruct (decide (m = sz)) as [->|].
      + rewrite Nat.Div0.mod_same, Nat.add_0_r, Nat.mod_small by lia. lia.
      + rewrite (Nat.mod_small m) by lia. replace (i + m)%nat with sz by lia. by rewrite Nat.Div0.mod_same.
    - rewrite (Nat.mod_small m), Nat.mod_small by lia. lia. }
  destruct (IH (buf_write buf i c1) (stream ++ c1) (histlen + Z.of_nat m) (drop m q) Hr1)
    as (buf' & E & R). { rewrite length_drop. lia. }
  exists buf'. rewrite E. unfold c1 in *. split.
  - rewrite <- app_assoc, take_drop. do 2 f_equal. rewrite length_drop. lia.
  - by rewrite <- app_assoc, take_drop in R.
Qed.

(** [stream] is everything fed since the buffer was created. *)

Definition backlog_rep (s : replServer) (stream : bytes) : Prop :=
  exists buf, repl_backlog s = Some buf /\ 0 < repl_backlog_size s /\
    buf_rep (Z.to_nat (repl_backlog_size s)) buf stream /\
    repl_backlog_idx s = Z.of_nat (length stream mod Z.to_nat (repl_backlog_size s)) /\
    repl_backlog_histlen s = Z.min (Z.of_nat (length stream)) (repl_backlog_size s) /\
    repl_backlog_off s = master_repl_offset s - repl_backlog_histlen s + 1.

Lemma create_rep s :
  repl_backlog s = None -> 0 < repl_backlog_size s ->
  exists s', createServerReplicationBacklog s = Ok s' /\ backlog_rep s' [] /\
             master_repl_offset s' = master_repl_offset s /\ slaves s' = slaves s.
Proof.
  intros Hn Hs. unfold createServerReplicationBacklog. rewrite bool_decide_true by done.
  cbn [c_assert mbind res_bind]. eexists. split; [reflexivity|]. split; [|done].
  eexists. simpl. split; [reflexivity|]. split; [done|]. split.
  - split; [apply length_replicate|]. simpl. lia.
  - rewrite Nat.mod_small by lia. lia.
Qed.

Lemma feed_rep s stream p :
  backlog_rep s stream ->
  exists s', feedReplicationBacklog p s = Ok s' /\ backlog_rep s' (stream ++ p) /\
    master_repl_offset s' = master_repl_offset s + Z.of_nat (length p) /\
    slaves s' = slaves s /\ slaveseldb s' = slaveseldb s /\ replid s' = replid s /\
    replid2 s' = replid2 s /\ second_replid_offset s' = second_replid_offset s /\
    repl_backlog_size s' = repl_backlog_size s.
Proof.
  intros (buf & Hb & Hs & Hr & Hi & Hh & Ho). unfold feedReplicationBacklog. simpl. rewrite Hb. simpl.
  rewrite Hi. destruct (feed_loop_spec (length p) (repl_backlog_size s) buf stream
    (repl_backlog_histlen s) p Hs Hr ltac:(lia)) as (buf' & E & R). rewrite E. cbn [mbind res_bind].
  eexists. split; [reflexivity|]. split; [|done]. exists buf'. simpl.
  split; [done|]. split; [done|]. split; [done|]. split; [done|]. split; [|done].
  rewrite Hh, length_app, Nat2Z.inj_add.
  destruct (Z.gtb_spec (Z.min (Z.of_nat (length stream)) (repl_backlog_size s) + Z.of_nat (length p))
              (repl_backlog_size s)); lia.
Qed.

Lemma read_bytes_Some l : read_bytes (map Some l) = Ok l.
Proof. induction l as [|c l IH]; [done|]. simpl. by rewrite IH. Qed.

(** Reading [m] bytes from stream position [k] on, without wrapping around. *)

Lemma read_chunk sz buf stream k m :
  (0 < sz)%nat -> buf_rep sz buf stream ->
  (length stream - sz <= k)%nat -> (k + m <= length stream)%nat -> (k mod sz + m <= sz)%nat ->
  read_bytes (take m (drop (k mod sz) buf)) = Ok (take m (drop k stream)).
Proof.
  intros Hsz [Hl Hb] H1 H2 H3. rewrite <- read_bytes_Some. f_equal.
  assert (k mod sz < sz)%nat by (apply Nat.mod_upper_bound; lia).
  apply list_eq_same_length with (n := m); [|rewrite length_take, length_drop; lia|].
  { rewrite length_map, length_take, length_drop. lia. }
  intros i x y Hi Hx Hy. rewrite lookup_take_lt in Hx by lia. rewrite lookup_drop in Hx.
  rewrite list_lookup_fmap, lookup_take_lt, lookup_drop in Hy by lia.
  assert (((k + i) mod sz)%nat = (k mod sz + i)%nat) as E.
  { symmetry. apply (Nat.mod_unique _ _ (k / sz)%nat); [lia|].
    pose proof (Nat.div_mod k sz). lia. }
  rewrite <- E, Hb in Hx by lia. destruct (stream !! (k + i)%nat); simpl in *; congruence.
Qed.

Lemma reply_loop_spec fuel size buf stream k :
  0 < size -> buf_rep (Z.to_nat size) buf stream ->
  (length stream - Z.to_nat size <= k <= length stream)%nat -> (2 <= fuel)%nat ->
  reply_loop fuel size buf (Z.of_nat (k mod Z.to_nat size)) (Z.of_nat (length stream - k)) =
  Ok (drop k stream).
Proof.
  intros Hs Hr Hk Hf. set (sz := Z.to_nat size) in *. set (n := length stream) in *.
  destruct fuel as [|[|fuel]]; [lia|lia|]. cbn [reply_loop].
  destruct (Z.eqb_spec (Z.of_nat (n - k)) 0); [rewrite drop_ge by (fold n; lia); done|].
  assert (k mod sz < sz)%nat as Hi by (apply Nat.mod_upper_bound; lia).
  set (t := if _ <? _ then _ else _). assert (t = Z.of_nat (Nat.min (sz - k mod sz) (n - k))) as Et.
  { unfold t. destruct (Z.ltb_spec (size - Z.of_nat (k mod sz)) (Z.of_nat (n - k))); unfold sz in *; lia. }
  clearbody t. subst t. set (m := Nat.min (sz - k mod sz) (n - k)) in *. rewrite !Nat2Z.id.
  rewrite (read_chunk sz buf stream k m) by (done || (fold n; lia)). cbn [mbind res_bind].
  destruct (Z.eqb_spec (Z.of_nat (n - k) - Z.of_nat m) 0).
  - destruct fuel; cbn [mbind res_bind]; rewrite app_nil_r, take_ge; try done; rewrite length_drop; fold n; lia.
  - assert (m = sz - k mod sz)%nat as Em by lia.
    assert ((k + m) mod sz = 0)%nat as E0.
    { symmetry. apply (Nat.mod_unique _ _ (k / sz + 1)%nat); [lia|].
      pose proof (Nat.div_mod k sz). rewrite Nat.mul_add_distr_l. lia. }
    replace (if size - 0 <? Z.of_nat (n - k) - Z.of_nat m then size - 0 else Z.of_nat (n - k) - Z.of_nat m)
      with (Z.of_nat (n - (k + m)))
      by (destruct (Z.ltb_spec (size - 0) (Z.of_nat (n - k) - Z.of_nat m)); unfold sz in *; lia).
    rewrite Nat2Z.id. change (Z.to_nat 0) with 0%nat. rewrite <- E0.
    rewrite (read_chunk sz buf stream (k + m) (n - (k + m))) by (done || (fold n; lia)). cbn [mbind res_bind].
    replace (Z.of_nat (n - k) - Z.of_nat m - Z.of_nat (n - (k + m))) with 0 by lia.
    destruct fuel; cbn; rewrite app_nil_r; f_equal;
      rewrite (take_ge (drop (k + m) stream)) by (rewrite length_drop; fold n; lia);
      rewrite <- (take_drop m (drop k stream)) at 2; rewrite drop_drop; done.
Qed.

Lemma reply_rep s stream offset :
  backlog_rep s stream ->
  repl_backlog_off s <= offset <= repl_backlog_off s + repl_backlog_histlen s ->
  addReplyReplicationBacklog s offset =
  Ok (drop (Z.to_nat (offset - (master_repl_offset s - Z.of_nat (length stream)) - 1)) stream).
Proof.
  intros (buf & Hb & Hs & Hr & Hi & Hh & Ho) Hoff. unfold addReplyReplicationBacklog.
  set (n := length stream) in *. set (size := repl_backlog_size s) in *.
  destruct (Z.eqb_spec (repl_backlog_histlen s) 0) as [E|E].
  { rewrite drop_ge; [done|]. fold n. lia. }
  rewrite Hb. cbn [need mbind res_bind]. replace (size =? 0) with false by lia.
  set (h := repl_backlog_histlen s) in *. set (skip := offset - repl_backlog_off s).
  set (k := Z.to_nat (offset - (master_repl_offset s - Z.of_nat n) - 1)).
  assert (Z.of_nat k = Z.of_nat n - h + skip) as Ek by (unfold k, skip; lia).
  assert (0 <= h <= size) by lia.
  assert (Z.rem (Z.rem (repl_backlog_idx s + (size - h)) size + skip) size = Z.of_nat (k mod Z.to_nat size)) as ->.
  { rewrite Hi, !Nat2Z.inj_mod, !Z2Nat.id by lia. fold n.
    pose proof (Z.mod_pos_bound (Z.of_nat n) size Hs).
    rewrite (Z.rem_mod_nonneg (_ + (size - h))) by lia.
    pose proof (Z.mod_pos_bound (Z.of_nat n mod size + (size - h)) size Hs).
    assert (0 <= skip) by (unfold skip; lia).
    rewrite Z.rem_mod_nonneg by lia. rewrite Ek.
    rewrite Zplus_mod_idemp_l. rewrite <- Z.add_assoc, Zplus_mod_idemp_l.
    replace (Z.of_nat n + (size - h + skip)) with (Z.of_nat n - h + skip + 1 * size) by lia.
    apply Z_mod_plus_full. }
  replace (h - skip) with (Z.of_nat (n - k)) by lia.
  unfold n. apply reply_loop_spec; [done..|fold n; lia|lia].
Qed.

(** ** Claims *)

(** C6: after any sequence of feeds a freshly created backlog holds exactly the
    last [size] bytes of what was fed: for every offset it still covers, the
    bytes sent to a slave are precisely the stream from that offset to its
    end, across the wrap-around; no byte that was never written is sent. *)
Theorem backlog_refines_stream s chunks
  (Hn : repl_backlog s = None) (Hs : 0 < repl_backlog_size s) :
  let stream := concat chunks in
  exists s', (s1 ← createServerReplicationBacklog s;
              fold_left (fun r p => s ← r; feedReplicationBacklog p s) chunks (Ok s1)) = Ok s' /\
    master_repl_offset s' = master_repl_offset s + Z.of_nat (length stream) /\
    repl_backlog_off s' + repl_backlog_histlen s' = master_repl_offset s' + 1 /\
    repl_backlog_histlen s' = Z.min (Z.of_nat (length stream)) (repl_backlog_size s') /\
    forall offset, repl_backlog_off s' <= offset <= repl_backlog_off s' + repl_backlog_histlen s' ->
      addReplyReplicationBacklog s' offset =
      Ok (drop (Z.to_nat (offset - master_repl_offset s - 1)) stream).
Proof.
  cbv zeta. destruct (create_rep s Hn Hs) as (s1 & -> & R & Eo & _). cbn [mbind res_bind].
  assert (forall chunks s1 pre, backlog_rep s1 pre ->
    exists s', fold_left (fun r p => s ← r; feedReplicationBacklog p s) chunks (Ok s1) = Ok s' /\
      backlog_rep s' (pre ++ concat chunks) /\
      master_repl_offset s' = master_repl_offset s1 + Z.of_nat (length (concat chunks))) as F.
  { clear. intros chunks. induction chunks as [|p chunks IH]; intros s1 pre R; cbn [fold_left concat].
    { exists s1. rewrite app_nil_r. simpl. split; [done|]. split; [done|lia]. }
    cbn [mbind res_bind]. destruct (feed_rep s1 pre p R) as (s2 & -> & R2 & E2 & _).
    destruct (IH s2 (pre ++ p) R2) as (s' & E & R' & E'). exists s'. split; [done|].
    rewrite <- app_assoc in R'. split; [done|]. rewrite E', E2, length_app. lia. }
  destruct (F chunks s1 [] R) as (s' & E & R' & E'). simpl app in R'. exists s'. split; [done|].
  rewrite Eo in E'. split; [done|]. pose proof R' as (buf & _ & Hs' & _ & _ & Hh & Ho).
  split; [lia|]. split; [done|]. intros offset Hoff. rewrite (reply_rep s' (concat chunks)) by done.
  do 2 f_equal. lia.
Qed.

Definition example_repl : replServer :=
  MkRepl None 8 0 0 0 100 (str "id1") (str "id2") (-1) [] 0 0 0 0 0 0 0.

Lemma backlog_refines_stream_witness :
  let stream := concat [str "hello"; str "world!"] in
  exists s', (s1 ← createServerReplicationBacklog example_repl;
              fold_left (fun r p => s ← r; feedReplicationBacklog p s)
                [str "hello"; str "world!"] (Ok s1)) = Ok s' /\
    master_repl_offset s' = master_repl_offset example_repl + Z.of_nat (length stream) /\
    repl_backlog_off s' + repl_backlog_histlen s' = master_repl_offset s' + 1 /\
    repl_backlog_histlen s' = Z.min (Z.of_nat (length stream)) (repl_backlog_size s') /\
    forall offset, repl_backlog_off s' <= offset <= repl_backlog_off s' + repl_backlog_histlen s' ->
      addReplyReplicationBacklog s' offset =
      Ok (drop (Z.to_nat (offset - master_repl_offset example_repl - 1)) stream).
Proof. apply backlog_refines_stream; [reflexivity|simpl; lia]. Defined.

(** Resizing an active backlog empties it without touching the replication
    offset, so every partial resynchronisation that would need older bytes is
    refused; the new size is at least the minimum. *)
Lemma resizeReplicationBacklog_empties s stream newsize
  (Hr : backlog_rep s stream) (Hne : repl_backlog_size s <> Z.max newsize CONFIG_REPL_BACKLOG_MIN_SIZE) :
  let s' := resizeReplicationBacklog newsize s in
  backlog_rep s' [] /\ master_repl_offset s' = master_repl_offset s /\
  repl_backlog_size s' = Z.max newsize CONFIG_REPL_BACKLOG_MIN_SIZE /\
  repl_backlog_off s' = master_repl_offset s + 1.
Proof.
  cbv zeta. destruct Hr as (buf & Hb & _). unfold resizeReplicationBacklog.
  set (ns := if newsize <? _ then _ else _).
  assert (ns = Z.max newsize CONFIG_REPL_BACKLOG_MIN_SIZE) as E
    by (unfold ns; destruct (Z.ltb_spec newsize CONFIG_REPL_BACKLOG_MIN_SIZE); lia).
  clearbody ns. subst ns. replace (repl_backlog_size s =? _) with false by lia. simpl. rewrite Hb. simpl.
  assert (0 < Z.max newsize CONFIG_REPL_BACKLOG_MIN_SIZE) by (unfold CONFIG_REPL_BACKLOG_MIN_SIZE; lia).
  split; [|done]. eexists. simpl. split; [reflexivity|]. split; [done|]. split.
  - split; [apply length_replicate|]. simpl. lia.
  - rewrite Nat.mod_small by lia. lia.
Qed.

Lemma resizeReplicationBacklog_empties_witness :
  let s := MkRepl (Some (replicate 8 None)) 8 0 0 101 100 (str "id1") (str "id2") (-1) [] 0 0 0 0 0 0 0 in
  let s' := resizeReplicationBacklog 5 s in
  backlog_rep s' [] /\ master_repl_offset s' = master_repl_offset s /\
  repl_backlog_size s' = Z.max 5 CONFIG_REPL_BACKLOG_MIN_SIZE /\
  repl_backlog_off s' = master_repl_offset s + 1.
Proof.
  apply (resizeReplicationBacklog_empties _ [] 5).
  - eexists. split; [reflexivity|]. split; [simpl; lia|]. split; [|split; [reflexivity|split; reflexivity]].
    split; [reflexivity|]. simpl. lia.
  - discriminate.
Defined.
