(* ===== verification/Resp.v ===== *)
(** * The wire protocol ([src/src/networking.c])

    Commands travel as multi-bulk requests (["*<n>"] and then one
    ["$<len>"]-prefixed string per argument) or as a line of text.  The
    readers keep their state in the client between calls, because a request
    may arrive in pieces. *)

From S2P Require Import Prelude Util Sds.

Definition CRLF : bytes := [CR; LF].

(** ** Writing *)

(** [<prefix><long long>\r\n], as [ll2string] prints the number. *)

Definition addReplyLongLongWithPrefix (ll : Z) (prefix : Z) : bytes :=
  [prefix] ++ print_Z ll ++ CRLF.

Definition addReplyMultiBulkLen (length : Z) : bytes := addReplyLongLongWithPrefix length 42.

Definition addReplyBulkCBuffer (p : bytes) : bytes :=
  addReplyLongLongWithPrefix (Z.of_nat (length p)) 36 ++ p ++ CRLF.

Definition addReplyBulk (p : bytes) : bytes :=
  addReplyLongLongWithPrefix (Z.of_nat (length p)) 36 ++ p ++ CRLF.

Definition addReplyBulkLongLong (ll : Z) : bytes := addReplyBulkCBuffer (print_Z ll).

Definition addReplyLongLong (ll : Z) : bytes := addReplyLongLongWithPrefix ll 58.

Definition addReplyError (err : bytes) : bytes := str "-ERR " ++ err ++ CRLF.

(** No line break may get into an error. *)

Definition addReplyErrorFormat (text : bytes) : bytes :=
  addReplyError (map (fun ch => if (ch =? CR) || (ch =? LF) then 32 else ch) text).

(** A whole command. *)

Definition encode_args (argv : list bytes) : bytes := concat (map addReplyBulk argv).

Definition encode_command (argv : list bytes) : bytes :=
  addReplyMultiBulkLen (Z.of_nat (length argv)) ++ encode_args argv.

(** ** Reading *)

Definition PROTO_INLINE_MAX_SIZE : Z := 1024 * 64.

Definition PROTO_MBULK_BIG_ARG : Z := 1024 * 32.

(** [strchr]: the first [c] before the first NUL. *)

Fixpoint strchr (s : bytes) (c : Z) : option nat :=
  match s with
  | [] => None
  | d :: s => if d =? c then Some 0%nat else if d =? 0 then None else S <$> strchr s c
  end.

(** The part of a client the readers use: the unread input, the number of
    arguments still to read, the length of the one being read (−1: not known
    yet) and the arguments read.  [close] is [CLIENT_CLOSE_AFTER_REPLY]. *)

Record reader := MkReader {
  querybuf : bytes; multibulklen : Z; bulklen : Z; r_argv : list bytes; close : bool
}.

(** What a call reports: a complete command, more input is needed, or a
    protocol error (with the text [setProtocolError] logs). *)

Inductive parsed := ParseOk | ParseMore | ParseError (msg : bytes).

Definition proto_error (msg : string) (pos : Z) (r : reader) : parsed * reader :=
  (ParseError (str msg),
   MkReader (sdsrange (querybuf r) pos (-1)) (multibulklen r) (bulklen r) (r_argv r) true).

(** [if (pos) sdsrange(c->querybuf, pos, -1)] at the end of a call. *)

Definition trim_pos (pos : Z) (qb : bytes) : bytes :=
  if negb (pos =? 0) then sdsrange qb pos (-1) else qb.

(** The loop over the arguments still to read; each round that goes on has
    read one argument. *)

Fixpoint multibulk_loop (n : nat) (max_bulk : Z) (pos : Z) (r : reader) : parsed * reader :=
  match n with
  | O => (ParseOk, MkReader (trim_pos pos (querybuf r)) 0 (bulklen r) (r_argv r) (close r))
  | S n' =>
      let more pos r :=
        (ParseMore, MkReader (trim_pos pos (querybuf r)) (Z.of_nat n) (bulklen r) (r_argv r) (close r)) in
      let r := MkReader (querybuf r) (Z.of_nat n) (bulklen r) (r_argv r) (close r) in
      let read_arg pos r :=
        let qb := querybuf r in
        if Z.of_nat (length qb) - pos <? bulklen r + 2 then more pos r
        else if (pos =? 0) && (bulklen r >=? PROTO_MBULK_BIG_ARG)
                && (Z.of_nat (length qb) =? bulklen r + 2) then
          multibulk_loop n' max_bulk 0
            (MkReader [] (Z.of_nat n') (-1) (r_argv r ++ [take (Z.to_nat (bulklen r)) qb]) (close r))
        else
          multibulk_loop n' max_bulk (pos + bulklen r + 2)
            (MkReader qb (Z.of_nat n') (-1)
               (r_argv r ++ [take (Z.to_nat (bulklen r)) (drop (Z.to_nat pos) qb)]) (close r)) in
      if bulklen r =? -1 then
        match strchr (drop (Z.to_nat pos) (querybuf r)) CR with
        | None =>
            if Z.of_nat (length (querybuf r)) >? PROTO_INLINE_MAX_SIZE
            then proto_error "too big bulk count string" 0 r
            else more pos r
        | Some nl =>
            let newline := pos + Z.of_nat nl in
            if newline >? Z.of_nat (length (querybuf r)) - 2 then more pos r
            else if negb (bool_decide (querybuf r !! Z.to_nat pos = Some 36))
            then proto_error "expected $ but got something else" pos r
            else
              match string2ll (take (nl - 1) (drop (Z.to_nat pos + 1) (querybuf r))) with
              | None => proto_error "invalid bulk length" pos r
              | Some ll =>
                  if (ll <? 0) || (ll >? max_bulk)
                  then proto_error "invalid bulk length" pos r
                  else
                    let pos := newline + 2 in
                    let '(pos, qb) := if ll >=? PROTO_MBULK_BIG_ARG
                                      then (0, sdsrange (querybuf r) pos (-1))
                                      else (pos, querybuf r) in
                    read_arg pos (MkReader qb (multibulklen r) ll (r_argv r) (close r))
              end
        end
      else read_arg pos r
  end.

(** [max_bulk] is [proto_max_bulk_len]. *)

Definition processMultibulkBuffer (max_bulk : Z) (r : reader) : res (parsed * reader) :=
  if multibulklen r =? 0 then
    _ ← c_assert (bool_decide (r_argv r = []));
    match strchr (querybuf r) CR with
    | None =>
        if Z.of_nat (length (querybuf r)) >? PROTO_INLINE_MAX_SIZE
        then Ok (proto_error "too big mbulk count string" 0 r)
        else Ok (ParseMore, r)
    | Some nl =>
        if Z.of_nat nl >? Z.of_nat (length (querybuf r)) - 2 then Ok (ParseMore, r) else
        _ ← c_assert (bool_decide (querybuf r !! 0%nat = Some 42));
        match string2ll (take (nl - 1) (drop 1 (querybuf r))) with
        | None => Ok (proto_error "invalid mbulk count" 0 r)
        | Some ll =>
            if ll >? 1024 * 1024
            then Ok (proto_error "invalid mbulk count" 0 r)
            else
              let pos := Z.of_nat nl + 2 in
              if ll <=? 0 then
                Ok (ParseOk, MkReader (sdsrange (querybuf r) pos (-1)) 0 (bulklen r) [] (close r))
              else
                Ok (multibulk_loop (Z.to_nat ll) max_bulk pos
                      (MkReader (querybuf r) ll (bulklen r) [] (close r)))
        end
    end
  else
    _ ← c_assert (multibulklen r >? 0);
    Ok (multibulk_loop (Z.to_nat (multibulklen r)) max_bulk 0 r).

(** A line of text; empty arguments are dropped. *)

Definition processInlineBuffer (r : reader) : parsed * reader :=
  match strchr (querybuf r) LF with
  | None =>
      if Z.of_nat (length (querybuf r)) >? PROTO_INLINE_MAX_SIZE
      then proto_error "too big inline request" 0 r
      else (ParseMore, r)
  | Some nl =>
      let querylen := if negb (Nat.eqb nl 0) && bool_decide (querybuf r !! (nl - 1)%nat = Some CR)
                      then (nl - 1)%nat else nl in
      match sdssplitargs (take querylen (querybuf r)) with
      | None => proto_error "unbalanced quotes in inline request" 0 r
      | Some argv =>
          (ParseOk,
           MkReader (sdsrange (querybuf r) (Z.of_nat querylen + 2) (-1)) (multibulklen r) (bulklen r)
             (List.filter (fun a => negb (bool_decide (a = []))) argv) (close r))
      end
  end.

(** ** A number line *)

Lemma print_Z_no z c : 0 <= z -> (c = CR \/ c = 0) -> c ∉ print_Z z.
Proof.
  intros Hz Hc Hin. unfold print_Z in Hin. replace (z <? 0) with false in Hin by lia.
  pose proof (dec_digits z Hz) as F. rewrite Forall_forall in F. specialize (F c Hin).
  unfold is_digit, CR in *. lia.
Qed.

Lemma strchr_app s c t :
  c ∉ s -> 0 ∉ s -> strchr (s ++ c :: t) c = Some (length s).
Proof.
  induction s as [|d s IH]; simpl; [by rewrite Z.eqb_refl|].
  rewrite !not_elem_of_cons. intros [H1 H2] [H3 H4].
  replace (d =? c) with false by lia. replace (d =? 0) with false by lia. by rewrite IH.
Qed.

Lemma strchr_None s c : c ∉ s -> strchr s c = None.
Proof.
  induction s as [|d s IH]; [done|]. rewrite !not_elem_of_cons. intros [H1 H2]. simpl.
  replace (d =? c) with false by lia. destruct (d =? 0); [done|]. by rewrite IH.
Qed.

Lemma header_digits z prefix :
  0 <= z -> prefix <> CR -> prefix <> 0 ->
  (CR ∉ prefix :: print_Z z) /\ (0 ∉ prefix :: print_Z z).
Proof.
  intros Hz H1 H2. rewrite !not_elem_of_cons. split; (split; [done|]); apply print_Z_no; auto.
Qed.

Lemma strchr_header z prefix t :
  0 <= z -> prefix <> CR -> prefix <> 0 ->
  strchr (addReplyLongLongWithPrefix z prefix ++ t) CR = Some (S (length (print_Z z))).
Proof.
  intros Hz H1 H2. destruct (header_digits z prefix Hz H1 H2) as [N1 N2].
  unfold addReplyLongLongWithPrefix, CRLF. rewrite <- !app_assoc.
  exact (strchr_app (prefix :: print_Z z) CR (LF :: t) N1 N2).
Qed.

Lemma header_length z prefix :
  length (addReplyLongLongWithPrefix z prefix) = (length (print_Z z) + 3)%nat.
Proof. unfold addReplyLongLongWithPrefix. rewrite !length_app. simpl. lia. Qed.

Lemma header_number z prefix t :
  take (length (print_Z z)) (drop 1 (addReplyLongLongWithPrefix z prefix ++ t)) = print_Z z.
Proof.
  unfold addReplyLongLongWithPrefix. rewrite <- !app_assoc. cbn [app drop]. rewrite drop_0. apply take_app_length.
Qed.

(** A strict prefix of a number line has no complete line in it. *)

Lemma strchr_partial z prefix P H2 :
  0 <= z -> prefix <> CR -> prefix <> 0 ->
  addReplyLongLongWithPrefix z prefix = P ++ H2 -> H2 <> [] ->
  strchr P CR = None \/ (exists nl, strchr P CR = Some nl /\ length P = S nl).
Proof.
  intros Hz N1 N2 E Hn. destruct (header_digits z prefix Hz N1 N2) as [D1 D2].
  unfold addReplyLongLongWithPrefix, CRLF in E.
  change ([prefix] ++ print_Z z ++ [CR; LF]) with ((prefix :: print_Z z) ++ [CR; LF]) in E.
  apply app_eq_inv in E as [(k & E1 & E2)|(k & E1 & E2)].
  - left. apply strchr_None. rewrite E1, not_elem_of_app in D1. tauto.
  - destruct k as [|x [|y k]].
    + rewrite app_nil_r in E1. subst P. left. by apply strchr_None.
    + injection E2 as <- E2. right. exists (length (prefix :: print_Z z)). rewrite E1.
      rewrite strchr_app by done. split; [done|]. rewrite length_app. simpl. lia.
    + injection E2 as <- <- E2. symmetry in E2. apply app_eq_nil in E2 as [_ ->]. done.
Qed.

(** ** Reading complete arguments *)

(** The bytes that remain to be read for [args] when the length of the first
    is already known ([b]) or not ([b = -1]). *)

Definition rem_enc (b : Z) (args : list bytes) : bytes :=
  if b =? -1 then encode_args args
  else match args with
       | [] => []
       | a :: rest => a ++ CRLF ++ encode_args rest
       end.

Definition known_len (b : Z) (args : list bytes) : Prop :=
  b = -1 \/ exists a rest, args = a :: rest /\ b = Z.of_nat (length a).

Lemma encode_args_cons a args :
  encode_args (a :: args) =
  addReplyLongLongWithPrefix (Z.of_nat (length a)) 36 ++ a ++ CRLF ++ encode_args args.
Proof. unfold encode_args, addReplyBulk. cbn [map concat]. by rewrite <- !app_assoc. Qed.

Lemma trim_pos_drop pos qb : 0 <= pos -> trim_pos pos qb = drop (Z.to_nat pos) qb.
Proof.
  intros Hp. unfold trim_pos. destruct (Z.eqb_spec pos 0) as [->|]; [done|]. simpl.
  by apply sdsrange_suffix.
Qed.

Section reading.

Context (max_bulk : Z).

(** The end of a round: the argument itself. *)

Definition read_arg (n' : nat) (pos : Z) (r : reader) : parsed * reader :=
  let qb := querybuf r in
  if Z.of_nat (length qb) - pos <? bulklen r + 2 then
    (ParseMore, MkReader (trim_pos pos qb) (Z.of_nat (S n')) (bulklen r) (r_argv r) (close r))
  else if (pos =? 0) && (bulklen r >=? PROTO_MBULK_BIG_ARG)
          && (Z.of_nat (length qb) =? bulklen r + 2) then
    multibulk_loop n' max_bulk 0
      (MkReader [] (Z.of_nat n') (-1) (r_argv r ++ [take (Z.to_nat (bulklen r)) qb]) (close r))
  else
    multibulk_loop n' max_bulk (pos + bulklen r + 2)
      (MkReader qb (Z.of_nat n') (-1)
         (r_argv r ++ [take (Z.to_nat (bulklen r)) (drop (Z.to_nat pos) qb)]) (close r)).

Lemma read_arg_more n' pos r :
  0 <= pos -> Z.of_nat (length (querybuf r)) - pos < bulklen r + 2 ->
  read_arg n' pos r =
  (ParseMore, MkReader (drop (Z.to_nat pos) (querybuf r)) (Z.of_nat (S n')) (bulklen r) (r_argv r) (close r)).
Proof.
  intros Hp Hl. unfold read_arg. rewrite trim_pos_drop by done.
  by replace (_ <? bulklen r + 2) with true by lia.
Qed.

(** With the argument complete, whichever way it is taken, the loop goes on
    after it. *)

Lemma read_arg_full n' pos r (a t : bytes) :
  0 <= pos -> drop (Z.to_nat pos) (querybuf r) = a ++ CRLF ++ t -> bulklen r = Z.of_nat (length a) ->
  exists qb pos' ml, read_arg n' pos r =
      multibulk_loop n' max_bulk pos' (MkReader qb ml (-1) (r_argv r ++ [a]) (close r)) /\
    0 <= pos' <= Z.of_nat (length qb) /\ drop (Z.to_nat pos') qb = t /\
    (length qb <= length (querybuf r))%nat.
Proof.
  intros Hp Hd Hb. unfold read_arg.
  assert (length (drop (Z.to_nat pos) (querybuf r)) = length a + 2 + length t)%nat as L
    by (rewrite Hd, !length_app; simpl; lia). rewrite length_drop in L.
  replace (Z.of_nat (length (querybuf r)) - pos <? bulklen r + 2) with false by lia.
  destruct ((pos =? 0) && (bulklen r >=? PROTO_MBULK_BIG_ARG)
            && (Z.of_nat (length (querybuf r)) =? bulklen r + 2)) eqn:E.
  - apply andb_prop in E as [E E3]. apply andb_prop in E as [E1 _]. bool_cases. subst pos.
    change (Z.to_nat 0) with 0%nat in Hd. rewrite drop_0 in Hd. rewrite Hd, Hb, Nat2Z.id, take_app_length. eexists [], 0, _. split; [reflexivity|].
    assert (t = []) as -> by (destruct t; [done|simpl in L; lia]). simpl. split; [lia|]. split; [done|lia].
  - rewrite Hd, Hb, Nat2Z.id, take_app_length. eexists (querybuf r), _, _. split; [reflexivity|].
    split; [lia|]. split; [|done].
    replace (Z.to_nat (pos + Z.of_nat (length a) + 2)) with (Z.to_nat pos + (length a + 2))%nat by lia.
    rewrite <- drop_drop, Hd. rewrite app_assoc.
    replace (length a + 2)%nat with (length (a ++ CRLF)) by (rewrite length_app; simpl; lia).
    by rewrite drop_app_length.
Qed.

(** A round whose length line is complete. *)

Lemma loop_header n' pos r (a t : bytes) :
  0 <= pos -> bulklen r = -1 -> Z.of_nat (length a) <= max_bulk -> Z.of_nat (length a) <= LLONG_MAX ->
  drop (Z.to_nat pos) (querybuf r) = addReplyLongLongWithPrefix (Z.of_nat (length a)) 36 ++ t ->
  exists qb pos' ml, multibulk_loop (S n') max_bulk pos r =
      read_arg n' pos' (MkReader qb ml (Z.of_nat (length a)) (r_argv r) (close r)) /\
    0 <= pos' <= Z.of_nat (length qb) /\ drop (Z.to_nat pos') qb = t /\
    (length qb <= length (querybuf r))%nat.
Proof.
  intros Hp Hb Hm Hll Hd. cbn [multibulk_loop]. cbn [bulklen querybuf multibulklen r_argv close].
  rewrite Hb. change (-1 =? -1) with true. cbv iota.
  rewrite Hd, strchr_header by (lia || done).
  pose proof (f_equal length Hd) as L. rewrite length_drop, length_app, header_length in L.
  set (dl := length (print_Z (Z.of_nat (length a)))) in *.
  destruct (Z.gtb_spec (pos + Z.of_nat (S dl)) (Z.of_nat (length (querybuf r)) - 2)) as [G|_]; [lia|].
  assert (querybuf r !! Z.to_nat pos = Some 36) as H36.
  { rewrite <- (Nat.add_0_r (Z.to_nat pos)), <- lookup_drop, Hd. done. }
  rewrite H36, bool_decide_true by done. cbn [negb].
  replace (S dl - 1)%nat with dl by lia.
  replace (drop (Z.to_nat pos + 1) (querybuf r))
    with (drop 1 (drop (Z.to_nat pos) (querybuf r))) by (by rewrite drop_drop).
  rewrite Hd. unfold dl. rewrite header_number, string2ll_print by (unfold LLONG_MIN; lia). fold dl.
  replace ((Z.of_nat (length a) <? 0) || (Z.of_nat (length a) >? max_bulk)) with false by lia.
  assert (drop (Z.to_nat (pos + Z.of_nat (S dl) + 2)) (querybuf r) = t) as Ht.
  { replace (Z.to_nat (pos + Z.of_nat (S dl) + 2)) with (Z.to_nat pos + (dl + 3))%nat by lia.
    rewrite <- drop_drop, Hd. pose proof (header_length (Z.of_nat (length a)) 36) as HL.
    fold dl in HL. rewrite <- HL. apply drop_app_length. }
  destruct (Z.of_nat (length a) >=? PROTO_MBULK_BIG_ARG) eqn:Big.
  - eexists (sdsrange (querybuf r) (pos + Z.of_nat (S dl) + 2) (-1)), 0, 0.
    split; [unfold read_arg; cbn [bulklen querybuf r_argv close]; rewrite Big; reflexivity|].
    rewrite sdsrange_suffix by lia. rewrite Ht. split; [lia|]. split; [done|].
    rewrite <- Ht, length_drop. lia.
  - eexists (querybuf r), _, 0.
    split; [unfold read_arg; cbn [bulklen querybuf r_argv close]; rewrite Big; reflexivity|].
    split; [lia|]. split; [done|done].
Qed.

Lemma loop_known n' pos r :
  bulklen r <> -1 ->
  multibulk_loop (S n') max_bulk pos r =
  read_arg n' pos (MkReader (querybuf r) (Z.of_nat (S n')) (bulklen r) (r_argv r) (close r)).
Proof.
  intros Hb. cbn [multibulk_loop]. cbn [bulklen querybuf multibulklen r_argv close].
  by replace (bulklen r =? -1) with false by lia.
Qed.

Definition args_fit (args : list bytes) : Prop :=
  Forall (fun a : bytes => Z.of_nat (length a) <= max_bulk /\ Z.of_nat (length a) <= LLONG_MAX) args.

(** When everything is there, all arguments are read, whatever follows. *)

Lemma loop_complete args pos r rest :
  args_fit args -> known_len (bulklen r) args -> 0 <= pos <= Z.of_nat (length (querybuf r)) ->
  drop (Z.to_nat pos) (querybuf r) = rem_enc (bulklen r) args ++ rest ->
  multibulk_loop (length args) max_bulk pos r =
  (ParseOk, MkReader rest 0 (-1) (r_argv r ++ args) (close r)) \/
  (args = [] /\ multibulk_loop (length args) max_bulk pos r =
  (ParseOk, MkReader rest 0 (bulklen r) (r_argv r ++ args) (close r))).
Proof.
  revert pos r. induction args as [|a args IH]; intros pos r Hf Hk Hpos Hd.
  { right. split; [done|]. cbn [length multibulk_loop]. rewrite app_nil_r. rewrite trim_pos_drop by lia.
    rewrite Hd. unfold rem_enc. by destruct (bulklen r =? -1). }
  left. apply Forall_cons in Hf as [[Ha1 Ha2] Hf]. cbn [length].
  assert (forall pos r, 0 <= pos <= Z.of_nat (length (querybuf r)) -> bulklen r = Z.of_nat (length a) ->
    drop (Z.to_nat pos) (querybuf r) = a ++ CRLF ++ encode_args args ++ rest ->
    read_arg (length args) pos r = (ParseOk, MkReader rest 0 (-1) (r_argv r ++ a :: args) (close r))) as Main.
  { clear pos r Hk Hpos Hd. intros pos r Hpos Hb Hd.
    destruct (read_arg_full (length args) pos r a (encode_args args ++ rest) ltac:(lia) Hd Hb)
      as (qb & pos' & ml & -> & Hp' & Hd' & _).
    destruct (IH pos' (MkReader qb ml (-1) (r_argv r ++ [a]) (close r)) Hf ltac:(by left) Hp' Hd') as [->|[-> ->]];
      cbn [r_argv close bulklen]; by rewrite <- app_assoc. }
  destruct (decide (bulklen r = -1)) as [E|E].
  - unfold rem_enc in Hd. rewrite E in Hd. change (-1 =? -1) with true in Hd. cbv iota in Hd.
    rewrite encode_args_cons, <- !app_assoc in Hd.
    destruct (loop_header (length args) pos r a _ ltac:(lia) E Ha1 Ha2 Hd)
      as (qb & pos' & ml & -> & Hp' & Hd' & _). by rewrite Main.
  - destruct Hk as [?|(a' & rest' & [= <- <-] & Hb)]; [done|]. rewrite loop_known by done.
    unfold rem_enc in Hd. replace (bulklen r =? -1) with false in Hd by lia.
    rewrite <- !app_assoc in Hd. by rewrite Main.
Qed.

(** With a strict prefix of what remains, as many arguments as are complete are
    read, and what is left is again a prefix of what remains. *)

Lemma loop_partial args pos r Q :
  args_fit args -> known_len (bulklen r) args -> 0 <= pos <= Z.of_nat (length (querybuf r)) ->
  Z.of_nat (length (querybuf r)) <= PROTO_INLINE_MAX_SIZE -> Q <> [] -> args <> [] ->
  drop (Z.to_nat pos) (querybuf r) ++ Q = rem_enc (bulklen r) args ->
  exists k r', multibulk_loop (length args) max_bulk pos r = (ParseMore, r') /\
    (k < length args)%nat /\ multibulklen r' = Z.of_nat (length args - k) /\
    r_argv r' = r_argv r ++ take k args /\ close r' = close r /\
    known_len (bulklen r') (drop k args) /\ querybuf r' ++ Q = rem_enc (bulklen r') (drop k args) /\
    (length (querybuf r') <= length (querybuf r))%nat.
Proof.
  intros Hf Hk Hpos Hmax HQ. revert pos r Hk Hpos Hmax.
  induction args as [|a args IH]; intros pos r Hk Hpos Hmax Hn Hd; [done|].
  apply Forall_cons in Hf as [[Ha1 Ha2] Hf]. specialize (IH Hf). cbn [length].
  assert (forall pos r, 0 <= pos <= Z.of_nat (length (querybuf r)) -> bulklen r = Z.of_nat (length a) ->
    Z.of_nat (length (querybuf r)) <= PROTO_INLINE_MAX_SIZE ->
    drop (Z.to_nat pos) (querybuf r) ++ Q = a ++ CRLF ++ encode_args args ->
    exists k r', read_arg (length args) pos r = (ParseMore, r') /\
    (k < S (length args))%nat /\ multibulklen r' = Z.of_nat (S (length args) - k) /\
    r_argv r' = r_argv r ++ take k (a :: args) /\ close r' = close r /\
    known_len (bulklen r') (drop k (a :: args)) /\ querybuf r' ++ Q = rem_enc (bulklen r') (drop k (a :: args)) /\
    (length (querybuf r') <= length (querybuf r))%nat) as Main.
  { clear pos r Hk Hpos Hmax Hd. intros pos r Hpos Hb Hmax Hd. rewrite app_assoc in Hd.
    apply app_eq_inv in Hd as [(P2 & E1 & E2)|(H2 & E1 & E2)].
    - rewrite <- app_assoc in E1.
      destruct (read_arg_full (length args) pos r a P2 ltac:(lia) E1 Hb) as (qb & pos' & ml & -> & Hp' & Hd' & Lq).
      assert (args <> []) as Na.
      { intros ->. cbn in E2. symmetry in E2. apply app_eq_nil in E2 as [_ ->]. done. }
      destruct (IH pos' (MkReader qb ml (-1) (r_argv r ++ [a]) (close r)) ltac:(by left) Hp'
                  ltac:(simpl; lia) Na) as (k & r' & E & Hk & M & A & C & K & R & L).
      { cbn [querybuf bulklen]. rewrite Hd'. done. }
      exists (S k), r'. rewrite E. cbn [r_argv close querybuf] in *. split; [done|]. split; [lia|]. split; [done|].
      split; [by rewrite A, <- app_assoc|]. split; [done|]. split; [done|]. split; [done|]. lia.
    - destruct (decide (H2 = [])) as [->|N2].
      + rewrite app_nil_r in E1. simpl in E2.
        (* exactly the first argument is there *)
        destruct (read_arg_full (length args) pos r a [] ltac:(lia) ltac:(by rewrite <- E1, app_nil_r) Hb)
          as (qb & pos' & ml & -> & Hp' & Hd' & Lq).
        assert (args <> []) as Na by (intros ->; by rewrite E2 in HQ).
        destruct (IH pos' (MkReader qb ml (-1) (r_argv r ++ [a]) (close r)) ltac:(by left) Hp'
                    ltac:(simpl; lia) Na) as (k & r' & E & Hk & M & A & C & K & R & L).
        { cbn [querybuf bulklen]. rewrite Hd'. done. }
        exists (S k), r'. rewrite E. cbn [r_argv close querybuf] in *. split; [done|]. split; [lia|]. split; [done|].
        split; [by rewrite A, <- app_assoc|]. split; [done|]. split; [done|]. split; [done|]. lia.
      + pose proof (f_equal length E1) as L. rewrite !length_app, length_drop in L.
        assert (0 < length H2)%nat by (destruct H2; [done|simpl; lia]).
        rewrite read_arg_more by (simpl in L; lia).
        eexists 0%nat, _. split; [reflexivity|]. cbn [multibulklen r_argv close bulklen querybuf take drop].
        split; [lia|]. split; [f_equal; lia|]. split; [by rewrite app_nil_r|]. split; [done|].
        split; [right; eauto|]. split; [|rewrite length_drop; lia].
        unfold rem_enc. rewrite Hb. replace (Z.of_nat (length a) =? -1) with false by lia.
        rewrite E2, app_assoc, <- E1. by rewrite <- app_assoc. }
  destruct (decide (bulklen r = -1)) as [E|E].
  2:{ destruct Hk as [?|(a' & rest' & [= <- <-] & Hb)]; [done|]. rewrite loop_known by done.
      unfold rem_enc in Hd. replace (bulklen r =? -1) with false in Hd by lia.
      by apply (Main pos (MkReader (querybuf r) (Z.of_nat (S (length args))) (bulklen r) (r_argv r) (close r))). }
  unfold rem_enc in Hd. rewrite E in Hd. change (-1 =? -1) with true in Hd. cbv iota in Hd.
  rewrite encode_args_cons in Hd. apply app_eq_inv in Hd as [(P2 & E1 & E2)|(H2 & E1 & E2)].
  - destruct (loop_header (length args) pos r a P2 ltac:(lia) E Ha1 Ha2 E1) as (qb & pos' & ml & -> & Hp' & Hd' & Lq).
    destruct (Main pos' (MkReader qb ml (Z.of_nat (length a)) (r_argv r) (close r)) Hp' eq_refl
                ltac:(simpl; lia)) as (k & r' & ? & ? & ? & ? & ? & ? & ? & ?).
    { cbn [querybuf]. by rewrite Hd'. }
    exists k, r'. cbn [querybuf] in *. repeat (split; [done|]). lia.
  - destruct (decide (H2 = [])) as [->|N2].
    + rewrite app_nil_r in E1. simpl in E2.
      destruct (loop_header (length args) pos r a [] ltac:(lia) E Ha1 Ha2 ltac:(by rewrite <- E1, app_nil_r))
        as (qb & pos' & ml & -> & Hp' & Hd' & Lq).
      destruct (Main pos' (MkReader qb ml (Z.of_nat (length a)) (r_argv r) (close r)) Hp' eq_refl
                  ltac:(simpl; lia)) as (k & r' & ? & ? & ? & ? & ? & ? & ? & ?).
      { cbn [querybuf]. by rewrite Hd'. }
      exists k, r'. cbn [querybuf] in *. repeat (split; [done|]). lia.
    + exists 0%nat. cbn [multibulk_loop]. cbn [bulklen querybuf multibulklen r_argv close].
      rewrite E. change (-1 =? -1) with true. cbv iota.
      assert (forall x y : parsed * reader, x = y -> x = y) as _ by done.
      set (r1 := MkReader (trim_pos pos (querybuf r)) (Z.of_nat (S (length args))) (-1) (r_argv r) (close r)).
      exists r1.
      assert (r_argv r1 = r_argv r ++ take 0 (a :: args) /\ close r1 = close r /\
        known_len (bulklen r1) (drop 0 (a :: args)) /\
        querybuf r1 ++ Q = rem_enc (bulklen r1) (drop 0 (a :: args)) /\
        (length (querybuf r1) <= length (querybuf r))%nat) as Rest.
      { unfold r1. cbn [r_argv close bulklen querybuf take drop]. rewrite app_nil_r. split; [done|].
        split; [done|]. split; [by left|]. rewrite trim_pos_drop by lia. split; [|rewrite length_drop; lia].
        unfold rem_enc. change (-1 =? -1) with true. cbv iota.
        rewrite encode_args_cons, E1, E2. by rewrite <- !app_assoc. }
      destruct (strchr_partial (Z.of_nat (length a)) 36 (drop (Z.to_nat pos) (querybuf r)) H2
                  ltac:(lia) ltac:(done) ltac:(done) E1 N2) as [->|(nl & -> & Lnl)].
      * replace (Z.of_nat (length (querybuf r)) >? PROTO_INLINE_MAX_SIZE) with false by lia.
        split; [done|]. split; [lia|]. split; [unfold r1; cbn [multibulklen]; f_equal; lia|]. done.
      * rewrite length_drop in Lnl.
        replace (pos + Z.of_nat nl >? Z.of_nat (length (querybuf r)) - 2) with true by lia.
        split; [done|]. split; [lia|]. split; [unfold r1; cbn [multibulklen]; f_equal; lia|]. done.
Qed.

End reading.

(** ** The head of a request *)

Definition fresh (qb : bytes) : reader := MkReader qb 0 (-1) [] false.

Definition command_fits (max_bulk : Z) (argv : list bytes) : Prop :=
  argv <> [] /\ Z.of_nat (length argv) <= 1024 * 1024 /\ args_fit max_bulk argv.

#[global] Instance command_fits_dec max_bulk argv : Decision (command_fits max_bulk argv).
Proof. unfold command_fits, args_fit. apply _. Defined.

Lemma head_complete max_bulk argv qb t :
  command_fits max_bulk argv -> qb = addReplyMultiBulkLen (Z.of_nat (length argv)) ++ t ->
  processMultibulkBuffer max_bulk (fresh qb) =
  Ok (multibulk_loop (length argv) max_bulk
        (Z.of_nat (length (addReplyMultiBulkLen (Z.of_nat (length argv)))))
        (MkReader qb (Z.of_nat (length argv)) (-1) [] false)).
Proof.
  intros (Hn & Hl & _) E. unfold processMultibulkBuffer, fresh.
  cbn [multibulklen r_argv querybuf bulklen close]. change (0 =? 0) with true. cbv iota.
  rewrite (bool_decide_true (([] : list bytes) = [])) by done. cbn [c_assert mbind res_bind].
  unfold addReplyMultiBulkLen in E. subst qb. rewrite strchr_header by (lia || done).
  set (n := Z.of_nat (length argv)) in *. set (dl := length (print_Z n)).
  assert (0 < n) by (unfold n; destruct argv; [done|simpl; lia]).
  assert (length (addReplyLongLongWithPrefix n 42) = dl + 3)%nat as HL by apply header_length.
  destruct (Z.gtb_spec (Z.of_nat (S dl)) (Z.of_nat (length (addReplyLongLongWithPrefix n 42 ++ t)) - 2)) as [G|_];
    [rewrite length_app, HL in G; lia|].
  rewrite bool_decide_true by done. cbn [c_assert mbind res_bind].
  replace (S dl - 1)%nat with dl by lia. unfold dl. rewrite header_number. fold dl.
  rewrite string2ll_print by (unfold LLONG_MIN, LLONG_MAX; lia).
  destruct (Z.gtb_spec n (1024 * 1024)); [lia|]. destruct (Z.leb_spec n 0); [lia|].
  unfold addReplyMultiBulkLen. rewrite HL. do 2 f_equal; [unfold n; by rewrite Nat2Z.id|lia].
Qed.

Lemma command_complete max_bulk argv rest :
  command_fits max_bulk argv ->
  processMultibulkBuffer max_bulk (fresh (encode_command argv ++ rest)) =
  Ok (ParseOk, MkReader rest 0 (-1) argv false).
Proof.
  intros H. unfold encode_command. rewrite <- app_assoc. rewrite (head_complete _ _ _ _ H eq_refl).
  f_equal. set (hd := addReplyMultiBulkLen (Z.of_nat (length argv))).
  destruct (loop_complete max_bulk argv (Z.of_nat (length hd))
              (MkReader (hd ++ encode_args argv ++ rest) (Z.of_nat (length argv)) (-1) [] false) rest)
    as [->|[-> ->]]; cbn [bulklen querybuf r_argv close].
  - apply H.
  - by left.
  - rewrite length_app. lia.
  - rewrite Nat2Z.id, drop_app_length. done.
  - done.
  - by destruct H.
Qed.

(** ** A request in pieces *)

(** Each piece is appended to the unread input and the reader is called, until
    it has a command or reports an error. *)

Definition append_input (b : bytes) (r : reader) : reader :=
  MkReader (querybuf r ++ b) (multibulklen r) (bulklen r) (r_argv r) (close r).

Fixpoint run_chunks (max_bulk : Z) (r : reader) (chunks : list bytes) : res (parsed * reader) :=
  match chunks with
  | [] => Ok (ParseMore, r)
  | c :: chunks =>
      '(p, r) ← processMultibulkBuffer max_bulk (append_input c r);
      match p with
      | ParseMore => run_chunks max_bulk r chunks
      | _ => Ok (p, r)
      end
  end.

(** [r] has read part of [argv]; [Q] is what has not arrived. *)

Definition midway (argv : list bytes) (r : reader) (Q : bytes) : Prop :=
  (r = fresh (querybuf r) /\ querybuf r ++ Q = encode_command argv) \/
  (exists k, (k < length argv)%nat /\ multibulklen r = Z.of_nat (length argv - k) /\
     r_argv r = take k argv /\ close r = false /\ known_len (bulklen r) (drop k argv) /\
     querybuf r ++ Q = rem_enc (bulklen r) (drop k argv)).

Lemma fits_drop max_bulk argv k : args_fit max_bulk argv -> args_fit max_bulk (drop k argv).
Proof. apply Forall_drop. Qed.

Section pieces.

Context (max_bulk : Z) (argv : list bytes) (Hfit : command_fits max_bulk argv).

(** The rest of the command arrives, with whatever follows it. *)

Lemma midway_done r Q rest :
  midway argv r Q ->
  processMultibulkBuffer max_bulk (append_input (Q ++ rest) r) = Ok (ParseOk, MkReader rest 0 (-1) argv false).
Proof.
  pose proof Hfit as (Hn & Hl & Hf).
  intros [[-> E]|(k & Hk & Em & Ea & Ec & Kn & E)]; unfold append_input.
  - cbn [querybuf fresh multibulklen bulklen r_argv close] in *. rewrite app_assoc, E.
    by apply command_complete.
  - unfold processMultibulkBuffer. cbn [multibulklen].
    destruct (Z.eqb_spec (multibulklen r) 0); [lia|]. destruct (Z.gtb_spec (multibulklen r) 0); [|lia].
    cbn [c_assert mbind res_bind]. f_equal.
    replace (Z.to_nat (multibulklen r)) with (length (drop k argv)) by (rewrite length_drop; lia).
    destruct (loop_complete max_bulk (drop k argv) 0
                (MkReader (querybuf r ++ Q ++ rest) (multibulklen r) (bulklen r) (r_argv r) (close r)) rest)
      as [->|[D _]]; cbn [querybuf bulklen r_argv close].
    + by apply Forall_drop.
    + done.
    + rewrite length_app. lia.
    + change (Z.to_nat 0) with 0%nat. by rewrite drop_0, app_assoc, E.
    + by rewrite Ea, take_drop, Ec.
    + apply (f_equal length) in D. rewrite length_drop in D. simpl in D. lia.
Qed.

(** The loop, entered with a strict prefix of what remains. *)

Lemma midway_loop pos k r Q :
  Q <> [] -> (k < length argv)%nat -> r_argv r = take k argv -> close r = false ->
  known_len (bulklen r) (drop k argv) -> 0 <= pos <= Z.of_nat (length (querybuf r)) ->
  Z.of_nat (length (querybuf r)) <= PROTO_INLINE_MAX_SIZE ->
  drop (Z.to_nat pos) (querybuf r) ++ Q = rem_enc (bulklen r) (drop k argv) ->
  exists r', multibulk_loop (length argv - k) max_bulk pos r = (ParseMore, r') /\
    midway argv r' Q /\ (length (querybuf r') <= length (querybuf r))%nat.
Proof.
  intros HQ Hk Ea Ec Kn Hpos Hmax E. pose proof Hfit as (_ & _ & Hf).
  destruct (loop_partial max_bulk (drop k argv) pos r Q) as (j & r' & Er & Hj & Em & Ea' & Ec' & Kn' & Eq & L);
    try done; [by apply Forall_drop| |].
  { intros D. apply (f_equal length) in D. rewrite length_drop in D. simpl in D. lia. }
  rewrite length_drop in *. exists r'. split; [done|]. split; [|done]. right. exists (k + j)%nat.
  rewrite drop_drop in *. split; [lia|]. split; [rewrite Em; f_equal; lia|]. split; [|by rewrite Ec'].
  rewrite Ea', Ea. apply (list_eq_same_length _ _ (k + j)).
  - rewrite length_take. lia.
  - rewrite length_app, !length_take, length_drop. lia.
  - intros i x y Hi Hx Hy. rewrite lookup_take_lt in Hy by done.
    destruct (decide (i < k)%nat).
    + rewrite lookup_app_l, lookup_take_lt in Hx by (rewrite ?length_take; lia). congruence.
    + rewrite lookup_app_r, length_take, lookup_take_lt, lookup_drop in Hx by (rewrite ?length_take; lia).
      replace (k + (i - k `min` length argv))%nat with i in Hx by lia. congruence.
Qed.

Lemma midway_more r Q :
  Q <> [] -> midway argv r Q -> Z.of_nat (length (querybuf r)) <= PROTO_INLINE_MAX_SIZE ->
  exists r', processMultibulkBuffer max_bulk r = Ok (ParseMore, r') /\
    midway argv r' Q /\ (length (querybuf r') <= length (querybuf r))%nat.
Proof.
  intros HQ M Hmax. pose proof Hfit as (Hn & Hl & Hf).
  assert (0 < length argv)%nat as Hpos by (destruct argv; [done|simpl; lia]).
  destruct M as [[Er E]|(k & Hk & Em & Ea & Ec & Kn & E)].
  - rewrite Er. set (P := querybuf r) in *. clearbody P. clear r Er. unfold encode_command in E.
    apply app_eq_inv in E as [(P2 & E1 & E2)|(H2 & E1 & E2)].
    + rewrite (head_complete max_bulk argv P P2 Hfit E1).
      destruct (midway_loop (Z.of_nat (length (addReplyMultiBulkLen (Z.of_nat (length argv))))) 0
                  (MkReader P (Z.of_nat (length argv)) (-1) [] false) Q) as (r' & Er & M & L);
        cbn [bulklen querybuf r_argv close] in *; try done; [by left| | |].
      { rewrite E1, length_app. lia. }
      { rewrite Nat2Z.id, E1, drop_app_length, drop_0. done. }
      rewrite Nat.sub_0_r in Er. rewrite Er. eauto.
    + destruct (decide (H2 = [])) as [->|N2].
      * rewrite app_nil_r in E1.
        rewrite (head_complete max_bulk argv P [] Hfit) by (by rewrite E1, app_nil_r).
        destruct (midway_loop (Z.of_nat (length (addReplyMultiBulkLen (Z.of_nat (length argv))))) 0
                    (MkReader P (Z.of_nat (length argv)) (-1) [] false) Q) as (r' & Er & M & L);
          cbn [bulklen querybuf r_argv close] in *; try done; [by left| | |].
        { rewrite E1. lia. }
        { rewrite Nat2Z.id, <- E1, drop_all. simpl in E2. rewrite drop_0. done. }
        rewrite Nat.sub_0_r in Er. rewrite Er. eauto.
      * exists (fresh P). split; [|split; [left; split; [done|]|done]].
        2:{ unfold encode_command. rewrite E1, E2. by rewrite app_assoc. }
        unfold processMultibulkBuffer, fresh. cbn [multibulklen r_argv querybuf bulklen close].
        change (0 =? 0) with true. cbv iota.
        rewrite (bool_decide_true (([] : list bytes) = [])) by done. cbn [c_assert mbind res_bind].
        destruct (strchr_partial (Z.of_nat (length argv)) 42 P H2) as [->|(nl & -> & Lp)]; [lia|done..| |].
        { destruct (Z.gtb_spec (Z.of_nat (length P)) PROTO_INLINE_MAX_SIZE); [simpl in *; lia|done]. }
        destruct (Z.gtb_spec (Z.of_nat nl) (Z.of_nat (length P) - 2)); [done|lia].
  - unfold processMultibulkBuffer. rewrite Em.
    destruct (Z.eqb_spec (Z.of_nat (length argv - k)) 0); [lia|].
    destruct (Z.gtb_spec (Z.of_nat (length argv - k)) 0); [|lia].
    cbn [c_assert mbind res_bind]. rewrite Nat2Z.id.
    destruct (midway_loop 0 k r Q) as (r' & -> & ?); try done; [lia|]. eauto.
Qed.

Lemma midway_app r Q c : midway argv r (c ++ Q) -> midway argv (append_input c r) Q.
Proof.
  intros [[-> E]|(k & ? & ? & ? & ? & ? & E)]; [left|right; exists k];
    unfold append_input; cbn [querybuf multibulklen bulklen r_argv close fresh] in *;
    rewrite <- app_assoc; auto 10.
Qed.

Lemma run_chunks_midway chunks r :
  midway argv r (concat chunks) -> concat chunks <> [] ->
  Z.of_nat (length (querybuf r)) + Z.of_nat (length (concat chunks)) <= PROTO_INLINE_MAX_SIZE ->
  run_chunks max_bulk r chunks = Ok (ParseOk, MkReader [] 0 (-1) argv false).
Proof.
  revert r. induction chunks as [|c chunks IH]; intros r M Hn Hmax; [done|].
  cbn [concat run_chunks] in *. rewrite length_app in Hmax.
  destruct (decide (concat chunks = [])) as [E|N].
  - rewrite E, app_nil_r in M. pose proof (midway_done _ _ [] M) as D. rewrite app_nil_r in D. by rewrite D.
  - apply midway_app in M. destruct (midway_more _ _ N M) as (r' & -> & M' & L).
    { unfold append_input. cbn [querybuf]. rewrite length_app. lia. }
    unfold append_input in L. cbn [querybuf] in L. rewrite length_app in L. apply IH; [done..|]. lia.
Qed.

End pieces.

(** ** Lines of text *)

Lemma inline_line args (e rest : bytes) r :
  Forall bytes_ok args -> (e = [LF] \/ e = CRLF) ->
  querybuf r = sdsjoinsds (map (sdscatrepr []) args) [32] ++ e ++ rest ->
  processInlineBuffer r =
  (ParseOk,
   MkReader (sdsrange (querybuf r) (Z.of_nat (length (sdsjoinsds (map (sdscatrepr []) args) [32])) + 2) (-1))
     (multibulklen r) (bulklen r) (List.filter (fun a => negb (bool_decide (a = []))) args) (close r)).
Proof.
  intros Hok He Hq. set (line := sdsjoinsds (map (sdscatrepr []) args) [32]) in *.
  assert (forall c, 0 <= c < 32 -> c ∉ line) as N by (intros c; by apply repr_line_clean).
  assert (sdssplitargs line = Some args) as Hs by (by apply sdssplitargs_repr).
  assert (LF ∉ line) as N1 by (apply N; unfold LF; lia). assert (0 ∉ line) as N2 by (apply N; lia).
  unfold processInlineBuffer. destruct He as [-> | ->]; rewrite Hq.
  - change (line ++ [LF] ++ rest) with (line ++ LF :: rest). rewrite strchr_app by done.
    rewrite (bool_decide_false ((line ++ LF :: rest) !! (length line - 1)%nat = Some CR)).
    { rewrite andb_false_r, take_app_length, Hs. done. }
    intros H. destruct (decide (line = [])) as [->|Hn]; [done|].
    assert (length line <> 0)%nat by (by destruct line).
    rewrite lookup_app_l in H by lia. apply list_elem_of_lookup_2 in H. by apply (N CR).
  - change (line ++ CRLF ++ rest) with (line ++ [CR] ++ LF :: rest). rewrite app_assoc.
    rewrite strchr_app; [|by rewrite not_elem_of_app, list_elem_of_singleton..].
    assert (length (line ++ [CR]) = S (length line)) as -> by (rewrite length_app; simpl; lia).
    replace (S (length line) - 1)%nat with (length line) by lia.
    rewrite <- app_assoc. rewrite bool_decide_true by (by apply (list_lookup_middle line (LF :: rest) CR)).
    cbn [Nat.eqb negb andb].
    rewrite take_app_length, Hs. done.
Qed.

(** A command that the writers encode ([addReplyMultiBulkLen] and one
    [addReplyBulk] per argument), within the protocol's limits, is read back by
    [processMultibulkBuffer] as exactly its arguments, in one call and whatever
    follows it in the buffer; the bytes that follow are what stays in the
    buffer, and the client's reading state is the initial one again. *)
Lemma processMultibulkBuffer_roundtrip (max_bulk : Z) (argv : list bytes) (rest : bytes)
    (Hfit : command_fits max_bulk argv) :
  processMultibulkBuffer max_bulk (fresh (encode_command argv ++ rest)) =
  Ok (ParseOk, MkReader rest 0 (-1) argv false).
Proof. by apply command_complete. Qed.

Lemma processMultibulkBuffer_roundtrip_witness :
  processMultibulkBuffer 512 (fresh (encode_command [str "crdt.ovc"; str "1:100;2:7"; []] ++ str "*1")) =
  Ok (ParseOk, MkReader (str "*1") 0 (-1) [str "crdt.ovc"; str "1:100;2:7"; []] false).
Proof. apply processMultibulkBuffer_roundtrip. decide_now. Defined.

(** A command that arrives in pieces, cut anywhere (inside a number, a
    line end or an argument, into empty pieces too), is read as if it had
    arrived at once: every call but the last asks for more, none reports a
    protocol error, and the last returns exactly the arguments.  The bound is
    the one the code puts on unparsed input, [PROTO_INLINE_MAX_SIZE]. *)
Lemma processMultibulkBuffer_chunks (max_bulk : Z) (argv : list bytes) (chunks : list bytes)
    (Hfit : command_fits max_bulk argv) (Hcut : concat chunks = encode_command argv)
    (Hmax : Z.of_nat (length (encode_command argv)) <= PROTO_INLINE_MAX_SIZE) :
  run_chunks max_bulk (fresh []) chunks = Ok (ParseOk, MkReader [] 0 (-1) argv false).
Proof.
  apply run_chunks_midway; [done| |by rewrite Hcut|by rewrite Hcut].
  left. split; [done|]. by rewrite Hcut.
Qed.

Lemma processMultibulkBuffer_chunks_witness :
  run_chunks 512 (fresh []) [str "*"; [50; 13]; []; [10; 36; 51; 13; 10; 103; 101]; [116; 13];
                             [10; 36; 49; 13; 10; 107]; [13; 10]] =
  Ok (ParseOk, MkReader [] 0 (-1) [str "get"; str "k"] false).
Proof. apply processMultibulkBuffer_chunks; decide_now. Defined.

(** An inline request.  A line of quoted arguments that ends in CR LF gives
    those arguments, without the empty ones, and leaves the bytes after the
    line.  After a line that ends in LF alone, which [processInlineBuffer]
    accepts as well, the first byte that follows the line is dropped: the
    buffer is cut two bytes after the text in both cases. *)
Lemma processInlineBuffer_line (args : list bytes) (rest : bytes) (Hok : Forall bytes_ok args) :
  let line := sdsjoinsds (map (sdscatrepr []) args) [32] in
  let nonempty := List.filter (fun a : bytes => negb (bool_decide (a = []))) args in
  processInlineBuffer (fresh (line ++ CRLF ++ rest)) = (ParseOk, MkReader rest 0 (-1) nonempty false) /\
  processInlineBuffer (fresh (line ++ [LF] ++ rest)) = (ParseOk, MkReader (drop 1 rest) 0 (-1) nonempty false).
Proof.
  intros line nonempty.
  split; [rewrite (inline_line args CRLF rest) by auto|rewrite (inline_line args [LF] rest) by auto];
    cbn [fresh querybuf multibulklen bulklen close]; rewrite sdsrange_suffix by lia; do 2 f_equal; fold line;
    replace (Z.to_nat (Z.of_nat (length line) + 2)) with (length line + 2)%nat by lia;
    rewrite drop_app_add; done.
Qed.

Lemma processInlineBuffer_line_witness :
  processInlineBuffer (fresh ([34; 103; 34] ++ [LF] ++ str "ping")) =
  (ParseOk, MkReader (str "ing") 0 (-1) [str "g"] false).
Proof. apply (processInlineBuffer_line [str "g"] (str "ping")). decide_now. Defined.
