(* ===== verification/Pubsub.v ===== *)
(** * Publish and subscribe ([src/src/pubsub.c], [src/src/notify.c])

    There are two sets of subscriptions, one in [server] and one in [crdtServer]:
    the first gets what PUBLISH and the keyspace events send, the second what the
    CRDT module publishes.  A server maps a channel to its clients, and keeps the
    patterns in a list; a client has its own channels and patterns for each.  The
    reference counts of the names are not modelled. *)

From S2P Require Import Prelude Util Resp Glob.

(** ** State *)

(** [srv == &crdtServer]? *)

Inductive instance := TheServer | TheCrdtServer.

#[global] Instance instance_eq_dec : EqDecision instance.
Proof. solve_decision. Defined.

(** A field that each of them has. *)

Record both (A : Type) := MkBoth { in_server : A; in_crdtServer : A }.

Arguments MkBoth {A} _ _.
Arguments in_server {A} _.
Arguments in_crdtServer {A} _.

Definition at_ {A} (b : both A) (srv : instance) : A :=
  match srv with TheServer => in_server b | TheCrdtServer => in_crdtServer b end.

Coercion at_ : both >-> Funclass.

Definition set_for {A} (srv : instance) (a : A) (b : both A) : both A :=
  match srv with
  | TheServer => MkBoth a (in_crdtServer b)
  | TheCrdtServer => MkBoth (in_server b) a
  end.

Record pubsubs := MkPubsubs {
  pubsub_channels : gmap bytes (list nat);
  pubsub_patterns : list (nat * bytes)
}.

(** [pc_channels], [pc_patterns]: [pubsub_*] and [crdt_pubsub_*] of a client. *)

Record pclient := MkPc {
  pc_channels : both (gset bytes);
  pc_patterns : both (list bytes);
  pc_pubsub : bool;
  pc_force_repl : bool;
  pc_out : bytes
}.

(** [ps_bus]: what was sent to the other nodes of a cluster. *)

Record pserver := MkPs {
  ps_subs : both pubsubs;
  ps_clients : gmap nat pclient;
  ps_cluster_enabled : bool;
  ps_bus : list (bytes * bytes)
}.

Definition set_pc_channels (srv : instance) (v : gset bytes) (c : pclient) : pclient :=
  MkPc (set_for srv v (pc_channels c)) (pc_patterns c) (pc_pubsub c) (pc_force_repl c) (pc_out c).

Definition set_pc_patterns (srv : instance) (v : list bytes) (c : pclient) : pclient :=
  MkPc (pc_channels c) (set_for srv v (pc_patterns c)) (pc_pubsub c) (pc_force_repl c) (pc_out c).

Definition set_pc_pubsub (v : bool) (c : pclient) : pclient :=
  MkPc (pc_channels c) (pc_patterns c) v (pc_force_repl c) (pc_out c).

Definition set_pc_force_repl (v : bool) (c : pclient) : pclient :=
  MkPc (pc_channels c) (pc_patterns c) (pc_pubsub c) v (pc_out c).

Definition put (p : bytes) (c : pclient) : pclient :=
  MkPc (pc_channels c) (pc_patterns c) (pc_pubsub c) (pc_force_repl c) (pc_out c ++ p).

Definition new_client : pclient := MkPc (MkBoth ∅ ∅) (MkBoth [] []) false false [].

Definition set_ps_clients (v : gmap nat pclient) (st : pserver) : pserver :=
  MkPs (ps_subs st) v (ps_cluster_enabled st) (ps_bus st).

Definition on_client (f : pclient -> pclient) (id : nat) (st : pserver) : pserver :=
  set_ps_clients (alter f id (ps_clients st)) st.

Definition set_channels (srv : instance) (v : gmap bytes (list nat)) (st : pserver) : pserver :=
  MkPs (set_for srv (MkPubsubs v (pubsub_patterns (ps_subs st srv))) (ps_subs st))
    (ps_clients st) (ps_cluster_enabled st) (ps_bus st).

Definition set_patterns (srv : instance) (v : list (nat * bytes)) (st : pserver) : pserver :=
  MkPs (set_for srv (MkPubsubs (pubsub_channels (ps_subs st srv)) v) (ps_subs st))
    (ps_clients st) (ps_cluster_enabled st) (ps_bus st).

Definition the_client (id : nat) (st : pserver) : res pclient := need (ps_clients st !! id).

(** ** Replies *)

Definition shared_nullbulk : bytes := str "$-1" ++ CRLF.

(** The notices of [src/src/server.c]: [shared.subscribebulk] and the like. *)

Inductive notice := NSubscribe | NUnsubscribe | NPsubscribe | NPunsubscribe.

Definition notice_name (n : notice) (srv : instance) : bytes :=
  match srv, n with
  | TheServer, NSubscribe => str "subscribe"
  | TheServer, NUnsubscribe => str "unsubscribe"
  | TheServer, NPsubscribe => str "psubscribe"
  | TheServer, NPunsubscribe => str "punsubscribe"
  | TheCrdtServer, NSubscribe => str "crdtsubscribe"
  | TheCrdtServer, NUnsubscribe => str "crdtunsubscribe"
  | TheCrdtServer, NPsubscribe => str "crdtpsubscribe"
  | TheCrdtServer, NPunsubscribe => str "crdtpunsubscribe"
  end.

(** [clientSubscriptionsCount] and [clientCrdtSubscriptionsCount]. *)

Definition clientSubscriptionsCount (srv : instance) (c : pclient) : Z :=
  Z.of_nat (size (pc_channels c srv)) + Z.of_nat (length (pc_patterns c srv)).

(** The three-part reply after each change; [name] is already encoded. *)

Definition notify_text (n : notice) (srv : instance) (name : bytes) (c : pclient) : bytes :=
  addReplyMultiBulkLen 3 ++ addReplyBulk (notice_name n srv) ++ name ++ addReplyLongLong (clientSubscriptionsCount srv c).

Definition notify (n : notice) (srv : instance) (name : bytes) (c : pclient) : pclient :=
  put (notify_text n srv name c) c.

(** ** The low level *)

Definition pubsubSubscribeChannel (srv : instance) (id : nat) (channel : bytes) (st : pserver) : res pserver :=
  c ← the_client id st;
  let st :=
    if bool_decide (channel ∈ pc_channels c srv) then st else
    let st := on_client (set_pc_channels srv ({[channel]} ∪ pc_channels c srv)) id st in
    let clients := default [] (pubsub_channels (ps_subs st srv) !! channel) in
    set_channels srv (<[channel := clients ++ [id]]> (pubsub_channels (ps_subs st srv))) st in
  Ok (on_client (notify NSubscribe srv (addReplyBulk channel)) id st).

(** [listSearchKey] and [listDelNode]: without its first node that matches. *)

Fixpoint del_first {A} (match_ : A -> bool) (l : list A) : option (list A) :=
  match l with
  | [] => None
  | x :: l => if match_ x then Some l else option_map (cons x) (del_first match_ l)
  end.

(** Gives whether the client was subscribed. *)

Definition pubsubUnsubscribeChannel (srv : instance) (id : nat) (channel : bytes) (notify_ : bool) (st : pserver) :
    res (bool * pserver) :=
  c ← the_client id st;
  let was := bool_decide (channel ∈ pc_channels c srv) in
  st ← (if was then
          let st := on_client (set_pc_channels srv (pc_channels c srv ∖ {[channel]})) id st in
          match pubsub_channels (ps_subs st srv) !! channel with
          | None => Abort
          | Some clients =>
              match del_first (Nat.eqb id) clients with
              | None => Abort
              | Some [] => Ok (set_channels srv (delete channel (pubsub_channels (ps_subs st srv))) st)
              | Some clients => Ok (set_channels srv (<[channel := clients]> (pubsub_channels (ps_subs st srv))) st)
              end
          end
        else Ok st);
  Ok (was, if notify_ then on_client (notify NUnsubscribe srv (addReplyBulk channel)) id st else st).

Definition same_bytes (a b : bytes) : bool := bool_decide (a = b).

Definition listMatchPubsubPattern (pa pb : nat * bytes) : bool :=
  (fst pa =? fst pb)%nat && same_bytes (snd pa) (snd pb).

Definition pubsubSubscribePattern (srv : instance) (id : nat) (pattern : bytes) (st : pserver) : res pserver :=
  c ← the_client id st;
  let st :=
    if existsb (same_bytes pattern) (pc_patterns c srv) then st else
    let st := on_client (set_pc_patterns srv (pc_patterns c srv ++ [pattern])) id st in
    set_patterns srv (pubsub_patterns (ps_subs st srv) ++ [(id, pattern)]) st in
  Ok (on_client (notify NPsubscribe srv (addReplyBulk pattern)) id st).

Definition pubsubUnsubscribePattern (srv : instance) (id : nat) (pattern : bytes) (notify_ : bool) (st : pserver) :
    res (bool * pserver) :=
  c ← the_client id st;
  '(was, st) ← (match del_first (same_bytes pattern) (pc_patterns c srv) with
                | None => Ok (false, st)
                | Some own =>
                    let st := on_client (set_pc_patterns srv own) id st in
                    all ← need (del_first (listMatchPubsubPattern (id, pattern)) (pubsub_patterns (ps_subs st srv)));
                    Ok (true, set_patterns srv all st)
                end);
  Ok (was, if notify_ then on_client (notify NPunsubscribe srv (addReplyBulk pattern)) id st else st).

(** The loops over the channels or the patterns of a client. *)

Fixpoint unsubscribe_each (f : bytes -> pserver -> res (bool * pserver)) (names : list bytes) (st : pserver) :
    res (nat * pserver) :=
  match names with
  | [] => Ok (O, st)
  | name :: names =>
      '(was, st) ← f name st;
      '(count, st) ← unsubscribe_each f names st;
      Ok (if was : bool then S count else count, st)
  end.

(** [order]: how the iteration visits the keys of a dictionary. *)

Definition pubsubUnsubscribeAllChannels (order : gset bytes -> list bytes) (srv : instance) (id : nat) (notify_ : bool)
    (st : pserver) : res pserver :=
  c ← the_client id st;
  '(count, st) ← unsubscribe_each (fun channel => pubsubUnsubscribeChannel srv id channel notify_) (order (pc_channels c srv)) st;
  Ok (if notify_ && (count =? 0)%nat then on_client (notify NUnsubscribe srv shared_nullbulk) id st else st).

Definition pubsubUnsubscribeAllPatterns (srv : instance) (id : nat) (notify_ : bool) (st : pserver) : res pserver :=
  c ← the_client id st;
  '(count, st) ← unsubscribe_each (fun pattern => pubsubUnsubscribePattern srv id pattern notify_) (pc_patterns c srv) st;
  Ok (if notify_ && (count =? 0)%nat then on_client (notify NPunsubscribe srv shared_nullbulk) id st else st).

(** ** Publishing *)

Definition message_text (channel message : bytes) : bytes :=
  addReplyMultiBulkLen 3 ++ addReplyBulk (str "message") ++ addReplyBulk channel ++ addReplyBulk message.

Definition pmessage_text (pattern channel message : bytes) : bytes :=
  addReplyMultiBulkLen 4 ++ addReplyBulk (str "pmessage") ++ addReplyBulk pattern ++ addReplyBulk channel ++ addReplyBulk message.

Fixpoint message_loop (channel message : bytes) (clients : list nat) (receivers : Z) (st : pserver) : Z * pserver :=
  match clients with
  | [] => (receivers, st)
  | id :: clients => message_loop channel message clients (receivers + 1) (on_client (put (message_text channel message)) id st)
  end.

Fixpoint pmessage_loop (channel message : bytes) (patterns : list (nat * bytes)) (receivers : Z) (st : pserver) :
    res (Z * pserver) :=
  match patterns with
  | [] => Ok (receivers, st)
  | (id, pattern) :: patterns =>
      b ← stringmatchlen pattern channel false;
      if b : bool
      then pmessage_loop channel message patterns (receivers + 1) (on_client (put (pmessage_text pattern channel message)) id st)
      else pmessage_loop channel message patterns receivers st
  end.

Definition pubsubPublishMessage (srv : instance) (channel message : bytes) (st : pserver) : res (Z * pserver) :=
  let '(receivers, st) :=
    match pubsub_channels (ps_subs st srv) !! channel with
    | Some clients => message_loop channel message clients 0 st
    | None => (0, st)
    end in
  pmessage_loop channel message (pubsub_patterns (ps_subs st srv)) receivers st.

(** ** Commands; [args] are the arguments after the name *)

Fixpoint subscribe_each (f : bytes -> pserver -> res pserver) (names : list bytes) (st : pserver) : res pserver :=
  match names with
  | [] => Ok st
  | name :: names => st ← f name st; subscribe_each f names st
  end.

Definition subscribeCommand (srv : instance) (id : nat) (args : list bytes) (st : pserver) : res pserver :=
  st ← subscribe_each (pubsubSubscribeChannel srv id) args st;
  Ok (on_client (set_pc_pubsub true) id st).

Definition psubscribeCommand (srv : instance) (id : nat) (args : list bytes) (st : pserver) : res pserver :=
  st ← subscribe_each (pubsubSubscribePattern srv id) args st;
  Ok (on_client (set_pc_pubsub true) id st).

(** [if (clientSubscriptionsCount(c) == 0) c->flags &= ~CLIENT_PUBSUB] *)

Definition leave_pubsub (srv : instance) (c : pclient) : pclient :=
  if clientSubscriptionsCount srv c =? 0 then set_pc_pubsub false c else c.

Definition unsubscribeCommand (order : gset bytes -> list bytes) (srv : instance) (id : nat) (args : list bytes) (st : pserver) :
    res pserver :=
  st ← match args with
       | [] => pubsubUnsubscribeAllChannels order srv id true st
       | _ => '(_, st) ← unsubscribe_each (fun channel => pubsubUnsubscribeChannel srv id channel true) args st; Ok st
       end;
  Ok (on_client (leave_pubsub srv) id st).

Definition punsubscribeCommand (srv : instance) (id : nat) (args : list bytes) (st : pserver) : res pserver :=
  st ← match args with
       | [] => pubsubUnsubscribeAllPatterns srv id true st
       | _ => '(_, st) ← unsubscribe_each (fun pattern => pubsubUnsubscribePattern srv id pattern true) args st; Ok st
       end;
  Ok (on_client (leave_pubsub srv) id st).

Definition publishCommand (id : nat) (channel message : bytes) (st : pserver) : res pserver :=
  '(receivers, st) ← pubsubPublishMessage TheServer channel message st;
  let st := if ps_cluster_enabled st
            then MkPs (ps_subs st) (ps_clients st) (ps_cluster_enabled st) (ps_bus st ++ [(channel, message)])
            else on_client (set_pc_force_repl true) id st in
  Ok (on_client (put (addReplyLongLong receivers)) id st).

Fixpoint matching (pattern : option bytes) (channels : list bytes) : res (list bytes) :=
  match channels with
  | [] => Ok []
  | channel :: channels =>
      b ← match pattern with None => Ok true | Some p => stringmatchlen p channel false end;
      rest ← matching pattern channels;
      Ok (if b : bool then channel :: rest else rest)
  end.

(** [channels], [numsub] and [numpat]: what is looked up. *)

Definition pubsub_text (channels : option bytes -> res (list bytes)) (numsub : bytes -> Z) (numpat : Z) (args : list bytes) : res bytes :=
  sub ← need (args !! 0%nat);
  let argc := S (length args) in
  if strcaseeq (cstr sub) (str "channels") && ((argc =? 2)%nat || (argc =? 3)%nat) then
    found ← channels (args !! 1%nat);
    Ok (addReplyMultiBulkLen (Z.of_nat (length found)) ++ encode_args found)
  else if strcaseeq (cstr sub) (str "numsub") && (2 <=? argc)%nat then
    Ok (addReplyMultiBulkLen ((Z.of_nat argc - 2) * 2) ++
        concat (map (fun channel => addReplyBulk channel ++ addReplyLongLong (numsub channel)) (tl args)))
  else if strcaseeq (cstr sub) (str "numpat") && (argc =? 2)%nat then Ok (addReplyLongLong numpat)
  else Ok (addReplyErrorFormat
             (str "Unknown PUBSUB subcommand or wrong number of arguments for '" ++ cstr sub ++ str "'")).

Definition pubsub (order : gset bytes -> list bytes) (srv : instance) (id : nat) (args : list bytes) (st : pserver) : res pserver :=
  let s := ps_subs st srv in
  reply ← pubsub_text (fun pat => matching pat (order (dom (pubsub_channels s))))
            (fun channel => Z.of_nat (length (default [] (pubsub_channels s !! channel))))
            (Z.of_nat (length (pubsub_patterns s))) args;
  Ok (on_client (put reply) id st).

Definition wrong_args (name : bytes) : bytes :=
  addReplyErrorFormat (str "wrong number of arguments for '" ++ name ++ str "' command").

Definition shared_pong : bytes := str "+PONG" ++ CRLF.

Definition ping_text (args : list bytes) (c : pclient) : bytes :=
  match args with
  | _ :: _ :: _ => wrong_args (str "ping")
  | [] => if pc_pubsub c then addReplyMultiBulkLen 2 ++ addReplyBulkCBuffer (str "pong") ++ addReplyBulkCBuffer [] else shared_pong
  | [a] => if pc_pubsub c then addReplyMultiBulkLen 2 ++ addReplyBulkCBuffer (str "pong") ++ addReplyBulk a else addReplyBulk a
  end.

Definition pingCommand (id : nat) (args : list bytes) (st : pserver) : res pserver :=
  Ok (on_client (fun c => put (ping_text args c) c) id st).

(** ** Keyspace events *)

Definition NOTIFY_KEYSPACE : Z := Z.shiftl 1 0.

Definition NOTIFY_KEYEVENT : Z := Z.shiftl 1 1.

Definition NOTIFY_GENERIC : Z := Z.shiftl 1 2.

Definition NOTIFY_STRING : Z := Z.shiftl 1 3.

Definition NOTIFY_LIST : Z := Z.shiftl 1 4.

Definition NOTIFY_SET : Z := Z.shiftl 1 5.

Definition NOTIFY_HASH : Z := Z.shiftl 1 6.

Definition NOTIFY_ZSET : Z := Z.shiftl 1 7.

Definition NOTIFY_EXPIRED : Z := Z.shiftl 1 8.

Definition NOTIFY_EVICTED : Z := Z.shiftl 1 9.

Definition NOTIFY_ALL : Z :=
  Z.lor NOTIFY_GENERIC (Z.lor NOTIFY_STRING (Z.lor NOTIFY_LIST (Z.lor NOTIFY_SET (Z.lor NOTIFY_HASH
    (Z.lor NOTIFY_ZSET (Z.lor NOTIFY_EXPIRED NOTIFY_EVICTED)))))).

Definition class_flag (c : Z) : option Z :=
  if c =? 65 then Some NOTIFY_ALL
  else if c =? 103 then Some NOTIFY_GENERIC
  else if c =? 36 then Some NOTIFY_STRING
  else if c =? 108 then Some NOTIFY_LIST
  else if c =? 115 then Some NOTIFY_SET
  else if c =? 104 then Some NOTIFY_HASH
  else if c =? 122 then Some NOTIFY_ZSET
  else if c =? 120 then Some NOTIFY_EXPIRED
  else if c =? 101 then Some NOTIFY_EVICTED
  else if c =? 75 then Some NOTIFY_KEYSPACE
  else if c =? 69 then Some NOTIFY_KEYEVENT
  else None.

Fixpoint classes_loop (classes : bytes) (flags : Z) : Z :=
  match classes with
  | [] => flags
  | c :: classes => match class_flag c with Some f => classes_loop classes (Z.lor flags f) | None => -1 end
  end.

Definition keyspaceEventsStringToFlags (classes : bytes) : Z := classes_loop (cstr classes) 0.

Definition keyspaceEventsFlagsToString (flags : Z) : bytes :=
  let has f := negb (Z.land flags f =? 0) in
  (if Z.land flags NOTIFY_ALL =? NOTIFY_ALL then str "A"
   else (if has NOTIFY_GENERIC then str "g" else []) ++
        (if has NOTIFY_STRING then str "$" else []) ++
        (if has NOTIFY_LIST then str "l" else []) ++
        (if has NOTIFY_SET then str "s" else []) ++
        (if has NOTIFY_HASH then str "h" else []) ++
        (if has NOTIFY_ZSET then str "z" else []) ++
        (if has NOTIFY_EXPIRED then str "x" else []) ++
        (if has NOTIFY_EVICTED then str "e" else [])) ++
  (if has NOTIFY_KEYSPACE then str "K" else []) ++
  (if has NOTIFY_KEYEVENT then str "E" else []).

(** [events]: [server.notify_keyspace_events]. *)

Definition notifyKeyspaceEvent (events : Z) (type : Z) (event key : bytes) (dbid : Z) (st : pserver) : res pserver :=
  let has f := negb (Z.land events f =? 0) in
  if negb (has type) then Ok st else
  let chan (kind name : bytes) := kind ++ print_Z dbid ++ str "__:" ++ name in
  st ← (if has NOTIFY_KEYSPACE then
          '(_, st) ← pubsubPublishMessage TheServer (chan (str "__keyspace@") key) event st; Ok st
        else Ok st);
  if has NOTIFY_KEYEVENT then
    '(_, st) ← pubsubPublishMessage TheServer (chan (str "__keyevent@") event) key st; Ok st
  else Ok st.

(** ** Requests *)

(** The commands of the table of [src/src/server.c]. *)

Inductive pscommand :=
| SUBSCRIBE (srv : instance)
| UNSUBSCRIBE (srv : instance)
| PSUBSCRIBE (srv : instance)
| PUNSUBSCRIBE (srv : instance)
| PUBLISH
| PUBSUB (srv : instance)
| PING.

Definition arity_of (cmd : pscommand) : Z :=
  match cmd with
  | SUBSCRIBE _ | PSUBSCRIBE _ | PUBSUB _ => -2
  | UNSUBSCRIBE _ | PUNSUBSCRIBE _ | PING => -1
  | PUBLISH => 3
  end.

Definition name_of (cmd : pscommand) : bytes :=
  match cmd with
  | SUBSCRIBE TheServer => str "subscribe"
  | SUBSCRIBE TheCrdtServer => str "crdt.subscribe"
  | UNSUBSCRIBE TheServer => str "unsubscribe"
  | UNSUBSCRIBE TheCrdtServer => str "crdt.unsubscribe"
  | PSUBSCRIBE TheServer => str "psubscribe"
  | PSUBSCRIBE TheCrdtServer => str "crdt.psubscribe"
  | PUNSUBSCRIBE TheServer => str "punsubscribe"
  | PUNSUBSCRIBE TheCrdtServer => str "crdt.punsubscribe"
  | PUBLISH => str "publish"
  | PUBSUB TheServer => str "pubsub"
  | PUBSUB TheCrdtServer => str "crdt.pubsub"
  | PING => str "ping"
  end.

Definition allowed_in_pubsub (cmd : pscommand) : bool :=
  match cmd with PUBLISH | PUBSUB _ => false | _ => true end.

Definition run (order : gset bytes -> list bytes) (cmd : pscommand) (id : nat) (args : list bytes) (st : pserver) : res pserver :=
  match cmd with
  | SUBSCRIBE srv => subscribeCommand srv id args st
  | UNSUBSCRIBE srv => unsubscribeCommand order srv id args st
  | PSUBSCRIBE srv => psubscribeCommand srv id args st
  | PUNSUBSCRIBE srv => punsubscribeCommand srv id args st
  | PUBLISH => match args with [channel; message] => publishCommand id channel message st | _ => Undef end
  | PUBSUB srv => pubsub order srv id args st
  | PING => pingCommand id args st
  end.

(** The checks of [processCommand] that concern these commands: the arity, and
    the context. *)

Definition refusal (cmd : pscommand) (args : list bytes) (c : pclient) : option bytes :=
  let argc := Z.of_nat (S (length args)) in
  if ((arity_of cmd >? 0) && negb (arity_of cmd =? argc)) || (argc <? - arity_of cmd)
  then Some (wrong_args (name_of cmd)) else
  if pc_pubsub c && negb (allowed_in_pubsub cmd)
  then Some (addReplyError (str "only (P)SUBSCRIBE / (P)UNSUBSCRIBE / PING / QUIT allowed in this context"))
  else None.

Definition process (order : gset bytes -> list bytes) (cmd : pscommand) (id : nat) (args : list bytes) (st : pserver) : res pserver :=
  c ← the_client id st;
  match refusal cmd args c with
  | Some reply => Ok (on_client (put reply) id st)
  | None => run order cmd id args st
  end.

(** The part of [freeClient]. *)

Definition freeClient_pubsub (order : gset bytes -> list bytes) (id : nat) (st : pserver) : res pserver :=
  st ← pubsubUnsubscribeAllChannels order TheServer id false st;
  st ← pubsubUnsubscribeAllPatterns TheServer id false st;
  st ← pubsubUnsubscribeAllChannels order TheCrdtServer id false st;
  st ← pubsubUnsubscribeAllPatterns TheCrdtServer id false st;
  Ok (set_ps_clients (delete id (ps_clients st)) st).

(** What happens to the server: a client connects, sends a command, goes away; a
    key changes; the module publishes. *)

Inductive happening :=
| Connect (id : nat)
| Command (id : nat) (cmd : pscommand) (args : list bytes)
| Disconnect (id : nat)
| KeyEvent (events type : Z) (event key : bytes) (dbid : Z)
| RM_CrdtPubsubPublishMessage (channel message : bytes).

(** The network gives an id that is not in use, and commands come from clients
    that are there. *)

Definition step (order : gset bytes -> list bytes) (h : happening) (st : pserver) : res pserver :=
  match h with
  | Connect id => Ok (match ps_clients st !! id with Some _ => st | None => set_ps_clients (<[id := new_client]> (ps_clients st)) st end)
  | Command id cmd args => match ps_clients st !! id with Some _ => process order cmd id args st | None => Ok st end
  | Disconnect id => match ps_clients st !! id with Some _ => freeClient_pubsub order id st | None => Ok st end
  | KeyEvent events type event key dbid => notifyKeyspaceEvent events type event key dbid st
  | RM_CrdtPubsubPublishMessage channel message => '(_, st) ← pubsubPublishMessage TheCrdtServer channel message st; Ok st
  end.

Fixpoint steps (hs : list ((gset bytes -> list bytes) * happening)) (st : pserver) : res pserver :=
  match hs with
  | [] => Ok st
  | (order, h) :: hs => st ← step order h st; steps hs st
  end.

Definition initial (cluster : bool) : pserver := MkPs (MkBoth (MkPubsubs ∅ []) (MkPubsubs ∅ [])) ∅ cluster [].
