(* ===== verification/PubsubTheory.v ===== *)
(** * Publish and subscribe: the specification and the refinement

    The specification has the clients with their own channels and patterns, and
    no index: a message goes to every client that has its channel, and once more
    for each of its patterns that matches.  The server, which keeps for each
    channel the list of its clients and one list of all the patterns, does the
    same. *)

From S2P Require Import Prelude Util Resp Glob Pubsub.

(** ** The specification *)

Definition spec_subscribe (srv : instance) (c : pclient) (channel : bytes) : pclient :=
  notify NSubscribe srv (addReplyBulk channel) (set_pc_channels srv ({[channel]} ∪ pc_channels c srv) c).

Definition drop_channel (srv : instance) (c : pclient) (channel : bytes) : pclient :=
  set_pc_channels srv (pc_channels c srv ∖ {[channel]}) c.

Definition spec_unsubscribe (srv : instance) (c : pclient) (channel : bytes) : pclient :=
  notify NUnsubscribe srv (addReplyBulk channel) (drop_channel srv c channel).

Definition spec_psubscribe (srv : instance) (c : pclient) (pattern : bytes) : pclient :=
  notify NPsubscribe srv (addReplyBulk pattern)
    (if bool_decide (pattern ∈ pc_patterns c srv) then c else set_pc_patterns srv (pc_patterns c srv ++ [pattern]) c).

Definition drop_pattern (srv : instance) (c : pclient) (pattern : bytes) : pclient :=
  set_pc_patterns srv (filter (fun p => p <> pattern) (pc_patterns c srv)) c.

Definition spec_punsubscribe (srv : instance) (c : pclient) (pattern : bytes) : pclient :=
  notify NPunsubscribe srv (addReplyBulk pattern) (drop_pattern srv c pattern).

(** Without arguments: all, or a notice that there was none. *)

Definition spec_each (f : pclient -> bytes -> pclient) (none : pclient -> pclient) (args all : list bytes) (c : pclient) : pclient :=
  match args, all with
  | [], [] => none c
  | [], _ => fold_left f all c
  | _, _ => fold_left f args c
  end.

(** What a client gets of a message, and how many times. *)

Definition matched (srv : instance) (channel : bytes) (c : pclient) : list bytes :=
  List.filter (fun p => denote false (parse p) channel) (pc_patterns c srv).

Definition delivery (srv : instance) (channel message : bytes) (c : pclient) : bytes :=
  (if bool_decide (channel ∈ pc_channels c srv) then message_text channel message else []) ++
  concat (map (fun p => pmessage_text p channel message) (matched srv channel c)).

Definition received (srv : instance) (channel : bytes) (c : pclient) : nat :=
  (if bool_decide (channel ∈ pc_channels c srv) then 1 else 0) + length (matched srv channel c).

Abbreviation clients := (gmap nat pclient).

Definition spec_publish (srv : instance) (channel message : bytes) (m : clients) : clients :=
  (fun c => put (delivery srv channel message c) c) <$> m.

Definition total (f : pclient -> nat) (m : clients) : Z :=
  Z.of_nat (sum_list_with (fun kc => f (snd kc)) (map_to_list m)).

Definition all_channels (srv : instance) (m : clients) : gset bytes :=
  ⋃ (map (fun kc => pc_channels (snd kc) srv) (map_to_list m)).

Definition spec_pubsub (order : gset bytes -> list bytes) (srv : instance) (args : list bytes) (m : clients) : res bytes :=
  pubsub_text
    (fun pat => Ok (List.filter (fun channel => match pat with None => true | Some p => denote false (parse p) channel end)
                      (order (all_channels srv m))))
    (fun channel => total (fun c => if bool_decide (channel ∈ pc_channels c srv) then 1%nat else 0%nat) m)
    (total (fun c => length (pc_patterns c srv)) m) args.

(** The clients, and the messages sent to the other nodes. *)

Abbreviation spec_state := (clients * list (bytes * bytes))%type.

Definition spec_run (cluster : bool) (order : gset bytes -> list bytes) (cmd : pscommand) (id : nat) (args : list bytes)
    (s : spec_state) : spec_state :=
  let '(m, bus) := s in
  match cmd with
  | SUBSCRIBE srv => (alter (fun c => set_pc_pubsub true (fold_left (spec_subscribe srv) args c)) id m, bus)
  | PSUBSCRIBE srv => (alter (fun c => set_pc_pubsub true (fold_left (spec_psubscribe srv) args c)) id m, bus)
  | UNSUBSCRIBE srv =>
      (alter (fun c => leave_pubsub srv (spec_each (spec_unsubscribe srv) (notify NUnsubscribe srv shared_nullbulk)
                                           args (order (pc_channels c srv)) c)) id m, bus)
  | PUNSUBSCRIBE srv =>
      (alter (fun c => leave_pubsub srv (spec_each (spec_punsubscribe srv) (notify NPunsubscribe srv shared_nullbulk)
                                           args (pc_patterns c srv) c)) id m, bus)
  | PUBLISH =>
      match args with
      | [channel; message] =>
          let reply := put (addReplyLongLong (total (received TheServer channel) m)) in
          let m' := spec_publish TheServer channel message m in
          if cluster then (alter reply id m', bus ++ [(channel, message)])
          else (alter (fun c => reply (set_pc_force_repl true c)) id m', bus)
      | _ => s
      end
  | PUBSUB srv => (match spec_pubsub order srv args m with Ok reply => alter (put reply) id m | _ => m end, bus)
  | PING => (alter (fun c => put (ping_text args c) c) id m, bus)
  end.

(** The two messages of a change of a key. *)

Definition spec_event (events type : Z) (event key : bytes) (dbid : Z) (m : clients) : clients :=
  let has f := negb (Z.land events f =? 0) in
  if negb (has type) then m else
  let m := if has NOTIFY_KEYSPACE
           then spec_publish TheServer (str "__keyspace@" ++ print_Z dbid ++ str "__:" ++ key) event m else m in
  if has NOTIFY_KEYEVENT
  then spec_publish TheServer (str "__keyevent@" ++ print_Z dbid ++ str "__:" ++ event) key m else m.

Definition spec_step (cluster : bool) (order : gset bytes -> list bytes) (h : happening) (s : spec_state) : spec_state :=
  let '(m, bus) := s in
  match h with
  | Connect id => (match m !! id with Some _ => m | None => <[id := new_client]> m end, bus)
  | Command id cmd args =>
      match m !! id with
      | None => s
      | Some c => match refusal cmd args c with
                  | Some reply => (alter (put reply) id m, bus)
                  | None => spec_run cluster order cmd id args s
                  end
      end
  | Disconnect id => (delete id m, bus)
  | KeyEvent events type event key dbid => (spec_event events type event key dbid m, bus)
  | RM_CrdtPubsubPublishMessage channel message => (spec_publish TheCrdtServer channel message m, bus)
  end.

Definition spec_steps (cluster : bool) (hs : list ((gset bytes -> list bytes) * happening)) (s : spec_state) : spec_state :=
  fold_left (fun s oh => spec_step cluster (fst oh) (snd oh) s) hs s.

(** What the code relies on: an iteration over a dictionary visits each key once;
    and no channel is the empty string (see [stringmatchlen_past_end]). *)

Definition visits_all (order : gset bytes -> list bytes) : Prop := forall X, order X ≡ₚ elements X.

Definition named (h : happening) : Prop :=
  match h with
  | Command _ (SUBSCRIBE _) args => Forall (fun ch => ch <> []) args
  | Command _ PUBLISH (channel :: _) => channel <> []
  | RM_CrdtPubsubPublishMessage channel _ => channel <> []
  | _ => True
  end.

(** ** The index *)

(** [chans] and [pats]: what each client has. *)

Record indexed (s : pubsubs) (chans : nat -> gset bytes) (pats : nat -> list bytes) : Prop := {
  ix_nodup : forall ch, NoDup (default [] (pubsub_channels s !! ch));
  ix_elem : forall ch k, k ∈ default [] (pubsub_channels s !! ch) <-> ch ∈ chans k;
  ix_nonempty : forall ch, pubsub_channels s !! ch <> Some [];
  ix_patterns : forall k, map snd (filter (fun x => fst x = k) (pubsub_patterns s)) = pats k;
  ix_distinct : forall k, NoDup (pats k)
}.

Lemma indexed_ext s chans chans' pats pats' :
  indexed s chans pats -> (forall k, chans' k = chans k) -> (forall k, pats' k = pats k) -> indexed s chans' pats'.
Proof.
  intros [] Hc Hp. split; [done|intros ch k; by rewrite Hc|done|intros k; by rewrite Hp|intros k; by rewrite Hp].
Qed.

Definition upd_at {A} (k : nat) (a : A) (f : nat -> A) : nat -> A := fun i => if decide (i = k) then a else f i.

Lemma indexed_subscribe s chans pats k ch :
  indexed s chans pats -> ch ∉ chans k ->
  indexed (MkPubsubs (<[ch := default [] (pubsub_channels s !! ch) ++ [k]]> (pubsub_channels s)) (pubsub_patterns s))
    (upd_at k ({[ch]} ∪ chans k) chans) pats.
Proof.
  intros [Hn He Hne Hp Hd] Hk. split; simpl; [| | |done|done].
  - intros ch'. destruct (decide (ch' = ch)) as [-> |]; [|by rewrite lookup_insert_ne].
    rewrite lookup_insert_eq. simpl. apply NoDup_app. split; [done|]. split; [|apply NoDup_singleton].
    intros i Hi ->%list_elem_of_singleton. by apply Hk, He.
  - intros ch' i. unfold upd_at. destruct (decide (ch' = ch)) as [-> |].
    + rewrite lookup_insert_eq. simpl. rewrite elem_of_app, list_elem_of_singleton, He. case_decide; set_solver.
    + rewrite lookup_insert_ne by done. rewrite He. case_decide; set_solver.
  - intros ch'. destruct (decide (ch' = ch)) as [-> |]; [|by rewrite lookup_insert_ne].
    rewrite lookup_insert_eq. by destruct (default [] _).
Qed.

Lemma del_first_Some {A} (f : A -> bool) l : (exists x, x ∈ l /\ f x = true) -> exists l', del_first f l = Some l'.
Proof.
  induction l as [|y l IH]; intros (x & Hx & Hf); [by apply elem_of_nil in Hx|]. simpl.
  destruct (f y) eqn:E; [by eexists|]. destruct IH as [l' ->]; [|by eexists].
  apply elem_of_cons in Hx as [-> | Hx]; [congruence|by exists x].
Qed.

Lemma filter_all {A} (P : A -> Prop) `{!forall x, Decision (P x)} l : Forall P l -> filter P l = l.
Proof. induction 1 as [|x l Hx Hl IH]; [done|]. by rewrite filter_cons_True, IH. Qed.

Lemma list_empty_filter {A} (P : A -> Prop) `{!forall x, Decision (P x)} l : (forall x, x ∈ l -> ~ P x) -> filter P l = [].
Proof.
  induction l as [|x l IH]; intros Hl; [done|]. rewrite filter_cons_False by (apply Hl; left). apply IH. intros y Hy. apply Hl. by right.
Qed.

Lemma del_first_filter {A} `{EqDecision A} (f : A -> bool) x l l' :
  NoDup l -> (forall y, f y = true <-> y = x) -> del_first f l = Some l' -> l' = filter (fun y => y <> x) l.
Proof.
  intros Hn Hf. revert l'. induction l as [|y l IH]; intros l' Hl; [done|]. simpl in Hl.
  apply NoDup_cons in Hn as [Hy Hn]. destruct (f y) eqn:E.
  - apply Hf in E as ->. injection Hl as <-. rewrite filter_cons_False by tauto.
    symmetry. apply filter_all, Forall_forall. intros z Hz ->. done.
  - destruct (del_first f l) as [l0|]; [|done]. injection Hl as <-.
    rewrite filter_cons_True; [by rewrite (IH Hn l0)|]. intros ->. by rewrite (proj2 (Hf x)) in E.
Qed.

Lemma eqb_is (k y : nat) : Nat.eqb k y = true <-> y = k.
Proof. rewrite Nat.eqb_eq. split; congruence. Qed.

Lemma indexed_unsubscribe s chans pats k ch :
  indexed s chans pats -> ch ∈ chans k ->
  exists l l', pubsub_channels s !! ch = Some l /\ del_first (Nat.eqb k) l = Some l' /\
    indexed (MkPubsubs (match l' with [] => delete ch (pubsub_channels s) | _ => <[ch := l']> (pubsub_channels s) end) (pubsub_patterns s))
      (upd_at k (chans k ∖ {[ch]}) chans) pats.
Proof.
  intros [Hn He Hne Hp Hd] Hk. pose proof (proj2 (He ch k) Hk) as Hin. pose proof (Hn ch) as Hnl.
  destruct (pubsub_channels s !! ch) as [l|] eqn:El; simpl in Hin, Hnl; [|by apply elem_of_nil in Hin].
  destruct (del_first_Some (Nat.eqb k) l) as [l' El']; [exists k; by rewrite Nat.eqb_refl|].
  exists l, l'. split; [done|]. split; [done|].
  pose proof (del_first_filter _ k l l' Hnl (eqb_is k) El') as Hl'.
  assert (forall ch', ch' = ch \/ default [] (match l' with [] => delete ch (pubsub_channels s) | _ => <[ch := l']> (pubsub_channels s) end !! ch')
            = default [] (pubsub_channels s !! ch')) as Hother.
  { intros ch'. destruct (decide (ch' = ch)); [by left|right]. destruct l'; [by rewrite lookup_delete_ne|by rewrite lookup_insert_ne]. }
  assert (default [] (match l' with [] => delete ch (pubsub_channels s) | _ => <[ch := l']> (pubsub_channels s) end !! ch) = l') as Hthis.
  { destruct l'; [by rewrite lookup_delete_eq|by rewrite lookup_insert_eq]. }
  split; cbn [pubsub_channels pubsub_patterns]; [| | |done|done].
  - intros ch'. destruct (Hother ch') as [-> | ->]; [|done]. rewrite Hthis, Hl'. by apply NoDup_filter.
  - intros ch' i. unfold upd_at. destruct (decide (ch' = ch)) as [-> |].
    + rewrite Hthis, Hl', list_elem_of_filter. pose proof (He ch i) as Hi. rewrite El in Hi. simpl in Hi. rewrite Hi.
      case_decide; subst; set_solver.
    + destruct (Hother ch') as [-> | ->]; [done|]. rewrite He. case_decide; subst; set_solver.
  - intros ch'. destruct (decide (ch' = ch)) as [-> |]; destruct l' as [|j l'].
    + by rewrite lookup_delete_eq.
    + by rewrite lookup_insert_eq.
    + by rewrite lookup_delete_ne.
    + by rewrite lookup_insert_ne.
Qed.

Lemma indexed_psubscribe s chans pats k p :
  indexed s chans pats -> p ∉ pats k ->
  indexed (MkPubsubs (pubsub_channels s) (pubsub_patterns s ++ [(k, p)])) chans (upd_at k (pats k ++ [p]) pats).
Proof.
  intros [Hn He Hne Hp Hd] Hk. split; simpl; [done|done|done| |].
  - intros i. rewrite filter_app, map_app, Hp. unfold upd_at. case_decide as Ei.
    + subst. by rewrite filter_cons_True.
    + rewrite filter_cons_False by (simpl; congruence). by rewrite filter_nil, app_nil_r.
  - intros i. unfold upd_at. case_decide; [|done]. apply NoDup_app. split; [done|]. split; [|apply NoDup_singleton].
    by intros q Hq ->%list_elem_of_singleton.
Qed.

Lemma same_bytes_is p y : same_bytes p y = true <-> y = p.
Proof. unfold same_bytes. rewrite bool_decide_eq_true. split; congruence. Qed.

Lemma match_own k p q : listMatchPubsubPattern (k, p) (k, q) = same_bytes p q.
Proof. unfold listMatchPubsubPattern. simpl. by rewrite Nat.eqb_refl. Qed.

Lemma match_other k j p q : j <> k -> listMatchPubsubPattern (k, p) (j, q) = false.
Proof. intros. unfold listMatchPubsubPattern. simpl. by rewrite (proj2 (Nat.eqb_neq k j)) by congruence. Qed.

(** Deleting a pattern of a client from the list of all. *)

Lemma del_pattern k p l own :
  del_first (same_bytes p) (map snd (filter (fun x => fst x = k) l)) = Some own ->
  exists l', del_first (listMatchPubsubPattern (k, p)) l = Some l' /\
    forall i, map snd (filter (fun x => fst x = i) l') = if decide (i = k) then own else map snd (filter (fun x => fst x = i) l).
Proof.
  revert own. induction l as [|[j q] l IH]; intros own; [done|]. cbn [del_first].
  destruct (decide (j = k)) as [-> |Hj].
  - rewrite filter_cons_True by done. cbn [map snd del_first]. rewrite match_own. destruct (same_bytes p q) eqn:E.
    + intros [= <-]. eexists. split; [done|]. intros i. case_decide as Ei; [by subst|]. by rewrite filter_cons_False by (simpl; congruence).
    + destruct (del_first _ (map _ _)) as [own'|]; [|done]. intros [= <-]. destruct (IH own' eq_refl) as (l' & -> & Hl').
      eexists. split; [done|]. intros i. rewrite !filter_cons. simpl. repeat case_decide; try congruence; simpl; rewrite Hl'; by case_decide.
  - rewrite filter_cons_False by done. intros H. destruct (IH own H) as (l' & El & Hl').
    rewrite match_other by done. rewrite El.
    eexists. split; [done|]. intros i. rewrite !filter_cons. simpl. repeat case_decide; try congruence; simpl; rewrite Hl'; by case_decide.
Qed.

Lemma indexed_punsubscribe s chans pats k p own :
  indexed s chans pats -> del_first (same_bytes p) (pats k) = Some own ->
  exists all, del_first (listMatchPubsubPattern (k, p)) (pubsub_patterns s) = Some all /\
    indexed (MkPubsubs (pubsub_channels s) all) chans (upd_at k own pats).
Proof.
  intros [Hn He Hne Hp Hd] Hown. destruct (del_pattern k p (pubsub_patterns s) own) as (all & E & Hall); [by rewrite Hp|].
  exists all. split; [done|]. split; simpl; [done|done|done| |].
  - intros i. rewrite Hall. unfold upd_at. by case_decide.
  - intros i. unfold upd_at. case_decide; [|done].
    rewrite (del_first_filter _ p _ own (Hd k) (same_bytes_is p) Hown). by apply NoDup_filter.
Qed.

(** ** States *)

Definition chans_of (srv : instance) (m : clients) (k : nat) : gset bytes :=
  match m !! k with Some c => pc_channels c srv | None => ∅ end.

Definition pats_of (srv : instance) (m : clients) (k : nat) : list bytes :=
  match m !! k with Some c => pc_patterns c srv | None => [] end.

Definition names_ok (c : pclient) : Prop := forall srv ch, ch ∈ pc_channels c srv -> ch <> [].

Record st_ok (st : pserver) : Prop := {
  so_index : forall srv, indexed (ps_subs st srv) (chans_of srv (ps_clients st)) (pats_of srv (ps_clients st));
  so_names : map_Forall (fun _ => names_ok) (ps_clients st)
}.

Lemma at_set_eq {A} srv (a : A) b : set_for srv a b srv = a.
Proof. by destruct srv. Qed.

Lemma at_set_ne {A} srv srv' (a : A) b : srv' <> srv -> set_for srv a b srv' = b srv'.
Proof. by destruct srv, srv'. Qed.

Lemma set_same {A} srv (b : both A) : set_for srv (b srv) b = b.
Proof. by destruct srv, b. Qed.

(** One client changes its subscriptions to one server. *)

Lemma st_ok_update srv s' f id c st :
  st_ok st -> ps_clients st !! id = Some c ->
  indexed s' (upd_at id (pc_channels (f c) srv) (chans_of srv (ps_clients st)))
    (upd_at id (pc_patterns (f c) srv) (pats_of srv (ps_clients st))) ->
  (forall i, i <> srv -> pc_channels (f c) i = pc_channels c i /\ pc_patterns (f c) i = pc_patterns c i) ->
  names_ok (f c) ->
  st_ok (MkPs (set_for srv s' (ps_subs st)) (alter f id (ps_clients st)) (ps_cluster_enabled st) (ps_bus st)).
Proof.
  intros [Hi Hn] Hc Hs Hother Hnames.
  assert (forall k, alter f id (ps_clients st) !! k = if decide (k = id) then Some (f c) else ps_clients st !! k) as Hl.
  { intros k. case_decide; subst; [by rewrite lookup_alter_eq, Hc|by rewrite lookup_alter_ne]. }
  split; cbn [ps_subs ps_clients].
  - intros i. destruct (decide (i = srv)) as [-> |Hne].
    + rewrite at_set_eq. eapply indexed_ext; [exact Hs| |]; intros k; unfold chans_of, pats_of, upd_at; rewrite Hl; by case_decide.
    + rewrite at_set_ne by done. destruct (Hother i Hne) as [E1 E2].
      eapply indexed_ext; [exact (Hi i)| |]; intros k; unfold chans_of, pats_of; rewrite Hl; case_decide; subst; by rewrite ?Hc.
  - intros k d. rewrite Hl. case_decide; [by intros [= <-]|apply Hn].
Qed.

Definition same_subs (f : pclient -> pclient) : Prop :=
  forall c, pc_channels (f c) = pc_channels c /\ pc_patterns (f c) = pc_patterns c.

Lemma st_ok_quiet f id st : st_ok st -> same_subs f -> st_ok (on_client f id st).
Proof.
  intros [Hi Hn] Hf. split; simpl.
  - intros i. eapply indexed_ext; [exact (Hi i)| |]; intros k; unfold chans_of, pats_of;
      (destruct (decide (k = id)) as [-> |]; [rewrite lookup_alter_eq|by rewrite lookup_alter_ne]);
      destruct (ps_clients st !! id) as [c|]; try done; simpl; destruct (Hf c) as [E1 E2]; by rewrite ?E1, ?E2.
  - intros k c. rewrite lookup_alter_Some. intros [(-> & d & Hd & ->) | [_ Hc]]; [|exact (Hn k c Hc)].
    unfold names_ok. rewrite (proj1 (Hf d)). exact (Hn _ d Hd).
Qed.

(** [st'] is [st] after one client changed by [f]. *)

Record moved (f : pclient -> pclient) (id : nat) (st st' : pserver) : Prop := {
  mv_ok : st_ok st';
  mv_clients : ps_clients st' = alter f id (ps_clients st);
  mv_cluster : ps_cluster_enabled st' = ps_cluster_enabled st;
  mv_bus : ps_bus st' = ps_bus st
}.

Definition here (id : nat) (st : pserver) : Prop := is_Some (ps_clients st !! id).

Lemma moved_here f id st st' : moved f id st st' -> here id st -> here id st'.
Proof. intros [_ H _ _] [c Hc]. exists (f c). by rewrite H, lookup_alter_eq, Hc. Qed.

Lemma moved_trans f g id st st1 st2 : moved f id st st1 -> moved g id st1 st2 -> moved (fun c => g (f c)) id st st2.
Proof.
  intros [? E1 ? ?] [? E2 ? ?]. split; [done| |congruence|congruence]. rewrite E2, E1.
  apply map_eq. intros k. destruct (decide (k = id)) as [-> |]; [|by rewrite !lookup_alter_ne].
  rewrite !lookup_alter_eq. by destruct (ps_clients st !! id).
Qed.

Lemma moved_ext f g id st st' c :
  moved f id st st' -> ps_clients st !! id = Some c -> f c = g c -> moved g id st st'.
Proof.
  intros [? E ? ?] Hc Hfg. split; [done| |done|done]. rewrite E. apply alter_ext. intros d Hd. congruence.
Qed.

Lemma moved_quiet f id st : st_ok st -> same_subs f -> moved f id st (on_client f id st).
Proof. intros. split; [by apply st_ok_quiet|done|done|done]. Qed.

Lemma moved_then f g id st st1 : moved f id st st1 -> same_subs g -> moved (fun c => g (f c)) id st (on_client g id st1).
Proof. intros H Hg. eapply moved_trans; [exact H|]. apply moved_quiet; [exact (mv_ok _ _ _ _ H)|done]. Qed.

Lemma moved_id f id st c : st_ok st -> ps_clients st !! id = Some c -> f c = c -> moved f id st st.
Proof.
  intros Hok Hc Hf. split; [done| |done|done]. symmetry. apply alter_id. intros d Hd. congruence.
Qed.

Lemma notify_same n srv name : same_subs (notify n srv name).
Proof. done. Qed.

Lemma put_same p : same_subs (put p).
Proof. done. Qed.

#[local] Hint Resolve notify_same put_same moved_quiet mv_ok moved_here : core.

(** ** Single subscriptions *)

Lemma moved_channels srv id c st channels X :
  st_ok st -> ps_clients st !! id = Some c -> (forall ch, ch ∈ X -> ch <> []) ->
  indexed (MkPubsubs channels (pubsub_patterns (ps_subs st srv))) (upd_at id X (chans_of srv (ps_clients st))) (pats_of srv (ps_clients st)) ->
  moved (set_pc_channels srv X) id st (set_channels srv channels (on_client (set_pc_channels srv X) id st)).
Proof.
  intros Hok Hc HX Hix. split; [|done|done|done].
  apply (st_ok_update srv (MkPubsubs channels (pubsub_patterns (ps_subs st srv))) (set_pc_channels srv X) id c st); [done|done| | |].
  - eapply indexed_ext; [exact Hix| |]; intros k; unfold upd_at; simpl; case_decide; subst; try done; rewrite ?at_set_eq; try done.
    unfold pats_of. by rewrite Hc.
  - intros i Hi. simpl. by rewrite at_set_ne.
  - intros i n. simpl. destruct (decide (i = srv)) as [-> |]; [rewrite at_set_eq; apply HX|].
    rewrite at_set_ne by done. apply (so_names st Hok _ _ Hc).
Qed.

Lemma moved_patterns srv id c st patterns l :
  st_ok st -> ps_clients st !! id = Some c ->
  indexed (MkPubsubs (pubsub_channels (ps_subs st srv)) patterns) (chans_of srv (ps_clients st)) (upd_at id l (pats_of srv (ps_clients st))) ->
  moved (set_pc_patterns srv l) id st (set_patterns srv patterns (on_client (set_pc_patterns srv l) id st)).
Proof.
  intros Hok Hc Hix. split; [|done|done|done].
  apply (st_ok_update srv (MkPubsubs (pubsub_channels (ps_subs st srv)) patterns) (set_pc_patterns srv l) id c st); [done|done| | |].
  - eapply indexed_ext; [exact Hix| |]; intros k; unfold upd_at; simpl; case_decide; subst; try done; rewrite ?at_set_eq; try done.
    unfold chans_of. by rewrite Hc.
  - intros i Hi. simpl. by rewrite at_set_ne.
  - exact (so_names st Hok _ _ Hc).
Qed.

Lemma chans_here srv id c st : ps_clients st !! id = Some c -> chans_of srv (ps_clients st) id = pc_channels c srv.
Proof. intros Hc. unfold chans_of. by rewrite Hc. Qed.

Lemma pats_here srv id c st : ps_clients st !! id = Some c -> pats_of srv (ps_clients st) id = pc_patterns c srv.
Proof. intros Hc. unfold pats_of. by rewrite Hc. Qed.

Lemma set_channels_same srv c : set_pc_channels srv (pc_channels c srv) c = c.
Proof. unfold set_pc_channels. rewrite set_same. by destruct c. Qed.

Lemma set_patterns_same srv c : set_pc_patterns srv (pc_patterns c srv) c = c.
Proof. unfold set_pc_patterns. rewrite set_same. by destruct c. Qed.

Lemma subscribe_moves srv id ch st :
  st_ok st -> here id st -> ch <> [] ->
  exists st', pubsubSubscribeChannel srv id ch st = Ok st' /\ moved (fun c => spec_subscribe srv c ch) id st st'.
Proof.
  intros Hok [c Hc] Hch. unfold pubsubSubscribeChannel, the_client. rewrite Hc. cbn [need mbind res_bind].
  eexists. split; [done|]. eapply (moved_then (fun c => set_pc_channels srv ({[ch]} ∪ pc_channels c srv) c)); [|done].
  case_bool_decide as Hin.
  - eapply moved_id; [done|done|]. cbv beta. rewrite subseteq_union_1_L by set_solver. apply set_channels_same.
  - eapply moved_ext; [eapply moved_channels; [done|done| |]|done|done].
    + intros n [->%elem_of_singleton | Hn]%elem_of_union; [done|exact (so_names st Hok _ _ Hc _ _ Hn)].
    + pose proof (indexed_subscribe _ _ _ id ch (so_index st Hok srv)) as Hix. rewrite (chans_here _ _ _ _ Hc) in Hix. exact (Hix Hin).
Qed.

(** With or without a notice. *)

Definition maybe_notify (b : bool) (n : notice) (srv : instance) (name : bytes) (c : pclient) : pclient :=
  if b then notify n srv name c else c.

Lemma moved_maybe f b n srv name id st st1 :
  moved f id st st1 ->
  moved (fun c => maybe_notify b n srv name (f c)) id st (if b then on_client (notify n srv name) id st1 else st1).
Proof. destruct b; [|done]. intros H. by apply moved_then. Qed.

Lemma unsubscribe_moves srv id ch b st c :
  st_ok st -> ps_clients st !! id = Some c ->
  exists st', pubsubUnsubscribeChannel srv id ch b st = Ok (bool_decide (ch ∈ pc_channels c srv), st') /\
    moved (fun c => maybe_notify b NUnsubscribe srv (addReplyBulk ch) (drop_channel srv c ch)) id st st'.
Proof.
  intros Hok Hc. unfold pubsubUnsubscribeChannel, the_client. rewrite Hc. cbn [need mbind res_bind].
  case_bool_decide as Hin.
  - pose proof (indexed_unsubscribe _ _ _ id ch (so_index st Hok srv)) as Hix. rewrite (chans_here _ _ _ _ Hc) in Hix.
    destruct (Hix Hin) as (l & l' & El & El' & Hix'). cbn [on_client set_ps_clients ps_subs]. rewrite El, El'.
    eassert (moved (fun c => drop_channel srv c ch) id st _) as Hm.
    { eapply moved_ext; [eapply moved_channels; [done|exact Hc| |exact Hix']|done|done].
      intros n Hn%elem_of_difference. exact (so_names st Hok _ _ Hc _ _ (proj1 Hn)). }
    destruct l'; (eexists; split; [done|]; by apply moved_maybe).
  - eexists. split; [done|]. apply moved_maybe. eapply moved_id; [done|done|]. unfold drop_channel.
    rewrite difference_disjoint_L by set_solver. apply set_channels_same.
Qed.

Lemma existsb_same p l : existsb (same_bytes p) l = bool_decide (p ∈ l).
Proof.
  apply eq_true_iff_eq. rewrite existsb_exists, bool_decide_eq_true. setoid_rewrite same_bytes_is. split.
  - intros (x & Hx%list_elem_of_In & ->). done.
  - intros Hp. exists p. split; [by apply list_elem_of_In|done].
Qed.

Lemma psubscribe_moves srv id p st :
  st_ok st -> here id st ->
  exists st', pubsubSubscribePattern srv id p st = Ok st' /\ moved (fun c => spec_psubscribe srv c p) id st st'.
Proof.
  intros Hok [c Hc]. unfold pubsubSubscribePattern, the_client. rewrite Hc. cbn [need mbind res_bind].
  eexists. split; [done|].
  eapply (moved_then (fun c => if bool_decide (p ∈ pc_patterns c srv) then c else set_pc_patterns srv (pc_patterns c srv ++ [p]) c)); [|done].
  rewrite existsb_same. case_bool_decide as Hin.
  - eapply moved_id; [done|done|]. cbv beta. by rewrite bool_decide_true.
  - eapply moved_ext; [eapply moved_patterns; [done|done|]|done|cbv beta; by rewrite bool_decide_false].
    pose proof (indexed_psubscribe _ _ _ id p (so_index st Hok srv)) as Hix. rewrite (pats_here _ _ _ _ Hc) in Hix. exact (Hix Hin).
Qed.

Lemma del_first_None {A} (f : A -> bool) l : del_first f l = None -> Forall (fun x => f x = false) l.
Proof.
  induction l as [|x l IH]; [done|]. simpl. destruct (f x) eqn:E; [done|].
  destruct (del_first f l); [done|]. intros _. constructor; [done|by apply IH].
Qed.

Lemma del_first_elem {A} (f : A -> bool) l l' : del_first f l = Some l' -> exists x, x ∈ l /\ f x = true.
Proof.
  revert l'. induction l as [|x l IH]; intros l'; [done|]. simpl. destruct (f x) eqn:E; [exists x; split; [left|done]|].
  destruct (del_first f l) as [l0|]; [|done]. intros _. destruct (IH l0 eq_refl) as (y & Hy & Ey). exists y. split; [by right|done].
Qed.

Lemma punsubscribe_moves srv id p b st c :
  st_ok st -> ps_clients st !! id = Some c ->
  exists st', pubsubUnsubscribePattern srv id p b st = Ok (bool_decide (p ∈ pc_patterns c srv), st') /\
    moved (fun c => maybe_notify b NPunsubscribe srv (addReplyBulk p) (drop_pattern srv c p)) id st st'.
Proof.
  intros Hok Hc. unfold pubsubUnsubscribePattern, the_client. rewrite Hc. cbn [need mbind res_bind].
  pose proof (fun own => indexed_punsubscribe _ _ _ id p own (so_index st Hok srv)) as Hix.
  pose proof (ix_distinct _ _ _ (so_index st Hok srv) id) as Hd. rewrite (pats_here _ _ _ _ Hc) in Hix, Hd.
  destruct (del_first (same_bytes p) (pc_patterns c srv)) as [own|] eqn:E.
  - destruct (Hix own eq_refl) as (all & Eall & Hix'). cbn [on_client set_ps_clients ps_subs]. rewrite Eall. cbn [need mbind res_bind].
    pose proof (del_first_filter _ p _ own Hd (same_bytes_is p) E) as Hown.
    rewrite bool_decide_true by (destruct (del_first_elem _ _ _ E) as (q & Hq & ->%same_bytes_is); done).
    eexists. split; [done|]. apply moved_maybe. eapply moved_ext; [eapply moved_patterns; [done|exact Hc|exact Hix']|done|].
    unfold drop_pattern. by rewrite Hown.
  - apply del_first_None in E. assert (p ∉ pc_patterns c srv) as Hp.
    { intros Hp. rewrite Forall_forall in E. specialize (E p Hp). by rewrite (proj2 (same_bytes_is p p)) in E. }
    rewrite bool_decide_false by done. eexists. split; [done|]. apply moved_maybe. eapply moved_id; [done|done|].
    unfold drop_pattern. rewrite filter_all; [apply set_patterns_same|]. apply Forall_forall. by intros q Hq ->.
Qed.

(** ** Loops *)

Lemma subscribe_each_moves F f (P : bytes -> Prop) id names st :
  (forall name st, st_ok st -> here id st -> P name -> exists st', F name st = Ok st' /\ moved (fun c => f c name) id st st') ->
  st_ok st -> here id st -> Forall P names ->
  exists st', subscribe_each F names st = Ok st' /\ moved (fun c => fold_left f names c) id st st'.
Proof.
  intros HF Hok Hid Hn. revert st Hok Hid. induction Hn as [|name names Hname _ IH]; intros st Hok Hid; simpl.
  - destruct Hid as [c Hc]. eexists. split; [done|]. by eapply moved_id.
  - destruct (HF name st Hok Hid Hname) as (st1 & -> & Hm). cbn [mbind res_bind].
    destruct (IH st1 (mv_ok _ _ _ _ Hm) (moved_here _ _ _ _ Hm Hid)) as (st2 & -> & Hm2).
    exists st2. split; [done|]. exact (moved_trans _ _ _ _ _ _ Hm Hm2).
Qed.

Lemma unsubscribe_each_moves F f id names st :
  (forall name st c, st_ok st -> ps_clients st !! id = Some c ->
     exists was st', F name st = Ok (was, st') /\ moved (fun c => f c name) id st st') ->
  st_ok st -> here id st ->
  exists count st', unsubscribe_each F names st = Ok (count, st') /\ moved (fun c => fold_left f names c) id st st'.
Proof.
  intros HF. revert st. induction names as [|name names IH]; intros st Hok [c Hc]; simpl.
  - eexists _, _. split; [done|]. by eapply moved_id.
  - destruct (HF name st c Hok Hc) as (was & st1 & -> & Hm). cbn [mbind res_bind].
    destruct (IH st1 (mv_ok _ _ _ _ Hm) (moved_here _ _ _ _ Hm (ex_intro _ c Hc))) as (count & st2 & -> & Hm2).
    eexists _, st2. split; [done|]. exact (moved_trans _ _ _ _ _ _ Hm Hm2).
Qed.

Definition unsub (b : bool) (srv : instance) (c : pclient) (ch : bytes) : pclient :=
  maybe_notify b NUnsubscribe srv (addReplyBulk ch) (drop_channel srv c ch).

Definition punsub (b : bool) (srv : instance) (c : pclient) (p : bytes) : pclient :=
  maybe_notify b NPunsubscribe srv (addReplyBulk p) (drop_pattern srv c p).

Lemma unsubscribes_move srv id b names st :
  st_ok st -> here id st ->
  exists count st', unsubscribe_each (fun ch => pubsubUnsubscribeChannel srv id ch b) names st = Ok (count, st') /\
    moved (fun c => fold_left (unsub b srv) names c) id st st'.
Proof.
  apply unsubscribe_each_moves. intros name st1 c Hok Hc.
  destruct (unsubscribe_moves srv id name b st1 c Hok Hc) as (st' & E & Hm). by eexists _, st'.
Qed.

Lemma punsubscribes_move srv id b names st :
  st_ok st -> here id st ->
  exists count st', unsubscribe_each (fun p => pubsubUnsubscribePattern srv id p b) names st = Ok (count, st') /\
    moved (fun c => fold_left (punsub b srv) names c) id st st'.
Proof.
  apply unsubscribe_each_moves. intros name st1 c Hok Hc.
  destruct (punsubscribe_moves srv id name b st1 c Hok Hc) as (st' & E & Hm). by eexists _, st'.
Qed.

(** The count of a loop whose first name is a subscription. *)

Lemma unsubscribe_each_counts F name names st st1 count st' :
  F name st = Ok (true, st1) -> unsubscribe_each F (name :: names) st = Ok (count, st') -> count <> O.
Proof.
  intros E. simpl. rewrite E. cbn [mbind res_bind]. intros H. res_inv. destruct v as [n st2]. simpl in H. by injection H as <- _.
Qed.

Definition all_or_none (b : bool) (f : pclient -> bytes -> pclient) (none : pclient -> pclient) (names : list bytes) (c : pclient) : pclient :=
  match names with
  | [] => if b then none c else c
  | _ => fold_left f names c
  end.

Lemma all_channels_move order srv id b st c :
  visits_all order -> st_ok st -> ps_clients st !! id = Some c ->
  exists st', pubsubUnsubscribeAllChannels order srv id b st = Ok st' /\
    moved (all_or_none b (unsub b srv) (notify NUnsubscribe srv shared_nullbulk) (order (pc_channels c srv))) id st st'.
Proof.
  intros Hord Hok Hc. unfold pubsubUnsubscribeAllChannels, the_client. rewrite Hc. cbn [need mbind res_bind].
  destruct (unsubscribes_move srv id b (order (pc_channels c srv)) st Hok (ex_intro _ c Hc)) as (count & st' & E & Hm).
  rewrite E. cbn [mbind res_bind]. eexists. split; [done|]. destruct (order (pc_channels c srv)) as [|ch names] eqn:Eo; simpl.
  - simpl in E. injection E as <- <-. rewrite andb_true_r. destruct b; [|done]. by apply moved_quiet.
  - assert (ch ∈ pc_channels c srv) as Hch.
    { apply elem_of_elements. pose proof (Hord (pc_channels c srv)) as Hp. rewrite Eo in Hp. rewrite <- Hp. left. }
    destruct (unsubscribe_moves srv id ch b st c Hok Hc) as (st1 & E1 & _). rewrite bool_decide_true in E1 by done.
    pose proof (unsubscribe_each_counts _ _ _ _ _ _ _ E1 E) as Hcount. apply Nat.eqb_neq in Hcount. rewrite Hcount, andb_false_r. exact Hm.
Qed.

Lemma all_patterns_move srv id b st c :
  st_ok st -> ps_clients st !! id = Some c ->
  exists st', pubsubUnsubscribeAllPatterns srv id b st = Ok st' /\
    moved (all_or_none b (punsub b srv) (notify NPunsubscribe srv shared_nullbulk) (pc_patterns c srv)) id st st'.
Proof.
  intros Hok Hc. unfold pubsubUnsubscribeAllPatterns, the_client. rewrite Hc. cbn [need mbind res_bind].
  destruct (punsubscribes_move srv id b (pc_patterns c srv) st Hok (ex_intro _ c Hc)) as (count & st' & E & Hm).
  rewrite E. cbn [mbind res_bind]. eexists. split; [done|]. destruct (pc_patterns c srv) as [|p names] eqn:Ep; simpl.
  - simpl in E. injection E as <- <-. rewrite andb_true_r. destruct b; [|done]. by apply moved_quiet.
  - destruct (punsubscribe_moves srv id p b st c Hok Hc) as (st1 & E1 & _). rewrite Ep, bool_decide_true in E1 by left.
    pose proof (unsubscribe_each_counts _ _ _ _ _ _ _ E1 E) as Hcount. apply Nat.eqb_neq in Hcount. rewrite Hcount, andb_false_r. exact Hm.
Qed.

(** ** The commands of subscription *)

Lemma set_pubsub_same b : same_subs (set_pc_pubsub b).
Proof. done. Qed.

Lemma leave_same srv : same_subs (leave_pubsub srv).
Proof. intros c. unfold leave_pubsub. by destruct (_ =? 0). Qed.

Lemma subscribeCommand_moves srv id args st :
  st_ok st -> here id st -> Forall (fun ch => ch <> []) args ->
  exists st', subscribeCommand srv id args st = Ok st' /\
    moved (fun c => set_pc_pubsub true (fold_left (spec_subscribe srv) args c)) id st st'.
Proof.
  intros Hok Hid Hargs. unfold subscribeCommand.
  destruct (subscribe_each_moves (pubsubSubscribeChannel srv id) (spec_subscribe srv) (fun ch => ch <> []) id args st) as (st' & -> & Hm); try done.
  { intros. by apply subscribe_moves. }
  cbn [mbind res_bind]. eexists. split; [done|]. by apply moved_then.
Qed.

Lemma psubscribeCommand_moves srv id args st :
  st_ok st -> here id st ->
  exists st', psubscribeCommand srv id args st = Ok st' /\
    moved (fun c => set_pc_pubsub true (fold_left (spec_psubscribe srv) args c)) id st st'.
Proof.
  intros Hok Hid. unfold psubscribeCommand.
  destruct (subscribe_each_moves (pubsubSubscribePattern srv id) (spec_psubscribe srv) (fun _ => True) id args st) as (st' & -> & Hm); try done.
  { intros. by apply psubscribe_moves. }
  { by apply Forall_true. }
  cbn [mbind res_bind]. eexists. split; [done|]. by apply moved_then.
Qed.

Lemma unsubscribeCommand_moves order srv id args st :
  visits_all order -> st_ok st -> here id st ->
  exists st', unsubscribeCommand order srv id args st = Ok st' /\
    moved (fun c => leave_pubsub srv (spec_each (spec_unsubscribe srv) (notify NUnsubscribe srv shared_nullbulk)
                                        args (order (pc_channels c srv)) c)) id st st'.
Proof.
  intros Hord Hok [c Hc]. unfold unsubscribeCommand. destruct args as [|arg args].
  - destruct (all_channels_move order srv id true st c Hord Hok Hc) as (st' & -> & Hm). cbn [mbind res_bind].
    eexists. split; [done|]. apply (moved_then (fun c => spec_each _ _ [] _ c)); [|apply leave_same].
    eapply moved_ext; [exact Hm|exact Hc|]. cbv beta. by destruct (order _).
  - destruct (unsubscribes_move srv id true (arg :: args) st Hok (ex_intro _ c Hc)) as (count & st' & -> & Hm). cbn [mbind res_bind].
    eexists. split; [done|]. apply (moved_then (fun c => spec_each _ _ (arg :: args) _ c)); [exact Hm|apply leave_same].
Qed.

Lemma punsubscribeCommand_moves srv id args st :
  st_ok st -> here id st ->
  exists st', punsubscribeCommand srv id args st = Ok st' /\
    moved (fun c => leave_pubsub srv (spec_each (spec_punsubscribe srv) (notify NPunsubscribe srv shared_nullbulk)
                                        args (pc_patterns c srv) c)) id st st'.
Proof.
  intros Hok [c Hc]. unfold punsubscribeCommand. destruct args as [|arg args].
  - destruct (all_patterns_move srv id true st c Hok Hc) as (st' & -> & Hm). cbn [mbind res_bind].
    eexists. split; [done|]. apply (moved_then (fun c => spec_each _ _ [] _ c)); [|apply leave_same].
    eapply moved_ext; [exact Hm|exact Hc|]. cbv beta. by destruct (pc_patterns c srv).
  - destruct (punsubscribes_move srv id true (arg :: args) st Hok (ex_intro _ c Hc)) as (count & st' & -> & Hm). cbn [mbind res_bind].
    eexists. split; [done|]. apply (moved_then (fun c => spec_each _ _ (arg :: args) _ c)); [exact Hm|apply leave_same].
Qed.

(** ** A client that goes away *)

Lemma unsub_channels b srv i names c :
  pc_channels (fold_left (unsub b srv) names c) i = (if decide (i = srv) then pc_channels c i ∖ list_to_set names else pc_channels c i).
Proof.
  revert c. induction names as [|ch names IH]; intros c; simpl; [case_decide; set_solver|]. rewrite IH.
  assert (pc_channels (unsub b srv c ch) = pc_channels (drop_channel srv c ch)) as -> by (by destruct b). simpl.
  case_decide; [subst; rewrite at_set_eq; set_solver|by rewrite at_set_ne].
Qed.

Lemma unsub_patterns b srv names c : pc_patterns (fold_left (unsub b srv) names c) = pc_patterns c.
Proof. revert c. induction names as [|ch names IH]; intros c; simpl; [done|]. rewrite IH. by destruct b. Qed.

Lemma punsub_channels b srv names c : pc_channels (fold_left (punsub b srv) names c) = pc_channels c.
Proof. revert c. induction names as [|ch names IH]; intros c; simpl; [done|]. rewrite IH. by destruct b. Qed.

Lemma punsub_patterns b srv i names c :
  pc_patterns (fold_left (punsub b srv) names c) i = (if decide (i = srv) then filter (fun p => p ∉ names) (pc_patterns c i) else pc_patterns c i).
Proof.
  revert c. induction names as [|p names IH]; intros c; simpl.
  - case_decide; [|done]. symmetry. apply filter_all, Forall_forall. intros q _. apply not_elem_of_nil.
  - rewrite IH. assert (pc_patterns (punsub b srv c p) = pc_patterns (drop_pattern srv c p)) as -> by (by destruct b). simpl.
    case_decide; [subst; rewrite at_set_eq|by rewrite at_set_ne]. rewrite list_filter_filter. apply list_filter_iff.
    intros q. rewrite not_elem_of_cons. tauto.
Qed.

(** One of the four steps: what is left of the client. *)

Definition without_channels (srv : instance) (c c' : pclient) : Prop :=
  pc_channels c' = set_for srv ∅ (pc_channels c) /\ pc_patterns c' = pc_patterns c.

Definition without_patterns (srv : instance) (c c' : pclient) : Prop :=
  pc_channels c' = pc_channels c /\ pc_patterns c' = set_for srv [] (pc_patterns c).

Lemma both_eq {A} (a b : both A) : (forall srv, a srv = b srv) -> a = b.
Proof. intros H. destruct a, b. f_equal; [exact (H TheServer)|exact (H TheCrdtServer)]. Qed.

Lemma all_channels_gone order srv id st c :
  visits_all order -> st_ok st -> ps_clients st !! id = Some c ->
  exists st' c', pubsubUnsubscribeAllChannels order srv id false st = Ok st' /\ moved (fun _ => c') id st st' /\
    ps_clients st' !! id = Some c' /\ without_channels srv c c'.
Proof.
  intros Hord Hok Hc. destruct (all_channels_move order srv id false st c Hord Hok Hc) as (st' & E & Hm).
  exists st', (fold_left (unsub false srv) (order (pc_channels c srv)) c). split; [done|].
  assert (moved (fun _ => fold_left (unsub false srv) (order (pc_channels c srv)) c) id st st') as Hm'.
  { eapply moved_ext; [exact Hm|exact Hc|]. unfold all_or_none. by destruct (order (pc_channels c srv)). }
  split; [done|]. split; [by rewrite (mv_clients _ _ _ _ Hm'), lookup_alter_eq, Hc|].
  split; [|apply unsub_patterns]. apply both_eq. intros i. rewrite unsub_channels. case_decide; [subst|by rewrite at_set_ne].
  rewrite at_set_eq. apply set_eq. intros ch. rewrite elem_of_difference, elem_of_list_to_set, (Hord _), elem_of_elements. set_solver.
Qed.

Lemma all_patterns_gone srv id st c :
  st_ok st -> ps_clients st !! id = Some c ->
  exists st' c', pubsubUnsubscribeAllPatterns srv id false st = Ok st' /\ moved (fun _ => c') id st st' /\
    ps_clients st' !! id = Some c' /\ without_patterns srv c c'.
Proof.
  intros Hok Hc. destruct (all_patterns_move srv id false st c Hok Hc) as (st' & E & Hm).
  exists st', (fold_left (punsub false srv) (pc_patterns c srv) c). split; [done|].
  assert (moved (fun _ => fold_left (punsub false srv) (pc_patterns c srv) c) id st st') as Hm'.
  { eapply moved_ext; [exact Hm|exact Hc|]. unfold all_or_none. by destruct (pc_patterns c srv). }
  split; [done|]. split; [by rewrite (mv_clients _ _ _ _ Hm'), lookup_alter_eq, Hc|].
  split; [apply punsub_channels|]. apply both_eq. intros i. rewrite punsub_patterns. case_decide; [subst|by rewrite at_set_ne].
  rewrite at_set_eq. apply list_empty_filter. intros p Hp Hn. done.
Qed.

Lemma st_ok_delete id st c :
  st_ok st -> ps_clients st !! id = Some c -> (forall srv, pc_channels c srv = ∅ /\ pc_patterns c srv = []) ->
  st_ok (set_ps_clients (delete id (ps_clients st)) st).
Proof.
  intros [Hi Hn] Hc He. split; simpl; [|by apply map_Forall_delete].
  intros srv. destruct (He srv) as [E1 E2].
  eapply indexed_ext; [exact (Hi srv)| |]; intros k; unfold chans_of, pats_of;
    (destruct (decide (k = id)) as [-> |]; [by rewrite lookup_delete_eq, Hc|by rewrite lookup_delete_ne]).
Qed.

Lemma freeClient_spec order id st :
  visits_all order -> st_ok st -> here id st ->
  exists st', freeClient_pubsub order id st = Ok st' /\ st_ok st' /\ ps_clients st' = delete id (ps_clients st) /\
    ps_cluster_enabled st' = ps_cluster_enabled st /\ ps_bus st' = ps_bus st.
Proof.
  intros Hord Hok [c Hc]. unfold freeClient_pubsub.
  destruct (all_channels_gone order TheServer id st c) as (st1 & c1 & -> & M1 & H1 & A1 & B1); [done..|]. cbn [mbind res_bind].
  destruct (all_patterns_gone TheServer id st1 c1) as (st2 & c2 & -> & M2 & H2 & A2 & B2); [exact (mv_ok _ _ _ _ M1)|done|]. cbn [mbind res_bind].
  destruct (all_channels_gone order TheCrdtServer id st2 c2) as (st3 & c3 & -> & M3 & H3 & A3 & B3); [done|exact (mv_ok _ _ _ _ M2)|done|].
  cbn [mbind res_bind].
  destruct (all_patterns_gone TheCrdtServer id st3 c3) as (st4 & c4 & -> & M4 & H4 & A4 & B4); [exact (mv_ok _ _ _ _ M3)|done|]. cbn [mbind res_bind].
  pose proof (moved_trans _ _ _ _ _ _ (moved_trans _ _ _ _ _ _ (moved_trans _ _ _ _ _ _ M1 M2) M3) M4) as [M Mc Mcl Mb].
  eexists. split; [done|]. split; [eapply st_ok_delete; [done|exact H4|]|split; [|done]].
  - rewrite A4, B4, A3, B3, A2, B2, A1, B1. by intros [].
  - simpl. rewrite Mc. apply map_eq. intros k. destruct (decide (k = id)) as [-> |]; [by rewrite !lookup_delete_eq|].
    by rewrite !lookup_delete_ne, lookup_alter_ne.
Qed.

(** ** Publishing *)

Definition send (msgs : list (nat * bytes)) (m : clients) : clients :=
  fold_left (fun m x => alter (put (snd x)) (fst x) m) msgs m.

Lemma put_nil c : put [] c = c.
Proof. unfold put. rewrite app_nil_r. by destruct c. Qed.

Lemma put_put a b c : put b (put a c) = put (a ++ b) c.
Proof. unfold put. simpl. by rewrite app_assoc. Qed.

Lemma lookup_send msgs m k :
  send msgs m !! k = (put (concat (map snd (filter (fun x => fst x = k) msgs)))) <$> m !! k.
Proof.
  revert m. induction msgs as [|[i t] msgs IH]; intros m; simpl.
  - destruct (m !! k); simpl; [by rewrite put_nil|done].
  - rewrite IH. destruct (decide (i = k)) as [-> |].
    + rewrite filter_cons_True by done. rewrite lookup_alter_eq. destruct (m !! k); simpl; [by rewrite put_put|done].
    + rewrite filter_cons_False by done. by rewrite lookup_alter_ne.
Qed.

Lemma send_app a b m : send (a ++ b) m = send b (send a m).
Proof. apply fold_left_app. Qed.

Lemma message_loop_send channel message l n st :
  message_loop channel message l n st =
    (n + Z.of_nat (length l), set_ps_clients (send (map (fun k => (k, message_text channel message)) l) (ps_clients st)) st).
Proof.
  revert n st. induction l as [|k l IH]; intros n st; simpl.
  - f_equal; [lia|]. by destruct st.
  - rewrite IH. simpl. f_equal. lia.
Qed.

Definition hits (channel : bytes) (l : list (nat * bytes)) : list (nat * bytes) :=
  List.filter (fun x => denote false (parse (snd x)) channel) l.

Lemma pmessage_loop_send channel message l n st :
  channel <> [] ->
  pmessage_loop channel message l n st =
    Ok (n + Z.of_nat (length (hits channel l)),
        set_ps_clients (send (map (fun x => (fst x, pmessage_text (snd x) channel message)) (hits channel l)) (ps_clients st)) st).
Proof.
  intros Hch. revert n st. induction l as [|[k p] l IH]; intros n st; simpl.
  - do 2 f_equal; [lia|]. by destruct st.
  - unfold stringmatchlen. rewrite match_loop_denote by (done || lia). cbn [mbind res_bind].
    destruct (denote false (parse p) channel); rewrite IH; simpl; [|done]. do 2 f_equal. lia.
Qed.

(** *** Counting *)

Lemma sum_ext {A} (f g : A -> nat) l : (forall x, x ∈ l -> f x = g x) -> sum_list_with f l = sum_list_with g l.
Proof.
  induction l as [|x l IH]; intros H; [done|]. simpl. rewrite (H x) by left. rewrite IH; [done|]. intros y Hy. apply H. by right.
Qed.

Lemma sum_plus {A} (f g : A -> nat) l : sum_list_with (fun x => f x + g x)%nat l = (sum_list_with f l + sum_list_with g l)%nat.
Proof. induction l as [|x l IH]; simpl; [done|]. rewrite IH. lia. Qed.

Lemma sum_zero {A} (l : list A) : sum_list_with (fun _ => 0%nat) l = 0%nat.
Proof. induction l as [|x l IH]; simpl; [done|]. exact IH. Qed.

Lemma sum_map {A B} (f : B -> nat) (g : A -> B) l : sum_list_with f (map g l) = sum_list_with (fun x => f (g x)) l.
Proof. induction l as [|x l IH]; simpl; congruence. Qed.

Definition occurs (k : nat) (l : list nat) : nat := length (filter (fun i => i = k) l).

Lemma sum_one (y : nat) ks : NoDup ks -> y ∈ ks -> sum_list_with (fun k => if decide (y = k) then 1%nat else 0%nat) ks = 1%nat.
Proof.
  induction 1 as [|k ks Hk Hn IH]; intros Hy; [by apply elem_of_nil in Hy|]. simpl. case_decide as E.
  - subst. rewrite (sum_ext _ (fun _ => 0%nat)).
    + by rewrite sum_zero.
    + intros x Hx. rewrite decide_False; [done|]. by intros ->.
  - apply elem_of_cons in Hy as [Hy | Hy]; [done|]. by rewrite IH.
Qed.

Lemma sum_occurs ks l : NoDup ks -> (forall y, y ∈ l -> y ∈ ks) -> sum_list_with (fun k => occurs k l) ks = length l.
Proof.
  intros Hn. induction l as [|y l IH]; intros Hl.
  - apply sum_zero.
  - rewrite (sum_ext _ (fun k => (if decide (y = k) then 1 else 0) + occurs k l)%nat).
    + rewrite sum_plus, sum_one, IH; [done| |done|]; [|apply Hl; left]. intros z Hz. apply Hl. by right.
    + intros k _. unfold occurs. rewrite filter_cons. by case_decide.
Qed.

(** The sum over the clients of the times their ids are in a list. *)

Lemma total_occurs (f : pclient -> nat) (m : clients) l :
  (forall k, k ∈ l -> is_Some (m !! k)) -> (forall k c, m !! k = Some c -> f c = occurs k l) -> total f m = Z.of_nat (length l).
Proof.
  intros Hl Hf. unfold total. f_equal. rewrite (sum_ext _ (fun kc => occurs (fst kc) l)).
  - rewrite <- (sum_map (fun k => occurs k l) fst). apply sum_occurs; [apply NoDup_fst_map_to_list|].
    intros y Hy. destruct (Hl y Hy) as [c Hc]. apply list_elem_of_fmap. exists (y, c). split; [done|]. by apply elem_of_map_to_list.
  - intros [k c] Hkc%elem_of_map_to_list. by apply Hf.
Qed.

Lemma occurs_NoDup k l : NoDup l -> occurs k l = if bool_decide (k ∈ l) then 1%nat else 0%nat.
Proof.
  unfold occurs. induction 1 as [|i l Hi Hn IH]; [done|]. destruct (decide (i = k)) as [-> |].
  - rewrite filter_cons_True by done. rewrite bool_decide_true by left. simpl. rewrite IH, bool_decide_false by done. done.
  - rewrite filter_cons_False by done. rewrite IH. by rewrite (bool_decide_ext (k ∈ i :: l) (k ∈ l)) by set_solver.
Qed.

Lemma occurs_map {A} k (f : A -> nat) (l : list A) : occurs k (map f l) = length (filter (fun x => f x = k) l).
Proof. unfold occurs. induction l as [|x l IH]; [done|]. simpl. rewrite !filter_cons. case_decide; simpl; congruence. Qed.

Lemma filter_hits channel k l :
  map snd (filter (fun x => fst x = k) (hits channel l)) =
  List.filter (fun p => denote false (parse p) channel) (map snd (filter (fun x => fst x = k) l)).
Proof.
  induction l as [|[i p] l IH]; [done|]. unfold hits. simpl. destruct (denote false (parse p) channel) eqn:E.
  - rewrite !filter_cons. simpl. case_decide; simpl; [rewrite E; by f_equal|done].
  - rewrite !filter_cons. simpl. case_decide; simpl; [by rewrite E|done].
Qed.

Lemma hits_elem channel l x : x ∈ hits channel l -> x ∈ l.
Proof. unfold hits. rewrite !list_elem_of_In, filter_In. tauto. Qed.

Section index_counts.

Context (s : pubsubs) (srv : instance) (m : clients).
Context (Hix : indexed s (chans_of srv m) (pats_of srv m)).

Definition subscribers (ch : bytes) : list nat := default [] (pubsub_channels s !! ch).

Lemma subscribers_elem ch k c : m !! k = Some c -> k ∈ subscribers ch <-> ch ∈ pc_channels c srv.
Proof. intros Hc. unfold subscribers. rewrite (ix_elem _ _ _ Hix). unfold chans_of. by rewrite Hc. Qed.

Lemma subscribers_here ch k : k ∈ subscribers ch -> is_Some (m !! k).
Proof. unfold subscribers. rewrite (ix_elem _ _ _ Hix). unfold chans_of. destruct (m !! k); [done|]. set_solver. Qed.

Lemma patterns_here x : x ∈ pubsub_patterns s -> is_Some (m !! fst x).
Proof.
  intros Hx. pose proof (ix_patterns _ _ _ Hix (fst x)) as Hp. unfold pats_of in Hp. destruct (m !! fst x); [done|].
  apply map_eq_nil in Hp. assert (x ∈ filter (fun y => fst y = fst x) (pubsub_patterns s)) as Hin by (by apply list_elem_of_filter).
  rewrite Hp in Hin. by apply elem_of_nil in Hin.
Qed.

Lemma patterns_of k c : m !! k = Some c -> map snd (filter (fun x => fst x = k) (pubsub_patterns s)) = pc_patterns c srv.
Proof. intros Hc. rewrite (ix_patterns _ _ _ Hix). unfold pats_of. by rewrite Hc. Qed.

Lemma subscribers_occurs ch k c : m !! k = Some c -> (if bool_decide (ch ∈ pc_channels c srv) then 1 else 0)%nat = occurs k (subscribers ch).
Proof.
  intros Hc. rewrite occurs_NoDup by apply (ix_nodup _ _ _ Hix). by rewrite (bool_decide_ext _ _ (subscribers_elem ch k c Hc)).
Qed.

Lemma total_subscribers ch :
  total (fun c => if bool_decide (ch ∈ pc_channels c srv) then 1%nat else 0%nat) m = Z.of_nat (length (subscribers ch)).
Proof. apply total_occurs; [apply subscribers_here|apply subscribers_occurs]. Qed.

Lemma total_patterns : total (fun c => length (pc_patterns c srv)) m = Z.of_nat (length (pubsub_patterns s)).
Proof.
  rewrite <- (length_map fst (pubsub_patterns s)). apply total_occurs.
  - intros k (x & -> & Hx)%list_elem_of_fmap. by apply patterns_here.
  - intros k c Hc. rewrite occurs_map, <- (patterns_of k c Hc). apply length_map.
Qed.

Lemma total_hits ch : total (fun c => length (matched srv ch c)) m = Z.of_nat (length (hits ch (pubsub_patterns s))).
Proof.
  rewrite <- (length_map fst (hits ch _)). apply total_occurs.
  - intros k (x & -> & Hx)%list_elem_of_fmap. by apply patterns_here, (hits_elem ch).
  - intros k c Hc. rewrite occurs_map. unfold matched. rewrite <- (patterns_of k c Hc), <- filter_hits. apply length_map.
Qed.

Lemma total_received ch :
  total (received srv ch) m = Z.of_nat (length (subscribers ch)) + Z.of_nat (length (hits ch (pubsub_patterns s))).
Proof.
  rewrite <- total_subscribers, <- total_hits. unfold total. rewrite <- Nat2Z.inj_add, <- sum_plus. done.
Qed.

Lemma all_channels_dom : all_channels srv m = dom (pubsub_channels s).
Proof.
  apply set_eq. intros ch. unfold all_channels. rewrite elem_of_union_list, elem_of_dom. split.
  - intros (X & ([k c] & -> & Hkc%elem_of_map_to_list)%list_elem_of_fmap & Hch). simpl in Hch.
    apply (subscribers_elem ch k c Hkc) in Hch. unfold subscribers in Hch.
    destruct (pubsub_channels s !! ch); [done|]. by apply elem_of_nil in Hch.
  - intros [l Hl]. pose proof (ix_nonempty _ _ _ Hix ch) as Hne. destruct l as [|k l]; [done|].
    assert (k ∈ subscribers ch) as Hk by (unfold subscribers; rewrite Hl; left).
    destruct (subscribers_here ch k Hk) as [c Hc]. apply (subscribers_elem ch k c Hc) in Hk.
    exists (pc_channels c srv). split; [|done]. apply list_elem_of_fmap. exists (k, c). split; [done|]. by apply elem_of_map_to_list.
Qed.

Lemma send_delivers ch msg :
  send (map (fun k => (k, message_text ch msg)) (subscribers ch) ++
        map (fun x => (fst x, pmessage_text (snd x) ch msg)) (hits ch (pubsub_patterns s))) m = spec_publish srv ch msg m.
Proof.
  apply map_eq. intros k. rewrite lookup_send. unfold spec_publish. rewrite lookup_fmap.
  destruct (m !! k) as [c|] eqn:Hc; [|done]. simpl. f_equal. f_equal. unfold delivery, matched.
  rewrite filter_app, map_app, concat_app. f_equal.
  - rewrite (bool_decide_ext _ _ (iff_sym (subscribers_elem ch k c Hc))). generalize (ix_nodup _ _ _ Hix ch). fold (subscribers ch).
    generalize (message_text ch msg). intros t. induction 1 as [|i l Hi Hn IH]; [done|]. simpl. destruct (decide (i = k)) as [-> |].
    + rewrite filter_cons_True by done. simpl. rewrite IH. rewrite bool_decide_false by done. rewrite bool_decide_true by left. apply app_nil_r.
    + rewrite filter_cons_False by done. rewrite IH. by rewrite (bool_decide_ext (k ∈ i :: l) (k ∈ l)) by set_solver.
  - rewrite <- (patterns_of k c Hc), <- filter_hits. f_equal. generalize (hits ch (pubsub_patterns s)). intros l.
    induction l as [|[i p] l IH]; [done|]. simpl. rewrite !filter_cons. simpl. case_decide; simpl; by rewrite IH.
Qed.

End index_counts.

(** [st'] has the clients [m] instead. *)

Record became (m : clients) (st st' : pserver) : Prop := {
  bc_ok : st_ok st';
  bc_clients : ps_clients st' = m;
  bc_cluster : ps_cluster_enabled st' = ps_cluster_enabled st;
  bc_bus : ps_bus st' = ps_bus st
}.

Lemma publish_spec srv channel message st :
  st_ok st -> channel <> [] ->
  exists st', pubsubPublishMessage srv channel message st = Ok (total (received srv channel) (ps_clients st), st') /\
    became (spec_publish srv channel message (ps_clients st)) st st'.
Proof.
  intros Hok Hch. pose proof (so_index st Hok srv) as Hix.
  exists (set_ps_clients (spec_publish srv channel message (ps_clients st)) st). split.
  - unfold pubsubPublishMessage. rewrite (total_received _ _ _ Hix), <- (send_delivers _ _ _ Hix), send_app. unfold subscribers.
    destruct (pubsub_channels (ps_subs st srv) !! channel) as [l|]; [rewrite message_loop_send|]; rewrite pmessage_loop_send by done; done.
  - split; [|done|done|done]. split; simpl.
    + intros i. eapply indexed_ext; [exact (so_index st Hok i)| |]; intros k; unfold chans_of, pats_of, spec_publish;
        rewrite lookup_fmap; by destruct (ps_clients st !! k).
    + intros k c. unfold spec_publish. rewrite lookup_fmap_Some. intros (d & <- & Hd). exact (so_names st Hok k d Hd).
Qed.
