(* ===== verification/PubsubClaims.v ===== *)
(** * Publish and subscribe: claims

    Each step of the server is a step of the specification; what the modes of
    the clients say; the flags of the keyspace events. *)

From S2P Require Import Prelude Util Resp Glob Pubsub PubsubTheory.

(** ** Steps *)

Lemma matching_filter pat l :
  Forall (fun ch => ch <> []) l ->
  matching pat l = Ok (List.filter (fun ch => match pat with None => true | Some p => denote false (parse p) ch end) l).
Proof.
  induction 1 as [|ch l Hch _ IH]; [done|]. cbn [matching List.filter].
  assert (match pat with Some p => stringmatchlen p ch false | None => Ok true end
          = Ok (match pat with None => true | Some p => denote false (parse p) ch end)) as ->.
  { destruct pat; [|done]. apply match_loop_denote; [lia|done]. }
  cbn [mbind res_bind]. rewrite IH. done.
Qed.

Lemma order_names order srv st :
  visits_all order -> st_ok st -> Forall (fun ch => ch <> []) (order (all_channels srv (ps_clients st))).
Proof.
  intros Hord Hok. apply Forall_forall. intros ch. rewrite (Hord _), elem_of_elements. unfold all_channels. rewrite elem_of_union_list.
  intros (X & ([k c] & -> & Hkc%elem_of_map_to_list)%list_elem_of_fmap & Hch). exact (so_names st Hok k c Hkc _ _ Hch).
Qed.

Lemma pubsub_text_Ok channels channels' numsub numsub' numpat numpat' args :
  args <> [] -> (forall pat, channels pat = Ok (channels' pat)) -> (forall ch, numsub ch = numsub' ch) -> numpat = numpat' ->
  exists reply, pubsub_text channels numsub numpat args = Ok reply /\
    pubsub_text (fun pat => Ok (channels' pat)) numsub' numpat' args = Ok reply.
Proof.
  intros Hargs Hc Hn ->. destruct args as [|a args]; [done|]. unfold pubsub_text. cbn [need lookup list_lookup mbind res_bind].
  destruct (_ && _); [rewrite Hc; by eexists|]. destruct (_ && _); [|destruct (_ && _); by eexists].
  eexists. split; [done|]. do 3 f_equal. apply map_ext. intros ch. by rewrite Hn.
Qed.

Lemma pubsub_moves order srv id args st :
  visits_all order -> st_ok st -> args <> [] ->
  exists st' reply, pubsub order srv id args st = Ok st' /\ spec_pubsub order srv args (ps_clients st) = Ok reply /\ moved (put reply) id st st'.
Proof.
  intros Hord Hok Hargs. pose proof (so_index st Hok srv) as Hix. unfold pubsub, spec_pubsub.
  rewrite (total_patterns _ _ _ Hix). pose proof (order_names order srv st Hord Hok) as Hnames. rewrite (all_channels_dom _ _ _ Hix) in *.
  edestruct pubsub_text_Ok as (reply & E1 & E2);
    [exact Hargs|intros pat; by apply matching_filter|intros ch; symmetry; apply (total_subscribers _ _ _ Hix)|reflexivity|].
  exists (on_client (put reply) id st), reply. split; [|split; [exact E2|by apply moved_quiet]].
  unfold subscribers in E1. rewrite E1. done.
Qed.

(** [s]: the state of the specification after the step. *)

Definition follows (s : spec_state) (st st' : pserver) : Prop :=
  st_ok st' /\ (ps_clients st', ps_bus st') = s /\ ps_cluster_enabled st' = ps_cluster_enabled st.

Lemma moved_follows f id st st' : moved f id st st' -> follows (alter f id (ps_clients st), ps_bus st) st st'.
Proof. intros [Hok Hc Hcl Hb]. split; [done|]. split; [by rewrite Hc, Hb|done]. Qed.

Lemma force_same b : same_subs (set_pc_force_repl b).
Proof. done. Qed.

Lemma st_ok_bus st bus : st_ok st -> st_ok (MkPs (ps_subs st) (ps_clients st) (ps_cluster_enabled st) bus).
Proof. by intros [? ?]. Qed.

Lemma publishCommand_follows id channel message st :
  st_ok st -> channel <> [] ->
  exists st', publishCommand id channel message st = Ok st' /\
    follows (spec_run (ps_cluster_enabled st) elements PUBLISH id [channel; message] (ps_clients st, ps_bus st)) st st'.
Proof.
  intros Hok Hch. unfold publishCommand. destruct (publish_spec TheServer channel message st Hok Hch) as (st1 & -> & [Hok1 Hc1 Hcl1 Hb1]).
  cbn [mbind res_bind]. eexists. split; [done|]. rewrite <- Hcl1. simpl. rewrite <- Hc1, <- Hb1. destruct (ps_cluster_enabled st1) eqn:Ecl.
  - split; [apply st_ok_quiet; [rewrite <- Ecl; by apply st_ok_bus|done]|]. split; [done|]. simpl. congruence.
  - destruct (moved_then _ (put (addReplyLongLong (total (received TheServer channel) (ps_clients st)))) id st1 _
                (moved_quiet (set_pc_force_repl true) id st1 Hok1 (force_same true)) (put_same _)) as [H1 H2 H3 H4].
    split; [done|]. split; [by rewrite H2, H4|simpl; congruence].
Qed.

Lemma refusal_arity cmd args c : refusal cmd args c = None ->
  ((arity_of cmd >? 0) && negb (arity_of cmd =? Z.of_nat (S (length args)))) || (Z.of_nat (S (length args)) <? - arity_of cmd) = false.
Proof. unfold refusal. by destruct (_ || _). Qed.

Lemma run_follows order cmd id args st c :
  visits_all order -> st_ok st -> ps_clients st !! id = Some c -> refusal cmd args c = None -> named (Command id cmd args) ->
  exists st', run order cmd id args st = Ok st' /\
    follows (spec_run (ps_cluster_enabled st) order cmd id args (ps_clients st, ps_bus st)) st st'.
Proof.
  intros Hord Hok Hc Href%refusal_arity Hn. pose proof (ex_intro _ c Hc : here id st) as Hid.
  destruct cmd as [srv|srv|srv|srv| |srv|]; cbn [run spec_run named] in *.
  - destruct (subscribeCommand_moves srv id args st Hok Hid Hn) as (st' & -> & Hm). exists st'. split; [done|]. by apply moved_follows.
  - destruct (unsubscribeCommand_moves order srv id args st Hord Hok Hid) as (st' & -> & Hm). exists st'. split; [done|]. by apply moved_follows.
  - destruct (psubscribeCommand_moves srv id args st Hok Hid) as (st' & -> & Hm). exists st'. split; [done|]. by apply moved_follows.
  - destruct (punsubscribeCommand_moves srv id args st Hok Hid) as (st' & -> & Hm). exists st'. split; [done|]. by apply moved_follows.
  - assert (length args = 2)%nat as Hl.
    { cbn [arity_of] in Href. destruct (Z.eqb_spec 3 (Z.of_nat (S (length args)))); [lia|done]. }
    destruct args as [|channel [|message [|? ?]]]; try done.
    exact (publishCommand_follows id channel message st Hok Hn).
  - destruct (pubsub_moves order srv id args st) as (st' & reply & -> & -> & Hm); [done|done|by destruct args|].
    exists st'. split; [done|]. by apply moved_follows.
  - eexists. split; [done|]. apply moved_follows. by apply moved_quiet.
Qed.

Lemma event_follows events type event key dbid st :
  st_ok st ->
  exists st', notifyKeyspaceEvent events type event key dbid st = Ok st' /\
    became (spec_event events type event key dbid (ps_clients st)) st st'.
Proof.
  intros Hok. unfold notifyKeyspaceEvent, spec_event. destruct (negb (negb (Z.land events type =? 0))); [by exists st|].
  set (chan1 := str "__keyspace@" ++ _). set (chan2 := str "__keyevent@" ++ _).
  assert (exists st1, (if negb (Z.land events NOTIFY_KEYSPACE =? 0)
                       then '(_, st) ← pubsubPublishMessage TheServer chan1 event st; Ok st else Ok st) = Ok st1 /\
            became (if negb (Z.land events NOTIFY_KEYSPACE =? 0) then spec_publish TheServer chan1 event (ps_clients st) else ps_clients st) st st1)
    as (st1 & -> & [Hok1 Hc1 Hcl1 Hb1]).
  { destruct (negb _); [|by exists st]. destruct (publish_spec TheServer chan1 event st Hok) as (st1 & -> & Hb); [done|]. by exists st1. }
  cbn [mbind res_bind]. rewrite <- Hc1. destruct (negb (Z.land events NOTIFY_KEYEVENT =? 0)); [|by exists st1].
  destruct (publish_spec TheServer chan2 key st1 Hok1) as (st2 & -> & [Hok2 Hc2 Hcl2 Hb2]); [done|].
  exists st2. split; [done|]. split; [done|done|congruence|congruence].
Qed.

Lemma st_ok_connect id st : st_ok st -> ps_clients st !! id = None -> st_ok (set_ps_clients (<[id := new_client]> (ps_clients st)) st).
Proof.
  intros [Hi Hn] Hid. split; simpl; [|apply map_Forall_insert_2; [|done]; intros [] ch; simpl; set_solver].
  intros srv. eapply indexed_ext; [exact (Hi srv)| |]; intros k; unfold chans_of, pats_of;
    (destruct (decide (k = id)) as [-> |]; [rewrite lookup_insert_eq, Hid; by destruct srv|by rewrite lookup_insert_ne]).
Qed.

Lemma step_follows order h st :
  visits_all order -> st_ok st -> named h ->
  exists st', step order h st = Ok st' /\ follows (spec_step (ps_cluster_enabled st) order h (ps_clients st, ps_bus st)) st st'.
Proof.
  intros Hord Hok Hn. destruct h as [id|id cmd args|id|events type event key dbid|channel message]; cbn [step spec_step].
  - eexists. split; [done|]. destruct (ps_clients st !! id) as [c|] eqn:Hc; [done|]. split; [by apply st_ok_connect|done].
  - destruct (ps_clients st !! id) as [c|] eqn:Hc; [|by exists st]. unfold process, the_client. rewrite Hc. cbn [need mbind res_bind].
    destruct (refusal cmd args c) eqn:Hr; [|by eapply run_follows]. eexists. split; [done|]. apply moved_follows. by apply moved_quiet.
  - destruct (ps_clients st !! id) as [c|] eqn:Hc; [|exists st; split; [done|]; rewrite delete_id by done; done].
    destruct (freeClient_spec order id st Hord Hok (ex_intro _ c Hc)) as (st' & -> & Hok' & E & Hcl & Hb).
    exists st'. split; [done|]. split; [done|]. split; [by rewrite E, Hb|done].
  - destruct (event_follows events type event key dbid st Hok) as (st' & -> & [Hok' E Hcl Hb]).
    exists st'. split; [done|]. split; [done|]. split; [by rewrite E, Hb|done].
  - destruct (publish_spec TheCrdtServer channel message st Hok Hn) as (st' & -> & [Hok' E Hcl Hb]). cbn [mbind res_bind].
    exists st'. split; [done|]. split; [done|]. split; [by rewrite E, Hb|done].
Qed.

Definition proper_run (hs : list ((gset bytes -> list bytes) * happening)) : Prop :=
  Forall (fun oh => visits_all (fst oh) /\ named (snd oh)) hs.

Lemma steps_follow hs st :
  proper_run hs -> st_ok st ->
  exists st', steps hs st = Ok st' /\ follows (spec_steps (ps_cluster_enabled st) hs (ps_clients st, ps_bus st)) st st'.
Proof.
  intros Hrun. revert st. induction Hrun as [|[order h] hs [Hord Hn] _ IH]; intros st Hok; cbn [steps]; [by exists st|].
  destruct (step_follows order h st Hord Hok Hn) as (st1 & -> & Hok1 & E1 & Hcl1). cbn [mbind res_bind].
  destruct (IH st1 Hok1) as (st2 & E2 & Hok2 & Es & Hcl2). exists st2. split; [done|]. split; [done|].
  split; [|congruence]. rewrite Es. unfold spec_steps. simpl. by rewrite Hcl1, E1.
Qed.

Lemma initial_ok cluster : st_ok (initial cluster).
Proof.
  split; [|by intros k c]. intros []; split; simpl; try done; try (intros; apply NoDup_nil_2); intros ch k; rewrite elem_of_nil;
    unfold chans_of; rewrite lookup_empty; set_solver.
Qed.

(** ** The mode of a client *)

(** A client in the mode of Pub/Sub has a subscription, so it can leave. *)

Definition mode_ok (c : pclient) : Prop := pc_pubsub c = true -> exists srv, clientSubscriptionsCount srv c <> 0.

Lemma count_channel srv ch c : ch ∈ pc_channels c srv -> clientSubscriptionsCount srv c <> 0.
Proof.
  intros Hch. unfold clientSubscriptionsCount. assert (size (pc_channels c srv) <> 0%nat); [|lia].
  intros H%size_empty_inv. by apply (H ch) in Hch.
Qed.

Lemma count_pattern srv p c : p ∈ pc_patterns c srv -> clientSubscriptionsCount srv c <> 0.
Proof. intros Hp. unfold clientSubscriptionsCount. destruct (pc_patterns c srv); [by apply elem_of_nil in Hp|simpl; lia]. Qed.

Lemma subscribe_keeps srv args ch c :
  ch ∈ pc_channels c srv -> ch ∈ pc_channels (fold_left (spec_subscribe srv) args c) srv.
Proof.
  revert c. induction args as [|a args IH]; intros c Hch; [done|]. simpl. apply IH. simpl. rewrite at_set_eq. set_solver.
Qed.

Lemma psubscribe_keeps srv args p c :
  p ∈ pc_patterns c srv -> p ∈ pc_patterns (fold_left (spec_psubscribe srv) args c) srv.
Proof.
  revert c. induction args as [|a args IH]; intros c Hp; [done|]. simpl. apply IH. unfold spec_psubscribe. simpl.
  case_bool_decide; [done|]. simpl. rewrite at_set_eq. set_solver.
Qed.

Lemma subscribed_mode srv args c : args <> [] -> mode_ok (set_pc_pubsub true (fold_left (spec_subscribe srv) args c)).
Proof.
  intros Hargs _. destruct args as [|ch args]; [done|]. exists srv. apply (count_channel srv ch). simpl. apply subscribe_keeps.
  simpl. rewrite at_set_eq. set_solver.
Qed.

Lemma psubscribed_mode srv args c : args <> [] -> mode_ok (set_pc_pubsub true (fold_left (spec_psubscribe srv) args c)).
Proof.
  intros Hargs _. destruct args as [|p args]; [done|]. exists srv. apply (count_pattern srv p). simpl. apply psubscribe_keeps.
  unfold spec_psubscribe. simpl. case_bool_decide; [done|]. simpl. rewrite at_set_eq. set_solver.
Qed.

Lemma leave_mode srv c : mode_ok (leave_pubsub srv c).
Proof. unfold leave_pubsub, mode_ok. destruct (Z.eqb_spec (clientSubscriptionsCount srv c) 0); [done|]. intros _. by exists srv. Qed.

Lemma put_mode p c : mode_ok c -> mode_ok (put p c).
Proof. done. Qed.

Lemma alter_mode f id (m : clients) :
  map_Forall (fun _ => mode_ok) m -> (forall c, mode_ok c -> mode_ok (f c)) -> map_Forall (fun _ => mode_ok) (alter f id m).
Proof. intros Hm Hf k c. rewrite lookup_alter_Some. intros [(-> & d & Hd & ->) | [_ Hc]]; [apply Hf|]; by eapply Hm. Qed.

Lemma publish_mode srv channel message m : map_Forall (fun _ => mode_ok) m -> map_Forall (fun _ => mode_ok) (spec_publish srv channel message m).
Proof. intros Hm k c. unfold spec_publish. rewrite lookup_fmap_Some. intros (d & <- & Hd). exact (Hm k d Hd). Qed.

Lemma run_mode cluster order cmd id args s c :
  refusal cmd args c = None -> map_Forall (fun _ => mode_ok) (fst s) -> map_Forall (fun _ => mode_ok) (fst (spec_run cluster order cmd id args s)).
Proof.
  intros Href%refusal_arity Hm. destruct s as [m bus]. simpl in Hm.
  destruct cmd as [srv|srv|srv|srv| |srv|]; cbn [spec_run fst].
  - apply alter_mode; [done|]. intros d _. apply subscribed_mode. by destruct args.
  - apply alter_mode; [done|]. intros d _. apply leave_mode.
  - apply alter_mode; [done|]. intros d _. apply psubscribed_mode. by destruct args.
  - apply alter_mode; [done|]. intros d _. apply leave_mode.
  - destruct args as [|channel [|message [|? ?]]]; try done. destruct cluster; apply alter_mode; try done; by apply publish_mode.
  - destruct (spec_pubsub order srv args m); try done. by apply alter_mode.
  - by apply alter_mode.
Qed.

Lemma step_mode cluster order h s :
  map_Forall (fun _ => mode_ok) (fst s) -> map_Forall (fun _ => mode_ok) (fst (spec_step cluster order h s)).
Proof.
  intros Hm. destruct s as [m bus]. simpl in Hm.
  destruct h as [id|id cmd args|id|events type event key dbid|channel message]; cbn [spec_step fst].
  - destruct (m !! id); [done|]. by apply map_Forall_insert_2.
  - destruct (m !! id) as [c|]; [|done]. destruct (refusal cmd args c) eqn:Hr; [by apply alter_mode|]. by eapply run_mode.
  - by apply map_Forall_delete.
  - unfold spec_event. destruct (negb (negb _)); [done|].
    destruct (negb (_ =? 0)), (negb (_ =? 0)); try done; repeat apply publish_mode; done.
  - by apply publish_mode.
Qed.

Lemma steps_mode cluster hs s :
  map_Forall (fun _ => mode_ok) (fst s) -> map_Forall (fun _ => mode_ok) (fst (spec_steps cluster hs s)).
Proof.
  revert s. induction hs as [|oh hs IH]; intros s Hs; [done|]. apply (IH (spec_step cluster (fst oh) (snd oh) s)). by apply step_mode.
Qed.

(** ** The flags of the keyspace events *)

Lemma class_flag_range c f : class_flag c = Some f -> 0 <= f < 1024.
Proof. unfold class_flag. repeat (destruct (c =? _); [intros [= <-]; by split|]). done. Qed.

Lemma lor_range a b : 0 <= a < 1024 -> 0 <= b < 1024 -> 0 <= Z.lor a b < 1024.
Proof.
  intros Ha Hb. assert (0 <= Z.lor a b) as H0 by (apply Z.lor_nonneg; lia). split; [done|].
  destruct (Z.eq_dec (Z.lor a b) 0) as [-> |Hne]; [done|]. apply Z.log2_lt_pow2 with (b := 10); [lia|].
  rewrite Z.log2_lor by lia. apply Z.max_lub_lt.
  - destruct (Z.eq_dec a 0) as [-> |]; [done|]. apply Z.log2_lt_pow2; lia.
  - destruct (Z.eq_dec b 0) as [-> |]; [done|]. apply Z.log2_lt_pow2; lia.
Qed.

Lemma classes_loop_spec l flags : 0 <= flags < 1024 ->
  (classes_loop l flags = -1 <-> exists c, c ∈ l /\ class_flag c = None) /\
  (classes_loop l flags <> -1 -> 0 <= classes_loop l flags < 1024).
Proof.
  revert flags. induction l as [|c l IH]; intros flags Hf; cbn [classes_loop].
  - split; [|done]. split; [lia|]. intros (c & Hc & _). by apply elem_of_nil in Hc.
  - destruct (class_flag c) as [f|] eqn:E.
    + destruct (IH (Z.lor flags f)) as [H1 H2]; [by apply lor_range; [|eapply class_flag_range]|]. split; [|done]. rewrite H1. split.
      * intros (d & Hd & Ed). exists d. split; [by right|done].
      * intros (d & [-> | Hd]%elem_of_cons & Ed); [congruence|by exists d].
    + split; [|done]. split; [|done]. intros _. exists c. split; [left|done].
Qed.

Lemma flags_text_kept flags : 0 <= flags < 1024 -> classes_loop (cstr (keyspaceEventsFlagsToString flags)) 0 = flags.
Proof.
  assert (Forall (fun f => classes_loop (cstr (keyspaceEventsFlagsToString f)) 0 = f) (seqZ 0 1024)) as H by decide_now.
  intros Hf. rewrite Forall_forall in H. apply H. apply elem_of_seqZ. lia.
Qed.

(** ** Claims *)

(** C19: publishing and subscribing do what the subscriptions of each client say.
    From the start, through any sequence of connections, commands, changes of
    keys, messages of the module and disconnections, no assertion fails and
    nothing undefined happens; and every client has received exactly what the
    specification gives, which has no index: one message for each of its
    channels, and one for each of its patterns that matches, in order, its own
    notices with the right counts, the number of receivers after PUBLISH, the
    answers of PUBSUB.  The two sets of subscriptions do not mix.  Whoever is in
    the mode of Pub/Sub has a subscription.  The channels that are published to are
    not empty: against an empty name [stringmatchlen] can read past its end. *)
Theorem pubsub_refines (cluster : bool) (hs : list ((gset bytes -> list bytes) * happening)) (Hrun : proper_run hs) :
  exists st, steps hs (initial cluster) = Ok st /\
    (ps_clients st, ps_bus st) = spec_steps cluster hs (∅, []) /\
    map_Forall (fun _ => mode_ok) (ps_clients st).
Proof.
  destruct (steps_follow hs (initial cluster) Hrun (initial_ok cluster)) as (st & E & _ & Es & _).
  exists st. split; [done|]. split; [done|]. assert (ps_clients st = fst (spec_steps cluster hs (∅, []))) as ->.
  { simpl in Es. by rewrite <- Es. }
  apply steps_mode. by intros k c.
Qed.

(** Three clients: the first listens to a channel and to a pattern, the second to
    the same name on the other server; the third publishes. *)

Definition pubsub_example : list ((gset bytes -> list bytes) * happening) :=
  map (fun h => (elements, h))
    [ Connect 1; Connect 2; Connect 3;
      Command 1 (SUBSCRIBE TheServer) [str "news"];
      Command 1 (PSUBSCRIBE TheServer) [str "n[^a]w?"];
      Command 2 (SUBSCRIBE TheCrdtServer) [str "news"];
      Command 3 PUBLISH [str "news"; str "hello"];
      Command 1 (UNSUBSCRIBE TheServer) [];
      Command 3 PUBLISH [str "news"; str "again"];
      KeyEvent 7 NOTIFY_GENERIC (str "del") (str "k") 0;
      RM_CrdtPubsubPublishMessage (str "news") (str "module");
      Disconnect 1;
      Command 3 (PUBSUB TheCrdtServer) [str "channels"] ].

Definition outputs (m : clients) : list (nat * bytes) := map (fun kc => (fst kc, pc_out (snd kc))) (map_to_list m).

Lemma pubsub_refines_witness :
  exists st, steps pubsub_example (initial false) = Ok st /\
    outputs (ps_clients st) =
      [ (2%nat, notify_text NSubscribe TheCrdtServer (addReplyBulk (str "news")) (set_pc_channels TheCrdtServer {[str "news"]} new_client) ++
                message_text (str "news") (str "module"));
        (3%nat, addReplyLongLong 2 ++ addReplyLongLong 1 ++ addReplyMultiBulkLen 1 ++ addReplyBulk (str "news")) ].
Proof.
  destruct (pubsub_refines false pubsub_example) as (st & E & Es & _).
  - unfold pubsub_example. apply Forall_map, Forall_forall. intros h Hh. split; [intros X; reflexivity|]. revert h Hh. apply Forall_forall.
    repeat constructor; done.
  - exists st. split; [exact E|].
    assert (ps_clients st = fst (spec_steps false pubsub_example (∅, []))) as -> by (by rewrite <- Es).
    vm_compute. reflexivity.
Defined.

(** The classes of keyspace events are kept by their text.  A string of
    classes is refused, with -1, exactly if it has a character that is no class;
    else the flags are those of its characters, and the text that
    [keyspaceEventsFlagsToString] gives for them, which is what CONFIG GET and
    CONFIG REWRITE write, stands for the same flags. *)
Lemma keyspace_events_roundtrip (classes : bytes) :
  let flags := keyspaceEventsStringToFlags classes in
  (flags = -1 <-> exists c, c ∈ cstr classes /\ class_flag c = None) /\
  (flags <> -1 -> 0 <= flags < 1024 /\ keyspaceEventsStringToFlags (keyspaceEventsFlagsToString flags) = flags).
Proof.
  cbv zeta. unfold keyspaceEventsStringToFlags. destruct (classes_loop_spec (cstr classes) 0) as [Hbad Hgood]; [lia|]. split; [done|].
  intros Hf. split; [by apply Hgood|]. apply flags_text_kept. by apply Hgood.
Qed.

(** A client with subscriptions to both servers leaves the mode when it gives up
    those of one: the messages of the other then arrive between its replies. *)

Lemma unsubscribe_leaves_crdt :
  exists st c, steps (map (fun h => (elements, h))
      [ Connect 1; Command 1 (SUBSCRIBE TheServer) [str "a"]; Command 1 (SUBSCRIBE TheCrdtServer) [str "b"];
        Command 1 (UNSUBSCRIBE TheServer) [str "a"] ]) (initial false) = Ok st /\
    ps_clients st !! 1%nat = Some c /\ pc_pubsub c = false /\ pc_channels c TheCrdtServer = {[str "b"]}.
Proof. eexists _, _. split; [reflexivity|]. split; [reflexivity|]. split; reflexivity. Qed.
