(* ===== verification/Rio.v ===== *)
(** * Buffered input and output ([src/src/rio.h], [src/src/rio.c])

    The destination of a save, with what has been written and the room left, and
    the source of a load. *)

From S2P Require Import Prelude Util Sds Resp.

(** ** Writing *)

(** A destination that takes [rio_room] more bytes before it fails. *)

Record rio := MkRio { rio_out : bytes; rio_room : Z }.

Definition rioWrite (b : bytes) (r : rio) : option rio :=
  if Z.of_nat (length b) <=? rio_room r
  then Some (MkRio (rio_out r ++ b) (rio_room r - Z.of_nat (length b)))
  else None.

Definition rioWriteBulkCount (prefix count : Z) (r : rio) : option rio :=
  rioWrite (prefix :: print_Z count ++ CRLF) r.

Definition rioWriteBulkString (buf : bytes) (r : rio) : option rio :=
  r ← rioWriteBulkCount 36 (Z.of_nat (length buf)) r;
  r ← (if bool_decide (buf = []) then Some r else rioWrite buf r);
  rioWrite CRLF r.

Definition rioWriteBulkLongLong (l : Z) (r : rio) : option rio := rioWriteBulkString (print_Z l) r.

(** ** Reading *)

(** A source is what is left of it. *)

Definition rioRead (n : nat) (b : bytes) : option (bytes * bytes) :=
  if (length b <? n)%nat then None else Some (take n b, drop n b).

(** ** What is written *)

(** [f] appends [b] to every destination with room for it. *)

Definition writes (f : rio -> option rio) (b : bytes) : Prop :=
  forall r, Z.of_nat (length b) <= rio_room r ->
  f r = Some (MkRio (rio_out r ++ b) (rio_room r - Z.of_nat (length b))).

Lemma writes_write b : writes (rioWrite b) b.
Proof. intros r Hr. unfold rioWrite. by destruct (Z.leb_spec (Z.of_nat (length b)) (rio_room r)); [|lia]. Qed.

Lemma writes_bind f g a b : writes f a -> writes g b -> writes (fun r => r ← f r; g r) (a ++ b).
Proof.
  intros Hf Hg r Hr. rewrite length_app in Hr |- *. rewrite Hf by lia. simpl. rewrite Hg by (cbn [rio_room]; lia).
  simpl. rewrite <- app_assoc. do 2 f_equal. lia.
Qed.

Lemma writes_nil : writes Some [].
Proof. intros [out room] _. simpl. by rewrite app_nil_r, Z.sub_0_r. Qed.

Lemma writes_string s : writes (rioWriteBulkString s) (addReplyBulk s).
Proof.
  unfold rioWriteBulkString, addReplyBulk. apply writes_bind; [apply writes_write|].
  apply writes_bind; [|apply writes_write]. destruct (bool_decide_reflect (s = [])) as [-> |].
  - apply writes_nil.
  - apply writes_write.
Qed.

Lemma writes_longlong z : writes (rioWriteBulkLongLong z) (addReplyBulk (print_Z z)).
Proof. apply writes_string. Qed.

Lemma writes_ext f g b : (forall r, f r = g r) -> writes f b -> writes g b.
Proof. intros E H r Hr. by rewrite <- E, H. Qed.

(** ** Savers and loaders

    A saver writes to a destination, a loader takes a value from the front of a
    source.  [None] is an error of the destination or the end of the source;
    [Abort] an exit of the process. *)

Definition saver : Type := rio -> res (option rio).

Definition save_raw (b : bytes) : saver := fun r => Ok (rioWrite b r).

Definition save_seq (f g : saver) : saver :=
  fun r => o ← f r; match o with None => Ok None | Some r => g r end.

Definition save_nothing : saver := fun r => Ok (Some r).

Definition loader (A : Type) : Type := bytes -> res (option (A * bytes)).

Definition load_raw (n : nat) : loader bytes := fun b => Ok (rioRead n b).

Definition load_ret {A} (x : A) : loader A := fun b => Ok (Some (x, b)).

Definition load_fail {A} : loader A := fun _ => Ok None.

Definition load_exit {A} : loader A := fun _ => Abort.

Definition load_bind {A B} (f : loader A) (g : A -> loader B) : loader B :=
  fun b => o ← f b; match o with None => Ok None | Some (x, b) => g x b end.

Declare Scope rio_scope.
Notation "f ;+ g" := (save_seq f g) (at level 100, g at level 200, right associativity) : rio_scope.
Notation "x <-- f ;; g" := (load_bind f (fun x => g)) (at level 100, f at next level, g at level 200, right associativity) : rio_scope.
Open Scope rio_scope.

(** [f] appends [b]; [f] takes [b] for [x]. *)

Definition saves (f : saver) (b : bytes) : Prop :=
  forall r, Z.of_nat (length b) <= rio_room r ->
  f r = Ok (Some (MkRio (rio_out r ++ b) (rio_room r - Z.of_nat (length b)))).

Definition loads {A} (f : loader A) (b : bytes) (x : A) : Prop := forall rest, f (b ++ rest) = Ok (Some (x, rest)).

Lemma saves_raw b : saves (save_raw b) b.
Proof. intros r Hr. unfold save_raw. by rewrite writes_write. Qed.

Lemma saves_seq f g a b : saves f a -> saves g b -> saves (f ;+ g) (a ++ b).
Proof.
  intros Hf Hg r Hr. rewrite length_app in Hr |- *. unfold save_seq. rewrite Hf by lia. cbn [mbind res_bind].
  rewrite Hg by (cbn [rio_room]; lia). cbn [rio_out rio_room]. rewrite <- app_assoc. do 3 f_equal. lia.
Qed.

Lemma saves_nothing : saves save_nothing [].
Proof. intros [out room] _. unfold save_nothing. cbn [length rio_out rio_room]. by rewrite app_nil_r, Z.sub_0_r. Qed.

Lemma loads_raw b : loads (load_raw (length b)) b b.
Proof.
  intros rest. unfold load_raw, rioRead. rewrite length_app.
  destruct (Nat.ltb_spec (length b + length rest) (length b)); [lia|]. by rewrite take_app_length, drop_app_length.
Qed.

Lemma loads_raw_n n b : length b = n -> loads (load_raw n) b b.
Proof. intros <-. apply loads_raw. Qed.

Lemma loads_ret {A} (x : A) : loads (load_ret x) [] x.
Proof. done. Qed.

Lemma loads_bind {A B} (f : loader A) (g : A -> loader B) a b x y :
  loads f a x -> loads (g x) b y -> loads (x <-- f ;; g x) (a ++ b) y.
Proof. intros Hf Hg rest. unfold load_bind. rewrite <- app_assoc, Hf. apply Hg. Qed.
