(* ===== verification/World.v ===== *)
(** * The server as the replication code sees it

    The program has two [struct redisServer]: [server], which replicates to its
    own slaves, and [crdtServer], which replicates to the peers of the other
    groups.  A [world] holds the replication part of both, the CRDT fields, and
    the few fields of [server] the replication code tests. *)

From S2P Require Import Prelude Util Sds VectorClock VcTheory VcText VcClaims Proxy CrdtServer Backlog Resp.

(** [w_server] and [w_peers] are the replication parts of [server] and of
    [crdtServer]. *)

Record world := MkWorld {
  w_server : replServer;
  w_peers : replServer;
  w_crdt : crdtServer;
  w_masterhost : option bytes;
  w_repl_state : Z;
  w_master_is_crdt : bool;
  w_crdt_enabled : bool;
  w_repl_slave_repl_all : bool;
  w_unixtime : Z
}.

Definition set_w_server (v : replServer) (w : world) : world :=
  MkWorld v (w_peers w) (w_crdt w) (w_masterhost w) (w_repl_state w) (w_master_is_crdt w) (w_crdt_enabled w) (w_repl_slave_repl_all w) (w_unixtime w).

Definition set_w_peers (v : replServer) (w : world) : world :=
  MkWorld (w_server w) v (w_crdt w) (w_masterhost w) (w_repl_state w) (w_master_is_crdt w) (w_crdt_enabled w) (w_repl_slave_repl_all w) (w_unixtime w).

Definition set_w_crdt (v : crdtServer) (w : world) : world :=
  MkWorld (w_server w) (w_peers w) v (w_masterhost w) (w_repl_state w) (w_master_is_crdt w) (w_crdt_enabled w) (w_repl_slave_repl_all w) (w_unixtime w).

Definition set_w_masterhost (v : option bytes) (w : world) : world :=
  MkWorld (w_server w) (w_peers w) (w_crdt w) v (w_repl_state w) (w_master_is_crdt w) (w_crdt_enabled w) (w_repl_slave_repl_all w) (w_unixtime w).

Definition set_w_repl_state (v : Z) (w : world) : world :=
  MkWorld (w_server w) (w_peers w) (w_crdt w) (w_masterhost w) v (w_master_is_crdt w) (w_crdt_enabled w) (w_repl_slave_repl_all w) (w_unixtime w).

Definition set_w_master_is_crdt (v : bool) (w : world) : world :=
  MkWorld (w_server w) (w_peers w) (w_crdt w) (w_masterhost w) (w_repl_state w) v (w_crdt_enabled w) (w_repl_slave_repl_all w) (w_unixtime w).

Definition set_w_crdt_enabled (v : bool) (w : world) : world :=
  MkWorld (w_server w) (w_peers w) (w_crdt w) (w_masterhost w) (w_repl_state w) (w_master_is_crdt w) v (w_repl_slave_repl_all w) (w_unixtime w).

Definition set_w_repl_slave_repl_all (v : bool) (w : world) : world :=
  MkWorld (w_server w) (w_peers w) (w_crdt w) (w_masterhost w) (w_repl_state w) (w_master_is_crdt w) (w_crdt_enabled w) v (w_unixtime w).

Definition set_w_unixtime (v : Z) (w : world) : world :=
  MkWorld (w_server w) (w_peers w) (w_crdt w) (w_masterhost w) (w_repl_state w) (w_master_is_crdt w) (w_crdt_enabled w) (w_repl_slave_repl_all w) v.

(** [struct redisServer *srv], which is [&server] or [&crdtServer]. *)

Inductive srv := SERVER | CRDT.

#[global] Instance srv_eq_dec : EqDecision srv.
Proof. solve_decision. Defined.

Definition get_srv (i : srv) (w : world) : replServer :=
  match i with
  | SERVER => w_server w
  | CRDT => w_peers w
  end.

Definition set_srv (i : srv) (s : replServer) (w : world) : world :=
  match i with
  | SERVER => set_w_server s w
  | CRDT => set_w_peers s w
  end.

Lemma get_set_eq i s w : get_srv i (set_srv i s w) = s.
Proof. by destruct i. Qed.

Lemma get_set_ne i j s w : i <> j -> get_srv i (set_srv j s w) = get_srv i w.
Proof. by destruct i, j. Qed.

(** ** The role of this server ([src/src/ctrip_crdt_rdb.c]) *)

Definition iAmMaster (w : world) : bool :=
  if w_crdt_enabled w && negb (w_master_is_crdt w) && bool_decide (w_masterhost w <> None) then true
  else bool_decide (w_masterhost w = None).

Definition isSameTypeWithMaster (w : world) : bool :=
  if w_crdt_enabled w && w_master_is_crdt w then true
  else negb (w_crdt_enabled w) && negb (w_master_is_crdt w).

Definition verifyRdbType (crdt_enabled isCrdtRdb : bool) : bool :=
  if crdt_enabled && isCrdtRdb then true
  else negb crdt_enabled && negb isCrdtRdb.

(** The guard of the feeding functions: a slave of a master of its own kind
    forwards the stream of that master instead of making one. *)

Definition proxies_master (w : world) : bool :=
  bool_decide (w_masterhost w <> None) && negb (w_repl_slave_repl_all w) && isSameTypeWithMaster w.

Lemma proxies_not_master w :
  w_crdt_enabled w = true -> proxies_master w = true -> iAmMaster w = false.
Proof.
  unfold proxies_master, iAmMaster, isSameTypeWithMaster. intros ->.
  destruct (w_master_is_crdt w), (w_masterhost w); simpl;
    rewrite ?andb_false_r; repeat case_bool_decide; simpl; congruence.
Qed.

(** ** String objects *)

(** A string object holds an sds or, encoded as an integer, a [long]. *)

Inductive robj := RSds (s : bytes) | RInt (n : Z).

Definition obj_bytes (o : robj) : bytes :=
  match o with
  | RSds s => s
  | RInt n => print_Z n
  end.

Definition robj_ok (o : robj) : Prop :=
  match o with
  | RSds s => bytes_ok s
  | RInt n => LLONG_MIN <= n <= LLONG_MAX
  end.

#[global] Instance robj_ok_dec o : Decision (robj_ok o).
Proof. destruct o; apply _. Defined.

Definition stringObjectLen (o : robj) : Z :=
  match o with
  | RSds s => Z.of_nat (length s)
  | RInt n => sdigits10 n
  end.

Lemma stringObjectLen_spec o : robj_ok o -> stringObjectLen o = Z.of_nat (length (obj_bytes o)).
Proof. destruct o; [done|]. simpl. intros. by apply sdigits10_print. Qed.
