(* ===== verification/Feed.v ===== *)
(** * Feeding the replication streams

    Writes go to two streams: that of [server], read by its own slaves, and
    that of [crdtServer], read by the peers.  [src/src/replication.c] feeds the
    first, the functions [replicationFeed...] of
    [src/src/ctrip_crdt_replication.c] feed both. *)

From S2P Require Import Prelude Util Sds VectorClock VcTheory VcText VcClaims Proxy CrdtServer Backlog Resp World.

(** ** Objects on the wire *)

Definition feedReplicationBacklogWithObject (o : robj) (s : replServer) : res replServer :=
  feedReplicationBacklog (obj_bytes o) s.

(** [while((n = n/10) != 0) len++]; a [long] has at most 19 digits. *)

Fixpoint digits_loop (fuel : nat) (n len : Z) : Z :=
  match fuel with
  | O => len
  | S fuel => let n := Z.quot n 10 in if n =? 0 then len else digits_loop fuel n (len + 1)
  end.

(** The length [addReplyBulkLen] announces.  [-n] of the smallest [long]
    overflows; the value it wraps to has as many digits. *)

Definition bulk_len (o : robj) : Z :=
  match o with
  | RSds s => Z.of_nat (length s)
  | RInt n => if n <? 0 then digits_loop 20 (to_ll (- n)) 2 else digits_loop 20 n 1
  end.

Definition addReplyBulkObj (o : robj) : bytes :=
  addReplyLongLongWithPrefix (bulk_len o) 36 ++ obj_bytes o ++ CRLF.

(** ** Writing to the slaves *)

(** The loop over [srv->slaves] that queues bytes for every slave that is not
    waiting for its BGSAVE to start. *)

Definition each_slave (f : slave -> slave) (s : replServer) : replServer :=
  set_slaves (map (fun c => if sl_replstate c =? SLAVE_STATE_WAIT_BGSAVE_START then c else f c)
                (slaves s)) s.

(** One command, argument by argument. *)

Definition reply_command (argv : list robj) (c : slave) : slave :=
  foldl (fun c o => queue (addReplyBulkObj o) c)
    (queue (addReplyMultiBulkLen (Z.of_nat (length argv))) c) argv.

(** ** Writing to the backlogs *)

(** [if (srv->repl_backlog) ...] *)

Definition with_backlog (f : replServer -> res replServer) (s : replServer) : res replServer :=
  match repl_backlog s with
  | None => Ok s
  | Some _ => f s
  end.

(** The same for [server], then for [crdtServer]. *)

Definition both_backlogs (f : replServer -> res replServer) (w : world) : res world :=
  s ← with_backlog f (w_server w);
  p ← with_backlog f (w_peers w);
  Ok (set_w_peers p (set_w_server s w)).

Definition both_slaves (f : slave -> slave) (w : world) : world :=
  set_w_peers (each_slave f (w_peers w)) (set_w_server (each_slave f (w_server w)) w).

(** [$<len>], the object, CR LF. *)

Definition feed_arg (o : robj) (s : replServer) : res replServer :=
  s ← feedReplicationBacklog (addReplyLongLongWithPrefix (stringObjectLen o) 36) s;
  s ← feedReplicationBacklogWithObject o s;
  feedReplicationBacklog CRLF s.

Fixpoint feed_args (argv : list robj) (s : replServer) : res replServer :=
  match argv with
  | [] => Ok s
  | o :: argv => s ← feed_arg o s; feed_args argv s
  end.

Definition feed_command (argv : list robj) (s : replServer) : res replServer :=
  s ← feedReplicationBacklog (addReplyLongLongWithPrefix (Z.of_nat (length argv)) 42) s;
  feed_args argv s.

Fixpoint feed_args_both (argv : list robj) (w : world) : res world :=
  match argv with
  | [] => Ok w
  | o :: argv => w ← both_backlogs (feed_arg o) w; feed_args_both argv w
  end.

(** ** Both streams ([src/src/ctrip_crdt_replication.c]) *)

Definition crdt_select (gid dictid : Z) : bytes :=
  str "*3" ++ CRLF ++ str "$11" ++ CRLF ++ str "CRDT.SELECT" ++ CRLF ++
  str "$" ++ print_Z (Z.of_nat (length (print_Z gid))) ++ CRLF ++ print_Z gid ++ CRLF ++
  str "$" ++ print_Z (Z.of_nat (length (print_Z dictid))) ++ CRLF ++ print_Z dictid ++ CRLF.

Definition replicationFeedRobj (cmd : robj) (w : world) : res world :=
  w ← both_backlogs (feedReplicationBacklogWithObject cmd) w;
  Ok (both_slaves (queue (obj_bytes cmd)) w).

Definition replicationFeedString (cmd : bytes) (w : world) : res world :=
  w ← both_backlogs (feedReplicationBacklog cmd) w;
  Ok (both_slaves (queue cmd) w).

(** [server.slaveseldb = crdtServer.slaveseldb = dictid] *)

Definition set_seldb (dictid : Z) (w : world) : world :=
  set_w_peers (set_slaveseldb dictid (w_peers w))
    (set_w_server (set_slaveseldb dictid (w_server w)) w).

Definition seldb_differs (dictid : Z) (w : world) : bool :=
  negb (slaveseldb (w_server w) =? dictid) || negb (slaveseldb (w_peers w) =? dictid).

Definition replicationFeedRobjToAllSlaves (dictid : Z) (cmd : robj) (w : world) : res world :=
  if proxies_master w then Ok w else
  w ← (if seldb_differs dictid w
       then replicationFeedRobj (RSds (crdt_select (crdt_gid (w_crdt w)) dictid)) w else Ok w);
  replicationFeedRobj cmd (set_seldb dictid w).

Definition replicationFeedStringToAllSlaves (dictid : Z) (cmd : bytes) (w : world) : res world :=
  if proxies_master w then Ok w else
  w ← (if seldb_differs dictid w
       then replicationFeedString (crdt_select (crdt_gid (w_crdt w)) dictid) w else Ok w);
  replicationFeedString cmd (set_seldb dictid w).

Definition replicationFeedAllSlaves (dictid : Z) (argv : list robj) (w : world) : res world :=
  if proxies_master w then Ok w else
  w ← (if seldb_differs dictid w then
         let selectcmd := RSds (crdt_select (crdt_gid (w_crdt w)) dictid) in
         w ← both_backlogs (feedReplicationBacklogWithObject selectcmd) w;
         Ok (both_slaves (queue (obj_bytes selectcmd)) w)
       else Ok w);
  let w := set_seldb dictid w in
  w ← both_backlogs (feedReplicationBacklog (addReplyLongLongWithPrefix (Z.of_nat (length argv)) 42)) w;
  w ← feed_args_both argv w;
  Ok (both_slaves (reply_command argv) w).

Definition sendObservedVectorClock (w : world) : res world :=
  replicationFeedAllSlaves (slaveseldb (w_server w))
    [RSds (str "CRDT.OVC"); RSds (print_Z (crdt_gid (w_crdt w)));
     RSds (vectorClockToSds (vectorClock (w_crdt w)))] w.

(** [createReplicationBacklog] of [src/src/replication.c]. *)

Definition createReplicationBacklog (w : world) : res world :=
  s ← (if bool_decide (repl_backlog (w_server w) = None)
       then createServerReplicationBacklog (w_server w) else Ok (w_server w));
  p ← (if bool_decide (repl_backlog (w_peers w) = None)
       then createServerReplicationBacklog (w_peers w) else Ok (w_peers w));
  Ok (set_w_peers p (set_w_server s w)).

Definition feedCrdtBacklog (argv : list robj) (w : world) : res world :=
  w ← (if bool_decide (repl_backlog (w_peers w) = None) then createReplicationBacklog w else Ok w);
  p ← feed_command argv (w_peers w);
  Ok (set_w_peers p w).

(** ** The stream of [server] ([src/src/server.c], [src/src/replication.c]) *)

(** The text is the same for the shared objects and for the others. *)

Definition select_cmd (dictid : Z) : bytes :=
  str "*2" ++ CRLF ++ str "$6" ++ CRLF ++ str "SELECT" ++ CRLF ++
  str "$" ++ print_Z (Z.of_nat (length (print_Z dictid))) ++ CRLF ++ print_Z dictid ++ CRLF.

Definition sendSelectCommandToSlave (dictid : Z) (w : world) : res world :=
  s ← with_backlog (feedReplicationBacklogWithObject (RSds (select_cmd dictid))) (w_server w);
  let s := each_slave (queue (select_cmd dictid)) s in
  Ok (set_w_server (set_slaveseldb dictid s) w).

Definition REPL_STATE_CONNECTED : Z := 25.

(** [current] is [server.current_client], with whether the command it runs is
    [crdtMergeEndCommand]; [slaves] is always [server.slaves]. *)

Definition replicationFeedSlaves (current : option (client * bool)) (dictid : Z) (argv : list robj)
    (w : world) : res world :=
  if proxies_master w then Ok w else
  skip ← match current with
         | Some (c, merge_end) =>
             if cl_crdt_master c then
               p ← need (crdtMasters (w_crdt w) !! cl_gid c);
               Ok ((repl_state p =? REPL_STATE_CONNECTED) && negb merge_end)
             else Ok false
         | None => Ok false
         end;
  if skip : bool then Ok w else
  if bool_decide (repl_backlog (w_server w) = None) && bool_decide (slaves (w_server w) = []) then Ok w else
  _ ← c_assert (negb (negb (bool_decide (slaves (w_server w) = [])) &&
                      bool_decide (repl_backlog (w_server w) = None)));
  w ← (if negb (slaveseldb (w_server w) =? dictid) then sendSelectCommandToSlave dictid w else Ok w);
  s ← with_backlog (feed_command argv) (w_server w);
  Ok (set_w_server (each_slave (reply_command argv) s) w).

Definition replicationFeedSlavesFromMasterStream (buf : bytes) (w : world) : res world :=
  s ← with_backlog (feedReplicationBacklog buf) (w_server w);
  Ok (set_w_server (each_slave (queue buf) s) w).

(** [propagate] of [src/src/server.c], without the append-only file. *)

Definition propagate (current : option (client * bool)) (dbid : Z) (argv : list robj)
    (crdt_repl repl : bool) (w : world) : res world :=
  if crdt_repl && iAmMaster w then replicationFeedAllSlaves dbid argv w
  else if repl then replicationFeedSlaves current dbid argv w
  else Ok w.

(** ** What the writers produce *)

Lemma digits_loop_dec fuel n len :
  0 <= n < 10 ^ Z.of_nat fuel -> (0 < fuel)%nat ->
  digits_loop fuel n len = len - 1 + Z.of_nat (length (dec n)).
Proof.
  revert n len. induction fuel as [|fuel IH]; intros n len Hn Hf; [lia|]. cbn [digits_loop].
  rewrite Z.quot_div_nonneg by lia. destruct (Z.eqb_spec (n / 10) 0) as [E|E].
  - apply Z.div_small_iff in E; [|lia]. rewrite dec_small by lia. simpl. lia.
  - assert (10 <= n) as Hten by (destruct (decide (10 <= n)); [done|]; rewrite Z.div_small in E; lia).
    rewrite Nat2Z.inj_succ, Z.pow_succ_r in Hn by lia.
    assert (0 < n / 10 < 10 ^ Z.of_nat fuel) as B
      by (split; [apply Z.div_str_pos; lia|apply Z.div_lt_upper_bound; lia]).
    rewrite (dec_step n), length_app by done. cbn [length].
    destruct fuel as [|fuel]; [simpl in B; lia|]. rewrite IH by lia. lia.
Qed.

Lemma bulk_len_spec o : robj_ok o -> bulk_len o = Z.of_nat (length (obj_bytes o)).
Proof.
  destruct o as [s|n]; [done|]. cbn [robj_ok bulk_len obj_bytes]. intros Hn.
  destruct (decide (n = LLONG_MIN)) as [->|Hm]; [by vm_compute|].
  unfold LLONG_MIN, LLONG_MAX in *. unfold print_Z. destruct (Z.ltb_spec n 0).
  - rewrite to_ll_id by (unfold LLONG_MIN, LLONG_MAX; lia).
    rewrite digits_loop_dec by (simpl; lia). cbn [length]. lia.
  - rewrite digits_loop_dec by (simpl; lia). lia.
Qed.

Lemma addReplyBulkObj_spec o : robj_ok o -> addReplyBulkObj o = addReplyBulk (obj_bytes o).
Proof. intros H. unfold addReplyBulkObj, addReplyBulk. by rewrite bulk_len_spec. Qed.

Lemma queue_queue p q c : queue q (queue p c) = queue (p ++ q) c.
Proof.
  unfold queue. destruct (sl_close_after_reply c) eqn:E; [by rewrite E|]. simpl. rewrite E.
  unfold set_sl_output. simpl. by rewrite app_assoc.
Qed.

Lemma queue_nil c : queue [] c = c.
Proof.
  unfold queue. destruct (sl_close_after_reply c); [done|]. rewrite app_nil_r. by destruct c.
Qed.

Lemma queue_replstate p c : sl_replstate (queue p c) = sl_replstate c.
Proof. unfold queue. by destruct (sl_close_after_reply c). Qed.

Lemma reply_command_spec argv c :
  Forall robj_ok argv -> reply_command argv c = queue (encode_command (map obj_bytes argv)) c.
Proof.
  intros H. unfold reply_command, encode_command, encode_args. rewrite length_map.
  generalize (addReplyMultiBulkLen (Z.of_nat (length argv))) as h.
  induction H as [|o argv Ho Hargv IH]; intros h; cbn [foldl map concat]; [by rewrite app_nil_r|].
  rewrite queue_queue, IH, addReplyBulkObj_spec by done. by rewrite <- app_assoc.
Qed.

Lemma crdt_select_encode gid dictid :
  crdt_select gid dictid = encode_command [str "CRDT.SELECT"; print_Z gid; print_Z dictid].
Proof.
  unfold crdt_select, encode_command, encode_args, addReplyBulk, addReplyMultiBulkLen,
    addReplyLongLongWithPrefix. cbn [length map concat].
  change (print_Z (Z.of_nat 3)) with (str "3").
  change (print_Z (Z.of_nat (length (str "CRDT.SELECT")))) with (str "11").
  rewrite app_nil_r, <- !app_assoc. reflexivity.
Qed.

Lemma select_cmd_encode dictid : select_cmd dictid = encode_command [str "SELECT"; print_Z dictid].
Proof.
  unfold select_cmd, encode_command, encode_args, addReplyBulk, addReplyMultiBulkLen,
    addReplyLongLongWithPrefix. cbn [length map concat].
  change (print_Z (Z.of_nat 2)) with (str "2").
  change (print_Z (Z.of_nat (length (str "SELECT")))) with (str "6").
  rewrite app_nil_r, <- !app_assoc. reflexivity.
Qed.

(** ** One server *)

(** Backlog and offset after [p] is fed; the rest of the server is as before
    but for the slaves and [slaveseldb]. *)

Record fed_backlog (p : bytes) (s s' : replServer) : Prop := {
  fed_stream : forall stream, backlog_rep s stream ->
    backlog_rep s' (stream ++ p) /\ master_repl_offset s' = master_repl_offset s + Z.of_nat (length p);
  fed_none : repl_backlog s = None ->
    repl_backlog s' = None /\ master_repl_offset s' = master_repl_offset s;
  fed_ids : replid s' = replid s /\ replid2 s' = replid2 s /\
    second_replid_offset s' = second_replid_offset s /\ repl_backlog_size s' = repl_backlog_size s
}.

(** The same, with the slaves: each one that does not wait for its BGSAVE to
    start gets [p]. *)

Definition fed (p : bytes) (s s' : replServer) : Prop :=
  fed_backlog p s s' /\ slaves s' = slaves (each_slave (queue p) s).

(** There is no backlog, or it holds the end of some stream. *)

Definition backlog_ok (s : replServer) : Prop :=
  repl_backlog s = None \/ exists stream, backlog_rep s stream.

Lemma backlog_rep_some s stream : backlog_rep s stream -> repl_backlog s <> None.
Proof. intros (buf & E & _). by rewrite E. Qed.

Lemma fed_backlog_ok p s s' : fed_backlog p s s' -> backlog_ok s -> backlog_ok s'.
Proof.
  intros F [N|[stream R]]; [left; by apply (fed_none _ _ _ F)|]. right.
  exists (stream ++ p). by apply (fed_stream _ _ _ F).
Qed.

Lemma fed_backlog_app p q s1 s2 s3 :
  fed_backlog p s1 s2 -> fed_backlog q s2 s3 -> fed_backlog (p ++ q) s1 s3.
Proof.
  intros [A1 A2 A3] [B1 B2 B3]. split.
  - intros stream R. destruct (A1 _ R) as [R2 E2]. destruct (B1 _ R2) as [R3 E3].
    rewrite <- app_assoc in R3. split; [done|]. rewrite length_app. lia.
  - intros N. destruct (A2 N) as [N2 E2]. destruct (B2 N2) as [N3 E3]. split; [done|]. congruence.
  - destruct A3 as (?&?&?&?), B3 as (?&?&?&?). split; [congruence|]. split; [congruence|]. split; congruence.
Qed.

Lemma fed_backlog_refl s : fed_backlog [] s s.
Proof. split; [|done..]. intros stream R. rewrite app_nil_r. split; [done|]. simpl. lia. Qed.

(** Fields the feeding does not touch. *)

Lemma fed_backlog_slaves p s s' l : fed_backlog p s s' -> fed_backlog p s (set_slaves l s').
Proof. intros [A1 A2 A3]. by split. Qed.

Lemma fed_backlog_seldb p s s' d : fed_backlog p s s' -> fed_backlog p s (set_slaveseldb d s').
Proof. intros [A1 A2 A3]. by split. Qed.

Definition feeds (p : bytes) (f : replServer -> res replServer) : Prop :=
  forall s stream, backlog_rep s stream ->
  exists s', f s = Ok s' /\ fed_backlog p s s' /\ slaves s' = slaves s /\ slaveseldb s' = slaveseldb s.

Lemma feed_feeds p : feeds p (feedReplicationBacklog p).
Proof.
  intros s stream R. destruct (feed_rep s stream p R) as (s' & E & R' & O & Sl & Sd & I).
  exists s'. split; [done|]. split; [|done]. split.
  - intros stream2 R2. destruct (feed_rep s stream2 p R2) as (s2 & E2 & R2' & O2 & _).
    rewrite E in E2. by injection E2 as <-.
  - intros N. by apply backlog_rep_some in R.
  - done.
Qed.

Lemma feeds_bind p q f g :
  feeds p f -> feeds q g -> feeds (p ++ q) (fun s => s ← f s; g s).
Proof.
  intros F G s stream R. destruct (F s stream R) as (s1 & E1 & B1 & Sl1 & Sd1).
  destruct (G s1 (stream ++ p)) as (s2 & E2 & B2 & Sl2 & Sd2); [by apply (fed_stream _ _ _ B1)|].
  exists s2. rewrite E1. cbn [mbind res_bind]. split; [done|].
  split; [by eapply fed_backlog_app|]. split; congruence.
Qed.

Lemma feed_arg_feeds o : robj_ok o -> feeds (addReplyBulk (obj_bytes o)) (feed_arg o).
Proof.
  intros H. unfold addReplyBulk, feed_arg. rewrite (stringObjectLen_spec o H).
  apply feeds_bind; [apply feed_feeds|]. apply (feeds_bind _ _ (feedReplicationBacklogWithObject o)); apply feed_feeds.
Qed.

Lemma feed_args_feeds argv :
  Forall robj_ok argv -> feeds (encode_args (map obj_bytes argv)) (feed_args argv).
Proof.
  induction 1 as [|o argv Ho Hargv IH].
  - intros s stream R. exists s. split; [done|]. split; [apply fed_backlog_refl|done].
  - unfold encode_args. cbn [map concat]. cbn [feed_args]. by apply feeds_bind; [apply feed_arg_feeds|].
Qed.

Lemma feed_command_feeds argv :
  Forall robj_ok argv -> feeds (encode_command (map obj_bytes argv)) (feed_command argv).
Proof.
  intros H. unfold encode_command, feed_command, addReplyMultiBulkLen. rewrite length_map.
  apply feeds_bind; [apply feed_feeds|by apply feed_args_feeds].
Qed.

Lemma with_backlog_feeds p f s :
  feeds p f -> backlog_ok s ->
  exists s', with_backlog f s = Ok s' /\ fed_backlog p s s' /\ slaves s' = slaves s /\
             slaveseldb s' = slaveseldb s.
Proof.
  intros F [N|[stream R]]; unfold with_backlog.
  - rewrite N. exists s. split; [done|]. split; [|done]. split; [|done..].
    intros stream R. by apply backlog_rep_some in R.
  - pose proof (backlog_rep_some _ _ R). destruct (repl_backlog s); [|done]. by apply (F s stream).
Qed.

Lemma each_slave_queue_app p q s s2 :
  slaves s2 = slaves (each_slave (queue p) s) ->
  slaves (each_slave (queue q) s2) = slaves (each_slave (queue (p ++ q)) s).
Proof.
  unfold each_slave. simpl. intros ->. rewrite map_map. apply map_ext. intros c.
  destruct (sl_replstate c =? SLAVE_STATE_WAIT_BGSAVE_START) eqn:E; [by rewrite E|].
  by rewrite queue_replstate, E, queue_queue.
Qed.

Lemma fed_app p q s1 s2 s3 : fed p s1 s2 -> fed q s2 s3 -> fed (p ++ q) s1 s3.
Proof.
  intros [A1 A2] [B1 B2]. split; [by eapply fed_backlog_app|]. rewrite B2.
  by apply each_slave_queue_app.
Qed.

Lemma fed_nil s s' : fed_backlog [] s s' -> slaves s' = slaves s -> fed [] s s'.
Proof.
  intros F E. split; [done|]. rewrite E. unfold each_slave. simpl. symmetry.
  rewrite (map_ext_in _ id); [apply map_id|]. intros c _.
  rewrite queue_nil. by destruct (_ =? _).
Qed.

(** ** Both servers *)

Definition world_ok (w : world) : Prop := forall i, backlog_ok (get_srv i w).

(** Everything but the two servers is as before. *)

Definition same_rest (w w' : world) : Prop :=
  w' = set_w_peers (w_peers w') (set_w_server (w_server w') w).

Definition world_fed (p : bytes) (w w' : world) : Prop :=
  same_rest w w' /\ forall i, fed p (get_srv i w) (get_srv i w').

Lemma same_rest_trans w1 w2 w3 : same_rest w1 w2 -> same_rest w2 w3 -> same_rest w1 w3.
Proof. unfold same_rest. intros A B. rewrite B, A. by destruct w1, w2, w3. Qed.

Lemma world_fed_ok p w w' : world_fed p w w' -> world_ok w -> world_ok w'.
Proof. intros [_ F] H i. eapply fed_backlog_ok; [apply F|apply H]. Qed.

Lemma world_fed_app p q w1 w2 w3 : world_fed p w1 w2 -> world_fed q w2 w3 -> world_fed (p ++ q) w1 w3.
Proof.
  intros [A1 A2] [B1 B2]. split; [by eapply same_rest_trans|]. intros i. by eapply fed_app.
Qed.

Lemma world_fed_nil w : world_fed [] w w.
Proof. split; [by destruct w|]. intros i. apply fed_nil; [apply fed_backlog_refl|done]. Qed.

Lemma world_fed_seldb p w w' d : world_fed p w w' -> world_fed p w (set_seldb d w').
Proof.
  intros [R F]. split.
  - unfold same_rest in *. rewrite R. by destruct w, w'.
  - intros i. specialize (F i). destruct i; cbn [get_srv set_seldb set_w_peers set_w_server w_server w_peers] in *;
      (split; [apply fed_backlog_seldb|]; apply F).
Qed.

(** The backlogs of both servers are fed; the slaves are not touched yet. *)

Definition both_fed (p : bytes) (w w' : world) : Prop :=
  same_rest w w' /\ forall i, fed_backlog p (get_srv i w) (get_srv i w') /\
    slaves (get_srv i w') = slaves (get_srv i w) /\ slaveseldb (get_srv i w') = slaveseldb (get_srv i w).

Lemma both_fed_ok p w w' : both_fed p w w' -> world_ok w -> world_ok w'.
Proof. intros [_ F] H i. eapply fed_backlog_ok; [apply F|apply H]. Qed.

Lemma both_fed_app p q w1 w2 w3 : both_fed p w1 w2 -> both_fed q w2 w3 -> both_fed (p ++ q) w1 w3.
Proof.
  intros [A1 A2] [B1 B2]. split; [by eapply same_rest_trans|]. intros i.
  destruct (A2 i) as (F1 & S1 & D1), (B2 i) as (F2 & S2 & D2).
  split; [by eapply fed_backlog_app|]. split; congruence.
Qed.

Lemma both_backlogs_fed p f w :
  feeds p f -> world_ok w -> exists w', both_backlogs f w = Ok w' /\ both_fed p w w'.
Proof.
  intros F H. unfold both_backlogs.
  destruct (with_backlog_feeds p f (w_server w) F (H SERVER)) as (s & -> & Fs).
  cbn [mbind res_bind].
  destruct (with_backlog_feeds p f (w_peers w) F (H CRDT)) as (s' & -> & Fp).
  cbn [mbind res_bind]. eexists. split; [reflexivity|]. split; [by destruct w|]. by intros [].
Qed.

Lemma feed_args_both_fed argv w :
  Forall robj_ok argv -> world_ok w ->
  exists w', feed_args_both argv w = Ok w' /\ both_fed (encode_args (map obj_bytes argv)) w w'.
Proof.
  intros Hargv. revert w. induction Hargv as [|o argv Ho Hargv IH]; intros w H.
  - exists w. split; [done|]. split; [by destruct w|]. intros i. split; [apply fed_backlog_refl|done].
  - cbn [feed_args_both]. destruct (both_backlogs_fed _ _ w (feed_arg_feeds o Ho) H) as (w1 & -> & F1).
    cbn [mbind res_bind]. destruct (IH w1) as (w2 & -> & F2); [by eapply both_fed_ok|].
    exists w2. split; [done|]. by eapply both_fed_app.
Qed.

Lemma both_slaves_fed p f w w' :
  (forall c, f c = queue p c) -> both_fed p w w' ->
  world_fed p w (both_slaves f w') /\
  forall i, slaveseldb (get_srv i (both_slaves f w')) = slaveseldb (get_srv i w).
Proof.
  intros Hf [R F]. split.
  - split; [unfold same_rest in *; rewrite R; by destruct w, w'|]. intros i.
    destruct (F i) as (Fb & Es & Ed).
    assert (forall s s', slaves s' = slaves s -> slaves (each_slave f s') = slaves (each_slave (queue p) s)) as M.
    { intros s s' E. unfold each_slave. simpl. rewrite E. apply map_ext. intros c. by rewrite Hf. }
    destruct i; cbn in *; (split; [by apply fed_backlog_slaves|by apply M]).
  - intros i. destruct (F i) as (_ & _ & Ed). by destruct i.
Qed.

Lemma replicationFeedString_fed cmd w :
  world_ok w -> exists w', replicationFeedString cmd w = Ok w' /\ world_fed cmd w w' /\
    forall i, slaveseldb (get_srv i w') = slaveseldb (get_srv i w).
Proof.
  intros H. unfold replicationFeedString.
  destruct (both_backlogs_fed cmd _ w (feed_feeds cmd) H) as (w1 & -> & F). cbn [mbind res_bind].
  eexists. split; [reflexivity|]. by apply both_slaves_fed.
Qed.

Lemma replicationFeedRobj_String cmd w :
  replicationFeedRobj cmd w = replicationFeedString (obj_bytes cmd) w.
Proof. done. Qed.

(** The select command that goes before a command for [dictid]. *)

Definition select_prefix (dictid : Z) (w : world) : bytes :=
  if seldb_differs dictid w
  then encode_command [str "CRDT.SELECT"; print_Z (crdt_gid (w_crdt w)); print_Z dictid] else [].

Lemma select_step_fed dictid w :
  world_ok w -> exists w',
    (if seldb_differs dictid w
     then replicationFeedString (crdt_select (crdt_gid (w_crdt w)) dictid) w else Ok w) = Ok w' /\
    world_fed (select_prefix dictid w) w w'.
Proof.
  intros H. unfold select_prefix. destruct (seldb_differs dictid w).
  - rewrite crdt_select_encode. destruct (replicationFeedString_fed
      (encode_command [str "CRDT.SELECT"; print_Z (crdt_gid (w_crdt w)); print_Z dictid]) w H)
      as (w' & -> & F & _). eauto.
  - exists w. split; [done|]. apply world_fed_nil.
Qed.

Lemma set_seldb_get i d w : slaveseldb (get_srv i (set_seldb d w)) = d.
Proof. by destruct i. Qed.

Lemma feed_string_to_all dictid cmd w :
  world_ok w -> proxies_master w = false ->
  exists w', replicationFeedStringToAllSlaves dictid cmd w = Ok w' /\
    world_fed (select_prefix dictid w ++ cmd) w w' /\ forall i, slaveseldb (get_srv i w') = dictid.
Proof.
  intros H Hm. unfold replicationFeedStringToAllSlaves. rewrite Hm.
  destruct (select_step_fed dictid w H) as (w1 & -> & F1). cbn [mbind res_bind].
  apply (world_fed_seldb _ _ _ dictid) in F1.
  destruct (replicationFeedString_fed cmd (set_seldb dictid w1)) as (w2 & -> & F2 & D2);
    [by eapply world_fed_ok|].
  exists w2. split; [done|]. split; [by eapply world_fed_app|]. intros i. by rewrite D2, set_seldb_get.
Qed.

Lemma feed_all dictid argv w :
  world_ok w -> proxies_master w = false -> Forall robj_ok argv ->
  exists w', replicationFeedAllSlaves dictid argv w = Ok w' /\
    world_fed (select_prefix dictid w ++ encode_command (map obj_bytes argv)) w w' /\
    forall i, slaveseldb (get_srv i w') = dictid.
Proof.
  intros H Hm Hargv. unfold replicationFeedAllSlaves. rewrite Hm.
  change (w1 ← both_backlogs (feedReplicationBacklogWithObject (RSds (crdt_select (crdt_gid (w_crdt w)) dictid))) w;
          Ok (both_slaves (queue (obj_bytes (RSds (crdt_select (crdt_gid (w_crdt w)) dictid)))) w1))
    with (replicationFeedString (crdt_select (crdt_gid (w_crdt w)) dictid) w).
  destruct (select_step_fed dictid w H) as (w1 & -> & F1). cbn [mbind res_bind].
  apply (world_fed_seldb _ _ _ dictid) in F1. pose proof (world_fed_ok _ _ _ F1 H) as H1.
  destruct (both_backlogs_fed _ _ _ (feed_feeds (addReplyLongLongWithPrefix (Z.of_nat (length argv)) 42)) H1)
    as (w2 & -> & F2). cbn [mbind res_bind].
  destruct (feed_args_both_fed argv w2 Hargv) as (w3 & -> & F3); [by eapply both_fed_ok|].
  cbn [mbind res_bind]. eexists. split; [reflexivity|].
  pose proof (both_fed_app _ _ _ _ _ F2 F3) as F23.
  assert (addReplyLongLongWithPrefix (Z.of_nat (length argv)) 42 ++ encode_args (map obj_bytes argv) =
          encode_command (map obj_bytes argv)) as Ee
    by (unfold encode_command, addReplyMultiBulkLen; by rewrite length_map).
  rewrite Ee in F23.
  destruct (both_slaves_fed _ (reply_command argv) _ _ (fun c => reply_command_spec argv c Hargv) F23) as [F D].
  split; [by eapply world_fed_app|]. intros i. by rewrite D, set_seldb_get.
Qed.

(** ** The claims *)

Definition example_slave (state : Z) : slave :=
  MkSlave 1 true false false false false 0 state [] [] 0 0 false 0 [] [] 0 [] 0.

Definition example_repl_server (sl : list slave) : replServer :=
  MkRepl (Some (replicate 64 None)) 64 0 0 1 0 (str "id1") (str "id2") (-1) sl 0 0 0 0 0 0 0.

Definition example_world : world :=
  MkWorld (example_repl_server [example_slave SLAVE_STATE_ONLINE])
    (example_repl_server [example_slave SLAVE_STATE_ONLINE; example_slave SLAVE_STATE_WAIT_BGSAVE_START])
    example_server None 0 false true false 1000.

Lemma example_repl_rep sl : backlog_rep (example_repl_server sl) [].
Proof.
  eexists. split; [reflexivity|]. split; [done|]. split; [|split; [reflexivity|split; reflexivity]].
  split; [reflexivity|]. intros k Hk. simpl in Hk. lia.
Qed.

Lemma example_world_ok : world_ok example_world.
Proof. intros []; right; eexists; apply example_repl_rep. Qed.

(** C8: a write command is fed to both streams alike.  On a server that makes
    its own stream, [replicationFeedAllSlaves] always completes; what it adds is,
    for [server] and for [crdtServer], the same bytes: the encoding of
    [CRDT.SELECT <gid> <db>] if either of them has another database selected, and
    the encoding of the command.  Each backlog that exists holds the stream with
    those bytes appended and its offset advances by their number; each slave and
    peer that is not waiting for its BGSAVE to start has them queued, the others
    nothing; both servers have the database selected. *)
Theorem replicationFeedAllSlaves_streams (dictid : Z) (argv : list robj) (w : world)
    (Hw : world_ok w) (Hmaster : proxies_master w = false) (Hargv : Forall robj_ok argv) :
  exists w', replicationFeedAllSlaves dictid argv w = Ok w' /\
    world_fed ((if seldb_differs dictid w
                then encode_command [str "CRDT.SELECT"; print_Z (crdt_gid (w_crdt w)); print_Z dictid]
                else []) ++ encode_command (map obj_bytes argv)) w w' /\
    forall i, slaveseldb (get_srv i w') = dictid.
Proof. by apply feed_all. Qed.

Lemma replicationFeedAllSlaves_streams_witness :
  exists w', replicationFeedAllSlaves 3 [RSds (str "incr"); RInt (-12)] example_world = Ok w' /\
    world_fed (encode_command [str "CRDT.SELECT"; str "1"; str "3"] ++
               encode_command [str "incr"; str "-12"]) example_world w' /\
    forall i, slaveseldb (get_srv i w') = 3.
Proof.
  apply (replicationFeedAllSlaves_streams 3 [RSds (str "incr"); RInt (-12)] example_world example_world_ok);
    [reflexivity|decide_now].
Defined.

Lemma select_own_fed dictid w :
  backlog_ok (w_server w) ->
  exists w', sendSelectCommandToSlave dictid w = Ok w' /\
    fed (encode_command [str "SELECT"; print_Z dictid]) (w_server w) (w_server w') /\
    slaveseldb (w_server w') = dictid /\ w' = set_w_server (w_server w') w.
Proof.
  intros H. unfold sendSelectCommandToSlave.
  destruct (with_backlog_feeds _ _ _ (feed_feeds (select_cmd dictid)) H) as (s & E & F & Sl & Sd).
  change (feedReplicationBacklogWithObject (RSds (select_cmd dictid)))
    with (feedReplicationBacklog (select_cmd dictid)). rewrite E. cbn [mbind res_bind].
  eexists. split; [reflexivity|]. rewrite <- select_cmd_encode. split; [|by destruct w].
  split; [by apply fed_backlog_seldb, fed_backlog_slaves|]. unfold each_slave. simpl. by rewrite Sl.
Qed.

Lemma feed_own dictid argv w :
  backlog_ok (w_server w) -> Forall robj_ok argv ->
  exists w', (w ← (if negb (slaveseldb (w_server w) =? dictid) then sendSelectCommandToSlave dictid w else Ok w);
              s ← with_backlog (feed_command argv) (w_server w);
              Ok (set_w_server (each_slave (reply_command argv) s) w)) = Ok w' /\
    fed ((if negb (slaveseldb (w_server w) =? dictid) then encode_command [str "SELECT"; print_Z dictid] else [])
         ++ encode_command (map obj_bytes argv)) (w_server w) (w_server w') /\
    slaveseldb (w_server w') = dictid /\ w' = set_w_server (w_server w') w.
Proof.
  intros H Hargv.
  assert (exists w1, (if negb (slaveseldb (w_server w) =? dictid) then sendSelectCommandToSlave dictid w else Ok w)
            = Ok w1 /\ fed (if negb (slaveseldb (w_server w) =? dictid)
                            then encode_command [str "SELECT"; print_Z dictid] else []) (w_server w) (w_server w1) /\
            slaveseldb (w_server w1) = dictid /\ w1 = set_w_server (w_server w1) w) as (w1 & -> & F1 & D1 & R1).
  { destruct (Z.eqb_spec (slaveseldb (w_server w)) dictid) as [E|E]; [|by apply select_own_fed].
    exists w. split; [done|]. split; [apply fed_nil; [apply fed_backlog_refl|done]|]. by destruct w. }
  cbn [mbind res_bind].
  destruct (with_backlog_feeds _ _ (w_server w1) (feed_command_feeds argv Hargv)) as (s & -> & F & Sl & Sd).
  { eapply fed_backlog_ok; [apply F1|done]. }
  cbn [mbind res_bind]. eexists. split; [reflexivity|]. simpl. split; [|rewrite Sd; split; [done|rewrite R1; by destruct w]].
  eapply fed_app; [exact F1|]. split; [by apply fed_backlog_slaves|].
  unfold each_slave. simpl. rewrite Sl. apply map_ext. intros c. by rewrite reply_command_spec.
Qed.

(** No echo.  A command that is propagated to this server's own slaves only
    ([replicationFeedSlaves]: what a peer sent, or what must not leave this
    group) never changes the stream of the peers.  If the client that runs it is
    the link of a connected peer, and the command is not the end of a merge,
    nothing is fed at all: the raw stream of the peer is forwarded instead.
    Otherwise the own stream gets the encoding of [SELECT <db>], if another
    database is selected, and of the command. *)
Lemma replicationFeedSlaves_no_echo (current : option (client * bool)) (dictid : Z) (argv : list robj)
    (w : world) (Hw : world_ok w) (Hargv : Forall robj_ok argv)
    (Hmaster : proxies_master w = false) (Hback : repl_backlog (w_server w) <> None)
    (Hpeer : forall c b, current = Some (c, b) -> cl_crdt_master c = true ->
       is_Some (crdtMasters (w_crdt w) !! cl_gid c)) :
  exists w', replicationFeedSlaves current dictid argv w = Ok w' /\ w' = set_w_server (w_server w') w /\
    ((exists c p, current = Some (c, false) /\ cl_crdt_master c = true /\
        crdtMasters (w_crdt w) !! cl_gid c = Some p /\ repl_state p = REPL_STATE_CONNECTED /\ w' = w) \/
     (fed ((if negb (slaveseldb (w_server w) =? dictid) then encode_command [str "SELECT"; print_Z dictid] else [])
           ++ encode_command (map obj_bytes argv)) (w_server w) (w_server w') /\
      slaveseldb (w_server w') = dictid)).
Proof.
  unfold replicationFeedSlaves. rewrite Hmaster.
  assert (exists b : bool, match current with
     | Some (c, merge_end) =>
         if cl_crdt_master c then
           p ← need (crdtMasters (w_crdt w) !! cl_gid c);
           Ok ((repl_state p =? REPL_STATE_CONNECTED) && negb merge_end)
         else Ok false
     | None => Ok false
     end = Ok b /\ (b = true -> exists c p, current = Some (c, false) /\ cl_crdt_master c = true /\
        crdtMasters (w_crdt w) !! cl_gid c = Some p /\ repl_state p = REPL_STATE_CONNECTED)) as (b & -> & Hb).
  { destruct current as [[c me]|]; [|by exists false]. destruct (cl_crdt_master c) eqn:Ec; [|by exists false].
    destruct (Hpeer c me eq_refl Ec) as [p Ep]. rewrite Ep. cbn [need mbind res_bind].
    eexists. split; [reflexivity|]. intros [E1 E2]%andb_prop. destruct me; [done|]. exists c, p.
    apply Z.eqb_eq in E1. done. }
  cbn [mbind res_bind]. destruct b.
  - exists w. split; [done|]. split; [by destruct w|]. left. destruct (Hb eq_refl) as (c & p & ?). exists c, p. tauto.
  - rewrite (bool_decide_false (repl_backlog (w_server w) = None)) by done. rewrite andb_false_r. cbn [andb negb c_assert].
    cbn [mbind res_bind]. destruct (feed_own dictid argv w (Hw SERVER) Hargv) as (w' & E & F & D & R).
    exists w'. split; [exact E|]. auto.
Qed.

Lemma replicationFeedSlaves_no_echo_witness :
  exists w', replicationFeedSlaves None 0 [RSds (str "ping")] example_world = Ok w' /\
    w' = set_w_server (w_server w') example_world /\
    ((exists c p, None = Some (c, false) /\ cl_crdt_master c = true /\
        crdtMasters (w_crdt example_world) !! cl_gid c = Some p /\ repl_state p = REPL_STATE_CONNECTED /\
        w' = example_world) \/
     (fed (encode_command [str "ping"]) (w_server example_world) (w_server w') /\ slaveseldb (w_server w') = 0)).
Proof.
  apply (replicationFeedSlaves_no_echo None 0 [RSds (str "ping")] example_world example_world_ok);
    [decide_now|reflexivity|discriminate|discriminate].
Defined.
