(* ===== verification/Evict.v ===== *)
(** * Eviction ([src/src/evict.c], [updateLFU] of [src/src/db.c])

    When the memory is full the server first throws away tombstones, and only
    when there is none left keys.  The candidates are kept in a pool of sixteen
    entries between the calls.  Which keys a sample of a dictionary gives, what
    the allocator reports, and what the module sends to the peers when it
    deletes a key are parameters.  Waiting for the thread that frees memory,
    the latency monitor and the log are not modelled. *)

From S2P Require Import Prelude Util Sds VectorClock VcTheory VcText VcClaims Proxy CrdtServer Gc Objects Keyspace Backlog Resp World Feed.

(** ** The clocks of the objects *)

Definition LRU_BITS : Z := 24.

Definition LRU_CLOCK_MAX : Z := Z.shiftl 1 LRU_BITS - 1.

Definition LRU_CLOCK_RESOLUTION : Z := 1000.

Definition LFU_INIT_VAL : Z := 5.

Definition getLRUClock (mstime : Z) : Z := Z.land (Z.quot mstime LRU_CLOCK_RESOLUTION) LRU_CLOCK_MAX.

(** [lruclock]: what [LRU_CLOCK] gives; [lru]: the field of the object. *)

Definition estimateObjectIdleTime (lruclock lru : Z) : Z :=
  if lruclock >=? lru then to_ull (to_ull (lruclock - lru) * LRU_CLOCK_RESOLUTION)
  else to_ull (to_ull (lruclock + (LRU_CLOCK_MAX - lru)) * LRU_CLOCK_RESOLUTION).

Definition LFUGetTimeInMinutes (unixtime : Z) : Z := Z.land (Z.quot unixtime 60) 65535.

(** [now]: the minutes of now. *)

Definition LFUTimeElapsed (now ldt : Z) : Z :=
  if now >=? ldt then to_ull (now - ldt) else to_ull (to_ull (65535 - ldt) + now).

(** [hit]: the random number is below the probability of the counter. *)

Definition LFULogIncr (hit : bool) (counter : Z) : Z :=
  if counter =? 255 then 255 else if hit then uwrap 8 (counter + 1) else counter.

Definition LFUDecrAndReturn (lfu_decay_time now lru : Z) : Z :=
  let ldt := Z.shiftr lru 8 in
  let counter := Z.land lru 255 in
  let num_periods := if lfu_decay_time =? 0 then 0 else Z.quot (LFUTimeElapsed now ldt) lfu_decay_time in
  if num_periods =? 0 then counter
  else if num_periods >? counter then 0 else to_ull (counter - num_periods).

(** The new field: 24 bits are kept. *)

Definition updateLFU (hit : bool) (lfu_decay_time now lru : Z) : Z :=
  let counter := LFULogIncr hit (uwrap 8 (LFUDecrAndReturn lfu_decay_time now lru)) in
  uwrap LRU_BITS (Z.lor (Z.shiftl now 8) counter).

(** ** The score of a tombstone *)

(** A [long long] operation that overflows has no defined result. *)

Definition ll_result (z : Z) : res Z := if (LLONG_MIN <=? z) && (z <=? LLONG_MAX) then Ok z else Undef.

Definition gid_idle_max : Z := 1073741824.

Fixpoint idle_loop (own len : Z) (vc : VectorClock) (units : list clk) (idle : Z) : res Z :=
  match units with
  | [] => Ok idle
  | c :: units =>
      let vcu := get_logic_clock c in
      let g := get_gid c in
      let tvcu := fst (get_vcu_from_vc vc g) in
      let weights := if g =? own then len else 1 in
      d ← ll_result (vcu - tvcu);
      p ← ll_result (gid_idle_max * weights);
      idle ← ll_result (idle + Z.quot p (if d >? 0 then d + 1 else 1));
      idle_loop own len vc units idle
  end.

Definition tombstoneGetIdle (own : Z) (vc processVc : VectorClock) : res Z :=
  idle_loop own (get_len processVc) vc processVc 1.

(** ** The pool *)

Definition EVPOOL_SIZE : nat := 16.

Definition EVPOOL_CACHED_SDS_SIZE : nat := 255.

(** A key is in the buffer of an entry, or in a string of its own. *)

Inductive key_ptr := Cached (buf : nat) | Own (s : bytes).

#[global] Instance key_ptr_eq_dec : EqDecision key_ptr.
Proof. solve_decision. Defined.

Record evictionPoolEntry := MkEntry {
  pe_idle : Z;
  pe_key : option key_ptr;
  pe_cached : nat;
  pe_dbid : Z
}.

Definition set_pe_cached (v : nat) (e : evictionPoolEntry) : evictionPoolEntry :=
  MkEntry (pe_idle e) (pe_key e) v (pe_dbid e).

(** The entries and the buffers. *)

Record evpool := MkPool { ep_entries : list evictionPoolEntry; ep_bufs : gmap nat bytes }.

Definition evictionPoolAlloc : evpool :=
  MkPool (map (fun j => MkEntry 0 None j 0) (seq 0 EVPOOL_SIZE))
    (list_to_map (map (fun j => (j, replicate EVPOOL_CACHED_SDS_SIZE 0)) (seq 0 EVPOOL_SIZE))).

(** The index of the first entry that is empty or not below [idle]. *)

Fixpoint find_slot (idle : Z) (l : list evictionPoolEntry) : nat :=
  match l with
  | [] => 0
  | e :: l => if bool_decide (pe_key e = None) then 0 else if pe_idle e <? idle then S (find_slot idle l) else 0
  end.

Definition is_full (l : list evictionPoolEntry) : res bool :=
  last ← need (l !! (EVPOOL_SIZE - 1)%nat);
  Ok (negb (bool_decide (pe_key last = None))).

(** Make room at an index: the entries and the index, or [None] if the element
    does not get in. *)

Definition make_room (k : nat) (l : list evictionPoolEntry) : res (option (nat * list evictionPoolEntry)) :=
  full ← is_full l;
  if (k =? 0)%nat && full then Ok None else
  if (k <? EVPOOL_SIZE)%nat && bool_decide (option_map pe_key (l !! k) = Some None) then Ok (Some (k, l)) else
  if negb full then
    last ← need (l !! (EVPOOL_SIZE - 1)%nat);
    let l := take (k + 1) l ++ take (EVPOOL_SIZE - k - 1) (drop k l) in
    e ← need (l !! k);
    Ok (Some (k, <[k := set_pe_cached (pe_cached last) e]> l))
  else
    let k := (k - 1)%nat in
    first ← need (l !! 0%nat);
    let l := take k (drop 1 l) ++ drop k l in
    e ← need (l !! k);
    Ok (Some (k, <[k := set_pe_cached (pe_cached first) e]> l)).

(** Put the key into the entry: into its buffer if it fits. *)

Definition fill_slot (idle : Z) (key : bytes) (dbid : Z) (k : nat) (l : list evictionPoolEntry) (bufs : gmap nat bytes) : res evpool :=
  e ← need (l !! k);
  if (EVPOOL_CACHED_SDS_SIZE <? length key)%nat
  then Ok (MkPool (<[k := MkEntry idle (Some (Own key)) (pe_cached e) dbid]> l) bufs)
  else Ok (MkPool (<[k := MkEntry idle (Some (Cached (pe_cached e))) (pe_cached e) dbid]> l) (<[pe_cached e := key]> bufs)).

Definition pool_insert (idle : Z) (key : bytes) (dbid : Z) (p : evpool) : res evpool :=
  o ← make_room (find_slot idle (ep_entries p)) (ep_entries p);
  match o with
  | None => Ok p
  | Some (k, l) => fill_slot idle key dbid k l (ep_bufs p)
  end.

Definition key_of (p : evpool) (ptr : key_ptr) : res bytes :=
  match ptr with
  | Own s => Ok s
  | Cached b => need (ep_bufs p !! b)
  end.

(** Go backward from the best: the entries that are looked at are emptied.
    [there]: is the key still in the dictionary?  [n] entries are left. *)

Fixpoint pop_best (there : Z -> bytes -> bool) (n : nat) (p : evpool) : res (option (Z * bytes) * evpool) :=
  match n with
  | O => Ok (None, p)
  | S k =>
      e ← need (ep_entries p !! k);
      match pe_key e with
      | None => pop_best there k p
      | Some ptr =>
          key ← key_of p ptr;
          let p := MkPool (<[k := MkEntry 0 None (pe_cached e) (pe_dbid e)]> (ep_entries p)) (ep_bufs p) in
          if there (pe_dbid e) key then Ok (Some (pe_dbid e, key), p) else pop_best there k p
      end
  end.

(** ** Policies *)

Definition MAXMEMORY_FLAG_LRU : Z := Z.shiftl 1 0.

Definition MAXMEMORY_FLAG_LFU : Z := Z.shiftl 1 1.

Definition MAXMEMORY_FLAG_ALLKEYS : Z := Z.shiftl 1 2.

Definition MAXMEMORY_VOLATILE_LRU : Z := MAXMEMORY_FLAG_LRU.

Definition MAXMEMORY_VOLATILE_LFU : Z := Z.lor (Z.shiftl 1 8) MAXMEMORY_FLAG_LFU.

Definition MAXMEMORY_VOLATILE_TTL : Z := Z.shiftl 2 8.

Definition MAXMEMORY_VOLATILE_RANDOM : Z := Z.shiftl 3 8.

Definition MAXMEMORY_ALLKEYS_LRU : Z := Z.lor (Z.shiftl 4 8) (Z.lor MAXMEMORY_FLAG_LRU MAXMEMORY_FLAG_ALLKEYS).

Definition MAXMEMORY_ALLKEYS_LFU : Z := Z.lor (Z.shiftl 5 8) (Z.lor MAXMEMORY_FLAG_LFU MAXMEMORY_FLAG_ALLKEYS).

Definition MAXMEMORY_ALLKEYS_RANDOM : Z := Z.lor (Z.shiftl 6 8) MAXMEMORY_FLAG_ALLKEYS.

Definition MAXMEMORY_NO_EVICTION : Z := Z.shiftl 7 8.

Definition has_flag (policy flag : Z) : bool := negb (Z.land policy flag =? 0).

(** The policies that use the pool. *)

Definition uses_pool (policy : Z) : bool :=
  has_flag policy (Z.lor MAXMEMORY_FLAG_LRU MAXMEMORY_FLAG_LFU) || (policy =? MAXMEMORY_VOLATILE_TTL).

Section eviction.

Context {object : Type} `{CrdtModule object}.

(** What is read of the configuration and of the rest of the server: [ec_lru] is
    the field of the value of a key; [ec_current], [ec_now], [ec_delay] and
    [ec_mk_ok] are the arguments of [crdtPropagateExpire]. *)

Record evict_config := MkEc {
  ec_paused : bool;
  ec_maxmemory : Z;
  ec_policy : Z;
  ec_lruclock : Z;
  ec_minutes : Z;
  ec_lfu_decay_time : Z;
  ec_lru : Z -> bytes -> Z;
  ec_lazy : bool;
  ec_current : running;
  ec_now : Z;
  ec_delay : Z;
  ec_mk_ok : bytes -> bool
}.

(** The parameters: the readings of the allocator, in order; what is not counted
    of it; the keys that the n-th sample of a dictionary gives; a random key;
    what the module feeds to the streams when it deletes a key. *)

Record evict_oracle := MkEo {
  eo_memory : nat -> Z;
  eo_overhead : world -> Z;
  eo_sample : nat -> gset bytes -> list bytes;
  eo_random : nat -> gset bytes -> bytes;
  eo_propagate : Z -> bytes -> world -> res world
}.

(** [es_reads], [es_draws]: how often the oracles were asked; [es_evicted]: the
    keyspace events that were sent. *)

Record estate := MkEs {
  es_dbs : list (redisDb object);
  es_pool : evpool;
  es_world : world;
  es_next_db : Z;
  es_reads : nat;
  es_draws : nat;
  es_evictedtombstones : Z;
  es_evicted : list (Z * bytes)
}.

Context (cfg : evict_config) (orc : evict_oracle).

Implicit Types (st : estate).

Definition set_es_dbs (v : list (redisDb object)) st : estate :=
  MkEs v (es_pool st) (es_world st) (es_next_db st) (es_reads st) (es_draws st) (es_evictedtombstones st) (es_evicted st).

Definition set_es_pool (v : evpool) st : estate :=
  MkEs (es_dbs st) v (es_world st) (es_next_db st) (es_reads st) (es_draws st) (es_evictedtombstones st) (es_evicted st).

Definition set_es_world (v : world) st : estate :=
  MkEs (es_dbs st) (es_pool st) v (es_next_db st) (es_reads st) (es_draws st) (es_evictedtombstones st) (es_evicted st).

Definition set_es_next_db (v : Z) st : estate :=
  MkEs (es_dbs st) (es_pool st) (es_world st) v (es_reads st) (es_draws st) (es_evictedtombstones st) (es_evicted st).

Definition draw st : nat * estate :=
  (es_draws st,
   MkEs (es_dbs st) (es_pool st) (es_world st) (es_next_db st) (es_reads st) (S (es_draws st)) (es_evictedtombstones st) (es_evicted st)).

Definition zmalloc_used_memory st : Z * estate :=
  (eo_memory orc (es_reads st),
   MkEs (es_dbs st) (es_pool st) (es_world st) (es_next_db st) (S (es_reads st)) (es_draws st) (es_evictedtombstones st) (es_evicted st)).

Definition count_tombstone st : estate :=
  MkEs (es_dbs st) (es_pool st) (es_world st) (es_next_db st) (es_reads st) (es_draws st) (es_evictedtombstones st + 1) (es_evicted st).

Definition send_evicted (dbid : Z) (key : bytes) st : estate :=
  MkEs (es_dbs st) (es_pool st) (es_world st) (es_next_db st) (es_reads st) (es_draws st) (es_evictedtombstones st)
    (es_evicted st ++ [(dbid, key)]).

Definition get_db (dbid : Z) st : res (redisDb object) :=
  if dbid <? 0 then Undef else need (es_dbs st !! Z.to_nat dbid).

Definition put_db (dbid : Z) (db : redisDb object) st : estate :=
  set_es_dbs (<[Z.to_nat dbid := db]> (es_dbs st)) st.

(** ** Filling the pool *)

(** The dictionary to choose from. *)

Definition sample_keys (db : redisDb object) : gset bytes :=
  if has_flag (ec_policy cfg) MAXMEMORY_FLAG_ALLKEYS then dom (dict db) else dom (expires db).

Definition key_idle (dbid : Z) (db : redisDb object) (key : bytes) : res Z :=
  if has_flag (ec_policy cfg) MAXMEMORY_FLAG_LRU then
    _ ← need (dict db !! key); Ok (estimateObjectIdleTime (ec_lruclock cfg) (ec_lru cfg dbid key))
  else if has_flag (ec_policy cfg) MAXMEMORY_FLAG_LFU then
    _ ← need (dict db !! key);
    Ok (to_ull (255 - LFUDecrAndReturn (ec_lfu_decay_time cfg) (ec_minutes cfg) (ec_lru cfg dbid key)))
  else if ec_policy cfg =? MAXMEMORY_VOLATILE_TTL then
    when ← need (expires db !! key); Ok (to_ull (2 ^ 64 - 1 - when))
  else Abort.

Definition tombstone_idle (db : redisDb object) (key : bytes) (clock : VectorClock) (own : Z) : res Z :=
  val ← need (deleted_keys db !! key);
  obj ← need (retrieveObject val);
  m ← need (getCrdtTombstoneMethod obj);
  idle ← tombstoneGetIdle own (tm_getVc m obj) clock;
  Ok (to_ull idle).

Fixpoint insert_all (dbid : Z) (idle_of : bytes -> res Z) (keys : list bytes) (p : evpool) : res evpool :=
  match keys with
  | [] => Ok p
  | key :: keys => idle ← idle_of key; p ← pool_insert idle key dbid p; insert_all dbid idle_of keys p
  end.

Definition evictionPoolPopulate (dbid : Z) (db : redisDb object) st : res estate :=
  let '(n, st) := draw st in
  p ← insert_all dbid (key_idle dbid db) (eo_sample orc n (sample_keys db)) (es_pool st);
  Ok (set_es_pool p st).

Definition evictionTombstonePoolPopulate (dbid : Z) (db : redisDb object) st : res estate :=
  let '(n, st) := draw st in
  let s := w_crdt (es_world st) in
  p ← insert_all dbid (fun key => tombstone_idle db key (vectorClock s) (crdt_gid s)) (eo_sample orc n (dom (deleted_keys db))) (es_pool st);
  Ok (set_es_pool p st).

(** Every database in turn: the number of keys to choose from, and the pool. *)

Fixpoint populate_all (keys_of : redisDb object -> gset bytes) (populate : Z -> redisDb object -> estate -> res estate)
    (i : Z) (dbs : list (redisDb object)) (total : Z) st : res (Z * estate) :=
  match dbs with
  | [] => Ok (total, st)
  | db :: dbs =>
      let keys := Z.of_nat (size (keys_of db)) in
      if keys =? 0 then populate_all keys_of populate (i + 1) dbs total st else
      st ← populate i db st;
      populate_all keys_of populate (i + 1) dbs (total + keys) st
  end.

(** [while(bestkey == NULL)]: the total, and the key to evict.  [total] starts
    at zero in each round for the keys, and adds up for the tombstones. *)

Fixpoint pick_loop (fuel : nat) (adds_up : bool) (keys_of : redisDb object -> gset bytes)
    (populate : Z -> redisDb object -> estate -> res estate) (total : Z) st : res (Z * option (Z * bytes) * estate) :=
  match fuel with
  | O => Undef
  | S fuel =>
      '(total, st) ← populate_all keys_of populate 0 (es_dbs st) (if adds_up then total else 0) st;
      if total =? 0 then Ok (total, None, st) else
      let there (dbid : Z) (key : bytes) :=
        match get_db dbid st with Ok db => bool_decide (key ∈ keys_of db) | _ => false end in
      '(best, p) ← pop_best there EVPOOL_SIZE (es_pool st);
      let st := set_es_pool p st in
      match best with
      | Some best => Ok (total, Some best, st)
      | None => pick_loop fuel adds_up keys_of populate total st
      end
  end.

Definition tombstone_keys (db : redisDb object) : gset bytes := dom (deleted_keys db).

(** ** Evicting *)

Definition propagateGcTombstone (index : Z) (key : bytes) (vc : VectorClock) st : res estate :=
  w ← replicationFeedAllSlaves index
        [RSds (str "CRDT.EVICTIONTOMBSTONE"); RSds key; RInt (crdt_gid (w_crdt (es_world st))); RSds (vectorClockToSds vc)]
        (es_world st);
  Ok (set_es_world w st).

Definition evictionTombstone (index : Z) (key : bytes) st : res estate :=
  db ← get_db index st;
  val ← need (deleted_keys db !! key);
  obj ← need (retrieveObject val);
  m ← need (getCrdtTombstoneMethod obj);
  propagateGcTombstone index key (tm_getVc m obj) st.

(** The reply is 0 if there is no tombstone, 1 if it is gone (and was counted), 2 if
    it stays; [None] is the error for a group that is no number. *)

Definition evictionTombstoneCommand (db : redisDb object) (argv : list bytes) : res (option Z * redisDb object) :=
  key ← need (argv !! 1%nat);
  gid_arg ← need (argv !! 2%nat);
  vc_arg ← need (argv !! 3%nat);
  match string2ll gid_arg with
  | None => Ok (None, db)
  | Some _ =>
      vclock ← sdsToVectorClock vc_arg;
      match deleted_keys db !! key with
      | None => Ok (Some 0, db)
      | Some val =>
          obj ← need (retrieveObject val);
          m ← need (getCrdtTombstoneMethod obj);
          if tm_gc m obj vclock then Ok (Some 1, set_deleted_keys (delete key (deleted_keys db)) db) else Ok (Some 2, db)
      end
  end.

(** The memory freed, as a [size_t]. *)

Definition add_freed (mem_freed delta : Z) : Z := to_ull (mem_freed + delta).

Definition evict_tombstone (dbid : Z) (key : bytes) (mem_freed : Z) st : res (Z * estate) :=
  st ← evictionTombstone dbid key st;
  let '(before, st) := zmalloc_used_memory st in
  db ← get_db dbid st;
  _ ← c_assert (bool_decide (is_Some (deleted_keys db !! key)));
  let st := put_db dbid (set_deleted_keys (delete key (deleted_keys db)) db) st in
  let '(after, st) := zmalloc_used_memory st in
  Ok (add_freed mem_freed (before - after), count_tombstone st).

(** The first loop: the number of tombstones it saw last, and the memory freed. *)

Fixpoint tombstone_loop (fuel : nat) (mem_tofree mem_freed total : Z) st : res (Z * Z * estate) :=
  match fuel with
  | O => Undef
  | S fuel =>
      if (mem_freed <? mem_tofree) && negb (total =? 0) then
        '(total, best, st) ← pick_loop fuel true tombstone_keys evictionTombstonePoolPopulate 0 st;
        match best with
        | None => tombstone_loop fuel mem_tofree mem_freed total st
        | Some (dbid, key) =>
            '(mem_freed, st) ← evict_tombstone dbid key mem_freed st;
            tombstone_loop fuel mem_tofree mem_freed total st
        end
      else Ok (total, mem_freed, st)
  end.

(** A key for the policies that choose at random: the databases in turn, from the
    one after the last. *)

Fixpoint pick_random (n : nat) (dbnum : Z) st : res (option (Z * bytes) * estate) :=
  match n with
  | O => Ok (None, st)
  | S n =>
      if es_next_db st =? 2 ^ 31 - 1 then Undef else
      let st := set_es_next_db (es_next_db st + 1) st in
      if dbnum =? 0 then Undef else
      let j := Z.rem (es_next_db st) dbnum in
      db ← get_db j st;
      let keys := if ec_policy cfg =? MAXMEMORY_ALLKEYS_RANDOM then dom (dict db) else dom (expires db) in
      if bool_decide (keys = ∅) then pick_random n dbnum st else
      let '(d, st) := draw st in
      Ok (Some (j, eo_random orc d keys), st)
  end.

Definition pick_key (fuel : nat) st : res (option (Z * bytes) * estate) :=
  if uses_pool (ec_policy cfg) then
    '(_, best, st) ← pick_loop fuel false sample_keys evictionPoolPopulate 0 st; Ok (best, st)
  else if (ec_policy cfg =? MAXMEMORY_ALLKEYS_RANDOM) || (ec_policy cfg =? MAXMEMORY_VOLATILE_RANDOM) then
    pick_random (length (es_dbs st)) (Z.of_nat (length (es_dbs st))) st
  else Ok (None, st).

(** [None]: the key is not to be deleted. *)

Definition evict_key (dbid : Z) (key : bytes) (mem_freed : Z) st : res (option (Z * estate)) :=
  db ← get_db dbid st;
  o ← crdtPropagateExpire (ec_current cfg) (w_crdt (es_world st)) (ec_now cfg) (ec_delay cfg) (ec_mk_ok cfg key) db key (-1);
  match o with
  | None => Ok None
  | Some db =>
      w ← eo_propagate orc dbid key (es_world st);
      let st := set_es_world w (put_db dbid db st) in
      st ← evictionTombstone dbid key st;
      db ← get_db dbid st;
      _ ← c_assert (size (deleted_keys db) =? 1)%nat;
      let '(before, st) := zmalloc_used_memory st in
      let db := dbDelete (set_deleted_keys (delete key (deleted_keys db)) db) key in
      let st := count_tombstone (put_db dbid db st) in
      let '(after, st) := zmalloc_used_memory st in
      Ok (Some (add_freed mem_freed (before - after), send_evicted dbid key st))
  end.

(** [mem_used] without what is not counted. *)

Definition counted (mem_used overhead : Z) : Z := if mem_used >? overhead then mem_used - overhead else 0.

(** Each round of the second loop frees at most one key: it is the first, so
    [!(keys_freed % 16)] never holds.  The boolean is false if nothing can be
    freed. *)

Fixpoint key_loop (fuel : nat) (mem_tofree mem_freed : Z) st : res (bool * estate) :=
  match fuel with
  | O => Undef
  | S fuel =>
      if mem_freed <? mem_tofree then
        '(best, st) ← pick_key fuel st;
        match best with
        | None => Ok (false, st)
        | Some (dbid, key) =>
            o ← evict_key dbid key mem_freed st;
            match o with
            | None => Ok (false, st)
            | Some (mem_freed, st) => key_loop fuel mem_tofree mem_freed st
            end
        end
      else Ok (true, st)
  end.

(** [C_OK] or not.  [total_tombstones] starts as the greatest number. *)

Definition freeMemoryIfNeeded (fuel : nat) st : res (bool * estate) :=
  if ec_paused cfg then Ok (true, st) else
  let '(mem_reported, st) := zmalloc_used_memory st in
  if mem_reported <=? ec_maxmemory cfg then Ok (true, st) else
  let mem_used := counted mem_reported (eo_overhead orc (es_world st)) in
  if mem_used <=? ec_maxmemory cfg then Ok (true, st) else
  let mem_tofree := mem_used - ec_maxmemory cfg in
  if ec_policy cfg =? MAXMEMORY_NO_EVICTION then Ok (false, st) else
  '(total, mem_freed, st) ← tombstone_loop fuel mem_tofree 0 (2 ^ 64 - 1) st;
  if (total =? 0) && (mem_freed <? mem_tofree) then key_loop fuel mem_tofree mem_freed st else Ok (true, st).

End eviction.
