(* ===== verification/EvictPool.v ===== *)
(** * The eviction pool

    The array of sixteen entries, with the buffers that the entries own and hand
    over when they are moved, holds the sixteen best candidates in ascending
    order. *)

From S2P Require Import Prelude Util Sds VectorClock VcTheory VcText VcClaims Proxy CrdtServer Gc Objects Keyspace Backlog Resp World Feed Evict.

(** ** The specification *)

Record candidate := MkCand { cd_idle : Z; cd_key : bytes; cd_dbid : Z }.

Fixpoint insert_sorted (x : candidate) (l : list candidate) : list candidate :=
  match l with
  | [] => [x]
  | y :: l => if cd_idle y <? cd_idle x then y :: insert_sorted x l else x :: y :: l
  end.

(** One too many: the worst, which is the first, goes. *)

Definition keep_best (x : candidate) (l : list candidate) : list candidate :=
  let l := insert_sorted x l in
  if (EVPOOL_SIZE <? length l)%nat then tl l else l.

Definition ascending (l : list candidate) : Prop := Sorted (fun a b => cd_idle a <= cd_idle b) l.

Lemma insert_sorted_ascending x l : ascending l -> ascending (insert_sorted x l).
Proof.
  unfold ascending. induction 1 as [|y l Hl IH Hy]; [repeat constructor|]. simpl.
  destruct (Z.ltb_spec (cd_idle y) (cd_idle x)).
  - constructor; [done|]. destruct l as [|z l]; simpl; [constructor; lia|].
    inversion Hy; subst. destruct (cd_idle z <? cd_idle x); constructor; lia.
  - constructor; [by constructor|constructor; lia].
Qed.

Lemma tl_ascending l : ascending l -> ascending (tl l).
Proof. unfold ascending. by inversion 1. Qed.

Lemma keep_best_ascending x l : ascending l -> ascending (keep_best x l).
Proof. intros H%(insert_sorted_ascending x). unfold keep_best. destruct (_ <? _)%nat; [by apply tl_ascending|done]. Qed.

Lemma insert_sorted_length x l : length (insert_sorted x l) = S (length l).
Proof. induction l as [|y l IH]; [done|]. simpl. destruct (_ <? _); simpl; congruence. Qed.

Lemma insert_sorted_Permutation x l : insert_sorted x l ≡ₚ x :: l.
Proof. induction l as [|y l IH]; [done|]. simpl. destruct (_ <? _); [|done]. rewrite IH. constructor. Qed.

(** ** The representation *)

Definition holds (bufs : gmap nat bytes) (e : evictionPoolEntry) (c : candidate) : Prop :=
  pe_idle e = cd_idle c /\ pe_dbid e = cd_dbid c /\
  (pe_key e = Some (Own (cd_key c)) \/ (pe_key e = Some (Cached (pe_cached e)) /\ bufs !! pe_cached e = Some (cd_key c))).

Definition vacant (e : evictionPoolEntry) : Prop := pe_key e = None.

Record pool_rep (p : evpool) (l : list candidate) : Prop := {
  pr_size : length (ep_entries p) = EVPOOL_SIZE;
  pr_bufs : NoDup (map pe_cached (ep_entries p));
  pr_entries : exists live free, ep_entries p = live ++ free /\ Forall2 (holds (ep_bufs p)) live l /\ Forall vacant free
}.

Definition position (idle : Z) : list candidate -> nat :=
  fix go l := match l with [] => 0%nat | y :: l => if cd_idle y <? idle then S (go l) else 0%nat end.

Lemma position_le idle l : (position idle l <= length l)%nat.
Proof. induction l as [|y l IH]; simpl; [lia|]. destruct (_ <? _); lia. Qed.

Lemma insert_sorted_position x l :
  insert_sorted x l = take (position (cd_idle x) l) l ++ x :: drop (position (cd_idle x) l) l.
Proof. induction l as [|y l IH]; [done|]. simpl. destruct (_ <? _); [|done]. simpl. by rewrite IH. Qed.

Lemma holds_key bufs e c : holds bufs e c -> pe_key e <> None.
Proof. intros (_ & _ & [-> | [-> _]]); done. Qed.

Lemma find_slot_position idle live free l bufs :
  Forall2 (holds bufs) live l -> Forall vacant free -> find_slot idle (live ++ free) = position idle l.
Proof.
  induction 1 as [|e c live l Hec _ IH]; intros Hf.
  - destruct Hf as [|e free He _]; [done|]. simpl. by rewrite bool_decide_true.
  - simpl. rewrite bool_decide_false by (by eapply holds_key). destruct Hec as (-> & _ & _).
    destruct (_ <? _); [|done]. by rewrite IH.
Qed.

(** Filling an entry leaves the others as they are: its buffer is its own. *)

Lemma holds_other bufs b key e c : pe_cached e <> b -> holds bufs e c -> holds (<[b := key]> bufs) e c.
Proof. intros Hb (H1 & H2 & [H3 | [H3 H4]]); split; (try split); try done; [by left|right]. by rewrite lookup_insert_ne. Qed.

Lemma holds_all_other bufs b key live l : b ∉ map pe_cached live -> Forall2 (holds bufs) live l -> Forall2 (holds (<[b := key]> bufs)) live l.
Proof.
  intros Hb. induction 1 as [|e c live l He _ IH]; [done|]. simpl in Hb. apply not_elem_of_cons in Hb as [H1 H2].
  constructor; [by apply holds_other|by apply IH].
Qed.

Lemma fill_slot_rep x la lb A e B free bufs :
  length (A ++ e :: B ++ free) = EVPOOL_SIZE -> NoDup (map pe_cached (A ++ e :: B ++ free)) ->
  Forall2 (holds bufs) A la -> Forall2 (holds bufs) B lb -> Forall vacant free ->
  exists p, fill_slot (cd_idle x) (cd_key x) (cd_dbid x) (length A) (A ++ e :: B ++ free) bufs = Ok p /\ pool_rep p (la ++ x :: lb).
Proof.
  intros Hlen Hnd HA HB Hf. unfold fill_slot. rewrite list_lookup_middle by done. cbn [need mbind res_bind].
  assert ((pe_cached e ∉ map pe_cached A) /\ (pe_cached e ∉ map pe_cached B)) as [HeA HeB].
  { rewrite map_app in Hnd. simpl in Hnd. rewrite map_app in Hnd. apply NoDup_app in Hnd as (_ & H1 & H2).
    apply NoDup_cons in H2 as [H2 _]. split; [intros Hin; apply (H1 _ Hin); left|set_solver]. }
  destruct (EVPOOL_CACHED_SDS_SIZE <? length (cd_key x))%nat; (eexists; split; [done|]); rewrite insert_app_r_alt, Nat.sub_diag by lia; simpl.
  - split; simpl; [by rewrite !length_app in *|by rewrite !map_app in *|]. exists (A ++ MkEntry (cd_idle x) (Some (Own (cd_key x))) (pe_cached e) (cd_dbid x) :: B), free.
    split; [by rewrite <- app_assoc|]. split; [|done]. apply Forall2_app; [done|]. constructor; [|done]. split; [done|]. split; [done|]. by left.
  - split; simpl; [by rewrite !length_app in *|by rewrite !map_app in *|].
    exists (A ++ MkEntry (cd_idle x) (Some (Cached (pe_cached e))) (pe_cached e) (cd_dbid x) :: B), free.
    split; [by rewrite <- app_assoc|]. split; [|done]. apply Forall2_app; [by apply holds_all_other|].
    constructor; [|by apply holds_all_other]. split; [done|]. split; [done|]. right. split; [done|]. simpl. by rewrite lookup_insert_eq.
Qed.

(** ** Making room *)

Lemma is_full_spec p l : pool_rep p l -> is_full (ep_entries p) = Ok (length l =? EVPOOL_SIZE)%nat.
Proof.
  intros [Hs _ (live & free & E & HF & Hfree)]. pose proof (Forall2_length _ _ _ HF) as Hl. unfold is_full. rewrite E in *.
  rewrite length_app in Hs. destruct free as [|z free _] using rev_ind.
  - rewrite app_nil_r in *. simpl in Hs. destruct (lookup_lt_is_Some_2 live (EVPOOL_SIZE - 1)) as [e He]; [unfold EVPOOL_SIZE in *; lia|].
    rewrite He. cbn [need mbind res_bind]. destruct (Forall2_lookup_l _ _ _ _ _ HF He) as (c & _ & Hc).
    rewrite bool_decide_false by (by eapply holds_key). rewrite <- Hl. unfold EVPOOL_SIZE in *. by rewrite (proj2 (Nat.eqb_eq _ _)) by lia.
  - rewrite length_app in Hs. simpl in Hs. rewrite app_assoc. rewrite lookup_app_r by (rewrite length_app; unfold EVPOOL_SIZE in *; lia).
    rewrite length_app. replace (EVPOOL_SIZE - 1 - (length live + length free))%nat with 0%nat by (unfold EVPOOL_SIZE in *; lia).
    cbn [lookup list_lookup need mbind res_bind]. apply Forall_app in Hfree as [_ Hz]. inversion Hz as [|? ? Hv _]; subst.
    rewrite bool_decide_true by done. rewrite <- Hl. by rewrite (proj2 (Nat.eqb_neq _ _)) by (unfold EVPOOL_SIZE in *; lia).
Qed.

Lemma split_at {A} (l : list A) k : (k < length l)%nat -> exists a y b, l = a ++ y :: b /\ length a = k.
Proof.
  intros H. destruct (lookup_lt_is_Some_2 l k H) as [y Hy]. exists (take k l), y, (drop (S k) l).
  split; [symmetry; by apply take_drop_middle|]. rewrite length_take. lia.
Qed.

(** The array after the move, up to the entry to fill: [A], the entry, [B], and
    the free ones. *)

Definition roomy (p : evpool) (la lb : list candidate) (k : nat) (l : list evictionPoolEntry) : Prop :=
  exists A e B free, l = A ++ e :: B ++ free /\ length A = k /\ length l = EVPOOL_SIZE /\ NoDup (map pe_cached l) /\
    Forall2 (holds (ep_bufs p)) A la /\ Forall2 (holds (ep_bufs p)) B lb /\ Forall vacant free.

Lemma make_room_append p l :
  pool_rep p l -> (length l < EVPOOL_SIZE)%nat ->
  exists room, make_room (length l) (ep_entries p) = Ok (Some (length l, room)) /\ roomy p l [] (length l) room.
Proof.
  intros Hp Hlt. unfold make_room. rewrite (is_full_spec p l Hp). cbn [mbind res_bind].
  rewrite (proj2 (Nat.eqb_neq (length l) EVPOOL_SIZE)) by lia. rewrite andb_false_r.
  destruct Hp as [Hs Hn (live & free & E & HF & Hfree)]. pose proof (Forall2_length _ _ _ HF) as Hl. rewrite E in *.
  destruct free as [|e free]; [rewrite length_app in Hs; simpl in Hs; lia|]. inversion Hfree as [|? ? He Hfree']; subst.
  rewrite (proj2 (Nat.ltb_lt _ _)) by lia. rewrite list_lookup_middle by done. simpl. rewrite bool_decide_true by (by rewrite He).
  eexists. split; [done|]. exists live, e, [], free. by repeat split.
Qed.

Lemma make_room_right p l k :
  pool_rep p l -> (length l < EVPOOL_SIZE)%nat -> (k < length l)%nat ->
  exists room, make_room k (ep_entries p) = Ok (Some (k, room)) /\ roomy p (take k l) (drop k l) k room.
Proof.
  intros Hp Hlt Hk. unfold make_room. rewrite (is_full_spec p l Hp). cbn [mbind res_bind].
  rewrite (proj2 (Nat.eqb_neq (length l) EVPOOL_SIZE)) by lia. rewrite andb_false_r.
  destruct Hp as [Hs Hn (live & free & E & HF & Hfree)]. pose proof (Forall2_length _ _ _ HF) as Hl. rewrite E in *.
  destruct free as [|z free _] using rev_ind; [rewrite length_app in Hs; simpl in Hs; lia|].
  destruct (split_at live k) as (A & y & L & -> & HA); [lia|].
  rewrite <- (take_drop k l) in HF. assert (length (take k l) = k) as Hta by (rewrite length_take; lia).
  apply Forall2_app_inv in HF as [HFA HFB]; [|congruence].
  assert (pe_key y <> None) as Hy by (inversion HFB; subst; by eapply holds_key).
  rewrite <- app_assoc in *. cbn [app] in *. rewrite (list_lookup_middle A) by done. simpl option_map. rewrite bool_decide_false by congruence. rewrite andb_false_r. cbn [negb].
  assert (((A ++ y :: L ++ free ++ [z]) !! (EVPOOL_SIZE - 1)%nat) = Some z) as ->.
  { rewrite !length_app in Hs. simpl in Hs. change (y :: L ++ free ++ [z]) with ((y :: L) ++ free ++ [z]). rewrite !length_app in Hs. simpl in Hs.
    rewrite !app_assoc, lookup_app_r by (rewrite !length_app; simpl; unfold EVPOOL_SIZE in *; lia).
    rewrite !length_app. cbn [length]. replace (EVPOOL_SIZE - 1 - (length A + S (length L) + length free))%nat with 0%nat by (unfold EVPOOL_SIZE in *; lia). done. }
  cbn [need mbind res_bind].
  assert (take (k + 1) (A ++ y :: L ++ free ++ [z]) = A ++ [y]) as ->.
  { rewrite take_app_ge by lia. f_equal. rewrite HA. replace (k + 1 - k)%nat with 1%nat by lia. done. }
  assert (take (EVPOOL_SIZE - k - 1) (drop k (A ++ y :: L ++ free ++ [z])) = (y :: L) ++ free) as ->.
  { rewrite drop_app_length' by done. change (y :: L ++ free ++ [z]) with ((y :: L) ++ free ++ [z]).
    rewrite app_assoc, take_app_length'; [done|]. rewrite !length_app in *. simpl in *. rewrite !length_app in Hs. simpl in Hs. lia. }
  rewrite <- app_assoc. cbn [app]. rewrite (list_lookup_middle A) by done. cbn [need mbind res_bind].
  eexists. split; [done|]. rewrite insert_app_r_alt, HA, Nat.sub_diag by lia. simpl.
  exists A, (set_pe_cached (pe_cached z) y), (y :: L), free. split; [done|]. split; [done|].
  split; [rewrite !length_app in *; simpl in *; rewrite !length_app in *; simpl in *; lia|].
  split; [|split; [done|split; [done|by apply Forall_app in Hfree as [? _]]]].
  eapply NoDup_Permutation_proper; [|exact Hn]. rewrite !map_app. simpl. rewrite !map_app. simpl. solve_Permutation.
Qed.

Lemma make_room_left p l k :
  pool_rep p l -> length l = EVPOOL_SIZE -> (0 < k <= length l)%nat ->
  exists room, make_room k (ep_entries p) = Ok (Some ((k - 1)%nat, room)) /\ roomy p (tl (take k l)) (drop k l) (k - 1) room.
Proof.
  intros Hp Hlt Hk. unfold make_room. rewrite (is_full_spec p l Hp). cbn [mbind res_bind]. rewrite Hlt, Nat.eqb_refl.
  rewrite (proj2 (Nat.eqb_neq k 0)) by lia. cbn [andb negb].
  destruct Hp as [Hs Hn (live & free & E & HF & Hfree)]. pose proof (Forall2_length _ _ _ HF) as Hl. rewrite E in *.
  destruct free as [|z free]; [|rewrite length_app in Hs; simpl in Hs; lia]. rewrite app_nil_r in *.
  assert (bool_decide (option_map pe_key (live !! k) = Some None) = false) as ->.
  { apply bool_decide_eq_false. destruct (live !! k) as [e|] eqn:Ek; [|done]. destruct (Forall2_lookup_l _ _ _ _ _ HF Ek) as (c & _ & Hc).
    apply holds_key in Hc. simpl. congruence. }
  rewrite andb_false_r. destruct live as [|f live]; [simpl in *; lia|]. destruct l as [|c l]; [done|]. inversion HF as [|? ? ? ? Hf HF']; subst.
  cbn [lookup list_lookup need mbind res_bind]. rewrite skipn_cons, drop_0. destruct k as [|k]; [lia|]. replace (S k - 1)%nat with k by lia.
  simpl in Hs, Hlt, Hk. assert (length (take k live) = k) as Htk by (rewrite length_take; lia).
  assert (exists y, drop k (f :: live) = y :: drop k live) as [y Hy].
  { destruct (lookup_lt_is_Some_2 (f :: live) k) as [y Ey]; [simpl; lia|]. exists y. by rewrite (drop_S _ y). }
  rewrite Hy. rewrite (list_lookup_middle (take k live)) by done. cbn [need mbind res_bind]. eexists. split; [done|].
  rewrite insert_app_r_alt, Htk, Nat.sub_diag by lia. simpl.
  exists (take k live), (set_pe_cached (pe_cached f) y), (drop k live), []. rewrite app_nil_r. split; [done|]. split; [done|].
  split; [rewrite length_app; simpl; rewrite length_drop; lia|]. split; [|split; [by apply Forall2_take|split; [by apply Forall2_drop|done]]].
  eapply NoDup_Permutation_proper; [|exact Hn]. rewrite map_app. simpl. rewrite <- (take_drop k live) at 3. rewrite map_app. solve_Permutation.
Qed.

(** ** Insertion *)

Lemma fill_room x p la lb k room :
  roomy p la lb k room ->
  exists p', fill_slot (cd_idle x) (cd_key x) (cd_dbid x) k room (ep_bufs p) = Ok p' /\ pool_rep p' (la ++ x :: lb).
Proof.
  intros (A & e & B & free & -> & <- & Hlen & Hn & HA & HB & Hf). by apply fill_slot_rep.
Qed.

Lemma pool_rep_length p l : pool_rep p l -> (length l <= EVPOOL_SIZE)%nat.
Proof. intros [Hs _ (live & free & E & HF & _)]. apply Forall2_length in HF. rewrite E, length_app in Hs. lia. Qed.

Lemma pool_insert_spec x p l :
  pool_rep p l -> exists p', pool_insert (cd_idle x) (cd_key x) (cd_dbid x) p = Ok p' /\ pool_rep p' (keep_best x l).
Proof.
  intros Hp. pose proof (pool_rep_length p l Hp) as Hle. pose proof (position_le (cd_idle x) l) as Hk.
  unfold pool_insert, keep_best. rewrite insert_sorted_length, insert_sorted_position.
  assert (find_slot (cd_idle x) (ep_entries p) = position (cd_idle x) l) as ->.
  { destruct Hp as [_ _ (live & free & -> & HF & Hf)]. by eapply find_slot_position. }
  set (k := position (cd_idle x) l) in *. destruct (decide (length l = EVPOOL_SIZE)) as [Hfull | Hroom].
  - rewrite (proj2 (Nat.ltb_lt _ _)) by lia. destruct (decide (k = 0%nat)) as [-> | Hk0].
    + unfold make_room. rewrite (is_full_spec p l Hp), Hfull, Nat.eqb_refl. cbn [mbind res_bind andb]. by exists p.
    + destruct (make_room_left p l k Hp Hfull) as (room & -> & Hr); [lia|]. cbn [mbind res_bind].
      destruct (fill_room x _ _ _ _ _ Hr) as (p' & E & Hp'). exists p'. split; [done|].
      destruct l as [|c l]; [done|]. destruct k as [|k]; [done|]. exact Hp'.
  - rewrite (proj2 (Nat.ltb_ge _ _)) by lia. destruct (decide (k = length l)) as [-> | Hkl].
    + destruct (make_room_append p l Hp) as (room & -> & Hr); [lia|]. cbn [mbind res_bind]. rewrite firstn_all, drop_all.
      exact (fill_room x _ _ _ _ _ Hr).
    + destruct (make_room_right p l k Hp) as (room & -> & Hr); [lia|lia|]. cbn [mbind res_bind]. exact (fill_room x _ _ _ _ _ Hr).
Qed.

Lemma evictionPoolAlloc_rep : pool_rep evictionPoolAlloc [].
Proof.
  split; [done|decide_now|]. exists [], (ep_entries evictionPoolAlloc). split; [done|]. split; [constructor|].
  apply Forall_map, Forall_forall. done.
Qed.

(** ** Taking the best *)

(** [l] is in descending order here: the first that is still there, and what is
    after it. *)

Fixpoint first_there (there : Z -> bytes -> bool) (l : list candidate) : option candidate * list candidate :=
  match l with
  | [] => (None, [])
  | c :: l => if there (cd_dbid c) (cd_key c) then (Some c, l) else first_there there l
  end.

Definition take_best (there : Z -> bytes -> bool) (l : list candidate) : option candidate * list candidate :=
  let '(best, rest) := first_there there (reverse l) in (best, reverse rest).

Lemma take_best_snoc there l c :
  take_best there (l ++ [c]) = if there (cd_dbid c) (cd_key c) then (Some c, l) else take_best there l.
Proof. unfold take_best. rewrite reverse_snoc. simpl. destruct (there _ _); [by rewrite reverse_involutive|done]. Qed.

Definition found (o : option candidate) : option (Z * bytes) := option_map (fun c => (cd_dbid c, cd_key c)) o.

Lemma entry_at p l n : pool_rep p l -> (n < EVPOOL_SIZE)%nat -> (length l <= n)%nat ->
  exists e, ep_entries p !! n = Some e /\ pe_key e = None.
Proof.
  intros [Hs _ (live & free & E & HF & Hf)] Hn Hl. apply Forall2_length in HF. rewrite E in *. rewrite length_app in Hs.
  destruct (lookup_lt_is_Some_2 free (n - length live)) as [e He]; [lia|]. exists e. split; [by rewrite lookup_app_r by lia|].
  rewrite Forall_lookup in Hf. exact (Hf _ _ He).
Qed.

Lemma empty_last p l c :
  pool_rep p (l ++ [c]) ->
  exists e ptr, ep_entries p !! length l = Some e /\ pe_key e = Some ptr /\ key_of p ptr = Ok (cd_key c) /\ pe_dbid e = cd_dbid c /\
    pool_rep (MkPool (<[length l := MkEntry 0 None (pe_cached e) (pe_dbid e)]> (ep_entries p)) (ep_bufs p)) l.
Proof.
  intros [Hs Hn (live & free & E & HF & Hf)]. apply Forall2_app_inv_r in HF as (A & B & HA & HB & ->).
  inversion HB as [|e ? B' ? He HB']; subst. inversion HB'; subst. pose proof (Forall2_length _ _ _ HA) as Hl.
  rewrite <- app_assoc in E. simpl in E. exists e. destruct He as (Hi & Hd & Hk).
  assert (exists ptr, pe_key e = Some ptr /\ key_of p ptr = Ok (cd_key c)) as (ptr & Hptr & Hkey).
  { destruct Hk as [Hk | [Hk Hb]]; rewrite Hk; eexists; (split; [done|]); [done|]. simpl. by rewrite Hb. }
  exists ptr. split; [rewrite E; by apply list_lookup_middle|]. split; [done|]. split; [done|]. split; [done|].
  split; simpl; [by rewrite length_insert| |].
  - rewrite E in *. rewrite insert_app_r_alt, Hl, Nat.sub_diag by lia. simpl. rewrite !map_app in *. exact Hn.
  - exists A, (MkEntry 0 None (pe_cached e) (pe_dbid e) :: free). rewrite E, insert_app_r_alt, Hl, Nat.sub_diag by lia. simpl.
    split; [done|]. split; [done|]. by constructor.
Qed.

Lemma pop_best_spec there n p l :
  pool_rep p l -> (length l <= n <= EVPOOL_SIZE)%nat ->
  exists p', pop_best there n p = Ok (found (fst (take_best there l)), p') /\ pool_rep p' (snd (take_best there l)).
Proof.
  revert p l. induction n as [|n IH]; intros p l Hp Hn; [destruct l; [by exists p|simpl in Hn; lia]|]. cbn [pop_best].
  destruct (decide (length l = S n)) as [Hl | Hl].
  - destruct l as [|c l _] using rev_ind; [done|]. rewrite length_app in Hl. simpl in Hl. assert (length l = n) as Hln by lia.
    destruct (empty_last p l c Hp) as (e & ptr & He & Hptr & Hkey & Hd & Hp'). rewrite Hln in *. rewrite He. cbn [need mbind res_bind].
    rewrite Hptr, Hkey. cbn [mbind res_bind]. rewrite Hd in *.
    rewrite take_best_snoc. destruct (there _ _); [by eexists|]. apply IH; [done|lia].
  - destruct (entry_at p l n Hp) as (e & He & Hk); [lia|lia|]. rewrite He. cbn [need mbind res_bind]. rewrite Hk. apply IH; [done|lia].
Qed.

(** ** Claims *)

Inductive pool_op :=
| Candidate (c : candidate)
| Best (there : Z -> bytes -> bool).

Fixpoint run_pool (ops : list pool_op) (p : evpool) : res (list (option (Z * bytes)) * evpool) :=
  match ops with
  | [] => Ok ([], p)
  | Candidate c :: ops => p ← pool_insert (cd_idle c) (cd_key c) (cd_dbid c) p; run_pool ops p
  | Best there :: ops =>
      '(best, p) ← pop_best there EVPOOL_SIZE p;
      '(out, p) ← run_pool ops p;
      Ok (best :: out, p)
  end.

Fixpoint spec_pool (ops : list pool_op) (l : list candidate) : list (option (Z * bytes)) * list candidate :=
  match ops with
  | [] => ([], l)
  | Candidate c :: ops => spec_pool ops (keep_best c l)
  | Best there :: ops =>
      let '(best, l) := take_best there l in
      let '(out, l) := spec_pool ops l in
      (found best :: out, l)
  end.

Lemma take_best_prefix there l : exists rest, l = snd (take_best there l) ++ rest.
Proof.
  induction l as [|c l IH] using rev_ind; [by exists []|]. rewrite take_best_snoc. destruct (there _ _); [by eexists|].
  destruct IH as [rest IH]. exists (rest ++ [c]). by rewrite app_assoc, <- IH.
Qed.

Lemma ascending_prefix a b : ascending (a ++ b) -> ascending a.
Proof.
  unfold ascending. induction a as [|x a IH]; [constructor|]. simpl. inversion 1 as [|? ? H1 H2]; subst. constructor; [by apply IH|].
  destruct a; constructor. by inversion H2.
Qed.

Lemma take_best_ascending there l : ascending l -> ascending (snd (take_best there l)).
Proof. destruct (take_best_prefix there l) as [rest E]. rewrite E at 1. apply ascending_prefix. Qed.

Lemma run_pool_spec ops p l :
  pool_rep p l -> ascending l ->
  exists p', run_pool ops p = Ok (fst (spec_pool ops l), p') /\ pool_rep p' (snd (spec_pool ops l)) /\ ascending (snd (spec_pool ops l)).
Proof.
  revert p l. induction ops as [|[c|there] ops IH]; intros p l Hp Ha; cbn [run_pool spec_pool].
  - by exists p.
  - destruct (pool_insert_spec c p l Hp) as (p1 & -> & Hp1). cbn [mbind res_bind]. apply IH; [done|by apply keep_best_ascending].
  - pose proof (pool_rep_length p l Hp). destruct (pop_best_spec there EVPOOL_SIZE p l Hp) as (p1 & -> & Hp1); [lia|]. cbn [mbind res_bind].
    pose proof (take_best_ascending there l Ha) as Ha1. destruct (take_best there l) as [best l1]. cbn [fst snd] in *.
    destruct (IH p1 l1 Hp1 Ha1) as (p2 & -> & Hp2 & Ha2). cbn [mbind res_bind]. destruct (spec_pool ops l1) as [out l2]. by exists p2.
Qed.

(** C28: the eviction pool holds the best candidates.  However candidates come in
    and the best are taken out, nothing outside the array is touched, no two
    entries share a buffer and no key is overwritten while it is in the pool: the
    answers are those of an ordered list of at most sixteen candidates that drops
    its worst when it is full, and gives its best that still exists. *)
Theorem evictionPool_refines (ops : list pool_op) :
  exists p l, run_pool ops evictionPoolAlloc = Ok (fst (spec_pool ops []), p) /\ l = snd (spec_pool ops []) /\
    pool_rep p l /\ ascending l /\ (length l <= EVPOOL_SIZE)%nat.
Proof.
  destruct (run_pool_spec ops evictionPoolAlloc [] evictionPoolAlloc_rep) as (p & E & Hp & Ha); [constructor|].
  exists p, (snd (spec_pool ops [])). split; [exact E|]. split; [reflexivity|]. split; [exact Hp|]. split; [exact Ha|]. by eapply pool_rep_length.
Qed.
