(* ===== verification/EvictTheory.v ===== *)
(** * Eviction: the ages, the pool, and what is evicted *)

From S2P Require Import Prelude Util Sds VectorClock VcTheory VcText VcClaims Proxy CrdtServer Gc Objects Keyspace Backlog Resp World Feed Evict.

(** ** Ages *)

(** The counters of time wrap: with [w] of them around, [now] and [then_] are
    taken modulo [w]; the age of a wrapped counter comes out one too small. *)

Lemma wrapped_age (w now then_ : Z) :
  0 < w -> then_ <= now < then_ + w ->
  let age := if now mod w >=? then_ mod w then now mod w - then_ mod w else now mod w + (w - 1 - then_ mod w) in
  now - then_ - 1 <= age <= now - then_.
Proof.
  intros Hw Hn. cbv zeta. pose proof (Z.div_mod now w). pose proof (Z.div_mod then_ w).
  pose proof (Z.mod_pos_bound now w Hw). pose proof (Z.mod_pos_bound then_ w Hw).
  assert (now / w = then_ / w \/ now / w = then_ / w + 1) as [E | E] by nia.
  - rewrite E in *. destruct (Z.geb_spec (now mod w) (then_ mod w)); lia.
  - rewrite E in *. destruct (Z.geb_spec (now mod w) (then_ mod w)); lia.
Qed.

Lemma land_mod a n : 0 <= n -> Z.land a (2 ^ n - 1) = a mod 2 ^ n.
Proof. intros. rewrite <- Z.land_ones by done. by rewrite Z.ones_equiv, Z.sub_1_r. Qed.

Lemma to_ull_small z : 0 <= z < 2 ^ 64 -> to_ull z = z.
Proof. apply Z.mod_small. Qed.

Lemma lru_age clock lru : 0 <= clock < 2 ^ 24 -> 0 <= lru < 2 ^ 24 ->
  estimateObjectIdleTime clock lru = (if clock >=? lru then clock - lru else clock + (2 ^ 24 - 1 - lru)) * 1000.
Proof.
  intros Hc Hl. unfold estimateObjectIdleTime, LRU_CLOCK_MAX, LRU_BITS, LRU_CLOCK_RESOLUTION.
  change (Z.shiftl 1 24 - 1) with (2 ^ 24 - 1). destruct (Z.geb_spec clock lru).
  - rewrite (to_ull_small (clock - lru)), to_ull_small by lia. lia.
  - rewrite (to_ull_small (clock + _)), to_ull_small by lia. lia.
Qed.

Lemma lfu_age now ldt : 0 <= now < 65536 -> 0 <= ldt < 65536 ->
  LFUTimeElapsed now ldt = if now >=? ldt then now - ldt else now + (65536 - 1 - ldt).
Proof.
  intros Hc Hl. unfold LFUTimeElapsed. destruct (Z.geb_spec now ldt); [rewrite to_ull_small; lia|].
  rewrite (to_ull_small (65535 - ldt)), to_ull_small by lia. lia.
Qed.

Lemma lru_fields lru : 0 <= lru < 2 ^ 24 -> 0 <= Z.shiftr lru 8 < 65536 /\ 0 <= Z.land lru 255 < 256.
Proof.
  intros Hl. rewrite Z.shiftr_div_pow2 by lia. change 255 with (2 ^ 8 - 1). rewrite land_mod by lia.
  pose proof (Z.mod_pos_bound lru (2 ^ 8)). split; [|lia]. split; [apply Z.div_pos; lia|apply Z.div_lt_upper_bound; lia].
Qed.

(** The counter after its decay: one less for each period. *)

Lemma decay_value decay now lru : 0 <= decay -> 0 <= now < 65536 -> 0 <= lru < 2 ^ 24 ->
  LFUDecrAndReturn decay now lru =
    Z.max 0 (Z.land lru 255 - (if decay =? 0 then 0 else LFUTimeElapsed now (Z.shiftr lru 8) / decay)).
Proof.
  intros Hd Hn Hl. pose proof (lru_fields lru Hl) as [H1 H2]. unfold LFUDecrAndReturn.
  assert (0 <= LFUTimeElapsed now (Z.shiftr lru 8)) as Hage.
  { rewrite lfu_age by done. destruct (Z.geb_spec now (Z.shiftr lru 8)); lia. }
  destruct (Z.eqb_spec decay 0) as [-> |Hne]; [simpl; lia|]. rewrite Z.quot_div_nonneg by lia.
  assert (0 <= LFUTimeElapsed now (Z.shiftr lru 8) / decay) by (apply Z.div_pos; lia).
  set (n := LFUTimeElapsed _ _ / decay) in *. destruct (Z.eqb_spec n 0); [lia|].
  destruct (Z.gtb_spec n (Z.land lru 255)); [lia|]. rewrite to_ull_small; lia.
Qed.

Lemma update_value hit decay now lru : 0 <= decay -> 0 <= now < 65536 -> 0 <= lru < 2 ^ 24 ->
  let lru' := updateLFU hit decay now lru in
  let counter := LFUDecrAndReturn decay now lru in
  0 <= lru' < 2 ^ 24 /\ Z.shiftr lru' 8 = now /\
  Z.land lru' 255 = if hit then Z.min 255 (counter + 1) else counter.
Proof.
  intros Hd Hn Hl. cbv zeta. pose proof (lru_fields lru Hl) as [H1 H2].
  assert (0 <= LFUDecrAndReturn decay now lru < 256) as Hc.
  { rewrite decay_value by done. assert (0 <= (if decay =? 0 then 0 else LFUTimeElapsed now (Z.shiftr lru 8) / decay)); [|lia].
    destruct (Z.eqb_spec decay 0); [done|]. apply Z.div_pos; [|lia]. rewrite lfu_age by done.
    destruct (Z.geb_spec now (Z.shiftr lru 8)); lia. }
  unfold updateLFU. set (counter := LFUDecrAndReturn decay now lru) in *.
  assert (uwrap 8 counter = counter) as -> by (apply Z.mod_small; lia).
  set (c := LFULogIncr hit counter). assert (c = (if hit then Z.min 255 (counter + 1) else counter)) as Hcv.
  { unfold c, LFULogIncr. destruct (Z.eqb_spec counter 255); destruct hit; try lia.
    unfold uwrap. rewrite Z.mod_small; lia. }
  rewrite <- Hcv. assert (0 <= c < 2 ^ 8) as Hcr by (destruct hit; lia).
  assert (Z.lor (Z.shiftl now 8) c = now * 2 ^ 8 + c) as ->.
  { rewrite <- Z.lxor_lor; [rewrite <- Z.add_nocarry_lxor|]; try (rewrite Z.shiftl_mul_pow2 by lia; lia);
      apply Z.bits_inj'; intros i Hi; rewrite Z.land_spec, Z.bits_0;
      (destruct (Z.ltb_spec i 8); [rewrite Z.shiftl_spec_low by lia; done|]);
      rewrite (Z.bits_above_log2 c i); try apply andb_false_r; try lia;
      (destruct (Z.eq_dec c 0) as [-> |]; [simpl; lia|]; apply Z.lt_le_trans with 8; [apply Z.log2_lt_pow2; lia|lia]). }
  assert (uwrap LRU_BITS (now * 2 ^ 8 + c) = now * 2 ^ 8 + c) as ->.
  { unfold uwrap, LRU_BITS. apply Z.mod_small. lia. }
  split; [lia|]. split.
  - rewrite Z.shiftr_div_pow2, Z.div_add_l, (Z.div_small c) by lia. lia.
  - change 255 with (2 ^ 8 - 1). rewrite land_mod by lia. rewrite Z.add_comm, Z.mod_add by lia. apply Z.mod_small. lia.
Qed.

(** ** The score of a tombstone *)

Definition unit_score (own len : Z) (vc : VectorClock) (c : clk) : Z :=
  let d := clock c - vcu vc (gid c) in
  gid_idle_max * (if gid c =? own then len else 1) / (if d >? 0 then d + 1 else 1).

Fixpoint score_sum (own len : Z) (vc : VectorClock) (units : list clk) : Z :=
  match units with
  | [] => 0
  | c :: units => unit_score own len vc c + score_sum own len vc units
  end.

Lemma unit_score_range own len vc c : 1 <= len -> 0 <= unit_score own len vc c <= gid_idle_max * len.
Proof.
  intros Hl. unfold unit_score, gid_idle_max. cbv zeta. set (w := if gid c =? own then len else 1). assert (1 <= w <= len) by (unfold w; destruct (_ =? _); lia).
  destruct (Z.gtb_spec (clock c - vcu vc (gid c)) 0).
  - split; [apply Z.div_pos; lia|]. apply Z.div_le_upper_bound; nia.
  - rewrite Z.div_1_r. lia.
Qed.

Lemma score_sum_range own len vc units : 1 <= len -> 0 <= score_sum own len vc units <= gid_idle_max * len * Z.of_nat (length units).
Proof.
  intros Hl. induction units as [|c units IH]; [simpl; lia|]. cbn [score_sum length].
  pose proof (unit_score_range own len vc c Hl). rewrite Nat2Z.inj_succ, Z.mul_succ_r. lia.
Qed.

Lemma ll_result_ok z : - 2 ^ 62 <= z <= 2 ^ 62 -> ll_result z = Ok z.
Proof.
  intros Hz. unfold ll_result, LLONG_MIN, LLONG_MAX. destruct (Z.leb_spec (- 2 ^ 63) z); [|lia].
  destruct (Z.leb_spec z (2 ^ 63 - 1)); [done|lia].
Qed.

Lemma vcu_bounds vc g : vc_ok vc -> 0 <= vcu vc g < 2 ^ 56.
Proof.
  intros [Hu _]. unfold vcu. destruct (vc_map vc !! g) as [c|] eqn:E; [|simpl; lia]. simpl. apply (vc_map_range vc g c Hu) in E. lia.
Qed.

Lemma idle_loop_sum own len vc units idle :
  vc_ok vc -> Forall unit_ok units -> 1 <= len <= 15 -> (length units <= 15)%nat -> 0 <= idle <= 2 ^ 50 ->
  idle_loop own len vc units idle = Ok (idle + score_sum own len vc units).
Proof.
  intros Hvc Hu Hl Hn Hi. assert (idle + gid_idle_max * len * Z.of_nat (length units) <= 2 ^ 51) as Hb by (unfold gid_idle_max; nia).
  clear Hn. destruct Hi as [Hi _]. revert idle Hi Hb. induction Hu as [|c units Hc Hu IH]; intros idle Hi Hb; cbn [idle_loop score_sum].
  - f_equal. lia.
  - unfold get_vcu_from_vc. rewrite unit_get_clock, unit_get_gid, get_vcu_from_spec by done.
    pose proof (vcu_bounds vc (gid c) Hvc). destruct Hc as [Hg Hc]. pose proof (unit_score_range own len vc c) as Hs.
    rewrite (ll_result_ok (clock c - vcu vc (gid c))) by lia. cbn [mbind res_bind].
    set (p := gid_idle_max * (if gid c =? own then len else 1)). assert (0 <= p <= gid_idle_max * len) as Hp.
    { unfold p, gid_idle_max. destruct (gid c =? own); lia. }
    rewrite (ll_result_ok p) by (unfold gid_idle_max in Hp; lia). cbn [mbind res_bind length] in *.
    assert (Z.quot p (if clock c - vcu vc (gid c) >? 0 then clock c - vcu vc (gid c) + 1 else 1) = unit_score own len vc c) as ->.
    { unfold unit_score. cbv zeta. fold p. apply Z.quot_div_nonneg; [lia|]. destruct (Z.gtb_spec (clock c - vcu vc (gid c)) 0); lia. }
    specialize (Hs ltac:(lia)). rewrite ll_result_ok by (unfold gid_idle_max in *; lia). cbn [mbind res_bind].
    rewrite IH; [f_equal; lia|lia|]. lia.
Qed.

Lemma tombstone_score own vc process : vc_ok vc -> vc_ok process ->
  tombstoneGetIdle own vc process = Ok (1 + score_sum own (get_len process) vc process).
Proof.
  intros Hvc Hp. unfold tombstoneGetIdle. destruct process as [|c process]; [done|].
  pose proof (vc_ok_length _ Hp). apply idle_loop_sum; [done|apply Hp| |done|lia]. unfold get_len. simpl in *. lia.
Qed.

(** A tombstone whose clock is behind another's has the smaller score. *)

Lemma score_sum_mono own len vc vc' units : 1 <= len ->
  (forall g, vcu vc g <= vcu vc' g) -> score_sum own len vc units <= score_sum own len vc' units.
Proof.
  intros Hl Hle. induction units as [|c units IH]; [done|]. cbn [score_sum]. apply Z.add_le_mono; [|done].
  unfold unit_score. cbv zeta. set (p := gid_idle_max * _). assert (0 <= p) by (unfold p, gid_idle_max; destruct (_ =? _); lia).
  specialize (Hle (gid c)). apply Z.div_le_compat_l; [done|].
  destruct (Z.gtb_spec (clock c - vcu vc' (gid c)) 0), (Z.gtb_spec (clock c - vcu vc (gid c)) 0); lia.
Qed.

(** C29: the ages and scores that choose what is evicted stay in their fields.
    [estimateObjectIdleTime] gives the time since the last access, or one tick
    less when the clock has wrapped in between; [LFUTimeElapsed] the same in
    minutes.  [updateLFU] leaves a field of 24 bits with the time of now and a
    counter that went down by one for each period of [lfu-decay-time], not at all
    if that is 0, up by one if the access counts, and never below 0 or above 255.
    (The comments of evict.c and redis.conf say the counter is halved when it is
    high, and that 0 stands for a decay at every scan: the code does neither.)  The score of a tombstone is computed
    without overflow, for any two clocks, and is below 2^39. *)
Theorem eviction_bounds (t0 t1 : Z) (hit : bool) (decay lru own : Z) (vc process : VectorClock)
    (Ht : 0 <= t0 <= t1) (Hticks : t1 / 1000 < t0 / 1000 + 2 ^ 24) (Hmin : t1 / 60 < t0 / 60 + 2 ^ 16)
    (Hdecay : 0 <= decay) (Hlru : 0 <= lru < 2 ^ 24) (Hvc : vc_ok vc) (Hp : vc_ok process) :
  (t1 / 1000 - t0 / 1000 - 1) * 1000 <= estimateObjectIdleTime (getLRUClock t1) (getLRUClock t0) <= (t1 / 1000 - t0 / 1000) * 1000 /\
  t1 / 60 - t0 / 60 - 1 <= LFUTimeElapsed (LFUGetTimeInMinutes t1) (LFUGetTimeInMinutes t0) <= t1 / 60 - t0 / 60 /\
  (let now := LFUGetTimeInMinutes t1 in
   let lru' := updateLFU hit decay now lru in
   let periods := if decay =? 0 then 0 else LFUTimeElapsed now (Z.shiftr lru 8) / decay in
   let counter := Z.max 0 (Z.land lru 255 - periods) in
   0 <= lru' < 2 ^ 24 /\ Z.shiftr lru' 8 = now /\ Z.land lru' 255 = if hit then Z.min 255 (counter + 1) else counter) /\
  exists idle, tombstoneGetIdle own vc process = Ok idle /\ 1 <= idle < 2 ^ 39.
Proof.
  assert (forall t, 0 <= t -> getLRUClock t = (t / 1000) mod 2 ^ 24) as Eclock.
  { intros t H. unfold getLRUClock, LRU_CLOCK_RESOLUTION, LRU_CLOCK_MAX, LRU_BITS. rewrite Z.quot_div_nonneg by lia.
    change (Z.shiftl 1 24 - 1) with (2 ^ 24 - 1). by apply land_mod. }
  assert (forall t, 0 <= t -> LFUGetTimeInMinutes t = (t / 60) mod 2 ^ 16) as Emin.
  { intros t H. unfold LFUGetTimeInMinutes. rewrite Z.quot_div_nonneg by lia. change 65535 with (2 ^ 16 - 1). by apply land_mod. }
  assert (forall t, 0 <= (t / 1000) mod 2 ^ 24 < 2 ^ 24) as Rclock by (intros t; by apply Z.mod_pos_bound).
  assert (forall t, 0 <= (t / 60) mod 2 ^ 16 < 65536) as Rmin by (intros t; by apply Z.mod_pos_bound).
  split; [|split; [|split]].
  - rewrite !Eclock, lru_age by (done || lia). pose proof (Z.div_le_mono t0 t1 1000).
    pose proof (wrapped_age (2 ^ 24) (t1 / 1000) (t0 / 1000)) as Hw. cbv zeta in Hw. lia.
  - rewrite !Emin, lfu_age by (done || lia). pose proof (Z.div_le_mono t0 t1 60).
    pose proof (wrapped_age (2 ^ 16) (t1 / 60) (t0 / 60)) as Hw. cbv zeta in Hw. change 65536 with (2 ^ 16). lia.
  - cbv zeta. rewrite Emin by lia. rewrite <- decay_value by done. by apply update_value.
  - rewrite tombstone_score by done. eexists. split; [done|]. destruct process as [|c process]; [simpl; lia|].
    pose proof (vc_ok_length _ Hp). pose proof (score_sum_range own (get_len (c :: process)) vc (c :: process)) as Hr.
    unfold get_len, gid_idle_max in *. simpl length in *. nia.
Qed.

Lemma eviction_bounds_witness :
  exists idle, tombstoneGetIdle 1 [Clk 1 7; Clk 2 3] [Clk 1 9; Clk 2 3] = Ok idle /\ 1 <= idle < 2 ^ 39.
Proof.
  apply (eviction_bounds 5000 90000 true 1 (Z.lor (Z.shiftl 3 8) 200) 1 [Clk 1 7; Clk 2 3] [Clk 1 9; Clk 2 3]);
    [lia|vm_compute; reflexivity|vm_compute; reflexivity|lia|vm_compute; intuition congruence|decide_now|decide_now].
Defined.

(** The score is the greater the fewer writes followed the deletion: of two
    tombstones, the newer goes first. *)

Lemma newer_tombstone_first own vc vc' process :
  vc_ok vc -> vc_ok vc' -> vc_ok process -> (forall g, vcu vc g <= vcu vc' g) ->
  exists idle idle', tombstoneGetIdle own vc process = Ok idle /\ tombstoneGetIdle own vc' process = Ok idle' /\ idle <= idle'.
Proof.
  intros Hvc Hvc' Hp Hle. rewrite !tombstone_score by done. eexists _, _. split; [done|]. split; [done|].
  destruct process as [|c process]; [done|]. apply Z.add_le_mono; [done|]. apply score_sum_mono; [|done]. unfold get_len. simpl. lia.
Qed.
