(* ===== verification/EvictClaims.v ===== *)
(** * Eviction: claims

    [freeMemoryIfNeeded] as a whole: it ends, whatever memory is reported; it
    throws away all tombstones before the first key; and it announces every
    tombstone it throws away. *)

From S2P Require Import Prelude Util Sds VectorClock VcTheory VcText VcClaims Proxy CrdtServer Gc Objects Keyspace Backlog Resp World Feed Evict EvictPool EvictTheory.

Section eviction.

Context {object : Type} `{CrdtModule object}.

(** ** What is assumed of the values: the module gives their methods, and deleting
    a key writes the tombstone of that key *)

Definition tomb_vc (val : dbval object) : option VectorClock :=
  match retrieveObject val with
  | Some obj => option_map (fun m => tm_getVc m obj) (getCrdtTombstoneMethod obj)
  | None => None
  end.

Definition tomb_ok (val : dbval object) : Prop := exists vc, tomb_vc val = Some vc /\ vc_ok vc.

Definition value_ok (key : bytes) (val : dbval object) : Prop :=
  exists obj m last, retrieveObject val = Some obj /\ getCrdtDataMethod obj = Some m /\ dm_getLastGid m = Some last /\
    forall t del, exists tomb, tomb_ok tomb /\ dm_propagateDel m key obj t del = <[key := tomb]> del.

Record db_good (db : redisDb object) : Prop := {
  dg_ok : db_ok db;
  dg_values : map_Forall (fun k v => bytes_ok k /\ value_ok k v) (dict db);
  dg_tombs : map_Forall (fun k v => bytes_ok k /\ tomb_ok v) (deleted_keys db)
}.

Record world_good (w : world) : Prop := {
  wg_ok : world_ok w;
  wg_clock : vc_ok (vectorClock (w_crdt w));
  wg_gid : 0 < crdt_gid (w_crdt w) < 16
}.

Record evict_ok (st : estate (object := object)) : Prop := {
  ev_dbs : Forall db_good (es_dbs st);
  ev_pool : exists l, pool_rep (es_pool st) l;
  ev_world : world_good (es_world st)
}.

(** Only the pool and the number of draws differ. *)

Record only_pool (st st' : estate (object := object)) : Prop := {
  op_dbs : es_dbs st' = es_dbs st;
  op_world : es_world st' = es_world st;
  op_next_db : es_next_db st' = es_next_db st;
  op_evicted : es_evicted st' = es_evicted st
}.

Lemma only_pool_refl st : only_pool st st.
Proof. done. Qed.

Lemma only_pool_trans a b c : only_pool a b -> only_pool b c -> only_pool a c.
Proof. intros [? ? ? ?] [? ? ? ?]. split; congruence. Qed.

Lemma only_pool_ok st st' l : evict_ok st -> only_pool st st' -> pool_rep (es_pool st') l -> evict_ok st'.
Proof. intros [H1 _ H3] [E1 E2 _ _] Hl. split; [by rewrite E1|by exists l|by rewrite E2]. Qed.

Lemma get_db_only st st' i : only_pool st st' -> get_db i st' = get_db i st.
Proof. intros [E _ _ _]. unfold get_db. by rewrite E. Qed.

(** ** Populating *)

Lemma keep_best_elem x l c : c ∈ keep_best x l -> c = x \/ c ∈ l.
Proof.
  intros Hc. apply elem_of_cons. rewrite <- (insert_sorted_Permutation x l). unfold keep_best in Hc.
  destruct (_ <? _)%nat; [|done]. destruct (insert_sorted x l); [done|]. by right.
Qed.

Lemma keep_best_nonempty x l : keep_best x l <> [].
Proof.
  intros E. assert (length (keep_best x l) = 0%nat) as E0 by (by rewrite E). unfold keep_best in E0.
  pose proof (insert_sorted_length x l) as Hl. destruct (Nat.ltb_spec EVPOOL_SIZE (length (insert_sorted x l))); [|lia].
  destruct (insert_sorted x l); simpl in *; [lia|]. unfold EVPOOL_SIZE in *. lia.
Qed.

Lemma insert_all_spec (T : candidate -> Prop) dbid idle_of keys p l :
  (forall key, key ∈ keys -> (exists idle, idle_of key = Ok idle) /\ forall idle, T (MkCand idle key dbid)) -> pool_rep p l ->
  exists p' l', insert_all dbid idle_of keys p = Ok p' /\ pool_rep p' l' /\ (Forall T l -> Forall T l') /\
    (l <> [] \/ keys <> [] -> l' <> []).
Proof.
  revert p l. induction keys as [|key keys IH]; intros p l Hk Hp; cbn [insert_all].
  - exists p, l. split; [done|]. split; [done|]. split; [done|]. intros [? | ?]; done.
  - destruct (Hk key) as [[idle ->] HT]; [left|]. cbn [mbind res_bind].
    destruct (pool_insert_spec (MkCand idle key dbid) p l Hp) as (p1 & E1 & Hp1). cbn [cd_idle cd_key cd_dbid] in E1. rewrite E1. cbn [mbind res_bind].
    destruct (IH p1 _ (fun k Hin => Hk k (list_elem_of_further _ _ _ Hin)) Hp1) as (p2 & l2 & -> & Hp2 & HT2 & Hne).
    exists p2, l2. split; [done|]. split; [done|]. split.
    + intros Hl. apply HT2, Forall_forall. intros c [-> | Hc]%keep_best_elem; [apply HT|]. rewrite Forall_forall in Hl. by apply Hl.
    + intros _. apply Hne. left. apply keep_best_nonempty.
Qed.

Section picking.

Context (keys_of : redisDb object -> gset bytes) (populate : Z -> redisDb object -> estate (object := object) -> res (estate (object := object))).

(** The draws that give a key of any dictionary that has one. *)

Context (lucky : nat -> Prop).

(** A candidate whose key is there. *)

Definition present (st : estate (object := object)) (c : candidate) : Prop :=
  exists db, get_db (cd_dbid c) st = Ok db /\ cd_key c ∈ keys_of db.

Definition populates : Prop := forall (i : nat) db st l,
  evict_ok st -> es_dbs st !! i = Some db -> keys_of db <> ∅ -> pool_rep (es_pool st) l ->
  exists st' l', populate (Z.of_nat i) db st = Ok st' /\ only_pool st st' /\ pool_rep (es_pool st') l' /\
    (Forall (present st) l -> Forall (present st) l') /\ es_draws st' = S (es_draws st) /\
    (l <> [] \/ lucky (es_draws st) -> l' <> []).

Context (Hpop : populates).

Definition total_keys (dbs : list (redisDb object)) : Z := Z.of_nat (sum_list (map (fun db => size (keys_of db)) dbs)).

Lemma present_only st st' c : only_pool st st' -> present st' c <-> present st c.
Proof. intros Ho. unfold present. by rewrite (get_db_only _ _ _ Ho). Qed.

Lemma populate_all_spec dbs (i : nat) total st l :
  evict_ok st -> (forall j db, dbs !! j = Some db -> es_dbs st !! (i + j)%nat = Some db) -> pool_rep (es_pool st) l ->
  exists st' l', populate_all keys_of populate (Z.of_nat i) dbs total st = Ok (total + total_keys dbs, st') /\ only_pool st st' /\
    pool_rep (es_pool st') l' /\ (Forall (present st) l -> Forall (present st) l') /\
    (es_draws st <= es_draws st')%nat /\ (total_keys dbs <> 0 -> (es_draws st < es_draws st')%nat) /\
    (l <> [] \/ (exists m, (es_draws st <= m < es_draws st')%nat /\ lucky m) -> l' <> []).
Proof.
  revert i total st l. induction dbs as [|db dbs IH]; intros i total st l Hok Hdbs Hl; cbn [populate_all].
  - exists st, l. split; [f_equal; f_equal; unfold total_keys; simpl; lia|]. split; [done|]. split; [done|]. split; [done|].
    split; [lia|]. split; [done|]. intros [Hn | (m & Hm & _)]; [done|lia].
  - assert (es_dbs st !! i = Some db) as Hdb by (rewrite <- (Nat.add_0_r i); by apply Hdbs).
    assert (forall st' j db', only_pool st st' -> dbs !! j = Some db' -> es_dbs st' !! (S i + j)%nat = Some db') as Hrest.
    { intros st' j db' [E _ _ _] Hj. rewrite E. replace (S i + j)%nat with (i + S j)%nat by lia. by apply Hdbs. }
    replace (Z.of_nat i + 1) with (Z.of_nat (S i)) by lia.
    assert (total_keys (db :: dbs) = Z.of_nat (size (keys_of db)) + total_keys dbs) as -> by (unfold total_keys; simpl; lia).
    destruct (Z.eqb_spec (Z.of_nat (size (keys_of db))) 0) as [E0 | E0].
    + rewrite E0. destruct (IH (S i) total st l Hok (fun j db' => Hrest st j db' (only_pool_refl st)) Hl) as (st' & l' & -> & R).
      exists st', l'. exact (conj eq_refl R).
    + destruct (Hpop i db st l Hok Hdb) as (st1 & l1 & -> & Ho1 & Hl1 & HT1 & Hd1 & Hne1); [intros E; rewrite E, size_empty in E0; lia|done|].
      cbn [mbind res_bind].
      destruct (IH (S i) (total + Z.of_nat (size (keys_of db))) st1 l1 (only_pool_ok _ _ _ Hok Ho1 Hl1) (fun j db' => Hrest st1 j db' Ho1) Hl1)
        as (st' & l' & -> & Ho2 & Hl2 & HT2 & Hd2 & _ & Hne2).
      exists st', l'. split; [by rewrite Z.add_assoc|]. split; [by eapply only_pool_trans|]. split; [done|]. split; [|split; [lia|split; [lia|]]].
      * intros HT. apply HT1 in HT. eapply Forall_impl; [apply HT2; eapply Forall_impl; [exact HT|]|]; intros c; by rewrite (present_only _ _ _ Ho1).
      * intros [Hn | (m & Hm & Hlm)]; apply Hne2; [left; apply Hne1; by left|].
        destruct (decide (m = es_draws st)) as [-> |Hne]; [left; apply Hne1; by right|]. right. exists m. split; [lia|done].
Qed.

Definition there_in (st : estate (object := object)) (dbid : Z) (key : bytes) : bool :=
  match get_db dbid st with Ok db => bool_decide (key ∈ keys_of db) | _ => false end.

Lemma there_present st c : there_in st (cd_dbid c) (cd_key c) = true <-> present st c.
Proof.
  unfold there_in, present. destruct (get_db (cd_dbid c) st) as [db| |]; [|split; [done|by intros (? & ? & _)]..].
  rewrite bool_decide_eq_true. split; [by exists db|]. by intros (? & [= <-] & ?).
Qed.

Lemma take_best_Some there l c l' : take_best there l = (Some c, l') -> there (cd_dbid c) (cd_key c) = true.
Proof.
  revert c l'. induction l as [|d l IH] using rev_ind; intros c l'; [done|]. rewrite take_best_snoc.
  destruct (there (cd_dbid d) (cd_key d)) eqn:E; [|apply IH]. by intros [= <- _].
Qed.

Lemma take_best_None there l l' : take_best there l = (None, l') -> l' = [] /\ Forall (fun c => there (cd_dbid c) (cd_key c) = false) l.
Proof.
  revert l'. induction l as [|d l IH] using rev_ind; intros l'; [by intros [= <-]|]. rewrite take_best_snoc.
  destruct (there (cd_dbid d) (cd_key d)) eqn:E; [done|]. intros H1%IH. destruct H1 as [-> HF]. split; [done|].
  apply Forall_app. split; [done|]. by constructor.
Qed.

(** What one round gives. *)

Lemma pick_round fuel adds_up total st l :
  evict_ok st -> pool_rep (es_pool st) l -> 0 <= total ->
  let total' := (if adds_up : bool then total else 0) + total_keys (es_dbs st) in
  exists st1 l1, only_pool st st1 /\ pool_rep (es_pool st1) l1 /\
    (Forall (present st) l -> Forall (present st) l1) /\
    (l <> [] \/ (exists m, (es_draws st <= m < es_draws st1)%nat /\ lucky m) -> l1 <> []) /\
    exists st2, only_pool st st2 /\ pool_rep (es_pool st2) (snd (take_best (there_in st) l1)) /\
    es_draws st2 = es_draws st1 /\ (es_draws st <= es_draws st1)%nat /\ (total_keys (es_dbs st) <> 0 -> (es_draws st < es_draws st1)%nat) /\
    pick_loop (S fuel) adds_up keys_of populate total st =
      if total' =? 0 then Ok (total', None, st1)
      else match found (fst (take_best (there_in st) l1)) with
           | Some best => Ok (total', Some best, st2)
           | None => pick_loop fuel adds_up keys_of populate total' st2
           end.
Proof.
  intros Hok Hl Htot total'.
  destruct (populate_all_spec (es_dbs st) 0 (if adds_up : bool then total else 0) st l Hok) as (st1 & l1 & E & Ho & Hl1 & HT & Hd & Hd' & Hne); [done|done|].
  assert (there_in st1 = there_in st) as Eth by (unfold there_in, get_db; by rewrite (op_dbs _ _ Ho)).
  pose proof (pool_rep_length _ _ Hl1). destruct (pop_best_spec (there_in st) EVPOOL_SIZE (es_pool st1) l1 Hl1) as (p & Ep & Hp); [lia|].
  exists st1, l1. split; [done|]. split; [done|]. split; [done|]. split; [done|].
  exists (set_es_pool p st1). split; [by destruct Ho; split|]. split; [done|]. split; [done|]. split; [done|]. split; [done|].
  cbn [pick_loop]. change (Z.of_nat 0) with 0 in E. rewrite E. cbn [mbind res_bind]. fold total'.
  destruct (total' =? 0); [done|].
  change (fun (dbid : Z) (key : bytes) => match get_db dbid st1 with Ok db => bool_decide (key ∈ keys_of db) | _ => false end)
    with (there_in st1). rewrite Eth, Ep. done.
Qed.

Definition picked (st : estate) (total' : Z) (best : option (Z * bytes)) : Prop :=
  match best with
  | Some (dbid, key) => total' <> 0 /\ present st (MkCand 0 key dbid)
  | None => total' = 0 /\ total_keys (es_dbs st) = 0
  end.

Lemma total_keys_nonneg dbs : 0 <= total_keys dbs.
Proof. unfold total_keys. lia. Qed.

Lemma present_idle st idle key dbid : present st (MkCand idle key dbid) -> present st (MkCand 0 key dbid).
Proof. done. Qed.

(** With an empty pool the loop ends with the next lucky draw, and each round makes
    one draw at least. *)

Lemma pick_fresh n : forall fuel adds_up total st,
  evict_ok st -> pool_rep (es_pool st) [] -> 0 <= total -> total_keys (es_dbs st) <> 0 ->
  (exists m, (es_draws st <= m < es_draws st + n)%nat /\ lucky m) -> (n <= fuel)%nat ->
  exists total' best st', pick_loop fuel adds_up keys_of populate total st = Ok (total', best, st') /\ only_pool st st' /\
    evict_ok st' /\ picked st total' best.
Proof.
  induction n as [|n IH]; intros fuel adds_up total st Hok Hl Htot Hn (m & Hm & Hlm) Hfuel; [lia|].
  destruct fuel as [|fuel]; [lia|]. pose proof (total_keys_nonneg (es_dbs st)).
  destruct (pick_round fuel adds_up total st [] Hok Hl Htot)
    as (st1 & l1 & Ho1 & Hl1 & HT & Hne & st2 & Ho2 & Hl2 & Hd2 & _ & Hd & ->).
  specialize (Hd Hn). destruct (Z.eqb_spec ((if adds_up then total else 0) + total_keys (es_dbs st)) 0); [destruct adds_up; lia|].
  destruct (take_best (there_in st) l1) as [[c|] rest] eqn:Et; cbn [fst snd found option_map] in *.
  - eexists _, _, st2. split; [done|]. split; [done|]. split; [by eapply only_pool_ok|]. split; [done|].
    apply take_best_Some, there_present in Et. destruct c as [idle key dbid]. exact (present_idle _ idle _ _ Et).
  - apply take_best_None in Et as [-> HF]. specialize (HT (Forall_nil_2 _)). destruct l1 as [|c l1].
    2:{ inversion HF as [|? ? Hc _]; inversion HT as [|? ? Hp _]; subst. apply there_present in Hp. congruence. }
    assert (es_draws st1 <= m)%nat as Hm1.
    { destruct (decide (es_draws st1 <= m)%nat); [done|]. destruct Hne; [|done]. right. exists m. split; [lia|done]. }
    destruct (IH fuel adds_up ((if adds_up then total else 0) + total_keys (es_dbs st)) st2 (only_pool_ok _ _ _ Hok Ho2 Hl2) Hl2)
      as (t & best & st3 & -> & Ho3 & Hok3 & Hp); [destruct adds_up; lia|by rewrite (op_dbs _ _ Ho2)|exists m; split; [lia|done]|lia|].
    eexists _, _, st3. split; [done|]. split; [by eapply only_pool_trans|]. split; [done|]. unfold picked in *.
    destruct best as [[dbid key]|]; [by rewrite <- (present_only _ _ _ Ho2)|by rewrite <- (op_dbs _ _ Ho2)].
Qed.

(** Of any [gap] draws in a row one is lucky. *)

Context (gap : nat) (Hgap : forall n, exists m, (n <= m < n + gap)%nat /\ lucky m).

(** After the first round there is no ghost left in the pool. *)

Lemma pick_loop_spec fuel adds_up st :
  evict_ok st -> (gap + 1 <= fuel)%nat ->
  exists total' best st', pick_loop fuel adds_up keys_of populate 0 st = Ok (total', best, st') /\ only_pool st st' /\
    evict_ok st' /\ picked st total' best.
Proof.
  intros Hok Hfuel. destruct fuel as [|fuel]; [lia|]. destruct (ev_pool st Hok) as [l Hl]. pose proof (total_keys_nonneg (es_dbs st)).
  destruct (pick_round fuel adds_up 0 st l Hok Hl) as (st1 & l1 & Ho1 & Hl1 & HT & _ & st2 & Ho2 & Hl2 & _ & _ & _ & ->); [done|].
  replace ((if adds_up then 0 else 0) + total_keys (es_dbs st)) with (total_keys (es_dbs st)) by (destruct adds_up; lia).
  destruct (Z.eqb_spec (total_keys (es_dbs st)) 0) as [E0 | E0].
  { eexists _, _, st1. split; [done|]. split; [done|]. split; [by eapply only_pool_ok|done]. }
  destruct (take_best (there_in st) l1) as [[c|] rest] eqn:Et; cbn [fst snd found option_map] in *.
  - eexists _, _, st2. split; [done|]. split; [done|]. split; [by eapply only_pool_ok|]. split; [done|].
    apply take_best_Some, there_present in Et. destruct c as [idle key dbid]. exact (present_idle _ idle _ _ Et).
  - apply take_best_None in Et as [-> _].
    destruct (pick_fresh gap fuel adds_up (total_keys (es_dbs st)) st2 (only_pool_ok _ _ _ Hok Ho2 Hl2) Hl2) as (t & best & st3 & -> & Ho3 & Hok3 & Hp);
      [done|by rewrite (op_dbs _ _ Ho2)|apply Hgap|lia|].
    eexists _, _, st3. split; [done|]. split; [by eapply only_pool_trans|]. split; [done|]. unfold picked in *.
    destruct best as [[dbid key]|]; [by rewrite <- (present_only _ _ _ Ho2)|by rewrite <- (op_dbs _ _ Ho2)].
Qed.

End picking.

(** ** The parameters *)

Context (cfg : evict_config) (orc : evict_oracle) (gap : nat).

(** The draw gives a key of any dictionary that has one. *)

Definition lucky_draw (n : nat) : Prop := forall X, X <> ∅ -> eo_sample orc n X <> [].

(** A sample of a dictionary ([dictGetSomeKeys]) gives keys of it; it gives none when
    it meets only empty buckets, but not [gap] times in a row.  A random draw gives
    a key, and what the module does to the streams leaves them well-formed. *)

Record oracle_ok : Prop := {
  oo_sample : forall n X, Forall (fun k => k ∈ X) (eo_sample orc n X);
  oo_lucky : forall n, exists m, (n <= m < n + gap)%nat /\ lucky_draw m;
  oo_random : forall n X, X <> ∅ -> eo_random orc n X ∈ X;
  oo_propagate : forall dbid key w, world_good w -> exists w', eo_propagate orc dbid key w = Ok w' /\ world_good w'
}.

Context (Horc : oracle_ok).

Lemma get_db_at st (i : nat) : get_db (Z.of_nat i) st = need (es_dbs (object := object) st !! i).
Proof. unfold get_db. rewrite (proj2 (Z.ltb_ge _ _)) by lia. by rewrite Nat2Z.id. Qed.

Lemma populates_from (keys_of : redisDb object -> gset bytes) idle_of populate :
  (forall i db st, populate i db st =
     (p ← insert_all i (idle_of i db st) (eo_sample orc (es_draws st) (keys_of db)) (es_pool st); Ok (set_es_pool p (snd (draw st))))) ->
  (forall (i : nat) db st key, evict_ok st -> es_dbs st !! i = Some db -> key ∈ keys_of db -> exists idle, idle_of (Z.of_nat i) db st key = Ok idle) ->
  populates keys_of populate lucky_draw.
Proof.
  intros Hdef Hidle i db st l Hok Hdb Hne Hl. rewrite Hdef. pose proof (oo_sample Horc (es_draws st) (keys_of db)) as Hin.
  rewrite Forall_forall in Hin.
  destruct (insert_all_spec (present keys_of st) (Z.of_nat i) (idle_of (Z.of_nat i) db st) (eo_sample orc (es_draws st) (keys_of db)) (es_pool st) l)
    as (p & l' & -> & Hp & HT & Hn); [|done|].
  - intros key Hkey. apply Hin in Hkey. split; [by eapply Hidle|]. intros idle. exists db. split; [|done]. simpl. by rewrite get_db_at, Hdb.
  - cbn [mbind res_bind]. eexists _, l'. split; [done|]. split; [done|]. split; [done|]. split; [done|]. split; [done|].
    intros [Hl' | Hlucky]; apply Hn; [by left|right]. by apply Hlucky.
Qed.

Lemma tomb_vc_Some (val : dbval object) vc :
  tomb_vc val = Some vc -> exists obj m, retrieveObject val = Some obj /\ getCrdtTombstoneMethod obj = Some m /\ vc = tm_getVc m obj.
Proof.
  unfold tomb_vc. destruct (retrieveObject val) as [obj|]; [|done]. destruct (getCrdtTombstoneMethod obj) as [m|] eqn:E; [|done].
  intros [= <-]. by exists obj, m.
Qed.

Lemma ev_db st (i : nat) db : evict_ok st -> es_dbs st !! i = Some db -> db_good db.
Proof. intros [Hdbs _ _] Hi. rewrite Forall_lookup in Hdbs. exact (Hdbs i db Hi). Qed.

Lemma tombstones_populate : populates tombstone_keys (evictionTombstonePoolPopulate orc) lucky_draw.
Proof.
  apply (populates_from tombstone_keys
    (fun _ db st key => tombstone_idle db key (vectorClock (w_crdt (es_world st))) (crdt_gid (w_crdt (es_world st))))); [done|].
  intros i db st key Hok Hdb Hkey. unfold tombstone_keys in Hkey. apply elem_of_dom in Hkey as [val Hval]. destruct (dg_tombs db (ev_db _ _ _ Hok Hdb) key val Hval) as [_ (vc & Hvc & Hvcok)].
  destruct (tomb_vc_Some val vc Hvc) as (obj & m & E1 & E2 & ->). unfold tombstone_idle. rewrite Hval. cbn [need mbind res_bind].
  rewrite E1. cbn [need mbind res_bind]. rewrite E2. cbn [need mbind res_bind].
  rewrite tombstone_score by (done || apply (ev_world st Hok)). by eexists.
Qed.

Lemma has_either policy a b : has_flag policy (Z.lor a b) = has_flag policy a || has_flag policy b.
Proof.
  unfold has_flag. rewrite Z.land_lor_distr_r. destruct (Z.eqb_spec (Z.land policy a) 0) as [-> |Ha]; [done|].
  destruct (Z.eqb_spec (Z.lor (Z.land policy a) (Z.land policy b)) 0) as [E | E]; [|done]. apply Z.lor_eq_0_iff in E. tauto.
Qed.

Lemma sample_keys_dict db : db_good db -> sample_keys cfg db ⊆ dom (dict db).
Proof. intros Hg. unfold sample_keys. destruct (has_flag _ _); [done|]. apply (dg_ok db Hg). Qed.

Lemma keys_populate : uses_pool (ec_policy cfg) = true -> populates (sample_keys cfg) (evictionPoolPopulate cfg orc) lucky_draw.
Proof.
  intros Huse. apply (populates_from (sample_keys cfg) (fun i db _ key => key_idle cfg i db key)); [done|].
  intros i db st key Hok Hdb Hkey. pose proof (ev_db _ _ _ Hok Hdb) as Hg.
  assert (is_Some (dict db !! key)) as [val Hval] by (apply elem_of_dom; by apply sample_keys_dict).
  unfold key_idle. rewrite Hval. cbn [need mbind res_bind]. unfold uses_pool in Huse. rewrite has_either in Huse.
  destruct (has_flag (ec_policy cfg) MAXMEMORY_FLAG_LRU); [by eexists|]. destruct (has_flag (ec_policy cfg) MAXMEMORY_FLAG_LFU); [by eexists|].
  cbn [orb] in Huse. rewrite Huse. apply Z.eqb_eq in Huse. unfold sample_keys in Hkey. rewrite Huse in Hkey.
  change (has_flag MAXMEMORY_VOLATILE_TTL MAXMEMORY_FLAG_ALLKEYS) with false in Hkey. apply elem_of_dom in Hkey as [when ->]. by eexists.
Qed.

(** ** What is announced *)

Definition feed_tombstone (i : Z) (key : bytes) (vc : VectorClock) (w : world) : res world :=
  replicationFeedAllSlaves i
    [RSds (str "CRDT.EVICTIONTOMBSTONE"); RSds key; RInt (crdt_gid (w_crdt w)); RSds (vectorClockToSds vc)] w.

(** The announcements that were fed, between what the module feeds. *)

Inductive announced : list (nat * bytes * VectorClock) -> world -> world -> Prop :=
| announced_none w : announced [] w w
| announced_tombstone (i : nat) key vc anns w w1 w2 :
    feed_tombstone (Z.of_nat i) key vc w = Ok w1 -> announced anns w1 w2 -> announced ((i, key, vc) :: anns) w w2
| announced_module i key anns w w1 w2 : eo_propagate orc i key w = Ok w1 -> announced anns w1 w2 -> announced anns w w2.

Lemma announced_app a b w1 w2 w3 : announced a w1 w2 -> announced b w2 w3 -> announced (a ++ b) w1 w3.
Proof. induction 1; intros Hb; simpl; [done|econstructor; eauto|eapply announced_module; eauto]. Qed.

Lemma feed_tombstone_ok i key vc w :
  world_good w -> bytes_ok key -> vc_ok vc -> exists w', feed_tombstone i key vc w = Ok w' /\ world_good w'.
Proof.
  intros [Hok Hclock Hgid] Hkey Hvc. unfold feed_tombstone. destruct (proxies_master w) eqn:Hm.
  - exists w. unfold replicationFeedAllSlaves. rewrite Hm. done.
  - destruct (feed_all i [RSds (str "CRDT.EVICTIONTOMBSTONE"); RSds key; RInt (crdt_gid (w_crdt w)); RSds (vectorClockToSds vc)] w Hok Hm)
      as (w' & -> & Hf & _).
    { constructor; [apply (str_ok "CRDT.EVICTIONTOMBSTONE")|]. constructor; [exact Hkey|]. constructor; [unfold robj_ok, LLONG_MIN, LLONG_MAX; lia|].
      constructor; [by apply clock_text_bytes|constructor]. }
    exists w'. split; [done|]. pose proof (world_fed_ok _ _ _ Hf Hok). destruct Hf as [Hr _]. unfold same_rest in Hr.
    assert (w_crdt w' = w_crdt w) as E by (rewrite Hr; by destruct w). split; [done|by rewrite E|by rewrite E].
Qed.

(** ** Relations between the databases before and after *)

Definition tombs_only (db db' : redisDb object) : Prop :=
  dict db' = dict db /\ expires db' = expires db /\ deleted_keys db' ⊆ deleted_keys db.

Definition keys_only (db db' : redisDb object) : Prop :=
  dict db' ⊆ dict db /\ expires db' ⊆ expires db /\ deleted_keys db' = deleted_keys db.

(** Every tombstone that is gone was announced with its clock. *)

Definition covers (anns : list (nat * bytes * VectorClock)) (dbs dbs' : list (redisDb object)) : Prop :=
  forall (i : nat) db db' k v, dbs !! i = Some db -> dbs' !! i = Some db' -> deleted_keys db !! k = Some v -> deleted_keys db' !! k = None ->
  exists vc, tomb_vc v = Some vc /\ (i, k, vc) ∈ anns.

Lemma covers_trans a b d1 d2 d3 :
  Forall2 tombs_only d1 d2 -> covers a d1 d2 -> covers b d2 d3 -> covers (a ++ b) d1 d3.
Proof.
  intros HF Ha Hb i db1 db3 k v H1 H3 Hk Hn. destruct (Forall2_lookup_l _ _ _ _ _ HF H1) as (db2 & H2 & _ & _ & Hsub).
  destruct (deleted_keys db2 !! k) as [v'|] eqn:E2.
  - assert (v' = v) as -> by (pose proof (lookup_weaken _ _ _ _ E2 Hsub); congruence).
    destruct (Hb i db2 db3 k v H2 H3 E2 Hn) as (vc & Hvc & Hin). exists vc. split; [done|]. apply elem_of_app. by right.
  - destruct (Ha i db1 db2 k v H1 H2 Hk E2) as (vc & Hvc & Hin). exists vc. split; [done|]. apply elem_of_app. by left.
Qed.

#[local] Instance tombs_only_preorder : PreOrder tombs_only.
Proof.
  split; [done|]. intros x y z (A1 & A2 & A3) (B1 & B2 & B3). split; [congruence|]. split; [congruence|]. by etrans.
Qed.

#[local] Instance keys_only_preorder : PreOrder keys_only.
Proof.
  split; [done|]. intros x y z (A1 & A2 & A3) (B1 & B2 & B3). split; [by etrans|]. split; [by etrans|]. congruence.
Qed.

Lemma Forall2_insert_refl {A} (R : A -> A -> Prop) `{!Reflexive R} (l : list A) i x y :
  l !! i = Some x -> R x y -> Forall2 R l (<[i := y]> l).
Proof.
  intros Hi Hr. apply Forall2_same_length_lookup_2; [by rewrite length_insert|]. intros j a b Ha Hb.
  destruct (decide (i = j)) as [<- |].
  - rewrite list_lookup_insert_eq in Hb by (by eapply lookup_lt_Some). congruence.
  - rewrite list_lookup_insert_ne in Hb by done. by simplify_eq.
Qed.


(** ** The tombstones *)

(** The first phase: tombstones go, and are announced. *)

Record tombs_gone (st st' : estate (object := object)) : Prop := {
  tg_ok : evict_ok st';
  tg_dbs : Forall2 tombs_only (es_dbs st) (es_dbs st');
  tg_anns : exists anns, announced anns (es_world st) (es_world st') /\ covers anns (es_dbs st) (es_dbs st');
  tg_next_db : es_next_db st' = es_next_db st;
  tg_evicted : es_evicted st' = es_evicted st
}.

Lemma tombs_gone_trans a b c : tombs_gone a b -> tombs_gone b c -> tombs_gone a c.
Proof.
  intros [_ A2 (l1 & A3 & A4) A5 A6] [B1 B2 (l2 & B3 & B4) B5 B6]. split; [done|by etrans| |congruence|congruence].
  exists (l1 ++ l2). split; [by eapply announced_app|by eapply covers_trans].
Qed.

Lemma only_pool_gone st st' : only_pool st st' -> evict_ok st' -> tombs_gone st st'.
Proof.
  intros [E1 E2 E3 E4] Hok. split; [done|by rewrite E1| |done|done]. exists []. rewrite E2. split; [constructor|].
  intros i db db' k v H1 H2. rewrite E1 in H2. simplify_eq. congruence.
Qed.

Definition tombs_left (st : estate (object := object)) : nat := sum_list (map (fun db => size (deleted_keys db)) (es_dbs st)).

Lemma sum_insert {A} (f : A -> nat) (l : list A) i x y :
  l !! i = Some x -> (sum_list (map f (<[i := y]> l)) + f x = sum_list (map f l) + f y)%nat.
Proof.
  revert i. induction l as [|z l IH]; intros [|i] Hi; simplify_eq/=; [lia|]. specialize (IH i Hi). lia.
Qed.

Lemma db_good_drop_tomb db key : db_good db -> db_good (set_deleted_keys (delete key (deleted_keys db)) db).
Proof. intros [H1 H2 H3]. split; [done|done|]. by apply map_Forall_delete. Qed.

Lemma evictionTombstone_ok (i : nat) key db v vc st :
  evict_ok st -> es_dbs st !! i = Some db -> deleted_keys db !! key = Some v -> tomb_vc v = Some vc ->
  exists w', evictionTombstone (Z.of_nat i) key st = Ok (set_es_world w' st) /\ feed_tombstone (Z.of_nat i) key vc (es_world st) = Ok w' /\ world_good w'.
Proof.
  intros Hok Hdb Hv Hvc. destruct (dg_tombs db (ev_db _ _ _ Hok Hdb) key v Hv) as [Hkey (vc' & Hvc' & Hvcok)].
  rewrite Hvc in Hvc'. injection Hvc' as <-. destruct (tomb_vc_Some v vc Hvc) as (obj & m & E1 & E2 & ->).
  destruct (feed_tombstone_ok (Z.of_nat i) key _ (es_world st) (ev_world st Hok) Hkey Hvcok) as (w' & Hf & Hw).
  exists w'. split; [|done]. unfold evictionTombstone. rewrite get_db_at, Hdb. cbn [need mbind res_bind]. rewrite Hv. cbn [need mbind res_bind].
  rewrite E1. cbn [need mbind res_bind]. rewrite E2. cbn [need mbind res_bind]. unfold propagateGcTombstone. unfold feed_tombstone in Hf. rewrite Hf. done.
Qed.

Lemma evict_tombstone_spec (i : nat) key mem_freed db v st :
  evict_ok st -> es_dbs st !! i = Some db -> deleted_keys db !! key = Some v ->
  exists freed st', evict_tombstone orc (Z.of_nat i) key mem_freed st = Ok (freed, st') /\ tombs_gone st st' /\ S (tombs_left st') = tombs_left st.
Proof.
  intros Hok Hdb Hv. destruct (dg_tombs db (ev_db _ _ _ Hok Hdb) key v Hv) as [_ (vc & Hvc & _)].
  destruct (evictionTombstone_ok i key db v vc st Hok Hdb Hv Hvc) as (w' & Et & Hf & Hw).
  unfold evict_tombstone. rewrite Et. cbn [mbind res_bind zmalloc_used_memory]. rewrite get_db_at. cbn [es_dbs set_es_world]. rewrite Hdb.
  cbn [need mbind res_bind]. rewrite bool_decide_true by (by rewrite Hv). cbn [c_assert mbind res_bind]. eexists _, _. split; [done|].
  set (db' := set_deleted_keys (delete key (deleted_keys db)) db). pose proof (ev_db _ _ _ Hok Hdb) as Hg.
  assert (Forall2 tombs_only (es_dbs st) (<[i := db']> (es_dbs st))) as HF.
  { eapply Forall2_insert_refl; [apply _|exact Hdb|]. split; [done|]. split; [done|]. apply delete_subseteq. }
  split.
  - split; unfold put_db; simpl; rewrite ?Nat2Z.id; [|done| |done|done].
    + split; simpl; [|by destruct Hok|done]. apply Forall_insert; [apply Hok|by apply db_good_drop_tomb].
    + exists [(i, key, vc)]. split; [econstructor; [exact Hf|constructor]|].
      intros j db1 db2 k v' H1 H2 Hk Hn. destruct (decide (i = j)) as [<- |Hij].
      * rewrite list_lookup_insert_eq in H2 by (by eapply lookup_lt_Some). simplify_eq. simpl in Hn.
        destruct (decide (k = key)) as [-> |]; [|by rewrite lookup_delete_ne in Hn; congruence]. simplify_eq. exists vc. split; [done|left].
      * rewrite list_lookup_insert_ne in H2 by done. congruence.
  - unfold tombs_left, put_db. simpl. rewrite Nat2Z.id. pose proof (sum_insert (fun db => size (deleted_keys db)) (es_dbs st) i db db' Hdb) as Hs.
    simpl in Hs. rewrite map_size_delete_Some in Hs by (by rewrite Hv). assert (size (deleted_keys db) <> 0%nat); [|lia].
    intros E0%map_size_empty_inv. by rewrite E0, lookup_empty in Hv.
Qed.

Lemma present_at (keys_of : redisDb object -> gset bytes) st key dbid :
  present keys_of st (MkCand 0 key dbid) -> exists (i : nat) db, dbid = Z.of_nat i /\ es_dbs st !! i = Some db /\ key ∈ keys_of db.
Proof.
  intros (db & Hdb & Hkey). simpl in *. unfold get_db in Hdb. destruct (Z.ltb_spec dbid 0); [done|]. apply need_Ok in Hdb.
  exists (Z.to_nat dbid), db. split; [lia|done].
Qed.

Lemma no_tombs st : total_keys tombstone_keys (es_dbs (object := object) st) = 0 -> Forall (fun db => deleted_keys db = ∅) (es_dbs st).
Proof.
  unfold total_keys. intros E. assert (sum_list (map (fun db => size (tombstone_keys db)) (es_dbs st)) = 0)%nat as E0 by lia. clear E.
  induction (es_dbs st) as [|db dbs IH]; [done|]. simpl in E0. constructor; [|apply IH; lia].
  unfold tombstone_keys in E0. rewrite size_dom in E0. apply map_size_empty_inv. lia.
Qed.

Lemma tombs_left_only st st' : only_pool st st' -> tombs_left st' = tombs_left st.
Proof. intros [E _ _ _]. unfold tombs_left. by rewrite E. Qed.

(** The loop ends when enough is freed, or when no tombstone is left. *)

Lemma tombstone_loop_spec fuel mem_tofree mem_freed total st :
  evict_ok st -> (tombs_left st + gap + 2 <= fuel)%nat -> total <> 0 ->
  exists total' freed st', tombstone_loop orc fuel mem_tofree mem_freed total st = Ok (total', freed, st') /\ tombs_gone st st' /\
    ((freed <? mem_tofree) = false \/ total' = 0) /\ (total' = 0 -> Forall (fun db => deleted_keys db = ∅) (es_dbs st')).
Proof.
  revert mem_freed total st. induction fuel as [|fuel IH]; intros mem_freed total st Hok Hfuel Ht; [lia|]. cbn [tombstone_loop].
  rewrite (proj2 (Z.eqb_neq total 0)) by done. destruct (mem_freed <? mem_tofree) eqn:Em; cbn [andb negb].
  - destruct (pick_loop_spec tombstone_keys (evictionTombstonePoolPopulate orc) lucky_draw tombstones_populate gap (oo_lucky Horc) fuel true st Hok) as (t & best & st1 & -> & Ho & Hok1 & Hp); [lia|].
    cbn [mbind res_bind]. destruct best as [[dbid key]|].
    + destruct Hp as [Ht' Hp]. apply present_at in Hp as (i & db & -> & Hdb & Hkey). rewrite <- (op_dbs _ _ Ho) in Hdb.
      unfold tombstone_keys in Hkey. apply elem_of_dom in Hkey as [v Hv].
      destruct (evict_tombstone_spec i key mem_freed db v st1 Hok1 Hdb Hv) as (freed & st2 & -> & Hg & Hleft). cbn [mbind res_bind].
      rewrite (tombs_left_only _ _ Ho) in Hleft.
      destruct (IH freed t st2 (tg_ok _ _ Hg)) as (t' & fr & st3 & -> & Hg3 & R); [lia|done|]. eexists _, _, st3. split; [done|]. split; [|done].
      eapply tombs_gone_trans; [by apply only_pool_gone|]. by eapply tombs_gone_trans.
    + destruct Hp as [-> Hz]. destruct fuel as [|fuel]; [lia|]. cbn [tombstone_loop]. rewrite Em. cbn [andb negb].
      eexists _, _, st1. split; [done|]. split; [by apply only_pool_gone|]. split; [by right|]. intros _. rewrite (op_dbs _ _ Ho). by apply no_tombs.
  - eexists _, _, st. split; [done|]. split; [by apply only_pool_gone|]. split; [by left|done].
Qed.

(** ** The keys *)

(** The second phase: no tombstones before and after, keys go. *)

Record keys_gone (st st' : estate (object := object)) : Prop := {
  kg_ok : evict_ok st';
  kg_dbs : Forall2 keys_only (es_dbs st) (es_dbs st');
  kg_anns : exists anns, announced anns (es_world st) (es_world st');
  kg_events : exists evs, es_evicted st' = es_evicted st ++ evs /\
    forall (i : nat) key, (Z.of_nat i, key) ∈ evs <->
      exists db db', es_dbs st !! i = Some db /\ es_dbs st' !! i = Some db' /\ is_Some (dict db !! key) /\ dict db' !! key = None
}.

Lemma keys_gone_trans a b c : keys_gone a b -> keys_gone b c -> keys_gone a c.
Proof.
  intros [_ A2 (l1 & A3) (e1 & A4 & A5)] [B1 B2 (l2 & B3) (e2 & B4 & B5)]. split; [done|by etrans|exists (l1 ++ l2); by eapply announced_app|].
  exists (e1 ++ e2). split; [by rewrite B4, A4, app_assoc|]. intros i key. rewrite elem_of_app, A5, B5. split.
  - intros [(db1 & db2 & H1 & H2 & H3 & H4) | (db2 & db3 & H2 & H3 & [v Hv] & H5)].
    + destruct (Forall2_lookup_l _ _ _ _ _ B2 H2) as (db3 & H5 & Hsub & _). exists db1, db3. split; [done|]. split; [done|]. split; [done|].
      by eapply lookup_weaken_None.
    + destruct (Forall2_lookup_r _ _ _ _ _ A2 H2) as (db1 & H1 & Hsub & _). exists db1, db3. split; [done|]. split; [done|]. split; [|done].
      exists v. by eapply lookup_weaken.
  - intros (db1 & db3 & H1 & H3 & H4 & H5). destruct (Forall2_lookup_l _ _ _ _ _ A2 H1) as (db2 & H2 & _).
    destruct (dict db2 !! key) as [v|] eqn:E; [right; exists db2, db3|left; exists db1, db2]; by rewrite ?E.
Qed.

Lemma keys_gone_same st st' :
  evict_ok st' -> es_dbs st' = es_dbs st -> es_world st' = es_world st -> es_evicted st' = es_evicted st -> keys_gone st st'.
Proof.
  intros Hok E1 E2 E3. split; [done|by rewrite E1|exists []; rewrite E2; constructor|]. exists []. split; [by rewrite app_nil_r|].
  intros i key. rewrite E1. split; [intros Hin; by apply elem_of_nil in Hin|]. intros (db & db' & H1 & H2 & [v Hv] & Hn). simplify_eq. 
Qed.

Definition no_tombstones (st : estate (object := object)) : Prop := Forall (fun db => deleted_keys db = ∅) (es_dbs st).

Definition keys_left (st : estate (object := object)) : nat := sum_list (map (fun db => size (dict db)) (es_dbs st)).

(** What the module answers. *)

Lemma propagate_cases s db key val :
  db_good db -> dict db !! key = Some val ->
  exists o, crdtPropagateExpire (ec_current cfg) s (ec_now cfg) (ec_delay cfg) (ec_mk_ok cfg key) db key (-1) = Ok o /\
    match o with
    | None => ec_current cfg = OtherClient -> ec_mk_ok cfg key = false
    | Some db' => ec_current cfg <> PeerClient /\ exists tomb, tomb_ok tomb /\ db' = set_deleted_keys (<[key := tomb]> (deleted_keys db)) db
    end.
Proof.
  intros Hg Hval. destruct (dg_values db Hg key val Hval) as [_ (obj & m & last & E1 & E2 & E3 & Hdel)].
  assert (isModuleCrdt val = true) as Ec by (destruct (isModuleCrdt val) eqn:E; [done|]; apply retrieve_crdt in E; congruence).
  unfold crdtPropagateExpire. rewrite Hval, Ec, E1. cbn [need mbind res_bind]. rewrite E2. cbn [need mbind res_bind].
  destruct (Hdel (-1) (deleted_keys db)) as (tomb & Htomb & ->).
  destruct (ec_current cfg); [|by exists None|]; (destruct (ec_mk_ok cfg key); cbn [negb]; [|by exists None]).
  - unfold isNeedDelayExpire. rewrite E3. cbn [mbind res_bind]. destruct (_ && _); [by exists None|]. eexists. split; [done|]. split; [done|]. by exists tomb.
  - cbn [isNeedDelayExpire mbind res_bind andb]. eexists. split; [done|]. split; [done|]. by exists tomb.
Qed.

Lemma key_dropped (st st' : estate (object := object)) (i : nat) db db' key val :
  evict_ok st -> no_tombstones st -> es_dbs st !! i = Some db -> dict db !! key = Some val ->
  es_dbs st' = <[i := db']> (es_dbs st) ->
  (dict db' = delete key (dict db) /\ expires db' = delete key (expires db) /\ deleted_keys db' = ∅) ->
  (exists l, pool_rep (es_pool st') l) -> world_good (es_world st') -> (exists anns, announced anns (es_world st) (es_world st')) ->
  es_evicted st' = es_evicted st ++ [(Z.of_nat i, key)] -> es_next_db st' = es_next_db st ->
  keys_gone st st' /\ no_tombstones st' /\ S (keys_left st') = keys_left st /\ es_next_db st' = es_next_db st.
Proof.
  intros Hok Hnt Hdb Hval Edbs (D1 & D2 & D3) Hpool Hw Hann Hev Hnext. pose proof (lookup_lt_Some _ _ _ Hdb) as Hi.
  pose proof (ev_db _ _ _ Hok Hdb) as [G1 G2 G3]. unfold no_tombstones in *. rewrite Forall_lookup in Hnt.
  split; [|split; [|split; [|done]]].
  - split; [|rewrite Edbs|done|].
    + split; [|done|done]. rewrite Edbs. apply Forall_insert; [apply Hok|]. split; [|rewrite D1; by apply map_Forall_delete|rewrite D3; by intros k v].
      unfold db_ok in *. rewrite D1, D2. set_solver.
    + eapply Forall2_insert_refl; [apply _|exact Hdb|]. split; [rewrite D1; apply delete_subseteq|].
      split; [rewrite D2; apply delete_subseteq|]. by rewrite D3, (Hnt i db Hdb).
    + exists [(Z.of_nat i, key)]. split; [done|]. intros j k. rewrite list_elem_of_singleton, Edbs. split.
      * intros [= Ej ->]. apply Nat2Z.inj in Ej as ->. exists db, db'. split; [done|]. split; [by apply list_lookup_insert_eq|].
        split; [by rewrite Hval|]. by rewrite D1, lookup_delete_eq.
      * intros (d & d' & H1 & H2 & [v Hv] & Hn). destruct (decide (i = j)) as [<- |Hij].
        -- rewrite list_lookup_insert_eq in H2 by done. simplify_eq. destruct (decide (k = key)) as [-> |]; [done|].
           rewrite D1, lookup_delete_ne in Hn by done. congruence.
        -- rewrite list_lookup_insert_ne in H2 by done. simplify_eq.
  - apply Forall_lookup. rewrite Edbs. intros j d Hd. destruct (decide (i = j)) as [<- |Hij].
    + rewrite list_lookup_insert_eq in Hd by done. by simplify_eq.
    + rewrite list_lookup_insert_ne in Hd by done. by eapply Hnt.
  - unfold keys_left. rewrite Edbs. pose proof (sum_insert (fun db => size (dict db)) (es_dbs st) i db db' Hdb) as Hs. simpl in Hs.
    rewrite D1, map_size_delete_Some in Hs by (by rewrite Hval). assert (size (dict db) <> 0%nat); [|lia].
    intros E0%map_size_empty_inv. by rewrite E0, lookup_empty in Hval.
Qed.

Lemma evict_key_spec (i : nat) key mem_freed db st :
  evict_ok st -> no_tombstones st -> es_dbs st !! i = Some db -> is_Some (dict db !! key) ->
  exists o, evict_key cfg orc (Z.of_nat i) key mem_freed st = Ok o /\
    match o with
    | None => ec_current cfg = OtherClient -> ec_mk_ok cfg key = false
    | Some (freed, st') => ec_current cfg <> PeerClient /\ keys_gone st st' /\ no_tombstones st' /\ S (keys_left st') = keys_left st /\
        es_next_db st' = es_next_db st
    end.
Proof.
  intros Hok Hnt Hdb [val Hval]. pose proof (ev_db _ _ _ Hok Hdb) as Hg. unfold evict_key. rewrite get_db_at, Hdb. cbn [need mbind res_bind].
  destruct (propagate_cases (w_crdt (es_world st)) db key val Hg Hval) as (o & -> & Ho). cbn [mbind res_bind].
  destruct o as [db1|]; [|by exists None]. destruct Ho as [Hcur (tomb & Htomb & ->)].
  destruct (oo_propagate Horc (Z.of_nat i) key (es_world st) (ev_world st Hok)) as (w1 & Ew1 & Hw1). rewrite Ew1. cbn [mbind res_bind].
  assert (deleted_keys db = ∅) as Ed by (unfold no_tombstones in Hnt; rewrite Forall_lookup in Hnt; by apply (Hnt i)). rewrite Ed.
  set (db1 := set_deleted_keys (<[key := tomb]> ∅) db). set (st1 := set_es_world w1 (put_db (Z.of_nat i) db1 st)).
  assert (es_dbs st1 = <[i := db1]> (es_dbs st)) as Edbs by (unfold st1, put_db; simpl; by rewrite Nat2Z.id).
  pose proof (lookup_lt_Some _ _ _ Hdb) as Hi.
  assert (evict_ok st1) as Hok1.
  { split; [|by destruct Hok|done]. rewrite Edbs. apply Forall_insert; [apply Hok|]. destruct Hg as [G1 G2 G3]. split; [done|done|]. simpl.
    apply map_Forall_insert_2; [|done]. split; [|done]. by destruct (G2 key val Hval). }
  assert (es_dbs st1 !! i = Some db1) as Hdb1 by (rewrite Edbs; by apply list_lookup_insert_eq).
  destruct Htomb as (vc & Hvc & Hvcok).
  destruct (evictionTombstone_ok i key db1 tomb vc st1 Hok1 Hdb1) as (w2 & -> & Hf & Hw2); [apply lookup_insert_eq|done|]. cbn [mbind res_bind].
  rewrite get_db_at. cbn [es_dbs set_es_world]. change (es_dbs st1) with (es_dbs (set_es_world w1 (put_db (Z.of_nat i) db1 st))) in *.
  rewrite Hdb1. cbn [need mbind res_bind]. change (deleted_keys db1) with (<[key := tomb]> (∅ : gmap bytes (dbval object))).
  rewrite map_size_insert_None by apply lookup_empty. rewrite map_size_empty. cbn [Nat.eqb c_assert mbind res_bind zmalloc_used_memory].
  set (db2 := dbDelete _ key). assert (dict db2 = delete key (dict db) /\ expires db2 = delete key (expires db) /\ deleted_keys db2 = ∅) as (D1 & D2 & D3).
  { unfold db2, dbDelete, dbSyncDelete. simpl. rewrite Hval. simpl. rewrite delete_insert_id by apply lookup_empty. done. }
  eexists. split; [reflexivity|]. cbv beta iota. split; [done|].
  match goal with |- keys_gone st ?s /\ _ => set (st' := s) end.
  assert (es_dbs st' = <[i := db2]> (es_dbs st)) as Edbs'.
  { unfold st', put_db, count_tombstone, send_evicted. simpl. rewrite Nat2Z.id, list_insert_insert_eq. done. }
  apply (key_dropped st st' i db db2 key val); [done|done|done|done|done|done|by destruct Hok|done| |done|done].
  exists [(i, key, vc)]. eapply announced_module; [exact Ew1|]. econstructor; [exact Hf|constructor].
Qed.

(** Everything but the pool, the draws and the place of the random choice. *)

Record chosen_from (st st' : estate (object := object)) : Prop := {
  cf_ok : evict_ok st';
  cf_dbs : es_dbs st' = es_dbs st;
  cf_world : es_world st' = es_world st;
  cf_evicted : es_evicted st' = es_evicted st;
  cf_next_db : es_next_db st <= es_next_db st' <= es_next_db st + Z.of_nat (length (es_dbs st))
}.

Lemma chosen_gone st st' : chosen_from st st' -> keys_gone st st'.
Proof. intros [H1 H2 H3 H4 _]. by apply keys_gone_same. Qed.

(** A key that was chosen exists. *)

Definition choice_ok (st : estate (object := object)) (best : option (Z * bytes)) : Prop :=
  match best with
  | None => True
  | Some (dbid, key) => exists (i : nat) db, dbid = Z.of_nat i /\ es_dbs st !! i = Some db /\ is_Some (dict db !! key)
  end.

Lemma pick_random_spec n st :
  evict_ok st -> es_dbs st <> [] -> 0 <= es_next_db st -> es_next_db st + Z.of_nat n < 2 ^ 31 ->
  exists best st', pick_random cfg orc n (Z.of_nat (length (es_dbs st))) st = Ok (best, st') /\ choice_ok st best /\
    evict_ok st' /\ es_dbs st' = es_dbs st /\ es_world st' = es_world st /\ es_evicted st' = es_evicted st /\
    es_next_db st <= es_next_db st' <= es_next_db st + Z.of_nat n.
Proof.
  revert st. induction n as [|n IH]; intros st Hok Hne H0 Hb; cbn [pick_random].
  - eexists _, st. split; [done|]. split; [done|]. split; [done|]. repeat split; try done; lia.
  - rewrite (proj2 (Z.eqb_neq (es_next_db st) _)) by lia. set (st1 := set_es_next_db (es_next_db st + 1) st).
    assert (0 < Z.of_nat (length (es_dbs st))) as Hlen by (destruct (es_dbs st); [done|simpl; lia]).
    rewrite (proj2 (Z.eqb_neq (Z.of_nat (length (es_dbs st))) 0)) by lia.
    assert (exists j : nat, Z.rem (es_next_db st1) (Z.of_nat (length (es_dbs st))) = Z.of_nat j /\ (j < length (es_dbs st))%nat) as (j & Ej & Hj).
    { exists (Z.to_nat (Z.rem (es_next_db st1) (Z.of_nat (length (es_dbs st))))).
      pose proof (Z.rem_bound_pos (es_next_db st1) (Z.of_nat (length (es_dbs st)))). simpl in *. lia. }
    rewrite Ej, get_db_at. destruct (lookup_lt_is_Some_2 _ _ Hj) as [db Hdb]. change (es_dbs st1) with (es_dbs st). rewrite Hdb. cbn [need mbind res_bind].
    assert (evict_ok st1) as Hok1 by (by destruct Hok; split).
    set (keys := if ec_policy cfg =? MAXMEMORY_ALLKEYS_RANDOM then dom (dict db) else dom (expires db)).
    destruct (decide (keys = ∅)) as [Ek | Ek].
    + rewrite bool_decide_true by done. destruct (IH st1 Hok1 Hne) as (best & st' & E & Hc & Hok' & H1 & H2 & H3 & H4); [simpl; lia|simpl; lia|].
      exists best, st'. simpl in *. split; [exact E|]. split; [exact Hc|]. split; [done|]. split; [done|]. split; [done|]. split; [done|]. lia.
    + rewrite bool_decide_false by done. eexists _, _. split; [reflexivity|].
      split; [|split; [by destruct Hok; split|]; split; [done|]; split; [done|]; split; [done|]; simpl; lia].
      exists j, db. split; [done|]. split; [done|]. apply elem_of_dom. pose proof (oo_random Horc (es_draws st) keys Ek) as Hin. unfold keys in Hin at 2.
      pose proof (ev_db _ _ _ Hok Hdb) as [Hdbok _ _]. destruct (_ =? _); [exact Hin|]. by apply Hdbok.
Qed.

Lemma pick_key_spec fuel st :
  evict_ok st -> (gap + 1 <= fuel)%nat -> es_dbs st <> [] -> 0 <= es_next_db st -> es_next_db st + Z.of_nat (length (es_dbs st)) < 2 ^ 31 ->
  exists best st', pick_key cfg orc fuel st = Ok (best, st') /\ choice_ok st best /\ chosen_from st st'.
Proof.
  intros Hok Hfuel Hne H0 Hb. unfold pick_key. destruct (uses_pool (ec_policy cfg)) eqn:Hu.
  - destruct (pick_loop_spec (sample_keys cfg) (evictionPoolPopulate cfg orc) lucky_draw (keys_populate Hu) gap (oo_lucky Horc) fuel false st Hok Hfuel)
      as (t & best & st' & -> & [Ho1 Ho2 Ho3 Ho4] & Hok' & Hp). cbn [mbind res_bind].
    exists best, st'. split; [done|]. split; [|by split; [done..|lia]]. destruct best as [[dbid key]|]; [|done]. destruct Hp as [_ Hp].
    apply present_at in Hp as (i & db & -> & Hdb & Hkey). exists i, db. split; [done|]. split; [done|].
    apply elem_of_dom. exact (sample_keys_dict db (ev_db st i db Hok Hdb) key Hkey).
  - destruct (_ || _).
    + destruct (pick_random_spec (length (es_dbs st)) st Hok Hne H0 Hb) as (best & st' & E & Hc & Hok' & H1 & H2 & H3 & H4).
      exists best, st'. split; [exact E|]. split; [done|]. by split.
    + exists None, st. split; [done|]. split; [done|]. split; [done..|lia].
Qed.

(** The second loop. *)

Lemma key_loop_spec fuel mem_tofree mem_freed st :
  evict_ok st -> no_tombstones st -> (keys_left st + gap + 2 <= fuel)%nat -> es_dbs st <> [] -> 0 <= es_next_db st ->
  es_next_db st + Z.of_nat (length (es_dbs st)) * (Z.of_nat (keys_left st) + 1) < 2 ^ 31 ->
  exists ok st', key_loop cfg orc fuel mem_tofree mem_freed st = Ok (ok, st') /\ keys_gone st st' /\ no_tombstones st' /\
    (ec_current cfg = PeerClient -> es_dbs st' = es_dbs st).
Proof.
  revert mem_freed st. induction fuel as [|fuel IH]; intros mem_freed st Hok Hnt Hfuel Hne H0 Hb; [lia|]. cbn [key_loop].
  destruct (mem_freed <? mem_tofree); [|exists true, st; split; [done|]; split; [by apply keys_gone_same|done]].
  destruct (pick_key_spec fuel st Hok) as (best & st1 & -> & Hc & Hcf); [lia|done|done|nia|]. cbn [mbind res_bind].
  pose proof (chosen_gone _ _ Hcf) as Hg1. destruct Hcf as [Hok1 Ed Ew Ee Hn].
  assert (no_tombstones st1) as Hnt1 by (unfold no_tombstones; by rewrite Ed).
  destruct best as [[dbid key]|]; [|by exists false, st1]. destruct Hc as (i & db & -> & Hdb & Hkey). rewrite <- Ed in Hdb.
  destruct (evict_key_spec i key mem_freed db st1 Hok1 Hnt1 Hdb Hkey) as (o & -> & Ho). cbn [mbind res_bind].
  destruct o as [[freed st2]|]; [|by exists false, st1]. destruct Ho as (Hcur & Hg2 & Hnt2 & Hleft & Hnext).
  assert (keys_left st1 = keys_left st) as El by (unfold keys_left; by rewrite Ed).
  assert (length (es_dbs st2) = length (es_dbs st)) as Elen.
  { rewrite <- Ed. symmetry. exact (Forall2_length _ _ _ (kg_dbs _ _ Hg2)). }
  destruct (IH freed st2 (kg_ok _ _ Hg2) Hnt2) as (ok & st3 & E & Hg3 & Hnt3 & Hp).
  - lia.
  - intros E0. rewrite E0 in Elen. by destruct (es_dbs st).
  - lia.
  - rewrite Elen, Hnext. nia.
  - exists ok, st3. split; [done|]. split; [|done]. eapply keys_gone_trans; [exact Hg1|]. by eapply keys_gone_trans.
Qed.

(** ** The two phases together *)

Definition shrinks (db db' : redisDb object) : Prop :=
  dict db' ⊆ dict db /\ expires db' ⊆ expires db /\ deleted_keys db' ⊆ deleted_keys db.

Lemma phases_shrink d1 d2 d3 : Forall2 tombs_only d1 d2 -> Forall2 keys_only d2 d3 -> Forall2 shrinks d1 d3.
Proof.
  intros HF1. revert d3. induction HF1 as [|a b l1 l2 (E1 & E2 & S1) HF1 IH]; intros d3 HF2; inversion HF2 as [|? c ? l3 (S2 & S3 & E3)]; subst; constructor; [|by apply IH].
  split; [by rewrite <- E1|]. split; [by rewrite <- E2|]. by rewrite E3.
Qed.

Lemma covers_keys anns d1 d2 d3 : covers anns d1 d2 -> Forall2 keys_only d2 d3 -> covers anns d1 d3.
Proof.
  intros Hc HF i db1 db3 k v H1 H3 Hk Hn. destruct (Forall2_lookup_r _ _ _ _ _ HF H3) as (db2 & H2 & _ & _ & E).
  eapply Hc; [done|done|done|]. by rewrite <- E.
Qed.

Lemma tombs_dicts d1 d2 : Forall2 tombs_only d1 d2 -> map dict d2 = map dict d1.
Proof. induction 1 as [|a b l1 l2 (E & _) _ IH]; simpl; congruence. Qed.

(** The events of the second phase are those of both. *)

Lemma gone_from (evs : list (Z * bytes)) (d1 d2 d3 : list (redisDb object)) :
  Forall2 tombs_only d1 d2 ->
  (forall (i : nat) key, (Z.of_nat i, key) ∈ evs <->
     exists db db', d2 !! i = Some db /\ d3 !! i = Some db' /\ is_Some (dict db !! key) /\ dict db' !! key = None) ->
  forall (i : nat) key, (Z.of_nat i, key) ∈ evs <->
     exists db db', d1 !! i = Some db /\ d3 !! i = Some db' /\ is_Some (dict db !! key) /\ dict db' !! key = None.
Proof.
  intros HF Hev i key. rewrite Hev. split; intros (db & db' & H1 & H2 & R).
  - destruct (Forall2_lookup_r _ _ _ _ _ HF H1) as (db0 & H0 & E & _). exists db0, db'. by rewrite <- E.
  - destruct (Forall2_lookup_l _ _ _ _ _ HF H1) as (db0 & H0 & E & _). exists db0, db'. by rewrite E.
Qed.

(** What the call leaves; [quiet] if no key may go. *)

Record freed_safely (st st' : estate (object := object)) : Prop := {
  fs_ok : evict_ok st';
  fs_dbs : Forall2 shrinks (es_dbs st) (es_dbs st');
  fs_order : map dict (es_dbs st') <> map dict (es_dbs st) -> no_tombstones st';
  fs_announced : exists anns, announced anns (es_world st) (es_world st') /\ covers anns (es_dbs st) (es_dbs st');
  fs_events : exists evs, es_evicted st' = es_evicted st ++ evs /\ forall (i : nat) key, (Z.of_nat i, key) ∈ evs <->
    exists db db', es_dbs st !! i = Some db /\ es_dbs st' !! i = Some db' /\ is_Some (dict db !! key) /\ dict db' !! key = None
}.

Lemma phases_safe a b c : tombs_gone a b -> keys_gone b c -> (map dict (es_dbs c) <> map dict (es_dbs b) -> no_tombstones c) -> freed_safely a c.
Proof.
  intros [_ A2 (l1 & A3 & A4) A5 A6] [B1 B2 (l2 & B3) (evs & B4 & B5)] Hn. split; [done|by eapply phases_shrink| | |].
  - by rewrite <- (tombs_dicts _ _ A2).
  - exists (l1 ++ l2). split; [by eapply announced_app|]. intros i db db' k v H1 H2 Hk Hg.
    destruct (covers_keys l1 _ _ _ A4 B2 i db db' k v H1 H2 Hk Hg) as (vc & Hvc & Hin). exists vc. split; [done|]. apply elem_of_app. by left.
  - exists evs. split; [by rewrite B4, A6|]. by eapply gone_from.
Qed.

Lemma tombs_gone_same st st' :
  evict_ok st' -> es_dbs st' = es_dbs st -> es_world st' = es_world st -> es_next_db st' = es_next_db st -> es_evicted st' = es_evicted st -> tombs_gone st st'.
Proof. intros Hok E1 E2 E3 E4. apply only_pool_gone; [by split|done]. Qed.

Lemma untouched st st' : tombs_gone st st' -> freed_safely st st'.
Proof. intros Hg. eapply phases_safe; [exact Hg|apply keys_gone_same; [apply Hg|done..]|done]. Qed.

Lemma keys_left_gone st st' : tombs_gone st st' -> keys_left st' = keys_left st.
Proof.
  intros Hg. unfold keys_left. pose proof (tombs_dicts _ _ (tg_dbs _ _ Hg)) as E.
  assert (forall l : list (redisDb object), map (fun db => size (dict db)) l = map size (map dict l)) as Em by (intros l; by rewrite map_map).
  by rewrite !Em, E.
Qed.

End eviction.

(** What is announced is understood: the receiver drops its tombstone exactly if
    its methods find it covered by the clock. *)

Lemma eviction_received {object : Type} `{CrdtModule object} (db : redisDb object) key own vc :
  0 <= own < 2 ^ 63 -> vc_ok vc ->
  evictionTombstoneCommand db [str "CRDT.EVICTIONTOMBSTONE"; key; print_Z own; vectorClockToSds vc] =
    match deleted_keys db !! key with
    | None => Ok (Some 0, db)
    | Some val =>
        obj ← need (retrieveObject val);
        m ← need (getCrdtTombstoneMethod obj);
        if tm_gc m obj vc then Ok (Some 1, set_deleted_keys (delete key (deleted_keys db)) db) else Ok (Some 2, db)
    end.
Proof.
  intros Hown Hvc. unfold evictionTombstoneCommand. cbn [lookup list_lookup need mbind res_bind].
  rewrite string2ll_print by (unfold LLONG_MIN, LLONG_MAX; lia). destruct (clock_text vc Hvc) as [-> _]. done.
Qed.

(** ** Claims *)

(** C17: memory is freed safely.  For any readings of the allocator, any samples of
    the keys and any policy, [freeMemoryIfNeeded] ends, if of any [gap] samples in
    a row one is not empty; no assertion fails, and nothing is read or written
    outside the pool or the databases.  It only takes away: values, expire times
    and tombstones that remain are as they were.  No key goes while there is a
    tombstone in any database, and no tombstone is left behind for an evicted key.
    Every tombstone that goes was announced to the slaves and the peers with its
    clock, and the evicted keys are exactly those an event was sent for.  If the
    policy is not to evict, or the command is one of a peer, no key goes.  (A sample
    can be empty although the dictionary is not: [dictGetSomeKeys] gives up after
    ten buckets for each key it is asked for.  While every sample is empty the loop
    goes on.)  The module is assumed to write the tombstone of the key it deletes,
    and the counter of the random policies to be small enough not to overflow. *)
Theorem freeMemoryIfNeeded_safe {object : Type} `{CrdtModule object} (cfg : evict_config) (orc : evict_oracle)
    (gap fuel : nat) (st : estate) (Horc : oracle_ok orc gap) (Hok : evict_ok st) (Hdbs : es_dbs st <> []) (Hnext : 0 <= es_next_db st)
    (Hroom : es_next_db st + Z.of_nat (length (es_dbs st)) * (Z.of_nat (keys_left st) + 1) < 2 ^ 31)
    (Hfuel : (tombs_left st + keys_left st + gap + 2 <= fuel)%nat) :
  exists ok st', freeMemoryIfNeeded cfg orc fuel st = Ok (ok, st') /\ freed_safely orc st st' /\
    (ok = false -> ec_policy cfg = MAXMEMORY_NO_EVICTION \/ no_tombstones st') /\
    (ec_policy cfg = MAXMEMORY_NO_EVICTION \/ ec_current cfg = PeerClient -> map dict (es_dbs st') = map dict (es_dbs st)).
Proof.
  unfold freeMemoryIfNeeded. assert (tombs_gone orc st st) as Hrefl by (by apply tombs_gone_same).
  destruct (ec_paused cfg); [exists true, st; split; [done|]; split; [by apply untouched|done]|]. cbn [zmalloc_used_memory].
  set (st0 := MkEs _ _ _ _ (S _) _ _ _). assert (tombs_gone orc st st0) as Hg0 by (apply tombs_gone_same; [by destruct Hok; split|done..]).
  destruct (_ <=? _); [exists true, st0; split; [done|]; split; [by apply untouched|done]|]. cbv zeta.
  destruct (_ <=? _); [exists true, st0; split; [done|]; split; [by apply untouched|done]|].
  destruct (Z.eqb_spec (ec_policy cfg) MAXMEMORY_NO_EVICTION) as [Ep | Ep].
  { exists false, st0. split; [done|]. split; [by apply untouched|]. split; [by left|done]. }
  set (tofree := _ - ec_maxmemory cfg).
  destruct (tombstone_loop_spec orc gap Horc fuel tofree 0 (2 ^ 64 - 1) st0 (tg_ok _ _ _ Hg0)) as (total & freed & st1 & -> & Hg1 & Hstop & Hnone);
    [change (tombs_left st0) with (tombs_left st); lia|done|]. cbn [mbind res_bind].
  pose proof (tombs_gone_trans orc _ _ _ Hg0 Hg1) as Hg. destruct (Z.eqb_spec total 0) as [-> | Ht]; cbn [andb].
  - destruct (freed <? tofree); [|exists true, st1; split; [done|]; split; [by apply untouched|]; split; [done|]; intros _; apply tombs_dicts, Hg].
    pose proof (Forall2_length _ _ _ (tg_dbs _ _ _ Hg)) as El. pose proof (keys_left_gone orc _ _ Hg) as Ek. pose proof (tg_next_db _ _ _ Hg) as En.
    destruct (key_loop_spec cfg orc gap Horc fuel tofree freed st1 (tg_ok _ _ _ Hg) (Hnone eq_refl)) as (ok & st2 & -> & Hkg & Hnt & Hpeer).
    + rewrite Ek. lia.
    + intros E. rewrite E in El. by destruct (es_dbs st).
    + lia.
    + rewrite Ek, En, <- El. done.
    + exists ok, st2. split; [done|]. split; [by eapply phases_safe|]. split; [by right|]. intros [?|Hp]; [done|]. rewrite Hpeer by done. apply tombs_dicts, Hg.
  - exists true, st1. split; [done|]. split; [by apply untouched|]. split; [done|]. intros _. apply tombs_dicts, Hg.
Qed.

(** A database with a tombstone and two keys; every other sample is empty. *)

Definition example_evict : estate (object := Z) :=
  MkEs [MkDb {[ str "a" := number 5; str "b" := number 6 ]} {[ str "a" := 1000 ]} {[ str "t" := number 3 ]}]
    evictionPoolAlloc example_world 0 0 0 0 [].

Definition example_config (policy : Z) (r : running) : evict_config :=
  MkEc false 10 policy 100 3 1 (fun _ _ => 50) false r 2000 0 (fun _ => true).

Definition example_memory : evict_oracle :=
  MkEo (fun n => 100 - Z.of_nat n) (fun _ => 0) (fun n X => if Nat.even n then [] else elements X) (fun _ X => hd [] (elements X)) (fun _ _ w => Ok w).

Lemma example_memory_ok : oracle_ok example_memory 2.
Proof.
  split; simpl.
  - intros n X. destruct (Nat.even n); [constructor|]. apply Forall_forall. intros k. apply elem_of_elements.
  - intros n. assert (exists m, (n <= m < n + 2)%nat /\ Nat.even m = false) as (m & Hm & He).
    { destruct (Nat.even n) eqn:E; [exists (S n)|by exists n; split; [lia|]]. split; [lia|]. by rewrite Nat.even_succ, <- Nat.negb_even, E. }
    exists m. split; [done|]. intros X Hne. simpl. rewrite He. by intros E%elements_empty_inv%leibniz_equiv.
  - intros n X Hne. destruct (elements X) as [|k l] eqn:E; [by apply elements_empty_inv, leibniz_equiv in E|]. simpl. apply elem_of_elements. rewrite E. left.
  - intros dbid key w Hw. by exists w.
Qed.

Lemma number_tomb_ok n : 0 <= n < 2 ^ 50 -> @tomb_ok Z number_module (number n).
Proof.
  intros Hn. exists [Clk 2 n]. split; [done|]. split; [|apply NoDup_singleton].
  constructor; [|done]. unfold unit_ok. simpl. lia.
Qed.

Lemma number_value_ok key n : 0 <= n < 2 ^ 50 -> @value_ok Z number_module key (number n).
Proof. intros Hn. eexists n, _, _. split; [done|]. split; [done|]. split; [done|]. intros t del. exists (number n). split; [by apply number_tomb_ok|done]. Qed.

Lemma example_evict_ok : @evict_ok Z number_module example_evict.
Proof.
  split; [|exists []; apply evictionPoolAlloc_rep|split; [apply example_world_ok|decide_now|done]].
  constructor; [|done]. split; [unfold db_ok; decide_now| |].
  - cbn [dict]. apply map_Forall_insert_2; [|apply map_Forall_singleton]; (split; [decide_now|by apply number_value_ok]).
  - cbn [deleted_keys]. apply map_Forall_singleton. split; [decide_now|by apply number_tomb_ok].
Qed.

(** A peer's command frees the tombstone and no key; one of another client frees
    everything and fails. *)

Definition left_over (r : res (bool * estate (object := Z))) : option (bool * list (nat * nat * nat)) :=
  match r with
  | Ok (ok, st) => Some (ok, map (fun db => (size (dict db), size (expires db), size (deleted_keys db))) (es_dbs st))
  | _ => None
  end.

Lemma freeMemoryIfNeeded_safe_witness :
  (exists ok st', @freeMemoryIfNeeded Z number_module (example_config MAXMEMORY_ALLKEYS_LRU PeerClient) example_memory 20 example_evict = Ok (ok, st') /\
     map dict (es_dbs st') = map dict (es_dbs example_evict)) /\
  left_over (@freeMemoryIfNeeded Z number_module (example_config MAXMEMORY_ALLKEYS_LRU PeerClient) example_memory 20 example_evict) = Some (false, [(2, 1, 0)]%nat) /\
  left_over (@freeMemoryIfNeeded Z number_module (example_config MAXMEMORY_ALLKEYS_LRU OtherClient) example_memory 20 example_evict) = Some (false, [(0, 0, 0)]%nat).
Proof.
  split; [|split; vm_compute; reflexivity].
  destruct (@freeMemoryIfNeeded_safe Z number_module (example_config MAXMEMORY_ALLKEYS_LRU PeerClient) example_memory 2 20 example_evict
    example_memory_ok example_evict_ok) as (ok & st' & E & _ & _ & Hp); [done|done|vm_compute; reflexivity|vm_compute; lia|].
  exists ok, st'. split; [exact E|]. apply Hp. by right.
Defined.
