(* ===== verification/Psync.v ===== *)
(** * Serving slaves and peers ([src/src/replication.c])

    The master side of a synchronization: REPLCONF, PSYNC and CRDT.PSYNC, the
    decision between a partial and a full resynchronization, and the start of
    the background save for the slaves that wait for one.  [srv] selects
    [&server] or [&crdtServer].  The number of good slaves, the scripts cache
    and the log are left out; what the system answers (writes, forks, a random
    id) is a parameter. *)

From S2P Require Import Prelude Util Sds VectorClock VcTheory VcText VcClaims Proxy CrdtServer Backlog Resp World Feed.

(** ** Replies *)

Definition reply_error (msg : bytes) (c : slave) : slave :=
  queue (str "-ERR " ++ msg ++ CRLF) c.

Definition reply_ok (c : slave) : slave := queue (str "+OK" ++ CRLF) c.

(** ** Replication ids *)

Definition CONFIG_RUN_ID_SIZE : nat := 40.

(** [newid] is what [getRandomHexChars] writes. *)

Definition changeReplicationId (i : srv) (newid : bytes) (w : world) : world :=
  match i with
  | SERVER => set_w_server (set_replid newid (w_server w)) w
  | CRDT => set_w_peers (set_replid (replid (w_server w)) (w_peers w)) w
  end.

Definition clearReplicationId2 (i : srv) (w : world) : world :=
  set_srv i (set_second_replid_offset (-1) (set_replid2 (replicate CONFIG_RUN_ID_SIZE 48) (get_srv i w))) w.

Definition shiftReplicationId (i : srv) (newid : bytes) (w : world) : world :=
  let s := set_replid2 (replid (get_srv i w)) (get_srv i w) in
  let s := set_second_replid_offset (master_repl_offset s + 1) s in
  changeReplicationId i newid (set_srv i s w).

(** ** A full resynchronization *)

Definition getPsyncInitialOffset (s : replServer) : Z := master_repl_offset s.

(** [write_ok]: the direct write to the socket of the slave succeeds. *)

Definition replicationSetupSlaveForFullResync (write_ok : bool) (c : slave) (offset : Z) (s : replServer)
  : bool * slave * replServer :=
  let c := set_sl_psync_initial_offset offset c in
  let c := set_sl_replstate SLAVE_STATE_WAIT_BGSAVE_END c in
  let s := set_slaveseldb (-1) s in
  if negb (sl_flag_pre_psync c) then
    if negb write_ok then (false, set_sl_close_asap true c, s)
    else (true, set_sl_wire (sl_wire c ++ str "+FULLRESYNC " ++ replid s ++ str " " ++ print_Z offset ++ CRLF) c, s)
  else (true, c, s).

(** The loop that sets up every slave that waits for the save to start. *)

Definition setup_waiting (write_ok : Z -> bool) (s : replServer) : replServer :=
  let step := fun '(done, s) c =>
    if sl_replstate c =? SLAVE_STATE_WAIT_BGSAVE_START then
      let '(_, c, s) := replicationSetupSlaveForFullResync (write_ok (sl_id c)) c (getPsyncInitialOffset s) s in
      (done ++ [c], s)
    else (done ++ [c], s) in
  let '(done, s) := foldl step ([], s) (slaves s) in
  set_slaves done s.

(** The cleanup when no save could be started: the waiting slaves leave the
    list, are told, and are closed. *)

Definition drop_waiting (i : srv) (s : replServer) : replServer * list slave :=
  let waiting c := sl_replstate c =? SLAVE_STATE_WAIT_BGSAVE_START in
  let close c :=
    let c := match i with
             | SERVER => set_sl_flag_slave false c
             | CRDT => set_sl_flag_crdt_slave false c
             end in
    set_sl_close_after_reply true (reply_error (str "BGSAVE failed, replication can't continue") c) in
  (set_slaves (List.filter (fun c => negb (waiting c)) (slaves s)) s,
   map close (List.filter waiting (slaves s))).

(** [rdbSaveToSlavesSockets] in the parent: whether a child is running, whether
    the pipe and the fork succeed. *)

Inductive save_outcome := ChildBusy | PipeFailed | ForkFailed | SaveStarted.

Definition rdbSaveToSlavesSockets (write_ok : Z -> bool) (outcome : save_outcome) (s : replServer)
  : bool * replServer :=
  match outcome with
  | ChildBusy | PipeFailed => (false, s)
  | ForkFailed =>
      let clientids := map sl_id (List.filter (fun c => sl_replstate c =? SLAVE_STATE_WAIT_BGSAVE_START) (slaves s)) in
      let s := setup_waiting write_ok s in
      let undo c := if bool_decide (sl_id c ∈ clientids) then set_sl_replstate SLAVE_STATE_WAIT_BGSAVE_START c else c in
      (false, set_slaves (map undo (slaves s)) s)
  | SaveStarted => (true, setup_waiting write_ok s)
  end.

(** [startCrdtBgsaveForReplication] and [startCrdtBgsaveForReplication2] differ
    only in what they tell the child to save. *)

Definition startCrdtBgsaveForReplication (write_ok : Z -> bool) (outcome : save_outcome) (s : replServer)
  : bool * replServer * list slave :=
  let '(retval, s) := match repl_backlog s with
                      | Some _ => rdbSaveToSlavesSockets write_ok outcome s
                      | None => (false, s)
                      end in
  if negb retval then let '(s, dropped) := drop_waiting CRDT s in (false, s, dropped)
  else (true, s, []).

(** With the disk as target, the only one [refullSyncWithSlaves] starts.
    [save_ok]: the replication information is there and
    [rdbSaveBackground] starts its child. *)

Definition startBgsaveForReplication (write_ok : Z -> bool) (save_ok : bool) (s : replServer)
  : bool * replServer * list slave :=
  if negb save_ok then let '(s, dropped) := drop_waiting SERVER s in (false, s, dropped)
  else (true, setup_waiting write_ok s, []).

Inductive rdb_child := RDB_CHILD_TYPE_DISK | RDB_CHILD_TYPE_SOCKET.

(** What [refullSyncWithSlaves] asks the system and the configuration. *)

Record sync_env := MkEnv {
  e_child : option rdb_child;
  e_diskless : bool;
  e_aof_child : bool;
  e_save_ok : bool;
  e_write_ok : Z -> bool;
  e_newid : bytes
}.

Definition find_bgsave_end (l : list slave) : option slave :=
  List.find (fun c => sl_replstate c =? SLAVE_STATE_WAIT_BGSAVE_END) l.

(** The backlog part: created on the first slave, with a new history. *)

Definition ensure_backlog (i : srv) (e : sync_env) (w : world) : res world :=
  if (Z.of_nat (length (slaves (w_peers w))) + Z.of_nat (length (slaves (w_server w))) =? 1)
     && bool_decide (repl_backlog (w_server w) = None) && bool_decide (repl_backlog (w_peers w) = None) then
    let w := changeReplicationId SERVER (e_newid e) w in
    let w := changeReplicationId CRDT (e_newid e) w in
    let w := clearReplicationId2 SERVER w in
    let w := clearReplicationId2 CRDT w in
    createReplicationBacklog w
  else if bool_decide (repl_backlog (get_srv i w) = None) then createReplicationBacklog w
  else Ok w.

Definition set_flag (i : srv) (c : slave) : slave :=
  match i with
  | SERVER => set_sl_flag_slave true c
  | CRDT => set_sl_flag_crdt_slave true c
  end.

(** The clients that leave the list of slaves are returned beside the world. *)

Definition refullSyncWithSlaves (i : srv) (e : sync_env) (c : slave) (w : world)
  : res (world * list slave) :=
  let s := get_srv i w in
  let s := set_stat_sync_full (stat_sync_full s + 1) s in
  let s := if bool_decide (i = CRDT) && has_capa c SLAVE_CAPA_BACKSTREAM
           then set_stat_sync_backstream (stat_sync_backstream s + 1) s else s in
  let c := set_flag i (set_sl_replstate SLAVE_STATE_WAIT_BGSAVE_START c) in
  let before := slaves s in
  let w := set_srv i (set_slaves (before ++ [c]) s) w in
  w ← ensure_backlog i e w;
  match e_child e with
  | Some RDB_CHILD_TYPE_DISK =>
      match find_bgsave_end (before ++ [c]) with
      | Some sl =>
          if Z.land (sl_capa c) (sl_capa sl) =? sl_capa sl then
            let c := set_sl_output (sl_output sl) c in
            let '(_, c, s) := replicationSetupSlaveForFullResync (e_write_ok e (sl_id c)) c
                                (sl_psync_initial_offset sl) (w_server w) in
            let w := set_w_server s w in
            Ok (set_srv i (set_slaves (before ++ [c]) (get_srv i w)) w, [])
          else Ok (w, [])
      | None => Ok (w, [])
      end
  | Some RDB_CHILD_TYPE_SOCKET => Ok (w, [])
  | None =>
      if e_diskless e && has_capa c SLAVE_CAPA_EOF then Ok (w, [])
      else if negb (e_aof_child e) && bool_decide (i = SERVER) then
        let '(_, s, dropped) := startBgsaveForReplication (e_write_ok e) (e_save_ok e) (w_server w) in
        Ok (set_w_server s w, dropped)
      else Ok (w, [])
  end.

(** ** A partial resynchronization *)

(** The test on the ids: [replid] at any offset, [replid2] up to its own. *)

Definition id_accepted (s : replServer) (master_replid : bytes) (psync_offset : Z) : bool :=
  strcaseeq (cstr master_replid) (replid s) ||
  (strcaseeq (cstr master_replid) (replid2 s) && (psync_offset <=? second_replid_offset s)).

Definition offset_covered (s : replServer) (psync_offset : Z) : bool :=
  negb (bool_decide (repl_backlog s = None)) &&
  (repl_backlog_off s <=? psync_offset) &&
  (psync_offset <=? repl_backlog_off s + repl_backlog_histlen s).

(** [true]: the client is in the list of slaves and was served; [false]: it needs
    a full resynchronization and is returned. *)

Definition masterTryPartialResynchronization (i : srv) (write_ok : bool) (master_replid offset_arg : bytes)
    (c : slave) (w : world) : res (bool * slave * world) :=
  let s := get_srv i w in
  if bool_decide (i = CRDT) && has_capa c SLAVE_CAPA_BACKSTREAM then Ok (false, c, w) else
  match string2ll offset_arg with
  | None => Ok (false, reply_error (str "value is not an integer or out of range") c, w)
  | Some psync_offset =>
      if negb (id_accepted s master_replid psync_offset) then Ok (false, c, w)
      else if negb (offset_covered s psync_offset) then Ok (false, c, w)
      else
        let c := set_sl_put_online_on_ack false
                   (set_sl_repl_ack_time (w_unixtime w) (set_sl_replstate SLAVE_STATE_ONLINE (set_flag i c))) in
        let buf := if has_capa c SLAVE_CAPA_PSYNC2 then str "+CONTINUE " ++ replid s ++ CRLF
                   else str "+CONTINUE" ++ CRLF in
        c ← (if negb write_ok then Ok (set_sl_close_asap true c)
             else
               b ← addReplyReplicationBacklog s psync_offset;
               Ok (queue b (set_sl_wire (sl_wire c ++ buf) c)));
        Ok (true, c, set_srv i (set_slaves (slaves s ++ [c]) s) w)
  end.

(** [master_replid[0] != '?'] *)

Definition asks_full (master_replid : bytes) : bool :=
  match master_replid with
  | 63 :: _ => true
  | _ => false
  end.

(** The part of the two commands after their checks. *)

Definition serve_psync (i : srv) (e : sync_env) (master_replid offset_arg : bytes) (c : slave) (w : world)
  : res (world * list slave) :=
  '(ok, c, w) ← masterTryPartialResynchronization i (e_write_ok e (sl_id c)) master_replid offset_arg c w;
  if ok : bool then
    Ok (set_srv i (set_stat_sync_partial_ok (stat_sync_partial_ok (get_srv i w) + 1) (get_srv i w)) w, [])
  else
    let w := if negb (asks_full master_replid)
             then set_srv i (set_stat_sync_partial_err (stat_sync_partial_err (get_srv i w) + 1) (get_srv i w)) w
             else w in
    refullSyncWithSlaves i e c w.

Definition err_no_link : bytes :=
  str "-NOMASTERLINK Can't SYNC while not connected with my master" ++ CRLF.

(** [argv] is the whole command; a client that does not become a slave is
    returned with its reply. *)

Definition syncCommand (e : sync_env) (argv : list bytes) (c : slave) (w : world) : res (world * list slave) :=
  if sl_flag_slave c || sl_flag_crdt_slave c then Ok (w, [c]) else
  if w_crdt_enabled w && negb (has_capa c SLAVE_CAPA_CRDT) then
    Ok (w, [queue (str "-NOMASTERLINK Slave is not crdt" ++ CRLF) c])
  else if bool_decide (w_masterhost w <> None) && negb (w_repl_state w =? REPL_STATE_CONNECTED) then
    Ok (w, [queue err_no_link c])
  else if negb (bool_decide (sl_output c = [])) then
    Ok (w, [reply_error (str "SYNC and PSYNC are invalid with pending output") c])
  else
    cmd ← need (argv !! 0%nat);
    if strcaseeq (cstr cmd) (str "psync") then
      id ← need (argv !! 1%nat); off ← need (argv !! 2%nat);
      serve_psync SERVER e id off c w
    else refullSyncWithSlaves SERVER e (set_sl_flag_pre_psync true c) w.

Definition crdtPsyncCommand (e : sync_env) (argv : list bytes) (c : slave) (w : world) : res (world * list slave) :=
  if sl_flag_slave c || sl_flag_crdt_slave c then Ok (w, [c]) else
  if bool_decide (w_masterhost w <> None) && negb (w_repl_state w =? REPL_STATE_CONNECTED) then
    Ok (w, [queue err_no_link c])
  else
    let gid := crdt_gid (w_crdt w) in
    let c_vcu := fst (get_vcu_from_vc (sl_vectorClock c) gid) in
    let l_vcu := fst (get_vcu_from_vc (vectorClock (w_crdt w)) gid) in
    if negb (has_capa c SLAVE_CAPA_BACKSTREAM) && (c_vcu >? l_vcu) then
      Ok (w, [reply_error (str "CRDT.SYNC and CRDT.PSYNC Slave vectorClock , gid(" ++ print_Z gid ++
                str ") client vc(" ++ vectorClockToSds (sl_vectorClock c) ++ str ") > local vc(" ++
                vectorClockToSds (vectorClock (w_crdt w)) ++ str ")") c])
    else if negb (bool_decide (sl_output c = [])) then
      Ok (w, [reply_error (str "SYNC and PSYNC are invalid with pending output") c])
    else
      id ← need (argv !! 1%nat); off ← need (argv !! 2%nat);
      serve_psync CRDT e id off c w.

(** ** REPLCONF *)

(** [event_ok]: the write event is registered; otherwise the client is freed. *)

Definition putSlaveOnline (event_ok : bool) (unixtime : Z) (c : slave) : option slave :=
  let c := set_sl_replstate SLAVE_STATE_ONLINE c in
  let c := set_sl_put_online_on_ack false c in
  let c := set_sl_repl_ack_time unixtime c in
  if event_ok then Some c else None.

Definition refreshVectorClock (vcStr : bytes) (c : slave) (s : crdtServer) : res (slave * crdtServer) :=
  vclock ← sdsToVectorClock vcStr;
  let s := foldl (fun s u => addPeerSet (get_gid u) s) s vclock in
  Ok (set_sl_vectorClock vclock c, s).

Definition NET_IP_STR_LEN : Z := 46.

(** What one option does: the loop goes on, or the command returns (with its
    reply already queued); [None] is a client that was freed. *)

Inductive option_result :=
| Next (c : slave) (s : crdtServer)
| Return (c : option slave) (s : crdtServer).

Definition replconf_option (event_ok : bool) (w : world) (opt v : bytes) (c : slave) (s : crdtServer)
  : res option_result :=
  let named name := strcaseeq (cstr opt) (str name) in
  if named "listening-port" then
    match string2ll v with
    | Some port => Ok (Next (set_sl_listening_port (to_int port) c) s)
    | None => Ok (Return (Some (reply_error (str "value is not an integer or out of range") c)) s)
    end
  else if named "ip-address" then
    if Z.of_nat (length v) <? NET_IP_STR_LEN then Ok (Next (set_sl_ip v c) s)
    else Ok (Return (Some (reply_error (str "REPLCONF ip-address provided by slave instance is too long: "
                                        ++ print_Z (Z.of_nat (length v)) ++ str " bytes") c)) s)
  else if named "capa" then
    if strcaseeq (cstr v) (str "eof") then Ok (Next (set_sl_capa (Z.lor (sl_capa c) SLAVE_CAPA_EOF) c) s)
    else if strcaseeq (cstr v) (str "psync2") then Ok (Next (set_sl_capa (Z.lor (sl_capa c) SLAVE_CAPA_PSYNC2) c) s)
    else Ok (Next c s)
  else if named "ack" then
    if negb (sl_flag_slave c) && negb (sl_flag_crdt_slave c) then Ok (Return (Some c) s) else
    match string2ll v with
    | None => Ok (Return (Some c) s)
    | Some offset =>
        let c := if offset >? sl_repl_ack_off c then set_sl_repl_ack_off offset c else c in
        let c := set_sl_repl_ack_time (w_unixtime w) c in
        if sl_put_online_on_ack c && (sl_replstate c =? SLAVE_STATE_ONLINE) && sl_flag_slave c
        then Ok (Return (putSlaveOnline event_ok (w_unixtime w) c) s)
        else Ok (Return (Some c) s)
    end
  else if named "getack" then Ok (Return (Some c) s)
  else if named "min-vc" then
    '(c, s) ← refreshVectorClock v c s;
    let vcu := fst (get_vcu_from_vc (sl_vectorClock c) (crdt_gid s)) in
    vc ← addVectorClockUnit (sl_filterVectorClock c) (crdt_gid s) vcu;
    Ok (Next (set_sl_filterVectorClock vc c) s)
  else if named "backstream" then
    vc ← sdsToVectorClock v;
    filter ← vectorClockMerge (sl_filterVectorClock c) vc;
    Ok (Next (set_sl_capa (Z.lor (sl_capa c) SLAVE_CAPA_BACKSTREAM) (set_sl_filterVectorClock filter c)) s)
  else if named "ack-vc" then
    if negb (sl_flag_crdt_slave c) then Ok (Return (Some c) s) else
    let c := set_sl_repl_ack_time (w_unixtime w) c in
    '(c, s) ← refreshVectorClock v c s;
    if sl_put_online_on_ack c && (sl_replstate c =? SLAVE_STATE_ONLINE)
    then Ok (Return (putSlaveOnline event_ok (w_unixtime w) c) s)
    else Ok (Return (Some c) s)
  else if named "crdt" then Ok (Next (set_sl_capa (Z.lor (sl_capa c) SLAVE_CAPA_CRDT) c) s)
  else Ok (Return (Some (reply_error (map (fun b => if (b =? CR) || (b =? LF) then 32 else b)
                                        (str "Unrecognized REPLCONF option: " ++ cstr opt)) c)) s).

(** The options and their values, in pairs; an odd rest cannot occur, the
    command having checked the number of its arguments. *)

Fixpoint replconf_options (event_ok : bool) (w : world) (args : list bytes) (c : slave) (s : crdtServer)
  : res (option slave * crdtServer) :=
  match args with
  | opt :: v :: args =>
      r ← replconf_option event_ok w opt v c s;
      match r with
      | Next c s => replconf_options event_ok w args c s
      | Return c s => Ok (c, s)
      end
  | _ => Ok (Some (reply_ok c), s)
  end.

(** [argv] is the whole command; [getack] makes the link with the own master
    send its offset, which changes nothing here. *)

Definition replconfCommand (event_ok : bool) (argv : list bytes) (c : slave) (w : world)
  : res (option slave * world) :=
  if Nat.even (length argv) then Ok (Some (queue (str "-ERR syntax error" ++ CRLF) c), w)
  else
    '(c, s) ← replconf_options event_ok w (drop 1 argv) c (w_crdt w);
    Ok (c, set_w_crdt s w).

(** ** Authentication of a peer ([src/src/ctrip_crdt_replication.c]) *)

Definition syntaxerr (c : slave) : slave := queue (str "-ERR syntax error" ++ CRLF) c.

Definition crdtAuthGidCommand (argv : list bytes) (c : slave) (s : crdtServer) : slave :=
  match argv with
  | [_; a] =>
      match string2ll a with
      | None => syntaxerr c
      | Some gid =>
          if negb (gid =? crdt_gid s) then reply_error (str "invalid gid") c
          else reply_ok (set_sl_capa (Z.lor (sl_capa c) SLAVE_CAPA_CRDT) c)
      end
  | _ => syntaxerr c
  end.

Definition crdtAuthCommand (argv : list bytes) (c : slave) (s : crdtServer) : slave :=
  match argv with
  | [_; ns; a] =>
      if negb (strcaseeq (crdt_namespace s) (cstr ns)) then reply_error (str "invalid namespace") c
      else match string2ll a with
           | None => syntaxerr c
           | Some gid => if negb (gid =? crdt_gid s) then reply_error (str "invalid gid") c else reply_ok c
           end
  | _ => syntaxerr c
  end.

(** ** What a partial resynchronization sends *)

Lemma covered_rep s stream offset :
  backlog_rep s stream -> offset_covered s offset = true ->
  let missing := Z.to_nat (master_repl_offset s + 1 - offset) in
  0 <= master_repl_offset s + 1 - offset /\ (missing <= length stream)%nat /\
  addReplyReplicationBacklog s offset = Ok (drop (length stream - missing) stream).
Proof.
  intros R C. cbv zeta. unfold offset_covered in C. bool_cases.
  pose proof R as (buf & _ & Hs & _ & _ & Hh & Ho).
  split; [lia|]. split; [lia|]. rewrite (reply_rep s stream offset R) by lia.
  do 2 f_equal. lia.
Qed.

Lemma covered_iff s stream offset :
  backlog_rep s stream ->
  offset_covered s offset = true <->
  master_repl_offset s + 1 - Z.min (Z.of_nat (length stream)) (repl_backlog_size s) <= offset
    <= master_repl_offset s + 1.
Proof.
  intros R. pose proof (backlog_rep_some _ _ R) as N. destruct R as (buf & _ & Hs & _ & _ & Hh & Ho).
  unfold offset_covered. rewrite bool_decide_false by done. cbn [negb andb].
  rewrite andb_true_iff, !Z.leb_le. lia.
Qed.

(** The client as the list of slaves gets it. *)

Lemma partial_serves i id off_arg offset c w stream :
  backlog_rep (get_srv i w) stream -> (i = CRDT -> has_capa c SLAVE_CAPA_BACKSTREAM = false) ->
  string2ll off_arg = Some offset -> id_accepted (get_srv i w) id offset = true ->
  offset_covered (get_srv i w) offset = true -> sl_close_after_reply c = false ->
  exists c', masterTryPartialResynchronization i true id off_arg c w =
      Ok (true, c', set_srv i (set_slaves (slaves (get_srv i w) ++ [c']) (get_srv i w)) w) /\
    sl_replstate c' = SLAVE_STATE_ONLINE /\ sl_put_online_on_ack c' = false /\
    sl_wire c' = sl_wire c ++ (if has_capa c SLAVE_CAPA_PSYNC2
                               then str "+CONTINUE " ++ replid (get_srv i w) ++ CRLF
                               else str "+CONTINUE" ++ CRLF) /\
    sl_output c' = sl_output c ++
      drop (length stream - Z.to_nat (master_repl_offset (get_srv i w) + 1 - offset)) stream.
Proof.
  intros R Hb Hoff Hid Hc Hcl. unfold masterTryPartialResynchronization.
  assert (bool_decide (i = CRDT) && has_capa c SLAVE_CAPA_BACKSTREAM = false) as ->.
  { destruct i; [done|]. by rewrite (Hb eq_refl). }
  rewrite Hoff, Hid, Hc. cbn [negb]. destruct (covered_rep _ _ _ R Hc) as (_ & _ & ->).
  cbn [mbind res_bind]. eexists. split; [reflexivity|].
  unfold queue, has_capa. destruct i; simpl; rewrite Hcl; done.
Qed.

(** ** What a full resynchronization announces *)

Lemma setup_step_ids (write_ok : Z -> bool) l done s :
  let '(done', s') := foldl (fun '(done, s) c =>
    if sl_replstate c =? SLAVE_STATE_WAIT_BGSAVE_START then
      let '(_, c, s) := replicationSetupSlaveForFullResync (write_ok (sl_id c)) c (getPsyncInitialOffset s) s in
      (done ++ [c], s)
    else (done ++ [c], s)) (done, s) l in
  done' = done ++ map (fun c => if sl_replstate c =? SLAVE_STATE_WAIT_BGSAVE_START
                                then snd (fst (replicationSetupSlaveForFullResync (write_ok (sl_id c)) c
                                                 (master_repl_offset s) s)) else c) l /\
  s' = (if existsb (fun c => sl_replstate c =? SLAVE_STATE_WAIT_BGSAVE_START) l then set_slaveseldb (-1) s else s).
Proof.
  revert done s. induction l as [|c l IH]; intros done s; cbn [foldl map existsb]; [by rewrite app_nil_r|].
  destruct (sl_replstate c =? SLAVE_STATE_WAIT_BGSAVE_START) eqn:E; cbn [orb].
  - destruct (replicationSetupSlaveForFullResync (write_ok (sl_id c)) c (getPsyncInitialOffset s) s)
      as [[b c'] s'] eqn:R.
    assert (s' = set_slaveseldb (-1) s) as ->.
    { unfold replicationSetupSlaveForFullResync in R. repeat case_match; by simplify_eq. }
    specialize (IH (done ++ [c']) (set_slaveseldb (-1) s)).
    destruct (foldl _ _ l) as [done' s'] in *. destruct IH as [-> ->]. split.
    + rewrite <- app_assoc. f_equal. cbn [app]. f_equal.
      unfold getPsyncInitialOffset in R. by rewrite R.
    + by destruct (existsb _ l).
  - specialize (IH (done ++ [c]) s). destruct (foldl _ _ l) as [done' s'] in *. destruct IH as [-> ->].
    by rewrite <- app_assoc.
Qed.

Lemma setup_waiting_spec write_ok s :
  slaves (setup_waiting write_ok s) =
    map (fun c => if sl_replstate c =? SLAVE_STATE_WAIT_BGSAVE_START
                  then snd (fst (replicationSetupSlaveForFullResync (write_ok (sl_id c)) c (master_repl_offset s) s))
                  else c) (slaves s) /\
  master_repl_offset (setup_waiting write_ok s) = master_repl_offset s /\
  (existsb (fun c => sl_replstate c =? SLAVE_STATE_WAIT_BGSAVE_START) (slaves s) = true ->
   slaveseldb (setup_waiting write_ok s) = -1).
Proof.
  unfold setup_waiting. pose proof (setup_step_ids write_ok (slaves s) [] s) as H.
  destruct (foldl _ _ (slaves s)) as [done s'] eqn:E in H |- *. destruct H as [-> ->]. split; [done|].
  split; [by destruct (existsb _ _)|]. by intros ->.
Qed.

Lemma id_accepted_iff s id offset :
  id_accepted s id offset = true <->
  map tolower (cstr id) = map tolower (replid s) \/
  map tolower (cstr id) = map tolower (replid2 s) /\ offset <= second_replid_offset s.
Proof. unfold id_accepted, strcaseeq. by rewrite orb_true_iff, andb_true_iff, !bool_decide_eq_true, Z.leb_le. Qed.

(** ** Claims *)

(** C7: the decision of a master about CRDT.PSYNC (and PSYNC) and what it sends.
    A client is served a partial resynchronization exactly when it did not ask
    for a back-stream (peers only), its offset is a number, its id is, but for the
    case of letters, the current id, or the previous one with an offset up to the
    point where it was replaced, and the offset is within the backlog.  It is then
    the last slave of the list, online, is told to continue, and has queued exactly
    the bytes of the stream it misses: from its offset to the current offset.
    Otherwise nothing changes but for the error reply to an offset that is no
    number. *)
Theorem masterTryPartialResynchronization_exact (i : srv) (id off_arg : bytes) (c : slave) (w : world)
    (stream : bytes) (Hrep : backlog_rep (get_srv i w) stream) (Hopen : sl_close_after_reply c = false) :
  let s := get_srv i w in
  exists ok c' w', masterTryPartialResynchronization i true id off_arg c w = Ok (ok, c', w') /\
    (ok = true <-> exists offset, string2ll off_arg = Some offset /\
       ~ (i = CRDT /\ has_capa c SLAVE_CAPA_BACKSTREAM = true) /\
       (map tolower (cstr id) = map tolower (replid s) \/
        map tolower (cstr id) = map tolower (replid2 s) /\ offset <= second_replid_offset s) /\
       master_repl_offset s + 1 - Z.min (Z.of_nat (length stream)) (repl_backlog_size s) <= offset
         <= master_repl_offset s + 1) /\
    (ok = false -> w' = w) /\
    (ok = true -> slaves (get_srv i w') = slaves s ++ [c'] /\ sl_replstate c' = SLAVE_STATE_ONLINE /\
       (exists cont, sl_wire c' = sl_wire c ++ str "+CONTINUE" ++ cont ++ CRLF) /\
       forall offset, string2ll off_arg = Some offset ->
         sl_output c' = sl_output c ++
           drop (length stream - Z.to_nat (master_repl_offset s + 1 - offset)) stream).
Proof.
  intros s.
  destruct (decide (i = CRDT /\ has_capa c SLAVE_CAPA_BACKSTREAM = true)) as [[-> Hb]|Hb].
  { unfold masterTryPartialResynchronization. rewrite Hb. eexists false, _, _. split; [reflexivity|].
    split; [|done]. split; [done|]. intros (o & _ & N & _). by destruct N. }
  assert (bool_decide (i = CRDT) && has_capa c SLAVE_CAPA_BACKSTREAM = false) as Hb'.
  { destruct (has_capa c SLAVE_CAPA_BACKSTREAM); [|apply andb_false_r]. rewrite bool_decide_false; tauto. }
  destruct (string2ll off_arg) as [offset|] eqn:Hoff.
  2:{ unfold masterTryPartialResynchronization. rewrite Hb', Hoff. eexists false, _, _. split; [reflexivity|].
      split; [|done]. split; [done|]. by intros (o & ? & _). }
  destruct (id_accepted s id offset && offset_covered s offset) eqn:Hdec.
  - apply andb_prop in Hdec as [Hid Hcov].
    destruct (partial_serves i id off_arg offset c w stream Hrep) as (c' & -> & E1 & _ & E3 & E4); try done.
    { intros ->. destruct (has_capa c SLAVE_CAPA_BACKSTREAM); [tauto|done]. }
    eexists true, c', _. split; [reflexivity|]. split.
    { split; [|done]. intros _. exists offset. apply id_accepted_iff in Hid. by apply (covered_iff _ _ _ Hrep) in Hcov. }
    split; [done|]. intros _. rewrite get_set_eq. split; [done|]. split; [done|]. split.
    + rewrite E3. destruct (has_capa c SLAVE_CAPA_PSYNC2); [exists (str " " ++ replid s)|exists []];
        by rewrite <- ?app_assoc.
    + intros offset' [= <-]. done.
  - unfold masterTryPartialResynchronization. rewrite Hb', Hoff. fold s.
    apply andb_false_iff in Hdec. exists false, c, w. split.
    { destruct (id_accepted s id offset); [|done]. destruct Hdec as [?| ->]; done. }
    split; [|done]. split; [done|]. intros (o & [= <-] & _ & Hid%id_accepted_iff & Hcov).
    apply (covered_iff _ _ _ Hrep) in Hcov. fold s in Hcov. destruct Hdec; congruence.
Qed.

Lemma masterTryPartialResynchronization_exact_witness :
  let w := example_world in
  let c := example_slave 0 in
  exists ok c' w', masterTryPartialResynchronization CRDT true (str "ID1") (str "1") c w = Ok (ok, c', w') /\
    (ok = true <-> exists offset, string2ll (str "1") = Some offset /\
       ~ (CRDT = CRDT /\ has_capa c SLAVE_CAPA_BACKSTREAM = true) /\
       (map tolower (cstr (str "ID1")) = map tolower (replid (w_peers w)) \/
        map tolower (cstr (str "ID1")) = map tolower (replid2 (w_peers w)) /\ offset <= second_replid_offset (w_peers w)) /\
       0 + 1 - Z.min 0 64 <= offset <= 0 + 1) /\
    (ok = false -> w' = w) /\
    (ok = true -> slaves (w_peers w') = slaves (w_peers w) ++ [c'] /\ sl_replstate c' = SLAVE_STATE_ONLINE /\
       (exists cont, sl_wire c' = sl_wire c ++ str "+CONTINUE" ++ cont ++ CRLF) /\
       forall offset, string2ll (str "1") = Some offset ->
         sl_output c' = sl_output c ++ drop (0 - Z.to_nat (0 + 1 - offset)) []).
Proof.
  apply (masterTryPartialResynchronization_exact CRDT (str "ID1") (str "1") (example_slave 0) example_world []);
    [apply example_repl_rep|reflexivity].
Defined.

(** C10: no gap after a full resynchronization.  When the save for the waiting
    slaves starts, each of them is announced the id of the server and its offset
    at that moment, and the next write selects its database again.  Whatever is
    fed from then on reaches it: its output grows by exactly the bytes by which
    the stream has passed the announced offset. *)
Theorem full_resync_no_gap (write_ok : Z -> bool) (s : replServer) (stream : bytes) (c : slave)
    (Hrep : backlog_rep s stream) (Hin : c ∈ slaves s)
    (Hwait : sl_replstate c = SLAVE_STATE_WAIT_BGSAVE_START) (Hpsync : sl_flag_pre_psync c = false)
    (Hopen : sl_close_after_reply c = false) (Hok : write_ok (sl_id c) = true) :
  let s1 := setup_waiting write_ok s in
  slaveseldb s1 = -1 /\
  exists c1, c1 ∈ slaves s1 /\ sl_id c1 = sl_id c /\
    sl_wire c1 = sl_wire c ++ str "+FULLRESYNC " ++ replid s ++ str " " ++ print_Z (master_repl_offset s) ++ CRLF /\
    forall p s2, fed p s1 s2 -> exists c2, c2 ∈ slaves s2 /\ sl_id c2 = sl_id c /\
      sl_output c2 = sl_output c ++ p /\
      (forall str1, backlog_rep s1 str1 ->
         backlog_rep s2 (str1 ++ p) /\ master_repl_offset s2 = master_repl_offset s + Z.of_nat (length p)).
Proof.
  intros s1. destruct (setup_waiting_spec write_ok s) as (Esl & Eoff & Edb). fold s1 in Esl, Eoff, Edb.
  split. { apply Edb, existsb_exists. exists c. rewrite <- list_elem_of_In. split; [done|]. by apply Z.eqb_eq. }
  set (c1 := snd (fst (replicationSetupSlaveForFullResync true c (master_repl_offset s) s))).
  assert (c1 ∈ slaves s1) as Hc1.
  { rewrite Esl. apply list_elem_of_fmap. exists c. split; [|done]. rewrite Hwait, Hok. done. }
  assert (sl_id c1 = sl_id c /\ sl_output c1 = sl_output c /\ sl_replstate c1 = SLAVE_STATE_WAIT_BGSAVE_END /\
          sl_close_after_reply c1 = false /\
          sl_wire c1 = sl_wire c ++ str "+FULLRESYNC " ++ replid s ++ str " " ++
                       print_Z (master_repl_offset s) ++ CRLF) as (I1 & O1 & S1 & C1 & W1).
  { unfold c1, replicationSetupSlaveForFullResync. simpl. by rewrite Hpsync. }
  exists c1. split; [done|]. split; [done|]. split; [done|]. intros p s2 [Fb Es].
  exists (queue p c1). split.
  { rewrite Es. unfold each_slave. simpl. apply list_elem_of_fmap. exists c1. by rewrite S1. }
  unfold queue. rewrite C1. simpl. rewrite I1, O1. split; [done|]. split; [done|].
  intros str1 R1. rewrite <- Eoff. by apply (fed_stream _ _ _ Fb).
Qed.

Lemma full_resync_no_gap_witness :
  let c := example_slave SLAVE_STATE_WAIT_BGSAVE_START in
  let s := example_repl_server [example_slave SLAVE_STATE_ONLINE; c] in
  let s1 := setup_waiting (fun _ => true) s in
  slaveseldb s1 = -1 /\
  exists c1, c1 ∈ slaves s1 /\ sl_id c1 = sl_id c /\
    sl_wire c1 = sl_wire c ++ str "+FULLRESYNC " ++ replid s ++ str " " ++ print_Z (master_repl_offset s) ++ CRLF /\
    forall p s2, fed p s1 s2 -> exists c2, c2 ∈ slaves s2 /\ sl_id c2 = sl_id c /\
      sl_output c2 = sl_output c ++ p /\
      (forall str1, backlog_rep s1 str1 ->
         backlog_rep s2 (str1 ++ p) /\ master_repl_offset s2 = master_repl_offset s + Z.of_nat (length p)).
Proof.
  intros c s. apply (full_resync_no_gap (fun _ => true) s [] c (example_repl_rep _));
    [right; left|reflexivity..].
Defined.
