(* ===== verification/PeerLink.v ===== *)
(** * The link with a peer ([src/src/networking.c])

    The stream of a peer is read in pieces of any size; its commands are run as
    they become complete, the replication offset follows the commands that ran,
    and the bytes of those commands are forwarded to this server's own slaves.
    Inside a transaction the offset waits for its end, and before the peer is
    CONNECTED nothing is counted.  The model is that of a client with the flag
    [CLIENT_CRDT_MASTER]; running a command is a parameter, for which [PeerServer]
    states the interface and [PeerMulti] has the implementation. *)

From S2P Require Import Prelude Util Sds VectorClock VcTheory VcText VcClaims Proxy CrdtServer Backlog Resp World Feed Psync.

Inductive request_type := REQ_UNKNOWN | PROTO_REQ_INLINE | PROTO_REQ_MULTIBULK.

(** [l_pending] is [pending_querybuf]: the bytes read whose commands have not
    run. *)

Record link := MkLink {
  l_reader : reader;
  l_reqtype : request_type;
  l_reploff : Z;
  l_read_reploff : Z;
  l_pending : bytes
}.

(** [resetClient]: the arguments are freed, the reading state is the initial
    one; unread input stays. *)

Definition resetClient (l : link) : link :=
  MkLink (MkReader (querybuf (l_reader l)) 0 (-1) [] (close (l_reader l))) REQ_UNKNOWN
    (l_reploff l) (l_read_reploff l) (l_pending l).

Section processing.

(** [exec] runs a command on the state of the server ([processCommand], which
    keeps the client open); [connected] tells whether the peer is in the state
    [REPL_STATE_CONNECTED], [multi] whether the client has the flag
    [CLIENT_MULTI]; [paused] is [clientsArePaused()]. *)

Context {St : Type} (exec : list bytes -> St -> St) (connected multi : St -> bool) (max_bulk : Z) (paused : bool).

(** Every round that goes on has consumed input, so its length bounds the
    rounds. *)

Fixpoint processInputBuffer (fuel : nat) (l : link) (st : St) : res (link * St) :=
  match fuel with
  | O => Ok (l, st)
  | S fuel =>
      let r := l_reader l in
      if bool_decide (querybuf r = []) then Ok (l, st) else
      if paused then Ok (l, st) else
      if close r then Ok (l, st) else
      let reqtype := match l_reqtype l with
                     | REQ_UNKNOWN => if bool_decide (querybuf r !! 0%nat = Some 42)
                                      then PROTO_REQ_MULTIBULK else PROTO_REQ_INLINE
                     | t => t
                     end in
      '(p, r) ← match reqtype with
                | PROTO_REQ_INLINE => Ok (processInlineBuffer r)
                | _ => processMultibulkBuffer max_bulk r
                end;
      let l := MkLink r reqtype (l_reploff l) (l_read_reploff l) (l_pending l) in
      match p with
      | ParseOk =>
          if bool_decide (r_argv r = []) then processInputBuffer fuel (resetClient l) st
          else
            let st := exec (r_argv r) st in
            let l := if connected st && negb (multi st)
                     then MkLink r reqtype (l_read_reploff l - Z.of_nat (length (querybuf r)))
                            (l_read_reploff l) (l_pending l)
                     else l in
            processInputBuffer fuel (resetClient l) st
      | _ => Ok (l, st)
      end
  end.

(** [readQueryFromClient] for the client of a peer, after [b] was read from the
    socket: the bytes returned are those that are forwarded to the slaves.  Only
    while the peer is connected the bytes are counted, kept and forwarded. *)

Definition readQuery (b : bytes) (l : link) (st : St) : res (link * St * bytes) :=
  let r := append_input b (l_reader l) in
  if connected st then
    let l := MkLink r (l_reqtype l) (l_reploff l) (l_read_reploff l + Z.of_nat (length b)) (l_pending l ++ b) in
    let prev_offset := l_reploff l in
    '(l, st) ← processInputBuffer (S (length (querybuf r))) l st;
    let applied := l_reploff l - prev_offset in
    if applied =? 0 then Ok (l, st, [])
    else Ok (MkLink (l_reader l) (l_reqtype l) (l_reploff l) (l_read_reploff l)
               (sdsrange (l_pending l) applied (-1)),
             st, take (Z.to_nat applied) (l_pending l))
  else
    let l := MkLink r (l_reqtype l) (l_reploff l) (l_read_reploff l) (l_pending l) in
    '(l, st) ← processInputBuffer (S (length (querybuf r))) l st;
    Ok (l, st, []).

Fixpoint readQueries (bs : list bytes) (l : link) (st : St) : res (link * St * bytes) :=
  match bs with
  | [] => Ok (l, st, [])
  | b :: bs =>
      '(l, st, fwd) ← readQuery b l st;
      '(l, st, fwd2) ← readQueries bs l st;
      Ok (l, st, fwd ++ fwd2)
  end.

End processing.

(** What [crdtReplicationCacheMaster] makes of the client of a lost link: what
    was read and not run is forgotten. *)

Definition cacheMaster (l : link) : link :=
  resetClient (MkLink (MkReader [] (multibulklen (l_reader l)) (bulklen (l_reader l)) (r_argv (l_reader l))
                         (close (l_reader l)))
                 (l_reqtype l) (l_reploff l) (l_reploff l) []).

(** The forwarding itself: [dictid] is the database of the client before the
    commands ran. *)

Definition forward (dictid : Z) (fwd : bytes) (w : world) : res world :=
  if bool_decide (fwd = []) then Ok w else
  w ← (if negb (slaveseldb (w_server w) =? dictid) then sendSelectCommandToSlave dictid w else Ok w);
  replicationFeedSlavesFromMasterStream fwd w.

(** ** Reading a stream of commands *)

Definition encodes (cmds : list (list bytes)) : bytes := concat (map encode_command cmds).

Lemma encodes_app a b : encodes (a ++ b) = encodes a ++ encodes b.
Proof. unfold encodes. by rewrite map_app, concat_app. Qed.

Lemma encode_command_head argv : exists t, encode_command argv = 42 :: t.
Proof. unfold encode_command, addReplyMultiBulkLen, addReplyLongLongWithPrefix. simpl. eauto. Qed.

(** How many of the commands have taken effect: the longest prefix of [cmds] that
    ends in a state that [quiet] holds of. *)

Fixpoint settled {St : Type} (exec : list bytes -> St -> St) (quiet : St -> bool) (st : St) (cmds : list (list bytes)) : nat :=
  match cmds with
  | [] => 0
  | c :: cmds =>
      match settled exec quiet (exec c st) cmds with
      | O => if quiet (exec c st) then 1 else 0
      | S n => S (S n)
      end
  end.

Section settling.

Context {St : Type} (exec : list bytes -> St -> St) (quiet : St -> bool).

Abbreviation run s0 cmds := (foldl (fun st c => exec c st) s0 cmds).

Lemma settled_le cmds : forall st, (settled exec quiet st cmds <= length cmds)%nat.
Proof.
  induction cmds as [|c cmds IH]; intros st; cbn [settled length]; [lia|]. specialize (IH (exec c st)).
  destruct (settled exec quiet (exec c st) cmds); [destruct (quiet (exec c st)); lia|lia].
Qed.

Lemma settled_app a b : forall st,
  settled exec quiet st (a ++ b) =
  match settled exec quiet (run st a) b with O => settled exec quiet st a | S n => (length a + S n)%nat end.
Proof.
  induction a as [|c a IH]; intros st; cbn [app settled foldl length]; [by destruct (settled _ _ _ b)|].
  rewrite IH. destruct (settled _ _ _ b) as [|n]; [done|]. by rewrite !Nat.add_succ_r.
Qed.

Lemma settled_quiet cmds : forall st,
  settled exec quiet st cmds = 0%nat \/ quiet (run st (take (settled exec quiet st cmds) cmds)) = true.
Proof.
  induction cmds as [|c cmds IH]; intros st; cbn [settled]; [by left|].
  destruct (IH (exec c st)) as [E|E]; destruct (settled exec quiet (exec c st) cmds) as [|n].
  - destruct (quiet (exec c st)) eqn:Q; [by right|by left].
  - done.
  - destruct (quiet (exec c st)) eqn:Q; [by right|by left].
  - by right.
Qed.

(** After the last such state there is none. *)

Lemma settled_last cmds : forall st k,
  (settled exec quiet st cmds < k <= length cmds)%nat -> quiet (run st (take k cmds)) = false.
Proof.
  induction cmds as [|c cmds IH]; intros st k Hk; cbn [settled length] in Hk; [lia|].
  destruct k as [|k]; [lia|]. cbn [take foldl]. specialize (IH (exec c st) k).
  destruct (settled exec quiet (exec c st) cmds) as [|n]; [|apply IH; lia].
  destruct k as [|k]; [|apply IH; destruct (quiet (exec c st)); lia]. simpl.
  destruct (quiet (exec c st)); [lia|done].
Qed.

Lemma settled_none cmds : forall st,
  (forall k, quiet (run st (take k cmds)) = false) -> settled exec quiet st cmds = 0%nat.
Proof.
  induction cmds as [|c cmds IH]; intros st H; cbn [settled]; [done|].
  rewrite (IH (exec c st)) by (intros k; exact (H (S k))). by rewrite (H 1%nat : quiet (exec c st) = false).
Qed.

End settling.

Lemma settled_ext {St} (exec : list bytes -> St -> St) (q1 q2 : St -> bool) cmds : forall st,
  (forall k, q1 (foldl (fun st c => exec c st) st (take k cmds)) = q2 (foldl (fun st c => exec c st) st (take k cmds))) ->
  settled exec q1 st cmds = settled exec q2 st cmds.
Proof.
  induction cmds as [|c cmds IH]; intros st H; cbn [settled]; [done|].
  rewrite (IH (exec c st)) by (intros k; exact (H (S k))). by rewrite (H 1%nat : q1 (exec c st) = q2 (exec c st)).
Qed.

Section stream.

Context {St : Type} (exec : list bytes -> St -> St) (connected multi : St -> bool) (max_bulk : Z).

Definition applies (st : St) : bool := connected st && negb (multi st).

Abbreviation run s0 cmds := (foldl (fun st c => exec c st) s0 cmds).

(** A command whose reading can be interrupted anywhere. *)

Definition readable (argv : list bytes) : Prop :=
  command_fits max_bulk argv /\ Z.of_nat (length (encode_command argv)) <= PROTO_INLINE_MAX_SIZE.

(** [part] is what has arrived of [argv]. *)

Definition reading (argv : list bytes) (part Q : bytes) (l : link) : Prop :=
  Q <> [] /\ part ++ Q = encode_command argv /\ midway argv (l_reader l) Q /\
  (length (querybuf (l_reader l)) <= length part)%nat /\ close (l_reader l) = false /\
  (l_reqtype l = PROTO_REQ_MULTIBULK \/ (l_reqtype l = REQ_UNKNOWN /\ l_reader l = fresh [])).

Lemma reading_fresh argv reploff read pending :
  reading argv [] (encode_command argv) (MkLink (fresh []) REQ_UNKNOWN reploff read pending).
Proof.
  destruct (encode_command_head argv) as [t E]. split; [by rewrite E|].
  split; [done|]. split; [by left|]. split; [done|]. split; [done|by right].
Qed.

(** The type of the request is known, or the input begins with the [*] of a
    command. *)

Lemma reqtype_multibulk argv part Q b l :
  reading argv part Q l -> b <> [] -> (exists t, b ++ t = Q \/ exists t', b = Q ++ t') ->
  match l_reqtype l with
  | REQ_UNKNOWN => if bool_decide ((querybuf (l_reader l) ++ b) !! 0%nat = Some 42)
                   then PROTO_REQ_MULTIBULK else PROTO_REQ_INLINE
  | t => t
  end = PROTO_REQ_MULTIBULK.
Proof.
  intros (_ & E & M & _ & _ & [->|[-> Hr]]) Hb Hpre; [done|]. rewrite Hr. cbn [querybuf fresh app].
  destruct (encode_command_head argv) as [t0 Et]. rewrite bool_decide_true; [done|].
  rewrite Hr in M. assert (Q = encode_command argv) as ->.
  { destruct M as [[_ E2]|(k & Hk & Em & _)]; [done|]. simpl in Em. lia. }
  rewrite Et in Hpre. destruct b as [|x b]; [done|].
  destruct Hpre as (t & [[= -> _]|(t' & [= -> _])]); done.
Qed.

(** The state of a link that has read [read] and applied [reploff] bytes, and
    the next command it waits for. *)

Definition waiting_for (cmds : list (list bytes)) (part : bytes) (l : link) : Prop :=
  match cmds with
  | [] => part = [] /\ l_reader l = fresh [] /\ l_reqtype l = REQ_UNKNOWN
  | argv :: _ => exists Q, reading argv part Q l
  end.

Definition with_input (b : bytes) (l : link) : link :=
  MkLink (append_input b (l_reader l)) (l_reqtype l) (l_reploff l) (l_read_reploff l) (l_pending l).

Lemma with_input_nil l : with_input [] l = l.
Proof. unfold with_input, append_input. rewrite app_nil_r. by destruct l as [[]]. Qed.

Lemma process_partial fuel argv part Q b t l st :
  readable argv -> reading argv part Q l -> Q = b ++ t -> t <> [] ->
  exists l2, processInputBuffer exec connected multi max_bulk false (S fuel) (with_input b l) st = Ok (l2, st) /\
    reading argv (part ++ b) t l2 /\ l_reploff l2 = l_reploff l /\ l_read_reploff l2 = l_read_reploff l /\
    l_pending l2 = l_pending l.
Proof.
  intros [Hfit Hmax] R -> Ht. pose proof R as (HQ & E & M & L & C & T).
  destruct (decide (querybuf (l_reader l) ++ b = [])) as [N|N].
  - apply app_eq_nil in N as [N ->]. rewrite with_input_nil, app_nil_r. exists l.
    cbn [processInputBuffer]. by rewrite bool_decide_true.
  - cbn [processInputBuffer with_input l_reader append_input querybuf close l_reqtype].
    rewrite bool_decide_false by done. rewrite C.
    assert (match l_reqtype l with
            | REQ_UNKNOWN => if bool_decide ((querybuf (l_reader l) ++ b) !! 0%nat = Some 42)
                             then PROTO_REQ_MULTIBULK else PROTO_REQ_INLINE
            | t => t
            end = PROTO_REQ_MULTIBULK) as ->.
    { destruct T as [->|[Hu Hr]]; [done|]. rewrite Hr in N. simpl in N.
      apply (reqtype_multibulk argv part (b ++ t) b l R N). exists t. by left. }
    apply midway_app in M.
    assert (length (encode_command argv) = length part + length (b ++ t))%nat as LE by (by rewrite <- E, length_app).
    rewrite length_app in LE.
    destruct (midway_more max_bulk argv Hfit _ _ Ht M) as (r' & -> & M' & L').
    { unfold append_input. cbn [querybuf]. rewrite length_app. lia. }
    cbn [mbind res_bind]. eexists. split; [reflexivity|]. split; [|done]. split; [done|].
    split; [by rewrite <- app_assoc|]. cbn [l_reader l_reqtype]. split; [done|].
    unfold append_input in L'. cbn [querybuf] in L'. rewrite length_app in L'.
    split; [rewrite length_app; lia|]. split; [|by left].
    destruct M' as [[-> _]|(k & _ & _ & _ & ? & _)]; done.
Qed.

(** The link after a command whose state is [st]; [b] follows it. *)

Definition after_command (b : bytes) (l : link) (st : St) : link :=
  MkLink (fresh []) REQ_UNKNOWN (if applies st then l_read_reploff l - Z.of_nat (length b) else l_reploff l)
    (l_read_reploff l) (l_pending l).

Lemma process_complete fuel argv part Q b l st :
  readable argv -> reading argv part Q l ->
  processInputBuffer exec connected multi max_bulk false (S fuel) (with_input (Q ++ b) l) st =
  processInputBuffer exec connected multi max_bulk false fuel
    (with_input b (after_command b l (exec argv st))) (exec argv st).
Proof.
  intros [Hfit Hmax] R. pose proof R as (HQ & E & M & L & C & T). pose proof Hfit as (Hn & _ & _).
  assert (Q ++ b <> []) as Nb by (by destruct Q).
  cbn [processInputBuffer with_input l_reader append_input querybuf close l_reqtype].
  rewrite (bool_decide_false (querybuf (l_reader l) ++ Q ++ b = [])) by (intros [_ ?]%app_eq_nil; done).
  rewrite C, (reqtype_multibulk argv part Q (Q ++ b) l R Nb) by (exists []; eauto).
  rewrite (midway_done max_bulk argv Hfit _ Q b M).
  cbn [mbind res_bind r_argv]. rewrite (bool_decide_false (argv = [])) by done.
  unfold after_command, applies. by destruct (connected (exec argv st) && negb (multi (exec argv st))).
Qed.

Lemma split_input (Q e b tail : bytes) :
  Q ++ e = b ++ tail ->
  (exists t, Q = b ++ t /\ t <> []) \/ (exists b2, b = Q ++ b2 /\ e = b2 ++ tail).
Proof.
  intros [(t & -> & ->)|(b2 & -> & ->)]%app_eq_inv; [|right; by exists b2].
  destruct (decide (t = [])) as [->|N]; [|left; by exists t]. right. exists []. by rewrite !app_nil_r.
Qed.

Lemma process_stream cmds : forall fuel argv part Q b tail l st,
  Forall readable (argv :: cmds) -> reading argv part Q l -> Q ++ encodes cmds = b ++ tail ->
  (length b < fuel)%nat ->
  exists k l2 part2, let ran := take k (argv :: cmds) in
    processInputBuffer exec connected multi max_bulk false fuel (with_input b l) st = Ok (l2, run st ran) /\
    part ++ b = encodes ran ++ part2 /\
    l_read_reploff l2 = l_read_reploff l /\ l_pending l2 = l_pending l /\
    l_reploff l2 = match settled exec applies st ran with
                   | O => l_reploff l
                   | S n => l_read_reploff l - Z.of_nat (length (encodes (drop (S n) ran) ++ part2))
                   end /\
    waiting_for (drop k (argv :: cmds)) part2 l2 /\ (k <= length (argv :: cmds))%nat.
Proof.
  induction cmds as [|a2 cmds IH]; intros fuel argv part Q b tail l st Hf R E Hfuel;
    apply Forall_cons in Hf as [Ha Hf]; (destruct fuel as [|fuel]; [lia|]);
    apply split_input in E as [(t & EQ & Ht)|(b2 & -> & E2)].
  1,3: destruct (process_partial fuel argv part Q b t l st Ha R EQ Ht) as (l2 & -> & R2 & O & Rd & P);
    exists 0%nat, l2, (part ++ b); repeat (split; [done|]); split; [by exists t|lia].
  all: rewrite (process_complete fuel argv part Q b2 l st Ha R); pose proof R as (HQ & EQ & _);
    rewrite length_app in Hfuel; assert (length Q <> 0%nat) as LQ by (by destruct Q);
    (destruct fuel as [|fuel]; [lia|]).
  - symmetry in E2. apply app_eq_nil in E2 as [-> ->]. rewrite with_input_nil.
    eexists 1%nat, _, []. split; [reflexivity|]. rewrite !app_nil_r.
    unfold encodes. cbn [take map concat after_command l_read_reploff l_pending l_reploff drop waiting_for settled].
    rewrite app_nil_r. do 3 (split; [done|]). split; [by destruct (applies (exec argv st))|]. split; [done|simpl; lia].
  - set (l1 := after_command b2 l (exec argv st)).
    destruct (IH (S fuel) a2 [] (encode_command a2) b2 tail l1 (exec argv st) Hf (reading_fresh _ _ _ _) E2 ltac:(lia))
      as (k & l2 & part2 & -> & Eb & Rd & P & O & W & Hk).
    exists (S k), l2, part2. unfold l1, after_command in Rd, P, O. cbn [l_read_reploff l_pending l_reploff] in *.
    split; [done|].
    split. { rewrite app_assoc, EQ. cbn [take]. unfold encodes in *. cbn [map concat]. rewrite <- app_assoc.
             f_equal. exact Eb. }
    split; [done|]. split; [done|]. split; [|split; [done|simpl in *; lia]]. rewrite O.
    change (take (S k) (argv :: a2 :: cmds)) with (argv :: take k (a2 :: cmds)).
    set (ran := take k (a2 :: cmds)) in *. cbn [settled].
    destruct (settled exec applies (exec argv st) ran); [|done].
    destruct (applies (exec argv st)); [|done]. change (drop 1 (argv :: ran)) with ran. by rewrite <- Eb.
Qed.

(** ** The invariant of a link *)

(** After the prefix [P] of the stream of [cmds] was read, from offset [off0]
    and state [st0] on: [k] commands have run, and no other; the applied offset
    is the end of the last one that left no transaction open, and the bytes from
    there on are kept. *)

Definition link_inv (off0 : Z) (st0 : St) (cmds : list (list bytes)) (P : bytes) (k : nat) (l : link) (st : St) : Prop :=
  let s := settled exec applies st0 (take k cmds) in
  exists part, P = encodes (take k cmds) ++ part /\ (k <= length cmds)%nat /\
    st = run st0 (take k cmds) /\
    l_reploff l = off0 + Z.of_nat (length (encodes (take s cmds))) /\
    l_read_reploff l = off0 + Z.of_nat (length P) /\ l_pending l = encodes (drop s (take k cmds)) ++ part /\
    waiting_for (drop k cmds) part l.

Lemma link_start off0 st0 cmds :
  link_inv off0 st0 cmds [] 0 (MkLink (fresh []) REQ_UNKNOWN off0 off0 []) st0.
Proof.
  exists []. unfold encodes. simpl. repeat (split; [done || lia|]). rewrite drop_0.
  destruct cmds; [done|]. eexists. apply reading_fresh.
Qed.

Lemma foldl_take_add {A B} (f : A -> B -> A) a l k j :
  foldl f (foldl f a (take k l)) (take j (drop k l)) = foldl f a (take (k + j) l).
Proof. by rewrite <- foldl_app, take_take_drop. Qed.

(** What [j] more commands settle. *)

Lemma settled_more st0 cmds k j :
  (k <= length cmds)%nat ->
  let s := settled exec applies st0 (take k cmds) in
  let s2 := settled exec applies st0 (take (k + j) cmds) in
  (s <= s2)%nat /\ encodes (take s2 cmds) = encodes (take s cmds) ++ encodes (drop s (take s2 cmds)) /\
  s2 = match settled exec applies (run st0 (take k cmds)) (take j (drop k cmds)) with O => s | S n => (k + S n)%nat end.
Proof.
  intros Hk s s2. assert (length (take k cmds) = k) as Lk by (rewrite length_take; lia).
  assert (s2 = match settled exec applies (run st0 (take k cmds)) (take j (drop k cmds)) with O => s | S n => (k + S n)%nat end) as E.
  { unfold s2. rewrite <- take_take_drop, settled_app, Lk. done. }
  assert (s <= k)%nat as Hs by (pose proof (settled_le exec applies (take k cmds) st0); unfold s; lia).
  assert (s <= s2)%nat as Hs2 by (rewrite E; clear E; destruct (settled exec applies (run st0 (take k cmds)) _); lia).
  split; [done|]. split; [|done]. rewrite <- encodes_app. f_equal. rewrite <- (take_drop s (take s2 cmds)) at 1.
  f_equal. rewrite take_take. f_equal. lia.
Qed.

(** The bytes that are kept, after [j] more commands. *)

Lemma settled_pending st0 cmds k j :
  (k <= length cmds)%nat ->
  let s := settled exec applies st0 (take k cmds) in
  let s2 := settled exec applies st0 (take (k + j) cmds) in
  encodes (drop s (take k cmds)) ++ encodes (take j (drop k cmds)) =
  encodes (drop s (take s2 cmds)) ++ encodes (drop s2 (take (k + j) cmds)).
Proof.
  intros Hk s s2. destruct (settled_more st0 cmds k j Hk) as (Hs & _ & _). fold s s2 in Hs.
  assert (s <= k)%nat as Hs1 by (pose proof (settled_le exec applies (take k cmds) st0) as H; rewrite length_take in H; unfold s; lia).
  assert (s2 <= k + j)%nat as Hs2
    by (pose proof (settled_le exec applies (take (k + j) cmds) st0) as H; rewrite length_take in H; unfold s2; lia).
  rewrite <- !encodes_app. f_equal.
  assert (drop s (take k cmds) ++ take j (drop k cmds) = drop s (take (k + j) cmds)) as ->.
  { rewrite <- take_take_drop, drop_app_le by (rewrite length_take; lia). done. }
  rewrite <- (take_drop s2 (take (k + j) cmds)) at 1. rewrite take_take, Nat.min_l by lia.
  rewrite drop_app_le; [done|]. rewrite length_take. 
  pose proof (settled_le exec applies (take (k + j) cmds) st0) as H. rewrite length_take in H. unfold s2 in *. lia.
Qed.

Lemma link_step off0 st0 cmds P b tail k l st :
  Forall readable cmds -> connected st = true -> link_inv off0 st0 cmds P k l st -> P ++ b ++ tail = encodes cmds ->
  exists k2 l2 st2 fwd, readQuery exec connected multi max_bulk false b l st = Ok (l2, st2, fwd) /\
    link_inv off0 st0 cmds (P ++ b) k2 l2 st2 /\
    encodes (take (settled exec applies st0 (take k2 cmds)) cmds) =
      encodes (take (settled exec applies st0 (take k cmds)) cmds) ++ fwd.
Proof.
  intros Hf Hc (part & EP & Hk & Est & Eo & Er & Epd & W) E. unfold readQuery. rewrite Hc.
  set (s := settled exec applies st0 (take k cmds)) in *.
  set (l1 := MkLink (l_reader l) (l_reqtype l) (l_reploff l) (l_read_reploff l + Z.of_nat (length b)) (l_pending l ++ b)).
  change (MkLink (append_input b (l_reader l)) (l_reqtype l) (l_reploff l) (l_read_reploff l + Z.of_nat (length b))
            (l_pending l ++ b)) with (with_input b l1).
  assert (part ++ b ++ tail = encodes (drop k cmds)) as Ed.
  { rewrite <- (take_drop k cmds), encodes_app, EP, <- app_assoc in E. by apply app_inv_head in E. }
  destruct (drop k cmds) as [|argv rest] eqn:Edr.
  { (* nothing remains, and nothing arrives *)
    destruct W as (-> & Hr & Ht). simpl in Ed. apply app_eq_nil in Ed as [-> ->].
    rewrite with_input_nil. cbn [processInputBuffer l1 l_reader l_reploff]. rewrite Hr.
    rewrite (bool_decide_true (querybuf (fresh []) = [])) by done. cbn [mbind res_bind l1 l_reploff].
    rewrite Z.sub_diag. cbn [Z.eqb]. eexists k, _, _, []. split; [reflexivity|]. fold s. rewrite !app_nil_r.
    split; [|done]. exists []. fold s. unfold l1. cbn [l_reploff l_read_reploff l_pending l_reader l_reqtype length].
    rewrite !app_nil_r, Edr, Epd. rewrite app_nil_r in EP. rewrite app_nil_r. repeat (split; [done || lia|]). done. }
  destruct W as [Q R]. assert (reading argv part Q l1) as R1 by exact R.
  assert (Forall readable (argv :: rest)) as Hf2 by (rewrite <- Edr; by apply Forall_drop).
  assert (Q ++ encodes rest = b ++ tail) as Eb.
  { destruct R as (_ & EQ & _). unfold encodes in Ed. cbn [map concat] in Ed. rewrite <- EQ, <- app_assoc in Ed.
    apply app_inv_head in Ed. by symmetry. }
  destruct (process_stream rest (S (length (querybuf (append_input b (l_reader l))))) argv part Q b tail l1 st
              Hf2 R1 Eb) as (j & l2 & part2 & -> & Ep & Rd & Pd & O & W2 & Hj).
  { unfold append_input. cbn [querybuf]. rewrite length_app. lia. }
  cbn [mbind res_bind]. unfold l1 in Rd, Pd, O. cbn [l_read_reploff l_pending l_reploff] in Rd, Pd, O.
  change (l_reploff (with_input b l1)) with (l_reploff l).
  rewrite <- Edr in Ep, W2, Hj, O |- *. rewrite drop_drop in W2. rewrite length_drop in Hj.
  destruct (settled_more st0 cmds k j Hk) as (Hs2 & Ee & Es2). pose proof (settled_pending st0 cmds k j Hk) as Ek.
  fold s in Hs2, Ee, Es2, Ek. set (s2 := settled exec applies st0 (take (k + j) cmds)) in *.
  set (D := encodes (drop s (take s2 cmds))) in *. set (K := encodes (drop s2 (take (k + j) cmds))) in *.
  assert (P ++ b = encodes (take (k + j) cmds) ++ part2) as EP2.
  { rewrite EP, <- take_take_drop, encodes_app, <- !app_assoc. f_equal. exact Ep. }
  assert (l_pending l2 = D ++ K ++ part2) as Epd2.
  { rewrite Pd, Epd, <- app_assoc, Ep, app_assoc, Ek, <- app_assoc. done. }
  assert (l_reploff l2 = l_reploff l + Z.of_nat (length D)) as Ol2.
  { rewrite O. rewrite <- Est in Es2. pose proof (f_equal length Ee) as Le. rewrite length_app in Le.
    destruct (settled exec applies st (take j (drop k cmds))) as [|n].
    - rewrite Es2 in Le. lia.
    - pose proof (f_equal length Epd2) as L2. rewrite Pd, Epd, !length_app in L2.
      pose proof (f_equal length EP) as LP. rewrite length_app in LP.
      assert (encodes (drop (S n) (take j (drop k cmds))) = K) as ->.
      { unfold K. rewrite Es2, <- take_take_drop. f_equal. rewrite drop_app_ge by (rewrite length_take; lia).
        f_equal. rewrite length_take. lia. }
      assert (encodes (take k cmds) = encodes (take s cmds) ++ encodes (drop s (take k cmds))) as Ek2.
      { rewrite <- encodes_app. f_equal. rewrite <- (take_drop s (take k cmds)) at 1. f_equal. rewrite take_take. f_equal.
        pose proof (settled_le exec applies (take k cmds) st0) as H. rewrite length_take in H. unfold s. lia. }
      apply (f_equal length) in Ek2. rewrite length_app in Ek2. rewrite length_app. rewrite Er, Eo. lia. }
  assert (forall l3 : link, l_reader l3 = l_reader l2 -> l_reqtype l3 = l_reqtype l2 ->
    l_reploff l3 = l_reploff l2 -> l_read_reploff l3 = l_read_reploff l2 -> l_pending l3 = K ++ part2 ->
    link_inv off0 st0 cmds (P ++ b) (k + j) l3 (run st (take j (drop k cmds)))) as I.
  { intros l3 H1 H2 H3 H4 H5. exists part2. fold s2. split; [done|].
    split; [lia|]. split; [rewrite Est; apply foldl_take_add|]. split; [rewrite H3, Ol2, Eo, Ee, length_app; lia|].
    split; [rewrite H4, Rd, Er, length_app; lia|]. split; [done|].
    unfold waiting_for, reading in *. by rewrite H1, H2. }
  rewrite Ol2. destruct (Z.eqb_spec (l_reploff l + Z.of_nat (length D) - l_reploff l) 0) as [Z0|Z0].
  - assert (D = []) as D0 by (apply length_zero_iff_nil; lia).
    exists (k + j)%nat, l2. eexists. exists []. split; [reflexivity|]. rewrite app_nil_r.
    split; [|fold s2; by rewrite Ee, D0, app_nil_r]. apply I; try done. by rewrite Epd2, D0.
  - exists (k + j)%nat. do 2 eexists. exists D. split; [do 3 f_equal|].
    + rewrite Epd2. replace (Z.to_nat (l_reploff l + Z.of_nat (length D) - l_reploff l)) with (length D) by lia.
      apply take_app_length.
    + split; [|done]. apply I; try done. cbn [l_pending]. rewrite sdsrange_suffix by lia. rewrite Epd2.
      replace (Z.to_nat (l_reploff l + Z.of_nat (length D) - l_reploff l)) with (length D) by lia.
      apply drop_app_length.
Qed.

Lemma link_steps off0 st0 cmds bs : forall P tail k l st,
  Forall readable cmds -> (forall k, connected (run st0 (take k cmds)) = true) ->
  link_inv off0 st0 cmds P k l st -> P ++ concat bs ++ tail = encodes cmds ->
  exists k2 l2 st2 fwd, readQueries exec connected multi max_bulk false bs l st = Ok (l2, st2, fwd) /\
    link_inv off0 st0 cmds (P ++ concat bs) k2 l2 st2 /\
    encodes (take (settled exec applies st0 (take k2 cmds)) cmds) =
      encodes (take (settled exec applies st0 (take k cmds)) cmds) ++ fwd.
Proof.
  induction bs as [|b bs IH]; intros P tail k l st Hf Hc I E; cbn [readQueries concat] in *.
  - exists k, l, st, []. rewrite !app_nil_r. done.
  - rewrite <- app_assoc in E. assert (connected st = true) as Hst by (destruct I as (part & _ & _ & -> & _); apply Hc).
    destruct (link_step off0 st0 cmds P b (concat bs ++ tail) k l st Hf Hst I E) as (k2 & l2 & st2 & f & -> & I2 & E2).
    cbn [mbind res_bind].
    destruct (IH (P ++ b) tail k2 l2 st2 Hf Hc I2) as (k3 & l3 & st3 & f3 & -> & I3 & E3); [by rewrite <- app_assoc|].
    cbn [mbind res_bind]. exists k3, l3, st3, (f ++ f3). split; [done|].
    split; [by rewrite app_assoc|]. by rewrite E3, E2, app_assoc.
Qed.

(** The next command has not arrived completely. *)

Lemma link_inv_next off0 st0 cmds P k l st :
  link_inv off0 st0 cmds P k l st ->
  forall argv rest, drop k cmds = argv :: rest ->
  exists part Q, P = encodes (take k cmds) ++ part /\ part ++ Q = encode_command argv /\ Q <> [].
Proof.
  intros (part & EP & _ & _ & _ & _ & _ & W) argv rest E. rewrite E in W. destruct W as [Q (N & EQ & _)].
  by exists part, Q.
Qed.

(** When everything was read, every command has run. *)

Lemma link_inv_all off0 st0 cmds k l st : link_inv off0 st0 cmds (encodes cmds) k l st -> take k cmds = cmds.
Proof.
  intros I. pose proof (link_inv_next _ _ _ _ _ _ _ I) as Nx. rewrite <- (take_drop k cmds) at 2.
  destruct (drop k cmds) as [|argv rest] eqn:Ed; [by rewrite app_nil_r|]. exfalso.
  destruct (Nx argv rest eq_refl) as (part & Q & EP & EQ & HQ).
  rewrite <- (take_drop k cmds) in EP at 1. rewrite encodes_app, Ed in EP.
  apply app_inv_head in EP. unfold encodes in EP. cbn [map concat] in EP. rewrite <- EQ in EP.
  apply (f_equal length) in EP. rewrite !length_app in EP. destruct Q; [done|simpl in EP; lia].
Qed.

Lemma link_inv_cached off0 st0 cmds P k l st :
  link_inv off0 st0 cmds P k l st ->
  cacheMaster l = MkLink (fresh []) REQ_UNKNOWN (l_reploff l) (l_reploff l) [].
Proof.
  intros (part & _ & _ & _ & _ & _ & _ & W). unfold cacheMaster, resetClient, fresh. simpl.
  assert (close (l_reader l) = false) as ->; [|done].
  destruct (drop k cmds); [destruct W as (_ & -> & _); done|]. by destruct W as (Q & _ & _ & _ & _ & ? & _).
Qed.

(** ** A link that is not connected

    The commands run, and nothing else happens. *)

Definition plain_inv (l0 : link) (st0 : St) (cmds : list (list bytes)) (P : bytes) (k : nat) (l : link) (st : St) : Prop :=
  exists part, P = encodes (take k cmds) ++ part /\ (k <= length cmds)%nat /\ st = run st0 (take k cmds) /\
    l_reploff l = l_reploff l0 /\ l_read_reploff l = l_read_reploff l0 /\ l_pending l = l_pending l0 /\
    waiting_for (drop k cmds) part l.

Lemma plain_step l0 st0 cmds P b tail k l st :
  Forall readable cmds -> (forall k, connected (run st0 (take k cmds)) = false) ->
  plain_inv l0 st0 cmds P k l st -> P ++ b ++ tail = encodes cmds ->
  exists k2 l2 st2, readQuery exec connected multi max_bulk false b l st = Ok (l2, st2, []) /\
    plain_inv l0 st0 cmds (P ++ b) k2 l2 st2.
Proof.
  intros Hf Hc (part & EP & Hk & Est & Eo & Er & Epd & W) E. unfold readQuery.
  assert (connected st = false) as Hst by (rewrite Est; apply Hc). rewrite Hst.
  change (MkLink (append_input b (l_reader l)) (l_reqtype l) (l_reploff l) (l_read_reploff l) (l_pending l)) with (with_input b l).
  assert (part ++ b ++ tail = encodes (drop k cmds)) as Ed.
  { rewrite <- (take_drop k cmds), encodes_app, EP, <- app_assoc in E. by apply app_inv_head in E. }
  destruct (drop k cmds) as [|argv rest] eqn:Edr.
  { destruct W as (-> & Hr & Ht). simpl in Ed. apply app_eq_nil in Ed as [-> ->].
    rewrite with_input_nil. cbn [processInputBuffer]. rewrite Hr, (bool_decide_true (querybuf (fresh []) = [])) by done.
    cbn [mbind res_bind]. exists k, l, st. split; [done|]. rewrite app_nil_r in *. exists []. rewrite Edr, app_nil_r. by repeat (split; [done|]). }
  destruct W as [Q R].
  assert (Forall readable (argv :: rest)) as Hf2 by (rewrite <- Edr; by apply Forall_drop).
  assert (Q ++ encodes rest = b ++ tail) as Eb.
  { destruct R as (_ & EQ & _). unfold encodes in Ed. cbn [map concat] in Ed. rewrite <- EQ, <- app_assoc in Ed.
    apply app_inv_head in Ed. by symmetry. }
  destruct (process_stream rest (S (length (querybuf (append_input b (l_reader l))))) argv part Q b tail l st
              Hf2 R Eb) as (j & l2 & part2 & -> & Ep & Rd & Pd & O & W2 & Hj).
  { unfold append_input. cbn [querybuf]. rewrite length_app. lia. }
  cbn [mbind res_bind]. rewrite <- Edr in Ep, W2, Hj, O |- *. rewrite drop_drop in W2. rewrite length_drop in Hj.
  rewrite settled_none in O.
  2:{ intros i. rewrite take_take, Est, foldl_take_add. unfold applies. by rewrite Hc. }
  exists (k + j)%nat, l2. eexists. split; [reflexivity|]. exists part2.
  split; [rewrite EP, <- take_take_drop, encodes_app, <- !app_assoc; f_equal; exact Ep|]. split; [lia|].
  split; [rewrite Est; apply foldl_take_add|]. split; [congruence|]. split; [congruence|]. split; [congruence|done].
Qed.

Lemma plain_steps l0 st0 cmds bs : forall P tail k l st,
  Forall readable cmds -> (forall k, connected (run st0 (take k cmds)) = false) ->
  plain_inv l0 st0 cmds P k l st -> P ++ concat bs ++ tail = encodes cmds ->
  exists k2 l2 st2, readQueries exec connected multi max_bulk false bs l st = Ok (l2, st2, []) /\
    plain_inv l0 st0 cmds (P ++ concat bs) k2 l2 st2.
Proof.
  induction bs as [|b bs IH]; intros P tail k l st Hf Hc I E; cbn [readQueries concat] in *.
  - exists k, l, st. by rewrite app_nil_r.
  - rewrite <- app_assoc in E.
    destruct (plain_step l0 st0 cmds P b (concat bs ++ tail) k l st Hf Hc I E) as (k2 & l2 & st2 & -> & I2).
    cbn [mbind res_bind].
    destruct (IH (P ++ b) tail k2 l2 st2 Hf Hc I2) as (k3 & l3 & st3 & -> & I3); [by rewrite <- app_assoc|].
    cbn [mbind res_bind]. exists k3, l3, st3. split; [done|]. by rewrite app_assoc.
Qed.

(** The whole stream is read from a fresh link. *)

Lemma plain_all off0 st0 cmds reads :
  Forall readable cmds -> (forall k, connected (run st0 (take k cmds)) = false) -> concat reads = encodes cmds ->
  readQueries exec connected multi max_bulk false reads (MkLink (fresh []) REQ_UNKNOWN off0 off0 []) st0 =
    Ok (MkLink (fresh []) REQ_UNKNOWN off0 off0 [], run st0 cmds, []).
Proof.
  intros Hf Hc Hcut. set (l0 := MkLink (fresh []) REQ_UNKNOWN off0 off0 []).
  destruct (plain_steps l0 st0 cmds reads [] [] 0 l0 st0 Hf Hc) as (k & l & st & -> & part & EP & Hk & Est & Eo & Er & Epd & W).
  { exists []. unfold encodes. simpl. repeat (split; [done || lia|]). rewrite drop_0.
    destruct cmds; [done|]. eexists. apply reading_fresh. }
  { by rewrite app_nil_r. }
  simpl app in EP. rewrite Hcut in EP. rewrite <- (take_drop k cmds) in EP at 1. rewrite encodes_app in EP. apply app_inv_head in EP.
  destruct (drop k cmds) as [|argv rest] eqn:Ed.
  - destruct W as (_ & Hr & Ht). assert (take k cmds = cmds) as Ek by (rewrite <- (take_drop k cmds) at 2; by rewrite Ed, app_nil_r).
    rewrite Ek in Est.
    destruct l as [r t o rd p]. simpl in *. by subst.
  - exfalso. destruct W as [Q (N & EQ & _)]. unfold encodes in EP. cbn [map concat] in EP. rewrite <- EQ in EP.
    apply (f_equal length) in EP. rewrite !length_app in EP. destruct Q; [done|simpl in EP; lia].
Qed.

End stream.

(** ** A sequence of writes *)

(** Each write is a database and a command. *)

Fixpoint feed_writes (writes : list (Z * list robj)) (w : world) : res world :=
  match writes with
  | [] => Ok w
  | (dictid, argv) :: writes => w ← replicationFeedAllSlaves dictid argv w; feed_writes writes w
  end.

(** The commands on the wire; [differs] tells which databases are not selected. *)

Fixpoint fed_commands (gid : Z) (differs : Z -> bool) (writes : list (Z * list robj)) : list (list bytes) :=
  match writes with
  | [] => []
  | (d, argv) :: writes =>
      (if differs d then [[str "CRDT.SELECT"; print_Z gid; print_Z d]] else []) ++
      map obj_bytes argv :: fed_commands gid (fun d' => negb (d =? d')) writes
  end.

Lemma fed_commands_ext gid f g writes :
  (forall d, f d = g d) -> fed_commands gid f writes = fed_commands gid g writes.
Proof. intros H. destruct writes as [|[d argv] writes]; [done|]. simpl. by rewrite H. Qed.

Lemma same_rest_role w w' :
  same_rest w w' -> w_crdt w' = w_crdt w /\ proxies_master w' = proxies_master w.
Proof. intros R. unfold same_rest in R. rewrite R. by destruct w. Qed.

Lemma seldb_all w d d' :
  (forall i, slaveseldb (get_srv i w) = d) -> seldb_differs d' w = negb (d =? d').
Proof.
  intros H. unfold seldb_differs. pose proof (H SERVER) as H1. pose proof (H CRDT) as H2. simpl in H1, H2.
  rewrite H1, H2. by destruct (d =? d').
Qed.

Lemma feed_writes_fed writes : forall w,
  world_ok w -> proxies_master w = false -> Forall (fun x => Forall robj_ok (snd x)) writes ->
  exists w', feed_writes writes w = Ok w' /\
    world_fed (encodes (fed_commands (crdt_gid (w_crdt w)) (fun d => seldb_differs d w) writes)) w w'.
Proof.
  induction writes as [|[d argv] writes IH]; intros w Hw Hm Hf; cbn [feed_writes fed_commands].
  - exists w. split; [done|]. apply world_fed_nil.
  - apply Forall_cons in Hf as [Ha Hf]. simpl in Ha.
    destruct (feed_all d argv w Hw Hm Ha) as (w1 & -> & F1 & D1). cbn [mbind res_bind].
    pose proof F1 as [R1 _]. apply same_rest_role in R1 as [Ec Ep].
    destruct (IH w1) as (w2 & -> & F2); [by eapply world_fed_ok|by rewrite Ep|done|].
    exists w2. split; [done|]. rewrite Ec, (fed_commands_ext _ _ (fun d' => negb (d =? d'))) in F2
      by (intros d'; by apply seldb_all).
    pose proof (world_fed_app _ _ _ _ _ F1 F2) as F. unfold select_prefix in F.
    rewrite encodes_app. unfold encodes in *. cbn [map concat].
    replace (concat (map encode_command
       (if seldb_differs d w then [[str "CRDT.SELECT"; print_Z (crdt_gid (w_crdt w)); print_Z d]] else [])))
      with (if seldb_differs d w
            then encode_command [str "CRDT.SELECT"; print_Z (crdt_gid (w_crdt w)); print_Z d] else [])
      by (destruct (seldb_differs d w); [cbn [map concat]; by rewrite app_nil_r|done]).
    by rewrite <- app_assoc in F.
Qed.

(** ** Claims *)

(** C9: the link with a peer runs exactly the complete commands.  However the
    stream of the peer is cut into reads, and wherever it stops: the commands
    that have arrived completely have been handed to [processCommand], in order
    and once each, and the next one has not arrived completely.  The replication
    offset of the link is the end of the last of them that left no transaction
    open: those of a [CRDT.MULTI] whose [CRDT.EXEC] has not come are not counted.
    The bytes forwarded to this server's own slaves are exactly the encodings of
    the commands that are counted.  The peer is in the state CONNECTED all along,
    the clients are not paused, and every command is at most 64 kB. *)
Theorem peer_stream_applied {St : Type} (exec : list bytes -> St -> St) (connected multi : St -> bool)
    (max_bulk off0 : Z) (st0 : St) (cmds : list (list bytes)) (reads : list bytes) (tail : bytes) :
  let run k := foldl (fun st c => exec c st) st0 (take k cmds) in
  forall (Hconn : forall k, connected (run k) = true)
    (Hread : Forall (readable max_bulk) cmds) (Hcut : concat reads ++ tail = encodes cmds),
  exists k s l, readQueries exec connected multi max_bulk false reads
                  (MkLink (fresh []) REQ_UNKNOWN off0 off0 []) st0 = Ok (l, run k, encodes (take s cmds)) /\
    l_reploff l = off0 + Z.of_nat (length (encodes (take s cmds))) /\
    (s <= k <= length cmds)%nat /\ (s = 0%nat \/ multi (run s) = false) /\
    (forall i, (s < i <= k)%nat -> multi (run i) = true) /\
    (exists part, concat reads = encodes (take k cmds) ++ part /\
       forall argv rest, drop k cmds = argv :: rest ->
         exists Q, part ++ Q = encode_command argv /\ Q <> []).
Proof.
  intros run Hconn Hread Hcut.
  destruct (link_steps exec connected multi max_bulk off0 st0 cmds reads [] tail 0
              (MkLink (fresh []) REQ_UNKNOWN off0 off0 []) st0 Hread Hconn (link_start _ _ _ _ _ _) Hcut)
    as (k & l & st & fwd & E & I & Ef).
  simpl app in I. pose proof (link_inv_next _ _ _ _ _ _ _ _ _ _ I) as Nx.
  set (q := applies connected multi) in *. set (s := settled exec q st0 (take k cmds)) in *.
  assert (encodes (take s cmds) = fwd) as <- by exact Ef.
  destruct I as (part & EP & Hk & -> & Eo & _). exists k, s, l. split; [done|]. split; [done|].
  pose proof (settled_le exec q (take k cmds) st0) as Hs. fold s in Hs. rewrite length_take in Hs.
  assert (forall i, (i <= k)%nat -> take i (take k cmds) = take i cmds) as Ht by (intros i Hi; rewrite take_take; f_equal; lia).
  split; [lia|]. split; [|split].
  - destruct (settled_quiet exec q (take k cmds) st0) as [|H]; [by left|right]. fold s in H. rewrite Ht in H by lia.
    unfold q, applies in H. apply andb_prop in H as [_ H]. by apply negb_true_iff.
  - intros i Hi. pose proof (settled_last exec q (take k cmds) st0 i) as H. fold s in H.
    rewrite length_take, Ht in H by lia. unfold q, applies in H. fold (run i) in H. rewrite Hconn in H.
    apply negb_false_iff, H. lia.
  - exists part. split; [done|]. intros argv rest Ed. destruct (Nx argv rest Ed) as (part' & Q & EP' & EQ & HQ).
    rewrite EP in EP'. apply app_inv_head in EP' as <-. by exists Q.
Qed.

(** A state with a transaction: the commands that ran, and the queue. *)

Definition example_run (c : list bytes) (st : option (list (list bytes)) * list (list bytes)) :
    option (list (list bytes)) * list (list bytes) :=
  match fst st with
  | None => if bool_decide (c = [str "crdt.multi"]) then (Some [], snd st) else (None, snd st ++ [c])
  | Some queue => if bool_decide (c = [str "crdt.exec"]) then (None, snd st ++ queue) else (Some (queue ++ [c]), snd st)
  end.

Definition example_multi (st : option (list (list bytes)) * list (list bytes)) : bool := bool_decide (fst st <> None).

Lemma peer_stream_applied_witness :
  let cmds := [[str "set"; str "k"]; [str "crdt.multi"]; [str "del"]; [str "crdt.exec"]] in
  let reads := [take 2 (encodes cmds); take 60 (drop 2 (encodes cmds))] in
  let run k := foldl (fun st c => example_run c st) (None, []) (take k cmds) in
  exists k s l, readQueries example_run (fun _ => true) example_multi 512 false reads
                  (MkLink (fresh []) REQ_UNKNOWN 100 100 []) (None, []) = Ok (l, run k, encodes (take s cmds)) /\
    l_reploff l = 100 + Z.of_nat (length (encodes (take s cmds))) /\
    (s <= k <= length cmds)%nat /\ (s = 0%nat \/ example_multi (run s) = false) /\
    (forall i, (s < i <= k)%nat -> example_multi (run i) = true) /\
    (exists part, concat reads = encodes (take k cmds) ++ part /\
       forall argv rest, drop k cmds = argv :: rest ->
         exists Q, part ++ Q = encode_command argv /\ Q <> []).
Proof.
  intros cmds reads run.
  apply (peer_stream_applied example_run (fun _ => true) example_multi 512 100 (None, []) cmds reads (drop 62 (encodes cmds)));
    [done| |reflexivity].
  repeat (constructor; [split; decide_now|]). constructor.
Defined.

(** There the peer has run three commands; the first is counted, the other two
    belong to the transaction that is open. *)

Lemma example_open_transaction :
  let wire := encodes [[str "set"; str "k"]; [str "crdt.multi"]; [str "del"]; [str "crdt.exec"]] in
  (r ← readQueries example_run (fun _ => true) example_multi 512 false [take 2 wire; take 60 (drop 2 wire)]
        (MkLink (fresh []) REQ_UNKNOWN 100 100 []) (None, []);
   Ok (l_reploff (fst (fst r)), l_read_reploff (fst (fst r)), snd (fst r), snd r)) =
  Ok (120, 162, (Some [[str "del"]], [[str "set"; str "k"]]), encode_command [str "set"; str "k"]).
Proof. vm_compute. reflexivity. Qed.
