(* ===== verification/PeerState.v ===== *)
(** * The masters of a server ([src/src/ctrip_crdt_replication.c])

    A [CRDT_Master_Instance] per peer: its creation and removal, the client of
    its link and the cached client of a lost one, the commands PEEROF,
    CRDT.MERGE_START, CRDT.MERGE_END and CRDT.PEER.CHANGE.  [getPeerMaster] reads
    an array of 16 pointers: another index has no defined behaviour. *)

From S2P Require Import Prelude Util Sds VectorClock VcTheory VcText VcClaims Proxy CrdtServer Backlog Resp World Feed Psync.

Definition REPL_STATE_NONE : Z := 0.

Definition REPL_STATE_CONNECT : Z := 1.

Definition REPL_STATE_CONNECTING : Z := 2.

Definition REPL_STATE_RECEIVE_PONG : Z := 3.

Definition REPL_STATE_RECEIVE_PSYNC : Z := 23.

Definition REPL_STATE_TRANSFER : Z := 24.

Definition NO_LAZY_TIME : Z := 0.

(** ** The array of peers *)

Definition getPeerMaster (g : Z) (w : world) : res (option peer) :=
  let g := to_int g in
  if (0 <=? g) && (g <? MAX_PEERS + 1) then Ok (crdtMasters (w_crdt w) !! g) else Undef.

Definition set_peer (g : Z) (p : peer) (w : world) : world :=
  set_w_crdt (set_crdtMasters (<[g := p]> (crdtMasters (w_crdt w))) (w_crdt w)) w.

(** [mstime] is the time of the call in milliseconds. *)

Definition createPeerMaster (mstime : Z) (c : option client) (g : Z) (w : world) : peer * world :=
  (MkPeer g None None (-1) c None REPL_STATE_NONE (-1) mstime 0 None (-1) [] 0 [] NO_LAZY_TIME NONE_PROXY None,
   set_w_crdt (addPeerSet g (w_crdt w)) w).

(** The instance is freed with its clients, which lose the flag that would have
    them cached. *)

Definition freePeerMaster (p : peer) (w : world) : world :=
  set_w_crdt (set_crdtMasters (delete (to_int (p_gid p)) (crdtMasters (w_crdt w))) (w_crdt w)) w.

Definition tryCleanCrdtServerLoading (w : world) : world :=
  if forallb (fun i => match crdtMasters (w_crdt w) !! i with
                       | Some p => isNullVectorClock (backstream_vc p)
                       | None => true
                       end) (seqZ 0 (Z.shiftl 1 GIDSIZE))
  then set_w_crdt (set_loading false (w_crdt w)) w else w.

(** ** The client of a link *)

Definition createClient (fd unixtime : Z) : client := MkClient (-1) fd false false 0 0 0 None unixtime.

Definition crdtReplicationHandleMasterDisconnection (c : client) (w : world) : res world :=
  o ← getPeerMaster (cl_gid c) w;
  match o with
  | None => Ok w
  | Some p =>
      let p := set_master None p in
      let p := set_repl_state REPL_STATE_CONNECT p in
      Ok (set_peer (to_int (cl_gid c)) (set_repl_down_since (w_unixtime w) p) w)
  end.

(** The input read and not processed is dropped, the socket is closed. *)

Definition crdtReplicationCacheMaster (c : client) (w : world) : res world :=
  if negb (cl_crdt_master c) then Ok w else
  o ← getPeerMaster (cl_gid c) w;
  p ← need o;
  let m := (fun m => set_cl_fd (-1) (set_cl_read_reploff (cl_reploff m) m)) <$> master p in
  let w := set_peer (to_int (cl_gid c)) (set_cached_master m (set_master m p)) w in
  crdtReplicationHandleMasterDisconnection c w.

(** [freeClient] as far as the link with a peer is concerned. *)

Definition freeClient (c : client) (w : world) : res world :=
  if cl_crdt_master c then
    if negb (cl_closing c) then crdtReplicationCacheMaster c w
    else crdtReplicationHandleMasterDisconnection c w
  else Ok w.

Definition crdtUndoConnectWithMaster (p : peer) : peer :=
  if repl_transfer_s p =? -1 then p else set_repl_transfer_s (-1) p.

Definition crdtReplicationAbortSyncTransfer (p : peer) : res peer :=
  _ ← c_assert (repl_state p =? REPL_STATE_TRANSFER);
  let p := crdtUndoConnectWithMaster p in
  Ok (match master p with
      | Some _ => set_master None p
      | None => p
      end).

Definition crdtSlaveIsInHandshakeState (p : peer) : bool :=
  (repl_state p >=? REPL_STATE_RECEIVE_PONG) && (repl_state p <=? REPL_STATE_RECEIVE_PSYNC).

Definition crdtCancelReplicationHandshake (g : Z) (w : world) : res world :=
  o ← getPeerMaster g w;
  match o with
  | None => Ok w
  | Some p =>
      if repl_state p =? REPL_STATE_TRANSFER then
        p ← crdtReplicationAbortSyncTransfer p;
        Ok (set_peer (to_int g) (set_repl_state REPL_STATE_CONNECT p) w)
      else if (repl_state p =? REPL_STATE_CONNECTING) || crdtSlaveIsInHandshakeState p then
        Ok (set_peer (to_int g) (set_repl_state REPL_STATE_CONNECT (crdtUndoConnectWithMaster p)) w)
      else Ok w
  end.

(** The readable event fails to register: the client is closed later. *)

Definition crdtReplicationResurrectCachedMaster (event_ok : bool) (newfd unixtime : Z) (p : peer) : res peer :=
  m ← need (cached_master p);
  let m := set_cl_lastinteraction unixtime (set_cl_closing false (set_cl_fd newfd m)) in
  let m := if event_ok then m else set_cl_closing true m in
  Ok (set_repl_state REPL_STATE_CONNECTED (set_cached_master None (set_master (Some m) p))).

Definition crdtReplicationDiscardCachedMaster (p : peer) : peer :=
  match cached_master p with
  | None => p
  | Some _ => set_cached_master None p
  end.

Definition crdtReplicationCreateMasterClient (p : peer) (c : client) (db : Z) : peer :=
  let c := set_cl_crdt_master true (set_cl_gid (p_gid p) c) in
  let c := if negb (db =? -1) then set_cl_db db c else c in
  set_master (Some c) p.

(** ** All peers at once *)

Fixpoint each_peer (f : Z -> peer -> world -> res world) (gids : list Z) (w : world) : res world :=
  match gids with
  | [] => Ok w
  | g :: gids =>
      w ← match crdtMasters (w_crdt w) !! g with
          | None => Ok w
          | Some p => f g p w
          end;
      each_peer f gids w
  end.

Definition all_gids : list Z := seqZ 0 (MAX_PEERS + 1).

Definition upd_peer (g : Z) (f : peer -> peer) (w : world) : world :=
  match crdtMasters (w_crdt w) !! g with
  | Some p => set_peer g (f p) w
  | None => w
  end.

Definition crdtReplicationCacheAllMaster (w : world) : res world :=
  each_peer (fun g p w =>
    w ← match master p with
        | Some m => crdtReplicationCacheMaster m (set_peer g (crdtReplicationDiscardCachedMaster p) w)
        | None => Ok w
        end;
    Ok (upd_peer g (set_repl_state REPL_STATE_NONE) w)) all_gids w.

Definition crdtReplicationCloseAllMasters (w : world) : res world :=
  each_peer (fun g p w =>
    let w := set_peer g (crdtReplicationDiscardCachedMaster p) w in
    w ← (if repl_state p =? REPL_STATE_CONNECTED then
           match master p with
           | Some m => freeClient m w
           | None => Ok w
           end
         else crdtCancelReplicationHandshake g w);
    Ok (upd_peer g (set_repl_state REPL_STATE_NONE) w)) all_gids w.

(** The link state of every peer is kept in a client without a socket. *)

Definition crdtReplicationAllPeersStateReset (w : world) : res world :=
  each_peer (fun g p w =>
    let c := set_cl_gid g (createClient (-1) (w_unixtime w)) in
    let copy (m c : client) :=
      set_cl_replid (cl_replid m) (set_cl_reploff (cl_reploff m)
        (set_cl_closing (cl_closing m) (set_cl_crdt_master (cl_crdt_master m) (set_cl_db (cl_db m) c)))) in
    let c := match master p with Some m => copy m c | None => c end in
    let c := match cached_master p with Some m => copy m c | None => c end in
    let p := crdtReplicationDiscardCachedMaster p in
    w ← (if repl_state p =? REPL_STATE_CONNECTED then Ok (set_peer g (set_master None p) w)
         else crdtCancelReplicationHandshake g (set_peer g p w));
    Ok (upd_peer g (fun p => set_repl_state REPL_STATE_NONE (set_master (Some c) p)) w)) all_gids w.

(** ** PEEROF *)

(** [sdsnew(ip)] copies the C string. *)

Definition crdtReplicationSetMaster (mstime g : Z) (ip : bytes) (port : Z) (w : world) : res world :=
  o ← getPeerMaster g w;
  let '(p, w) := match o with
                 | Some p => (p, w)
                 | None => let '(p, w) := createPeerMaster mstime None (to_int g) w in
                           (p, set_peer (to_int g) p w)
                 end in
  let p := set_lazy_time NO_LAZY_TIME (set_masterport port (set_masterhost (Some (cstr ip)) p)) in
  let w := set_peer (to_int g) p w in
  if iAmMaster w then
    w ← match master p with
        | Some m => freeClient m w
        | None => Ok w
        end;
    w ← crdtCancelReplicationHandshake g w;
    Ok (upd_peer (to_int g) (fun p => set_repl_down_since 0 (set_repl_state REPL_STATE_CONNECT p)) w)
  else Ok w.

Definition crdtReplicationUnsetMaster (g : Z) (w : world) : res world :=
  o ← getPeerMaster g w;
  match o with
  | None => Ok w
  | Some p =>
      let p := crdtReplicationDiscardCachedMaster (set_masterhost None p) in
      w ← crdtCancelReplicationHandshake g (set_peer (to_int g) p w);
      o ← getPeerMaster g w;
      p ← need o;
      Ok (tryCleanCrdtServerLoading (freePeerMaster p w))
  end.

(** The options from [argv[4]] on: the back-stream clock, the proxy, and whether
    the server is now loading.  A keyword at the end reads past the array. *)

Fixpoint peerof_options (all args : list bytes) (backstream_vc : VectorClock) (proxy_type : Z)
    (proxy : option XpipeProxy) (w : world)
  : res (world * (VectorClock * Z * option XpipeProxy + reply)) :=
  match args with
  | [] => Ok (w, inl (backstream_vc, proxy_type, proxy))
  | a :: args =>
      if strcaseeq (cstr a) (str "backstream") then
        match args with
        | [] => Undef
        | v :: args =>
            match string2ll v with
            | None => Ok (w, inr err_not_integer)
            | Some vcu =>
                vc ← addVectorClockUnit backstream_vc (crdt_gid (w_crdt w)) vcu;
                peerof_options all args vc proxy_type proxy (set_w_crdt (set_loading true (w_crdt w)) w)
            end
        end
      else if strcaseeq (cstr a) (str "proxy-type") then
        match args with
        | [] => Undef
        | v :: args =>
            let proxy_type := getProxyType v in
            if proxy_type =? NONE_PROXY then Ok (w, inr (ReplyError (str "proxy unknow type")))
            else
              pr ← parseProxyByRobjArray proxy_type all;
              match pr with
              | None => Ok (w, inr (ReplyError (str "proxy params error")))
              | Some pr => peerof_options all args backstream_vc proxy_type (Some pr) w
              end
        end
      else peerof_options all args backstream_vc proxy_type proxy w
  end.

Definition set_dirty_incr (w : world) : world := set_w_crdt (set_dirty (dirty (w_crdt w) + 1) (w_crdt w)) w.

(** The last part: the new master is set and the configuration rewritten. *)

Definition peerof_set (mstime : Z) (rewrite_ok : bool) (g : Z) (ip : bytes) (port : Z) (vc : VectorClock)
    (proxy_type : Z) (proxy : option XpipeProxy) (w : world) : res (world * reply) :=
  w ← crdtReplicationSetMaster mstime g ip (to_int port) w;
  o ← getPeerMaster g w;
  p ← need o;
  let p := if negb (isNullVectorClock vc) then set_backstream_vc vc p else p in
  let p := set_proxy proxy (set_proxy_type proxy_type p) in
  let w := set_peer (to_int g) p w in
  if negb rewrite_ok then
    w ← crdtReplicationUnsetMaster g w;
    Ok (w, ReplyError (str "Rewriting config file"))
  else
    let w := set_w_crdt (addPeerSet (to_int g) (w_crdt w)) w in
    Ok (set_dirty_incr w, ReplyOk).

(** The peer is already the one asked for: keep the link, or do nothing. *)

Definition peerof_same (p : peer) (g : Z) (vc : VectorClock) (proxy_type : Z) (proxy : option XpipeProxy) (w : world)
  : res (option (world * reply)) :=
  keep ← (if (proxy_type =? CrdtServer.proxy_type p) && (repl_state p =? REPL_STATE_CONNECTED)
          then '(b, pr) ← proxyIsKeepConnected proxy_type (CrdtServer.proxy p) proxy;
               Ok (if b : bool then Some pr else None)
          else Ok None);
  match keep with
  | Some pr => Ok (Some (set_dirty_incr (set_peer (to_int g) (set_proxy pr p) w), ReplyOk))
  | None =>
      eq ← (if VectorClockEqual (backstream_vc p) vc && (proxy_type =? CrdtServer.proxy_type p)
            then eqProxy proxy_type proxy (CrdtServer.proxy p) else Ok false);
      if eq : bool then
        if negb (lazy_time p =? NO_LAZY_TIME)
        then Ok (Some (set_peer (to_int g) (set_lazy_time NO_LAZY_TIME p) w, ReplyStatus (str "OK Clean lazy_time")))
        else Ok (Some (w, ReplyStatus (str "OK Already connected to specified master")))
      else Ok None
  end.

(** [argv] is the whole command, of at least four arguments. *)

Definition peerofCommand (cluster_enabled : bool) (mstime : Z) (rewrite_ok : bool) (argv : list bytes) (w : world)
  : res (world * reply) :=
  if cluster_enabled then Ok (w, ReplyError (str "PEEROF not allowed in cluster mode.")) else
  gid_arg ← need (argv !! 1%nat);
  host ← need (argv !! 2%nat);
  port_arg ← need (argv !! 3%nat);
  match string2ll gid_arg with
  | None => Ok (w, err_not_integer)
  | Some g =>
      if g =? crdt_gid (w_crdt w) then Ok (w, ReplyError (str "invalid gid")) else
      if strcaseeq (cstr host) (str "no") && strcaseeq (cstr port_arg) (str "one") then
        o ← getPeerMaster g w;
        w ← match o with
            | Some _ => crdtReplicationUnsetMaster g w
            | None => Ok w
            end;
        Ok (set_dirty_incr w, ReplyOk)
      else
        match string2ll port_arg with
        | None => Ok (w, err_not_integer)
        | Some port =>
            '(w, opts) ← peerof_options argv (drop 4 argv) [] NONE_PROXY None w;
            match opts with
            | inr e => Ok (w, e)
            | inl (vc, proxy_type, proxy) =>
                o ← getPeerMaster g w;
                same ← match o with
                       | Some p =>
                           h ← need (masterhost p);
                           if strcaseeq h (cstr host) && (masterport p =? port)
                           then peerof_same p g vc proxy_type proxy w else Ok None
                       | None => Ok None
                       end;
                match same with
                | Some r => Ok r
                | None => peerof_set mstime rewrite_ok g host port vc proxy_type proxy w
                end
            end
        end
  end.

(** ** The merge of a full resynchronization *)

(** [memcpy] of an id into a 41-byte buffer. *)

Definition copy_id (id : bytes) (buf : option bytes) : res (option bytes) :=
  if Z.of_nat (length id) >? Z.of_nat CONFIG_RUN_ID_SIZE + 1 then Undef
  else Ok (Some (cstr (id ++ match buf with
                             | Some old => drop (length id) old
                             | None => []
                             end))).

(** [c] is the client that runs the command; on the error path it is freed, or
    the handshake with [sourceGid] cancelled. *)

Definition merge_error (c : client) (sourceGid : Z) (w : world) : res world :=
  if iAmMaster w then crdtCancelReplicationHandshake sourceGid w else freeClient c w.

Definition crdtMergeStartCommand (c : client) (argv : list bytes) (w : world) : res world :=
  gid_arg ← need (argv !! 1%nat);
  match string2ll gid_arg with
  | None => merge_error c (-1) w
  | Some sourceGid =>
      if negb (check_gid (to_int sourceGid)) then merge_error c sourceGid w else
      o ← getPeerMaster sourceGid w;
      p ← need o;
      let p := match cached_master p with
               | Some _ => set_cached_master None p
               | None => p
               end in
      let p := if negb (iAmMaster w)
               then crdtReplicationCreateMasterClient p (createClient (-1) (w_unixtime w)) (-1)
               else set_repl_transfer_lastio (w_unixtime w) p in
      let w := set_peer (to_int sourceGid) p w in
      vc_arg ← need (argv !! 2%nat);
      vclock ← sdsToVectorClock vc_arg;
      gc ← vectorClockMerge (gcVectorClock (w_crdt w)) vclock;
      let s := set_gcVectorClock gc (w_crdt w) in
      vc ← (if isNullVectorClockUnit (getVectorClockUnit (vectorClock s) (to_int sourceGid))
            then addVectorClockUnit (vectorClock s) (to_int sourceGid) 0 else Ok (vectorClock s));
      Ok (set_dirty_incr (set_w_crdt (set_vectorClock vc s) w))
  end.

(** The back-stream part: the clock of this server catches up with what the peer
    has seen of it, and jumps. *)

Definition end_backstream (qps : Z) (p : peer) (w : world) : res world :=
  if isNullVectorClock (backstream_vc p) then Ok w else
  let w := set_peer (to_int (p_gid p)) (set_backstream_vc [] p) w in
  let s := w_crdt w in
  let process_vcu := get_logic_clock (getVectorClockUnit (vectorClock s) (crdt_gid s)) in
  let backstream_vcu := get_logic_clock (getVectorClockUnit (p_vectorClock p) (crdt_gid s)) in
  s ← (if process_vcu <? backstream_vcu
       then s ← incrLocalVcUnit (backstream_vcu - process_vcu) s; jumpVectorClock qps s
       else Ok s);
  Ok (tryCleanCrdtServerLoading (set_w_crdt s w)).

(** What is queued for the master of a peer: its clock and its offset. *)

Definition crdtReplicationSendAck (p : peer) (s : crdtServer) : bytes :=
  match master p with
  | None => []
  | Some c =>
      encode_command [str "CRDT.REPLCONF"; str "ACK-VC"; vectorClockToSds (vectorClock s)] ++
      encode_command [str "CRDT.REPLCONF"; str "ACK"; print_Z (cl_reploff c)]
  end.

(** The bytes returned are the acknowledgement queued for the peer. *)

Definition crdtMergeEndCommand (qps : Z) (c : client) (argv : list bytes) (w : world) : res (world * bytes) :=
  gid_arg ← need (argv !! 1%nat);
  match string2ll gid_arg with
  | None => w ← merge_error c (-1) w; Ok (w, [])
  | Some sourceGid =>
      if negb (check_gid (to_int sourceGid)) then w ← merge_error c sourceGid w; Ok (w, []) else
      o ← getPeerMaster sourceGid w;
      match o with
      | None => w ← merge_error c sourceGid w; Ok (w, [])
      | Some p =>
          vc_arg ← need (argv !! 2%nat);
          vc ← sdsToVectorClock vc_arg;
          let p := set_p_vectorClock vc p in
          let w := set_peer (to_int sourceGid) p w in
          clock ← mergeLogicClock (vectorClock (w_crdt w)) vc (to_int sourceGid);
          s ← refreshGcVectorClock vc (set_vectorClock clock (w_crdt w));
          let w := set_w_crdt s w in
          off_arg ← need (argv !! 4%nat);
          match string2ll off_arg with
          | None => Ok (w, [])
          | Some offset =>
              id ← need (argv !! 3%nat);
              m ← need (master p);
              mid ← copy_id id (cl_replid m);
              pid ← copy_id id (master_replid p);
              let m := set_cl_read_reploff offset (set_cl_reploff offset (set_cl_replid mid m)) in
              let p := set_master_replid pid (set_master (Some m) p) in
              let w := set_peer (to_int sourceGid) p w in
              w ← end_backstream qps p w;
              if iAmMaster w then
                o ← getPeerMaster (cl_gid c) w;
                q ← need o;
                let ack := crdtReplicationSendAck q (w_crdt w) in
                let w := upd_peer (to_int sourceGid)
                           (fun p => set_repl_transfer_lastio (w_unixtime w) (set_repl_state REPL_STATE_CONNECTED p)) w in
                Ok (set_dirty_incr w, ack)
              else Ok (set_dirty_incr w, [])
          end
      end
  end.

(** The id of a peer has changed while this server is a slave. *)

Definition peerChangeCommand (argv : list bytes) (w : world) : res (world * option reply) :=
  gid_arg ← need (argv !! 1%nat);
  match string2ll gid_arg with
  | None => Ok (w, Some (ReplyError (str "invalid gid")))
  | Some g =>
      if negb (check_gid (to_int g)) then Ok (w, None) else
      o ← getPeerMaster g w;
      p ← need o;
      id ← need (argv !! 2%nat);
      m ← need (master p);
      mid ← copy_id id (cl_replid m);
      pid ← copy_id id (master_replid p);
      let p := set_master_replid pid (set_master (Some (set_cl_replid mid m)) p) in
      Ok (set_dirty_incr (set_peer (to_int g) p w), Some ReplyOk)
  end.

Definition replicationFeedPeerChangeCommand (g : Z) (new : bytes) (w : world) : res world :=
  let cmd := str "*3" ++ CRLF ++ str "$16" ++ CRLF ++ str "CRDT.peer.change" ++ CRLF ++
             str "$" ++ print_Z (Z.of_nat (length (print_Z g))) ++ CRLF ++ print_Z g ++ CRLF ++
             str "$" ++ print_Z (Z.of_nat CONFIG_RUN_ID_SIZE) ++ CRLF ++ new ++ CRLF in
  s ← with_backlog (feedReplicationBacklogWithObject (RSds cmd)) (w_server w);
  Ok (set_w_server (each_slave (queue cmd) s) w).

(** ** The array *)

Lemma getPeerMaster_valid g w : 0 <= g < 16 -> getPeerMaster g w = Ok (crdtMasters (w_crdt w) !! g).
Proof.
  intros H. unfold getPeerMaster. rewrite to_int_id by lia. change (MAX_PEERS + 1) with 16.
  destruct (Z.leb_spec 0 g), (Z.ltb_spec g 16); try lia. done.
Qed.

Lemma getPeerMaster_invalid g w : - 2 ^ 31 <= g < 2 ^ 31 -> ~ 0 <= g < 16 -> getPeerMaster g w = Undef.
Proof.
  intros R H. unfold getPeerMaster. rewrite to_int_id by done. change (MAX_PEERS + 1) with 16.
  destruct (Z.leb_spec 0 g), (Z.ltb_spec g 16); try lia; done.
Qed.

Lemma set_peer_set_peer g p p' w : set_peer g p' (set_peer g p w) = set_peer g p' w.
Proof.
  unfold set_peer, set_w_crdt, set_crdtMasters. simpl. by rewrite insert_insert_eq.
Qed.

Lemma set_peer_lookup g p w : crdtMasters (w_crdt (set_peer g p w)) !! g = Some p.
Proof. unfold set_peer. simpl. apply lookup_insert_eq. Qed.


Lemma mergeLogicClock_vcu dst src g :
  vc_ok dst -> vc_ok src -> 0 < g < 16 ->
  exists r, mergeLogicClock dst src g = Ok r /\ vc_ok r /\
    forall h, vcu r h = if decide (h = g) then Z.max (vcu dst g) (vcu src g) else vcu dst h.
Proof.
  intros Hd Hs Hg. unfold mergeLogicClock.
  destruct (commonMergeFunction_spec dst src g CLOCK_UNIT_MAX Hd Hs Hg) as (r & E & Hr & _ & M).
  exists r. split; [done|]. split; [done|]. intros h.
  pose proof (vcu_range dst g Hd) as R1. unfold vcu in *. rewrite M.
  destruct (vc_map src !! g) as [c|] eqn:Es; simpl.
  - apply vc_map_nonneg in Es; [|done]. destruct (decide (h = g)) as [->|].
    + rewrite lookup_insert_eq. destruct (vc_map dst !! g); simpl in *; lia.
    + by rewrite lookup_insert_ne.
  - destruct (decide (h = g)) as [->|]; [lia|done].
Qed.

Lemma copy_id_full id nul buf :
  length id = CONFIG_RUN_ID_SIZE -> 0 ∉ id -> nul = [] \/ nul = [0] ->
  (forall old, buf = Some old -> (length old <= CONFIG_RUN_ID_SIZE)%nat) ->
  copy_id (id ++ nul) buf = Ok (Some id).
Proof.
  intros Hl Hz Hn Hb. unfold copy_id.
  assert (length nul <= 1)%nat by (destruct Hn as [-> | ->]; simpl; lia).
  rewrite length_app, Hl. destruct (Z.gtb_spec (Z.of_nat (CONFIG_RUN_ID_SIZE + length nul)) (Z.of_nat CONFIG_RUN_ID_SIZE + 1));
    [lia|]. do 2 f_equal.
  replace (match buf with Some old => drop (CONFIG_RUN_ID_SIZE + length nul) old | None => [] end) with (@nil Z).
  - rewrite app_nil_r. destruct Hn as [-> | ->]; [rewrite app_nil_r; by apply cstr_id|by apply cstr_app].
  - destruct buf as [old|]; [|done]. symmetry. apply drop_ge. specialize (Hb old eq_refl). lia.
Qed.

(** ** Claims *)

(** An id buffer holds at most an id. *)

Definition id_fits (buf : option bytes) : Prop :=
  forall old, buf = Some old -> (length old <= CONFIG_RUN_ID_SIZE)%nat.

(** C39: the end of a merge.  On a master, the command that ends the merge with
    peer [g] (with no back-stream under way) always completes: the peer is
    connected, and its link continues from the id and the offset the peer gave
    (the id with or without the NUL byte that the sender puts after it);
    the clock of this server takes for [g], and for no other group, the larger of
    its own value and the peer's; the clock for the collection of tombstones
    becomes the minimum of what it was and the peer's clock; and the peer is sent
    this server's new clock and the offset. *)
Theorem crdtMergeEnd_connects (qps g : Z) (c m : client) (p : peer) (vcs id nul : bytes) (vc : VectorClock)
    (offset : Z) (name : bytes) (w : world)
    (Hg : 0 < g < 16) (Hs : server_ok (w_crdt w)) (Hrole : iAmMaster w = true)
    (Hp : crdtMasters (w_crdt w) !! g = Some p) (Hm : master p = Some m) (Hc : cl_gid c = g)
    (Hvc : sdsToVectorClock vcs = Ok vc) (Hok : vc_ok vc) (Hback : backstream_vc p = [])
    (Hid : length id = CONFIG_RUN_ID_SIZE /\ 0 ∉ id) (Hnul : nul = [] \/ nul = [0])
    (Hbuf : id_fits (cl_replid m) /\ id_fits (master_replid p))
    (Hoff : LLONG_MIN <= offset <= LLONG_MAX) :
  exists w' p' ack, crdtMergeEndCommand qps c [name; print_Z g; vcs; id ++ nul; print_Z offset] w = Ok (w', ack) /\
    crdtMasters (w_crdt w') !! g = Some p' /\ repl_state p' = REPL_STATE_CONNECTED /\ p_vectorClock p' = vc /\
    (exists m', master p' = Some m' /\ cl_reploff m' = offset /\ cl_read_reploff m' = offset /\
                cl_replid m' = Some id) /\
    (forall h, vcu (vectorClock (w_crdt w')) h =
       if decide (h = g) then Z.max (vcu (vectorClock (w_crdt w)) g) (vcu vc g)
       else vcu (vectorClock (w_crdt w)) h) /\
    (forall h, vcu (gcVectorClock (w_crdt w')) h = Z.min (vcu (gcVectorClock (w_crdt w)) h) (vcu vc h)) /\
    ack = encode_command [str "CRDT.REPLCONF"; str "ACK-VC"; vectorClockToSds (vectorClock (w_crdt w'))] ++
          encode_command [str "CRDT.REPLCONF"; str "ACK"; print_Z offset].
Proof.
  destruct Hs as (Hgid & Hv & Hcache & Hgc & _). destruct Hid as [Hl Hz], Hbuf as [Hb1 Hb2].
  destruct (mergeLogicClock_vcu (vectorClock (w_crdt w)) vc g Hv Hok Hg) as (clock & Ec & _ & Hclock).
  destruct (min_vcu (gcVectorClock (w_crdt w)) vc Hgc Hok) as (gc & Eg & _ & _ & Hmin).
  assert (to_int g = g) as Ti by (apply to_int_id; lia).
  assert (check_gid g = true) as Hcheck.
  { unfold check_gid. change (Z.shiftl 1 GIDSIZE) with 16. destruct (Z.gtb_spec g 0), (Z.ltb_spec g 16); lia || done. }
  unfold crdtMergeEndCommand. cbn [lookup list_lookup need mbind res_bind].
  rewrite string2ll_print by (unfold LLONG_MIN, LLONG_MAX; lia). rewrite Ti, Hcheck. cbn [negb].
  rewrite getPeerMaster_valid by lia. cbn [mbind res_bind]. rewrite Hp, Hvc. cbn [mbind res_bind].
  cbn [w_crdt set_peer set_w_crdt vectorClock set_crdtMasters]. rewrite Ec. cbn [mbind res_bind].
  unfold refreshGcVectorClock. match goal with |- context [mergeMinVectorClock ?x vc] =>
    change x with (gcVectorClock (w_crdt w)) end. rewrite Eg. cbn [mbind res_bind].
  rewrite (string2ll_print offset Hoff). cbn [master set_p_vectorClock]. rewrite Hm. cbn [need mbind res_bind].
  rewrite (copy_id_full id nul (cl_replid m) Hl Hz Hnul Hb1). cbn [mbind res_bind].
  cbn [master_replid set_p_vectorClock]. rewrite (copy_id_full id nul (master_replid p) Hl Hz Hnul Hb2). cbn [mbind res_bind].
  unfold end_backstream. cbn [backstream_vc set_master_replid set_master set_p_vectorClock]. rewrite Hback.
  change (isNullVectorClock (@nil clk)) with true. cbv iota. cbn [mbind res_bind].
  assert (forall s q, iAmMaster (set_peer g q (set_w_crdt s w)) = true) as Hr by (intros; exact Hrole).
  match goal with |- context [set_w_crdt ?s (set_peer g ?q w)] =>
    change (set_w_crdt s (set_peer g q w)) with (set_w_crdt s w) end.
  rewrite Hr, Hc. rewrite getPeerMaster_valid by lia. rewrite set_peer_lookup. cbn [mbind res_bind need].
  unfold upd_peer. rewrite set_peer_lookup, set_peer_set_peer.
  eexists _, _, _. split; [reflexivity|]. split; [apply lookup_insert_eq|]. split; [done|]. split; [done|].
  split; [eexists; split; [reflexivity|done]|]. split; [done|]. split; [done|]. reflexivity.
Qed.

Definition example_master : client := MkClient 2 7 true false 0 0 0 None 0.

Definition example_transfer : peer :=
  MkPeer 2 None (Some (str "10.0.0.2")) 6379 (Some example_master) None REPL_STATE_TRANSFER (-1) 0 0 None (-1)
    [] 0 [] 0 0 None.

Definition example_merge_world : world := set_peer 2 example_transfer example_world.

Definition example_id : bytes := replicate 40 97.

Lemma example_merge_ok : server_ok (w_crdt example_merge_world).
Proof.
  split; [simpl; lia|]. split; [decide_now|]. split; [decide_now|]. split; [decide_now|].
  apply map_Forall_insert_2; [|apply map_Forall_empty]. split; decide_now.
Qed.

Lemma crdtMergeEnd_connects_witness :
  let w := example_merge_world in
  let vc := [Clk 2 30] in
  exists w' p' ack, crdtMergeEndCommand 0 example_master
      [str "crdt.merge_end"; str "2"; str "2:30"; example_id ++ [0]; str "77"] w = Ok (w', ack) /\
    crdtMasters (w_crdt w') !! 2 = Some p' /\ repl_state p' = REPL_STATE_CONNECTED /\ p_vectorClock p' = vc /\
    (exists m', master p' = Some m' /\ cl_reploff m' = 77 /\ cl_read_reploff m' = 77 /\
                cl_replid m' = Some example_id) /\
    (forall h, vcu (vectorClock (w_crdt w')) h =
       if decide (h = 2) then Z.max (vcu (vectorClock (w_crdt w)) 2) (vcu vc 2)
       else vcu (vectorClock (w_crdt w)) h) /\
    (forall h, vcu (gcVectorClock (w_crdt w')) h = Z.min (vcu (gcVectorClock (w_crdt w)) h) (vcu vc h)) /\
    ack = encode_command [str "CRDT.REPLCONF"; str "ACK-VC"; vectorClockToSds (vectorClock (w_crdt w'))] ++
          encode_command [str "CRDT.REPLCONF"; str "ACK"; print_Z 77].
Proof.
  intros w vc.
  apply (crdtMergeEnd_connects 0 2 example_master example_master example_transfer (str "2:30") example_id [0] vc 77
           (str "crdt.merge_end") w); [lia|apply example_merge_ok|reflexivity|reflexivity|reflexivity|reflexivity|
    reflexivity|decide_now|reflexivity|split; [reflexivity|decide_now]|by right|split; discriminate|unfold LLONG_MIN, LLONG_MAX; lia].
Defined.

(** Group ids that come from the outside are used unchecked.  PEEROF with a
    group id of 16 or more reads (and would write) past the array of peers;
    CRDT.MERGE_START for a group that is not a peer dereferences a null pointer,
    and with a group id that is not a number, on a master, it reads the array at
    index -1. *)
Lemma gid_unchecked (c : client) (w : world) (Hs : server_ok (w_crdt w)) :
  (forall cmd g host port mstime ok, 16 <= g < 2 ^ 31 -> LLONG_MIN <= port <= LLONG_MAX ->
     strcaseeq (cstr host) (str "no") = false ->
     peerofCommand false mstime ok [cmd; print_Z g; host; print_Z port] w = Undef) /\
  (forall cmd g rest, 0 < g < 16 -> crdtMasters (w_crdt w) !! g = None ->
     crdtMergeStartCommand c (cmd :: print_Z g :: rest) w = Undef) /\
  (forall cmd a rest, string2ll a = None -> iAmMaster w = true ->
     crdtMergeStartCommand c (cmd :: a :: rest) w = Undef).
Proof.
  destruct Hs as (Hgid & _). split; [|split].
  - intros cmd g host port mstime ok Hg Hport Hno. unfold peerofCommand. cbn [lookup list_lookup need mbind res_bind].
    rewrite string2ll_print by (unfold LLONG_MIN, LLONG_MAX; lia).
    destruct (Z.eqb_spec g (crdt_gid (w_crdt w))); [lia|]. rewrite Hno. cbn [andb].
    rewrite (string2ll_print port Hport). cbn [drop peerof_options mbind res_bind].
    by rewrite getPeerMaster_invalid by lia.
  - intros cmd g rest Hg Hn. unfold crdtMergeStartCommand. cbn [lookup list_lookup need mbind res_bind].
    rewrite string2ll_print by (unfold LLONG_MIN, LLONG_MAX; lia). rewrite to_int_id by lia.
    replace (check_gid g) with true
      by (unfold check_gid; change (Z.shiftl 1 GIDSIZE) with 16; destruct (Z.gtb_spec g 0), (Z.ltb_spec g 16); lia || done).
    cbn [negb]. rewrite getPeerMaster_valid by lia. cbn [mbind res_bind]. by rewrite Hn.
  - intros cmd a rest Ha Hr. unfold crdtMergeStartCommand. cbn [lookup list_lookup need mbind res_bind].
    rewrite Ha. unfold merge_error. rewrite Hr. unfold crdtCancelReplicationHandshake.
    by rewrite getPeerMaster_invalid by lia.
Qed.

Lemma gid_unchecked_witness :
  peerofCommand false 0 true [str "peerof"; str "16"; str "10.0.0.9"; str "6379"] example_merge_world = Undef.
Proof.
  destruct (gid_unchecked example_master example_merge_world example_merge_ok) as [H _].
  apply (H (str "peerof") 16 (str "10.0.0.9") 6379 0 true); [lia|unfold LLONG_MIN, LLONG_MAX; lia|reflexivity].
Defined.
