(* ===== verification/MasterLink.v ===== *)
(** * The link with the own master ([src/src/networking.c])

    A slave reads the stream of its master.  It forwards what it applied to its own
    slaves and keeps it in its backlog; and it keeps the bookkeeping of the peers as
    the master does: the commands of its own group go to the backlog of
    [crdtServer], those of another group move the position in the stream of that
    peer.  After a failover the slave can thus continue all the streams. *)

From S2P Require Import Prelude Util Sds VectorClock VcTheory VcText VcClaims Proxy CrdtServer Backlog Resp World Feed Psync PeerState PeerLink.

(** [peer->master->reploff += n] *)

Definition credit_peer (g n : Z) (w : world) : res world :=
  o ← getPeerMaster g w;
  match o with
  | Some p =>
      match master p with
      | Some m => Ok (set_peer (to_int g) (set_master (Some (set_cl_reploff (cl_reploff m + n) m)) p) w)
      | None => Ok w
      end
  | None => Ok w
  end.

(** What happens with the [len] bytes of a command that left [c->gid] at [gid]. *)

Definition attribute (gid : Z) (span : res bytes) (len : Z) (w : world) : res world :=
  if gid =? crdt_gid (w_crdt w) then
    span ← span; s ← feedReplicationBacklog span (w_peers w); Ok (set_w_peers s w)
  else if negb (gid =? -1) then credit_peer gid len w
  else Ok w.

(** [pending_querybuf + used], [len] bytes of it. *)

Definition pending_span (pending : bytes) (used len : Z) : res bytes :=
  if (0 <=? used) && (0 <=? len) && (used + len <=? Z.of_nat (length pending))
  then Ok (take (Z.to_nat len) (drop (Z.to_nat used) pending)) else Undef.

Section master_link.

(** [exec] runs a command and tells the group it set in the client, or -1; [multi]
    tells whether the client is in a transaction. *)

Context {St : Type} (exec : list bytes -> St -> Z * St) (multi : St -> bool) (max_bulk : Z) (paused : bool).

(** [processInputBuffer] for a client with [CLIENT_MASTER]; [used] is
    [pending_used_offset]. *)

Fixpoint processMaster (fuel : nat) (l : link) (used : Z) (w : world) (st : St) : res (link * Z * world * St) :=
  match fuel with
  | O => Ok (l, used, w, st)
  | S fuel =>
      let r := l_reader l in
      if bool_decide (querybuf r = []) then Ok (l, used, w, st) else
      if paused then Ok (l, used, w, st) else
      if close r then Ok (l, used, w, st) else
      let reqtype := match l_reqtype l with
                     | REQ_UNKNOWN => if bool_decide (querybuf r !! 0%nat = Some 42)
                                      then PROTO_REQ_MULTIBULK else PROTO_REQ_INLINE
                     | t => t
                     end in
      '(p, r) ← match reqtype with
                | PROTO_REQ_INLINE => Ok (processInlineBuffer r)
                | _ => processMultibulkBuffer max_bulk r
                end;
      let l := MkLink r reqtype (l_reploff l) (l_read_reploff l) (l_pending l) in
      match p with
      | ParseOk =>
          if bool_decide (r_argv r = []) then processMaster fuel (resetClient l) used w st
          else
            let '(gid, st) := exec (r_argv r) st in
            let len := l_read_reploff l - Z.of_nat (length (querybuf r)) - l_reploff l in
            w ← (if negb (iAmMaster w) then attribute gid (pending_span (l_pending l) used len) len w else Ok w);
            if negb (multi st) then
              let l := MkLink r reqtype (l_read_reploff l - Z.of_nat (length (querybuf r)))
                         (l_read_reploff l) (l_pending l) in
              processMaster fuel (resetClient l) (used + len) w st
            else processMaster fuel (resetClient l) used w st
      | _ => Ok (l, used, w, st)
      end
  end.

(** [readQueryFromClient] for the master, after [b] was read. *)

Definition readMaster (b : bytes) (l : link) (used : Z) (w : world) (st : St) : res (link * Z * world * St) :=
  let proxied := negb (iAmMaster w) in
  let l := MkLink (append_input b (l_reader l)) (l_reqtype l) (l_reploff l) (l_read_reploff l + Z.of_nat (length b))
             (if proxied then l_pending l ++ b else l_pending l) in
  let prev_offset := l_reploff l in
  '(l, used, w, st) ← processMaster (S (length (querybuf (l_reader l)))) l used w st;
  let applied := l_reploff l - prev_offset in
  if negb proxied || (applied =? 0) then Ok (l, used, w, st)
  else
    w ← (if negb (w_repl_slave_repl_all w) then
           buf ← pending_span (l_pending l) 0 applied; replicationFeedSlavesFromMasterStream buf w
         else Ok w);
    Ok (MkLink (l_reader l) (l_reqtype l) (l_reploff l) (l_read_reploff l) (sdsrange (l_pending l) applied (-1)), 0, w, st).

Fixpoint readMasters (bs : list bytes) (l : link) (used : Z) (w : world) (st : St) : res (link * Z * world * St) :=
  match bs with
  | [] => Ok (l, used, w, st)
  | b :: bs => '(l, used, w, st) ← readMaster b l used w st; readMasters bs l used w st
  end.

(** ** What the stream of commands does, however it is cut *)

(** [t_span]: the commands of the transaction that is open; [t_done]: what was
    applied. *)

Record track := MkTrack { t_span : bytes; t_done : bytes; t_world : world; t_state : St }.

Definition track_step (c : list bytes) (t : track) : res track :=
  let '(gid, st) := exec c (t_state t) in
  let span := t_span t ++ encode_command c in
  w ← attribute gid (Ok span) (Z.of_nat (length span)) (t_world t);
  Ok (if multi st then MkTrack span (t_done t) w st else MkTrack [] (t_done t ++ span) w st).

Fixpoint tracks (cmds : list (list bytes)) (t : track) : res track :=
  match cmds with
  | [] => Ok t
  | c :: cmds => t ← track_step c t; tracks cmds t
  end.

(** ** Commutation with the stream of the own slaves *)

Lemma iAmMaster_server s w : iAmMaster (set_w_server s w) = iAmMaster w.
Proof. done. Qed.

Lemma attribute_server gid span len s w w' :
  attribute gid span len w = Ok w' -> attribute gid span len (set_w_server s w) = Ok (set_w_server s w').
Proof.
  unfold attribute, credit_peer. cbn [w_crdt set_w_server w_peers]. destruct (_ =? _).
  - destruct span as [b| |]; cbn [mbind res_bind]; [|done..]. destruct (feedReplicationBacklog b (w_peers w)); cbn [mbind res_bind]; [|done..].
    by intros [= <-].
  - destruct (negb _); [|by intros [= <-]]. unfold getPeerMaster. cbn [w_crdt set_w_server]. destruct (_ && _); cbn [mbind res_bind]; [|done].
    destruct (crdtMasters (w_crdt w) !! to_int gid) as [p|]; [|by intros [= <-]]. destruct (master p) as [m|]; by intros [= <-].
Qed.

Lemma attribute_role gid span len w w' :
  attribute gid span len w = Ok w' ->
  w_server w' = w_server w /\ iAmMaster w' = iAmMaster w /\ w_repl_slave_repl_all w' = w_repl_slave_repl_all w /\ crdt_gid (w_crdt w') = crdt_gid (w_crdt w).
Proof.
  unfold attribute, credit_peer. destruct (_ =? _).
  - destruct span as [b| |]; cbn [mbind res_bind]; [|done..]. destruct (feedReplicationBacklog b (w_peers w)); cbn [mbind res_bind]; [|done..]. by intros [= <-].
  - destruct (negb _); [|by intros [= <-]]. unfold getPeerMaster. destruct (_ && _); cbn [mbind res_bind]; [|done].
    destruct (crdtMasters (w_crdt w) !! to_int gid) as [p|]; [|by intros [= <-]]. destruct (master p) as [m|]; by intros [= <-].
Qed.

(** ** One command *)

Lemma pending_span_at (d span rest : bytes) :
  pending_span (d ++ span ++ rest) (Z.of_nat (length d)) (Z.of_nat (length span)) = Ok span.
Proof.
  unfold pending_span. rewrite !length_app. rewrite (proj2 (Z.leb_le 0 (Z.of_nat (length d)))), (proj2 (Z.leb_le 0 (Z.of_nat (length span)))) by lia.
  rewrite (proj2 (Z.leb_le _ _)) by lia. cbn [andb]. by rewrite !Nat2Z.id, drop_app_length, take_app_length.
Qed.

(** A command that has not arrived completely. *)

Lemma parse_partial argv part Q b t l :
  readable max_bulk argv -> reading argv part Q l -> Q = b ++ t -> t <> [] -> querybuf (l_reader l) ++ b <> [] ->
  match l_reqtype l with
  | REQ_UNKNOWN => if bool_decide ((querybuf (l_reader l) ++ b) !! 0%nat = Some 42) then PROTO_REQ_MULTIBULK else PROTO_REQ_INLINE
  | t => t
  end = PROTO_REQ_MULTIBULK /\
  exists r, processMultibulkBuffer max_bulk (append_input b (l_reader l)) = Ok (ParseMore, r) /\
    forall reploff read pending, reading argv (part ++ b) t (MkLink r PROTO_REQ_MULTIBULK reploff read pending).
Proof.
  intros [Hfit Hmax] R -> Ht N. pose proof R as (HQ & E & M & L & C & T). split.
  { destruct T as [->|[Hu Hr]]; [done|]. rewrite Hr in N. simpl in N. apply (reqtype_multibulk argv part (b ++ t) b l R N). exists t. by left. }
  apply midway_app in M.
  assert (length (encode_command argv) = length part + length (b ++ t))%nat as LE by (by rewrite <- E, length_app).
  rewrite length_app in LE.
  destruct (midway_more max_bulk argv Hfit _ _ Ht M) as (r' & -> & M' & L').
  { unfold append_input. cbn [querybuf]. rewrite length_app. lia. }
  exists r'. split; [done|]. intros reploff read pending. split; [done|].
  split; [by rewrite <- app_assoc|]. cbn [l_reader l_reqtype]. split; [done|].
  unfold append_input in L'. cbn [querybuf] in L'. rewrite length_app in L'.
  split; [rewrite length_app; lia|]. split; [|by left].
  destruct M' as [[-> _]|(k & _ & _ & _ & ? & _)]; done.
Qed.

(** [d] was applied since the last forwarding, [part] is what was read of the next
    command and [rest] what is still to be read. *)

Definition mid (d : bytes) (used : Z) (t : track) (part rest : bytes) (l : link) : Prop :=
  l_pending l = d ++ t_span t ++ part ++ rest /\ used = Z.of_nat (length d) /\
  l_read_reploff l = l_reploff l + Z.of_nat (length (t_span t ++ part ++ rest)).

Hypothesis Hpaused : paused = false.

Lemma master_partial fuel argv part Q b rest l used w st :
  readable max_bulk argv -> reading argv part Q l -> Q = b ++ rest -> rest <> [] ->
  exists l2, processMaster (S fuel) (with_input b l) used w st = Ok (l2, used, w, st) /\
    reading argv (part ++ b) rest l2 /\ l_reploff l2 = l_reploff l /\ l_read_reploff l2 = l_read_reploff l /\ l_pending l2 = l_pending l.
Proof.
  intros Ha R EQ Ht. pose proof R as (HQ & E & M & L & C & T). destruct (decide (querybuf (l_reader l) ++ b = [])) as [N|N].
  - apply app_eq_nil in N as [N ->]. rewrite with_input_nil, app_nil_r. exists l. cbn [processMaster]. rewrite bool_decide_true by done.
    simpl in EQ. by rewrite <- EQ.
  - cbn [processMaster with_input l_reader append_input querybuf close l_reqtype].
    rewrite bool_decide_false by done. rewrite C, Hpaused.
    destruct (parse_partial argv part Q b rest l Ha R EQ Ht N) as (-> & r & Er & Hr). rewrite Er. cbn [mbind res_bind].
    eexists. split; [reflexivity|]. split; [apply Hr|done].
Qed.

Lemma master_complete fuel argv part Q b d l used w st t t2 :
  readable max_bulk argv -> reading argv part Q l -> mid d used t part (Q ++ b) l -> iAmMaster (t_world t) = false ->
  st = t_state t -> track_step argv t = Ok t2 ->
  exists used2 l2 d2, processMaster (S fuel) (with_input (Q ++ b) l) used (set_w_server (w_server w) (t_world t)) st =
      processMaster fuel (with_input b l2) used2 (set_w_server (w_server w) (t_world t2)) (t_state t2) /\
    l_reader l2 = fresh [] /\ l_reqtype l2 = REQ_UNKNOWN /\ l_pending l2 = l_pending l /\ l_read_reploff l2 = l_read_reploff l /\
    mid (d ++ d2) used2 t2 [] b l2 /\ t_done t2 = t_done t ++ d2 /\ iAmMaster (t_world t2) = false.
Proof.
  intros Ha R (Ep & -> & Eo) Hrole -> Et. pose proof Ha as [Hfit _]. pose proof R as (HQ & E & M & L & C & T). pose proof Hfit as (Hn & _ & _).
  assert (Q ++ b <> []) as Nb by (by destruct Q). set (span := t_span t ++ encode_command argv).
  assert (t_span t ++ part ++ Q ++ b = span ++ b) as Es by (unfold span; by rewrite <- E, <- !app_assoc). rewrite Es in Ep, Eo.
  cbn [processMaster with_input l_reader append_input querybuf close l_reqtype].
  rewrite (bool_decide_false (querybuf (l_reader l) ++ Q ++ b = [])) by (intros [_ ?]%app_eq_nil; done).
  rewrite C, Hpaused, (reqtype_multibulk argv part Q (Q ++ b) l R Nb) by (exists []; eauto).
  rewrite (midway_done max_bulk argv Hfit _ Q b M). cbn [mbind res_bind r_argv with_input l_reploff l_read_reploff l_pending querybuf].
  rewrite (bool_decide_false (argv = [])) by done. rewrite iAmMaster_server, Hrole. cbn [negb].
  unfold track_step in Et. destruct (exec argv (t_state t)) as [gid st2]. fold span in Et.
  destruct (attribute gid (Ok span) (Z.of_nat (length span)) (t_world t)) as [w2| |] eqn:Ew; cbn [mbind res_bind] in Et; [|done..].
  pose proof (attribute_role _ _ _ _ _ Ew) as (_ & Hrole2 & _ & _). rewrite length_app in Eo.
  replace (l_read_reploff l - Z.of_nat (length b) - l_reploff l) with (Z.of_nat (length span)) by lia.
  rewrite Ep. rewrite pending_span_at. rewrite (attribute_server _ _ _ (w_server w) _ _ Ew). cbn [mbind res_bind].
  destruct (multi st2); cbn [negb]; injection Et as <-; cbn [t_world t_state].
  - exists (Z.of_nat (length d)), (MkLink (fresh []) REQ_UNKNOWN (l_reploff l) (l_read_reploff l) (d ++ span ++ b)), []. split; [done|].
    cbn [l_reader l_reqtype l_pending l_read_reploff t_done]. rewrite !app_nil_r. repeat (split; [done|]).
    split; [|by rewrite Hrole2]. split; [done|]. split; [done|]. cbn [l_read_reploff l_reploff t_span app]. rewrite length_app. lia.
  - eexists _, (MkLink (fresh []) REQ_UNKNOWN (l_read_reploff l - Z.of_nat (length b)) (l_read_reploff l) (d ++ span ++ b)), span. split; [done|].
    cbn [l_reader l_reqtype l_pending l_read_reploff t_done]. repeat (split; [done|]).
    split; [|by rewrite Hrole2]. split; [cbn [l_pending t_span app]; by rewrite <- app_assoc|]. split; [rewrite length_app; lia|].
    cbn [l_read_reploff l_reploff t_span app]. lia.
Qed.

(** ** One read *)

Lemma master_stream cmds : forall fuel argv part Q b tail d l used w t tend,
  Forall (readable max_bulk) (argv :: cmds) -> reading argv part Q l -> Q ++ encodes cmds = b ++ tail -> (length b < fuel)%nat ->
  mid d used t part b l -> iAmMaster (t_world t) = false -> tracks (argv :: cmds) t = Ok tend ->
  exists k l2 used2 t2 part2 d2,
    processMaster fuel (with_input b l) used (set_w_server (w_server w) (t_world t)) (t_state t) =
      Ok (l2, used2, set_w_server (w_server w) (t_world t2), t_state t2) /\
    tracks (take k (argv :: cmds)) t = Ok t2 /\ tracks (drop k (argv :: cmds)) t2 = Ok tend /\
    part ++ b = encodes (take k (argv :: cmds)) ++ part2 /\ (k <= length (argv :: cmds))%nat /\
    waiting_for (drop k (argv :: cmds)) part2 l2 /\ l_pending l2 = l_pending l /\ l_read_reploff l2 = l_read_reploff l /\
    mid (d ++ d2) used2 t2 part2 [] l2 /\ t_done t2 = t_done t ++ d2 /\ iAmMaster (t_world t2) = false.
Proof.
  induction cmds as [|a2 cmds IH]; intros fuel argv part Q b tail d l used w t tend Hf R E Hfuel Hm Hrole Et;
    apply Forall_cons in Hf as [Ha Hf]; (destruct fuel as [|fuel]; [lia|]);
    apply split_input in E as [(rest & EQ & Ht)|(b2 & -> & E2)].
  1,3: destruct (master_partial fuel argv part Q b rest l used (set_w_server (w_server w) (t_world t)) (t_state t) Ha R EQ Ht) as (l2 & -> & R2 & O & Rd & P);
    exists 0%nat, l2, used, t, (part ++ b), []; split; [done|]; split; [done|]; split; [done|]; split; [done|]; split; [lia|];
    split; [exists rest; exact R2|]; split; [done|]; split; [done|]; split; [|split; [by rewrite app_nil_r|done]]; destruct Hm as (M1 & M2 & M3);
    unfold mid; rewrite !app_nil_r; split; [by rewrite P|]; split; [done|]; by rewrite Rd, O.
  all: cbn [tracks] in Et; destruct (track_step argv t) as [t1| |] eqn:Es; cbn [mbind res_bind] in Et; [|done..];
    destruct (master_complete fuel argv part Q b2 d l used w (t_state t) t t1 Ha R Hm Hrole eq_refl Es)
      as (used2 & l2 & d2 & -> & L1 & L2 & L3 & L4 & Hm2 & Hd & Hr2);
    pose proof R as (HQ & EQ & _); rewrite length_app in Hfuel; assert (length Q <> 0%nat) as LQ by (by destruct Q);
    (destruct fuel as [|fuel]; [lia|]).
  - symmetry in E2. apply app_eq_nil in E2 as [-> ->]. rewrite with_input_nil. cbn [processMaster]. rewrite L1.
    rewrite (bool_decide_true (querybuf (fresh []) = [])) by done. eexists 1%nat, l2, used2, t1, [], d2. split; [done|].
    cbn [take drop tracks]. rewrite Es. cbn [mbind res_bind]. split; [done|]. split; [done|].
    split; [unfold encodes; cbn [map concat]; by rewrite !app_nil_r|]. split; [simpl; lia|]. by split.
  - destruct (IH (S fuel) a2 [] (encode_command a2) b2 tail (d ++ d2) l2 used2 w t1 tend Hf) as (k & l3 & used3 & t3 & part3 & d3 & -> & T1 & T2 & Eb & Hk & W & P & Rd & Hm3 & Hd3 & Hr3);
      [|exact E2|lia|exact Hm2|done|done|].
    { destruct l2. simpl in L1, L2. subst. apply reading_fresh. }
    exists (S k), l3, used3, t3, part3, (d2 ++ d3). split; [done|]. cbn [take drop tracks]. rewrite Es. cbn [mbind res_bind]. split; [done|]. split; [done|].
    split. { rewrite app_assoc, EQ. unfold encodes in *. cbn [map concat]. rewrite <- app_assoc. f_equal. exact Eb. }
    split; [simpl in *; lia|]. split; [done|]. split; [congruence|]. split; [congruence|]. rewrite app_assoc. split; [done|].
    split; [|done]. by rewrite Hd3, Hd, app_assoc.
Qed.

(** ** The whole stream *)

Lemma from_master_fed buf w :
  backlog_ok (w_server w) ->
  exists s, replicationFeedSlavesFromMasterStream buf w = Ok (set_w_server s w) /\ fed buf (w_server w) s /\ slaveseldb s = slaveseldb (w_server w).
Proof.
  intros Hok. unfold replicationFeedSlavesFromMasterStream.
  destruct (with_backlog_feeds buf (feedReplicationBacklog buf) (w_server w) (feed_feeds buf) Hok) as (s & -> & F & Sl & Sd).
  cbn [mbind res_bind]. eexists. split; [done|]. split; [|done]. split; [by apply fed_backlog_slaves|]. unfold each_slave. simpl. by rewrite Sl.
Qed.

Lemma pending_span_prefix (x rest : bytes) : pending_span (x ++ rest) 0 (Z.of_nat (length x)) = Ok x.
Proof. exact (pending_span_at [] x rest). Qed.

(** After the prefix [P] of the stream was read: [k] commands have run. *)

Record master_inv (off0 : Z) (w0 : world) (st0 : St) (cmds : list (list bytes)) (P : bytes) (k : nat) (l : link) (used : Z) (w : world) (t : track) : Prop := {
  mi_count : (k <= length cmds)%nat;
  mi_run : tracks (take k cmds) (MkTrack [] [] w0 st0) = Ok t;
  mi_more : exists tend, tracks (drop k cmds) t = Ok tend;
  mi_world : w = set_w_server (w_server w) (t_world t);
  mi_fed : fed (t_done t) (w_server w0) (w_server w);
  mi_offset : l_reploff l = off0 + Z.of_nat (length (t_done t));
  mi_role : iAmMaster (t_world t) = false;
  mi_all : w_repl_slave_repl_all w = false;
  mi_part : exists part, P = encodes (take k cmds) ++ part /\ mid [] used t part [] l /\ waiting_for (drop k cmds) part l
}.

Lemma tracks_app a b t t1 : tracks a t = Ok t1 -> tracks (a ++ b) t = tracks b t1.
Proof. revert t. induction a as [|c a IH]; intros t E; cbn [tracks app] in *; [by injection E as <-|]. destruct (track_step c t); cbn [mbind res_bind] in *; [by apply IH|done..]. Qed.

Lemma tracks_all a t t1 : tracks a t = Ok t1 -> w_repl_slave_repl_all (t_world t1) = w_repl_slave_repl_all (t_world t).
Proof.
  revert t. induction a as [|c a IH]; intros t E; cbn [tracks] in *; [by injection E as <-|]. unfold track_step in E at 1.
  destruct (exec c (t_state t)) as [gid st]. destruct (attribute _ _ _ _) as [w2| |] eqn:Ew; cbn [mbind res_bind] in E; [|done..].
  apply attribute_role in Ew as (_ & _ & Ew & _). rewrite (IH _ E). by destruct (multi st).
Qed.

Lemma master_step off0 w0 st0 cmds P b tail k l used w t :
  Forall (readable max_bulk) cmds -> backlog_ok (w_server w0) -> master_inv off0 w0 st0 cmds P k l used w t -> P ++ b ++ tail = encodes cmds ->
  exists k2 l2 used2 w2 t2, readMaster b l used w (t_state t) = Ok (l2, used2, w2, t_state t2) /\ master_inv off0 w0 st0 cmds (P ++ b) k2 l2 used2 w2 t2.
Proof.
  intros Hf Hb [Hk Hrun [tend Hmore] Hw Hfed Hoff Hrole Hall (part & EP & (M1 & M2 & M3) & W)] E. unfold readMaster.
  assert (iAmMaster w = false) as Hr by (by rewrite Hw). rewrite Hr. cbn [negb l_reader l_reploff orb].
  set (l1 := MkLink (l_reader l) (l_reqtype l) (l_reploff l) (l_read_reploff l + Z.of_nat (length b)) (l_pending l ++ b)).
  change (MkLink (append_input b (l_reader l)) (l_reqtype l) (l_reploff l) (l_read_reploff l + Z.of_nat (length b)) (l_pending l ++ b)) with (with_input b l1).
  rewrite !app_nil_r in M1, M3. simpl in M1, M2.
  assert (part ++ b ++ tail = encodes (drop k cmds)) as Ed.
  { rewrite <- (take_drop k cmds), encodes_app, EP, <- app_assoc in E. by apply app_inv_head in E. }
  destruct (drop k cmds) as [|argv rest] eqn:Edr.
  { destruct W as (-> & Hrd & Htp). simpl in Ed. apply app_eq_nil in Ed as [-> ->]. rewrite with_input_nil.
    cbn [processMaster l1 l_reader append_input querybuf]. rewrite Hrd. rewrite (bool_decide_true (querybuf (fresh []) = [])) by done.
    cbn [mbind res_bind l_reploff]. rewrite Z.sub_diag. cbn [Z.eqb]. eexists k, _, _, _, t. split; [reflexivity|]. rewrite app_nil_r.
    split; [done|done|rewrite Edr; eauto|done|done|done|done|done|]. exists []. split; [done|]. unfold mid, l1. cbn [l_pending l_reploff l_read_reploff].
    rewrite !app_nil_r in *. split; [split; [done|]; split; [done|]; simpl; lia|]. by rewrite Edr. }
  destruct W as [Q R]. assert (reading argv part Q l1) as R1 by exact R.
  assert (Forall (readable max_bulk) (argv :: rest)) as Hf2 by (rewrite <- Edr; by apply Forall_drop).
  assert (Q ++ encodes rest = b ++ tail) as Eb.
  { destruct R as (_ & EQ & _). unfold encodes in Ed. cbn [map concat] in Ed. rewrite <- EQ, <- app_assoc in Ed. apply app_inv_head in Ed. by symmetry. }
  destruct (master_stream rest (S (length (querybuf (append_input b (l_reader l))))) argv part Q b tail [] l1 used w t tend Hf2 R1 Eb)
    as (j & l2 & used2 & t2 & part2 & x & Erun & T1 & T2 & Ep & Hj & W2 & Pd & Rd & Hm2 & Hd & Hr2); [| |done|done|].
  { unfold append_input. cbn [querybuf]. rewrite length_app. lia. }
  { split; [unfold l1; cbn [l_pending]; rewrite M1; simpl; by rewrite <- app_assoc|]. split; [done|].
    unfold l1. cbn [l_read_reploff l_reploff]. rewrite app_assoc, length_app, M3. lia. }
  rewrite <- Hw in Erun. rewrite Erun. cbn [mbind res_bind]. change (l_reploff (with_input b l1)) with (l_reploff l).
  rewrite <- Edr in T1, T2, Ep, W2, Hj. rewrite drop_drop in T2, W2. rewrite length_drop in Hj.
  destruct Hm2 as (N1 & N2 & N3). rewrite !app_nil_r in N1, N3. simpl in N1, N2.
  assert (tracks (take (k + j) cmds) (MkTrack [] [] w0 st0) = Ok t2) as Hrun2 by (rewrite <- take_take_drop, (tracks_app _ _ _ _ Hrun); exact T1).
  assert (P ++ b = encodes (take (k + j) cmds) ++ part2) as EP2.
  { rewrite EP, <- take_take_drop, encodes_app, <- !app_assoc. by rewrite <- Ep. }
  assert (l_read_reploff l + Z.of_nat (length b) = l_reploff l2 + Z.of_nat (length (t_span t2 ++ part2))) as Er by (rewrite <- N3; exact (eq_sym Rd)).
  assert (l_pending l ++ b = x ++ t_span t2 ++ part2) as Ex by (rewrite <- N1; exact (eq_sym Pd)).
  assert (l_reploff l2 = l_reploff l + Z.of_nat (length x)) as Eo.
  { pose proof (f_equal length Ex) as Lx. rewrite M1, !length_app in Lx. rewrite !length_app in Er. rewrite length_app in M3. lia. }
  assert (w_repl_slave_repl_all (t_world t2) = false) as Hall2 by (rewrite (tracks_all _ _ _ T1), <- Hall, Hw; done).
  rewrite Eo. replace (l_reploff l + Z.of_nat (length x) - l_reploff l) with (Z.of_nat (length x)) by lia.
  destruct (Z.eqb_spec (Z.of_nat (length x)) 0) as [E0|E0].
  - assert (x = []) as -> by (apply length_zero_iff_nil; lia). rewrite app_nil_r in Hd.
    eexists (k + j)%nat, l2, used2, _, t2. split; [reflexivity|]. split; [lia|done|eauto|done|by rewrite Hd|rewrite Eo, Hoff, Hd; simpl; lia|done|done|].
    exists part2. split; [done|]. split; [|done]. unfold mid. rewrite !app_nil_r. simpl. split; [done|]. split; [done|lia].
  - cbn [w_repl_slave_repl_all set_w_server]. rewrite Hall2. cbn [negb]. rewrite N1, pending_span_prefix. cbn [mbind res_bind].
    assert (backlog_ok (w_server w)) as Hb2 by (by eapply fed_backlog_ok; [apply Hfed|]).
    destruct (from_master_fed x (set_w_server (w_server w) (t_world t2))) as (s2 & -> & F2 & _); [exact Hb2|]. cbn [mbind res_bind].
    eexists (k + j)%nat, _, 0, _, t2. split; [reflexivity|]. split; [lia|done|eauto|done|rewrite Hd; exact (fed_app _ _ _ _ _ Hfed F2)| |done|done|].
    + cbn [l_reploff]. rewrite Hoff, Hd, length_app. lia.
    + exists part2. split; [done|]. split; [|exact W2]. unfold mid. cbn [l_pending l_read_reploff l_reploff]. rewrite !app_nil_r.
      rewrite sdsrange_suffix, Nat2Z.id, drop_app_length by lia. simpl. split; [done|]. split; [done|lia].
Qed.

Lemma master_steps off0 w0 st0 cmds bs : forall P tail k l used w t,
  Forall (readable max_bulk) cmds -> backlog_ok (w_server w0) -> master_inv off0 w0 st0 cmds P k l used w t -> P ++ concat bs ++ tail = encodes cmds ->
  exists k2 l2 used2 w2 t2, readMasters bs l used w (t_state t) = Ok (l2, used2, w2, t_state t2) /\ master_inv off0 w0 st0 cmds (P ++ concat bs) k2 l2 used2 w2 t2.
Proof.
  induction bs as [|b bs IH]; intros P tail k l used w t Hf Hb I E; cbn [readMasters concat] in *.
  - exists k, l, used, w, t. by rewrite app_nil_r.
  - rewrite <- app_assoc in E. destruct (master_step off0 w0 st0 cmds P b (concat bs ++ tail) k l used w t Hf Hb I E) as (k2 & l2 & u2 & w2 & t2 & -> & I2).
    cbn [mbind res_bind]. destruct (IH (P ++ b) tail k2 l2 u2 w2 t2 Hf Hb I2) as (k3 & l3 & u3 & w3 & t3 & -> & I3); [by rewrite <- app_assoc|].
    exists k3, l3, u3, w3, t3. split; [done|]. by rewrite app_assoc.
Qed.

Lemma master_start off0 w0 st0 cmds tend :
  iAmMaster w0 = false -> w_repl_slave_repl_all w0 = false -> tracks cmds (MkTrack [] [] w0 st0) = Ok tend ->
  master_inv off0 w0 st0 cmds [] 0 (MkLink (fresh []) REQ_UNKNOWN off0 off0 []) 0 w0 (MkTrack [] [] w0 st0).
Proof.
  intros Hr Ha Ht. split; [lia|done|exists tend; by rewrite drop_0|by destruct w0|apply fed_nil; [apply fed_backlog_refl|done]|simpl; lia|done|done|].
  exists []. unfold encodes. simpl. split; [done|]. split; [split; [done|]; split; [done|]; simpl; lia|]. rewrite drop_0.
  destruct cmds; [done|]. eexists. apply reading_fresh.
Qed.

(** When everything was read, every command has run. *)

Lemma master_inv_end off0 w0 st0 cmds k l used w t :
  master_inv off0 w0 st0 cmds (encodes cmds) k l used w t -> tracks cmds (MkTrack [] [] w0 st0) = Ok t.
Proof.
  intros [Hk Hrun _ _ _ _ _ _ (part & EP & _ & W)]. rewrite <- (take_drop k cmds) in EP at 1. rewrite encodes_app in EP. apply app_inv_head in EP.
  destruct (drop k cmds) as [|argv rest] eqn:Ed; [by rewrite <- (take_drop k cmds), Ed, app_nil_r|]. exfalso.
  destruct W as [Q (N & EQ & _)]. unfold encodes in EP. cbn [map concat] in EP. rewrite <- EQ in EP.
  apply (f_equal length) in EP. rewrite !length_app in EP. destruct Q; [done|simpl in EP; lia].
Qed.

End master_link.
