(* ===== verification/Mirror.v ===== *)
(** * A slave keeps what its master has

    The master makes its two streams: its own writes go to both, the commands of a
    peer only to the stream of its slaves, and they move its position in the stream
    of that peer.  A slave that reads the first stream ends with the same two
    streams and the same positions: it can take over from the master. *)

From S2P Require Import Prelude Util Sds VectorClock VcTheory VcText VcClaims Proxy CrdtServer Backlog Resp World Feed Psync PeerState PeerLink MasterLink.

(** ** What the master does *)

Inductive activity :=
| OwnWrite (dictid : Z) (argv : list robj)
| PeerCommands (g dictid : Z) (cmds : list (list bytes)).

(** The commands of a peer that ran are forwarded, and the link of the peer is that
    much further. *)

Definition act (a : activity) (w : world) : res world :=
  match a with
  | OwnWrite dictid argv => replicationFeedAllSlaves dictid argv w
  | PeerCommands g dictid cmds =>
      w ← forward dictid (encodes cmds) w;
      credit_peer g (Z.of_nat (length (encodes cmds))) w
  end.

Fixpoint acts (l : list activity) (w : world) : res world :=
  match l with
  | [] => Ok w
  | a :: l => w ← act a w; acts l w
  end.

(** ** What is on the wire: each command with the group whose stream it is part of,
    -1 for a SELECT that is only for the slaves *)

Definition tagged_act (own ss sc : Z) (a : activity) : list (Z * list bytes) * Z * Z :=
  match a with
  | OwnWrite d argv =>
      ((if negb (ss =? d) || negb (sc =? d) then [(own, [str "CRDT.SELECT"; print_Z own; print_Z d])] else []) ++
       [(own, map obj_bytes argv)], d, d)
  | PeerCommands g d cmds =>
      if bool_decide (cmds = []) then ([], ss, sc)
      else ((if negb (ss =? d) then [(-1, [str "SELECT"; print_Z d])] else []) ++ map (pair g) cmds, d, sc)
  end.

Fixpoint tagged (own ss sc : Z) (l : list activity) : list (Z * list bytes) :=
  match l with
  | [] => []
  | a :: l => let '(t, ss, sc) := tagged_act own ss sc a in t ++ tagged own ss sc l
  end.

Definition wire (tags : list (Z * list bytes)) : bytes := encodes (map snd tags).

Definition part_of (g : Z) (tags : list (Z * list bytes)) : bytes := wire (filter (fun t => fst t = g) tags).

Lemma wire_app a b : wire (a ++ b) = wire a ++ wire b.
Proof. unfold wire. by rewrite map_app, encodes_app. Qed.

Lemma part_of_app g a b : part_of g (a ++ b) = part_of g a ++ part_of g b.
Proof. unfold part_of. by rewrite filter_app, wire_app. Qed.

Lemma part_of_cons g h c tags : part_of g ((h, c) :: tags) = (if decide (h = g) then encode_command c else []) ++ part_of g tags.
Proof. unfold part_of, wire, encodes. rewrite filter_cons. simpl. by destruct (decide (h = g)). Qed.

Lemma wire_cons h c tags : wire ((h, c) :: tags) = encode_command c ++ wire tags.
Proof. done. Qed.

(** ** Positions in the streams of the peers *)

Definition credit (n : Z) (p : peer) : peer := set_master ((fun m => set_cl_reploff (cl_reploff m + n) m) <$> master p) p.

Lemma credit_add a b p : credit b (credit a p) = credit (a + b) p.
Proof. unfold credit. destruct p as [? ? ? ? [[]|]]; [|done]. cbn. unfold set_master, set_cl_reploff. cbn. by rewrite Z.add_assoc. Qed.

Lemma credit_0 p : credit 0 p = p.
Proof. unfold credit. destruct p as [? ? ? ? [[]|]]; [|done]. cbn. unfold set_master, set_cl_reploff. cbn. by rewrite Z.add_0_r. Qed.

(** [ps] and [ps'] are [crdtMasters] before and after. *)

Definition credited (inc : Z -> Z) (ps ps' : gmap Z peer) : Prop := forall g, ps' !! g = credit (inc g) <$> ps !! g.

Lemma credited_refl ps : credited (fun _ => 0) ps ps.
Proof. intros g. destruct (ps !! g); simpl; by rewrite ?credit_0. Qed.

Lemma credited_trans i j a b c : credited i a b -> credited j b c -> credited (fun g => i g + j g) a c.
Proof. intros H1 H2 g. rewrite H2, H1. destruct (a !! g); simpl; by rewrite ?credit_add. Qed.

Lemma credited_ext i j a b : (forall g, i g = j g) -> credited i a b -> credited j a b.
Proof. intros E H g. by rewrite <- E. Qed.

Lemma credit_peer_ok g n w :
  0 <= g < 16 ->
  exists w', credit_peer g n w = Ok w' /\ credited (fun h => if decide (h = g) then n else 0) (crdtMasters (w_crdt w)) (crdtMasters (w_crdt w')) /\
    w' = set_w_crdt (set_crdtMasters (crdtMasters (w_crdt w')) (w_crdt w)) w.
Proof.
  intros Hg. unfold credit_peer. rewrite getPeerMaster_valid by done. cbn [mbind res_bind].
  assert (to_int g = g) as Eg by (unfold to_int; apply swrap_id; simpl; lia).
  destruct (crdtMasters (w_crdt w) !! g) as [p|] eqn:Ep; [destruct (master p) as [m|] eqn:Em|].
  - eexists. split; [done|]. split; [|by rewrite Eg]. rewrite Eg. intros h. unfold set_peer. simpl. destruct (decide (h = g)) as [-> |Hne].
    + rewrite lookup_insert_eq, Ep. simpl. unfold credit. by rewrite Em.
    + rewrite lookup_insert_ne by done. destruct (_ !! h); simpl; by rewrite ?credit_0.
  - exists w. split; [done|]. split; [|by destruct w as [? ? []]]. intros h. destruct (decide (h = g)) as [-> |Hne].
    + rewrite Ep. simpl. unfold credit. rewrite Em. simpl. by destruct p; simpl in Em; subst.
    + destruct (_ !! h); simpl; by rewrite ?credit_0.
  - exists w. split; [done|]. split; [|by destruct w as [? ? []]]. intros h. destruct (decide (h = g)) as [-> |Hne]; [by rewrite Ep|].
    destruct (_ !! h); simpl; by rewrite ?credit_0.
Qed.

(** What a part of the stream adds to the position in the stream of a peer. *)

Definition gain (own : Z) (tags : list (Z * list bytes)) (g : Z) : Z :=
  if decide (0 <= g < 16 /\ g <> own) then Z.of_nat (length (part_of g tags)) else 0.

Lemma gain_app own a b g : gain own (a ++ b) g = gain own a g + gain own b g.
Proof. unfold gain. rewrite part_of_app, length_app. destruct (decide _); lia. Qed.

(** Only the two servers and the positions change. *)

Definition rest_kept (w w' : world) : Prop :=
  w' = set_w_server (w_server w') (set_w_peers (w_peers w') (set_w_crdt (set_crdtMasters (crdtMasters (w_crdt w')) (w_crdt w)) w)).

Lemma rest_kept_trans a b c : rest_kept a b -> rest_kept b c -> rest_kept a c.
Proof. unfold rest_kept. intros H1 H2. rewrite H2, H1. by destruct a as [? ? []], b, c. Qed.

Lemma rest_kept_refl w : rest_kept w w.
Proof. by destruct w as [? ? []]. Qed.

Lemma rest_kept_role w w' :
  rest_kept w w' -> crdt_gid (w_crdt w') = crdt_gid (w_crdt w) /\ proxies_master w' = proxies_master w /\ iAmMaster w' = iAmMaster w /\
    w_repl_slave_repl_all w' = w_repl_slave_repl_all w.
Proof. intros R. unfold rest_kept in R. rewrite R. by destruct w as [? ? []]. Qed.

(** [sel], [sel']: the databases selected in the two streams before and after. *)

Record acted (own : Z) (tags : list (Z * list bytes)) (sel' : Z * Z) (w w' : world) : Prop := {
  ac_server : fed (wire tags) (w_server w) (w_server w');
  ac_peers : fed (part_of own tags) (w_peers w) (w_peers w');
  ac_sel : (slaveseldb (w_server w'), slaveseldb (w_peers w')) = sel';
  ac_positions : credited (gain own tags) (crdtMasters (w_crdt w)) (crdtMasters (w_crdt w'));
  ac_rest : rest_kept w w'
}.

Definition activity_ok (own : Z) (a : activity) : Prop :=
  match a with
  | OwnWrite _ argv => Forall robj_ok argv
  | PeerCommands g _ _ => 0 <= g < 16 /\ g <> own
  end.

#[global] Instance activity_ok_dec own a : Decision (activity_ok own a).
Proof. destruct a; apply _. Defined.

Lemma own_tags own cmds : part_of own (map (pair own) cmds) = encodes cmds /\ forall g, g <> own -> part_of g (map (pair own) cmds) = [].
Proof.
  split; [|intros g Hg]; induction cmds as [|c cmds IH]; cbn [map]; [done| |done|]; rewrite part_of_cons, IH.
  - by rewrite decide_True.
  - by rewrite decide_False.
Qed.

Lemma gain_own own cmds g : gain own (map (pair own) cmds) g = 0.
Proof. unfold gain. destruct (decide _) as [[_ Hne]|]; [|done]. by rewrite (proj2 (own_tags own cmds) g Hne). Qed.

Lemma act_own_ok dictid argv w own :
  world_ok w -> proxies_master w = false -> own = crdt_gid (w_crdt w) -> Forall robj_ok argv ->
  let '(t, ss, sc) := tagged_act own (slaveseldb (w_server w)) (slaveseldb (w_peers w)) (OwnWrite dictid argv) in
  exists w', act (OwnWrite dictid argv) w = Ok w' /\ acted own t (ss, sc) w w'.
Proof.
  intros Hw Hm -> Ha. cbn [tagged_act act]. destruct (feed_all dictid argv w Hw Hm Ha) as (w' & -> & [R F] & Hs). exists w'. split; [done|].
  set (own := crdt_gid (w_crdt w)) in *. fold (seldb_differs dictid w).
  assert ((if seldb_differs dictid w then [(own, [str "CRDT.SELECT"; print_Z own; print_Z dictid])] else []) ++ [(own, map obj_bytes argv)] =
    map (pair own) ((if seldb_differs dictid w then [[str "CRDT.SELECT"; print_Z own; print_Z dictid]] else []) ++ [map obj_bytes argv])) as Et by (by destruct (seldb_differs dictid w)).
  rewrite Et. set (cmds := _ ++ [map obj_bytes argv]).
  assert (encodes cmds = select_prefix dictid w ++ encode_command (map obj_bytes argv)) as Ee.
  { unfold cmds. rewrite encodes_app. unfold select_prefix, encodes. fold own. by destruct (seldb_differs dictid w); cbn [map concat]; rewrite !app_nil_r. }
  assert (wire (map (pair own) cmds) = encodes cmds) as Ew by (unfold wire; rewrite map_map; simpl; by rewrite map_id).
  split.
  - rewrite Ew, Ee. exact (F SERVER).
  - rewrite (proj1 (own_tags own cmds)), Ee. exact (F CRDT).
  - pose proof (Hs SERVER) as E1. pose proof (Hs CRDT) as E2. simpl in E1, E2. by rewrite E1, E2.
  - apply same_rest_role in R as [-> _]. eapply credited_ext; [|apply credited_refl]. intros g. by rewrite gain_own.
  - unfold rest_kept. unfold same_rest in R. rewrite R. by destruct w as [? ? []], w'.
Qed.

Lemma forward_fed dictid cmds w :
  cmds <> [] -> backlog_ok (w_server w) ->
  exists w', forward dictid (encodes cmds) w = Ok w' /\
    fed (wire (if negb (slaveseldb (w_server w) =? dictid) then [(-1, [str "SELECT"; print_Z dictid])] else []) ++ encodes cmds) (w_server w) (w_server w') /\
    slaveseldb (w_server w') = dictid /\ w' = set_w_server (w_server w') w.
Proof.
  intros Hc Hb. unfold forward. rewrite bool_decide_false.
  2: { destruct cmds as [|c cmds]; [done|]. unfold encodes. cbn [map concat]. destruct (encode_command_head c) as [t ->]. done. }
  assert (exists w1, (if negb (slaveseldb (w_server w) =? dictid) then sendSelectCommandToSlave dictid w else Ok w) = Ok w1 /\
    fed (wire (if negb (slaveseldb (w_server w) =? dictid) then [(-1, [str "SELECT"; print_Z dictid])] else [])) (w_server w) (w_server w1) /\
    slaveseldb (w_server w1) = dictid /\ w1 = set_w_server (w_server w1) w) as (w1 & -> & F1 & S1 & R1).
  { destruct (Z.eqb_spec (slaveseldb (w_server w)) dictid) as [E|E]; cbn [negb].
    - exists w. split; [done|]. split; [apply fed_nil; [apply fed_backlog_refl|done]|]. split; [done|by destruct w].
    - destruct (select_own_fed dictid w Hb) as (w1 & -> & F & S & R). exists w1. split; [done|]. split; [|done]. unfold wire, encodes. cbn [map concat snd].
      by rewrite app_nil_r. }
  cbn [mbind res_bind]. destruct (from_master_fed (encodes cmds) w1) as (s & -> & F2 & S2); [by eapply fed_backlog_ok; [apply F1|]|].
  eexists. split; [done|]. split; [exact (fed_app _ _ _ _ _ F1 F2)|]. split; [by rewrite <- S1|]. by rewrite R1.
Qed.

Lemma act_peer_ok g dictid cmds w own :
  world_ok w -> own = crdt_gid (w_crdt w) -> 0 <= g < 16 -> g <> own -> 0 <= own ->
  let '(t, ss, sc) := tagged_act own (slaveseldb (w_server w)) (slaveseldb (w_peers w)) (PeerCommands g dictid cmds) in
  exists w', act (PeerCommands g dictid cmds) w = Ok w' /\ acted own t (ss, sc) w w'.
Proof.
  intros Hw -> Hg Hne Hown. cbn [tagged_act act]. set (own := crdt_gid (w_crdt w)) in *. destruct (decide (cmds = [])) as [-> |Hc].
  - rewrite bool_decide_true by done. cbn [forward encodes map concat length]. unfold forward. rewrite bool_decide_true by done. cbn [mbind res_bind].
    destruct (credit_peer_ok g 0 w Hg) as (w' & E & Hcr & Hr). exists w'. split; [exact E|].
    assert (w_server w' = w_server w /\ w_peers w' = w_peers w) as [E1 E2] by (rewrite Hr; done). split.
    + rewrite E1. apply fed_nil; [apply fed_backlog_refl|done].
    + rewrite E2. apply fed_nil; [apply fed_backlog_refl|done].
    + by rewrite E1, E2.
    + eapply credited_ext; [|exact Hcr]. intros h. unfold gain. simpl. by destruct (decide _), (decide _).
    + unfold rest_kept. rewrite E1, E2. rewrite Hr at 1. by destruct w.
  - rewrite bool_decide_false by done. destruct (forward_fed dictid cmds w Hc (Hw SERVER)) as (w1 & -> & F1 & Hs1 & Hr1). cbn [mbind res_bind].
    destruct (credit_peer_ok g (Z.of_nat (length (encodes cmds))) w1 Hg) as (w' & -> & Hcr & Hr). exists w'. split; [done|].
    assert (w_server w' = w_server w1 /\ w_peers w' = w_peers w /\ crdtMasters (w_crdt w1) = crdtMasters (w_crdt w)) as (E1 & E2 & E3) by (rewrite Hr, Hr1; done).
    rewrite E3 in Hcr. set (sel := if negb _ then _ else _ : list (Z * list bytes)).
    assert (part_of own sel = [] /\ forall h, 0 <= h < 16 -> part_of h sel = []) as [S1 S2].
    { unfold sel. destruct (negb _); [|done]. split; [|intros h Hh]; rewrite part_of_cons, decide_False by lia; done. }
    split.
    + rewrite E1, wire_app. unfold wire at 2. rewrite map_map. simpl. rewrite map_id. unfold sel. destruct (negb _); exact F1.
    + rewrite E2, part_of_app, S1, (proj2 (own_tags g cmds) own) by done. apply fed_nil; [apply fed_backlog_refl|done].
    + by rewrite E1, E2, Hs1.
    + eapply credited_ext; [|exact Hcr]. intros h. unfold gain. rewrite part_of_app, length_app. destruct (decide (h = g)) as [-> |Hh].
      * rewrite decide_True by done. rewrite S2, (proj1 (own_tags g cmds)) by done. simpl. lia.
      * destruct (decide _) as [[H1 _]|]; [|done]. by rewrite S2, (proj2 (own_tags g cmds) h).
    + unfold rest_kept. rewrite E1, E2. rewrite Hr at 1. rewrite Hr1. by destruct w.
Qed.

Lemma acted_trans own a b sel1 sel2 w1 w2 w3 : acted own a sel1 w1 w2 -> acted own b sel2 w2 w3 -> acted own (a ++ b) sel2 w1 w3.
Proof.
  intros [A1 A2 A3 A4 A5] [B1 B2 B3 B4 B5]. split; [rewrite wire_app; by eapply fed_app|rewrite part_of_app; by eapply fed_app|done| |by eapply rest_kept_trans].
  eapply credited_ext; [|by eapply credited_trans]. intros g. symmetry. apply gain_app.
Qed.

Lemma acted_ok own tags sel w w' : acted own tags sel w w' -> world_ok w -> world_ok w'.
Proof. intros [A1 A2 _ _ _] Hw [|]; [exact (fed_backlog_ok _ _ _ (proj1 A1) (Hw SERVER))|exact (fed_backlog_ok _ _ _ (proj1 A2) (Hw CRDT))]. Qed.

(** The master completes whatever it does, and its streams grow by what is on the
    wire. *)

Lemma acts_ok l : forall w own,
  world_ok w -> proxies_master w = false -> own = crdt_gid (w_crdt w) -> 0 <= own -> Forall (activity_ok own) l ->
  let ss := slaveseldb (w_server w) in
  let sc := slaveseldb (w_peers w) in
  exists w' sel, acts l w = Ok w' /\ acted own (tagged own ss sc l) sel w w' /\
    forall l2, tagged own ss sc (l ++ l2) = tagged own ss sc l ++ tagged own (fst sel) (snd sel) l2.
Proof.
  induction l as [|a l IH]; intros w own Hw Hm Eo H0 Hl ss sc; cbn [acts tagged].
  - exists w, (ss, sc). split; [done|]. split; [|done]. split; [apply fed_nil; [apply fed_backlog_refl|done]..|done| |apply rest_kept_refl].
    eapply credited_ext; [|apply credited_refl]. intros g. unfold gain. by destruct (decide _).
  - apply Forall_cons in Hl as [Ha Hl].
    assert (let '(t, ss, sc) := tagged_act own ss sc a in
      exists w1, act a w = Ok w1 /\ acted own t (ss, sc) w w1) as H1.
    { destruct a as [d argv|g d cmds]; [by apply act_own_ok|]. destruct Ha. by apply act_peer_ok. }
    cbn [app tagged]. destruct (tagged_act _ _ _ a) as [[t ss1] sc1]. destruct H1 as (w1 & -> & A1). cbn [mbind res_bind].
    destruct (rest_kept_role _ _ (ac_rest _ _ _ _ _ A1)) as (E1 & E2 & _). pose proof (ac_sel _ _ _ _ _ A1) as [= S1 S2].
    destruct (IH w1 own) as (w' & sel & -> & A2 & Ht); [by eapply acted_ok|by rewrite E2|by rewrite E1|done|done|].
    exists w', sel. rewrite S1, S2 in A2, Ht. split; [done|]. split; [by eapply acted_trans|]. intros l2. by rewrite Ht, app_assoc.
Qed.

Lemma acts_app l1 l2 w : acts (l1 ++ l2) w = (w ← acts l1 w; acts l2 w).
Proof.
  revert w. induction l1 as [|a l1 IH]; intros w; [done|]. cbn [acts app]. destruct (act a w); cbn [mbind res_bind]; [apply IH|done|done].
Qed.

(** ** What the slave does *)

Section slave.

Context {St : Type} (exec : list bytes -> St -> Z * St) (multi : St -> bool).

(** Every command leaves the group it is tagged with; inside a transaction, whose
    commands have all the same tag, only the last one does. *)

Fixpoint attributed (open : option Z) (tags : list (Z * list bytes)) (st : St) : Prop :=
  match tags with
  | [] => open = None
  | (g, c) :: tags =>
      let '(gid, st) := exec c st in
      (match open with Some h => g = h | None => True end) /\
      gid = (if multi st then -1 else g) /\ attributed (if multi st then Some g else None) tags st
  end.

Definition final_state (tags : list (Z * list bytes)) (st : St) : St := fold_left (fun st t => snd (exec (snd t) st)) tags st.

(** The backlog of the peers and the positions; [own] bytes were added. *)

Record followed (own_bytes : bytes) (inc : Z -> Z) (w w' : world) : Prop := {
  fo_peers : fed_backlog own_bytes (w_peers w) (w_peers w');
  fo_slaves : slaves (w_peers w') = slaves (w_peers w) /\ slaveseldb (w_peers w') = slaveseldb (w_peers w);
  fo_positions : credited inc (crdtMasters (w_crdt w)) (crdtMasters (w_crdt w'));
  fo_server : w_server w' = w_server w;
  fo_rest : rest_kept w w'
}.

Lemma followed_refl w : followed [] (fun _ => 0) w w.
Proof. split; [apply fed_backlog_refl|done|apply credited_refl|done|apply rest_kept_refl]. Qed.

Lemma followed_trans a b i j w1 w2 w3 : followed a i w1 w2 -> followed b j w2 w3 -> followed (a ++ b) (fun g => i g + j g) w1 w3.
Proof.
  intros [A1 [A2 A3] A4 A5 A6] [B1 [B2 B3] B4 B5 B6].
  split; [by eapply fed_backlog_app|split; congruence|by eapply credited_trans|congruence|by eapply rest_kept_trans].
Qed.

Lemma followed_ext a b i j w w' : a = b -> (forall g, i g = j g) -> followed a i w w' -> followed b j w w'.
Proof. intros -> E [A1 A2 A3 A4 A5]. split; [done|done|by eapply credited_ext|done|done]. Qed.

Lemma attribute_followed g span w stream :
  backlog_rep (w_peers w) stream -> 0 <= crdt_gid (w_crdt w) -> 0 <= g < 16 \/ g = -1 ->
  exists w', attribute g (Ok span) (Z.of_nat (length span)) w = Ok w' /\
    followed (if decide (g = crdt_gid (w_crdt w)) then span else []) (fun h => if decide (h = g /\ 0 <= g < 16 /\ g <> crdt_gid (w_crdt w)) then Z.of_nat (length span) else 0) w w'.
Proof.
  intros Hrep Hown Hg. unfold attribute. destruct (Z.eqb_spec g (crdt_gid (w_crdt w))) as [E|E].
  - cbn [mbind res_bind]. destruct (feed_feeds span (w_peers w) stream Hrep) as (s & -> & F & Sl & Sd). cbn [mbind res_bind]. eexists. split; [done|].
    rewrite decide_True by done. split; [done|done| |done|by destruct w as [? ? []]].
    eapply credited_ext; [|apply credited_refl]. intros h. rewrite decide_False by tauto. done.
  - rewrite decide_False by done. destruct (Z.eqb_spec g (-1)) as [E1|E1]; cbn [negb].
    + exists w. split; [done|]. eapply followed_ext; [done| |apply followed_refl]. intros h. rewrite decide_False by lia. done.
    + assert (0 <= g < 16) as Hg' by lia. destruct (credit_peer_ok g (Z.of_nat (length span)) w Hg') as (w' & E2 & Hcr & Hr). exists w'. split; [done|].
      assert (w_server w' = w_server w /\ w_peers w' = w_peers w) as [E3 E4] by (rewrite Hr; done).
      split; [rewrite E4; apply fed_backlog_refl|by rewrite E4| |done|unfold rest_kept; rewrite E3, E4; rewrite Hr at 1; by destruct w].
      eapply credited_ext; [|exact Hcr]. intros h. destruct (decide (h = g)) as [-> |Hh].
      * by rewrite !decide_True by (done || by split).
      * rewrite !decide_False; [done|by intros [? _]|done].
Qed.

(** The part of the open transaction that is of group [g]. *)

Definition span_of (open : option Z) (span : bytes) (g : Z) : bytes := if decide (open = Some g) then span else [].

Lemma span_of_step open span g h enc :
  (match open with Some k => g = k | None => span = [] end) ->
  span_of open span h ++ (if decide (g = h) then enc else []) = (if decide (g = h) then span ++ enc else []).
Proof.
  unfold span_of. destruct open as [k|]; [intros ->|intros ->]; repeat case_decide; simplify_eq; try done; by rewrite ?app_nil_r.
Qed.

Lemma tracks_followed own tags : forall open t stream,
  attributed open tags (t_state t) -> (match open with Some _ => True | None => t_span t = [] end) ->
  Forall (fun x => 0 <= fst x < 16 \/ fst x = -1) tags ->
  backlog_rep (w_peers (t_world t)) stream -> own = crdt_gid (w_crdt (t_world t)) -> 0 <= own ->
  exists t', tracks exec multi (map snd tags) t = Ok t' /\ t_span t' = [] /\ t_done t' = t_done t ++ t_span t ++ wire tags /\
    t_state t' = final_state tags (t_state t) /\
    followed (span_of open (t_span t) own ++ part_of own tags)
      (fun g => if decide (0 <= g < 16 /\ g <> own) then Z.of_nat (length (span_of open (t_span t) g ++ part_of g tags)) else 0) (t_world t) (t_world t').
Proof.
  induction tags as [|[g c] tags IH]; intros open t stream Ha Hopen Hf Hrep Eo H0; cbn [map tracks attributed] in *.
  - subst open. exists t. rewrite Hopen. split; [done|]. split; [done|]. split; [unfold wire, encodes; simpl; by rewrite app_nil_r|]. split; [done|].
    eapply (followed_ext []); [done| |apply followed_refl]. intros g. by destruct (decide _).
  - apply Forall_cons in Hf as [Hg Hf]. unfold track_step. cbn [snd] in *. destruct (exec c (t_state t)) as [gid st] eqn:Ex.
    destruct Ha as (Hsame & -> & Ha). set (span := t_span t ++ encode_command c).
    assert (match open with Some k => g = k | None => t_span t = [] end) as Hcons by (by destruct open).
    assert (forall h, span_of open (t_span t) h ++ part_of h ((g, c) :: tags) = (if decide (g = h) then span else []) ++ part_of h tags) as Hsp.
    { intros h. rewrite part_of_cons, app_assoc. f_equal. by apply span_of_step. }
    assert (final_state ((g, c) :: tags) (t_state t) = final_state tags st) as Ef by (unfold final_state; simpl; by rewrite Ex).
    rewrite Ef, wire_cons. destruct (multi st) eqn:Em.
    + assert (attribute (-1) (Ok span) (Z.of_nat (length span)) (t_world t) = Ok (t_world t)) as ->.
      { unfold attribute. rewrite (proj2 (Z.eqb_neq (-1) _)) by lia. done. }
      cbn [mbind res_bind]. destruct (IH (Some g) (MkTrack span (t_done t) (t_world t) st) stream Ha I Hf Hrep Eo H0) as (t' & -> & R1 & R2 & R3 & R4).
      exists t'. split; [done|]. split; [done|]. cbn [t_done t_span t_world t_state] in *. split; [rewrite R2; unfold span; by rewrite <- app_assoc|]. split; [done|].
      assert (forall h, span_of (Some g) span h = if decide (g = h) then span else []) as Esp by (intros h; unfold span_of; by repeat case_decide; simplify_eq).
      eapply followed_ext; [| |exact R4]; [by rewrite Esp, Hsp|]. intros h. cbv beta. by rewrite Esp, Hsp.
    + destruct (attribute_followed g span (t_world t) stream Hrep) as (w1 & -> & F1); [by rewrite <- Eo|done|]. cbn [mbind res_bind]. rewrite <- Eo in F1.
      destruct (rest_kept_role _ _ (fo_rest _ _ _ _ F1)) as (Eg & _). destruct (fed_stream _ _ _ (fo_peers _ _ _ _ F1) stream Hrep) as [Hrep1 _].
      destruct (IH None (MkTrack [] (t_done t ++ span) w1 st) _ Ha eq_refl Hf Hrep1) as (t' & -> & R1 & R2 & R3 & R4); [cbn [t_world]; congruence|done|].
      exists t'. split; [done|]. split; [done|]. cbn [t_done t_span t_world t_state] in *. split; [rewrite R2; unfold span; by rewrite <- !app_assoc|]. split; [done|].
      pose proof (followed_trans _ _ _ _ _ _ _ F1 R4) as F. eapply followed_ext; [| |exact F].
      * rewrite Hsp. by unfold span_of.
      * intros h. cbv beta. rewrite Hsp. unfold span_of. rewrite (decide_False (P := None = Some h)) by done. cbn [app]. rewrite length_app.
        destruct (decide (0 <= h < 16 /\ h <> own)) as [Hh|Hh]; repeat case_decide; simpl; try lia; subst; tauto || lia.
Qed.

End slave.

(** ** Claim *)

(** The same end of the same stream, at the same offset. *)

Definition same_stream (s s' : replServer) : Prop :=
  exists stream, backlog_rep s stream /\ backlog_rep s' stream /\ master_repl_offset s = master_repl_offset s'.

(** The position in the stream of a peer. *)

Definition stream_position (w : world) (g : Z) : option Z := cl_reploff <$> (crdtMasters (w_crdt w) !! g ≫= master).

Definition same_positions (w w' : world) : Prop := forall g, 0 <= g < 16 -> g <> crdt_gid (w_crdt w) -> stream_position w g = stream_position w' g.

Lemma same_stream_fed p s1 s2 s1' s2' :
  same_stream s1 s2 -> fed_backlog p s1 s1' -> fed_backlog p s2 s2' -> same_stream s1' s2'.
Proof.
  intros (stream & R1 & R2 & E) F1 F2. destruct (fed_stream _ _ _ F1 _ R1) as [R1' O1]. destruct (fed_stream _ _ _ F2 _ R2) as [R2' O2].
  exists (stream ++ p). split; [done|]. split; [done|]. lia.
Qed.

Lemma position_credited inc w w' g :
  credited inc (crdtMasters (w_crdt w)) (crdtMasters (w_crdt w')) -> stream_position w' g = (fun o => o + inc g) <$> stream_position w g.
Proof. intros H. unfold stream_position. rewrite H. destruct (crdtMasters (w_crdt w) !! g) as [p|]; simpl; [|done]. by destruct (master p). Qed.

Lemma tagged_ok own l : forall ss sc, 0 <= own < 16 -> Forall (activity_ok own) l -> Forall (fun x => 0 <= fst x < 16 \/ fst x = -1) (tagged own ss sc l).
Proof.
  induction l as [|a l IH]; intros ss sc H0 Hl; cbn [tagged]; [constructor|]. apply Forall_cons in Hl as [Ha Hl].
  destruct (tagged_act own ss sc a) as [[t ss2] sc2] eqn:E. apply Forall_app. split; [|by apply IH]. destruct a as [d argv|g d cmds]; simpl in E.
  - injection E as <- _ _. apply Forall_app. split; [destruct (_ || _); repeat constructor; simpl; lia|]. repeat constructor; simpl; lia.
  - case_bool_decide; injection E as <- _ _; [constructor|]. apply Forall_app. split; [destruct (negb _); repeat constructor; simpl; lia|].
    apply Forall_map, Forall_true. intros c. simpl. destruct Ha. lia.
Qed.

(** What the master did and what the slave did with it. *)

Lemma mirror {St : Type} (exec : list bytes -> St -> Z * St) (multi : St -> bool) (max_bulk : Z) (wm ws : world) (st : St) (l : list activity) :
  let own := crdt_gid (w_crdt wm) in
  let tags := tagged own (slaveseldb (w_server wm)) (slaveseldb (w_peers wm)) l in
  let off0 := master_repl_offset (w_server wm) in
  forall (Hmaster : proxies_master wm = false) (Hown : 0 <= own < 16) (Hl : Forall (activity_ok own) l)
    (Hslave : iAmMaster ws = false) (Hall : w_repl_slave_repl_all ws = false) (Hgid : crdt_gid (w_crdt ws) = own)
    (Hserver : same_stream (w_server wm) (w_server ws)) (Hpeers : same_stream (w_peers wm) (w_peers ws))
    (Hread : Forall (readable max_bulk) (map snd tags)) (Hattr : attributed exec multi None tags st),
  exists wm' sel, acts l wm = Ok wm' /\ acted own tags sel wm wm' /\
    forall reads, concat reads = wire tags ->
    exists lk used ws', readMasters exec multi max_bulk false reads (MkLink (fresh []) REQ_UNKNOWN off0 off0 []) 0 ws st =
        Ok (lk, used, ws', final_state exec tags st) /\
      l_reploff lk = master_repl_offset (w_server wm') /\ fed (wire tags) (w_server ws) (w_server ws') /\
      fed_backlog (part_of own tags) (w_peers ws) (w_peers ws') /\ credited (gain own tags) (crdtMasters (w_crdt ws)) (crdtMasters (w_crdt ws')).
Proof.
  intros own tags off0 Hmaster Hown Hl Hslave Hall Hgid Hserver Hpeers Hread Hattr.
  assert (world_ok wm) as Hw by (intros [|]; right; [destruct Hserver as (s & R & _)|destruct Hpeers as (s & R & _)]; by exists s).
  destruct (acts_ok l wm own Hw Hmaster eq_refl) as (wm' & sel & E & A & _); [lia|done|]. exists wm', sel. split; [done|]. split; [done|]. intros reads Er.
  pose proof Hpeers as (cs & _ & Rc & _). pose proof Hserver as (ss & _ & Rs & _).
  destruct (tracks_followed exec multi own tags None (MkTrack [] [] ws st) cs Hattr eq_refl) as (t & Et & Esp & Ed & Est & F);
    [by apply tagged_ok|exact Rc|done|lia|]. cbn [t_done t_span t_world t_state app] in *.
  pose proof (master_start exec multi off0 ws st (map snd tags) t Hslave Hall Et) as I0.
  assert (backlog_ok (w_server ws)) as Hb by (right; by exists ss).
  destruct (master_steps exec multi max_bulk false eq_refl off0 ws st (map snd tags) reads [] [] 0 _ 0 ws _ Hread Hb I0) as (k & lk & used & ws' & t2 & E2 & I2);
    [rewrite Er, app_nil_r; done|].
  simpl app in I2. rewrite Er in I2. pose proof (master_inv_end _ _ _ _ _ _ _ _ _ _ _ I2) as E3. rewrite Et in E3. injection E3 as <-.
  destruct I2 as [_ _ _ Hw2 Hfed Hoff _ _ _]. exists lk, used, ws'. split; [rewrite <- Est; exact E2|].
  assert (w_peers ws' = w_peers (t_world t) /\ w_crdt ws' = w_crdt (t_world t)) as [Ep Ec] by (rewrite Hw2; done).
  split; [|split; [rewrite <- Ed; exact Hfed|split; [rewrite Ep; exact (fo_peers _ _ _ _ F)|rewrite Ec; exact (fo_positions _ _ _ _ F)]]].
  destruct Hserver as (s & R & _). assert (fed_backlog (wire tags) (w_server wm) (w_server wm')) as F1 by apply A.
  destruct (fed_stream _ _ _ F1 s R) as [_ ->]. rewrite Hoff, Ed. unfold off0. lia.
Qed.


(** A server of group 1 that writes, runs commands of group 2 and makes a
    transaction; commands carry their group as first argument. *)

Definition example_exec (c : list bytes) (st : bool * list (list bytes)) : Z * (bool * list (list bytes)) :=
  let tag := if bool_decide (c !! 0%nat = Some (str "SELECT")) then -1 else default (-1) (c !! 1%nat ≫= string2ll) in
  if bool_decide (c !! 0%nat = Some (str "CRDT.MULTI")) then (-1, (true, snd st ++ [c]))
  else if bool_decide (c !! 0%nat = Some (str "CRDT.EXEC")) then (tag, (false, snd st ++ [c]))
  else (if fst st then -1 else tag, (fst st, snd st ++ [c])).

Definition example_link : client := MkClient 2 7 true false 0 500 500 None 0.

Definition example_mirror_master : world :=
  set_peer 2 (set_master (Some example_link) (fst (createPeerMaster 0 None 2 example_world))) example_world.

Definition example_mirror_slave : world := set_w_master_is_crdt true (set_w_masterhost (Some (str "m")) example_mirror_master).

Definition example_activities : list activity :=
  let w := map RSds in
  [ OwnWrite 0 (w [str "CRDT.SET"; str "1"; str "k"]);
    PeerCommands 2 3 [[str "CRDT.SELECT"; str "2"; str "3"]; [str "CRDT.SET"; str "2"; str "k"]];
    OwnWrite 0 (w [str "CRDT.MULTI"; str "1"]); OwnWrite 0 (w [str "CRDT.SET"; str "1"; str "a"]); OwnWrite 0 (w [str "CRDT.EXEC"; str "1"]) ].

Lemma example_same_stream : same_stream (w_server example_mirror_master) (w_server example_mirror_slave) /\
  same_stream (w_peers example_mirror_master) (w_peers example_mirror_slave).
Proof. split; exists []; (split; [apply example_repl_rep|]); (split; [apply example_repl_rep|done]). Qed.

