(* ===== verification/Merge.v ===== *)
(** * The full resynchronization of a peer ([src/src/ctrip_crdt_rdb.c])

    A server writes its data and tombstones, filtered by what the peer already
    has, as a stream of merge commands; the peer merges each of them into its
    own keyspace. *)

From S2P Require Import Prelude Util Sds VectorClock VcTheory VcText VcClaims Proxy CrdtServer Gc Backlog Resp World Feed Psync PeerLink PeerState Crc Keyspace Rio.

(** The information a save starts from. *)

Record crdtRdbSaveInfo := MkSaveInfo {
  rsi_stream_db : Z;
  rsi_repl_id : bytes;
  rsi_repl_offset : Z;
  rsi_min_vc : VectorClock
}.

Definition crdtRdbPopulateSaveInfo2 (min_vc : VectorClock) (s : replServer) : option crdtRdbSaveInfo :=
  match repl_backlog s with
  | None => None
  | Some _ =>
      Some (MkSaveInfo (if slaveseldb s =? -1 then 0 else slaveseldb s) (replid s) (getPsyncInitialOffset s) min_vc)
  end.

Section sender.

Context {object : Type} `{CrdtModule object}.

(** [iter] is the order in which a dictionary is iterated, [addr] the address of
    the buffer of a payload, [max_bulk] is [proto_max_bulk_len]. *)

Context (iter : gmap bytes (dbval object) -> list (bytes * dbval object)) (addr max_bulk : Z).

Definition dataFilter2 (o : object) (gid : Z) (min_vc : VectorClock) : filter_result object :=
  match getCrdtObjectMethod o with
  | None => FilterNone
  | Some m => om_filterAndSplit2 m o gid min_vc max_bulk
  end.

Definition tombstoneFilter2 (o : object) (gid : Z) (min_vc : VectorClock) : filter_result object :=
  match getCrdtTombstoneMethod o with
  | None => FilterNone
  | Some m => tm_filterAndSplit2 m o gid min_vc max_bulk
  end.

(** One piece of a value. *)

Definition send_piece (cmdname : bytes) (gid : Z) (key : bytes) (mtype : moduleType) (expire : Z)
    (piece : object) (r : rio) : option rio :=
  r ← rioWriteBulkCount 42 5 r;
  r ← rioWriteBulkString cmdname r;
  r ← rioWriteBulkLongLong gid r;
  r ← rioWriteBulkString key r;
  r ← rioWriteBulkString (createDumpPayload addr (rdbSaveObject (ModuleValue mtype piece))) r;
  rioWriteBulkLongLong expire r.

Fixpoint send_pieces (cmdname : bytes) (gid : Z) (key : bytes) (mtype : moduleType) (expire : Z)
    (pieces : list object) (r : rio) : option rio :=
  match pieces with
  | [] => Some r
  | p :: pieces => r ← send_piece cmdname gid key mtype expire p r; send_pieces cmdname gid key mtype expire pieces r
  end.

(** The loop over the entries of a dictionary; [get_expire] is [getExpire] for
    the data and -1 for the tombstones. *)

Fixpoint crdtSendMergeRequest2 (cmdname : bytes) (filterFun : object -> Z -> VectorClock -> filter_result object)
    (get_expire : bytes -> res Z) (gid : Z) (min_vc : VectorClock) (entries : list (bytes * dbval object)) (r : rio)
  : res (option rio) :=
  match entries with
  | [] => Ok (Some r)
  | (key, o) :: entries =>
      let next r := crdtSendMergeRequest2 cmdname filterFun get_expire gid min_vc entries r in
      match o with
      | StringValue _ | OtherValue _ => next r
      | ModuleValue mtype object =>
          if negb (isModuleCrdt o) then next r else
          expire ← get_expire key;
          match filterFun object gid min_vc with
          | FilterTooBig => Ok None
          | FilterNone => next r
          | FilterPieces pieces =>
              match send_pieces cmdname gid key mtype expire pieces r with
              | None => Ok None
              | Some r => next r
              end
          end
      end
  end.

Definition save_db (gid : Z) (rsi : crdtRdbSaveInfo) (j : Z) (db : redisDb object) (r : rio) : res (option rio) :=
  if bool_decide (dict db = ∅) && bool_decide (deleted_keys db = ∅) then Ok (Some r) else
  match rioWrite (select_cmd j) r with
  | None => Ok None
  | Some r =>
      o ← (if bool_decide (dict db = ∅) then Ok (Some r)
           else crdtSendMergeRequest2 (str "CRDT.Merge") dataFilter2 (getExpire db) gid (rsi_min_vc rsi)
                  (iter (dict db)) r);
      match o with
      | None => Ok None
      | Some r =>
          if bool_decide (deleted_keys db = ∅) then Ok (Some r)
          else crdtSendMergeRequest2 (str "CRDT.Merge_Del") tombstoneFilter2 (fun _ => Ok (-1)) gid (rsi_min_vc rsi)
                 (iter (deleted_keys db)) r
      end
  end.

Fixpoint crdtRdbSaveRio (gid : Z) (rsi : crdtRdbSaveInfo) (j : Z) (dbs : list (redisDb object)) (r : rio)
  : res (option rio) :=
  match dbs with
  | [] => Ok (Some r)
  | db :: dbs =>
      o ← save_db gid rsi j db r;
      match o with
      | None => Ok None
      | Some r => crdtRdbSaveRio gid rsi (j + 1) dbs r
      end
  end.

(** The id is sent with the NUL byte that ends it: 41 bytes. *)

Definition merge_head (s : crdtServer) (rsi : crdtRdbSaveInfo) (cmd n : bytes) (r : rio) : option rio :=
  r ← rioWrite (n ++ CRLF) r;
  r ← rioWriteBulkString cmd r;
  r ← rioWriteBulkLongLong (crdt_gid s) r;
  r ← rioWriteBulkString (vectorClockToSds (vectorClock s)) r;
  rioWriteBulkString (rsi_repl_id rsi ++ [0]) r.

Definition rdbSaveRioWithCrdtMerge (s : crdtServer) (rsi : crdtRdbSaveInfo) (dbs : list (redisDb object)) (r : rio)
  : res (option rio) :=
  match merge_head s rsi (str "CRDT.MERGE_START") (str "*4") r with
  | None => Ok None
  | Some r =>
      o ← crdtRdbSaveRio (crdt_gid s) rsi 0 dbs r;
      match o with
      | None => Ok None
      | Some r =>
          match merge_head s rsi (str "CRDT.MERGE_END") (str "*5") r with
          | None => Ok None
          | Some r => Ok (rioWriteBulkLongLong (rsi_repl_offset rsi) r)
          end
      end
  end.

(** ** Merging *)

(** The keyspace, the rest of the server, and the database the client has
    selected. *)

Record mstate := MkState { ms_world : world; ms_dbs : list (redisDb object); ms_sel : nat }.

Definition set_ms_world (v : world) (st : mstate) : mstate := MkState v (ms_dbs st) (ms_sel st).

Definition set_ms_db (db : redisDb object) (st : mstate) : mstate :=
  MkState (ms_world st) (<[ms_sel st := db]> (ms_dbs st)) (ms_sel st).

Definition updateReplTransferLastio (gid : Z) (w : world) : res (option world) :=
  o ← getPeerMaster gid w;
  match o with
  | None => Ok None
  | Some p =>
      if iAmMaster w then Ok (Some (set_peer (to_int gid) (set_repl_transfer_lastio (w_unixtime w) p) w))
      else Ok (Some w)
  end.

Definition checkTombstoneType (c o : object) : bool :=
  if negb (isTombstone c) then false else obj_type c =? obj_type o.

Definition checkTombstoneDataType (c o : object) : bool :=
  if negb (isTombstone c) then false
  else if negb (isData o) then false
  else getDataType c =? getDataType o.

Definition checkDataType (c o : object) : bool :=
  if negb (isData c) then false else obj_type c =? obj_type o.

(** A payload, checked and loaded; the reader stops before the footer. *)

Definition load_payload (p : bytes) : option (dbval object) :=
  if verifyDumpPayload addr p then rdbLoadObject p else None.

(** The second half of [crdtMergeTomstoneCommand]: the tombstone, stored or
    merged into [deleted_keys], and then held against the value.  [false] is
    [C_ERR]. *)

Definition merge_tombstone (key : bytes) (obj : dbval object) (db : redisDb object)
  : res (bool * redisDb object) :=
  common ← need (retrieveObject obj);
  step ← match deleted_keys db !! key with
         | Some tombstone =>
             oldCommon ← need (retrieveObject tombstone);
             if negb (checkTombstoneType common oldCommon) then Ok None else
             match getCrdtTombstoneMethod common with
             | None => Ok None
             | Some method =>
                 let merged := tm_merge method common oldCommon in
                 match tombstone with
                 | ModuleValue mtype _ =>
                     Ok (Some (merged, set_deleted_keys (<[key := ModuleValue mtype merged]> (deleted_keys db)) db))
                 | _ => Undef
                 end
             end
         | None => Ok (Some (common, set_deleted_keys (<[key := obj]> (deleted_keys db)) db))
         end;
  match step with
  | None => Ok (false, db)
  | Some (tom, db) =>
      match lookupKey db key with
      | None => Ok (true, db)
      | Some currentVal =>
          cur ← need (retrieveObject currentVal);
          if checkTombstoneDataType tom cur then
            match getCrdtTombstoneMethod tom with
            | None => Ok (false, db)
            | Some method =>
                match tm_purge method tom cur with
                | PURGE_VAL => Ok (true, dbDelete db key)
                | PURGE_TOMBSTONE => Ok (true, set_deleted_keys (delete key (deleted_keys db)) db)
                | PURGE_NONE => Ok (true, db)
                end
            end
          else Ok (true, db)
      end
  end.

Definition crdtMergeDelCommand (argv : list bytes) (st : mstate) : res mstate :=
  gid_arg ← need (argv !! 1%nat);
  match string2ll gid_arg with
  | None => Undef
  | Some sourceGid =>
      let error st := w ← crdtCancelReplicationHandshake sourceGid (ms_world st); Ok (set_ms_world w st) in
      o ← updateReplTransferLastio sourceGid (ms_world st);
      match o with
      | None => error st
      | Some w =>
          let st := set_ms_world w st in
          key ← need (argv !! 2%nat);
          payload ← need (argv !! 3%nat);
          match load_payload payload with
          | None => error st
          | Some obj =>
              db ← need (ms_dbs st !! ms_sel st);
              '(ok, db) ← merge_tombstone key obj db;
              let st := set_ms_db db st in
              Ok (if ok : bool then set_ms_world (set_dirty_incr (ms_world st)) st else st)
          end
      end
  end.

(** The merged value is held against the tombstone of the key, and added if it
    survives. *)

Definition settle (key : bytes) (mt : moduleType) (mergedVal : object) (expireTime : Z) (db : redisDb object)
  : res (bool * redisDb object) :=
  verdict ← match deleted_keys db !! key with
            | None => Ok (Some (Some mergedVal, db))
            | Some tombstone =>
                tom ← need (retrieveObject tombstone);
                if checkTombstoneDataType tom mergedVal then
                  match getCrdtTombstoneMethod tom with
                  | None => Ok None
                  | Some tm =>
                      match tm_purge tm tom mergedVal with
                      | PURGE_VAL => Ok (Some (None, db))
                      | PURGE_TOMBSTONE =>
                          Ok (Some (Some mergedVal, set_deleted_keys (delete key (deleted_keys db)) db))
                      | PURGE_NONE => Ok (Some (Some mergedVal, db))
                      end
                  end
                else Ok (Some (Some mergedVal, db))
            end;
  match verdict with
  | None => Ok (false, db)
  | Some (None, db) => Ok (true, db)
  | Some (Some mergedVal, db) =>
      db ← dbAdd db key (ModuleValue mt mergedVal);
      db ← (if negb (expireTime =? -1) then setExpire db key expireTime else Ok db);
      Ok (true, db)
  end.

(** The second half of [mergeCrdtObjectCommand].  [current] is the client that
    runs the command, [loading], [now], [delay] and [mk_ok] are those of
    [lookupKeyWrite]. *)

Context (current : running) (loading mk_ok : bool) (now delay : Z).

Definition merge_value (w : world) (key : bytes) (obj : dbval object) (expireTime : Z) (db : redisDb object)
  : res (bool * redisDb object) :=
  et ← getExpire db key;
  let expireTime := if negb (et =? -1) then (if et >? expireTime then et else expireTime) else expireTime in
  common ← need (retrieveObject obj);
  mt ← match obj with ModuleValue mt _ => Ok mt | _ => Undef end;
  '(cur, db) ← lookupKeyWrite current loading (iAmMaster w) (w_crdt w) now delay mk_ok db key;
  match getCrdtObjectMethod common with
  | None => Ok (false, db)
  | Some method =>
      step ← match cur with
             | Some currentVal =>
                 ccm ← need (retrieveObject currentVal);
                 if negb (checkDataType ccm common) then Ok None
                 else Ok (Some (om_merge method (Some ccm) common, dbDelete db key))
             | None => Ok (Some (om_merge method None common, db))
             end;
      match step with
      | None => Ok (false, db)
      | Some (mergedVal, db) =>
          settle key mt mergedVal expireTime db
      end
  end.

Definition crdtMergeCommand (c : client) (argv : list bytes) (st : mstate) : res mstate :=
  gid_arg ← need (argv !! 1%nat);
  let error sourceGid st :=
    w ← (if iAmMaster (ms_world st) then crdtCancelReplicationHandshake sourceGid (ms_world st)
         else freeClient c (ms_world st));
    Ok (set_ms_world w st) in
  match string2ll gid_arg with
  | None => if iAmMaster (ms_world st) then Undef else error 0 st
  | Some sourceGid =>
      if negb (check_gid (to_int sourceGid)) then error sourceGid st else
      o ← updateReplTransferLastio sourceGid (ms_world st);
      match o with
      | None => error sourceGid st
      | Some w =>
          let st := set_ms_world w st in
          key ← need (argv !! 2%nat);
          exp_arg ← need (argv !! 4%nat);
          match string2ll exp_arg with
          | None => error sourceGid st
          | Some expireTime =>
              payload ← need (argv !! 3%nat);
              match load_payload payload with
              | None => error sourceGid st
              | Some obj =>
                  db ← need (ms_dbs st !! ms_sel st);
                  '(ok, db) ← merge_value (ms_world st) key obj expireTime db;
                  let st := set_ms_db db st in
                  Ok (if ok : bool then set_ms_world (set_dirty_incr (ms_world st)) st else st)
              end
          end
      end
  end.

(** The index is a [long] that is passed on as an [int]. *)

Definition selectDb (id : Z) (st : mstate) : option mstate :=
  if (id <? 0) || (id >=? Z.of_nat (length (ms_dbs st))) then None
  else Some (MkState (ms_world st) (ms_dbs st) (Z.to_nat id)).

(** Not in cluster mode. *)

Definition selectCommand (argv : list bytes) (st : mstate) : res mstate :=
  arg ← need (argv !! 1%nat);
  match string2ll arg with
  | None => Ok st
  | Some id => Ok (default st (selectDb (to_int id) st))
  end.

(** The commands of the stream between its first and its last. *)

Definition run_command (c : client) (argv : list bytes) (st : mstate) : res mstate :=
  name ← need (argv !! 0%nat);
  if strcaseeq name (str "SELECT") then selectCommand argv st
  else if strcaseeq name (str "CRDT.Merge") then crdtMergeCommand c argv st
  else if strcaseeq name (str "CRDT.Merge_Del") then crdtMergeDelCommand argv st
  else Ok st.

Fixpoint run_commands (c : client) (cmds : list (list bytes)) (st : mstate) : res mstate :=
  match cmds with
  | [] => Ok st
  | argv :: cmds => st ← run_command c argv st; run_commands c cmds st
  end.

End sender.

(** ** What is written *)

Section written.

Context {object : Type} `{CrdtModule object}.
Context (iter : gmap bytes (dbval object) -> list (bytes * dbval object)) (addr max_bulk : Z).

Definition piece_cmd (cmdname : bytes) (gid : Z) (key : bytes) (mtype : moduleType) (expire : Z) (piece : object)
  : list bytes :=
  [cmdname; print_Z gid; key; createDumpPayload addr (rdbSaveObject (ModuleValue mtype piece)); print_Z expire].

Lemma writes_piece cmdname gid key mtype expire piece :
  writes (send_piece addr cmdname gid key mtype expire piece)
    (encode_command (piece_cmd cmdname gid key mtype expire piece)).
Proof.
  unfold send_piece, encode_command, encode_args, piece_cmd. cbn [map concat length].
  apply writes_bind; [apply writes_write|]. apply writes_bind; [apply writes_string|].
  apply writes_bind; [apply writes_longlong|]. apply writes_bind; [apply writes_string|].
  apply writes_bind; [apply writes_string|]. rewrite app_nil_r. apply writes_longlong.
Qed.

Lemma writes_pieces cmdname gid key mtype expire pieces :
  writes (send_pieces addr cmdname gid key mtype expire pieces)
    (encodes (map (piece_cmd cmdname gid key mtype expire) pieces)).
Proof.
  induction pieces as [|p pieces IH]; [apply writes_nil|].
  unfold encodes. cbn [map concat]. apply (writes_bind _ (send_pieces addr cmdname gid key mtype expire pieces));
    [apply writes_piece|apply IH].
Qed.

(** The commands for one entry of a dictionary. *)

Definition entry_cmds (cmdname : bytes) (filterFun : object -> Z -> VectorClock -> filter_result object)
    (expire : bytes -> Z) (gid : Z) (min_vc : VectorClock) (e : bytes * dbval object) : list (list bytes) :=
  match snd e with
  | StringValue _ | OtherValue _ => []
  | ModuleValue mtype o =>
      if isModuleCrdt (snd e) then
        match filterFun o gid min_vc with
        | FilterPieces pieces => map (piece_cmd cmdname gid (fst e) mtype (expire (fst e))) pieces
        | _ => []
        end
      else []
  end.

(** No value is too big to be sent. *)

Definition sendable (filterFun : object -> Z -> VectorClock -> filter_result object) (gid : Z) (min_vc : VectorClock)
    (val : dbval object) : Prop :=
  match val with
  | ModuleValue _ o => filterFun o gid min_vc <> FilterTooBig
  | _ => True
  end.

Lemma encodes_cons a l : encodes (a :: l) = encode_command a ++ encodes l.
Proof. done. Qed.

Lemma writes_entries cmdname filterFun get_expire expire gid min_vc entries r :
  Forall (fun e => get_expire (fst e) = Ok (expire (fst e)) /\ sendable filterFun gid min_vc (snd e)) entries ->
  let b := encodes (concat (map (entry_cmds cmdname filterFun expire gid min_vc) entries)) in
  Z.of_nat (length b) <= rio_room r ->
  crdtSendMergeRequest2 addr cmdname filterFun get_expire gid min_vc entries r =
  Ok (Some (MkRio (rio_out r ++ b) (rio_room r - Z.of_nat (length b)))).
Proof.
  revert r. induction entries as [|[key o] entries IH]; intros r Hall b Hr.
  - simpl in *. rewrite app_nil_r, Z.sub_0_r. by destruct r.
  - inversion Hall as [|?? [He Hs] Hrest]; subst. cbn [fst snd] in *.
    unfold b in *. cbn [map concat] in *. rewrite encodes_app in *. clear b.
    set (rest := map (entry_cmds cmdname filterFun expire gid min_vc) entries) in *.
    cbn [crdtSendMergeRequest2]. unfold entry_cmds in Hr |- *. cbn [fst snd] in *.
    destruct o as [mtype o| |]; [|by apply IH|by apply IH].
    destruct (isModuleCrdt (ModuleValue mtype o)); [|by apply IH]. cbn [negb]. rewrite He. cbn [mbind res_bind].
    unfold sendable in Hs. destruct (filterFun o gid min_vc) as [| |pieces]; [by apply IH|done|].
    rewrite length_app in Hr |- *. rewrite writes_pieces by lia.
    rewrite IH by (done || (cbn [rio_room]; lia)). cbn [rio_out rio_room]. rewrite <- app_assoc. do 3 f_equal. lia.
Qed.

(** The commands for a database, without and with its SELECT, and for all of
    them from database [j] on. *)

Definition expire_of (db : redisDb object) (k : bytes) : Z := default (-1) (expires db !! k).

Definition db_body (gid : Z) (min_vc : VectorClock) (db : redisDb object) : list (list bytes) :=
  (if bool_decide (dict db = ∅) then [] else
   concat (map (entry_cmds (str "CRDT.Merge") (dataFilter2 max_bulk) (expire_of db) gid min_vc) (iter (dict db)))) ++
  (if bool_decide (deleted_keys db = ∅) then [] else
   concat (map (entry_cmds (str "CRDT.Merge_Del") (tombstoneFilter2 max_bulk) (fun _ => -1) gid min_vc)
             (iter (deleted_keys db)))).

Definition db_cmds (gid : Z) (min_vc : VectorClock) (j : Z) (db : redisDb object) : list (list bytes) :=
  if bool_decide (dict db = ∅) && bool_decide (deleted_keys db = ∅) then []
  else [str "SELECT"; print_Z j] :: db_body gid min_vc db.

Fixpoint dbs_cmds (gid : Z) (min_vc : VectorClock) (j : Z) (dbs : list (redisDb object)) : list (list bytes) :=
  match dbs with
  | [] => []
  | db :: dbs => db_cmds gid min_vc j db ++ dbs_cmds gid min_vc (j + 1) dbs
  end.

(** A database that can be sent: well-formed, and no value is too big. *)

Definition db_sendable (gid : Z) (min_vc : VectorClock) (db : redisDb object) : Prop :=
  db_ok db /\
  Forall (fun e => sendable (dataFilter2 max_bulk) gid min_vc (snd e)) (iter (dict db)) /\
  Forall (fun e => sendable (tombstoneFilter2 max_bulk) gid min_vc (snd e)) (iter (deleted_keys db)).

Lemma save_db_writes gid rsi j db r :
  db_sendable gid (rsi_min_vc rsi) db ->
  let b := encodes (db_cmds gid (rsi_min_vc rsi) j db) in
  Z.of_nat (length b) <= rio_room r ->
  save_db iter addr max_bulk gid rsi j db r = Ok (Some (MkRio (rio_out r ++ b) (rio_room r - Z.of_nat (length b)))).
Proof.
  intros (Hok & H1 & H2) b Hr. unfold b in *. clear b. unfold save_db, db_cmds, db_body in *.
  destruct (bool_decide (dict db = ∅) && bool_decide (deleted_keys db = ∅)) eqn:Eb.
  { simpl. rewrite app_nil_r, Z.sub_0_r. by destruct r. }
  rewrite encodes_cons, encodes_app, <- select_cmd_encode in *. rewrite !length_app in *.
  rewrite writes_write by lia.
  match goal with |- context [length (encodes ?x)] => set (A := encodes x) in * end.
  match goal with |- context [(length A + length (encodes ?x))%nat] => set (B := encodes x) in * end.
  assert (forall r, Z.of_nat (length A) <= rio_room r ->
    (if bool_decide (dict db = ∅) then Ok (Some r) else
      crdtSendMergeRequest2 addr (str "CRDT.Merge") (dataFilter2 max_bulk) (getExpire db) gid (rsi_min_vc rsi) (iter (dict db)) r)
    = Ok (Some (MkRio (rio_out r ++ A) (rio_room r - Z.of_nat (length A))))) as HA.
  { intros q Hq. unfold A in *. destruct (bool_decide (dict db = ∅)).
    - simpl. rewrite app_nil_r, Z.sub_0_r. by destruct q.
    - apply writes_entries; [|done]. eapply Forall_impl; [exact H1|]. intros e He. split; [|done].
      by apply getExpire_ok. }
  rewrite HA by (cbn [rio_room]; lia). cbn [mbind res_bind rio_out rio_room].
  assert (forall r, Z.of_nat (length B) <= rio_room r ->
    (if bool_decide (deleted_keys db = ∅) then Ok (Some r) else
      crdtSendMergeRequest2 addr (str "CRDT.Merge_Del") (tombstoneFilter2 max_bulk) (fun _ => Ok (-1)) gid (rsi_min_vc rsi)
        (iter (deleted_keys db)) r)
    = Ok (Some (MkRio (rio_out r ++ B) (rio_room r - Z.of_nat (length B))))) as HB.
  { intros q Hq. unfold B in *. destruct (bool_decide (deleted_keys db = ∅)).
    - simpl. rewrite app_nil_r, Z.sub_0_r. by destruct q.
    - apply writes_entries; [|done]. eapply Forall_impl; [exact H2|]. by intros e He. }
  rewrite HB by (cbn [rio_room]; lia). cbn [rio_out rio_room]. rewrite <- !app_assoc. do 3 f_equal. lia.
Qed.

Lemma save_dbs_writes gid rsi dbs j r :
  Forall (db_sendable gid (rsi_min_vc rsi)) dbs ->
  let b := encodes (dbs_cmds gid (rsi_min_vc rsi) j dbs) in
  Z.of_nat (length b) <= rio_room r ->
  crdtRdbSaveRio iter addr max_bulk gid rsi j dbs r =
  Ok (Some (MkRio (rio_out r ++ b) (rio_room r - Z.of_nat (length b)))).
Proof.
  revert j r. induction dbs as [|db dbs IH]; intros j r Hall b Hr.
  - simpl. rewrite app_nil_r, Z.sub_0_r. by destruct r.
  - inversion Hall; subst. unfold b in *. clear b. cbn [dbs_cmds crdtRdbSaveRio] in *.
    rewrite encodes_app, length_app in *. rewrite save_db_writes by (done || lia). cbn [mbind res_bind].
    rewrite IH by (done || (cbn [rio_room]; lia)). cbn [rio_out rio_room]. rewrite <- app_assoc. do 3 f_equal. lia.
Qed.

(** The first and the last command of the stream. *)

Definition start_cmd (s : crdtServer) (rsi : crdtRdbSaveInfo) : list bytes :=
  [str "CRDT.MERGE_START"; print_Z (crdt_gid s); vectorClockToSds (vectorClock s); rsi_repl_id rsi ++ [0]].

Definition end_cmd (s : crdtServer) (rsi : crdtRdbSaveInfo) : list bytes :=
  [str "CRDT.MERGE_END"; print_Z (crdt_gid s); vectorClockToSds (vectorClock s); rsi_repl_id rsi ++ [0];
   print_Z (rsi_repl_offset rsi)].

Lemma stream_writes s rsi dbs r :
  Forall (db_sendable (crdt_gid s) (rsi_min_vc rsi)) dbs ->
  let b := encodes (start_cmd s rsi :: dbs_cmds (crdt_gid s) (rsi_min_vc rsi) 0 dbs ++ [end_cmd s rsi]) in
  Z.of_nat (length b) <= rio_room r ->
  rdbSaveRioWithCrdtMerge iter addr max_bulk s rsi dbs r =
  Ok (Some (MkRio (rio_out r ++ b) (rio_room r - Z.of_nat (length b)))).
Proof.
  intros Hall b Hr. unfold b in *. clear b. rewrite encodes_cons, encodes_app, !length_app in *.
  set (start := encode_command (start_cmd s rsi)) in *. set (mid := encodes (dbs_cmds _ _ _ _)) in *.
  set (last := encodes [end_cmd s rsi]) in *.
  unfold rdbSaveRioWithCrdtMerge.
  assert (forall cmd n, writes (merge_head s rsi cmd n) (n ++ CRLF ++ addReplyBulk cmd ++ addReplyBulk (print_Z (crdt_gid s)) ++
            addReplyBulk (vectorClockToSds (vectorClock s)) ++ addReplyBulk (rsi_repl_id rsi ++ [0]))) as Hh.
  { intros cmd n. rewrite app_assoc. unfold merge_head. apply writes_bind; [apply writes_write|].
    apply writes_bind; [apply writes_string|]. apply writes_bind; [apply writes_longlong|].
    apply writes_bind; apply writes_string. }
  assert (writes (merge_head s rsi (str "CRDT.MERGE_START") (str "*4")) start) as Hstart.
  { eapply eq_rect; [apply Hh|]. unfold start, encode_command, encode_args, start_cmd. cbn [map concat length].
    rewrite app_nil_r. done. }
  rewrite Hstart by lia. unfold mid in *. rewrite save_dbs_writes by (done || (cbn [rio_room]; lia)). cbn [mbind res_bind].
  assert (writes (fun r => r ← merge_head s rsi (str "CRDT.MERGE_END") (str "*5") r; rioWriteBulkLongLong (rsi_repl_offset rsi) r) last)
    as Hlast.
  { eapply eq_rect; [apply writes_bind; [apply Hh|apply writes_longlong]|].
    unfold last, encodes, encode_command, encode_args, end_cmd. cbn [map concat length].
    rewrite !app_nil_r, <- !app_assoc. done. }
  pose proof (Hlast (MkRio ((rio_out r ++ start) ++ encodes (dbs_cmds (crdt_gid s) (rsi_min_vc rsi) 0 dbs))
    (rio_room r - Z.of_nat (length start) - Z.of_nat (length (encodes (dbs_cmds (crdt_gid s) (rsi_min_vc rsi) 0 dbs)))))) as E.
  cbn [rio_out rio_room] in E |- *. specialize (E ltac:(lia)).
  destruct (merge_head s rsi (str "CRDT.MERGE_END") (str "*5") _) as [r'|]; [|done]. cbn [mbind option_bind] in E. rewrite E.
  rewrite <- !app_assoc. do 3 f_equal. lia.
Qed.

End written.

Section merged.

Context {object : Type} `{CrdtModule object}.
Context (addr : Z) (current : running) (loading mk_ok : bool) (now delay : Z).

(** ** Merging into a database *)

(** Every value and every tombstone is one of the module. *)

Definition wf_db (db : redisDb object) : Prop :=
  db_ok db /\
  map_Forall (fun _ v => isModuleCrdt v = true) (dict db) /\
  map_Forall (fun _ v => isModuleCrdt v = true) (deleted_keys db).

Definition slot (db : redisDb object) (k : bytes) : option (dbval object) * option Z * option (dbval object) :=
  (dict db !! k, expires db !! k, deleted_keys db !! k).

(** [db'] is well-formed, and agrees with [db] outside of [key]. *)

Definition only (key : bytes) (db db' : redisDb object) : Prop :=
  wf_db db' /\ forall k, k <> key -> slot db' k = slot db k.

Lemma only_refl key db : wf_db db -> only key db db.
Proof. by split. Qed.

Lemma only_trans key db1 db2 db3 : only key db1 db2 -> only key db2 db3 -> only key db1 db3.
Proof. intros [_ H1] [Hw H2]. split; [done|]. intros k Hk. by rewrite H2, H1. Qed.

Lemma only_delete key db : wf_db db -> only key db (dbDelete db key).
Proof.
  intros (Hok & H1 & H2). destruct (dbDelete_ok db key Hok) as (Hok' & E1 & E2 & E3).
  split; [split; [done|]|].
  - rewrite E1, E3. split; [by apply map_Forall_delete|done].
  - intros k Hk. unfold slot. by rewrite E1, E2, E3, !lookup_delete_ne.
Qed.

Lemma only_add key db v : wf_db db -> isModuleCrdt v = true -> only key db (set_dict (<[key := v]> (dict db)) db).
Proof.
  intros (Hok & H1 & H2) Hv. split; [split; [|split]|].
  - unfold db_ok in *. simpl. set_solver.
  - by apply map_Forall_insert_2.
  - done.
  - intros k Hk. unfold slot. simpl. by rewrite lookup_insert_ne.
Qed.

Lemma only_expire key db e :
  wf_db db -> is_Some (dict db !! key) -> only key db (set_expires (<[key := e]> (expires db)) db).
Proof.
  intros (Hok & H1 & H2) Hs. split; [split; [|done]|].
  - by apply (setExpire_ok db key e).
  - intros k Hk. unfold slot. simpl. by rewrite lookup_insert_ne.
Qed.

Lemma only_tombstone key db v :
  wf_db db -> isModuleCrdt v = true -> only key db (set_deleted_keys (<[key := v]> (deleted_keys db)) db).
Proof.
  intros (Hok & H1 & H2) Hv. split; [split; [done|split; [done|]]|].
  - by apply map_Forall_insert_2.
  - intros k Hk. unfold slot. simpl. by rewrite lookup_insert_ne.
Qed.

Lemma only_untombstone key db : wf_db db -> only key db (set_deleted_keys (delete key (deleted_keys db)) db).
Proof.
  intros (Hok & H1 & H2). split; [split; [done|split; [done|]]|].
  - by apply map_Forall_delete.
  - intros k Hk. unfold slot. simpl. by rewrite lookup_delete_ne.
Qed.

Lemma crdt_retrieve (v : dbval object) :
  isModuleCrdt v = true -> exists mt o, v = ModuleValue mt o /\ retrieveObject v = Some o.
Proof.
  destruct v as [mt o| |]; [|done|done]. intros E. exists mt, o. split; [done|]. unfold retrieveObject. by rewrite E.
Qed.

Lemma crdt_with (mt : moduleType) (o o' : object) :
  isModuleCrdt (ModuleValue mt o) = true -> isModuleCrdt (ModuleValue mt o') = true.
Proof. done. Qed.

(** The value under a key, and the merge of an object into it. *)

Definition value_at (db : redisDb object) (k : bytes) : option object := dict db !! k ≫= retrieveObject.

Definition join (cur : option object) (o : object) : object :=
  match getCrdtObjectMethod o with
  | Some m => om_merge m cur o
  | None => o
  end.

Definition compatible (cur : option object) (o : object) : bool :=
  match getCrdtObjectMethod o with
  | None => false
  | Some _ => match cur with Some c => checkDataType c o | None => true end
  end.

(** The later of two expire times; -1 is none. *)

Definition expire_join (cur : option Z) (e : Z) : option Z :=
  let et := default (-1) cur in
  let x := if et =? -1 then e else Z.max et e in
  if x =? -1 then None else Some x.

(** The command runs for a peer, or on a slave. *)

Definition quiet (w : world) : Prop := current = PeerClient \/ iAmMaster w = false.

Lemma add_merged key mt v e db :
  wf_db db -> isModuleCrdt (ModuleValue mt v) = true -> dict db !! key = None ->
  exists db', (d ← dbAdd db key (ModuleValue mt v);
               d ← (if negb (e =? -1) then setExpire d key e else Ok d); Ok (true, d)) = Ok (true, db') /\
    only key db db' /\ dict db' !! key = Some (ModuleValue mt v) /\ deleted_keys db' = deleted_keys db /\
    expires db' !! key = if e =? -1 then None else Some e.
Proof.
  intros Hwf Hc Hn. destruct (dbAdd_ok db key (ModuleValue mt v) (proj1 Hwf) Hn) as [-> Hok]. cbn [mbind res_bind].
  pose proof (only_add key db _ Hwf Hc) as Ho. set (db1 := set_dict _ db) in *.
  assert (is_Some (dict db1 !! key)) as Hs by (unfold db1; simpl; by rewrite lookup_insert_eq).
  assert (expires db !! key = None) as He.
  { apply not_elem_of_dom. intros HI. apply (proj1 Hwf), elem_of_dom in HI. rewrite Hn in HI. by destruct HI. }
  destruct (e =? -1); cbn [negb].
  - exists db1. unfold db1 at 3 4 5. simpl. by rewrite lookup_insert_eq.
  - destruct (setExpire_ok db1 key e (proj1 (proj1 Ho)) Hs) as [-> _]. cbn [mbind res_bind].
    eexists. split; [reflexivity|]. split.
    + eapply only_trans; [exact Ho|]. apply only_expire; [apply Ho|done].
    + simpl. by rewrite !lookup_insert_eq.
Qed.

Lemma settle_ok key mt merged e db d :
  wf_db db -> isModuleCrdt (ModuleValue mt merged) = true ->
  only key db d -> dict d !! key = None -> deleted_keys d = deleted_keys db ->
  exists b db', settle key mt merged e d = Ok (b, db') /\ only key db db' /\
    (deleted_keys db !! key = None -> dict db' !! key = Some (ModuleValue mt merged) /\
       (expires db' !! key = if e =? -1 then None else Some e) /\ deleted_keys db' !! key = None).
Proof.
  intros Hwf Hc Hd Hn Ed. unfold settle. rewrite Ed.
  destruct (add_merged key mt merged e d (proj1 Hd) Hc Hn) as (db' & E & Ho & Hv & Hdel & Hex).
  pose proof (only_trans _ _ _ _ Hd Ho) as Hdo.
  destruct (deleted_keys db !! key) as [t|] eqn:Et.
  2:{ cbn [mbind res_bind]. exists true, db'. split; [exact E|]. split; [done|].
      intros _. by rewrite Hv, Hex, Hdel, Ed, Et. }
  destruct (crdt_retrieve t) as (mt2 & tom & -> & ->); [by apply (proj2 (proj2 Hwf) key)|]. cbn [need mbind res_bind].
  destruct (checkTombstoneDataType tom merged); [|exists true, db'; split; [exact E|]; by split].
  destruct (getCrdtTombstoneMethod tom) as [tm|]; [|by exists false, d].
  destruct (tm_purge tm tom merged); cbn [mbind res_bind].
  - by exists true, d.
  - pose proof (only_untombstone key d (proj1 Hd)) as Hu. rewrite Ed in Hu.
    destruct (add_merged key mt merged e _ (proj1 Hu) Hc Hn) as (db2 & E2 & Ho2 & _).
    exists true, db2. split; [exact E2|]. split; [|done]. eapply only_trans; [exact Hd|]. by eapply only_trans.
  - exists true, db'. split; [exact E|]. by split.
Qed.

Lemma merge_value_ok w key mt o e db :
  wf_db db -> quiet w -> isModuleCrdt (ModuleValue mt o) = true ->
  exists b db', merge_value current loading mk_ok now delay w key (ModuleValue mt o) e db = Ok (b, db') /\
    only key db db' /\
    (deleted_keys db !! key = None -> compatible (value_at db key) o = true ->
     dict db' !! key = Some (ModuleValue mt (join (value_at db key) o)) /\
     expires db' !! key = expire_join (expires db !! key) e /\ deleted_keys db' !! key = None).
Proof.
  intros Hwf Hq Hc. unfold merge_value. rewrite getExpire_ok by apply Hwf. cbn [mbind res_bind].
  destruct (crdt_retrieve _ Hc) as (mt' & o' & [= <- <-] & ->). cbn [need mbind res_bind].
  rewrite lookupKeyWrite_noop by (apply Hwf || done). cbn [mbind res_bind].
  unfold compatible, join, value_at.
  destruct (getCrdtObjectMethod o) as [m|]; [|by exists false, db; split; [|split; [apply only_refl|]]].
  set (e' := if negb _ then _ else e).
  assert ((if e' =? -1 then None else Some e') = expire_join (expires db !! key) e) as He.
  { unfold expire_join, e'. destruct (_ =? -1); cbn [negb]; [done|].
    destruct (Z.gtb_spec (default (-1) (expires db !! key)) e); [by rewrite Z.max_l by lia|by rewrite Z.max_r by lia]. }
  clearbody e'.
  destruct (dict db !! key) as [cv|] eqn:Ev.
  - destruct (crdt_retrieve cv) as (mt2 & c & -> & Er); [by apply (proj1 (proj2 Hwf) key)|].
    rewrite Er. cbn [need mbind res_bind option_bind]. rewrite Er.
    destruct (checkDataType c o); cbn [negb mbind res_bind].
    2:{ exists false, db. split; [done|]. split; [by apply only_refl|done]. }
    destruct (dbDelete_ok db key (proj1 Hwf)) as (_ & E1 & E2 & E3).
    destruct (settle_ok key mt (om_merge m (Some c) o) e' db (dbDelete db key)) as (b & db' & E & Ho & Hx).
    + done.
    + done.
    + by apply only_delete.
    + by rewrite E1, lookup_delete_eq.
    + done.
    + exists b, db'. split; [exact E|]. split; [done|]. intros Ht _. rewrite <- He. by apply Hx.
  - cbn [mbind res_bind option_bind]. destruct (settle_ok key mt (om_merge m None o) e' db db Hwf Hc (only_refl key db Hwf) Ev eq_refl)
      as (b & db' & E & Ho & Hx).
    exists b, db'. split; [exact E|]. split; [done|]. intros Ht _. rewrite <- He. by apply Hx.
Qed.

Lemma merge_tombstone_ok key mt o db :
  wf_db db -> isModuleCrdt (ModuleValue mt o) = true ->
  exists b db', merge_tombstone key (ModuleValue mt o) db = Ok (b, db') /\ only key db db'.
Proof.
  intros Hwf Hc. unfold merge_tombstone.
  destruct (crdt_retrieve _ Hc) as (mt' & o' & [= <- <-] & ->). cbn [need mbind res_bind].
  assert (forall tom d, only key db d -> exists b db',
    match lookupKey d key with
    | None => Ok (true, d)
    | Some currentVal =>
        cur ← need (retrieveObject currentVal);
        if checkTombstoneDataType tom cur then
          match getCrdtTombstoneMethod tom with
          | None => Ok (false, d)
          | Some method =>
              match tm_purge method tom cur with
              | PURGE_VAL => Ok (true, dbDelete d key)
              | PURGE_TOMBSTONE => Ok (true, set_deleted_keys (delete key (deleted_keys d)) d)
              | PURGE_NONE => Ok (true, d)
              end
          end
        else Ok (true, d)
    end = Ok (b, db') /\ only key db db') as Hval.
  { intros tom d Hd. unfold lookupKey. destruct (dict d !! key) as [cv|] eqn:Ev; [|by exists true, d].
    destruct (crdt_retrieve cv) as (mt2 & cur & -> & ->); [by apply (proj1 (proj2 (proj1 Hd)) key)|]. cbn [need mbind res_bind].
    destruct (checkTombstoneDataType tom cur); [|by exists true, d].
    destruct (getCrdtTombstoneMethod tom) as [m|]; [|by exists false, d].
    destruct (tm_purge m tom cur); (eexists _, _; split; [reflexivity|]); [| |done]; (eapply only_trans; [exact Hd|]).
    - apply only_delete, Hd.
    - apply only_untombstone, Hd. }
  destruct (deleted_keys db !! key) as [t|] eqn:Et; cbn [mbind res_bind].
  - destruct (crdt_retrieve t) as (mt2 & tom & -> & ->); [by apply (proj2 (proj2 Hwf) key)|]. cbn [need mbind res_bind].
    destruct (checkTombstoneType o tom); cbn [negb mbind res_bind]; [|exists false, db; by split; [|apply only_refl]].
    destruct (getCrdtTombstoneMethod o) as [m|]; cbn [mbind res_bind]; [|exists false, db; by split; [|apply only_refl]].
    apply Hval, only_tombstone; [done|]. by apply (proj2 (proj2 Hwf) key) in Et.
  - by apply Hval, only_tombstone.
Qed.

(** ** Running the commands of the stream *)

Definition receives (gid : Z) (w : world) : Prop :=
  0 < gid < 16 /\ is_Some (crdtMasters (w_crdt w) !! gid).

(** The peer [gid] is known here, its commands let no key expire, every database
    is well-formed and the selected one exists. *)

Definition good (gid : Z) (st : mstate) : Prop :=
  receives gid (ms_world st) /\ quiet (ms_world st) /\ Forall wf_db (ms_dbs st) /\ (ms_sel st < length (ms_dbs st))%nat.

(** [st'] is good, and differs from [st] at most at the keys in [K]. *)

Definition frame (gid : Z) (K : nat -> bytes -> Prop) (st st' : mstate) : Prop :=
  good gid st' /\ length (ms_dbs st') = length (ms_dbs st) /\
  forall j k, ~ K j k -> (fun db => slot db k) <$> ms_dbs st' !! j = (fun db => slot db k) <$> ms_dbs st !! j.

Lemma frame_refl gid K st : good gid st -> frame gid K st st.
Proof. by split. Qed.

Lemma frame_trans gid K st1 st2 st3 : frame gid K st1 st2 -> frame gid K st2 st3 -> frame gid K st1 st3.
Proof.
  intros (_ & L1 & H1) (Hg & L2 & H2). split; [done|]. split; [congruence|].
  intros j k Hk. by rewrite H2, H1.
Qed.

Lemma frame_mono gid (K K' : nat -> bytes -> Prop) st st' :
  (forall j k, K j k -> K' j k) -> frame gid K st st' -> frame gid K' st st'.
Proof. intros HK (Hg & L & H1). split; [done|]. split; [done|]. intros j k Hk. apply H1. by intros ?%HK. Qed.

Lemma updateReplTransferLastio_ok gid w :
  receives gid w -> exists w', updateReplTransferLastio gid w = Ok (Some w') /\ receives gid w' /\ (quiet w -> quiet w').
Proof.
  intros [Hg [p Ep]]. unfold updateReplTransferLastio. rewrite getPeerMaster_valid, Ep by lia. cbn [mbind res_bind].
  rewrite to_int_id by lia. destruct (iAmMaster w) eqn:Em.
  - eexists. split; [reflexivity|]. split; [split; [done|by rewrite set_peer_lookup]|].
    intros [-> |E]; [by left|]. congruence.
  - by exists w.
Qed.

Lemma receives_dirty gid w : receives gid w -> receives gid (set_dirty_incr w).
Proof. done. Qed.

Lemma load_created addr' v :
  bytes_ok (rdbSaveObject v) -> (forall rest, rdbLoadObject (rdbSaveObject v ++ rest) = Some v) ->
  load_payload addr (createDumpPayload addr' (rdbSaveObject v)) = Some v.
Proof.
  intros Hb Hl. unfold load_payload. rewrite verify_created by done.
  unfold createDumpPayload. cbv zeta. rewrite <- !app_assoc. apply Hl.
Qed.

(** A payload that the module can load again. *)

Definition loadable (mt : moduleType) (o : object) : Prop :=
  isModuleCrdt (ModuleValue mt o) = true /\ bytes_ok (rdbSaveObject (ModuleValue mt o)) /\
  forall rest, rdbLoadObject (rdbSaveObject (ModuleValue mt o) ++ rest) = Some (ModuleValue mt o).

Lemma replace_db gid st w db db' key :
  good gid st -> receives gid w -> quiet w -> ms_dbs st !! ms_sel st = Some db -> only key db db' ->
  frame gid (fun j k => j = ms_sel st /\ k = key) st (MkState w (<[ms_sel st := db']> (ms_dbs st)) (ms_sel st)).
Proof.
  intros (Hr & Hq & Hf & Hl) Hr' Hq' Edb [Hwf Ho]. split; [|split].
  - split; [done|]. split; [done|]. cbn [ms_dbs ms_sel]. rewrite length_insert. split; [|done].
    by apply Forall_insert.
  - cbn [ms_dbs]. by rewrite length_insert.
  - intros j k Hk. cbn [ms_dbs]. destruct (decide (j = ms_sel st)) as [-> |Hj].
    + rewrite list_lookup_insert_eq by done. rewrite Edb. simpl. f_equal. apply Ho. naive_solver.
    + by rewrite list_lookup_insert_ne.
Qed.

Context (c : client).

Let run := run_commands addr current loading mk_ok now delay c.

Lemma run_app l1 l2 st : run (l1 ++ l2) st = (st ← run l1 st; run l2 st).
Proof.
  revert st. induction l1 as [|a l1 IH]; intros st; [done|]. cbn [run run_commands app]. unfold run in *.
  cbn [run_commands]. destruct (run_command _ _ _ _ _ _ _ _ _); cbn [mbind res_bind]; [apply IH|done|done].
Qed.

(** One piece of a value. *)

Lemma run_data addr' gid key mt p e st db :
  good gid st -> loadable mt p -> LLONG_MIN <= e <= LLONG_MAX -> ms_dbs st !! ms_sel st = Some db ->
  exists st' db', run [piece_cmd addr' (str "CRDT.Merge") gid key mt e p] st = Ok st' /\
    ms_sel st' = ms_sel st /\ frame gid (fun j k => j = ms_sel st /\ k = key) st st' /\
    ms_dbs st' !! ms_sel st = Some db' /\ only key db db' /\
    (deleted_keys db !! key = None -> compatible (value_at db key) p = true ->
     dict db' !! key = Some (ModuleValue mt (join (value_at db key) p)) /\
     expires db' !! key = expire_join (expires db !! key) e /\ deleted_keys db' !! key = None).
Proof.
  intros Hgood (Hc & Hb & Hl) He Edb. pose proof Hgood as (Hr & Hq & Hf & Hlen). unfold run. cbn [run_commands].
  assert (run_command addr current loading mk_ok now delay c (piece_cmd addr' (str "CRDT.Merge") gid key mt e p) st =
    crdtMergeCommand addr current loading mk_ok now delay c (piece_cmd addr' (str "CRDT.Merge") gid key mt e p) st) as -> by reflexivity.
  unfold crdtMergeCommand, piece_cmd. cbn [lookup list_lookup need mbind res_bind].
  destruct Hr as [Hg Hp]. unfold LLONG_MIN, LLONG_MAX in *.
  rewrite string2ll_print by (unfold LLONG_MIN, LLONG_MAX; lia). rewrite to_int_id by lia.
  assert (check_gid gid = true) as -> by (unfold check_gid, GIDSIZE; change (Z.shiftl 1 4) with 16; lia). cbn [negb].
  destruct (updateReplTransferLastio_ok gid (ms_world st) (conj Hg Hp)) as (w & -> & Hr' & Hq'). cbn [mbind res_bind].
  rewrite string2ll_print by (unfold LLONG_MIN, LLONG_MAX; lia). rewrite load_created by done.
  cbn [set_ms_world ms_dbs ms_sel ms_world]. rewrite Edb. cbn [need mbind res_bind].
  assert (wf_db db) as Hwf by (eapply Forall_lookup_1; eauto).
  destruct (merge_value_ok w key mt p e db Hwf (Hq' Hq) Hc) as (b & db' & -> & Ho & Hx). cbn [mbind res_bind].
  exists (MkState (if b then set_dirty_incr w else w) (<[ms_sel st := db']> (ms_dbs st)) (ms_sel st)), db'.
  split; [by destruct b|]. split; [done|]. split.
  - apply (replace_db gid st _ db db' key); [done|by destruct b|destruct b; by apply Hq'|done|done].
  - cbn [ms_dbs]. by rewrite list_lookup_insert_eq.
Qed.

Lemma run_tombstone addr' gid key mt p e st db :
  good gid st -> loadable mt p -> ms_dbs st !! ms_sel st = Some db ->
  exists st', run [piece_cmd addr' (str "CRDT.Merge_Del") gid key mt e p] st = Ok st' /\
    ms_sel st' = ms_sel st /\ frame gid (fun j k => j = ms_sel st /\ k = key) st st'.
Proof.
  intros Hgood (Hc & Hb & Hl) Edb. pose proof Hgood as (Hr & Hq & Hf & Hlen). unfold run. cbn [run_commands].
  assert (run_command addr current loading mk_ok now delay c (piece_cmd addr' (str "CRDT.Merge_Del") gid key mt e p) st =
    crdtMergeDelCommand addr (piece_cmd addr' (str "CRDT.Merge_Del") gid key mt e p) st) as -> by reflexivity.
  unfold crdtMergeDelCommand, piece_cmd. cbn [lookup list_lookup need mbind res_bind].
  destruct Hr as [Hg Hp]. rewrite string2ll_print by (unfold LLONG_MIN, LLONG_MAX; lia).
  destruct (updateReplTransferLastio_ok gid (ms_world st) (conj Hg Hp)) as (w & -> & Hr' & Hq'). cbn [mbind res_bind].
  rewrite load_created by done.
  cbn [set_ms_world ms_dbs ms_sel ms_world]. rewrite Edb. cbn [need mbind res_bind].
  assert (wf_db db) as Hwf by (eapply Forall_lookup_1; eauto).
  destruct (merge_tombstone_ok key mt p db Hwf Hc) as (b & db' & -> & Ho). cbn [mbind res_bind].
  exists (MkState (if b then set_dirty_incr w else w) (<[ms_sel st := db']> (ms_dbs st)) (ms_sel st)).
  split; [by destruct b|]. split; [done|].
  apply (replace_db gid st _ db db' key); [done|by destruct b|destruct b; by apply Hq'|done|done].
Qed.

(** [cmds], run with database [sel] selected, complete and touch at most [K]. *)

Definition touches (gid : Z) (sel : nat) (K : nat -> bytes -> Prop) (cmds : list (list bytes)) : Prop :=
  forall st, good gid st -> ms_sel st = sel ->
  exists st', run cmds st = Ok st' /\ ms_sel st' = sel /\ frame gid K st st'.

Lemma touch_nil gid sel K : touches gid sel K [].
Proof. intros st Hg Hs. exists st. split; [done|]. split; [done|]. by apply frame_refl. Qed.

Lemma touch_app gid sel K l1 l2 : touches gid sel K l1 -> touches gid sel K l2 -> touches gid sel K (l1 ++ l2).
Proof.
  intros H1 H2 st Hg Hs. destruct (H1 st Hg Hs) as (st1 & E1 & Hs1 & F1).
  destruct (H2 st1 (proj1 F1) Hs1) as (st2 & E2 & Hs2 & F2).
  exists st2. rewrite run_app, E1. split; [done|]. split; [done|]. by eapply frame_trans.
Qed.

Lemma touch_mono gid sel (K K' : nat -> bytes -> Prop) l :
  (forall j k, K j k -> K' j k) -> touches gid sel K l -> touches gid sel K' l.
Proof.
  intros HK Ht st Hg Hs. destruct (Ht st Hg Hs) as (st' & E & Hs' & F). exists st'. split; [done|].
  split; [done|]. by eapply frame_mono.
Qed.

Lemma touch_concat gid sel K (ls : list (list (list bytes))) :
  Forall (touches gid sel K) ls -> touches gid sel K (concat ls).
Proof. induction 1; [apply touch_nil|]. by apply touch_app. Qed.

Lemma good_db gid st : good gid st -> exists db, ms_dbs st !! ms_sel st = Some db.
Proof. intros (_ & _ & _ & Hl). by apply lookup_lt_is_Some_2. Qed.

Definition merge_name (cmdname : bytes) : Prop := cmdname = str "CRDT.Merge" \/ cmdname = str "CRDT.Merge_Del".

Lemma touch_piece addr' cmdname gid sel key mt p e :
  merge_name cmdname -> loadable mt p -> LLONG_MIN <= e <= LLONG_MAX ->
  touches gid sel (fun j k => j = sel /\ k = key) [piece_cmd addr' cmdname gid key mt e p].
Proof.
  intros Hn Hl He st Hg <-. destruct (good_db gid st Hg) as [db Edb].
  destruct Hn as [-> | ->].
  - destruct (run_data addr' gid key mt p e st db Hg Hl He Edb) as (st' & db' & E & Hs & F & _). by exists st'.
  - by apply (run_tombstone addr' gid key mt p e st db).
Qed.

(** An entry whose pieces can be loaded again. *)

Definition entry_ok (filterFun : object -> Z -> VectorClock -> filter_result object) (expire : bytes -> Z) (gid : Z)
    (min_vc : VectorClock) (e : bytes * dbval object) : Prop :=
  LLONG_MIN <= expire (fst e) <= LLONG_MAX /\
  match snd e with
  | StringValue _ | OtherValue _ => True
  | ModuleValue mt o =>
      match filterFun o gid min_vc with
      | FilterPieces pieces => isModuleCrdt (snd e) = true -> Forall (loadable mt) pieces
      | _ => True
      end
  end.

Lemma touch_pieces addr' cmdname gid sel key mt pieces e :
  merge_name cmdname -> Forall (loadable mt) pieces -> LLONG_MIN <= e <= LLONG_MAX ->
  touches gid sel (fun j k => j = sel /\ k = key) (map (piece_cmd addr' cmdname gid key mt e) pieces).
Proof.
  intros Hn Hl He. induction Hl as [|p pieces Hp Hrest IH]; [apply touch_nil|].
  apply (touch_app gid sel _ [_] _); [|exact IH]. by apply touch_piece.
Qed.

Lemma touch_entry addr' cmdname filterFun expire gid min_vc sel e :
  merge_name cmdname -> entry_ok filterFun expire gid min_vc e ->
  touches gid sel (fun j k => j = sel /\ k = fst e) (entry_cmds addr' cmdname filterFun expire gid min_vc e).
Proof.
  intros Hn [He Hok]. unfold entry_cmds. destruct (snd e) as [mt o| |]; [|apply touch_nil|apply touch_nil].
  destruct (isModuleCrdt (ModuleValue mt o)) eqn:Ec; [|apply touch_nil].
  destruct (filterFun o gid min_vc) as [| |pieces]; [apply touch_nil|apply touch_nil|].
  apply touch_pieces; auto.
Qed.

Lemma touch_entries addr' cmdname filterFun expire gid min_vc sel entries :
  merge_name cmdname -> Forall (entry_ok filterFun expire gid min_vc) entries ->
  touches gid sel (fun j k => j = sel /\ k ∈ entries.*1)
    (concat (map (entry_cmds addr' cmdname filterFun expire gid min_vc) entries)).
Proof.
  intros Hn Hall. apply touch_concat. rewrite Forall_map. apply Forall_forall. intros e He.
  rewrite Forall_forall in Hall. eapply touch_mono; [|apply touch_entry; [done|by apply Hall]].
  intros j k [-> ->]. split; [done|]. by apply list_elem_of_fmap_2.
Qed.

(** The pieces of a value, merged one after the other. *)

Fixpoint merges (x : option object) (pieces : list object) : option (option object) :=
  match pieces with
  | [] => Some x
  | p :: pieces => if compatible x p then merges (Some (join x p)) pieces else None
  end.

Lemma expire_join_idem x e : expire_join (expire_join x e) e = expire_join x e.
Proof.
  unfold expire_join. set (et := default (-1) x).
  destruct (Z.eqb_spec et (-1)); [destruct (Z.eqb_spec e (-1))|destruct (Z.eqb_spec (Z.max et e) (-1))]; simpl.
  - by subst.
  - rewrite (proj2 (Z.eqb_neq e (-1))) by done. rewrite Z.max_id. by rewrite (proj2 (Z.eqb_neq e (-1))).
  - assert (e = -1) as -> by lia. done.
  - rewrite (proj2 (Z.eqb_neq (Z.max et e) (-1))) by done.
    replace (Z.max (Z.max et e) e) with (Z.max et e) by lia. by rewrite (proj2 (Z.eqb_neq (Z.max et e) (-1))).
Qed.

Lemma run_pieces addr' gid key mt e pieces : forall st db y,
  good gid st -> Forall (loadable mt) pieces -> LLONG_MIN <= e <= LLONG_MAX ->
  ms_dbs st !! ms_sel st = Some db -> deleted_keys db !! key = None ->
  merges (value_at db key) pieces = Some y ->
  exists st' db', run (map (piece_cmd addr' (str "CRDT.Merge") gid key mt e) pieces) st = Ok st' /\
    ms_sel st' = ms_sel st /\ good gid st' /\ ms_dbs st' !! ms_sel st = Some db' /\
    value_at db' key = y /\ deleted_keys db' !! key = None /\
    expires db' !! key = match pieces with [] => expires db !! key | _ => expire_join (expires db !! key) e end.
Proof.
  induction pieces as [|p pieces IH]; intros st db y Hg Hl He Edb Ht Hm.
  - injection Hm as <-. exists st, db. do 5 (split; [done|]). by split.
  - inversion Hl as [|?? Hp Hl']; subst. cbn [merges] in Hm. destruct (compatible _ p) eqn:Ec; [|done].
    destruct (run_data addr' gid key mt p e st db Hg Hp He Edb) as (st1 & db1 & E1 & Hs1 & F1 & Edb1 & _ & Hx).
    destruct (Hx Ht Ec) as (Hv & Hex & Ht1).
    assert (value_at db1 key = Some (join (value_at db key) p)) as Hv1.
    { unfold value_at at 1. rewrite Hv. cbn [mbind option_bind retrieveObject].
      by rewrite (crdt_with _ _ (join (value_at db key) p) (proj1 Hp)). }
    rewrite <- Hs1 in Edb1. rewrite <- Hv1 in Hm.
    destruct (IH st1 db1 y (proj1 F1) Hl' He Edb1 Ht1 Hm) as (st2 & db2 & E2 & Hs2 & Hg2 & Edb2 & Hy & Ht2 & Hex2).
    exists st2, db2. split; [|split; [congruence|]].
    { cbn [map]. change (?a :: ?l) with ([a] ++ l). rewrite run_app, E1. exact E2. }
    rewrite Hs1 in Edb2. split; [exact Hg2|]. split; [exact Edb2|]. split; [exact Hy|]. split; [exact Ht2|]. rewrite Hex2, Hex. destruct pieces; [done|apply expire_join_idem].
Qed.

Lemma frame_db gid K st st' j k db :
  frame gid K st st' -> ms_dbs st !! j = Some db -> ~ K j k ->
  exists db', ms_dbs st' !! j = Some db' /\ slot db' k = slot db k.
Proof.
  intros (_ & _ & F) E HK. specialize (F j k HK). rewrite E in F. simpl in F.
  destruct (ms_dbs st' !! j) as [db'|]; [|done]. injection F as E1 E2 E3. exists db'. split; [done|].
  unfold slot. congruence.
Qed.

Lemma run_select gid j st :
  good gid st -> (j < length (ms_dbs st))%nat -> Z.of_nat (length (ms_dbs st)) < 2 ^ 31 ->
  run [[str "SELECT"; print_Z (Z.of_nat j)]] st = Ok (MkState (ms_world st) (ms_dbs st) j) /\
  good gid (MkState (ms_world st) (ms_dbs st) j).
Proof.
  intros (Hr & Hq & Hf & Hl) Hj Hm. split; [|done]. unfold run. cbn [run_commands].
  assert (run_command addr current loading mk_ok now delay c [str "SELECT"; print_Z (Z.of_nat j)] st =
    selectCommand [str "SELECT"; print_Z (Z.of_nat j)] st) as -> by reflexivity.
  unfold selectCommand. cbn [lookup list_lookup need mbind res_bind].
  rewrite string2ll_print by (unfold LLONG_MIN, LLONG_MAX; lia). rewrite to_int_id by lia. unfold selectDb.
  destruct (Z.ltb_spec (Z.of_nat j) 0); [lia|]. destruct (Z.geb_spec (Z.of_nat j) (Z.of_nat (length (ms_dbs st)))); [lia|].
  simpl. by rewrite Nat2Z.id.
Qed.

(** ** Running the stream *)

Context (iter : gmap bytes (dbval object) -> list (bytes * dbval object)) (addr' max_bulk : Z).
Context (Hiter : forall d, iter d ≡ₚ map_to_list d).

(** A database whose commands can be loaded again. *)

Definition db_loadable (gid : Z) (min_vc : VectorClock) (db : redisDb object) : Prop :=
  Forall (entry_ok (dataFilter2 max_bulk) (expire_of db) gid min_vc) (iter (dict db)) /\
  Forall (entry_ok (tombstoneFilter2 max_bulk) (fun _ => -1) gid min_vc) (iter (deleted_keys db)).

Definition holds (db : redisDb object) (k : bytes) : Prop := k ∈ dom (dict db) \/ k ∈ dom (deleted_keys db).

Lemma iter_keys d k : k ∈ (iter d).*1 <-> k ∈ dom d.
Proof.
  rewrite (Permutation_map fst (Hiter d) : (iter d).*1 ≡ₚ (map_to_list d).*1).
  rewrite list_elem_of_fmap, elem_of_dom. split.
  - intros ([k' v] & -> & Hin). apply elem_of_map_to_list in Hin. by exists v.
  - intros [v Hv]. exists (k, v). split; [done|]. by apply elem_of_map_to_list.
Qed.

Lemma touch_data gid min_vc sel db :
  db_loadable gid min_vc db ->
  touches gid sel (fun j k => j = sel /\ k ∈ dom (dict db))
    (if bool_decide (dict db = ∅) then [] else
     concat (map (entry_cmds addr' (str "CRDT.Merge") (dataFilter2 max_bulk) (expire_of db) gid min_vc) (iter (dict db)))).
Proof.
  intros [H1 _]. destruct (bool_decide _); [apply touch_nil|].
  eapply touch_mono; [|apply touch_entries; [by left|exact H1]]. intros j k [-> Hk]. by rewrite <- iter_keys.
Qed.

Lemma touch_tombstones gid min_vc sel db :
  db_loadable gid min_vc db ->
  touches gid sel (fun j k => j = sel /\ k ∈ dom (deleted_keys db))
    (if bool_decide (deleted_keys db = ∅) then [] else
     concat (map (entry_cmds addr' (str "CRDT.Merge_Del") (tombstoneFilter2 max_bulk) (fun _ => -1) gid min_vc)
             (iter (deleted_keys db)))).
Proof.
  intros [_ H2]. destruct (bool_decide _); [apply touch_nil|].
  eapply touch_mono; [|apply touch_entries; [by right|exact H2]]. intros j k [-> Hk]. by rewrite <- iter_keys.
Qed.

Lemma touch_body gid min_vc sel db :
  db_loadable gid min_vc db -> touches gid sel (fun j k => j = sel /\ holds db k) (db_body iter addr' max_bulk gid min_vc db).
Proof.
  intros Hl. apply touch_app.
  - eapply touch_mono; [|by apply touch_data]. intros j k [-> Hk]. split; [done|by left].
  - eapply touch_mono; [|by apply touch_tombstones]. intros j k [-> Hk]. split; [done|by right].
Qed.

Lemma run_db gid min_vc j db st :
  good gid st -> (j < length (ms_dbs st))%nat -> Z.of_nat (length (ms_dbs st)) < 2 ^ 31 -> db_loadable gid min_vc db ->
  exists st', run (db_cmds iter addr' max_bulk gid min_vc (Z.of_nat j) db) st = Ok st' /\
    frame gid (fun j' k => j' = j /\ holds db k) st st'.
Proof.
  intros Hg Hj Hm Hl. unfold db_cmds. destruct (_ && _); [by exists st; split; [|apply frame_refl]|].
  change (?a :: ?l) with ([a] ++ l). rewrite run_app.
  destruct (run_select gid j st Hg Hj Hm) as [-> Hg1]. cbn [mbind res_bind].
  destruct (touch_body gid min_vc j db Hl _ Hg1 eq_refl) as (st' & E & _ & F).
  by exists st'.
Qed.

Lemma run_dbs gid min_vc dbs : forall j st,
  good gid st -> (j + length dbs <= length (ms_dbs st))%nat -> Z.of_nat (length (ms_dbs st)) < 2 ^ 31 ->
  Forall (db_loadable gid min_vc) dbs ->
  exists st', run (dbs_cmds iter addr' max_bulk gid min_vc (Z.of_nat j) dbs) st = Ok st' /\
    frame gid (fun j' k => exists i db, j' = (j + i)%nat /\ dbs !! i = Some db /\ holds db k) st st'.
Proof.
  induction dbs as [|db dbs IH]; intros j st Hg Hj Hm Hall; [by exists st; split; [|apply frame_refl]|].
  inversion Hall; subst. cbn [dbs_cmds length] in *. rewrite run_app.
  destruct (run_db gid min_vc j db st Hg ltac:(lia) Hm) as (st1 & -> & F1); [done|]. cbn [mbind res_bind].
  destruct (IH (S j) st1 (proj1 F1)) as (st2 & E2 & F2); [rewrite (proj1 (proj2 F1)); lia|by rewrite (proj1 (proj2 F1))|done|].
  exists st2. replace (Z.of_nat j + 1) with (Z.of_nat (S j)) by lia. split; [exact E2|].
  eapply frame_trans; [eapply frame_mono; [|exact F1]|eapply frame_mono; [|exact F2]].
  - intros j' k [-> Hk]. exists 0%nat, db. by rewrite Nat.add_0_r.
  - intros j' k (i & db' & -> & Hi & Hk). exists (S i), db'. split; [lia|done].
Qed.

(** The pieces of [o] that the filter lets through bring [x] to the merge of [x]
    and [o]. *)

Definition filter_sound (gid : Z) (min_vc : VectorClock) (x : option object) (o : object) : Prop :=
  match dataFilter2 max_bulk o gid min_vc with
  | FilterPieces pieces => merges x pieces = Some (Some (join x o))
  | FilterNone => x = Some (join x o)
  | FilterTooBig => False
  end.

(** Something is sent of [o]. *)

Definition sent (gid : Z) (min_vc : VectorClock) (o : object) : bool :=
  match dataFilter2 max_bulk o gid min_vc with
  | FilterPieces (_ :: _) => true
  | _ => false
  end.

Lemma touch_slot gid sel K cmds st k db :
  touches gid sel K cmds -> good gid st -> ms_sel st = sel -> ms_dbs st !! sel = Some db -> ~ K sel k ->
  exists st' db', run cmds st = Ok st' /\ good gid st' /\ ms_sel st' = sel /\ ms_dbs st' !! sel = Some db' /\
    slot db' k = slot db k.
Proof.
  intros Ht Hg Hs E HK. destruct (Ht st Hg Hs) as (st' & Er & Hs' & F).
  destruct (frame_db _ _ _ _ _ _ _ F E HK) as (db' & E' & Hk). exists st', db'. by destruct F.
Qed.

Lemma slot_value (db db' : redisDb object) k :
  slot db' k = slot db k ->
  value_at db' k = value_at db k /\ expires db' !! k = expires db !! k /\ deleted_keys db' !! k = deleted_keys db !! k.
Proof. unfold slot, value_at. by intros [= -> -> ->]. Qed.

Lemma run_entry gid min_vc (sdb : redisDb object) k mt o st rdb :
  good gid st -> ms_dbs st !! ms_sel st = Some rdb -> isModuleCrdt (ModuleValue mt o) = true ->
  entry_ok (dataFilter2 max_bulk) (expire_of sdb) gid min_vc (k, ModuleValue mt o) ->
  deleted_keys rdb !! k = None -> filter_sound gid min_vc (value_at rdb k) o ->
  exists st' rdb',
    run (entry_cmds addr' (str "CRDT.Merge") (dataFilter2 max_bulk) (expire_of sdb) gid min_vc (k, ModuleValue mt o)) st = Ok st' /\
    ms_sel st' = ms_sel st /\ good gid st' /\ ms_dbs st' !! ms_sel st = Some rdb' /\
    value_at rdb' k = Some (join (value_at rdb k) o) /\ deleted_keys rdb' !! k = None /\
    expires rdb' !! k =
      if sent gid min_vc o then expire_join (expires rdb !! k) (expire_of sdb k) else expires rdb !! k.
Proof.
  intros Hg E Hc [He Hl] Ht Hs. unfold entry_cmds, filter_sound, sent in *. cbn [fst snd] in *. rewrite Hc.
  destruct (dataFilter2 max_bulk o gid min_vc) as [| |pieces].
  - exists st, rdb. do 4 (split; [done|]). by split.
  - done.
  - destruct (run_pieces addr' gid k mt (expire_of sdb k) pieces st rdb _ Hg (Hl Hc) He E Ht Hs)
      as (st' & rdb' & Er & Hs' & Hg' & E' & Hv & Ht' & Hex).
    exists st', rdb'. do 6 (split; [done|]). rewrite Hex. by destruct pieces.
Qed.

Lemma run_db_key gid min_vc sdb k mt o st rdb :
  good gid st -> db_loadable gid min_vc sdb -> ms_dbs st !! ms_sel st = Some rdb ->
  dict sdb !! k = Some (ModuleValue mt o) -> isModuleCrdt (ModuleValue mt o) = true ->
  deleted_keys sdb !! k = None -> deleted_keys rdb !! k = None -> filter_sound gid min_vc (value_at rdb k) o ->
  exists st' rdb', run (db_body iter addr' max_bulk gid min_vc sdb) st = Ok st' /\ ms_dbs st' !! ms_sel st = Some rdb' /\
    value_at rdb' k = Some (join (value_at rdb k) o) /\ deleted_keys rdb' !! k = None /\
    expires rdb' !! k =
      if sent gid min_vc o then expire_join (expires rdb !! k) (expire_of sdb k) else expires rdb !! k.
Proof.
  intros Hg Hl E Ek Hc Hts Htr Hs. unfold db_body.
  rewrite bool_decide_false by (intros Hd; by rewrite Hd in Ek). rewrite run_app.
  assert ((k, ModuleValue mt o) ∈ iter (dict sdb)) as Hin by (rewrite Hiter; by apply elem_of_map_to_list).
  assert (NoDup (iter (dict sdb)).*1) as Hnd.
  { rewrite (Permutation_map fst (Hiter (dict sdb)) : (iter (dict sdb)).*1 ≡ₚ (map_to_list (dict sdb)).*1). apply NoDup_fst_map_to_list. }
  pose proof (proj1 Hl) as Hall. destruct (list_elem_of_split _ _ Hin) as (l1 & l2 & El). rewrite El in *.
  rewrite fmap_app in Hnd. apply NoDup_app in Hnd as (_ & Hd & Hnd). rewrite fmap_cons in Hnd, Hd. cbn [fst] in Hnd, Hd.
  apply NoDup_cons in Hnd as [Hk2 _].
  assert (k ∉ l1.*1) as Hk1 by (intros Hk; apply (Hd k Hk); by left).
  apply Forall_app in Hall as [Hl1 [He Hl2]%Forall_cons].
  rewrite map_app, concat_app. cbn [map concat]. rewrite run_app.
  destruct (touch_slot gid (ms_sel st) _ _ st k rdb (touch_entries addr' _ _ _ gid min_vc _ _ (or_introl eq_refl) Hl1) Hg eq_refl E)
    as (st1 & rdb1 & -> & Hg1 & Hs1 & E1 & S1); [naive_solver|]. cbn [mbind res_bind].
  destruct (slot_value _ _ _ S1) as (V1 & X1 & T1). rewrite run_app.
  destruct (run_entry gid min_vc sdb k mt o st1 rdb1) as (st2 & rdb2 & -> & Hs2 & Hg2 & E2 & V2 & T2 & X2);
    [done|by rewrite Hs1|done|done|by rewrite T1|by rewrite V1|]. cbn [mbind res_bind]. rewrite Hs1 in E2, Hs2.
  destruct (touch_slot gid (ms_sel st) _ _ st2 k rdb2 (touch_entries addr' _ _ _ gid min_vc _ _ (or_introl eq_refl) Hl2) Hg2 Hs2 E2)
    as (st3 & rdb3 & -> & Hg3 & Hs3 & E3 & S3); [naive_solver|]. cbn [mbind res_bind].
  destruct (slot_value _ _ _ S3) as (V3 & X3 & T3).
  destruct (touch_slot gid (ms_sel st) _ _ st3 k rdb3 (touch_tombstones gid min_vc (ms_sel st) sdb Hl) Hg3 Hs3 E3)
    as (st4 & rdb4 & E4' & Hg4 & Hs4 & E4 & S4).
  { intros [_ Hk]. apply elem_of_dom in Hk. rewrite Hts in Hk. by destruct Hk. }
  destruct (slot_value _ _ _ S4) as (V4 & X4 & T4).
  exists st4, rdb4. split; [exact E4'|]. split; [done|]. rewrite V4, V3, V2, V1, T4, T3, T2, X4, X3, X2, X1. done.
Qed.

Lemma dbs_cmds_app gid min_vc l1 l2 : forall j,
  dbs_cmds iter addr' max_bulk gid min_vc j (l1 ++ l2) =
  dbs_cmds iter addr' max_bulk gid min_vc j l1 ++ dbs_cmds iter addr' max_bulk gid min_vc (j + Z.of_nat (length l1)) l2.
Proof.
  induction l1 as [|db l1 IH]; intros j; [by rewrite Z.add_0_r|].
  cbn [app dbs_cmds length]. rewrite IH, <- app_assoc. do 3 f_equal. lia.
Qed.

Lemma run_dbs_key gid min_vc dbs i sdb k mt o st rdb :
  good gid st -> (length dbs <= length (ms_dbs st))%nat -> Z.of_nat (length (ms_dbs st)) < 2 ^ 31 ->
  Forall (db_loadable gid min_vc) dbs -> dbs !! i = Some sdb -> ms_dbs st !! i = Some rdb ->
  dict sdb !! k = Some (ModuleValue mt o) -> isModuleCrdt (ModuleValue mt o) = true ->
  deleted_keys sdb !! k = None -> deleted_keys rdb !! k = None -> filter_sound gid min_vc (value_at rdb k) o ->
  exists st' rdb', run (dbs_cmds iter addr' max_bulk gid min_vc 0 dbs) st = Ok st' /\ ms_dbs st' !! i = Some rdb' /\
    value_at rdb' k = Some (join (value_at rdb k) o) /\ deleted_keys rdb' !! k = None /\
    expires rdb' !! k =
      if sent gid min_vc o then expire_join (expires rdb !! k) (expire_of sdb k) else expires rdb !! k.
Proof.
  intros Hg Hlen Hm Hall Ei Er Ek Hc Hts Htr Hs.
  rewrite <- (take_drop_middle dbs i sdb Ei) in Hall, Hlen |- *. set (l1 := take i dbs) in *. set (l2 := drop (S i) dbs) in *.
  assert (length l1 = i) as L1 by (unfold l1; rewrite length_take; apply lookup_lt_Some in Ei; lia).
  apply Forall_app in Hall as [H1 [Hd H2]%Forall_cons]. rewrite length_app in Hlen. cbn [length] in Hlen.
  rewrite dbs_cmds_app, run_app. cbn [dbs_cmds]. rewrite L1.
  destruct (run_dbs gid min_vc l1 0 st Hg ltac:(lia) Hm H1) as (st1 & E1 & F1). change (Z.of_nat 0) with 0 in E1. rewrite E1. cbn [mbind res_bind].
  destruct (frame_db _ _ _ _ i k rdb F1 Er) as (rdb1 & Er1 & S1).
  { intros (i' & db & -> & Hi & _). apply lookup_lt_Some in Hi. lia. }
  destruct (slot_value _ _ _ S1) as (V1 & X1 & T1). rewrite run_app. unfold db_cmds at 1.
  rewrite (bool_decide_false (dict sdb = ∅)) by (intros He; by rewrite He in Ek). cbn [andb].
  change (?a :: ?l) with ([a] ++ l). rewrite run_app. replace (0 + Z.of_nat i) with (Z.of_nat i) by lia.
  destruct F1 as (Hg1 & L & _).
  destruct (run_select gid i st1 Hg1 ltac:(lia) ltac:(by rewrite L)) as [-> Hg2]. cbn [mbind res_bind].
  destruct (run_db_key gid min_vc sdb k mt o (MkState (ms_world st1) (ms_dbs st1) i) rdb1 Hg2 Hd Er1 Ek Hc Hts)
    as (st3 & rdb3 & E3 & Er3 & V3 & T3 & X3); [by rewrite T1|by rewrite V1|].
  destruct (touch_body gid min_vc i sdb Hd _ Hg2 eq_refl) as (st3' & E3' & _ & F3).
  rewrite E3 in E3'. injection E3' as <-. rewrite E3. cbn [mbind res_bind].
  destruct F3 as (Hg3 & L3 & _). cbn [ms_dbs] in L3.
  destruct (run_dbs gid min_vc l2 (S i) st3 Hg3 ltac:(lia) ltac:(by rewrite L3, L) H2) as (st4 & E4 & F4).
  destruct (frame_db _ _ _ _ i k rdb3 F4 Er3) as (rdb4 & Er4 & S4).
  { intros (i' & db & Hi' & _). lia. }
  destruct (slot_value _ _ _ S4) as (V4 & X4 & T4).
  exists st4, rdb4. replace (Z.of_nat i + 1) with (Z.of_nat (S i)) by lia. split; [exact E4|]. split; [done|].
  cbn [ms_sel] in *. by rewrite V4, V3, V1, T4, X4, X3, X1.
Qed.

(** ** The peer stays unconnected *)

(** [getPeerMaster(c->gid)->repl_state == REPL_STATE_CONNECTED] *)

Definition peer_connected (r : res (@mstate object)) : bool :=
  match r with
  | Ok st =>
      match crdtMasters (w_crdt (ms_world st)) !! cl_gid c with
      | Some p => repl_state p =? REPL_STATE_CONNECTED
      | None => false
      end
  | _ => false
  end.

Definition unconnected (g : Z) (w : world) : Prop :=
  forall p, crdtMasters (w_crdt w) !! g = Some p -> repl_state p <> REPL_STATE_CONNECTED.

Lemma unconnected_set g i p w :
  unconnected g w -> (i = g -> repl_state p <> REPL_STATE_CONNECTED) -> unconnected g (set_peer i p w).
Proof.
  intros Hw Hp q. unfold set_peer. simpl. destruct (decide (i = g)) as [-> |Hi].
  - rewrite lookup_insert_eq. intros [= <-]. by apply Hp.
  - rewrite lookup_insert_ne by done. apply Hw.
Qed.

Lemma getPeerMaster_found i w o : getPeerMaster i w = Ok o -> crdtMasters (w_crdt w) !! to_int i = o.
Proof. unfold getPeerMaster. destruct (_ && _); [|done]. by intros [= <-]. Qed.

Lemma unconnected_lastio g i w o :
  unconnected g w -> updateReplTransferLastio i w = Ok (Some o) -> unconnected g o.
Proof.
  intros Hw. unfold updateReplTransferLastio. destruct (getPeerMaster i w) as [[p|]| |] eqn:E; cbn [mbind res_bind]; [|done..].
  apply getPeerMaster_found in E. destruct (iAmMaster w); intros [= <-]; [|done].
  apply unconnected_set; [done|]. intros <-. exact (Hw p E).
Qed.

Lemma unconnected_cancel g i w w' : unconnected g w -> crdtCancelReplicationHandshake i w = Ok w' -> unconnected g w'.
Proof.
  intros Hw. unfold crdtCancelReplicationHandshake, crdtReplicationAbortSyncTransfer.
  destruct (getPeerMaster i w) as [[p|]| |]; cbn [mbind res_bind]; [|by intros [= <-]|done..].
  destruct (repl_state p =? REPL_STATE_TRANSFER); cbn [c_assert mbind res_bind].
  - intros [= <-]. by apply unconnected_set.
  - destruct (_ || _); intros [= <-]; [by apply unconnected_set|done].
Qed.

Lemma unconnected_free g w w' : unconnected g w -> freeClient c w = Ok w' -> unconnected g w'.
Proof.
  assert (forall w w', unconnected g w -> crdtReplicationHandleMasterDisconnection c w = Ok w' -> unconnected g w') as Hd.
  { intros v v' Hv. unfold crdtReplicationHandleMasterDisconnection.
    destruct (getPeerMaster (cl_gid c) v) as [[p|]| |]; cbn [mbind res_bind]; [|by intros [= <-]|done..].
    intros [= <-]. by apply unconnected_set. }
  intros Hw. unfold freeClient, crdtReplicationCacheMaster. destruct (cl_crdt_master c); [|by intros [= <-]]. cbn [negb].
  destruct (negb (cl_closing c)); [|by apply Hd].
  destruct (getPeerMaster (cl_gid c) w) as [[p|]| |] eqn:E; cbn [need mbind res_bind]; [|done..].
  apply getPeerMaster_found in E. apply Hd, unconnected_set; [done|]. intros <-. exact (Hw p E).
Qed.

Lemma unconnected_command g argv st st' :
  unconnected g (ms_world st) -> run_command addr current loading mk_ok now delay c argv st = Ok st' -> unconnected g (ms_world st').
Proof.
  intros Hw. unfold run_command. destruct (argv !! 0%nat) as [name|]; cbn [need mbind res_bind]; [|done].
  destruct (strcaseeq name (str "SELECT")).
  { unfold selectCommand, selectDb. destruct (argv !! 1%nat) as [a|]; cbn [need mbind res_bind]; [|done].
    destruct (string2ll a); [|by intros [= <-]]. destruct (_ || _); by intros [= <-]. }
  assert (forall i st1, unconnected g (ms_world st1) ->
            (w ← crdtCancelReplicationHandshake i (ms_world st1); Ok (set_ms_world w st1)) = Ok st' -> unconnected g (ms_world st')) as Hcancel.
  { intros i st1 H1. destruct (crdtCancelReplicationHandshake i (ms_world st1)) as [w| |] eqn:E; cbn [mbind res_bind]; [|done..].
    intros [= <-]. by eapply unconnected_cancel. }
  destruct (strcaseeq name (str "CRDT.Merge")).
  - unfold crdtMergeCommand. destruct (argv !! 1%nat) as [a|]; cbn [need mbind res_bind]; [|done].
    assert (forall i st1, unconnected g (ms_world st1) ->
       (w ← (if iAmMaster (ms_world st1) then crdtCancelReplicationHandshake i (ms_world st1) else freeClient c (ms_world st1));
        Ok (set_ms_world w st1)) = Ok st' -> unconnected g (ms_world st')) as Herr.
    { intros i st1 H1. destruct (iAmMaster (ms_world st1)); [by apply Hcancel|].
      destruct (freeClient c (ms_world st1)) as [w| |] eqn:E; cbn [mbind res_bind]; [|done..]. intros [= <-]. by eapply unconnected_free. }
    destruct (string2ll a) as [i|]; [|pose proof (Herr 0 st Hw) as H0; by destruct (iAmMaster (ms_world st))].
    destruct (negb (check_gid (to_int i))); [by apply Herr|].
    destruct (updateReplTransferLastio i (ms_world st)) as [[w|]| |] eqn:El; cbn [mbind res_bind]; [|by apply Herr|done..].
    pose proof (unconnected_lastio _ _ _ _ Hw El) as Hw1.
    destruct (argv !! 2%nat) as [key|]; cbn [need mbind res_bind]; [|done].
    destruct (argv !! 4%nat) as [e|]; cbn [need mbind res_bind]; [|done].
    destruct (string2ll e) as [e'|]; [|by apply Herr].
    destruct (argv !! 3%nat) as [pl|]; cbn [need mbind res_bind]; [|done].
    destruct (load_payload addr pl) as [obj|]; [|by apply Herr].
    destruct (ms_dbs (set_ms_world w st) !! _) as [db|]; cbn [need mbind res_bind]; [|done].
    destruct (merge_value _ _ _ _ _ _ _ _ _ _) as [[[] db']| |]; cbn [mbind res_bind]; [..|done|done]; by intros [= <-].
  - destruct (strcaseeq name (str "CRDT.Merge_Del")); [|by intros [= <-]].
    unfold crdtMergeDelCommand. destruct (argv !! 1%nat) as [a|]; cbn [need mbind res_bind]; [|done].
    destruct (string2ll a) as [i|]; [|done].
    destruct (updateReplTransferLastio i (ms_world st)) as [[w|]| |] eqn:El; cbn [mbind res_bind]; [|by apply Hcancel|done..].
    pose proof (unconnected_lastio _ _ _ _ Hw El) as Hw1.
    destruct (argv !! 2%nat) as [key|]; cbn [need mbind res_bind]; [|done].
    destruct (argv !! 3%nat) as [pl|]; cbn [need mbind res_bind]; [|done].
    destruct (load_payload addr pl) as [obj|]; [|by apply Hcancel].
    destruct (ms_dbs (set_ms_world w st) !! _) as [db|]; cbn [need mbind res_bind]; [|done].
    destruct (merge_tombstone _ _ _) as [[[] db']| |]; cbn [mbind res_bind]; [..|done|done]; by intros [= <-].
Qed.

(** What the link of the peer runs. *)

Definition exec_command (argv : list bytes) (r : res (@mstate object)) : res mstate :=
  st ← r; run_command addr current loading mk_ok now delay c argv st.

Lemma never_connected cmds : forall r,
  match r with Ok st => unconnected (cl_gid c) (ms_world st) | _ => True end ->
  peer_connected (foldl (fun r argv => exec_command argv r) r cmds) = false.
Proof.
  induction cmds as [|argv cmds IH]; intros r Hr; cbn [foldl].
  - destruct r as [st| |]; [|done..]. unfold peer_connected. destruct (_ !! cl_gid c) as [p|] eqn:E; [|done].
    apply Z.eqb_neq. by apply Hr.
  - apply IH. destruct r as [st| |]; [|done..]. cbn [exec_command mbind res_bind].
    destruct (run_command addr current loading mk_ok now delay c argv st) eqn:E; [|done..]. by eapply unconnected_command.
Qed.

(** The commands run one by one are those the link of the peer runs. *)

Lemma run_foldl cmds : forall st,
  foldl (fun r argv => exec_command argv r) (Ok st) cmds = run cmds st.
Proof.
  assert (forall (r : res mstate), (forall s, r <> Ok s) ->
    foldl (fun r argv => exec_command argv r) r cmds = r) as Hbad.
  { induction cmds as [|a cmds IH]; intros r Hr; [done|]. simpl. destruct r; [by destruct (Hr a0)| |]; by apply IH. }
  induction cmds as [|a cmds IH]; intros st; [done|]. unfold run in *. cbn [foldl run_commands exec_command mbind res_bind].
  destruct (run_command _ _ _ _ _ _ _ a st) eqn:E; cbn [mbind res_bind].
  - apply IH. intros r Hr. specialize (Hbad r Hr). cbn [foldl] in Hbad. destruct r; [by destruct (Hr a1)|done|done].
  - specialize (Hbad Abort ltac:(done)). exact Hbad.
  - specialize (Hbad Undef ltac:(done)). exact Hbad.
Qed.

End merged.

(** ** Claims *)


(** Group 2 sends its keys to group 1. *)

Definition sender_server : crdtServer := MkServer 2 (str "ns") [Clk 1 5; Clk 2 8] [] [] ∅ 2 0 false 0.

Definition sender_db : redisDb Z := MkDb {[ str "a" := number 9; str "c" := number 1 ]} {[ str "a" := 500 ]} ∅.

Definition receiver_world : world :=
  MkWorld (example_repl_server []) (example_repl_server [])
    (set_crdtMasters {[2 := set_repl_state REPL_STATE_TRANSFER example_peer]} example_gc_server) None 0 false true false 1000.

Definition receiver_state : mstate := MkState receiver_world [example_db] 0.

Definition example_rsi : crdtRdbSaveInfo := MkSaveInfo 0 (str "id1") 0 [].

Definition example_client : client := MkClient 2 7 true false 0 150 150 (Some (str "id2")) 0.

Lemma number_loadable n : 0 <= n < 256 -> @loadable Z number_module (MkModuleType (str "crdt") 0) n.
Proof.
  intros Hn. split; [reflexivity|]. assert (Z.land n 255 = n) as E.
  { change 255 with (Z.ones 8). rewrite Z.land_ones by lia. by apply Z.mod_small. }
  unfold rdbSaveObject. cbn [number_module]. rewrite E. split; [|done].
  repeat constructor; lia.
Qed.

