(* ===== verification/Handshake.v ===== *)
(** * The handshake with a peer ([src/src/ctrip_crdt_replication.c])

    [crdtSyncWithMaster] is the handler of the socket to a peer: a state machine
    that authenticates, announces this server and asks for the stream of the
    peer.  The states are those of [repl_state].  What the socket does during one
    call of the handler is a parameter: whether it is in error, whether a write
    succeeds, the line that is read ([None]: the read fails). *)

From S2P Require Import Prelude Util Sds VectorClock VcTheory VcText VcClaims Proxy CrdtServer Backlog Resp World Feed Psync PeerState.

Definition REPL_STATE_SEND_CRDT_AUTH : Z := 6.

Definition REPL_STATE_RECEIVE_CRDT_AUTH : Z := 7.

Definition REPL_STATE_SEND_AUTH : Z := 8.

Definition REPL_STATE_RECEIVE_AUTH : Z := 9.

Definition REPL_STATE_SEND_PORT : Z := 10.

Definition REPL_STATE_RECEIVE_PORT : Z := 11.

Definition REPL_STATE_SEND_IP : Z := 12.

Definition REPL_STATE_RECEIVE_IP : Z := 13.

Definition REPL_STATE_SEND_CAPA : Z := 14.

Definition REPL_STATE_RECEIVE_CAPA : Z := 15.

Definition REPL_STATE_SEND_VC : Z := 16.

Definition REPL_STATE_RECEIVE_VC : Z := 19.

Definition REPL_STATE_SEND_BACKFLOW : Z := 20.

Definition REPL_STATE_RECEIVE_BACKFLOW : Z := 21.

Definition REPL_STATE_SEND_PSYNC : Z := 22.

(** ** Commands and replies *)

(** The inline command [crdtSendSynchronousCommand] writes. *)

Definition inline_command (args : list bytes) : bytes :=
  foldl (fun cmd arg => (if negb (Nat.eqb (length cmd) 0) then cmd ++ str " " else cmd) ++ arg) [] args ++ CRLF.

(** The socket during a call of the handler. *)

Record io := MkIo {
  io_sockerr : bool;
  io_write_ok : bool;
  io_read : option bytes;
  io_proxy_ok : bool;
  io_event_ok : bool
}.

(** What the server announces of itself: address and port, from the
    configuration. *)

Record announce := MkAnnounce {
  a_ip : option bytes;
  a_port : Z
}.

(** The string that a read gives: the line, or a text that begins with [-]. *)

Definition read_reply (i : io) : bytes :=
  match io_read i with
  | Some line => cstr line
  | None => str "-Reading from peer failed"
  end.

Definition head_is (c : Z) (s : bytes) : bool :=
  match s with
  | d :: _ => d =? c
  | [] => false
  end.

Definition touch (i : io) (unixtime : Z) (p : peer) : peer :=
  match io_read i with
  | Some _ => set_repl_transfer_lastio unixtime p
  | None => p
  end.

(** ** Asking for the stream *)

Inductive psync_result :=
| PSYNC_WRITE_ERROR
| PSYNC_WAIT_REPLY
| PSYNC_CONTINUE
| PSYNC_FULLRESYNC
| PSYNC_NOT_SUPPORTED
| PSYNC_TRY_LATER.

(** The writing half: the command and the peer, or a write error. *)

Definition psync_write (i : io) (p : peer) : res (psync_result * peer * bytes) :=
  let p := set_master_initial_offset (-1) p in
  args ← match cached_master p with
         | Some m =>
             id ← need (cl_replid m);
             Ok [str "CRDT.PSYNC"; id; print_Z (cl_reploff m + 1)]
         | None => Ok [str "CRDT.PSYNC"; str "?"; str "-1"]
         end;
  if negb (io_write_ok i) then Ok (PSYNC_WRITE_ERROR, p, [])
  else Ok (PSYNC_WAIT_REPLY, p, inline_command args).

(** [+FULLRESYNC <replid> <offset>] *)

Definition parse_fullresync (reply : bytes) : option (bytes * Z) :=
  match strchr reply 32 with
  | None => None
  | Some a =>
      let rest := drop (S a) reply in
      match strchr rest 32 with
      | None => None
      | Some b => if Nat.eqb b CONFIG_RUN_ID_SIZE then Some (take b rest, strtoll (drop (S b) rest)) else None
      end
  end.

(** The id after [+CONTINUE ], if it is as long as an id. *)

Fixpoint line_len (s : bytes) : nat :=
  match s with
  | c :: s => if (c =? CR) || (c =? LF) then 0 else S (line_len s)
  | [] => 0
  end.

Definition continue_id (reply : bytes) : option bytes :=
  if Z.of_nat (line_len (drop 9 reply)) - 1 =? Z.of_nat CONFIG_RUN_ID_SIZE
  then Some (take CONFIG_RUN_ID_SIZE (drop 10 reply)) else None.

(** The reading half. *)

Definition psync_read (i : io) (fd g : Z) (p : peer) (w : world) : res (psync_result * world) :=
  let reply := read_reply i in
  let p := touch i (w_unixtime w) p in
  let put p w := set_peer g p w in
  if bool_decide (reply = []) then Ok (PSYNC_WAIT_REPLY, put p w) else
  if has_prefix (str "+FULLRESYNC") reply then
    let p := match parse_fullresync reply with
             | None => set_master_replid (Some []) p
             | Some (id, offset) => set_master_initial_offset offset (set_master_replid (Some id) p)
             end in
    Ok (PSYNC_FULLRESYNC, put (crdtReplicationDiscardCachedMaster p) w)
  else if has_prefix (str "+CONTINUE") reply then
    '(p, w) ← match continue_id reply with
              | Some new =>
                  m ← need (cached_master p);
                  old ← need (cl_replid m);
                  if bool_decide (new = old) then Ok (p, w)
                  else
                    let p := set_cached_master (Some (set_cl_replid (Some new) m)) (set_master_replid (Some new) p) in
                    w ← replicationFeedPeerChangeCommand (p_gid p) new w;
                    Ok (p, w)
              | None => Ok (p, w)
              end;
    p ← crdtReplicationResurrectCachedMaster (io_event_ok i) fd (w_unixtime w) p;
    let w := put p w in
    w ← (if bool_decide (repl_backlog (w_peers w) = None) then createReplicationBacklog w else Ok w);
    Ok (PSYNC_CONTINUE, w)
  else if has_prefix (str "-NOMASTERLINK") reply || has_prefix (str "-LOADING") reply then
    Ok (PSYNC_TRY_LATER, put p w)
  else Ok (PSYNC_NOT_SUPPORTED, put (crdtReplicationDiscardCachedMaster p) w).

(** ** The phases *)

(** A phase lets the next one run, ends the call (having written something), or
    fails; [Crash] is undefined behaviour. *)

Inductive flow :=
| Go (p : peer)
| Sent (p : peer) (out : bytes)
| Failed (p : peer)
| Crash.

Definition run_phases (phases : list (peer -> flow)) (p : peer) : flow :=
  foldl (fun f k => match f with Go p => k p | _ => f end) (Go p) phases.

(** Reads a reply and goes to [next]; [ok] tells which replies are accepted. *)

Definition receive (i : io) (unixtime st : Z) (ok : bytes -> bool) (next : peer -> Z) (p : peer) : flow :=
  if repl_state p =? st then
    let p := touch i unixtime p in
    if ok (read_reply i) then Go (set_repl_state (next p) p) else Failed p
  else Go p.

(** The text of a failed write, which the handler owns until it frees it. *)

Inductive err_text :=
| Owned
| Freed.

Definition sdsfree (err : err_text) : option err_text :=
  match err with
  | Owned => Some Freed
  | Freed => None
  end.

(** The label [write_error]: the text is logged and freed. *)

Definition write_error (err : err_text) (p : peer) : flow :=
  match sdsfree err with
  | Some _ => Failed p
  | None => Crash
  end.

(** Writes a command and waits in [next]. *)

Definition send (i : io) (st : Z) (args : peer -> list bytes) (next : Z) (p : peer) : flow :=
  if repl_state p =? st then
    if negb (io_write_ok i) then write_error Owned p
    else Sent (set_repl_state next p) (inline_command (args p))
  else Go p.

Definition not_minus (reply : bytes) : bool := negb (head_is 45 reply).

Definition pong_ok (reply : bytes) : bool :=
  head_is 43 reply || has_prefix (str "-NOAUTH") reply || has_prefix (str "-ERR operation not permitted") reply.

(** Here the text of a failed write is freed before the jump to [write_error]. *)

Definition send_crdt_auth (i : io) (s : crdtServer) (p : peer) : flow :=
  if repl_state p =? REPL_STATE_SEND_CRDT_AUTH then
    if negb (io_write_ok i) then
      match sdsfree Owned with
      | Some err => write_error err p
      | None => Crash
      end
    else Sent (set_repl_state REPL_STATE_RECEIVE_CRDT_AUTH p)
           (inline_command [str "CRDT.AUTH"; cstr (crdt_namespace s); print_Z (p_gid p)])
  else Go p.

Definition send_auth (i : io) (p : peer) : flow :=
  if repl_state p =? REPL_STATE_SEND_AUTH then
    match masterauth p with
    | Some auth => send i REPL_STATE_SEND_AUTH (fun _ => [str "AUTH"; auth]) REPL_STATE_RECEIVE_AUTH p
    | None => Go (set_repl_state REPL_STATE_SEND_PORT p)
    end
  else Go p.

Definition skip_ip (a : announce) (p : peer) : flow :=
  if (repl_state p =? REPL_STATE_SEND_IP) && bool_decide (a_ip a = None)
  then Go (set_repl_state REPL_STATE_SEND_CAPA p) else Go p.

Definition phases (i : io) (a : announce) (unixtime : Z) (s : crdtServer) : list (peer -> flow) :=
  [ receive i unixtime REPL_STATE_RECEIVE_PONG pong_ok (fun _ => REPL_STATE_SEND_CRDT_AUTH);
    send_crdt_auth i s;
    receive i unixtime REPL_STATE_RECEIVE_CRDT_AUTH not_minus (fun _ => REPL_STATE_SEND_AUTH);
    send_auth i;
    receive i unixtime REPL_STATE_RECEIVE_AUTH not_minus (fun _ => REPL_STATE_SEND_PORT);
    send i REPL_STATE_SEND_PORT (fun _ => [str "CRDT.REPLCONF"; str "listening-port"; print_Z (a_port a)])
      REPL_STATE_RECEIVE_PORT;
    receive i unixtime REPL_STATE_RECEIVE_PORT (fun _ => true) (fun _ => REPL_STATE_SEND_IP);
    skip_ip a;
    send i REPL_STATE_SEND_IP
      (fun _ => [str "CRDT.REPLCONF"; str "ip-address"; match a_ip a with Some ip => ip | None => [] end])
      REPL_STATE_RECEIVE_IP;
    receive i unixtime REPL_STATE_RECEIVE_IP (fun _ => true) (fun _ => REPL_STATE_SEND_CAPA);
    send i REPL_STATE_SEND_CAPA
      (fun _ => [str "CRDT.REPLCONF"; str "capa"; str "eof"; str "capa"; str "psync2"]) REPL_STATE_RECEIVE_CAPA;
    receive i unixtime REPL_STATE_RECEIVE_CAPA (fun _ => true) (fun _ => REPL_STATE_SEND_VC);
    send i REPL_STATE_SEND_VC
      (fun _ => [str "CRDT.REPLCONF"; str "min-vc"; vectorClockToSds (vectorClock s)]) REPL_STATE_RECEIVE_VC;
    receive i unixtime REPL_STATE_RECEIVE_VC (fun _ => true)
      (fun p => if negb (isNullVectorClock (backstream_vc p)) then REPL_STATE_SEND_BACKFLOW
                else REPL_STATE_SEND_PSYNC);
    send i REPL_STATE_SEND_BACKFLOW
      (fun p => [str "CRDT.REPLCONF"; str "backstream"; vectorClockToSds (backstream_vc p)])
      REPL_STATE_RECEIVE_BACKFLOW;
    receive i unixtime REPL_STATE_RECEIVE_BACKFLOW (fun _ => true) (fun _ => REPL_STATE_SEND_PSYNC) ].

(** The socket is closed; the cron connects again. *)

Definition sync_error (g : Z) (p : peer) (w : world) : world :=
  set_peer g (set_repl_state REPL_STATE_CONNECT (set_repl_transfer_s (-1) p)) w.

(** The end of the handler, from [REPL_STATE_SEND_PSYNC] on. *)

Definition sync_psync (i : io) (fd g : Z) (p : peer) (w : world) : res (world * bytes) :=
  if repl_state p =? REPL_STATE_SEND_PSYNC then
    '(r, p, out) ← psync_write i p;
    match r with
    | PSYNC_WRITE_ERROR => Ok (sync_error g p w, [])
    | _ => Ok (set_peer g (set_repl_state REPL_STATE_RECEIVE_PSYNC p) w, out)
    end
  else if negb (repl_state p =? REPL_STATE_RECEIVE_PSYNC) then Ok (sync_error g p w, [])
  else
    '(r, w) ← psync_read i fd g p w;
    p ← need (crdtMasters (w_crdt w) !! g);
    match r with
    | PSYNC_WAIT_REPLY | PSYNC_CONTINUE => Ok (w, [])
    | PSYNC_FULLRESYNC =>
        let p := crdtReplicationCreateMasterClient p (createClient fd (w_unixtime w)) (-1) in
        let p := set_repl_transfer_s (-1) p in
        Ok (set_peer g (set_repl_transfer_lastio (w_unixtime w) (set_repl_state REPL_STATE_TRANSFER p)) w, [])
    | _ => Ok (sync_error g p w, [])
    end.

(** The handler for the peer [g], whose instance is its private data; the bytes
    returned are those written to the socket. *)

Definition crdtSyncWithMaster (i : io) (a : announce) (fd g : Z) (w : world) : res (world * bytes) :=
  p ← need (crdtMasters (w_crdt w) !! g);
  if repl_state p =? REPL_STATE_NONE then Ok (w, []) else
  if io_sockerr i then Ok (sync_error g p w, []) else
  if repl_state p =? REPL_STATE_CONNECTING then
    '(ok, route) ← (if negb (proxy_type p =? NONE_PROXY) then
                      h ← need (masterhost p);
                      pr ← need (proxy p);
                      ok ← proxyConnectedAfter (fun _ => io_proxy_ok i) (proxy_type p) (proxy p) h (masterport p);
                      Ok (ok, proxy_route pr h (masterport p))
                    else Ok (true, []));
    if negb ok then Ok (sync_error g p w, []) else
    let p := set_repl_state REPL_STATE_RECEIVE_PONG p in
    if negb (io_write_ok i) then Ok (sync_error g p w, [])
    else Ok (set_peer g p w, route ++ inline_command [str "PING"])
  else
    match run_phases (phases i a (w_unixtime w) (w_crdt w)) p with
    | Sent p out => Ok (set_peer g p w, out)
    | Failed p => Ok (sync_error g p w, [])
    | Crash => Undef
    | Go p => sync_psync i fd g p w
    end.

(** [connect] is what opening the connection gives, [event_ok] whether the
    handler is registered, [r] a random number for the choice of a proxy. *)

Definition crdtConnectWithMaster (connect : bytes -> Z -> Z) (r : Z) (event_ok : bool) (g : Z) (w : world)
  : res (bool * world) :=
  p ← need (crdtMasters (w_crdt w) !! g);
  '(fd, p) ← (if proxy_type p =? NONE_PROXY then
                h ← need (masterhost p); Ok (connect h (masterport p), p)
              else
                '(fd, pr) ← proxyConnect r connect (proxy_type p) (proxy p);
                Ok (fd, set_proxy pr p));
  if fd =? -1 then Ok (false, set_peer g p w)
  else if negb event_ok then Ok (false, set_peer g p w)
  else
    let p := set_repl_state REPL_STATE_CONNECTING
               (set_repl_transfer_s fd (set_repl_transfer_lastio (w_unixtime w) p)) in
    Ok (true, set_peer g p w).

(** ** The specification of the handshake *)

(** The states in which the handler waits for its next event. *)

Definition waiting_states : list Z :=
  [REPL_STATE_CONNECTING; REPL_STATE_RECEIVE_PONG; REPL_STATE_RECEIVE_CRDT_AUTH; REPL_STATE_RECEIVE_AUTH;
   REPL_STATE_RECEIVE_PORT; REPL_STATE_RECEIVE_IP; REPL_STATE_RECEIVE_CAPA; REPL_STATE_RECEIVE_VC;
   REPL_STATE_RECEIVE_BACKFLOW].

Definition psync_args (p : peer) : list bytes :=
  match cached_master p with
  | Some m => [str "CRDT.PSYNC"; match cl_replid m with Some id => id | None => [] end; print_Z (cl_reploff m + 1)]
  | None => [str "CRDT.PSYNC"; str "?"; str "-1"]
  end.

Definition port_args (a : announce) : list bytes :=
  [str "CRDT.REPLCONF"; str "listening-port"; print_Z (a_port a)].

Definition capa_args : list bytes :=
  [str "CRDT.REPLCONF"; str "capa"; str "eof"; str "capa"; str "psync2"].

(** What is said next, and where the answer is awaited. *)

Definition next_wait (a : announce) (s : crdtServer) (p : peer) : Z * list bytes :=
  let st := repl_state p in
  if st =? REPL_STATE_CONNECTING then (REPL_STATE_RECEIVE_PONG, [str "PING"])
  else if st =? REPL_STATE_RECEIVE_PONG then
    (REPL_STATE_RECEIVE_CRDT_AUTH, [str "CRDT.AUTH"; cstr (crdt_namespace s); print_Z (p_gid p)])
  else if st =? REPL_STATE_RECEIVE_CRDT_AUTH then
    match masterauth p with
    | Some auth => (REPL_STATE_RECEIVE_AUTH, [str "AUTH"; auth])
    | None => (REPL_STATE_RECEIVE_PORT, port_args a)
    end
  else if st =? REPL_STATE_RECEIVE_AUTH then (REPL_STATE_RECEIVE_PORT, port_args a)
  else if st =? REPL_STATE_RECEIVE_PORT then
    match a_ip a with
    | Some ip => (REPL_STATE_RECEIVE_IP, [str "CRDT.REPLCONF"; str "ip-address"; ip])
    | None => (REPL_STATE_RECEIVE_CAPA, capa_args)
    end
  else if st =? REPL_STATE_RECEIVE_IP then (REPL_STATE_RECEIVE_CAPA, capa_args)
  else if st =? REPL_STATE_RECEIVE_CAPA then
    (REPL_STATE_RECEIVE_VC, [str "CRDT.REPLCONF"; str "min-vc"; vectorClockToSds (vectorClock s)])
  else if (st =? REPL_STATE_RECEIVE_VC) && negb (isNullVectorClock (backstream_vc p)) then
    (REPL_STATE_RECEIVE_BACKFLOW, [str "CRDT.REPLCONF"; str "backstream"; vectorClockToSds (backstream_vc p)])
  else (REPL_STATE_RECEIVE_PSYNC, psync_args p).

(** The replies that are not accepted. *)

Definition refused (p : peer) (reply : bytes) : bool :=
  ((repl_state p =? REPL_STATE_RECEIVE_PONG) && negb (pong_ok reply)) ||
  (((repl_state p =? REPL_STATE_RECEIVE_CRDT_AUTH) || (repl_state p =? REPL_STATE_RECEIVE_AUTH)) &&
   negb (not_minus reply)).

(** The cached client, if there is one, has an id. *)

Definition cached_id_ok (p : peer) : Prop :=
  forall m, cached_master p = Some m -> cl_replid m <> None.

(** The instance but for the fields the handshake works on. *)

Definition same_link (p p' : peer) : Prop :=
  p_gid p' = p_gid p /\ masterauth p' = masterauth p /\ masterhost p' = masterhost p /\
  masterport p' = masterport p /\ master p' = master p /\ cached_master p' = cached_master p /\
  p_vectorClock p' = p_vectorClock p /\ backstream_vc p' = backstream_vc p /\ proxy_type p' = proxy_type p /\
  proxy p' = proxy p.

(** ** Running the phases *)

Lemma run_cons k ks p :
  run_phases (k :: ks) p = match k p with
                           | Go p => run_phases ks p
                           | f => f
                           end.
Proof.
  unfold run_phases. cbn [foldl]. destruct (k p) as [q|q out|q|]; [done|..];
    (induction ks as [|k2 ks IH]; [done|exact IH]).
Qed.

Lemma run_nil p : run_phases [] p = Go p.
Proof. done. Qed.

Section steps.

Context (i : io) (a : announce) (unixtime : Z) (s : crdtServer).
Context (Hw : io_write_ok i = true).

Lemma receive_skip st ok next p :
  (repl_state p =? st) = false -> receive i unixtime st ok next p = Go p.
Proof. unfold receive. by intros ->. Qed.

Lemma receive_hit st ok next p :
  repl_state p = st ->
  receive i unixtime st ok next p =
  if ok (read_reply i) then Go (set_repl_state (next (touch i unixtime p)) (touch i unixtime p))
  else Failed (touch i unixtime p).
Proof. unfold receive. intros ->. by rewrite Z.eqb_refl. Qed.

Lemma send_skip st args next p : (repl_state p =? st) = false -> send i st args next p = Go p.
Proof. unfold send. by intros ->. Qed.

Lemma send_hit st args next p :
  repl_state p = st -> send i st args next p = Sent (set_repl_state next p) (inline_command (args p)).
Proof using Hw. unfold send. intros ->. by rewrite Z.eqb_refl, Hw. Qed.

Lemma crdt_auth_skip p : (repl_state p =? REPL_STATE_SEND_CRDT_AUTH) = false -> send_crdt_auth i s p = Go p.
Proof. unfold send_crdt_auth. by intros ->. Qed.

Lemma crdt_auth_hit p :
  repl_state p = REPL_STATE_SEND_CRDT_AUTH ->
  send_crdt_auth i s p = Sent (set_repl_state REPL_STATE_RECEIVE_CRDT_AUTH p)
    (inline_command [str "CRDT.AUTH"; cstr (crdt_namespace s); print_Z (p_gid p)]).
Proof using Hw. unfold send_crdt_auth. intros ->. by rewrite Hw. Qed.

Lemma auth_skip p : (repl_state p =? REPL_STATE_SEND_AUTH) = false -> send_auth i p = Go p.
Proof. unfold send_auth. by intros ->. Qed.

Lemma auth_hit p :
  repl_state p = REPL_STATE_SEND_AUTH ->
  send_auth i p = match masterauth p with
                  | Some auth => Sent (set_repl_state REPL_STATE_RECEIVE_AUTH p) (inline_command [str "AUTH"; auth])
                  | None => Go (set_repl_state REPL_STATE_SEND_PORT p)
                  end.
Proof using Hw.
  intros E. unfold send_auth. rewrite E, Z.eqb_refl. destruct (masterauth p); [|done]. by rewrite send_hit.
Qed.

Lemma ip_skip p : (repl_state p =? REPL_STATE_SEND_IP) = false -> skip_ip a p = Go p.
Proof. unfold skip_ip. by intros ->. Qed.

Lemma ip_hit p :
  repl_state p = REPL_STATE_SEND_IP ->
  skip_ip a p = match a_ip a with
                | Some _ => Go p
                | None => Go (set_repl_state REPL_STATE_SEND_CAPA p)
                end.
Proof. unfold skip_ip. intros ->. by destruct (a_ip a). Qed.

End steps.

Lemma touch_state i u p : repl_state (touch i u p) = repl_state p.
Proof. unfold touch. by destruct (io_read i). Qed.

Lemma touch_link i u p : same_link p (touch i u p).
Proof. unfold touch, same_link. by destruct (io_read i). Qed.

Lemma set_state_link p p' st : same_link p p' -> same_link p (set_repl_state st p').
Proof. done. Qed.

Ltac phase_side :=
  cbn [repl_state set_repl_state]; rewrite ?touch_state;
  repeat match goal with H : repl_state _ = _ |- _ => rewrite H end; reflexivity.

Ltac phase Hw :=
  rewrite run_cons;
  first [ rewrite receive_skip by phase_side
        | rewrite send_skip by phase_side
        | rewrite crdt_auth_skip by phase_side
        | rewrite auth_skip by phase_side
        | rewrite ip_skip by phase_side
        | rewrite receive_hit by phase_side
        | rewrite (send_hit _ Hw) by phase_side
        | rewrite (crdt_auth_hit _ _ Hw) by phase_side
        | rewrite (auth_hit _ Hw) by phase_side
        | rewrite ip_hit by phase_side ]; cbv iota beta.

(** Evaluates the comparisons of constants. *)

Ltac state_tests :=
  repeat match goal with
  | |- context [?x =? ?y] =>
      is_const x; is_const y;
      let v := eval vm_compute in (x =? y) in
      match v with
      | true => change (x =? y) with true
      | false => change (x =? y) with false
      end
  end; cbn [andb orb negb fst snd].

Ltac solve_phase i :=
  unfold touch; destruct (io_read i);
  (eexists; split; [|first [reflexivity|split; reflexivity]]; split_and!; reflexivity).

(** The next phase that is not skipped, for each waiting state. *)

Lemma phases_step i a u s p :
  io_write_ok i = true -> repl_state p ∈ waiting_states -> repl_state p <> REPL_STATE_CONNECTING ->
  exists p', same_link p p' /\
    if refused p (read_reply i) then run_phases (phases i a u s) p = Failed p'
    else if fst (next_wait a s p) =? REPL_STATE_RECEIVE_PSYNC then
      run_phases (phases i a u s) p = Go p' /\ repl_state p' = REPL_STATE_SEND_PSYNC
    else run_phases (phases i a u s) p = Sent p' (inline_command (snd (next_wait a s p))) /\
         repl_state p' = fst (next_wait a s p).
Proof.
  intros Hw Hst Hne. unfold waiting_states in Hst.
  apply elem_of_cons in Hst as [?|Hst]; [done|].
  repeat (apply elem_of_cons in Hst as [E|Hst];
          [unfold refused, next_wait, phases, port_args, capa_args; rewrite E; state_tests|]);
    [..|by apply not_elem_of_nil in Hst].
  - rewrite orb_false_r. phase Hw. destruct (pong_ok (read_reply i)); cbn [negb]; [phase Hw|]; solve_phase i.
  - do 3 phase Hw. destruct (not_minus (read_reply i)); cbn [negb]; [phase Hw|solve_phase i].
    replace (masterauth (set_repl_state REPL_STATE_SEND_AUTH (touch i u p))) with (masterauth p)
      by (unfold touch; by destruct (io_read i)).
    destruct (masterauth p); cbn [fst snd]; state_tests; [solve_phase i|]. do 2 phase Hw. solve_phase i.
  - do 5 phase Hw. destruct (not_minus (read_reply i)); cbn [negb]; [phase Hw|]; solve_phase i.
  - do 8 phase Hw. destruct (a_ip a); cbn [fst snd]; state_tests; [phase Hw; solve_phase i|].
    do 3 phase Hw. solve_phase i.
  - do 11 phase Hw. solve_phase i.
  - do 13 phase Hw. solve_phase i.
  - do 14 phase Hw.
    replace (backstream_vc (touch i u p)) with (backstream_vc p) by (unfold touch; by destruct (io_read i)).
    destruct (isNullVectorClock (backstream_vc p)); cbn [fst snd negb]; state_tests;
      [do 2 phase Hw; rewrite run_nil|phase Hw]; solve_phase i.
  - do 16 phase Hw. rewrite run_nil. solve_phase i.
Qed.

Lemma psync_write_ok i p :
  cached_id_ok p -> io_write_ok i = true ->
  psync_write i p = Ok (PSYNC_WAIT_REPLY, set_master_initial_offset (-1) p, inline_command (psync_args p)).
Proof.
  intros Hid Hw. unfold psync_write, psync_args. cbn [cached_master set_master_initial_offset].
  destruct (cached_master p) as [m|] eqn:Em; cbn [mbind res_bind].
  - destruct (cl_replid m) as [id|] eqn:Ei; [|by destruct (Hid m Em)]. cbn [need mbind res_bind]. by rewrite Hw.
  - by rewrite Hw.
Qed.

Lemma same_link_cached p p' : same_link p p' -> cached_id_ok p -> cached_id_ok p' /\ psync_args p' = psync_args p.
Proof.
  intros (_ & _ & _ & _ & _ & E & _) H. unfold cached_id_ok, psync_args. by rewrite E.
Qed.

Lemma next_wait_psync a s p :
  fst (next_wait a s p) = REPL_STATE_RECEIVE_PSYNC -> snd (next_wait a s p) = psync_args p.
Proof.
  unfold next_wait.
  repeat match goal with
  | |- context [if ?b then _ else _] => destruct b
  | |- context [match ?o with Some _ => _ | None => _ end] => destruct o
  end; cbn [fst snd]; intros H; first [discriminate H|reflexivity].
Qed.

Lemma sync_step i a fd g w p :
  crdtMasters (w_crdt w) !! g = Some p -> repl_state p ∈ waiting_states -> proxy_type p = NONE_PROXY ->
  cached_id_ok p -> io_sockerr i = false -> io_write_ok i = true ->
  exists p', same_link p p' /\
    if refused p (read_reply i) then
      crdtSyncWithMaster i a fd g w = Ok (set_peer g p' w, []) /\ repl_state p' = REPL_STATE_CONNECT
    else crdtSyncWithMaster i a fd g w = Ok (set_peer g p' w, inline_command (snd (next_wait a (w_crdt w) p))) /\
      repl_state p' = fst (next_wait a (w_crdt w) p).
Proof.
  intros Hp Hst Hpx Hid Hs Hw. unfold crdtSyncWithMaster. rewrite Hp. cbn [need mbind res_bind].
  assert ((repl_state p =? REPL_STATE_NONE) = false) as ->.
  { apply Z.eqb_neq. intros E. rewrite E in Hst. revert Hst. decide_now. }
  rewrite Hs. destruct (Z.eqb_spec (repl_state p) REPL_STATE_CONNECTING) as [E|E].
  - rewrite Hpx. change (NONE_PROXY =? NONE_PROXY) with true. cbn [negb mbind res_bind].
    rewrite Hw. cbn [negb]. unfold refused, next_wait. rewrite E. state_tests.
    eexists. split; [|split; reflexivity]. done.
  - destruct (phases_step i a (w_unixtime w) (w_crdt w) p Hw Hst E) as (p' & L & H).
    destruct (refused p (read_reply i)).
    + rewrite H. eexists. split; [|split; reflexivity]. done.
    + destruct (Z.eqb_spec (fst (next_wait a (w_crdt w) p)) REPL_STATE_RECEIVE_PSYNC) as [En|En].
      * destruct H as [-> Est]. unfold sync_psync. rewrite Est, Z.eqb_refl.
        destruct (same_link_cached p p' L Hid) as [Hid' Ea].
        rewrite (psync_write_ok i p' Hid' Hw). cbn [mbind res_bind].
        exists (set_repl_state REPL_STATE_RECEIVE_PSYNC (set_master_initial_offset (-1) p')).
        split; [exact L|]. split; [|by rewrite En]. rewrite Ea, (next_wait_psync _ _ _ En). done.
      * destruct H as [-> Est]. eexists. split; [exact L|]. done.
Qed.

Lemma next_wait_later a s p :
  repl_state p ∈ waiting_states ->
  repl_state p < fst (next_wait a s p) <= REPL_STATE_RECEIVE_PSYNC /\
  (fst (next_wait a s p) = REPL_STATE_RECEIVE_PSYNC \/ fst (next_wait a s p) ∈ waiting_states).
Proof.
  intros Hst. unfold waiting_states in Hst.
  repeat (apply elem_of_cons in Hst as [E|Hst];
          [unfold next_wait; rewrite E; state_tests;
           repeat match goal with
           | |- context [if ?b then _ else _] => destruct b
           | |- context [match ?o with Some _ => _ | None => _ end] => destruct o
           end; cbn [fst]; (split; [decide_now|first [left; reflexivity|right; decide_now]])|]);
    by apply not_elem_of_nil in Hst.
Qed.

(** What is said next depends on the state and on the fields the handshake does
    not touch. *)

Lemma next_wait_link a s s' p p' :
  same_link p p' -> crdt_namespace s' = crdt_namespace s -> vectorClock s' = vectorClock s ->
  next_wait a s' p' = next_wait a s (set_repl_state (repl_state p') p).
Proof.
  intros (E1 & E2 & _ & _ & _ & E6 & _ & E8 & _) H1 H2. unfold next_wait, psync_args.
  cbn [repl_state set_repl_state p_gid masterauth cached_master backstream_vc].
  by rewrite E1, E2, E6, E8, H1, H2.
Qed.

(** The commands from a state on, with at most [n] exchanges. *)

Fixpoint script_from (n : nat) (a : announce) (s : crdtServer) (p : peer) : list (list bytes) :=
  match n with
  | O => []
  | S n =>
      snd (next_wait a s p) ::
      (if fst (next_wait a s p) =? REPL_STATE_RECEIVE_PSYNC then []
       else script_from n a s (set_repl_state (fst (next_wait a s p)) p))
  end.

Lemma script_link n a s s' p p' :
  same_link p p' -> crdt_namespace s' = crdt_namespace s -> vectorClock s' = vectorClock s ->
  script_from n a s' p' = script_from n a s (set_repl_state (repl_state p') p).
Proof.
  revert p p'. induction n as [|n IH]; intros p p' L H1 H2; [done|]. cbn [script_from].
  rewrite (next_wait_link a s s' p p' L H1 H2).
  set (nw := next_wait a s (set_repl_state (repl_state p') p)). f_equal. destruct (_ =? _); [done|].
  by rewrite (IH (set_repl_state (repl_state p') p) (set_repl_state (fst nw) p')).
Qed.

(** One event after the other, each with a line from the peer. *)

Fixpoint run_handshake (a : announce) (fd g : Z) (lines : list bytes) (w : world) : res (world * bytes) :=
  match lines with
  | [] => Ok (w, [])
  | line :: lines =>
      '(w, out) ← crdtSyncWithMaster (MkIo false true (Some line) true true) a fd g w;
      '(w, out2) ← run_handshake a fd g lines w;
      Ok (w, out ++ out2)
  end.

Definition positive (line : bytes) : Prop := head_is 43 (cstr line) = true.

Lemma positive_not_refused p line : positive line -> refused p (cstr line) = false.
Proof.
  unfold positive, refused, pong_ok, not_minus, head_is. destruct (cstr line) as [|c l]; [done|].
  intros ->%Z.eqb_eq. cbn. by rewrite !andb_false_r.
Qed.

Lemma run_script a fd g n : forall lines w p,
  crdtMasters (w_crdt w) !! g = Some p -> repl_state p ∈ waiting_states -> proxy_type p = NONE_PROXY ->
  cached_id_ok p -> Forall positive lines -> REPL_STATE_RECEIVE_PSYNC - repl_state p <= Z.of_nat n ->
  length lines = length (script_from n a (w_crdt w) p) ->
  exists p', run_handshake a fd g lines w =
      Ok (set_peer g p' w, concat (map inline_command (script_from n a (w_crdt w) p))) /\
    same_link p p' /\ repl_state p' = REPL_STATE_RECEIVE_PSYNC.
Proof.
  induction n as [|n IH]; intros lines w p Hp Hst Hpx Hid Hl Hn Hlen;
    destruct (next_wait_later a (w_crdt w) p Hst) as [Hlater Hnext]; [lia|].
  cbn [script_from] in Hlen |- *. destruct lines as [|line lines]; [done|].
  apply Forall_cons in Hl as [Hline Hl]. cbn [run_handshake].
  destruct (sync_step (MkIo false true (Some line) true true) a fd g w p Hp Hst Hpx Hid eq_refl eq_refl)
    as (p1 & L1 & H1).
  unfold read_reply in H1. cbn [io_read] in H1. rewrite (positive_not_refused p line Hline) in H1.
  destruct H1 as [-> Es]. cbn [mbind res_bind map concat].
  destruct (Z.eqb_spec (fst (next_wait a (w_crdt w) p)) REPL_STATE_RECEIVE_PSYNC) as [En|En].
  - destruct lines; [|done]. cbn [run_handshake mbind res_bind map concat]. exists p1.
    split; [done|]. split; [done|]. by rewrite Es.
  - destruct Hnext as [?|Hnext]; [done|].
    assert (script_from n a (w_crdt (set_peer g p1 w)) p1 =
            script_from n a (w_crdt w) (set_repl_state (fst (next_wait a (w_crdt w) p)) p)) as Esc
      by (rewrite <- Es; by apply script_link).
    assert (same_link p1 p1) as _ by done.
    destruct (IH lines (set_peer g p1 w) p1) as (p2 & E2 & L2 & S2).
    + apply set_peer_lookup.
    + by rewrite Es.
    + destruct L1 as (_ & _ & _ & _ & _ & _ & _ & _ & -> & _). done.
    + by destruct (same_link_cached p p1 L1 Hid).
    + done.
    + rewrite Es. lia.
    + rewrite Esc. simpl in Hlen. by injection Hlen.
    + rewrite E2. cbn [mbind res_bind]. exists p2. rewrite Esc, set_peer_set_peer. split; [done|]. split; [|done].
      unfold same_link in *. intuition congruence.
Qed.

(** ** Claims *)

Definition handshake_script (a : announce) (s : crdtServer) (p : peer) : list (list bytes) :=
  [[str "PING"]; [str "CRDT.AUTH"; cstr (crdt_namespace s); print_Z (p_gid p)]] ++
  match masterauth p with Some auth => [[str "AUTH"; auth]] | None => [] end ++
  [[str "CRDT.REPLCONF"; str "listening-port"; print_Z (a_port a)]] ++
  match a_ip a with Some ip => [[str "CRDT.REPLCONF"; str "ip-address"; ip]] | None => [] end ++
  [[str "CRDT.REPLCONF"; str "capa"; str "eof"; str "capa"; str "psync2"];
   [str "CRDT.REPLCONF"; str "min-vc"; vectorClockToSds (vectorClock s)]] ++
  (if negb (isNullVectorClock (backstream_vc p))
   then [[str "CRDT.REPLCONF"; str "backstream"; vectorClockToSds (backstream_vc p)]] else []) ++
  [match cached_master p with
   | Some m => [str "CRDT.PSYNC"; match cl_replid m with Some id => id | None => [] end; print_Z (cl_reploff m + 1)]
   | None => [str "CRDT.PSYNC"; str "?"; str "-1"]
   end].

Lemma script_more n a s p st args :
  next_wait a s p = (st, args) -> (st =? REPL_STATE_RECEIVE_PSYNC) = false ->
  script_from (S n) a s p = args :: script_from n a s (set_repl_state st p).
Proof. intros E H. cbn [script_from]. rewrite E. cbn [fst snd]. by rewrite H. Qed.

Lemma script_last n a s p args :
  next_wait a s p = (REPL_STATE_RECEIVE_PSYNC, args) -> script_from (S n) a s p = [args].
Proof. intros E. cbn [script_from]. by rewrite E. Qed.

Ltac next_is :=
  unfold next_wait; cbn [repl_state set_repl_state masterauth backstream_vc p_gid cached_master];
  repeat match goal with H : a_ip _ = _ |- _ => rewrite H | H : isNullVectorClock _ = _ |- _ => rewrite H end;
  state_tests; reflexivity.

Lemma script_is a s p :
  repl_state p = REPL_STATE_CONNECTING -> script_from 21 a s p = handshake_script a s p.
Proof.
  intros E. destruct p as [pg auth host port m cm st ts lio ds rid mio vc db bvc lz pt px]. cbn [repl_state] in E.
  subst st. unfold handshake_script. cbn [p_gid masterauth cached_master backstream_vc].
  destruct auth as [auth|], (a_ip a) as [ip|] eqn:Ea, (isNullVectorClock bvc) eqn:Eb; cbn [app negb];
    repeat first [ erewrite script_last by next_is | erewrite script_more by (next_is || reflexivity); f_equal ];
    reflexivity.
Qed.


Definition example_link : client := MkClient 2 7 true false 0 150 150 (Some (str "id2")) 0.

Definition example_connecting (st : Z) : peer :=
  MkPeer 2 None (Some (str "10.0.0.2")) 6379 None (Some example_link) st 9 0 0 None (-1) [] 0 [] 0 0 None.

Definition world_with (p : peer) : world := set_peer 2 p example_world.




(** Two defects of the handshake.  If the peer has answered the ping and the
    write of CRDT.AUTH fails, the text of the error is freed and then logged and
    freed again: the call has no defined behaviour. *)

Lemma crdt_auth_double_free (i : io) (a : announce) (fd g : Z) (w : world) (p : peer) :
  crdtMasters (w_crdt w) !! g = Some p -> repl_state p = REPL_STATE_RECEIVE_PONG -> io_sockerr i = false ->
  pong_ok (read_reply i) = true -> io_write_ok i = false -> crdtSyncWithMaster i a fd g w = Undef.
Proof.
  intros Hp Hst Hs Hr Hw. unfold crdtSyncWithMaster. rewrite Hp. cbn [need mbind res_bind]. rewrite Hst. state_tests.
  rewrite Hs. unfold phases. rewrite run_cons, receive_hit by done. rewrite Hr. cbv iota beta. rewrite run_cons.
  unfold send_crdt_auth. cbn [repl_state set_repl_state]. state_tests. by rewrite Hw.
Qed.

(** And a link that is lost during the transfer of a full resynchronization,
    before the end of the merge has given its client an id, is cached all the
    same: the next request for the stream reads an id that was never written. *)

Lemma lost_transfer_no_id (i : io) (g fd : Z) (w : world) (p : peer) (c : client) :
  crdtMasters (w_crdt w) !! g = Some p -> 0 <= g < 16 -> repl_state p = REPL_STATE_TRANSFER ->
  master p = Some c -> c = set_cl_crdt_master true (set_cl_gid g (createClient fd (w_unixtime w))) ->
  exists w' p', freeClient c w = Ok w' /\ crdtMasters (w_crdt w') !! g = Some p' /\
    repl_state p' = REPL_STATE_CONNECT /\ psync_write i p' = Undef.
Proof.
  intros Hp Hg Hst Hm Ec.
  assert (cl_gid c = g /\ cl_crdt_master c = true /\ cl_closing c = false /\ cl_replid c = None) as (G & F & Cl & R)
    by (by rewrite Ec).
  assert (to_int g = g) as Eg by (apply to_int_id; lia).
  unfold freeClient, crdtReplicationCacheMaster. rewrite F, Cl. cbn [negb].
  rewrite G, getPeerMaster_valid by done.
  cbn [mbind res_bind]. rewrite Hp. cbn [need mbind res_bind]. rewrite Hm. cbn [fmap option_fmap option_map].
  unfold crdtReplicationHandleMasterDisconnection. rewrite G, Eg, getPeerMaster_valid by done.
  cbn [mbind res_bind]. rewrite set_peer_lookup. eexists _, _. split; [reflexivity|].
  split; [apply set_peer_lookup|]. split; [done|]. unfold psync_write. simpl. by rewrite R.
Qed.
