(* ===== verification/Lzf.v ===== *)
(** * LZF compression ([src/src/lzf_c.c], [src/src/lzf_d.c])

    Both functions, with every read and write checked against its buffer; the
    hash table of the compressor is not initialised, so its first contents are a
    parameter. *)

From S2P Require Import Prelude.

Definition HLOG : Z := 16.
Definition HSIZE : Z := Z.shiftl 1 HLOG.
Definition MAX_LIT : nat := 32.
Definition MAX_OFF : Z := Z.shiftl 1 13.
Definition MAX_REF : nat := 264.

(** ** Compression *)

Section compress.

Context (in_data : bytes) (out_len : nat).

Definition rd (i : nat) : res Z := need (in_data !! i).

Definition FRST (p : nat) : res Z :=
  a ← rd p;
  b ← rd (p + 1);
  Ok (Z.lor (Z.shiftl a 8) b).

Definition NEXT (v : Z) (p : nat) : res Z :=
  c ← rd (p + 2);
  Ok (Z.lor (uwrap 32 (Z.shiftl v 8)) c).

Definition IDX (h : Z) : Z := Z.land (uwrap 32 (Z.shiftr h (3 * 8 - HLOG) - h * 5)) (HSIZE - 1).

(** [c_out] are the bytes up to [op]; [c_lit] literals of the current run have
    been written, after one byte that will hold their number. *)

Record cstate := MkC { c_ip : nat; c_out : bytes; c_lit : nat; c_hval : Z; c_tab : Z -> Z }.

Definition set_slot (i v : Z) (tab : Z -> Z) : Z -> Z := fun j => if j =? i then v else tab j.

(** [*op++ = b] *)

Definition push (b : Z) (out : bytes) : res bytes :=
  if (length out <? out_len)%nat then Ok (out ++ [uwrap 8 b]) else Undef.

(** [op++] *)

Definition start_run (out : bytes) : bytes := out ++ [0].

(** [op [- lit - 1] = lit - 1] *)

Definition stop_run (lit : nat) (out : bytes) : res bytes :=
  if (length out <? lit + 1)%nat then Undef else
  let i := (length out - lit - 1)%nat in
  if (i <? out_len)%nat then Ok (<[i := uwrap 8 (Z.of_nat lit - 1)]> out) else Undef.

(** [op -= !lit] *)

Definition undo_run (lit : nat) (out : bytes) : bytes :=
  if (lit =? 0)%nat then take (length out - 1) out else out.

(** [ref [len] == ip [len]] *)

Definition same_at (ref ip len : nat) : res bool :=
  a ← rd (ref + len);
  b ← rd (ip + len);
  Ok (a =? b).

(** The sixteen comparisons that are written out; [true] for a [break]. *)

Fixpoint unrolled (n ref ip len : nat) : res (bool * nat) :=
  match n with
  | O => Ok (false, len)
  | S n =>
      let len := S len in
      eq ← same_at ref ip len;
      if (eq : bool) then unrolled n ref ip len else Ok (true, len)
  end.

(** The [do]-loop. *)

Fixpoint extend (fuel ref ip len maxlen : nat) : res nat :=
  match fuel with
  | O => Undef
  | S fuel =>
      let len := S len in
      if (len <? maxlen)%nat then
        eq ← same_at ref ip len;
        if (eq : bool) then extend fuel ref ip len maxlen else Ok len
      else Ok len
  end.

Definition match_length (ref ip : nat) : res nat :=
  let maxlen := (length in_data - ip - 2)%nat in
  let maxlen := if (MAX_REF <? maxlen)%nat then MAX_REF else maxlen in
  if (16 <? maxlen)%nat then
    '(broke, len) ← unrolled 16 ref ip 2;
    if (broke : bool) then Ok len else extend (S maxlen) ref ip len maxlen
  else extend (S maxlen) ref ip 2 maxlen.

(** The condition for a match at [ref]. *)

Definition matches (ref : Z) (ip : nat) : res bool :=
  let off := uwrap 64 (Z.of_nat ip - ref - 1) in
  if negb (off <? MAX_OFF) then Ok false else
  if negb (ref >? 0) then Ok false else
  let r := Z.to_nat ref in
  e2 ← same_at r ip 2;
  if negb e2 then Ok false else
  e0 ← same_at r ip 0;
  e1 ← same_at r ip 1;
  Ok (e0 && e1).

(** What is written for a match, [len] octets less two long. *)

Definition put_ref (off : Z) (len : nat) (out : bytes) : res bytes :=
  out ← (if (len <? 7)%nat then push (Z.shiftr off 8 + Z.shiftl (Z.of_nat len) 5) out
         else out ← push (Z.shiftr off 8 + Z.shiftl 7 5) out; push (Z.of_nat len - 7) out);
  push off out.

(** One turn of the main loop: [None] for a [return 0], [true] for a [break]. *)

Definition compress_step (st : cstate) : res (option (bool * cstate)) :=
  let ip := c_ip st in
  let lit := c_lit st in
  hval ← NEXT (c_hval st) ip;
  let slot := IDX hval in
  let ref := uwrap 32 (c_tab st slot) in
  let tab := set_slot slot (Z.of_nat ip) (c_tab st) in
  hit ← matches ref ip;
  if (hit : bool) then
    if (out_len <=? length (c_out st) + 3 + 1)%nat &&
       (out_len <=? length (c_out st) - (if (lit =? 0)%nat then 1 else 0) + 3 + 1)%nat
    then Ok None else
    out ← stop_run lit (c_out st);
    let out := undo_run lit out in
    len ← match_length (Z.to_nat ref) ip;
    let len := (len - 2)%nat in
    out ← put_ref (uwrap 64 (Z.of_nat ip - ref - 1)) len out;
    let out := start_run out in
    let ip := (ip + 1 + len + 1)%nat in
    if (length in_data - 2 <=? ip)%nat then Ok (Some (true, MkC ip out 0 hval tab)) else
    let ip := (ip - 2)%nat in
    hval ← FRST ip;
    hval ← NEXT hval ip;
    let tab := set_slot (IDX hval) (Z.of_nat ip) tab in
    let ip := S ip in
    hval ← NEXT hval ip;
    let tab := set_slot (IDX hval) (Z.of_nat ip) tab in
    Ok (Some (false, MkC (S ip) out 0 hval tab))
  else
    if (out_len <=? length (c_out st))%nat then Ok None else
    b ← rd ip;
    let lit := S lit in
    out ← push b (c_out st);
    if (lit =? MAX_LIT)%nat then
      out ← stop_run lit out;
      Ok (Some (false, MkC (S ip) (start_run out) 0 hval tab))
    else Ok (Some (false, MkC (S ip) out lit hval tab)).

Fixpoint compress_loop (fuel : nat) (st : cstate) : res (option cstate) :=
  if (c_ip st + 2 <? length in_data)%nat then
    match fuel with
    | O => Undef
    | S fuel =>
        o ← compress_step st;
        match o with
        | None => Ok None
        | Some (true, st) => Ok (Some st)
        | Some (false, st) => compress_loop fuel st
        end
    end
  else Ok (Some st).

(** The last bytes. *)

Fixpoint compress_tail (n ip lit : nat) (out : bytes) : res (nat * bytes) :=
  match n with
  | O => Ok (lit, out)
  | S n =>
      b ← rd ip;
      let lit := S lit in
      out ← push b out;
      if (lit =? MAX_LIT)%nat then
        out ← stop_run lit out;
        compress_tail n (S ip) 0 (start_run out)
      else compress_tail n (S ip) lit out
  end.

(** [None] for a result of 0. *)

Definition lzf_compress (htab : Z -> Z) : res (option bytes) :=
  if (length in_data =? 0)%nat || (out_len =? 0)%nat then Ok None else
  hval ← FRST 0;
  o ← compress_loop (length in_data) (MkC 0 (start_run []) 0 hval htab);
  match o with
  | None => Ok None
  | Some st =>
      if (out_len <? length (c_out st) + 3)%nat then Ok None else
      '(lit, out) ← compress_tail (length in_data - c_ip st) (c_ip st) (c_lit st) (c_out st);
      out ← stop_run lit out;
      Ok (Some (undo_run lit out))
  end.

End compress.

(** ** Decompression *)

(** Octet by octet, which for areas that do not overlap is [memcpy]. *)

Fixpoint copy_back (n ref : nat) (out : bytes) : bytes :=
  match n with
  | O => out
  | S n => copy_back n (S ref) (out ++ [out !!! ref])
  end.

Section decompress.

Context (out_len : nat).

(** One turn of the loop: [None] for a [return 0], or what is left of the input
    and the output. *)

Definition decompress_step (inp out : bytes) : res (option (bytes * bytes)) :=
  match inp with
  | [] => Undef
  | ctrl :: inp =>
      if ctrl <? Z.shiftl 1 5 then
        let n := Z.to_nat (ctrl + 1) in
        if (out_len <? length out + n)%nat then Ok None else
        if (length inp <? n)%nat then Ok None else
        Ok (Some (drop n inp, out ++ take n inp))
      else
        let len := Z.shiftr ctrl 5 in
        let ref := Z.of_nat (length out) - Z.shiftl (Z.land ctrl 0x1f) 8 - 1 in
        match inp with
        | [] => Ok None
        | b :: inp' =>
            let '(len, inp) := if len =? 7 then (len + b, inp') else (len, inp) in
            match inp with
            | [] => Ok None
            | lo :: inp =>
                let ref := ref - lo in
                if Z.of_nat out_len <? Z.of_nat (length out) + len + 2 then Ok None else
                if ref <? 0 then Ok None else
                Ok (Some (inp, copy_back (Z.to_nat (len + 2)) (Z.to_nat ref) out))
            end
        end
  end.

Fixpoint decompress_loop (fuel : nat) (inp out : bytes) : res (option bytes) :=
  match fuel with
  | O => Undef
  | S fuel =>
      o ← decompress_step inp out;
      match o with
      | None => Ok None
      | Some ([], out) => Ok (Some out)
      | Some (inp, out) => decompress_loop fuel inp out
      end
  end.

Definition lzf_decompress (inp : bytes) : res (option bytes) := decompress_loop (S (length inp)) inp [].

End decompress.

(** ** What the compressed bytes stand for *)

(** [decodes bs out out']: after [out], the tokens [bs] give [out']. *)

Inductive decodes : bytes -> bytes -> bytes -> Prop :=
| decodes_nil out : decodes [] out out
| decodes_lit n l bs out out' :
    (n < 32)%nat -> length l = S n -> decodes bs (out ++ l) out' -> decodes (Z.of_nat n :: l ++ bs) out out'
| decodes_short len hi lo ref bs out out' :
    (1 <= len < 7)%nat -> 0 <= hi < 32 -> 0 <= lo < 256 ->
    Z.of_nat ref = Z.of_nat (length out) - hi * 256 - lo - 1 ->
    decodes bs (copy_back (len + 2) ref out) out' ->
    decodes (hi + Z.of_nat len * 32 :: lo :: bs) out out'
| decodes_long len hi lo ref bs out out' :
    (7 <= len < 263)%nat -> 0 <= hi < 32 -> 0 <= lo < 256 ->
    Z.of_nat ref = Z.of_nat (length out) - hi * 256 - lo - 1 ->
    decodes bs (copy_back (len + 2) ref out) out' ->
    decodes (hi + 224 :: Z.of_nat len - 7 :: lo :: bs) out out'.

Lemma decodes_app a b x y z : decodes a x y -> decodes b y z -> decodes (a ++ b) x z.
Proof.
  induction 1; intros; simpl; try rewrite <- app_assoc; [done|econstructor; eauto|..].
  - eapply decodes_short; eauto.
  - eapply decodes_long; eauto.
Qed.

Lemma copy_back_length n ref out : length (copy_back n ref out) = (length out + n)%nat.
Proof.
  revert ref out. induction n as [|n IH]; intros ref out; simpl; [lia|]. rewrite IH, length_app. simpl. lia.
Qed.

Lemma decodes_length a x y : decodes a x y -> (length x <= length y)%nat.
Proof. induction 1 as [|????? ? ? ? IH|? ? ? ? ? ? ? ? ? ? ? ? IH|? ? ? ? ? ? ? ? ? ? ? ? IH]; [done|..];
  rewrite ?length_app, ?copy_back_length in IH; lia. Qed.

Lemma ref_ctrl hi len : 0 <= hi < 32 -> 0 <= len < 8 ->
  Z.shiftr (hi + len * 32) 5 = len /\ Z.shiftl (Z.land (hi + len * 32) 0x1f) 8 = hi * 256.
Proof.
  intros. split.
  - rewrite Z.shiftr_div_pow2 by lia. change (2 ^ 5) with 32. rewrite Z.div_add, Z.div_small by lia. lia.
  - change 0x1f with (Z.ones 5). rewrite Z.land_ones, Z.shiftl_mul_pow2 by lia. change (2 ^ 5) with 32.
    rewrite Z.mod_add, Z.mod_small by lia. lia.
Qed.

Lemma decompress_turn out_len fuel inp out bs mid out' :
  decompress_step out_len inp out = Ok (Some (bs, mid)) -> decodes bs mid out' ->
  (bs <> [] -> decompress_loop out_len fuel bs mid = Ok (Some out')) ->
  decompress_loop out_len (S fuel) inp out = Ok (Some out').
Proof.
  intros E Hd Hm. cbn [decompress_loop]. rewrite E. cbn [mbind res_bind].
  destruct bs; [inversion Hd; by subst|by apply Hm].
Qed.

(** The decompressor computes it, with enough room. *)

Lemma decompress_decodes out_len bs out out' :
  decodes bs out out' -> bs <> [] -> (length out' <= out_len)%nat ->
  forall fuel, (length bs <= fuel)%nat -> decompress_loop out_len fuel bs out = Ok (Some out').
Proof.
  intros Hd. induction Hd as [out|n l bs out out' Hn Hl Hd IH|len hi lo ref bs out out' Hlen Hhi Hlo Href Hd IH
                             |len hi lo ref bs out out' Hlen Hhi Hlo Href Hd IH]; intros Hne Hout fuel Hf; [done|..];
    (destruct fuel as [|fuel]; [simpl in Hf; lia|]); pose proof (decodes_length _ _ _ Hd) as Hle;
    rewrite ?length_app, ?copy_back_length in Hle; simpl in Hf;
    (eapply decompress_turn; [|exact Hd|intros; apply IH; [done|done|rewrite ?length_app in Hf; lia]]);
    unfold decompress_step; change (Z.shiftl 1 5) with 32.
  - destruct (Z.ltb_spec (Z.of_nat n) 32); [|lia]. replace (Z.to_nat (Z.of_nat n + 1)) with (length l) by lia.
    destruct (Nat.ltb_spec out_len (length out + length l)); [lia|].
    destruct (Nat.ltb_spec (length (l ++ bs)) (length l)); [rewrite length_app in *; lia|].
    by rewrite drop_app_length, take_app_length.
  - destruct (ref_ctrl hi (Z.of_nat len) Hhi ltac:(lia)) as [E1 E2].
    destruct (Z.ltb_spec (hi + Z.of_nat len * 32) 32); [lia|]. rewrite E1, E2.
    destruct (Z.eqb_spec (Z.of_nat len) 7); [lia|].
    destruct (Z.ltb_spec (Z.of_nat out_len) (Z.of_nat (length out) + Z.of_nat len + 2)); [lia|].
    replace (Z.of_nat (length out) - hi * 256 - 1 - lo) with (Z.of_nat ref) by lia.
    destruct (Z.ltb_spec (Z.of_nat ref) 0); [lia|]. rewrite Nat2Z.id.
    by replace (Z.to_nat (Z.of_nat len + 2)) with (len + 2)%nat by lia.
  - destruct (ref_ctrl hi 7 Hhi ltac:(lia)) as [E1 E2]. change 224 with (7 * 32).
    destruct (Z.ltb_spec (hi + 7 * 32) 32); [lia|]. rewrite E1, E2, Z.eqb_refl.
    replace (7 + (Z.of_nat len - 7)) with (Z.of_nat len) by lia.
    destruct (Z.ltb_spec (Z.of_nat out_len) (Z.of_nat (length out) + Z.of_nat len + 2)); [lia|].
    replace (Z.of_nat (length out) - hi * 256 - 1 - lo) with (Z.of_nat ref) by lia.
    destruct (Z.ltb_spec (Z.of_nat ref) 0); [lia|]. rewrite Nat2Z.id.
    by replace (Z.to_nat (Z.of_nat len + 2)) with (len + 2)%nat by lia.
Qed.

(** ** The compressor *)

Section compressed.

Context (in_data : bytes) (out_len : nat) (Hok : bytes_ok in_data).

Lemma rd_ok i : (i < length in_data)%nat -> exists b, rd in_data i = Ok b /\ in_data !! i = Some b /\ 0 <= b < 256.
Proof.
  intros Hi. destruct (lookup_lt_is_Some_2 in_data i Hi) as [b Eb]. exists b. unfold rd. rewrite Eb.
  split; [done|]. split; [done|]. by apply (Forall_lookup_1 _ _ _ _ Hok Eb).
Qed.

Lemma same_at_ok ref ip len :
  (ref + len < length in_data)%nat -> (ip + len < length in_data)%nat ->
  same_at in_data ref ip len = Ok (bool_decide (in_data !! (ref + len)%nat = in_data !! (ip + len)%nat)).
Proof.
  intros H1 H2. unfold same_at. destruct (rd_ok _ H1) as (a & -> & -> & _), (rd_ok _ H2) as (b & -> & -> & _).
  cbn [mbind res_bind]. f_equal. destruct (Z.eqb_spec a b) as [-> |]; [by rewrite bool_decide_true|].
  rewrite bool_decide_false; [done|]. congruence.
Qed.

(** The first [len] octets at [ref] and at [ip] are the same. *)

Definition agree (ref ip len : nat) : Prop :=
  forall i, (i < len)%nat -> in_data !! (ref + i)%nat = in_data !! (ip + i)%nat.

Lemma agree_S ref ip len :
  agree ref ip len -> in_data !! (ref + len)%nat = in_data !! (ip + len)%nat -> agree ref ip (S len).
Proof. intros Ha He i Hi. destruct (decide (i = len)) as [-> |]; [done|]. apply Ha. lia. Qed.

Lemma unrolled_ok n ref ip : forall len,
  (ref < ip)%nat -> (ip + len + n < length in_data)%nat -> agree ref ip (S len) ->
  exists broke len', unrolled in_data n ref ip len = Ok (broke, len') /\ (len <= len' <= len + n)%nat /\
    (if broke : bool then (len < len')%nat /\ agree ref ip len' else agree ref ip (S len') /\ len' = (len + n)%nat).
Proof.
  induction n as [|n IH]; intros len Hr Hb Ha; [exists false, len; simpl; split; [done|split; [lia|split; [done|lia]]]|].
  cbn [unrolled]. rewrite same_at_ok by lia. cbn [mbind res_bind].
  destruct (bool_decide_reflect (in_data !! (ref + S len)%nat = in_data !! (ip + S len)%nat)) as [E|].
  - destruct (IH (S len) Hr ltac:(lia) (agree_S _ _ _ Ha E)) as (broke & len' & -> & Hl & HX).
    exists broke, len'. split; [done|]. split; [lia|]. destruct broke; [split; [lia|apply HX]|]. destruct HX. split; [done|lia].
  - exists true, (S len). split; [done|]. split; [lia|]. split; [lia|done].
Qed.

Lemma extend_spec ref ip maxlen fuel : forall len,
  (ref < ip)%nat -> (ip + maxlen <= length in_data)%nat -> (maxlen <= len + fuel)%nat -> (0 < fuel)%nat -> agree ref ip (S len) ->
  exists len', extend in_data fuel ref ip len maxlen = Ok len' /\ (len < len')%nat /\
    (len' <= maxlen \/ len' = S len)%nat /\ agree ref ip len'.
Proof.
  induction fuel as [|fuel IH]; intros len Hr Hb Hf Hf0 Ha; [lia|]. cbn [extend].
  destruct (Nat.ltb_spec (S len) maxlen); [|exists (S len); split; [done|]; split; [lia|]; by split; [right|]].
  rewrite same_at_ok by lia. cbn [mbind res_bind].
  destruct (bool_decide_reflect (in_data !! (ref + S len)%nat = in_data !! (ip + S len)%nat)) as [E|].
  - destruct (IH (S len) Hr Hb ltac:(lia) ltac:(lia) (agree_S _ _ _ Ha E)) as (len' & -> & Hl & HX & Ha').
    exists len'. split; [done|]. split; [lia|]. split; [lia|done].
  - exists (S len). split; [done|]. split; [lia|]. by split; [right|].
Qed.

(** The length found is at least 3, fits in the input and in the format, and the
    octets agree. *)

Lemma match_length_ok ref ip :
  (ref < ip)%nat -> (ip + 2 < length in_data)%nat -> agree ref ip 3 ->
  exists len, match_length in_data ref ip = Ok len /\ (3 <= len <= MAX_REF)%nat /\
    (ip + len <= length in_data)%nat /\ agree ref ip len.
Proof.
  intros Hr Hb Ha. unfold match_length.
  set (maxlen := if (MAX_REF <? length in_data - ip - 2)%nat then MAX_REF else (length in_data - ip - 2)%nat).
  assert (maxlen <= MAX_REF /\ ip + maxlen + 2 <= length in_data)%nat as [Hm1 Hm2].
  { unfold maxlen. destruct (Nat.ltb_spec MAX_REF (length in_data - ip - 2)); lia. }
  unfold MAX_REF in *. destruct (Nat.ltb_spec 16 maxlen).
  - destruct (unrolled_ok 16 ref ip 2 Hr ltac:(lia) Ha) as (broke & len & -> & Hl & HX). cbn [mbind res_bind].
    destruct broke; [exists len; split; [done|]; destruct HX; split; [lia|]; split; [lia|done]|].
    destruct HX as [HX ->].
    destruct (extend_spec ref ip maxlen (S maxlen) (2 + 16) Hr ltac:(lia) ltac:(lia) ltac:(lia) HX) as (len' & -> & H1 & H2 & H3).
    exists len'. split; [done|]. split; [lia|]. split; [lia|done].
  - destruct (extend_spec ref ip maxlen (S maxlen) 2 Hr ltac:(lia) ltac:(lia) ltac:(lia) Ha) as (len' & -> & H1 & H2 & H3).
    exists len'. split; [done|]. split; [lia|]. split; [lia|done].
Qed.

(** A reference that is taken lies before [ip], near enough, and agrees. *)

Lemma matches_ok ref ip :
  (ip + 2 < length in_data)%nat -> Z.of_nat ip < 2 ^ 32 -> 0 <= ref < 2 ^ 32 ->
  exists hit, matches in_data ref ip = Ok hit /\
    (hit = true -> 0 < ref < Z.of_nat ip /\ uwrap 64 (Z.of_nat ip - ref - 1) = Z.of_nat ip - ref - 1 /\
                   Z.of_nat ip - ref - 1 < 8192 /\ agree (Z.to_nat ref) ip 3).
Proof.
  intros Hb Hip Hr. unfold matches. change MAX_OFF with 8192.
  destruct (Z.ltb_spec (uwrap 64 (Z.of_nat ip - ref - 1)) 8192) as [Ho|]; [|by exists false]. cbn [negb].
  destruct (Z.gtb_spec ref 0); [|by exists false]. cbn [negb].
  assert (ref < Z.of_nat ip) as Hlt.
  { destruct (Z.lt_ge_cases ref (Z.of_nat ip)); [done|]. exfalso. unfold uwrap in Ho.
    replace (Z.of_nat ip - ref - 1) with ((Z.of_nat ip - ref - 1 + 2 ^ 64) + (-1) * 2 ^ 64) in Ho by lia.
    rewrite Z.mod_add, Z.mod_small in Ho by lia. lia. }
  rewrite uwrap_id in Ho by lia. rewrite uwrap_id by lia.
  rewrite !same_at_ok by lia. cbn [mbind res_bind].
  destruct (bool_decide_reflect (in_data !! (Z.to_nat ref + 2)%nat = in_data !! (ip + 2)%nat)) as [E2|]; [|by exists false].
  cbn [negb]. eexists. split; [reflexivity|]. intros [E0%bool_decide_eq_true E1%bool_decide_eq_true]%andb_true_iff.
  do 3 (split; [lia|]). intros i Hi. destruct i as [|[|[|]]]; [done|done|done|lia].
Qed.

Lemma copy_back_take n : forall ref ip,
  (ref < ip)%nat -> (ip + n <= length in_data)%nat -> agree ref ip n ->
  copy_back n ref (take ip in_data) = take (ip + n) in_data.
Proof.
  induction n as [|n IH]; intros ref ip Hr Hb Ha; [by rewrite Nat.add_0_r|]. cbn [copy_back].
  assert (take ip in_data ++ [take ip in_data !!! ref] = take (S ip) in_data) as ->.
  { destruct (lookup_lt_is_Some_2 in_data ip ltac:(lia)) as [b Eb]. rewrite (take_S_r _ _ b) by done. do 2 f_equal.
    apply list_lookup_total_correct. rewrite lookup_take_lt by done.
    specialize (Ha 0%nat ltac:(lia)). rewrite !Nat.add_0_r in Ha. congruence. }
  rewrite IH; [by rewrite Nat.add_succ_r|lia|lia|].
  intros i Hi. specialize (Ha (S i) ltac:(lia)). rewrite !Nat.add_succ_r in Ha. done.
Qed.

(** What the output is worth: the tokens before the current run stand for the
    input before its literals. *)

Definition run_ok (ip lit : nat) (out : bytes) : Prop :=
  exists bs ph, out = bs ++ [ph] ++ take lit (drop (ip - lit) in_data) /\
    decodes bs [] (take (ip - lit) in_data) /\ (lit <= ip <= length in_data)%nat /\ bytes_ok bs.

Lemma run_length ip lit out :
  run_ok ip lit out -> exists n, length out = (n + 1 + lit)%nat.
Proof.
  intros (bs & ph & -> & _ & Hl & _). exists (length bs). rewrite !length_app, length_take, length_drop. simpl. lia.
Qed.

Lemma take_run ip lit : (lit <= ip <= length in_data)%nat ->
  take (ip - lit) in_data ++ take lit (drop (ip - lit) in_data) = take ip in_data.
Proof. intros. replace ip with ((ip - lit) + lit)%nat at 3 by lia. by rewrite take_take_drop. Qed.

Lemma start_run_ok ip bs :
  decodes bs [] (take ip in_data) -> (ip <= length in_data)%nat -> bytes_ok bs -> run_ok ip 0 (start_run bs).
Proof.
  intros Hd Hi Hb. exists bs, 0. unfold start_run. rewrite Nat.sub_0_r. simpl. split; [done|]. split; [done|]. split; [lia|done].
Qed.

Lemma stop_run_ok ip lit out :
  run_ok ip lit out -> (lit <= 32)%nat -> (length out - lit - 1 < out_len)%nat ->
  exists out', stop_run out_len lit out = Ok out' /\
    decodes (undo_run lit out') [] (take ip in_data) /\ bytes_ok (undo_run lit out') /\
    length out' = length out /\
    length (undo_run lit out') = (length out - (if (lit =? 0)%nat then 1 else 0))%nat.
Proof.
  intros (bs & ph & -> & Hd & Hl & Hb) H32 Hlen.
  set (l := take lit (drop (ip - lit) in_data)) in *.
  assert (length l = lit) as Ll by (unfold l; rewrite length_take, length_drop; lia).
  assert (length (bs ++ [ph] ++ l) = length bs + 1 + lit)%nat as Lo by (rewrite !length_app; simpl; lia).
  unfold stop_run. rewrite Lo in *. destruct (Nat.ltb_spec (length bs + 1 + lit) (lit + 1)); [lia|].
  replace (length bs + 1 + lit - lit - 1)%nat with (length bs) in * by lia.
  destruct (Nat.ltb_spec (length bs) out_len); [|lia]. eexists. split; [reflexivity|].
  assert (forall v, <[length bs := v]> (bs ++ [ph] ++ l) = bs ++ v :: l) as Ei.
  { intros v. rewrite <- (Nat.add_0_r (length bs)), insert_app_r. done. }
  rewrite length_insert, Lo, Ei. unfold undo_run. destruct (Nat.eqb_spec lit 0) as [-> |Hz].
  - rewrite length_app. cbn [length]. destruct l; [|done]. cbn [length].
    replace (length bs + 1 - 1)%nat with (length bs) by lia. rewrite take_app_length.
    replace (ip - 0)%nat with ip in Hd by lia. do 3 (split; [done|]). lia.
  - rewrite uwrap_id by lia. split; [|split; [|split; [done|rewrite length_app; simpl; lia]]].
    + eapply decodes_app; [exact Hd|]. replace (Z.of_nat lit - 1) with (Z.of_nat (lit - 1)) by lia.
      replace l with (l ++ []) by apply app_nil_r. apply decodes_lit; [lia|lia|].
      unfold l. rewrite take_run by lia. constructor.
    + apply bytes_ok_app; [done|]. constructor; [lia|]. unfold l. by apply Forall_take, Forall_drop.
Qed.

(** One more literal. *)

Lemma push_lit_ok ip lit out b :
  run_ok ip lit out -> (length out < out_len)%nat -> in_data !! ip = Some b ->
  exists out', push out_len b out = Ok out' /\ run_ok (S ip) (S lit) out' /\ length out' = S (length out).
Proof.
  intros (bs & ph & -> & Hd & Hl & Hb) Hlen Eb. unfold push.
  rewrite (proj2 (Nat.ltb_lt _ _) Hlen). eexists. split; [reflexivity|]. rewrite length_app. split; [|simpl; lia].
  assert (0 <= b < 256) as Hbb by apply (Forall_lookup_1 _ _ _ _ Hok Eb). rewrite uwrap_id by (change (2 ^ 8) with 256; lia).
  exists bs, ph. replace (S ip - S lit)%nat with (ip - lit)%nat by lia.
  split; [|split; [done|split; [apply lookup_lt_Some in Eb; lia|done]]].
  rewrite (take_S_r _ _ b), <- !app_assoc; [done|]. rewrite lookup_drop. by replace (ip - lit + lit)%nat with ip by lia.
Qed.

Lemma push_ok b out : (length out < out_len)%nat -> push out_len b out = Ok (out ++ [uwrap 8 b]).
Proof. intros Hl. unfold push. by rewrite (proj2 (Nat.ltb_lt _ _) Hl). Qed.

Lemma put_ref_ok off len out :
  0 <= off < 8192 -> (1 <= len < 263)%nat -> (length out + 3 <= out_len)%nat ->
  exists tok, put_ref out_len off len out = Ok (out ++ tok) /\ bytes_ok tok /\ (length tok <= 3)%nat /\
    forall ref mid, Z.of_nat ref = Z.of_nat (length mid) - off - 1 -> decodes tok mid (copy_back (len + 2) ref mid).
Proof.
  intros Ho Hlen Hl. unfold put_ref. rewrite Z.shiftr_div_pow2 by lia. change (2 ^ 8) with 256.
  change (Z.shiftl 7 5) with 224. rewrite Z.shiftl_mul_pow2 by lia. change (2 ^ 5) with 32.
  assert (uwrap 8 off = off mod 256) as Elo by done. pose proof (Z.div_mod off 256 ltac:(lia)) as Ediv.
  pose proof (Z.mod_pos_bound off 256 ltac:(lia)). assert (0 <= off / 256 < 32) by (split; [apply Z.div_pos; lia|apply Z.div_lt_upper_bound; lia]).
  set (hi := off / 256) in *. set (lo := off mod 256) in *.
  assert (forall x, 0 <= x < 256 -> uwrap 8 x = x) as Hu by (intros; apply uwrap_id; change (2 ^ 8) with 256; lia).
  destruct (Nat.ltb_spec len 7).
  - rewrite push_ok by lia. cbn [mbind res_bind]. rewrite push_ok by (rewrite length_app; simpl; lia).
    rewrite Elo, Hu, <- app_assoc by lia. eexists. split; [reflexivity|]. split; [repeat constructor; lia|]. split; [simpl; lia|].
    intros ref mid Hr. apply (decodes_short len hi lo ref); [lia|lia|lia|lia|constructor].
  - rewrite push_ok by lia. cbn [mbind res_bind]. rewrite push_ok by (rewrite length_app; simpl; lia).
    cbn [mbind res_bind]. rewrite push_ok by (rewrite !length_app; simpl; lia).
    rewrite Elo, !Hu, <- !app_assoc by lia. eexists. split; [reflexivity|]. split; [repeat constructor; lia|]. split; [simpl; lia|].
    intros ref mid Hr. apply (decodes_long len hi lo ref); [lia|lia|lia|lia|constructor].
Qed.

Context (Hmin : (2 <= length in_data)%nat) (Hmax : Z.of_nat (length in_data) < 2 ^ 32).

Lemma NEXT_ok v p : (p + 2 < length in_data)%nat -> exists h, NEXT in_data v p = Ok h.
Proof. intros Hp. unfold NEXT. destruct (rd_ok _ Hp) as (b & -> & _). by eexists. Qed.

Lemma FRST_ok p : (p + 1 < length in_data)%nat -> exists h, FRST in_data p = Ok h.
Proof.
  intros Hp. unfold FRST. destruct (rd_ok p ltac:(lia)) as (a & -> & _), (rd_ok _ Hp) as (b & -> & _). by eexists.
Qed.

Definition st_ok (st : cstate) : Prop := run_ok (c_ip st) (c_lit st) (c_out st) /\ (c_lit st < 32)%nat.

Definition step_ok (st : cstate) (r : res (option (bool * cstate))) : Prop :=
  exists o, r = Ok o /\
  forall brk st', o = Some (brk, st') -> st_ok st' /\ (c_ip st < c_ip st')%nat /\
    (brk = true -> length in_data <= c_ip st' + 2)%nat.

Lemma literal_step st hval tab :
  st_ok st -> (c_ip st + 2 < length in_data)%nat ->
  step_ok st (if (out_len <=? length (c_out st))%nat then Ok None else
    b ← rd in_data (c_ip st);
    let lit := S (c_lit st) in
    out ← push out_len b (c_out st);
    if (lit =? MAX_LIT)%nat then
      out ← stop_run out_len lit out;
      Ok (Some (false, MkC (S (c_ip st)) (start_run out) 0 hval tab))
    else Ok (Some (false, MkC (S (c_ip st)) out lit hval tab))).
Proof.
  intros [Hr Hl] Hip. destruct (Nat.leb_spec out_len (length (c_out st))); [by exists None|].
  destruct (rd_ok (c_ip st) ltac:(lia)) as (b & -> & Eb & _). cbn [mbind res_bind].
  destruct (push_lit_ok _ _ _ b Hr ltac:(done) Eb) as (out & -> & Hr' & Lo). cbn [mbind res_bind].
  unfold MAX_LIT. destruct (Nat.eqb_spec (S (c_lit st)) 32) as [E|].
  - destruct (stop_run_ok _ _ _ Hr' ltac:(lia) ltac:(lia)) as (out2 & -> & Hd & Hb & _). cbn [mbind res_bind].
    eexists. split; [reflexivity|]. intros brk st' [= <- <-]. split; [|simpl; split; [lia|done]].
    split; [|simpl; lia]. rewrite E in Hd, Hb. simpl. apply start_run_ok; [done|lia|done].
  - eexists. split; [reflexivity|]. intros brk st' [= <- <-]. split; [|simpl; split; [lia|done]].
    split; [done|]. simpl. lia.
Qed.

Lemma compress_step_ok st :
  st_ok st -> (c_ip st + 2 < length in_data)%nat -> step_ok st (compress_step in_data out_len st).
Proof.
  intros Hst Hip. pose proof Hst as [Hr Hl]. unfold compress_step.
  destruct (NEXT_ok (c_hval st) _ Hip) as [hval ->]. cbn [mbind res_bind].
  set (ref := uwrap 32 (c_tab st (IDX hval))).
  destruct (matches_ok ref (c_ip st) Hip ltac:(lia) ltac:(apply uwrap_range; lia)) as (hit & -> & Hhit). cbn [mbind res_bind].
  destruct hit; [|by apply literal_step]. destruct (Hhit eq_refl) as (Href & Eoff & Hoff & Ha). rewrite Eoff.
  set (u := if (c_lit st =? 0)%nat then 1%nat else 0%nat).
  assert (u <= 1)%nat by (unfold u; destruct (_ =? _)%nat; lia).
  destruct ((out_len <=? _)%nat && _) eqn:Ec; [by exists None|].
  assert (length (c_out st) - u + 4 < out_len)%nat as Hroom by (apply andb_false_iff in Ec; rewrite !Nat.leb_gt in Ec; lia).
  destruct (run_length _ _ _ Hr) as [n Ln].
  destruct (stop_run_ok _ _ _ Hr ltac:(lia) ltac:(lia)) as (out & -> & Hd & Hb & _ & Lu). cbn [mbind res_bind].
  destruct (match_length_ok (Z.to_nat ref) (c_ip st) ltac:(lia) Hip Ha) as (len & -> & Hlen & Hfit & Hag). cbn [mbind res_bind].
  fold u in Lu. unfold MAX_REF in Hlen.
  destruct (put_ref_ok (Z.of_nat (c_ip st) - ref - 1) (len - 2) (undo_run (c_lit st) out) ltac:(lia) ltac:(lia) ltac:(lia))
    as (tok & -> & Htok & _ & Hdec). cbn [mbind res_bind].
  assert (run_ok (c_ip st + len) 0 (start_run (undo_run (c_lit st) out ++ tok))) as Hrun.
  { apply start_run_ok; [|lia|by apply bytes_ok_app]. eapply decodes_app; [exact Hd|].
    rewrite <- (copy_back_take len (Z.to_nat ref)) by (done || lia).
    replace (len - 2 + 2)%nat with len in Hdec by lia. apply Hdec. rewrite length_take. lia. }
  replace (c_ip st + 1 + (len - 2) + 1)%nat with (c_ip st + len)%nat by lia.
  destruct (Nat.leb_spec (length in_data - 2) (c_ip st + len)).
  { eexists. split; [reflexivity|]. intros brk st' [= <- <-]. split; [split; [exact Hrun|simpl; lia]|]. simpl. split; lia. }
  destruct (FRST_ok (c_ip st + len - 2) ltac:(lia)) as [h1 ->]. cbn [mbind res_bind].
  destruct (NEXT_ok h1 (c_ip st + len - 2) ltac:(lia)) as [h2 ->]. cbn [mbind res_bind].
  destruct (NEXT_ok h2 (S (c_ip st + len - 2)) ltac:(lia)) as [h3 ->]. cbn [mbind res_bind].
  eexists. split; [reflexivity|]. intros brk st' [= <- <-].
  replace (S (S (c_ip st + len - 2))) with (c_ip st + len)%nat by lia.
  split; [split; [exact Hrun|simpl; lia]|]. simpl. split; [lia|done].
Qed.

Lemma compress_loop_ok fuel : forall st,
  st_ok st -> (length in_data <= c_ip st + fuel)%nat ->
  exists o, compress_loop in_data out_len fuel st = Ok o /\
    forall st', o = Some st' -> st_ok st' /\ (length in_data <= c_ip st' + 2)%nat.
Proof.
  induction fuel as [|fuel IH]; intros st Hst Hf; cbn [compress_loop];
    (destruct (Nat.ltb_spec (c_ip st + 2) (length in_data));
     [|exists (Some st); split; [done|]; intros st' [= <-]; split; [done|lia]]); [lia|].
  destruct (compress_step_ok st Hst ltac:(lia)) as (o & -> & Ho). cbn [mbind res_bind].
  destruct o as [[brk st']|]; [|by exists None]. destruct (Ho brk st' eq_refl) as (H1 & H2 & H3).
  destruct brk; [exists (Some st'); split; [done|]; intros st2 [= <-]; split; [done|by apply H3]|].
  apply IH; [done|lia].
Qed.

Lemma compress_tail_ok n : forall ip lit out,
  run_ok ip lit out -> (lit < 32)%nat -> (ip + n = length in_data)%nat -> (n <= 2)%nat ->
  (length out + n + (if (32 <=? lit + n)%nat then 1 else 0) <= out_len)%nat ->
  exists lit' out', compress_tail in_data out_len n ip lit out = Ok (lit', out') /\
    run_ok (length in_data) lit' out' /\ (lit' < 32)%nat /\ (length out' <= out_len)%nat.
Proof.
  induction n as [|n IH]; intros ip lit out Hr Hl Hn Hn2 Hroom; cbn [compress_tail].
  { exists lit, out. rewrite <- Hn, Nat.add_0_r. split; [done|]. split; [done|]. split; [done|lia]. }
  assert (length out + S n <= out_len)%nat by lia.
  destruct (rd_ok ip ltac:(lia)) as (b & -> & Eb & _). cbn [mbind res_bind].
  destruct (push_lit_ok _ _ _ b Hr ltac:(lia) Eb) as (out2 & -> & Hr' & Lo). cbn [mbind res_bind].
  unfold MAX_LIT. destruct (Nat.eqb_spec (S lit) 32) as [E|].
  - destruct (stop_run_ok _ _ _ Hr' ltac:(lia) ltac:(lia)) as (out3 & -> & Hd & Hb & L3 & _). cbn [mbind res_bind].
    rewrite E in Hd, Hb. apply IH; [apply start_run_ok; [done|lia|done]|lia|lia|lia|].
    unfold start_run. rewrite length_app. cbn [length].
    destruct (Nat.leb_spec 32 (lit + S n)), (Nat.leb_spec 32 (0 + n)); lia.
  - apply IH; [done|lia|lia|lia|]. destruct (Nat.leb_spec 32 (lit + S n)), (Nat.leb_spec 32 (S lit + n)); lia.
Qed.

Lemma lzf_compress_ok htab :
  exists o, lzf_compress in_data out_len htab = Ok o /\
    forall c, o = Some c -> decodes c [] in_data /\ bytes_ok c /\ (length c <= out_len)%nat.
Proof.
  unfold lzf_compress. destruct (Nat.eqb_spec (length in_data) 0); [lia|]. cbn [orb].
  destruct (Nat.eqb_spec out_len 0); [by exists None|].
  destruct (FRST_ok 0 ltac:(lia)) as [hval ->]. cbn [mbind res_bind].
  destruct (compress_loop_ok (length in_data) (MkC 0 (start_run []) 0 hval htab)) as (o & -> & Ho).
  { split; [|simpl; lia]. apply (start_run_ok 0 []); [constructor|lia|constructor]. }
  { simpl. lia. }
  cbn [mbind res_bind]. destruct o as [st|]; [|by exists None]. destruct (Ho st eq_refl) as [[Hr Hl] He].
  destruct (Nat.ltb_spec out_len (length (c_out st) + 3)); [by exists None|].
  assert (c_ip st <= length in_data)%nat as Hip by (destruct Hr as (? & ? & _ & _ & ? & _); lia).
  destruct (compress_tail_ok (length in_data - c_ip st) (c_ip st) (c_lit st) (c_out st) Hr Hl) as (lit & out & -> & Hr' & Hl' & Lo);
    [lia|lia|destruct (Nat.leb_spec 32 (c_lit st + (length in_data - c_ip st))); lia|]. cbn [mbind res_bind].
  destruct (run_length _ _ _ Hr') as [n' Ln].
  destruct (stop_run_ok _ _ _ Hr' ltac:(lia) ltac:(lia)) as (out2 & -> & Hd & Hb & _ & Lu). cbn [mbind res_bind].
  eexists. split; [reflexivity|]. intros c [= <-]. rewrite firstn_all in Hd. split; [done|]. split; [done|]. lia.
Qed.

End compressed.

(** Compression is undone by decompression. *)

Lemma lzf_inverse (in_data : bytes) (out_len room : nat) (htab : Z -> Z) :
  bytes_ok in_data -> (2 <= length in_data)%nat -> Z.of_nat (length in_data) < 2 ^ 32 -> (length in_data <= room)%nat ->
  exists o, lzf_compress in_data out_len htab = Ok o /\
    forall c, o = Some c -> bytes_ok c /\ (length c <= out_len)%nat /\ lzf_decompress room c = Ok (Some in_data).
Proof.
  intros Hok Hmin Hmax Hroom.
  destruct (lzf_compress_ok in_data out_len Hok Hmin Hmax htab) as (o & -> & Ho). exists o. split; [done|].
  intros c Hc. destruct (Ho c Hc) as (Hd & Hb & Hl). split; [done|]. split; [done|].
  unfold lzf_decompress. apply decompress_decodes; [done| |done|lia].
  intros ->. inversion Hd. subst. simpl in Hmin. lia.
Qed.

(** ** Claims *)

(** C33: LZF.  For any input of two bytes or more (and less than 4 GB), any size
    of the output buffer and whatever the uninitialised hash table holds,
    [lzf_compress] ends without reading or writing outside its buffers; if it
    gives a result, the result fits the buffer, and [lzf_decompress] turns it
    back into the input when it is given at least the room of the input. *)
Theorem lzf_roundtrip (in_data : bytes) (out_len room : nat) (htab : Z -> Z)
    (Hok : bytes_ok in_data) (Hmin : (2 <= length in_data)%nat) (Hmax : Z.of_nat (length in_data) < 2 ^ 32)
    (Hroom : (length in_data <= room)%nat) :
  exists o, lzf_compress in_data out_len htab = Ok o /\
    forall c, o = Some c -> bytes_ok c /\ (length c <= out_len)%nat /\ lzf_decompress room c = Ok (Some in_data).
Proof. by apply lzf_inverse. Qed.

Lemma lzf_roundtrip_witness :
  exists c, lzf_compress (replicate 40 97) 36 (fun _ => 7) = Ok (Some c) /\ (length c < 10)%nat /\
    lzf_decompress 40 c = Ok (Some (replicate 40 97)).
Proof.
  destruct (lzf_roundtrip (replicate 40 97) 36 40 (fun _ => 7)) as (o & E & Ho); [decide_now|simpl; lia|reflexivity|simpl; lia|].
  assert (exists c, lzf_compress (replicate 40 97) 36 (fun _ => 7) = Ok (Some c) /\ (length c < 10)%nat) as (c & Ec & Hc).
  { eexists. split; [vm_compute; reflexivity|simpl; lia]. }
  exists c. split; [done|]. split; [done|]. apply (Ho c). congruence.
Defined.
