(* ===== verification/Rdb.v ===== *)
(** * Numbers and strings in RDB files ([src/src/rdb.c], [src/src/rdb.h])

    Lengths in one to nine bytes, strings as they are, as small integers or
    compressed, and the reading of all of them. *)

From S2P Require Import Prelude Util Sds Resp Rio Crc Lzf.

Definition RDB_6BITLEN : Z := 0.
Definition RDB_14BITLEN : Z := 1.
Definition RDB_32BITLEN : Z := 0x80.
Definition RDB_64BITLEN : Z := 0x81.
Definition RDB_ENCVAL : Z := 3.
Definition RDB_LENERR : Z := 2 ^ 64 - 1.
Definition RDB_ENC_INT8 : Z := 0.
Definition RDB_ENC_INT16 : Z := 1.
Definition RDB_ENC_INT32 : Z := 2.
Definition RDB_ENC_LZF : Z := 3.

(** ** Types and times *)

Definition rdbSaveType (type : Z) : saver := save_raw [type].

Definition rdbLoadType : loader Z :=
  b <-- load_raw 1 ;; match b with type :: _ => load_ret type | [] => load_fail end.

Definition rdbSaveMillisecondTime (t : Z) : saver := save_raw (le_split 8 (uwrap 64 t)).

Definition rdbLoadMillisecondTime : loader Z := b <-- load_raw 8 ;; load_ret (swrap 64 (le_word b)).

(** ** Lengths *)

(** [htonl] and [htonu64]: the most significant byte first. *)

Definition be_split (n : nat) (w : Z) : bytes := rev (le_split n w).

Definition be_word (b : bytes) : Z := le_word (rev b).

Definition rdbSaveLen (len : Z) : saver :=
  if len <? Z.shiftl 1 6 then save_raw [Z.lor (Z.land len 0xff) (Z.shiftl RDB_6BITLEN 6)]
  else if len <? Z.shiftl 1 14 then
    save_raw [Z.lor (Z.land (Z.shiftr len 8) 0xff) (Z.shiftl RDB_14BITLEN 6); Z.land len 0xff]
  else if len <=? 2 ^ 32 - 1 then save_raw [RDB_32BITLEN] ;+ save_raw (be_split 4 len)
  else save_raw [RDB_64BITLEN] ;+ save_raw (be_split 8 len).

(** The number, and whether it names an encoding. *)

Definition rdbLoadLenByRef : loader (bool * Z) :=
  b <-- load_raw 1 ;;
  match b with
  | [] => load_fail
  | b0 :: _ =>
      let type := Z.shiftr (Z.land b0 0xc0) 6 in
      if type =? RDB_ENCVAL then load_ret (true, Z.land b0 0x3f)
      else if type =? RDB_6BITLEN then load_ret (false, Z.land b0 0x3f)
      else if type =? RDB_14BITLEN then
        c <-- load_raw 1 ;;
        match c with
        | [] => load_fail
        | b1 :: _ => load_ret (false, Z.lor (Z.shiftl (Z.land b0 0x3f) 8) b1)
        end
      else if b0 =? RDB_32BITLEN then c <-- load_raw 4 ;; load_ret (false, be_word c)
      else if b0 =? RDB_64BITLEN then c <-- load_raw 8 ;; load_ret (false, be_word c)
      else load_exit
  end.

(** [rdbLoadLen(rdb, NULL)] followed by the comparison with [RDB_LENERR]: an
    encoding is taken for a length. *)

Definition rdbLoadLen : loader Z :=
  p <-- rdbLoadLenByRef ;; if snd p =? RDB_LENERR then load_fail else load_ret (snd p).

(** ** Integers *)

(** [None] is a result of 0: the value does not fit. *)

Definition rdbEncodeInteger (value : Z) : option bytes :=
  if (value >=? - Z.shiftl 1 7) && (value <=? Z.shiftl 1 7 - 1) then
    Some [Z.lor (Z.shiftl RDB_ENCVAL 6) RDB_ENC_INT8; Z.land value 0xff]
  else if (value >=? - Z.shiftl 1 15) && (value <=? Z.shiftl 1 15 - 1) then
    Some [Z.lor (Z.shiftl RDB_ENCVAL 6) RDB_ENC_INT16; Z.land value 0xff; Z.land (Z.shiftr value 8) 0xff]
  else if (value >=? - Z.shiftl 1 31) && (value <=? Z.shiftl 1 31 - 1) then
    Some [Z.lor (Z.shiftl RDB_ENCVAL 6) RDB_ENC_INT32; Z.land value 0xff; Z.land (Z.shiftr value 8) 0xff;
          Z.land (Z.shiftr value 16) 0xff; Z.land (Z.shiftr value 24) 0xff]
  else None.

(** The flags only choose how the text of the number is held. *)

Definition rdbLoadIntegerObject (enctype : Z) : loader bytes :=
  let text val := load_ret (let '(buf, n) := ll2string (replicate 21 0) val in take (Z.to_nat n) buf) in
  if enctype =? RDB_ENC_INT8 then
    enc <-- load_raw 1 ;; text (to_char (enc !!! 0%nat))
  else if enctype =? RDB_ENC_INT16 then
    enc <-- load_raw 2 ;; text (swrap 16 (Z.lor (enc !!! 0%nat) (Z.shiftl (enc !!! 1%nat) 8)))
  else if enctype =? RDB_ENC_INT32 then
    enc <-- load_raw 4 ;;
    text (swrap 32 (Z.lor (Z.lor (Z.lor (enc !!! 0%nat) (Z.shiftl (enc !!! 1%nat) 8)) (Z.shiftl (enc !!! 2%nat) 16))
                      (Z.shiftl (enc !!! 3%nat) 24)))
  else load_exit.

Definition rdbTryIntegerEncoding (s : bytes) : option bytes :=
  let value := strtoll s in
  if match strtoll_end s with c :: _ => negb (c =? 0) | [] => false end then None else
  if bool_decide (cstr (fst (ll2string (replicate 32 0) value)) = s) then rdbEncodeInteger value else None.

(** ** Strings *)

Section strings.

(** [compression] is [rdb_compression], [htab] what the memory of the hash table
    of the compressor holds. *)

Context (compression : bool) (htab : Z -> Z).

Definition rdbSaveLzfBlob (data : bytes) (original_len : Z) : saver :=
  save_raw [Z.lor (Z.shiftl RDB_ENCVAL 6) RDB_ENC_LZF] ;+
  rdbSaveLen (Z.of_nat (length data)) ;+
  rdbSaveLen original_len ;+
  save_raw data.

(** [None]: nothing is saved, the string cannot be compressed.  The lengths are
    passed to the compressor as [unsigned int]s. *)

Definition rdbSaveLzfStringObject (s : bytes) : res (option saver) :=
  let len := Z.of_nat (length s) in
  if len <=? 4 then Ok None else
  o ← lzf_compress (take (Z.to_nat (uwrap 32 len)) s) (Z.to_nat (uwrap 32 (len - 4))) htab;
  match o with
  | None => Ok None
  | Some out => Ok (Some (rdbSaveLzfBlob out len))
  end.

Definition rdbSaveRawString (s : bytes) : saver :=
  let len := Z.of_nat (length s) in
  let verbatim := rdbSaveLen len ;+ (if len >? 0 then save_raw s else save_nothing) in
  let lzf : saver :=
    if compression && (len >? 20) then
      fun r => o ← rdbSaveLzfStringObject s; match o with Some f => f r | None => verbatim r end
    else verbatim in
  if len <=? 11 then match rdbTryIntegerEncoding s with Some enc => save_raw enc | None => lzf end else lzf.

Definition rdbSaveLongLongAsStringObject (value : Z) : saver :=
  match rdbEncodeInteger value with
  | Some enc => save_raw enc
  | None =>
      let '(buf, enclen) := ll2string (replicate 32 0) value in
      if negb (enclen <? 32) then fun _ => Abort
      else rdbSaveLen enclen ;+ save_raw (take (Z.to_nat enclen) buf)
  end.

End strings.

Definition rdbLoadLzfStringObject : loader bytes :=
  clen <-- rdbLoadLen ;;
  len <-- rdbLoadLen ;;
  c <-- load_raw (Z.to_nat clen) ;;
  fun b =>
    o ← lzf_decompress (Z.to_nat (uwrap 32 len)) (take (Z.to_nat (uwrap 32 clen)) c);
    match o with
    | None => Ok None
    | Some val => Ok (Some (val ++ replicate (Z.to_nat len - length val) 0, b))
    end.

Definition rdbGenericLoadStringObject : loader bytes :=
  p <-- rdbLoadLenByRef ;;
  let '(isencoded, len) := p in
  if isencoded : bool then
    if (len =? RDB_ENC_INT8) || (len =? RDB_ENC_INT16) || (len =? RDB_ENC_INT32) then rdbLoadIntegerObject len
    else if len =? RDB_ENC_LZF then rdbLoadLzfStringObject
    else load_exit
  else if len =? RDB_LENERR then load_fail
  else load_raw (Z.to_nat len).

Definition rdbLoadStringObject : loader bytes := rdbGenericLoadStringObject.

(** ** Lengths are read back *)

Lemma be_split_ok n w : 0 <= w < 2 ^ (8 * Z.of_nat n) ->
  bytes_ok (be_split n w) /\ length (be_split n w) = n /\ be_word (be_split n w) = w.
Proof.
  intros Hw. unfold be_split, be_word. destruct (le_split_word n w Hw) as (Hb1 & Hb2 & Hb3).
  rewrite length_rev, rev_involutive. split; [|done]. by apply Forall_rev.
Qed.

Lemma land_ones_mod x n : 0 <= n -> Z.land x (Z.ones n) = x mod 2 ^ n.
Proof. intros. by apply Z.land_ones. Qed.

Definition len_bytes (n : Z) : bytes :=
  if n <? 64 then [n]
  else if n <? 16384 then [n / 256 + 64; n mod 256]
  else if n <=? 2 ^ 32 - 1 then 0x80 :: be_split 4 n
  else 0x81 :: be_split 8 n.

Lemma lor_disjoint a b n : 0 <= n -> 0 <= a < 2 ^ n -> Z.lor a (Z.shiftl b n) = a + b * 2 ^ n.
Proof.
  intros Hn Ha. rewrite Z.shiftl_mul_pow2 by done.
  assert (Z.land a (b * 2 ^ n) = 0) as E.
  { apply Z.bits_inj'. intros i Hi. rewrite Z.land_spec, Z.bits_0. destruct (Z.lt_ge_cases i n).
    - rewrite Z.mul_pow2_bits_low by done. apply andb_false_r.
    - by rewrite (bit_high a n i). }
  rewrite <- Z.lxor_lor, <- Z.add_nocarry_lxor by done. done.
Qed.

Lemma saves_len n : 0 <= n < 2 ^ 64 -> saves (rdbSaveLen n) (len_bytes n).
Proof.
  intros Hn. unfold rdbSaveLen, len_bytes. change (Z.shiftl 1 6) with 64. change (Z.shiftl 1 14) with 16384.
  change 0xff with (Z.ones 8). rewrite !land_ones_mod by lia. change (2 ^ 8) with 256.
  destruct (Z.ltb_spec n 64).
  - rewrite Z.mod_small by lia. change (Z.shiftl RDB_6BITLEN 6) with 0. rewrite Z.lor_0_r. apply saves_raw.
  - destruct (Z.ltb_spec n 16384).
    + rewrite Z.shiftr_div_pow2 by lia. change (2 ^ 8) with 256.
      assert (0 <= n / 256 < 64) by (split; [apply Z.div_pos; lia|apply Z.div_lt_upper_bound; lia]).
      rewrite (Z.mod_small (n / 256)) by lia. unfold RDB_14BITLEN. rewrite lor_disjoint by (change (2 ^ 6) with 64; lia).
      change (1 * 2 ^ 6) with 64. apply saves_raw.
    + destruct (Z.leb_spec n (2 ^ 32 - 1)); (apply (saves_seq _ _ [_]); apply saves_raw).
Qed.

Lemma loads_head {A} (g : Z -> loader A) b0 b x :
  loads (g b0) b x -> loads (c <-- load_raw 1 ;; match c with [] => load_fail | b1 :: _ => g b1 end) (b0 :: b) x.
Proof. intros Hg. apply (loads_bind _ _ [b0] b [b0]); [apply loads_raw|exact Hg]. Qed.

Lemma land_c0 b : 0 <= b < 256 -> Z.shiftr (Z.land b 0xc0) 6 = b / 64 /\ Z.land b 0x3f = b mod 64.
Proof.
  intros Hb. split; [|change 0x3f with (Z.ones 6); by rewrite Z.land_ones by lia].
  rewrite Z.shiftr_land. change (Z.shiftr 0xc0 6) with (Z.ones 2). rewrite Z.land_ones, Z.shiftr_div_pow2 by lia.
  change (2 ^ 6) with 64. change (2 ^ 2) with 4. apply Z.mod_small. split; [apply Z.div_pos; lia|apply Z.div_lt_upper_bound; lia].
Qed.

Lemma loads_len n : 0 <= n < 2 ^ 64 -> bytes_ok (len_bytes n) /\ loads rdbLoadLenByRef (len_bytes n) (false, n).
Proof.
  intros Hn. unfold len_bytes, rdbLoadLenByRef. destruct (Z.ltb_spec n 64).
  { split; [repeat constructor; lia|]. apply loads_head. destruct (land_c0 n ltac:(lia)) as [-> ->].
    rewrite Z.div_small, Z.mod_small by lia. apply loads_ret. }
  destruct (Z.ltb_spec n 16384).
  { assert (0 <= n / 256 < 64) by (split; [apply Z.div_pos; lia|apply Z.div_lt_upper_bound; lia]).
    pose proof (Z.mod_pos_bound n 256 ltac:(lia)). split; [repeat constructor; lia|].
    apply loads_head. destruct (land_c0 (n / 256 + 64) ltac:(lia)) as [-> ->].
    replace (n / 256 + 64) with (n / 256 + 1 * 64) by lia.
    rewrite Z.div_add, Z.mod_add, Z.div_small, Z.mod_small by lia. cbn -[load_raw Z.div Z.modulo Z.shiftl].
    apply (loads_head (fun b1 => load_ret (false, Z.lor (Z.shiftl (n / 256) 8) b1))).
    rewrite Z.lor_comm, lor_disjoint by (change (2 ^ 8) with 256; lia). change (2 ^ 8) with 256.
    replace (n mod 256 + n / 256 * 256) with n by (pose proof (Z.div_mod n 256); lia). apply loads_ret. }
  destruct (Z.leb_spec n (2 ^ 32 - 1)).
  - destruct (be_split_ok 4 n ltac:(change (8 * Z.of_nat 4) with 32; lia)) as (Hb1 & Hb2 & Hb3).
    split; [constructor; [lia|done]|]. apply loads_head. rewrite <- (app_nil_r (be_split 4 n)).
    apply (loads_bind (load_raw 4) (fun c => load_ret (false, be_word c)) _ _ (be_split 4 n)); [by apply loads_raw_n|].
    rewrite Hb3. apply loads_ret.
  - destruct (be_split_ok 8 n ltac:(change (8 * Z.of_nat 8) with 64; lia)) as (Hb1 & Hb2 & Hb3).
    split; [constructor; [lia|done]|]. apply loads_head. rewrite <- (app_nil_r (be_split 8 n)).
    apply (loads_bind (load_raw 8) (fun c => load_ret (false, be_word c)) _ _ (be_split 8 n)); [by apply loads_raw_n|].
    rewrite Hb3. apply loads_ret.
Qed.

Lemma loads_len_plain n : 0 <= n < 2 ^ 64 - 1 -> loads rdbLoadLen (len_bytes n) n.
Proof.
  intros Hn. unfold rdbLoadLen. rewrite <- (app_nil_r (len_bytes n)).
  apply (loads_bind _ (fun p : bool * Z => if snd p =? RDB_LENERR then load_fail else load_ret (snd p)) _ _ (false, n));
    [apply loads_len; lia|]. cbn [snd]. unfold RDB_LENERR. destruct (Z.eqb_spec n (2 ^ 64 - 1)); [lia|]. apply loads_ret.
Qed.

(** ** Strings are read back *)

Lemma ll2string_text n z : LLONG_MIN <= z <= LLONG_MAX -> (20 < n)%nat ->
  ll2string (replicate n 0) z = (print_Z z ++ 0 :: drop (S (length (print_Z z))) (replicate n 0), Z.of_nat (length (print_Z z))).
Proof.
  intros Hz Hn. pose proof (print_Z_short z Hz). rewrite ll2string_spec by done. rewrite length_replicate.
  destruct (Z.leb_spec (Z.of_nat n) (Z.of_nat (length (print_Z z)))); [lia|done].
Qed.

Lemma swrap_mod w v : 0 < w -> - 2 ^ (w - 1) <= v < 2 ^ (w - 1) -> swrap w (v mod 2 ^ w) = v.
Proof.
  intros Hw Hv. rewrite <- (swrap_id w v Hw Hv) at 2. unfold swrap. f_equal. rewrite Zplus_mod_idemp_l. done.
Qed.

Lemma byte_of v k : 0 <= k -> Z.land (Z.shiftr v k) 0xff = (v / 2 ^ k) mod 256.
Proof. intros. change 0xff with (Z.ones 8). by rewrite Z.land_ones, Z.shiftr_div_pow2 by lia. Qed.

Lemma mod_step v k : 0 <= k -> v mod 2 ^ k + (v / 2 ^ k) mod 256 * 2 ^ k = v mod 2 ^ (k + 8).
Proof.
  intros Hk. rewrite Z.pow_add_r by lia. change (2 ^ 8) with 256.
  rewrite Z.rem_mul_r by (try apply Z.pow_nonzero; lia). lia.
Qed.

Lemma loads_enc k : 0 <= k < 64 -> loads rdbLoadLenByRef [192 + k] (true, k).
Proof.
  intros Hk. apply loads_head. destruct (land_c0 (192 + k) ltac:(lia)) as [-> ->].
  replace (192 + k) with (k + 3 * 64) by lia. rewrite Z.div_add, Z.mod_add, Z.div_small, Z.mod_small by lia. apply loads_ret.
Qed.

Lemma loads_encoded k b x : 0 <= k < 4 ->
  loads (if k <? 3 then rdbLoadIntegerObject k else rdbLoadLzfStringObject) b x ->
  loads rdbLoadStringObject (192 + k :: b) x.
Proof.
  intros Hk Hb. unfold rdbLoadStringObject, rdbGenericLoadStringObject.
  apply (loads_bind _ _ [192 + k] b (true, k)); [apply loads_enc; lia|].
  assert (k = 0 \/ k = 1 \/ k = 2 \/ k = 3) as [-> |[-> |[-> | ->]]] by lia; exact Hb.
Qed.

Lemma loads_text {A} (f : loader A) (g : A -> Z) b y z :
  LLONG_MIN <= z <= LLONG_MAX -> loads f b y -> g y = z ->
  loads (enc <-- f ;; load_ret (let '(buf, n) := ll2string (replicate 21 0) (g enc) in take (Z.to_nat n) buf)) b (print_Z z).
Proof.
  intros Hz Hf Hg. rewrite <- (app_nil_r b). eapply loads_bind; [exact Hf|]. rewrite Hg, ll2string_text by (done || lia).
  rewrite Nat2Z.id, take_app_length. apply loads_ret.
Qed.

Lemma mod_byte_range v : 0 <= v mod 256 < 256.
Proof. apply Z.mod_pos_bound. lia. Qed.

Lemma loads_integer v enc :
  rdbEncodeInteger v = Some enc -> bytes_ok enc /\ loads rdbLoadStringObject enc (print_Z v).
Proof.
  unfold rdbEncodeInteger. change (Z.shiftl 1 7) with (2 ^ 7). change (Z.shiftl 1 15) with (2 ^ 15). change (Z.shiftl 1 31) with (2 ^ 31).
  rewrite !byte_of by lia. assert (Z.land v 0xff = v mod 256) as -> by (change 0xff with (Z.ones 8); by rewrite Z.land_ones).
  intros E.
  pose proof (mod_byte_range v) as B0. pose proof (mod_byte_range (v / 2 ^ 8)) as B1.
  pose proof (mod_byte_range (v / 2 ^ 16)) as B2. pose proof (mod_byte_range (v / 2 ^ 24)) as B3.
  pose proof (mod_step v 8 ltac:(lia)) as M1. pose proof (mod_step v 16 ltac:(lia)) as M2. pose proof (mod_step v 24 ltac:(lia)) as M3.
  change (8 + 8) with 16 in *. change (16 + 8) with 24 in *. change (24 + 8) with 32 in *.
  change (v mod 256) with (v mod 2 ^ 8) in *.
  pose proof (Z.mod_pos_bound v (2 ^ 16) ltac:(lia)) as R1. pose proof (Z.mod_pos_bound v (2 ^ 24) ltac:(lia)) as R2.
  destruct ((v >=? _) && _) eqn:E8; [|destruct ((v >=? _) && _) eqn:E16 in E; [|destruct ((v >=? _) && _) eqn:E32 in E; [|done]]];
    injection E as <-; (split; [repeat constructor; (done || lia)|]).
  - apply (loads_encoded 0); [lia|].
    apply (loads_text (load_raw 1) (fun enc => to_char (enc !!! 0%nat)) _ [v mod 2 ^ 8]);
      [unfold LLONG_MIN, LLONG_MAX; lia|apply loads_raw|]. apply swrap_mod; simpl; lia.
  - apply (loads_encoded 1); [lia|].
    apply (loads_text (load_raw 2) (fun enc => swrap 16 (Z.lor (enc !!! 0%nat) (Z.shiftl (enc !!! 1%nat) 8))) _ [v mod 2 ^ 8; (v / 2 ^ 8) mod 256]);
      [unfold LLONG_MIN, LLONG_MAX; lia|apply loads_raw|]. cbn [lookup_total list_lookup_total].
    rewrite lor_disjoint, M1 by lia. apply swrap_mod; simpl; lia.
  - apply (loads_encoded 2); [lia|].
    apply (loads_text (load_raw 4) (fun enc => swrap 32 (Z.lor (Z.lor (Z.lor (enc !!! 0%nat) (Z.shiftl (enc !!! 1%nat) 8))
      (Z.shiftl (enc !!! 2%nat) 16)) (Z.shiftl (enc !!! 3%nat) 24))) _
      [v mod 2 ^ 8; (v / 2 ^ 8) mod 256; (v / 2 ^ 16) mod 256; (v / 2 ^ 24) mod 256]);
      [unfold LLONG_MIN, LLONG_MAX; lia|apply loads_raw|]. cbn [lookup_total list_lookup_total].
    rewrite (lor_disjoint _ _ 8), M1 by lia. rewrite (lor_disjoint _ _ 16), M2 by lia. rewrite (lor_disjoint _ _ 24), M3 by lia.
    apply swrap_mod; simpl; lia.
Qed.

Lemma strtoll_range s : LLONG_MIN <= strtoll s <= LLONG_MAX.
Proof.
  unfold strtoll. destruct (after_sign s) as [neg t]. unfold LLONG_MIN, LLONG_MAX.
  set (z := if neg then _ else _). destruct (Z.gtb_spec z (2 ^ 63 - 1)); [lia|]. destruct (Z.ltb_spec z (- 2 ^ 63)); lia.
Qed.

Lemma try_integer s enc : rdbTryIntegerEncoding s = Some enc -> rdbEncodeInteger (strtoll s) = Some enc /\ s = print_Z (strtoll s).
Proof.
  unfold rdbTryIntegerEncoding. destruct (match strtoll_end s with [] => _ | _ => _ end); [done|].
  destruct (bool_decide_reflect (cstr (fst (ll2string (replicate 32 0) (strtoll s))) = s)) as [E|]; [|done].
  rewrite ll2string_text in E by (lia || apply strtoll_range). cbn [fst] in E. rewrite cstr_app in E by apply print_Z_no_nul. done.
Qed.

Lemma loads_lzf c s :
  bytes_ok c -> Z.of_nat (length c) < 2 ^ 32 -> Z.of_nat (length s) < 2 ^ 32 -> lzf_decompress (length s) c = Ok (Some s) ->
  loads rdbLoadLzfStringObject (len_bytes (Z.of_nat (length c)) ++ len_bytes (Z.of_nat (length s)) ++ c) s.
Proof.
  intros Hc Lc Ls E. unfold rdbLoadLzfStringObject.
  eapply loads_bind; [apply loads_len_plain; lia|]. eapply loads_bind; [apply loads_len_plain; lia|].
  rewrite <- (app_nil_r c) at 2. eapply loads_bind; [apply loads_raw_n; by rewrite Nat2Z.id|].
  intros rest. simpl app. rewrite !uwrap_id, !Nat2Z.id, firstn_all, E by lia. cbn [mbind res_bind].
  by rewrite Nat.sub_diag, app_nil_r.
Qed.

Lemma raw_string_roundtrip compression htab s :
  bytes_ok s -> Z.of_nat (length s) < 2 ^ 32 ->
  exists b, saves (rdbSaveRawString compression htab s) b /\ loads rdbLoadStringObject b s /\ bytes_ok b.
Proof.
  intros Hs Ls. unfold rdbSaveRawString. set (len := Z.of_nat (length s)) in *.
  set (verbatim := rdbSaveLen len ;+ (if len >? 0 then save_raw s else save_nothing)).
  assert (saves verbatim (len_bytes len ++ s) /\ loads rdbLoadStringObject (len_bytes len ++ s) s /\ bytes_ok (len_bytes len ++ s)) as Hv.
  { split; [|split].
    - apply saves_seq; [apply saves_len; lia|]. destruct (Z.gtb_spec len 0); [apply saves_raw|].
      destruct s; [apply saves_nothing|unfold len in *; simpl in *; lia].
    - apply (loads_bind _ _ (len_bytes len) s (false, len)); [apply loads_len; lia|]. unfold RDB_LENERR.
      destruct (Z.eqb_spec len (2 ^ 64 - 1)); [lia|]. apply loads_raw_n. unfold len. lia.
    - apply bytes_ok_app; [apply loads_len; lia|done]. }
  match goal with |- exists b, saves (if _ then match _ with Some _ => _ | None => ?f end else _) b /\ _ => set (lzf := f) end.
  assert (exists b, saves lzf b /\ loads rdbLoadStringObject b s /\ bytes_ok b) as Hlzf.
  { unfold lzf. destruct (compression && (len >? 20)) eqn:Ec; [|by eexists]. apply andb_true_iff in Ec as [_ Ec]. apply Z.gtb_lt in Ec.
    unfold rdbSaveLzfStringObject. fold len. destruct (Z.leb_spec len 4); [lia|]. rewrite !uwrap_id by lia.
    assert (take (Z.to_nat len) s = s) as Et by (apply firstn_all2; unfold len; lia). rewrite Et.
    destruct (lzf_inverse s (Z.to_nat (len - 4)) (length s) htab Hs ltac:(lia) Ls ltac:(lia)) as (o & -> & Ho).
    cbn [mbind res_bind]. destruct o as [c|]; [|by eexists].
    destruct (Ho c eq_refl) as (Hc & Lc & Hd).
    exists (195 :: len_bytes (Z.of_nat (length c)) ++ len_bytes len ++ c). split; [|split].
    - apply (saves_seq _ _ [195]); [apply saves_raw|]. apply saves_seq; [apply saves_len; lia|].
      apply saves_seq; [apply saves_len; lia|apply saves_raw].
    - apply (loads_encoded 3); [lia|]. apply loads_lzf; [done|lia|done|done].
    - constructor; [lia|]. apply bytes_ok_app; [apply loads_len; lia|]. apply bytes_ok_app; [apply loads_len; lia|done]. }
  destruct (Z.leb_spec len 11); [|done].
  destruct (rdbTryIntegerEncoding s) as [enc|] eqn:Ee; [|done].
  destruct (try_integer s enc Ee) as [Ei Es]. destruct (loads_integer _ _ Ei) as [Hb Hl].
  exists enc. split; [apply saves_raw|]. by rewrite Es.
Qed.

(** ** Claims *)

(** C32: strings in RDB files.  Every byte string shorter than 4 GB is written by
    [rdbSaveRawString], as an integer, compressed or as it is, and with
    [rdb_compression] on or off, so that the string loader reads it back and
    stops exactly where it ends. *)
Theorem rdb_string_roundtrip (compression : bool) (htab : Z -> Z) (s : bytes)
    (Hs : bytes_ok s) (Hlen : Z.of_nat (length s) < 2 ^ 32) :
  exists b, saves (rdbSaveRawString compression htab s) b /\ bytes_ok b /\
    forall rest, rdbLoadStringObject (b ++ rest) = Ok (Some (s, rest)).
Proof.
  destruct (raw_string_roundtrip compression htab s Hs Hlen) as (b & H1 & H2 & H3). exists b. split; [done|]. by split.
Qed.

Lemma rdb_string_roundtrip_witness :
  exists b, saves (rdbSaveRawString true (fun _ => 0) (str "-1234")) b /\ bytes_ok b /\
    forall rest, rdbLoadStringObject (b ++ rest) = Ok (Some (str "-1234", rest)).
Proof. apply (rdb_string_roundtrip true (fun _ => 0) (str "-1234")); [decide_now|reflexivity]. Defined.
