(* ===== verification/RdbInfo.v ===== *)
(** * The auxiliary fields of an RDB file ([src/src/rdb.c],
      [src/src/ctrip_crdt_rdb.c])

    Next to the data, an RDB file holds the clock of the server, its replication
    id and offset, its peers and the groups that are offline; all of it is read
    back when the file is loaded. *)

From S2P Require Import Prelude Util Sds VectorClock VcTheory VcText VcClaims Proxy CrdtServer Gc Backlog Resp Rio World Feed Psync PeerLink PeerState Crc Lzf Rdb.

Definition RDB_OPCODE_AUX : Z := 250.

(** ** Saving *)

Section saving.

(** [mem s] is what the memory of the compressor's table holds when [s] is
    compressed. *)

Context (compression : bool) (mem : bytes -> Z -> Z).

Definition save_string (s : bytes) : saver := rdbSaveRawString compression (mem s) s.

Definition rdbSaveAuxField (key val : bytes) : saver :=
  rdbSaveType RDB_OPCODE_AUX ;+ save_string key ;+ save_string val.

Definition rdbSaveAuxFieldStrStr (key val : bytes) : saver := rdbSaveAuxField (cstr key) (cstr val).

Definition rdbSaveAuxFieldStrInt (key : bytes) (val : Z) : saver :=
  let '(buf, vlen) := ll2string (replicate 21 0) val in
  rdbSaveAuxField (cstr key) (take (Z.to_nat vlen) buf).

(** A string that is a NULL pointer, or an array that was never written. *)

Definition save_cstr (key : bytes) (val : option bytes) : saver :=
  match val with
  | Some val => rdbSaveAuxFieldStrStr key val
  | None => fun _ => Undef
  end.

(** One peer: its address, the database its stream has selected, and how far the
    stream has been read, from the link, the cached link, or the instance. *)

Definition peer_position (p : peer) : option bytes * Z :=
  match master p, cached_master p with
  | Some c, _ => (cl_replid c, cl_reploff c)
  | None, Some c => (cl_replid c, cl_reploff c)
  | None, None => (master_replid p, master_initial_offset p)
  end.

Definition peer_db (p : peer) : Z := match master p with Some c => cl_db c | None => dbid p end.

Definition save_peer (p : peer) : saver :=
  rdbSaveAuxFieldStrInt (str "peer-master-gid") (p_gid p) ;+
  save_cstr (str "peer-master-host") (masterhost p) ;+
  rdbSaveAuxFieldStrInt (str "peer-master-port") (masterport p) ;+
  rdbSaveAuxFieldStrInt (str "peer-master-dbid") (peer_db p) ;+
  save_cstr (str "peer-master-repl-id") (fst (peer_position p)) ;+
  rdbSaveAuxFieldStrInt (str "peer-master-repl-offset") (snd (peer_position p)) ;+
  (if negb (proxy_type p =? NONE_PROXY) then
     rdbSaveAuxFieldStrInt (str "peer-proxy-type") (proxy_type p) ;+
     (fun r => info ← proxy2str (proxy_type p) (proxy p); save_cstr (str "peer-proxy") info r)
   else save_nothing).

Fixpoint save_peers (gids : list Z) (masters : gmap Z peer) : saver :=
  match gids with
  | [] => save_nothing
  | g :: gids =>
      match masters !! g with
      | None => save_peers gids masters
      | Some p => save_peer p ;+ save_peers gids masters
      end
  end.

Definition rdbSaveAuxFieldCrdt (w : world) : saver := save_peers (seqZ 0 (MAX_PEERS + 1)) (crdtMasters (w_crdt w)).

Definition rdbSaveCrdtInfoAuxFields (w : world) : saver :=
  rdbSaveAuxFieldStrStr (str "vclock") (vectorClockToSds (vectorClock (w_crdt w))) ;+
  rdbSaveAuxFieldStrStr (str "crdt-repl-id") (replid (w_peers w)) ;+
  rdbSaveAuxFieldStrInt (str "crdt-repl-offset") (master_repl_offset (w_peers w)) ;+
  rdbSaveAuxFieldCrdt w ;+
  rdbSaveAuxFieldStrInt (str "crdt-offline-gid") (offline_peer_set (w_crdt w)).

End saving.

(** ** Loading *)

(** [i_current] is the gid of the peer whose fields are being read. *)

Record info := MkInfo { i_world : world; i_current : option Z; i_rewrite : bool }.

Definition set_i_world (v : world) (i : info) : info := MkInfo v (i_current i) (i_rewrite i).

(** The peer that is being read, changed. *)

Definition with_current (f : peer -> res peer) (i : info) : res info :=
  match i_current i with
  | None => Ok i
  | Some g =>
      p ← need (crdtMasters (w_crdt (i_world i)) !! g);
      p ← f p;
      Ok (set_i_world (set_peer g p (i_world i)) i)
  end.

Definition on_master (f : client -> client) (p : peer) : res peer :=
  c ← need (master p);
  Ok (set_master (Some (f c)) p).

(** [mstime] is the time, [dbnum] the number of databases.  [None]: the field is
    refused with an error, the file is corrupt. *)

Definition rdbLoadCrdtInfoAuxFields (mstime dbnum : Z) (auxkey auxval : bytes) (i : info) : res (option info) :=
  let named name := strcaseeq (cstr auxkey) (str name) in
  let w := i_world i in
  let peer f := i ← with_current f i; Ok (Some i) in
  if named "vclock" then
    vc ← sdsToVectorClock auxval;
    vc ← (if isNullVectorClockUnit (getVectorClockUnit vc (crdt_gid (w_crdt w)))
          then addVectorClockUnit vc (crdt_gid (w_crdt w)) 0 else Ok vc);
    Ok (Some (set_i_world (set_w_crdt (set_vectorClock vc (w_crdt w)) w) i))
  else if named "crdt-repl-id" then
    Ok (Some (if Nat.eqb (length auxval) CONFIG_RUN_ID_SIZE
              then set_i_world (set_w_peers (set_replid auxval (w_peers w)) w) i else i))
  else if named "crdt-repl-offset" then
    Ok (Some (set_i_world (set_w_peers (set_master_repl_offset (strtoll auxval) (w_peers w)) w) i))
  else if named "peer-master-gid" then
    let gid := atoi auxval in
    if negb (check_gid gid) then Ok None else
    let i := MkInfo w None (i_rewrite i) in
    o ← getPeerMaster gid w;
    match o with
    | Some p =>
        if iAmMaster w then Ok (Some i) else
        let p := crdtReplicationCreateMasterClient p (createClient (-1) (w_unixtime w)) (-1) in
        Ok (Some (MkInfo (set_peer gid p w) (Some gid) true))
    | None =>
        let '(p, w) := createPeerMaster mstime None gid w in
        let p := crdtReplicationCreateMasterClient p (createClient (-1) (w_unixtime w)) (-1) in
        Ok (Some (MkInfo (set_peer gid p w) (Some gid) true))
    end
  else if named "peer-master-dbid" then
    let db := atoi auxval in
    peer (fun p => p ← on_master (fun c => if (db <? 0) || (db >=? dbnum) then c else set_cl_db db c) p;
                   Ok (set_dbid db p))
  else if named "peer-master-host" then peer (fun p => Ok (set_masterhost (Some auxval) p))
  else if named "peer-master-port" then peer (fun p => Ok (set_masterport (atoi auxval) p))
  else if named "peer-master-repl-id" then
    peer (fun p => if Nat.eqb (length auxval) CONFIG_RUN_ID_SIZE
                   then on_master (set_cl_replid (Some auxval)) p else Ok p)
  else if named "peer-master-repl-offset" then peer (on_master (set_cl_reploff (strtoll auxval)))
  else if named "peer-proxy-type" then peer (fun p => Ok (set_proxy_type (atoi auxval) p))
  else if named "peer-proxy" then
    match i_current i with
    | None => Ok (Some i)
    | Some g =>
        p ← need (crdtMasters (w_crdt w) !! g);
        o ← str2proxy (proxy_type p) auxval;
        match o with
        | None => Ok None
        | Some px => Ok (Some (set_i_world (set_peer g (set_proxy (Some px) p) w) i))
        end
    end
  else if named "crdt-offline-gid" then
    s ← setOfflinePeerSet (atoi auxval) (w_crdt w);
    Ok (Some (set_i_world (set_w_crdt s w) i))
  else Ok (Some i).

(** An auxiliary field, after its type. *)

Definition load_aux : loader (bytes * bytes) :=
  key <-- rdbLoadStringObject ;;
  val <-- rdbLoadStringObject ;;
  load_ret (key, val).

Fixpoint load_fields (mstime dbnum : Z) (fields : list (bytes * bytes)) (i : info) : res (option info) :=
  match fields with
  | [] => Ok (Some i)
  | (key, val) :: fields =>
      o ← rdbLoadCrdtInfoAuxFields mstime dbnum key val i;
      match o with
      | None => Ok None
      | Some i => load_fields mstime dbnum fields i
      end
  end.

Definition initedCrdtServer (s : crdtServer) : bool :=
  if negb (get_len (vectorClock s) =? 1) then true else
  let unit := getVectorClockUnit (vectorClock s) (crdt_gid s) in
  if isNullVectorClockUnit unit then false else
  negb (get_logic_clock unit =? 0).

(** ** What is saved *)

(** A C string: no byte is NUL. *)

Definition plain (s : bytes) : Prop := Forall (fun c => 0 < c < 256) s.

Lemma plain_cstr s : plain s -> cstr s = s.
Proof. intros H. apply cstr_id. intros Hin. unfold plain in H. rewrite Forall_forall in H. specialize (H 0 Hin). lia. Qed.

Lemma plain_ok s : plain s -> bytes_ok s.
Proof. intros H. eapply Forall_impl; [exact H|]. simpl. lia. Qed.

Lemma plain_print z : plain (print_Z z).
Proof.
  assert (forall n, 0 <= n -> plain (dec n)) as H.
  { intros n Hn. eapply Forall_impl; [by apply dec_digits|]. unfold is_digit. simpl. lia. }
  unfold print_Z. destruct (Z.ltb_spec z 0); [constructor; [lia|]|]; apply H; lia.
Qed.

Lemma plain_join ls sep : Forall plain ls -> plain sep -> plain (sdsjoinsds ls sep).
Proof.
  intros H Hs. induction H as [|a ls Ha Hl IH]; [constructor|]. destruct ls; [done|].
  rewrite sdsjoinsds_cons by done. by repeat apply Forall_app_2.
Qed.

Lemma plain_clock vc : vc_ok vc -> plain (vectorClockToSds vc).
Proof.
  intros Hok. rewrite vectorClockToSds_join. apply plain_join; [|repeat constructor; lia].
  destruct (texts_ok vc (proj1 Hok)) as (H & _). eapply Forall_impl; [exact H|]. intros s Hs.
  eapply Forall_impl; [exact Hs|]. unfold text_byte. simpl. lia.
Qed.

Definition short (s : bytes) : Prop := Z.of_nat (length s) < 2 ^ 32.

Lemma short_print z : LLONG_MIN <= z <= LLONG_MAX -> short (print_Z z).
Proof. intros Hz. pose proof (print_Z_short z Hz). unfold short. lia. Qed.

Section saved.

Context (compression : bool) (mem : bytes -> Z -> Z).

(** [f] writes the auxiliary fields [kvs]. *)

Definition aux_saves (f : saver) (kvs : list (bytes * bytes)) : Prop :=
  exists bss, saves f (concat bss) /\
    Forall2 (fun b kv => exists b', b = RDB_OPCODE_AUX :: b' /\ loads load_aux b' kv /\ bytes_ok b) bss kvs.

Lemma aux_saves_nil : aux_saves save_nothing [].
Proof. exists []. split; [apply saves_nothing|constructor]. Qed.

Lemma aux_saves_seq f g a b : aux_saves f a -> aux_saves g b -> aux_saves (f ;+ g) (a ++ b).
Proof.
  intros (xs & Hf & Ha) (ys & Hg & Hb). exists (xs ++ ys). rewrite concat_app. split; [by apply saves_seq|by apply Forall2_app].
Qed.

Lemma aux_saves_field key val :
  bytes_ok key -> bytes_ok val -> short key -> short val ->
  aux_saves (rdbSaveAuxField compression mem key val) [(key, val)].
Proof.
  intros Hk Hv Lk Lv.
  destruct (raw_string_roundtrip compression (mem key) key Hk Lk) as (bk & Sk & Rk & Ok1).
  destruct (raw_string_roundtrip compression (mem val) val Hv Lv) as (bv & Sv & Rv & Ok2).
  exists [RDB_OPCODE_AUX :: bk ++ bv]. split.
  - cbn [concat]. rewrite app_nil_r. apply (saves_seq _ _ [_]); [apply saves_raw|by apply saves_seq].
  - constructor; [|constructor]. exists (bk ++ bv). split; [done|]. split.
    + unfold load_aux. eapply loads_bind; [exact Rk|]. rewrite <- (app_nil_r bv). eapply loads_bind; [exact Rv|apply loads_ret].
    + constructor; [unfold RDB_OPCODE_AUX; lia|by apply bytes_ok_app].
Qed.

Lemma aux_saves_str key val :
  plain key -> plain val -> short key -> short val -> aux_saves (rdbSaveAuxFieldStrStr compression mem key val) [(key, val)].
Proof.
  intros Hk Hv Lk Lv. unfold rdbSaveAuxFieldStrStr. rewrite !plain_cstr by done. apply aux_saves_field; auto using plain_ok.
Qed.

Lemma aux_saves_int key z :
  plain key -> short key -> LLONG_MIN <= z <= LLONG_MAX ->
  aux_saves (rdbSaveAuxFieldStrInt compression mem key z) [(key, print_Z z)].
Proof.
  intros Hk Lk Hz. unfold rdbSaveAuxFieldStrInt. rewrite ll2string_text by (done || lia). rewrite plain_cstr by done.
  rewrite Nat2Z.id, take_app_length. apply aux_saves_field; auto using plain_ok, plain_print, short_print.
Qed.

(** A peer that can be saved and restored: the host, the database and the
    replication id are set, the numbers have their width, and a proxy can be
    written as a string. *)

Record peer_saveable (dbnum : Z) (g : Z) (p : peer) (host id : bytes) : Prop := {
  ps_gid : p_gid p = g;
  ps_range : 0 < g < 16;
  ps_host : masterhost p = Some host;
  ps_host_plain : plain host /\ short host;
  ps_port : - 2 ^ 31 <= masterport p < 2 ^ 31;
  ps_db : 0 <= peer_db p < dbnum;
  ps_id : fst (peer_position p) = Some id;
  ps_id_plain : plain id /\ length id = CONFIG_RUN_ID_SIZE;
  ps_off : LLONG_MIN <= snd (peer_position p) <= LLONG_MAX;
  ps_proxy : (proxy_type p = NONE_PROXY /\ proxy p = None) \/
             (proxy_type p = XPIPE_PROXY /\ exists px, proxy p = Some px /\ proxy_ok px /\
                forall text, xpipeProxy2str px = Ok text -> plain text /\ short text)
}.

Definition proxy_fields (p : peer) : list (bytes * bytes) :=
  match proxy p with
  | Some px => match xpipeProxy2str px with
               | Ok text => [(str "peer-proxy-type", print_Z (proxy_type p)); (str "peer-proxy", text)]
               | _ => []
               end
  | None => []
  end.

Definition peer_fields (p : peer) (host id : bytes) : list (bytes * bytes) :=
  [(str "peer-master-gid", print_Z (p_gid p)); (str "peer-master-host", host);
   (str "peer-master-port", print_Z (masterport p)); (str "peer-master-dbid", print_Z (peer_db p));
   (str "peer-master-repl-id", id); (str "peer-master-repl-offset", print_Z (snd (peer_position p)))] ++ proxy_fields p.

Lemma save_peer_fields dbnum g p host id :
  peer_saveable dbnum g p host id -> dbnum < 2 ^ 31 -> aux_saves (save_peer compression mem p) (peer_fields p host id).
Proof.
  intros [Eg Hg Eh [Hh Lh] Hport Hdb Eid [Hid Lid] Hoff Hpx] Hn.
  assert (forall k, plain k -> short k -> forall z, - 2 ^ 31 <= z < 2 ^ 31 -> aux_saves (rdbSaveAuxFieldStrInt compression mem k z) [(k, print_Z z)]) as Hint.
  { intros k Hk Lk z Hz. apply aux_saves_int; [done|done|]. unfold LLONG_MIN, LLONG_MAX. lia. }
  assert (short id) as Sid by (unfold short; rewrite Lid; done).
  unfold save_peer, save_cstr. rewrite Eh, Eid.
  apply (aux_saves_seq _ _ [_]); [apply Hint; [decide_now|done|lia]|].
  apply (aux_saves_seq _ _ [_]); [apply aux_saves_str; [decide_now|done|done|done]|].
  apply (aux_saves_seq _ _ [_]); [apply Hint; [decide_now|done|lia]|].
  apply (aux_saves_seq _ _ [_]); [apply Hint; [decide_now|done|lia]|].
  apply (aux_saves_seq _ _ [_]); [apply aux_saves_str; [decide_now|done|done|done]|].
  apply (aux_saves_seq _ _ [_]); [apply aux_saves_int; [decide_now|done|done]|].
  unfold proxy_fields. destruct Hpx as [[-> ->]|(-> & px & -> & Hok & Htext)]; [apply aux_saves_nil|].
  change (negb (XPIPE_PROXY =? NONE_PROXY)) with true. cbv iota.
  destruct (xpipe_text px Hok) as (text & Et & _). destruct (Htext text Et) as [Ht Lt].
  unfold proxy2str. rewrite Z.eqb_refl. cbn [need mbind res_bind]. rewrite Et.
  apply (aux_saves_seq _ _ [_]); [apply Hint; [decide_now|done|done]|].
  cbn [fmap res_fmap mbind res_bind]. by apply aux_saves_str; [decide_now| | |].
Qed.

End saved.

(** ** What is restored *)

(** The peer that the fields of [p] give: a link that is not connected, at the
    position of the saved one. *)

Definition restored_peer (mstime unixtime : Z) (p : peer) : peer :=
  MkPeer (p_gid p) None (masterhost p) (masterport p)
    (Some (MkClient (p_gid p) (-1) true false (peer_db p) (snd (peer_position p)) 0 (fst (peer_position p)) unixtime))
    None REPL_STATE_NONE (-1) mstime 0 None (-1) [] (peer_db p) [] NO_LAZY_TIME (proxy_type p)
    (match proxy p with Some px => Some (MkXpipeProxy (servers px) 0 (params px)) | None => None end).

Lemma atoi_print z : - 2 ^ 31 <= z < 2 ^ 31 -> atoi (print_Z z) = z.
Proof.
  intros Hz. unfold atoi. rewrite (proj1 (print_Z_reads z ltac:(unfold LLONG_MIN, LLONG_MAX; lia))). by apply to_int_id.
Qed.

Section restored.

Context (mstime dbnum : Z) (Hdbnum : dbnum < 2 ^ 31).

Lemma load_fields_cons key val fields i :
  load_fields mstime dbnum ((key, val) :: fields) i =
  (o ← rdbLoadCrdtInfoAuxFields mstime dbnum key val i;
   match o with None => Ok None | Some i => load_fields mstime dbnum fields i end).
Proof. done. Qed.

(** A field of the current peer. *)

Lemma load_current f g p p' w rw :
  f p = Ok p' ->
  with_current f (MkInfo (set_peer g p w) (Some g) rw) = Ok (MkInfo (set_peer g p' w) (Some g) rw).
Proof.
  intros E. unfold with_current. cbn [i_current i_world]. rewrite set_peer_lookup. cbn [need mbind res_bind]. rewrite E.
  cbn [mbind res_bind]. unfold set_i_world. cbn [i_current i_rewrite]. by rewrite set_peer_set_peer.
Qed.

Lemma load_step key f val g p p' w rw fields :
  (forall i, rdbLoadCrdtInfoAuxFields mstime dbnum (str key) val i = (i ← with_current f i; Ok (Some i))) ->
  f p = Ok p' ->
  load_fields mstime dbnum ((str key, val) :: fields) (MkInfo (set_peer g p w) (Some g) rw) =
  load_fields mstime dbnum fields (MkInfo (set_peer g p' w) (Some g) rw).
Proof. intros Hk E. rewrite load_fields_cons, Hk, (load_current _ _ _ _ _ _ E). done. Qed.

Lemma load_peer_fields g p host id w cur rw fields :
  peer_saveable dbnum g p host id -> crdtMasters (w_crdt w) !! g = None ->
  load_fields mstime dbnum (peer_fields p host id ++ fields) (MkInfo w cur rw) =
  load_fields mstime dbnum fields
    (MkInfo (set_peer g (restored_peer mstime (w_unixtime w) p) (set_w_crdt (addPeerSet g (w_crdt w)) w)) (Some g) true).
Proof.
  intros [Eg Hg Eh [Hh Lh] Hport Hdb Eid [Hid Lid] Hoff Hpx] Hnone. unfold peer_fields. rewrite Eg.
  rewrite <- !app_assoc. cbn [app]. rewrite load_fields_cons.
  assert (rdbLoadCrdtInfoAuxFields mstime dbnum (str "peer-master-gid") (print_Z g) (MkInfo w cur rw) =
    Ok (Some (MkInfo (set_peer g (MkPeer g None None (-1) (Some (MkClient g (-1) true false 0 0 0 None (w_unixtime w))) None
      REPL_STATE_NONE (-1) mstime 0 None (-1) [] 0 [] NO_LAZY_TIME NONE_PROXY None) (set_w_crdt (addPeerSet g (w_crdt w)) w)) (Some g) true))) as ->.
  { unfold rdbLoadCrdtInfoAuxFields. rewrite atoi_print by lia.
    assert (check_gid g = true) as -> by (unfold check_gid, GIDSIZE; change (Z.shiftl 1 4) with 16; lia).
    cbn -[set_peer createPeerMaster getPeerMaster]. rewrite getPeerMaster_valid, Hnone by lia. done. }
  cbn [mbind res_bind]. set (w1 := set_w_crdt _ w).
  erewrite (load_step "peer-master-host" (fun p => Ok (set_masterhost (Some host) p))); [|done|reflexivity].
  erewrite (load_step "peer-master-port" (fun q => Ok (set_masterport (atoi (print_Z (masterport p))) q))); [|done|reflexivity].
  rewrite atoi_print by lia.
  erewrite (load_step "peer-master-dbid" (fun q =>
    q ← on_master (fun c => if (atoi (print_Z (peer_db p)) <? 0) || (atoi (print_Z (peer_db p)) >=? dbnum) then c
                            else set_cl_db (atoi (print_Z (peer_db p))) c) q;
    Ok (set_dbid (atoi (print_Z (peer_db p))) q))); [|done|].
  2:{ rewrite atoi_print by lia. destruct (Z.ltb_spec (peer_db p) 0); [lia|]. destruct (Z.geb_spec (peer_db p) dbnum); [lia|]. reflexivity. }
  erewrite (load_step "peer-master-repl-id" (fun q => if Nat.eqb (length id) CONFIG_RUN_ID_SIZE
                   then on_master (set_cl_replid (Some id)) q else Ok q)); [|done|rewrite Lid; reflexivity].
  erewrite (load_step "peer-master-repl-offset" (on_master (set_cl_reploff (strtoll (print_Z (snd (peer_position p))))))); [|done|reflexivity].
  rewrite (proj1 (print_Z_reads _ Hoff)). unfold restored_peer. rewrite Eid, Eh, Eg.
  unfold proxy_fields. destruct Hpx as [[-> ->]|(-> & px & -> & Hok & Htext)]; [reflexivity|].
  destruct (xpipe_text px Hok) as (text & Et & Er). rewrite Et. cbn [app].
  erewrite (load_step "peer-proxy-type" (fun q => Ok (set_proxy_type (atoi (print_Z XPIPE_PROXY)) q))); [|done|reflexivity].
  rewrite atoi_print by (unfold XPIPE_PROXY; lia). rewrite load_fields_cons.
  match goal with |- context [rdbLoadCrdtInfoAuxFields _ _ _ text ?i] =>
    assert (rdbLoadCrdtInfoAuxFields mstime dbnum (str "peer-proxy") text i =
      (p ← need (crdtMasters (w_crdt (i_world i)) !! g);
       o ← str2proxy (proxy_type p) text;
       match o with None => Ok None | Some px => Ok (Some (set_i_world (set_peer g (set_proxy (Some px) p) (i_world i)) i)) end)) as -> by reflexivity
  end.
  cbn [i_world]. rewrite set_peer_lookup. cbn [need mbind res_bind]. unfold str2proxy. cbn [proxy_type set_proxy_type].
  rewrite Z.eqb_refl, Er. cbn [mbind res_bind]. unfold set_i_world. cbn [i_current i_rewrite]. rewrite set_peer_set_peer. reflexivity.
Qed.

(** All the peers, and all the fields. *)

Definition host_of (p : peer) : bytes := default [] (masterhost p).

Definition id_of (p : peer) : bytes := default [] (fst (peer_position p)).

Definition saveable (g : Z) (p : peer) : Prop := peer_saveable dbnum g p (host_of p) (id_of p).

Definition all_peer_fields (gids : list Z) (masters : gmap Z peer) : list (bytes * bytes) :=
  concat (map (fun g => match masters !! g with Some p => peer_fields p (host_of p) (id_of p) | None => [] end) gids).

Lemma save_peers_fields compression mem gids masters :
  map_Forall saveable masters ->
  aux_saves (save_peers compression mem gids masters) (all_peer_fields gids masters).
Proof.
  intros Hall. induction gids as [|g gids IH]; [apply aux_saves_nil|].
  unfold all_peer_fields. cbn [save_peers map concat]. destruct (masters !! g) as [p|] eqn:E; [|exact IH].
  apply aux_saves_seq; [|exact IH]. eapply save_peer_fields; [by apply Hall|done].
Qed.

Lemma load_peers_fields gids masters fields : forall w cur rw,
  NoDup gids -> map_Forall saveable masters -> (forall g, g ∈ gids -> crdtMasters (w_crdt w) !! g = None) ->
  exists m ps cur' rw',
    load_fields mstime dbnum (all_peer_fields gids masters ++ fields) (MkInfo w cur rw) =
    load_fields mstime dbnum fields (MkInfo (set_w_crdt (set_peer_set ps (set_crdtMasters m (w_crdt w))) w) cur' rw') /\
    (forall g, m !! g = if decide (g ∈ gids) then restored_peer mstime (w_unixtime w) <$> masters !! g
                        else crdtMasters (w_crdt w) !! g) /\
    (forall g, 0 <= g -> (gid_in (peer_set (w_crdt w)) g = true -> gid_in ps g = true) /\
       (g ∈ gids -> is_Some (masters !! g) -> g <> crdt_gid (w_crdt w) -> gid_in ps g = true)).
Proof.
  induction gids as [|g gids IH]; intros w cur rw Hnd Hall Hnone.
  - exists (crdtMasters (w_crdt w)), (peer_set (w_crdt w)), cur, rw.
    split; [|split; [done|intros; split; [done|intros []%not_elem_of_nil]]]. simpl. by destruct w as [? ? []].
  - apply NoDup_cons in Hnd as [Hg Hnd]. unfold all_peer_fields. cbn [map concat].
    destruct (masters !! g) as [p|] eqn:E.
    + pose proof (Hall g p E) as Hp. rewrite <- app_assoc, (load_peer_fields g) by (done || (apply Hnone; by left)).
      pose proof (ps_range _ _ _ _ _ Hp) as Hgr.
      set (w1 := set_peer g _ _).
      destruct (IH w1 (Some g) true Hnd Hall) as (m & ps & cur' & rw' & E1 & Hm & Hps).
      { intros g' Hg'. unfold w1, set_peer, addPeerSet. simpl. destruct (g =? crdt_gid (w_crdt w)); simpl;
        (rewrite lookup_insert_ne by (intros ->; done)); apply Hnone; by right. }
      assert (crdtMasters (w_crdt w1) = <[g := restored_peer mstime (w_unixtime w) p]> (crdtMasters (w_crdt w))) as Em.
      { unfold w1, set_peer, addPeerSet. simpl. by destruct (g =? crdt_gid (w_crdt w)). }
      exists m, ps, cur', rw'. split; [|split].
      * unfold all_peer_fields in E1. rewrite E1. do 2 f_equal. unfold w1, set_peer, addPeerSet. destruct w as [? ? []]. simpl.
        by destruct (g =? crdt_gid).
      * intros g'. rewrite Hm, Em. change (w_unixtime w1) with (w_unixtime w).
        destruct (decide (g' ∈ gids)) as [Hin|Hni].
        { rewrite decide_True by by right. done. }
        destruct (decide (g' = g)) as [-> |Hne].
        { rewrite decide_True by by left. by rewrite lookup_insert_eq, E. }
        rewrite lookup_insert_ne by done. rewrite decide_False; [done|]. rewrite not_elem_of_cons. done.
      * intros g' Hg'. destruct (Hps g' Hg') as [H1 H2].
        assert (gid_in (peer_set (w_crdt w)) g' = true -> gid_in (peer_set (w_crdt w1)) g' = true) as Hmono.
        { intros Hi. unfold w1, set_peer, addPeerSet. simpl. destruct (g =? crdt_gid (w_crdt w)); simpl; [done|].
          rewrite gid_in_lor, Hi by lia. done. }
        split; [auto|]. intros [-> |Hin]%elem_of_cons Hs Hne.
        { apply H1. unfold w1, set_peer, addPeerSet. simpl. destruct (Z.eqb_spec g (crdt_gid (w_crdt w))); [done|]. simpl.
          rewrite gid_in_lor, Z.eqb_refl by lia. apply orb_true_r. }
        apply H2; [done|done|]. unfold w1, set_peer, addPeerSet. simpl. by destruct (g =? crdt_gid (w_crdt w)).
    + destruct (IH w cur rw Hnd Hall) as (m & ps & cur' & rw' & E1 & Hm & Hps); [intros; apply Hnone; by right|].
      exists m, ps, cur', rw'. split; [exact E1|]. split.
      * intros g'. rewrite Hm. destruct (decide (g' ∈ gids)) as [Hin|Hni]; [by rewrite decide_True by by right|].
        destruct (decide (g' = g)) as [-> |Hne].
        { rewrite decide_True by by left. rewrite E. apply Hnone. by left. }
        rewrite decide_False; [done|]. rewrite not_elem_of_cons. done.
      * intros g' Hg'. destruct (Hps g' Hg') as [H1 H2]. split; [done|]. intros [-> |Hin]%elem_of_cons Hs Hne; [|auto].
        rewrite E in Hs. by destruct Hs.
Qed.

End restored.

(** The whole of the information. *)

Definition info_fields (w : world) : list (bytes * bytes) :=
  [(str "vclock", vectorClockToSds (vectorClock (w_crdt w))); (str "crdt-repl-id", replid (w_peers w));
   (str "crdt-repl-offset", print_Z (master_repl_offset (w_peers w)))] ++
  all_peer_fields (seqZ 0 (MAX_PEERS + 1)) (crdtMasters (w_crdt w)) ++
  [(str "crdt-offline-gid", print_Z (offline_peer_set (w_crdt w)))].

Definition world_saveable (dbnum : Z) (w : world) : Prop :=
  dbnum < 2 ^ 31 /\ vc_ok (vectorClock (w_crdt w)) /\ short (vectorClockToSds (vectorClock (w_crdt w))) /\
  plain (replid (w_peers w)) /\ length (replid (w_peers w)) = CONFIG_RUN_ID_SIZE /\
  LLONG_MIN <= master_repl_offset (w_peers w) <= LLONG_MAX /\
  map_Forall (saveable dbnum) (crdtMasters (w_crdt w)) /\ - 2 ^ 31 <= offline_peer_set (w_crdt w) < 2 ^ 31.

Lemma save_info_fields compression mem dbnum w :
  world_saveable dbnum w -> aux_saves (rdbSaveCrdtInfoAuxFields compression mem w) (info_fields w).
Proof.
  intros (Hn & Hv & Sv & Hid & Lid & Hoff & Hp & Ho).
  assert (short (replid (w_peers w))) by (unfold short; rewrite Lid; done).
  unfold rdbSaveCrdtInfoAuxFields, info_fields.
  apply (aux_saves_seq _ _ [_]); [apply aux_saves_str; [decide_now|by apply plain_clock|done|done]|].
  apply (aux_saves_seq _ _ [_]); [apply aux_saves_str; [decide_now|done|done|done]|].
  apply (aux_saves_seq _ _ [_]); [apply aux_saves_int; [decide_now|done|done]|].
  apply aux_saves_seq; [by apply (save_peers_fields dbnum)|].
  apply aux_saves_int; [decide_now|done|]. unfold LLONG_MIN, LLONG_MAX. lia.
Qed.

(** A server that has just started: no peer is known, no group is offline. *)

Definition fresh_world (w : world) : Prop :=
  server_ok (w_crdt w) /\ vectorClockCache (w_crdt w) = [] /\ offline_peer_set (w_crdt w) = 0 /\
  crdtMasters (w_crdt w) = ∅.

(** The server [w'] has the information that was saved from [w], and the time and
    gid of [w0]. *)

Record restored (mstime : Z) (w w0 w' : world) : Prop := {
  rs_clock : forall g, 0 < g < 16 -> vcu (vectorClock (w_crdt w')) g = vcu (vectorClock (w_crdt w)) g;
  rs_id : replid (w_peers w') = replid (w_peers w);
  rs_offset : master_repl_offset (w_peers w') = master_repl_offset (w_peers w);
  rs_peers : forall g, crdtMasters (w_crdt w') !! g = restored_peer mstime (w_unixtime w0) <$> crdtMasters (w_crdt w) !! g;
  rs_offline : offline_peer_set (w_crdt w') = offline_peer_set (w_crdt w);
  rs_ok : server_ok (w_crdt w') /\ cache_ok (w_crdt w');
  rs_set : forall g, is_Some (crdtMasters (w_crdt w) !! g) -> g <> crdt_gid (w_crdt w0) ->
           gid_in (peer_set (w_crdt w')) g = true
}.

Lemma setOfflinePeerSet_frame gids s s' :
  setOfflinePeerSet gids s = Ok s' -> crdtMasters s' = crdtMasters s /\ peer_set s' = peer_set s /\ crdt_gid s' = crdt_gid s.
Proof.
  unfold setOfflinePeerSet, initVectorClockCache. intros H. repeat case_match; simplify_eq; try done.
  destruct (cache_units _ _ _); simplify_eq/=. done.
Qed.

Lemma load_clock mstime dbnum vc i :
  vc_ok vc -> 0 < crdt_gid (w_crdt (i_world i)) < 16 ->
  exists vc', rdbLoadCrdtInfoAuxFields mstime dbnum (str "vclock") (vectorClockToSds vc) i =
    Ok (Some (set_i_world (set_w_crdt (set_vectorClock vc' (w_crdt (i_world i))) (i_world i)) i)) /\
    vc_ok vc' /\ forall g, vcu vc' g = vcu vc g.
Proof.
  intros Hok Hg. set (s := w_crdt (i_world i)) in *.
  assert (rdbLoadCrdtInfoAuxFields mstime dbnum (str "vclock") (vectorClockToSds vc) i =
    (vc ← sdsToVectorClock (vectorClockToSds vc);
     vc ← (if isNullVectorClockUnit (getVectorClockUnit vc (crdt_gid s)) then addVectorClockUnit vc (crdt_gid s) 0 else Ok vc);
     Ok (Some (set_i_world (set_w_crdt (set_vectorClock vc s) (i_world i)) i)))) as -> by reflexivity.
  rewrite (proj1 (clock_text vc Hok)). cbn [mbind res_bind]. unfold isNullVectorClockUnit.
  rewrite getVectorClockUnit_clock by done. destruct (Z.eqb_spec (vcu vc (crdt_gid s)) 0) as [E|E]; [|by exists vc].
  destruct (addVectorClockUnit_spec vc (crdt_gid s) 0 Hok Hg) as (r & -> & Hr & _ & M).
  exists r. split; [done|]. split; [done|]. intros g. unfold vcu in *. rewrite M.
  destruct (decide (g = crdt_gid s)) as [-> |Hne]; [by rewrite lookup_insert_eq, E|by rewrite lookup_insert_ne].
Qed.

Lemma load_info_fields mstime dbnum w w0 :
  world_saveable dbnum w -> fresh_world w0 ->
  exists i, load_fields mstime dbnum (info_fields w) (MkInfo w0 None false) = Ok (Some i) /\ restored mstime w w0 (i_world i).
Proof.
  intros (Hn & Hv & Sv & Hid & Lid & Hoff & Hp & Ho) ((Hg & Hv0 & Hc0 & Hgc0 & _) & Ec & Eo & Em).
  unfold info_fields. cbn [app]. rewrite load_fields_cons.
  destruct (load_clock mstime dbnum (vectorClock (w_crdt w)) (MkInfo w0 None false) Hv Hg) as (vc & -> & Hvc & Hvcu).
  cbn [mbind res_bind]. rewrite load_fields_cons.
  match goal with |- context [rdbLoadCrdtInfoAuxFields _ _ _ (replid _) ?i] =>
    assert (rdbLoadCrdtInfoAuxFields mstime dbnum (str "crdt-repl-id") (replid (w_peers w)) i =
      Ok (Some (if Nat.eqb (length (replid (w_peers w))) CONFIG_RUN_ID_SIZE
        then set_i_world (set_w_peers (set_replid (replid (w_peers w)) (w_peers (i_world i))) (i_world i)) i else i))) as -> by reflexivity
  end.
  rewrite Lid, Nat.eqb_refl. cbn [mbind res_bind]. rewrite load_fields_cons.
  match goal with |- context [rdbLoadCrdtInfoAuxFields _ _ _ (print_Z ?z) ?i] =>
    assert (rdbLoadCrdtInfoAuxFields mstime dbnum (str "crdt-repl-offset") (print_Z z) i =
      Ok (Some (set_i_world (set_w_peers (set_master_repl_offset (strtoll (print_Z z)) (w_peers (i_world i))) (i_world i)) i))) as -> by reflexivity
  end.
  rewrite (proj1 (print_Z_reads _ Hoff)). cbn [mbind res_bind].
  unfold set_i_world. cbn [i_world i_current i_rewrite].
  match goal with |- context [load_fields _ _ _ (MkInfo ?w _ _)] => set (w1 := w) end.
  destruct (load_peers_fields mstime dbnum Hn (seqZ 0 (MAX_PEERS + 1)) (crdtMasters (w_crdt w))
    [(str "crdt-offline-gid", print_Z (offline_peer_set (w_crdt w)))] w1 None false) as (m & ps & cur & rw & -> & Hm & Hps);
    [apply NoDup_seqZ|done|intros; unfold w1; simpl; by rewrite Em|].
  set (w2 := set_w_crdt _ w1). rewrite load_fields_cons.
  assert (forall i z, rdbLoadCrdtInfoAuxFields mstime dbnum (str "crdt-offline-gid") (print_Z z) i =
      (s ← setOfflinePeerSet (atoi (print_Z z)) (w_crdt (i_world i)); Ok (Some (set_i_world (set_w_crdt s (i_world i)) i)))) as -> by reflexivity.
  rewrite atoi_print by lia. cbn [i_world].
  assert (forall g, m !! g = restored_peer mstime (w_unixtime w0) <$> crdtMasters (w_crdt w) !! g) as Hm'.
  { intros g. rewrite Hm. destruct (decide _) as [|Hni]; [done|]. unfold w1. simpl. rewrite Em, lookup_empty.
    destruct (crdtMasters (w_crdt w) !! g) as [p|] eqn:E; [|done]. exfalso. apply Hni.
    pose proof (ps_range _ _ _ _ _ (Hp g p E)). apply elem_of_seqZ. change (MAX_PEERS + 1) with 16. lia. }
  assert (server_ok (w_crdt w2)) as Hs2.
  { split; [done|]. split; [done|]. split; [done|]. split; [done|]. intros g p. simpl. rewrite Hm'.
    destruct (crdtMasters (w_crdt w) !! g); [|done]. intros [= <-]. split; apply vc_ok_nil. }
  destruct (setOfflinePeerSet_spec (offline_peer_set (w_crdt w)) (w_crdt w2) Hs2) as (s' & E & Hs' & Hc' & Eo' & Ev'); [by left|].
  rewrite E. cbn [mbind res_bind]. eexists. split; [reflexivity|].
  destruct (setOfflinePeerSet_frame _ _ _ E) as (Em' & Eps & _). cbn [i_world set_i_world].
  split; cbn [w_crdt w_peers set_w_crdt]; try done.
  - intros g _. rewrite Ev'. apply Hvcu.
  - intros g. rewrite Em'. apply Hm'.
  - intros g Hs Hne. rewrite Eps. destruct Hs as [p E0]. pose proof (ps_range _ _ _ _ _ (Hp g p E0)).
    apply Hps; [lia|apply elem_of_seqZ; change (MAX_PEERS + 1) with 16; lia|by eexists|done].
Qed.

(** ** The information survives a restart *)

(** The information of a server survives a restart.  Saving it writes
    auxiliary fields, and loading them into a server that has just started gives
    back the clock unit of every group, the replication id and offset, the
    offline groups and every peer: a peer is restored with its address, its proxy
    and a link that is not connected, at the database, replication id and offset
    of the saved link.  The invariants of the server and of its clock cache hold
    afterwards, and every restored peer is in the set of peers. *)
Lemma crdt_info_roundtrip compression mem mstime dbnum w w0
  (Hw : world_saveable dbnum w) (H0 : fresh_world w0) :
  exists fields i, aux_saves (rdbSaveCrdtInfoAuxFields compression mem w) fields /\
    load_fields mstime dbnum fields (MkInfo w0 None false) = Ok (Some i) /\ restored mstime w w0 (i_world i).
Proof.
  destruct (load_info_fields mstime dbnum w w0 Hw H0) as (i & E & R).
  exists (info_fields w), i. split; [by apply (save_info_fields _ _ dbnum)|done].
Qed.

Definition example_saved_peer : peer :=
  MkPeer 2 None (Some (str "10.0.0.2")) 6379 None (Some (MkClient 2 7 true false 3 150 150 (Some example_id) 0))
    REPL_STATE_CONNECT (-1) 0 0 None (-1) [Clk 1 4; Clk 2 9] 3 [] 0 XPIPE_PROXY
    (Some (MkXpipeProxy [MkPoint (str "10.0.0.1") 80 XPIPE_PROXY_NONE] 0 (Some (str "PROXYTCP://x")))).

Definition example_saved_world : world :=
  set_w_peers (set_replid example_id (w_peers example_world)) (set_peer 2 example_saved_peer example_world).

Definition example_fresh_world : world :=
  set_w_crdt (MkServer 1 (str "ns") [Clk 1 0] [] [] ∅ 0 0 false 0) example_world.

Lemma example_world_saveable : world_saveable 16 example_saved_world.
Proof.
  split; [lia|]. split; [decide_now|]. split; [decide_now|]. split; [decide_now|]. split; [done|].
  split; [decide_now|]. split; [|decide_now].
  apply map_Forall_insert_2; [|apply map_Forall_empty].
  split; try (decide_now || done).
  right. split; [done|]. eexists. split; [reflexivity|]. split; [decide_now|].
  intros text [= <-]. split; decide_now.
Qed.

Lemma example_world_fresh : fresh_world example_fresh_world.
Proof.
  split; [|done]. split; [simpl; lia|]. split; [decide_now|]. split; [decide_now|]. split; [decide_now|]. apply map_Forall_empty.
Qed.

(** A peer whose link was never made has no replication id: saving it reads an
    array that was never written. *)

Lemma save_seq_done f g r r' : (f ;+ g) r = Ok (Some r') -> exists r1, f r = Ok (Some r1) /\ g r1 = Ok (Some r').
Proof. unfold save_seq. destruct (f r) as [[r1|]| |]; try done. intros H. by exists r1. Qed.

Lemma save_unlinked_peer compression mem p r r' :
  master p = None -> cached_master p = None -> master_replid p = None -> save_peer compression mem p r <> Ok (Some r').
Proof.
  intros Em Ec Ei. unfold save_peer, peer_position. rewrite Em, Ec, Ei.
  intros (r1 & _ & (r2 & _ & (r3 & _ & (r4 & _ & (r5 & H & _)%save_seq_done)%save_seq_done)%save_seq_done)%save_seq_done)%save_seq_done.
  done.
Qed.

(** Loading a file whose offline groups are those of the server keeps the cache of
    the clock, although the clock itself has been replaced. *)

Lemma load_same_offline mstime dbnum gids i :
  - 2 ^ 31 <= gids < 2 ^ 31 -> offline_peer_set (w_crdt (i_world i)) = gids ->
  rdbLoadCrdtInfoAuxFields mstime dbnum (str "crdt-offline-gid") (print_Z gids) i = Ok (Some i).
Proof.
  intros Hg E.
  assert (rdbLoadCrdtInfoAuxFields mstime dbnum (str "crdt-offline-gid") (print_Z gids) i =
      (s ← setOfflinePeerSet (atoi (print_Z gids)) (w_crdt (i_world i)); Ok (Some (set_i_world (set_w_crdt s (i_world i)) i)))) as -> by reflexivity.
  rewrite atoi_print by done. unfold setOfflinePeerSet. rewrite E, Z.eqb_refl. by destruct i as [[]].
Qed.

Lemma load_clock_stale_cache :
  exists i i', server_ok (w_crdt (i_world i)) /\ cache_ok (w_crdt (i_world i)) /\
    load_fields 5 16 [(str "vclock", str "1:7;2:9"); (str "crdt-offline-gid", print_Z 4)] i = Ok (Some i') /\
    ~ cache_ok (w_crdt (i_world i')).
Proof.
  exists (MkInfo (set_w_crdt (MkServer 1 (str "ns") [Clk 1 5; Clk 2 8] [Clk 1 5] [] ∅ 4 4 false 0) example_world) None false).
  eexists. split; [|split; [|split; [vm_compute; reflexivity|]]].
  - split; [simpl; lia|]. split; [decide_now|]. split; [decide_now|]. split; [decide_now|]. apply map_Forall_empty.
  - right. vm_compute. done.
  - intros [H|H]; vm_compute in H; done.
Qed.
