(* ===== verification/Convert.v ===== *)
(** * Values of Redis' own types, as commands ([src/src/ctrip_crdt_rdb.c])

    A file that was written by a Redis without CRDTs holds strings, hashes, sets
    and sorted sets.  Each of them is turned into commands that a client could
    have sent, and these make the CRDT values.  A command has room for
    [MAX_FAKECLIENT_ARGV] arguments, so a big value takes several. *)

From S2P Require Import Prelude Util Sds.

Definition MAX_FAKECLIENT_ARGV : nat := 20.

(** The values; [SOther] is one of a type that has no CRDT. *)

Inductive stock (score : Type) : Type :=
| SString (s : bytes)
| SInt (n : Z)
| SHash (fields : list (bytes * bytes))
| SSet (members : list bytes)
| SZset (elements : list (score * bytes))
| SOther (otype : Z).

Arguments SString {score} _.
Arguments SInt {score} _.
Arguments SHash {score} _.
Arguments SSet {score} _.
Arguments SZset {score} _.
Arguments SOther {score} _.

Section convert.

(** [ld2string] is how a score is printed. *)

Context {score : Type} (ld2string : score -> bytes).

(** One pass of the inner loop: the arguments from index [i] on, as long as there
    are items and room. *)

Fixpoint fill_argv (i : nat) (items : list (list bytes)) : list bytes * list (list bytes) :=
  match items with
  | [] => ([], [])
  | item :: items =>
      let i := (i + length item)%nat in
      match items with
      | [] => (item, [])
      | _ => if (i <? MAX_FAKECLIENT_ARGV)%nat
             then let '(args, rest) := fill_argv i items in (item ++ args, rest)
             else (item, items)
      end
  end.

(** The outer loop; a pass takes at least one item. *)

Fixpoint fill_commands (fuel : nat) (name key : bytes) (items : list (list bytes)) : list (list bytes) :=
  match fuel, items with
  | S fuel, _ :: _ =>
      let '(args, rest) := fill_argv 2 items in
      (name :: key :: args) :: fill_commands fuel name key rest
  | _, _ => []
  end.

Definition commands_of (name key : bytes) (items : list (list bytes)) : list (list bytes) :=
  fill_commands (length items) name key items.

Definition getLongLongFromObject (val : stock score) : option Z :=
  match val with
  | SString s => string2ll s
  | SInt n => Some n
  | _ => None
  end.

(** The commands for a value; [None] is [C_ERR]. *)

Definition data2CrdtData (key : bytes) (val : stock score) : res (option (list (list bytes))) :=
  match val with
  | SString s =>
      match getLongLongFromObject val with
      | Some n => text ← sdsfromlonglong n; Ok (Some [[str "SET"; key; text]])
      | None => Ok (Some [[str "SET"; key; s]])
      end
  | SInt n => text ← sdsfromlonglong n; Ok (Some [[str "SET"; key; text]])
  | SHash fields => Ok (Some (commands_of (str "HSET") key (map (fun '(f, v) => [f; v]) fields)))
  | SSet members => Ok (Some (commands_of (str "SADD") key (map (fun m => [m]) members)))
  | SZset elements => Ok (Some (commands_of (str "ZADD") key (map (fun '(s, e) => [ld2string s; e]) elements)))
  | SOther _ => Ok None
  end.

Definition expire2CrdtExpire (key : bytes) (expiretime : Z) : list bytes :=
  let '(buf, len) := ll2string (replicate 21 0) expiretime in
  [str "PEXPIREAt"; key; take (Z.to_nat len) buf].

Definition crdtSelectDb (dbid : Z) : list bytes :=
  let '(buf, len) := ll2string (replicate 21 0) dbid in
  [str "select"; take (Z.to_nat len) buf].

(** ** What the commands hold *)

Lemma fill_argv_spec k items : forall i,
  (0 < k)%nat -> Forall (fun item => length item = k) items -> items <> [] ->
  (i + k <= MAX_FAKECLIENT_ARGV)%nat -> Nat.divide k (MAX_FAKECLIENT_ARGV - i) ->
  let '(args, rest) := fill_argv i items in
  concat items = args ++ concat rest /\ (length rest < length items)%nat /\
  (k <= length args)%nat /\ (i + length args <= MAX_FAKECLIENT_ARGV)%nat /\ Forall (fun item => length item = k) rest.
Proof.
  induction items as [|item items IH]; intros i Hk Hf Hne Hi Hd; [done|].
  apply Forall_cons in Hf as [Hl Hf]. cbn [fill_argv]. rewrite Hl. destruct items as [|item' items].
  - cbn [concat length]. rewrite app_nil_r. repeat split; [lia|lia|lia|constructor].
  - destruct (Nat.ltb_spec (i + k) MAX_FAKECLIENT_ARGV) as [Hlt|Hge].
    + assert (Nat.divide k (MAX_FAKECLIENT_ARGV - (i + k))) as Hd'.
      { replace (MAX_FAKECLIENT_ARGV - (i + k))%nat with ((MAX_FAKECLIENT_ARGV - i) - k)%nat by lia.
        apply Nat.divide_sub_r; [done|apply Nat.divide_refl]. }
      assert (i + k + k <= MAX_FAKECLIENT_ARGV)%nat as Hr.
      { apply Nat.divide_pos_le in Hd'; lia. }
      specialize (IH (i + k)%nat Hk Hf ltac:(done) Hr Hd').
      destruct (fill_argv (i + k) (item' :: items)) as [args rest]. destruct IH as (E & L & K & B & F).
      change (concat (item :: item' :: items)) with (item ++ concat (item' :: items)).
      rewrite E, app_assoc, length_app. cbn [length] in L |- *. repeat split; [lia|lia|lia|done].
    + cbn [concat length]. repeat split; [lia|lia|lia|done].
Qed.

(** Every command names the key, has a sensible number of arguments, and together
    they hold the items in order. *)

Lemma fill_commands_spec k name key n : forall items,
  (0 < k)%nat -> Nat.divide k (MAX_FAKECLIENT_ARGV - 2) -> (k <= MAX_FAKECLIENT_ARGV - 2)%nat ->
  Forall (fun item => length item = k) items -> (length items <= n)%nat ->
  let cmds := fill_commands n name key items in
  concat (map (drop 2) cmds) = concat items /\
  Forall (fun c => take 2 c = [name; key] /\ (2 + k <= length c <= MAX_FAKECLIENT_ARGV)%nat) cmds.
Proof.
  induction n as [|n IH]; intros items Hk Hd Hm Hf Hn; destruct items as [|item items]; cbn [length] in Hn; try lia;
    try (split; [done|constructor]).
  cbn [fill_commands].
  pose proof (fill_argv_spec k (item :: items) 2 Hk Hf ltac:(done) ltac:(lia) Hd) as H.
  destruct (fill_argv 2 (item :: items)) as [args rest]. destruct H as (E & L & K & B & F). cbn [length] in L.
  destruct (IH rest Hk Hd Hm F ltac:(lia)) as [E1 F1]. split.
  - rewrite E. cbn [map concat drop]. by rewrite E1.
  - constructor; [|done]. split; [done|]. cbn [length]. lia.
Qed.

Lemma commands_of_spec k name key items :
  (k = 1 \/ k = 2)%nat -> Forall (fun item => length item = k) items ->
  concat (map (drop 2) (commands_of name key items)) = concat items /\
  Forall (fun c => take 2 c = [name; key] /\ (2 + k <= length c <= MAX_FAKECLIENT_ARGV)%nat) (commands_of name key items).
Proof.
  intros Hk Hf. apply fill_commands_spec; try done; destruct Hk; subst k; try lia.
  - by exists 18%nat.
  - by exists 9%nat.
  - unfold MAX_FAKECLIENT_ARGV. lia.
  - unfold MAX_FAKECLIENT_ARGV. lia.
Qed.

(** What a value is made of, as the commands name it. *)

Definition contents (val : stock score) : option (bytes * list bytes) :=
  match val with
  | SString s => Some (str "SET", [s])
  | SInt n => Some (str "SET", [print_Z n])
  | SHash fields => Some (str "HSET", concat (map (fun '(f, v) => [f; v]) fields))
  | SSet members => Some (str "SADD", members)
  | SZset elements => Some (str "ZADD", concat (map (fun '(s, e) => [ld2string s; e]) elements))
  | SOther _ => None
  end.

(** The negation of the smallest integer overflows. *)

Definition convertible (val : stock score) : Prop :=
  match val with
  | SString s => s <> print_Z LLONG_MIN
  | SInt n => LLONG_MIN < n <= LLONG_MAX
  | _ => True
  end.


End convert.

