(* ===== verification/RdbFile.v ===== *)
(** * RDB files ([src/src/rdb.c], [src/src/ctrip_crdt_rdb.c])

    A file holds a version, the auxiliary fields, the data and tombstones of
    every database, the scripts and a checksum.  Values are written and read by
    the functions of the CRDT module. *)

From S2P Require Import Prelude Util Sds VectorClock VcTheory VcText VcClaims Proxy CrdtServer Gc Backlog Resp Rio World Feed Psync PeerLink PeerState Crc Objects Keyspace Lzf Rdb RdbInfo Convert.

Definition CTRIP_RDB_PREFIX : Z := 1000.
Definition RDB_CRDT_VALUE : Z := 200.
Definition RDB_OPCODE_RESIZEDB : Z := 251.
Definition RDB_OPCODE_EXPIRETIME_MS : Z := 252.
Definition RDB_OPCODE_EXPIRETIME : Z := 253.
Definition RDB_OPCODE_SELECTDB : Z := 254.
Definition RDB_OPCODE_EOF : Z := 255.
Definition UINT32_MAX : Z := 2 ^ 32 - 1.

(** [repl_id] is [None] as long as [repl_id_is_set] is 0. *)

Record rdbSaveInfo := MkRdbInfo {
  repl_stream_db : Z;
  repl_id : option bytes;
  repl_offset : Z;
  isCrdtRdb : bool
}.

Definition RDB_SAVE_INFO_INIT : rdbSaveInfo := MkRdbInfo (-1) None (-1) false.

(** ** What the module gives

    [save_crdt_value] writes a value and a tombstone of a key; it returns
    nothing, so the caller does not learn of an error.  [load_crdt_value] reads
    them and stores them in the database.  [None]: the module is not there. *)

Class RdbModule (object : Type) := {
  save_crdt_value : option (bytes -> option (dbval object) -> option (dbval object) -> rio -> rio);
  load_crdt_value : option (bytes -> redisDb object -> loader (redisDb object))
}.

(** ** Saving *)

(** A save that also gives a value. *)

Definition saving (A : Type) : Type := rio -> res (option (A * rio)).

Definition saved {A} (f : saver) (x : A) : saving A :=
  fun r => o ← f r; Ok match o with None => None | Some r => Some (x, r) end.

Definition saving_bind {A B} (f : saving A) (g : A -> saving B) : saving B :=
  fun r => o ← f r; match o with None => Ok None | Some (x, r) => g x r end.

Notation "x <~~ f ;; g" := (saving_bind f (fun x => g)) (at level 100, f at next level, g at level 200, right associativity) : rio_scope.

Section saving.

Context {object score : Type} `{CrdtModule object} `{RdbModule object}.

(** [iter] is the order in which a dictionary is iterated, [failed] what a failed
    write leaves of a destination, [any_loading] is [server.loading ||
    crdtServer.loading]; [save_type] and [save_object] write the type and the
    contents of a value that is not a CRDT. *)

Context (compression : bool) (mem : bytes -> Z -> Z) (addr : Z) (rdb_checksum any_loading : bool)
  (now ctime used_memory : Z) (failed : rio -> rio)
  (iter : gmap bytes (dbval object) -> list (bytes * dbval object))
  (save_type save_object : dbval object -> saver).

Definition rdbSaveInfoAuxFields (aof_preamble : bool) (rsi : option rdbSaveInfo) (w : world) : saver :=
  let str_int := rdbSaveAuxFieldStrInt compression mem in
  let str_str := rdbSaveAuxFieldStrStr compression mem in
  str_str (str "redis-ver") (str "4.0.8") ;+
  str_int (str "redis-bits") 64 ;+
  str_int (str "ctime") ctime ;+
  str_int (str "used-mem") used_memory ;+
  match rsi with
  | Some rsi =>
      str_int (str "repl-stream-db") (repl_stream_db rsi) ;+
      str_str (str "repl-id") (replid (w_server w)) ;+
      str_int (str "repl-offset") (master_repl_offset (w_server w))
  | None => save_nothing
  end ;+
  (fun r => o ← rdbSaveCrdtInfoAuxFields compression mem w r; Ok (Some (default (failed r) o))) ;+
  str_int (str "aof-preamble") (if aof_preamble then 1 else 0).

Definition save_expire (expire : Z) : saver :=
  if negb (expire =? -1) then rdbSaveType RDB_OPCODE_EXPIRETIME_MS ;+ rdbSaveMillisecondTime expire else save_nothing.

Definition rdbSaveKeyValuePair (key : bytes) (val : dbval object) (expiretime : Z) : saver :=
  if negb (expiretime =? -1) && (expiretime <? now) then save_nothing else
  save_expire expiretime ;+ save_type val ;+ save_string compression mem key ;+ save_object val.

Definition rdbSaveCrdtDbSize (db : redisDb object) : saver :=
  rdbSaveLen (Z.min (Z.of_nat (size (deleted_keys db))) UINT32_MAX).

(** A database being saved, and the rest of the server: looking up a tombstone
    may collect it. *)

Definition dstate : Type := redisDb object * crdtServer.

Definition save_entry (save : bytes -> option (dbval object) -> option (dbval object) -> rio -> rio)
    (entry : bytes * dbval object) (st : dstate) : saving dstate :=
  let '(key, o) := entry in
  let '(db, s) := st in
  fun r =>
  expire ← getExpire db key;
  if negb (isModuleCrdt o) then saved (rdbSaveKeyValuePair key o expire) st r else
  (_ <~~ saved (save_expire expire ;+ rdbSaveType RDB_CRDT_VALUE ;+ save_string compression mem key) tt ;;
   fun r =>
   '(tombstone, d, s) ← lookupTombstoneKey any_loading (deleted_keys db) key s;
   Ok (Some ((set_deleted_keys d db, s), save key (Some o) tombstone r))) r.

Fixpoint save_entries save (entries : list (bytes * dbval object)) (st : dstate) : saving dstate :=
  match entries with
  | [] => saved save_nothing st
  | e :: entries => st <~~ save_entry save e st ;; save_entries save entries st
  end.

(** The tombstones of keys that have no value. *)

Fixpoint save_tombstones (save : bytes -> option (dbval object) -> option (dbval object) -> rio -> rio)
    (entries : list (bytes * dbval object)) (st : dstate) : saving dstate :=
  match entries with
  | [] => saved save_nothing st
  | (key, o) :: entries =>
      if bool_decide (is_Some (dict (fst st) !! key)) then save_tombstones save entries st else
      _ <~~ saved (rdbSaveType RDB_CRDT_VALUE ;+ save_string compression mem key) tt ;;
      _ <~~ (fun r => Ok (Some (tt, save key None (Some o) r))) ;;
      save_tombstones save entries st
  end.

Definition save_head (crdt_enabled : bool) (j : Z) (db : redisDb object) : saver :=
  rdbSaveType RDB_OPCODE_SELECTDB ;+
  rdbSaveLen j ;+
  rdbSaveType RDB_OPCODE_RESIZEDB ;+
  rdbSaveLen (Z.min (Z.of_nat (size (dict db))) UINT32_MAX) ;+
  rdbSaveLen (Z.min (Z.of_nat (size (expires db))) UINT32_MAX) ;+
  (if crdt_enabled then rdbSaveCrdtDbSize db else save_nothing).

Definition save_database (crdt_enabled : bool) save (j : Z) (db : redisDb object) (s : crdtServer) : saving dstate :=
  if bool_decide (dict db = ∅) && (negb crdt_enabled || bool_decide (deleted_keys db = ∅)) then saved save_nothing (db, s) else
  _ <~~ saved (save_head crdt_enabled j db) tt ;;
  st <~~ save_entries save (iter (dict db)) (db, s) ;;
  save_tombstones save (iter (deleted_keys (fst st))) st.

Fixpoint save_databases (crdt_enabled : bool) save (j : Z) (dbs : list (redisDb object)) (s : crdtServer)
  : saving (list (redisDb object) * crdtServer) :=
  match dbs with
  | [] => saved save_nothing ([], s)
  | db :: dbs =>
      st <~~ save_database crdt_enabled save j db s ;;
      rest <~~ save_databases crdt_enabled save (j + 1) dbs (snd st) ;;
      saved save_nothing (fst st :: fst rest, snd rest)
  end.

Fixpoint save_scripts (scripts : list bytes) : saver :=
  match scripts with
  | [] => save_nothing
  | body :: scripts => rdbSaveAuxField compression mem (str "lua") body ;+ save_scripts scripts
  end.

(** The destination updates a checksum with every write: it is that of all the
    bytes since the magic. *)

Definition rioGenericUpdateChecksum (cksum : Z) (write : Z * bytes) : Z := crc64 (fst write) cksum (snd write).

Lemma cksum_of_writes ws cksum a :
  0 <= cksum < 2 ^ 64 -> Forall (fun w => bytes_ok (snd w)) ws ->
  fold_left rioGenericUpdateChecksum ws cksum = crc64 a cksum (concat (map snd ws)).
Proof.
  intros Hc Hw. rewrite crc64_spec by (done || by apply Forall_concat, Forall_fmap).
  revert cksum Hc. induction Hw as [|[b w] ws Hb Hw IH]; intros cksum Hc; [done|].
  cbn [fold_left map concat snd]. unfold rioGenericUpdateChecksum at 2. cbn [fst snd]. rewrite crc64_spec by done.
  rewrite IH by (by apply crc_spec_range). by rewrite crc_spec_app.
Qed.

Definition save_cksum (start : nat) : saver :=
  fun r => save_raw (le_split 8 (if rdb_checksum then crc64 addr 0 (drop start (rio_out r)) else 0)) r.

Definition magic : bytes := str "REDIS" ++ print_Z (CTRIP_RDB_PREFIX + RDB_VERSION).

(** [scripts] are the bodies of [server.lua_scripts]. *)

Definition rdbSaveRio (aof_preamble : bool) (rsi : option rdbSaveInfo) (scripts : list bytes) (w : world)
    (dbs : list (redisDb object)) : saving (list (redisDb object) * crdtServer) :=
  fun r =>
  match save_crdt_value with
  | None => Ok None
  | Some save =>
      (_ <~~ saved (save_raw magic ;+ rdbSaveInfoAuxFields aof_preamble rsi w) tt ;;
       st <~~ save_databases (w_crdt_enabled w) save 0 dbs (w_crdt w) ;;
       saved (match rsi with Some _ => save_scripts scripts | None => save_nothing end ;+
              rdbSaveType RDB_OPCODE_EOF ;+ save_cksum (length (rio_out r))) st) r
  end.

(** With a marker of random bytes around it, for a reader that does not know the
    length. *)

Definition rdbSaveRioWithEOFMark (eofmark : bytes) (rsi : option rdbSaveInfo) (scripts : list bytes) (w : world)
    (dbs : list (redisDb object)) : saving (list (redisDb object) * crdtServer) :=
  _ <~~ saved (save_raw (str "$EOF:") ;+ save_raw eofmark ;+ save_raw CRLF) tt ;;
  st <~~ rdbSaveRio false rsi scripts w dbs ;;
  saved (save_raw eofmark) st.

End saving.

(** ** Loading *)

Definition C_OK : Z := 0.
Definition C_ERR : Z := -1.
Definition RDB_VERSION_ERR : Z := 1.

Definition rdbLoadTime : loader Z := b <-- load_raw 4 ;; load_ret (swrap 32 (le_word b)).

Definition load_do {A} (m : res A) : loader A := fun b => x ← m; Ok (Some (x, b)).

(** An object read from a file. *)

Inductive file_object (object score : Type) : Type :=
| RModule (val : dbval object)
| RStock (val : stock score).

Arguments RModule {object score} _.
Arguments RStock {object score} _.

Definition stock_type {score} (v : stock score) : Z :=
  match v with
  | SString _ | SInt _ => 0
  | SSet _ => 2
  | SZset _ => 3
  | SHash _ => 4
  | SOther t => t
  end.

Definition as_dbval {object score} (o : file_object object score) : dbval object :=
  match o with
  | RModule v => v
  | RStock (SString s) => StringValue (tryObjectEncoding (createStringObject s))
  | RStock (SInt n) => StringValue (ObjInt n)
  | RStock v => OtherValue (stock_type v)
  end.

Definition as_stock {object score} (o : file_object object score) : stock score :=
  match o with RModule _ => SOther 5 | RStock v => v end.

(** The server while it loads: the auxiliary information, the databases and the
    one that is selected, the information for the caller, and the scripts. *)

Record lstate (object : Type) := MkLoad {
  l_info : info;
  l_dbs : list (redisDb object);
  l_db : nat;
  l_rsi : option rdbSaveInfo;
  l_scripts : gmap bytes bytes
}.

Arguments MkLoad {object} _ _ _ _ _.
Arguments l_info {object} _.
Arguments l_dbs {object} _.
Arguments l_db {object} _.
Arguments l_rsi {object} _.
Arguments l_scripts {object} _.

Inductive progress (object : Type) : Type :=
| Continue (st : lstate object)
| Finished (st : lstate object)
| Failed (st : lstate object).

Arguments Continue {object} _.
Arguments Finished {object} _.
Arguments Failed {object} _.

Section loading.

Context {object score : Type} `{CrdtModule object} `{RdbModule object}.

(** [run] executes a command of the fake client, [luaCreateFunction] compiles a
    script, [load_object] reads a value that is not a CRDT. *)

Context (addr : Z) (rdb_checksum : bool) (mstime : Z) (ld2string : score -> bytes)
  (run : list bytes -> lstate object -> res (lstate object))
  (luaCreateFunction : bytes -> gmap bytes bytes -> option (gmap bytes bytes))
  (load_object : Z -> loader (file_object object score)).

Definition set_l_info (v : info) (st : lstate object) : lstate object :=
  MkLoad v (l_dbs st) (l_db st) (l_rsi st) (l_scripts st).

Definition set_l_cur (db : redisDb object) (st : lstate object) : lstate object :=
  MkLoad (l_info st) (<[l_db st := db]> (l_dbs st)) (l_db st) (l_rsi st) (l_scripts st).

Definition set_l_db (v : nat) (st : lstate object) : lstate object :=
  MkLoad (l_info st) (l_dbs st) v (l_rsi st) (l_scripts st).

Definition map_rsi (f : rdbSaveInfo -> rdbSaveInfo) (st : lstate object) : lstate object :=
  MkLoad (l_info st) (l_dbs st) (l_db st) (f <$> l_rsi st) (l_scripts st).

Definition set_l_scripts (v : gmap bytes bytes) (st : lstate object) : lstate object :=
  MkLoad (l_info st) (l_dbs st) (l_db st) (l_rsi st) v.

Definition l_world (st : lstate object) : world := i_world (l_info st).

Definition dbnum (st : lstate object) : Z := Z.of_nat (length (l_dbs st)).

(** An auxiliary field. *)

Definition load_aux_field (crdt_rdb : bool) (field : bytes * bytes) (st : lstate object) : res (lstate object) :=
  let '(auxkey, auxval) := field in
  let named name := strcaseeq (cstr auxkey) (str name) in
  if bool_decide (auxkey !! 0%nat = Some 37) then Ok st
  else if named "repl-stream-db" then
    Ok (map_rsi (fun i => MkRdbInfo (atoi auxval) (repl_id i) (repl_offset i) (isCrdtRdb i)) st)
  else if named "repl-id" then
    Ok (if verifyRdbType (w_crdt_enabled (l_world st)) crdt_rdb && Nat.eqb (length auxval) CONFIG_RUN_ID_SIZE
        then map_rsi (fun i => MkRdbInfo (repl_stream_db i) (Some auxval) (repl_offset i) (isCrdtRdb i)) st else st)
  else if named "repl-offset" then
    Ok (if verifyRdbType (w_crdt_enabled (l_world st)) crdt_rdb
        then map_rsi (fun i => MkRdbInfo (repl_stream_db i) (repl_id i) (strtoll auxval) (isCrdtRdb i)) st else st)
  else if named "lua" then
    match luaCreateFunction auxval (l_scripts st) with
    | None => Abort
    | Some scripts => Ok (set_l_scripts scripts st)
    end
  else
    o ← rdbLoadCrdtInfoAuxFields mstime (dbnum st) auxkey auxval (l_info st);
    match o with
    | None => Abort
    | Some i => Ok (set_l_info i st)
    end.

(** A value of the module; the expire time is that which was read before. *)

Definition rdbLoadCrdtData (load : bytes -> redisDb object -> loader (redisDb object)) (db : redisDb object)
    (current_expire_time : Z) : loader (redisDb object) :=
  key <-- rdbLoadStringObject ;;
  db <-- load key db ;;
  load_do (if bool_decide (is_Some (dict db !! key)) && negb (current_expire_time =? -1)
           then setExpire db key current_expire_time else Ok db).

Definition rdbLoadCrdtDbSize : loader Z := rdbLoadLen.

Fixpoint run_all (cmds : list (list bytes)) (st : lstate object) : res (lstate object) :=
  match cmds with
  | [] => Ok st
  | cmd :: cmds => st ← run cmd st; run_all cmds st
  end.

(** Another value: converted to commands if the file has no CRDTs. *)

Definition load_other (crdt_rdb : bool) (key : bytes) (val : file_object object score) (expiretime : Z) (st : lstate object)
  : res (progress object) :=
  let w := l_world st in
  if negb crdt_rdb && w_crdt_enabled w then
    o ← data2CrdtData ld2string key (as_stock val);
    match o with
    | None =>
        let s := set_vectorClock [init_clock (crdt_gid (w_crdt w)) 0] (w_crdt w) in
        Ok (Failed (set_l_info (set_i_world (set_w_crdt s w) (l_info st)) st))
    | Some cmds =>
        st ← run_all cmds st;
        st ← (if negb (expiretime =? -1) then run (expire2CrdtExpire key expiretime) st else Ok st);
        Ok (Continue st)
    end
  else if bool_decide (w_masterhost w = None) && negb (expiretime =? -1) && (expiretime <? mstime) then Ok (Continue st)
  else
    db ← need (l_dbs st !! l_db st);
    db ← dbAdd db key (as_dbval val);
    db ← (if negb (expiretime =? -1) then setExpire db key expiretime else Ok db);
    Ok (Continue (set_l_cur db st)).

Definition load_value (load : bytes -> redisDb object -> loader (redisDb object)) (crdt_rdb : bool) (type expiretime : Z)
    (st : lstate object) : loader (progress object) :=
  if type =? RDB_CRDT_VALUE then
    db <-- load_do (need (l_dbs st !! l_db st)) ;;
    db <-- rdbLoadCrdtData load db expiretime ;;
    load_ret (Continue (set_l_cur db st))
  else
    key <-- rdbLoadStringObject ;;
    val <-- load_object type ;;
    load_do (load_other crdt_rdb key val expiretime st).

(** One round of the loop. *)

Definition load_round (load : bytes -> redisDb object -> loader (redisDb object)) (crdt_rdb : bool) (st : lstate object)
  : loader (progress object) :=
  type <-- rdbLoadType ;;
  if type =? RDB_OPCODE_EXPIRETIME then
    t <-- rdbLoadTime ;;
    if t =? -1 then load_fail else
    type <-- rdbLoadType ;;
    load_value load crdt_rdb type (t * 1000) st
  else if type =? RDB_OPCODE_EXPIRETIME_MS then
    t <-- rdbLoadMillisecondTime ;;
    if t =? -1 then load_fail else
    type <-- rdbLoadType ;;
    load_value load crdt_rdb type t st
  else if type =? RDB_OPCODE_EOF then load_ret (Finished st)
  else if type =? RDB_OPCODE_SELECTDB then
    dbid <-- rdbLoadLen ;;
    if dbid >=? dbnum st then load_exit else
    let st := set_l_db (Z.to_nat dbid) st in
    st <-- load_do (if negb crdt_rdb && w_crdt_enabled (l_world st) then run (crdtSelectDb (to_int dbid)) st else Ok st) ;;
    load_ret (Continue st)
  else if type =? RDB_OPCODE_RESIZEDB then
    _ <-- rdbLoadLen ;;
    _ <-- rdbLoadLen ;;
    _ <-- (if crdt_rdb then rdbLoadCrdtDbSize else load_ret 0) ;;
    load_ret (Continue st)
  else if type =? RDB_OPCODE_AUX then
    field <-- load_aux ;;
    st <-- load_do (load_aux_field crdt_rdb field st) ;;
    load_ret (Continue st)
  else load_value load crdt_rdb type (-1) st.

(** Every round reads at least a byte, so the length of the file is enough
    fuel. *)

Fixpoint load_loop (fuel : nat) load (crdt_rdb : bool) (st : lstate object) : loader (Z * lstate object) :=
  match fuel with
  | O => fun _ => Undef
  | S fuel =>
      p <-- load_round load crdt_rdb st ;;
      match p with
      | Continue st => load_loop fuel load crdt_rdb st
      | Finished st => load_ret (C_OK, st)
      | Failed st => load_ret (C_ERR, st)
      end
  end.

Definition free_masters (w : world) : world :=
  let w := fold_left (fun w g => match crdtMasters (w_crdt w) !! g with Some p => freePeerMaster p w | None => w end)
             (seqZ 0 (MAX_PEERS + 1)) w in
  set_w_crdt (set_loading false (w_crdt w)) w.

Definition check_cksum (rdbver expected : Z) : loader bool :=
  if (rdbver >=? 5) && rdb_checksum then
    c <-- load_raw 8 ;;
    load_ret ((le_word c =? 0) || (le_word c =? expected))
  else load_ret true.

Definition rdbLoadRio (st : lstate object) (file : bytes) : res (Z * lstate object) :=
  match load_crdt_value, rioRead 9 file with
  | None, _ | _, None => Abort
  | Some load, Some (buf, rest) =>
      if negb (bool_decide (take 5 buf = str "REDIS")) then Ok (C_ERR, st) else
      let rdbver := atoi (cstr (drop 5 buf)) in
      if (rdbver <? 1) || (rdbver >? RDB_VERSION + CTRIP_RDB_PREFIX) then Ok (C_ERR, st) else
      let crdt_rdb := rdbver >? CTRIP_RDB_PREFIX in
      let w := l_world st in
      if negb crdt_rdb && w_crdt_enabled w && initedCrdtServer (w_crdt w) then Ok (RDB_VERSION_ERR, st) else
      let st := map_rsi (fun i => MkRdbInfo (repl_stream_db i) (repl_id i) (repl_offset i) crdt_rdb) st in
      let w := if crdt_rdb && w_crdt_enabled w && negb (iAmMaster w) then free_masters w else w in
      let st := set_l_info (MkInfo w None false) st in
      o ← load_loop (length file) load crdt_rdb st rest;
      match o with
      | None => Abort
      | Some ((code, st), rest) =>
          if code =? C_ERR then Ok (C_ERR, st) else
          o ← check_cksum rdbver (crc64 addr 0 (take (length file - length rest) file)) rest;
          match o with
          | Some (true, _) => Ok (C_OK, st)
          | _ => Abort
          end
      end
  end.

End loading.

(** ** The loop ends *)

(** A loader that does not lengthen its source. *)

Definition shrinking {A} (f : loader A) : Prop := forall b x rest, f b = Ok (Some (x, rest)) -> (length rest <= length b)%nat.

Lemma shrinking_raw n : shrinking (load_raw n).
Proof.
  intros b x rest. unfold load_raw, rioRead. destruct (Nat.ltb_spec (length b) n); [done|]. intros [= <- <-]. rewrite length_drop. lia.
Qed.

Lemma shrinking_ret {A} (x : A) : shrinking (load_ret x).
Proof. intros b y rest [= -> ->]. done. Qed.

Lemma shrinking_fail {A} : shrinking (load_fail (A := A)).
Proof. done. Qed.

Lemma shrinking_exit {A} : shrinking (load_exit (A := A)).
Proof. done. Qed.

Lemma shrinking_do {A} (m : res A) : shrinking (load_do m).
Proof. intros b x rest. unfold load_do. destruct m; [|done|done]. by intros [= -> ->]. Qed.

Lemma shrinking_bind {A B} (f : loader A) (g : A -> loader B) :
  shrinking f -> (forall x, shrinking (g x)) -> shrinking (x <-- f ;; g x).
Proof.
  intros Hf Hg b y rest. unfold load_bind. destruct (f b) as [[[x b1]|]| |] eqn:E; try done. cbn [mbind res_bind].
  intros H1. apply Hg in H1. apply Hf in E. lia.
Qed.

Create HintDb shrinking.
#[export] Hint Resolve shrinking_raw shrinking_ret shrinking_fail shrinking_exit shrinking_do shrinking_bind : shrinking.

Ltac shrink :=
  repeat match goal with
  | |- forall _, _ => intros ?
  | |- shrinking (load_bind _ _) => apply shrinking_bind
  | |- shrinking (if ?b then _ else _) => destruct b
  | |- shrinking (match ?x with _ => _ end) => destruct x
  | |- shrinking _ => solve [auto with shrinking]
  end.

Lemma shrinking_len : shrinking rdbLoadLenByRef /\ shrinking rdbLoadLen.
Proof. assert (shrinking rdbLoadLenByRef) by (unfold rdbLoadLenByRef; shrink). split; [done|]. unfold rdbLoadLen. shrink. Qed.

Lemma shrinking_string : shrinking rdbLoadStringObject.
Proof.
  destruct shrinking_len as [H1 H2]. unfold rdbLoadStringObject, rdbGenericLoadStringObject, rdbLoadIntegerObject, rdbLoadLzfStringObject.
  apply shrinking_bind; [done|]. intros [[] len]; [|shrink].
  repeat case_match; try (shrink; fail).
  do 2 (apply shrinking_bind; [done|intros ?]). apply shrinking_bind; [apply shrinking_raw|]. intros c b y rest.
  destruct (lzf_decompress _ _) as [[val|]| |]; try done. by intros [= _ ->].
Qed.

Lemma shrinking_type : shrinking rdbLoadType.
Proof. unfold rdbLoadType. shrink. Qed.

#[export] Hint Resolve shrinking_string shrinking_type : shrinking.
Section ends.

Context {object score : Type} (mstime : Z) (ld2string : score -> bytes) (run : list bytes -> lstate object -> res (lstate object))
  (luaCreateFunction : bytes -> gmap bytes bytes -> option (gmap bytes bytes))
  (load_object : Z -> loader (file_object object score)) (load : bytes -> redisDb object -> loader (redisDb object)) (crdt_rdb : bool).

Abbreviation round := (load_round mstime ld2string run luaCreateFunction load_object load crdt_rdb).
Abbreviation loop := (fun fuel => load_loop mstime ld2string run luaCreateFunction load_object fuel load crdt_rdb).

(** The loop, as a relation: it ends after the rounds of the derivation. *)

Inductive ends (st : lstate object) (b : bytes) : res (option ((Z * lstate object) * bytes)) -> Prop :=
| ends_finished st' rest : round st b = Ok (Some (Finished st', rest)) -> ends st b (Ok (Some ((C_OK, st'), rest)))
| ends_failed st' rest : round st b = Ok (Some (Failed st', rest)) -> ends st b (Ok (Some ((C_ERR, st'), rest)))
| ends_eof : round st b = Ok None -> ends st b (Ok None)
| ends_abort : round st b = Abort -> ends st b Abort
| ends_undef : round st b = Undef -> ends st b Undef
| ends_continue st' rest r : round st b = Ok (Some (Continue st', rest)) -> ends st' rest r -> ends st b r.

Context (Hload : forall key db, shrinking (load key db)) (Hobject : forall type, shrinking (load_object type)).

Lemma type_shrinks b type rest : rdbLoadType b = Ok (Some (type, rest)) -> (length rest < length b)%nat.
Proof. destruct b as [|c b]; [done|]. intros E. assert (rest = b) as -> by (by injection E). simpl. lia. Qed.

Lemma round_shrinks st b p rest : round st b = Ok (Some (p, rest)) -> (length rest < length b)%nat.
Proof.
  unfold load_round, load_bind at 1. destruct (rdbLoadType b) as [[[type b1]|]| |] eqn:Et; try done. cbn [mbind res_bind].
  apply type_shrinks in Et.
  match goal with |- ?f b1 = _ -> _ => assert (shrinking f) as Hf end; [|intros E; apply Hf in E; lia].
  destruct shrinking_len as [H1 H2].
  assert (forall t e, shrinking (load_value mstime ld2string run load_object load crdt_rdb t e st)) as Hv.
  { intros t e. unfold load_value, rdbLoadCrdtData. shrink. }
  unfold rdbLoadTime, rdbLoadMillisecondTime, rdbLoadCrdtDbSize, load_aux. cbv zeta. shrink.
Qed.

(** Loading a file always ends.  Whatever the bytes are, the loop of
    [rdbLoadRio] is over after at most as many rounds as there are bytes, as long
    as the functions of the module and of the value types do not put bytes back;
    so the fuel of the definition is never the reason for its result. *)
Lemma rdbLoadRio_ends fuel st b (Hfuel : (length b < fuel)%nat) : ends st b (loop fuel st b).
Proof.
  revert st b Hfuel. induction fuel as [|fuel IH]; intros st b Hfuel; [lia|]. cbn [load_loop]. unfold load_bind.
  destruct (round st b) as [[[p rest]|]| |] eqn:E; cbn [mbind res_bind]; [|by constructor..].
  pose proof (round_shrinks _ _ _ _ E). destruct p as [st'|st'|st'].
  - eapply ends_continue; [done|]. apply IH. lia.
  - by apply ends_finished.
  - by apply ends_failed.
Qed.

End ends.

(** ** What is written *)

(** [f] appends [b] and gives [x]. *)

Definition gives {A} (f : saving A) (b : bytes) (x : A) : Prop :=
  forall r, Z.of_nat (length b) <= rio_room r ->
  f r = Ok (Some (x, MkRio (rio_out r ++ b) (rio_room r - Z.of_nat (length b)))).

Lemma gives_saved {A} f b (x : A) : saves f b -> gives (saved f x) b x.
Proof. intros Hf r Hr. unfold saved. by rewrite Hf. Qed.

Lemma gives_bind {A B} (f : saving A) (g : A -> saving B) a b x y :
  gives f a x -> gives (g x) b y -> gives (x <~~ f ;; g x) (a ++ b) y.
Proof.
  intros Hf Hg r Hr. rewrite length_app in Hr |- *. unfold saving_bind. rewrite Hf by lia. cbn [mbind res_bind].
  rewrite Hg by (cbn [rio_room]; lia). cbn [rio_out rio_room]. rewrite <- app_assoc. do 4 f_equal. lia.
Qed.

(** What one key of a database is saved as: its value, expire time and
    tombstone. *)

Record item (object : Type) := MkItem {
  it_key : bytes;
  it_val : option (dbval object);
  it_expire : option Z;
  it_tomb : option (dbval object)
}.

Arguments MkItem {object} _ _ _ _.
Arguments it_key {object} _.
Arguments it_val {object} _.
Arguments it_expire {object} _.
Arguments it_tomb {object} _.

Definition put_item {object} (db : redisDb object) (it : item object) : redisDb object :=
  MkDb (partial_alter (fun _ => it_val it) (it_key it) (dict db))
       (partial_alter (fun _ => it_expire it) (it_key it) (expires db))
       (partial_alter (fun _ => it_tomb it) (it_key it) (deleted_keys db)).

Definition absent {object} (key : bytes) (db : redisDb object) : Prop :=
  dict db !! key = None /\ expires db !! key = None /\ deleted_keys db !! key = None.

(** The module: what it writes for the values and tombstones that are [storable]
    it reads back, and stores in the database. *)

Definition module_faithful {object} (save : bytes -> option (dbval object) -> option (dbval object) -> rio -> rio)
    (load : bytes -> redisDb object -> loader (redisDb object)) (storable : dbval object -> Prop) : Prop :=
  forall key o t, (forall v, o = Some v -> storable v) -> (forall v, t = Some v -> storable v) ->
  exists b, bytes_ok b /\
    (forall r, Z.of_nat (length b) <= rio_room r ->
       save key o t r = MkRio (rio_out r ++ b) (rio_room r - Z.of_nat (length b))) /\
    (forall db, absent key db -> loads (load key db) b (put_item db (MkItem key o None t))).

Section theory.

Context {object score : Type} `{CrdtModule object} `{RdbModule object}.

Context (compression : bool) (mem : bytes -> Z -> Z) (any_loading : bool)
  (now : Z) (iter : gmap bytes (dbval object) -> list (bytes * dbval object))
  (save_type save_object : dbval object -> saver).

Context (mstime : Z) (ld2string : score -> bytes) (run : list bytes -> lstate object -> res (lstate object))
  (luaCreateFunction : bytes -> gmap bytes bytes -> option (gmap bytes bytes))
  (load_object : Z -> loader (file_object object score)).

Context (save : bytes -> option (dbval object) -> option (dbval object) -> rio -> rio)
  (load : bytes -> redisDb object -> loader (redisDb object)) (storable : dbval object -> Prop)
  (Hmodule : module_faithful save load storable).

Implicit Types (st : lstate object) (db : redisDb object).

Abbreviation round := (load_round mstime ld2string run luaCreateFunction load_object load true).
Abbreviation loop := (fun fuel => load_loop mstime ld2string run luaCreateFunction load_object fuel load true).

(** The loop reads [b] in rounds that take it from [st] to [st']. *)

Definition steps (b : bytes) (st st' : lstate object) : Prop :=
  exists n, (n <= length b)%nat /\ forall fuel rest, loop (n + fuel)%nat st (b ++ rest) = loop fuel st' rest.

Lemma steps_nil st : steps [] st st.
Proof. by exists 0%nat. Qed.

Lemma steps_app a b st st1 st2 : steps a st st1 -> steps b st1 st2 -> steps (a ++ b) st st2.
Proof.
  intros (n & Hn & E) (m & Hm & F). exists (n + m)%nat. rewrite length_app. split; [lia|]. intros fuel rest.
  rewrite <- Nat.add_assoc, <- app_assoc. by rewrite E, F.
Qed.

Lemma steps_one b st st' : b <> [] -> loads (round st) b (Continue st') -> steps b st st'.
Proof.
  intros Hne Hl. exists 1%nat. split; [destruct b; [done|simpl; lia]|]. intros fuel rest. cbn [Nat.add load_loop].
  unfold load_bind at 1. by rewrite Hl.
Qed.

(** [b] is read as [it]. *)

Definition reads (b : bytes) (it : item object) : Prop :=
  bytes_ok b /\ forall st db, l_dbs st !! l_db st = Some db -> absent (it_key it) db ->
  steps b st (set_l_cur (put_item db it) st).

Definition expire_bytes (expire : Z) : bytes :=
  if negb (expire =? -1) then RDB_OPCODE_EXPIRETIME_MS :: le_split 8 (uwrap 64 expire) else [].

Lemma saves_expire expire : saves (save_expire expire) (expire_bytes expire).
Proof.
  unfold save_expire, expire_bytes. destruct (negb (expire =? -1)); [|apply saves_nothing].
  apply (saves_seq _ _ [_]); apply saves_raw.
Qed.

Lemma loads_time e : LLONG_MIN <= e <= LLONG_MAX -> bytes_ok (le_split 8 (uwrap 64 e)) /\
  loads rdbLoadMillisecondTime (le_split 8 (uwrap 64 e)) e.
Proof.
  unfold LLONG_MIN, LLONG_MAX. intros He.
  assert (0 <= uwrap 64 e < 2 ^ (8 * Z.of_nat 8)) as Hr by (unfold uwrap; apply Z.mod_pos_bound; lia).
  destruct (le_split_word 8 (uwrap 64 e) Hr) as (Hok & Hl & Hw). split; [done|].
  unfold rdbLoadMillisecondTime. rewrite <- (app_nil_r (le_split 8 _)).
  eapply loads_bind; [by apply loads_raw_n|]. rewrite Hw. unfold uwrap. rewrite swrap_mod by lia. apply loads_ret.
Qed.

Lemma loads_do {A} (m : res A) x : m = Ok x -> loads (load_do m) [] x.
Proof. intros -> rest. done. Qed.

Definition opt_expire (e : Z) : option Z := if e =? -1 then None else Some e.

Lemma loads_value key o t e kb mb st db :
  loads rdbLoadStringObject kb key ->
  (forall db, absent key db -> loads (load key db) mb (put_item db (MkItem key o None t))) ->
  (e <> -1 -> is_Some o) -> l_dbs st !! l_db st = Some db -> absent key db ->
  loads (load_value mstime ld2string run load_object load true RDB_CRDT_VALUE e st) (kb ++ mb)
    (Continue (set_l_cur (put_item db (MkItem key o (opt_expire e) t)) st)).
Proof.
  intros Hk Hm He Hdb Ha. unfold load_value. rewrite Z.eqb_refl.
  apply (loads_bind _ _ [] (kb ++ mb) db); [apply loads_do; by rewrite Hdb|].
  rewrite <- (app_nil_r (kb ++ mb)). eapply loads_bind; [|apply loads_ret].
  unfold rdbLoadCrdtData. eapply loads_bind; [exact Hk|]. rewrite <- (app_nil_r mb). eapply loads_bind; [by apply Hm|].
  apply loads_do. destruct Ha as (Ha1 & Ha2 & Ha3). unfold opt_expire, put_item. cbn [dict it_val it_key it_expire it_tomb].
  rewrite lookup_partial_alter_eq. destruct (Z.eqb_spec e (-1)) as [-> |Hne].
  - cbn [negb]. by rewrite andb_false_r.
  - destruct (He Hne) as [v ->]. rewrite bool_decide_true by done. cbn [andb negb].
    unfold setExpire. cbn [dict]. rewrite lookup_partial_alter_eq, bool_decide_true by done. cbn [c_assert mbind res_bind].
    unfold set_expires. cbn [dict expires deleted_keys]. do 2 f_equal.
    apply map_eq. intros k. destruct (decide (k = key)) as [-> |Hk'].
    + by rewrite lookup_insert_eq, lookup_partial_alter_eq.
    + by rewrite lookup_insert_ne, !lookup_partial_alter_ne.
Qed.

Lemma reads_item key o t e kb mb :
  loads rdbLoadStringObject kb key -> bytes_ok kb -> bytes_ok mb ->
  (forall db, absent key db -> loads (load key db) mb (put_item db (MkItem key o None t))) ->
  LLONG_MIN <= e <= LLONG_MAX -> (e <> -1 -> is_Some o) ->
  reads (expire_bytes e ++ RDB_CRDT_VALUE :: kb ++ mb) (MkItem key o (opt_expire e) t).
Proof.
  intros Hk Hkb Hmb Hm Hr He. destruct (loads_time e Hr) as [Hok Ht]. split.
  - apply Forall_app. split.
    + unfold expire_bytes. destruct (negb (e =? -1)); [|constructor]. constructor; [unfold RDB_OPCODE_EXPIRETIME_MS; lia|done].
    + constructor; [unfold RDB_CRDT_VALUE; lia|by apply bytes_ok_app].
  - intros st db Hdb Ha. apply steps_one; [intros []%app_nil; done|].
    pose proof (loads_value key o t e kb mb st db Hk Hm He Hdb Ha) as Hv.
    assert (forall ty, loads rdbLoadType [ty] ty) as Hty by done.
    unfold expire_bytes. destruct (Z.eqb_spec e (-1)) as [-> |Hne]; cbn [negb app].
    + apply (loads_bind _ _ [_] (kb ++ mb) RDB_CRDT_VALUE); [apply Hty|]. exact Hv.
    + apply (loads_bind _ _ [_] _ RDB_OPCODE_EXPIRETIME_MS); [apply Hty|].
      change (RDB_OPCODE_EXPIRETIME_MS =? RDB_OPCODE_EXPIRETIME) with false. rewrite Z.eqb_refl. cbv iota.
      apply (loads_bind rdbLoadMillisecondTime _ _ _ e); [exact Ht|].
      destruct (Z.eqb_spec e (-1)); [done|]. apply (loads_bind _ _ [_] (kb ++ mb) RDB_CRDT_VALUE); [apply Hty|]. exact Hv.
Qed.

(** Databases that can be saved and restored. *)

Definition key_ok (key : bytes) : Prop := bytes_ok key /\ short key.

Record db_saveable (db : redisDb object) : Prop := {
  dbs_ok : db_ok db;
  dbs_dict : map_Forall (fun key o => key_ok key /\ isModuleCrdt o = true /\ storable o) (dict db);
  dbs_expires : map_Forall (fun _ e => LLONG_MIN <= e <= LLONG_MAX /\ e <> -1) (expires db);
  dbs_deleted : map_Forall (fun key o => key_ok key /\ storable o) (deleted_keys db)
}.

Lemma saveable_deleted db d : db_saveable db -> d ⊆ deleted_keys db -> db_saveable (set_deleted_keys d db).
Proof. intros [] Hd. split; try done. cbn [deleted_keys set_deleted_keys]. intros k v Hv. by apply dbs_deleted0, (lookup_weaken _ _ _ _ Hv). Qed.

Lemma lookup_tombstone d key s :
  server_ok s ->
  exists d' s', lookupTombstoneKey any_loading d key s = Ok (d' !! key, d', s') /\ server_ok s' /\ d' ⊆ d /\
    forall k, k <> key -> d' !! k = d !! k.
Proof.
  intros Hs. unfold lookupTombstoneKey, gcIfNeeded, lookupTombstone.
  assert (delete key d ⊆ d /\ forall k, k <> key -> delete key d !! k = d !! k) as Hdel.
  { split; [apply delete_subseteq|]. intros k Hk. by rewrite lookup_delete_ne. }
  destruct (d !! key) as [v|] eqn:E; cbn [mbind res_bind]; [|by exists d, s].
  destruct any_loading; cbn [mbind res_bind]; [by exists d, s|].
  destruct (updateGcVectorClock_spec s Hs) as (s' & -> & Hs' & _). cbn [mbind res_bind].
  destruct (gc_verdict v (gcVectorClock s')) as [[]|]; cbn [mbind res_bind];
    [exists (delete key d), s'; by destruct Hdel|by exists d, s'..].
Qed.

Lemma key_string key : key_ok key -> exists kb, saves (save_string compression mem key) kb /\
  loads rdbLoadStringObject kb key /\ bytes_ok kb.
Proof. intros [Hk Hs]. by apply raw_string_roundtrip. Qed.

Definition save_entry' := save_entry compression mem any_loading now save_type save_object save.

Definition entry_item (db : redisDb object) (e : bytes * dbval object) : item object :=
  MkItem (fst e) (Some (snd e)) (expires db !! fst e) (deleted_keys db !! fst e).

Lemma opt_expires db key : db_saveable db ->
  opt_expire (default (-1) (expires db !! key)) = expires db !! key /\
  LLONG_MIN <= default (-1) (expires db !! key) <= LLONG_MAX.
Proof.
  intros Hdb. destruct (expires db !! key) as [e|] eqn:E; [|split; [done|unfold LLONG_MIN, LLONG_MAX; simpl; lia]].
  destruct (dbs_expires _ Hdb key e E) as [Hr Hne]. simpl. unfold opt_expire. by destruct (Z.eqb_spec e (-1)).
Qed.

Lemma save_entry_reads db s key o :
  db_saveable db -> server_ok s -> dict db !! key = Some o ->
  exists b d' s', gives (save_entry' (key, o) (db, s)) b (set_deleted_keys d' db, s') /\
    reads b (entry_item (set_deleted_keys d' db) (key, o)) /\ server_ok s' /\ d' ⊆ deleted_keys db /\
    forall k, k <> key -> d' !! k = deleted_keys db !! k.
Proof.
  intros Hdb Hs Ho. destruct (dbs_dict _ Hdb key o Ho) as (Hkey & Hc & Hst).
  destruct (key_string key Hkey) as (kb & Sk & Rk & Ok1).
  destruct (lookup_tombstone (deleted_keys db) key s Hs) as (d' & s' & El & Hs' & Hsub & Hother).
  destruct (Hmodule key (Some o) (d' !! key)) as (mb & Okm & Sm & Rm).
  { by intros v [= <-]. }
  { intros v Hv. by apply (dbs_deleted _ Hdb key v), (lookup_weaken _ _ _ _ Hv). }
  destruct (opt_expires db key Hdb) as [Eo Hr]. set (e := default (-1) (expires db !! key)) in *.
  exists (expire_bytes e ++ RDB_CRDT_VALUE :: kb ++ mb), d', s'. split; [|split; [|done]].
  - intros r Hroom. unfold save_entry', save_entry. rewrite (getExpire_ok _ _ (dbs_ok _ Hdb)). cbn [mbind res_bind]. fold e.
    rewrite Hc. cbn [negb].
    assert (expire_bytes e ++ RDB_CRDT_VALUE :: kb ++ mb = (expire_bytes e ++ [RDB_CRDT_VALUE] ++ kb) ++ mb) as Eb.
    { by rewrite <- !app_assoc. }
    rewrite Eb in Hroom |- *. revert r Hroom.
    apply (gives_bind (saved (save_expire e ;+ rdbSaveType RDB_CRDT_VALUE ;+ save_string compression mem key) tt) (fun _ r =>
      '(tombstone, d, s) ← lookupTombstoneKey any_loading (deleted_keys db) key s;
      Ok (Some ((set_deleted_keys d db, s), save key (Some o) tombstone r)))
      (expire_bytes e ++ [RDB_CRDT_VALUE] ++ kb) mb tt).
    + apply gives_saved, saves_seq; [apply saves_expire|]. apply saves_seq; [apply saves_raw|done].
    + intros r Hroom. rewrite El. cbn [mbind res_bind]. by rewrite Sm.
  - unfold entry_item. cbn [fst snd]. change (expires (set_deleted_keys d' db)) with (expires db). rewrite <- Eo.
    by apply reads_item.
Qed.

Definition reads_list (b : bytes) (items : list (item object)) : Prop :=
  exists bs, b = concat bs /\ Forall2 reads bs items.

Lemma save_entries_reads entries : forall db s,
  db_saveable db -> server_ok s -> NoDup (map fst entries) -> Forall (fun e => dict db !! fst e = Some (snd e)) entries ->
  exists b d' s', gives (save_entries compression mem any_loading now save_type save_object save entries (db, s)) b
                    (set_deleted_keys d' db, s') /\
    reads_list b (map (entry_item (set_deleted_keys d' db)) entries) /\ server_ok s' /\ d' ⊆ deleted_keys db /\
    forall k, k ∉ map fst entries -> d' !! k = deleted_keys db !! k.
Proof.
  induction entries as [|[key o] entries IH]; intros db s Hdb Hs Hnd Hf.
  - exists [], (deleted_keys db), s. split; [|split; [by exists []|done]].
    assert (set_deleted_keys (deleted_keys db) db = db) as -> by by destruct db.
    apply gives_saved, saves_nothing.
  - apply NoDup_cons in Hnd as [Hni Hnd]. apply Forall_cons in Hf as [Ho Hf]. cbn [fst snd] in Hni, Ho.
    destruct (save_entry_reads db s key o Hdb Hs Ho) as (b1 & d1 & s1 & G1 & R1 & Hs1 & Sub1 & Oth1).
    destruct (IH (set_deleted_keys d1 db) s1 (saveable_deleted db d1 Hdb Sub1) Hs1 Hnd Hf)
      as (b2 & d2 & s2 & G2 & (bs & -> & R2) & Hs2 & Sub2 & Oth2).
    exists (b1 ++ concat bs), d2, s2. split; [eapply gives_bind; [exact G1|exact G2]|]. split; [|split; [done|split]].
    + exists (b1 :: bs). split; [done|]. cbn [map]. constructor; [|exact R2].
      unfold entry_item in *. cbn [fst snd deleted_keys expires set_deleted_keys] in *. by rewrite Oth2.
    + cbn [deleted_keys set_deleted_keys] in Sub2. by etrans.
    + intros k Hk. cbn [map fst] in Hk. apply not_elem_of_cons in Hk as [Hk1 Hk2]. rewrite Oth2 by done. by apply Oth1.
Qed.

(** All that a database holds of a key. *)

Definition item_of (db : redisDb object) (key : bytes) : item object :=
  MkItem key (dict db !! key) (expires db !! key) (deleted_keys db !! key).

Lemma entry_item_of db e : dict db !! fst e = Some (snd e) -> entry_item db e = item_of db (fst e).
Proof. intros E. unfold entry_item, item_of. by rewrite E. Qed.

Definition no_value (db : redisDb object) (e : bytes * dbval object) : bool := bool_decide (dict db !! fst e = None).

Lemma save_tombstones_reads entries : forall db s,
  db_saveable db -> Forall (fun e => deleted_keys db !! fst e = Some (snd e)) entries ->
  exists b, gives (save_tombstones compression mem save entries (db, s)) b (db, s) /\
    reads_list b (map (fun e => item_of db (fst e)) (List.filter (no_value db) entries)).
Proof.
  induction entries as [|[key o] entries IH]; intros db s Hdb Hf.
  - exists []. split; [apply gives_saved, saves_nothing|by exists []].
  - apply Forall_cons in Hf as [Ho Hf]. cbn [fst snd] in Ho. destruct (IH db s Hdb Hf) as (b & G & (bs & -> & R)).
    cbn [save_tombstones List.filter]. unfold no_value at 1. cbn [fst].
    destruct (dict db !! key) as [v|] eqn:Ed.
    + rewrite bool_decide_true by done. rewrite bool_decide_false by done. exists (concat bs). split; [exact G|by exists bs].
    + rewrite bool_decide_false by (by intros []). rewrite bool_decide_true by done.
      destruct (dbs_deleted _ Hdb key o Ho) as (Hkey & Hst). destruct (key_string key Hkey) as (kb & Sk & Rk & Ok1).
      destruct (Hmodule key None (Some o)) as (mb & Okm & Sm & Rm); [done|by intros v [= <-]|].
      exists ((RDB_CRDT_VALUE :: kb) ++ mb ++ concat bs). split.
      * eapply gives_bind; [apply gives_saved, (saves_seq _ _ [_]); [apply saves_raw|exact Sk]|].
        eapply gives_bind; [|exact G]. intros r Hroom. by rewrite Sm.
      * exists ((RDB_CRDT_VALUE :: kb ++ mb) :: bs). split; [cbn [concat app]; by rewrite <- app_assoc|].
        cbn [map fst]. constructor; [|exact R]. unfold item_of. rewrite Ed, Ho.
        assert (expires db !! key = None) as ->.
        { apply not_elem_of_dom. intros Hin. apply (dbs_ok _ Hdb), elem_of_dom in Hin. rewrite Ed in Hin. by destruct Hin. }
        by apply (reads_item key None (Some o) (-1) kb mb).
Qed.

(** Reading the items of a database one after the other. *)

Lemma set_cur_cur db db' st : set_l_cur db' (set_l_cur db st) = set_l_cur db' st.
Proof. unfold set_l_cur. cbn [l_dbs l_db l_info l_rsi l_scripts]. by rewrite list_insert_insert_eq. Qed.

Lemma set_cur_lookup db db0 st : l_dbs st !! l_db st = Some db0 ->
  l_dbs (set_l_cur db st) !! l_db (set_l_cur db st) = Some db.
Proof. intros E. cbn [l_dbs l_db set_l_cur]. apply list_lookup_insert_eq. by eapply lookup_lt_Some. Qed.

Lemma set_cur_id db st : l_dbs st !! l_db st = Some db -> set_l_cur db st = st.
Proof. intros E. unfold set_l_cur. rewrite list_insert_id by done. by destruct st. Qed.

Lemma steps_items bs items : forall st db,
  Forall2 reads bs items -> NoDup (map it_key items) -> l_dbs st !! l_db st = Some db ->
  Forall (fun it => absent (it_key it) db) items ->
  steps (concat bs) st (set_l_cur (fold_left put_item items db) st).
Proof.
  revert items. induction bs as [|b bs IH]; intros items st db HF Hnd Hdb Ha; inversion HF as [|? it ? items' [Hok Hr] HF']; subst.
  - cbn [concat fold_left]. rewrite set_cur_id by done. apply steps_nil.
  - apply NoDup_cons in Hnd as [Hni Hnd]. apply Forall_cons in Ha as [Hit Ha].
    assert (steps (concat bs) (set_l_cur (put_item db it) st)
      (set_l_cur (fold_left put_item items' (put_item db it)) (set_l_cur (put_item db it) st))) as Hs; [apply IH; [done|done| |]|].
    + by eapply set_cur_lookup.
    + rewrite Forall_forall in Ha |- *. intros it' Hin. destruct (Ha it' Hin) as (A1 & A2 & A3).
      assert (it_key it <> it_key it') as Hne.
      { intros Heq. apply Hni. rewrite Heq. by apply list_elem_of_fmap_2. }
      unfold absent, put_item. cbn [dict expires deleted_keys]. by rewrite !lookup_partial_alter_ne by done.
    + cbn [concat fold_left]. eapply steps_app; [by apply Hr|]. by rewrite set_cur_cur in Hs.
Qed.

Lemma reads_ok bs items : Forall2 reads bs items -> bytes_ok (concat bs).
Proof. induction 1 as [|b it bs items [Hb _] _ IH]; [constructor|by apply bytes_ok_app]. Qed.

Lemma fold_put db keys : forall db0,
  (forall k, k ∉ keys -> item_of db0 k = item_of db k) ->
  fold_left put_item (map (item_of db) keys) db0 = db.
Proof.
  induction keys as [|key keys IH]; intros db0 Hk.
  - cbn [map fold_left]. destruct db as [d1 e1 t1], db0 as [d0 e0 t0].
    f_equal; apply map_eq; intros k; specialize (Hk k (not_elem_of_nil _)); unfold item_of in Hk; cbn [dict expires deleted_keys] in Hk; congruence.
  - cbn [map fold_left]. apply IH. intros k Hni. unfold item_of, put_item. cbn [it_key it_val it_expire it_tomb dict expires deleted_keys].
    destruct (decide (k = key)) as [-> |Hne]; [by rewrite !lookup_partial_alter_eq|].
    rewrite !lookup_partial_alter_ne by done. apply Hk. by apply not_elem_of_cons.
Qed.

(** A whole database.  A dictionary is iterated over its entries. *)

Context (Hiter : forall m, iter m ≡ₚ map_to_list m).

Lemma iter_entries m : NoDup (map fst (iter m)) /\ Forall (fun e => m !! fst e = Some (snd e)) (iter m) /\
  forall k v, m !! k = Some v -> (k, v) ∈ iter m.
Proof.
  split; [|split].
  - rewrite (Hiter m). apply NoDup_fst_map_to_list.
  - rewrite Forall_forall. intros [k v]. rewrite (Hiter m). apply elem_of_map_to_list.
  - intros k v Hk. rewrite (Hiter m). by apply elem_of_map_to_list.
Qed.

Definition saved_keys (db : redisDb object) : list bytes :=
  map fst (iter (dict db)) ++ map fst (List.filter (no_value db) (iter (deleted_keys db))).

Lemma saved_keys_spec db : db_ok db ->
  NoDup (saved_keys db) /\ forall k, k ∉ saved_keys db -> absent k db.
Proof.
  intros Hok. destruct (iter_entries (dict db)) as (N1 & F1 & C1). destruct (iter_entries (deleted_keys db)) as (N2 & F2 & C2).
  unfold saved_keys. split.
  - apply NoDup_app. split; [done|]. split.
    + intros k Hk Hk2. apply list_elem_of_fmap in Hk as ([k1 v1] & -> & Hk). apply list_elem_of_fmap in Hk2 as ([k2 v2] & E & Hk2).
      cbn [fst] in E. subst k2. rewrite Forall_forall in F1. specialize (F1 _ Hk). cbn [fst snd] in F1.
      apply list_elem_of_In, filter_In in Hk2 as [_ Hn]. unfold no_value in Hn. cbn [fst] in Hn. rewrite F1 in Hn. done.
    + clear -N2. induction (iter (deleted_keys db)) as [|e es IH]; [constructor|]. cbn [map] in N2. apply NoDup_cons in N2 as [Hni Hnd].
      cbn [List.filter]. destruct (no_value db e); [|auto]. cbn [map]. apply NoDup_cons. split; [|auto].
      intros Hin. apply Hni. apply list_elem_of_fmap in Hin as (e' & -> & Hin). apply list_elem_of_fmap. exists e'. split; [done|].
      by apply list_elem_of_In, filter_In, proj1, list_elem_of_In in Hin.
  - intros k Hk. apply not_elem_of_app in Hk as [Hk1 Hk2].
    assert (dict db !! k = None) as Hd.
    { destruct (dict db !! k) as [v|] eqn:E; [|done]. exfalso. apply Hk1, list_elem_of_fmap. exists (k, v). auto. }
    split; [done|]. split.
    + apply not_elem_of_dom. intros Hin. apply Hok, elem_of_dom in Hin. rewrite Hd in Hin. by destruct Hin.
    + destruct (deleted_keys db !! k) as [v|] eqn:E; [|done]. exfalso. apply Hk2, list_elem_of_fmap. exists (k, v). split; [done|].
      apply list_elem_of_In, filter_In. split; [apply list_elem_of_In; auto|]. unfold no_value. cbn [fst]. rewrite Hd. done.
Qed.

Definition empty_db : redisDb object := MkDb ∅ ∅ ∅.

Definition clip (n : nat) : Z := Z.min (Z.of_nat n) UINT32_MAX.

Definition head_bytes (j : Z) db : bytes :=
  RDB_OPCODE_SELECTDB :: len_bytes j ++
  RDB_OPCODE_RESIZEDB :: len_bytes (clip (size (dict db))) ++ len_bytes (clip (size (expires db))) ++ len_bytes (clip (size (deleted_keys db))).

Lemma clip_range n : 0 <= clip n < 2 ^ 64 - 1.
Proof. unfold clip, UINT32_MAX. lia. Qed.

Lemma save_head_saves j db : 0 <= j < 2 ^ 64 -> saves (save_head true j db) (head_bytes j db).
Proof.
  intros Hj. unfold save_head, head_bytes, rdbSaveCrdtDbSize.
  assert (forall n, saves (rdbSaveLen (clip n)) (len_bytes (clip n))) as Hc.
  { intros n. apply saves_len. pose proof (clip_range n). lia. }
  apply (saves_seq _ _ [_]); [apply saves_raw|]. apply saves_seq; [by apply saves_len|].
  apply (saves_seq _ _ [_]); [apply saves_raw|]. apply saves_seq; [apply Hc|]. apply saves_seq; apply Hc.
Qed.

Lemma head_ok j db : 0 <= j < 2 ^ 31 -> bytes_ok (head_bytes j db).
Proof.
  intros Hj.
  assert (forall n, bytes_ok (len_bytes (clip n))) as Hok.
  { intros n. apply loads_len. pose proof (clip_range n). lia. }
  unfold head_bytes. constructor; [unfold RDB_OPCODE_SELECTDB; lia|]. apply bytes_ok_app; [apply loads_len; lia|].
  constructor; [unfold RDB_OPCODE_RESIZEDB; lia|]. by repeat apply bytes_ok_app.
Qed.

Lemma head_steps (j : nat) db st :
  (j < length (l_dbs st))%nat -> Z.of_nat j < 2 ^ 31 -> steps (head_bytes (Z.of_nat j) db) st (set_l_db j st).
Proof.
  intros Hj Hj2. assert (forall ty, loads rdbLoadType [ty] ty) as Hty by done.
  unfold head_bytes. apply (steps_app (RDB_OPCODE_SELECTDB :: len_bytes (Z.of_nat j)) _ _ (set_l_db j st)).
  - apply steps_one; [done|]. apply (loads_bind _ _ [_] _ RDB_OPCODE_SELECTDB); [apply Hty|].
      change (RDB_OPCODE_SELECTDB =? RDB_OPCODE_EXPIRETIME) with false. change (RDB_OPCODE_SELECTDB =? RDB_OPCODE_EXPIRETIME_MS) with false.
      change (RDB_OPCODE_SELECTDB =? RDB_OPCODE_EOF) with false. rewrite Z.eqb_refl. cbv iota.
      rewrite <- (app_nil_r (len_bytes _)). eapply loads_bind; [apply loads_len_plain; lia|].
      unfold dbnum. destruct (Z.geb_spec (Z.of_nat j) (Z.of_nat (length (l_dbs st)))); [lia|]. rewrite Nat2Z.id. cbn [negb andb].
      apply (loads_bind _ _ [] [] (set_l_db j st)); [by apply loads_do|apply loads_ret].
  - apply steps_one; [done|]. apply (loads_bind _ _ [_] _ RDB_OPCODE_RESIZEDB); [apply Hty|].
      change (RDB_OPCODE_RESIZEDB =? RDB_OPCODE_EXPIRETIME) with false. change (RDB_OPCODE_RESIZEDB =? RDB_OPCODE_EXPIRETIME_MS) with false.
      change (RDB_OPCODE_RESIZEDB =? RDB_OPCODE_EOF) with false. change (RDB_OPCODE_RESIZEDB =? RDB_OPCODE_SELECTDB) with false.
      rewrite Z.eqb_refl. cbv iota.
      eapply loads_bind; [apply loads_len_plain, clip_range|]. eapply loads_bind; [apply loads_len_plain, clip_range|].
      rewrite <- (app_nil_r (len_bytes _)). eapply loads_bind; [apply loads_len_plain, clip_range|]. apply loads_ret.
Qed.

Definition set_db_at (j : nat) (db : redisDb object) (n : nat) st : lstate object :=
  MkLoad (l_info st) (<[j := db]> (l_dbs st)) n (l_rsi st) (l_scripts st).

(** What saving leaves of a database: tombstones may have been collected. *)

Definition tombstones_collected (db db' : redisDb object) : Prop :=
  dict db' = dict db /\ expires db' = expires db /\ deleted_keys db' ⊆ deleted_keys db.

Abbreviation save_database' := (save_database compression mem any_loading now iter save_type save_object true save).

Lemma save_database_reads db s (j : nat) :
  db_saveable db -> server_ok s -> Z.of_nat j < 2 ^ 31 ->
  exists b db' s', gives (save_database' (Z.of_nat j) db s) b (db', s') /\ server_ok s' /\ tombstones_collected db db' /\
    bytes_ok b /\ forall st, l_dbs st !! j = Some empty_db -> exists n, steps b st (set_db_at j db' n st).
Proof.
  intros Hdb Hs Hj. unfold save_database.
  destruct (bool_decide (dict db = ∅) && (negb true || bool_decide (deleted_keys db = ∅))) eqn:Ee.
  - apply andb_prop in Ee as [E1%bool_decide_eq_true E2%bool_decide_eq_true].
    exists [], db, s. split; [apply gives_saved, saves_nothing|]. split; [done|]. split; [done|]. split; [constructor|].
    intros st Hst. exists (l_db st).
    assert (db = empty_db) as ->.
    { destruct db as [d e t]. cbn [dict deleted_keys] in *. subst. pose proof (dbs_ok _ Hdb) as Hok. unfold db_ok in Hok. cbn [dict expires] in Hok.
      unfold empty_db. f_equal. apply dom_empty_inv_L. set_solver. }
    unfold set_db_at. rewrite list_insert_id by done. destruct st. apply steps_nil.
  - clear Ee. destruct (iter_entries (dict db)) as (N1 & F1 & _).
    destruct (save_entries_reads (iter (dict db)) db s Hdb Hs N1 F1) as (b1 & d' & s' & G1 & (bs1 & -> & R1) & Hs' & Sub & _).
    set (db' := set_deleted_keys d' db) in *.
    assert (db_saveable db') as Hdb' by by apply saveable_deleted.
    destruct (iter_entries (deleted_keys db')) as (_ & F2 & _).
    destruct (save_tombstones_reads (iter (deleted_keys db')) db' s' Hdb' F2) as (b2 & G2 & (bs2 & -> & R2)).
    exists (head_bytes (Z.of_nat j) db ++ concat bs1 ++ concat bs2), db', s'. split; [|split; [done|split; [done|]]].
    { eapply gives_bind; [apply gives_saved, save_head_saves; lia|]. eapply gives_bind; [exact G1|exact G2]. }
    destruct (saved_keys_spec db' (dbs_ok _ Hdb')) as [Nk Hout].
    assert (Forall2 reads (bs1 ++ bs2) (map (item_of db') (saved_keys db'))) as HF.
    { unfold saved_keys. rewrite map_app, !map_map. apply Forall2_app; [|exact R2].
      rewrite (map_ext_in _ (entry_item db')); [exact R1|]. intros e He. symmetry. apply entry_item_of.
      rewrite Forall_forall in F1. by apply F1, list_elem_of_In. }
    assert (map it_key (map (item_of db') (saved_keys db')) = saved_keys db') as Ek by (rewrite map_map; apply map_id).
    assert (forall st, l_dbs st !! j = Some empty_db ->
      steps (concat (bs1 ++ bs2)) (set_l_db j st) (set_db_at j db' j st)) as Hsteps.
    { intros st Hst. pose proof (steps_items (bs1 ++ bs2) (map (item_of db') (saved_keys db')) (set_l_db j st) empty_db HF) as Hs1.
      rewrite Ek, fold_put in Hs1.
      - apply Hs1; [done|done|]. apply Forall_forall. intros. by repeat split.
      - intros k Hk. destruct (Hout k Hk) as (A1 & A2 & A3). unfold item_of. by rewrite A1, A2, A3. }
    rewrite <- concat_app. split.
    + apply bytes_ok_app; [apply head_ok; lia|by eapply reads_ok].
    + intros st Hst. exists j. eapply steps_app; [apply head_steps; [by eapply lookup_lt_Some|done]|]. by apply Hsteps.
Qed.

Abbreviation save_databases' := (save_databases compression mem any_loading now iter save_type save_object true save).

Lemma save_databases_reads dbs : forall s (j : nat),
  Forall db_saveable dbs -> server_ok s -> Z.of_nat (j + length dbs) <= 2 ^ 31 ->
  exists b dbs' s', gives (save_databases' (Z.of_nat j) dbs s) b (dbs', s') /\ server_ok s' /\ Forall2 tombstones_collected dbs dbs' /\
    bytes_ok b /\ forall st pre, l_dbs st = pre ++ replicate (length dbs) empty_db -> length pre = j ->
      exists n, steps b st (MkLoad (l_info st) (pre ++ dbs') n (l_rsi st) (l_scripts st)).
Proof.
  induction dbs as [|db dbs IH]; intros s j Hf Hs Hj.
  - exists [], [], s. split; [apply gives_saved, saves_nothing|]. split; [done|]. split; [constructor|]. split; [constructor|].
    intros st pre E _. exists (l_db st). cbn [length replicate] in E. rewrite <- E. destruct st. apply steps_nil.
  - apply Forall_cons in Hf as [Hdb Hf]. cbn [length] in Hj.
    destruct (save_database_reads db s j Hdb Hs ltac:(lia)) as (b1 & db' & s1 & G1 & Hs1 & C1 & Ok1 & S1).
    destruct (IH s1 (S j) Hf Hs1 ltac:(lia)) as (b2 & dbs' & s2 & G2 & Hs2 & C2 & Ok2 & S2).
    exists (b1 ++ b2 ++ []), (db' :: dbs'), s2. split.
    { cbn [save_databases]. eapply gives_bind; [exact G1|]. eapply gives_bind.
      - cbn [snd]. replace (Z.of_nat j + 1) with (Z.of_nat (S j)) by lia. exact G2.
      - cbn [fst snd]. apply gives_saved, saves_nothing. }
    split; [done|]. split; [by constructor|]. rewrite app_nil_r. split; [by apply bytes_ok_app|].
    intros st pre E Hl. cbn [length replicate] in E.
    destruct (S1 st) as [n1 H1]; [rewrite E, lookup_app_r by lia; by rewrite Hl, Nat.sub_diag|].
    destruct (S2 (set_db_at j db' n1 st) (pre ++ [db'])) as [n2 H2].
    { cbn [set_db_at l_dbs]. rewrite E, <- Hl, insert_app_r_alt by lia. rewrite Nat.sub_diag. by rewrite <- app_assoc. }
    { rewrite length_app. simpl. lia. }
    exists n2. eapply steps_app; [exact H1|]. rewrite <- app_assoc in H2. exact H2.
Qed.

(** The auxiliary fields. *)

Abbreviation aux_field := (load_aux_field mstime luaCreateFunction true).

Fixpoint load_all (fields : list (bytes * bytes)) st : res (lstate object) :=
  match fields with
  | [] => Ok st
  | f :: fields => st ← aux_field f st; load_all fields st
  end.

Lemma steps_aux f fields : aux_saves f fields ->
  exists b, saves f b /\ bytes_ok b /\ forall st st', load_all fields st = Ok st' -> steps b st st'.
Proof.
  intros (bss & Hs & HF). exists (concat bss). split; [done|]. clear Hs. split.
  - induction HF as [|b kv bss kvs (b' & -> & _ & Hok) HF IH]; [constructor|by apply bytes_ok_app].
  - induction HF as [|b kv bss kvs (b' & -> & Hl & Hok) HF IH]; intros st st' E; cbn [load_all] in E.
    { simplify_eq. apply steps_nil. }
    destruct (aux_field kv st) as [st1| |] eqn:E1; try done. cbn [mbind res_bind] in E.
    cbn [concat]. eapply steps_app; [|by apply IH]. apply steps_one; [done|].
    apply (loads_bind _ _ [_] b' RDB_OPCODE_AUX); [done|].
    change (RDB_OPCODE_AUX =? RDB_OPCODE_EXPIRETIME) with false. change (RDB_OPCODE_AUX =? RDB_OPCODE_EXPIRETIME_MS) with false.
    change (RDB_OPCODE_AUX =? RDB_OPCODE_EOF) with false. change (RDB_OPCODE_AUX =? RDB_OPCODE_SELECTDB) with false.
    change (RDB_OPCODE_AUX =? RDB_OPCODE_RESIZEDB) with false. rewrite Z.eqb_refl. cbv iota.
    rewrite <- (app_nil_r b'). eapply loads_bind; [exact Hl|].
    apply (loads_bind _ _ [] [] st1); [by apply loads_do|apply loads_ret].
Qed.

Lemma load_all_app a b st : load_all (a ++ b) st = (st ← load_all a st; load_all b st).
Proof. revert st. induction a as [|f a IH]; intros st; [done|]. cbn [app load_all]. destruct (aux_field f st); [apply IH|done|done]. Qed.

(** The names that [load_aux_field] does not handle itself. *)

Definition crdt_name (key : bytes) : bool :=
  negb (bool_decide (key !! 0%nat = Some 37)) &&
  forallb (fun n => negb (strcaseeq (cstr key) (str n))) ["repl-stream-db"; "repl-id"; "repl-offset"; "lua"]%string.

Lemma load_all_info fields st i :
  Forall (fun f => crdt_name (fst f) = true) fields ->
  load_fields mstime (dbnum st) fields (l_info st) = Ok (Some i) -> load_all fields st = Ok (set_l_info i st).
Proof.
  revert st. induction fields as [|[k v] fields IH]; intros st Hf E.
  - simpl in E. simplify_eq. by destruct st.
  - apply Forall_cons in Hf as [Hk Hf]. cbn [fst] in Hk. cbn [load_all load_fields] in E |- *. unfold load_aux_field at 1.
    unfold crdt_name in Hk. cbn [forallb] in Hk. rewrite !andb_true_iff, !negb_true_iff in Hk.
    destruct Hk as (-> & -> & -> & -> & -> & _).
    destruct (rdbLoadCrdtInfoAuxFields _ _ k v (l_info st)) as [[i1|]| |]; try done. cbn [mbind res_bind] in E |- *.
    rewrite (IH (set_l_info i1 st) Hf E). done.
Qed.

(** The fields of a file. *)

Context (ctime used_memory : Z) (failed : rio -> rio) (Hctime : LLONG_MIN <= ctime <= LLONG_MAX)
  (Hused : LLONG_MIN <= used_memory <= LLONG_MAX).

Definition rsi_fields (rsi : option rdbSaveInfo) (w : world) : list (bytes * bytes) :=
  match rsi with
  | Some rsi =>
      [(str "repl-stream-db", print_Z (repl_stream_db rsi)); (str "repl-id", replid (w_server w));
       (str "repl-offset", print_Z (master_repl_offset (w_server w)))]
  | None => []
  end.

Definition file_fields (aof_preamble : bool) (rsi : option rdbSaveInfo) (w : world) : list (bytes * bytes) :=
  [(str "redis-ver", str "4.0.8"); (str "redis-bits", print_Z 64); (str "ctime", print_Z ctime); (str "used-mem", print_Z used_memory)] ++
  rsi_fields rsi w ++ info_fields w ++ [(str "aof-preamble", print_Z (if aof_preamble then 1 else 0))].

(** The replication information of the server, if it is saved. *)

Definition rsi_saveable (rsi : option rdbSaveInfo) (w : world) : Prop :=
  forall i, rsi = Some i -> - 2 ^ 31 <= repl_stream_db i < 2 ^ 31 /\ plain (replid (w_server w)) /\
    length (replid (w_server w)) = CONFIG_RUN_ID_SIZE /\ LLONG_MIN <= master_repl_offset (w_server w) <= LLONG_MAX.

Lemma aux_saves_ignored f kvs : aux_saves f kvs -> aux_saves (fun r => o ← f r; Ok (Some (default (failed r) o))) kvs.
Proof. intros (bss & Hs & HF). exists bss. split; [|done]. intros r Hr. by rewrite Hs. Qed.

Lemma save_file_fields aof_preamble rsi w n :
  world_saveable n w -> rsi_saveable rsi w ->
  aux_saves (rdbSaveInfoAuxFields compression mem ctime used_memory failed aof_preamble rsi w) (file_fields aof_preamble rsi w).
Proof.
  intros Hw Hrsi. unfold rdbSaveInfoAuxFields, file_fields.
  assert (forall z, -1 <= z <= 64 -> LLONG_MIN <= z <= LLONG_MAX) as Hsmall by (unfold LLONG_MIN, LLONG_MAX; lia).
  apply (aux_saves_seq _ _ [_]); [apply aux_saves_str; decide_now|].
  apply (aux_saves_seq _ _ [_]); [apply aux_saves_int; [decide_now|done|apply Hsmall; lia]|].
  apply (aux_saves_seq _ _ [_]); [apply aux_saves_int; [decide_now|done|done]|].
  apply (aux_saves_seq _ _ [_]); [apply aux_saves_int; [decide_now|done|done]|].
  apply aux_saves_seq.
  - destruct rsi as [i|]; [|apply aux_saves_nil]. destruct (Hrsi i eq_refl) as (Hdb & Hid & Lid & Hoff). unfold rsi_fields.
    apply (aux_saves_seq _ _ [_]); [apply aux_saves_int; [decide_now|done|unfold LLONG_MIN, LLONG_MAX; lia]|].
    apply (aux_saves_seq _ _ [_]); [apply aux_saves_str; [decide_now|done|done|unfold short; rewrite Lid; done]|].
    apply aux_saves_int; [decide_now|done|done].
  - apply aux_saves_seq; [by eapply aux_saves_ignored, save_info_fields|].
    apply aux_saves_int; [decide_now|done|]. apply Hsmall. by destruct aof_preamble.
Qed.

Lemma info_names w : Forall (fun f => crdt_name (fst f) = true) (info_fields w).
Proof.
  unfold info_fields. do 3 (constructor; [decide_now|]). apply Forall_app. split; [|constructor; [decide_now|constructor]].
  unfold all_peer_fields. apply Forall_concat, Forall_forall. intros l Hl. apply list_elem_of_fmap in Hl as (g & -> & _).
  destruct (_ !! g) as [p|]; [|constructor]. unfold peer_fields. do 6 (constructor; [decide_now|]). unfold proxy_fields.
  destruct (proxy p); [|constructor]. destruct (xpipeProxy2str _); try constructor; [decide_now|]. constructor; [decide_now|constructor].
Qed.

Definition loaded_rsi (rsi : option rdbSaveInfo) (w : world) (i : rdbSaveInfo) : rdbSaveInfo :=
  match rsi with
  | Some rsi => MkRdbInfo (repl_stream_db rsi) (Some (replid (w_server w))) (master_repl_offset (w_server w)) (isCrdtRdb i)
  | None => i
  end.

Lemma aux_stream_db val st : aux_field (str "repl-stream-db", val) st =
  Ok (map_rsi (fun i => MkRdbInfo (atoi val) (repl_id i) (repl_offset i) (isCrdtRdb i)) st).
Proof. reflexivity. Qed.

Lemma aux_repl_id val st : aux_field (str "repl-id", val) st =
  Ok (if verifyRdbType (w_crdt_enabled (l_world st)) true && Nat.eqb (length val) CONFIG_RUN_ID_SIZE
      then map_rsi (fun i => MkRdbInfo (repl_stream_db i) (Some val) (repl_offset i) (isCrdtRdb i)) st else st).
Proof. reflexivity. Qed.

Lemma aux_repl_offset val st : aux_field (str "repl-offset", val) st =
  Ok (if verifyRdbType (w_crdt_enabled (l_world st)) true
      then map_rsi (fun i => MkRdbInfo (repl_stream_db i) (repl_id i) (strtoll val) (isCrdtRdb i)) st else st).
Proof. reflexivity. Qed.

Lemma aux_lua body st : aux_field (str "lua", body) st =
  match luaCreateFunction body (l_scripts st) with None => Abort | Some scripts => Ok (set_l_scripts scripts st) end.
Proof. reflexivity. Qed.

Lemma load_file_fields aof_preamble rsi w w0 st :
  world_saveable (dbnum st) w -> rsi_saveable rsi w -> fresh_world w0 -> w_crdt_enabled w0 = true -> l_info st = MkInfo w0 None false ->
  exists i, load_all (file_fields aof_preamble rsi w) st =
      Ok (MkLoad i (l_dbs st) (l_db st) (loaded_rsi rsi w <$> l_rsi st) (l_scripts st)) /\
    restored mstime w w0 (i_world i).
Proof.
  intros Hw Hrsi Hfr Hen Ei. destruct (load_info_fields mstime (dbnum st) w w0 Hw Hfr) as (i & El & R). exists i. split; [|done].
  unfold file_fields. rewrite load_all_app, (load_all_info _ st (l_info st)).
  2:{ repeat (constructor; [decide_now|]). constructor. }
  2:{ reflexivity. }
  cbn [mbind res_bind]. rewrite load_all_app.
  set (st1 := MkLoad (l_info st) (l_dbs st) (l_db st) (loaded_rsi rsi w <$> l_rsi st) (l_scripts st)).
  assert (load_all (rsi_fields rsi w) (set_l_info (l_info st) st) = Ok st1) as ->.
  { unfold st1. destruct rsi as [r|].
    - destruct (Hrsi r eq_refl) as (Hdb & Hid & Lid & Hoff). unfold rsi_fields. cbn [load_all].
      rewrite aux_stream_db. cbn [mbind res_bind]. rewrite aux_repl_id. cbn [mbind res_bind].
      rewrite aux_repl_offset, (atoi_print _ Hdb), (proj1 (print_Z_reads _ Hoff)), Lid.
      assert (forall st', l_info st' = l_info st -> verifyRdbType (w_crdt_enabled (l_world st')) true = true) as Hv.
      { intros st' E. unfold verifyRdbType, l_world. rewrite E, Ei. cbn [i_world]. by rewrite Hen. }
      rewrite (Hv (map_rsi _ _)), Nat.eqb_refl by done. cbn [andb]. rewrite (Hv (map_rsi _ _)) by done.
      cbn [mbind res_bind]. destruct st as [? ? ? [] ?]; done.
    - destruct st as [? ? ? [] ?]; done. }
  cbn [mbind res_bind]. rewrite load_all_app, (load_all_info _ st1 i); [|apply info_names|by rewrite Ei || (unfold st1; cbn [l_info]; rewrite Ei; exact El)].
  cbn [mbind res_bind]. rewrite (load_all_info _ _ i); [done|repeat (constructor; [decide_now|]); constructor|reflexivity].
Qed.

(** The scripts; [sha1hex] names the function of a script. *)

Context (sha1hex : bytes -> bytes) (scripts : list bytes)
  (Hlua : forall body m, body ∈ scripts -> luaCreateFunction body m = Some (<[sha1hex body := body]> m))
  (Hscripts : Forall key_ok scripts).

Definition with_scripts (bodies : list bytes) (m : gmap bytes bytes) : gmap bytes bytes :=
  fold_left (fun m body => <[sha1hex body := body]> m) bodies m.

Lemma scripts_saves bodies : Forall key_ok bodies ->
  aux_saves (save_scripts compression mem bodies) (map (pair (str "lua")) bodies).
Proof.
  induction 1 as [|body bodies [Hb Hs] _ IH]; [apply aux_saves_nil|]. cbn [save_scripts map].
  apply (aux_saves_seq _ _ [_]); [|done]. apply aux_saves_field; [decide_now|done|done|done].
Qed.

Lemma scripts_loaded bodies : forall st, (forall body, body ∈ bodies -> body ∈ scripts) ->
  load_all (map (pair (str "lua")) bodies) st = Ok (set_l_scripts (with_scripts bodies (l_scripts st)) st).
Proof.
  induction bodies as [|body bodies IH]; intros st Hin; [by destruct st|].
  cbn [map load_all]. rewrite aux_lua, Hlua by (apply Hin; by left). cbn [mbind res_bind]. rewrite IH by (intros; apply Hin; by right).
  done.
Qed.

(** The whole file. *)

Context (addr addr' : Z) (save_cs load_cs : bool).

Abbreviation save_file := (rdbSaveRio compression mem addr save_cs any_loading now ctime used_memory failed iter save_type save_object).
Abbreviation load_file := (rdbLoadRio addr' load_cs mstime ld2string run luaCreateFunction load_object).

Definition cksum_bytes (body : bytes) : bytes := le_split 8 (if save_cs then crc64 addr 0 body else 0).

Lemma cksum_spec body : bytes_ok body -> bytes_ok (cksum_bytes body) /\ length (cksum_bytes body) = 8%nat /\
  le_word (cksum_bytes body) = if save_cs then crc_spec 0 body else 0.
Proof.
  intros Hok. unfold cksum_bytes. rewrite crc64_spec by done. apply le_split_word.
  destruct save_cs; [|done]. by apply crc_spec_range.
Qed.

Lemma cksum_saves out body room : bytes_ok body -> 8 <= room ->
  save_cksum addr save_cs (length out) (MkRio (out ++ body) room) =
  Ok (Some (MkRio ((out ++ body) ++ cksum_bytes body) (room - 8))).
Proof.
  intros Hok Hr. destruct (cksum_spec body Hok) as (_ & Hl & _). unfold save_cksum. cbn [rio_out].
  rewrite drop_app_length. fold (cksum_bytes body). rewrite saves_raw by (cbn [rio_room]; rewrite Hl; lia).
  cbn [rio_out rio_room]. by rewrite Hl.
Qed.

Definition script_fields (rsi : option rdbSaveInfo) : list (bytes * bytes) :=
  match rsi with Some _ => map (pair (str "lua")) scripts | None => [] end.

Lemma save_file_gives aof_preamble rsi w dbs n :
  save_crdt_value = Some save -> world_saveable n w -> rsi_saveable rsi w -> server_ok (w_crdt w) -> w_crdt_enabled w = true ->
  Forall db_saveable dbs -> Z.of_nat (length dbs) <= 2 ^ 31 ->
  exists body dbs' s', gives (save_file aof_preamble rsi scripts w dbs) (body ++ cksum_bytes body) (dbs', s') /\
    server_ok s' /\ Forall2 tombstones_collected dbs dbs' /\ bytes_ok body /\
    exists b, body = magic ++ b ++ [RDB_OPCODE_EOF] /\
    forall st st1, load_all (file_fields aof_preamble rsi w) st = Ok st1 ->
      l_dbs st1 = replicate (length dbs) empty_db ->
      exists k, steps b st (MkLoad (l_info st1) dbs' k (l_rsi st1)
        (match rsi with Some _ => with_scripts scripts (l_scripts st1) | None => l_scripts st1 end)).
Proof.
  intros Esave Hw Hrsi Hs Hen Hdbs Hn.
  destruct (steps_aux _ _ (save_file_fields aof_preamble rsi w n Hw Hrsi)) as (b1 & S1 & Ok1 & R1).
  destruct (save_databases_reads dbs (w_crdt w) 0 Hdbs Hs Hn) as (b2 & dbs' & s' & G2 & Hs' & C2 & Ok2 & R2).
  assert (aux_saves (match rsi with Some _ => save_scripts compression mem scripts | None => save_nothing end) (script_fields rsi)) as Hsc.
  { destruct rsi; [by apply scripts_saves|apply aux_saves_nil]. }
  destruct (steps_aux _ _ Hsc) as (b3 & S3 & Ok3 & R3).
  set (body := magic ++ (b1 ++ b2 ++ b3) ++ [RDB_OPCODE_EOF]).
  assert (bytes_ok body) as Hbody.
  { unfold body. apply bytes_ok_app; [decide_now|]. apply bytes_ok_app; [by repeat apply bytes_ok_app|decide_now]. }
  exists body, dbs', s'. split; [|split; [done|split; [done|split; [done|]]]].
  - intros r Hr. destruct (cksum_spec body Hbody) as (_ & Hl & _). rewrite length_app, Hl in Hr |- *.
    unfold rdbSaveRio. rewrite Esave, Hen. unfold saving_bind.
    assert (length body = length (magic ++ b1) + length b2 + (length b3 + 1))%nat as El.
    { unfold body. rewrite !length_app. simpl. lia. }
    rewrite (gives_saved _ (magic ++ b1) tt) by (lia || (apply saves_seq; [apply saves_raw|done])). cbn [mbind res_bind].
    rewrite G2 by (cbn [rio_room]; lia). cbn [mbind res_bind rio_out rio_room]. unfold saved, save_seq at 1.
    rewrite S3 by (cbn [rio_room]; lia). cbn [mbind res_bind]. unfold save_seq, rdbSaveType.
    rewrite saves_raw by (cbn [rio_room length]; lia). cbn [mbind res_bind rio_out rio_room].
    assert ((((rio_out r ++ magic ++ b1) ++ b2) ++ b3) ++ [RDB_OPCODE_EOF] = rio_out r ++ body) as ->.
    { unfold body. by rewrite <- !app_assoc. }
    cbn [length]. rewrite cksum_saves by (done || lia). cbn [mbind res_bind]. rewrite <- app_assoc. do 4 f_equal. lia.
  - exists (b1 ++ b2 ++ b3). split; [done|]. intros st st1 E1 Edb.
    destruct (R2 st1 [] Edb eq_refl) as [k H2]. exists k. eapply steps_app; [by apply R1|]. eapply steps_app; [exact H2|].
    apply R3. unfold script_fields. destruct rsi; [|done]. rewrite scripts_loaded by done. done.
Qed.

Lemma free_masters_none w : crdtMasters (w_crdt w) = ∅ -> free_masters w = set_w_crdt (set_loading false (w_crdt w)) w.
Proof.
  intros E. unfold free_masters. generalize (seqZ 0 (MAX_PEERS + 1)). intros gids.
  assert (fold_left (fun w g => match crdtMasters (w_crdt w) !! g with Some p => freePeerMaster p w | None => w end) gids w = w) as ->; [|done].
  induction gids as [|g gids IH]; [done|]. cbn [fold_left]. rewrite E, lookup_empty. exact IH.
Qed.

(** [w1] is a fresh server with the gid and time of [w0]. *)

Lemma start_fresh w0 : fresh_world w0 -> exists w1,
  (if true && w_crdt_enabled w0 && negb (iAmMaster w0) then free_masters w0 else w0) = w1 /\
  fresh_world w1 /\ w_crdt_enabled w1 = w_crdt_enabled w0 /\ (forall m w w', restored m w w1 w' -> restored m w w0 w').
Proof.
  intros Hf. eexists. split; [reflexivity|]. destruct (true && w_crdt_enabled w0 && negb (iAmMaster w0)); [|done].
  rewrite free_masters_none by apply Hf. split; [|split; [done|]].
  - destruct Hf as (Hs & ? & ? & ?). done.
  - intros m w w' []. by split.
Qed.

Lemma loop_ends b st st' fuel rest : (length b < fuel)%nat -> steps b st st' ->
  loop fuel st ((b ++ [RDB_OPCODE_EOF]) ++ rest) = Ok (Some ((C_OK, st'), rest)).
Proof.
  intros Hf (n & Hn & E). replace fuel with (n + S (fuel - n - 1))%nat by lia. rewrite <- app_assoc, E. done.
Qed.

Lemma load_file_ok aof_preamble rsi w w0 dbs st0 rsi0 :
  save_crdt_value = Some save -> load_crdt_value = Some load ->
  world_saveable (Z.of_nat (length dbs)) w -> rsi_saveable rsi w -> server_ok (w_crdt w) -> w_crdt_enabled w = true ->
  Forall db_saveable dbs -> fresh_world w0 -> w_crdt_enabled w0 = true ->
  l_world st0 = w0 -> l_dbs st0 = replicate (length dbs) empty_db -> l_rsi st0 = Some rsi0 ->
  exists file dbs' s' st', gives (save_file aof_preamble rsi scripts w dbs) file (dbs', s') /\ Forall2 tombstones_collected dbs dbs' /\
    load_file st0 file = Ok (C_OK, st') /\ l_dbs st' = dbs' /\ restored mstime w w0 (l_world st') /\
    l_rsi st' = Some (loaded_rsi rsi w (MkRdbInfo (repl_stream_db rsi0) (repl_id rsi0) (repl_offset rsi0) true)) /\
    l_scripts st' = match rsi with Some _ => with_scripts scripts (l_scripts st0) | None => l_scripts st0 end.
Proof.
  intros Esave Eload Hw Hrsi Hs Hen Hdbs Hfr Hen0 Ew Edbs Ersi.
  assert (Z.of_nat (length dbs) < 2 ^ 31) as Hn by apply Hw.
  destruct (save_file_gives aof_preamble rsi w dbs _ Esave Hw Hrsi Hs Hen Hdbs ltac:(lia))
    as (body & dbs' & s' & G & Hs' & C & Hok & b & Eb & R).
  destruct (start_fresh w0 Hfr) as (w1 & E1 & Hf1 & He1 & Hres).
  set (st1 := set_l_info (MkInfo w1 None false)
    (map_rsi (fun i => MkRdbInfo (repl_stream_db i) (repl_id i) (repl_offset i) true) st0)).
  assert (dbnum st1 = Z.of_nat (length dbs)) as Edn by (unfold dbnum; cbn [st1 l_dbs set_l_info map_rsi]; by rewrite Edbs, length_replicate).
  destruct (load_file_fields aof_preamble rsi w w1 st1) as (i & Hl & Hr); [by rewrite Edn|done|done|congruence|done|].
  destruct (R st1 _ Hl) as [k Hsteps]; [exact Edbs|].
  exists (body ++ cksum_bytes body), dbs', s', (MkLoad i dbs' k (loaded_rsi rsi w <$> l_rsi st1)
    (match rsi with Some _ => with_scripts scripts (l_scripts st1) | None => l_scripts st1 end)).
  split; [exact G|]. split; [done|].
  split; [|split; [|split; [apply Hres; exact Hr|]]].
  - unfold rdbLoadRio. rewrite Eload.
    assert (rioRead 9 (body ++ cksum_bytes body) = Some (magic, (b ++ [RDB_OPCODE_EOF]) ++ cksum_bytes body)) as ->.
    { rewrite Eb, <- app_assoc. unfold rioRead. rewrite length_app.
      change (length magic) with 9%nat. destruct (Nat.ltb_spec (9 + length ((b ++ [RDB_OPCODE_EOF]) ++ cksum_bytes body)) 9); [lia|].
      change 9%nat with (length magic). by rewrite take_app_length, drop_app_length. }
    cbv zeta beta. change (bool_decide (take 5 magic = str "REDIS")) with true. change (atoi (cstr (drop 5 magic))) with 1008.
    change ((1008 <? 1) || (1008 >? RDB_VERSION + CTRIP_RDB_PREFIX)) with false. change (1008 >? CTRIP_RDB_PREFIX) with true.
    cbn [negb andb]. rewrite Ew.
    change (w_crdt_enabled w0 && negb (iAmMaster w0)) with (true && w_crdt_enabled w0 && negb (iAmMaster w0)). rewrite E1. fold st1.
    assert (length (body ++ cksum_bytes body) = length b + 1 + 9 + 8)%nat as Elen.
    { rewrite length_app, (proj1 (proj2 (cksum_spec body Hok))), Eb, !length_app. change (length magic) with 9%nat. simpl. lia. }
    rewrite (loop_ends b st1 _ (length (body ++ cksum_bytes body)) (cksum_bytes body) ltac:(lia) Hsteps). cbn [mbind res_bind]. change (C_OK =? C_ERR) with false. cbv iota.
    replace (take _ (body ++ cksum_bytes body)) with body.
    2:{ rewrite length_app, Nat.add_sub, take_app_length. done. }
    unfold check_cksum. change (1008 >=? 5) with true. cbn [andb]. destruct load_cs; [|reflexivity].
    destruct (cksum_spec body Hok) as (_ & Hcl & Hcw).
    unfold load_bind. rewrite <- (app_nil_r (cksum_bytes body)), (loads_raw_n 8 _ Hcl). cbn [mbind res_bind load_ret].
    rewrite Hcw, crc64_spec by done. destruct save_cs; [rewrite Z.eqb_refl, orb_true_r|]; reflexivity.
  - done.
  - cbn [l_rsi l_scripts]. split; [|done]. unfold st1. cbn [l_rsi set_l_info map_rsi]. by rewrite Ersi.
Qed.

(** ** The claim *)

(** C23: what is saved to an RDB file is what is loaded from it.  Saving succeeds on
    every destination with room for the file, and loading that file into a server
    that has just started, with as many empty databases, succeeds: every database
    has the values, expire times and tombstones it was saved with (saving may
    collect tombstones, nothing else), the information of the server is restored,
    the caller is told the replication id, offset and database if they were saved,
    and the scripts are compiled.  This holds whatever the two servers' settings
    for compression and checksums are, and wherever the buffers lie; what it takes
    of the module is that it reads what it writes. *)
Theorem rdb_file_roundtrip (aof_preamble : bool) (rsi : option rdbSaveInfo) (w w0 : world) (dbs : list (redisDb object))
    (st0 : lstate object) (rsi0 : rdbSaveInfo)
    (Esave : save_crdt_value = Some save) (Eload : load_crdt_value = Some load)
    (Hw : world_saveable (Z.of_nat (length dbs)) w) (Hrsi : rsi_saveable rsi w) (Hs : server_ok (w_crdt w))
    (Hen : w_crdt_enabled w = true) (Hdbs : Forall db_saveable dbs) (Hfr : fresh_world w0) (Hen0 : w_crdt_enabled w0 = true)
    (Ew : l_world st0 = w0) (Edbs : l_dbs st0 = replicate (length dbs) empty_db) (Ersi : l_rsi st0 = Some rsi0) :
  exists file dbs' s' st', gives (save_file aof_preamble rsi scripts w dbs) file (dbs', s') /\ Forall2 tombstones_collected dbs dbs' /\
    load_file st0 file = Ok (C_OK, st') /\ l_dbs st' = dbs' /\ restored mstime w w0 (l_world st') /\
    l_rsi st' = Some (loaded_rsi rsi w (MkRdbInfo (repl_stream_db rsi0) (repl_id rsi0) (repl_offset rsi0) true)) /\
    l_scripts st' = match rsi with Some _ => with_scripts scripts (l_scripts st0) | None => l_scripts st0 end.
Proof. by apply load_file_ok. Qed.

End theory.

(** A module with numbers of one byte. *)

Definition encode_number (o : option (dbval Z)) : bytes :=
  match o with Some (ModuleValue _ z) => [1; z] | _ => [0] end.

Definition decode_number : loader (option (dbval Z)) :=
  b <-- load_raw 1 ;;
  if bool_decide (b = [1]) then z <-- load_raw 1 ;; load_ret (number <$> head z) else load_ret None.

Definition write_numbers (key : bytes) (o t : option (dbval Z)) (r : rio) : rio :=
  default r (rioWrite (encode_number o ++ encode_number t) r).

Definition read_numbers (key : bytes) (db : redisDb Z) : loader (redisDb Z) :=
  o <-- decode_number ;; t <-- decode_number ;; load_ret (put_item db (MkItem key o None t)).

Definition number_rdb : RdbModule Z := {| save_crdt_value := Some write_numbers; load_crdt_value := Some read_numbers |}.

Definition one_byte (v : dbval Z) : Prop := exists z, 0 <= z < 256 /\ v = number z.

Lemma number_reads o : (forall v, o = Some v -> one_byte v) -> loads decode_number (encode_number o) o /\ bytes_ok (encode_number o).
Proof.
  intros Ho. destruct o as [v|]; [|split; [done|constructor; [lia|constructor]]]. destruct (Ho v eq_refl) as (z & Hz & ->). split; [done|].
  constructor; [lia|]. constructor; [lia|constructor].
Qed.

Lemma number_faithful : module_faithful write_numbers read_numbers one_byte.
Proof.
  intros key o t Ho Ht. destruct (number_reads o Ho) as [Lo Oo]. destruct (number_reads t Ht) as [Lt Ot].
  exists (encode_number o ++ encode_number t). split; [by apply bytes_ok_app|]. split.
  - intros r Hr. unfold write_numbers. by rewrite writes_write.
  - intros db _. unfold read_numbers. eapply loads_bind; [exact Lo|]. rewrite <- (app_nil_r (encode_number t)).
    eapply loads_bind; [exact Lt|apply loads_ret].
Qed.

Definition example_rdb_dbs : list (redisDb Z) :=
  [MkDb {[ str "a" := number 5; str "b" := number 6 ]} {[ str "a" := 1000 ]} {[ str "b" := number 7 ]};
   MkDb ∅ ∅ {[ str "c" := number 255 ]}] ++ replicate 14 (MkDb ∅ ∅ ∅).

Definition example_full_world : world := set_w_server (set_replid example_id (w_server example_world)) example_saved_world.

Lemma example_dbs_saveable : Forall (db_saveable one_byte) example_rdb_dbs.
Proof.
  assert (forall z, 0 <= z < 256 -> one_byte (number z)) as Hz by (intros z Hz; by exists z).
  assert (forall c, key_ok (str (String c "")) ) as Hk.
  { intros c. split; [|done]. constructor; [|constructor]. unfold byte_of_ascii. destruct c as [[] [] [] [] [] [] [] []]; simpl; lia. }
  apply Forall_app. split; [constructor; [|constructor; [|constructor]]|apply Forall_replicate];
    split; cbn [dict expires deleted_keys]; try apply map_Forall_empty; try (unfold db_ok; cbn [dict expires]; set_solver).
  - apply map_Forall_insert_2; [|apply map_Forall_singleton]; (split; [apply Hk|split; [done|apply Hz; lia]]).
  - apply map_Forall_singleton. unfold LLONG_MIN, LLONG_MAX. lia.
  - apply map_Forall_singleton. split; [apply Hk|apply Hz; lia].
  - apply map_Forall_singleton. split; [apply Hk|apply Hz; lia].
Qed.

Lemma example_saved_ok : server_ok (w_crdt example_full_world).
Proof.
  split; [simpl; lia|]. split; [decide_now|]. split; [decide_now|]. split; [decide_now|].
  apply map_Forall_insert_2; [|apply map_Forall_empty]. split; decide_now.
Qed.

Definition example_loader : lstate Z :=
  MkLoad (MkInfo example_fresh_world None false) (replicate 16 (MkDb ∅ ∅ ∅)) 0 (Some RDB_SAVE_INFO_INIT) ∅.

Lemma rdb_file_roundtrip_witness :
  exists file dbs' s' st',
    gives (@rdbSaveRio Z number_module number_rdb true (fun _ _ => 0) 3 true false 5 7 9 (fun r => r) map_to_list
             (fun _ => save_nothing) (fun _ => save_nothing) false (Some (MkRdbInfo 2 None 0 true)) [str "return 1"]
             example_full_world example_rdb_dbs) file (dbs', s') /\
    Forall2 tombstones_collected example_rdb_dbs dbs' /\
    @rdbLoadRio Z Z number_rdb 5 true 11 print_Z (fun _ st => Ok st) (fun body m => Some (<[body := body]> m))
      (fun _ => load_fail) example_loader file = Ok (C_OK, st') /\
    l_dbs st' = dbs' /\ restored 11 example_full_world example_fresh_world (l_world st') /\
    l_rsi st' = Some (MkRdbInfo 2 (Some example_id) 0 true) /\ l_scripts st' = {[str "return 1" := str "return 1"]}.
Proof.
  apply (@rdb_file_roundtrip Z Z number_module number_rdb true (fun _ _ => 0) false 5 map_to_list (fun _ => save_nothing)
    (fun _ => save_nothing) 11 print_Z (fun _ st => Ok st) (fun body m => Some (<[body := body]> m)) (fun _ => load_fail)
    write_numbers read_numbers one_byte number_faithful ltac:(done) 7 9 (fun r => r) ltac:(done) ltac:(done) id [str "return 1"]
    ltac:(done) ltac:(constructor; [split; decide_now|constructor]) 3 5 true true false (Some (MkRdbInfo 2 None 0 true))
    example_full_world example_fresh_world example_rdb_dbs example_loader RDB_SAVE_INFO_INIT);
    [done|done|exact example_world_saveable| |apply example_saved_ok|done|apply example_dbs_saveable|apply example_world_fresh|done|done|done|done].
  intros i [= <-]. split; [done|]. split; [decide_now|]. done.
Defined.
