(* ===== verification/Cron.v ===== *)
(** * What happens once a second, and after a restart
      ([src/src/ctrip_crdt_replication.c])

    The cron of the replication drops links that are silent, connects to peers,
    acknowledges, pings, frees the backlogs and starts saves.  After a restart
    the server asks its peers how much of its own data they know, and fetches it
    back from them if they know more. *)

From S2P Require Import Prelude Util Sds VectorClock VcTheory VcText VcClaims Proxy CrdtServer Gc Backlog Resp World Feed Psync PeerLink PeerState Crc Keyspace Handshake.

(** ** The cron *)

(** [ce_connect], [ce_rand] and [ce_event_ok] are those of
    [crdtConnectWithMaster], [ce_write_ok] and [ce_outcome] those of the start of
    a save; [ce_idle] tells that no child process forbids one. *)

Record cron_env := MkCron {
  ce_time : Z;
  ce_mstime : Z;
  ce_repl_timeout : Z;
  ce_connect : bytes -> Z -> Z;
  ce_rand : Z;
  ce_event_ok : bool;
  ce_loops : Z;
  ce_ping_period : Z;
  ce_active_ovc : bool;
  ce_idle : bool;
  ce_sync_delay : Z;
  ce_newid : bytes;
  ce_write_ok : Z -> bool;
  ce_outcome : save_outcome
}.

Section cron.

Context (e : cron_env).

(** ** The peers this server reads from *)

Definition silent (since : Z) : bool := ce_time e - since >? ce_repl_timeout e.

Definition has_host (p : peer) : bool := bool_decide (masterhost p <> None).

Definition proxyConnectFail (type : Z) (proxy : option XpipeProxy) : res unit :=
  if type =? XPIPE_PROXY then _ ← need proxy; Ok tt else Ok tt.

Definition handshake_timeout (g : Z) (w : world) : res world :=
  p ← need (crdtMasters (w_crdt w) !! g);
  if has_host p && ((repl_state p =? REPL_STATE_CONNECTING) || crdtSlaveIsInHandshakeState p) &&
     silent (repl_transfer_lastio p) then
    _ ← (if negb (proxy_type p =? NONE_PROXY) then proxyConnectFail (proxy_type p) (proxy p) else Ok tt);
    crdtCancelReplicationHandshake g w
  else Ok w.

Definition transfer_timeout (g : Z) (w : world) : res world :=
  p ← need (crdtMasters (w_crdt w) !! g);
  if has_host p && (repl_state p =? REPL_STATE_TRANSFER) && silent (repl_transfer_lastio p)
  then crdtCancelReplicationHandshake g w else Ok w.

Definition link_timeout (g : Z) (w : world) : res world :=
  p ← need (crdtMasters (w_crdt w) !! g);
  if has_host p && (repl_state p =? REPL_STATE_CONNECTED) then
    m ← need (master p);
    if silent (cl_lastinteraction m) then freeClient m w else Ok w
  else Ok w.

Definition connect_due (g : Z) (w : world) : res world :=
  p ← need (crdtMasters (w_crdt w) !! g);
  if (repl_state p =? REPL_STATE_CONNECT) && ((lazy_time p =? NO_LAZY_TIME) || (lazy_time p <? ce_mstime e)) then
    '(_, w) ← crdtConnectWithMaster (ce_connect e) (ce_rand e) (ce_event_ok e) g w;
    Ok w
  else Ok w.

Definition prepare_connect (g : Z) (w : world) : res world :=
  p ← need (crdtMasters (w_crdt w) !! g);
  Ok (if repl_state p =? REPL_STATE_NONE then set_peer g (set_repl_state REPL_STATE_CONNECT p) w else w).

(** What is queued for the peer. *)

Definition cron_ack (g : Z) (w : world) : res bytes :=
  p ← need (crdtMasters (w_crdt w) !! g);
  Ok (if has_host p && bool_decide (master p <> None) && (repl_state p =? REPL_STATE_CONNECTED)
      then crdtReplicationSendAck p (w_crdt w) else []).

Definition cron_peer (g : Z) (w : world) : res (world * bytes) :=
  w ← handshake_timeout g w;
  w ← transfer_timeout g w;
  w ← link_timeout g w;
  w ← connect_due g w;
  w ← prepare_connect g w;
  ack ← cron_ack g w;
  Ok (w, ack).

Fixpoint cron_peers (gids : list Z) (w : world) : res (world * list (Z * bytes)) :=
  match gids with
  | [] => Ok (w, [])
  | g :: gids =>
      match crdtMasters (w_crdt w) !! g with
      | None => cron_peers gids w
      | Some _ =>
          '(w, ack) ← cron_peer g w;
          '(w, acks) ← cron_peers gids w;
          Ok (w, (g, ack) :: acks)
      end
  end.

(** ** The peers that read from this server *)

Definition cron_ping (w : world) : res world :=
  if ce_ping_period e =? 0 then Undef else
  if (Z.rem (ce_loops e) (ce_ping_period e) =? 0) && negb (bool_decide (slaves (w_peers w) = [])) && ce_active_ovc e &&
     existsb (fun c => negb (sl_replstate c =? SLAVE_STATE_WAIT_BGSAVE_START)) (slaves (w_peers w))
  then sendObservedVectorClock w else Ok w.

Definition timed_out (w : world) (c : slave) : bool :=
  (sl_replstate c =? SLAVE_STATE_ONLINE) && negb (sl_flag_pre_psync c) &&
  (w_unixtime w - sl_repl_ack_time c >? ce_repl_timeout e).

(** [freeClient] of a slave of [crdtServer]: it leaves the list. *)

Definition free_slave (c : slave) (w : world) : res world :=
  let s := w_peers w in
  if negb (sl_flag_crdt_slave c) then Ok w else
  _ ← c_assert (existsb (fun d => sl_id d =? sl_id c) (slaves s));
  let s := set_slaves (List.filter (fun d => negb (sl_id d =? sl_id c)) (slaves s)) s in
  let s := if bool_decide (slaves s = []) then set_repl_no_slaves_since (w_unixtime w) s else s in
  Ok (set_w_peers s w).

Fixpoint cron_slaves (l : list slave) (w : world) : res world :=
  match l with
  | [] => Ok w
  | c :: l =>
      w ← (if timed_out w c then free_slave c w else Ok w);
      cron_slaves l w
  end.

(** ** The backlogs *)

Definition backlog_idle (w : world) (s : replServer) : bool :=
  bool_decide (slaves s = []) && negb (repl_backlog_time_limit s =? 0) && bool_decide (repl_backlog s <> None).

Definition long_idle (w : world) (s : replServer) : bool :=
  w_unixtime w - repl_no_slaves_since s >? repl_backlog_time_limit s.

Definition cron_backlog (w : world) : res world :=
  if iAmMaster w && backlog_idle w (w_peers w) && backlog_idle w (w_server w) &&
     long_idle w (w_peers w) && long_idle w (w_server w) then
    let w := changeReplicationId SERVER (ce_newid e) w in
    let w := changeReplicationId CRDT (ce_newid e) w in
    let w := clearReplicationId2 SERVER w in
    let w := clearReplicationId2 CRDT w in
    s ← freeReplicationBacklog (w_server w);
    p ← freeReplicationBacklog (w_peers w);
    Ok (set_w_peers p (set_w_server s w))
  else Ok w.

(** ** A save for the peers that wait for one *)

(** The longest wait, the number of those that wait and the clock that the save
    is filtered with; [min_vc] is kept as long as it is not null. *)

Fixpoint waiting_clock (unixtime : Z) (l : list slave) (max_idle : Z) (n : nat) (min_vc : VectorClock)
  : res (Z * nat * VectorClock) :=
  match l with
  | [] => Ok (max_idle, n, min_vc)
  | c :: l =>
      if sl_replstate c =? SLAVE_STATE_WAIT_BGSAVE_START then
        let idle := unixtime - sl_lastinteraction c in
        let max_idle := if idle >? max_idle then idle else max_idle in
        min_vc ← (if isNullVectorClock min_vc then dupVectorClock (sl_filterVectorClock c)
                  else mergeMinVectorClock min_vc (sl_filterVectorClock c));
        waiting_clock unixtime l max_idle (S n) min_vc
      else waiting_clock unixtime l max_idle n min_vc
  end.

(** The clock the save is filtered with, if one is started, and the clients that
    are no longer slaves. *)

Definition cron_save (w : world) : res (option VectorClock * world * list slave) :=
  if negb (ce_idle e) then Ok (None, w, []) else
  '(max_idle, n, min_vc) ← waiting_clock (w_unixtime w) (slaves (w_peers w)) 0 0 [];
  if (0 <? n)%nat && (max_idle >? ce_sync_delay e) then
    let '(ok, s, dropped) := startCrdtBgsaveForReplication (ce_write_ok e) (ce_outcome e) (w_peers w) in
    Ok (if ok : bool then Some min_vc else None, set_w_peers s w, dropped)
  else Ok (None, w, []).

Record cron_result := MkCronResult {
  cr_world : world;
  cr_acks : list (Z * bytes);
  cr_saved : option VectorClock;
  cr_dropped : list slave
}.

Definition crdtReplicationCron (w : world) : res cron_result :=
  '(w, acks) ← (if iAmMaster w then cron_peers (seqZ 0 (MAX_PEERS + 1)) w else Ok (w, []));
  w ← cron_ping w;
  w ← cron_slaves (slaves (w_peers w)) w;
  w ← cron_backlog w;
  '(saved, w, dropped) ← cron_save w;
  Ok (MkCronResult w acks saved dropped).

End cron.

(** ** After a restart *)

(** What a peer answers to [crdt.vc]. *)

Inductive vc_answer := NoConnection | NoReply | ReplyString (s : bytes) | ReplyOther.

Definition getSelfVcuFromPeer (a : vc_answer) (s : crdtServer) : res Z :=
  match a with
  | ReplyString t => vc ← sdsToVectorClock t; Ok (fst (get_vcu_from_vc vc (crdt_gid s)))
  | _ => Ok (-1)
  end.

Definition isNullDb {object : Type} (dbs : list (redisDb object)) : bool :=
  forallb (fun db => bool_decide (dict db = ∅) && bool_decide (deleted_keys db = ∅)) dbs.

Definition get_min_backstream_vcu (w : world) : Z :=
  let min := fold_left (fun min g => match crdtMasters (w_crdt w) !! g with
               | None => min
               | Some p => if isNullVectorClock (backstream_vc p) then min else
                           let vcu := fst (get_vcu_from_vc (backstream_vc p) (crdt_gid (w_crdt w))) in
                           if vcu <? min then vcu else min
               end) (seqZ 0 16) LLONG_MAX in
  if negb (min =? LLONG_MAX) then min else -1.

Definition lazyPeerof (mstime restart_lazy_peerof_time : Z) (w : world) : res world :=
  each_peer (fun g p w => Ok (set_peer g (set_lazy_time (mstime + restart_lazy_peerof_time) p) w)) (seqZ 0 16) w.

Definition cleanSlavePeerBackStream (w : world) : res world :=
  w ← each_peer (fun g p w => Ok (if negb (isNullVectorClock (backstream_vc p)) then set_peer g (set_backstream_vc [] p) w else w))
        (seqZ 0 16) w;
  Ok (set_w_crdt (set_loading false (w_crdt w)) w).

Definition add_backstream (vcu g : Z) (p : peer) (w : world) : res world :=
  vc ← addVectorClockUnit (backstream_vc p) (crdt_gid (w_crdt w)) vcu;
  Ok (set_peer g (set_backstream_vc vc p) w).

(** The largest clock that a peer knows, the peer, and whether there is any. *)

Fixpoint ask_peers (ask : Z -> vc_answer) (gids : list Z) (max_vcu max_gid : Z) (any : bool) (w : world)
  : res (Z * Z * bool * world) :=
  match gids with
  | [] => Ok (max_vcu, max_gid, any, w)
  | g :: gids =>
      match crdtMasters (w_crdt w) !! g with
      | None => ask_peers ask gids max_vcu max_gid any w
      | Some p =>
          vcu ← getSelfVcuFromPeer (ask g) (w_crdt w);
          if vcu =? -1 then w ← add_backstream 0 g p w; ask_peers ask gids max_vcu max_gid true w
          else if vcu >? max_vcu then ask_peers ask gids vcu g true w
          else ask_peers ask gids max_vcu max_gid true w
      end
  end.

Definition assign_backstream (max_vcu max_gid : Z) (w : world) : res world :=
  each_peer (fun g p w =>
    if g =? max_gid then add_backstream 0 g p w
    else if isNullVectorClock (backstream_vc p) then add_backstream max_vcu g p w
    else Ok w) (seqZ 0 16) w.

(** [newid] is what [getRandomHexChars] gives. *)

Definition peerBackStream {object : Type} (ask : Z -> vc_answer) (newid : bytes) (w : world) (dbs : list (redisDb object))
  : res (bool * world * list (redisDb object)) :=
  '(max_vcu, max_gid, any, w) ← ask_peers ask (seqZ 0 16) (-1) (-1) false w;
  let finish w dbs :=
    let w := set_w_crdt (set_loading any (w_crdt w)) w in
    if max_gid =? -1 then Ok (any, w, dbs) else
    w ← assign_backstream max_vcu max_gid w;
    Ok (any, w, dbs) in
  if negb (isNullDb dbs) && iAmMaster w then
    let process_vcu := get_logic_clock (getVectorClockUnit (vectorClock (w_crdt w)) (crdt_gid (w_crdt w))) in
    if max_vcu <=? process_vcu then
      w ← cleanSlavePeerBackStream w;
      Ok (false, w, dbs)
    else
      let '(_, dbs) := emptyDb (-1) dbs in
      let s := set_vectorClock (resetVectorClock (vectorClock (w_crdt w))) (w_crdt w) in
      let s := set_gcVectorClock (resetVectorClock (gcVectorClock s)) s in
      let w := clearReplicationId2 SERVER (changeReplicationId SERVER newid (set_w_crdt s w)) in
      finish w dbs
  else finish w dbs.

(** ** The links of the peers *)

(** How far the stream of a peer has been read: by the link, or by the link that
    was lost. *)

Definition position (p : peer) : option (option bytes * Z) :=
  match master p, cached_master p with
  | Some m, _ | None, Some m => Some (cl_replid m, cl_reploff m)
  | None, None => None
  end.

(** A peer whose address is set; a connected one has a link. *)

Record link_ok (g : Z) (p : peer) : Prop := {
  lk_gid : 0 <= g < 16;
  lk_host : masterhost p <> None;
  lk_proxy : proxy_type p = NONE_PROXY \/ exists px, proxy p = Some px /\ servers px <> [];
  lk_master : repl_state p = REPL_STATE_CONNECTED ->
              exists m, master p = Some m /\ cl_crdt_master m = true /\ cl_closing m = false /\ cl_gid m = g
}.

(** A link in one of the states with a timeout, silent for too long. *)

Definition dead (e : cron_env) (p : peer) : bool :=
  if repl_state p =? REPL_STATE_CONNECTED then
    match master p with Some m => silent e (cl_lastinteraction m) | None => false end
  else ((repl_state p =? REPL_STATE_CONNECTING) || crdtSlaveIsInHandshakeState p || (repl_state p =? REPL_STATE_TRANSFER)) &&
       silent e (repl_transfer_lastio p).

Lemma set_peer_id g p w : crdtMasters (w_crdt w) !! g = Some p -> set_peer g p w = w.
Proof. intros E. unfold set_peer. rewrite insert_id by done. by destruct w as [? ? []]. Qed.

Lemma has_host_ok g p : link_ok g p -> has_host p = true.
Proof. intros H. by apply bool_decide_true, H. Qed.

Lemma set_link_state g p st : link_ok g p -> st <> REPL_STATE_CONNECTED -> link_ok g (set_repl_state st p).
Proof. intros [] Hst. by split. Qed.

Section links.

Context (e : cron_env).

(** One part of the work on a peer: it goes on with a peer that is as well formed,
    and not dead in a way it was not before. *)

Lemma handshake_timeout_spec g p w :
  crdtMasters (w_crdt w) !! g = Some p -> link_ok g p ->
  exists p', handshake_timeout e g w = Ok (set_peer g p' w) /\ link_ok g p' /\
    (p' = p \/ repl_state p' = REPL_STATE_CONNECT /\ dead e p = true) /\
    ((repl_state p' =? REPL_STATE_CONNECTING) || crdtSlaveIsInHandshakeState p' = true -> silent e (repl_transfer_lastio p') = false) /\
    (repl_state p = REPL_STATE_CONNECTED -> p' = p) /\ (dead e p = false -> p' = p).
Proof.
  intros E Hl. unfold handshake_timeout. rewrite E. cbn [need mbind res_bind]. rewrite (has_host_ok g) by done. cbn [andb].
  destruct ((repl_state p =? REPL_STATE_CONNECTING) || crdtSlaveIsInHandshakeState p) eqn:Eh; cbn [andb].
  2:{ exists p. rewrite set_peer_id by done. split; [done|]. split; [done|]. split; [by left|]. by rewrite Eh. }
  destruct (silent e (repl_transfer_lastio p)) eqn:Es.
  2:{ exists p. rewrite set_peer_id by done. split; [done|]. split; [done|]. split; [by left|]. done. }
  assert (repl_state p <> REPL_STATE_CONNECTED /\ repl_state p <> REPL_STATE_TRANSFER) as [Hnc Hnt].
  { unfold crdtSlaveIsInHandshakeState, REPL_STATE_CONNECTING, REPL_STATE_RECEIVE_PONG, REPL_STATE_RECEIVE_PSYNC in Eh.
    unfold REPL_STATE_CONNECTED, REPL_STATE_TRANSFER. lia. }
  assert (dead e p = true) as Hd.
  { unfold dead. destruct (Z.eqb_spec (repl_state p) REPL_STATE_CONNECTED); [done|]. by rewrite Eh, Es. }
  destruct Hl as [Hg Hh Hpx Hm].
  assert ((if negb (proxy_type p =? NONE_PROXY) then proxyConnectFail (proxy_type p) (proxy p) else Ok tt) = Ok tt) as ->.
  { unfold proxyConnectFail. destruct Hpx as [-> |(px & -> & _)]; [done|]. destruct (negb _); [|done]. by destruct (_ =? XPIPE_PROXY). }
  cbn [mbind res_bind]. unfold crdtCancelReplicationHandshake. rewrite getPeerMaster_valid by lia. rewrite E. cbn [mbind res_bind].
  destruct (Z.eqb_spec (repl_state p) REPL_STATE_TRANSFER); [done|]. rewrite Eh, to_int_id by lia.
  eexists. split; [reflexivity|].
  assert (link_ok g (crdtUndoConnectWithMaster p)) as Hu by (unfold crdtUndoConnectWithMaster; by case_match; split).
  split; [by apply set_link_state|]. split; [by right|]. split; [done|]. split; [done|]. by rewrite Hd.
Qed.

Lemma transfer_timeout_spec g p w :
  crdtMasters (w_crdt w) !! g = Some p -> link_ok g p ->
  exists p', transfer_timeout e g w = Ok (set_peer g p' w) /\ link_ok g p' /\
    (p' = p \/ repl_state p' = REPL_STATE_CONNECT /\ dead e p = true) /\
    (repl_state p' = REPL_STATE_TRANSFER -> silent e (repl_transfer_lastio p') = false) /\
    (repl_state p = REPL_STATE_CONNECTED -> p' = p) /\ (dead e p = false -> p' = p).
Proof.
  intros E Hl. unfold transfer_timeout. rewrite E. cbn [need mbind res_bind]. rewrite (has_host_ok g) by done. cbn [andb].
  destruct (Z.eqb_spec (repl_state p) REPL_STATE_TRANSFER) as [Et|Et]; cbn [andb].
  2:{ exists p. rewrite set_peer_id by done. split; [done|]. split; [done|]. split; [by left|]. done. }
  destruct (silent e (repl_transfer_lastio p)) eqn:Es.
  2:{ exists p. rewrite set_peer_id by done. split; [done|]. split; [done|]. split; [by left|]. done. }
  assert (dead e p = true) as Hd by (unfold dead; rewrite Et, Es, Z.eqb_refl, orb_true_r; done).
  destruct Hl as [Hg Hh Hpx Hm].
  unfold crdtCancelReplicationHandshake. rewrite getPeerMaster_valid by lia. rewrite E. cbn [mbind res_bind]. rewrite Et, Z.eqb_refl.
  unfold crdtReplicationAbortSyncTransfer. rewrite Et, Z.eqb_refl, to_int_id by lia. cbn [c_assert mbind res_bind].
  eexists. split; [reflexivity|].
  assert (forall q, master q = None \/ master q = master p -> proxy_type q = proxy_type p -> proxy q = proxy p -> masterhost q = masterhost p ->
    link_ok g (set_repl_state REPL_STATE_CONNECT q)) as Hq.
  { intros q _ E1 E2 E3. split; [done|by cbn; rewrite E3|by cbn; rewrite E1, E2|done]. }
  split; [|split; [by right|split; [done|split; [done|by rewrite Hd]]]].
  unfold crdtUndoConnectWithMaster. repeat case_match; apply Hq; auto.
Qed.

Lemma link_timeout_spec g p w :
  crdtMasters (w_crdt w) !! g = Some p -> link_ok g p ->
  exists p', link_timeout e g w = Ok (set_peer g p' w) /\ link_ok g p' /\
    (p' = p \/ repl_state p' = REPL_STATE_CONNECT /\ dead e p = true) /\
    (repl_state p' = REPL_STATE_CONNECTED -> dead e p' = false) /\
    (repl_state p = REPL_STATE_CONNECTED -> position p' = position p) /\ (dead e p = false -> p' = p).
Proof.
  intros E Hl. unfold link_timeout. rewrite E. cbn [need mbind res_bind]. rewrite (has_host_ok g) by done. cbn [andb].
  destruct (Z.eqb_spec (repl_state p) REPL_STATE_CONNECTED) as [Ec|Ec].
  2:{ exists p. rewrite set_peer_id by done. split; [done|]. split; [done|]. split; [by left|]. done. }
  destruct Hl as [Hg Hh Hpx Hm]. destruct (Hm Ec) as (m & Em & Hcm & Hcl & Hgm). rewrite Em. cbn [need mbind res_bind].
  destruct (silent e (cl_lastinteraction m)) eqn:Es.
  2:{ exists p. rewrite set_peer_id by done. split; [done|]. split; [done|]. split; [by left|]. unfold dead. rewrite Ec, Em. done. }
  assert (dead e p = true) as Hd by (unfold dead; by rewrite Ec, Em, Es).
  unfold freeClient. rewrite Hcm, Hcl. cbn [negb]. unfold crdtReplicationCacheMaster. rewrite Hcm, Hgm. cbn [negb].
  rewrite getPeerMaster_valid by lia. rewrite E. cbn [need mbind res_bind]. rewrite to_int_id by lia.
  unfold crdtReplicationHandleMasterDisconnection. rewrite Hgm, getPeerMaster_valid by lia. rewrite set_peer_lookup. cbn [mbind res_bind].
  rewrite to_int_id, set_peer_set_peer by lia. eexists. split; [reflexivity|].
  split; [by split|]. split; [by right|]. split; [done|]. split; [|by rewrite Hd].
  intros _. unfold position. cbn. by rewrite Em.
Qed.

End links.


Lemma xpipeProxyConnect_runs r connect px : servers px <> [] -> 0 <= r ->
  exists fd px', xpipeProxyConnect r connect px = Ok (fd, px') /\ servers px' = servers px.
Proof.
  intros Hs Hr. unfold xpipeProxyConnect, ramdonIndex.
  assert (0 < length (servers px))%nat as Hl by (destruct (servers px); [done|simpl; lia]).
  destruct (Z.eqb_spec (Z.of_nat (length (servers px)) - 0) 0); [lia|]. cbn [mbind res_bind servers].
  pose proof (Z.rem_bound_pos r (Z.of_nat (length (servers px)) - 0) Hr ltac:(lia)).
  destruct (lookup_lt_is_Some_2 (servers px) (Z.to_nat (Z.rem r (Z.of_nat (length (servers px)) - 0) + 0))) as [pt ->]; [lia|].
  by eexists _, _.
Qed.

Section connecting.

Context (e : cron_env) (Hrand : 0 <= ce_rand e).

Lemma connect_runs g p w :
  crdtMasters (w_crdt w) !! g = Some p -> link_ok g p -> repl_state p = REPL_STATE_CONNECT ->
  exists ok p', crdtConnectWithMaster (ce_connect e) (ce_rand e) (ce_event_ok e) g w = Ok (ok, set_peer g p' w) /\ link_ok g p' /\
    position p' = position p /\
    (repl_state p' = REPL_STATE_CONNECT \/ repl_state p' = REPL_STATE_CONNECTING /\ repl_transfer_lastio p' = w_unixtime w).
Proof.
  intros E Hl Est. unfold crdtConnectWithMaster. rewrite E. cbn [need mbind res_bind].
  assert (exists fd q, (if proxy_type p =? NONE_PROXY then h ← need (masterhost p); Ok (ce_connect e h (masterport p), p)
      else '(fd, pr) ← proxyConnect (ce_rand e) (ce_connect e) (proxy_type p) (proxy p); Ok (fd, set_proxy pr p)) = Ok (fd, q) /\
      link_ok g q /\ position q = position p /\ repl_state q = REPL_STATE_CONNECT) as (fd & q & -> & Hq & Hpos & Hst).
  { destruct Hl as [Hg Hh Hpx Hm]. destruct (Z.eqb_spec (proxy_type p) NONE_PROXY) as [En|En].
    - destruct (masterhost p) as [h|] eqn:Eh; [|done]. cbn [need mbind res_bind]. eexists _, p. split; [reflexivity|].
      split; [split; [done|by rewrite Eh|done|done]|done].
    - destruct Hpx as [?|(px & Epx & Hs)]; [done|]. unfold proxyConnect. rewrite Epx.
      destruct (proxy_type p =? XPIPE_PROXY).
      + cbn [need mbind res_bind]. destruct (xpipeProxyConnect_runs (ce_rand e) (ce_connect e) px Hs Hrand) as (fd & px' & -> & Es).
        cbn [mbind res_bind]. eexists _, _. split; [reflexivity|]. split; [|done]. split; [done|done| |by cbn; rewrite Est].
        right. exists px'. by rewrite Es.
      + cbn [mbind res_bind]. eexists _, _. split; [reflexivity|]. split; [|done]. split; [done|done| |by cbn; rewrite Est].
        right. by exists px. }
  cbn [mbind res_bind]. destruct (fd =? -1); [eexists _, q; by split; [reflexivity|auto]|].
  destruct (negb (ce_event_ok e)); [eexists _, q; by split; [reflexivity|auto]|].
  eexists _, _. split; [reflexivity|]. split; [by apply set_link_state; [destruct Hq; split|]|]. split; [done|]. by right.
Qed.

Lemma connect_not_dead p : repl_state p = REPL_STATE_CONNECT -> dead e p = false.
Proof. intros E. unfold dead, crdtSlaveIsInHandshakeState. by rewrite E. Qed.

(** The three timeouts, one after the other. *)

Lemma timeouts_spec g p w :
  crdtMasters (w_crdt w) !! g = Some p -> link_ok g p ->
  exists p', (w ← handshake_timeout e g w; w ← transfer_timeout e g w; link_timeout e g w) = Ok (set_peer g p' w) /\
    link_ok g p' /\ dead e p' = false /\ (dead e p = false -> p' = p) /\
    (dead e p = true -> repl_state p' = REPL_STATE_CONNECT) /\
    (repl_state p = REPL_STATE_CONNECTED -> position p' = position p).
Proof.
  intros E Hl.
  destruct (handshake_timeout_spec e g p w E Hl) as (p1 & -> & L1 & C1 & A1 & K1 & D1). cbn [mbind res_bind].
  destruct (transfer_timeout_spec e g p1 (set_peer g p1 w) (set_peer_lookup _ _ _) L1) as (p2 & -> & L2 & C2 & A2 & K2 & D2).
  cbn [mbind res_bind]. rewrite set_peer_set_peer.
  destruct (link_timeout_spec e g p2 (set_peer g p2 w) (set_peer_lookup _ _ _) L2) as (p3 & -> & L3 & C3 & A3 & K3 & D3).
  rewrite set_peer_set_peer. exists p3. split; [done|]. split; [done|].
  destruct C1 as [-> |[S1 Hd]].
  2:{ specialize (D2 (connect_not_dead _ S1)). subst p2. specialize (D3 (connect_not_dead _ S1)). subst p3.
      split; [by apply connect_not_dead|]. split; [by rewrite Hd|]. split; [done|]. intros Hc. by rewrite K1. }
  destruct C2 as [-> |[S2 Hd]].
  2:{ specialize (D3 (connect_not_dead _ S2)). subst p3.
      split; [by apply connect_not_dead|]. split; [by rewrite Hd|]. split; [done|]. intros Hc. by rewrite K2. }
  destruct C3 as [-> |[S3 Hd]].
  2:{ split; [by apply connect_not_dead|]. split; [by rewrite Hd|]. split; [done|]. done. }
  assert (dead e p = false) as Hd.
  { unfold dead in *. destruct (Z.eqb_spec (repl_state p) REPL_STATE_CONNECTED); [auto|].
    destruct ((repl_state p =? REPL_STATE_CONNECTING) || crdtSlaveIsInHandshakeState p); [by rewrite A1|].
    destruct (Z.eqb_spec (repl_state p) REPL_STATE_TRANSFER); [by rewrite A2|done]. }
  split; [done|]. split; [done|]. split; [by rewrite Hd|done].
Qed.

Lemma connect_due_spec g p w :
  crdtMasters (w_crdt w) !! g = Some p -> link_ok g p -> silent e (w_unixtime w) = false ->
  exists p', connect_due e g w = Ok (set_peer g p' w) /\ link_ok g p' /\ (dead e p = false -> dead e p' = false) /\
    position p' = position p /\
    (p' = p \/ repl_state p = REPL_STATE_CONNECT /\ (repl_state p' = REPL_STATE_CONNECT \/
                repl_state p' = REPL_STATE_CONNECTING /\ repl_transfer_lastio p' = w_unixtime w)).
Proof.
  intros E Hl Hnow. unfold connect_due. rewrite E. cbn [need mbind res_bind].
  destruct (Z.eqb_spec (repl_state p) REPL_STATE_CONNECT) as [Ec|Ec]; cbn [andb].
  2:{ exists p. rewrite set_peer_id by done. do 4 (split; [done|]). by left. }
  destruct ((lazy_time p =? NO_LAZY_TIME) || (lazy_time p <? ce_mstime e)).
  2:{ exists p. rewrite set_peer_id by done. do 4 (split; [done|]). by left. }
  destruct (connect_runs g p w E Hl Ec) as (ok & p' & -> & L & P & C). cbn [mbind res_bind].
  exists p'. split; [done|]. split; [done|]. split; [|auto].
  intros _. destruct C as [C|[C1 C2]]; [by apply connect_not_dead|]. unfold dead. by rewrite C1, C2, Hnow.
Qed.

(** The whole work on a peer. *)

Record cron_kept (w : world) (g : Z) (p p' : peer) : Prop := {
  ck_ok : link_ok g p';
  ck_alive : dead e p' = false;
  ck_position : repl_state p = REPL_STATE_CONNECTED -> position p' = position p;
  ck_quiet : repl_state p = REPL_STATE_CONNECTED -> dead e p = false -> p' = p;
  ck_dropped : dead e p = true -> repl_state p' = REPL_STATE_CONNECT \/
               repl_state p' = REPL_STATE_CONNECTING /\ repl_transfer_lastio p' = w_unixtime w;
  ck_none : repl_state p = REPL_STATE_NONE -> repl_state p' = REPL_STATE_CONNECT
}.

Lemma cron_peer_spec g p w :
  crdtMasters (w_crdt w) !! g = Some p -> link_ok g p -> silent e (w_unixtime w) = false ->
  exists p' ack, cron_peer e g w = Ok (set_peer g p' w, ack) /\ cron_kept w g p p' /\
    (repl_state p = REPL_STATE_CONNECTED -> dead e p = false -> ack = crdtReplicationSendAck p (w_crdt w)).
Proof.
  intros E Hl Hnow. unfold cron_peer.
  destruct (timeouts_spec g p w E Hl) as (p3 & ET & L3 & A3 & D3 & C3 & K3).
  assert (forall k : world -> res (world * bytes), (w ← handshake_timeout e g w; w ← transfer_timeout e g w; w ← link_timeout e g w; k w) =
    k (set_peer g p3 w)) as ->.
  { intros k. destruct (handshake_timeout e g w) as [w1| |]; [|done|done]. cbn [mbind res_bind] in ET |- *.
    destruct (transfer_timeout e g w1) as [w2| |]; [|done|done]. cbn [mbind res_bind] in ET |- *. by rewrite ET. }
  destruct (connect_due_spec g p3 (set_peer g p3 w) (set_peer_lookup _ _ _) L3 Hnow) as (p4 & -> & L4 & A4 & P4 & C4).
  cbn [mbind res_bind]. rewrite set_peer_set_peer. unfold prepare_connect. rewrite set_peer_lookup. cbn [need mbind res_bind].
  assert (forall q, (if repl_state q =? REPL_STATE_NONE then set_peer g (set_repl_state REPL_STATE_CONNECT q) (set_peer g q w)
    else set_peer g q w) = set_peer g (if repl_state q =? REPL_STATE_NONE then set_repl_state REPL_STATE_CONNECT q else q) w) as ->.
  { intros q. destruct (repl_state q =? REPL_STATE_NONE); [apply set_peer_set_peer|done]. }
  set (p5 := if repl_state p4 =? REPL_STATE_NONE then set_repl_state REPL_STATE_CONNECT p4 else p4).
  unfold cron_ack. rewrite set_peer_lookup. cbn [need mbind res_bind]. exists p5. eexists. split; [reflexivity|].
  assert (dead e p = false -> repl_state p = REPL_STATE_CONNECTED -> p5 = p) as Hq.
  { intros Hd Hc. specialize (D3 Hd). subst p3. destruct C4 as [-> |[Hc4 _]]; [|rewrite Hc in Hc4; done].
    unfold p5. by rewrite Hc. }
  split; [split|].
  - unfold p5. case_match; [by apply set_link_state|done].
  - unfold p5. case_match; [by apply connect_not_dead|by apply A4].
  - intros Hc. destruct (dead e p) eqn:Hd; [|by rewrite Hq]. rewrite <- (K3 Hc), <- P4. unfold p5. by case_match.
  - auto.
  - intros Hd. specialize (C3 Hd). unfold p5. destruct C4 as [E4|[_ [E4|[E4 Hlast]]]].
    + subst p4. rewrite C3. by left.
    + rewrite E4. by left.
    + rewrite E4. by right.
  - intros Hn. assert (dead e p = false) as Hd by (unfold dead, crdtSlaveIsInHandshakeState; by rewrite Hn). specialize (D3 Hd). subst p3.
    destruct C4 as [-> |[Hc4 _]]; [|rewrite Hn in Hc4; done]. unfold p5. by rewrite Hn.
  - intros Hc Hd. rewrite (Hq Hd Hc), Hc, Z.eqb_refl, (has_host_ok g) by done.
    destruct (lk_master _ _ Hl Hc) as (m & Em & _). rewrite bool_decide_true by (by rewrite Em). cbn [andb].
    unfold crdtReplicationSendAck. by rewrite Em.
Qed.

(** All the peers. *)

Definition set_masters (m : gmap Z peer) (w : world) : world := set_w_crdt (set_crdtMasters m (w_crdt w)) w.

Lemma cron_peers_spec gids : forall w,
  NoDup gids -> map_Forall link_ok (crdtMasters (w_crdt w)) -> silent e (w_unixtime w) = false ->
  exists m acks, cron_peers e gids w = Ok (set_masters m w, acks) /\
    (forall g, g ∉ gids -> m !! g = crdtMasters (w_crdt w) !! g) /\
    (forall g, g ∈ gids -> match crdtMasters (w_crdt w) !! g with
       | None => m !! g = None
       | Some p => exists p', m !! g = Some p' /\ cron_kept w g p p' /\
           (repl_state p = REPL_STATE_CONNECTED -> dead e p = false -> (g, crdtReplicationSendAck p (w_crdt w)) ∈ acks)
       end).
Proof.
  induction gids as [|g gids IH]; intros w Hnd Hok Hnow.
  - exists (crdtMasters (w_crdt w)), []. split; [by destruct w as [? ? []]|]. split; [done|]. by intros g Hg%not_elem_of_nil.
  - apply NoDup_cons in Hnd as [Hni Hnd]. cbn [cron_peers]. destruct (crdtMasters (w_crdt w) !! g) as [p|] eqn:E.
    + destruct (cron_peer_spec g p w E (Hok g p E) Hnow) as (p' & ack & -> & Hk & Hack). cbn [mbind res_bind].
      destruct (IH (set_peer g p' w) Hnd) as (m & acks & -> & Hout & Hin); [|done|].
      { apply map_Forall_insert_2; [apply Hk|done]. }
      cbn [mbind res_bind]. exists m, ((g, ack) :: acks). split; [done|]. split.
      * intros g' [Hne Hg']%not_elem_of_cons. rewrite Hout by done. cbn. by rewrite lookup_insert_ne.
      * intros g' [-> |Hg']%elem_of_cons.
        { rewrite E. exists p'. rewrite Hout by done. cbn. rewrite lookup_insert_eq. split; [done|]. split; [done|].
          intros Hc Hd. rewrite (Hack Hc Hd). by left. }
        assert (g <> g') as Hne by (intros ->; done).
        specialize (Hin g' Hg'). cbn in Hin. rewrite lookup_insert_ne in Hin by done.
        destruct (crdtMasters (w_crdt w) !! g') as [q|]; [|done]. destruct Hin as (q' & H1 & [] & H3). exists q'.
        split; [done|]. split; [by split|]. intros Hc Hd. right. by apply H3.
    + destruct (IH w Hnd Hok Hnow) as (m & acks & -> & Hout & Hin). exists m, acks. split; [done|]. split.
      * intros g' [Hne Hg']%not_elem_of_cons. by apply Hout.
      * intros g' [-> |Hg']%elem_of_cons; [|by apply Hin]. rewrite E. by rewrite Hout.
Qed.

End connecting.

(** ** The peers that read, and the save *)

(** Slaves of [crdtServer]: each is there once. *)

Definition slaves_ok (l : list slave) : Prop := NoDup (map sl_id l) /\ Forall (fun c => sl_flag_crdt_slave c = true) l.

Section reading.

Context (e : cron_env).

Lemma filter_others (c : slave) l1 l2 : NoDup (map sl_id (l1 ++ c :: l2)) ->
  List.filter (fun d => negb (sl_id d =? sl_id c)) (l1 ++ c :: l2) = l1 ++ l2.
Proof.
  intros Hnd. rewrite map_app in Hnd. apply NoDup_app in Hnd as (_ & Hd & H2). cbn [map] in Hd, H2. apply NoDup_cons in H2 as [H2 _].
  assert (forall l, sl_id c ∉ map sl_id l -> List.filter (fun d => negb (sl_id d =? sl_id c)) l = l) as Hf.
  { induction l as [|d l IH]; intros Hni; [done|]. cbn [map] in Hni. apply not_elem_of_cons in Hni as [Hne Hni].
    cbn [List.filter]. destruct (Z.eqb_spec (sl_id d) (sl_id c)); [by subst|]. cbn [negb]. by rewrite IH. }
  rewrite List.filter_app. cbn [List.filter]. rewrite Z.eqb_refl. cbn [negb]. rewrite Hf, Hf; [done|done|].
  intros Hin. apply (Hd _ Hin). by left.
Qed.

Lemma cron_slaves_spec l : forall pre w,
  slaves (w_peers w) = pre ++ l -> slaves_ok (pre ++ l) ->
  exists since, cron_slaves e l w = Ok (set_w_peers (set_repl_no_slaves_since since
    (set_slaves (pre ++ List.filter (fun c => negb (timed_out e w c)) l) (w_peers w))) w).
Proof.
  induction l as [|c l IH]; intros pre w Es [Hnd Hfl].
  - exists (repl_no_slaves_since (w_peers w)). cbn [cron_slaves List.filter]. rewrite <- Es. by destruct w as [? [] ].
  - cbn [cron_slaves List.filter]. destruct (timed_out e w c) eqn:Et; cbn [negb].
    + assert (sl_flag_crdt_slave c = true) as Hc.
      { rewrite Forall_forall in Hfl. apply Hfl, elem_of_app. right. by left. }
      unfold free_slave. rewrite Hc. cbn [negb]. rewrite Es.
      assert (existsb (fun d => sl_id d =? sl_id c) (pre ++ c :: l) = true) as ->.
      { rewrite existsb_app. cbn [existsb]. by rewrite Z.eqb_refl, orb_true_r. }
      cbn [c_assert mbind res_bind]. rewrite filter_others by done.
      set (s1 := set_slaves (pre ++ l) (w_peers w)).
      set (s2 := if bool_decide (slaves s1 = []) then set_repl_no_slaves_since (w_unixtime w) s1 else s1).
      destruct (IH pre (set_w_peers s2 w)) as [since E].
      { unfold s2. by case_match. }
      { split.
        - rewrite map_app in Hnd |- *. apply NoDup_app in Hnd as (H1 & H2 & H3). cbn [map] in H2, H3. apply NoDup_cons in H3 as [_ H3].
          apply NoDup_app. split; [done|]. split; [|done]. intros x Hx Hin. apply (H2 x Hx). by right.
        - apply Forall_app in Hfl as [H1 H2]. apply Forall_cons in H2 as [_ H2]. by apply Forall_app. }
      exists since. rewrite E. unfold s2, s1. destruct w as [? [] ]. cbn. by case_match.
    + destruct (IH (pre ++ [c]) w) as [since E]; [by rewrite <- app_assoc|by rewrite <- app_assoc|].
      exists since. cbn [mbind res_bind]. rewrite E. by rewrite <- app_assoc.
Qed.

(** A ping changes only what is queued for the slaves, and the backlogs. *)

Definition same_slave (c c' : slave) : Prop := exists out, c' = set_sl_output out c.

Lemma same_slave_refl c : same_slave c c.
Proof. exists (sl_output c). by destruct c. Qed.

Lemma cron_ping_spec w : world_ok w -> vc_ok (vectorClock (w_crdt w)) -> ce_ping_period e <> 0 ->
  exists w', cron_ping e w = Ok w' /\ same_rest w w' /\ world_ok w' /\
    Forall2 same_slave (slaves (w_peers w)) (slaves (w_peers w')) /\
    forall i, repl_backlog (get_srv i w) <> None -> repl_backlog (get_srv i w') <> None.
Proof.
  intros Hw Hv Hp. unfold cron_ping. destruct (Z.eqb_spec (ce_ping_period e) 0); [done|].
  assert (Forall2 same_slave (slaves (w_peers w)) (slaves (w_peers w))) as Hrefl.
  { apply Forall2_same_length_lookup_2; [done|]. intros i x y Hx Hy. rewrite Hx in Hy. simplify_eq. apply same_slave_refl. }
  assert (same_rest w w) as Hrest by by destruct w.
  destruct (_ && existsb _ _); [|by exists w].
  unfold sendObservedVectorClock. destruct (proxies_master w) eqn:Em.
  { exists w. split; [|done]. unfold replicationFeedAllSlaves. by rewrite Em. }
  destruct (feed_all (slaveseldb (w_server w)) [RSds (str "CRDT.OVC"); RSds (print_Z (crdt_gid (w_crdt w)));
     RSds (vectorClockToSds (vectorClock (w_crdt w)))] w Hw Em) as (w' & -> & [Hr Hfed] & _).
  { constructor; [decide_now|]. constructor; [apply print_Z_ok|]. constructor; [by apply clock_text_bytes|constructor]. }
  exists w'. split; [done|]. split; [done|]. split; [by eapply world_fed_ok|].
  split.
  2:{ intros i Hn. destruct (Hw i) as [?|[stream R]]; [done|]. destruct (Hfed i) as [[Hst _ _] _]. destruct (Hst _ R) as [R' _].
      by eapply backlog_rep_some. }
  destruct (Hfed CRDT) as [_ Es]. cbn [get_srv] in Es. rewrite Es. unfold each_slave. cbn [slaves set_slaves].
  clear. induction (slaves (w_peers w)) as [|c l IH]; [constructor|]. cbn [map]. constructor; [|done].
  destruct (_ =? _); [apply same_slave_refl|]. unfold queue. destruct (sl_close_after_reply c); [apply same_slave_refl|by eexists].
Qed.

(** The clock a save is filtered with is below that of everyone who waits. *)

Definition waits (c : slave) : Prop := sl_replstate c = SLAVE_STATE_WAIT_BGSAVE_START.

Definition filters_ok (l : list slave) : Prop :=
  Forall (fun c => waits c -> vc_ok (sl_filterVectorClock c) /\ sl_filterVectorClock c <> []) l.

Lemma min_not_null a b r : vc_ok a -> vc_ok b -> a <> [] -> mergeMinVectorClock a b = Ok r -> r <> [].
Proof.
  intros Ha Hb Hne E ->. destruct (mergeMinVectorClock_spec a b Ha Hb) as (r & E' & _ & _ & M). rewrite E in E'. simplify_eq.
  destruct a as [|u a]; [done|]. apply (f_equal (lookup (gid u))) in M. unfold map_min in M. rewrite lookup_merge, vc_map_cons, lookup_insert_eq in M.
  cbn in M. by destruct (vc_map b !! gid u).
Qed.

Lemma waiting_clock_spec unixtime l : forall max_idle n min_vc,
  filters_ok l -> vc_ok min_vc ->
  exists mi n' r, waiting_clock unixtime l max_idle n min_vc = Ok (mi, n', r) /\ vc_ok r /\
    (min_vc <> [] -> r <> [] /\ vc_le r min_vc) /\ Forall (fun c => waits c -> vc_le r (sl_filterVectorClock c)) l.
Proof.
  induction l as [|c l IH]; intros max_idle n min_vc Hf Hm.
  - eexists _, _, min_vc. split; [reflexivity|]. split; [done|]. split; [|constructor]. intros ?. split; [done|]. intros g. lia.
  - apply Forall_cons in Hf as [Hc Hf]. cbn [waiting_clock].
    destruct (Z.eqb_spec (sl_replstate c) SLAVE_STATE_WAIT_BGSAVE_START) as [Ew|Ew].
    2:{ destruct (IH max_idle n min_vc Hf Hm) as (mi & n' & r & E & Hr & Hle & HF). exists mi, n', r. split; [exact E|].
        split; [done|]. split; [done|]. by constructor. }
    destruct (Hc Ew) as [Hok Hne]. set (mi0 := if _ >? _ then _ else _).
    assert (exists m1, (if isNullVectorClock min_vc then dupVectorClock (sl_filterVectorClock c)
                        else mergeMinVectorClock min_vc (sl_filterVectorClock c)) = Ok m1 /\ vc_ok m1 /\ m1 <> [] /\
      vc_le m1 (sl_filterVectorClock c) /\ (min_vc <> [] -> vc_le m1 min_vc)) as (m1 & -> & Hm1 & Hn1 & Hl1 & Hl2).
    { rewrite isNull_spec. case_bool_decide as En.
      - rewrite dupVectorClock_spec by done. eexists. split; [reflexivity|]. split; [done|]. split; [done|]. split; [intros g; lia|done].
      - destruct (min_vcu min_vc (sl_filterVectorClock c) Hm Hok) as (r & E & Hr & _ & M). exists r. split; [done|]. split; [done|].
        split; [exact (min_not_null min_vc _ r Hm Hok En E)|]. split; [|intros _]; intros g; rewrite M; lia. }
    cbn [mbind res_bind]. destruct (IH mi0 (S n) m1 Hf Hm1) as (mi & n' & r & E & Hr & Hle & HF).
    destruct (Hle Hn1) as [Hrn Hr1]. exists mi, n', r. split; [exact E|]. split; [done|].
    split; [intros Hmn; split; [done|]; eapply vc_le_trans; [exact Hr1|auto]|]. constructor; [|done]. intros _. by eapply vc_le_trans.
Qed.

(** A first waiting peer with a null filter clock is forgotten: the result
    depends on the order of the peers. *)
Lemma waiting_clock_null_first unixtime c d :
  waits c -> waits d -> sl_filterVectorClock c = [] -> sl_filterVectorClock d = [Clk 1 9] ->
  snd <$> waiting_clock unixtime [c; d] 0 0 [] = Ok [Clk 1 9] /\
  snd <$> waiting_clock unixtime [d; c] 0 0 [] = Ok [Clk 1 0].
Proof.
  intros Hc Hd Ec Ed. cbn [waiting_clock]. by rewrite Hc, Hd, Ec, Ed.
Qed.

(** Starting a save changes only slaves that wait for it. *)

Definition saves_for (s s' : replServer) : Prop :=
  Forall (fun c' => c' ∈ slaves s \/ sl_replstate c' <> SLAVE_STATE_ONLINE) (slaves s') /\
  repl_backlog s' = repl_backlog s /\ replid s' = replid s /\ (slaves s = [] -> slaves s' = []).

Lemma saves_for_refl s : saves_for s s.
Proof. split; [|done]. apply Forall_forall. by left. Qed.

Lemma setup_waiting_saves write_ok s : saves_for s (setup_waiting write_ok s).
Proof.
  destruct (setup_waiting_spec write_ok s) as (Es & _ & _).
  assert (repl_backlog (setup_waiting write_ok s) = repl_backlog s /\ replid (setup_waiting write_ok s) = replid s) as [H1 H2].
  { unfold setup_waiting. pose proof (setup_step_ids write_ok (slaves s) [] s) as H. destruct (foldl _ _ _) as [l s'].
    destruct H as [_ ->]. cbn. by case_match. }
  split; [|split; [done|split; [done|rewrite Es; by intros ->]]]. rewrite Es.
  apply Forall_fmap, Forall_forall. intros c Hc. cbn. destruct (Z.eqb_spec (sl_replstate c) SLAVE_STATE_WAIT_BGSAVE_START); [|by left].
  right. unfold replicationSetupSlaveForFullResync. by repeat case_match.
Qed.

Lemma start_save_slaves write_ok outcome s ok s' dropped :
  startCrdtBgsaveForReplication write_ok outcome s = (ok, s', dropped) -> saves_for s s'.
Proof.
  intros E. unfold startCrdtBgsaveForReplication in E.
  assert (exists ok1 s1, match repl_backlog s with Some _ => rdbSaveToSlavesSockets write_ok outcome s | None => (false, s) end = (ok1, s1) /\
    saves_for s s1) as (ok1 & s1 & E1 & HP & HB & HI & HE).
  { destruct (repl_backlog s); [|eexists _, _; split; [reflexivity|apply saves_for_refl]].
    destruct outcome; cbn [rdbSaveToSlavesSockets]; (eexists _, _; split; [reflexivity|]);
      [apply saves_for_refl|apply saves_for_refl| |apply setup_waiting_saves].
    destruct (setup_waiting_saves write_ok s) as (HP & HB & HI & HE).
    split; [|split; [done|split; [done|intros Hn; cbn; by rewrite HE]]]. cbn [slaves set_slaves].
    apply Forall_fmap. eapply Forall_impl; [exact HP|]. intros c Hc. cbn. case_bool_decide; [by right|done]. }
  rewrite E1 in E. destruct ok1; cbn [negb] in E; [by simplify_eq|].
  unfold drop_waiting in E. simplify_eq. split; [|split; [done|split; [done|intros Hn; cbn; by rewrite HE]]].
  cbn [slaves set_slaves]. rewrite Forall_forall in HP |- *. intros c Hc. apply list_elem_of_In, filter_In in Hc as [Hc _].
  by apply HP, list_elem_of_In.
Qed.

Lemma cron_save_spec w : filters_ok (slaves (w_peers w)) ->
  exists o s dropped, cron_save e w = Ok (o, set_w_peers s w, dropped) /\
    (forall vc, o = Some vc -> Forall (fun c => waits c -> vc_le vc (sl_filterVectorClock c)) (slaves (w_peers w))) /\
    Forall (fun c' => c' ∈ slaves (w_peers w) \/ sl_replstate c' <> SLAVE_STATE_ONLINE) (slaves s) /\
    repl_backlog s = repl_backlog (w_peers w) /\ replid s = replid (w_peers w) /\ (slaves (w_peers w) = [] -> slaves s = []).
Proof.
  intros Hf. unfold cron_save.
  assert (exists o s dropped, (Ok (None, w, []) : res (option VectorClock * world * list slave)) = Ok (o, set_w_peers s w, dropped) /\
    (forall vc, o = Some vc -> Forall (fun c => waits c -> vc_le vc (sl_filterVectorClock c)) (slaves (w_peers w))) /\
    Forall (fun c' => c' ∈ slaves (w_peers w) \/ sl_replstate c' <> SLAVE_STATE_ONLINE) (slaves s) /\
    repl_backlog s = repl_backlog (w_peers w) /\ replid s = replid (w_peers w) /\ (slaves (w_peers w) = [] -> slaves s = [])) as Hno.
  { exists None, (w_peers w), []. split; [by destruct w|]. split; [done|]. split; [|done]. apply Forall_forall. by left. }
  destruct (negb (ce_idle e)); [done|].
  destruct (waiting_clock_spec (w_unixtime w) (slaves (w_peers w)) 0 0 [] Hf vc_ok_nil) as (mi & n & r & -> & Hr & _ & HF).
  cbn [mbind res_bind]. destruct ((0 <? n)%nat && (mi >? ce_sync_delay e)); [|done]. clear Hno.
  destruct (startCrdtBgsaveForReplication (ce_write_ok e) (ce_outcome e) (w_peers w)) as [[ok s] dropped] eqn:Es.
  eexists _, s, dropped. split; [reflexivity|]. split; [intros vc; destruct ok; [by intros [= <-]|done]|].
  destruct (start_save_slaves _ _ _ _ _ _ Es) as (HS & HB & HI & HE). done.
Qed.

Lemma cron_backlog_spec w :
  exists s p, cron_backlog e w = Ok (set_w_peers p (set_w_server s w)) /\
    slaves s = slaves (w_server w) /\ slaves p = slaves (w_peers w) /\
    ((s = w_server w /\ p = w_peers w) \/
     (slaves s = [] /\ slaves p = [] /\ repl_backlog s = None /\ repl_backlog p = None /\
      replid s = ce_newid e /\ replid p = ce_newid e)).
Proof.
  unfold cron_backlog. destruct (_ && long_idle w (w_server w)) eqn:E.
  - unfold backlog_idle in E. rewrite !andb_true_iff, !bool_decide_eq_true in E.
    assert (slaves (w_peers w) = [] /\ slaves (w_server w) = []) as [Ep Es] by tauto.
    unfold freeReplicationBacklog. cbn. rewrite Es, Ep. cbn. eexists _, _. split; [by destruct w|]. split; [done|]. split; [done|]. by right.
  - exists (w_server w), (w_peers w). split; [by destruct w|]. split; [done|]. split; [done|]. by left.
Qed.

End reading.

Lemma filters_same l l' : Forall2 same_slave l l' -> filters_ok l -> filters_ok l'.
Proof.
  intros HF Hf. induction HF as [|c c' l l' [out ->] HF IH]; [constructor|]. apply Forall_cons in Hf as [Hc Hf].
  constructor; [exact Hc|by apply IH].
Qed.

Lemma slaves_same l l' : Forall2 same_slave l l' -> slaves_ok l -> slaves_ok l'.
Proof.
  intros HF [Hn Hf]. split.
  - enough (map sl_id l' = map sl_id l) as -> by done. clear -HF. induction HF as [|c c' l l' [out ->] HF IH]; [done|]. cbn. by rewrite IH.
  - clear Hn. induction HF as [|c c' l l' [out ->] HF IH]; [constructor|]. apply Forall_cons in Hf as [Hc Hf]. constructor; [done|auto].
Qed.

(** ** The claims *)

(** C22: the cron keeps the replication going.  It completes, and afterwards, on a
    master:
    - no peer is left with a link that has been silent for longer than the
      timeout: such a link is dropped, and connected again at once where that is
      possible;
    - a link that is dropped keeps its position in the stream, so that the peer
      can be asked to go on from there; a link that is alive is left as it is and
      acknowledged, with the clock and the offset;
    - no peer that reads from this server is left that has not acknowledged within
      the timeout;
    - if a save was started, the clock it is filtered with is at most that of
      every peer that waits for it, so that no one misses data (as long as none
      of these clocks is null, see [waiting_clock_null_first]);
    - a backlog is freed only if no one reads from it, and then there is a new
      replication id, so that no old position is accepted. *)
Theorem crdtReplicationCron_maintains (e : cron_env) (w : world)
    (Hw : world_ok w) (Hv : vc_ok (vectorClock (w_crdt w))) (Hl : map_Forall link_ok (crdtMasters (w_crdt w)))
    (Hs : slaves_ok (slaves (w_peers w))) (Hf : filters_ok (slaves (w_peers w)))
    (Hping : ce_ping_period e <> 0) (Hrand : 0 <= ce_rand e) (Hnow : silent e (w_unixtime w) = false) :
  exists r, crdtReplicationCron e w = Ok r /\
    (iAmMaster w = true -> forall g p, crdtMasters (w_crdt w) !! g = Some p ->
       exists p', crdtMasters (w_crdt (cr_world r)) !! g = Some p' /\ link_ok g p' /\ dead e p' = false /\
         (repl_state p = REPL_STATE_CONNECTED -> position p' = position p) /\
         (dead e p = true -> repl_state p' = REPL_STATE_CONNECT \/
            repl_state p' = REPL_STATE_CONNECTING /\ repl_transfer_lastio p' = w_unixtime w) /\
         (repl_state p = REPL_STATE_NONE -> repl_state p' = REPL_STATE_CONNECT) /\
         (repl_state p = REPL_STATE_CONNECTED -> dead e p = false ->
            p' = p /\ (g, crdtReplicationSendAck p (w_crdt w)) ∈ cr_acks r)) /\
    Forall (fun c => timed_out e w c = false) (slaves (w_peers (cr_world r))) /\
    (forall vc, cr_saved r = Some vc ->
       Forall (fun c => waits c -> vc_le vc (sl_filterVectorClock c)) (slaves (w_peers w))) /\
    (forall i, repl_backlog (get_srv i w) <> None -> repl_backlog (get_srv i (cr_world r)) = None ->
       slaves (get_srv i (cr_world r)) = [] /\ replid (get_srv i (cr_world r)) = ce_newid e).
Proof.
  unfold crdtReplicationCron.
  assert (exists m acks, (if iAmMaster w then cron_peers e (seqZ 0 (MAX_PEERS + 1)) w else Ok (w, [])) = Ok (set_masters m w, acks) /\
    (iAmMaster w = true -> forall g p, crdtMasters (w_crdt w) !! g = Some p -> exists p', m !! g = Some p' /\ cron_kept e w g p p' /\
       (repl_state p = REPL_STATE_CONNECTED -> dead e p = false -> (g, crdtReplicationSendAck p (w_crdt w)) ∈ acks)))
    as (m & acks & -> & Hm).
  { destruct (iAmMaster w).
    - destruct (cron_peers_spec e Hrand (seqZ 0 (MAX_PEERS + 1)) w (NoDup_seqZ _ _) Hl Hnow) as (m & acks & -> & _ & Hin).
      exists m, acks. split; [done|]. intros _ g p E.
      pose proof (lk_gid _ _ (Hl g p E)). specialize (Hin g). rewrite E in Hin. apply Hin, elem_of_seqZ. change (MAX_PEERS + 1) with 16. lia.
    - exists (crdtMasters (w_crdt w)), []. split; [by destruct w as [? ? []]|done]. }
  cbn [mbind res_bind]. set (w1 := set_masters m w).
  destruct (cron_ping_spec e w1 Hw Hv Hping) as (w2 & -> & Hr2 & Hw2 & HF & Hb2). cbn [mbind res_bind].
  destruct (cron_slaves_spec e (slaves (w_peers w2)) [] w2 eq_refl (slaves_same _ _ HF Hs)) as (since & ->). cbn [mbind res_bind app].
  set (w3 := set_w_peers _ w2).
  destruct (cron_backlog_spec e w3) as (s4 & p4 & -> & Es4 & Ep4 & H4). cbn [mbind res_bind].
  set (w4 := set_w_peers p4 (set_w_server s4 w3)).
  assert (filters_ok (slaves (w_peers w4))) as Hf4.
  { cbn [w4 w_peers set_w_peers]. rewrite Ep4. cbn. pose proof (filters_same _ _ HF Hf) as Hf2. clear -Hf2. unfold filters_ok in *.
    rewrite Forall_forall in Hf2 |- *. intros c Hc. apply Hf2. apply list_elem_of_In in Hc. apply filter_In in Hc as [Hc _]. by apply list_elem_of_In. }
  destruct (cron_save_spec e w4 Hf4) as (o & s5 & dropped & -> & Hsave & Hsl & HB & HI & HE). cbn [mbind res_bind].
  eexists. split; [reflexivity|]. cbn [cr_world cr_acks cr_saved].
  split; [|split; [|split]].
  - intros Hmaster g p E. destruct (Hm Hmaster g p E) as (p' & Ep & [] & Hack). exists p'.
    split; [|by auto 10]. rewrite <- Ep. cbn. unfold same_rest in Hr2. rewrite Hr2. done.
  - (* those that read *)
    cbn [w_peers set_w_peers]. rewrite Forall_forall in Hsl |- *. intros c Hc.
    assert (forall d, timed_out e w d = timed_out e w2 d) as Et.
    { intros d. unfold timed_out. f_equal. f_equal. f_equal. unfold same_rest in Hr2. by rewrite Hr2. }
    destruct (Hsl c Hc) as [Hin|Hst].
    + cbn [w4 w_peers set_w_peers] in Hin. rewrite Ep4 in Hin. cbn in Hin. apply list_elem_of_In, filter_In in Hin as [_ Hn].
      rewrite Et. by apply negb_true_iff.
    + unfold timed_out. by destruct (Z.eqb_spec (sl_replstate c) SLAVE_STATE_ONLINE).
  - (* the save *)
    intros vc Ho. specialize (Hsave vc Ho). cbn [w4 w_peers set_w_peers] in Hsave. rewrite Ep4 in Hsave. cbn in Hsave.
    change (slaves (w_peers w1)) with (slaves (w_peers w)) in HF. clear -HF Hsave.
    induction HF as [|c c' l l' [out ->] HF IH]; [constructor|]. cbn [List.filter] in Hsave. constructor.
    + intros Hc. assert (timed_out e w2 (set_sl_output out c) = false) as Et by (unfold timed_out; cbn; by rewrite Hc).
      rewrite Et in Hsave. cbn [negb] in Hsave. apply Forall_cons in Hsave as [H1 _]. by apply H1.
    + apply IH. destruct (negb _); [by apply Forall_cons in Hsave as [_ ?]|done].
  - (* the backlogs *)
    intros i Hsome Hnone. destruct H4 as [[-> ->]|(Z1 & Z2 & Z3 & Z4 & Z5 & Z6)].
    + exfalso. assert (repl_backlog (get_srv i w2) = None) as Hn2.
      { destruct i; cbn in Hnone |- *; [done|]. rewrite HB in Hnone. done. }
      by apply (Hb2 i).
    + destruct i; cbn in Hnone |- *; [done|]. split; [|by rewrite HI]. by apply HE.
Qed.

Definition example_reader (id state acked : Z) (filter : VectorClock) : slave :=
  MkSlave id false true false false false 0 state [] [] 0 acked false 0 [] filter 0 [] 900.

Definition example_cron : cron_env :=
  MkCron 1010 1010000 60 (fun _ _ => 9) 4 true 20 10 true true 5 (replicate 40 98) (fun _ => true) SaveStarted.

Definition example_silent : peer :=
  MkPeer 2 None (Some (str "10.0.0.2")) 6379 (Some (MkClient 2 7 true false 3 150 150 (Some example_id) 800)) None
    REPL_STATE_CONNECTED (-1) 0 0 None (-1) [] 3 [] 0 NONE_PROXY None.

Definition example_cron_world : world :=
  set_peer 2 example_silent (set_w_peers (example_repl_server
    [example_reader 1 SLAVE_STATE_ONLINE 990 []; example_reader 2 SLAVE_STATE_WAIT_BGSAVE_START 0 [Clk 1 3];
     example_reader 3 SLAVE_STATE_WAIT_BGSAVE_START 0 [Clk 1 2; Clk 2 5]; example_reader 4 SLAVE_STATE_ONLINE 900 []]) example_world).

Lemma crdtReplicationCron_maintains_witness :
  exists r p', crdtReplicationCron example_cron example_cron_world = Ok r /\
    crdtMasters (w_crdt (cr_world r)) !! 2 = Some p' /\ dead example_cron p' = false /\
    position p' = Some (Some example_id, 150) /\
    Forall (fun c => timed_out example_cron example_cron_world c = false) (slaves (w_peers (cr_world r))) /\
    (forall vc, cr_saved r = Some vc ->
       Forall (fun c => waits c -> vc_le vc (sl_filterVectorClock c)) (slaves (w_peers example_cron_world))).
Proof.
  destruct (crdtReplicationCron_maintains example_cron example_cron_world) as (r & E & H1 & H2 & H3 & H4).
  - intros []; right; eexists; apply example_repl_rep.
  - decide_now.
  - apply map_Forall_insert_2; [|apply map_Forall_empty]. split; [lia|done|by left|]. intros _. by eexists.
  - split; [decide_now|]. repeat constructor.
  - repeat constructor; cbn; try done; decide_now.
  - done.
  - done.
  - done.
  - destruct (H1 eq_refl 2 example_silent) as (p' & E1 & E2 & E3 & E4 & _); [apply set_peer_lookup|].
    exists r, p'. split; [exact E|]. split; [exact E1|]. split; [exact E3|]. split; [by rewrite E4|]. exact (conj H2 H3).
Defined.

(** ** After a restart *)

(** What the peers know of the clock of this server. *)

Abbreviation own w vc := (vcu vc (crdt_gid (w_crdt w))).

(** [known]: the clocks of the peers that answer. *)

Definition answers (ask : Z -> vc_answer) (known : Z -> option VectorClock) : Prop :=
  forall g, match known g with
            | Some vc => vc_ok vc /\ ask g = ReplyString (vectorClockToSds vc)
            | None => forall t, ask g <> ReplyString t
            end.

Definition filtered (w : world) (v : Z) (p p' : peer) : Prop :=
  exists vc, p' = set_backstream_vc vc p /\ vc_ok vc /\
             vc_map vc = <[crdt_gid (w_crdt w) := v]> (vc_map (backstream_vc p)).

Lemma each_peer_spec f (R : Z -> peer -> peer -> Prop) w gids : forall m,
  NoDup gids ->
  (forall g p m', g ∈ gids -> m !! g = Some p -> m' !! g = Some p -> exists p', f g p (set_masters m' w) = Ok (set_masters (<[g := p']> m') w) /\ R g p p') ->
  exists m', each_peer f gids (set_masters m w) = Ok (set_masters m' w) /\
    (forall g, g ∉ gids -> m' !! g = m !! g) /\ (forall g, g ∈ gids -> option_Forall2 (R g) (m !! g) (m' !! g)).
Proof.
  induction gids as [|g gids IH]; intros m Hnd Hf.
  - exists m. split; [done|]. split; [done|]. by intros g Hg%not_elem_of_nil.
  - apply NoDup_cons in Hnd as [Hni Hnd]. cbn [each_peer]. change (crdtMasters (w_crdt (set_masters m w))) with m.
    destruct (m !! g) as [p|] eqn:E.
    + destruct (Hf g p m) as (p' & -> & HR); [by left|done|done|]. cbn [mbind res_bind].
      destruct (IH (<[g := p']> m) Hnd) as (m' & -> & Hout & Hin).
      { intros g' q m' Hg'. rewrite lookup_insert_ne by (by intros ->). intros Hq. apply Hf; [by right|done]. }
      exists m'. split; [done|]. split.
      * intros g' [Hne Hg']%not_elem_of_cons. rewrite Hout by done. by rewrite lookup_insert_ne.
      * intros g' [-> |Hg']%elem_of_cons.
        { rewrite E, Hout, lookup_insert_eq by done. by constructor. }
        specialize (Hin g' Hg'). by rewrite lookup_insert_ne in Hin by (by intros ->).
    + cbn [mbind res_bind]. destruct (IH m Hnd) as (m' & -> & Hout & Hin); [intros; apply Hf; [by right|done|done]|].
      exists m'. split; [done|]. split.
      * intros g' [Hne Hg']%not_elem_of_cons. by apply Hout.
      * intros g' [-> |Hg']%elem_of_cons; [|by apply Hin]. rewrite E, Hout, E by done. constructor.
Qed.

Lemma add_backstream_spec w v g p m :
  0 < crdt_gid (w_crdt w) < 16 -> vc_ok (backstream_vc p) -> 0 <= v < 2 ^ 56 ->
  exists p', add_backstream v g p (set_masters m w) = Ok (set_masters (<[g := p']> m) w) /\ filtered w v p p'.
Proof.
  intros Hg Hp Hv. unfold add_backstream. change (crdt_gid (w_crdt (set_masters m w))) with (crdt_gid (w_crdt w)).
  destruct (addVectorClockUnit_spec (backstream_vc p) (crdt_gid (w_crdt w)) v Hp Hg) as (r & -> & Hr & _ & M).
  cbn [mbind res_bind]. eexists. split; [done|]. exists r. rewrite M. unfold uwrap. by rewrite Z.mod_small.
Qed.

Lemma getSelfVcuFromPeer_spec ask known w g :
  answers ask known ->
  getSelfVcuFromPeer (ask g) (w_crdt w) = Ok (match known g with Some vc => own w vc | None => -1 end).
Proof.
  intros H. specialize (H g). destruct (known g) as [vc|].
  - destruct H as (Hok & ->). cbn [getSelfVcuFromPeer].
    destruct (clock_text vc Hok) as (-> & _). cbn [mbind res_bind]. f_equal. by apply get_vcu_from_spec.
  - unfold getSelfVcuFromPeer. destruct (ask g) eqn:E; try done. by destruct (H s).
Qed.

Definition known_or_filtered (w : world) (known : Z -> option VectorClock) (g : Z) (p p' : peer) : Prop :=
  match known g with Some _ => p' = p | None => filtered w 0 p p' end.

(** From the largest clock [M] of [G] to that of [M'] of [G']. *)

Record asked (w : world) (known : Z -> option VectorClock) (gids : list Z) (m m' : gmap Z peer) (M G M' G' : Z) : Prop := MkAsked {
  asked_out g : g ∉ gids -> m' !! g = m !! g;
  asked_in g : g ∈ gids -> option_Forall2 (known_or_filtered w known g) (m !! g) (m' !! g);
  asked_grows : M <= M';
  asked_max g p vc : g ∈ gids -> m !! g = Some p -> known g = Some vc -> own w vc <= M';
  asked_best : M' = M /\ G' = G \/ exists p vc, G' ∈ gids /\ m !! G' = Some p /\ known G' = Some vc /\ own w vc = M'
}.

Lemma asked_cons w known g gids m m' p p1 M G M1 G1 M' G' :
  g ∉ gids -> m !! g = Some p -> known_or_filtered w known g p p1 -> M <= M1 ->
  (forall vc, known g = Some vc -> own w vc <= M1) ->
  (M1 = M /\ G1 = G \/ exists vc, G1 = g /\ known g = Some vc /\ own w vc = M1) ->
  asked w known gids (<[g := p1]> m) m' M1 G1 M' G' ->
  asked w known (g :: gids) m m' M G M' G'.
Proof.
  intros Hni E HR HM Hmax Hbest [Hout Hin HM' Hmax' Hbest'].
  assert (forall g', g' ∈ gids -> (<[g := p1]> m) !! g' = m !! g') as Hsame.
  { intros g' Hg'. apply lookup_insert_ne. by intros ->. }
  split.
  - intros g' [Hne Hg']%not_elem_of_cons. rewrite Hout by done. by rewrite lookup_insert_ne.
  - intros g' [-> |Hg']%elem_of_cons; [rewrite E, Hout, lookup_insert_eq by done; by constructor|].
    rewrite <- Hsame by done. by apply Hin.
  - lia.
  - intros g' q vc [-> |Hg']%elem_of_cons Hq Hk; [specialize (Hmax vc Hk); lia|].
    apply (Hmax' g' q vc Hg'); [by rewrite Hsame|done].
  - destruct Hbest' as [[-> ->]|(q & vc & Hin' & Hq & Hk)].
    + destruct Hbest as [|(vc & -> & ? & ?)]; [by left|]. right. exists p, vc. split; [by left|done].
    + right. exists q, vc. rewrite Hsame in Hq by done. split; [by right|done].
Qed.

Lemma ask_peers_spec ask known w gids : 0 < crdt_gid (w_crdt w) < 16 -> answers ask known -> forall m M G a,
  NoDup gids -> map_Forall (fun _ p => peer_ok p) m -> -1 <= M ->
  exists M' G' a' m', ask_peers ask gids M G a (set_masters m w) = Ok (M', G', a', set_masters m' w) /\
    asked w known gids m m' M G M' G' /\ (a' = true <-> a = true \/ exists g, g ∈ gids /\ is_Some (m !! g)).
Proof.
  intros Hg Hask. induction gids as [|g gids IH]; intros m M G a Hnd Hok HM.
  { exists M, G, a, m. split; [done|]. split; [split; try done; [by intros ? ?%not_elem_of_nil|by intros ??? ?%not_elem_of_nil|by left]|]. set_solver. }
  apply NoDup_cons in Hnd as [Hni Hnd]. cbn [ask_peers]. change (crdtMasters (w_crdt (set_masters m w))) with m.
  destruct (m !! g) as [p|] eqn:E.
  2:{ destruct (IH m M G a Hnd Hok HM) as (M' & G' & a' & m' & -> & [Hout Hin HM' Hmax Hbest] & Hany).
      exists M', G', a', m'. split; [done|]. split; [split|].
      - set_solver.
      - intros g' [-> |Hg']%elem_of_cons; [rewrite E, Hout, E by done; constructor|by apply Hin].
      - done.
      - intros g' q vc [-> |Hg']%elem_of_cons Hq; [congruence|by eapply Hmax].
      - destruct Hbest as [|(q & vc & ? & ?)]; [by left|]. right. exists q, vc. split; [by right|done].
      - rewrite Hany. apply or_iff_compat_l. split; intros (g' & Hg' & q & Hq); exists g'; (split; [|by eexists]); [by right|].
        apply elem_of_cons in Hg' as [-> |]; [congruence|done]. }
  rewrite (getSelfVcuFromPeer_spec ask known (set_masters m w) g Hask). cbn [mbind res_bind].
  assert (forall M1 G1 m1 p1, m1 = <[g := p1]> m -> peer_ok p1 -> known_or_filtered w known g p p1 -> M <= M1 ->
    (forall vc, known g = Some vc -> own w vc <= M1) ->
    (M1 = M /\ G1 = G \/ exists vc, G1 = g /\ known g = Some vc /\ own w vc = M1) ->
    exists M' G' a' m', ask_peers ask gids M1 G1 true (set_masters m1 w) = Ok (M', G', a', set_masters m' w) /\
      asked w known (g :: gids) m m' M G M' G' /\ (a' = true <-> a = true \/ exists g', g' ∈ g :: gids /\ is_Some (m !! g'))) as Hstep.
  { intros M1 G1 m1 p1 -> Hp1 HR HM1 Hmax Hbest.
    destruct (IH (<[g := p1]> m) M1 G1 true Hnd) as (M' & G' & a' & m' & -> & Ha & Hany); [by apply map_Forall_insert_2|lia|].
    exists M', G', a', m'. split; [done|]. split; [by apply (asked_cons w known g gids m m' p p1 M G M1 G1)|].
    rewrite Hany. split; [|by left]. intros _. right. exists g. split; [by left|]. by eexists. }
  change (crdt_gid (w_crdt (set_masters m w))) with (crdt_gid (w_crdt w)). pose proof (Hok g p E) as Hp.
  pose proof (Hask g) as Ha. unfold known_or_filtered in Hstep. destruct (known g) as [vc|] eqn:Ek.
  - pose proof (vcu_range vc (crdt_gid (w_crdt w)) (proj1 Ha)). rewrite (proj2 (Z.eqb_neq _ _)) by lia.
    rewrite Z.gtb_ltb. destruct (Z.ltb_spec M (own w vc)).
    + apply (Hstep (own w vc) g m p); try done; [by rewrite insert_id|lia|by intros ? [= ->]|right; by exists vc].
    + apply (Hstep M G m p); try done; [by rewrite insert_id|by intros ? [= ->]|by left].
  - destruct (add_backstream_spec w 0 g p m) as (p' & -> & Hf); [done|apply Hp|lia|]. cbn [mbind res_bind Z.eqb].
    apply (Hstep M G _ p'); try done; [|by left]. destruct Hf as (vc & -> & Hvc & _). by split; [apply Hp|].
Qed.

Lemma filtered_own w v p p' :
  filtered w v p p' -> backstream_vc p' <> [] /\ own w (backstream_vc p') = v /\ vc_ok (backstream_vc p') /\
  p' = set_backstream_vc (backstream_vc p') p.
Proof.
  intros (vc & -> & Hok & Hm). cbn. split; [|split; [|done]].
  - intros ->. change (vc_map []) with (∅ : gmap Z Z) in Hm. by apply (insert_non_empty (M := gmap Z) (vc_map (backstream_vc p)) (crdt_gid (w_crdt w)) v).
  - apply vcu_Some. by rewrite Hm, lookup_insert_eq.
Qed.

Lemma filtered_trans w a b p p1 p' : filtered w a p p1 -> filtered w b p1 p' -> filtered w b p p'.
Proof.
  intros (vc & -> & _ & Hm) (vc' & -> & Hok & Hm'). exists vc'. split; [done|]. split; [done|].
  rewrite Hm'. change (backstream_vc (set_backstream_vc vc p)) with vc. by rewrite Hm, insert_insert_eq.
Qed.

Definition assigned (w : world) (M G g : Z) (p p' : peer) : Prop :=
  if decide (g = G) then filtered w 0 p p'
  else if decide (backstream_vc p = []) then filtered w M p p' else p' = p.

Lemma assign_backstream_spec w m M G :
  0 < crdt_gid (w_crdt w) < 16 -> map_Forall (fun _ p => vc_ok (backstream_vc p)) m -> 0 <= M < 2 ^ 56 ->
  exists m', assign_backstream M G (set_masters m w) = Ok (set_masters m' w) /\
    forall g, 0 <= g < 16 -> option_Forall2 (assigned w M G g) (m !! g) (m' !! g).
Proof.
  intros Hg Hok HM. unfold assign_backstream.
  destruct (each_peer_spec (fun g p w => if g =? G then add_backstream 0 g p w
    else if isNullVectorClock (backstream_vc p) then add_backstream M g p w else Ok w) (assigned w M G) w (seqZ 0 16) m)
    as (m' & E & _ & Hin); [apply NoDup_seqZ| |].
  - intros g p m' _ Hp Hp'. unfold assigned. pose proof (Hok g p Hp). rewrite isNull_spec.
    destruct (Z.eqb_spec g G), (decide (g = G)); try done; [by apply add_backstream_spec|].
    case_bool_decide; destruct (decide (backstream_vc p = [])); try done; [by apply add_backstream_spec|].
    exists p. split; [by rewrite insert_id|done].
  - exists m'. split; [exact E|]. intros g Hg'. apply Hin. apply elem_of_seqZ. lia.
Qed.

Lemma cleanSlavePeerBackStream_spec w m :
  map_Forall (fun g _ => 0 <= g < 16) m ->
  cleanSlavePeerBackStream (set_masters m w) = Ok (set_w_crdt (set_loading false (set_crdtMasters (set_backstream_vc [] <$> m) (w_crdt w))) w).
Proof.
  intros Hg. unfold cleanSlavePeerBackStream.
  destruct (each_peer_spec (fun g p w => Ok (if negb (isNullVectorClock (backstream_vc p)) then set_peer g (set_backstream_vc [] p) w else w))
    (fun _ p p' => p' = set_backstream_vc [] p) w (seqZ 0 16) m) as (m' & -> & Hout & Hin); [apply NoDup_seqZ| |].
  - intros g p m' _ Hp Hp'. rewrite isNull_spec. exists (set_backstream_vc [] p). split; [|done].
    case_bool_decide as Hn; [|done]. cbn [negb]. f_equal. f_equal.
    rewrite insert_id; [done|]. rewrite Hp'. f_equal. destruct p. cbn in *. by subst.
  - cbn [mbind res_bind]. replace m' with (set_backstream_vc [] <$> m); [done|]. apply map_eq. intros g. rewrite lookup_fmap.
    destruct (decide (g ∈ seqZ 0 16)) as [Hg'|Hg'].
    + specialize (Hin g Hg'). destruct (m !! g); inversion Hin; by subst.
    + rewrite Hout by done. destruct (m !! g) as [p|] eqn:E; [|done]. specialize (Hg g p E). rewrite elem_of_seqZ in Hg'. cbn in Hg. lia.
Qed.

Lemma set_masters_self w : set_masters (crdtMasters (w_crdt w)) w = w.
Proof. by destruct w as [? ? []]. Qed.

Lemma emptyDb_null {object : Type} (dbs : list (redisDb object)) : isNullDb (snd (emptyDb (-1) dbs)) = true.
Proof.
  unfold emptyDb. rewrite (proj2 (orb_false_iff _ _)) by (split; [done|rewrite Z.geb_leb; apply Z.leb_gt; lia]).
  cbn [snd]. unfold isNullDb. apply forallb_forall. intros db Hdb%list_elem_of_In.
  apply elem_of_lookup_imap in Hdb as (j & db0 & -> & _). done.
Qed.

(** Whether the data that was loaded is used. *)

Definition data_current {object : Type} (known : Z -> option VectorClock) (w : world) (dbs : list (redisDb object)) : Prop :=
  isNullDb dbs = false /\ iAmMaster w = true /\
  forall g p vc, crdtMasters (w_crdt w) !! g = Some p -> known g = Some vc -> own w vc <= own w (vectorClock (w_crdt w)).

(** The peers are asked for the writes of this server: each has a filter, one
    that knows the most gives everything it has, and of those that answered the
    others give at most what they have beyond it. *)

Definition asks_back (known : Z -> option VectorClock) (w w' : world) : Prop :=
  (forall g p, crdtMasters (w_crdt w) !! g = Some p ->
     exists p', crdtMasters (w_crdt w') !! g = Some p' /\ p' = set_backstream_vc (backstream_vc p') p /\
       backstream_vc p' <> [] /\ vc_ok (backstream_vc p') /\
       match known g with
       | None => own w (backstream_vc p') = 0
       | Some vc => own w (backstream_vc p') = 0 \/ own w vc <= own w (backstream_vc p')
       end) /\
  (forall g p vc, crdtMasters (w_crdt w) !! g = Some p -> known g = Some vc ->
     exists best p' vc', crdtMasters (w_crdt w') !! best = Some p' /\ known best = Some vc' /\
       own w vc <= own w vc' /\ own w (backstream_vc p') = 0).

Section restart.

Context (ask : Z -> vc_answer) (known : Z -> option VectorClock) (w : world).
Hypothesis Hs : server_ok (w_crdt w).
Hypothesis Hgids : map_Forall (fun g _ => 0 <= g < 16) (crdtMasters (w_crdt w)).
Hypothesis Hnone : map_Forall (fun _ p => backstream_vc p = []) (crdtMasters (w_crdt w)).
Hypothesis Hask : answers ask known.

Lemma peer_in_range g p : crdtMasters (w_crdt w) !! g = Some p -> g ∈ seqZ 0 16.
Proof. intros Hp. apply elem_of_seqZ. pose proof (Hgids g p Hp) as H. cbn in H. lia. Qed.

Lemma best_range m m' M G :
  asked w known (seqZ 0 16) m m' (-1) (-1) M G -> G <> -1 -> 0 <= M < 2 ^ 56.
Proof.
  intros [_ _ _ _ [[_ ->]|(p & vc & _ & _ & Hk & <-)]] HG; [done|].
  apply vcu_range. specialize (Hask G). rewrite Hk in Hask. apply Hask.
Qed.

Lemma asked_ok m' M G :
  asked w known (seqZ 0 16) (crdtMasters (w_crdt w)) m' (-1) (-1) M G -> map_Forall (fun _ p => vc_ok (backstream_vc p)) m'.
Proof.
  intros [Hout Hin _ _ _] g p' Hp'. destruct (decide (g ∈ seqZ 0 16)) as [Hg|Hg].
  - specialize (Hin g Hg). rewrite Hp' in Hin. destruct (crdtMasters (w_crdt w) !! g) as [p|] eqn:E; inversion Hin as [? ? HR|]; subst.
    unfold known_or_filtered in HR. destruct (known g); [subst; rewrite (Hnone g p E); apply vc_ok_nil|by apply filtered_own in HR as (_ & _ & ? & _)].
  - rewrite Hout in Hp' by done. rewrite (Hnone g p' Hp'). apply vc_ok_nil.
Qed.

Lemma asked_cleaned m' M G :
  asked w known (seqZ 0 16) (crdtMasters (w_crdt w)) m' (-1) (-1) M G ->
  map_Forall (fun g _ => 0 <= g < 16) m' /\ set_backstream_vc [] <$> m' = crdtMasters (w_crdt w).
Proof.
  intros [Hout Hin _ _ _].
  assert (forall g, option_Forall2 (fun p p' => exists vc, p' = set_backstream_vc vc p) (crdtMasters (w_crdt w) !! g) (m' !! g)) as H.
  { intros g. destruct (decide (g ∈ seqZ 0 16)) as [Hg|Hg].
    - destruct (Hin g Hg) as [p p' HR|]; constructor. revert HR. unfold known_or_filtered.
      destruct (known g); [intros ->; exists (backstream_vc p); by destruct p|]. intros (vc & -> & _). by exists vc.
    - rewrite Hout by done. destruct (crdtMasters (w_crdt w) !! g) as [p|] eqn:E; constructor. by apply peer_in_range in E. }
  split.
  - intros g p' Hp'. specialize (H g). rewrite Hp' in H. inversion H as [p ? _ Hp|]; subst.
    by apply (Hgids g p).
  - apply map_eq. intros g. specialize (H g). rewrite lookup_fmap.
    destruct (crdtMasters (w_crdt w) !! g) as [p|] eqn:E; inversion H as [? ? [vc ->]|]; subst; [|done]. cbn. f_equal.
    rewrite <- (Hnone g p E). by destruct p.
Qed.

(** The end of [peerBackStream], from a state [W] that agrees with [w] on the
    group of the server. *)

Lemma backstream_finish W m' M G :
  asked w known (seqZ 0 16) (crdtMasters (w_crdt w)) m' (-1) (-1) M G ->
  crdtMasters (w_crdt W) = m' -> crdt_gid (w_crdt W) = crdt_gid (w_crdt w) ->
  exists m2, (if G =? -1 then Ok W else assign_backstream M G W) = Ok (set_masters m2 W) /\ asks_back known w (set_masters m2 W).
Proof.
  intros Ha HW Hgid. pose proof (asked_ok _ _ _ Ha) as Hok. pose proof (best_range _ _ _ _ Ha) as HM.
  pose proof Hs as (Hg & _). destruct Ha as [Hout Hin HM1 Hmax Hbest].
  assert (forall g p, crdtMasters (w_crdt w) !! g = Some p -> exists p', m' !! g = Some p' /\ known_or_filtered w known g p p') as Hpeer.
  { intros g p Hp. specialize (Hin g (peer_in_range g p Hp)). rewrite Hp in Hin.
    inversion Hin; subst. eauto. }
  destruct (Z.eqb_spec G (-1)) as [HG|HG].
  - exists m'. rewrite <- HW, set_masters_self. split; [done|].
    assert (forall g p, crdtMasters (w_crdt w) !! g = Some p -> known g = None) as Hunk.
    { intros g p Hp. destruct (known g) as [vc|] eqn:Ek; [|done]. specialize (Hmax g p vc (peer_in_range g p Hp) Hp Ek). pose proof (Hask g) as Hv. rewrite Ek in Hv.
      pose proof (vcu_range vc (crdt_gid (w_crdt w)) (proj1 Hv)).
      destruct Hbest as [[-> _]|(q & ? & Hq & _)]; [lia|]. apply elem_of_seqZ in Hq. lia. }
    split.
    + intros g p Hp. destruct (Hpeer g p Hp) as (p' & Hp' & HR). unfold known_or_filtered in HR. rewrite (Hunk g p Hp) in HR |- *.
      exists p'. rewrite HW. apply filtered_own in HR as (? & ? & ? & ?). done.
    + intros g p vc Hp Hk. by rewrite (Hunk g p Hp) in Hk.
  - destruct (assign_backstream_spec W m' M G) as (m2 & E & Hm2); [by rewrite Hgid|done|by apply HM|].
    rewrite <- HW, set_masters_self in E. exists m2. split; [done|].
    assert (forall g p, crdtMasters (w_crdt w) !! g = Some p -> exists p1 p', known_or_filtered w known g p p1 /\ m2 !! g = Some p' /\ assigned w M G g p1 p') as H2.
    { intros g p Hp. destruct (Hpeer g p Hp) as (p1 & Hp1 & HR). specialize (Hm2 g (Hgids g p Hp)). rewrite Hp1 in Hm2.
      inversion Hm2 as [? p' HR'|]; subst. exists p1, p'. split; [done|]. split; [done|].
      unfold assigned, filtered in *. by rewrite Hgid in HR'. }
    assert (forall g p, crdtMasters (w_crdt w) !! g = Some p -> exists p' v, m2 !! g = Some p' /\ filtered w v p p' /\
      match known g with None => v = 0 | Some _ => v = if decide (g = G) then 0 else M end) as H3.
    { intros g p Hp. destruct (H2 g p Hp) as (p1 & p' & HR & Hp' & HA). exists p'. unfold known_or_filtered in HR. unfold assigned in HA.
      destruct (known g).
      - subst p1. rewrite (decide_True _ _ (Hnone g p Hp)) in HA. eexists. split; [done|]. split; [|done]. by destruct (decide (g = G)).
      - exists 0. split; [done|]. split; [|done]. destruct (decide (g = G)); [by eapply filtered_trans|].
        apply filtered_own in HR as HR'. rewrite decide_False in HA by apply HR'. by subst p1. }
    split.
    + intros g p Hp. destruct (H3 g p Hp) as (p' & v & Hp' & Hf & Hv). apply filtered_own in Hf as (? & Ho & ? & ?).
      exists p'. split; [done|]. split; [done|]. split; [done|]. split; [done|]. rewrite Ho.
      destruct (known g) as [vc|] eqn:Ek; [|done]. destruct (decide (g = G)); [by left|right]. rewrite Hv.
      apply (Hmax g p vc); [by eapply peer_in_range|done|done].
    + intros g p vc Hp Hk. destruct Hbest as [[_ ?]|(q & vc' & _ & Hq & Hk' & Ho')]; [done|].
      destruct (H3 G q Hq) as (p' & v & Hp' & Hf & Hv). rewrite Hk', decide_True in Hv by done.
      apply filtered_own in Hf as (_ & Ho & _). exists G, p', vc'. split; [done|]. split; [done|]. split; [|by rewrite Ho].
      rewrite Ho'. apply (Hmax g p vc); [by eapply peer_in_range|done|done].
Qed.

(** C21: after a restart the server keeps the data it loaded exactly when it is a
    master with data and no peer that answers knows a later write of this server:
    then nothing is asked back.  Otherwise a master's data is gone, the server
    counts as loading while it has a peer, and all the peers are asked for its
    writes, one that knows the most of them for everything. *)
Theorem peerBackStream_decides {object : Type} newid (dbs : list (redisDb object)) :
  exists w' dbs', peerBackStream ask newid w dbs = Ok (loading (w_crdt w'), w', dbs') /\
    (data_current known w dbs -> dbs' = dbs /\ w' = set_w_crdt (set_loading false (w_crdt w)) w) /\
    (~ data_current known w dbs ->
       (if iAmMaster w then isNullDb dbs' = true else dbs' = dbs) /\
       (loading (w_crdt w') = true <-> crdtMasters (w_crdt w) <> ∅) /\ asks_back known w w').
Proof.
  destruct Hs as (Hg & Hclock & _ & _ & Hpeers). unfold peerBackStream.
  destruct (ask_peers_spec ask known w (seqZ 0 16) Hg Hask (crdtMasters (w_crdt w)) (-1) (-1) false) as (M & G & any & m' & E & Ha & Hany);
    [apply NoDup_seqZ|done|lia|].
  rewrite set_masters_self in E. rewrite E. cbn [mbind res_bind].
  assert (any = true <-> crdtMasters (w_crdt w) <> ∅) as Hany'.
  { rewrite Hany. split.
    - intros [|(g & _ & p & Hp)] Hem; [done|]. by rewrite Hem, lookup_empty in Hp.
    - intros (g & p & Hp)%map_choose. right. exists g. split; [by eapply peer_in_range|by eexists]. }
  assert (M <= own w (vectorClock (w_crdt w)) <-> forall g p vc, crdtMasters (w_crdt w) !! g = Some p -> known g = Some vc ->
    own w vc <= own w (vectorClock (w_crdt w))) as HM.
  { pose proof (vcu_range (vectorClock (w_crdt w)) (crdt_gid (w_crdt w)) Hclock). destruct Ha as [_ _ _ Hmax Hbest]. split.
    - intros HM g p vc Hp Hk. enough (own w vc <= M) by lia. apply (Hmax g p vc); [by eapply peer_in_range|done|done].
    - intros Hall. destruct Hbest as [[-> _]|(p & vc & _ & Hp & Hk & <-)]; [lia|by apply (Hall G p vc)]. }
  assert (forall W dbs', crdtMasters (w_crdt W) = m' -> crdt_gid (w_crdt W) = crdt_gid (w_crdt w) -> loading (w_crdt W) = any ->
    ~ data_current known w dbs -> (if iAmMaster w then isNullDb dbs' = true else dbs' = dbs) ->
    exists w' dbs'', (if G =? -1 then Ok (any, W, dbs') else W ← assign_backstream M G W; Ok (any, W, dbs')) = Ok (loading (w_crdt w'), w', dbs'') /\
      (data_current known w dbs -> dbs'' = dbs /\ w' = set_w_crdt (set_loading false (w_crdt w)) w) /\
      (~ data_current known w dbs -> (if iAmMaster w then isNullDb dbs'' = true else dbs'' = dbs) /\
        (loading (w_crdt w') = true <-> crdtMasters (w_crdt w) <> ∅) /\ asks_back known w w')) as Hfinish.
  { intros W dbs' HW1 HW2 HW3 Hn Hdbs. destruct (backstream_finish W m' M G Ha HW1 HW2) as (m2 & E2 & Hback).
    exists (set_masters m2 W), dbs'. split; [|split; [done|intros _; split; [done|split; [|done]]]].
    - destruct (G =? -1); [injection E2 as <-; by rewrite HW3|]. rewrite E2. cbn. by rewrite HW3.
    - cbn. by rewrite HW3. }
  change (iAmMaster (set_masters m' w)) with (iAmMaster w).
  destruct (negb (isNullDb dbs) && iAmMaster w) eqn:Ed.
  - apply andb_true_iff in Ed as [Hd%negb_true_iff Hm].
    change (vectorClock (w_crdt (set_masters m' w))) with (vectorClock (w_crdt w)).
    change (crdt_gid (w_crdt (set_masters m' w))) with (crdt_gid (w_crdt w)).
    rewrite getVectorClockUnit_logic by done.
    destruct (Z.leb_spec M (own w (vectorClock (w_crdt w)))) as [Hle|Hlt].
    + destruct (asked_cleaned m' M G Ha) as [Hr Hc]. rewrite cleanSlavePeerBackStream_spec, Hc by done. cbn [mbind res_bind].
      exists (set_w_crdt (set_loading false (w_crdt w)) w), dbs. split; [by destruct w as [? ? []]|]. split; [done|].
      intros []. split; [done|]. split; [done|]. by apply HM.
    + destruct (emptyDb (-1) dbs) as [n dbs'] eqn:Ee. apply Hfinish; try done.
      * intros (_ & _ & Hall%HM). lia.
      * rewrite Hm. pose proof (emptyDb_null dbs) as Hn. by rewrite Ee in Hn.
  - apply Hfinish; try done.
    + intros (H1 & H2 & _). by rewrite H1, H2 in Ed.
    + destruct (iAmMaster w); [|done]. rewrite andb_true_r in Ed. by apply negb_false_iff in Ed.
Qed.

End restart.

Definition example_known (g : Z) : option VectorClock := if g =? 2 then Some [Clk 1 500; Clk 2 7] else None.

Definition example_ask (g : Z) : vc_answer :=
  if g =? 2 then ReplyString (vectorClockToSds [Clk 1 500; Clk 2 7]) else NoConnection.

Definition example_restarted : world :=
  set_peer 3 (set_p_gid 3 example_silent) (set_peer 2 example_silent example_world).

Definition example_loaded : list (redisDb nat) := [MkDb {[ str "k" := OtherValue 0 ]} ∅ ∅].

Lemma peerBackStream_decides_witness :
  exists w' dbs', peerBackStream example_ask example_id example_restarted example_loaded = Ok (loading (w_crdt w'), w', dbs') /\
    isNullDb dbs' = true /\ loading (w_crdt w') = true /\ asks_back example_known example_restarted w'.
Proof.
  destruct (peerBackStream_decides example_ask example_known example_restarted) with (object := nat) (newid := example_id) (dbs := example_loaded)
    as (w' & dbs' & E & _ & H).
  - destruct example_server_ok as (? & ? & ? & ? & ?). split; [done|]. split; [done|]. split; [done|]. split; [done|].
    do 2 (apply map_Forall_insert_2; [split; apply vc_ok_nil|]). done.
  - do 2 (apply map_Forall_insert_2; [lia|]). apply map_Forall_empty.
  - do 2 (apply map_Forall_insert_2; [done|]). apply map_Forall_empty.
  - intros g. unfold example_known, example_ask. destruct (g =? 2); [split; [decide_now|done]|done].
  - destruct H as (H1 & H2 & H3).
    + intros (_ & _ & Hd). specialize (Hd 2 example_silent [Clk 1 500; Clk 2 7] eq_refl eq_refl). apply Z.leb_le in Hd. vm_compute in Hd. discriminate Hd.
    + exists w', dbs'. split; [exact E|]. split; [exact H1|]. split; [apply H2; intros Hm; apply (f_equal (lookup 2)) in Hm; vm_compute in Hm; discriminate Hm|exact H3].
Defined.
