(* ===== verification/Slave.v ===== *)
(** * The slave's side of the replication ([src/src/replication.c])

    Connecting to the master, the handshake, the partial resynchronization, the
    transfer of the RDB file, SLAVEOF and what the cron does for a slave.  What
    sockets and files do is an argument; so are the loading of the file, which
    [RdbFile] models, and the contents of the databases. *)

From S2P Require Import Prelude Util Sds VectorClock VcTheory VcText VcClaims Proxy CrdtServer Gc Keyspace Backlog Resp World Feed Psync PeerState PeerLink Handshake RdbInfo Cron.

Definition REPL_STATE_SEND_GID : Z := 4.

Definition REPL_STATE_RECEIVE_GID : Z := 5.

Definition REPL_STATE_SEND_CRDT : Z := 17.

Definition REPL_STATE_RECEIVE_CRDT : Z := 18.

(** The client of the master; [mc_closing]: one of the flags that keep
    [freeClient] from caching it. *)

Record mclient := MkMc {
  mc_fd : Z;
  mc_link : link;
  mc_replid : bytes;
  mc_pre_psync : bool;
  mc_closing : bool;
  mc_db : Z;
  mc_reply : bytes;
  mc_lastinteraction : Z
}.

(** [ss_file]: the temporary file, while it is open.  [ss_usemark], [ss_eofmark] and
    [ss_lastbytes] are the static variables of [readSyncBulkPayload].  The fields
    [masterhost], [repl_state], [master_is_crdt] and [unixtime] are in the world. *)

Record slave_side (D : Type) := MkSs {
  ss_world : world;
  ss_masterport : Z;
  ss_master : option mclient;
  ss_cached_master : option mclient;
  ss_master_replid : bytes;
  ss_master_initial_offset : Z;
  ss_repl_transfer_s : Z;
  ss_repl_transfer_size : Z;
  ss_repl_transfer_read : Z;
  ss_repl_transfer_lastio : Z;
  ss_file : option bytes;
  ss_usemark : bool;
  ss_eofmark : bytes;
  ss_lastbytes : bytes;
  ss_repl_down_since : Z;
  ss_data : D
}.

Arguments MkSs {D}. Arguments ss_world {D}. Arguments ss_masterport {D}. Arguments ss_master {D}. Arguments ss_cached_master {D}.
Arguments ss_master_replid {D}. Arguments ss_master_initial_offset {D}. Arguments ss_repl_transfer_s {D}. Arguments ss_repl_transfer_size {D}.
Arguments ss_repl_transfer_read {D}. Arguments ss_repl_transfer_lastio {D}. Arguments ss_file {D}. Arguments ss_usemark {D}.
Arguments ss_eofmark {D}. Arguments ss_lastbytes {D}. Arguments ss_repl_down_since {D}. Arguments ss_data {D}.

Definition set_ss_world {D : Type} (v : world) (s : slave_side D) : slave_side D :=
  MkSs v (ss_masterport s) (ss_master s) (ss_cached_master s) (ss_master_replid s) (ss_master_initial_offset s) (ss_repl_transfer_s s) (ss_repl_transfer_size s) (ss_repl_transfer_read s) (ss_repl_transfer_lastio s) (ss_file s) (ss_usemark s) (ss_eofmark s) (ss_lastbytes s) (ss_repl_down_since s) (ss_data s).

Definition set_ss_masterport {D : Type} (v : Z) (s : slave_side D) : slave_side D :=
  MkSs (ss_world s) v (ss_master s) (ss_cached_master s) (ss_master_replid s) (ss_master_initial_offset s) (ss_repl_transfer_s s) (ss_repl_transfer_size s) (ss_repl_transfer_read s) (ss_repl_transfer_lastio s) (ss_file s) (ss_usemark s) (ss_eofmark s) (ss_lastbytes s) (ss_repl_down_since s) (ss_data s).

Definition set_ss_master {D : Type} (v : option mclient) (s : slave_side D) : slave_side D :=
  MkSs (ss_world s) (ss_masterport s) v (ss_cached_master s) (ss_master_replid s) (ss_master_initial_offset s) (ss_repl_transfer_s s) (ss_repl_transfer_size s) (ss_repl_transfer_read s) (ss_repl_transfer_lastio s) (ss_file s) (ss_usemark s) (ss_eofmark s) (ss_lastbytes s) (ss_repl_down_since s) (ss_data s).

Definition set_ss_cached_master {D : Type} (v : option mclient) (s : slave_side D) : slave_side D :=
  MkSs (ss_world s) (ss_masterport s) (ss_master s) v (ss_master_replid s) (ss_master_initial_offset s) (ss_repl_transfer_s s) (ss_repl_transfer_size s) (ss_repl_transfer_read s) (ss_repl_transfer_lastio s) (ss_file s) (ss_usemark s) (ss_eofmark s) (ss_lastbytes s) (ss_repl_down_since s) (ss_data s).

Definition set_ss_master_replid {D : Type} (v : bytes) (s : slave_side D) : slave_side D :=
  MkSs (ss_world s) (ss_masterport s) (ss_master s) (ss_cached_master s) v (ss_master_initial_offset s) (ss_repl_transfer_s s) (ss_repl_transfer_size s) (ss_repl_transfer_read s) (ss_repl_transfer_lastio s) (ss_file s) (ss_usemark s) (ss_eofmark s) (ss_lastbytes s) (ss_repl_down_since s) (ss_data s).

Definition set_ss_master_initial_offset {D : Type} (v : Z) (s : slave_side D) : slave_side D :=
  MkSs (ss_world s) (ss_masterport s) (ss_master s) (ss_cached_master s) (ss_master_replid s) v (ss_repl_transfer_s s) (ss_repl_transfer_size s) (ss_repl_transfer_read s) (ss_repl_transfer_lastio s) (ss_file s) (ss_usemark s) (ss_eofmark s) (ss_lastbytes s) (ss_repl_down_since s) (ss_data s).

Definition set_ss_repl_transfer_s {D : Type} (v : Z) (s : slave_side D) : slave_side D :=
  MkSs (ss_world s) (ss_masterport s) (ss_master s) (ss_cached_master s) (ss_master_replid s) (ss_master_initial_offset s) v (ss_repl_transfer_size s) (ss_repl_transfer_read s) (ss_repl_transfer_lastio s) (ss_file s) (ss_usemark s) (ss_eofmark s) (ss_lastbytes s) (ss_repl_down_since s) (ss_data s).

Definition set_ss_repl_transfer_size {D : Type} (v : Z) (s : slave_side D) : slave_side D :=
  MkSs (ss_world s) (ss_masterport s) (ss_master s) (ss_cached_master s) (ss_master_replid s) (ss_master_initial_offset s) (ss_repl_transfer_s s) v (ss_repl_transfer_read s) (ss_repl_transfer_lastio s) (ss_file s) (ss_usemark s) (ss_eofmark s) (ss_lastbytes s) (ss_repl_down_since s) (ss_data s).

Definition set_ss_repl_transfer_read {D : Type} (v : Z) (s : slave_side D) : slave_side D :=
  MkSs (ss_world s) (ss_masterport s) (ss_master s) (ss_cached_master s) (ss_master_replid s) (ss_master_initial_offset s) (ss_repl_transfer_s s) (ss_repl_transfer_size s) v (ss_repl_transfer_lastio s) (ss_file s) (ss_usemark s) (ss_eofmark s) (ss_lastbytes s) (ss_repl_down_since s) (ss_data s).

Definition set_ss_repl_transfer_lastio {D : Type} (v : Z) (s : slave_side D) : slave_side D :=
  MkSs (ss_world s) (ss_masterport s) (ss_master s) (ss_cached_master s) (ss_master_replid s) (ss_master_initial_offset s) (ss_repl_transfer_s s) (ss_repl_transfer_size s) (ss_repl_transfer_read s) v (ss_file s) (ss_usemark s) (ss_eofmark s) (ss_lastbytes s) (ss_repl_down_since s) (ss_data s).

Definition set_ss_file {D : Type} (v : option bytes) (s : slave_side D) : slave_side D :=
  MkSs (ss_world s) (ss_masterport s) (ss_master s) (ss_cached_master s) (ss_master_replid s) (ss_master_initial_offset s) (ss_repl_transfer_s s) (ss_repl_transfer_size s) (ss_repl_transfer_read s) (ss_repl_transfer_lastio s) v (ss_usemark s) (ss_eofmark s) (ss_lastbytes s) (ss_repl_down_since s) (ss_data s).

Definition set_ss_usemark {D : Type} (v : bool) (s : slave_side D) : slave_side D :=
  MkSs (ss_world s) (ss_masterport s) (ss_master s) (ss_cached_master s) (ss_master_replid s) (ss_master_initial_offset s) (ss_repl_transfer_s s) (ss_repl_transfer_size s) (ss_repl_transfer_read s) (ss_repl_transfer_lastio s) (ss_file s) v (ss_eofmark s) (ss_lastbytes s) (ss_repl_down_since s) (ss_data s).

Definition set_ss_eofmark {D : Type} (v : bytes) (s : slave_side D) : slave_side D :=
  MkSs (ss_world s) (ss_masterport s) (ss_master s) (ss_cached_master s) (ss_master_replid s) (ss_master_initial_offset s) (ss_repl_transfer_s s) (ss_repl_transfer_size s) (ss_repl_transfer_read s) (ss_repl_transfer_lastio s) (ss_file s) (ss_usemark s) v (ss_lastbytes s) (ss_repl_down_since s) (ss_data s).

Definition set_ss_lastbytes {D : Type} (v : bytes) (s : slave_side D) : slave_side D :=
  MkSs (ss_world s) (ss_masterport s) (ss_master s) (ss_cached_master s) (ss_master_replid s) (ss_master_initial_offset s) (ss_repl_transfer_s s) (ss_repl_transfer_size s) (ss_repl_transfer_read s) (ss_repl_transfer_lastio s) (ss_file s) (ss_usemark s) (ss_eofmark s) v (ss_repl_down_since s) (ss_data s).

Definition set_ss_repl_down_since {D : Type} (v : Z) (s : slave_side D) : slave_side D :=
  MkSs (ss_world s) (ss_masterport s) (ss_master s) (ss_cached_master s) (ss_master_replid s) (ss_master_initial_offset s) (ss_repl_transfer_s s) (ss_repl_transfer_size s) (ss_repl_transfer_read s) (ss_repl_transfer_lastio s) (ss_file s) (ss_usemark s) (ss_eofmark s) (ss_lastbytes s) v (ss_data s).

Definition set_ss_data {D : Type} (v : D) (s : slave_side D) : slave_side D :=
  MkSs (ss_world s) (ss_masterport s) (ss_master s) (ss_cached_master s) (ss_master_replid s) (ss_master_initial_offset s) (ss_repl_transfer_s s) (ss_repl_transfer_size s) (ss_repl_transfer_read s) (ss_repl_transfer_lastio s) (ss_file s) (ss_usemark s) (ss_eofmark s) (ss_lastbytes s) (ss_repl_down_since s) v.

Definition set_mc_fd (v : Z) (c : mclient) : mclient :=
  MkMc v (mc_link c) (mc_replid c) (mc_pre_psync c) (mc_closing c) (mc_db c) (mc_reply c) (mc_lastinteraction c).

Definition set_mc_link (v : link) (c : mclient) : mclient :=
  MkMc (mc_fd c) v (mc_replid c) (mc_pre_psync c) (mc_closing c) (mc_db c) (mc_reply c) (mc_lastinteraction c).

Definition set_mc_replid (v : bytes) (c : mclient) : mclient :=
  MkMc (mc_fd c) (mc_link c) v (mc_pre_psync c) (mc_closing c) (mc_db c) (mc_reply c) (mc_lastinteraction c).

Definition set_mc_pre_psync (v : bool) (c : mclient) : mclient :=
  MkMc (mc_fd c) (mc_link c) (mc_replid c) v (mc_closing c) (mc_db c) (mc_reply c) (mc_lastinteraction c).

Definition set_mc_closing (v : bool) (c : mclient) : mclient :=
  MkMc (mc_fd c) (mc_link c) (mc_replid c) (mc_pre_psync c) v (mc_db c) (mc_reply c) (mc_lastinteraction c).

Definition set_mc_db (v : Z) (c : mclient) : mclient :=
  MkMc (mc_fd c) (mc_link c) (mc_replid c) (mc_pre_psync c) (mc_closing c) v (mc_reply c) (mc_lastinteraction c).

Definition set_mc_reply (v : bytes) (c : mclient) : mclient :=
  MkMc (mc_fd c) (mc_link c) (mc_replid c) (mc_pre_psync c) (mc_closing c) (mc_db c) v (mc_lastinteraction c).

Definition set_mc_lastinteraction (v : Z) (c : mclient) : mclient :=
  MkMc (mc_fd c) (mc_link c) (mc_replid c) (mc_pre_psync c) (mc_closing c) (mc_db c) (mc_reply c) v.

Definition ok_reply : bytes := str "+OK" ++ CRLF.

(** The fields of the world that the slave's side assigns. *)

Definition set_state {D : Type} (v : Z) (s : slave_side D) : slave_side D := set_ss_world (set_w_repl_state v (ss_world s)) s.

Definition state {D : Type} (s : slave_side D) : Z := w_repl_state (ss_world s).

Section slave.

Context {D : Type}.

Implicit Types (s : slave_side D).

(** ** Clients of the server *)

(** [freeClient] on every client of the list. *)

Definition disconnect (unixtime : Z) (r : replServer) : replServer :=
  if bool_decide (slaves r = []) then r else set_repl_no_slaves_since unixtime (set_slaves [] r).

Definition disconnectSlaves (w : world) : world := set_w_server (disconnect (w_unixtime w) (w_server w)) w.

Definition disconnectCrdtSlaves (w : world) : world := set_w_peers (disconnect (w_unixtime w) (w_peers w)) w.

(** ** The client of the master *)

Definition replicationCreateMasterClient (fd dbid : Z) s : slave_side D :=
  let off := ss_master_initial_offset s in
  let l := MkLink (fresh []) REQ_UNKNOWN off off [] in
  let db := if negb (dbid =? -1) then dbid else 0 in
  set_ss_master (Some (MkMc fd l (ss_master_replid s) (off =? -1) false db [] (w_unixtime (ss_world s)))) s.

Definition replicationHandleMasterDisconnection s : slave_side D :=
  set_ss_repl_down_since (w_unixtime (ss_world s)) (set_state REPL_STATE_CONNECT (set_ss_master None s)).

(** What was read and not applied is forgotten; the transaction, if there is one, is
    part of the commands' state. *)

Definition replicationCacheMaster (c : mclient) s : res (slave_side D) :=
  _ ← c_assert (bool_decide (is_Some (ss_master s)) && bool_decide (ss_cached_master s = None));
  let c := set_mc_fd (-1) (set_mc_reply [] (set_mc_link (cacheMaster (mc_link c)) c)) in
  Ok (replicationHandleMasterDisconnection (set_ss_cached_master (Some c) s)).

(** [freeClient(server.master)] *)

Definition free_master s : res (slave_side D) :=
  match ss_master s with
  | None => Undef
  | Some c => if negb (mc_closing c) then replicationCacheMaster c s else Ok (replicationHandleMasterDisconnection s)
  end.

Definition replicationCacheMasterUsingMyself s : slave_side D :=
  let r := w_server (ss_world s) in
  let s := set_ss_master_initial_offset (master_repl_offset r) s in
  let s := replicationCreateMasterClient (-1) (-1) s in
  set_ss_master None (set_ss_cached_master (set_mc_replid (replid r) <$> ss_master s) s).

Definition replicationDiscardCachedMaster s : slave_side D := set_ss_cached_master None s.

(** [event_ok]: the handlers can be registered; else the client is closed later. *)

Definition replicationResurrectCachedMaster (event_ok : bool) (newfd : Z) s : res (slave_side D) :=
  c ← need (ss_cached_master s);
  let c := set_mc_lastinteraction (w_unixtime (ss_world s)) (set_mc_closing (negb event_ok) (set_mc_fd newfd c)) in
  Ok (set_state REPL_STATE_CONNECTED (set_ss_cached_master None (set_ss_master (Some c) s))).

Definition replicationSendAck (c : mclient) : mclient :=
  set_mc_reply (mc_reply c ++ encode_command [str "REPLCONF"; str "ACK"; print_Z (l_reploff (mc_link c))]) c.

Definition replicationGetSlaveOffset s : Z :=
  let offset :=
    if bool_decide (w_masterhost (ss_world s) <> None) then
      match ss_master s, ss_cached_master s with
      | Some c, _ => l_reploff (mc_link c)
      | None, Some c => l_reploff (mc_link c)
      | None, None => 0
      end
    else 0 in
  if offset <? 0 then 0 else offset.

(** ** Cancelling *)

Definition slaveIsInHandshakeState s : bool := (REPL_STATE_RECEIVE_PONG <=? state s) && (state s <=? REPL_STATE_RECEIVE_PSYNC).

Definition undoConnectWithMaster s : slave_side D := set_ss_repl_transfer_s (-1) s.

Definition replicationAbortSyncTransfer s : res (slave_side D) :=
  _ ← c_assert (state s =? REPL_STATE_TRANSFER);
  Ok (set_ss_file None (undoConnectWithMaster s)).

Definition cancelReplicationHandshake s : res (slave_side D) :=
  if state s =? REPL_STATE_TRANSFER then
    s ← replicationAbortSyncTransfer s; Ok (set_state REPL_STATE_CONNECT s)
  else if (state s =? REPL_STATE_CONNECTING) || slaveIsInHandshakeState s then
    Ok (set_state REPL_STATE_CONNECT (undoConnectWithMaster s))
  else Ok s.

(** ** SLAVEOF *)

Definition replicationSetMaster (ip : bytes) (port : Z) s : res (slave_side D) :=
  let was_master := bool_decide (w_masterhost (ss_world s) = None) in
  let s := set_ss_masterport port (set_ss_world (set_w_masterhost (Some (cstr ip)) (ss_world s)) s) in
  s ← (match ss_master s with Some _ => free_master s | None => Ok s end);
  let s := set_ss_world (disconnectCrdtSlaves (disconnectSlaves (ss_world s))) s in
  s ← cancelReplicationHandshake s;
  s ← (if was_master then
         let s := replicationCacheMasterUsingMyself s in
         w ← crdtReplicationAllPeersStateReset (ss_world s);
         Ok (set_ss_world w s)
       else Ok s);
  Ok (set_ss_repl_down_since 0 (set_state REPL_STATE_CONNECT s)).

(** [newid]: the new replication id; [qps]: commands per second. *)

Definition replicationUnsetMaster (newid : bytes) (qps : Z) s : res (slave_side D) :=
  if bool_decide (w_masterhost (ss_world s) = None) then Ok s else
  s ← (if state s =? REPL_STATE_CONNECTED then
         c ← jumpVectorClock qps (w_crdt (ss_world s)); Ok (set_ss_world (set_w_crdt c (ss_world s)) s)
       else Ok s);
  let w := set_w_master_is_crdt true (set_w_masterhost None (ss_world s)) in
  let w := shiftReplicationId CRDT newid (shiftReplicationId SERVER newid w) in
  let s := set_ss_world w s in
  s ← (match ss_master s with
       | Some _ => s ← free_master s; Ok (set_ss_master None s)
       | None => Ok s
       end);
  let s := replicationDiscardCachedMaster s in
  s ← cancelReplicationHandshake s;
  let w := disconnectCrdtSlaves (disconnectSlaves (ss_world s)) in
  w ← crdtReplicationCacheAllMaster w;
  let w := set_w_repl_state REPL_STATE_NONE w in
  let w := set_w_server (set_slaveseldb (-1) (w_server w)) w in
  let w := set_w_peers (set_slaveseldb (-1) (w_peers w)) w in
  let w := set_w_repl_slave_repl_all false w in
  let w := set_w_server (set_repl_no_slaves_since (w_unixtime w) (w_server w)) w in
  Ok (set_ss_world (set_w_peers (set_repl_no_slaves_since (w_unixtime w) (w_peers w)) w) s).

(** [loading], [cluster]: the flags of the server; [null_db] is [isNullDb()] and
    [empty] what [emptyDb] leaves.  The bytes are the reply. *)

Definition slaveofCommand (loading cluster : bool) (newid newid2 : bytes) (qps : Z) (null_db : D -> bool) (empty : D)
    (argv : list bytes) s : res (bytes * slave_side D) :=
  host ← need (argv !! 1%nat);
  arg ← need (argv !! 2%nat);
  if loading then Ok (str "-LOADING Redis is loading the dataset in memory" ++ CRLF, s) else
  if cluster then Ok (str "-ERR SLAVEOF not allowed in cluster mode." ++ CRLF, s) else
  if strcaseeq (cstr host) (str "no") && strcaseeq (cstr arg) (str "one") then
    if bool_decide (w_masterhost (ss_world s) = None) then Ok (ok_reply, s) else
    s ← replicationUnsetMaster newid qps s;
    if (get_min_backstream_vcu (ss_world s) =? 0) && negb (null_db (ss_data s)) then
      let w := ss_world s in
      let c := set_vectorClock (resetVectorClock (vectorClock (w_crdt w))) (w_crdt w) in
      let c := set_gcVectorClock (resetVectorClock (gcVectorClock c)) c in
      let w := clearReplicationId2 SERVER (changeReplicationId SERVER newid2 (set_w_crdt c w)) in
      Ok (ok_reply, set_ss_data empty (set_ss_world w s))
    else Ok (ok_reply, s)
  else
    match string2ll arg with
    | None => Ok (str "-ERR value is not an integer or out of range" ++ CRLF, s)
    | Some port =>
        match w_masterhost (ss_world s) with
        | Some h => if strcaseeq h (cstr host) && (ss_masterport s =? port)
                    then Ok (str "+OK Already connected to specified master" ++ CRLF, s)
                    else s ← replicationSetMaster host (to_int port) s; Ok (ok_reply, s)
        | None => s ← replicationSetMaster host (to_int port) s; Ok (ok_reply, s)
        end
    end.

(** ** The handshake *)

(** The configuration: the password of the master, and what is announced. *)

Record slave_config := MkScf { sc_masterauth : option bytes; sc_announce : announce; sc_repl_timeout : Z }.

Definition read_at (i : io) s : slave_side D :=
  match io_read i with
  | Some _ => set_ss_repl_transfer_lastio (w_unixtime (ss_world s)) s
  | None => s
  end.

Definition psync_request (i : io) s : psync_result * slave_side D * bytes :=
  let s := set_ss_master_initial_offset (-1) s in
  let args := match ss_cached_master s with
              | Some c => [str "PSYNC"; mc_replid c; print_Z (l_reploff (mc_link c) + 1)]
              | None => [str "PSYNC"; str "?"; str "-1"]
              end in
  if negb (io_write_ok i) then (PSYNC_WRITE_ERROR, s, []) else (PSYNC_WAIT_REPLY, s, inline_command args).

(** The master continues with another replication id. *)

Definition master_id_changed (new : bytes) (c : mclient) s : slave_side D :=
  let w := ss_world s in
  let shift (r : replServer) :=
    set_replid new (set_second_replid_offset (master_repl_offset r + 1) (set_replid2 (mc_replid c) r)) in
  let w := if isSameTypeWithMaster w then set_w_peers (shift (w_peers w)) (set_w_server (shift (w_server w)) w) else w in
  set_ss_world (disconnectSlaves w) (set_ss_cached_master (Some (set_mc_replid new c)) s).

Definition psync_answer (i : io) (fd : Z) s : res (psync_result * slave_side D) :=
  let reply := read_reply i in
  let s := read_at i s in
  if bool_decide (reply = []) then Ok (PSYNC_WAIT_REPLY, s) else
  if has_prefix (str "+FULLRESYNC") reply then
    let s := match parse_fullresync reply with
             | None => set_ss_master_replid [] s
             | Some (id, offset) => set_ss_master_initial_offset offset (set_ss_master_replid id s)
             end in
    Ok (PSYNC_FULLRESYNC, replicationDiscardCachedMaster s)
  else if has_prefix (str "+CONTINUE") reply then
    s ← (match continue_id reply with
         | Some new =>
             c ← need (ss_cached_master s);
             Ok (if bool_decide (new = mc_replid c) then s else master_id_changed new c s)
         | None => Ok s
         end);
    s ← replicationResurrectCachedMaster (io_event_ok i) fd s;
    w ← (if bool_decide (repl_backlog (w_server (ss_world s)) = None) then createReplicationBacklog (ss_world s) else Ok (ss_world s));
    Ok (PSYNC_CONTINUE, set_ss_world w s)
  else if has_prefix (str "-NOMASTERLINK") reply || has_prefix (str "-LOADING") reply then Ok (PSYNC_TRY_LATER, s)
  else Ok (PSYNC_NOT_SUPPORTED, s).

(** One phase of the handshake: the next may run, something was written, or the
    handshake failed. *)

Inductive sflow := SGo (s : slave_side D) | SSent (s : slave_side D) (out : bytes) | SFailed (s : slave_side D).

Definition run_sphases (phases : list (slave_side D -> sflow)) s : sflow :=
  foldl (fun f k => match f with SGo s => k s | _ => f end) (SGo s) phases.

(** [judge] tells what a reply leads to; [None] is a failure. *)

Definition receive_s (i : io) (st : Z) (judge : bytes -> slave_side D -> option (slave_side D)) s : sflow :=
  if state s =? st then
    let s := read_at i s in
    match judge (read_reply i) s with
    | Some s => SGo s
    | None => SFailed s
    end
  else SGo s.

Definition send_s (i : io) (st : Z) (args : list bytes) (next : Z) s : sflow :=
  if state s =? st then
    if negb (io_write_ok i) then SFailed s else SSent (set_state next s) (inline_command args)
  else SGo s.

Definition goto (next : Z) (ok : bytes -> bool) (reply : bytes) s : option (slave_side D) :=
  if ok reply then Some (set_state next s) else None.

Definition after_ping s : Z := if w_crdt_enabled (ss_world s) then REPL_STATE_SEND_GID else REPL_STATE_SEND_AUTH.

Definition gid_judge (reply : bytes) s : option (slave_side D) :=
  let put (b : bool) := Some (set_state REPL_STATE_SEND_AUTH (set_ss_world (set_w_master_is_crdt b (ss_world s)) s)) in
  if head_is 45 reply then
    if strcaseeq (take 20 reply) (str "-ERR unknown command") then put false else None
  else put true.

Definition crdt_judge (reply : bytes) s : option (slave_side D) :=
  Some (set_state REPL_STATE_SEND_PSYNC (set_ss_world (set_w_master_is_crdt (negb (head_is 45 reply)) (ss_world s)) s)).

Definition after_capa s : Z := if w_crdt_enabled (ss_world s) then REPL_STATE_SEND_CRDT else REPL_STATE_SEND_PSYNC.

Definition auth_phase (i : io) (cfg : slave_config) s : sflow :=
  if state s =? REPL_STATE_SEND_AUTH then
    match sc_masterauth cfg with
    | Some auth => send_s i REPL_STATE_SEND_AUTH [str "AUTH"; auth] REPL_STATE_RECEIVE_AUTH s
    | None => SGo (set_state REPL_STATE_SEND_PORT s)
    end
  else SGo s.

Definition skip_ip_phase (cfg : slave_config) s : sflow :=
  if (state s =? REPL_STATE_SEND_IP) && bool_decide (a_ip (sc_announce cfg) = None) then SGo (set_state REPL_STATE_SEND_CAPA s) else SGo s.

Definition any_reply (_ : bytes) : bool := true.

Definition slave_phases (i : io) (cfg : slave_config) (gid : Z) : list (slave_side D -> sflow) :=
  [ receive_s i REPL_STATE_RECEIVE_PONG (fun r s => goto (after_ping s) pong_ok r s);
    send_s i REPL_STATE_SEND_GID [str "CRDT.AUTHGID"; print_Z gid] REPL_STATE_RECEIVE_GID;
    receive_s i REPL_STATE_RECEIVE_GID gid_judge;
    auth_phase i cfg;
    receive_s i REPL_STATE_RECEIVE_AUTH (goto REPL_STATE_SEND_PORT not_minus);
    send_s i REPL_STATE_SEND_PORT [str "REPLCONF"; str "listening-port"; print_Z (a_port (sc_announce cfg))] REPL_STATE_RECEIVE_PORT;
    receive_s i REPL_STATE_RECEIVE_PORT (goto REPL_STATE_SEND_IP any_reply);
    skip_ip_phase cfg;
    send_s i REPL_STATE_SEND_IP [str "REPLCONF"; str "ip-address"; default [] (a_ip (sc_announce cfg))] REPL_STATE_RECEIVE_IP;
    receive_s i REPL_STATE_RECEIVE_IP (goto REPL_STATE_SEND_CAPA any_reply);
    send_s i REPL_STATE_SEND_CAPA [str "REPLCONF"; str "capa"; str "eof"; str "capa"; str "psync2"] REPL_STATE_RECEIVE_CAPA;
    receive_s i REPL_STATE_RECEIVE_CAPA (fun r s => goto (after_capa s) any_reply r s);
    send_s i REPL_STATE_SEND_CRDT [str "REPLCONF"; str "crdt"; str "1"] REPL_STATE_RECEIVE_CRDT;
    receive_s i REPL_STATE_RECEIVE_CRDT crdt_judge ].

Definition handshake_error s : slave_side D := set_state REPL_STATE_CONNECT (set_ss_repl_transfer_s (-1) s).

(** The end of the handler when a full synchronization follows: [sync]: the command
    SYNC is to be sent, for a master that does not know PSYNC; [file_ok]: the
    temporary file was opened. *)

Definition start_transfer (i : io) (file_ok sync : bool) s : res (slave_side D * bytes) :=
  let w := disconnectSlaves (ss_world s) in
  let w := if w_crdt_enabled w then disconnectCrdtSlaves w else w in
  w ← (if negb sync && isSameTypeWithMaster w then r ← freeReplicationBacklog (w_server w); Ok (set_w_server r w) else Ok w);
  let s := set_ss_world w s in
  if sync && negb (io_write_ok i) then Ok (handshake_error s, []) else
  let out := if sync then str "SYNC" ++ CRLF else [] in
  if negb file_ok || negb (io_event_ok i) then Ok (handshake_error s, out) else
  let s := set_state REPL_STATE_TRANSFER s in
  let s := set_ss_repl_transfer_read 0 (set_ss_repl_transfer_size (-1) s) in
  Ok (set_ss_repl_transfer_lastio (w_unixtime w) (set_ss_file (Some []) s), out).

(** The end of the handler, from [REPL_STATE_SEND_PSYNC] on. *)

Definition psync_phase (i : io) (file_ok : bool) (fd : Z) s : res (slave_side D * bytes) :=
  if state s =? REPL_STATE_SEND_PSYNC then
    let '(r, s, out) := psync_request i s in
    match r with
    | PSYNC_WRITE_ERROR => Ok (handshake_error s, [])
    | _ => Ok (set_state REPL_STATE_RECEIVE_PSYNC s, out)
    end
  else if negb (state s =? REPL_STATE_RECEIVE_PSYNC) then Ok (handshake_error s, [])
  else
    '(r, s) ← psync_answer i fd s;
    match r with
    | PSYNC_WAIT_REPLY => Ok (s, [])
    | PSYNC_CONTINUE => w ← cleanSlavePeerBackStream (ss_world s); Ok (set_ss_world w s, [])
    | PSYNC_FULLRESYNC =>
        let w := ss_world s in
        if negb (w_master_is_crdt w) && initedCrdtServer (w_crdt w) && w_crdt_enabled w then Ok (handshake_error s, [])
        else start_transfer i file_ok false s
    | PSYNC_NOT_SUPPORTED => start_transfer i file_ok true s
    | _ => Ok (handshake_error s, [])
    end.

Definition syncWithMaster (i : io) (file_ok : bool) (cfg : slave_config) (fd : Z) s : res (slave_side D * bytes) :=
  if state s =? REPL_STATE_NONE then Ok (s, []) else
  if io_sockerr i then Ok (handshake_error s, []) else
  if state s =? REPL_STATE_CONNECTING then
    let s := set_state REPL_STATE_RECEIVE_PONG s in
    if negb (io_write_ok i) then Ok (handshake_error s, []) else Ok (s, inline_command [str "PING"])
  else
    match run_sphases (slave_phases i cfg (crdt_gid (w_crdt (ss_world s)))) s with
    | SSent s out => Ok (s, out)
    | SFailed s => Ok (handshake_error s, [])
    | SGo s => psync_phase i file_ok fd s
    end.

(** [fd]: the descriptor of the new connection, -1 if there is none. *)

Definition connectWithMaster (fd : Z) (event_ok : bool) s : bool * slave_side D :=
  if fd =? -1 then (false, s) else
  if negb event_ok then (false, s) else
  (true, set_state REPL_STATE_CONNECTING (set_ss_repl_transfer_s fd (set_ss_repl_transfer_lastio (w_unixtime (ss_world s)) s))).

(** ** The transfer of the file *)

(** The operations on the file, and the loading: it is given the contents of the
    file, and tells whether it succeeded and the database of the stream. *)

Record transfer_env := MkTenv {
  te_write_ok : bool;
  te_truncate_ok : bool;
  te_rename_ok : bool;
  te_empty : D;
  te_load : bytes -> world -> D -> res (bool * Z * world * D)
}.

Definition PAYLOAD_BUF : Z := 4096.

(** The announcement: [$<count>] or [$EOF:<mark>].  [None]: an error. *)

Definition bulk_line (line : option bytes) s : option (slave_side D) :=
  match line with
  | None => None
  | Some line =>
      let buf := cstr line in
      match buf with
      | [] => Some (set_ss_repl_transfer_lastio (w_unixtime (ss_world s)) s)
      | c :: rest =>
          if negb (c =? 36) then None
          else if has_prefix (str "EOF:") rest && (CONFIG_RUN_ID_SIZE <=? length (drop 4 rest))%nat then
            Some (set_ss_repl_transfer_size 0 (set_ss_lastbytes (replicate CONFIG_RUN_ID_SIZE 0)
                   (set_ss_eofmark (take CONFIG_RUN_ID_SIZE (drop 4 rest)) (set_ss_usemark true s))))
          else Some (set_ss_repl_transfer_size (strtoll rest) (set_ss_usemark false s))
      end
  end.

(** The last bytes seen after [buf] was read. *)

Definition shift_last (last buf : bytes) : bytes :=
  if (CONFIG_RUN_ID_SIZE <=? length buf)%nat then drop (length buf - CONFIG_RUN_ID_SIZE) buf
  else drop (length buf) last ++ buf.

(** The file is complete: the data is replaced, and the link with the master begins. *)

Definition finish_transfer (env : transfer_env) (file : bytes) s : res (slave_side D) :=
  if negb (te_rename_ok env) then cancelReplicationHandshake s else
  '(ok, stream_db, w, data) ← te_load env file (ss_world s) (te_empty env);
  let s := set_ss_data data (set_ss_world w s) in
  if negb ok then cancelReplicationHandshake s else
  let s := replicationCreateMasterClient (ss_repl_transfer_s s) stream_db (set_ss_file None s) in
  let s := set_state REPL_STATE_CONNECTED s in
  c ← need (ss_master s);
  let w := ss_world s in
  let w := if isSameTypeWithMaster w then
             let w := set_w_server (set_master_repl_offset (l_reploff (mc_link c)) (set_replid (mc_replid c) (w_server w))) w in
             let w := set_w_peers (set_replid (mc_replid c) (w_peers w)) w in
             clearReplicationId2 CRDT (clearReplicationId2 SERVER w)
           else w in
  w ← (if bool_decide (repl_backlog (w_server w) = None) then createReplicationBacklog w else Ok w);
  Ok (set_ss_world w s).

(** [avail]: what the socket has, [None] for an error or the end.  The number of
    bytes taken is returned. *)

Definition bulk_data (env : transfer_env) (avail : option bytes) s : res (slave_side D * nat) :=
  let w := ss_world s in
  w ← (if isSameTypeWithMaster w then r ← freeReplicationBacklog (w_server w); Ok (set_w_server r w) else Ok w);
  let s := set_ss_world w s in
  let left := ss_repl_transfer_size s - ss_repl_transfer_read s in
  let readlen := if ss_usemark s then PAYLOAD_BUF else if left <? PAYLOAD_BUF then left else PAYLOAD_BUF in
  if readlen <? 0 then Undef else
  let buf := match avail with Some b => take (Z.to_nat readlen) b | None => [] end in
  if bool_decide (buf = []) then s ← cancelReplicationHandshake s; Ok (s, 0%nat) else
  let last := shift_last (ss_lastbytes s) buf in
  let s := if ss_usemark s then set_ss_lastbytes last s else s in
  let at_mark := ss_usemark s && bool_decide (last = ss_eofmark s) in
  let s := set_ss_repl_transfer_lastio (w_unixtime w) s in
  if negb (te_write_ok env) then s ← cancelReplicationHandshake s; Ok (s, length buf) else
  file ← need (ss_file s);
  let total := ss_repl_transfer_read s + Z.of_nat (length buf) in
  let s := set_ss_repl_transfer_read total s in
  if at_mark && (negb (te_truncate_ok env) || (total <? Z.of_nat CONFIG_RUN_ID_SIZE)) then
    s ← cancelReplicationHandshake s; Ok (s, length buf)
  else
    let file := if at_mark then take (Z.to_nat (total - Z.of_nat CONFIG_RUN_ID_SIZE)) (file ++ buf) else file ++ buf in
    let s := set_ss_file (Some file) s in
    let eof_reached := at_mark || (negb (ss_usemark s) && (total =? ss_repl_transfer_size s)) in
    if eof_reached then s ← finish_transfer env file s; Ok (s, length buf) else Ok (s, length buf).

(** One event on the socket: [line] is what [syncReadLine] gives. *)

Definition readSyncBulkPayload (env : transfer_env) (line avail : option bytes) s : res (slave_side D * nat) :=
  if ss_repl_transfer_size s =? -1 then
    match bulk_line line s with
    | Some s => Ok (s, 0%nat)
    | None => s ← cancelReplicationHandshake s; Ok (s, 0%nat)
    end
  else bulk_data env avail s.

(** ** The cron *)

(** [rc_now] is [time(NULL)]; [rc_fd] and [rc_event_ok] are what a new connection
    gives; [rc_socket_child]: the child that saves writes to the sockets; [rc_idle]: no
    child process runs; [rc_info]: the replication information for the file is there;
    [rc_outcome]: what starting the save gives; [rc_min_slaves] and [rc_max_lag] are the
    options for the writes. *)

Record rcron_env := MkRc {
  rc_now : Z;
  rc_fd : Z;
  rc_event_ok : bool;
  rc_loops : Z;
  rc_ping_period : Z;
  rc_newid : bytes;
  rc_socket_child : bool;
  rc_idle : bool;
  rc_diskless : bool;
  rc_delay : Z;
  rc_write_ok : Z -> bool;
  rc_info : bool;
  rc_outcome : save_outcome;
  rc_min_slaves : Z;
  rc_max_lag : Z
}.

Definition cron_handshake (cfg : slave_config) (e : rcron_env) s : res (slave_side D) :=
  let host := bool_decide (w_masterhost (ss_world s) <> None) in
  let silent := rc_now e - ss_repl_transfer_lastio s >? sc_repl_timeout cfg in
  if host && ((state s =? REPL_STATE_CONNECTING) || slaveIsInHandshakeState s) && silent then cancelReplicationHandshake s else Ok s.

Definition cron_transfer (cfg : slave_config) (e : rcron_env) s : res (slave_side D) :=
  let host := bool_decide (w_masterhost (ss_world s) <> None) in
  let silent := rc_now e - ss_repl_transfer_lastio s >? sc_repl_timeout cfg in
  if host && (state s =? REPL_STATE_TRANSFER) && silent then cancelReplicationHandshake s else Ok s.

Definition cron_connected (cfg : slave_config) (e : rcron_env) s : res (slave_side D) :=
  if bool_decide (w_masterhost (ss_world s) <> None) && (state s =? REPL_STATE_CONNECTED) then
    c ← need (ss_master s);
    if rc_now e - mc_lastinteraction c >? sc_repl_timeout cfg then free_master s else Ok s
  else Ok s.

Definition cron_connect (e : rcron_env) s : slave_side D :=
  if state s =? REPL_STATE_CONNECT then snd (connectWithMaster (rc_fd e) (rc_event_ok e) s) else s.

Definition cron_send_ack s : slave_side D :=
  match ss_master s with
  | Some c => if bool_decide (w_masterhost (ss_world s) <> None) && negb (mc_pre_psync c)
              then set_ss_master (Some (replicationSendAck c)) s else s
  | None => s
  end.

(** The slaves of this server: a PING, then those that are silent are dropped. *)

Definition cron_ping_slaves (e : rcron_env) (w : world) : res world :=
  if rc_ping_period e =? 0 then Undef else
  if (Z.rem (rc_loops e) (rc_ping_period e) =? 0) && negb (bool_decide (slaves (w_server w) = []))
  then replicationFeedSlaves None (slaveseldb (w_server w)) [RSds (str "PING")] w else Ok w.

(** A newline for those that wait for the file. *)

Definition is_presync (e : rcron_env) (c : slave) : bool :=
  (sl_replstate c =? SLAVE_STATE_WAIT_BGSAVE_START) || ((sl_replstate c =? SLAVE_STATE_WAIT_BGSAVE_END) && negb (rc_socket_child e)).

Definition cron_newlines (e : rcron_env) (w : world) : world :=
  let r := w_server w in
  set_w_server (set_slaves (map (fun c => if is_presync e c && rc_write_ok e (sl_id c) then set_sl_wire (sl_wire c ++ [LF]) c else c) (slaves r)) r) w.

Definition silent_slave (cfg : slave_config) (w : world) (c : slave) : bool :=
  (sl_replstate c =? SLAVE_STATE_ONLINE) && negb (sl_flag_pre_psync c) && (w_unixtime w - sl_repl_ack_time c >? sc_repl_timeout cfg).

Definition cron_drop_slaves (cfg : slave_config) (w : world) : world :=
  let r := w_server w in
  let kept := List.filter (fun c => negb (silent_slave cfg w c)) (slaves r) in
  let r' := set_slaves kept r in
  set_w_server (if bool_decide (kept = []) && negb (bool_decide (slaves r = [])) then set_repl_no_slaves_since (w_unixtime w) r' else r') w.

(** Only a server without CRDTs gives its backlog up here. *)

Definition cron_free_backlog (e : rcron_env) (w : world) : res world :=
  let r := w_server w in
  if negb (w_crdt_enabled w) && bool_decide (slaves r = []) && negb (repl_backlog_time_limit r =? 0) && bool_decide (repl_backlog r <> None) &&
     bool_decide (w_masterhost w = None) && (w_unixtime w - repl_no_slaves_since r >? repl_backlog_time_limit r) then
    let w := clearReplicationId2 SERVER (changeReplicationId SERVER (rc_newid e) w) in
    r ← freeReplicationBacklog (w_server w); Ok (set_w_server r w)
  else Ok w.

(** The longest wait, the number of those that wait, and what they all can. *)

Fixpoint longest_wait (unixtime : Z) (l : list slave) (max_idle : Z) (n : nat) (mincapa : Z) : Z * nat * Z :=
  match l with
  | [] => (max_idle, n, mincapa)
  | c :: l =>
      if sl_replstate c =? SLAVE_STATE_WAIT_BGSAVE_START then
        let idle := unixtime - sl_lastinteraction c in
        longest_wait unixtime l (if idle >? max_idle then idle else max_idle) (S n)
          (if mincapa =? -1 then sl_capa c else Z.land mincapa (sl_capa c))
      else longest_wait unixtime l max_idle n mincapa
  end.

(** [startBgsaveForReplication], with the disk or the sockets of the slaves as
    target. *)

Definition start_save (e : rcron_env) (mincapa : Z) (r : replServer) : replServer * list slave :=
  if rc_diskless e && negb (Z.land mincapa SLAVE_CAPA_EOF =? 0) then
    let '(ok, r) := if rc_info e then rdbSaveToSlavesSockets (rc_write_ok e) (rc_outcome e) r else (false, r) in
    if negb ok then drop_waiting SERVER r else (r, [])
  else
    let '(_, r, dropped) := startBgsaveForReplication (rc_write_ok e)
                              (rc_info e && match rc_outcome e with SaveStarted => true | _ => false end) r in
    (r, dropped).

Definition cron_start_save (e : rcron_env) (w : world) : world * list slave :=
  if negb (rc_idle e) then (w, []) else
  let '(max_idle, n, mincapa) := longest_wait (w_unixtime w) (slaves (w_server w)) 0 0 (-1) in
  if negb (n =? 0)%nat && (negb (rc_diskless e) || (max_idle >? rc_delay e)) then
    let '(r, dropped) := start_save e mincapa (w_server w) in
    (set_w_server r w, dropped)
  else (w, []).

(** [None]: the options are off and the count is left as it is. *)

Definition refreshGoodSlavesCount (e : rcron_env) (unixtime : Z) (r : replServer) : option Z :=
  if (rc_min_slaves e =? 0) || (rc_max_lag e =? 0) then None else
  Some (Z.of_nat (length (List.filter
    (fun c => (sl_replstate c =? SLAVE_STATE_ONLINE) && (unixtime - sl_repl_ack_time c <=? rc_max_lag e)) (slaves r)))).

(** The slave, the slaves that were dropped, and the count of the good ones. *)

Definition replicationCron (cfg : slave_config) (e : rcron_env) s : res (slave_side D * list slave * option Z) :=
  s ← cron_handshake cfg e s;
  s ← cron_transfer cfg e s;
  s ← cron_connected cfg e s;
  let s := cron_send_ack (cron_connect e s) in
  w ← cron_ping_slaves e (ss_world s);
  w ← cron_free_backlog e (cron_drop_slaves cfg (cron_newlines e w));
  let '(w, dropped) := cron_start_save e w in
  Ok (set_ss_world w s, dropped, refreshGoodSlavesCount e (w_unixtime w) (w_server w)).

End slave.
