(* ===== verification/SlaveTheory.v ===== *)
(** * Lemmas on the slave's side of the replication

    A slave that becomes a master, and the invariant of the link with the master. *)

From S2P Require Import Prelude Util Sds VectorClock VcTheory VcText VcClaims Proxy CrdtServer Gc Keyspace Backlog Resp World Feed Psync PeerState PeerLink Handshake RdbInfo Cron Slave.

(** ** A slave becomes a master *)

(** The stream goes on under a new id; the old one is good up to here. *)

Record promoted (newid : bytes) (r r' : replServer) : Prop := {
  pr_backlog : repl_backlog r' = repl_backlog r /\ repl_backlog_size r' = repl_backlog_size r /\ repl_backlog_histlen r' = repl_backlog_histlen r /\
    repl_backlog_idx r' = repl_backlog_idx r /\ repl_backlog_off r' = repl_backlog_off r;
  pr_offset : master_repl_offset r' = master_repl_offset r;
  pr_ids : replid r' = newid /\ replid2 r' = replid r /\ second_replid_offset r' = master_repl_offset r + 1;
  pr_slaves : slaves r' = [];
  pr_sel : slaveseldb r' = -1
}.

Lemma promoted_rep newid r r' stream : promoted newid r r' -> backlog_rep r stream -> backlog_rep r' stream.
Proof. intros [(E1 & E2 & E3 & E4 & E5) E6 _ _ _]. unfold backlog_rep. by rewrite E1, E2, E3, E4, E5, E6. Qed.

(** The position in the stream of the peer is kept in the cached link. *)

Definition link_kept (p p' : peer) : Prop :=
  repl_state p' = REPL_STATE_NONE /\
  match master p with
  | Some m => master p' = None /\ exists m', cached_master p' = Some m' /\ cl_reploff m' = cl_reploff m /\ cl_replid m' = cl_replid m
  | None => master p' = None /\ cached_master p' = cached_master p
  end.

(** The links a slave keeps for its peers. *)

Definition slave_links (ps : gmap Z peer) : Prop :=
  map_Forall (fun g p => 0 <= g < 16 /\ match master p with Some m => cl_crdt_master m = true /\ cl_gid m = g | None => True end) ps.

Lemma set_peer_masters m g q w : set_peer g q (set_masters m w) = set_masters (<[g := q]> m) w.
Proof. by destruct w as [? ? []]. Qed.

Lemma getPeerMaster_masters m g w : 0 <= g < 16 -> getPeerMaster g (set_masters m w) = Ok (m !! g).
Proof. intros Hg. by rewrite getPeerMaster_valid. Qed.

Lemma cache_one m p m2 w :
  0 <= cl_gid m < 16 -> cl_crdt_master m = true -> master p = Some m -> m2 !! cl_gid m = Some p ->
  exists p', (w2 ← crdtReplicationCacheMaster m (set_peer (cl_gid m) (crdtReplicationDiscardCachedMaster p) (set_masters m2 w));
              Ok (upd_peer (cl_gid m) (set_repl_state REPL_STATE_NONE) w2)) = Ok (set_masters (<[cl_gid m := p']> m2) w) /\ link_kept p p'.
Proof.
  intros Hg Hf Em Ep. assert (to_int (cl_gid m) = cl_gid m) as Eg by (apply swrap_id; simpl; lia).
  unfold crdtReplicationCacheMaster. rewrite Hf. cbn [negb]. rewrite set_peer_masters, getPeerMaster_masters by done. rewrite lookup_insert_eq.
  cbn [mbind res_bind need]. unfold crdtReplicationHandleMasterDisconnection. rewrite Eg, set_peer_masters, getPeerMaster_masters by done.
  rewrite lookup_insert_eq. cbn [mbind res_bind]. rewrite set_peer_masters. unfold upd_peer.
  cbn [w_crdt set_masters set_w_crdt crdtMasters set_crdtMasters]. rewrite lookup_insert_eq. fold (set_masters m2 w).
  change (set_w_crdt (set_crdtMasters ?x (w_crdt w)) w) with (set_masters x w). rewrite set_peer_masters, !insert_insert_eq.
  eexists. split; [reflexivity|]. split; [done|]. rewrite Em. split; [done|]. simpl. 
  assert (master (crdtReplicationDiscardCachedMaster p) = Some m) as -> by (unfold crdtReplicationDiscardCachedMaster; by destruct (cached_master p)).
  eexists. split; [reflexivity|done].
Qed.

Lemma cache_all w :
  slave_links (crdtMasters (w_crdt w)) ->
  exists m', crdtReplicationCacheAllMaster w = Ok (set_masters m' w) /\
    forall g, option_Forall2 link_kept (crdtMasters (w_crdt w) !! g) (m' !! g).
Proof.
  intros Hl. unfold crdtReplicationCacheAllMaster.
  destruct (each_peer_spec (fun g p w =>
    w ← match master p with
        | Some m => crdtReplicationCacheMaster m (set_peer g (crdtReplicationDiscardCachedMaster p) w)
        | None => Ok w
        end;
    Ok (upd_peer g (set_repl_state REPL_STATE_NONE) w)) (fun _ => link_kept) w all_gids (crdtMasters (w_crdt w)) (NoDup_seqZ _ _)) as (m' & E & Hout & Hin).
  - intros g p m2 Hg Hp Hp2. destruct (Hl g p Hp) as [Hr Hm]. destruct (master p) as [m|] eqn:Em.
    + destruct Hm as [Hf <-]. by apply cache_one.
    + cbn [mbind res_bind]. unfold upd_peer. cbn [w_crdt set_masters set_w_crdt crdtMasters set_crdtMasters]. rewrite Hp2.
      change (set_w_crdt (set_crdtMasters ?x (w_crdt w)) w) with (set_masters x w). rewrite set_peer_masters.
      eexists. split; [reflexivity|]. split; [done|]. rewrite Em. by split.
  - exists m'. assert (set_masters (crdtMasters (w_crdt w)) w = w) as Ew by (by destruct w as [? ? []]). rewrite Ew in E. split; [exact E|].
    intros g. destruct (decide (g ∈ all_gids)) as [Hg|Hg]; [by apply Hin|]. rewrite (Hout g Hg).
    destruct (crdtMasters (w_crdt w) !! g) as [p|] eqn:Ep; [|constructor]. destruct (Hl g p Ep) as [Hr _]. exfalso. apply Hg, elem_of_seqZ. change (MAX_PEERS + 1) with 16. lia.
Qed.

(** A slave in the state [CONNECTED], or trying to be. *)

Record slave_ready {D : Type} (s : slave_side D) : Prop := {
  sr_host : w_masterhost (ss_world s) <> None;
  sr_link : match ss_master s with
            | Some c => mc_closing c = false /\ ss_cached_master s = None /\ state s = REPL_STATE_CONNECTED
            | None => True
            end;
  sr_crdt : server_ok (w_crdt (ss_world s)) /\ cache_ok (w_crdt (ss_world s));
  sr_peers : slave_links (crdtMasters (w_crdt (ss_world s)))
}.

Lemma jump_keeps qps s s' : jumpVectorClock qps s = Ok s' -> crdtMasters s' = crdtMasters s /\ crdt_gid s' = crdt_gid s.
Proof.
  unfold jumpVectorClock, incrLocalVcUnit. destruct (_ || _); [done|]. destruct (incrLogicClock _ _ _); cbn [mbind res_bind]; [|done..].
  destruct (negb _); [|by intros [= <-]]. destruct (incrLogicClock _ _ _); cbn [mbind res_bind]; [|done..]. by intros [= <-].
Qed.

Lemma jump_ok qps s :
  server_ok s -> cache_ok s -> 0 <= qps < 2 ^ 45 ->
  exists s', jumpVectorClock qps s = Ok s' /\ server_ok s' /\ cache_ok s' /\
    vc_map (vectorClock s') = alter (fun c => uwrap 56 (c + Z.max (qps * 86400) 1000000)) (crdt_gid s) (vc_map (vectorClock s)).
Proof.
  intros Hs Hc Hq. unfold jumpVectorClock. replace (qps * 60 * 60 * 24) with (qps * 86400) by lia.
  rewrite Z.gtb_ltb, !(proj2 (Z.ltb_ge _ _)) by (unfold LLONG_MIN, LLONG_MAX; lia). cbn [orb].
  assert (max_clock (qps * 86400) 1000000 = Z.max (qps * 86400) 1000000) as ->.
  { unfold max_clock. rewrite Z.gtb_ltb. destruct (Z.ltb_spec 1000000 (qps * 86400)); lia. }
  apply incrLocalVcUnit_spec; [done|done|]. unfold LLONG_MIN. lia.
Qed.

Lemma disconnect_promoted newid unixtime r r' :
  repl_backlog r' = repl_backlog r /\ repl_backlog_size r' = repl_backlog_size r /\ repl_backlog_histlen r' = repl_backlog_histlen r /\
    repl_backlog_idx r' = repl_backlog_idx r /\ repl_backlog_off r' = repl_backlog_off r ->
  master_repl_offset r' = master_repl_offset r -> replid r' = newid /\ replid2 r' = replid r /\ second_replid_offset r' = master_repl_offset r + 1 ->
  promoted newid r (set_repl_no_slaves_since unixtime (set_slaveseldb (-1) (disconnect unixtime r'))).
Proof. intros H1 H2 H3. unfold disconnect. case_bool_decide as Hs; by split. Qed.

Lemma cancel_ok {D : Type} (s : slave_side D) :
  exists s', cancelReplicationHandshake s = Ok s' /\ ss_master s' = ss_master s /\ ss_cached_master s' = ss_cached_master s /\
    ss_world s' = set_w_repl_state (state s') (ss_world s) /\ ss_data s' = ss_data s /\
    state s' = (if (state s =? REPL_STATE_TRANSFER) || ((state s =? REPL_STATE_CONNECTING) || slaveIsInHandshakeState s) then REPL_STATE_CONNECT else state s) /\
    (ss_file s' = None \/ state s <> REPL_STATE_TRANSFER /\ ss_file s' = ss_file s).
Proof.
  unfold cancelReplicationHandshake, replicationAbortSyncTransfer. destruct (Z.eqb_spec (state s) REPL_STATE_TRANSFER) as [E|E].
  - cbn [c_assert mbind res_bind]. eexists. split; [reflexivity|]. split; [done|]. split; [done|]. split; [by destruct s as [[]]|]. split; [done|]. split; [done|by left].
  - destruct (_ || _); (eexists; split; [reflexivity|]; split; [done|]; split; [done|]; split; [by destruct s as [[]]|]; split; [done|]; split; [done|by right]).
Qed.

(** What the slave is before and after. *)

Record became_master {D : Type} (newid : bytes) (qps : Z) (s s' : slave_side D) : Prop := {
  bm_host : w_masterhost (ss_world s') = None /\ state s' = REPL_STATE_NONE /\ w_repl_slave_repl_all (ss_world s') = false;
  bm_link : ss_master s' = None /\ ss_cached_master s' = None;
  bm_streams : forall i, promoted newid (get_srv i (ss_world s)) (get_srv i (ss_world s'));
  bm_links : forall g, option_Forall2 link_kept (crdtMasters (w_crdt (ss_world s)) !! g) (crdtMasters (w_crdt (ss_world s')) !! g);
  bm_gid : crdt_gid (w_crdt (ss_world s')) = crdt_gid (w_crdt (ss_world s));
  bm_clock : state s = REPL_STATE_CONNECTED ->
    vc_map (vectorClock (w_crdt (ss_world s'))) =
    alter (fun c => uwrap 56 (c + Z.max (qps * 86400) 1000000)) (crdt_gid (w_crdt (ss_world s))) (vc_map (vectorClock (w_crdt (ss_world s))));
  bm_data : ss_data s' = ss_data s
}.

Lemma unset_master {D : Type} newid qps (s : slave_side D) :
  slave_ready s -> 0 <= qps < 2 ^ 45 -> exists s', replicationUnsetMaster newid qps s = Ok s' /\ became_master newid qps s s'.
Proof.
  intros [Hh Hl [Hs Hc] Hp] Hq. unfold replicationUnsetMaster. rewrite bool_decide_false by done.
  assert (exists c, (if state s =? REPL_STATE_CONNECTED then c ← jumpVectorClock qps (w_crdt (ss_world s)); Ok (set_ss_world (set_w_crdt c (ss_world s)) s) else Ok s) =
      Ok (set_ss_world (set_w_crdt c (ss_world s)) s) /\ crdtMasters c = crdtMasters (w_crdt (ss_world s)) /\ crdt_gid c = crdt_gid (w_crdt (ss_world s)) /\
      (state s = REPL_STATE_CONNECTED -> vc_map (vectorClock c) =
        alter (fun c => uwrap 56 (c + Z.max (qps * 86400) 1000000)) (crdt_gid (w_crdt (ss_world s))) (vc_map (vectorClock (w_crdt (ss_world s)))))) as (c & -> & Ec & Eg & Ev).
  { destruct (Z.eqb_spec (state s) REPL_STATE_CONNECTED) as [E|E].
    - destruct (jump_ok qps _ Hs Hc Hq) as (c & Ej & _ & _ & Ev). rewrite Ej. cbn [mbind res_bind]. exists c. split; [done|].
      destruct (jump_keeps _ _ _ Ej). by split.
    - exists (w_crdt (ss_world s)). split; [by destruct s as [[]]|]. by split. }
  cbn [mbind res_bind]. cbv zeta. set (w1 := shiftReplicationId CRDT newid _). set (s1 := set_ss_world w1 _).
  assert (exists s2, (match ss_master s1 with Some _ => s ← free_master s1; Ok (set_ss_master None s) | None => Ok s1 end) = Ok s2 /\ ss_master s2 = None /\
    (ss_world s2 = w1 \/ ss_world s2 = set_w_repl_state REPL_STATE_CONNECT w1) /\ ss_data s2 = ss_data s) as (s2 & -> & E2 & Ew2 & Ed2).
  { change (ss_master s1) with (ss_master s). destruct (ss_master s) as [mc|] eqn:Em.
    - destruct Hl as (Hcl & Hca & _). unfold free_master. change (ss_master s1) with (ss_master s). rewrite Em, Hcl. cbn [negb]. unfold replicationCacheMaster.
      change (ss_master s1) with (ss_master s). change (ss_cached_master s1) with (ss_cached_master s). rewrite Em, Hca.
      rewrite !bool_decide_true by done. cbn [andb c_assert mbind res_bind]. eexists. split; [reflexivity|]. split; [done|]. split; [by right|done].
    - exists s1. split; [done|]. split; [done|]. split; [by left|done]. }
  cbn [mbind res_bind]. destruct (cancel_ok (replicationDiscardCachedMaster s2)) as (s3 & -> & E3 & C3 & W3 & D3 & _). cbn [mbind res_bind]. cbv zeta.
  assert (exists st, ss_world s3 = set_w_repl_state st w1) as [st Ew3].
  { rewrite W3. change (ss_world (replicationDiscardCachedMaster s2)) with (ss_world s2). destruct Ew2 as [-> | ->]; by eexists. }
  rewrite Ew3. set (w4 := disconnectCrdtSlaves _). assert (crdtMasters (w_crdt w4) = crdtMasters (w_crdt (ss_world s))) as E4 by exact Ec.
  destruct (cache_all w4) as (m' & -> & Hm); [by rewrite E4|]. cbn [mbind res_bind]. rewrite E4 in Hm.
  eexists. split; [reflexivity|]. split; [done|split; [exact (eq_trans E3 E2)|exact C3]| |exact Hm|exact Eg|exact Ev|exact (eq_trans D3 Ed2)].
  intros [|]; apply disconnect_promoted; done.
Qed.
