(* ===== verification/Transfer.v ===== *)
(** * The transfer of the file from the master

    What [readSyncBulkPayload] leaves in the file and in the socket, however the
    network cuts what the master sends. *)

From S2P Require Import Prelude Util Sds VectorClock VcTheory VcText VcClaims Proxy CrdtServer Gc Keyspace Backlog Resp World Feed Psync PeerState PeerLink MasterLink Handshake RdbInfo Cron Slave SlaveTheory.

(** ** The last bytes *)

Definition last_n (n : nat) (l : bytes) : bytes := drop (length l - n) l.

Lemma shift_last_spec seen buf :
  (CONFIG_RUN_ID_SIZE <= length seen)%nat -> shift_last (last_n CONFIG_RUN_ID_SIZE seen) buf = last_n CONFIG_RUN_ID_SIZE (seen ++ buf).
Proof.
  intros H. unfold shift_last, last_n. rewrite length_app. destruct (Nat.leb_spec CONFIG_RUN_ID_SIZE (length buf)) as [Hb|Hb].
  - rewrite drop_app_ge by lia. f_equal. lia.
  - rewrite drop_app_le by lia. f_equal. rewrite drop_drop. f_equal. lia.
Qed.

(** The mark is found where it is, and nowhere before. *)

Lemma last_found payload mark :
  length mark = CONFIG_RUN_ID_SIZE -> last_n CONFIG_RUN_ID_SIZE (replicate CONFIG_RUN_ID_SIZE 0 ++ payload ++ mark) = mark.
Proof. intros H. unfold last_n. rewrite app_assoc. rewrite drop_app_ge; rewrite !length_app; [|lia]. rewrite H. replace (_ - _)%nat with O by lia. done. Qed.

Definition mark_free (payload mark : bytes) : Prop :=
  forall k, (k < length payload)%nat -> take CONFIG_RUN_ID_SIZE (drop k (payload ++ mark)) <> mark.

Lemma last_long mark x :
  0 ∉ mark -> last_n CONFIG_RUN_ID_SIZE (replicate CONFIG_RUN_ID_SIZE 0 ++ x) = mark -> (CONFIG_RUN_ID_SIZE <= length x)%nat.
Proof.
  intros Hz E. destruct (decide (CONFIG_RUN_ID_SIZE <= length x)%nat) as [|H]; [done|]. destruct Hz. rewrite <- E. unfold last_n.
  rewrite length_app, length_replicate, drop_app_le by (rewrite length_replicate; lia). apply elem_of_app. left. rewrite drop_replicate. apply elem_of_replicate. split; [done|lia].
Qed.

Lemma last_not_found payload mark k :
  length mark = CONFIG_RUN_ID_SIZE -> 0 ∉ mark -> mark_free payload mark -> (k < length (payload ++ mark))%nat ->
  last_n CONFIG_RUN_ID_SIZE (replicate CONFIG_RUN_ID_SIZE 0 ++ take k (payload ++ mark)) <> mark.
Proof.
  intros Hm Hz Hf Hk E. pose proof (last_long mark _ Hz E) as Hl. rewrite length_app in Hk. rewrite length_take_le in Hl by (rewrite length_app; lia).
  unfold last_n in E. rewrite length_app, length_replicate, length_take_le in E by (rewrite length_app; lia).
  rewrite drop_app_ge, length_replicate in E by (rewrite length_replicate; lia). apply (Hf (k - CONFIG_RUN_ID_SIZE)%nat); [lia|].
  rewrite <- E at 2. rewrite take_drop_commute. f_equal; [lia|]. f_equal. lia.
Qed.

(** ** One step *)

Section transfer.

Context {D : Type} (env : transfer_env (D := D)).

Implicit Types s : slave_side D.

Definition freed (w : world) : world := if isSameTypeWithMaster w then set_w_server (set_repl_backlog None (w_server w)) w else w.

Lemma free_backlog w :
  slaves (w_server w) = [] ->
  (if isSameTypeWithMaster w then r ← freeReplicationBacklog (w_server w); Ok (set_w_server r w) else Ok w) = Ok (freed w).
Proof. intros H. unfold freed, freeReplicationBacklog. rewrite bool_decide_true by done. by destruct (isSameTypeWithMaster w). Qed.

Lemma freed_idem w : freed (freed w) = freed w.
Proof. unfold freed. destruct (isSameTypeWithMaster w) eqn:E; [|by rewrite E]. by destruct (isSameTypeWithMaster _). Qed.

Lemma take_portion a b (l : bytes) : take (length (take a (take b l))) l = take a (take b l).
Proof.
  rewrite take_take, length_take. destruct (decide (Nat.min a b <= length l)%nat); [by rewrite Nat.min_l|]. by rewrite Nat.min_r, !take_ge by lia.
Qed.

(** The bytes an event takes. *)

Definition portion s0 (k : nat) (avail : bytes) : bytes :=
  let left := ss_repl_transfer_size s0 - Z.of_nat k in
  take (Z.to_nat (if ss_usemark s0 then PAYLOAD_BUF else if left <? PAYLOAD_BUF then left else PAYLOAD_BUF)) avail.

Lemma portion_spec body s0 k n :
  (k < length body)%nat -> (0 < n)%nat -> (ss_usemark s0 = false -> Z.of_nat k < ss_repl_transfer_size s0) ->
  let buf := portion s0 k (take n (drop k body)) in
  (0 < length buf <= length body - k)%nat /\ take k body ++ buf = take (k + length buf) body /\
  (ss_usemark s0 = false -> Z.of_nat (k + length buf) <= ss_repl_transfer_size s0).
Proof.
  intros Hk Hn Hc buf. unfold portion in buf. set (readlen := Z.to_nat _) in buf.
  assert (0 < readlen)%nat as Hr.
  { unfold readlen. destruct (ss_usemark s0); [unfold PAYLOAD_BUF; lia|]. specialize (Hc eq_refl). destruct (Z.ltb_spec (ss_repl_transfer_size s0 - Z.of_nat k) PAYLOAD_BUF); unfold PAYLOAD_BUF; lia. }
  assert (length buf = Nat.min readlen (Nat.min n (length body - k))) as Elen by (unfold buf; rewrite !length_take, length_drop; done).
  split; [lia|]. split.
  - assert (take (length buf) (drop k body) = buf) as E by apply take_portion. rewrite <- E at 1. apply take_take_drop.
  - intros Hu. assert (Z.of_nat readlen <= ss_repl_transfer_size s0 - Z.of_nat k); [|lia]. specialize (Hc Hu). unfold readlen. rewrite Hu.
    destruct (Z.ltb_spec (ss_repl_transfer_size s0 - Z.of_nat k) PAYLOAD_BUF); unfold PAYLOAD_BUF in *; lia.
Qed.

(** Where the transfer ends, and the file at this point. *)

Definition ended (body : bytes) s0 (k : nat) : bool :=
  if ss_usemark s0 then bool_decide (last_n CONFIG_RUN_ID_SIZE (replicate CONFIG_RUN_ID_SIZE 0 ++ take k body) = ss_eofmark s0)
  else Z.of_nat k =? ss_repl_transfer_size s0.

Definition received (s0 : slave_side D) (body : bytes) (k : nat) : bytes :=
  if ss_usemark s0 then take (k - CONFIG_RUN_ID_SIZE) body else take k body.

(** What the loading needs of the slave, and [k] bytes of [body] received since
    [s0]. *)

Definition alike (s0 s : slave_side D) : Prop :=
  ss_master_initial_offset s = ss_master_initial_offset s0 /\ ss_master_replid s = ss_master_replid s0 /\
  ss_repl_transfer_s s = ss_repl_transfer_s s0 /\ ss_cached_master s = ss_cached_master s0 /\ ss_data s = ss_data s0.

Record receiving (body : bytes) (s0 : slave_side D) (k : nat) (s : slave_side D) : Prop := {
  rv_world : freed (ss_world s) = freed (ss_world s0) /\ slaves (w_server (ss_world s)) = [] /\ state s = REPL_STATE_TRANSFER;
  rv_file : (k <= length body)%nat /\ ss_file s = Some (take k body) /\ ss_repl_transfer_read s = Z.of_nat k;
  rv_form : ss_repl_transfer_size s = ss_repl_transfer_size s0 /\ ss_usemark s = ss_usemark s0 /\ ss_eofmark s = ss_eofmark s0;
  rv_last : ss_usemark s0 = true -> ss_lastbytes s = last_n CONFIG_RUN_ID_SIZE (replicate CONFIG_RUN_ID_SIZE 0 ++ take k body);
  rv_kept : alike s0 s
}.

Lemma freed_kept w : slaves (w_server (freed w)) = slaves (w_server w) /\ w_repl_state (freed w) = w_repl_state w.
Proof. unfold freed. by destruct (isSameTypeWithMaster w). Qed.

Lemma receiving_step body s0 k s s1 io :
  (k <= length body)%nat -> freed (ss_world s) = freed (ss_world s0) -> slaves (w_server (ss_world s)) = [] -> state s = REPL_STATE_TRANSFER ->
  ss_usemark s1 = ss_usemark s0 -> ss_eofmark s1 = ss_eofmark s0 -> ss_repl_transfer_size s1 = ss_repl_transfer_size s0 -> ss_world s1 = freed (ss_world s0) -> alike s0 s1 ->
  (ss_usemark s0 = true -> ss_lastbytes s1 = last_n CONFIG_RUN_ID_SIZE (replicate CONFIG_RUN_ID_SIZE 0 ++ take k body)) ->
  receiving body s0 k (set_ss_file (Some (take k body)) (set_ss_repl_transfer_read (Z.of_nat k) (set_ss_repl_transfer_lastio io s1))).
Proof.
  intros Hk W1 W2 W3 G2 G3 G5 G6 K1 Hl. destruct (freed_kept (ss_world s)) as [Fs Fr]. split; [|done|done|exact Hl|exact K1].
  unfold state in *. cbn [set_ss_file set_ss_repl_transfer_read set_ss_repl_transfer_lastio ss_world]. rewrite G6, freed_idem. split; [done|].
  by rewrite <- W1, Fs, Fr.
Qed.

Lemma bulk_step body s0 k s n :
  receiving body s0 k s -> te_write_ok env = true -> te_truncate_ok env = true ->
  (k < length body)%nat -> (0 < n)%nat -> (ss_usemark s0 = false -> Z.of_nat k < ss_repl_transfer_size s0) ->
  (ss_usemark s0 = true -> forall j, ended body s0 j = true -> (CONFIG_RUN_ID_SIZE <= j)%nat) ->
  let buf := portion s0 k (take n (drop k body)) in
  let k' := (k + length buf)%nat in
  if ended body s0 k' then
    exists s', bulk_data env (Some (take n (drop k body))) s = (s ← finish_transfer env (received s0 body k') s'; Ok (s, length buf)) /\
      ss_world s' = freed (ss_world s0) /\ alike s0 s'
  else exists s', bulk_data env (Some (take n (drop k body))) s = Ok (s', length buf) /\ receiving body s0 k' s'.
Proof.
  intros [(W1 & W2 & W3) (F1 & F2 & F3) (S1 & S2 & S3) L K] Hw Ht Hk Hn Hc Hm buf k'. destruct (portion_spec body s0 k n Hk Hn Hc) as (Hlen & Efile & Hcount). fold buf k' in Hlen, Efile, Hcount.
  assert (ss_usemark s0 = true -> shift_last (ss_lastbytes s) buf = last_n CONFIG_RUN_ID_SIZE (replicate CONFIG_RUN_ID_SIZE 0 ++ take k' body)) as Elast.
  { intros Hu. rewrite (L Hu), shift_last_spec by (rewrite length_app, length_replicate; lia). by rewrite <- app_assoc, Efile. }
  assert (buf <> []) as Hne by (intros E; rewrite E in Hlen; simpl in Hlen; lia).
  unfold bulk_data. rewrite (free_backlog _ W2), W1. cbn [mbind res_bind]. cbv zeta. cbn [set_ss_world ss_usemark ss_repl_transfer_size ss_repl_transfer_read ss_lastbytes].
  rewrite S1, S2, F3. change (take (Z.to_nat _) (take n (drop k body))) with buf.
  rewrite (proj2 (Z.ltb_ge _ 0)). 2: { destruct (ss_usemark s0); [done|]. specialize (Hc eq_refl). destruct (_ <? _); unfold PAYLOAD_BUF; lia. }
  rewrite bool_decide_false by done. rewrite Hw. cbn [negb]. set (s1 := if ss_usemark s0 then _ else _).
  assert (ss_file s1 = Some (take k body) /\ ss_usemark s1 = ss_usemark s0 /\ ss_eofmark s1 = ss_eofmark s0 /\ ss_repl_transfer_read s1 = Z.of_nat k /\
    ss_repl_transfer_size s1 = ss_repl_transfer_size s0 /\ ss_world s1 = freed (ss_world s0) /\ alike s0 s1) as (G1 & G2 & G3 & G4 & G5 & G6 & K1) by (unfold s1; destruct (ss_usemark s0); done).
  assert (ss_usemark s0 = true -> ss_lastbytes s1 = shift_last (ss_lastbytes s) buf) as G7 by (intros Hu; unfold s1; by rewrite Hu).
  clearbody s1. cbn [set_ss_repl_transfer_lastio set_ss_repl_transfer_read set_ss_file ss_file ss_repl_transfer_read ss_usemark ss_repl_transfer_size ss_eofmark].
  rewrite G1, G2, G3, G4, G5, Ht. cbn [need mbind res_bind negb orb]. rewrite Efile.
  replace (Z.of_nat k + Z.of_nat (length buf)) with (Z.of_nat k') by lia.
  assert (ss_usemark s0 && bool_decide (shift_last (ss_lastbytes s) buf = ss_eofmark s0) = ss_usemark s0 && ended body s0 k') as ->.
  { unfold ended. destruct (ss_usemark s0); cbn [andb]; [by rewrite Elast|done]. }
  destruct (ended body s0 k') eqn:He; destruct (ss_usemark s0) eqn:Hu; cbn [andb orb negb].
  - rewrite (proj2 (Z.ltb_ge (Z.of_nat k') _)) by (specialize (Hm eq_refl k' He); lia).
    rewrite take_take. replace (_ `min` k')%nat with (k' - CONFIG_RUN_ID_SIZE)%nat by lia.
    eexists. split; [unfold received; rewrite Hu; reflexivity|]. split; [exact G6|exact K1].
  - unfold ended in He. rewrite Hu in He. rewrite He. eexists. split; [unfold received; rewrite Hu; reflexivity|]. split; [exact G6|exact K1].
  - eexists. split; [reflexivity|]. apply (receiving_step body s0 k' s s1); try done; [lia|by rewrite Hu|]. intros _. by rewrite G7, Elast.
  - unfold ended in He. rewrite Hu in He. rewrite He. eexists. split; [reflexivity|]. apply (receiving_step body s0 k' s s1); try done; [lia|by rewrite Hu|]. by rewrite Hu.
Qed.

(** ** The end *)

Record transferred (s0 : slave_side D) (db : Z) (w1 : world) (data : D) (s : slave_side D) : Prop := {
  tr_state : state s = REPL_STATE_CONNECTED /\ ss_file s = None /\ ss_data s = data;
  tr_link : exists c, ss_master s = Some c /\ mc_fd c = ss_repl_transfer_s s0 /\ mc_replid c = ss_master_replid s0 /\
    mc_link c = MkLink (fresh []) REQ_UNKNOWN (ss_master_initial_offset s0) (ss_master_initial_offset s0) [] /\
    mc_db c = (if db =? -1 then 0 else db);
  tr_ids : isSameTypeWithMaster w1 = true ->
    master_repl_offset (w_server (ss_world s)) = ss_master_initial_offset s0 /\
    forall i, replid (get_srv i (ss_world s)) = ss_master_replid s0 /\ second_replid_offset (get_srv i (ss_world s)) = -1;
  tr_backlog : repl_backlog (w_server w1) = None -> 0 < repl_backlog_size (w_server w1) -> backlog_rep (w_server (ss_world s)) []
}.

Definition same_ids (r r' : replServer) : Prop :=
  replid r' = replid r /\ second_replid_offset r' = second_replid_offset r /\ master_repl_offset r' = master_repl_offset r.

Lemma ensure_backlog w :
  exists w', (if bool_decide (repl_backlog (w_server w) = None) then createReplicationBacklog w else Ok w) = Ok w' /\
    w_repl_state w' = w_repl_state w /\ (forall i, same_ids (get_srv i w) (get_srv i w')) /\
    (repl_backlog (w_server w) = None -> 0 < repl_backlog_size (w_server w) -> backlog_rep (w_server w') []).
Proof.
  case_bool_decide as Hn.
  - unfold createReplicationBacklog, createServerReplicationBacklog. rewrite !(bool_decide_true (repl_backlog (w_server w) = None)) by done.
    cbn [c_assert mbind res_bind]. case_bool_decide as Hp; cbn [c_assert mbind res_bind].
    all: eexists; split; [reflexivity|]; split; [done|]; split; [intros [|]; unfold same_ids; done|]; intros _ Hs; destruct (create_rep (w_server w) Hn Hs) as (r' & E & R & _).
    all: unfold createServerReplicationBacklog in E; rewrite bool_decide_true in E by done; cbn [c_assert mbind res_bind] in E; injection E as <-; exact R.
  - exists w. split; [done|]. split; [done|]. split; [intros [|]; unfold same_ids; done|]. done.
Qed.

Lemma finish_ok file s0 s db w1 data :
  te_rename_ok env = true -> te_load env file (freed (ss_world s0)) (te_empty env) = Ok (true, db, w1, data) ->
  ss_world s = freed (ss_world s0) -> alike s0 s ->
  exists s', finish_transfer env file s = Ok s' /\ transferred s0 db w1 data s'.
Proof.
  intros Hr Hl Hw (K1 & K2 & K3 & K4 & K5). unfold finish_transfer. rewrite Hr, Hw, Hl. cbn [negb mbind res_bind]. cbv zeta.
  cbn [replicationCreateMasterClient set_ss_master set_state set_ss_file set_ss_data set_ss_world ss_master ss_world ss_master_initial_offset ss_master_replid ss_repl_transfer_s need mbind res_bind mc_link mc_replid l_reploff].
  rewrite K1, K2, K3. set (w2 := if isSameTypeWithMaster _ then _ else _).
  assert (w_repl_state w2 = REPL_STATE_CONNECTED /\ repl_backlog (w_server w2) = repl_backlog (w_server w1) /\ repl_backlog_size (w_server w2) = repl_backlog_size (w_server w1)) as (E1 & E2 & E3)
    by (unfold w2; destruct (isSameTypeWithMaster _); done).
  assert (isSameTypeWithMaster w1 = true -> master_repl_offset (w_server w2) = ss_master_initial_offset s0 /\
    forall i, replid (get_srv i w2) = ss_master_replid s0 /\ second_replid_offset (get_srv i w2) = -1) as E4.
  { intros Hsame. unfold w2. change (isSameTypeWithMaster (set_w_repl_state REPL_STATE_CONNECTED w1)) with (isSameTypeWithMaster w1). rewrite Hsame. split; [done|by intros [|]]. }
  clearbody w2. destruct (ensure_backlog w2) as (w3 & -> & Es & Ei & Hb). cbn [mbind res_bind]. eexists. split; [reflexivity|].
  split; [split; [unfold state; cbn; by rewrite Es|done]|eexists; split; [reflexivity|]; split; [done|]; split; [exact K2|]; split; [cbn; by rewrite K1|cbn; by destruct (db =? -1)]| |].
  - intros Hsame. destruct (E4 Hsame) as [Eo Eids]. split; [rewrite <- Eo; apply (Ei SERVER)|]. intros i. cbn [set_ss_world ss_world]. destruct (Ei i) as (-> & -> & _). apply Eids.
  - intros Hn Hsz. apply Hb; congruence.
Qed.

(** ** The events *)

(** Each event finds some bytes in the socket; the handler is removed at the end. *)

Fixpoint read_bulk (sizes : list nat) (socket : bytes) s : res (slave_side D * bytes) :=
  match sizes with
  | [] => Ok (s, socket)
  | n :: sizes =>
      if state s =? REPL_STATE_TRANSFER then
        '(s, used) ← readSyncBulkPayload env None (Some (take n socket)) s;
        read_bulk sizes (drop used socket) s
      else Ok (s, socket)
  end.

Lemma read_bulk_done sizes socket s : state s = REPL_STATE_CONNECTED -> read_bulk sizes socket s = Ok (s, socket).
Proof. intros E. destruct sizes; [done|]. cbn [read_bulk]. by rewrite E. Qed.

Lemma read_bulk_ok body s0 e db w1 data :
  te_write_ok env = true -> te_truncate_ok env = true -> te_rename_ok env = true ->
  te_load env (received s0 body e) (freed (ss_world s0)) (te_empty env) = Ok (true, db, w1, data) ->
  ss_repl_transfer_size s0 <> -1 -> (e <= length body)%nat -> (if ss_usemark s0 then e = length body else Z.of_nat e = ss_repl_transfer_size s0) ->
  (forall j, (j <= e)%nat -> ended body s0 j = bool_decide (j = e)) -> (ss_usemark s0 = true -> forall j, ended body s0 j = true -> (CONFIG_RUN_ID_SIZE <= j)%nat) ->
  forall sizes k s, receiving body s0 k s -> (k < e)%nat -> Forall (fun n => (0 < n)%nat) sizes ->
  (exists s' k', read_bulk sizes (drop k body) s = Ok (s', drop k' body) /\ (k + length sizes <= k' < e)%nat /\ receiving body s0 k' s') \/
  (exists s', read_bulk sizes (drop k body) s = Ok (s', drop e body) /\ transferred s0 db w1 data s').
Proof.
  intros Hw Ht Hr Hl Hsize He Hform Hend Hlong. induction sizes as [|n sizes IH]; intros k s Hs Hk Hn.
  { left. exists s, k. split; [done|]. split; [simpl; lia|done]. }
  apply Forall_cons in Hn as [Hn Hns]. cbn [read_bulk]. rewrite (proj2 (proj2 (rv_world _ _ _ _ Hs))), Z.eqb_refl. unfold readSyncBulkPayload.
  rewrite (proj1 (rv_form _ _ _ _ Hs)), (proj2 (Z.eqb_neq _ _) Hsize).
  assert (ss_usemark s0 = false -> Z.of_nat k < ss_repl_transfer_size s0) as Hc by (intros Hu; rewrite Hu in Hform; lia).
  destruct (portion_spec body s0 k n) as (Hlen & _ & Hcount); [lia|done|done|].
  pose proof (bulk_step body s0 k s n Hs Hw Ht) as Hstep. cbv zeta in Hstep. set (buf := portion s0 k (take n (drop k body))) in *.
  assert (k + length buf <= e)%nat as Hke by (destruct (ss_usemark s0); [lia|specialize (Hcount eq_refl); lia]).
  rewrite (Hend _ Hke) in Hstep. case_bool_decide as Ee.
  - destruct Hstep as (s1 & -> & Hw1 & Ha); [lia|done|done|done|]. rewrite Ee. destruct (finish_ok _ s0 s1 db w1 data Hr Hl Hw1 Ha) as (s' & -> & Htr). cbn [mbind res_bind].
    right. exists s'. split; [|done]. rewrite read_bulk_done by apply Htr. by rewrite drop_drop, Ee.
  - destruct Hstep as (s1 & -> & Hs1); [lia|done|done|done|]. cbn [mbind res_bind]. rewrite drop_drop.
    destruct (IH (k + length buf)%nat s1 Hs1) as [(s' & k' & E & Hk' & Hs')|(s' & E & Htr)]; [lia|done| |].
    + left. exists s', k'. split; [done|]. split; [simpl; lia|done].
    + right. by exists s'.
Qed.

Lemma transferred_alike s0 s1 db w1 data s : alike s0 s1 -> transferred s1 db w1 data s -> transferred s0 db w1 data s.
Proof. intros (K1 & K2 & K3 & _) [T1 T2 T3 T4]. by split; [|rewrite <- K1, <- K2, <- K3|rewrite <- K1, <- K2|]. Qed.

(** ** The two forms of the announcement *)

Definition announcement (form : option bytes) (payload : bytes) : bytes :=
  match form with
  | None => str "$" ++ print_Z (Z.of_nat (length payload))
  | Some mark => str "$EOF:" ++ mark
  end.

Definition form_ok (form : option bytes) (payload rest : bytes) : Prop :=
  match form with
  | None => payload <> [] /\ Z.of_nat (length payload) <= LLONG_MAX
  | Some mark => length mark = CONFIG_RUN_ID_SIZE /\ (0 ∉ mark) /\ mark_free payload mark /\ rest = []
  end.

Lemma announcement_read form payload rest s :
  form_ok form payload rest ->
  exists s1, bulk_line (Some (announcement form payload)) s = Some s1 /\ alike s s1 /\ ss_world s1 = ss_world s /\ ss_file s1 = ss_file s /\
    ss_repl_transfer_read s1 = ss_repl_transfer_read s /\
    match form with
    | None => ss_usemark s1 = false /\ ss_repl_transfer_size s1 = Z.of_nat (length payload)
    | Some mark => ss_usemark s1 = true /\ ss_repl_transfer_size s1 = 0 /\ ss_eofmark s1 = mark /\ ss_lastbytes s1 = replicate CONFIG_RUN_ID_SIZE 0
    end.
Proof.
  destruct form as [mark|]; cbn [form_ok announcement].
  - intros (Hm & Hz & _). unfold bulk_line. assert (0 ∉ str "$EOF:") as Hs by decide_now.
    rewrite cstr_id by (rewrite elem_of_app; tauto).
    change (str "$EOF:" ++ mark) with (36 :: str "EOF:" ++ mark). cbv iota beta. rewrite Z.eqb_refl, has_prefix_app. cbn [negb andb].
    change (drop 4 (str "EOF:" ++ mark)) with mark. rewrite Hm, Nat.leb_refl, take_ge by lia. eexists. split; [reflexivity|]. done.
  - intros (Hne & Hmax). unfold bulk_line. set (n := Z.of_nat (length payload)) in *. assert (0 < n) as Hn by (destruct payload; [done|unfold n; simpl; lia]).
    rewrite cstr_id by (apply (header_digits n 36); unfold CR; lia). change (str "$" ++ print_Z n) with (36 :: print_Z n). cbv iota beta. rewrite Z.eqb_refl. cbn [negb].
    destruct (print_Z_reads n) as [Er _]; [unfold LLONG_MIN; lia|].
    assert (has_prefix (str "EOF:") (print_Z n) = false) as ->.
    { destruct (has_prefix (str "EOF:") (print_Z n)) eqn:E; [|done]. apply has_prefix_true in E as [r E]. rewrite E in Er. change (0 = n) in Er. lia. }
    cbn [andb]. rewrite Er. eexists. split; [reflexivity|]. done.
Qed.

Lemma announced_end form payload rest s1 :
  form_ok form payload rest ->
  match form with
  | None => ss_usemark s1 = false /\ ss_repl_transfer_size s1 = Z.of_nat (length payload)
  | Some mark => ss_usemark s1 = true /\ ss_repl_transfer_size s1 = 0 /\ ss_eofmark s1 = mark /\ ss_lastbytes s1 = replicate CONFIG_RUN_ID_SIZE 0
  end ->
  let sent := payload ++ default [] form in
  let body := sent ++ rest in
  let e := length sent in
  (0 < e <= length body)%nat /\ received s1 body e = payload /\ ss_repl_transfer_size s1 <> -1 /\
  (if ss_usemark s1 then e = length body else Z.of_nat e = ss_repl_transfer_size s1) /\
  (forall j, (j <= e)%nat -> ended body s1 j = bool_decide (j = e)) /\
  (ss_usemark s1 = true -> forall j, ended body s1 j = true -> (CONFIG_RUN_ID_SIZE <= j)%nat).
Proof.
  unfold received, ended. destruct form as [mark|]; simpl default.
  - intros (Hm & Hz & Hf & ->) (-> & -> & -> & _). rewrite app_nil_r. cbv zeta. rewrite length_app, Hm. split; [unfold CONFIG_RUN_ID_SIZE; lia|]. split.
    { replace (_ - _)%nat with (length payload) by lia. apply take_app_length. }
    split; [done|]. split; [done|]. split.
    + intros j Hj. apply bool_decide_ext. split; [|intros ->].
      * intros E. destruct (decide (j = length payload + CONFIG_RUN_ID_SIZE)%nat) as [|Hne]; [done|]. exfalso. apply (last_not_found payload mark j Hm Hz Hf); [rewrite length_app, Hm; lia|exact E].
      * rewrite take_ge by (rewrite length_app; lia). by apply last_found.
    + intros _ j E. apply bool_decide_eq_true in E. apply (last_long mark _ Hz) in E. rewrite length_take in E. lia.
  - intros (Hne & _) (-> & ->). rewrite app_nil_r. cbv zeta. rewrite length_app. split; [destruct payload; [done|simpl; lia]|]. split; [apply take_app_length|]. split; [lia|]. split; [done|].
    split; [|done]. intros j Hj. case_bool_decide; lia.
Qed.

(** C11: the file of the master arrives whole.  The slave has asked for the file
    and the master announces it, by its length or by a mark of forty bytes that
    does not occur before its end, and then sends it in pieces of any size.  Until
    the last byte is there the data of the slave is as it was and the file holds
    what has come; with it, the file that is loaded is exactly the one that was
    sent, without the mark and without a byte of the stream that follows, which is
    left in the socket; the link then begins at the offset and under the id the
    master announced, and the backlog is empty at this offset.  Every event brings
    it closer: no more events are needed than there are bytes. *)
Theorem transfer_exact (form : option bytes) (payload rest : bytes) (sizes : list nat) (s : slave_side D) (db : Z) (w1 : world) (data : D)
    (Hstart : state s = REPL_STATE_TRANSFER /\ ss_repl_transfer_size s = -1 /\ ss_repl_transfer_read s = 0 /\ ss_file s = Some [] /\
      slaves (w_server (ss_world s)) = [])
    (Hform : form_ok form payload rest)
    (Henv : te_write_ok env = true /\ te_truncate_ok env = true /\ te_rename_ok env = true)
    (Hload : te_load env payload (freed (ss_world s)) (te_empty env) = Ok (true, db, w1, data))
    (Hsizes : Forall (fun n => (0 < n)%nat) sizes) :
  let sent := payload ++ default [] form in
  exists s1, readSyncBulkPayload env (Some (announcement form payload)) None s = Ok (s1, 0%nat) /\
    ((exists s' k, read_bulk sizes (sent ++ rest) s1 = Ok (s', drop k (sent ++ rest)) /\ (length sizes <= k < length sent)%nat /\
        state s' = REPL_STATE_TRANSFER /\ ss_file s' = Some (take k sent) /\ ss_data s' = ss_data s) \/
     (exists s', read_bulk sizes (sent ++ rest) s1 = Ok (s', rest) /\ transferred s db w1 data s')).
Proof.
  intros sent. destruct Hstart as (H1 & H2 & H3 & H4 & H5), Henv as (E1 & E2 & E3).
  destruct (announcement_read form payload rest s Hform) as (s1 & El & Ka & Ew & Ef & Er & Hf).
  exists s1. unfold readSyncBulkPayload at 1. rewrite H2, Z.eqb_refl, El. split; [done|].
  destruct (announced_end form payload rest s1 Hform Hf) as (P1 & P2 & P3 & P4 & P5 & P6). fold sent in P1, P2, P4, P5, P6.
  assert (receiving (sent ++ rest) s1 0 s1) as Hs.
  { split; [unfold state in *; by rewrite Ew|by rewrite Ef, Er; split; [lia|]|done| |done]. intros Hu. destruct form; [|by destruct Hf as [? _]; congruence]. by destruct Hf as (_ & _ & _ & ->). }
  rewrite <- P2, <- Ew in Hload.
  destruct (read_bulk_ok _ s1 _ db w1 data E1 E2 E3 Hload P3 (proj2 P1) P4 P5 P6 sizes 0 s1 Hs (proj1 P1) Hsizes) as [(s' & k & E & Hk & R)|(s' & E & Htr)].
  - left. exists s', k. split; [exact E|]. split; [done|]. destruct R as [(_ & _ & R1) (_ & R2 & _) _ _ (_ & _ & _ & _ & R3)]. split; [done|]. split.
    + rewrite R2, take_app_le by lia. done.
    + rewrite R3. apply Ka.
  - right. exists s'. split; [rewrite <- (drop_app_length sent rest) at 2; exact E|]. by apply (transferred_alike s s1).
Qed.

End transfer.

Definition example_load : transfer_env (D := bytes) := MkTenv true true true [] (fun file w _ => Ok (true, 0, w, file)).

Definition example_waiting : slave_side bytes :=
  let w := set_w_master_is_crdt true (set_w_masterhost (Some (str "m")) example_world) in
  let w := set_w_repl_state REPL_STATE_TRANSFER (set_w_server (example_repl_server []) w) in
  MkSs w 6379 None None (str "id7") 1000 5 (-1) 0 0 (Some []) false [] [] 0 (str "old").

Lemma transfer_exact_witness :
  let mark := replicate CONFIG_RUN_ID_SIZE 109 in
  exists s1 s', readSyncBulkPayload example_load (Some (str "$EOF:" ++ mark)) None example_waiting = Ok (s1, 0%nat) /\
    read_bulk example_load (3 :: 20 :: replicate 43 1)%nat (str "REDIS" ++ mark) s1 = Ok (s', []) /\
    state s' = REPL_STATE_CONNECTED /\ ss_data s' = str "REDIS" /\ master_repl_offset (w_server (ss_world s')) = 1000 /\ backlog_rep (w_server (ss_world s')) [].
Proof.
  intros mark.
  destruct (transfer_exact example_load (Some mark) (str "REDIS") [] (3 :: 20 :: replicate 43 1)%nat example_waiting 0 (freed (ss_world example_waiting)) (str "REDIS"))
    as (s1 & E1 & [(s' & k & _ & Hk & _)|(s' & E2 & [(T1 & _ & T2) _ T3 T4])]).
  - done.
  - split; [reflexivity|]. split; [decide_now|]. split; [|reflexivity]. intros k Hk. do 5 (destruct k as [|k]; [vm_compute; congruence|]). simpl in Hk. lia.
  - done.
  - reflexivity.
  - decide_now.
  - exfalso. simpl in Hk. lia.
  - exists s1, s'. split; [exact E1|]. split; [exact E2|]. split; [exact T1|]. split; [exact T2|]. split; [apply T3; reflexivity|apply T4; [reflexivity|vm_compute; reflexivity]].
Defined.

(** ** A master that refuses PSYNC

    [slaveTryPartialResynchronization] keeps the cached link when the master answers
    with an error, as a master does while it cannot serve the request.  The slave
    asks with SYNC instead, gets the file and is connected, with two links; when the
    connection is lost, the assertion of [replicationCacheMaster] ends it. *)

Definition example_refused : slave_side bytes :=
  set_ss_cached_master (Some (MkMc (-1) (MkLink (fresh []) REQ_UNKNOWN 7 7 []) (str "id7") false false 0 [] 0))
    (set_state REPL_STATE_RECEIVE_PSYNC example_waiting).

Lemma sync_fallback_aborts :
  (let i := MkIo false true (Some (str "-ERR no such command")) true true in
   '(s, out) ← psync_phase i true 5 example_refused;
   _ ← c_assert (bool_decide (out = str "SYNC" ++ CRLF));
   '(s, _) ← readSyncBulkPayload example_load (Some (str "$5")) None s;
   '(s, _) ← readSyncBulkPayload example_load None (Some (str "REDIS")) s;
   Ok (state s =? REPL_STATE_CONNECTED, free_master s)) = Ok (true, Abort).
Proof. vm_compute. reflexivity. Qed.

(** A master that continues a stream the slave did not ask to continue: the cached
    link is read although there is none. *)

Lemma unasked_continue_undefined fd :
  psync_answer (MkIo false true (Some (str "+CONTINUE")) true true) fd example_waiting = Undef.
Proof. reflexivity. Qed.
