(* ===== verification/Failover.v ===== *)
(** * A slave takes over from its master

    The composition of [Mirror] and of [Slave]: the streams the slave kept are the
    ones its peers and the other slaves go on with when it becomes a master. *)

From S2P Require Import Prelude Util Sds VectorClock VcTheory VcText VcClaims Proxy CrdtServer Gc Keyspace Backlog Resp World Feed Psync PeerState PeerLink MasterLink Mirror Handshake RdbInfo Cron Slave SlaveTheory.

(** The position in the stream of a peer that the cached link keeps. *)

Definition kept_position (w : world) (g : Z) : option Z := cl_reploff <$> (crdtMasters (w_crdt w) !! g ≫= cached_master).

Lemma link_kept_position w w' g :
  option_Forall2 link_kept (crdtMasters (w_crdt w) !! g) (crdtMasters (w_crdt w') !! g) ->
  forall o, stream_position w g = Some o -> kept_position w' g = Some o /\ stream_position w' g = None.
Proof.
  unfold stream_position, kept_position. intros [p p' [_ Hk]|] o; cbn; [|done]. destruct (master p) as [m|]; cbn; [|done]. intros [= <-].
  destruct Hk as (-> & m' & -> & E & _). cbn. by rewrite E.
Qed.

(** What the new master has of a stream, and who it can serve. *)

Lemma promoted_serves newid i c w off_arg offset (r0 r1 r2 : replServer) known missing id :
  promoted newid r0 (get_srv i w) -> backlog_rep r0 (known ++ missing) -> replid r0 = id -> cstr id = id ->
  master_repl_offset r0 = master_repl_offset r2 -> backlog_rep r1 known -> fed_backlog missing r1 r2 ->
  string2ll off_arg = Some offset -> (i = CRDT -> has_capa c SLAVE_CAPA_BACKSTREAM = false) -> sl_close_after_reply c = false ->
  (offset = master_repl_offset r1 + 1 -> Z.of_nat (length missing) <= repl_backlog_size r0 -> has_capa c SLAVE_CAPA_PSYNC2 = true ->
    exists c' w', masterTryPartialResynchronization i true id off_arg c w = Ok (true, c', w') /\ In c' (slaves (get_srv i w')) /\
      sl_wire c' = sl_wire c ++ str "+CONTINUE " ++ newid ++ CRLF /\ sl_output c' = sl_output c ++ missing) /\
  (master_repl_offset r2 + 1 < offset -> strcaseeq id newid = false -> masterTryPartialResynchronization i true id off_arg c w = Ok (false, c, w)).
Proof.
  intros P R Eid Ecs E02 R1 F Hoff Hb Hcl. pose proof (promoted_rep _ _ _ _ P R) as R'. destruct (fed_stream _ _ _ F _ R1) as [_ E12].
  destruct P as [(_ & Esz & _) Eo (I1 & I2 & I3) _ _]. split.
  - intros -> Hlen Hc. assert (strcaseeq id id = true) as Hrefl by (unfold strcaseeq; by apply bool_decide_true).
    destruct (partial_serves i id off_arg _ c w _ R' Hb Hoff) as (c' & -> & _ & _ & Ew & Eout).
    + unfold id_accepted. rewrite Ecs, I1, I2, I3, Eid, Hrefl. rewrite (proj2 (Z.leb_le _ _)) by lia. by rewrite orb_true_r.
    + apply (covered_iff _ _ _ R'). rewrite Eo, Esz, length_app. lia.
    + done.
    + eexists c', _. split; [reflexivity|]. rewrite get_set_eq. split; [apply in_or_app; right; by left|]. split; [by rewrite Ew, Hc, I1|].
      rewrite Eout, Eo, E02, E12, length_app. do 2 f_equal. rewrite drop_app_ge by lia. replace (_ - _)%nat with O by lia. done.
  - intros Hlt Hne. unfold masterTryPartialResynchronization. rewrite Hoff.
    assert (bool_decide (i = CRDT) && has_capa c SLAVE_CAPA_BACKSTREAM = false) as -> by (case_bool_decide; [by rewrite Hb|done]).
    unfold id_accepted. rewrite Ecs, I1, Hne, I3, (proj2 (Z.leb_gt _ _)) by lia. by rewrite andb_false_r.
Qed.

(** What the stream of a server gets. *)

Definition stream_part (own : Z) (i : srv) (tags : list (Z * list bytes)) : bytes :=
  match i with SERVER => wire tags | CRDT => part_of own tags end.

Lemma acted_part own tags sel w w' i : acted own tags sel w w' -> fed_backlog (stream_part own i tags) (get_srv i w) (get_srv i w').
Proof. intros [A1 A2 _ _ _]. destruct i; [apply A1|apply A2]. Qed.

Lemma stream_part_app own i a b : stream_part own i (a ++ b) = stream_part own i a ++ stream_part own i b.
Proof. destruct i; [apply wire_app|apply part_of_app]. Qed.


Definition example_before : list activity :=
  [PeerCommands 2 0 [[str "CRDT.SET"; str "2"; str "k"]]; OwnWrite 0 (map RSds [str "CRDT.SET"; str "1"; str "k"])].

Definition example_after : list activity := [OwnWrite 0 (map RSds [str "CRDT.SET"; str "1"; str "a"])].

(** The slave, with the streams and positions of [w]. *)

Definition example_slave_side (w : world) : slave_side unit :=
  let w := set_w_server (w_server w) (set_w_peers (w_peers w) (set_w_crdt (set_crdtMasters (crdtMasters (w_crdt w)) example_server) example_mirror_slave)) in
  MkSs (set_w_repl_state REPL_STATE_CONNECTED w) 6379 (Some (MkMc 7 (MkLink (fresh []) REQ_UNKNOWN 0 0 []) (str "id1") false false 0 [] 0)) None
    (str "id1") 0 (-1) 0 0 0 None false [] [] 0 tt.

Definition example_asking : slave := set_sl_capa SLAVE_CAPA_PSYNC2 (example_slave 0).

