(* ===== verification/Expire.v ===== *)
(** * Active expiry ([src/src/expire.c])

    On a master a cycle samples keys that have an expire time and removes those
    whose time has passed; on a writable slave the keys that got their expire time
    there are remembered and removed.  TTL and its variants are here too.

    What [dictGetRandomKey] draws, the number of slots of the table, and the clock
    are given by the environment. *)

From S2P Require Import Prelude Util Sds VectorClock VcTheory VcText VcClaims Proxy CrdtServer Gc Objects Keyspace.

Definition ACTIVE_EXPIRE_CYCLE_LOOKUPS_PER_LOOP : Z := 20.
Definition ACTIVE_EXPIRE_CYCLE_FAST_DURATION : Z := 1000.
Definition ACTIVE_EXPIRE_CYCLE_SLOW_TIME_PERC : Z := 25.

Inductive expire_cycle_type := ACTIVE_EXPIRE_CYCLE_SLOW | ACTIVE_EXPIRE_CYCLE_FAST.

#[global] Instance expire_cycle_type_eq_dec : EqDecision expire_cycle_type.
Proof. solve_decision. Defined.

(** The static variables of the cycle. *)

Record expire_static := MkExpStatic { current_db : Z; timelimit_exit : bool; last_fast_cycle : Z }.

(** [xe_random], [xe_slots] and [xe_mstime]: what the n-th call gives; [xe_ustime] is the
    clock in microseconds at the n-th check.  [xe_current], [xe_delay] and [xe_mk_ok] are
    those of [crdtPropagateExpire]. *)

Record expire_env := MkExpEnv {
  xe_current : running;
  xe_server : crdtServer;
  xe_delay : Z;
  xe_mk_ok : bool;
  xe_paused : bool;
  xe_hz : Z;
  xe_random : nat -> gmap bytes Z -> option bytes;
  xe_slots : nat -> gmap bytes Z -> Z;
  xe_mstime : nat -> Z;
  xe_ustime : nat -> Z
}.

Section expire.

Context {object : Type} `{CrdtModule object} (env : expire_env).

Implicit Types (db : redisDb object) (key : bytes).

(** [clock] is the time that [crdtPropagateExpire] reads. *)

Definition activeExpireCycleTryExpire (clock : Z) db key (t now : Z) : res (bool * redisDb object) :=
  if now >? t then
    o ← crdtPropagateExpire (xe_current env) (xe_server env) clock (xe_delay env) (xe_mk_ok env) db key t;
    match o with
    | None => Ok (false, db)
    | Some db => Ok (true, dbDelete db key)
    end
  else Ok (false, db).

(** What a round has counted: [sm_events] are the keys that expired. *)

Record sampled := MkSampled {
  sm_db : redisDb object;
  sm_expired : Z;
  sm_ttl_sum : Z;
  sm_ttl_samples : Z;
  sm_events : list bytes;
  sm_calls : nat
}.

(** The [while (num--)] loop. *)

Fixpoint sample_keys (num : nat) (now : Z) (m : sampled) : res sampled :=
  match num with
  | O => Ok m
  | S num =>
      let db := sm_db m in
      match xe_random env (sm_calls m) (expires db) with
      | None => Ok m
      | Some key =>
          t ← need (expires db !! key);
          let ttl := t - now in
          '(gone, db) ← activeExpireCycleTryExpire (xe_mstime env (S (sm_calls m))) db key t now;
          sample_keys num now
            (MkSampled db (if (gone : bool) then sm_expired m + 1 else sm_expired m)
              (if ttl >? 0 then sm_ttl_sum m + ttl else sm_ttl_sum m)
              (if ttl >? 0 then sm_ttl_samples m + 1 else sm_ttl_samples m)
              (if gone then sm_events m ++ [key] else sm_events m) (S (S (sm_calls m))))
      end
  end.

(** The running average of the times to live. *)

Definition average_ttl (avg ttl_sum ttl_samples : Z) : Z :=
  if ttl_samples =? 0 then avg else
  let avg_ttl := Z.quot ttl_sum ttl_samples in
  let avg := if avg =? 0 then avg_ttl else avg in
  Z.quot avg 50 * 49 + Z.quot avg_ttl 50.

(** The cycle over one database; [iteration] goes on over the databases.  [late]: the time
    limit was reached.  The events are the keys that expired. *)

Record visit := MkVisit {
  vi_db : redisDb object;
  vi_avg_ttl : Z;
  vi_events : list bytes;
  vi_iteration : Z;
  vi_calls : nat;
  vi_late : bool
}.

Fixpoint expire_rounds (fuel : nat) (start timelimit : Z) (v : visit) : res visit :=
  match fuel with
  | O => Undef
  | S fuel =>
      let db := vi_db v in
      let iteration := vi_iteration v + 1 in
      let num := Z.of_nat (size (expires db)) in
      if num =? 0 then Ok (MkVisit db 0 (vi_events v) iteration (vi_calls v) false) else
      let slots := xe_slots env (vi_calls v) (expires db) in
      let now := xe_mstime env (vi_calls v) in
      if (slots >? 4) && (Z.quot (num * 100) slots <? 1) then Ok (MkVisit db (vi_avg_ttl v) (vi_events v) iteration (S (vi_calls v)) false) else
      let num := if num >? ACTIVE_EXPIRE_CYCLE_LOOKUPS_PER_LOOP then ACTIVE_EXPIRE_CYCLE_LOOKUPS_PER_LOOP else num in
      m ← sample_keys (Z.to_nat num) now (MkSampled db 0 0 0 (vi_events v) (S (vi_calls v)));
      let avg := average_ttl (vi_avg_ttl v) (sm_ttl_sum m) (sm_ttl_samples m) in
      let late := (Z.land iteration 15 =? 0) && (xe_ustime env (sm_calls m) - start >? timelimit) in
      let v := MkVisit (sm_db m) avg (sm_events m) iteration (sm_calls m) late in
      if late then Ok v else
      if sm_expired m >? Z.quot ACTIVE_EXPIRE_CYCLE_LOOKUPS_PER_LOOP 10 then expire_rounds fuel start timelimit v else Ok v
  end.

(** The loop over the databases: each has its average.  The events are the databases and
    the keys. *)

Record cycle_state := MkCycle {
  cy_dbs : list (redisDb object * Z);
  cy_current : Z;
  cy_iteration : Z;
  cy_calls : nat;
  cy_events : list (nat * bytes);
  cy_late : bool
}.

Fixpoint expire_dbs (dbs_per_call : nat) (start timelimit : Z) (c : cycle_state) : res cycle_state :=
  match dbs_per_call with
  | O => Ok c
  | S j =>
      if cy_late c then Ok c else
      let i := Z.to_nat (cy_current c mod Z.of_nat (length (cy_dbs c))) in
      '(db, avg) ← need (cy_dbs c !! i);
      v ← expire_rounds (S (size (expires db))) start timelimit (MkVisit db avg [] (cy_iteration c) (cy_calls c) false);
      expire_dbs j start timelimit
        (MkCycle (<[i := (vi_db v, vi_avg_ttl v)]> (cy_dbs c)) (uwrap 32 (cy_current c + 1)) (vi_iteration v) (vi_calls v)
           (cy_events c ++ map (pair i) (vi_events v)) (vi_late v))
  end.

(** The databases visited, the static variables, and the keys that expired, each of which is
    an event [expired].  [start]: the time of the call in microseconds. *)

Definition activeExpireCycle (type : expire_cycle_type) (start : Z) (st : expire_static) (dbs : list (redisDb object * Z))
  : res (list (redisDb object * Z) * expire_static * list (nat * bytes)) :=
  let dbnum := Z.of_nat (length dbs) in
  let fast := bool_decide (type = ACTIVE_EXPIRE_CYCLE_FAST) in
  if xe_paused env then Ok (dbs, st, []) else
  if fast && negb (timelimit_exit st) then Ok (dbs, st, []) else
  if fast && (start <? last_fast_cycle st + ACTIVE_EXPIRE_CYCLE_FAST_DURATION * 2) then Ok (dbs, st, []) else
  let last := if fast then start else last_fast_cycle st in
  let dbs_per_call := if (CRON_DBS_PER_CALL >? dbnum) || timelimit_exit st then dbnum else CRON_DBS_PER_CALL in
  if xe_hz env =? 0 then Undef else
  let timelimit := Z.quot (Z.quot (1000000 * ACTIVE_EXPIRE_CYCLE_SLOW_TIME_PERC) (xe_hz env)) 100 in
  let timelimit := if timelimit <=? 0 then 1 else timelimit in
  let timelimit := if fast then ACTIVE_EXPIRE_CYCLE_FAST_DURATION else timelimit in
  c ← expire_dbs (Z.to_nat dbs_per_call) start timelimit (MkCycle dbs (current_db st) 0 0 [] false);
  Ok (cy_dbs c, MkExpStatic (cy_current c) (cy_late c) last, cy_events c).

(** ** Keys with an expire time on a writable slave *)

(** The names with the set of their databases, one bit each. *)

Definition rememberSlaveKeyWithExpire (dbid : Z) key (tracked : gmap bytes Z) : gmap bytes Z :=
  if dbid >? 63 then tracked else
  <[key := Z.lor (default 0 (tracked !! key)) (to_ull (Z.shiftl 1 dbid))]> tracked.

(** The databases from [dbid] on, while there are bits. *)

Fixpoint expire_in_dbs (n : nat) (dbid dbids : Z) (start : Z) key (calls : nat) (dbs : list (redisDb object * Z)) (new_dbids : Z) (noexpire : Z)
    (events : list (nat * bytes)) : res (list (redisDb object * Z) * Z * Z * nat * list (nat * bytes)) :=
  match n with
  | O => Ok (dbs, new_dbids, noexpire, calls, events)
  | S n =>
      if dbids =? 0 then Ok (dbs, new_dbids, noexpire, calls, events) else
      if Z.land dbids 1 =? 0 then expire_in_dbs n (dbid + 1) (Z.shiftr dbids 1) start key calls dbs new_dbids noexpire events else
      '(db, avg) ← need (dbs !! Z.to_nat dbid);
      match expires db !! key with
      | None => expire_in_dbs n (dbid + 1) (Z.shiftr dbids 1) start key calls dbs new_dbids noexpire events
      | Some t =>
          '(gone, db) ← activeExpireCycleTryExpire (xe_mstime env calls) db key t start;
          let dbs := <[Z.to_nat dbid := (db, avg)]> dbs in
          if (gone : bool) then expire_in_dbs n (dbid + 1) (Z.shiftr dbids 1) start key (S calls) dbs new_dbids noexpire (events ++ [(Z.to_nat dbid, key)])
          else expire_in_dbs n (dbid + 1) (Z.shiftr dbids 1) start key (S calls) dbs (Z.lor new_dbids (to_ull (Z.shiftl 1 dbid))) (noexpire + 1) events
      end
  end.

Record slave_expire := MkSlaveExpire {
  se_tracked : gmap bytes Z;
  se_dbs : list (redisDb object * Z);
  se_calls : nat;
  se_noexpire : Z;
  se_events : list (nat * bytes)
}.

(** The [while(1)] loop. *)

Fixpoint slave_expire_loop (fuel : nat) (cycles start : Z) (e : slave_expire) : res slave_expire :=
  match fuel with
  | O => Undef
  | S fuel =>
      key ← need (xe_random env (se_calls e) (se_tracked e));
      dbids ← need (se_tracked e !! key);
      '(dbs, new_dbids, noexpire, calls, events) ←
        expire_in_dbs (length (se_dbs e)) 0 dbids start key (S (se_calls e)) (se_dbs e) 0 (se_noexpire e) (se_events e);
      let tracked := if new_dbids =? 0 then delete key (se_tracked e) else <[key := new_dbids]> (se_tracked e) in
      let e := MkSlaveExpire tracked dbs (S calls) noexpire events in
      let cycles := cycles + 1 in
      if noexpire >? 3 then Ok e else
      if (Z.rem cycles 64 =? 0) && (xe_mstime env calls - start >? 1) then Ok e else
      if bool_decide (tracked = ∅) then Ok e else slave_expire_loop fuel cycles start e
  end.

(** More rounds than there are names, and four, are not needed. *)

Definition expireSlaveKeys (start : Z) (tracked : gmap bytes Z) (dbs : list (redisDb object * Z)) : res slave_expire :=
  let e := MkSlaveExpire tracked dbs 0 0 [] in
  if bool_decide (tracked = ∅) then Ok e else slave_expire_loop (size tracked + 5) 0 start e.

(** ** What a cycle may do *)

(** The tombstone of a key that expires, if its value is a CRDT. *)

Definition leave_tombstone db (tombs : gmap bytes (dbval object)) key : gmap bytes (dbval object) :=
  match dict db !! key ≫= retrieveObject, expires db !! key with
  | Some obj, Some t => match getCrdtDataMethod obj with
                        | Some m => dm_propagateDel m key obj t tombs
                        | None => tombs
                        end
  | _, _ => tombs
  end.

Lemma propagated_tombstone current s now delay mk_ok db key t db1 :
  expires db !! key = Some t -> crdtPropagateExpire current s now delay mk_ok db key t = Ok (Some db1) ->
  db1 = set_deleted_keys (leave_tombstone db (deleted_keys db) key) db.
Proof.
  intros Et E. unfold leave_tombstone. rewrite Et. unfold crdtPropagateExpire in E. destruct (dict db !! key) as [val|]; [|by destruct current]. simpl.
  destruct (isModuleCrdt val) eqn:Em.
  - destruct (retrieveObject val) as [obj|] eqn:Er; [|by apply retrieve_crdt in Er; congruence].
    destruct current; cbn [need mbind res_bind] in E; [|done|]; (destruct mk_ok; [|done]); cbn [negb] in E;
      (destruct (getCrdtDataMethod obj) as [m|]; [|done]); cbn [need mbind res_bind] in E;
      (destruct (isNeedDelayExpire _ _ _ _ _) as [wait| |]; [|done|done]); cbn [mbind res_bind] in E; (destruct (_ && _); [done|]); by injection E as <-.
  - apply retrieve_crdt in Em. rewrite Em. destruct current; [|done|]; injection E as <-; by destruct db.
Qed.

(** The keys of [events] are gone, and only they; the time of each had passed when the clock
    was read, and it was not to be kept for its last writer; the CRDTs among them left
    their tombstones. *)

Definition passed db key : Prop :=
  exists t, expires db !! key = Some t /\ (exists n, t < xe_mstime env n) /\
    exists n, blocked (xe_current env) (xe_server env) (xe_mstime env n) (xe_delay env) (xe_mk_ok env) db key = false.

Record shrunk (events : list bytes) db db' : Prop := {
  sh_dict : forall key, dict db' !! key = if decide (key ∈ events) then None else dict db !! key;
  sh_expires : forall key, expires db' !! key = if decide (key ∈ events) then None else expires db !! key;
  sh_tombs : deleted_keys db' = foldl (leave_tombstone db) (deleted_keys db) events;
  sh_passed : forall key, key ∈ events -> passed db key;
  sh_once : NoDup events;
  sh_ok : db_ok db'
}.

Definition all_methods db : Prop := forall key, methods_ok db key.

Lemma shrunk_refl db : db_ok db -> shrunk [] db db.
Proof. intros Hok. split; [intros key; by rewrite decide_False by set_solver..|done|set_solver|constructor|done]. Qed.

Lemma blocked_same current s now delay mk_ok db db' key :
  dict db' !! key = dict db !! key -> expires db' !! key = expires db !! key ->
  blocked current s now delay mk_ok db' key = blocked current s now delay mk_ok db key.
Proof. intros E1 E2. unfold blocked. by rewrite E1, E2. Qed.

Lemma shrunk_trans e1 e2 db1 db2 db3 : shrunk e1 db1 db2 -> shrunk e2 db2 db3 -> shrunk (e1 ++ e2) db1 db3.
Proof.
  intros [D1 X1 T1 P1 N1 O1] [D2 X2 T2 P2 N2 O2].
  assert (forall key, key ∈ e2 -> key ∉ e1) as Hd.
  { intros key H2 H1. destruct (P2 key H2) as (t & Ht & _). rewrite X1, decide_True in Ht by done. done. }
  split.
  - intros key. rewrite D2, D1. repeat case_decide; set_solver.
  - intros key. rewrite X2, X1. repeat case_decide; set_solver.
  - rewrite T2, T1, foldl_app. assert (forall key, key ∈ e2 -> dict db2 !! key = dict db1 !! key /\ expires db2 !! key = expires db1 !! key) as Hsame.
    { intros key Hk. rewrite D1, X1, !decide_False by (by apply Hd). done. }
    clear -Hsame. generalize (foldl (leave_tombstone db1) (deleted_keys db1) e1) as d. induction e2 as [|key e2 IH]; intros d; [done|]. cbn [foldl].
    assert (leave_tombstone db2 d key = leave_tombstone db1 d key) as ->.
    { unfold leave_tombstone. destruct (Hsame key) as [-> ->]; [by left|done]. }
    apply IH. intros k Hk. apply Hsame. by right.
  - intros key Hk. destruct (decide (key ∈ e1)) as [H1|H1]; [by apply P1|]. destruct (P2 key) as (t & Ht & Hn & Hb); [set_solver|].
    exists t. pose proof (X1 key) as E1. pose proof (D1 key) as E2. rewrite decide_False in E1 by done. rewrite decide_False in E2 by done.
    split; [by rewrite <- E1|]. split; [done|]. destruct Hb as [n Hb]. exists n. by rewrite <- (blocked_same _ _ _ _ _ db1 db2).
  - apply NoDup_app. split; [done|]. split; [|done]. intros key H1 H2. by apply (Hd key).
  - done.
Qed.

Lemma shrunk_methods events db db' : shrunk events db db' -> all_methods db -> all_methods db'.
Proof. intros [D _ _ _ _ _] Hm key val obj Hv Ho. rewrite D in Hv. case_decide; [done|]. by apply (Hm key val). Qed.

Lemma shrunk_size events db db' : shrunk events db db' -> size (expires db) = (length events + size (expires db'))%nat.
Proof.
  intros [D X T P N O]. assert (dom (expires db') = dom (expires db) ∖ list_to_set events) as E.
  { apply set_eq. intros key. rewrite elem_of_difference, !elem_of_dom, X, elem_of_list_to_set. case_decide; [|tauto]. split; [intros [? ?]; done|tauto]. }
  rewrite <- !size_dom, E. rewrite <- (size_list_to_set (C := gset bytes) events N).
  rewrite size_difference; [|intros key Hk; apply elem_of_list_to_set in Hk; destruct (P key Hk) as (t & Ht & _); apply elem_of_dom; by rewrite Ht].
  assert (size (list_to_set events : gset bytes) <= size (dom (expires db)))%nat; [|lia].
  apply subseteq_size. intros key Hk. apply elem_of_list_to_set in Hk. destruct (P key Hk) as (t & Ht & _). apply elem_of_dom. by rewrite Ht.
Qed.

(** ** Each part *)

Definition passed_at (now clock t : Z) db key : bool :=
  (t <? now) && negb (blocked (xe_current env) (xe_server env) clock (xe_delay env) (xe_mk_ok env) db key).

Lemma try_spec n db key t now :
  xe_current env <> PeerClient -> db_ok db -> all_methods db -> expires db !! key = Some t -> (exists n, now = xe_mstime env n) ->
  let gone := passed_at now (xe_mstime env n) t db key in
  exists db', activeExpireCycleTryExpire (xe_mstime env n) db key t now = Ok (gone, db') /\ shrunk (if gone then [key] else []) db db'.
Proof.
  intros Hc Hok Hm Et [n0 ->]. unfold activeExpireCycleTryExpire, passed_at. rewrite Z.gtb_ltb. destruct (Z.ltb_spec t (xe_mstime env n0)) as [Hlt|]; cbn [andb].
  2: { exists db. split; [done|]. by apply shrunk_refl. }
  assert (is_Some (dict db !! key)) as Hs by (apply elem_of_dom, Hok, elem_of_dom; by rewrite Et).
  destruct (propagate_spec (xe_current env) (xe_server env) (xe_mstime env n) (xe_delay env) (xe_mk_ok env) db key t (Hm key) Et Hs Hc) as (o & Eo & Ho). rewrite Eo. cbn [mbind res_bind].
  destruct (blocked _ _ _ _ _ _ _) eqn:Hb; cbn [negb]; [subst o; exists db; split; [done|by apply shrunk_refl]|].
  destruct Ho as [del ->]. pose proof (propagated_tombstone _ _ _ _ _ _ _ _ _ Et Eo) as Ed. injection Ed as ->. set (del := leave_tombstone _ _ _).
  eexists. split; [reflexivity|]. destruct (dbDelete_ok (set_deleted_keys del db) key Hok) as (Hok' & E1 & E2 & E3).
  split; [intros k..|rewrite E3; done| | |done].
  - rewrite E1. cbn. destruct (decide (k ∈ [key])) as [Hk|Hk]; [apply list_elem_of_singleton in Hk as ->; apply lookup_delete_eq|].
    apply lookup_delete_ne. set_solver.
  - rewrite E2. cbn. destruct (decide (k ∈ [key])) as [Hk|Hk]; [apply list_elem_of_singleton in Hk as ->; apply lookup_delete_eq|].
    apply lookup_delete_ne. set_solver.
  - intros k Hk. apply list_elem_of_singleton in Hk as ->. exists t. split; [done|]. split; [by eexists|]. by exists n.
  - apply NoDup_singleton.
Qed.

(** What [dictGetRandomKey] promises. *)

Definition random_ok : Prop := forall n m, if decide (m = ∅) then xe_random env n m = None else exists key, xe_random env n m = Some key /\ is_Some (m !! key).

(** Every key with an expire time is to go. *)

Definition all_due db : Prop := forall key t n, expires db !! key = Some t ->
  t < xe_mstime env n /\ blocked (xe_current env) (xe_server env) (xe_mstime env n) (xe_delay env) (xe_mk_ok env) db key = false.

Lemma shrunk_all_due events db db' : shrunk events db db' -> all_due db -> all_due db'.
Proof.
  intros [D X _ _ _ _] Hd key t n Ht. pose proof (X key) as E. pose proof (D key) as E2. rewrite Ht in E. case_decide; [done|]. destruct (Hd key t n) as [H1 H2]; [done|]. split; [done|].
  rewrite (blocked_same _ _ _ _ _ db db'); [done|done|by rewrite Ht, E].
Qed.

Context (Hcurrent : xe_current env <> PeerClient) (Hrandom : random_ok).

Lemma sample_keys_spec num : forall now m,
  db_ok (sm_db m) -> all_methods (sm_db m) -> (exists n, now = xe_mstime env n) ->
  exists m' e, sample_keys num now m = Ok m' /\ sm_events m' = sm_events m ++ e /\ shrunk e (sm_db m) (sm_db m') /\
    sm_expired m' = sm_expired m + Z.of_nat (length e) /\ (length e <= num)%nat /\
    (all_due (sm_db m) -> (num <= size (expires (sm_db m)))%nat -> length e = num).
Proof.
  induction num as [|num IH]; intros now m Hok Hm Hnow; cbn [sample_keys].
  - exists m, []. split; [done|]. split; [by rewrite app_nil_r|]. split; [by apply shrunk_refl|]. split; [simpl; lia|]. split; [done|]. intros _ _. done.
  - specialize (Hrandom (sm_calls m) (expires (sm_db m))). case_decide as He.
    + rewrite Hrandom. exists m, []. split; [done|]. split; [by rewrite app_nil_r|]. split; [by apply shrunk_refl|]. split; [simpl; lia|]. split; [simpl; lia|].
      intros _. rewrite He, map_size_empty. lia.
    + destruct Hrandom as (key & -> & [t Et]). rewrite Et. cbn [need mbind res_bind].
      destruct (try_spec (S (sm_calls m)) (sm_db m) key t now Hcurrent Hok Hm Et Hnow) as (db' & -> & Hsh). set (gone := passed_at _ _ _ _ _) in *. cbn [mbind res_bind].
      match goal with |- context [sample_keys num now ?x] => set (m1 := x) end.
      destruct (IH now m1) as (m' & e & -> & Ee & Hs & Ex & Hle & Hall); [apply Hsh|by eapply shrunk_methods|done|].
      exists m', ((if gone then [key] else []) ++ e). split; [done|].
      split; [rewrite Ee; unfold m1; cbn; destruct gone; by rewrite <- ?app_assoc|]. split; [by eapply shrunk_trans|].
      split; [rewrite Ex, length_app; unfold m1; cbn; destruct gone; simpl; lia|]. split; [rewrite length_app; destruct gone; simpl; lia|].
      intros Hd Hsz. destruct Hnow as [n0 ->]. assert (gone = true) as Hg.
      { unfold gone, passed_at. destruct (Hd key t n0 Et) as [H1 _]. destruct (Hd key t (S (sm_calls m)) Et) as [_ H2]. rewrite H2, (proj2 (Z.ltb_lt _ _)); done. }
      rewrite Hg in Hsh |- *. simpl. f_equal. pose proof (shrunk_size _ _ _ Hsh) as Hsize. simpl in Hsize.
      apply Hall; [by eapply shrunk_all_due|]. change (sm_db m1) with db'. lia.
Qed.

(** The table of the expire times is never so empty that sampling is put off. *)

Definition never_sparse : Prop := forall n m, m <> ∅ -> (xe_slots env n m >? 4) && (Z.quot (Z.of_nat (size m) * 100) (xe_slots env n m) <? 1) = false.

Lemma expire_rounds_spec fuel start limit : forall v,
  (size (expires (vi_db v)) < fuel)%nat -> db_ok (vi_db v) -> all_methods (vi_db v) ->
  exists v' e, expire_rounds fuel start limit v = Ok v' /\ vi_events v' = vi_events v ++ e /\ shrunk e (vi_db v) (vi_db v') /\
    (never_sparse -> all_due (vi_db v) -> vi_late v' = false -> expires (vi_db v') = ∅).
Proof.
  induction fuel as [|fuel IH]; intros v Hf Hok Hm; [lia|]. cbn [expire_rounds]. set (num := size (expires (vi_db v))) in *.
  destruct (Z.eqb_spec (Z.of_nat num) 0) as [Hz|Hz].
  { eexists _, []. split; [reflexivity|]. split; [by rewrite app_nil_r|]. split; [by apply shrunk_refl|]. intros _ _ _. apply map_size_empty_inv. cbn [vi_db]. unfold num in Hz. lia. }
  destruct (_ && _) eqn:Hsp.
  { eexists _, []. split; [reflexivity|]. split; [by rewrite app_nil_r|]. split; [by apply shrunk_refl|]. intros Hns. rewrite Hns in Hsp; [done|]. intros E. unfold num in Hz. rewrite E in Hz. done. }
  set (k := Z.to_nat _). assert (k = Nat.min num 20) as Ek. { unfold k, ACTIVE_EXPIRE_CYCLE_LOOKUPS_PER_LOOP. rewrite Z.gtb_ltb. destruct (Z.ltb_spec 20 (Z.of_nat num)); lia. }
  destruct (sample_keys_spec k (xe_mstime env (vi_calls v)) (MkSampled (vi_db v) 0 0 0 (vi_events v) (S (vi_calls v))) Hok Hm) as (m & e & -> & Ee & Hs & Ex & Hle & Hall); [by eexists|].
  cbn [mbind res_bind sm_db sm_events sm_expired] in *. cbv zeta. set (late := _ && _). match goal with |- context [MkVisit (sm_db m) ?a _ _ _ _] => set (avg := a) end.
  pose proof (shrunk_size _ _ _ Hs) as Hsize. fold num in Hsize.
  assert (all_due (vi_db v) -> length e = k) as Hlen by (intros Hd; apply Hall; [done|lia]). destruct late eqn:El.
  { eexists _, e. split; [reflexivity|]. split; [done|]. split; [done|]. done. }
  change (Z.quot ACTIVE_EXPIRE_CYCLE_LOOKUPS_PER_LOOP 10) with 2. rewrite Z.gtb_ltb. destruct (Z.ltb_spec 2 (sm_expired m)) as [H2|H2].
  - destruct (IH (MkVisit (sm_db m) avg (sm_events m) (vi_iteration v + 1) (sm_calls m) false)) as (v' & e' & -> & Ee' & Hs' & Hend); [cbn [vi_db]; lia|apply Hs|by eapply shrunk_methods|].
    exists v', (e ++ e'). split; [done|]. cbn [vi_events vi_db] in *. split; [by rewrite Ee', Ee, app_assoc|]. split; [by eapply shrunk_trans|].
    intros Hns Hd. apply Hend; [done|]. by eapply shrunk_all_due.
  - eexists _, e. split; [reflexivity|]. split; [done|]. split; [done|]. intros _ Hd _. cbn [vi_db]. specialize (Hlen Hd). apply map_size_empty_inv. lia.
Qed.

(** ** The databases *)

Definition events_of (i : nat) (events : list (nat * bytes)) : list bytes := (filter (fun x => fst x = i) events).*2.

Lemma events_of_app i a b : events_of i (a ++ b) = events_of i a ++ events_of i b.
Proof. unfold events_of. by rewrite filter_app, fmap_app. Qed.

Lemma events_of_pair i j l : events_of i (map (pair j) l) = if decide (j = i) then l else [].
Proof.
  unfold events_of. induction l as [|x l IH]; [by destruct (decide _)|]. cbn [map]. rewrite filter_cons. cbn [fst].
  destruct (decide (j = i)); [|done]. cbn. by rewrite IH.
Qed.

Definition dbs_good (dbs : list (redisDb object * Z)) : Prop := Forall (fun p => db_ok (fst p) /\ all_methods (fst p)) dbs.

Definition dbs_shrunk (events : list (nat * bytes)) (dbs dbs' : list (redisDb object * Z)) : Prop :=
  forall i, option_Forall2 (fun p p' => shrunk (events_of i events) (fst p) (fst p')) (dbs !! i) (dbs' !! i).

Lemma dbs_shrunk_trans e1 e2 a b c : dbs_shrunk e1 a b -> dbs_shrunk e2 b c -> dbs_shrunk (e1 ++ e2) a c.
Proof.
  intros H1 H2 i. rewrite events_of_app. specialize (H1 i). specialize (H2 i).
  destruct H1 as [p q H1|]; inversion H2; subst; constructor. by eapply shrunk_trans.
Qed.

Lemma dbs_shrunk_good ev a b : dbs_shrunk ev a b -> dbs_good a -> dbs_good b.
Proof.
  intros Hs Hg. apply Forall_lookup. intros i p Hp. specialize (Hs i). rewrite Hp in Hs. inversion Hs as [q p' Hsh Eq|]; subst.
  destruct (proj1 (Forall_lookup _ _) Hg i q) as [_ Hm]; [done|]. split; [apply Hsh|by eapply shrunk_methods].
Qed.

Lemma dbs_shrunk_refl dbs : dbs_good dbs -> dbs_shrunk [] dbs dbs.
Proof. intros Hg i. destruct (dbs !! i) as [p|] eqn:E; constructor. apply shrunk_refl. by destruct (proj1 (Forall_lookup _ _) Hg i p E). Qed.

Lemma visit_shrunk dbs i db avg db' avg' e :
  dbs_good dbs -> dbs !! i = Some (db, avg) -> shrunk e db db' -> dbs_shrunk (map (pair i) e) dbs (<[i := (db', avg')]> dbs).
Proof.
  intros Hg Ei Hs j. rewrite events_of_pair. destruct (decide (i = j)) as [<-|Hne].
  - rewrite Ei, list_lookup_insert_eq by (by eapply lookup_lt_Some). by constructor.
  - rewrite list_lookup_insert_ne by done. exact (dbs_shrunk_refl dbs Hg j).
Qed.

(** A database all of whose keys were to go, and whose keys are gone. *)

Definition emptied (i : nat) (dbs dbs' : list (redisDb object * Z)) : Prop :=
  forall p, dbs !! i = Some p -> all_due (fst p) -> exists p', dbs' !! i = Some p' /\ expires (fst p') = ∅.

Lemma shrunk_empty e db db' : shrunk e db db' -> expires db = ∅ -> expires db' = ∅.
Proof. intros Hs E. apply map_size_empty_inv. pose proof (shrunk_size _ _ _ Hs) as Hsz. rewrite E, map_size_empty in Hsz. lia. Qed.

Lemma emptied_mono ev i a b c : emptied i a b -> dbs_shrunk ev b c -> emptied i a c.
Proof.
  intros He Hs p Hp Hd. destruct (He p Hp Hd) as (q & Hq & E). specialize (Hs i). rewrite Hq in Hs. inversion Hs as [x y Hsh|]; subst.
  exists y. split; [done|]. by eapply shrunk_empty.
Qed.

Lemma emptied_before ev i a b c : dbs_shrunk ev a b -> emptied i b c -> emptied i a c.
Proof.
  intros Hs He p Hp Hd. specialize (Hs i). rewrite Hp in Hs. inversion Hs as [x y Hsh|]; subst. apply (He y); [done|]. by eapply shrunk_all_due.
Qed.

(** The database that is visited [j]-th, from [current] on. *)

Definition visited (current : Z) (dbnum j : nat) : nat := Z.to_nat (uwrap 32 (current + Z.of_nat j) mod Z.of_nat dbnum).

Lemma expire_dbs_spec n start limit : forall c,
  dbs_good (cy_dbs c) -> cy_dbs c <> [] -> 0 <= cy_current c < 2 ^ 32 -> cy_late c = false ->
  exists c' ev, expire_dbs n start limit c = Ok c' /\ cy_events c' = cy_events c ++ ev /\ dbs_shrunk ev (cy_dbs c) (cy_dbs c') /\
    (never_sparse -> cy_late c' = false -> forall j, (j < n)%nat -> emptied (visited (cy_current c) (length (cy_dbs c)) j) (cy_dbs c) (cy_dbs c')) /\
    (cy_late c' = false -> cy_current c' = uwrap 32 (cy_current c + Z.of_nat n)).
Proof.
  induction n as [|n IH]; intros c Hg Hne Hc Hl; cbn [expire_dbs].
  - exists c, []. split; [done|]. split; [by rewrite app_nil_r|]. split; [by apply dbs_shrunk_refl|]. split; [intros; lia|]. intros _. rewrite Z.add_0_r. symmetry. by apply uwrap_id.
  - rewrite Hl. set (i := Z.to_nat (cy_current c mod _)).
    assert (0 < length (cy_dbs c))%nat as Hlen by (destruct (cy_dbs c); [done|simpl; lia]).
    assert (i < length (cy_dbs c))%nat as Hi by (unfold i; pose proof (Z.mod_pos_bound (cy_current c) (Z.of_nat (length (cy_dbs c)))); lia).
    destruct (lookup_lt_is_Some_2 _ _ Hi) as [[db avg] Ei]. rewrite Ei. cbn [need mbind res_bind].
    destruct (proj1 (Forall_lookup _ _) Hg i _ Ei) as [Hok Hm]. cbn [fst] in Hok, Hm.
    destruct (expire_rounds_spec (S (size (expires db))) start limit (MkVisit db avg [] (cy_iteration c) (cy_calls c) false)) as (v & e & -> & Ee & Hs & Hend); [cbn [vi_db]; lia|done|done|].
    cbn [mbind res_bind vi_db vi_events] in *. simpl in Ee. set (c1 := MkCycle _ _ _ _ _ _).
    pose proof (visit_shrunk (cy_dbs c) i db avg (vi_db v) (vi_avg_ttl v) e Hg Ei Hs) as Hs1. change (<[i := _]> (cy_dbs c)) with (cy_dbs c1) in Hs1.
    assert (length (cy_dbs c1) = length (cy_dbs c)) as Elen by apply length_insert.
    assert (vi_late v = true \/ vi_late v = false) as [Hlate|Hlate] by (destruct (vi_late v); auto).
    + exists c1, (map (pair i) e). split; [destruct n; cbn [expire_dbs]; [done|]; unfold c1 at 1; cbn [cy_late]; by rewrite Hlate|].
      split; [unfold c1; cbn; by rewrite Ee|]. split; [done|]. unfold c1. cbn [cy_late]. rewrite Hlate. done.
    + destruct (IH c1) as (c' & ev & -> & Eev & Hs2 & Hemp & Hcur); [by eapply dbs_shrunk_good|intros E; rewrite E in Elen; simpl in Elen; lia|apply uwrap_range; lia|done|].
      exists c', (map (pair i) e ++ ev). split; [done|]. split; [rewrite Eev; unfold c1; cbn; by rewrite Ee, app_assoc|]. split; [by eapply dbs_shrunk_trans|].
      assert (forall k, uwrap 32 (cy_current c1 + Z.of_nat k) = uwrap 32 (cy_current c + Z.of_nat (S k))) as Ewrap.
      { intros k. unfold c1, uwrap. cbn [cy_current]. rewrite Zplus_mod_idemp_l. f_equal. lia. }
      split; [|intros Hf; rewrite Hcur by done; apply Ewrap]. intros Hns Hf [|j] Hj.
      * apply (emptied_mono ev _ _ (cy_dbs c1)); [|done]. intros p Hp Hd. assert (visited (cy_current c) (length (cy_dbs c)) 0 = i) as Ev.
        { unfold visited, i. rewrite Z.add_0_r, uwrap_id by done. done. }
        rewrite Ev in Hp |- *. rewrite Ei in Hp. injection Hp as <-. exists (vi_db v, vi_avg_ttl v). split; [by apply list_lookup_insert_eq|]. by apply Hend.
      * apply (emptied_before _ _ _ _ _ Hs1). unfold visited. rewrite <- Ewrap, <- Elen. apply Hemp; [done|done|lia].
Qed.

(** ** The writable slave *)

(** In the databases from [dbid] on whose bit is set, the key has no expire time or its bit
    is in [new] too. *)

Definition settled (new dbid dbids : Z) key (dbs : list (redisDb object * Z)) : Prop :=
  forall i p, dbid <= i -> Z.testbit dbids (i - dbid) = true -> dbs !! Z.to_nat i = Some p -> Z.testbit new i = true \/ expires (fst p) !! key = None.

Lemma settled_step new dbid dbids key dbs :
  0 <= dbid -> settled new (dbid + 1) (Z.shiftr dbids 1) key dbs ->
  (Z.testbit dbids 0 = true -> forall p, dbs !! Z.to_nat dbid = Some p -> Z.testbit new dbid = true \/ expires (fst p) !! key = None) -> settled new dbid dbids key dbs.
Proof.
  intros H0 Hs Hb i p Hi Ht Hp. destruct (decide (i = dbid)) as [-> |Hne].
  - apply Hb; [|done]. by rewrite Z.sub_diag in Ht.
  - apply (Hs i p); [lia| |done]. rewrite Z.shiftr_spec by lia. by replace (i - (dbid + 1) + 1) with (i - dbid) by lia.
Qed.

Lemma shrunk_none e db db' key : shrunk e db db' -> expires db !! key = None -> expires db' !! key = None.
Proof. intros [_ X _ _ _ _] E. rewrite X. by destruct (decide _). Qed.

Lemma settled_shrunk ev new dbid dbids key dbs dbs' :
  dbs_shrunk ev dbs dbs' -> settled new dbid dbids key dbs -> settled new dbid dbids key dbs'.
Proof.
  intros Hs Hd i p Hi Hb Hp. specialize (Hs (Z.to_nat i)). rewrite Hp in Hs. inversion Hs as [q p' Hsh E|]; subst.
  destruct (Hd i q Hi Hb) as [|Hn]; [done|by left|]. right. by eapply shrunk_none.
Qed.

Lemma low_bit z : (Z.land z 1 =? 0) = negb (Z.testbit z 0).
Proof. change 1 with (Z.ones 1). rewrite Z.land_ones by lia. change (2 ^ 1) with 2. rewrite Z.bit0_odd, Zmod_odd. by destruct (Z.odd z). Qed.

Lemma lor_bound a b : 0 <= a < 2 ^ 64 -> 0 <= b < 2 ^ 64 -> 0 <= Z.lor a b < 2 ^ 64.
Proof.
  intros Ha Hb. assert (0 <= Z.lor a b) as H0 by (apply Z.lor_nonneg; lia). split; [done|].
  destruct (Z.eq_dec (Z.lor a b) 0) as [-> |]; [lia|]. apply Z.log2_lt_pow2; [lia|]. rewrite Z.log2_lor by lia.
  assert (forall x, 0 <= x < 2 ^ 64 -> Z.log2 x < 64) as Hl.
  { intros x Hx. destruct (Z.eq_dec x 0) as [-> |]; [done|]. apply Z.log2_lt_pow2; lia. }
  pose proof (Hl a Ha). pose proof (Hl b Hb). lia.
Qed.

Definition bits_kept (a b : Z) : Prop := forall i, Z.testbit a i = true -> Z.testbit b i = true.

Lemma expire_in_dbs_spec n start key : forall dbid dbids calls dbs new noexp ev,
  dbs_good dbs -> 0 <= dbid -> (Z.to_nat dbid + n = length dbs)%nat -> 0 <= dbids < 2 ^ Z.max 0 (64 - dbid) -> 0 <= new < 2 ^ 64 -> (exists k, start = xe_mstime env k) ->
  exists dbs' new' noexp' calls' e, expire_in_dbs n dbid dbids start key calls dbs new noexp ev = Ok (dbs', new', noexp', calls', ev ++ e) /\
    dbs_shrunk e dbs dbs' /\ 0 <= new' < 2 ^ 64 /\ bits_kept new new' /\ settled new' dbid dbids key dbs' /\ noexp <= noexp' /\ (new' <> new -> noexp < noexp').
Proof.
  induction n as [|n IH]; intros dbid dbids calls dbs new noexp ev Hg H0 Hlen Hbits Hnew Hstart; cbn [expire_in_dbs].
  { exists dbs, new, noexp, calls, []. rewrite app_nil_r. split; [done|]. split; [by apply dbs_shrunk_refl|]. split; [done|]. split; [by intros i|]. split; [|lia].
    intros i p Hi _ Hp. apply lookup_lt_Some in Hp. lia. }
  destruct (Z.eqb_spec dbids 0) as [-> |Hnz].
  { exists dbs, new, noexp, calls, []. rewrite app_nil_r. split; [done|]. split; [by apply dbs_shrunk_refl|]. split; [done|]. split; [by intros i|]. split; [|lia].
    intros i p _ Hb. by rewrite Z.bits_0 in Hb. }
  assert (dbid < 64) as H64. { destruct (Z.lt_ge_cases dbid 64); [done|]. rewrite Z.max_l in Hbits by lia. lia. }
  assert (0 <= Z.shiftr dbids 1 < 2 ^ Z.max 0 (64 - (dbid + 1))) as Hshift.
  { rewrite Z.shiftr_div_pow2 by lia. change (2 ^ 1) with 2. split; [apply Z.div_pos; lia|]. apply Z.div_lt_upper_bound; [lia|].
    rewrite <- Z.pow_succ_r by lia. replace (Z.succ (Z.max 0 (64 - (dbid + 1)))) with (Z.max 0 (64 - dbid)) by lia. lia. }
  assert ((Z.testbit dbids 0 = true -> exists p, dbs !! Z.to_nat dbid = Some p /\ expires (fst p) !! key = None) ->
    exists dbs' new' noexp' calls' e, expire_in_dbs n (dbid + 1) (Z.shiftr dbids 1) start key calls dbs new noexp ev = Ok (dbs', new', noexp', calls', ev ++ e) /\
    dbs_shrunk e dbs dbs' /\ 0 <= new' < 2 ^ 64 /\ bits_kept new new' /\ settled new' dbid dbids key dbs' /\ noexp <= noexp' /\ (new' <> new -> noexp < noexp')) as Hskip.
  { intros Hb. destruct (IH (dbid + 1) (Z.shiftr dbids 1) calls dbs new noexp ev) as (dbs' & new' & noexp' & calls' & e & -> & R1 & R2 & R3 & R4 & R5); [done|lia|lia|done|done|done|].
    exists dbs', new', noexp', calls', e. split; [done|]. split; [done|]. split; [done|]. split; [done|]. split; [|done].
    apply settled_step; [done|done|]. intros Hbit p Hp. right. destruct (Hb Hbit) as (q & Hq & En). specialize (R1 (Z.to_nat dbid)). rewrite Hp, Hq in R1. inversion R1; subst. by eapply shrunk_none. }
  rewrite low_bit. destruct (Z.testbit dbids 0) eqn:Hb; cbn [negb]; [|by apply Hskip].
  assert (Z.to_nat dbid < length dbs)%nat as Hi by lia. destruct (lookup_lt_is_Some_2 _ _ Hi) as [[db avg] Ei]. rewrite Ei. cbn [need mbind res_bind].
  destruct (proj1 (Forall_lookup _ _) Hg _ _ Ei) as [Hok Hm]. cbn [fst] in Hok, Hm. destruct (expires db !! key) as [t|] eqn:Et; [|apply Hskip; intros _; by exists (db, avg)]. clear Hskip.
  destruct (try_spec calls db key t start Hcurrent Hok Hm Et Hstart) as (db' & -> & Hs). cbn [mbind res_bind]. set (gone := passed_at _ _ _ _ _) in *.
  pose proof (visit_shrunk dbs (Z.to_nat dbid) db avg db' avg _ Hg Ei Hs) as Hs1. pose proof (dbs_shrunk_good _ _ _ Hs1 Hg) as Hg1.
  destruct gone.
  - destruct (IH (dbid + 1) (Z.shiftr dbids 1) (S calls) (<[Z.to_nat dbid := (db', avg)]> dbs) new noexp (ev ++ [(Z.to_nat dbid, key)])) as (dbs' & new' & noexp' & calls' & e & -> & R1 & R2 & R3 & R4 & R5);
      [done|lia|rewrite length_insert; lia|done|done|done|].
    exists dbs', new', noexp', calls', ([(Z.to_nat dbid, key)] ++ e). split; [by rewrite app_assoc|]. split; [by eapply dbs_shrunk_trans|]. split; [done|]. split; [done|]. split; [|done].
    apply settled_step; [done|done|]. intros _ p Hp. right. specialize (R1 (Z.to_nat dbid)). rewrite Hp, list_lookup_insert_eq in R1 by done.
    inversion R1; subst. eapply shrunk_none; [eassumption|]. cbn [fst]. rewrite (sh_expires _ _ _ Hs). by rewrite decide_True by set_solver.
  - assert (to_ull (Z.shiftl 1 dbid) = 2 ^ dbid) as Ep.
    { rewrite Z.shiftl_mul_pow2, Z.mul_1_l by lia. apply uwrap_id. split; [apply Z.pow_nonneg; lia|]. apply Z.pow_lt_mono_r; lia. }
    assert (0 < 2 ^ dbid < 2 ^ 64) as Hp2 by (split; [apply Z.pow_pos_nonneg; lia|apply Z.pow_lt_mono_r; lia]).
    destruct (IH (dbid + 1) (Z.shiftr dbids 1) (S calls) (<[Z.to_nat dbid := (db', avg)]> dbs) (Z.lor new (to_ull (Z.shiftl 1 dbid))) (noexp + 1) ev) as (dbs' & new' & noexp' & calls' & e & -> & R1 & R2 & R3 & R4 & R5);
      [done|lia|rewrite length_insert; lia|done|rewrite Ep; apply lor_bound; lia|done|].
    exists dbs', new', noexp', calls', e. split; [done|]. split; [exact (dbs_shrunk_trans [] _ _ _ _ Hs1 R1)|]. split; [done|].
    split; [intros i Ht; apply R3; by rewrite Z.lor_spec, Ht|]. split; [|lia].
    apply settled_step; [done|done|]. intros _ p Hp. left. apply R3. by rewrite Ep, Z.lor_spec, Z.pow2_bits_true, orb_true_r by lia.
Qed.

(** Every database of a name that is no longer in its set has no such key with an expire
    time. *)

Definition tracking_kept (tracked tracked' : gmap bytes Z) (dbs' : list (redisDb object * Z)) : Prop :=
  forall key bits, tracked !! key = Some bits -> settled (default 0 (tracked' !! key)) 0 bits key dbs'.

Definition bits_ok (tracked : gmap bytes Z) : Prop := map_Forall (fun _ b => 0 <= b < 2 ^ 64) tracked.

Lemma tracking_refl tracked dbs : tracking_kept tracked tracked dbs.
Proof. intros key bits Hk i p _ Hb _. left. rewrite Hk. simpl. by rewrite Z.sub_0_r in Hb. Qed.

Lemma tracking_trans ev a b c dbs1 dbs2 :
  tracking_kept a b dbs1 -> tracking_kept b c dbs2 -> dbs_shrunk ev dbs1 dbs2 -> tracking_kept a c dbs2.
Proof.
  intros H1 H2 Hs key bits Hk i p Hi Hb Hp. destruct (settled_shrunk _ _ _ _ _ _ _ Hs (H1 key bits Hk) i p Hi Hb Hp) as [Hin|]; [|by right].
  destruct (b !! key) as [bits1|] eqn:Eb; [|by rewrite Z.bits_0 in Hin]. apply (H2 key bits1 Eb i p Hi); [|done]. by rewrite Z.sub_0_r.
Qed.

Lemma slave_expire_loop_spec fuel : forall cycles e,
  dbs_good (se_dbs e) -> bits_ok (se_tracked e) -> se_tracked e <> ∅ -> 0 <= se_noexpire e <= 3 ->
  (size (se_tracked e) + Z.to_nat (3 - se_noexpire e) < fuel)%nat -> forall start, (exists k, start = xe_mstime env k) ->
  exists e' ev, slave_expire_loop fuel cycles start e = Ok e' /\ se_events e' = se_events e ++ ev /\ dbs_shrunk ev (se_dbs e) (se_dbs e') /\
    tracking_kept (se_tracked e) (se_tracked e') (se_dbs e').
Proof.
  induction fuel as [|fuel IH]; intros cycles e Hg Hb Hne Hno Hf start Hstart; [lia|]. cbn [slave_expire_loop].
  pose proof (Hrandom (se_calls e) (se_tracked e)) as Hr. rewrite decide_False in Hr by done. destruct Hr as (key & -> & [bits Ebits]). cbn [need mbind res_bind]. rewrite Ebits. cbn [need mbind res_bind].
  destruct (expire_in_dbs_spec (length (se_dbs e)) start key 0 bits (S (se_calls e)) (se_dbs e) 0 (se_noexpire e) (se_events e)) as (dbs' & new' & noexp' & calls' & ev & -> & R1 & R2 & _ & R4 & R5 & R6);
    [done|lia|simpl; lia|exact (Hb key bits Ebits)|lia|done|]. cbn [mbind res_bind]. cbv zeta.
  set (tracked := if new' =? 0 then _ else _).
  assert (bits_ok tracked) as Hb'.
  { unfold tracked. destruct (new' =? 0); [by apply map_Forall_delete|by apply map_Forall_insert_2]. }
  assert (tracking_kept (se_tracked e) tracked dbs') as Ht.
  { intros k b Hk. destruct (decide (k = key)) as [-> |Hk2].
    - rewrite Ebits in Hk. injection Hk as <-. unfold tracked. destruct (Z.eqb_spec new' 0) as [-> |]; [by rewrite lookup_delete_eq|by rewrite lookup_insert_eq].
    - intros i p Hi Hbit Hp. left. unfold tracked. rewrite Z.sub_0_r in Hbit. destruct (new' =? 0); [rewrite lookup_delete_ne by done|rewrite lookup_insert_ne by done]; by rewrite Hk. }
  assert (noexp' <= 3 -> tracked <> ∅ -> (size tracked + Z.to_nat (3 - noexp') < fuel)%nat) as Hmeasure.
  { intros H3 _. unfold tracked. destruct (Z.eqb_spec new' 0) as [-> |Hnz].
    - rewrite map_size_delete_Some by done. assert (size (se_tracked e) <> 0)%nat by (by apply map_size_non_empty_iff). lia.
    - specialize (R6 Hnz). rewrite map_size_insert_Some by done. lia. }
  destruct (Z.gtb_spec noexp' 3) as [H3|H3]; [eexists _, ev; split; [reflexivity|]; done|].
  destruct (_ && _); [eexists _, ev; split; [reflexivity|]; done|]. case_bool_decide as Hem; [eexists _, ev; split; [reflexivity|]; done|].
  destruct (IH (cycles + 1) (MkSlaveExpire tracked dbs' (S calls') noexp' (se_events e ++ ev))) with (start := start) as (e' & ev' & -> & E1 & E2 & E3);
    [by eapply dbs_shrunk_good|done|done|cbn [se_noexpire]; lia|cbn [se_tracked se_noexpire]; by apply Hmeasure|done|].
  exists e', (ev ++ ev'). cbn [se_tracked se_dbs se_events] in *. split; [done|]. split; [by rewrite E1, app_assoc|]. split; [by eapply dbs_shrunk_trans|]. by eapply tracking_trans.
Qed.

(** ** Claims *)

(** C18: the cycle of active expiry always ends, after at most as many rounds per database
    as it has keys with an expire time, whatever is sampled.  The keys it removes are those
    it reports, each once; the time of each had passed, and it was not to be kept for its
    last writer; everything else is as it was.  If the slow cycle was not stopped for lack
    of time and no table was too sparse to be sampled, then a database it visited all of
    whose volatile keys were to go, has none left. *)
Theorem activeExpireCycle_exact (type : expire_cycle_type) (start : Z) (st : expire_static) (dbs : list (redisDb object * Z))
    (Hg : dbs_good dbs) (Hst : 0 <= current_db st < 2 ^ 32) (Hhz : 0 < xe_hz env) :
  exists dbs' st' events, activeExpireCycle type start st dbs = Ok (dbs', st', events) /\ dbs_shrunk events dbs dbs' /\
    (type = ACTIVE_EXPIRE_CYCLE_SLOW -> xe_paused env = false -> timelimit_exit st' = false -> never_sparse ->
     forall j, (j < Nat.min 16 (length dbs))%nat -> emptied (visited (current_db st) (length dbs) j) dbs dbs').
Proof.
  unfold activeExpireCycle. cbv zeta. rewrite (proj2 (Z.eqb_neq (xe_hz env) 0)) by lia. set (fast := bool_decide _).
  destruct (xe_paused env). { exists dbs, st, []. split; [done|]. split; [by apply dbs_shrunk_refl|]. done. }
  assert (type = ACTIVE_EXPIRE_CYCLE_SLOW -> fast = false) as Hfast by (intros ->; done).
  destruct (fast && negb _) eqn:E1. { exists dbs, st, []. split; [done|]. split; [by apply dbs_shrunk_refl|]. intros Ht. by rewrite Hfast in E1. }
  destruct (fast && (_ <? _)) eqn:E2. { exists dbs, st, []. split; [done|]. split; [by apply dbs_shrunk_refl|]. intros Ht. by rewrite Hfast in E2. }
  match goal with |- context [expire_dbs ?a start ?b _] => set (n := a); set (limit := b) end.
  assert (Nat.min 16 (length dbs) <= n)%nat as Hn.
  { unfold n, CRON_DBS_PER_CALL. rewrite Z.gtb_ltb. destruct (Z.ltb_spec (Z.of_nat (length dbs)) 16); cbn [orb]; [lia|]. destruct (timelimit_exit st); lia. }
  destruct (decide (dbs = [])) as [-> |Hne].
  { assert (n = 0%nat) as -> by reflexivity. eexists _, _, _. split; [reflexivity|]. split; [by apply dbs_shrunk_refl|]. simpl. lia. }
  destruct (expire_dbs_spec n start limit (MkCycle dbs (current_db st) 0 0 [] false) Hg Hne Hst eq_refl) as (c' & ev & -> & Ee & Hs & Hem & _).
  eexists _, _, _. split; [reflexivity|]. simpl in Ee. rewrite Ee. split; [done|]. intros _ _ Hl Hns j Hj. apply Hem; [done|done|lia].
Qed.

(** Expiring the keys of a writable slave always ends, however many names are
    remembered and whatever is drawn: every round forgets a name or finds a key that is to
    stay, and the fourth of these ends it.  The keys it removes are those it reports, and the
    time of each had passed.  Nothing is forgotten too early: a database leaves the set of
    a name only if it has no such key with an expire time any more. *)
Lemma expireSlaveKeys_ends (tracked : gmap bytes Z) (dbs : list (redisDb object * Z)) (k : nat)
    (Hg : dbs_good dbs) (Hb : bits_ok tracked) :
  exists e, expireSlaveKeys (xe_mstime env k) tracked dbs = Ok e /\ dbs_shrunk (se_events e) dbs (se_dbs e) /\
    tracking_kept tracked (se_tracked e) (se_dbs e).
Proof.
  unfold expireSlaveKeys. case_bool_decide as He.
  - eexists. split; [reflexivity|]. split; [by apply dbs_shrunk_refl|apply tracking_refl].
  - destruct (slave_expire_loop_spec (size tracked + 5) 0 (MkSlaveExpire tracked dbs 0 0 [])) with (start := xe_mstime env k) as (e & ev & -> & Ee & Hs & Ht);
      [done|done|done|simpl; lia|simpl; lia|by eexists|]. simpl in Ee. exists e. rewrite Ee. done.
Qed.

End expire.

Definition example_expire_env : expire_env :=
  MkExpEnv NoClient example_server 500 true false 10 (fun _ m => fst <$> head (map_to_list m)) (fun _ m => 4) (fun _ => 2000) (fun _ => 0).

Lemma example_random : random_ok example_expire_env.
Proof.
  intros n m. case_decide as He; [by rewrite He|]. cbn. destruct (map_to_list m) as [|[k t] l] eqn:E; [by apply map_to_list_empty_iff in E|].
  exists k. split; [done|]. exists t. apply elem_of_map_to_list. rewrite E. by left.
Qed.

Lemma example_dbs_good : @dbs_good Z number_module [(example_db, 0); (MkDb ∅ ∅ ∅, 0)].
Proof.
  assert (forall db : redisDb Z, @all_methods Z number_module db) as Hm by (intros db key val obj _ _; by eexists _, _).
  apply Forall_cons_2; [split; [apply example_db_ok|apply Hm]|]. apply Forall_cons_2; [split; [done|apply Hm]|]. apply Forall_nil_2.
Qed.

Lemma some_related {A B} (R : A -> B -> Prop) x y : option_Forall2 R (Some x) (Some y) -> R x y.
Proof. by inversion 1. Qed.

(** The key was written last by another group: it goes when the delay has passed too. *)

Lemma activeExpireCycle_exact_witness :
  let dbs := [(example_db, 0); (MkDb ∅ ∅ ∅, 0)] in
  exists dbs' st' events p', @activeExpireCycle Z number_module example_expire_env ACTIVE_EXPIRE_CYCLE_SLOW 0 (MkExpStatic 0 false 0) dbs = Ok (dbs', st', events) /\
    events = [(0%nat, str "a")] /\ dbs' !! 0%nat = Some p' /\ dict (fst p') !! str "a" = None /\ dict (fst p') !! str "b" = Some (number 6) /\ expires (fst p') = ∅.
Proof.
  intros dbs. destruct (@activeExpireCycle_exact Z number_module example_expire_env ltac:(done) example_random ACTIVE_EXPIRE_CYCLE_SLOW 0 (MkExpStatic 0 false 0) dbs)
    as (dbs' & st' & events & E & Hs & Hem); [apply example_dbs_good|vm_compute; intuition congruence|reflexivity|].
  destruct (Hem eq_refl eq_refl) with (j := 0%nat) (p := (example_db, 0)) as (p' & Hp & Hex); [|by intros n m _|simpl; lia|reflexivity| |].
  - vm_compute in E. by injection E as _ <- _.
  - intros key t n Ht. cbn in Ht. apply lookup_singleton_Some in Ht as [<- <-]. split; [reflexivity|vm_compute; reflexivity].
  - assert (events = [(0%nat, str "a")]) as -> by (vm_compute in E; by injection E as _ _ <-).
    exists dbs', st', [(0%nat, str "a")], p'. split; [exact E|]. split; [reflexivity|]. split; [exact Hp|].
    specialize (Hs 0%nat). change (visited _ _ 0) with 0%nat in Hp. rewrite Hp in Hs. change (dbs !! 0%nat) with (Some (example_db, 0)) in Hs. pose proof (some_related _ _ _ Hs) as Hsh. cbn [fst] in Hsh.
    pose proof (sh_dict _ _ _ _ Hsh (str "a")) as Ha. pose proof (sh_dict _ _ _ _ Hsh (str "b")) as Hb.
    split; [exact Ha|]. split; [exact Hb|exact Hex].
Defined.

Lemma expireSlaveKeys_ends_witness :
  let dbs := [(example_db, 0); (MkDb ∅ ∅ ∅, 0)] in
  exists e, @expireSlaveKeys Z number_module example_expire_env 2000 {[ str "a" := 3 ]} dbs = Ok e /\ se_events e = [(0%nat, str "a")] /\
    @dbs_shrunk Z number_module example_expire_env (se_events e) dbs (se_dbs e) /\ tracking_kept {[ str "a" := 3 ]} (se_tracked e) (se_dbs e).
Proof.
  intros dbs. destruct (@expireSlaveKeys_ends Z number_module example_expire_env ltac:(done) example_random {[ str "a" := 3 ]} dbs 0)
    as (e & E & Hs & Ht); [apply example_dbs_good|apply map_Forall_singleton; lia|].
  exists e. split; [exact E|]. split; [vm_compute in E; by injection E as <-|]. split; [exact Hs|exact Ht].
Defined.
