(* ===== verification/Output.v ===== *)
(** * The output of clients ([src/src/networking.c])

    What a command replies is put into a buffer of fixed size and, when that is full, into
    a list of strings; the socket takes it in pieces, before the event loop sleeps or when
    it is writable.  A length that is not known yet has a node of the list of its own,
    which is filled later.  A client whose output grows over a limit is closed. *)

From S2P Require Import Prelude Util Sds VectorClock VcTheory VcText VcClaims Proxy CrdtServer Gc Objects Backlog Resp PeerState.

Definition PROTO_REPLY_CHUNK_BYTES : Z := 16 * 1024.
Definition NET_MAX_WRITES_PER_EVENT : Z := 1024 * 64.
Definition CLIENT_TYPE_NORMAL : Z := 0.
Definition CLIENT_TYPE_SLAVE : Z := 1.
Definition CLIENT_TYPE_PUBSUB : Z := 2.
Definition CLIENT_TYPE_MASTER : Z := 3.
Definition CLIENT_TYPE_CRDT_SLAVE : Z := 4.
Definition CLIENT_TYPE_CRDT_MASTER : Z := 5.
Definition CLIENT_TYPE_OBUF_COUNT : nat := 5.

(** The flags that the functions below look at. *)

Record oflags := MkOflags {
  of_lua : bool;
  of_module : bool;
  of_reply_off : bool;
  of_reply_skip : bool;
  of_master : bool;
  of_crdt_master : bool;
  of_force_reply : bool;
  of_slave : bool;
  of_crdt_slave : bool;
  of_monitor : bool;
  of_pubsub : bool;
  of_close_after_reply : bool;
  of_close_asap : bool;
  of_pending_write : bool
}.

(** A node of the reply list: its address, and the string, [None] if it is still to be
    filled. *)

Record rnode := MkNode { nd_addr : nat; nd_value : option bytes }.

(** [oc_buf] is the part of the buffer in use.  [oc_fresh] is above the address of every
    node, [oc_writable] tells that the write handler is installed.  [oc_wire] is not a field
    of the struct: it is what the socket took so far. *)

Record oclient := MkOclient {
  oc_fd : Z;
  oc_flags : oflags;
  oc_replstate : Z;
  oc_on_ack : bool;
  oc_buf : bytes;
  oc_sentlen : Z;
  oc_reply : list rnode;
  oc_fresh : nat;
  oc_reply_bytes : Z;
  oc_soft_time : Z;
  oc_writable : bool;
  oc_interaction : Z;
  oc_wire : bytes
}.

Definition set_pending_write (v : bool) (f : oflags) : oflags :=
  MkOflags (of_lua f) (of_module f) (of_reply_off f) (of_reply_skip f) (of_master f) (of_crdt_master f) (of_force_reply f) (of_slave f)
    (of_crdt_slave f) (of_monitor f) (of_pubsub f) (of_close_after_reply f) (of_close_asap f) v.

Definition set_close_asap (v : bool) (f : oflags) : oflags :=
  MkOflags (of_lua f) (of_module f) (of_reply_off f) (of_reply_skip f) (of_master f) (of_crdt_master f) (of_force_reply f) (of_slave f)
    (of_crdt_slave f) (of_monitor f) (of_pubsub f) (of_close_after_reply f) v (of_pending_write f).

Definition set_flags (f : oflags) (c : oclient) : oclient :=
  MkOclient (oc_fd c) f (oc_replstate c) (oc_on_ack c) (oc_buf c) (oc_sentlen c) (oc_reply c) (oc_fresh c) (oc_reply_bytes c) (oc_soft_time c) (oc_writable c) (oc_interaction c) (oc_wire c).

Definition set_online (c : oclient) : oclient :=
  MkOclient (oc_fd c) (oc_flags c) SLAVE_STATE_ONLINE false (oc_buf c) (oc_sentlen c) (oc_reply c) (oc_fresh c) (oc_reply_bytes c) (oc_soft_time c) (oc_writable c) (oc_interaction c) (oc_wire c).

Definition set_buf (v : bytes) (c : oclient) : oclient :=
  MkOclient (oc_fd c) (oc_flags c) (oc_replstate c) (oc_on_ack c) v (oc_sentlen c) (oc_reply c) (oc_fresh c) (oc_reply_bytes c) (oc_soft_time c) (oc_writable c) (oc_interaction c) (oc_wire c).

Definition set_sentlen (v : Z) (c : oclient) : oclient :=
  MkOclient (oc_fd c) (oc_flags c) (oc_replstate c) (oc_on_ack c) (oc_buf c) v (oc_reply c) (oc_fresh c) (oc_reply_bytes c) (oc_soft_time c) (oc_writable c) (oc_interaction c) (oc_wire c).

Definition set_reply (v : list rnode) (c : oclient) : oclient :=
  MkOclient (oc_fd c) (oc_flags c) (oc_replstate c) (oc_on_ack c) (oc_buf c) (oc_sentlen c) v (oc_fresh c) (oc_reply_bytes c) (oc_soft_time c) (oc_writable c) (oc_interaction c) (oc_wire c).

Definition set_fresh (v : nat) (c : oclient) : oclient :=
  MkOclient (oc_fd c) (oc_flags c) (oc_replstate c) (oc_on_ack c) (oc_buf c) (oc_sentlen c) (oc_reply c) v (oc_reply_bytes c) (oc_soft_time c) (oc_writable c) (oc_interaction c) (oc_wire c).

Definition set_reply_bytes (v : Z) (c : oclient) : oclient :=
  MkOclient (oc_fd c) (oc_flags c) (oc_replstate c) (oc_on_ack c) (oc_buf c) (oc_sentlen c) (oc_reply c) (oc_fresh c) v (oc_soft_time c) (oc_writable c) (oc_interaction c) (oc_wire c).

Definition set_soft_time (v : Z) (c : oclient) : oclient :=
  MkOclient (oc_fd c) (oc_flags c) (oc_replstate c) (oc_on_ack c) (oc_buf c) (oc_sentlen c) (oc_reply c) (oc_fresh c) (oc_reply_bytes c) v (oc_writable c) (oc_interaction c) (oc_wire c).

Definition set_writable (v : bool) (c : oclient) : oclient :=
  MkOclient (oc_fd c) (oc_flags c) (oc_replstate c) (oc_on_ack c) (oc_buf c) (oc_sentlen c) (oc_reply c) (oc_fresh c) (oc_reply_bytes c) (oc_soft_time c) v (oc_interaction c) (oc_wire c).

Definition set_interaction (v : Z) (c : oclient) : oclient :=
  MkOclient (oc_fd c) (oc_flags c) (oc_replstate c) (oc_on_ack c) (oc_buf c) (oc_sentlen c) (oc_reply c) (oc_fresh c) (oc_reply_bytes c) (oc_soft_time c) (oc_writable c) v (oc_wire c).

Definition set_wire (v : bytes) (c : oclient) : oclient :=
  MkOclient (oc_fd c) (oc_flags c) (oc_replstate c) (oc_on_ack c) (oc_buf c) (oc_sentlen c) (oc_reply c) (oc_fresh c) (oc_reply_bytes c) (oc_soft_time c) (oc_writable c) (oc_interaction c) v.

(** A client with the two lists of the server it may be in. *)

Record port := MkPort { po_client : oclient; po_pending : list Z; po_close : list Z }.

Definition set_client (c : oclient) (p : port) : port := MkPort c (po_pending p) (po_close p).

(** ** Limits *)

Record clientBufferLimitsConfig := MkLimits { hard_limit_bytes : Z; soft_limit_bytes : Z; soft_limit_seconds : Z }.

Definition clientBufferLimitsDefaults : list clientBufferLimitsConfig :=
  [MkLimits 0 0 0; MkLimits (1024 * 1024 * 256) (1024 * 1024 * 64) 60; MkLimits (1024 * 1024 * 32) (1024 * 1024 * 8) 60; MkLimits 0 0 0;
   MkLimits (1024 * 1024 * 1024) (1024 * 1024 * 512) 60].

Definition clientHasPendingReplies (c : oclient) : bool := negb (bool_decide (oc_buf c = [])) || negb (bool_decide (oc_reply c = [])).

(** [sizeof(listNode)] is 24. *)

Definition getClientOutputBufferMemoryUsage (c : oclient) : Z := to_ull (oc_reply_bytes c + 29 * Z.of_nat (length (oc_reply c))).

Definition getClientType (f : oflags) : Z :=
  if of_master f then CLIENT_TYPE_MASTER else
  if of_slave f && negb (of_monitor f) then CLIENT_TYPE_SLAVE else
  if of_crdt_master f then CLIENT_TYPE_CRDT_MASTER else
  if of_crdt_slave f then CLIENT_TYPE_CRDT_SLAVE else
  if of_pubsub f then CLIENT_TYPE_PUBSUB else CLIENT_TYPE_NORMAL.

Definition getClientTypeByName (name : bytes) : Z :=
  if strcaseeq name (str "normal") then CLIENT_TYPE_NORMAL else
  if strcaseeq name (str "slave") then CLIENT_TYPE_SLAVE else
  if strcaseeq name (str "pubsub") then CLIENT_TYPE_PUBSUB else
  if strcaseeq name (str "master") then CLIENT_TYPE_MASTER else
  if strcaseeq name (str "crdt.slave") then CLIENT_TYPE_CRDT_SLAVE else
  if strcaseeq name (str "crdt.master") then CLIENT_TYPE_CRDT_MASTER else -1.

Section limits.

Context (limits : list clientBufferLimitsConfig) (unixtime : Z).

Definition checkClientOutputBufferLimits (c : oclient) : res (bool * oclient) :=
  let used_mem := getClientOutputBufferMemoryUsage c in
  let class := getClientType (oc_flags c) in
  let class := if class =? CLIENT_TYPE_MASTER then CLIENT_TYPE_NORMAL else class in
  l ← need (limits !! Z.to_nat class);
  let hard := negb (hard_limit_bytes l =? 0) && (used_mem >=? hard_limit_bytes l) in
  let soft := negb (soft_limit_bytes l =? 0) && (used_mem >=? soft_limit_bytes l) in
  if soft then
    if oc_soft_time c =? 0 then Ok (hard, set_soft_time unixtime c)
    else Ok ((unixtime - oc_soft_time c >? soft_limit_seconds l) || hard, c)
  else Ok (hard, set_soft_time 0 c).

Definition freeClientAsync (id : Z) (p : port) : port :=
  let f := oc_flags (po_client p) in
  if of_close_asap f || of_lua f then p else
  MkPort (set_flags (set_close_asap true f) (po_client p)) (po_pending p) (po_close p ++ [id]).

Definition asyncCloseClientOnOutputBufferLimitReached (id : Z) (p : port) : res port :=
  let c := po_client p in
  _ ← c_assert (oc_reply_bytes c <? ULLONG_MAX - 1024 * 64);
  if (oc_reply_bytes c =? 0) || of_close_asap (oc_flags c) then Ok p else
  '(b, c) ← checkClientOutputBufferLimits c;
  let p := set_client c p in
  Ok (if (b : bool) then freeClientAsync id p else p).

(** ** Adding to the output *)

Definition online (c : oclient) : bool :=
  (oc_replstate c =? REPL_STATE_NONE) || ((oc_replstate c =? SLAVE_STATE_ONLINE) && negb (oc_on_ack c)).

Definition prepareClientToWrite (id : Z) (p : port) : bool * port :=
  let c := po_client p in
  let f := oc_flags c in
  if of_lua f || of_module f then (true, p) else
  if of_reply_off f || of_reply_skip f then (false, p) else
  if (of_master f || of_crdt_master f) && negb (of_force_reply f) then (false, p) else
  if oc_fd c <=? 0 then (false, p) else
  if negb (clientHasPendingReplies c) && negb (of_pending_write f) && online c
  then (true, MkPort (set_flags (set_pending_write true f) c) (id :: po_pending p) (po_close p))
  else (true, p).

(** [None] is [C_ERR]. *)

Definition _addReplyToBuffer (s : bytes) (c : oclient) : option oclient :=
  if of_close_after_reply (oc_flags c) then Some c else
  if negb (bool_decide (oc_reply c = [])) then None else
  if zlen s >? PROTO_REPLY_CHUNK_BYTES - zlen (oc_buf c) then None else
  Some (set_buf (oc_buf c ++ s) c).

Definition add_node (v : option bytes) (c : oclient) : oclient :=
  set_fresh (S (oc_fresh c)) (set_reply (oc_reply c ++ [MkNode (oc_fresh c) v]) c).

(** The last node takes the string if it is not one to be filled and does not get too
    long. *)

Definition extend_tail (s : bytes) (c : oclient) : oclient :=
  let c' := match last (oc_reply c) with
            | Some (MkNode a (Some tail)) =>
                if zlen tail + zlen s <=? PROTO_REPLY_CHUNK_BYTES
                then set_reply (removelast (oc_reply c) ++ [MkNode a (Some (tail ++ s))]) c
                else add_node (Some s) c
            | _ => add_node (Some s) c
            end in
  set_reply_bytes (to_ull (oc_reply_bytes c + zlen s)) c'.

Definition _addReplyStringToList (id : Z) (s : bytes) (p : port) : res port :=
  if of_close_after_reply (oc_flags (po_client p)) then Ok p else
  asyncCloseClientOnOutputBufferLimitReached id (set_client (extend_tail s (po_client p)) p).

Definition _addReplySdsToList (id : Z) (s : bytes) (p : port) : res port := _addReplyStringToList id s p.

(** Of an object that is not an integer. *)

Definition _addReplyObjectToList (id : Z) (o : strobj) (p : port) : res port :=
  match o with
  | ObjRaw s | ObjEmb s => _addReplyStringToList id s p
  | ObjInt _ => Undef
  end.

Definition addReplyString (id : Z) (s : bytes) (p : port) : res port :=
  let '(ok, p) := prepareClientToWrite id p in
  if negb ok then Ok p else
  match _addReplyToBuffer s (po_client p) with
  | Some c => Ok (set_client c p)
  | None => _addReplyStringToList id s p
  end.

Definition addReplySds (id : Z) (s : bytes) (p : port) : res port :=
  let '(ok, p) := prepareClientToWrite id p in
  if negb ok then Ok p else
  match _addReplyToBuffer s (po_client p) with
  | Some c => Ok (set_client c p)
  | None => _addReplySdsToList id s p
  end.

Definition add_object (id : Z) (o : strobj) (p : port) : res port :=
  match o with
  | ObjInt _ => Undef
  | ObjRaw s | ObjEmb s =>
      match _addReplyToBuffer s (po_client p) with
      | Some c => Ok (set_client c p)
      | None => _addReplyObjectToList id o p
      end
  end.

Definition addReply (id : Z) (obj : strobj) (p : port) : res port :=
  let '(ok, p) := prepareClientToWrite id p in
  if negb ok then Ok p else
  match obj with
  | ObjRaw _ | ObjEmb _ => add_object id obj p
  | ObjInt n =>
      let c := po_client p in
      match (if bool_decide (oc_reply c = []) && (PROTO_REPLY_CHUNK_BYTES - zlen (oc_buf c) >=? 32)
             then _addReplyToBuffer (int_text 32 n) c else None) with
      | Some c => Ok (set_client c p)
      | None => add_object id (getDecodedObject obj) p
      end
  end.

(** The address of the node. *)

Definition addDeferredMultiBulkLength (id : Z) (p : port) : option nat * port :=
  let '(ok, p) := prepareClientToWrite id p in
  if negb ok then (None, p) else (Some (oc_fresh (po_client p)), set_client (add_node None (po_client p)) p).

(** The node gets the length; the next one is joined to it, unless it is to be filled. *)

Fixpoint fill_node (node : nat) (len : bytes) (l : list rnode) : option (list rnode) :=
  match l with
  | [] => None
  | nd :: l =>
      if (nd_addr nd =? node)%nat then
        Some (match l with
              | MkNode _ (Some next) :: l => MkNode node (Some (len ++ next)) :: l
              | _ => MkNode node (Some len) :: l
              end)
      else l ← fill_node node len l; Some (nd :: l)
  end.

Definition setDeferredMultiBulkLength (id : Z) (node : option nat) (length : Z) (p : port) : res port :=
  match node with
  | None => Ok p
  | Some node =>
      let c := po_client p in
      let len := str "*" ++ print_Z length ++ CRLF in
      l ← need (fill_node node len (oc_reply c));
      asyncCloseClientOnOutputBufferLimitReached id (set_client (set_reply_bytes (to_ull (oc_reply_bytes c + zlen len)) (set_reply l c)) p)
  end.

(** What a command replies: strings, objects, and arrays whose length comes after their
    elements. *)

Inductive reply :=
| RString (s : bytes)
| RSds (s : bytes)
| RObject (o : strobj)
| RArray (body : list reply) (length : Z).

Fixpoint run_reply (id : Z) (r : reply) (p : port) : res port :=
  match r with
  | RString s => addReplyString id s p
  | RSds s => addReplySds id s p
  | RObject o => addReply id o p
  | RArray body length =>
      let '(node, p) := addDeferredMultiBulkLength id p in
      p ← (fix go (l : list reply) (p : port) : res port :=
             match l with
             | [] => Ok p
             | r :: l => p ← run_reply id r p; go l p
             end) body p;
      setDeferredMultiBulkLength id node length p
  end.

End limits.

(** [dst] takes the output of [src]. *)

Definition copyClientOutputBuffer (dst src : oclient) : oclient :=
  set_reply_bytes (oc_reply_bytes src) (set_fresh (oc_fresh src) (set_buf (oc_buf src) (set_reply (oc_reply src) dst))).

(** ** Writing to the socket *)

(** [sk_write k b]: what the [k]-th [write] of [b] returns, -1 for an error, and
    [sk_again k] tells that its error is [EAGAIN].  [sk_more k] is the test of the memory
    limit after it. *)

Record sock := MkSock { sk_write : nat -> bytes -> Z; sk_again : nat -> bool; sk_more : nat -> bool }.

(** The last result of [write], the bytes written, the number of calls, and the client. *)

Record written := MkWritten { wr_last : Z; wr_tot : Z; wr_calls : nat; wr_client : oclient }.

Section socket.

Context (sk : sock).

(** The socket took [n] bytes of [b]. *)

Definition took (n : Z) (b : bytes) (c : oclient) : oclient :=
  set_sentlen (oc_sentlen c + n) (set_wire (oc_wire c ++ take (Z.to_nat n) b) c).

Definition buf_done (c : oclient) : oclient :=
  if oc_sentlen c =? zlen (oc_buf c) then set_sentlen 0 (set_buf [] c) else c.

Definition node_done (o : bytes) (rest : list rnode) (c : oclient) : res oclient :=
  if oc_sentlen c =? zlen o then
    let c := set_reply_bytes (to_ull (oc_reply_bytes c - zlen o)) (set_sentlen 0 (set_reply rest c)) in
    _ ← c_assert (negb (bool_decide (rest = [])) || (oc_reply_bytes c =? 0));
    Ok c
  else Ok c.

Fixpoint write_loop (fuel : nat) (w : written) : res written :=
  match fuel with
  | O => Undef
  | S fuel =>
      let c := wr_client w in
      if negb (clientHasPendingReplies c) then Ok w else
      match (if bool_decide (oc_buf c = []) then
               match oc_reply c with
               | [] => Undef
               | nd :: rest =>
                   o ← need (nd_value nd);
                   Ok (Some (o, rest))
               end
             else Ok None) with
      | Ok (Some ([], rest)) => write_loop fuel (MkWritten (wr_last w) (wr_tot w) (wr_calls w) (set_reply rest c))
      | Ok head =>
          let b := drop (Z.to_nat (oc_sentlen c)) (match head with Some (o, _) => o | None => oc_buf c end) in
          let n := sk_write sk (wr_calls w) b in
          if n <=? 0 then Ok (MkWritten n (wr_tot w) (S (wr_calls w)) c) else
          c ← (match head with Some (o, rest) => node_done o rest (took n b c) | None => Ok (buf_done (took n b c)) end);
          let w := MkWritten n (wr_tot w + n) (S (wr_calls w)) c in
          if (wr_tot w >? NET_MAX_WRITES_PER_EVENT) && sk_more sk (wr_calls w) && negb (of_slave (oc_flags c)) then Ok w else write_loop fuel w
      | Abort => Abort
      | Undef => Undef
      end
  end.

(** Enough rounds: each writes a byte, or drops a node. *)

Definition unsent (c : oclient) : nat :=
  (length (oc_buf c) + sum_list_with (fun nd => S (length (default [] (nd_value nd)))) (oc_reply c))%nat.

(** The client, [None] if it is freed; and the number of calls of [write]. *)

Definition writeToClient (unixtime : Z) (handler_installed : bool) (k : nat) (c : oclient) : res (option oclient * nat) :=
  w ← write_loop (S (unsent c)) (MkWritten 0 0 k c);
  let c := wr_client w in
  if (wr_last w =? -1) && negb (sk_again sk (pred (wr_calls w))) then Ok (None, wr_calls w) else
  let c := if (wr_tot w >? 0) && negb (of_master (oc_flags c)) && negb (of_crdt_master (oc_flags c)) then set_interaction unixtime c else c in
  if clientHasPendingReplies c then Ok (Some c, wr_calls w) else
  let c := set_sentlen 0 c in
  let c := if (handler_installed : bool) then set_writable false c else c in
  Ok (if of_close_after_reply (oc_flags c) then None else Some c, wr_calls w).

(** ** All the clients *)

(** The clients, those that have something to write, and those that are to be closed. *)

Record net := MkNet { nt_clients : gmap Z oclient; nt_pending : list Z; nt_close : list Z }.

(** [freeClient] as far as the output goes: the socket is closed and no list has the client
    any more.  (The link with a master is cached then, without output.) *)

Definition drop_client (id : Z) (nt : net) : res net :=
  c ← need (nt_clients nt !! id);
  _ ← c_assert (negb (of_pending_write (oc_flags c)) || bool_decide (id ∈ nt_pending nt));
  _ ← c_assert (negb (of_close_asap (oc_flags c)) || bool_decide (id ∈ nt_close nt));
  Ok (MkNet (delete id (nt_clients nt))
        (if of_pending_write (oc_flags c) then List.filter (fun j => negb (j =? id)) (nt_pending nt) else nt_pending nt)
        (if of_close_asap (oc_flags c) then List.filter (fun j => negb (j =? id)) (nt_close nt) else nt_close nt)).

(** Commands that write to the output of a client. *)

Definition on_client (id : Z) (f : port -> res port) (nt : net) : res net :=
  c ← need (nt_clients nt !! id);
  p ← f (MkPort c (nt_pending nt) (nt_close nt));
  Ok (MkNet (<[id := po_client p]> (nt_clients nt)) (po_pending p) (po_close p)).

Definition write_client (unixtime : Z) (handler_installed : bool) (k : nat) (id : Z) (nt : net) : res (bool * nat * net) :=
  c ← need (nt_clients nt !! id);
  '(o, k) ← writeToClient unixtime handler_installed k c;
  match o with
  | Some c => Ok (true, k, MkNet (<[id := c]> (nt_clients nt)) (nt_pending nt) (nt_close nt))
  | None => nt ← drop_client id nt; Ok (false, k, nt)
  end.

Definition sendReplyToClient (unixtime : Z) (k : nat) (id : Z) (nt : net) : res (nat * net) :=
  '(_, k, nt) ← write_client unixtime true k id nt;
  Ok (k, nt).

(** [event_ok id]: [aeCreateFileEvent] registers the handler. *)

Definition handle_pending (event_ok : Z -> bool) (unixtime : Z) (k : nat) (id : Z) (nt : net) : res (nat * net) :=
  c ← need (nt_clients nt !! id);
  let nt := MkNet (<[id := set_flags (set_pending_write false (oc_flags c)) c]> (nt_clients nt)) (List.filter (fun j => negb (j =? id)) (nt_pending nt)) (nt_close nt) in
  '(ok, k, nt) ← write_client unixtime false k id nt;
  if negb (ok : bool) then Ok (k, nt) else
  c ← need (nt_clients nt !! id);
  if negb (clientHasPendingReplies c) then Ok (k, nt) else
  if event_ok id then Ok (k, MkNet (<[id := set_writable true c]> (nt_clients nt)) (nt_pending nt) (nt_close nt))
  else nt ← on_client id (fun p => Ok (freeClientAsync id p)) nt; Ok (k, nt).

Fixpoint pending_loop (event_ok : Z -> bool) (unixtime : Z) (ids : list Z) (k : nat) (nt : net) : res (nat * net) :=
  match ids with
  | [] => Ok (k, nt)
  | id :: ids => '(k, nt) ← handle_pending event_ok unixtime k id nt; pending_loop event_ok unixtime ids k nt
  end.

Definition handleClientsWithPendingWrites (event_ok : Z -> bool) (unixtime : Z) (k : nat) (nt : net) : res (nat * net) :=
  pending_loop event_ok unixtime (nt_pending nt) k nt.

(** The flag of the first client is cleared before it is freed. *)

Definition close_first (nt : net) : res net :=
  match nt_close nt with
  | [] => Ok nt
  | id :: rest =>
      c ← need (nt_clients nt !! id);
      nt ← drop_client id (MkNet (<[id := set_flags (set_close_asap false (oc_flags c)) c]> (nt_clients nt)) (nt_pending nt) (nt_close nt));
      Ok (MkNet (nt_clients nt) (nt_pending nt) rest)
  end.

Fixpoint close_loop (fuel : nat) (nt : net) : res net :=
  if bool_decide (nt_close nt = []) then Ok nt else
  match fuel with
  | O => Undef
  | S fuel => nt ← close_first nt; close_loop fuel nt
  end.

Definition freeClientsInAsyncFreeQueue (nt : net) : res net := close_loop (length (nt_close nt)) nt.

(** [slaves] are those of both servers, in order. *)

Fixpoint flushSlavesOutputBuffers (unixtime : Z) (slaves : list Z) (k : nat) (nt : net) : res (nat * net) :=
  match slaves with
  | [] => Ok (k, nt)
  | id :: slaves =>
      c ← need (nt_clients nt !! id);
      '(k, nt) ← (if oc_writable c && (oc_replstate c =? SLAVE_STATE_ONLINE) && clientHasPendingReplies c
                  then '(_, k, nt) ← write_client unixtime false k id nt; Ok (k, nt) else Ok (k, nt));
      flushSlavesOutputBuffers unixtime slaves k nt
  end.

(** The part of [putSlaveOnline] that concerns the output. *)

Definition slave_goes_online (event_ok : bool) (id : Z) (nt : net) : res net :=
  c ← need (nt_clients nt !! id);
  let nt := MkNet (<[id := set_online c]> (nt_clients nt)) (nt_pending nt) (nt_close nt) in
  if event_ok then Ok (MkNet (<[id := set_writable true (set_online c)]> (nt_clients nt)) (nt_pending nt) (nt_close nt))
  else drop_client id nt.

End socket.

(** ** Setting the limits *)

(** [None] is an error.  An empty number is 0, as the C library has it. *)

Definition memtoll (s : bytes) : res (option Z) :=
  let p := cstr s in
  let u := after_digits (match p with 45 :: t => t | _ => p end) in
  let mul :=
    if bool_decide (u = []) || strcaseeq u (str "b") then Some 1 else
    if strcaseeq u (str "k") then Some 1000 else
    if strcaseeq u (str "kb") then Some 1024 else
    if strcaseeq u (str "m") then Some (1000 * 1000) else
    if strcaseeq u (str "mb") then Some (1024 * 1024) else
    if strcaseeq u (str "g") then Some (1000 * 1000 * 1000) else
    if strcaseeq u (str "gb") then Some (1024 * 1024 * 1024) else None in
  match mul with
  | None => Ok None
  | Some mul =>
      let buf := take (length p - length u) p in
      if zlen buf >=? 128 then Ok None else
      if negb (bool_decide (strtoll_end buf = [])) then Ok None else
      let val := strtoll buf * mul in
      if (LLONG_MIN <=? val) && (val <=? LLONG_MAX) then Ok (Some val) else Undef
  end.

(** A class beyond the end of the array is written there all the same. *)

Definition set_limits (class : Z) (l : clientBufferLimitsConfig) (limits : list clientBufferLimitsConfig) : res (list clientBufferLimitsConfig) :=
  if (0 <=? class) && (class <? Z.of_nat (length limits)) then Ok (<[Z.to_nat class := l]> limits) else Undef.

(** CONFIG SET: the arguments are checked first, [j] counts them. *)

Fixpoint check_limits (j : nat) (v : list bytes) : res bool :=
  match v with
  | [] => Ok true
  | a :: v =>
      ok ← (if (j mod 4 =? 0)%nat then
              let class := getClientTypeByName (cstr a) in
              Ok (negb ((class =? -1) || (class =? CLIENT_TYPE_MASTER)))
            else
              o ← memtoll a;
              Ok (match o with Some val => 0 <=? val | None => false end));
      if (ok : bool) then check_limits (S j) v else Ok false
  end.

Fixpoint store_limits (v : list bytes) (limits : list clientBufferLimitsConfig) : res (list clientBufferLimitsConfig) :=
  match v with
  | class :: hard :: soft :: seconds :: v =>
      limits ← set_limits (getClientTypeByName (cstr class))
                 (MkLimits (to_ull (strtoll (cstr hard))) (to_ull (strtoll (cstr soft))) (to_int (strtoll (cstr seconds)))) limits;
      store_limits v limits
  | _ => Ok limits
  end.

(** [None] is the error [badfmt]. *)

Definition config_set_limits (value : bytes) (limits : list clientBufferLimitsConfig) : res (option (list clientBufferLimitsConfig)) :=
  v ← need (sdssplitlen value (str " "));
  if negb (length v mod 4 =? 0)%nat then Ok None else
  ok ← check_limits 0 v;
  if negb (ok : bool) then Ok None else
  limits ← store_limits v limits; Ok (Some limits).

(** The line of the configuration file; [None] stops the server with a message. *)

Definition config_load_limits (class hard soft seconds : bytes) (limits : list clientBufferLimitsConfig) : res (option (list clientBufferLimitsConfig)) :=
  let class := getClientTypeByName (cstr class) in
  if (class =? -1) || (class =? CLIENT_TYPE_MASTER) then Ok None else
  hard ← memtoll hard;
  soft ← memtoll soft;
  let soft_seconds := atoi (cstr seconds) in
  if soft_seconds <? 0 then Ok None else
  limits ← set_limits class (MkLimits (to_ull (default 0 hard)) (to_ull (default 0 soft)) soft_seconds) limits;
  Ok (Some limits).

(** The limits of the class [crdt.master] are beyond the end of the array: setting them
    writes there, and a link with a peer that has output in its list reads there. *)

Lemma crdt_master_limits_undefined :
  config_set_limits (str "crdt.master 0 0 0") clientBufferLimitsDefaults = Undef /\
  config_load_limits (str "crdt.master") (str "0") (str "0") (str "0") clientBufferLimitsDefaults = Undef.
Proof. by split; vm_compute. Qed.

Lemma peer_output_undefined unixtime c :
  of_master (oc_flags c) = false -> of_slave (oc_flags c) = false -> of_crdt_master (oc_flags c) = true ->
  checkClientOutputBufferLimits clientBufferLimitsDefaults unixtime c = Undef.
Proof. intros H1 H2 H3. unfold checkClientOutputBufferLimits, getClientType. by rewrite H1, H2, H3. Qed.

(** CONFIG SET accepts units, and ignores them. *)

Lemma config_set_ignores_units :
  config_set_limits (str "slave 256mb 64mb 60") clientBufferLimitsDefaults =
    Ok (Some (<[1%nat := MkLimits 256 64 60]> clientBufferLimitsDefaults)) /\
  config_load_limits (str "slave") (str "256mb") (str "64mb") (str "60") clientBufferLimitsDefaults = Ok (Some clientBufferLimitsDefaults).
Proof. by split; vm_compute. Qed.
