(* ===== verification/OutputTheory.v ===== *)
(** * The output of clients: nothing is lost, doubled or reordered

    Lemmas on [Output].  [out f c] is all that a client was sent and will be sent, if the
    lengths that are still to come are given by [f].  Adding appends to it, filling a length
    fixes it, and writing leaves it as it is. *)

From S2P Require Import Prelude Util Sds VectorClock VcTheory VcText VcClaims Proxy CrdtServer Gc Objects Backlog Resp PeerState Output.

(** ** What the list of strings stands for *)

Definition node_text (f : nat -> bytes) (nd : rnode) : bytes := default (f (nd_addr nd)) (nd_value nd).

Definition render (f : nat -> bytes) (l : list rnode) : bytes := concat (map (node_text f) l).

Definition addrs (l : list rnode) : list nat := map nd_addr l.

Definition is_hole (nd : rnode) : bool := match nd_value nd with None => true | Some _ => false end.

Definition holes (l : list rnode) : list nat := addrs (List.filter is_hole l).

Definition node_size (nd : rnode) : Z := zlen (default [] (nd_value nd)).

Definition reply_size (l : list rnode) : Z := foldr (fun nd n => node_size nd + n) 0 l.

Definition out (f : nat -> bytes) (c : oclient) : bytes :=
  oc_wire c ++ drop (Z.to_nat (oc_sentlen c)) (oc_buf c ++ render f (oc_reply c)).

Lemma zlen_app (s t : bytes) : zlen (s ++ t) = zlen s + zlen t.
Proof. unfold zlen. rewrite length_app. lia. Qed.

Lemma zlen_nonneg (s : bytes) : 0 <= zlen s.
Proof. unfold zlen. lia. Qed.

Lemma render_app f l l' : render f (l ++ l') = render f l ++ render f l'.
Proof. unfold render. by rewrite map_app, concat_app. Qed.

Lemma reply_size_app l l' : reply_size (l ++ l') = reply_size l + reply_size l'.
Proof. induction l as [|nd l IH]; [done|]. cbn [app reply_size foldr] in *. fold (reply_size (l ++ l')) (reply_size l). lia. Qed.

Lemma reply_size_nonneg l : 0 <= reply_size l.
Proof. induction l as [|nd l IH]; [done|]. cbn [reply_size foldr]. fold (reply_size l). pose proof (zlen_nonneg (default [] (nd_value nd))). unfold node_size. lia. Qed.

Lemma holes_app l l' : holes (l ++ l') = holes l ++ holes l'.
Proof. unfold holes, addrs. by rewrite List.filter_app, map_app. Qed.

Lemma addrs_app l l' : addrs (l ++ l') = addrs l ++ addrs l'.
Proof. apply map_app. Qed.

Lemma holes_addrs a l : a ∈ holes l -> a ∈ addrs l.
Proof.
  unfold holes, addrs. rewrite !list_elem_of_In, !in_map_iff. intros (nd & <- & H). apply filter_In in H as [H _]. by exists nd.
Qed.

Lemma render_ext f g l : (forall a, a ∈ holes l -> f a = g a) -> render f l = render g l.
Proof.
  induction l as [|nd l IH]; [done|]. intros H. unfold render in *. cbn [map concat]. f_equal.
  - unfold node_text. destruct (nd_value nd) eqn:E; [done|]. cbn. apply H. unfold holes. cbn [List.filter]. unfold is_hole. rewrite E. by left.
  - apply IH. intros a Ha. apply H. unfold holes in *. cbn [List.filter]. destruct (is_hole nd); [by right|done].
Qed.

Lemma render_closed f g l : holes l = [] -> render f l = render g l.
Proof. intros H. apply render_ext. rewrite H. intros a Ha. by apply not_elem_of_nil in Ha. Qed.

(** ** The invariant of the output of one client *)

Definition head_sent (sent : Z) (l : list rnode) : Prop :=
  match l with
  | MkNode _ (Some v) :: _ => v <> [] /\ sent < zlen v \/ sent = 0
  | _ => sent = 0
  end.

Record oc_ok (c : oclient) : Prop := {
  ok_bytes : oc_reply_bytes c = reply_size (oc_reply c);
  ok_size : reply_size (oc_reply c) < 2 ^ 62;
  ok_buf : zlen (oc_buf c) <= PROTO_REPLY_CHUNK_BYTES;
  ok_sent : 0 <= oc_sentlen c;
  ok_head : if bool_decide (oc_buf c = []) then head_sent (oc_sentlen c) (oc_reply c) else oc_sentlen c < zlen (oc_buf c);
  ok_nodup : NoDup (addrs (oc_reply c));
  ok_fresh : Forall (fun a => a < oc_fresh c)%nat (addrs (oc_reply c))
}.

Lemma sent_le f c : oc_ok c -> (Z.to_nat (oc_sentlen c) <= length (oc_buf c ++ render f (oc_reply c)))%nat.
Proof.
  intros [_ _ _ H0 Hh _ _]. rewrite length_app. unfold zlen in *. case_bool_decide as E; [|lia]. unfold head_sent in Hh.
  destruct (oc_reply c) as [|[a [v|]] l]; [lia| |lia]. unfold render. cbn [map concat]. rewrite length_app. unfold node_text. cbn. unfold zlen in *. lia.
Qed.

(** Adding [s] at the end. *)

Record appended (s : bytes) (l l' : list rnode) : Prop := {
  ap_render : forall f, render f l' = render f l ++ s;
  ap_holes : holes l' = holes l;
  ap_size : reply_size l' = reply_size l + zlen s
}.

Lemma out_appended s c c' :
  oc_ok c -> oc_wire c' = oc_wire c -> oc_sentlen c' = oc_sentlen c ->
  (forall f, oc_buf c' ++ render f (oc_reply c') = (oc_buf c ++ render f (oc_reply c)) ++ s) -> forall f, out f c' = out f c ++ s.
Proof. intros Hok Hw Hs H f. unfold out. rewrite Hw, Hs, H, drop_app_le by (by apply sent_le). by rewrite app_assoc. Qed.

(** ** Adding to the buffer and to the list *)

Lemma addReplyToBuffer_spec s c c' :
  oc_ok c -> of_close_after_reply (oc_flags c) = false -> _addReplyToBuffer s c = Some c' ->
  c' = set_buf (oc_buf c ++ s) c /\ oc_ok c' /\ forall f, out f c' = out f c ++ s.
Proof.
  intros Hok Hc. unfold _addReplyToBuffer. rewrite Hc. case_bool_decide as Er; [|done]. cbn [negb]. rewrite Z.gtb_ltb. destruct (Z.ltb_spec (PROTO_REPLY_CHUNK_BYTES - zlen (oc_buf c)) (zlen s)) as [H|H]; [done|].
  intros [= <-]. split; [done|]. split.
  - destruct Hok as [H1 H2 H3 H4 H5 H6 H7]. constructor; cbn; try done.
    + rewrite zlen_app. lia.
    + destruct (oc_buf c) as [|x b] eqn:Eb.
      * rewrite bool_decide_true in H5 by done. cbn [app]. case_bool_decide as E; [done|]. rewrite Er in H5. cbn in H5. destruct s; [done|]. unfold zlen. cbn [length]. lia.
      * rewrite bool_decide_false in H5 by done. rewrite bool_decide_false by done. rewrite zlen_app. pose proof (zlen_nonneg s). lia.
  - apply out_appended; [done|done|done|]. intros f. cbn. rewrite Er. unfold render. cbn. by rewrite !app_nil_r.
Qed.

(** What stays the same when output is added. *)

Record same_setup (c c' : oclient) : Prop := {
  ss_fd : oc_fd c' = oc_fd c;
  ss_flags : set_pending_write false (set_close_asap false (oc_flags c')) = set_pending_write false (set_close_asap false (oc_flags c));
  ss_state : oc_replstate c' = oc_replstate c /\ oc_on_ack c' = oc_on_ack c;
  ss_writable : oc_writable c' = oc_writable c
}.

Lemma same_setup_refl c : same_setup c c.
Proof. by constructor. Qed.

Lemma same_setup_trans c1 c2 c3 : same_setup c1 c2 -> same_setup c2 c3 -> same_setup c1 c3.
Proof. intros [A1 A2 [A3 A4] A5] [B1 B2 [B3 B4] B5]. constructor; [congruence|congruence|split; congruence|congruence]. Qed.

Lemma extend_tail_cases s c :
  oc_reply (extend_tail s c) = oc_reply c ++ [MkNode (oc_fresh c) (Some s)] /\ oc_fresh (extend_tail s c) = S (oc_fresh c) \/
  exists l a tail, oc_reply c = l ++ [MkNode a (Some tail)] /\ oc_reply (extend_tail s c) = l ++ [MkNode a (Some (tail ++ s))] /\ oc_fresh (extend_tail s c) = oc_fresh c.
Proof.
  unfold extend_tail. cbn [oc_reply oc_fresh set_reply_bytes]. destruct (oc_reply c) as [|nd l _] eqn:E using rev_ind; [left; cbn; by rewrite E|].
  rewrite last_snoc, removelast_last. destruct nd as [a [tail|]]; [|left; cbn; by rewrite E]. destruct (_ <=? _); [|left; cbn; by rewrite E]. right. by exists l, a, tail.
Qed.

Lemma extend_tail_appended s c : appended s (oc_reply c) (oc_reply (extend_tail s c)).
Proof.
  destruct (extend_tail_cases s c) as [[-> _]|(l & a & tail & -> & -> & _)]; constructor.
  - intros f. rewrite render_app. unfold render at 2. cbn. by rewrite app_nil_r.
  - rewrite holes_app. cbn. by rewrite app_nil_r.
  - rewrite reply_size_app. cbn. unfold node_size. cbn. lia.
  - intros f. rewrite !render_app. unfold render at 2 4. cbn. by rewrite !app_nil_r, app_assoc.
  - by rewrite !holes_app.
  - rewrite !reply_size_app. cbn. unfold node_size. cbn. rewrite zlen_app. lia.
Qed.

Lemma addrs_fresh v n (l : list rnode) :
  NoDup (addrs l) -> Forall (fun a => a < n)%nat (addrs l) ->
  NoDup (addrs (l ++ [MkNode n v])) /\ Forall (fun a => a < S n)%nat (addrs (l ++ [MkNode n v])).
Proof.
  intros Hn Hf. rewrite addrs_app. cbn. split.
  - apply NoDup_app. split; [done|]. split; [|by apply NoDup_singleton]. intros a Ha ->%list_elem_of_singleton. rewrite Forall_forall in Hf. apply Hf in Ha. lia.
  - apply Forall_app. split; [eapply Forall_impl; [exact Hf|]; cbn; lia|]. apply Forall_singleton. lia.
Qed.

Lemma extend_tail_addrs s c :
  NoDup (addrs (oc_reply c)) -> Forall (fun a => a < oc_fresh c)%nat (addrs (oc_reply c)) ->
  NoDup (addrs (oc_reply (extend_tail s c))) /\ Forall (fun a => a < oc_fresh (extend_tail s c))%nat (addrs (oc_reply (extend_tail s c))).
Proof.
  intros Hn Hf. destruct (extend_tail_cases s c) as [[-> ->]|(l & a & tail & E & -> & ->)]; [by apply addrs_fresh|]. rewrite E, addrs_app in *. done.
Qed.

Lemma head_sent_extend sent s c : 0 <= sent -> head_sent sent (oc_reply c) -> head_sent sent (oc_reply (extend_tail s c)).
Proof.
  intros H0 Hh. destruct (extend_tail_cases s c) as [[-> _]|(l & a & tail & E & -> & _)].
  - destruct (oc_reply c) as [|nd l]; [by right|done].
  - rewrite E in Hh. destruct l as [|nd l]; [|done]. cbn in Hh |- *. rewrite zlen_app. pose proof (zlen_nonneg s).
    destruct Hh as [[Hn Hl]| ->]; [left|by right]. split; [by destruct tail|lia].
Qed.

Lemma extend_tail_ok s c :
  oc_ok c -> reply_size (oc_reply c) + zlen s < 2 ^ 62 ->
  oc_ok (extend_tail s c) /\ forall f, out f (extend_tail s c) = out f c ++ s.
Proof.
  intros Hok Hlt. pose proof Hok as [H1 H2 H3 H4 H5 H6 H7]. destruct (extend_tail_appended s c) as [A1 A2 A3]. destruct (extend_tail_addrs s c H6 H7) as [B1 B2].
  assert (oc_buf (extend_tail s c) = oc_buf c /\ oc_sentlen (extend_tail s c) = oc_sentlen c /\ oc_wire (extend_tail s c) = oc_wire c) as (Eb & Es & Ew).
  { unfold extend_tail. destruct (last _) as [[a [t|]]|]; [destruct (_ <=? _)|..]; done. }
  split.
  - constructor; [|rewrite A3; lia|by rewrite Eb|by rewrite Es| |done|done].
    + rewrite A3. unfold extend_tail. cbn [oc_reply_bytes set_reply_bytes]. rewrite H1. apply Z.mod_small. pose proof (reply_size_nonneg (oc_reply c)). pose proof (zlen_nonneg s). lia.
    + rewrite Eb, Es. destruct (bool_decide _); [by apply head_sent_extend|done].
  - apply out_appended; [done|done|done|]. intros f. by rewrite Eb, A1, app_assoc.
Qed.

(** ** Filling a length *)

Definition with_length (node : nat) (len : bytes) (f : nat -> bytes) (a : nat) : bytes := if decide (a = node) then len else f a.

Lemma filter_absent node (l : list nat) : node ∉ l -> List.filter (fun a => negb (a =? node)%nat) l = l.
Proof.
  induction l as [|a l IH]; [done|]. intros [H1 H2]%not_elem_of_cons. cbn [List.filter]. destruct (Nat.eqb_spec a node); [congruence|]. cbn [negb]. by rewrite IH.
Qed.

Lemma fill_node_spec node len l :
  NoDup (addrs l) -> node ∈ holes l ->
  exists l', fill_node node len l = Some l' /\ (forall f, render f l' = render (with_length node len f) l) /\
    holes l' = List.filter (fun a => negb (a =? node)%nat) (holes l) /\ reply_size l' = reply_size l + zlen len /\ addrs l' `sublist_of` addrs l /\
    (forall sent, 0 <= sent -> head_sent sent l -> head_sent sent l').
Proof.
  induction l as [|[a v] l IH]; [by intros _ H%not_elem_of_nil|]. cbn [addrs map nd_addr]. fold (addrs l). intros [Ha Hn]%NoDup_cons Hin. cbn [fill_node nd_addr].
  destruct (Nat.eqb_spec a node) as [-> |Hne].
  - assert (node ∉ holes l) as Hnl by (intros H; by apply holes_addrs in H).
    assert (v = None) as ->. { unfold holes in Hin. cbn in Hin. destruct v; [|done]. cbn in Hin. fold (holes l) in Hin. done. }
    assert (forall f, render (with_length node len f) l = render f l) as Hr.
    { intros f. apply render_ext. intros a Hh. unfold with_length. rewrite decide_False; [done|]. intros ->. done. }
    assert (forall f, render (with_length node len f) (MkNode node None :: l) = len ++ render f l) as Hr1.
    { intros f. unfold render. cbn [map concat]. fold (render (with_length node len f) l). rewrite Hr. unfold node_text. cbn. unfold with_length. by rewrite decide_True. }
    assert (List.filter (fun a => negb (a =? node)%nat) (holes (MkNode node None :: l)) = holes l) as Hh.
    { unfold holes at 1. cbn [List.filter is_hole nd_value addrs map nd_addr]. fold (addrs (List.filter is_hole l)). fold (holes l). rewrite Nat.eqb_refl. cbn [negb]. by apply filter_absent. }
    rewrite Hh. eexists. split; [reflexivity|]. destruct l as [|[b [next|]] l].
    + split; [intros f; rewrite Hr1; unfold render; cbn; by rewrite app_nil_r|]. split; [done|]. split; [cbn; unfold node_size; cbn; rewrite ?(eq_refl : zlen [] = 0); lia|]. split; [done|]. intros sent _ ->. by right.
    + split; [intros f; rewrite Hr1; unfold render; cbn; by rewrite app_assoc|]. split; [done|]. split; [cbn; unfold node_size; cbn; rewrite zlen_app, ?(eq_refl : zlen [] = 0); lia|].
      split; [cbn; apply sublist_skip, sublist_cons; done|]. intros sent _ ->. by right.
    + split; [intros f; rewrite Hr1; done|]. split; [done|]. split; [cbn; unfold node_size; cbn; rewrite ?(eq_refl : zlen [] = 0); lia|]. split; [done|]. intros sent _ ->. by right.
  - assert (node ∈ holes l) as Hin'. { unfold holes in Hin. cbn in Hin. destruct (is_hole _); [|done]. cbn in Hin. by apply elem_of_cons in Hin as [? |?]; [congruence|]. }
    destruct (IH Hn Hin') as (l' & -> & H1 & H2 & H3 & H4 & H5). cbn [mbind option_bind]. eexists. split; [reflexivity|].
    split; [|split; [|split; [|split]]].
    + intros f. unfold render. cbn [map concat]. fold (render f l') (render (with_length node len f) l). rewrite H1. f_equal. unfold node_text. cbn. destruct v; [done|]. cbn. unfold with_length. by rewrite decide_False.
    + unfold holes in *. cbn [List.filter]. destruct (is_hole _); [|done]. cbn [addrs map nd_addr List.filter]. fold (addrs (List.filter is_hole l')) (addrs (List.filter is_hole l)).
      destruct (Nat.eqb_spec a node); [congruence|]. cbn [negb]. by rewrite H2.
    + cbn. fold (reply_size l) (reply_size l'). lia.
    + cbn. by apply sublist_skip.
    + done.
Qed.

Lemma sublist_elem {A} (l k : list A) x : l `sublist_of` k -> x ∈ l -> x ∈ k.
Proof. induction 1 as [|y l k Hs IH|y l k Hs IH]; [done| |by right; apply IH]. intros [-> |H]%elem_of_cons; [by left|right; by apply IH]. Qed.

Lemma sublist_nodup {A} (l k : list A) : l `sublist_of` k -> NoDup k -> NoDup l.
Proof.
  induction 1 as [|x l k Hs IH|x l k Hs IH]; [done| |]; intros [Hx Hk]%NoDup_cons; [|by apply IH]. apply NoDup_cons. split; [|by apply IH].
  intros H. apply Hx. by eapply sublist_elem.
Qed.

Lemma set_reply_ok node len c l :
  oc_ok c -> node ∈ holes (oc_reply c) -> reply_size (oc_reply c) + zlen len < 2 ^ 62 -> fill_node node len (oc_reply c) = Some l ->
  let c' := set_reply_bytes (to_ull (oc_reply_bytes c + zlen len)) (set_reply l c) in
  oc_ok c' /\ (forall f, out f c' = out (with_length node len f) c) /\ holes l = List.filter (fun a => negb (a =? node)%nat) (holes (oc_reply c)) /\ reply_size l = reply_size (oc_reply c) + zlen len.
Proof.
  intros Hok Hin Hlt Ef c'. destruct Hok as [H1 H2 H3 H4 H5 H6 H7]. destruct (fill_node_spec node len (oc_reply c) H6 Hin) as (l' & E & A1 & A2 & A3 & A4 & A5).
  rewrite Ef in E. injection E as <-. split; [constructor; cbn [c' oc_reply_bytes oc_reply oc_buf oc_sentlen oc_fresh set_reply_bytes set_reply]|].
  - rewrite A3, H1. apply Z.mod_small. pose proof (reply_size_nonneg (oc_reply c)). pose proof (zlen_nonneg len). lia.
  - lia.
  - done.
  - done.
  - destruct (bool_decide _); [by apply A5|done].
  - by eapply sublist_nodup.
  - rewrite Forall_forall in *. intros a Ha. apply H7. by eapply sublist_elem.
  - split; [|done]. intros f. unfold out. cbn [c' oc_wire oc_reply oc_buf oc_sentlen set_reply_bytes set_reply]. by rewrite A1.
Qed.

(** ** One client with its lists *)

Section ports.

Context (limits : list clientBufferLimitsConfig) (unixtime : Z).

Definition class_ok (c : oclient) : Prop :=
  is_Some (limits !! Z.to_nat (if getClientType (oc_flags c) =? CLIENT_TYPE_MASTER then CLIENT_TYPE_NORMAL else getClientType (oc_flags c))).

(** Output that waits will be written: the client is in the list of those that have something
    to write, or its handler is installed, or it is to be closed; or it is one without a
    socket, or a slave that is not to be written to yet. *)

Definition armed (c : oclient) : Prop :=
  of_pending_write (oc_flags c) = true \/ oc_writable c = true \/ of_close_asap (oc_flags c) = true \/ of_lua (oc_flags c) || of_module (oc_flags c) = true \/ online c = false.

Definition wakes (c : oclient) : Prop := clientHasPendingReplies c = true -> armed c.

Record port_ok (id : Z) (p : port) : Prop := {
  po_ok : oc_ok (po_client p);
  po_wakes : wakes (po_client p);
  po_in_pending : id ∈ po_pending p <-> of_pending_write (oc_flags (po_client p)) = true;
  po_in_close : id ∈ po_close p <-> of_close_asap (oc_flags (po_client p)) = true;
  po_nodup : NoDup (po_pending p) /\ NoDup (po_close p)
}.

(** Only this client may have entered the lists. *)

Definition others_kept (id : Z) (p p' : port) : Prop :=
  forall j, j <> id -> (j ∈ po_pending p' <-> j ∈ po_pending p) /\ (j ∈ po_close p' <-> j ∈ po_close p).

Lemma others_refl id p : others_kept id p p.
Proof. by intros j _. Qed.

Lemma others_trans id p1 p2 p3 : others_kept id p1 p2 -> others_kept id p2 p3 -> others_kept id p1 p3.
Proof. intros H1 H2 j Hj. destruct (H1 j Hj) as [A1 A2], (H2 j Hj) as [B1 B2]. split; etrans; eassumption. Qed.

Definition accepts (c : oclient) : bool :=
  let f := oc_flags c in
  of_lua f || of_module f || negb (of_reply_off f || of_reply_skip f || (of_master f || of_crdt_master f) && negb (of_force_reply f) || (oc_fd c <=? 0)).

(** The fields that the flags of the two lists do not touch. *)

Definition same_output (c c' : oclient) : Prop :=
  oc_buf c' = oc_buf c /\ oc_sentlen c' = oc_sentlen c /\ oc_reply c' = oc_reply c /\ oc_fresh c' = oc_fresh c /\ oc_reply_bytes c' = oc_reply_bytes c /\ oc_wire c' = oc_wire c.

Lemma same_output_ok c c' : same_output c c' -> oc_ok c -> oc_ok c' /\ forall f, out f c' = out f c.
Proof.
  intros (E1 & E2 & E3 & E4 & E5 & E6) [H1 H2 H3 H4 H5 H6 H7]. split; [|intros f; unfold out; by rewrite E6, E2, E1, E3].
  constructor; rewrite ?E1, ?E2, ?E3, ?E4, ?E5; done.
Qed.

Lemma same_setup_class c c' : same_setup c c' -> class_ok c -> class_ok c'.
Proof.
  intros [_ H _ _]. assert (getClientType (oc_flags c') = getClientType (oc_flags c)) as E.
  { unfold getClientType. injection H as F1 F2 F3 F4 F5 F6 F7 F8 F9 F10 F11 F12. by rewrite ?F1, ?F2, ?F3, ?F4, ?F5, ?F6, ?F7, ?F8, ?F9, ?F10, ?F11, ?F12. }
  unfold class_ok. by rewrite E.
Qed.

Lemma same_setup_accepts c c' : same_setup c c' -> accepts c' = accepts c /\ of_close_after_reply (oc_flags c') = of_close_after_reply (oc_flags c) /\ online c' = online c.
Proof.
  intros [Ef H [E1 E2] _]. unfold accepts, online. rewrite Ef, E1, E2. injection H as F1 F2 F3 F4 F5 F6 F7 F8 F9 F10 F11 F12. by rewrite ?F1, ?F2, ?F3, ?F4, ?F5, ?F6, ?F7, ?F8, ?F9, ?F10, ?F11, ?F12.
Qed.

Lemma prepare_spec id p :
  port_ok id p ->
  exists p', prepareClientToWrite id p = (accepts (po_client p), p') /\ port_ok id p' /\ others_kept id p p' /\ same_setup (po_client p) (po_client p') /\
    same_output (po_client p) (po_client p') /\ (accepts (po_client p) = true -> armed (po_client p')).
Proof.
  intros Hok. unfold prepareClientToWrite, accepts. set (c := po_client p).
  assert (same_output c c) as Hso by done. pose proof (same_setup_refl c) as Hss. pose proof (others_refl id p) as Hor.
  destruct (of_lua (oc_flags c) || of_module (oc_flags c)) eqn:E1; [exists p; repeat (split; [done|]); intros _; by do 3 right; left|].
  destruct (of_reply_off (oc_flags c) || of_reply_skip (oc_flags c)) eqn:E2; [by exists p|].
  destruct ((of_master (oc_flags c) || of_crdt_master (oc_flags c)) && negb (of_force_reply (oc_flags c))) eqn:E3; [by exists p|].
  destruct (oc_fd c <=? 0) eqn:E4; [by exists p|]. cbn [orb negb].
  destruct (clientHasPendingReplies c) eqn:E5; cbn [negb andb]. { exists p. repeat (split; [done|]). intros _. by apply (po_wakes id p Hok). }
  destruct (of_pending_write (oc_flags c)) eqn:E6; cbn [negb andb]. { exists p. repeat (split; [done|]). intros _. by left. }
  destruct (online c) eqn:E7. 2:{ exists p. repeat (split; [done|]). intros _. by do 4 right. }
  eexists. split; [reflexivity|]. destruct Hok as [H1 H2 H3 H4 [H5 H6]]. fold c in H3, H4. split; [constructor; cbn [po_client po_pending po_close]|].
  - by apply (same_output_ok c).
  - intros Hp. by left.
  - split; [done|]. intros _. by left.
  - done.
  - split; [|done]. apply NoDup_cons. split; [|done]. intros Hi%H3. congruence.
  - split; [|split; [|split]].
    + intros j Hj. cbn. split; [|done]. rewrite elem_of_cons. intuition.
    + by constructor.
    + done.
    + intros _. by left.
Qed.

(** A step that adds [t] to the output. *)

Record step (id : Z) (t : bytes) (p p' : port) : Prop := {
  st_ok : port_ok id p';
  st_others : others_kept id p p';
  st_setup : same_setup (po_client p) (po_client p');
  st_armed : armed (po_client p) -> armed (po_client p');
  st_holes : holes (oc_reply (po_client p')) = holes (oc_reply (po_client p));
  st_size : reply_size (oc_reply (po_client p')) <= reply_size (oc_reply (po_client p)) + zlen t;
  st_fresh : (oc_fresh (po_client p) <= oc_fresh (po_client p'))%nat;
  st_out : forall f, out f (po_client p') = out f (po_client p) ++ t
}.

Lemma step_refl id p : port_ok id p -> step id [] p p.
Proof. intros H. constructor; try done; [|intros f; by rewrite app_nil_r]. rewrite Z.add_0_r. lia. Qed.

Lemma step_trans id t1 t2 p1 p2 p3 : step id t1 p1 p2 -> step id t2 p2 p3 -> step id (t1 ++ t2) p1 p3.
Proof.
  intros [A1 A2 A3 A4 A5 A6 A7 A8] [B1 B2 B3 B4 B5 B6 B7 B8]. constructor; [done|by eapply others_trans|by eapply same_setup_trans|auto|congruence|rewrite zlen_app; lia|lia|].
  intros f. by rewrite B8, A8, app_assoc.
Qed.

Lemma asyncClose_spec id p :
  port_ok id p -> class_ok (po_client p) ->
  exists p', asyncCloseClientOnOutputBufferLimitReached limits unixtime id p = Ok p' /\ step id [] p p' /\ same_output (po_client p) (po_client p').
Proof.
  intros Hok [l Hl]. unfold asyncCloseClientOnOutputBufferLimitReached. pose proof (po_ok id p Hok) as [H1 H2 _ _ _ _ _].
  rewrite H1. unfold ULLONG_MAX. rewrite (proj2 (Z.ltb_lt _ _)) by lia. cbn [c_assert mbind res_bind].
  assert (exists p', Ok p = Ok p' /\ step id [] p p' /\ same_output (po_client p) (po_client p')) as Hsame by (exists p; split; [done|split; [by apply step_refl|done]]).
  destruct (reply_size _ =? 0); [done|]. destruct (of_close_asap (oc_flags (po_client p))) eqn:Ec; [done|]. cbn [orb]. clear Hsame.
  assert (exists b c', checkClientOutputBufferLimits limits unixtime (po_client p) = Ok (b, c') /\ exists t, c' = set_soft_time t (po_client p)) as (b & c' & -> & t & ->).
  { unfold checkClientOutputBufferLimits. rewrite Hl. cbn [need mbind res_bind]. destruct (_ && _); [destruct (_ =? 0)|]; eexists _, _; (split; [reflexivity|]); eexists; [done| |done].
    instantiate (1 := oc_soft_time (po_client p)). by destruct (po_client p). }
  cbn [mbind res_bind]. set (p1 := set_client (set_soft_time t (po_client p)) p).
  assert (same_output (po_client p) (po_client p1)) as Hso by done. destruct (same_output_ok _ _ Hso (po_ok id p Hok)) as [Hok1 Hout].
  assert (step id [] p p1) as Hs.
  { destruct Hok as [A1 A2 A3 A4 A5]. constructor; [by constructor|by intros j _|by constructor|done|done|rewrite Z.add_0_r; done|done|]. intros f. by rewrite Hout, app_nil_r. }
  destruct b; [|by exists p1]. unfold freeClientAsync. change (oc_flags (po_client p1)) with (oc_flags (po_client p)). rewrite Ec. cbn [orb].
  destruct (of_lua _); [by exists p1|]. eexists. split; [reflexivity|]. split; [|done].
  destruct Hok as [A1 A2 A3 A4 [A5 A6]]. constructor; cbn [po_client po_pending po_close]; try done.
  - constructor; cbn [po_client po_pending po_close]; [by apply (same_output_ok (po_client p))|intros _; by do 2 right; left|done| |].
    + split; [done|]. intros _. apply elem_of_app. right. by apply list_elem_of_singleton.
    + split; [done|]. apply NoDup_app. split; [done|]. split; [|by apply NoDup_singleton]. intros j Hj ->%list_elem_of_singleton. apply A4 in Hj. congruence.
  - intros j Hj. cbn. split; [done|]. rewrite elem_of_app, list_elem_of_singleton. intuition.
  - intros _. by do 2 right; left.
  - rewrite Z.add_0_r. done.
  - intros f. by rewrite app_nil_r.
Qed.

(** A client that is armed may get other output. *)

Lemma port_put id p c' :
  port_ok id p -> armed (po_client p) -> oc_ok c' -> oc_flags c' = oc_flags (po_client p) -> same_setup (po_client p) c' ->
  port_ok id (set_client c' p) /\ armed c'.
Proof.
  intros [A1 A2 A3 A4 A5] Ha Hok Hf Hss. assert (armed c') as Ha'.
  { destruct (same_setup_accepts _ _ Hss) as (_ & _ & Hon). unfold armed. by rewrite Hf, Hon, (ss_writable _ _ Hss). }
  split; [|done]. constructor; cbn [set_client po_client po_pending po_close]; [done|by intros _|by rewrite Hf|by rewrite Hf|done].
Qed.

Lemma put_output id t p c' :
  port_ok id p -> armed (po_client p) -> oc_ok c' -> oc_flags c' = oc_flags (po_client p) -> same_setup (po_client p) c' ->
  holes (oc_reply c') = holes (oc_reply (po_client p)) -> reply_size (oc_reply c') <= reply_size (oc_reply (po_client p)) + zlen t ->
  (oc_fresh (po_client p) <= oc_fresh c')%nat -> (forall f, out f c' = out f (po_client p) ++ t) -> step id t p (set_client c' p).
Proof. intros Hp Ha Hok Hf Hss Hh Hs Hfr Ho. destruct (port_put id p c' Hp Ha Hok Hf Hss). by constructor. Qed.

Lemma extend_tail_setup s c : same_setup c (extend_tail s c) /\ oc_flags (extend_tail s c) = oc_flags c /\ (oc_fresh c <= oc_fresh (extend_tail s c))%nat.
Proof.
  unfold extend_tail. destruct (last _) as [[a [t|]]|]; [destruct (_ <=? _)|..]; cbn; (split; [by constructor|]); (split; [done|lia]).
Qed.

Definition closing (c : oclient) : bool := of_close_after_reply (oc_flags c).

Lemma to_list_spec id s p :
  port_ok id p -> armed (po_client p) -> class_ok (po_client p) -> reply_size (oc_reply (po_client p)) + zlen s < 2 ^ 62 ->
  exists p', _addReplyStringToList limits unixtime id s p = Ok p' /\ step id (if closing (po_client p) then [] else s) p p'.
Proof.
  intros Hok Ha Hcl Hs. unfold _addReplyStringToList, closing. destruct (of_close_after_reply _); [exists p; split; [done|by apply step_refl]|].
  destruct (extend_tail_ok s (po_client p) (po_ok id p Hok) Hs) as [Hok1 Ho]. destruct (extend_tail_setup s (po_client p)) as (Hss & Hf & Hfr). destruct (extend_tail_appended s (po_client p)) as [_ Hh Hsz].
  assert (step id s p (set_client (extend_tail s (po_client p)) p)) as H1 by (apply put_output; try done; lia).
  destruct (asyncClose_spec id (set_client (extend_tail s (po_client p)) p) (st_ok _ _ _ _ H1)) as (p' & -> & H2 & _); [by apply (same_setup_class (po_client p))|].
  exists p'. split; [done|]. rewrite <- (app_nil_r s). by eapply step_trans.
Qed.

(** Into the buffer if there is room, else into the list. *)

Lemma put_spec id s p :
  port_ok id p -> armed (po_client p) -> class_ok (po_client p) -> reply_size (oc_reply (po_client p)) + zlen s < 2 ^ 62 ->
  exists p', match _addReplyToBuffer s (po_client p) with Some c => Ok (set_client c p) | None => _addReplyStringToList limits unixtime id s p end = Ok p' /\
    step id (if closing (po_client p) then [] else s) p p'.
Proof.
  intros Hok Ha Hcl Hs. destruct (_addReplyToBuffer s (po_client p)) as [c|] eqn:E; [|by apply to_list_spec]. unfold closing. destruct (of_close_after_reply (oc_flags (po_client p))) eqn:Ec.
  - unfold _addReplyToBuffer in E. rewrite Ec in E. injection E as <-. exists p. split; [by destruct p|by apply step_refl].
  - destruct (addReplyToBuffer_spec s _ c (po_ok id p Hok) Ec E) as (Ecc & Hok1 & Ho). exists (set_client c p). split; [done|].
    apply put_output; try done; subst c; try done. cbn [set_buf oc_reply]. pose proof (zlen_nonneg s). lia.
Qed.

Lemma step_prepared id t p p1 p' :
  step id [] p p1 -> step id t p1 p' -> step id t p p'.
Proof. intros H1 H2. by apply (step_trans id [] t p p1 p'). Qed.

Lemma prepare_step id p :
  port_ok id p -> class_ok (po_client p) ->
  exists p', prepareClientToWrite id p = (accepts (po_client p), p') /\ step id [] p p' /\ same_output (po_client p) (po_client p') /\ class_ok (po_client p') /\
    closing (po_client p') = closing (po_client p) /\ (accepts (po_client p) = true -> armed (po_client p')).
Proof.
  intros Hok Hcl. destruct (prepare_spec id p Hok) as (p' & E & Hok' & Ho & Hss & Hso & Ha). exists p'. split; [done|].
  destruct (same_setup_accepts _ _ Hss) as (_ & Hc & Hon). pose proof Hso as (_ & _ & E3 & E4 & _ & _).
  split; [|split; [done|split; [by apply (same_setup_class (po_client p))|done]]].
  constructor; [done|done|done| |by rewrite E3|rewrite E3, Z.add_0_r; done|by rewrite E4|intros f; rewrite app_nil_r; by apply same_output_ok, (po_ok id p)].
  intros Harm. unfold prepareClientToWrite in E. fold (accepts (po_client p)) in *.
  destruct (of_lua _ || of_module _); [by injection E as _ <-|]. destruct (of_reply_off _ || of_reply_skip _); [by injection E as _ <-|]. destruct (_ && negb (of_force_reply _)); [by injection E as _ <-|].
  destruct (_ <=? 0); [by injection E as _ <-|]. destruct (_ && _ && _); injection E as _ <-; [by left|done].
Qed.

(** The text that a client gets, if it takes [s]. *)

Definition taken (c : oclient) (s : bytes) : bytes := if accepts c && negb (closing c) then s else [].

Lemma prepared_put id s p (k : port -> res port) :
  port_ok id p -> class_ok (po_client p) -> reply_size (oc_reply (po_client p)) + zlen s < 2 ^ 62 ->
  (forall p1, port_ok id p1 -> armed (po_client p1) -> class_ok (po_client p1) -> reply_size (oc_reply (po_client p1)) + zlen s < 2 ^ 62 ->
     exists p', k p1 = Ok p' /\ step id (if closing (po_client p1) then [] else s) p1 p') ->
  exists p', (let '(ok, p) := prepareClientToWrite id p in if negb ok then Ok p else k p) = Ok p' /\ step id (taken (po_client p) s) p p'.
Proof.
  intros Hok Hcl Hs Hk. destruct (prepare_step id p Hok Hcl) as (p1 & -> & H1 & Hso & Hcl1 & Hc & Ha). unfold taken.
  destruct (accepts (po_client p)); cbn [negb andb]; [|by exists p1]. pose proof Hso as (_ & _ & Er & _).
  destruct (Hk p1 (st_ok _ _ _ _ H1) (Ha eq_refl) Hcl1) as (p' & -> & H2); [by rewrite Er|]. exists p'. split; [done|]. rewrite <- Hc.
  eapply step_prepared; [done|]. by destruct (closing (po_client p1)).
Qed.

Lemma addReplyString_spec id s p :
  port_ok id p -> class_ok (po_client p) -> reply_size (oc_reply (po_client p)) + zlen s < 2 ^ 62 ->
  exists p', addReplyString limits unixtime id s p = Ok p' /\ step id (taken (po_client p) s) p p'.
Proof. intros Hok Hcl Hs. unfold addReplyString. apply (prepared_put id s p (fun p => _)); [done|done|done|]. intros p1 H1 H2 H3 H4. by apply put_spec. Qed.

Lemma addReplySds_spec id s p :
  port_ok id p -> class_ok (po_client p) -> reply_size (oc_reply (po_client p)) + zlen s < 2 ^ 62 ->
  exists p', addReplySds limits unixtime id s p = Ok p' /\ step id (taken (po_client p) s) p p'.
Proof. intros Hok Hcl Hs. unfold addReplySds, _addReplySdsToList. apply (prepared_put id s p (fun p => _)); [done|done|done|]. intros p1 H1 H2 H3 H4. by apply put_spec. Qed.

Lemma add_object_spec id o p :
  port_ok id p -> armed (po_client p) -> class_ok (po_client p) -> reply_size (oc_reply (po_client p)) + zlen (string_value o) < 2 ^ 62 ->
  (forall n, o <> ObjInt n) ->
  exists p', add_object limits unixtime id o p = Ok p' /\ step id (if closing (po_client p) then [] else string_value o) p p'.
Proof. intros Hok Ha Hcl Hs Hn. destruct o as [s|s|n]; [by apply put_spec|by apply put_spec|by destruct (Hn n)]. Qed.

Lemma addReply_spec id o p :
  port_ok id p -> class_ok (po_client p) -> strobj_ok o -> reply_size (oc_reply (po_client p)) + zlen (string_value o) < 2 ^ 62 ->
  exists p', addReply limits unixtime id o p = Ok p' /\ step id (taken (po_client p) (string_value o)) p p'.
Proof.
  intros Hok Hcl Ho Hs. unfold addReply. apply (prepared_put id (string_value o) p (fun p => _)); [done|done|done|]. intros p1 H1 H2 H3 H4.
  destruct o as [s|s|n]; [by apply add_object_spec|by apply add_object_spec|].
  assert (string_value (getDecodedObject (ObjInt n)) = print_Z n /\ forall m, getDecodedObject (ObjInt n) <> ObjInt m) as [Ed Hd].
  { split; [by apply getDecodedObject_value|]. intros m. cbn. unfold createStringObject. by destruct (_ <=? _). }
  assert (exists p', add_object limits unixtime id (getDecodedObject (ObjInt n)) p1 = Ok p' /\ step id (if closing (po_client p1) then [] else string_value (ObjInt n)) p1 p') as Hdec.
  { change (string_value (ObjInt n)) with (print_Z n). rewrite <- Ed. apply add_object_spec; try done. by rewrite Ed. }
  destruct (_ && _); [|done]. assert (int_text 32 n = print_Z n) as -> by (apply int_text_value; [lia|done]).
  destruct (put_spec id (print_Z n) p1 H1 H2 H3 H4) as (p' & Ep & Hst). destruct (_addReplyToBuffer (print_Z n) (po_client p1)); [by exists p'|done].
Qed.

(** ** Arrays whose length comes later *)

Lemma add_hole_ok c :
  oc_ok c -> oc_ok (add_node None c) /\ holes (oc_reply (add_node None c)) = holes (oc_reply c) ++ [oc_fresh c] /\
    reply_size (oc_reply (add_node None c)) = reply_size (oc_reply c) /\ forall f, out f (add_node None c) = out f c ++ f (oc_fresh c).
Proof.
  intros Hok. pose proof Hok as [H1 H2 H3 H4 H5 H6 H7]. destruct (addrs_fresh None _ _ H6 H7) as [B1 B2].
  assert (reply_size (oc_reply c ++ [MkNode (oc_fresh c) None]) = reply_size (oc_reply c)) as Hsz by (rewrite reply_size_app; cbn; unfold node_size; cbn; rewrite ?(eq_refl : zlen [] = 0); lia).
  split; [|split; [|split]].
  - constructor; cbn [add_node set_fresh set_reply oc_reply_bytes oc_reply oc_buf oc_sentlen oc_fresh]; rewrite ?Hsz; try done.
    destruct (bool_decide _); [|done]. destruct (oc_reply c); [|done]. exact H5.
  - cbn [add_node set_fresh set_reply oc_reply]. by rewrite holes_app.
  - done.
  - apply (fun f => f) in Hok. intros f. unfold out. cbn [add_node set_fresh set_reply oc_reply oc_wire oc_buf oc_sentlen]. rewrite render_app, app_assoc, drop_app_le by (by apply sent_le).
    unfold render at 2. cbn. by rewrite app_nil_r, app_assoc.
Qed.

Lemma array_spec id p length t (body : port -> res port) :
  port_ok id p -> class_ok (po_client p) -> let hdr := str "*" ++ print_Z length ++ CRLF in
  reply_size (oc_reply (po_client p)) + zlen hdr + zlen t < 2 ^ 62 ->
  (forall p1, port_ok id p1 -> class_ok (po_client p1) -> same_setup (po_client p) (po_client p1) -> reply_size (oc_reply (po_client p1)) <= reply_size (oc_reply (po_client p)) ->
     exists p2, body p1 = Ok p2 /\ step id t p1 p2) ->
  (accepts (po_client p) = false -> t = []) ->
  exists p', (let '(node, p) := addDeferredMultiBulkLength id p in p ← body p; setDeferredMultiBulkLength limits unixtime id node length p) = Ok p' /\
    step id (if accepts (po_client p) then hdr ++ t else []) p p'.
Proof.
  intros Hok Hcl hdr Hs Hbody Ht. unfold addDeferredMultiBulkLength. destruct (prepare_step id p Hok Hcl) as (p1 & -> & H1 & Hso & Hcl1 & Hc & Ha).
  pose proof Hso as (_ & _ & Er & _). destruct (accepts (po_client p)) eqn:Eacc; cbn [negb].
  2:{ destruct (Hbody p1 (st_ok _ _ _ _ H1) Hcl1 (st_setup _ _ _ _ H1)) as (p2 & -> & H2); [by rewrite Er|]. cbn. exists p2. split; [done|]. rewrite (Ht eq_refl) in H2. by eapply step_prepared. }
  set (c1 := po_client p1) in *. set (a := oc_fresh c1). specialize (Ha eq_refl). pose proof (st_ok _ _ _ _ H1) as Hok1.
  destruct (add_hole_ok c1 (po_ok id p1 Hok1)) as (Hokh & Hh & Hsz & Ho).
  destruct (port_put id p1 (add_node None c1) Hok1 Ha Hokh eq_refl ltac:(by constructor)) as [Hokp Hap]. set (ph := set_client (add_node None c1) p1) in *.
  destruct (Hbody ph Hokp) as (p2 & -> & H2); [by apply (same_setup_class c1)|eapply same_setup_trans; [exact (st_setup _ _ _ _ H1)|by constructor]|change (reply_size (oc_reply (add_node None c1)) <= reply_size (oc_reply (po_client p))); by rewrite Hsz, Er|].
  cbn [mbind res_bind setDeferredMultiBulkLength]. pose proof (st_ok _ _ _ _ H2) as Hok2. pose proof (po_ok id p2 Hok2) as Hc2. destruct H2 as [_ B2 B3 B4 B5 B6 B7 B8]. change (po_client ph) with (add_node None c1) in *.
  rewrite Hh in B5. rewrite Hsz, Er in B6.
  assert (a ∈ holes (oc_reply (po_client p2))) as Hin by (rewrite B5; apply elem_of_app; right; by apply list_elem_of_singleton).
  fold hdr. destruct (fill_node_spec a hdr _ (ok_nodup _ Hc2) Hin) as (l & El & _). rewrite El. cbn [need mbind res_bind].
  destruct (set_reply_ok a hdr (po_client p2) l Hc2 Hin) as (Hok3 & Ho3 & Hh3 & Hs3); [lia|done|]. set (c3 := set_reply_bytes _ _) in *.
  destruct (port_put id p2 c3 Hok2 (B4 Hap) Hok3 eq_refl ltac:(by constructor)) as [Hokp3 Hap3].
  assert (a ∉ holes (oc_reply c1)) as Hna. { intros Hi%holes_addrs. pose proof (ok_fresh _ (po_ok id p1 Hok1)) as Hf. rewrite Forall_forall in Hf. apply Hf in Hi. fold c1 in Hi. unfold a in Hi. lia. }
  assert (step id (hdr ++ t) p1 (set_client c3 p2)) as H3.
  { constructor; cbn [set_client po_client].
    - done.
    - eapply others_trans; [|exact B2]. by intros j _.
    - eapply same_setup_trans; [|eapply same_setup_trans; [exact B3|by constructor]]. by constructor.
    - done.
    - change (oc_reply c3) with l. rewrite Hh3, B5, List.filter_app, filter_absent by done. cbn. rewrite Nat.eqb_refl. cbn. by rewrite app_nil_r.
    - change (oc_reply c3) with l. rewrite Hs3, zlen_app. fold c1. rewrite Er. lia.
    - change (oc_fresh c3) with (oc_fresh (po_client p2)). cbn in B7. fold c1. lia.
    - intros f. rewrite Ho3, B8, Ho. fold c1. rewrite <- !app_assoc. f_equal; [|f_equal].
      + unfold out. do 3 f_equal. apply render_ext. intros b Hb. unfold with_length. rewrite decide_False; [done|]. intros ->. done.
      + unfold with_length. by rewrite decide_True. }
  destruct (asyncClose_spec id _ Hokp3) as (p4 & -> & H4 & _); [apply (same_setup_class (po_client p2)); [by constructor|]; apply (same_setup_class c1); [|done]; exact (same_setup_trans c1 (add_node None c1) _ ltac:(by constructor) B3)|].
  exists p4. split; [done|]. eapply step_prepared; [exact H1|]. rewrite <- (app_nil_r (hdr ++ t)). by eapply step_trans.
Qed.

End ports.

(** ** Whole replies *)

Section replies.

Context (limits : list clientBufferLimitsConfig) (unixtime : Z).

(** The induction principle with a hypothesis for every element of an array. *)

Lemma reply_nested_ind (P : reply -> Prop) :
  (forall s, P (RString s)) -> (forall s, P (RSds s)) -> (forall o, P (RObject o)) -> (forall body n, Forall P body -> P (RArray body n)) -> forall r, P r.
Proof.
  intros H1 H2 H3 H4. fix IH 1. intros [s|s|o|body n]; [apply H1|apply H2|apply H3|]. apply H4. induction body as [|r body IHb]; constructor; [apply IH|exact IHb].
Qed.

(** The text of a reply; of one to a client that is to be closed only the lengths of arrays
    are put into the list. *)

Fixpoint reply_text (close : bool) (r : reply) : bytes :=
  match r with
  | RString s | RSds s => if close then [] else s
  | RObject o => if close then [] else string_value o
  | RArray body n => (str "*" ++ print_Z n ++ CRLF) ++ concat (map (reply_text close) body)
  end.

Fixpoint reply_ok (r : reply) : Prop :=
  match r with
  | RString _ | RSds _ => True
  | RObject o => strobj_ok o
  | RArray body _ => foldr (fun r P => reply_ok r /\ P) True body
  end.

Fixpoint run_replies (id : Z) (l : list reply) (p : port) : res port :=
  match l with
  | [] => Ok p
  | r :: l => p ← run_reply limits unixtime id r p; run_replies id l p
  end.

Lemma run_array id body n p :
  run_reply limits unixtime id (RArray body n) p =
  (let '(node, p) := addDeferredMultiBulkLength id p in p ← run_replies id body p; setDeferredMultiBulkLength limits unixtime id node n p).
Proof.
  cbn [run_reply]. destruct (addDeferredMultiBulkLength id p) as [node p1]. f_equal. revert p1. induction body as [|r body IH]; intros p1; [done|]. cbn [run_replies].
  destruct (run_reply limits unixtime id r p1) as [p2| |]; cbn [mbind res_bind]; [apply IH|done|done].
Qed.

(** A client that takes no replies stays as it is. *)

Lemma refused id p : accepts (po_client p) = false -> prepareClientToWrite id p = (false, p).
Proof.
  unfold accepts, prepareClientToWrite. destruct (_ || of_module _); [done|]. cbn [orb]. intros H%negb_false_iff.
  destruct (of_reply_off _ || of_reply_skip _); [done|]. destruct (_ && negb (of_force_reply _)); [done|]. by destruct (_ <=? 0).
Qed.

Lemma run_reply_refused id r : forall p, accepts (po_client p) = false -> run_reply limits unixtime id r p = Ok p.
Proof.
  induction r as [s|s|o|body n IH] using reply_nested_ind; intros p Ha; [cbn; unfold addReplyString|cbn; unfold addReplySds|cbn; unfold addReply|rewrite run_array; unfold addDeferredMultiBulkLength]; rewrite refused by done; [done..|].
  cbn [negb]. assert (run_replies id body p = Ok p) as ->; [|done]. induction IH as [|r body Hr _ IHb]; [done|]. cbn [run_replies]. rewrite Hr by done. exact IHb.
Qed.

Definition ready (id : Z) (p : port) (room : Z) : Prop :=
  port_ok id p /\ class_ok limits (po_client p) /\ accepts (po_client p) = true /\ reply_size (oc_reply (po_client p)) + room < 2 ^ 62.

(** The text when the client is not closing bounds that of any. *)

Lemma texts_bound body : Forall (fun r => zlen (reply_text true r) <= zlen (reply_text false r)) body ->
  zlen (concat (map (reply_text true) body)) <= zlen (concat (map (reply_text false) body)).
Proof. induction 1 as [|r body Hr _ IHb]; [done|]. cbn [map concat]. rewrite !zlen_app. lia. Qed.

Lemma reply_text_close r : zlen (reply_text true r) <= zlen (reply_text false r).
Proof.
  induction r as [s|s|o|body n IH] using reply_nested_ind; [apply zlen_nonneg..|]. cbn [reply_text]. rewrite !(zlen_app (_ ++ _)). by apply Z.add_le_mono_l, texts_bound.
Qed.

Lemma texts_close body : zlen (concat (map (reply_text true) body)) <= zlen (concat (map (reply_text false) body)).
Proof. apply texts_bound, Forall_true. apply reply_text_close. Qed.

Lemma ready_le id p room room' : ready id p room -> room' <= room -> ready id p room'.
Proof. intros (H1 & H2 & H3 & H4) Hle. repeat (split; [done|]). lia. Qed.

Lemma ready_step id t p p' room : ready id p (zlen t + room) -> step id t p p' -> ready id p' room.
Proof.
  intros (H1 & H2 & H3 & H4) Hs. destruct (same_setup_accepts _ _ (st_setup _ _ _ _ Hs)) as (Ea & _ & _). split; [exact (st_ok _ _ _ _ Hs)|].
  split; [by apply (same_setup_class limits _ _ (st_setup _ _ _ _ Hs))|]. split; [by rewrite Ea|]. pose proof (st_size _ _ _ _ Hs). lia.
Qed.

Lemma closing_step id t p p' : step id t p p' -> closing (po_client p') = closing (po_client p).
Proof. intros Hs. by destruct (same_setup_accepts _ _ (st_setup _ _ _ _ Hs)) as (_ & Hc & _). Qed.

Lemma run_reply_spec id r : forall p,
  reply_ok r -> ready id p (zlen (reply_text false r)) ->
  exists p', run_reply limits unixtime id r p = Ok p' /\ step id (reply_text (closing (po_client p)) r) p p'.
Proof.
  induction r as [s|s|o|body n IH] using reply_nested_ind; intros p Hr Hrd; pose proof Hrd as (Hok & Hcl & Ha & Hs).
  - destruct (addReplyString_spec limits unixtime id s p Hok Hcl Hs) as (p' & E & H). exists p'. split; [exact E|]. unfold taken in H. rewrite Ha in H. cbn in H |- *. by destruct (closing (po_client p)).
  - destruct (addReplySds_spec limits unixtime id s p Hok Hcl Hs) as (p' & E & H). exists p'. split; [exact E|]. unfold taken in H. rewrite Ha in H. cbn in H |- *. by destruct (closing (po_client p)).
  - destruct (addReply_spec limits unixtime id o p Hok Hcl Hr Hs) as (p' & E & H). exists p'. split; [exact E|]. unfold taken in H. rewrite Ha in H. cbn in H |- *. by destruct (closing (po_client p)).
  - rewrite run_array. cbn [reply_text]. cbn [reply_ok] in Hr. cbn [reply_text] in Hrd, Hs.
    assert (forall p1, ready id p1 (zlen (concat (map (reply_text false) body))) -> exists p2, run_replies id body p1 = Ok p2 /\ step id (concat (map (reply_text (closing (po_client p1))) body)) p1 p2) as Hb.
    { clear p Hrd Hok Hcl Ha Hs. induction IH as [|r body Hr1 _ IHb]; intros p1 Hrd; [exists p1; split; [done|apply step_refl, Hrd]|]. destruct Hr as [Hr Hrs]. cbn [map concat] in Hrd |- *. rewrite zlen_app in Hrd.
      destruct (Hr1 p1 Hr) as (p2 & E2 & H2); [by apply (ready_le id p1 _ _ Hrd); pose proof (zlen_nonneg (concat (map (reply_text false) body))); lia|]. cbn [run_replies]. rewrite E2. cbn [mbind res_bind].
      destruct (IHb Hrs p2) as (p3 & E3 & H3).
      { refine (ready_step id _ p1 p2 _ _ H2). apply (ready_le id p1 _ _ Hrd). destruct (closing (po_client p1)); [pose proof (reply_text_close r)|]; lia. }
      exists p3. split; [done|]. rewrite (closing_step _ _ _ _ H2) in H3. by eapply step_trans. }
    set (t := concat (map (reply_text (closing (po_client p))) body)). set (room := zlen (concat (map (reply_text false) body))) in *.
    assert (zlen t <= room) as Ht. { unfold t, room. destruct (closing (po_client p)); [|done]. apply texts_close. }
    destruct (array_spec limits unixtime id p n t (run_replies id body) Hok Hcl) as (p' & E & H).
    + rewrite zlen_app in Hs. fold room in Hs. lia.
    + intros p1 H1 H2 H3 H4. destruct (same_setup_accepts _ _ H3) as (E1 & E2 & _). fold (closing (po_client p1)) (closing (po_client p)) in E2. unfold t. rewrite <- E2. apply Hb.
      split; [done|]. split; [done|]. split; [by rewrite E1|]. rewrite zlen_app in Hs. fold room in Hs |- *. pose proof (zlen_nonneg (str "*" ++ print_Z n ++ CRLF)). lia.
    + by rewrite Ha.
    + rewrite Ha in H. by exists p'.
Qed.

End replies.
