(* ===== verification/OutputClaims.v ===== *)
(** * The output of clients: what reaches the sockets

    Writing leaves [out] of [OutputTheory] as it is, so what a socket took is always a
    beginning of what was replied.  The lists of clients that have something to write and
    of those to be closed agree with the flags of the clients. *)

From S2P Require Import Prelude Util Sds VectorClock VcTheory VcText VcClaims Proxy CrdtServer Gc Objects Backlog Resp PeerState Output OutputTheory.

(** A socket takes at most what it is given. *)

Definition sock_ok (sk : sock) : Prop := forall k b, sk_write sk k b <= zlen b.

(** ** The loop that writes *)

(** The output of [c'] is that of [c], of which more is on the wire. *)

Record sent (c c' : oclient) : Prop := {
  sn_ok : oc_ok c';
  sn_holes : holes (oc_reply c') = [];
  sn_out : forall f, out f c' = out f c;
  sn_flags : oc_flags c' = oc_flags c /\ oc_fd c' = oc_fd c /\ oc_replstate c' = oc_replstate c /\ oc_on_ack c' = oc_on_ack c /\ oc_writable c' = oc_writable c;
  sn_size : reply_size (oc_reply c') <= reply_size (oc_reply c);
  sn_wire : oc_wire c `prefix_of` oc_wire c'
}.

Lemma sent_refl c : oc_ok c -> holes (oc_reply c) = [] -> sent c c.
Proof. intros H1 H2. by constructor. Qed.

Lemma sent_trans c1 c2 c3 : sent c1 c2 -> sent c2 c3 -> sent c1 c3.
Proof.
  intros [A1 A2 A3 (F1 & F2 & F3 & F4 & F5) A5 A6] [B1 B2 B3 (G1 & G2 & G3 & G4 & G5) B5 B6].
  constructor; [done|done|intros f; by rewrite B3|repeat split; congruence|lia|by etrans].
Qed.

(** The bytes and nodes that are left, less what of the first was sent: every round of the
    loop makes it smaller. *)

Definition todo (c : oclient) : Z := Z.of_nat (unsent c) - oc_sentlen c.

Lemma drop_taken (i n : nat) (s t : bytes) :
  (i + n <= length s)%nat -> drop i (s ++ t) = take n (drop i s) ++ drop (i + n) (s ++ t).
Proof.
  intros H. rewrite !drop_app_le by lia. rewrite app_assoc. f_equal. rewrite <- drop_drop. by rewrite take_drop.
Qed.

Lemma head_sent_0 l : head_sent 0 l.
Proof. destruct l as [|[a [v|]] l]; [done|by right|done]. Qed.

Lemma took_buf c n :
  oc_ok c -> holes (oc_reply c) = [] -> oc_buf c <> [] -> 0 < n <= zlen (drop (Z.to_nat (oc_sentlen c)) (oc_buf c)) ->
  let c' := buf_done (took n (drop (Z.to_nat (oc_sentlen c)) (oc_buf c)) c) in sent c c' /\ todo c' = todo c - n.
Proof.
  intros [H1 H2 H3 H4 H5 H6 H7] Hh Hb Hn. rewrite bool_decide_false in H5 by done. unfold zlen in Hn, H5. rewrite length_drop in Hn.
  pose proof (fun t => drop_taken (Z.to_nat (oc_sentlen c)) (Z.to_nat n) (oc_buf c) t ltac:(lia)) as Hd.
  unfold buf_done. cbn [took set_sentlen oc_sentlen oc_buf set_wire]. unfold zlen. destruct (Z.eqb_spec (oc_sentlen c + n) (Z.of_nat (length (oc_buf c)))) as [E|E]; split.
  - constructor; [constructor; cbn; try done; apply head_sent_0|done| |done|done|cbn; by eexists].
    intros f. unfold out. cbn [set_sentlen set_buf took set_wire oc_wire oc_sentlen oc_buf oc_reply]. rewrite Hd, app_assoc. f_equal.
    replace (Z.to_nat (oc_sentlen c) + Z.to_nat n)%nat with (length (oc_buf c)) by lia. rewrite drop_app_length. done.
  - unfold todo, unsent. cbn [set_sentlen set_buf took set_wire oc_sentlen oc_buf oc_reply length]. lia.
  - constructor; [constructor; cbn; try done; [lia|rewrite bool_decide_false by done; unfold zlen; lia]|done| |done|done|cbn; by eexists].
    intros f. unfold out. cbn [set_sentlen took set_wire oc_wire oc_sentlen oc_buf oc_reply]. rewrite Hd, app_assoc. f_equal. f_equal. lia.
  - unfold todo, unsent. cbn [set_sentlen took set_wire oc_sentlen oc_buf oc_reply]. lia.
Qed.

Lemma took_node c n a o rest :
  oc_ok c -> holes (oc_reply c) = [] -> oc_buf c = [] -> oc_reply c = MkNode a (Some o) :: rest -> o <> [] ->
  0 < n <= zlen (drop (Z.to_nat (oc_sentlen c)) o) ->
  exists c', node_done o rest (took n (drop (Z.to_nat (oc_sentlen c)) o) c) = Ok c' /\ sent c c' /\ todo c' <= todo c - n.
Proof.
  intros [H1 H2 H3 H4 H5 H6 H7] Hh Hb Er Ho Hn. rewrite bool_decide_true in H5 by done. rewrite Er in *. cbn in H5. unfold zlen in Hn, H5. rewrite length_drop in Hn.
  assert (holes rest = []) as Hhr by exact Hh. assert (reply_size (MkNode a (Some o) :: rest) = zlen o + reply_size rest) as Ez by done. rewrite Ez in H1, H2. cbn in H6, H7. pose proof (reply_size_nonneg rest) as Hnn.
  apply NoDup_cons in H6 as [H6 H6']. apply Forall_cons_1 in H7 as [H7 H7'].
  pose proof (fun t => drop_taken (Z.to_nat (oc_sentlen c)) (Z.to_nat n) o t ltac:(lia)) as Hd.
  unfold node_done. cbn [took set_sentlen oc_sentlen set_wire]. unfold zlen. destruct (Z.eqb_spec (oc_sentlen c + n) (Z.of_nat (length o))) as [E|E].
  - cbn [set_reply_bytes set_sentlen set_reply took set_wire oc_reply_bytes]. fold (zlen o). rewrite H1. replace (zlen o + reply_size rest - zlen o) with (reply_size rest) by lia.
    assert (to_ull (reply_size rest) = reply_size rest) as Eu by (apply Z.mod_small; pose proof (zlen_nonneg o); lia). rewrite Eu.
    assert (negb (bool_decide (rest = [])) || (reply_size rest =? 0) = true) as -> by (case_bool_decide as Erest; [by rewrite Erest|done]).
    cbn [c_assert mbind res_bind]. eexists. split; [reflexivity|]. split.
    + constructor; cbn [set_reply_bytes set_sentlen set_reply took set_wire oc_reply_bytes oc_reply oc_buf oc_sentlen oc_fresh oc_flags oc_fd oc_replstate oc_on_ack oc_writable oc_wire].
      * constructor; cbn [set_reply_bytes set_sentlen set_reply took set_wire oc_reply_bytes oc_reply oc_buf oc_sentlen oc_fresh]; try done; [pose proof (zlen_nonneg o); lia|]. rewrite bool_decide_true by done. apply head_sent_0.
      * done.
      * intros f. unfold out. cbn [set_reply_bytes set_sentlen set_reply took set_wire oc_reply oc_buf oc_sentlen oc_wire]. rewrite Hb, Er. unfold render at 2. cbn [map concat app node_text nd_value default]. fold (render f rest).
        change (node_text f {| nd_addr := a; nd_value := Some o |}) with o. rewrite Hd, app_assoc. f_equal. replace (Z.to_nat (oc_sentlen c) + Z.to_nat n)%nat with (length o) by lia. by rewrite drop_app_length.
      * done.
      * rewrite Er, Ez. pose proof (zlen_nonneg o). lia.
      * by eexists.
    + unfold todo, unsent. cbn [set_reply_bytes set_sentlen set_reply took set_wire oc_reply oc_buf oc_sentlen]. rewrite Er. cbn. lia.
  - eexists. split; [reflexivity|]. split.
    + constructor; cbn [set_sentlen took set_wire oc_reply oc_buf oc_sentlen oc_flags oc_fd oc_replstate oc_on_ack oc_writable oc_wire]; [| by rewrite Er| |done|done|by eexists].
      * constructor; cbn [set_sentlen took set_wire oc_reply_bytes oc_reply oc_buf oc_sentlen oc_fresh]; rewrite ?Er, ?Ez; try done; [lia| |by apply NoDup_cons|by apply Forall_cons].
        rewrite bool_decide_true by done. cbn. left. split; [done|]. unfold zlen. lia.
      * intros f. unfold out. cbn [set_sentlen took set_wire oc_reply oc_buf oc_sentlen oc_wire]. rewrite Hb, Er. unfold render. cbn [map concat app]. change (node_text f {| nd_addr := a; nd_value := Some o |}) with o.
        rewrite Hd, app_assoc. f_equal. f_equal. lia.
    + unfold todo, unsent. cbn [set_sentlen took set_wire oc_reply oc_buf oc_sentlen]. lia.
Qed.

Lemma drop_empty_node c a rest :
  oc_ok c -> holes (oc_reply c) = [] -> oc_buf c = [] -> oc_reply c = MkNode a (Some []) :: rest ->
  sent c (set_reply rest c) /\ todo (set_reply rest c) = todo c - 1.
Proof.
  intros [H1 H2 H3 H4 H5 H6 H7] Hh Hb Er. rewrite bool_decide_true in H5 by done. rewrite Er in *. assert (oc_sentlen c = 0) as E0 by (destruct H5 as [[? _]|?]; done).
  assert (reply_size (MkNode a (Some []) :: rest) = reply_size rest) as Ez by done. rewrite Ez in H1, H2. cbn in H6, H7. apply NoDup_cons in H6 as [_ H6]. apply Forall_cons_1 in H7 as [_ H7].
  split.
  - constructor; cbn [set_reply oc_reply oc_flags oc_fd oc_replstate oc_on_ack oc_writable oc_wire]; [|done| |done|by rewrite Er, Ez|done].
    + constructor; cbn [set_reply oc_reply_bytes oc_reply oc_buf oc_sentlen oc_fresh]; try done. rewrite bool_decide_true by done. rewrite E0. apply head_sent_0.
    + intros f. unfold out. cbn [set_reply oc_reply oc_wire oc_sentlen oc_buf]. by rewrite Er.
  - unfold todo, unsent. cbn [set_reply oc_reply oc_sentlen oc_buf]. rewrite Er. cbn. lia.
Qed.

Lemma todo_pos c : oc_ok c -> 0 <= todo c /\ (clientHasPendingReplies c = true -> 0 < todo c).
Proof.
  intros [_ _ _ H4 H5 _ _]. unfold todo, unsent, clientHasPendingReplies. destruct (oc_buf c) as [|x b].
  - rewrite bool_decide_true in H5 by done. destruct (oc_reply c) as [|[a [v|]] l]; cbn in H5 |- *; [split; [lia|done]| |]; unfold zlen in *; lia.
  - rewrite bool_decide_false in H5 by done. unfold zlen in H5. cbn [length] in *. lia.
Qed.

(** A socket that takes all, and no limit. *)

Definition drains (sk : sock) : Prop := (forall k b, sk_write sk k b = zlen b) /\ forall k, sk_more sk k = false.

Lemma write_loop_spec sk fuel : forall w,
  sock_ok sk -> oc_ok (wr_client w) -> holes (oc_reply (wr_client w)) = [] -> todo (wr_client w) < Z.of_nat fuel ->
  exists w', write_loop sk fuel w = Ok w' /\ sent (wr_client w) (wr_client w') /\
    (drains sk -> 0 <= wr_last w -> clientHasPendingReplies (wr_client w') = false /\ 0 <= wr_last w').
Proof.
  induction fuel as [|fuel IH]; intros w Hsk Hok Hh Hf; [destruct (todo_pos _ Hok); lia|]. cbn [write_loop]. set (c := wr_client w) in *.
  destruct (clientHasPendingReplies c) eqn:Ep; cbn [negb]; [|exists w; split; [done|]; split; [by apply sent_refl|done]].
  (** After a piece was taken. *)
  assert (forall head n b c', n = sk_write sk (wr_calls w) b -> 0 < n -> sent c c' -> todo c' <= todo c - n -> head = Ok c' ->
    exists w', (c ← head; let w := MkWritten n (wr_tot w + n) (S (wr_calls w)) c in
       if (wr_tot w >? NET_MAX_WRITES_PER_EVENT) && sk_more sk (wr_calls w) && negb (of_slave (oc_flags c)) then Ok w else write_loop sk fuel w) = Ok w' /\
      sent c (wr_client w') /\ (drains sk -> 0 <= wr_last w -> clientHasPendingReplies (wr_client w') = false /\ 0 <= wr_last w')) as Hgo.
  { intros head n b c' -> Hn Hs Ht ->. cbn [mbind res_bind]. cbv zeta. set (w1 := MkWritten _ _ _ c').
    destruct (IH w1) as (w' & Ew & Hs' & Hd); [done|exact (sn_ok _ _ Hs)|exact (sn_holes _ _ Hs)|cbn [w1 wr_client]; lia|]. destruct (_ && _ && _) eqn:Em.
    - exists w1. split; [done|]. split; [done|]. intros [_ Hm]. by rewrite Hm, andb_false_r in Em.
    - exists w'. split; [done|]. split; [by eapply sent_trans|]. intros Hdr _. apply Hd; [done|]. cbn. lia. }
  pose proof Hok as [_ _ _ H4 H5 _ _].
  case_bool_decide as Eb.
  - unfold clientHasPendingReplies in Ep. rewrite bool_decide_true in Ep by done. destruct (oc_reply c) as [|[a v] rest] eqn:Er; [done|]. cbn [nd_value].
    destruct v as [o|]; [|done]. rewrite <- Er in Hh. cbn [need mbind res_bind]. destruct o as [|x o].
    + destruct (drop_empty_node c a rest Hok Hh Eb Er) as [Hs Ht]. destruct (IH (MkWritten (wr_last w) (wr_tot w) (wr_calls w) (set_reply rest c))) as (w' & -> & Hs' & Hd);
        [done|exact (sn_ok _ _ Hs)|exact (sn_holes _ _ Hs)|cbn [wr_client]; lia|]. exists w'. split; [done|]. split; [by eapply sent_trans|done].
    + set (b := drop _ _). assert (0 < zlen b) as Hbpos. { cbn in H5. unfold b, zlen in *. rewrite length_drop. cbn [length] in *. lia. }
      destruct (Z.leb_spec (sk_write sk (wr_calls w) b) 0) as [Hle|Hgt].
      * eexists. split; [reflexivity|]. split; [by apply sent_refl|]. intros [Hd _]. rewrite Hd in Hle. lia.
      * destruct (took_node c (sk_write sk (wr_calls w) b) a (x :: o) rest Hok Hh Eb Er) as (c' & Ec & Hs & Ht); [done|split; [lia|apply Hsk]|]. by apply (Hgo _ _ b c').
  - set (b := drop _ _). assert (0 < zlen b) as Hbpos by (unfold b, zlen in *; rewrite length_drop; lia).
    destruct (Z.leb_spec (sk_write sk (wr_calls w) b) 0) as [Hle|Hgt].
    + eexists. split; [reflexivity|]. split; [by apply sent_refl|]. intros [Hd _]. rewrite Hd in Hle. lia.
    + destruct (took_buf c (sk_write sk (wr_calls w) b) Hok Hh Eb) as [Hs Ht]; [split; [lia|apply Hsk]|]. eapply (Hgo _ _ b); [done|lia|exact Hs|lia|done].
Qed.

(** ** Writing to a client *)

(** A client that is not freed keeps its output; and its setup, but for the handler. *)

Record wrote (h : bool) (c c' : oclient) : Prop := {
  wt_ok : oc_ok c';
  wt_holes : holes (oc_reply c') = [];
  wt_out : forall f, out f c' = out f c;
  wt_flags : oc_flags c' = oc_flags c /\ oc_fd c' = oc_fd c /\ oc_replstate c' = oc_replstate c /\ oc_on_ack c' = oc_on_ack c;
  wt_writable : clientHasPendingReplies c' = true \/ h = false -> oc_writable c' = oc_writable c;
  wt_size : reply_size (oc_reply c') <= reply_size (oc_reply c);
  wt_pending : clientHasPendingReplies c' = true -> clientHasPendingReplies c = true;
  wt_wire : oc_wire c `prefix_of` oc_wire c'
}.

Lemma same_output_wrote h c c1 c' :
  sent c c1 -> same_output c1 c' -> oc_flags c' = oc_flags c1 -> oc_fd c' = oc_fd c1 -> oc_replstate c' = oc_replstate c1 -> oc_on_ack c' = oc_on_ack c1 ->
  (clientHasPendingReplies c' = true \/ h = false -> oc_writable c' = oc_writable c1) ->
  (clientHasPendingReplies c1 = true -> clientHasPendingReplies c = true) -> wrote h c c'.
Proof.
  intros [A1 A2 A3 (F1 & F2 & F3 & F4 & F5) A5 A6] Hso G1 G2 G3 G4 G5 G6. destruct (same_output_ok _ _ Hso A1) as [Hok Ho]. pose proof Hso as (Eb & _ & Er & _ & _ & Ew).
  constructor; [done|by rewrite Er|intros f; by rewrite Ho|repeat split; congruence|intros Hw; rewrite G5; done|by rewrite Er| |by rewrite Ew].
  intros Hp. apply G6. unfold clientHasPendingReplies in *. by rewrite Eb, Er in Hp.
Qed.

Lemma writeToClient_spec sk unixtime h k c :
  sock_ok sk -> oc_ok c -> holes (oc_reply c) = [] ->
  exists o k', writeToClient sk unixtime h k c = Ok (o, k') /\ (forall c', o = Some c' -> wrote h c c') /\
    (drains sk -> match o with Some c' => clientHasPendingReplies c' = false | None => closing c = true end).
Proof.
  intros Hsk Hok Hh. unfold writeToClient. destruct (write_loop_spec sk (S (unsent c)) (MkWritten 0 0 k c)) as (w & Ew & Hs & Hd); [done|done|done| |].
  { cbn [wr_client]. unfold todo. pose proof (ok_sent _ Hok). lia. }
  assert (clientHasPendingReplies (wr_client w) = true -> clientHasPendingReplies c = true) as Hpend.
  { destruct (clientHasPendingReplies c) eqn:E; [done|]. cbn [write_loop wr_client] in Ew. rewrite E in Ew. cbn [negb] in Ew. injection Ew as <-. cbn [wr_client]. congruence. }
  rewrite Ew. cbn [mbind res_bind wr_client] in *. set (c1 := wr_client w) in *. destruct (_ && negb (sk_again sk _)) eqn:Ee.
  { eexists _, _. split; [reflexivity|]. split; [done|]. intros Hdr. destruct (Hd Hdr) as [_ Hl]; [done|]. apply andb_true_iff in Ee as [Ee%Z.eqb_eq _]. lia. }
  set (c2 := if _ && _ && _ then _ else c1). assert (same_output c1 c2 /\ oc_flags c2 = oc_flags c1 /\ oc_fd c2 = oc_fd c1 /\ oc_replstate c2 = oc_replstate c1 /\ oc_on_ack c2 = oc_on_ack c1 /\ oc_writable c2 = oc_writable c1 /\
    clientHasPendingReplies c2 = clientHasPendingReplies c1) as (S1 & S2 & S3 & S4 & S5 & S6 & S7) by (unfold c2; by destruct (_ && _ && _)).
  destruct (clientHasPendingReplies c2) eqn:Ep.
  { eexists _, _. split; [reflexivity|]. split; [|intros Hdr; destruct (Hd Hdr) as [Hp _]; [done|congruence]]. intros c' [= <-]. by apply (same_output_wrote h c c1 c2). }
  assert (oc_sentlen c2 = 0) as E0.
  { destruct (same_output_ok _ _ S1 (sn_ok _ _ Hs)) as [[_ _ _ _ H5 _ _] _]. unfold clientHasPendingReplies in Ep. destruct (oc_buf c2); [|done]. rewrite bool_decide_true in H5 by done. by destruct (oc_reply c2). }
  set (c3 := if h then set_writable false (set_sentlen 0 c2) else set_sentlen 0 c2).
  assert (same_output c2 c3 /\ oc_flags c3 = oc_flags c2 /\ oc_fd c3 = oc_fd c2 /\ oc_replstate c3 = oc_replstate c2 /\ oc_on_ack c3 = oc_on_ack c2 /\ (h = false -> oc_writable c3 = oc_writable c2) /\
    clientHasPendingReplies c3 = clientHasPendingReplies c2) as (T1 & T2 & T3 & T4 & T5 & T6 & T7) by (unfold c3; by destruct h).
  eexists _, _. split; [reflexivity|]. assert (oc_flags c3 = oc_flags c) as Ef by (rewrite T2, S2; by destruct (sn_flags _ _ Hs)). rewrite Ef. fold (closing c). split.
  - intros c'. destruct (closing c); [done|]. intros [= <-]. apply (same_output_wrote h c c1 c3); try congruence; [|intros [Hc|Hc]; [congruence|rewrite T6 by done; done]].
    destruct S1 as (? & ? & ? & ? & ? & ?), T1 as (? & ? & ? & ? & ? & ?). repeat split; congruence.
  - intros _. destruct (closing c); [done|]. congruence.
Qed.

(** ** All the clients *)

(** Clients that differ only in the flags of the two lists and in their output. *)

Definition like (c c' : oclient) : Prop :=
  oc_fd c' = oc_fd c /\ set_pending_write false (set_close_asap false (oc_flags c')) = set_pending_write false (set_close_asap false (oc_flags c)).

Lemma like_spec limits c c' : like c c' -> accepts c' = accepts c /\ closing c' = closing c /\ (class_ok limits c -> class_ok limits c').
Proof.
  intros [Ef H]. injection H as F1 F2 F3 F4 F5 F6 F7 F8 F9 F10 F11 F12. unfold accepts, closing, class_ok, getClientType.
  by rewrite ?Ef, ?F1, ?F2, ?F3, ?F4, ?F5, ?F6, ?F7, ?F8, ?F9, ?F10, ?F11, ?F12.
Qed.

Section nets.

Context (limits : list clientBufferLimitsConfig) (sk : sock).

Implicit Types (nt : net) (id : Z) (text : Z -> bool -> bytes) (W : Z -> Prop).

(** A client of the net: [text id] is what was replied to it.  Of the clients in [W] the output
    that waits will be written. *)

Record client_ok W text nt id (c : oclient) : Prop := {
  ck_ok : oc_ok c;
  ck_wakes : W id -> wakes c;
  ck_pending : id ∈ nt_pending nt <-> of_pending_write (oc_flags c) = true;
  ck_close : id ∈ nt_close nt <-> of_close_asap (oc_flags c) = true;
  ck_holes : holes (oc_reply c) = [];
  ck_class : accepts c = true -> class_ok limits c;
  ck_out : forall f, out f c = if accepts c then text id (closing c) else [];
  ck_size : reply_size (oc_reply c) <= zlen (text id false)
}.

Record net_ok W text nt : Prop := {
  nk_client : forall id c, nt_clients nt !! id = Some c -> client_ok W text nt id c;
  nk_in : forall id, id ∈ nt_pending nt \/ id ∈ nt_close nt -> is_Some (nt_clients nt !! id);
  nk_nodup : NoDup (nt_pending nt) /\ NoDup (nt_close nt)
}.

Definition everyone (_ : Z) : Prop := True.

Definition all_but id (j : Z) : Prop := j <> id.

(** Changing one client, and its places in the lists. *)

Lemma net_update W W' text text' nt id c c' pend clo :
  net_ok W text nt -> nt_clients nt !! id = Some c -> (forall j, j <> id -> W' j -> W j) -> (forall j, j <> id -> text' j = text j) ->
  (forall j, j <> id -> (j ∈ pend <-> j ∈ nt_pending nt) /\ (j ∈ clo <-> j ∈ nt_close nt)) -> NoDup pend -> NoDup clo ->
  client_ok W' text' (MkNet (<[id := c']> (nt_clients nt)) pend clo) id c' -> net_ok W' text' (MkNet (<[id := c']> (nt_clients nt)) pend clo).
Proof.
  intros [H1 H2 H3] Hc HW Ht Ho Hn1 Hn2 Hc'. constructor; cbn [nt_clients nt_pending nt_close]; [| |done].
  - intros j cj. destruct (decide (j = id)) as [-> |Hj]; [rewrite lookup_insert_eq; by intros [= <-]|]. rewrite lookup_insert_ne by done. intros Hcj.
    destruct (H1 j cj Hcj) as [A1 A2 A3 A4 A5 A6 A7 A8], (Ho j Hj) as [B1 B2]. constructor; cbn [nt_pending nt_close]; try done; [auto|by rewrite B1|by rewrite B2|intros f; by rewrite Ht|by rewrite Ht].
  - intros j Hj. destruct (decide (j = id)) as [-> |Hne]; [rewrite lookup_insert_eq; by eexists|]. rewrite lookup_insert_ne by done. destruct (Ho j Hne) as [B1 B2]. apply H2. rewrite <- B1, <- B2. done.
Qed.

Lemma elem_of_without id (l : list Z) j : j ∈ List.filter (fun j => negb (j =? id)) l <-> j ∈ l /\ j <> id.
Proof. rewrite !list_elem_of_In, filter_In, negb_true_iff, Z.eqb_neq. done. Qed.

Lemma nodup_without id (l : list Z) : NoDup l -> NoDup (List.filter (fun j => negb (j =? id)) l).
Proof.
  induction l as [|x l IH]; [done|]. intros [Hx Hl]%NoDup_cons. cbn [List.filter]. destruct (negb (x =? id)); [|by apply IH]. apply NoDup_cons. split; [|by apply IH].
  by rewrite elem_of_without; intros [? _].
Qed.

Lemma drop_spec W text nt id c :
  net_ok W text nt -> (forall j, j <> id -> W j) -> nt_clients nt !! id = Some c ->
  exists nt', drop_client id nt = Ok nt' /\ net_ok everyone text nt' /\ (forall j, j <> id -> nt_clients nt' !! j = nt_clients nt !! j) /\ nt_clients nt' !! id = None /\
    (forall j, j <> id -> j ∈ nt_pending nt' <-> j ∈ nt_pending nt).
Proof.
  intros [H1 H2 [H3 H4]] HW Hc. destruct (H1 id c Hc) as [_ _ A3 A4 _ _ _ _]. unfold drop_client. rewrite Hc. cbn [need mbind res_bind].
  assert (negb (of_pending_write (oc_flags c)) || bool_decide (id ∈ nt_pending nt) = true) as ->.
  { destruct (of_pending_write _); [|done]. cbn. apply bool_decide_eq_true. by apply A3. }
  assert (negb (of_close_asap (oc_flags c)) || bool_decide (id ∈ nt_close nt) = true) as ->.
  { destruct (of_close_asap _); [|done]. cbn. apply bool_decide_eq_true. by apply A4. }
  cbn [c_assert mbind res_bind]. eexists. split; [reflexivity|].
  set (pend := if of_pending_write (oc_flags c) then _ else _). set (clo := if of_close_asap (oc_flags c) then _ else _).
  assert (forall j, j ∈ pend <-> j ∈ nt_pending nt /\ j <> id) as Hp.
  { intros j. unfold pend. destruct (of_pending_write (oc_flags c)); [apply elem_of_without|]. split; [|by intros [? _]]. intros Hj. split; [done|]. intros ->. by apply A3 in Hj. }
  assert (forall j, j ∈ clo <-> j ∈ nt_close nt /\ j <> id) as Hcl.
  { intros j. unfold clo. destruct (of_close_asap (oc_flags c)); [apply elem_of_without|]. split; [|by intros [? _]]. intros Hj. split; [done|]. intros ->. by apply A4 in Hj. }
  assert (forall j, j <> id -> delete id (nt_clients nt) !! j = nt_clients nt !! j) as Hl by (intros j Hj; by rewrite lookup_delete_ne).
  split; [|split; [done|split; [cbn; by rewrite lookup_delete_eq|intros j Hj; cbn [nt_pending]; rewrite Hp; intuition]]]. constructor; cbn [nt_clients nt_pending nt_close].
  - intros j cj. destruct (decide (j = id)) as [-> |Hj]; [by rewrite lookup_delete_eq|]. rewrite Hl by done. intros Hcj. destruct (H1 j cj Hcj) as [B1 B2 B3 B4 B5 B6 B7 B8].
    constructor; cbn [nt_pending nt_close]; try done; [intros _; by apply B2, HW|rewrite Hp, B3; intuition|rewrite Hcl, B4; intuition].
  - intros j. rewrite Hp, Hcl. intros Hj. assert (j <> id) as Hne by (destruct Hj as [[_ ?]|[_ ?]]; done). rewrite Hl by done. apply H2. intuition.
  - unfold pend, clo. split; [destruct (of_pending_write _)|destruct (of_close_asap _)]; try done; by apply nodup_without.
Qed.

(** Replying to a client. *)

Definition said_more id (r : reply) text (j : Z) (b : bool) : bytes := if j =? id then text j b ++ reply_text b r else text j b.

Lemma reply_spec unixtime text nt id c r :
  net_ok everyone text nt -> nt_clients nt !! id = Some c -> reply_ok r -> zlen (text id false ++ reply_text false r) < 2 ^ 62 ->
  exists nt', on_client id (run_reply limits unixtime id r) nt = Ok nt' /\ net_ok everyone (said_more id r text) nt'.
Proof.
  intros Hnk Hc Hr Hs. pose proof Hnk as [H1 H2 [H3 H4]]. destruct (H1 id c Hc) as [A1 A2 A3 A4 A5 A6 A7 A8]. unfold on_client. rewrite Hc. cbn [need mbind res_bind]. set (p := MkPort c (nt_pending nt) (nt_close nt)).
  assert (forall j, j <> id -> said_more id r text j = text j) as Ht. { intros j Hj. unfold said_more. by rewrite (proj2 (Z.eqb_neq j id)). }
  assert (forall b, said_more id r text id b = text id b ++ reply_text b r) as Hti by (intros b; unfold said_more; by rewrite Z.eqb_refl). rewrite zlen_app in Hs.
  destruct (accepts c) eqn:Ea.
  - destruct (run_reply_spec limits unixtime id r p Hr) as (p' & -> & Hst).
    { split; [constructor; [done|by apply A2|done|done|done]|]. split; [by apply A6|]. split; [done|]. cbn [p po_client]. lia. }
    cbn [mbind res_bind]. eexists. split; [reflexivity|]. destruct Hst as [B1 B2 B3 B4 B5 B6 B7 B8]. destruct (like_spec limits c (po_client p')) as (L1 & L2 & L3); [split; [exact (ss_fd _ _ B3)|exact (ss_flags _ _ B3)]|].
    apply (net_update everyone everyone text (said_more id r text) nt id c); [done|done|done|done|exact B2|by destruct (po_nodup _ _ B1)..|]. destruct B1 as [C1 C2 C3 C4 C5].
    constructor; cbn [nt_pending nt_close]; [done|done|done|done|by rewrite B5|by intros _; apply L3, A6| |].
    + intros f. rewrite B8, L1, L2, Ea, Hti. cbn [p po_client]. by rewrite A7.
    + rewrite Hti, zlen_app. cbn [p po_client] in B6. assert (zlen (reply_text (closing c) r) <= zlen (reply_text false r)) by (destruct (closing c); [apply reply_text_close|lia]). lia.
  - rewrite run_reply_refused by done. cbn [mbind res_bind po_client po_pending po_close p]. eexists. split; [reflexivity|].
    apply (net_update everyone everyone text (said_more id r text) nt id c); try done. constructor; cbn [nt_pending nt_close]; try done; [by rewrite Ea|intros f; by rewrite Ea, A7|rewrite Hti, zlen_app; pose proof (zlen_nonneg (reply_text false r)); lia].
Qed.

(** Writing to a client: it is freed, or its output is written on.  [wakes] of the client
    itself is not asked for. *)

Record written_net (h ok : bool) text nt id (c : oclient) nt' : Prop := {
  wn_others : forall j, j <> id -> nt_clients nt' !! j = nt_clients nt !! j;
  wn_pending : forall j, j <> id -> j ∈ nt_pending nt' <-> j ∈ nt_pending nt;
  wn_same : ok = true -> nt_pending nt' = nt_pending nt;
  wn_self : if ok then exists c', nt_clients nt' !! id = Some c' /\ wrote h c c' else nt_clients nt' !! id = None;
  wn_ok : if ok then net_ok (all_but id) text nt' else net_ok everyone text nt'
}.

Lemma write_client_spec unixtime h k W text nt id c :
  sock_ok sk -> net_ok W text nt -> (forall j, j <> id -> W j) -> nt_clients nt !! id = Some c ->
  exists ok k' nt', write_client sk unixtime h k id nt = Ok (ok, k', nt') /\ written_net h ok text nt id c nt' /\
    (drains sk -> forall c', nt_clients nt' !! id = Some c' -> clientHasPendingReplies c' = false).
Proof.
  intros Hsk Hnk HW Hc. pose proof Hnk as [H1 H2 [H3 H4]]. destruct (H1 id c Hc) as [A1 A2 A3 A4 A5 A6 A7 A8]. unfold write_client. rewrite Hc. cbn [need mbind res_bind].
  destruct (writeToClient_spec sk unixtime h k c Hsk A1 A5) as (o & k' & -> & Hw & Hd). cbn [mbind res_bind]. destruct o as [c'|].
  - eexists _, _, _. split; [reflexivity|]. specialize (Hw c' eq_refl). cbn [nt_clients nt_pending]. split; [|intros Hdr c2; rewrite lookup_insert_eq; intros [= <-]; by apply Hd]. pose proof Hw as [B1 B2 B3 (F1 & F2 & F3 & F4) B5 B6 B7 B8].
    constructor; cbn [nt_clients nt_pending]; [intros j Hj; by rewrite lookup_insert_ne|done|done|exists c'; by rewrite lookup_insert_eq|].
    destruct (like_spec limits c c') as (L1 & L2 & L3); [split; [done|by rewrite F1]|].
    apply (net_update W (all_but id) text text nt id c); try done; [by intros j Hj _; apply HW|].
    constructor; cbn [nt_pending nt_close]; [done|done|by rewrite F1|by rewrite F1|done|by rewrite L1; intros Ha; apply L3, A6|intros f; by rewrite B3, L1, L2|lia].
  - destruct (drop_spec W text nt id c Hnk HW Hc) as (nt' & -> & Hnk' & Ho & Hn & Hp). cbn [mbind res_bind]. eexists _, _, _. split; [reflexivity|]. split; [by constructor|]. intros _ c2. by rewrite Hn.
Qed.

(** Once the client will be written to again, all is well. *)

Lemma net_wakes text nt id :
  net_ok (all_but id) text nt -> (forall c, nt_clients nt !! id = Some c -> wakes c) -> net_ok everyone text nt.
Proof.
  intros [H1 H2 H3] Hw. constructor; [|done|done]. intros j c Hj. destruct (H1 j c Hj) as [A1 A2 A3 A4 A5 A6 A7 A8]. constructor; try done. intros _.
  destruct (decide (j = id)) as [-> |Hne]; [by apply Hw|by apply A2].
Qed.

Lemma wrote_wakes h c c' : wrote h c c' -> wakes c -> wakes c'.
Proof.
  intros [_ _ _ (F1 & F2 & F3 & F4) B5 _ B7 _] Hw Hp. specialize (Hw (B7 Hp)). unfold armed, online in *. rewrite F1, F3, F4, B5 by by left. exact Hw.
Qed.

(** Writing to a client whose handler is installed or not, outside of the list of pending
    writes. *)

Lemma write_net unixtime h k text nt id c :
  sock_ok sk -> net_ok everyone text nt -> nt_clients nt !! id = Some c ->
  exists ok k' nt', write_client sk unixtime h k id nt = Ok (ok, k', nt') /\ net_ok everyone text nt' /\ (forall j, j <> id -> nt_clients nt' !! j = nt_clients nt !! j).
Proof.
  intros Hsk Hnk Hc. destruct (write_client_spec unixtime h k everyone text nt id c Hsk Hnk ltac:(done) Hc) as (ok & k' & nt' & E & [B1 B2 B3 B4 B5] & _).
  exists ok, k', nt'. split; [done|]. split; [|done]. destruct ok; [|done]. apply (net_wakes text nt' id B5). destruct B4 as (c' & Hc' & Hw). intros c2 Hc2. rewrite Hc' in Hc2. injection Hc2 as <-.
  apply (wrote_wakes h c c' Hw), (ck_wakes _ _ _ _ _ (nk_client _ _ _ Hnk id c Hc)). done.
Qed.

(** ** The list of pending writes *)

Lemma handle_pending_spec event_ok unixtime k text nt id :
  sock_ok sk -> net_ok everyone text nt -> id ∈ nt_pending nt ->
  exists k' nt', handle_pending sk event_ok unixtime k id nt = Ok (k', nt') /\ net_ok everyone text nt' /\ (forall j, j <> id -> nt_clients nt' !! j = nt_clients nt !! j) /\
    (forall j, j ∈ nt_pending nt' <-> j ∈ nt_pending nt /\ j <> id) /\ (drains sk -> forall c, nt_clients nt' !! id = Some c -> clientHasPendingReplies c = false).
Proof.
  intros Hsk Hnk Hin. pose proof Hnk as [H1 H2 [H3 H4]]. destruct (H2 id ltac:(by left)) as [c Hc]. destruct (H1 id c Hc) as [A1 A2 A3 A4 A5 A6 A7 A8]. unfold handle_pending. rewrite Hc. cbn [need mbind res_bind].
  set (c1 := set_flags _ c). set (pend := List.filter _ _). set (nt1 := MkNet _ pend _).
  assert (net_ok (all_but id) text nt1) as Hnk1.
  { apply (net_update everyone (all_but id) text text nt id c); try done; [|by apply nodup_without|].
    - intros j Hj. split; [|done]. unfold pend. rewrite elem_of_without. intuition.
    - destruct (same_output_ok c c1 ltac:(done) A1) as [Hok Ho]. constructor; cbn [nt_pending nt_close nt1]; try done.
      + unfold pend. rewrite elem_of_without. split; [by intros [_ []]|done]. }
  assert (forall j, j ∈ pend <-> j ∈ nt_pending nt /\ j <> id) as Hpd by (intros j; apply elem_of_without).
  destruct (write_client_spec unixtime false k (all_but id) text nt1 id c1 Hsk Hnk1) as (ok & k' & nt2 & -> & [B1 B2 B3 B4 B5] & Hd); [done|by apply lookup_insert_eq|]. cbn [mbind res_bind].
  assert (forall j, j <> id -> nt_clients nt2 !! j = nt_clients nt !! j) as Ho2 by (intros j Hj; rewrite B1 by done; cbn; by rewrite lookup_insert_ne).
  assert (forall j, j ∈ nt_pending nt2 <-> j ∈ nt_pending nt /\ j <> id) as Hp2.
  { intros j. destruct (decide (j = id)) as [-> |Hj]; [|rewrite B2 by done; apply Hpd]. split; [|by intros [_ []]]. intros Hj. destruct ok.
    - rewrite B3 in Hj by done. by apply Hpd in Hj.
    - destruct (nk_in _ _ _ B5 id ltac:(by left)) as [x Hx]. congruence. }
  destruct ok; cbn [negb]; [|exists k', nt2; by repeat (split; [done|])]. destruct B4 as (c2 & Hc2 & Hw). rewrite Hc2. cbn [need mbind res_bind].
  assert (forall c', nt_clients nt2 !! id = Some c' -> c' = c2) as Heq by (intros c' Hc'; congruence).
  destruct (clientHasPendingReplies c2) eqn:Ep; cbn [negb].
  2:{ exists k', nt2. split; [done|]. split; [|done]. apply (net_wakes text nt2 id B5). intros c' ->%Heq Hp. congruence. }
  assert (drains sk -> False) as Hnd by (intros Hdr; specialize (Hd Hdr c2 Hc2); congruence).
  pose proof B5 as [C1 C2 [C3 C4]]. destruct (C1 id c2 Hc2) as [D1 D2 D3 D4 D5 D6 D7 D8]. destruct (event_ok id).
  - eexists _, _. split; [reflexivity|]. cbn [nt_clients nt_pending]. split; [|split; [intros j Hj; rewrite lookup_insert_ne by done; by apply Ho2|split; [exact Hp2|intros Hdr; by destruct Hnd]]].
    apply (net_update (all_but id) everyone text text nt2 id c2); try done. destruct (same_output_ok c2 (set_writable true c2) ltac:(done) D1) as [Hok Ho].
    constructor; try done. intros _ _. by right; left.
  - unfold on_client. rewrite Hc2. cbn [need mbind res_bind]. unfold freeClientAsync. cbn [po_client po_pending po_close]. destruct (of_close_asap (oc_flags c2) || of_lua (oc_flags c2)) eqn:Ecl; cbn [po_client po_pending po_close].
    + eexists _, _. split; [reflexivity|]. cbn [nt_clients nt_pending]. split; [|split; [intros j Hj; rewrite lookup_insert_ne by done; by apply Ho2|split; [exact Hp2|intros Hdr; by destruct Hnd]]].
      apply (net_update (all_but id) everyone text text nt2 id c2); try done. constructor; try done. intros _ _. apply orb_true_iff in Ecl as [Ecl|Ecl]; [by do 2 right; left|do 3 right; left; by rewrite Ecl].
    + apply orb_false_iff in Ecl as [Ecl El]. eexists _, _. split; [reflexivity|]. cbn [nt_clients nt_pending]. split; [|split; [intros j Hj; rewrite lookup_insert_ne by done; by apply Ho2|split; [exact Hp2|intros Hdr; by destruct Hnd]]].
      set (c3 := set_flags _ c2). destruct (same_output_ok c2 c3 ltac:(done) D1) as [Hok Ho].
      apply (net_update (all_but id) everyone text text nt2 id c2); try done.
      * intros j Hj. split; [done|]. rewrite elem_of_app, list_elem_of_singleton. intuition.
      * apply NoDup_app. split; [done|]. split; [|by apply NoDup_singleton]. intros j Hj ->%list_elem_of_singleton. apply D4 in Hj. congruence.
      * constructor; cbn [nt_pending nt_close]; try done.
        -- intros _ _. by do 2 right; left.
        -- split; [done|]. intros _. apply elem_of_app. right. by apply list_elem_of_singleton.
Qed.

Lemma pending_loop_spec event_ok unixtime text ids : forall k nt,
  sock_ok sk -> net_ok everyone text nt -> NoDup ids -> (forall j, j ∈ ids -> j ∈ nt_pending nt) ->
  exists k' nt', pending_loop sk event_ok unixtime ids k nt = Ok (k', nt') /\ net_ok everyone text nt' /\ (forall j, j ∉ ids -> nt_clients nt' !! j = nt_clients nt !! j) /\
    (forall j, j ∈ nt_pending nt' <-> j ∈ nt_pending nt /\ j ∉ ids) /\
    (drains sk -> forall j c, j ∈ ids -> nt_clients nt' !! j = Some c -> clientHasPendingReplies c = false).
Proof.
  induction ids as [|id ids IH]; intros k nt Hsk Hnk Hn Hin; cbn [pending_loop].
  - exists k, nt. split; [done|]. split; [done|]. split; [done|]. split; [|by intros _ j c Hj%not_elem_of_nil]. intros j. split; [|by intros []]. intros Hj. split; [done|apply not_elem_of_nil].
  - apply NoDup_cons in Hn as [Hid Hn]. destruct (handle_pending_spec event_ok unixtime k text nt id Hsk Hnk) as (k1 & nt1 & -> & Hnk1 & Ho1 & Hp1 & Hd1); [apply Hin; by left|]. cbn [mbind res_bind].
    destruct (IH k1 nt1 Hsk Hnk1 Hn) as (k' & nt' & -> & Hnk' & Ho & Hp & Hd). { intros j Hj. apply Hp1. split; [apply Hin; by right|]. intros ->. done. }
    exists k', nt'. split; [done|]. split; [done|]. split; [|split].
    + intros j [Hj1 Hj2]%not_elem_of_cons. rewrite Ho by done. by apply Ho1.
    + intros j. rewrite Hp, Hp1, not_elem_of_cons. tauto.
    + intros Hdr j c Hj Hc. apply elem_of_cons in Hj as [-> |Hj]; [|by apply (Hd Hdr j)]. rewrite Ho in Hc by done. by apply (Hd1 Hdr).
Qed.

(** After it the list is empty, and a client that still has output has its handler, or is to
    be closed. *)

Lemma pending_done event_ok unixtime text k nt :
  sock_ok sk -> net_ok everyone text nt ->
  exists k' nt', handleClientsWithPendingWrites sk event_ok unixtime k nt = Ok (k', nt') /\ net_ok everyone text nt' /\ nt_pending nt' = [] /\
    (forall j, j ∉ nt_pending nt -> nt_clients nt' !! j = nt_clients nt !! j) /\
    (drains sk -> forall j c, j ∈ nt_pending nt -> nt_clients nt' !! j = Some c -> clientHasPendingReplies c = false).
Proof.
  intros Hsk Hnk. destruct (pending_loop_spec event_ok unixtime text (nt_pending nt) k nt Hsk Hnk) as (k' & nt' & E & Hnk' & Ho & Hp & Hd); [apply (nk_nodup _ _ _ Hnk)|done|].
  exists k', nt'. split; [exact E|]. split; [done|]. split; [|done]. destruct (nt_pending nt') as [|j l]; [done|]. destruct (proj1 (Hp j)) as [H1 H2]; [by left|done].
Qed.

(** ** Closing, flushing, and slaves that go online *)

Lemma close_first_spec text nt id rest :
  net_ok everyone text nt -> nt_close nt = id :: rest ->
  exists nt', close_first nt = Ok nt' /\ net_ok everyone text nt' /\ nt_close nt' = rest.
Proof.
  intros Hnk Ecl. pose proof Hnk as [H1 H2 [H3 H4]]. unfold close_first. rewrite Ecl in *. apply NoDup_cons in H4 as [Hid H4]. destruct (H2 id ltac:(right; by left)) as [c Hc]. rewrite Hc. cbn [need mbind res_bind].
  destruct (H1 id c Hc) as [A1 A2 A3 A4 A5 A6 A7 A8]. set (c1 := set_flags _ c).
  assert (net_ok (all_but id) text (MkNet (<[id := c1]> (nt_clients nt)) (nt_pending nt) rest)) as Hnk1.
  { apply (net_update everyone (all_but id) text text nt id c); try done.
    - intros j Hj. split; [done|]. rewrite Ecl, elem_of_cons. intuition.
    - destruct (same_output_ok c c1 ltac:(done) A1) as [Hok Ho]. constructor; cbn [nt_pending nt_close]; try done. }
  destruct (drop_spec (all_but id) text _ id c1 Hnk1 ltac:(done)) as (nt' & E & Hnk' & _); [by apply lookup_insert_eq|].
  unfold drop_client in *. cbn [nt_clients nt_pending nt_close] in *. rewrite lookup_insert_eq in *. cbn [need mbind res_bind] in *. change (of_close_asap (oc_flags c1)) with false in *. cbn [negb orb c_assert mbind res_bind] in *.
  destruct (negb _ || _); cbn [c_assert mbind res_bind] in *; [|done]. injection E as <-. eexists. split; [reflexivity|]. by split.
Qed.

Lemma close_all text nt : net_ok everyone text nt -> exists nt', freeClientsInAsyncFreeQueue nt = Ok nt' /\ net_ok everyone text nt' /\ nt_close nt' = [].
Proof.
  unfold freeClientsInAsyncFreeQueue. remember (nt_close nt) as l eqn:El. revert nt El. induction l as [|id rest IH]; intros nt El Hnk; cbn [length close_loop]; rewrite <- El.
  - exists nt. by rewrite bool_decide_true.
  - rewrite bool_decide_false by done. destruct (close_first_spec text nt id rest Hnk (eq_sym El)) as (nt1 & -> & Hnk1 & E1). cbn [mbind res_bind]. by apply IH.
Qed.

Lemma flush_spec unixtime text ids : forall k nt,
  sock_ok sk -> net_ok everyone text nt -> NoDup ids -> (forall j, j ∈ ids -> is_Some (nt_clients nt !! j)) ->
  exists k' nt', flushSlavesOutputBuffers sk unixtime ids k nt = Ok (k', nt') /\ net_ok everyone text nt'.
Proof.
  induction ids as [|id ids IH]; intros k nt Hsk Hnk Hn Hin; cbn [flushSlavesOutputBuffers]; [by exists k, nt|]. apply NoDup_cons in Hn as [Hid Hn].
  destruct (Hin id ltac:(by left)) as [c Hc]. rewrite Hc. cbn [need mbind res_bind]. destruct (_ && _ && _).
  - destruct (write_net unixtime false k text nt id c Hsk Hnk Hc) as (ok & k1 & nt1 & -> & Hnk1 & Ho). cbn [mbind res_bind]. apply IH; [done|done|done|]. intros j Hj. rewrite Ho by (intros ->; done). apply Hin. by right.
  - cbn [mbind res_bind]. apply IH; [done|done|done|]. intros j Hj. apply Hin. by right.
Qed.

Lemma online_spec event_ok text nt id c :
  net_ok everyone text nt -> nt_clients nt !! id = Some c -> exists nt', slave_goes_online event_ok id nt = Ok nt' /\ net_ok everyone text nt'.
Proof.
  intros Hnk Hc. pose proof Hnk as [H1 H2 [H3 H4]]. unfold slave_goes_online. rewrite Hc. cbn [need mbind res_bind]. destruct (H1 id c Hc) as [A1 A2 A3 A4 A5 A6 A7 A8].
  destruct (same_output_ok c (set_online c) ltac:(done) A1) as [Hok Ho].
  assert (net_ok (all_but id) text (MkNet (<[id := set_online c]> (nt_clients nt)) (nt_pending nt) (nt_close nt))) as Hnk1 by (by apply (net_update everyone (all_but id) text text nt id c)).
  destruct event_ok.
  - eexists. split; [reflexivity|]. cbn [nt_clients nt_pending nt_close]. apply (net_update (all_but id) everyone text text _ id (set_online c) _ _ _ Hnk1); try done; [by apply lookup_insert_eq|].
    destruct (same_output_ok c (set_writable true (set_online c)) ltac:(done) A1) as [Hok2 Ho2]. constructor; try done. intros _ _. by right; left.
  - destruct (drop_spec (all_but id) text _ id (set_online c) Hnk1 ltac:(done)) as (nt' & -> & Hnk' & _); [by apply lookup_insert_eq|]. by exists nt'.
Qed.

End nets.

(** ** Runs of the server *)

(** What happens to the output of clients: a command replies, a socket is writable, the event
    loop is about to sleep, the clients to be closed are freed, the buffers of slaves are
    flushed, a slave goes online.  For a client that is gone, or whose handler is not
    installed, nothing happens. *)

Inductive net_op :=
| OpReply (unixtime id : Z) (r : reply)
| OpWritable (unixtime id : Z)
| OpBeforeSleep (event_ok : Z -> bool) (unixtime : Z)
| OpClose
| OpFlush (unixtime : Z) (slaves : list Z)
| OpOnline (event_ok : bool) (id : Z).

Section run.

Context (limits : list clientBufferLimitsConfig) (sk : sock).

Definition do_op (op : net_op) (k : nat) (nt : net) : res (nat * net) :=
  match op with
  | OpReply unixtime id r =>
      match nt_clients nt !! id with
      | Some _ => nt ← on_client id (run_reply limits unixtime id r) nt; Ok (k, nt)
      | None => Ok (k, nt)
      end
  | OpWritable unixtime id =>
      match nt_clients nt !! id with
      | Some c => if oc_writable c then sendReplyToClient sk unixtime k id nt else Ok (k, nt)
      | None => Ok (k, nt)
      end
  | OpBeforeSleep event_ok unixtime => handleClientsWithPendingWrites sk event_ok unixtime k nt
  | OpClose => nt ← freeClientsInAsyncFreeQueue nt; Ok (k, nt)
  | OpFlush unixtime slaves => flushSlavesOutputBuffers sk unixtime (List.filter (fun id => bool_decide (is_Some (nt_clients nt !! id))) slaves) k nt
  | OpOnline event_ok id =>
      match nt_clients nt !! id with
      | Some _ => nt ← slave_goes_online event_ok id nt; Ok (k, nt)
      | None => Ok (k, nt)
      end
  end.

Fixpoint run_net (ops : list net_op) (k : nat) (nt : net) : res (nat * net) :=
  match ops with
  | [] => Ok (k, nt)
  | op :: ops => '(k, nt) ← do_op op k nt; run_net ops k nt
  end.

Definition op_ok (op : net_op) : Prop :=
  match op with
  | OpReply _ _ r => reply_ok r
  | OpFlush _ slaves => NoDup slaves
  | _ => True
  end.

(** All that was replied to a client; [close] as in [reply_text]. *)

Definition op_text (id : Z) (close : bool) (op : net_op) : bytes :=
  match op with
  | OpReply _ j r => if id =? j then reply_text close r else []
  | _ => []
  end.

Definition said (ops : list net_op) (id : Z) (close : bool) : bytes := concat (map (op_text id close) ops).

Definition idle (c : oclient) : Prop :=
  oc_buf c = [] /\ oc_sentlen c = 0 /\ oc_reply c = [] /\ oc_reply_bytes c = 0 /\ oc_wire c = [] /\
  of_pending_write (oc_flags c) = false /\ of_close_asap (oc_flags c) = false /\ (accepts c = true -> class_ok limits c).

Lemma net_ok_ext W text text' nt : (forall id b, text' id b = text id b) -> net_ok limits W text nt -> net_ok limits W text' nt.
Proof.
  intros He [H1 H2 H3]. constructor; [|done|done]. intros id c Hc. destruct (H1 id c Hc) as [A1 A2 A3 A4 A5 A6 A7 A8]. constructor; try done; [intros f; by rewrite He|by rewrite He].
Qed.

(** A reply to a client that is gone concerns no client. *)

Lemma net_ok_gone W text text' nt id :
  nt_clients nt !! id = None -> (forall j b, j <> id -> text' j b = text j b) -> net_ok limits W text nt -> net_ok limits W text' nt.
Proof.
  intros Hn He [H1 H2 H3]. constructor; [|done|done]. intros j c Hc. assert (j <> id) as Hj by (intros ->; congruence).
  destruct (H1 j c Hc) as [A1 A2 A3 A4 A5 A6 A7 A8]. constructor; try done; [intros f; by rewrite He|by rewrite He].
Qed.

Lemma do_op_spec op k nt text :
  sock_ok sk -> net_ok limits everyone text nt -> op_ok op -> (forall id, zlen (text id false ++ op_text id false op) < 2 ^ 62) ->
  exists k' nt', do_op op k nt = Ok (k', nt') /\ net_ok limits everyone (fun id b => text id b ++ op_text id b op) nt'.
Proof.
  intros Hsk Hnk Hop Hsz. destruct op as [unixtime id r|unixtime id|event_ok unixtime| |unixtime slaves|event_ok id]; cbn [do_op op_text] in *;
    [|assert (net_ok limits everyone (fun id b => text id b ++ []) nt) as Hnk' by (apply (net_ok_ext _ text); [intros; apply app_nil_r|done])..].
  - destruct (nt_clients nt !! id) as [c|] eqn:Hc.
    + specialize (Hsz id). rewrite Z.eqb_refl in Hsz. destruct (reply_spec limits unixtime text nt id c r Hnk Hc Hop Hsz) as (nt' & -> & H). cbn [mbind res_bind]. exists k, nt'. split; [done|].
      revert H. apply net_ok_ext. intros j b. unfold said_more. destruct (Z.eqb_spec j id); [done|by rewrite app_nil_r].
    + exists k, nt. split; [done|]. apply (net_ok_gone _ text _ _ id Hc); [|done]. intros j b Hj. rewrite (proj2 (Z.eqb_neq j id)) by done. apply app_nil_r.
  - destruct (nt_clients nt !! id) as [c|] eqn:Hc; [|by exists k, nt]. destruct (oc_writable c); [|by exists k, nt].
    unfold sendReplyToClient. destruct (write_net limits sk unixtime true k _ nt id c Hsk Hnk' Hc) as (ok & k' & nt' & -> & H & _). by exists k', nt'.
  - destruct (pending_done limits sk event_ok unixtime _ k nt Hsk Hnk') as (k' & nt' & E & H & _). by exists k', nt'.
  - destruct (close_all limits _ nt Hnk') as (nt' & -> & H & _). by exists k, nt'.
  - destruct (flush_spec limits sk unixtime _ (List.filter (fun id => bool_decide (is_Some (nt_clients nt !! id))) slaves) k nt Hsk Hnk') as (k' & nt' & E & H); [| |by exists k', nt'].
    + apply NoDup_ListNoDup. by apply List.NoDup_filter, NoDup_ListNoDup.
    + intros j Hj. apply list_elem_of_In, filter_In in Hj as [_ Hj]. by apply bool_decide_eq_true in Hj.
  - destruct (nt_clients nt !! id) as [c|] eqn:Hc; [|by exists k, nt]. destruct (online_spec limits event_ok _ nt id c Hnk' Hc) as (nt' & -> & H). by exists k, nt'.
Qed.

Lemma run_net_spec ops : forall k nt text,
  sock_ok sk -> net_ok limits everyone text nt -> Forall op_ok ops -> (forall id, zlen (text id false ++ said ops id false) < 2 ^ 62) ->
  exists k' nt', run_net ops k nt = Ok (k', nt') /\ net_ok limits everyone (fun id b => text id b ++ said ops id b) nt'.
Proof.
  induction ops as [|op ops IH]; intros k nt text Hsk Hnk Hops Hsz; cbn [run_net].
  - exists k, nt. split; [done|]. apply (net_ok_ext _ text); [|done]. intros id b. apply app_nil_r.
  - apply Forall_cons_1 in Hops as [Hop Hops]. assert (forall id b, text id b ++ said (op :: ops) id b = (text id b ++ op_text id b op) ++ said ops id b) as Ha by (intros id b; by rewrite <- app_assoc).
    destruct (do_op_spec op k nt text Hsk Hnk Hop) as (k1 & nt1 & -> & Hnk1).
    { intros id. specialize (Hsz id). rewrite Ha, zlen_app in Hsz. pose proof (zlen_nonneg (said ops id false)). lia. }
    cbn [mbind res_bind]. destruct (IH k1 nt1 _ Hsk Hnk1 Hops) as (k' & nt' & -> & H). { intros id. rewrite <- Ha. apply Hsz. }
    exists k', nt'. split; [done|]. revert H. apply net_ok_ext. intros id b. by rewrite Ha.
Qed.

Lemma idle_net nt : map_Forall (fun _ c => idle c) (nt_clients nt) -> nt_pending nt = [] -> nt_close nt = [] -> net_ok limits everyone (fun _ _ => []) nt.
Proof.
  intros Hi Hp Hc. constructor; [|rewrite Hp, Hc; intros id [H|H]; by apply not_elem_of_nil in H|rewrite Hp, Hc; split; apply NoDup_nil_2].
  intros id c Hid. destruct (Hi id c Hid) as (E1 & E2 & E3 & E4 & E5 & E6 & E7 & E8). constructor; rewrite ?Hp, ?Hc, ?E3, ?E6, ?E7; try done.
  - constructor; rewrite ?E1, ?E2, ?E3, ?E4; try done; apply NoDup_nil_2.
  - intros _. unfold wakes, clientHasPendingReplies. by rewrite E1, E3.
  - split; [intros H; by apply not_elem_of_nil in H|done].
  - split; [intros H; by apply not_elem_of_nil in H|done].
  - intros f. unfold out. rewrite E1, E2, E3, E5. by destruct (accepts c).
Qed.

(** What was not written yet. *)

Definition waiting (c : oclient) : bytes := drop (Z.to_nat (oc_sentlen c)) (oc_buf c ++ render (fun _ => []) (oc_reply c)).

Lemma waiting_pending c : waiting c <> [] -> clientHasPendingReplies c = true.
Proof.
  unfold waiting, clientHasPendingReplies. destruct (oc_buf c); [|done]. destruct (oc_reply c); [|done]. intros H. exfalso. apply H. cbn. by destruct (Z.to_nat _).
Qed.

(** ** Claim *)

(** C20: replies.  Clients without output are replied to, with arrays whose length comes after
    their elements, their sockets take what they like, are written to whenever they may be, and
    clients are closed, in any order.  No assertion fails and nothing undefined happens.
    What the socket of a client took, followed by what waits, is exactly all that was
    replied to it, in order; a client that takes no replies is sent nothing.  Output never
    waits for nothing: before the event loop sleeps the list of clients with something to
    write is emptied, and then every client with output has its handler, or is to be closed,
    or has no socket, or is a slave that is not online.  If the sockets take all they are
    given, those clients have all their replies.  The clients are of a class with limits
    on their output ([class_ok]): that of the links with peers is past the end of the
    array of limits. *)
Theorem replies_in_order (k : nat) (nt : net) (ops : list net_op)
    (Hsk : sock_ok sk) (Hidle : map_Forall (fun _ c => idle c) (nt_clients nt)) (Hp : nt_pending nt = []) (Hc : nt_close nt = [])
    (Hops : Forall op_ok ops) (Hsize : forall id, zlen (said ops id false) < 2 ^ 62) (event_ok : Z -> bool) (unixtime : Z) :
  exists k1 nt1 k2 nt2, run_net ops k nt = Ok (k1, nt1) /\ handleClientsWithPendingWrites sk event_ok unixtime k1 nt1 = Ok (k2, nt2) /\ nt_pending nt2 = [] /\
    (forall id c, nt_clients nt1 !! id = Some c -> oc_wire c ++ waiting c = if accepts c then said ops id (closing c) else []) /\
    (forall id c, nt_clients nt2 !! id = Some c -> oc_wire c ++ waiting c = (if accepts c then said ops id (closing c) else []) /\
       (waiting c <> [] -> oc_writable c = true \/ of_close_asap (oc_flags c) = true \/ of_lua (oc_flags c) || of_module (oc_flags c) = true \/ online c = false) /\
       (drains sk -> id ∈ nt_pending nt1 -> oc_wire c = if accepts c then said ops id (closing c) else [])).
Proof.
  destruct (run_net_spec ops k nt (fun _ _ => []) Hsk (idle_net nt Hidle Hp Hc) Hops Hsize) as (k1 & nt1 & E1 & Hnk1). cbn [app] in Hnk1.
  destruct (pending_done limits sk event_ok unixtime _ k1 nt1 Hsk Hnk1) as (k2 & nt2 & E2 & Hnk2 & Hn & _ & Hd). exists k1, nt1, k2, nt2. split; [done|]. split; [done|]. split; [done|]. split.
  - intros id c Hid. exact (ck_out _ _ _ _ _ _ (nk_client _ _ _ _ Hnk1 id c Hid) (fun _ => [])).
  - intros id c Hid. destruct (nk_client _ _ _ _ Hnk2 id c Hid) as [_ A2 A3 _ _ _ A7 _]. specialize (A7 (fun _ => [])). split; [exact A7|]. split.
    + intros Hw%waiting_pending. destruct (A2 I Hw) as [H|H]; [|exact H]. apply A3 in H. rewrite Hn in H. by apply not_elem_of_nil in H.
    + intros Hdr Hin. specialize (Hd Hdr id c Hin Hid). rewrite <- A7. unfold out. fold (waiting c). destruct (waiting c) eqn:Ew; [by rewrite app_nil_r|].
      rewrite waiting_pending in Hd; [done|by rewrite Ew].
Qed.

End run.

(** A client that asks for an array, and the link with a peer, which takes no replies.  The
    socket takes all it is given. *)

Definition example_flags (crdt_master : bool) : oflags :=
  MkOflags false false false false false crdt_master false false false false false false false false.

Definition example_client (fd : Z) (crdt_master : bool) : oclient := MkOclient fd (example_flags crdt_master) REPL_STATE_NONE false [] 0 [] 0 0 0 false 0 [].

Definition example_sock : sock := MkSock (fun _ b => zlen b) (fun _ => true) (fun _ => false).

Definition example_net : net := MkNet {[ 1 := example_client 8 false; 2 := example_client 9 true ]} [] [].

Definition example_array : reply := RArray [RObject (ObjInt 7); RString CRLF] 1.

Lemma replies_in_order_witness :
  let ops := [OpReply 100 1 example_array; OpReply 100 2 example_array; OpReply 100 1 (RSds (str "+OK"))] in
  exists k1 nt1 k2 nt2 c1 c2, run_net clientBufferLimitsDefaults example_sock ops 0 example_net = Ok (k1, nt1) /\
    handleClientsWithPendingWrites example_sock (fun _ => true) 100 k1 nt1 = Ok (k2, nt2) /\
    nt_clients nt2 !! 1 = Some c1 /\ oc_wire c1 = str "*1" ++ CRLF ++ str "7" ++ CRLF ++ str "+OK" /\ nt_clients nt2 !! 2 = Some c2 /\ oc_wire c2 ++ waiting c2 = [].
Proof.
  intros ops. destruct (replies_in_order clientBufferLimitsDefaults example_sock 0 example_net ops) with (event_ok := fun _ : Z => true) (unixtime := 100) as (k1 & nt1 & k2 & nt2 & E1 & E2 & _ & _ & H2).
  - intros k b. cbn. lia.
  - intros id c Hc. unfold example_net in Hc. cbn [nt_clients] in Hc. apply lookup_insert_Some in Hc as [[<- <-]|[_ Hc]]; [|apply lookup_singleton_Some in Hc as [<- <-]]; repeat (split; [done|]); [intros _; by eexists|done].
  - reflexivity.
  - reflexivity.
  - apply Forall_cons_2; [vm_compute; intuition congruence|]. apply Forall_cons_2; [vm_compute; intuition congruence|]. apply Forall_cons_2; [done|]. apply Forall_nil_2.
  - intros id. unfold said. cbn [ops map op_text concat]. rewrite app_nil_r, !zlen_app. destruct (id =? 1), (id =? 2); vm_compute; reflexivity.
  - assert (1 ∈ nt_pending nt1 /\ is_Some (nt_clients nt2 !! 1) /\ is_Some (nt_clients nt2 !! 2)) as (Hin & [c1 Hc1] & [c2 Hc2]).
    { vm_compute in E1. injection E1 as <- <-. vm_compute in E2. injection E2 as <- <-. split; [decide_now|]. split; by eexists. }
    exists k1, nt1, k2, nt2, c1, c2. split; [exact E1|]. split; [exact E2|]. split; [exact Hc1|].
    destruct (H2 1 c1 Hc1) as (_ & _ & Hd). specialize (Hd ltac:(done) Hin). destruct (H2 2 c2 Hc2) as (Hw & _).
    assert (accepts c1 = true /\ closing c1 = false /\ accepts c2 = false) as (A1 & A2 & A3).
    { vm_compute in E1. injection E1 as <- <-. vm_compute in E2. injection E2 as <- <-. vm_compute in Hc1, Hc2. injection Hc1 as <-. injection Hc2 as <-. done. }
    rewrite A1, A2 in Hd. rewrite A3 in Hw. split; [rewrite Hd; reflexivity|]. split; [exact Hc2|exact Hw].
Defined.
