(* ===== verification/Dict.v ===== *)
(** * Hash tables ([src/src/dict.c], [src/src/dict.h])

    The dictionaries of the server: chained hash tables that grow and shrink
    without stopping, the entries moving a bucket at a time to a second table.
    The hash function and the comparison of the keys are those of the type of the
    dictionary; keys that compare as equal are equal here.  A bucket is the list
    of its entries, a table that is [NULL] has no buckets. *)

From S2P Require Import Prelude.

Definition DICT_HT_INITIAL_SIZE : Z := 4.

Definition dict_force_resize_ratio : Z := 5.

Definition LONG_MAX : Z := 2 ^ 63 - 1.

Record dictht (key val : Type) := MkHt {
  ht_table : list (list (key * val));
  ht_size : Z;
  ht_sizemask : Z;
  ht_used : Z
}.

Arguments MkHt {key val} _ _ _ _.
Arguments ht_table {key val} _.
Arguments ht_size {key val} _.
Arguments ht_sizemask {key val} _.
Arguments ht_used {key val} _.

Record dict (key val : Type) := MkDict {
  ht0 : dictht key val;
  ht1 : dictht key val;
  rehashidx : Z;
  iterators : Z
}.

Arguments MkDict {key val} _ _ _ _.
Arguments ht0 {key val} _.
Arguments ht1 {key val} _.
Arguments rehashidx {key val} _.
Arguments iterators {key val} _.

Section operations.

Context {key val : Type} `{Countable key} (hash : key -> Z).

Abbreviation entry := (key * val)%type.
Abbreviation dictht := (dictht key val).
Abbreviation dict := (dict key val).

(** The globals [dict_can_resize] and [dict_expand_max_idle_size]. *)

Context (can_resize : bool) (max_idle : Z).

Definition _dictReset : dictht := MkHt [] 0 0 0.

Definition dictCreate : dict := MkDict _dictReset _dictReset (-1) 0.

Definition dictIsRehashing (d : dict) : bool := negb (rehashidx d =? -1).

Definition dictSize (d : dict) : Z := to_ull (ht_used (ht0 d) + ht_used (ht1 d)).

Definition set_ht0 (h : dictht) (d : dict) : dict := MkDict h (ht1 d) (rehashidx d) (iterators d).

Definition set_ht1 (h : dictht) (d : dict) : dict := MkDict (ht0 d) h (rehashidx d) (iterators d).

Definition set_rehashidx (i : Z) (d : dict) : dict := MkDict (ht0 d) (ht1 d) i (iterators d).

(** ** Sizes *)

Fixpoint next_power (fuel : nat) (i size : Z) : res Z :=
  match fuel with
  | O => Undef
  | S fuel => if i >=? size then Ok i else next_power fuel (to_ull (i * 2)) size
  end.

Definition _dictNextPower (size : Z) : res Z :=
  if size >=? LONG_MAX then Ok (LONG_MAX + 1) else next_power 64 DICT_HT_INITIAL_SIZE size.

(** [true] is [DICT_OK]. *)

Definition dictExpand (d : dict) (size : Z) : res (bool * dict) :=
  realsize ← _dictNextPower size;
  if dictIsRehashing d || (ht_used (ht0 d) >? size) then Ok (false, d) else
  if realsize =? ht_size (ht0 d) then Ok (false, d) else
  let n := MkHt (replicate (Z.to_nat realsize) []) realsize (realsize - 1) 0 in
  if bool_decide (ht_table (ht0 d) = []) then Ok (true, set_ht0 n d)
  else Ok (true, set_rehashidx 0 (set_ht1 n d)).

Definition dictResize (d : dict) : res (bool * dict) :=
  if negb can_resize || dictIsRehashing d then Ok (false, d) else
  let minimal := to_int (ht_used (ht0 d)) in
  let minimal := if minimal <? DICT_HT_INITIAL_SIZE then DICT_HT_INITIAL_SIZE else minimal in
  dictExpand d (to_ull minimal).

Definition _dictExpandIfNeeded (d : dict) : res (bool * dict) :=
  if dictIsRehashing d then Ok (true, d) else
  let u := ht_used (ht0 d) in
  let s := ht_size (ht0 d) in
  if s =? 0 then dictExpand d DICT_HT_INITIAL_SIZE else
  if (u >=? s) && (can_resize || (u / s >? dict_force_resize_ratio)) then
    min_2x ← _dictNextPower u;
    if (min_2x >? u) && (to_ull (2 * min_2x - u) >? max_idle)
    then n ← _dictNextPower u; dictExpand d n
    else dictExpand d (to_ull (u * 2))
  else Ok (true, d).

(** ** Moving the entries *)

Definition push_entry (e : entry) (h : dictht) : res dictht :=
  let idx := Z.to_nat (Z.land (hash e.1) (ht_sizemask h)) in
  b ← need (ht_table h !! idx);
  Ok (MkHt (<[idx := e :: b]> (ht_table h)) (ht_size h) (ht_sizemask h) (to_ull (ht_used h + 1))).

Fixpoint move_bucket (b : list entry) (d : dict) : res dict :=
  match b with
  | [] => Ok d
  | e :: b =>
      h1 ← push_entry e (ht1 d);
      let h0 := ht0 d in
      move_bucket b (set_ht1 h1 (set_ht0 (MkHt (ht_table h0) (ht_size h0) (ht_sizemask h0) (to_ull (ht_used h0 - 1))) d))
  end.

(** The first bucket from [i] on that is not empty, unless the visits run out
    ([None]). *)

Fixpoint skip_empty (fuel : nat) (t : list (list entry)) (i empty_visits : Z) : res (Z * Z * option (list entry)) :=
  match fuel with
  | O => Undef
  | S fuel =>
      b ← need (t !! Z.to_nat i);
      if bool_decide (b = []) then
        if empty_visits - 1 =? 0 then Ok (i + 1, 0, None)
        else skip_empty fuel t (i + 1) (empty_visits - 1)
      else Ok (i, empty_visits, Some b)
  end.

(** [false] in the result: the visits ran out. *)

Fixpoint rehash_loop (n : nat) (empty_visits : Z) (d : dict) : res (bool * dict) :=
  match n with
  | O => Ok (true, d)
  | S n =>
      if ht_used (ht0 d) =? 0 then Ok (true, d) else
      _ ← c_assert (ht_size (ht0 d) >? rehashidx d);
      '(i, empty_visits, ob) ← skip_empty (S (length (ht_table (ht0 d)))) (ht_table (ht0 d)) (rehashidx d) empty_visits;
      match ob with
      | None => Ok (false, set_rehashidx i d)
      | Some b =>
          d ← move_bucket b d;
          let h0 := ht0 d in
          let h0 := MkHt (<[Z.to_nat i := []]> (ht_table h0)) (ht_size h0) (ht_sizemask h0) (ht_used h0) in
          rehash_loop n empty_visits (set_rehashidx (i + 1) (set_ht0 h0 d))
      end
  end.

Definition dictRehash (d : dict) (n : nat) : res (bool * dict) :=
  if negb (dictIsRehashing d) then Ok (false, d) else
  '(through, d) ← rehash_loop n (Z.of_nat n * 10) d;
  if negb through then Ok (true, d) else
  if ht_used (ht0 d) =? 0 then Ok (false, set_rehashidx (-1) (set_ht1 _dictReset (set_ht0 (ht1 d) d)))
  else Ok (true, d).

Definition _dictRehashStep (d : dict) : res dict :=
  if iterators d =? 0 then '(_, d) ← dictRehash d 1; Ok d else Ok d.

Definition rehash_step_if (d : dict) : res dict :=
  if dictIsRehashing d then _dictRehashStep d else Ok d.

(** ** Entries *)

Fixpoint find_entry (k : key) (b : list entry) : option entry :=
  match b with
  | [] => None
  | e :: b => if decide (k = e.1) then Some e else find_entry k b
  end.

Fixpoint unlink_entry (k : key) (b : list entry) : list entry :=
  match b with
  | [] => []
  | e :: b => if decide (k = e.1) then b else e :: unlink_entry k b
  end.

Fixpoint set_val (k : key) (v : val) (b : list entry) : list entry :=
  match b with
  | [] => []
  | e :: b => if decide (k = e.1) then (e.1, v) :: b else e :: set_val k v b
  end.

Definition bucket_index (k : key) (h : dictht) : nat := Z.to_nat (Z.land (hash k) (ht_sizemask h)).

Definition find_in (k : key) (h : dictht) : res (option entry) :=
  b ← need (ht_table h !! bucket_index k h);
  Ok (find_entry k b).

(** The entry, and the table that has it: the second table is searched only
    during a rehash. *)

Definition find_both (k : key) (d : dict) : res (option (bool * entry)) :=
  o ← find_in k (ht0 d);
  match o with
  | Some e => Ok (Some (false, e))
  | None =>
      if negb (dictIsRehashing d) then Ok None else
      o1 ← find_in k (ht1 d);
      Ok (option_map (fun e => (true, e)) o1)
  end.

Definition dictFind (d : dict) (k : key) : res (option entry * dict) :=
  if to_ull (ht_used (ht0 d) + ht_used (ht1 d)) =? 0 then Ok (None, d) else
  d ← rehash_step_if d;
  o ← find_both k d;
  Ok (option_map snd o, d).

Definition dictFetchValue (d : dict) (k : key) : res (option val * dict) :=
  '(o, d) ← dictFind d k;
  Ok (option_map snd o, d).

(** The index for a new key in the table that takes new keys, or the existing
    entry with its table; [None] when the table could not be expanded. *)

Inductive key_index := NewAt (idx : nat) | Existing (second : bool) | NoIndex.

Definition _dictKeyIndex (d : dict) (k : key) : res (key_index * dict) :=
  '(ok, d) ← _dictExpandIfNeeded d;
  if negb ok then Ok (NoIndex, d) else
  o ← find_both k d;
  match o with
  | Some (second, _) => Ok (Existing second, d)
  | None => Ok (NewAt (bucket_index k (if dictIsRehashing d then ht1 d else ht0 d)), d)
  end.

Definition upd_bucket (f : list entry -> list entry) (n : Z) (idx : nat) (h : dictht) : res dictht :=
  b ← need (ht_table h !! idx);
  Ok (MkHt (<[idx := f b]> (ht_table h)) (ht_size h) (ht_sizemask h) (to_ull (ht_used h + n))).

Definition upd_table (second : bool) (f : dictht -> res dictht) (d : dict) : res dict :=
  if second then h ← f (ht1 d); Ok (set_ht1 h d) else h ← f (ht0 d); Ok (set_ht0 h d).

(** The entry is filled with its value at once; [None]: it was added. *)

Definition dictAddRaw (d : dict) (k : key) (v : val) : res (option key_index * dict) :=
  d ← rehash_step_if d;
  '(i, d) ← _dictKeyIndex d k;
  match i with
  | NewAt idx => d ← upd_table (dictIsRehashing d) (upd_bucket (cons (k, v)) 1 idx) d; Ok (None, d)
  | _ => Ok (Some i, d)
  end.

Definition dictAdd (d : dict) (k : key) (v : val) : res (bool * dict) :=
  '(o, d) ← dictAddRaw d k v;
  Ok (match o with None => true | Some _ => false end, d).

(** [true]: the key was added. *)

Definition dictReplace (d : dict) (k : key) (v : val) : res (bool * dict) :=
  '(o, d) ← dictAddRaw d k v;
  match o with
  | None => Ok (true, d)
  | Some (Existing second) =>
      d ← upd_table second (fun h => upd_bucket (set_val k v) 0 (bucket_index k h) h) d;
      Ok (false, d)
  | Some _ => Undef
  end.

Definition dictGenericDelete (d : dict) (k : key) : res (option entry * dict) :=
  if (ht_used (ht0 d) =? 0) && (ht_used (ht1 d) =? 0) then Ok (None, d) else
  d ← rehash_step_if d;
  o ← find_both k d;
  match o with
  | None => Ok (None, d)
  | Some (second, e) =>
      d ← upd_table second (fun h => upd_bucket (unlink_entry k) (-1) (bucket_index k h) h) d;
      Ok (Some e, d)
  end.

Definition dictDelete (d : dict) (k : key) : res (bool * dict) :=
  '(o, d) ← dictGenericDelete d k;
  Ok (bool_decide (o <> None), d).

Definition dictUnlink (d : dict) (k : key) : res (option entry * dict) := dictGenericDelete d k.

Definition dictEmpty (d : dict) : dict := MkDict _dictReset _dictReset (-1) 0.

End operations.

(** ** The map that a dictionary holds *)

Section theory.

Context {key val : Type} `{Countable key} (hash : key -> Z).
Abbreviation entry := (key * val)%type.
Abbreviation dictht := (dictht key val).
Abbreviation dict := (dict key val).

Definition ht_entries (h : dictht) : list entry := concat (ht_table h).

Definition dict_entries (d : dict) : list entry := ht_entries (ht0 d) ++ ht_entries (ht1 d).

Definition dict_map (d : dict) : gmap key val := list_to_map (dict_entries d).

(** A table in use: its size is a power of two, every entry is in the bucket of
    its key, the entries are counted. *)

Record ht_ok (h : dictht) : Prop := MkHtOk {
  ht_power : exists p, 2 <= p <= 63 /\ ht_size h = 2 ^ p;
  ht_mask : ht_sizemask h = ht_size h - 1;
  ht_length : Z.of_nat (length (ht_table h)) = ht_size h;
  ht_placed i b e : ht_table h !! i = Some b -> e ∈ b -> bucket_index hash e.1 h = i;
  ht_counted : ht_used h = Z.of_nat (length (ht_entries h))
}.

Definition ht_inv (h : dictht) : Prop := h = _dictReset \/ ht_ok h.

(** While entries move, the buckets before [rehashidx] are empty. *)

Record rehash_ok (d : dict) : Prop := MkRehashOk {
  rehash_ht0 : ht_ok (ht0 d);
  rehash_ht1 : ht_ok (ht1 d);
  rehash_idx : 0 <= rehashidx d;
  rehash_bound : rehashidx d <= ht_size (ht0 d);
  rehash_below i : (i < Z.to_nat (rehashidx d))%nat -> default [] (ht_table (ht0 d) !! i) = []
}.

Record dict_ok (d : dict) : Prop := MkDictOk {
  dict_tables : rehashidx d = -1 /\ ht_inv (ht0 d) /\ ht1 d = _dictReset \/ rehash_ok d;
  dict_keys : NoDup (dict_entries d).*1;
  dict_small : Z.of_nat (length (dict_entries d)) < 2 ^ 61
}.

(** *** Buckets *)

Lemma concat_split {A} (t : list (list A)) i b :
  t !! i = Some b -> concat t = concat (take i t) ++ b ++ concat (drop (S i) t).
Proof. intros E. rewrite <- (take_drop_middle t i b E) at 1. by rewrite concat_app. Qed.

Lemma concat_insert {A} (t : list (list A)) i b b' :
  t !! i = Some b -> concat (<[i := b']> t) = concat (take i t) ++ b' ++ concat (drop (S i) t).
Proof. intros E%lookup_lt_Some. rewrite insert_take_drop by done. by rewrite concat_app. Qed.

Lemma concat_replicate_nil {A} n : concat (replicate n ([] : list A)) = [].
Proof. by induction n. Qed.

Lemma elem_of_ht h e : e ∈ ht_entries h <-> exists i b, ht_table h !! i = Some b /\ e ∈ b.
Proof.
  unfold ht_entries. rewrite list_elem_of_In, in_concat. split.
  - intros (b & Hb & He). apply list_elem_of_In, list_elem_of_lookup in Hb as [i Hi]. exists i, b. by rewrite list_elem_of_In.
  - intros (i & b & Hi & He). exists b. rewrite <- !list_elem_of_In. split; [by eapply list_elem_of_lookup_2|done].
Qed.

Lemma bucket_there h k : ht_ok h -> exists b, ht_table h !! bucket_index hash k h = Some b.
Proof.
  intros [(p & Hp & Hs) Hm Hl _ _]. apply lookup_lt_is_Some. unfold bucket_index. rewrite Hm, Hs.
  rewrite Z.sub_1_r, <- Z.ones_equiv, Z.land_ones by lia. pose proof (Z.mod_pos_bound (hash k) (2 ^ p) ltac:(lia)). lia.
Qed.

Lemma find_entry_spec k (b : list entry) :
  match find_entry k b with
  | Some e => e.1 = k /\ exists b1 b2, b = b1 ++ e :: b2 /\ k ∉ b1.*1
  | None => k ∉ b.*1
  end.
Proof.
  induction b as [|e b IH]; [apply not_elem_of_nil|]. cbn [find_entry]. destruct (decide (k = e.1)) as [->|Hne].
  - split; [done|]. exists [], b. split; [done|apply not_elem_of_nil].
  - destruct (find_entry k b) as [e'|].
    + destruct IH as (He & b1 & b2 & -> & Hb). split; [done|]. exists (e :: b1), b2. split; [done|]. cbn. by apply not_elem_of_cons.
    + cbn. by apply not_elem_of_cons.
Qed.

Lemma unlink_entry_spec k e (b1 b2 : list entry) : e.1 = k -> k ∉ b1.*1 -> unlink_entry k (b1 ++ e :: b2) = b1 ++ b2.
Proof.
  intros He. induction b1 as [|e' b1 IH]; cbn.
  - intros _. by rewrite decide_True.
  - intros [Hne Hb]%not_elem_of_cons. rewrite decide_False by done. by rewrite IH.
Qed.

Lemma set_val_spec k v e (b1 b2 : list entry) : e.1 = k -> k ∉ b1.*1 -> set_val k v (b1 ++ e :: b2) = b1 ++ (k, v) :: b2.
Proof.
  intros He. induction b1 as [|e' b1 IH]; cbn.
  - intros _. rewrite decide_True by done. by rewrite He.
  - intros [Hne Hb]%not_elem_of_cons. rewrite decide_False by done. by rewrite IH.
Qed.

(** The entries of a table, those of the bucket of a key first. *)

Lemma bucket_split h k b :
  ht_ok h -> ht_table h !! bucket_index hash k h = Some b ->
  exists rest, ht_entries h ≡ₚ (b ++ rest) /\ (k ∉ rest.*1) /\
    forall b' used, (forall e, e ∈ b' -> bucket_index hash e.1 h = bucket_index hash k h) ->
      used = Z.of_nat (length b' + length rest) ->
      let h' := MkHt (<[bucket_index hash k h := b']> (ht_table h)) (ht_size h) (ht_sizemask h) used in
      ht_ok h' /\ ht_entries h' ≡ₚ (b' ++ rest).
Proof.
  intros Hok Hb. set (i := bucket_index hash k h) in *.
  exists (concat (take i (ht_table h)) ++ concat (drop (S i) (ht_table h))).
  split; [|split].
  - unfold ht_entries. rewrite (concat_split _ _ _ Hb). by rewrite !(assoc_L (++)), (Permutation_app_comm b).
  - intros (e & -> & He)%list_elem_of_fmap. rewrite <- concat_app, list_elem_of_In, in_concat in He.
    destruct He as (b' & Hb' & He). apply list_elem_of_In in He. apply list_elem_of_In, elem_of_app in Hb'.
    assert (exists j, j <> i /\ ht_table h !! j = Some b') as (j & Hj & Ej).
    { destruct Hb' as [Hb'|Hb']; apply list_elem_of_lookup in Hb' as [j Hj].
      - apply lookup_take_Some in Hj as [Hj ?]. exists j. split; [lia|done].
      - rewrite lookup_drop in Hj. exists (S i + j)%nat. split; [lia|done]. }
    by pose proof (ht_placed h Hok j b' e Ej He).
  - intros b' u Hp Hu h'. destruct Hok as [Hpow Hm Hl Hpl Hc].
    assert (ht_entries h' ≡ₚ (b' ++ concat (take i (ht_table h)) ++ concat (drop (S i) (ht_table h)))) as Hperm.
    { unfold ht_entries, h'. cbn. rewrite (concat_insert _ _ b b' Hb). by rewrite !(assoc_L (++)), (Permutation_app_comm b'). }
    split; [|done]. split; try done.
    + cbn. by rewrite length_insert.
    + intros j b'' e. cbn. destruct (decide (j = i)) as [->|Hne].
      * rewrite list_lookup_insert_eq by (by eapply lookup_lt_Some). intros [= <-] He. by apply Hp.
      * rewrite list_lookup_insert_ne by done. apply Hpl.
    + rewrite (Permutation_length Hperm), !length_app. change (ht_used h') with u. rewrite length_app in Hu. lia.
Qed.

Lemma find_in_spec h k :
  ht_ok h ->
  exists o, find_in hash k h = Ok o /\
    match o with
    | Some e => e.1 = k /\ e ∈ ht_entries h
    | None => k ∉ (ht_entries h).*1
    end.
Proof.
  intros Hok. destruct (bucket_there h k Hok) as [b Hb]. unfold find_in. rewrite Hb. cbn [need mbind res_bind].
  eexists. split; [done|]. destruct (bucket_split h k b Hok Hb) as (rest & Hp & Hr & _).
  pose proof (find_entry_spec k b) as Hf. destruct (find_entry k b) as [e|].
  - destruct Hf as (He & b1 & b2 & -> & _). split; [done|]. rewrite Hp. set_solver.
  - rewrite Hp, fmap_app, not_elem_of_app. done.
Qed.

(** *** Moving entries *)

Lemma push_entry_spec e h :
  ht_ok h -> Z.of_nat (length (ht_entries h)) < 2 ^ 63 ->
  exists h', push_entry hash e h = Ok h' /\ ht_ok h' /\ ht_entries h' ≡ₚ e :: ht_entries h /\ ht_size h' = ht_size h.
Proof.
  intros Hok Hl. unfold push_entry. change (Z.to_nat (Z.land (hash e.1) (ht_sizemask h))) with (bucket_index hash e.1 h).
  destruct (bucket_there h e.1 Hok) as [b Hb]. rewrite Hb. cbn [need mbind res_bind]. eexists. split; [done|].
  destruct (bucket_split h e.1 b Hok Hb) as (rest & Hp & _ & Hset). pose proof (ht_counted h Hok) as Hu.
  destruct (Hset (e :: b) (to_ull (ht_used h + 1))) as [H1 H2].
  - intros e' [-> |He']%elem_of_cons; [done|]. by apply (ht_placed h Hok _ b).
  - pose proof (Permutation_length Hp) as Hlen. rewrite length_app in Hlen. cbn [length].
    unfold to_ull. rewrite uwrap_id by lia. lia.
  - split; [done|]. split; [|done]. rewrite H2. cbn. by rewrite Hp.
Qed.

Lemma move_bucket_spec b : forall d,
  ht_ok (ht1 d) -> Z.of_nat (length b + length (ht_entries (ht1 d))) < 2 ^ 63 ->
  Z.of_nat (length b) <= ht_used (ht0 d) < 2 ^ 64 ->
  exists h1, move_bucket hash b d =
      Ok (MkDict (MkHt (ht_table (ht0 d)) (ht_size (ht0 d)) (ht_sizemask (ht0 d)) (ht_used (ht0 d) - Z.of_nat (length b)))
            h1 (rehashidx d) (iterators d)) /\
    ht_ok h1 /\ ht_entries h1 ≡ₚ b ++ ht_entries (ht1 d) /\ ht_size h1 = ht_size (ht1 d).
Proof.
  induction b as [|e b IH]; intros d Hok Hl Hu.
  - exists (ht1 d). cbn. rewrite Z.sub_0_r. split; [by destruct d as [[] ? ? ?]|]. done.
  - cbn [move_bucket]. destruct (push_entry_spec e (ht1 d) Hok) as (h1 & -> & Hok1 & Hp & Hs); [cbn [length] in Hl; lia|].
    cbn [mbind res_bind]. pose proof (Permutation_length Hp) as Hlen. cbn [length] in *.
    destruct (IH (set_ht1 h1 (set_ht0 (MkHt (ht_table (ht0 d)) (ht_size (ht0 d)) (ht_sizemask (ht0 d)) (to_ull (ht_used (ht0 d) - 1))) d)))
      as (h1' & -> & H1 & H2 & H3); [done|cbn; lia|cbn; unfold to_ull; rewrite uwrap_id by lia; lia|].
    exists h1'. split; [|split; [done|split; [|cbn in H3; congruence]]].
    + cbn. unfold to_ull. rewrite uwrap_id by lia. do 3 f_equal. lia.
    + rewrite H2. cbn. rewrite Hp. by rewrite Permutation_middle.
Qed.

Lemma skip_empty_spec fuel : forall (t : list (list entry)) i visits,
  0 <= i -> (forall j, (j < Z.to_nat i)%nat -> default [] (t !! j) = []) -> concat t <> [] ->
  (length t < Z.to_nat i + fuel)%nat ->
  exists i' visits' ob, skip_empty fuel t i visits = Ok (i', visits', ob) /\ 0 <= i' <= Z.of_nat (length t) /\
    (forall j, (j < Z.to_nat i')%nat -> default [] (t !! j) = []) /\
    match ob with
    | Some b => t !! Z.to_nat i' = Some b /\ b <> []
    | None => True
    end.
Proof.
  induction fuel as [|fuel IH]; intros t i visits Hi Hbelow Hne Hf.
  { exfalso. apply Hne. apply concat_nil_Forall, Forall_lookup. intros j b Hj. pose proof (lookup_lt_Some _ _ _ Hj).
    specialize (Hbelow j ltac:(lia)). by rewrite Hj in Hbelow. }
  cbn [skip_empty]. destruct (t !! Z.to_nat i) as [b|] eqn:E.
  - cbn [need mbind res_bind]. pose proof (lookup_lt_Some _ _ _ E).
    case_bool_decide as Hb; [|exists i, visits, (Some b); split; [done|]; split; [lia|done]].
    assert (forall j, (j < Z.to_nat (i + 1))%nat -> default [] (t !! j) = []) as Hbelow'.
    { intros j Hj. destruct (decide (j = Z.to_nat i)) as [->|]; [by rewrite E|]. apply Hbelow. lia. }
    destruct (visits - 1 =? 0); [exists (i + 1), 0, None; split; [done|]; split; [lia|done]|].
    apply IH; try done; lia.
  - exfalso. apply Hne. apply concat_nil_Forall, Forall_lookup. intros j b Hj. pose proof (lookup_lt_Some _ _ _ Hj).
    apply lookup_ge_None in E. specialize (Hbelow j ltac:(lia)). by rewrite Hj in Hbelow.
Qed.

(** One bucket has moved. *)

Lemma move_step d i b :
  rehash_ok d -> Z.of_nat (length (dict_entries d)) < 2 ^ 61 ->
  0 <= i -> (forall j, (j < Z.to_nat i)%nat -> default [] (ht_table (ht0 d) !! j) = []) ->
  ht_table (ht0 d) !! Z.to_nat i = Some b ->
  exists d1, move_bucket hash b d = Ok d1 /\
    let h0 := ht0 d1 in
    let d' := set_rehashidx (i + 1) (set_ht0 (MkHt (<[Z.to_nat i := []]> (ht_table h0)) (ht_size h0) (ht_sizemask h0) (ht_used h0)) d1) in
    rehash_ok d' /\ dict_entries d' ≡ₚ dict_entries d /\ iterators d' = iterators d /\ ht_size (ht1 d') = ht_size (ht1 d) /\
    ht_size (ht0 d') = ht_size (ht0 d).
Proof.
  intros [H0 H1 Hi Hbd Hbelow] Hl Hi' Hbelow' Hb. unfold dict_entries in Hl. rewrite length_app in Hl.
  pose proof (concat_split _ _ _ Hb) as Hc. fold (ht_entries (ht0 d)) in Hc.
  pose proof (f_equal length Hc) as Hlen. rewrite !length_app in Hlen. pose proof (ht_counted _ H0) as Hu.
  destruct (move_bucket_spec b d H1) as (h1 & -> & Hok1 & Hp1 & Hs1); [lia|lia|].
  eexists. split; [done|]. cbn. unfold dict_entries. cbn.
  assert (concat (<[Z.to_nat i := []]> (ht_table (ht0 d))) = concat (take (Z.to_nat i) (ht_table (ht0 d))) ++ concat (drop (S (Z.to_nat i)) (ht_table (ht0 d)))) as Hins
    by (by rewrite (concat_insert _ _ b [] Hb)).
  split; [|split; [|split; [done|split; [done|done]]]].
  - split; cbn; [|done|lia|pose proof (lookup_lt_Some _ _ _ Hb); pose proof (ht_length _ H0); lia|].
    + destruct H0 as [Hpow Hm Hlt Hpl Hct]. split; cbn; try done.
      * by rewrite length_insert.
      * intros j b' e Hj He. destruct (decide (j = Z.to_nat i)) as [->|Hne].
        { rewrite list_lookup_insert_eq in Hj by (by eapply lookup_lt_Some). simplify_eq. by apply not_elem_of_nil in He. }
        rewrite list_lookup_insert_ne in Hj by done. by apply (Hpl j b' e).
      * unfold ht_entries. cbn. rewrite Hins, length_app. lia.
    + intros j Hj. destruct (decide (j = Z.to_nat i)) as [->|Hne].
      * by rewrite list_lookup_insert_eq by (by eapply lookup_lt_Some).
      * rewrite list_lookup_insert_ne by done. apply Hbelow'. lia.
  - rewrite Hp1, Hc. unfold ht_entries at 1. cbn. rewrite Hins.
    rewrite <- !(assoc_L (++)). apply Permutation_app_head. rewrite !(assoc_L (++)). by rewrite (Permutation_app_comm b).
Qed.

Lemma rehash_loop_spec n : forall visits d,
  rehash_ok d -> Z.of_nat (length (dict_entries d)) < 2 ^ 61 ->
  exists through d', rehash_loop hash n visits d = Ok (through, d') /\ rehash_ok d' /\
    dict_entries d' ≡ₚ dict_entries d /\ iterators d' = iterators d /\ ht_size (ht1 d') = ht_size (ht1 d) /\
    ht_size (ht0 d') = ht_size (ht0 d).
Proof.
  induction n as [|n IH]; intros visits d Hok Hl; [by exists true, d|]. cbn [rehash_loop].
  destruct (Z.eqb_spec (ht_used (ht0 d)) 0) as [|Hne]; [by exists true, d|].
  pose proof Hok as [H0 H1 Hi Hbd Hbelow].
  assert (concat (ht_table (ht0 d)) <> []) as Hnn.
  { rewrite (ht_counted _ H0) in Hne. unfold ht_entries in Hne. by intros E; rewrite E in Hne. }
  destruct (skip_empty_spec (S (length (ht_table (ht0 d)))) (ht_table (ht0 d)) (rehashidx d) visits) as (i & visits' & ob & E & Hi' & Hbelow' & Hob);
    [done|done|done|lia|].
  assert ((ht_size (ht0 d) >? rehashidx d) = true) as ->.
  { apply Z.gtb_lt. apply Z.nle_gt. intros Hge. apply Hnn. apply concat_nil_Forall, Forall_lookup. intros j b Hj.
    pose proof (lookup_lt_Some _ _ _ Hj). pose proof (ht_length _ H0). specialize (Hbelow j ltac:(lia)). by rewrite Hj in Hbelow. }
  cbn [c_assert mbind res_bind]. rewrite E. cbn [mbind res_bind]. destruct ob as [b|].
  - destruct (move_step d i b Hok Hl (proj1 Hi') Hbelow' (proj1 Hob)) as (d1 & -> & Hok' & Hp & Hit & Hs1 & Hs0). cbn [mbind res_bind].
    edestruct (IH visits') as (through & d' & E' & Hok'' & Hp' & Hit' & Hs1' & Hs0'); [exact Hok'|by rewrite (Permutation_length Hp)|].
    exists through, d'. split; [exact E'|]. split; [done|]. split; [by rewrite Hp', Hp|]. split; [congruence|]. split; congruence.
  - exists false, (set_rehashidx i d). split; [done|]. split; [|done]. split; try done; [cbn; lia|]. cbn. pose proof (ht_length _ H0). lia.
Qed.

(** Rehashing does not change what is in the dictionary. *)

Record rehashed (d d' : dict) : Prop := MkRehashed {
  rehashed_ok : dict_ok d';
  rehashed_entries : dict_entries d' ≡ₚ dict_entries d;
  rehashed_iterators : iterators d' = iterators d;
  rehashed_table : ht_ok (ht0 d) -> ht_ok (ht0 d')
}.

Lemma rehashed_refl d : dict_ok d -> rehashed d d.
Proof. by split. Qed.

Lemma dictRehash_spec d n :
  dict_ok d ->
  exists more d', dictRehash hash d n = Ok (more, d') /\ rehashed d d' /\ (more = true <-> rehashidx d' <> -1).
Proof.
  intros Hok. pose proof Hok as [Ht Hk Hl]. unfold dictRehash, dictIsRehashing. destruct Ht as [(Hi & Ht & H1)|Ht].
  - rewrite Hi. cbn. exists false, d. split; [done|]. split; [by apply rehashed_refl|]. by rewrite Hi.
  - rewrite (proj2 (Z.eqb_neq _ _)) by (pose proof (rehash_idx _ Ht); lia). cbn [negb].
    destruct (rehash_loop_spec n (Z.of_nat n * 10) d Ht Hl) as (through & d' & -> & Ht' & Hp & Hit & _). cbn [mbind res_bind].
    assert (NoDup (dict_entries d').*1) as Hk' by (by rewrite Hp). assert (Z.of_nat (length (dict_entries d')) < 2 ^ 61) as Hl' by (by rewrite (Permutation_length Hp)).
    assert (rehashed d d' /\ (true = true <-> rehashidx d' <> -1)) as Hmore.
    { split; [split; [by split; [right|..]|done|done|intros _; apply Ht']|]. pose proof (rehash_idx _ Ht'). split; [lia|done]. }
    destruct through; cbn [negb]; [|by eexists _, _].
    destruct (Z.eqb_spec (ht_used (ht0 d')) 0) as [Hz|]; [|by eexists _, _].
    eexists _, _. split; [done|]. split; [|done].
    assert (ht_entries (ht0 d') = []) as He.
    { pose proof (ht_counted _ (rehash_ht0 _ Ht')). destruct (ht_entries (ht0 d')); [done|]. cbn [length] in *. lia. }
    assert (dict_entries (set_rehashidx (-1) (set_ht1 _dictReset (set_ht0 (ht1 d') d'))) = dict_entries d') as Heq.
    { unfold dict_entries. cbn. by rewrite He, app_nil_r. }
    split; [|by rewrite Heq|done|intros _; apply Ht'].
    split; [left; split; [done|]; split; [right; apply Ht'|done]|by rewrite Heq|by rewrite Heq].
Qed.

Lemma rehash_step_spec d :
  dict_ok d -> exists d', rehash_step_if hash d = Ok d' /\ rehashed d d'.
Proof.
  intros Hok. unfold rehash_step_if, _dictRehashStep.
  destruct (dictIsRehashing d); [|exists d; split; [done|by apply rehashed_refl]].
  destruct (iterators d =? 0); [|exists d; split; [done|by apply rehashed_refl]].
  destruct (dictRehash_spec d 1 Hok) as (more & d' & -> & Hr & _). by exists d'.
Qed.

(** *** Sizes *)

Lemma next_power_spec fuel : forall p size,
  2 <= p -> p + Z.of_nat fuel = 66 -> size <= 2 ^ 62 -> (p = 2 \/ 2 ^ (p - 1) < size) ->
  exists q, next_power fuel (2 ^ p) size = Ok (2 ^ q) /\ 2 <= q <= 62 /\ size <= 2 ^ q /\ (q = 2 \/ 2 ^ (q - 1) < size).
Proof.
  assert (forall p size, 2 <= p -> size <= 2 ^ 62 -> (p = 2 \/ 2 ^ (p - 1) < size) -> p <= 62) as Hle.
  { intros p size Hp Hs [->|Hlt]; [done|]. apply Z.nlt_ge. intros H62.
    pose proof (Z.pow_le_mono_r 2 62 (p - 1) ltac:(lia) ltac:(lia)). lia. }
  induction fuel as [|fuel IH]; intros p size Hp Hf Hs Hl; [specialize (Hle p size Hp Hs Hl); lia|].
  cbn [next_power]. rewrite Z.geb_leb. destruct (Z.leb_spec size (2 ^ p)) as [Hge|Hlt].
  - exists p. split; [done|]. split; [split; [done|by eapply Hle]|]. done.
  - assert (p + 1 <= 62) as Hp1 by (apply (Hle (p + 1) size); [lia|done|right; by replace (p + 1 - 1) with p by lia]).
    assert (to_ull (2 ^ p * 2) = 2 ^ (p + 1)) as ->.
    { unfold to_ull. rewrite Z.pow_add_r, Z.pow_1_r by lia. apply uwrap_id.
      pose proof (Z.pow_le_mono_r 2 p 61 ltac:(lia) ltac:(lia)). pose proof (Z.pow_pos_nonneg 2 p). lia. }
    apply IH; [lia|lia|done|]. right. by replace (p + 1 - 1) with p by lia.
Qed.

Lemma _dictNextPower_spec size :
  size <= 2 ^ 62 ->
  exists q, _dictNextPower size = Ok (2 ^ q) /\ 2 <= q <= 62 /\ size <= 2 ^ q /\ (q = 2 \/ 2 ^ (q - 1) < size).
Proof.
  intros Hs. unfold _dictNextPower, LONG_MAX. rewrite Z.geb_leb, (proj2 (Z.leb_gt _ _)) by lia.
  apply (next_power_spec 64 2); [done|done|done|by left].
Qed.

Lemma new_table_ok q : 2 <= q <= 62 -> ht_ok (MkHt (replicate (Z.to_nat (2 ^ q)) []) (2 ^ q) (2 ^ q - 1) 0).
Proof.
  intros Hq. pose proof (Z.pow_pos_nonneg 2 q). split; cbn.
  - exists q. lia.
  - done.
  - rewrite length_replicate. lia.
  - intros i b e Hb He. apply lookup_replicate in Hb as [-> _]. by apply not_elem_of_nil in He.
  - unfold ht_entries. cbn. by rewrite concat_replicate_nil.
Qed.

Lemma ht_ok_table h : ht_ok h -> ht_table h <> [].
Proof.
  intros [(p & Hp & Hs) _ Hl _ _] E. rewrite E in Hl. pose proof (Z.pow_pos_nonneg 2 p). cbn in Hl. lia.
Qed.

Lemma dictExpand_spec d size :
  dict_ok d -> size <= 2 ^ 62 ->
  exists ok d' q, dictExpand d size = Ok (ok, d') /\ rehashed d d' /\ size <= 2 ^ q /\ (q = 2 \/ 2 ^ (q - 1) < size) /\ 2 <= q <= 62 /\
    (ok = negb (dictIsRehashing d || (ht_used (ht0 d) >? size) || (2 ^ q =? ht_size (ht0 d)))) /\
    (ok = true -> ht_ok (ht0 d')).
Proof.
  intros Hok Hs. pose proof Hok as [Ht Hk Hl]. destruct (_dictNextPower_spec size Hs) as (q & E & Hq & Hle & Hlt).
  unfold dictExpand. rewrite E. cbn [mbind res_bind].
  destruct (dictIsRehashing d || (ht_used (ht0 d) >? size)) eqn:E1.
  { exists false, d, q. split; [done|]. split; [by apply rehashed_refl|]. done. }
  destruct (Z.eqb_spec (2 ^ q) (ht_size (ht0 d))) as [E2|E2].
  { exists false, d, q. split; [done|]. split; [by apply rehashed_refl|]. by rewrite (proj2 (Z.eqb_eq _ _) E2). }
  apply Z.eqb_neq in E2. apply orb_false_iff in E1 as [E1 _]. unfold dictIsRehashing in E1. apply negb_false_iff, Z.eqb_eq in E1.
  destruct Ht as [(_ & Ht & H1)|Ht]; [|pose proof (rehash_idx _ Ht); lia].
  pose proof (new_table_ok q Hq) as Hn. case_bool_decide as E3.
  - eexists true, _, q. split; [done|]. split; [|by rewrite E2].
    assert (ht0 d = _dictReset) as Hr by (destruct Ht as [|Ht]; [done|by apply ht_ok_table in Ht]).
    assert (dict_entries (set_ht0 (MkHt (replicate (Z.to_nat (2 ^ q)) []) (2 ^ q) (2 ^ q - 1) 0) d) = dict_entries d) as He.
    { unfold dict_entries. cbn. rewrite Hr. unfold ht_entries at 1. cbn. by rewrite concat_replicate_nil. }
    split; [|by rewrite He|done|done]. split; [left; split; [done|]; split; [by right|done]|by rewrite He|by rewrite He].
  - eexists true, _, q. split; [done|].
    assert (ht_ok (ht0 d)) as H0 by (destruct Ht as [Hr|Ht]; [by rewrite Hr in E3|done]).
    assert (dict_entries (set_rehashidx 0 (set_ht1 (MkHt (replicate (Z.to_nat (2 ^ q)) []) (2 ^ q) (2 ^ q - 1) 0) d)) = dict_entries d) as He.
    { unfold dict_entries. cbn. rewrite H1. unfold ht_entries at 2. cbn. by rewrite concat_replicate_nil. }
    split; [|by rewrite E2]. split; [|by rewrite He|done|done].
    split; [right; split; cbn; [done|done|lia|pose proof (ht_length _ H0); lia|intros i Hi; lia]|by rewrite He|by rewrite He].
Qed.

Lemma used_entries h : ht_inv h -> ht_used h = Z.of_nat (length (ht_entries h)).
Proof. intros [->|Hok]; [done|by apply ht_counted]. Qed.

(** There is always a table for a new key. *)

Lemma _dictExpandIfNeeded_spec can_resize max_idle d :
  dict_ok d -> exists d', _dictExpandIfNeeded can_resize max_idle d = Ok (true, d') /\ rehashed d d' /\ ht_ok (ht0 d').
Proof.
  intros Hok. pose proof Hok as [Ht Hk Hl]. unfold _dictExpandIfNeeded.
  destruct (dictIsRehashing d) eqn:Er.
  { exists d. split; [done|]. split; [by apply rehashed_refl|]. unfold dictIsRehashing in Er. apply negb_true_iff, Z.eqb_neq in Er.
    destruct Ht as [[? _]|Ht]; [done|apply Ht]. }
  unfold dictIsRehashing in Er. apply negb_false_iff, Z.eqb_eq in Er.
  destruct Ht as [(_ & Ht & H1)|Ht]; [|pose proof (rehash_idx _ Ht); lia].
  unfold dict_entries in Hl. rewrite length_app in Hl. pose proof (used_entries _ Ht) as Hu.
  assert (forall size, ht_used (ht0 d) <= size <= 2 ^ 62 -> ht_size (ht0 d) < 4 \/ ht_size (ht0 d) < size ->
    exists d', dictExpand d size = Ok (true, d') /\ rehashed d d' /\ ht_ok (ht0 d')) as Hexp.
  { intros size Hsz Hlt. destruct (dictExpand_spec d size Hok) as (ok & d' & q & -> & Hr & Hle & Hq & Hq2 & Hokb & Htab); [lia|].
    exists d'. assert (ok = true) as ->; [|by auto]. rewrite Hokb. unfold dictIsRehashing. rewrite Er. cbn [negb Z.eqb orb].
    rewrite Z.gtb_ltb, (proj2 (Z.ltb_ge _ _)) by lia. cbn [orb]. rewrite (proj2 (Z.eqb_neq _ _)); [done|].
    pose proof (Z.pow_le_mono_r 2 2 q ltac:(lia) ltac:(lia)). lia. }
  destruct (Z.eqb_spec (ht_size (ht0 d)) 0) as [Hz|Hnz].
  { apply Hexp; [|lia]. destruct Ht as [Hr|Hht]; [rewrite Hr; cbn; unfold DICT_HT_INITIAL_SIZE; lia|].
    destruct (ht_power _ Hht) as (p & Hp & Hs). pose proof (Z.pow_pos_nonneg 2 p). lia. }
  destruct Ht as [Hr|Hht]; [by rewrite Hr in Hnz|]. destruct (ht_power _ Hht) as (p & Hp & Hs).
  pose proof (Z.pow_pos_nonneg 2 p). rewrite Z.geb_leb.
  destruct ((ht_size (ht0 d) <=? ht_used (ht0 d)) && _) eqn:E; [|exists d; split; [done|]; split; [by apply rehashed_refl|done]].
  apply andb_true_iff in E as [E%Z.leb_le _].
  destruct (_dictNextPower_spec (ht_used (ht0 d))) as (q & -> & Hq & Hle & Hlt); [lia|]. cbn [mbind res_bind].
  destruct ((2 ^ q >? ht_used (ht0 d)) && _) eqn:E2.
  - apply andb_true_iff in E2 as [E2%Z.gtb_lt _]. apply Hexp; [|lia].
    pose proof (Z.pow_le_mono_r 2 q 62 ltac:(lia) ltac:(lia)). lia.
  - apply Hexp; unfold to_ull; rewrite uwrap_id by lia; lia.
Qed.

Lemma dictResize_spec can_resize d :
  dict_ok d -> exists ok d', dictResize can_resize d = Ok (ok, d') /\ rehashed d d'.
Proof.
  intros Hok. unfold dictResize.
  destruct (negb can_resize || dictIsRehashing d) eqn:E; [exists false, d; split; [done|by apply rehashed_refl]|].
  set (m := if to_int _ <? _ then _ else _).
  assert (4 <= m < 2 ^ 31) as Hm.
  { unfold m, to_int. pose proof (swrap_range 32 (ht_used (ht0 d)) ltac:(lia)). unfold DICT_HT_INITIAL_SIZE.
    destruct (Z.ltb_spec (swrap 32 (ht_used (ht0 d))) 4); lia. }
  unfold to_ull. rewrite uwrap_id by lia.
  destruct (dictExpand_spec d m Hok) as (ok & d' & q & -> & Hr & _); [lia|]. by exists ok, d'.
Qed.

(** *** Operations *)

Lemma dict_map_lookup d k v : dict_ok d -> dict_map d !! k = Some v <-> (k, v) ∈ dict_entries d.
Proof. intros Hok. symmetry. apply elem_of_list_to_map. apply Hok. Qed.

Lemma dict_map_None d k : dict_map d !! k = None <-> k ∉ (dict_entries d).*1.
Proof. symmetry. apply not_elem_of_list_to_map. Qed.

Lemma dict_map_perm d (l : list entry) : dict_ok d -> dict_entries d ≡ₚ l -> dict_map d = list_to_map l.
Proof. intros Hok Hp. apply list_to_map_proper; [apply Hok|done]. Qed.

Lemma rehashed_map d d' : rehashed d d' -> dict_map d' = dict_map d.
Proof. intros [Hok Hp _ _]. by apply dict_map_perm. Qed.

Lemma rehashed_trans d d' d'' : rehashed d d' -> rehashed d' d'' -> rehashed d d''.
Proof. intros [? Hp ? ?] [? Hp' ? ?]. split; [done|by rewrite Hp', Hp|congruence|auto]. Qed.

Definition the_table (second : bool) (d : dict) : dictht := if second then ht1 d else ht0 d.

Lemma find_both_spec d k :
  dict_ok d -> ht_ok (ht0 d) ->
  exists o, find_both hash k d = Ok o /\
    match o with
    | Some (second, (k', v)) => k' = k /\ dict_map d !! k = Some v /\ ht_ok (the_table second d) /\ (k, v) ∈ ht_entries (the_table second d)
    | None => dict_map d !! k = None
    end.
Proof.
  intros Hok H0. unfold find_both. destruct (find_in_spec (ht0 d) k H0) as (o & -> & Ho). cbn [mbind res_bind].
  destruct o as [[k' v]|].
  - eexists. split; [done|]. destruct Ho as [Hk He]. cbn in Hk. subst k'. split; [done|]. split; [|done].
    apply dict_map_lookup; [done|]. by apply elem_of_app; left.
  - destruct (dictIsRehashing d) eqn:Er; cbn [negb].
    + assert (ht_ok (ht1 d)) as H1.
      { destruct (dict_tables _ Hok) as [(Hi & _)|Ht]; [unfold dictIsRehashing in Er; by rewrite Hi in Er|apply Ht]. }
      destruct (find_in_spec (ht1 d) k H1) as (o & -> & Ho'). cbn [mbind res_bind]. eexists. split; [done|].
      destruct o as [[k' v]|]; cbn [option_map].
      * destruct Ho' as [Hk He]. cbn in Hk. subst k'. split; [done|]. split; [|done].
        apply dict_map_lookup; [done|]. by apply elem_of_app; right.
      * apply dict_map_None. unfold dict_entries. by rewrite fmap_app, not_elem_of_app.
    + eexists. split; [done|]. cbn. apply dict_map_None. unfold dict_entries. rewrite fmap_app, not_elem_of_app. split; [done|].
      destruct (dict_tables _ Hok) as [(_ & _ & ->)|Ht]; [apply not_elem_of_nil|].
      unfold dictIsRehashing in Er. apply negb_false_iff, Z.eqb_eq in Er. pose proof (rehash_idx _ Ht). lia.
Qed.

(** A bucket is changed: nothing else is. *)

Lemma upd_table_spec d second k b f n :
  dict_ok d -> ht_ok (the_table second d) -> (second = true -> rehashidx d <> -1) ->
  ht_table (the_table second d) !! bucket_index hash k (the_table second d) = Some b ->
  (forall e, e ∈ f b -> e.1 ∈ b.*1 \/ e.1 = k) -> Z.of_nat (length (f b)) = Z.of_nat (length b) + n ->
  (rehashidx d = -1 \/ second = true \/ b <> []) -> n <= 1 ->
  exists d' rest, upd_table second (fun h => upd_bucket f n (bucket_index hash k h) h) d = Ok d' /\
    dict_entries d ≡ₚ b ++ rest /\ dict_entries d' ≡ₚ f b ++ rest /\ iterators d' = iterators d /\
    (NoDup (f b ++ rest).*1 -> Z.of_nat (length (f b ++ rest)) < 2 ^ 61 -> dict_ok d').
Proof.
  intros Hok Hh Hsec Hb Hf Hn Hsafe Hn1. pose proof Hok as [Ht Hk Hl]. set (h := the_table second d) in *.
  destruct (bucket_split h k b Hh Hb) as (rest & Hp & _ & Hset).
  assert (Z.of_nat (length (ht_entries h)) < 2 ^ 61) as Hlh.
  { unfold dict_entries in Hl. rewrite length_app in Hl. unfold h, the_table. destruct second; lia. }
  pose proof (ht_counted h Hh) as Hu. pose proof (Permutation_length Hp) as Hlen. rewrite length_app in Hlen.
  destruct (Hset (f b) (to_ull (ht_used h + n))) as [Hh' Hp'].
  { intros e He. destruct (Hf e He) as [(e' & -> & He')%list_elem_of_fmap| ->]; [|done]. by apply (ht_placed h Hh _ b). }
  { unfold to_ull. rewrite uwrap_id by lia. lia. }
  assert (upd_bucket f n (bucket_index hash k h) h = Ok (MkHt (<[bucket_index hash k h := f b]> (ht_table h)) (ht_size h) (ht_sizemask h) (to_ull (ht_used h + n)))) as E.
  { unfold upd_bucket. by rewrite Hb. }
  set (h' := MkHt _ _ _ _) in *. assert (ht_table h' = <[bucket_index hash k h := f b]> (ht_table h) /\ ht_size h' = ht_size h) as [Ht' Hs'] by done.
  clearbody h'. unfold upd_table, dict_entries. unfold h, the_table in *. destruct second.
  - exists (set_ht1 h' d), (rest ++ ht_entries (ht0 d)). cbn beta. rewrite E. cbn [mbind res_bind]. split; [done|].
    split; [rewrite Hp; solve_Permutation|]. split; [cbn; rewrite Hp'; solve_Permutation|]. split; [done|]. intros Hk' Hl'.
    assert (dict_entries (set_ht1 h' d) ≡ₚ f b ++ rest ++ ht_entries (ht0 d)) as Hp2.
    { unfold dict_entries. cbn. rewrite Hp'. solve_Permutation. }
    split; [|by rewrite Hp2|by rewrite (Permutation_length Hp2)]. right.
    destruct Ht as [(Hi & _)|[? ? ? ? ?]]; [by destruct (Hsec eq_refl)|]. by split.
  - exists (set_ht0 h' d), (rest ++ ht_entries (ht1 d)). cbn beta. rewrite E. cbn [mbind res_bind]. split; [done|].
    split; [rewrite Hp; solve_Permutation|]. split; [cbn; rewrite Hp'; solve_Permutation|]. split; [done|]. intros Hk' Hl'.
    assert (dict_entries (set_ht0 h' d) ≡ₚ f b ++ rest ++ ht_entries (ht1 d)) as Hp2.
    { unfold dict_entries. cbn. rewrite Hp'. solve_Permutation. }
    split; [|by rewrite Hp2|by rewrite (Permutation_length Hp2)].
    destruct Ht as [(Hi & Ht & H1)|[? ? Hi Hbd Hbelow]]; [left; split; [done|]; split; [by right|done]|]. right.
    split; try done; [cbn; by rewrite Hs'|]. intros i Hlt. cbn. rewrite Ht'. specialize (Hbelow i Hlt). destruct (decide (i = bucket_index hash k (ht0 d))) as [->|Hne].
    + rewrite Hb in Hbelow. cbn in Hbelow. destruct Hsafe as [?|[?|?]]; [lia|done|done].
    + by rewrite list_lookup_insert_ne.
Qed.

(** An entry that is there: its bucket. *)

Lemma entry_bucket h k v :
  ht_ok h -> NoDup (ht_entries h).*1 -> (k, v) ∈ ht_entries h ->
  exists b1 b2, ht_table h !! bucket_index hash k h = Some (b1 ++ (k, v) :: b2) /\ k ∉ b1.*1.
Proof.
  intros Hok Hnd He. destruct (bucket_there h k Hok) as [b Hb]. destruct (bucket_split h k b Hok Hb) as (rest & Hp & Hr & _).
  rewrite Hp in Hnd, He. rewrite fmap_app in Hnd. apply NoDup_app in Hnd as (Hnd & _ & _).
  apply elem_of_app in He as [He|He]; [|by apply (list_elem_of_fmap_2 fst) in He].
  apply list_elem_of_split in He as (b1 & b2 & ->). exists b1, b2. split; [done|].
  rewrite fmap_app in Hnd. apply NoDup_app in Hnd as (_ & Hd & _). intros Hin. apply (Hd k Hin). cbn. by left.
Qed.

Lemma table_keys d second : dict_ok d -> NoDup (ht_entries (the_table second d)).*1.
Proof.
  intros [_ Hk _]. unfold dict_entries in Hk. rewrite fmap_app in Hk. apply NoDup_app in Hk as (? & _ & ?).
  by destruct second.
Qed.

Lemma no_entries d : dict_ok d -> ht_used (ht0 d) = 0 -> ht_used (ht1 d) = 0 -> dict_map d = ∅.
Proof.
  intros Hok H0 H1. unfold dict_map, dict_entries. destruct (dict_tables _ Hok) as [(_ & Ht & Hr)|Ht].
  - rewrite (used_entries _ Ht) in H0. rewrite Hr. by destruct (ht_entries (ht0 d)).
  - rewrite (ht_counted _ (rehash_ht0 _ Ht)) in H0. rewrite (ht_counted _ (rehash_ht1 _ Ht)) in H1.
    by destruct (ht_entries (ht0 d)), (ht_entries (ht1 d)).
Qed.

Lemma used_range d : dict_ok d -> 0 <= ht_used (ht0 d) /\ 0 <= ht_used (ht1 d) /\ ht_used (ht0 d) + ht_used (ht1 d) < 2 ^ 61.
Proof.
  intros [Ht _ Hl]. unfold dict_entries in Hl. rewrite length_app in Hl. destruct Ht as [(_ & Ht & Hr)|Ht].
  - rewrite (used_entries _ Ht). rewrite Hr in *. cbn in *. lia.
  - rewrite (ht_counted _ (rehash_ht0 _ Ht)), (ht_counted _ (rehash_ht1 _ Ht)). lia.
Qed.

Lemma used_table d : dict_ok d -> ht_used (ht0 d) <> 0 \/ ht_used (ht1 d) <> 0 -> ht_ok (ht0 d).
Proof.
  intros [[(_ & [Hr|Ht] & Hr1)|Ht] _ _] Hu; [rewrite Hr, Hr1 in Hu; cbn in Hu; lia|done|apply Ht].
Qed.

Lemma dictFind_spec d k :
  dict_ok d -> exists d', dictFind hash d k = Ok ((fun v => (k, v)) <$> dict_map d !! k, d') /\ rehashed d d'.
Proof.
  intros Hok. unfold dictFind. pose proof (used_range d Hok) as Hu. unfold to_ull. rewrite uwrap_id by lia.
  destruct (Z.eqb_spec (ht_used (ht0 d) + ht_used (ht1 d)) 0) as [Hz|Hz].
  { exists d. rewrite (no_entries d Hok), lookup_empty by lia. split; [done|by apply rehashed_refl]. }
  destruct (rehash_step_spec d Hok) as (d' & -> & Hr). cbn [mbind res_bind].
  destruct (find_both_spec d' k) as (o & -> & Ho); [apply Hr|apply Hr, used_table; [done|lia]|]. cbn [mbind res_bind].
  exists d'. split; [|done]. rewrite <- (rehashed_map _ _ Hr). destruct o as [[second [k' v]]|]; [|by rewrite Ho].
  destruct Ho as (-> & -> & _). done.
Qed.

Lemma dictFetchValue_spec d k :
  dict_ok d -> exists d', dictFetchValue hash d k = Ok (dict_map d !! k, d') /\ rehashed d d'.
Proof.
  intros Hok. unfold dictFetchValue. destruct (dictFind_spec d k Hok) as (d' & -> & Hr). cbn [mbind res_bind].
  exists d'. split; [|done]. by destruct (dict_map d !! k).
Qed.

Lemma rehashing_second d second : dict_ok d -> ht_ok (the_table second d) -> second = true -> rehashidx d <> -1.
Proof.
  intros Hok Hh ->. destruct (dict_tables _ Hok) as [(_ & _ & Hr)|Ht]; [|pose proof (rehash_idx _ Ht); lia].
  cbn in Hh. rewrite Hr in Hh. by apply ht_ok_table in Hh.
Qed.

Lemma dictAddRaw_spec can_resize max_idle d k v :
  dict_ok d -> Z.of_nat (length (dict_entries d)) + 1 < 2 ^ 61 ->
  exists o d', dictAddRaw hash can_resize max_idle d k v = Ok (o, d') /\ dict_ok d' /\ iterators d' = iterators d /\
    match dict_map d !! k with
    | None => o = None /\ dict_entries d' ≡ₚ (k, v) :: dict_entries d
    | Some v0 => dict_entries d' ≡ₚ dict_entries d /\ exists second, o = Some (Existing second) /\
                 ht_ok (the_table second d') /\ (k, v0) ∈ ht_entries (the_table second d')
    end.
Proof.
  intros Hok Hl. unfold dictAddRaw, _dictKeyIndex.
  destruct (rehash_step_spec d Hok) as (d1 & -> & Hr1). cbn [mbind res_bind].
  destruct (_dictExpandIfNeeded_spec can_resize max_idle d1) as (d2 & -> & Hr2 & H0); [apply Hr1|]. cbn [mbind res_bind negb].
  pose proof (rehashed_trans _ _ _ Hr1 Hr2) as Hr. pose proof Hr as [Hok2 Hp Hit _].
  destruct (find_both_spec d2 k Hok2 H0) as (o & -> & Ho). cbn [mbind res_bind]. rewrite <- (rehashed_map _ _ Hr).
  destruct o as [[second [k' v0]]|].
  - destruct Ho as (-> & -> & Hh & He). exists (Some (Existing second)), d2. split; [done|]. split; [done|]. split; [done|]. split; [done|]. by exists second.
  - rewrite Ho. set (second := dictIsRehashing d2).
    assert (ht_ok (the_table second d2)) as Hh.
    { unfold second, dictIsRehashing. destruct (Z.eqb_spec (rehashidx d2) (-1)); [done|].
      destruct (dict_tables _ Hok2) as [[? _]|Ht]; [done|apply Ht]. }
    destruct (bucket_there (the_table second d2) k Hh) as [b Hb].
    destruct (upd_table_spec d2 second k b (cons (k, v)) 1) as (d' & rest & E & Hp1 & Hp2 & Hit' & Hok'); try done.
    + by apply rehashing_second.
    + intros e [-> |He]%elem_of_cons; [by right|left]. by apply list_elem_of_fmap_2.
    + cbn [length]. lia.
    + unfold second, dictIsRehashing. destruct (Z.eqb_spec (rehashidx d2) (-1)); [by left|by right; left].
    + cbn [mbind res_bind]. assert (upd_table second (upd_bucket (cons (k, v)) 1 (bucket_index hash k (the_table second d2))) d2 = Ok d') as E'.
      { revert E. unfold upd_table, the_table. by destruct second. }
      unfold the_table in E'. fold second. rewrite E'. cbn [mbind res_bind]. exists None, d'. split; [done|].
      assert (dict_entries d' ≡ₚ (k, v) :: dict_entries d2) as Hp3 by (rewrite Hp2, Hp1; done).
      split; [|split; [congruence|split; [done|by rewrite Hp3, Hp]]]. apply Hok'.
      * cbn. rewrite <- Hp1. constructor; [by apply dict_map_None|apply Hok2].
      * cbn [app length]. rewrite <- (Permutation_length Hp1), (Permutation_length Hp). lia.
Qed.

Definition is_new (d : dict) (k : key) : bool := bool_decide (dict_map d !! k = None).

Lemma dictAdd_spec can_resize max_idle d k v :
  dict_ok d -> Z.of_nat (length (dict_entries d)) + 1 < 2 ^ 61 ->
  exists d', dictAdd hash can_resize max_idle d k v = Ok (is_new d k, d') /\ dict_ok d' /\ iterators d' = iterators d /\
    dict_map d' = (if is_new d k then <[k := v]> (dict_map d) else dict_map d).
Proof.
  intros Hok Hl. unfold dictAdd, is_new. destruct (dictAddRaw_spec can_resize max_idle d k v Hok Hl) as (o & d' & -> & Hok' & Hit & Ho).
  cbn [mbind res_bind]. exists d'. destruct (dict_map d !! k) as [v0|] eqn:E.
  - destruct Ho as (Hp & second & -> & _). split; [done|]. split; [done|]. split; [done|]. by apply dict_map_perm.
  - destruct Ho as [-> Hp]. split; [done|]. split; [done|]. split; [done|]. by rewrite (dict_map_perm _ _ Hok' Hp).
Qed.

(** The bucket of an entry that is there, changed by [f]. *)

Lemma upd_entry d second k v0 f n (l : list entry) :
  dict_ok d -> ht_ok (the_table second d) -> (k, v0) ∈ ht_entries (the_table second d) ->
  (forall b1 b2, k ∉ b1.*1 -> f (b1 ++ (k, v0) :: b2) = b1 ++ l ++ b2) ->
  l.*1 = [] /\ n = -1 \/ l.*1 = [k] /\ n = 0 ->
  exists d' rest, upd_table second (fun h => upd_bucket f n (bucket_index hash k h) h) d = Ok d' /\ dict_ok d' /\ iterators d' = iterators d /\
    dict_entries d ≡ₚ (k, v0) :: rest /\ dict_entries d' ≡ₚ l ++ rest /\ k ∉ rest.*1.
Proof.
  intros Hok Hh He Hf Hl.
  destruct (entry_bucket (the_table second d) k v0 Hh (table_keys d second Hok) He) as (b1 & b2 & Hb & Hn1).
  assert (forall e, e ∈ l -> e.1 = k) as Hlk.
  { intros e Hel. apply (list_elem_of_fmap_2 fst) in Hel. destruct Hl as [[E _]|[E _]]; rewrite E in Hel; set_solver. }
  assert (Z.of_nat (length l) = 1 + n) as Hln by (rewrite <- (length_fmap fst); destruct Hl as [[-> ->]|[-> ->]]; done).
  destruct (upd_table_spec d second k (b1 ++ (k, v0) :: b2) f n) as (d' & rest & E & Hp1 & Hp2 & Hit & Hok'); try done.
  - by apply rehashing_second.
  - intros e. rewrite Hf by done. rewrite !elem_of_app. intros [?|[?|?]]; [left|right; auto|left]; apply list_elem_of_fmap_2; set_solver.
  - rewrite Hf, !length_app by done. cbn [length]. lia.
  - right. right. by intros []%app_nil.
  - lia.
  - rewrite Hf in * by done. exists d', (b1 ++ b2 ++ rest). split; [done|].
    assert (dict_entries d ≡ₚ (k, v0) :: b1 ++ b2 ++ rest) as Hpd by (rewrite Hp1; solve_Permutation).
    assert (dict_entries d' ≡ₚ l ++ b1 ++ b2 ++ rest) as Hpd' by (rewrite Hp2; solve_Permutation).
    pose proof (dict_keys _ Hok) as Hk. rewrite Hpd in Hk. apply NoDup_cons in Hk as [Hk1 Hk2].
    pose proof (dict_small _ Hok) as Hs. rewrite (Permutation_length Hpd) in Hs. cbn [length] in Hs.
    split; [|by split; [|split; [|split]]]. apply Hok'.
    + rewrite <- Hp2, Hpd', fmap_app. destruct Hl as [[-> _]|[-> _]]; [done|]. cbn. by constructor.
    + rewrite <- (Permutation_length Hp2), (Permutation_length Hpd'), length_app. lia.
Qed.

Lemma dictReplace_spec can_resize max_idle d k v :
  dict_ok d -> Z.of_nat (length (dict_entries d)) + 1 < 2 ^ 61 ->
  exists d', dictReplace hash can_resize max_idle d k v = Ok (is_new d k, d') /\ dict_ok d' /\ iterators d' = iterators d /\
    dict_map d' = <[k := v]> (dict_map d).
Proof.
  intros Hok Hl. unfold dictReplace, is_new. destruct (dictAddRaw_spec can_resize max_idle d k v Hok Hl) as (o & d1 & -> & Hok1 & Hit & Ho).
  cbn [mbind res_bind]. destruct (dict_map d !! k) as [v0|] eqn:E.
  - destruct Ho as (Hp & second & -> & Hh & He).
    destruct (upd_entry d1 second k v0 (set_val k v) 0 [(k, v)]) as (d' & rest & -> & Hok' & Hit' & Hp1 & Hp2 & _); try done.
    { intros b1 b2 Hb. by apply set_val_spec. }
    { by right. }
    cbn [mbind res_bind]. exists d'. split; [done|]. split; [done|]. split; [congruence|].
    rewrite (dict_map_perm _ _ Hok' Hp2), (dict_map_perm d ((k, v0) :: rest) Hok) by (by rewrite <- Hp). cbn. by rewrite insert_insert_eq.
  - destruct Ho as [-> Hp]. exists d1. split; [done|]. split; [done|]. split; [done|]. by rewrite (dict_map_perm _ _ Hok1 Hp).
Qed.

Lemma dictGenericDelete_spec d k :
  dict_ok d -> exists d', dictGenericDelete hash d k = Ok ((fun v => (k, v)) <$> dict_map d !! k, d') /\ dict_ok d' /\
    iterators d' = iterators d /\ dict_map d' = delete k (dict_map d).
Proof.
  intros Hok. unfold dictGenericDelete.
  destruct ((ht_used (ht0 d) =? 0) && (ht_used (ht1 d) =? 0)) eqn:Ez.
  { apply andb_true_iff in Ez as [E0%Z.eqb_eq E1%Z.eqb_eq]. exists d. rewrite (no_entries d Hok E0 E1), lookup_empty, delete_empty. done. }
  assert (ht_used (ht0 d) <> 0 \/ ht_used (ht1 d) <> 0) as Hu.
  { destruct (Z.eqb_spec (ht_used (ht0 d)) 0); [|by left]. destruct (Z.eqb_spec (ht_used (ht1 d)) 0); [done|by right]. }
  destruct (rehash_step_spec d Hok) as (d1 & -> & Hr). cbn [mbind res_bind].
  destruct (find_both_spec d1 k) as (o & -> & Ho); [apply Hr|by apply Hr, used_table|]. cbn [mbind res_bind].
  rewrite <- (rehashed_map _ _ Hr). destruct o as [[second [k' v]]|].
  - destruct Ho as (-> & -> & Hh & He).
    destruct (upd_entry d1 second k v (unlink_entry k) (-1) []) as (d' & rest & -> & Hok' & Hit' & Hp1 & Hp2 & Hn); try done.
    { apply Hr. } { intros b1 b2 Hb. by apply unlink_entry_spec. } { by left. }
    cbn [mbind res_bind]. exists d'. split; [done|]. split; [done|]. split; [rewrite Hit'; apply Hr|].
    rewrite (dict_map_perm _ _ Hok' Hp2), (dict_map_perm d1 ((k, v) :: rest)) by (done || apply Hr). cbn.
    rewrite delete_insert_id; [done|]. by apply not_elem_of_list_to_map.
  - rewrite Ho. exists d1. split; [done|]. split; [apply Hr|]. split; [apply Hr|]. by rewrite delete_id.
Qed.

Lemma dictCreate_ok : dict_ok (dictCreate : dict).
Proof. split; [left; split; [done|]; split; [by left|done]|constructor|done]. Qed.

End theory.

(** ** Refinement: a dictionary is a finite map *)

Inductive dict_op (key val : Type) :=
| OpAdd (k : key) (v : val)
| OpReplace (k : key) (v : val)
| OpDelete (k : key)
| OpFetch (k : key)
| OpRehash (n : nat)
| OpResize
| OpExpand (size : Z)
| OpEmpty.

Arguments OpAdd {key val} _ _.
Arguments OpReplace {key val} _ _.
Arguments OpDelete {key val} _.
Arguments OpFetch {key val} _.
Arguments OpRehash {key val} _.
Arguments OpResize {key val}.
Arguments OpExpand {key val} _.
Arguments OpEmpty {key val}.

Inductive dict_answer (val : Type) := Done (b : bool) | Value (o : option val) | Nothing.

Arguments Done {val} _.
Arguments Value {val} _.
Arguments Nothing {val}.

Section refinement.

Context {key val : Type} `{Countable key} (hash : key -> Z).

Abbreviation dict := (dict key val).

(** The calls of a client, each with the globals [dict_can_resize] and
    [dict_expand_max_idle_size] at the time. *)

Definition run_op (c : bool * Z) (op : dict_op key val) (d : dict) : res (dict_answer val * dict) :=
  match op with
  | OpAdd k v => '(b, d) ← dictAdd hash c.1 c.2 d k v; Ok (Done b, d)
  | OpReplace k v => '(b, d) ← dictReplace hash c.1 c.2 d k v; Ok (Done b, d)
  | OpDelete k => '(b, d) ← dictDelete hash d k; Ok (Done b, d)
  | OpFetch k => '(o, d) ← dictFetchValue hash d k; Ok (Value o, d)
  | OpRehash n => '(_, d) ← dictRehash hash d n; Ok (Nothing, d)
  | OpResize => '(_, d) ← dictResize c.1 d; Ok (Nothing, d)
  | OpExpand size => '(_, d) ← dictExpand d size; Ok (Nothing, d)
  | OpEmpty => Ok (Nothing, dictEmpty d)
  end.

Fixpoint run_ops (ops : list (bool * Z * dict_op key val)) (d : dict) : res (list (dict_answer val) * dict) :=
  match ops with
  | [] => Ok ([], d)
  | (c, op) :: ops =>
      '(a, d) ← run_op c op d;
      '(l, d) ← run_ops ops d;
      Ok (a :: l, d)
  end.

(** The same calls on a finite map. *)

Definition map_op (op : dict_op key val) (m : gmap key val) : dict_answer val * gmap key val :=
  match op with
  | OpAdd k v => let new := bool_decide (m !! k = None) in (Done new, if new then <[k := v]> m else m)
  | OpReplace k v => (Done (bool_decide (m !! k = None)), <[k := v]> m)
  | OpDelete k => (Done (bool_decide (m !! k <> None)), delete k m)
  | OpFetch k => (Value (m !! k), m)
  | OpRehash _ | OpResize | OpExpand _ => (Nothing, m)
  | OpEmpty => (Nothing, ∅)
  end.

Fixpoint map_ops (ops : list (bool * Z * dict_op key val)) (m : gmap key val) : list (dict_answer val) * gmap key val :=
  match ops with
  | [] => ([], m)
  | (_, op) :: ops =>
      let '(a, m) := map_op op m in
      let '(l, m) := map_ops ops m in
      (a :: l, m)
  end.

Definition op_ok (op : dict_op key val) : Prop :=
  match op with OpExpand size => size <= 2 ^ 62 | _ => True end.

Lemma entries_size (d : dict) : dict_ok hash d -> length (dict_entries d) = size (dict_map d).
Proof. intros Hok. unfold dict_map. by rewrite map_size_list_to_map by apply Hok. Qed.

Lemma run_op_spec c op (d : dict) :
  dict_ok hash d -> Z.of_nat (length (dict_entries d)) + 1 < 2 ^ 61 -> op_ok op ->
  exists d', run_op c op d = Ok (fst (map_op op (dict_map d)), d') /\ dict_ok hash d' /\
    dict_map d' = snd (map_op op (dict_map d)) /\ (length (dict_entries d') <= S (length (dict_entries d)))%nat.
Proof.
  intros Hok Hl Hop.
  assert (forall d', rehashed hash d d' -> dict_ok hash d' /\ dict_map d' = dict_map d /\ (length (dict_entries d') <= S (length (dict_entries d)))%nat) as Hr.
  { intros d' Hr. split; [apply Hr|]. split; [by eapply rehashed_map|]. rewrite (Permutation_length (rehashed_entries _ _ _ Hr)). lia. }
  destruct op as [k v|k v|k|k|n| |sz|]; cbn [run_op map_op fst snd].
  - destruct (dictAdd_spec hash c.1 c.2 d k v Hok Hl) as (d' & -> & Hok' & _ & Hm). cbn [mbind res_bind].
    exists d'. split; [done|]. split; [done|]. split; [done|]. rewrite !entries_size, Hm by done.
    destruct (is_new d k); [|lia]. rewrite map_size_insert. destruct (dict_map d !! k); cbn; lia.
  - destruct (dictReplace_spec hash c.1 c.2 d k v Hok Hl) as (d' & -> & Hok' & _ & Hm). cbn [mbind res_bind].
    exists d'. split; [done|]. split; [done|]. split; [done|]. rewrite !entries_size, Hm by done.
    rewrite map_size_insert. destruct (dict_map d !! k); cbn; lia.
  - unfold dictDelete. destruct (dictGenericDelete_spec hash d k Hok) as (d' & -> & Hok' & _ & Hm). cbn [mbind res_bind].
    exists d'. split; [by destruct (dict_map d !! k)|]. split; [done|]. split; [done|]. rewrite !entries_size, Hm by done.
    rewrite map_size_delete. destruct (dict_map d !! k); cbn; lia.
  - destruct (dictFetchValue_spec hash d k Hok) as (d' & -> & Hr'). exists d'. split; [done|by apply Hr].
  - destruct (dictRehash_spec hash d n Hok) as (more & d' & -> & Hr' & _). exists d'. split; [done|by apply Hr].
  - destruct (dictResize_spec hash c.1 d Hok) as (ok & d' & -> & Hr'). exists d'. split; [done|by apply Hr].
  - destruct (dictExpand_spec hash d sz Hok Hop) as (ok & d' & q & -> & Hr' & _). exists d'. split; [done|by apply Hr].
  - exists (dictEmpty d). split; [done|]. split; [apply dictCreate_ok|]. split; [done|]. cbn. lia.
Qed.

Lemma run_ops_spec ops : forall d : dict,
  dict_ok hash d -> Z.of_nat (length (dict_entries d) + length ops) < 2 ^ 61 -> Forall (fun cop => op_ok cop.2) ops ->
  exists d', run_ops ops d = Ok (fst (map_ops ops (dict_map d)), d') /\ dict_ok hash d' /\ dict_map d' = snd (map_ops ops (dict_map d)).
Proof.
  induction ops as [|[c op] ops IH]; intros d Hok Hl Hops; [by exists d|]. apply Forall_cons in Hops as [Hop Hops].
  cbn [run_ops map_ops length] in *. destruct (run_op_spec c op d Hok) as (d1 & -> & Hok1 & Hm1 & Hl1); [lia|done|].
  cbn [mbind res_bind]. destruct (map_op op (dict_map d)) as [a m1]. cbn [fst snd] in *.
  destruct (IH d1 Hok1) as (d' & -> & Hok' & Hm'); [lia|done|]. cbn [mbind res_bind]. rewrite Hm1 in *.
  destruct (map_ops ops m1) as [l m']. by exists d'.
Qed.

(** C24: whatever is done with a dictionary, it answers as a finite map would:
    growing, shrinking and moving entries from one table to the other are never
    seen, no assertion fails and no table is read outside its bounds. *)
Theorem dict_refines_map ops (Hl : Z.of_nat (length ops) < 2 ^ 61) (Hops : Forall (fun cop => op_ok cop.2) ops) :
  exists d, run_ops ops dictCreate = Ok (fst (map_ops ops ∅), d) /\ dict_ok hash d /\ dict_map d = snd (map_ops ops ∅).
Proof. apply (run_ops_spec ops dictCreate); [apply dictCreate_ok|cbn; lia|done]. Qed.

End refinement.

(** A witness with colliding keys and a table that grows: the hash is the number
    of the key. *)

Definition example_dict_ops : list (bool * Z * dict_op Z Z) :=
  map (fun k => (true, 2 ^ 27, OpAdd k (10 * k))) (seqZ 0 9) ++
  [(true, 2 ^ 27, OpAdd 3 1); (true, 2 ^ 27, OpReplace 8 7); (false, 2 ^ 27, OpDelete 0); (true, 2 ^ 27, OpFetch 8);
   (true, 2 ^ 27, OpRehash 100); (true, 2 ^ 27, OpFetch 0); (true, 2 ^ 27, OpResize); (true, 2 ^ 27, OpDelete 99)].

Lemma dict_refines_map_witness :
  exists d, run_ops Z.abs example_dict_ops dictCreate = Ok (fst (map_ops example_dict_ops ∅), d) /\ dict_ok Z.abs d /\
    drop 9 (fst (map_ops example_dict_ops ∅)) =
      [Done false; Done false; Done true; Value (Some 7); Nothing; Value None; Nothing; Done false].
Proof.
  destruct (dict_refines_map Z.abs example_dict_ops) as (d & E & Hok & _).
  - vm_compute. reflexivity.
  - repeat constructor.
  - exists d. split; [exact E|]. split; [exact Hok|]. vm_compute. reflexivity.
Defined.
