(* ===== verification/DictScan.v ===== *)
(** * Traversals of a hash table ([src/src/dict.c])

    Rehashing for some time, random entries, iterators, and the scan whose cursor
    counts from the high bits down, so that it can go on while the table changes
    its size between two calls. *)

From S2P Require Import Prelude Dict.

Section traversals.

Context {key val : Type} `{Countable key} (hash : key -> Z).

Abbreviation entry := (key * val)%type.
Abbreviation dictht := (dictht key val).
Abbreviation dict := (dict key val).

(** ** Rehashing for some time *)

(** [late r]: the time is over after [r] rounds. *)

Fixpoint rehash_rounds (fuel : nat) (late : Z -> bool) (d : dict) (rehashes : Z) : res (Z * dict) :=
  match fuel with
  | O => Undef
  | S fuel =>
      '(more, d) ← dictRehash hash d 100;
      if negb more then Ok (rehashes, d) else
      let rehashes := to_int (rehashes + 100) in
      if late rehashes then Ok (rehashes, d) else rehash_rounds fuel late d rehashes
  end.

Definition dictRehashMilliseconds (late : Z -> bool) (d : dict) : res (Z * dict) :=
  rehash_rounds (S (length (ht_table (ht0 d)))) late d 0.

(** ** Iterators *)

(** The entry that was returned last and the rest of its bucket, saved because
    the caller may delete the entry. *)

Record dictIterator := MkIter {
  it_table : bool;
  it_index : Z;
  it_rest : list entry
}.

Definition dictGetIterator : dictIterator := MkIter false (-1) [].

Fixpoint next_loop (fuel : nat) (d : dict) (it : dictIterator) : res (option (entry * dictIterator)) :=
  match fuel with
  | O => Undef
  | S fuel =>
      match it_rest it with
      | e :: rest => Ok (Some (e, MkIter (it_table it) (it_index it) rest))
      | [] =>
          let ht := if it_table it then ht1 d else ht0 d in
          let index := it_index it + 1 in
          if index >=? ht_size ht then
            if dictIsRehashing d && negb (it_table it) then
              b ← need (ht_table (ht1 d) !! 0%nat);
              next_loop fuel d (MkIter true 0 b)
            else Ok None
          else
            b ← need (ht_table ht !! Z.to_nat index);
            next_loop fuel d (MkIter (it_table it) index b)
      end
  end.

Definition dictNext (d : dict) (it : dictIterator) : res (option (entry * dictIterator)) :=
  next_loop (S (S (length (ht_table (ht0 d)) + length (ht_table (ht1 d))))) d it.

(** ** Random entries *)

(** [random] gives the numbers that [random()] returns; with the fuel they are
    used up. *)

Fixpoint random_bucket (d : dict) (random : list Z) : res (option (list entry * list Z)) :=
  match random with
  | [] => Ok None
  | r :: random =>
      b ← (if dictIsRehashing d then
             let h := rehashidx d + Z.rem r (ht_size (ht0 d) + ht_size (ht1 d) - rehashidx d) in
             if h >=? ht_size (ht0 d) then need (ht_table (ht1 d) !! Z.to_nat (h - ht_size (ht0 d)))
             else need (ht_table (ht0 d) !! Z.to_nat h)
           else need (ht_table (ht0 d) !! Z.to_nat (Z.land r (ht_sizemask (ht0 d)))));
      if bool_decide (b = []) then random_bucket d random else Ok (Some (b, random))
  end.

(** [None]: the numbers were used up before a bucket with entries was found. *)

Definition dictGetRandomKey (d : dict) (random : list Z) : res (option (option entry) * dict) :=
  if dictSize d =? 0 then Ok (Some None, d) else
  d ← rehash_step_if hash d;
  o ← random_bucket d random;
  match o with
  | Some (b, r :: _) =>
      e ← need (b !! Z.to_nat (Z.rem r (Z.of_nat (length b))));
      Ok (Some (Some e), d)
  | _ => Ok (None, d)
  end.

(** ** Several entries at once *)

(** [random n] is the [n]-th number that [random()] returns. *)

Record sampling := MkSampling {
  sm_i : Z;
  sm_emptylen : Z;
  sm_stored : list entry;
  sm_random : nat
}.

Definition sample_table (d : dict) (random : nat -> Z) (two second : bool) (maxsizemask count : Z) (s : sampling) : res sampling :=
  let i := sm_i s in
  if two && negb second && (i <? rehashidx d) then
    Ok (MkSampling (if i >=? ht_size (ht1 d) then rehashidx d else i) (sm_emptylen s) (sm_stored s) (sm_random s))
  else
    let ht := if second then ht1 d else ht0 d in
    if i >=? ht_size ht then Ok s else
    b ← need (ht_table ht !! Z.to_nat i);
    match b with
    | [] =>
        let emptylen := sm_emptylen s + 1 in
        if (emptylen >=? 5) && (emptylen >? count)
        then Ok (MkSampling (Z.land (random (sm_random s)) maxsizemask) 0 (sm_stored s) (S (sm_random s)))
        else Ok (MkSampling i emptylen (sm_stored s) (sm_random s))
    | _ => Ok (MkSampling i 0 (sm_stored s ++ take (Z.to_nat count - length (sm_stored s)) b) (sm_random s))
    end.

Fixpoint sample_loop (maxsteps : nat) (d : dict) (random : nat -> Z) (two : bool) (maxsizemask count : Z) (s : sampling) : res (list entry) :=
  let full s := Z.of_nat (length (sm_stored s)) >=? count in
  match maxsteps with
  | O => Ok (sm_stored s)
  | S maxsteps =>
      if full s then Ok (sm_stored s) else
      s ← sample_table d random two false maxsizemask count s;
      if full s then Ok (sm_stored s) else
      s ← (if two then sample_table d random two true maxsizemask count s else Ok s);
      if full s then Ok (sm_stored s) else
      sample_loop maxsteps d random two maxsizemask count
        (MkSampling (Z.land (sm_i s + 1) maxsizemask) (sm_emptylen s) (sm_stored s) (sm_random s))
  end.

Fixpoint rehash_steps (n : nat) (d : dict) : res dict :=
  match n with
  | O => Ok d
  | S n => if dictIsRehashing d then d ← _dictRehashStep hash d; rehash_steps n d else Ok d
  end.

Definition dictGetSomeKeys (d : dict) (random : nat -> Z) (count : Z) : res (list entry * dict) :=
  let count := if dictSize d <? count then dictSize d else count in
  d ← rehash_steps (Z.to_nat count) d;
  let two := dictIsRehashing d in
  let maxsizemask := ht_sizemask (ht0 d) in
  let maxsizemask := if two && (maxsizemask <? ht_sizemask (ht1 d)) then ht_sizemask (ht1 d) else maxsizemask in
  stored ← sample_loop (Z.to_nat (uwrap 32 (count * 10))) d random two maxsizemask count (MkSampling (Z.land (random 0%nat) maxsizemask) 0 [] 1);
  Ok (stored, d).

(** ** Scanning *)

Fixpoint rev_loop (fuel : nat) (s mask v : Z) : Z :=
  match fuel with
  | O => v
  | S fuel =>
      let s := Z.shiftr s 1 in
      if s >? 0 then
        let mask := Z.lxor mask (to_ull (Z.shiftl mask s)) in
        rev_loop fuel s mask (Z.lor (Z.land (Z.shiftr v s) mask) (Z.land (to_ull (Z.shiftl v s)) (to_ull (Z.lnot mask))))
      else v
  end.

Definition rev (v : Z) : Z := rev_loop 7 64 (2 ^ 64 - 1) v.

Definition bucket_at (t : dictht) (v m : Z) : res (list entry) := need (ht_table t !! Z.to_nat (Z.land v m)).

(** The buckets of the larger table that the bucket of the smaller one expands
    to. *)

Fixpoint scan_expansions (fuel : nat) (t1 : dictht) (m0 m1 v : Z) : res (list entry * Z) :=
  match fuel with
  | O => Undef
  | S fuel =>
      b ← bucket_at t1 v m1;
      let v := Z.lor (Z.land (to_ull (Z.lor v m0 + 1)) (to_ull (Z.lnot m0))) (Z.land v m0) in
      if Z.land v (Z.lxor m0 m1) =? 0 then Ok (b, v) else
      '(rest, v) ← scan_expansions fuel t1 m0 m1 v;
      Ok (b ++ rest, v)
  end.

Definition next_cursor (m0 v : Z) : Z := rev (to_ull (rev (Z.lor v (to_ull (Z.lnot m0))) + 1)).

(** The entries passed to the callback, and the next cursor. *)

Definition dictScan (d : dict) (v : Z) : res (list entry * Z) :=
  if dictSize d =? 0 then Ok ([], 0) else
  if negb (dictIsRehashing d) then
    let m0 := ht_sizemask (ht0 d) in
    b ← bucket_at (ht0 d) v m0;
    Ok (b, next_cursor m0 v)
  else
    let '(t0, t1) := if ht_size (ht0 d) >? ht_size (ht1 d) then (ht1 d, ht0 d) else (ht0 d, ht1 d) in
    let m0 := ht_sizemask t0 in
    b ← bucket_at t0 v m0;
    '(rest, v) ← scan_expansions (S (length (ht_table t1))) t1 m0 (ht_sizemask t1) v;
    Ok (b ++ rest, next_cursor m0 v).

(** A scan: one call for each of the dictionaries [ds], the states of the
    dictionary at the time of the calls. *)

Fixpoint scan_calls (ds : list dict) (v : Z) : res (list entry * Z) :=
  match ds with
  | [] => Ok ([], v)
  | d :: ds =>
      '(out, v) ← dictScan d v;
      '(rest, v) ← scan_calls ds v;
      Ok (out ++ rest, v)
  end.

End traversals.

(** ** Reversed bits *)

Definition rev_step (s mask v : Z) : Z :=
  Z.lor (Z.land (Z.shiftr v s) mask) (Z.land (to_ull (Z.shiftl v s)) (to_ull (Z.lnot mask))).

Lemma rev_steps v :
  rev v = rev_step 1 0x5555555555555555 (rev_step 2 0x3333333333333333 (rev_step 4 0x0F0F0F0F0F0F0F0F
    (rev_step 8 0x00FF00FF00FF00FF (rev_step 16 0x0000FFFF0000FFFF (rev_step 32 0x00000000FFFFFFFF v))))).
Proof. reflexivity. Qed.

Lemma to_ull_bits z i : 0 <= i < 64 -> Z.testbit (to_ull z) i = Z.testbit z i.
Proof. intros Hi. unfold to_ull, uwrap. apply Z.mod_pow2_bits_low. lia. Qed.

Definition step_index (s mask i : Z) : Z := if Z.testbit mask i then i + s else i - s.

Lemma rev_step_bits s mask v i :
  0 <= i < 64 -> Z.testbit (rev_step s mask v) i = Z.testbit v (step_index s mask i).
Proof.
  intros Hi. unfold rev_step, step_index. rewrite Z.lor_spec, !Z.land_spec, !to_ull_bits, Z.shiftr_spec, Z.shiftl_spec, Z.lnot_spec by lia.
  destruct (Z.testbit mask i); cbn [negb]; by rewrite ?andb_true_r, ?andb_false_r, ?orb_false_r.
Qed.

Lemma forall_64 (P : Z -> bool) : forallb P (seqZ 0 64) = true -> forall i, 0 <= i < 64 -> P i = true.
Proof.
  intros HP i Hi. apply (proj1 (forallb_forall P (seqZ 0 64)) HP). apply list_elem_of_In, elem_of_seqZ. lia.
Qed.

Lemma rev_bits v i : 0 <= i < 64 -> Z.testbit (rev v) i = Z.testbit v (63 - i).
Proof.
  intros Hi. rewrite rev_steps.
  pose proof (forall_64 (fun i =>
    let i1 := step_index 1 0x5555555555555555 i in let i2 := step_index 2 0x3333333333333333 i1 in
    let i4 := step_index 4 0x0F0F0F0F0F0F0F0F i2 in let i8 := step_index 8 0x00FF00FF00FF00FF i4 in
    let i16 := step_index 16 0x0000FFFF0000FFFF i8 in
    forallb (fun j => (0 <=? j) && (j <? 64)) [i1; i2; i4; i8; i16] && (step_index 32 0x00000000FFFFFFFF i16 =? 63 - i))
    ltac:(vm_compute; reflexivity) i Hi) as Hall. cbv zeta in Hall. cbn [forallb] in Hall. rewrite !andb_true_iff in Hall.
  destruct Hall as [(H1 & H2 & H3 & H4 & H5 & _) H6%Z.eqb_eq].
  rewrite !rev_step_bits by lia. by rewrite H6.
Qed.

Lemma bits_bound z k : 0 <= k -> (forall i, k <= i -> Z.testbit z i = false) -> 0 <= z < 2 ^ k.
Proof.
  intros Hk Hb. assert (z = z mod 2 ^ k) as ->; [|apply Z.mod_pos_bound; lia].
  apply Z.bits_inj'. intros i Hi. destruct (Z.lt_ge_cases i k) as [Hlt|Hge].
  - by rewrite Z.mod_pow2_bits_low.
  - rewrite Z.mod_pow2_bits_high by lia. by apply Hb.
Qed.

Lemma testbit_above z k i : 0 <= z < 2 ^ k -> k <= i -> Z.testbit z i = false.
Proof.
  intros Hz Hi. rewrite <- (Z.mod_small z (2 ^ k)) by lia. destruct (Z.lt_ge_cases k 0).
  - rewrite Z.pow_neg_r in Hz by done. lia.
  - apply Z.mod_pow2_bits_high. lia.
Qed.

Lemma rev_step_range s mask v : 0 <= mask < 2 ^ 64 -> 0 <= rev_step s mask v < 2 ^ 64.
Proof.
  intros Hm. apply bits_bound; [done|]. intros i Hi. unfold rev_step. rewrite Z.lor_spec, !Z.land_spec.
  rewrite (testbit_above mask 64 i), (testbit_above (to_ull (Z.lnot mask)) 64 i) by (done || apply uwrap_range; lia).
  by rewrite !andb_false_r.
Qed.

Lemma rev_range v : 0 <= rev v < 2 ^ 64.
Proof. rewrite rev_steps. by apply rev_step_range. Qed.

Lemma rev_involutive v : 0 <= v < 2 ^ 64 -> rev (rev v) = v.
Proof.
  intros Hv. apply Z.bits_inj'. intros i Hi. destruct (Z.lt_ge_cases i 64).
  - rewrite !rev_bits by lia. f_equal. lia.
  - by rewrite (testbit_above _ 64 i (rev_range _)), (testbit_above v 64 i).
Qed.

(** The low bits are the high bits of the reversed number. *)

Lemma rev_high v k j : 0 <= k <= 64 -> 0 <= j -> Z.testbit (rev v / 2 ^ (64 - k)) j = if j <? k then Z.testbit v (k - 1 - j) else false.
Proof.
  intros Hk Hj. rewrite <- Z.shiftr_div_pow2, Z.shiftr_spec by lia. destruct (Z.ltb_spec j k).
  - rewrite rev_bits by lia. f_equal. lia.
  - apply (testbit_above _ 64); [apply rev_range|lia].
Qed.

Lemma rev_same_low v w k : 0 <= k <= 64 -> v mod 2 ^ k = w mod 2 ^ k -> rev v / 2 ^ (64 - k) = rev w / 2 ^ (64 - k).
Proof.
  intros Hk E. apply Z.bits_inj'. intros j Hj. rewrite !rev_high by done. destruct (Z.ltb_spec j k); [|done].
  rewrite <- (Z.mod_pow2_bits_low v k), <- (Z.mod_pow2_bits_low w k), E by lia. done.
Qed.

Lemma rev_same_high v w k : 0 <= k <= 64 -> rev v / 2 ^ (64 - k) = rev w / 2 ^ (64 - k) -> v mod 2 ^ k = w mod 2 ^ k.
Proof.
  intros Hk E. apply Z.bits_inj'. intros j Hj. destruct (Z.lt_ge_cases j k).
  - rewrite !Z.mod_pow2_bits_low by lia. pose proof (rev_high v k (k - 1 - j) Hk) as Hv. pose proof (rev_high w k (k - 1 - j) Hk) as Hw.
    rewrite E in Hv. rewrite (proj2 (Z.ltb_lt _ _)) in Hv, Hw by lia. replace (k - 1 - (k - 1 - j)) with j in Hv, Hw by lia.
    rewrite <- Hv, <- Hw by lia. done.
  - by rewrite !Z.mod_pow2_bits_high by lia.
Qed.

(** The mask of a table of [2 ^ k] buckets. *)

Lemma mask_mod v k : 0 <= k -> Z.land v (2 ^ k - 1) = v mod 2 ^ k.
Proof. intros Hk. by rewrite Z.sub_1_r, <- Z.ones_equiv, Z.land_ones. Qed.

Lemma mask_bits k i : 0 <= k -> 0 <= i -> Z.testbit (2 ^ k - 1) i = (i <? k).
Proof. intros Hk Hi. rewrite Z.sub_1_r, <- Z.ones_equiv. destruct (Z.ltb_spec i k); [by apply Z.ones_spec_low|apply Z.ones_spec_high; lia]. Qed.

Lemma not_mask_bits k i : 0 <= k -> 0 <= i < 64 -> Z.testbit (to_ull (Z.lnot (2 ^ k - 1))) i = (k <=? i).
Proof. intros Hk Hi. rewrite to_ull_bits, Z.lnot_spec, mask_bits by lia. destruct (Z.ltb_spec i k), (Z.leb_spec k i); done || lia. Qed.

(** The next cursor, in reversed order: the next multiple of the width of a
    bucket. *)

Lemma next_cursor_rev k v :
  0 <= k <= 63 -> 0 <= v < 2 ^ 64 ->
  rev (next_cursor (2 ^ k - 1) v) = ((rev v / 2 ^ (64 - k) + 1) * 2 ^ (64 - k)) mod 2 ^ 64.
Proof.
  intros Hk Hv. unfold next_cursor. rewrite rev_involutive by (apply uwrap_range; lia). unfold to_ull at 1, uwrap at 1. f_equal.
  set (x := Z.lor v (to_ull (Z.lnot (2 ^ k - 1)))). pose proof (Z.pow_pos_nonneg 2 (64 - k)).
  assert (rev x / 2 ^ (64 - k) = rev v / 2 ^ (64 - k)) as Ehigh.
  { apply rev_same_low; [lia|]. apply Z.bits_inj'. intros j Hj. destruct (Z.lt_ge_cases j k).
    - rewrite !Z.mod_pow2_bits_low by lia. unfold x. rewrite Z.lor_spec, not_mask_bits by lia.
      destruct (Z.leb_spec k j); [lia|]. by rewrite orb_false_r.
    - by rewrite !Z.mod_pow2_bits_high by lia. }
  assert (rev x mod 2 ^ (64 - k) = 2 ^ (64 - k) - 1) as Elow.
  { apply Z.bits_inj'. intros j Hj. rewrite mask_bits by lia. destruct (Z.ltb_spec j (64 - k)).
    - rewrite Z.mod_pow2_bits_low, rev_bits by lia. unfold x. rewrite Z.lor_spec, not_mask_bits by lia.
      destruct (Z.leb_spec k (63 - j)); [by rewrite orb_true_r|lia].
    - by rewrite Z.mod_pow2_bits_high by lia. }
  rewrite (Z.div_mod (rev x) (2 ^ (64 - k))) by lia. rewrite Ehigh, Elow. lia.
Qed.

Lemma next_cursor_range m v : 0 <= next_cursor m v < 2 ^ 64.
Proof. apply rev_range. Qed.

Lemma next_cursor_fits k v : 0 <= k <= 63 -> 0 <= v < 2 ^ 64 -> 0 <= next_cursor (2 ^ k - 1) v < 2 ^ k.
Proof.
  intros Hk Hv. pose proof (next_cursor_rev k v Hk Hv) as E. pose proof (next_cursor_range (2 ^ k - 1) v) as Hr.
  set (c := next_cursor (2 ^ k - 1) v) in *. apply bits_bound; [lia|]. intros i Hi.
  destruct (Z.lt_ge_cases i 64); [|by apply (testbit_above c 64)].
  rewrite <- (rev_involutive c Hr), rev_bits, E by lia. rewrite Z.mod_pow2_bits_low by lia. apply Z.mul_pow2_bits_low. lia.
Qed.

(** ** The expansions of a cursor *)

Definition expand_cursor (m0 v : Z) : Z := Z.lor (Z.land (to_ull (Z.lor v m0 + 1)) (to_ull (Z.lnot m0))) (Z.land v m0).

Lemma lor_mask k v : 0 <= k -> Z.lor v (2 ^ k - 1) + 1 = (v / 2 ^ k + 1) * 2 ^ k.
Proof.
  intros Hk. pose proof (Z.pow_pos_nonneg 2 k). set (x := Z.lor v (2 ^ k - 1)).
  assert (x / 2 ^ k = v / 2 ^ k) as E1.
  { apply Z.bits_inj'. intros j Hj. rewrite <- !Z.shiftr_div_pow2, !Z.shiftr_spec by lia. unfold x. rewrite Z.lor_spec, mask_bits by lia.
    destruct (Z.ltb_spec (j + k) k); [lia|]. by rewrite orb_false_r. }
  assert (x mod 2 ^ k = 2 ^ k - 1) as E2.
  { apply Z.bits_inj'. intros j Hj. rewrite mask_bits by lia. destruct (Z.ltb_spec j k).
    - rewrite Z.mod_pow2_bits_low by lia. unfold x. rewrite Z.lor_spec, mask_bits by lia.
      destruct (Z.ltb_spec j k); [by rewrite orb_true_r|lia].
    - by rewrite Z.mod_pow2_bits_high by lia. }
  rewrite (Z.div_mod x (2 ^ k)) by lia. rewrite E1, E2. lia.
Qed.

Lemma expand_cursor_spec k v :
  0 <= k <= 63 -> 0 <= v < 2 ^ 64 ->
  0 <= expand_cursor (2 ^ k - 1) v < 2 ^ 64 /\ expand_cursor (2 ^ k - 1) v mod 2 ^ k = v mod 2 ^ k /\
  expand_cursor (2 ^ k - 1) v / 2 ^ k = (v / 2 ^ k + 1) mod 2 ^ (64 - k).
Proof.
  intros Hk Hv. unfold expand_cursor. rewrite lor_mask by lia. set (y := to_ull _).
  assert (y = ((v / 2 ^ k + 1) mod 2 ^ (64 - k)) * 2 ^ k) as Ey.
  { unfold y, to_ull, uwrap. replace (2 ^ 64) with (2 ^ (64 - k) * 2 ^ k) by (rewrite <- Z.pow_add_r by lia; f_equal; lia).
    apply Z.mul_mod_distr_r; lia. }
  assert (0 <= y < 2 ^ 64) as Hy by (apply uwrap_range; lia). pose proof (Z.pow_pos_nonneg 2 k).
  split; [|split].
  - apply bits_bound; [done|]. intros i Hi. rewrite Z.lor_spec, !Z.land_spec, (testbit_above y 64 i), (testbit_above v 64 i) by lia. done.
  - apply Z.bits_inj'. intros j Hj. destruct (Z.lt_ge_cases j k).
    + rewrite !Z.mod_pow2_bits_low, Z.lor_spec, !Z.land_spec, not_mask_bits, mask_bits by lia.
      destruct (Z.leb_spec k j), (Z.ltb_spec j k); try lia. by rewrite andb_false_r, andb_true_r.
    + by rewrite !Z.mod_pow2_bits_high by lia.
  - transitivity (y / 2 ^ k); [|rewrite Ey; apply Z.div_mul; lia].
    apply Z.bits_inj'. intros j Hj. rewrite <- !Z.shiftr_div_pow2, !Z.shiftr_spec by lia.
    rewrite Z.lor_spec, !Z.land_spec, mask_bits by lia. destruct (Z.ltb_spec (j + k) k); [lia|]. rewrite andb_false_r, orb_false_r.
    destruct (Z.lt_ge_cases (j + k) 64).
    + rewrite not_mask_bits by lia. destruct (Z.leb_spec k (j + k)); [by rewrite andb_true_r|lia].
    + by rewrite (testbit_above y 64 (j + k)).
Qed.

Lemma mask_difference k0 k1 v :
  0 <= k0 <= k1 -> Z.land v (Z.lxor (2 ^ k0 - 1) (2 ^ k1 - 1)) = ((v / 2 ^ k0) mod 2 ^ (k1 - k0)) * 2 ^ k0.
Proof.
  intros Hk. apply Z.bits_inj'. intros j Hj. rewrite Z.land_spec, Z.lxor_spec, !mask_bits by lia.
  destruct (Z.lt_ge_cases j k0).
  - rewrite Z.mul_pow2_bits_low by lia. destruct (Z.ltb_spec j k0), (Z.ltb_spec j k1); try lia. by rewrite andb_false_r.
  - rewrite Z.mul_pow2_bits by lia. destruct (Z.ltb_spec j k0); [lia|]. destruct (Z.ltb_spec j k1).
    + rewrite Z.mod_pow2_bits_low, <- Z.shiftr_div_pow2, Z.shiftr_spec by lia. rewrite andb_true_r. f_equal. lia.
    + rewrite Z.mod_pow2_bits_high by lia. by rewrite andb_false_r.
Qed.

Section scan.

Context {key val : Type} `{Countable key} (hash : key -> Z).

Abbreviation entry := (key * val)%type.
Abbreviation dictht := (dictht key val).
Abbreviation dict := (dict key val).

(** A table of [2 ^ k] buckets. *)

Definition table_of (k : Z) (t : dictht) : Prop := ht_ok hash t /\ ht_size t = 2 ^ k /\ ht_sizemask t = 2 ^ k - 1 /\ 2 <= k <= 63.

Lemma ht_ok_table_of t : ht_ok hash t -> exists k, table_of k t.
Proof. intros Hok. pose proof Hok as [(k & Hk & Hs) Hm _ _ _]. exists k. rewrite Hs in Hm. done. Qed.

Lemma bucket_at_spec k t v :
  table_of k t ->
  exists b, bucket_at t v (2 ^ k - 1) = Ok b /\ (forall e, e ∈ b -> e ∈ ht_entries t) /\
    forall e, e ∈ ht_entries t -> hash e.1 mod 2 ^ k = v mod 2 ^ k -> e ∈ b.
Proof.
  intros (Hok & Hs & Hm & Hk). unfold bucket_at. rewrite mask_mod by lia. pose proof (Z.mod_pos_bound v (2 ^ k) ltac:(lia)).
  pose proof (ht_length _ _ Hok). destruct (lookup_lt_is_Some_2 (ht_table t) (Z.to_nat (v mod 2 ^ k))) as [b Hb]; [lia|].
  exists b. rewrite Hb. split; [done|]. split.
  - intros e He. apply elem_of_ht. by eexists _, _.
  - intros e (i & b' & Hi & He)%elem_of_ht Hh. pose proof (ht_placed _ _ Hok i b' e Hi He) as Hp. unfold bucket_index in Hp.
    rewrite Hm, mask_mod, Hh in Hp by lia. subst i. congruence.
Qed.

Lemma scan_expansions_spec k0 k1 t1 fuel : forall v,
  table_of k1 t1 -> 0 <= k0 <= k1 -> 0 <= v < 2 ^ 64 ->
  2 ^ (k1 - k0) - (v / 2 ^ k0) mod 2 ^ (k1 - k0) <= Z.of_nat fuel ->
  exists out v', scan_expansions fuel t1 (2 ^ k0 - 1) (2 ^ k1 - 1) v = Ok (out, v') /\ 0 <= v' < 2 ^ 64 /\ v' mod 2 ^ k0 = v mod 2 ^ k0 /\
    (forall e, e ∈ out -> e ∈ ht_entries t1) /\
    forall e, e ∈ ht_entries t1 -> hash e.1 mod 2 ^ k0 = v mod 2 ^ k0 ->
      (v / 2 ^ k0) mod 2 ^ (k1 - k0) <= (hash e.1 / 2 ^ k0) mod 2 ^ (k1 - k0) -> e ∈ out.
Proof.
  induction fuel as [|fuel IH]; intros v Ht Hk Hv Hf.
  { pose proof (Z.mod_pos_bound (v / 2 ^ k0) (2 ^ (k1 - k0)) ltac:(lia)). lia. }
  pose proof Ht as (_ & _ & _ & Hk1). cbn [scan_expansions]. destruct (bucket_at_spec k1 t1 v Ht) as (b & -> & Hb1 & Hb2). cbn [mbind res_bind].
  fold (expand_cursor (2 ^ k0 - 1) v). destruct (expand_cursor_spec k0 v) as (Hr & Hlow & Hhigh); [lia|done|].
  set (v1 := expand_cursor (2 ^ k0 - 1) v) in *. rewrite mask_difference by lia.
  set (c := (v / 2 ^ k0) mod 2 ^ (k1 - k0)) in *. pose proof (Z.mod_pos_bound (v / 2 ^ k0) (2 ^ (k1 - k0)) ltac:(lia)) as Hc. fold c in Hc.
  assert ((v1 / 2 ^ k0) mod 2 ^ (k1 - k0) = (c + 1) mod 2 ^ (k1 - k0)) as Hc1.
  { rewrite Hhigh. rewrite Z.mod_mod_divide by (exists (2 ^ (64 - k1)); rewrite <- Z.pow_add_r by lia; f_equal; lia).
    unfold c. by rewrite Zplus_mod_idemp_l. }
  assert (forall e, e ∈ ht_entries t1 -> hash e.1 mod 2 ^ k0 = v mod 2 ^ k0 -> (hash e.1 / 2 ^ k0) mod 2 ^ (k1 - k0) = c -> e ∈ b) as Hhere.
  { intros e He Hh Hh2. apply Hb2; [done|]. replace (2 ^ k1) with (2 ^ k0 * 2 ^ (k1 - k0)) by (rewrite <- Z.pow_add_r by lia; f_equal; lia).
    rewrite !Z.rem_mul_r by lia. by rewrite Hh, Hh2. }
  assert (forall e : entry, (hash e.1 / 2 ^ k0) mod 2 ^ (k1 - k0) < 2 ^ (k1 - k0)) as Hbound by (intros e; apply Z.mod_pos_bound; lia).
  destruct (Z.eqb_spec (((v1 / 2 ^ k0) mod 2 ^ (k1 - k0)) * 2 ^ k0) 0) as [E|E].
  - exists b, v1. split; [done|]. split; [done|]. split; [done|]. split; [done|]. intros e He Hh Hge. apply Hhere; [done|done|].
    pose proof (Z.pow_pos_nonneg 2 k0). assert ((c + 1) mod 2 ^ (k1 - k0) = 0) as E0 by nia. specialize (Hbound e).
    destruct (Z.eq_dec (c + 1) (2 ^ (k1 - k0))); [lia|]. rewrite Z.mod_small in E0 by lia. lia.
  - assert (c + 1 < 2 ^ (k1 - k0)) as Hlt.
    { destruct (Z.eq_dec (c + 1) (2 ^ (k1 - k0))) as [E1|]; [|lia]. rewrite E1, Z.mod_same in Hc1 by lia. rewrite Hc1 in E. done. }
    rewrite (Z.mod_small (c + 1)) in Hc1 by lia.
    destruct (IH v1 Ht Hk Hr) as (out & v' & -> & Hr' & Hlow' & Hsub & Hall); [rewrite Hc1; lia|]. cbn [mbind res_bind].
    exists (b ++ out), v'. split; [done|]. split; [done|]. split; [congruence|].
    split; [intros e [He|He]%elem_of_app; auto|].
    intros e He Hh Hge. apply elem_of_app. destruct (Z.eq_dec ((hash e.1 / 2 ^ k0) mod 2 ^ (k1 - k0)) c) as [|Hne]; [left; by apply Hhere|right].
    apply Hall; [done|congruence|]. rewrite Hc1. lia.
Qed.

Definition small_size (d : dict) : Z :=
  if dictIsRehashing d then Z.min (ht_size (ht0 d)) (ht_size (ht1 d)) else ht_size (ht0 d).

(** One call, on a dictionary that is not empty. *)

Record scanned (d : dict) (v : Z) (out : list entry) (v' : Z) (k : Z) : Prop := MkScanned {
  scanned_size : small_size d = 2 ^ k;
  scanned_exp : 2 <= k <= 63;
  scanned_cursor : 0 <= v' < 2 ^ k;
  scanned_next : rev v' = ((rev v / 2 ^ (64 - k) + 1) * 2 ^ (64 - k)) mod 2 ^ 64;
  scanned_sound (e : entry) : e ∈ out -> e ∈ dict_entries d;
  scanned_all (e : entry) : (dictIsRehashing d = true -> v < small_size d) -> e ∈ dict_entries d -> hash e.1 mod 2 ^ k = v mod 2 ^ k -> e ∈ out
}.

Lemma dictSize_zero (d : dict) : dict_ok hash d -> (dictSize d =? 0) = bool_decide (dict_entries d = []).
Proof.
  intros Hok. pose proof (used_range _ _ Hok) as Hu. unfold dictSize, to_ull. rewrite uwrap_id by lia.
  assert (ht_used (ht0 d) + ht_used (ht1 d) = Z.of_nat (length (dict_entries d))) as ->.
  { unfold dict_entries. rewrite length_app. destruct (dict_tables _ _ Hok) as [(_ & Ht & ->)|Ht].
    - rewrite (used_entries _ _ Ht). cbn. lia.
    - rewrite (ht_counted _ _ (rehash_ht0 _ _ Ht)), (ht_counted _ _ (rehash_ht1 _ _ Ht)). lia. }
  destruct (dict_entries d); [done|]. rewrite bool_decide_false by done. apply Z.eqb_neq. cbn [length]. lia.
Qed.

(** The two tables of a rehash, the smaller first. *)

Lemma scan_both (d : dict) k0 k1 t0 t1 v :
  table_of k0 t0 -> table_of k1 t1 -> k0 <= k1 -> 0 <= v < 2 ^ 64 ->
  dictIsRehashing d = true -> small_size d = 2 ^ k0 -> (forall e, e ∈ dict_entries d <-> e ∈ ht_entries t0 \/ e ∈ ht_entries t1) ->
  exists out v', (b ← bucket_at t0 v (ht_sizemask t0);
     '(rest, v) ← scan_expansions (S (length (ht_table t1))) t1 (ht_sizemask t0) (ht_sizemask t1) v;
     Ok (b ++ rest, next_cursor (ht_sizemask t0) v)) = Ok (out, v') /\ scanned d v out v' k0.
Proof.
  intros Ht0 Ht1 Hk Hv Hre Hsz Hent. pose proof Ht0 as (_ & _ & -> & Hk0). pose proof Ht1 as (Hok1 & Hs1 & -> & Hk1).
  destruct (bucket_at_spec k0 t0 v Ht0) as (b & -> & Hb1 & Hb2). cbn [mbind res_bind].
  destruct (scan_expansions_spec k0 k1 t1 (S (length (ht_table t1))) v Ht1) as (rest & v1 & -> & Hr1 & Hlow & Hsub & Hall); [lia|done| |].
  { pose proof (ht_length _ _ Hok1). pose proof (Z.mod_pos_bound (v / 2 ^ k0) (2 ^ (k1 - k0)) ltac:(lia)).
    pose proof (Z.pow_le_mono_r 2 (k1 - k0) k1 ltac:(lia) ltac:(lia)). lia. }
  cbn [mbind res_bind]. eexists _, _. split; [done|]. split.
  - done.
  - done.
  - apply next_cursor_fits; lia.
  - rewrite next_cursor_rev by lia. by rewrite (rev_same_low v1 v k0 ltac:(lia) Hlow).
  - intros e [He|He]%elem_of_app; apply Hent; auto.
  - intros e Hal He Hh. apply elem_of_app. apply Hent in He as [He|He]; [left; by apply Hb2|right]. apply Hall; [done|done|].
    specialize (Hal Hre). rewrite Hsz in Hal. rewrite (Z.div_small v) by lia. rewrite Z.mod_0_l by lia. apply Z.mod_pos_bound. lia.
Qed.

Lemma dictScan_spec (d : dict) v :
  dict_ok hash d -> dict_entries d <> [] -> 0 <= v < 2 ^ 64 ->
  exists out v' k, dictScan d v = Ok (out, v') /\ scanned d v out v' k.
Proof.
  intros Hok Hne Hv. unfold dictScan. rewrite dictSize_zero, bool_decide_false by done.
  destruct (dictIsRehashing d) eqn:Er; cbn [negb].
  - destruct (dict_tables _ _ Hok) as [(Hi & _)|Ht]; [unfold dictIsRehashing in Er; by rewrite Hi in Er|].
    destruct (ht_ok_table_of _ (rehash_ht0 _ _ Ht)) as (k0 & Ht0). destruct (ht_ok_table_of _ (rehash_ht1 _ _ Ht)) as (k1 & Ht1).
    pose proof Ht0 as (_ & Hs0 & _ & Hk0). pose proof Ht1 as (_ & Hs1 & _ & Hk1).
    destruct (ht_size (ht0 d) >? ht_size (ht1 d)) eqn:Eg.
    + rewrite Z.gtb_lt, Hs0, Hs1 in Eg. assert (k1 < k0) by (apply (Z.pow_lt_mono_r_iff 2); lia).
      destruct (scan_both d k1 k0 (ht1 d) (ht0 d) v) as (out & v' & E & Hsc); try done; [lia| | |by exists out, v', k1].
      * unfold small_size. rewrite Er. lia.
      * intros e. unfold dict_entries. rewrite elem_of_app. tauto.
    + rewrite Z.gtb_ltb, Z.ltb_ge, Hs0, Hs1 in Eg. assert (k0 <= k1) by (apply (Z.pow_le_mono_r_iff 2); lia).
      destruct (scan_both d k0 k1 (ht0 d) (ht1 d) v) as (out & v' & E & Hsc); try done; [| |by exists out, v', k0].
      * unfold small_size. rewrite Er. lia.
      * intros e. unfold dict_entries. by rewrite elem_of_app.
  - destruct (dict_tables _ _ Hok) as [(Hi & [Hr|H0] & Hr1)|Ht].
    + unfold dict_entries in Hne. by rewrite Hr, Hr1 in Hne.
    + destruct (ht_ok_table_of _ H0) as (k & Ht). pose proof Ht as (_ & Hs & Hm & Hk). rewrite Hm.
      destruct (bucket_at_spec k (ht0 d) v Ht) as (b & -> & Hb1 & Hb2). cbn [mbind res_bind]. eexists _, _, k. split; [done|].
      assert (forall e, e ∈ dict_entries d <-> e ∈ ht_entries (ht0 d)) as Hent.
      { intros e. unfold dict_entries. rewrite Hr1. by rewrite app_nil_r. }
      split; [by unfold small_size; rewrite Er|done|apply next_cursor_fits; lia|apply next_cursor_rev; lia| |].
      * intros e He. by apply Hent, Hb1.
      * intros e _ He Hh. apply Hb2; [by apply Hent|done].
    + unfold dictIsRehashing in Er. apply negb_false_iff, Z.eqb_eq in Er. pose proof (rehash_idx _ _ Ht). lia.
Qed.

(** A call that finds a rehash in progress does not find the smaller table
    smaller than it was at the call before. *)

Fixpoint scan_steady (size : Z) (ds : list dict) : Prop :=
  match ds with
  | [] => True
  | d :: ds => (dictIsRehashing d = true -> size <= small_size d) /\ scan_steady (small_size d) ds
  end.

Lemma scanned_reaches d v out v' k h :
  scanned d v out v' k -> rev v <= rev h -> rev h < rev v' \/ v' = 0 -> h mod 2 ^ k = v mod 2 ^ k.
Proof.
  intros [_ Hk _ Hn _ _] Hge Hlt. apply rev_same_high; [lia|]. pose proof (Z.pow_pos_nonneg 2 (64 - k)).
  set (B := 2 ^ (64 - k)) in *. pose proof (rev_range h) as Hh. pose proof (rev_range v) as Hv.
  apply Z.le_antisymm; [|apply Z.div_le_mono; lia].
  apply Z.lt_succ_r, Z.div_lt_upper_bound; [lia|]. rewrite <- Z.add_1_r.
  destruct (Z.lt_ge_cases ((rev v / B + 1) * B) (2 ^ 64)) as [Hs|Hs]; [|lia].
  pose proof (Z.div_pos (rev v) B). destruct Hlt as [Hlt|E]; [rewrite Hn, Z.mod_small in Hlt; lia|].
  rewrite E in Hn. change (rev 0) with 0 in Hn. rewrite Z.mod_small in Hn; nia.
Qed.

Lemma scan_calls_spec k ds : forall v size,
  Forall (dict_ok hash) ds -> Forall (fun d => k ∈ (dict_entries d).*1) ds -> 0 <= v < 2 ^ 64 -> v < size -> scan_steady size ds ->
  exists out v', scan_calls ds v = Ok (out, v') /\ 0 <= v' < 2 ^ 64 /\
    (ds <> [] -> rev v <= rev (hash k) -> rev (hash k) < rev v' \/ v' = 0 -> k ∈ out.*1).
Proof.
  induction ds as [|d ds IH]; intros v size Hok Hin Hv Hsz Hst; [by exists [], v|].
  apply Forall_cons in Hok as [Hd Hok]. apply Forall_cons in Hin as [Hk Hin]. destruct Hst as [Hs Hst]. cbn [scan_calls].
  destruct (dictScan_spec d v Hd) as (out & v1 & p & -> & Hsc); [by intros E; rewrite E in Hk; apply not_elem_of_nil in Hk|done|]. cbn [mbind res_bind].
  pose proof Hsc as [Hss Hp Hv1 Hn Hsound Hall]. pose proof (Z.pow_le_mono_r 2 p 64 ltac:(lia) ltac:(lia)).
  destruct (IH v1 (small_size d) Hok Hin) as (rest & v' & E & Hv' & Hrest); [lia|lia|done|]. rewrite E. cbn [mbind res_bind].
  exists (out ++ rest), v'. split; [done|]. split; [done|]. intros _ Hge Hend. rewrite fmap_app, elem_of_app.
  destruct (decide (rev (hash k) < rev v1 \/ v1 = 0)) as [Hnow|Hlater].
  - left. apply list_elem_of_fmap in Hk as (e & -> & He). apply list_elem_of_fmap_2. apply Hall; [intros Hr; specialize (Hs Hr); lia|done|].
    by eapply scanned_reaches.
  - right. apply Hrest; [|lia|done]. intros ->. injection E as <- <-. tauto.
Qed.

(** An unchanged dictionary. *)

Lemma scan_same d n :
  dict_ok hash d -> dict_entries d <> [] ->
  exists k out v', small_size d = 2 ^ k /\ 2 <= k <= 63 /\ scan_calls (replicate n d) 0 = Ok (out, v') /\ 0 <= v' < 2 ^ k /\
    rev v' = (Z.of_nat n * 2 ^ (64 - k)) mod 2 ^ 64.
Proof.
  intros Hok Hne. induction n as [|n IH].
  - destruct (dictScan_spec d 0 Hok Hne) as (out & v1 & k & _ & [Hss Hp _ _ _ _]); [lia|].
    exists k, [], 0. split; [done|]. split; [done|]. split; [done|]. split; [lia|done].
  - destruct IH as (k & out & v & Hs & Hk & E & Hv & Hr). pose proof (Z.pow_le_mono_r 2 k 64 ltac:(lia) ltac:(lia)).
    destruct (dictScan_spec d v Hok Hne) as (out1 & v1 & p & E1 & [Hss Hp Hv1 Hn _ _]); [lia|].
    assert (p = k) as -> by (apply (Z.pow_inj_r 2); lia).
    exists k, (out ++ out1), v1. split; [done|]. split; [done|]. split; [|split; [done|]].
    + rewrite replicate_S_end. clear - E E1. revert E. generalize 0 as v0, out as out0. induction (replicate n d) as [|d' ds IH]; intros v0 out0 E.
      * cbn in *. injection E as <- <-. rewrite E1. cbn. by rewrite app_nil_r.
      * cbn [scan_calls app] in *. destruct (dictScan d' v0) as [[o w]| |]; try done. cbn [mbind res_bind] in *.
        destruct (scan_calls ds w) as [[o' w']| |] eqn:E'; try done. cbn [mbind res_bind] in E. injection E as <- <-.
        rewrite (IH w o' E'). cbn. by rewrite (assoc_L (++)).
    + rewrite Hn, Hr. pose proof (Z.pow_pos_nonneg 2 (64 - k)). pose proof (Z.pow_pos_nonneg 2 k).
      replace (2 ^ 64) with (2 ^ k * 2 ^ (64 - k)) by (rewrite <- Z.pow_add_r by lia; f_equal; lia).
      rewrite !Z.mul_mod_distr_r, Z.div_mul by lia. f_equal. rewrite Zplus_mod_idemp_l. f_equal. lia.
Qed.

Lemma scan_same_ends d :
  dict_ok hash d -> exists n out, (0 < n)%nat /\ Z.of_nat n <= Z.max 1 (small_size d) /\ scan_calls (replicate n d) 0 = Ok (out, 0).
Proof.
  intros Hok. destruct (decide (dict_entries d = [])) as [He|Hne].
  - exists 1%nat, []. split; [lia|]. split; [lia|]. cbn. unfold dictScan. by rewrite dictSize_zero, bool_decide_true.
  - destruct (scan_same d 0 Hok Hne) as (k & _ & _ & Hs & Hk & _).
    destruct (scan_same d (Z.to_nat (2 ^ k)) Hok Hne) as (k' & out & v & Hs' & Hk' & E & Hv & Hr).
    assert (k' = k) as -> by (apply (Z.pow_inj_r 2); lia).
    exists (Z.to_nat (2 ^ k)), out. split; [lia|]. split; [lia|]. rewrite E. do 2 f_equal. rewrite Z2Nat.id in Hr by lia.
    replace (2 ^ 64) with (2 ^ k * 2 ^ (64 - k)) in Hr by (rewrite <- Z.pow_add_r by lia; f_equal; lia).
    rewrite Z.mod_same in Hr by (pose proof (Z.pow_pos_nonneg 2 (64 - k)); nia).
    pose proof (Z.pow_le_mono_r 2 k 64 ltac:(lia) ltac:(lia)). rewrite <- (rev_involutive v) by lia. by rewrite Hr.
Qed.

(** C25: a scan reports every key that is in the dictionary during all of its
    calls, whatever else is added, deleted or moved between them and however the
    tables grow, as long as no call finds the smaller table of a rehash smaller
    than at the call before.  On a dictionary that does not change it ends. *)
Theorem dictScan_complete k ds
    (Hok : Forall (dict_ok hash) ds) (Hin : Forall (fun d => k ∈ (dict_entries d).*1) ds) (Hst : scan_steady 1 ds) :
  exists out v', scan_calls ds 0 = Ok (out, v') /\ (ds <> [] -> v' = 0 -> k ∈ out.*1) /\
    forall d, d ∈ ds -> exists n out, (0 < n)%nat /\ Z.of_nat n <= Z.max 1 (small_size d) /\ scan_calls (replicate n d) 0 = Ok (out, 0).
Proof.
  destruct (scan_calls_spec k ds 0 1 Hok Hin) as (out & v' & E & _ & Hkey); [lia|lia|done|].
  exists out, v'. split; [done|]. split.
  - intros Hne Hz. apply Hkey; [done| |by right]. change (rev 0) with 0. apply rev_range.
  - intros d Hd. apply scan_same_ends. by eapply Forall_forall.
Qed.

End scan.

(** A table of four buckets starts to grow after the first call. *)

Definition example_grow : list (bool * Z * dict_op Z Z) :=
  map (fun k => (true, 2 ^ 27, OpAdd k k)) (seqZ 0 4).

Definition example_states : res (list (dict Z Z)) :=
  '(_, d) ← run_ops Z.abs example_grow dictCreate;
  '(_, d') ← run_ops Z.abs [(true, 2 ^ 27, OpAdd 4 4)] d;
  Ok [d; d'; d'; d'].

Lemma dictScan_complete_witness :
  exists ds out, example_states = Ok ds /\ scan_calls ds 0 = Ok (out, 0) /\ 3 ∈ out.*1.
Proof.
  assert (Forall (fun cop => op_ok cop.2) (example_grow ++ [(true, 2 ^ 27, OpAdd 4 4)])) as Hops by (repeat constructor).
  apply Forall_app in Hops as [Hops1 Hops2].
  destruct (run_ops_spec Z.abs example_grow dictCreate) as (d & E & Hd & Hm); [apply dictCreate_ok|vm_compute; reflexivity|done|].
  destruct (run_ops_spec Z.abs [(true, 2 ^ 27, OpAdd 4 4)] d) as (d' & E' & Hd' & Hm'); [done|rewrite (entries_size Z.abs d Hd), Hm; vm_compute; reflexivity|done|].
  destruct (dictScan_complete Z.abs 3 [d; d'; d'; d']) as (out & v' & Es & Hk & _).
  - do 4 (apply Forall_cons_2; [assumption|]). apply Forall_nil_2.
  - vm_compute in E. injection E as <-. vm_compute in E'. injection E' as <-. clear. repeat (constructor; [decide_now|]). constructor.
  - vm_compute in E. injection E as <-. vm_compute in E'. injection E' as <-. clear. cbn. repeat split; intros _; vm_compute; discriminate.
  - exists [d; d'; d'; d'], out. split; [unfold example_states; rewrite E; cbn [mbind res_bind]; by rewrite E'|].
    assert (v' = 0) as ->.
    { vm_compute in E. injection E as <-. vm_compute in E'. injection E' as <-. vm_compute in Es. by injection Es. }
    split; [exact Es|]. by apply Hk.
Defined.

(** While a dictionary shrinks, the expansions of a cursor with high bits are not
    all visited, and a key is missed: here 4, in bucket 4 of a table of 16 that
    begins to shrink to 4 after the first call. *)
Lemma dictScan_shrink_misses :
  exists a (d0 d1 : dict Z Z) out,
    run_ops Z.abs [(true, 2 ^ 27, OpExpand 16); (true, 2 ^ 27, OpAdd 4 40)] dictCreate = Ok (a, d0) /\
    dictResize true d0 = Ok (true, d1) /\ 4 ∈ (dict_entries d0).*1 /\ 4 ∈ (dict_entries d1).*1 /\
    scan_calls [d0; d1; d1; d1; d1] 0 = Ok (out, 0) /\ 4 ∉ out.*1.
Proof.
  eexists _, _, _, []. split; [vm_compute; reflexivity|]. split; [vm_compute; reflexivity|].
  split; [decide_now|]. split; [decide_now|]. split; [vm_compute; reflexivity|apply not_elem_of_nil].
Qed.

(** ** Rehashing ends *)

Section others.

Context {key val : Type} `{Countable key} (hash : key -> Z).

Abbreviation entry := (key * val)%type.
Abbreviation dict := (dict key val).

Lemma skip_empty_grows fuel : forall (t : list (list entry)) i visits i' visits' ob,
  skip_empty fuel t i visits = Ok (i', visits', ob) -> i <= i' /\ (ob = None -> i < i').
Proof.
  induction fuel as [|fuel IH]; intros t i visits i' visits' ob; [done|]. cbn [skip_empty].
  destruct (t !! Z.to_nat i) as [b|]; [|done]. cbn [need mbind res_bind]. case_bool_decide.
  - destruct (visits - 1 =? 0); [intros [= <- _ <-]; split; [lia|intros _; lia]|]. intros Hs%IH. split; [lia|]. intros ->. lia.
  - intros [= <- _ <-]. split; [lia|done].
Qed.

Lemma rehash_loop_grows n : forall visits (d : dict) through d',
  rehash_ok hash d -> Z.of_nat (length (dict_entries d)) < 2 ^ 61 -> rehash_loop hash n visits d = Ok (through, d') ->
  rehashidx d <= rehashidx d' /\ (through = false -> ht_used (ht0 d') <> 0) /\
  ((0 < n)%nat -> rehashidx d < rehashidx d' \/ through = true /\ ht_used (ht0 d') = 0).
Proof.
  induction n as [|n IH]; intros visits d through d' Hok Hl; [intros [= <- <-]; split; [lia|]; split; [done|lia]|]. cbn [rehash_loop].
  destruct (Z.eqb_spec (ht_used (ht0 d)) 0) as [Hz|Hne]; [intros [= <- <-]; split; [lia|]; split; [done|by right]|].
  intros E. res_inv. destruct v0 as [[i visits'] ob]. pose proof Hok as [H0 H1 Hi Hbd Hbelow].
  assert (concat (ht_table (ht0 d)) <> []) as Hnn.
  { rewrite (ht_counted _ _ H0) in Hne. unfold ht_entries in Hne. by intros E'; rewrite E' in Hne. }
  destruct (skip_empty_spec (S (length (ht_table (ht0 d)))) (ht_table (ht0 d)) (rehashidx d) visits) as (i2 & visits2 & ob2 & E2 & Hi2 & Hbelow2 & Hob);
    [done|done|done|lia|]. rewrite E2 in E1. injection E1 as <- <- <-. pose proof (skip_empty_grows _ _ _ _ _ _ _ E2) as [Hge Hgt].
  destruct ob2 as [b|].
  - destruct (move_step hash d i2 b Hok Hl (proj1 Hi2) Hbelow2 (proj1 Hob)) as (d1 & Em & Hok' & Hp & _). rewrite Em in E. cbn [mbind res_bind] in E.
    apply IH in E as (Hle & Hu & _); [|done|by rewrite (Permutation_length Hp)]. cbn in Hle. split; [lia|]. split; [done|]. intros _. left. lia.
  - injection E as <- <-. cbn. specialize (Hgt eq_refl). split; [lia|]. split; [done|]. intros _. left. lia.
Qed.

Lemma rehash_index (d : dict) : rehash_ok hash d -> ht_used (ht0 d) <> 0 -> rehashidx d < ht_size (ht0 d).
Proof.
  intros [H0 _ Hi _ Hbelow] Hu. apply Z.nle_gt. intros Hge. apply Hu. rewrite (ht_counted _ _ H0). unfold ht_entries.
  enough (concat (ht_table (ht0 d)) = []) as -> by done. apply concat_nil_Forall, Forall_lookup. intros j b Hj.
  pose proof (lookup_lt_Some _ _ _ Hj). pose proof (ht_length _ _ H0). specialize (Hbelow j ltac:(lia)). by rewrite Hj in Hbelow.
Qed.

(** A call that leaves something to do has come closer to the end. *)

Lemma dictRehash_advances n (d d' : dict) :
  dict_ok hash d -> (0 < n)%nat -> dictRehash hash d n = Ok (true, d') ->
  rehashidx d < rehashidx d' /\ rehashidx d' < ht_size (ht0 d') /\ ht_size (ht0 d') = ht_size (ht0 d).
Proof.
  intros [Ht Hk Hl] Hn. unfold dictRehash. destruct (dictIsRehashing d) eqn:Er; [|done]. cbn [negb].
  destruct Ht as [(Hi & _)|Ht]; [unfold dictIsRehashing in Er; by rewrite Hi in Er|].
  destruct (rehash_loop_spec hash n (Z.of_nat n * 10) d Ht Hl) as (through & d1 & E & Ht1 & _ & _ & _ & Hs). rewrite E. cbn [mbind res_bind].
  destruct (rehash_loop_grows n _ d through d1 Ht Hl E) as (_ & Hu & Hg). specialize (Hg Hn). pose proof (rehash_index d1 Ht1) as Hidx.
  destruct through; cbn [negb].
  - destruct (Z.eqb_spec (ht_used (ht0 d1)) 0) as [|Hne]; [done|]. intros [= <-]. destruct Hg as [|[_ ?]]; [|done]. auto.
  - intros [= <-]. specialize (Hu eq_refl). destruct Hg as [|[? _]]; [|done]. auto.
Qed.

Lemma rehash_rounds_spec fuel late : forall (d : dict) r,
  dict_ok hash d -> ht_size (ht0 d) - rehashidx d <= Z.of_nat fuel \/ rehashidx d = -1 -> (0 < fuel)%nat ->
  exists n d', rehash_rounds hash fuel late d r = Ok (n, d') /\ rehashed hash d d' /\ ((forall r, late r = false) -> rehashidx d' = -1).
Proof.
  induction fuel as [|fuel IH]; intros d r Hok Hf Hpos; [lia|]. cbn [rehash_rounds].
  destruct (dictRehash_spec hash d 100 Hok) as (more & d1 & E & Hr & Hmore). rewrite E. cbn [mbind res_bind].
  destruct more; cbn [negb].
  2:{ exists r, d1. split; [done|]. split; [done|]. intros _. destruct (Z.eq_dec (rehashidx d1) (-1)) as [|Hne]; [done|by apply Hmore in Hne]. }
  destruct (dictRehash_advances 100 d d1 Hok) as (Ha & Hb & Hs); [lia|done|].
  destruct (late _) eqn:El; [eexists _, d1; split; [done|]; split; [done|]; intros Hn; by rewrite Hn in El|].
  destruct Hf as [Hf|Hf].
  - destruct (IH d1 (to_int (r + 100))) as (n & d' & -> & Hr' & Hend); [apply Hr|left; lia|lia|].
    exists n, d'. split; [done|]. split; [by eapply rehashed_trans|done].
  - unfold dictRehash, dictIsRehashing in E. by rewrite Hf in E.
Qed.

(** Rehashing for some time always ends and does not change what the
    dictionary holds; unless the time runs out the second table is gone at the
    end. *)
Lemma dictRehashMilliseconds_ends late (d : dict) (Hok : dict_ok hash d) :
  exists n d', dictRehashMilliseconds hash late d = Ok (n, d') /\ dict_ok hash d' /\ dict_map d' = dict_map d /\
    ((forall r, late r = false) -> rehashidx d' = -1 /\ ht1 d' = _dictReset).
Proof.
  unfold dictRehashMilliseconds. destruct (rehash_rounds_spec (S (length (ht_table (ht0 d)))) late d 0 Hok) as (n & d' & E & Hr & Hend); [|lia|].
  - destruct (dict_tables _ _ Hok) as [(Hi & _)|[H0 _ Hi _ _]]; [by right|left]. pose proof (ht_length _ _ H0). lia.
  - exists n, d'. split; [done|]. split; [apply Hr|]. split; [by eapply rehashed_map|]. intros Hl. specialize (Hend Hl). split; [done|].
    destruct (dict_tables _ _ (rehashed_ok _ _ _ Hr)) as [(_ & _ & ?)|[_ _ ? _ _]]; [done|lia].
Qed.

(** ** Iterators *)

(** What an iterator has still to return. *)

Abbreviation iter := (@dictIterator key val).

Definition ahead (d : dict) (it : iter) : list entry :=
  it_rest it ++ (if it_table it then concat (drop (Z.to_nat (it_index it + 1)) (ht_table (ht1 d)))
                 else concat (drop (Z.to_nat (it_index it + 1)) (ht_table (ht0 d))) ++ ht_entries (ht1 d)).

Definition buckets_left (d : dict) (it : iter) : nat :=
  if it_table it then length (ht_table (ht1 d)) - Z.to_nat (it_index it + 1)
  else (length (ht_table (ht0 d)) - Z.to_nat (it_index it + 1)) + length (ht_table (ht1 d)) + 1.

Definition iter_ok (it : iter) : Prop := -1 <= it_index it.

Lemma table_length (d : dict) : dict_ok hash d ->
  Z.of_nat (length (ht_table (ht0 d))) = ht_size (ht0 d) /\ Z.of_nat (length (ht_table (ht1 d))) = ht_size (ht1 d).
Proof.
  intros Hok. destruct (dict_tables _ _ Hok) as [(_ & [->|H0] & ->)|Ht]; [done|split; [apply H0|done]|split; apply Ht].
Qed.

Lemma drop_bucket {A} (t : list (list A)) i b : 0 <= i -> t !! Z.to_nat i = Some b ->
  concat (drop (Z.to_nat i) t) = b ++ concat (drop (Z.to_nat (i + 1)) t).
Proof. intros Hi E. rewrite (drop_S t b (Z.to_nat i)) by done. cbn. do 3 f_equal. lia. Qed.

Lemma next_loop_spec fuel (d : dict) : forall it : iter,
  dict_ok hash d -> iter_ok it -> (buckets_left d it < fuel)%nat ->
  match ahead d it with
  | [] => next_loop fuel d it = Ok None
  | e :: rest => exists it', next_loop fuel d it = Ok (Some (e, it')) /\ ahead d it' = rest /\ iter_ok it'
  end.
Proof.
  induction fuel as [|fuel IH]; intros it Hok Hi Hf; [lia|]. cbn [next_loop]. destruct it as [tb idx rest]. unfold iter_ok in Hi. cbn in Hi.
  destruct rest as [|e rest]; [|by eexists].
  destruct (table_length d Hok) as [L0 L1]. cbn [it_rest it_table it_index].
  set (ht := if tb then ht1 d else ht0 d). assert (Z.of_nat (length (ht_table ht)) = ht_size ht) as Lh by (unfold ht; by destruct tb).
  rewrite Z.geb_leb. destruct (Z.leb_spec (ht_size ht) (idx + 1)) as [Hge|Hlt].
  - destruct (dictIsRehashing d && negb tb) eqn:E.
    + apply andb_true_iff in E as [Er ->%negb_true_iff].
      destruct (dict_tables _ _ Hok) as [(Hx & _)|Ht]; [unfold dictIsRehashing in Er; by rewrite Hx in Er|].
      pose proof (ht_ok_table _ _ (rehash_ht1 _ _ Ht)) as Hne. destruct (ht_table (ht1 d)) as [|b t] eqn:Et; [done|]. cbn [lookup list_lookup need mbind res_bind].
      specialize (IH (MkIter true 0 b) Hok). unfold ahead, buckets_left, iter_ok, ht_entries in *. cbn in *. rewrite Et in *. cbn in *.
      rewrite drop_ge by (unfold ht in *; lia). cbn. apply IH; lia.
    + unfold ahead. cbn. assert ((if tb then concat (drop (Z.to_nat (idx + 1)) (ht_table (ht1 d)))
        else concat (drop (Z.to_nat (idx + 1)) (ht_table (ht0 d))) ++ ht_entries (ht1 d)) = []) as ->; [|done].
      unfold ht in *. destruct tb; [rewrite drop_ge by lia; done|]. rewrite drop_ge by lia. rewrite andb_true_r in E.
      destruct (dict_tables _ _ Hok) as [(_ & _ & ->)|Ht]; [done|].
      unfold dictIsRehashing in E. apply negb_false_iff, Z.eqb_eq in E. pose proof (rehash_idx _ _ Ht). lia.
  - destruct (lookup_lt_is_Some_2 (ht_table ht) (Z.to_nat (idx + 1))) as [b Hb]; [lia|]. rewrite Hb. cbn [need mbind res_bind].
    assert (ahead d (MkIter tb idx []) = ahead d (MkIter tb (idx + 1) b)) as ->.
    { unfold ahead, ht in *. cbn. destruct tb; rewrite (drop_bucket _ _ b) by (done || lia); by rewrite ?(assoc_L (++)). }
    apply IH; [done|unfold iter_ok; cbn; lia|]. unfold buckets_left, ht in *. cbn in *. destruct tb; lia.
Qed.

Fixpoint iterate (calls : nat) (d : dict) (it : iter) : res (list entry) :=
  match calls with
  | O => Ok []
  | S calls =>
      o ← dictNext d it;
      match o with
      | None => Ok []
      | Some (e, it) => l ← iterate calls d it; Ok (e :: l)
      end
  end.

(** Iterating over a dictionary that is not changed gives every entry once. *)
Lemma dictNext_all (d : dict) calls : dict_ok hash d -> (length (dict_entries d) < calls)%nat -> iterate calls d dictGetIterator = Ok (dict_entries d).
Proof.
  intros Hok Hc. assert (forall calls (it : iter), (length (ahead d it) < calls)%nat -> iter_ok it -> iterate calls d it = Ok (ahead d it)) as Hall.
  { clear Hc calls. induction calls as [|calls IH]; intros it Hc Hi; [lia|]. cbn [iterate]. unfold dictNext.
    assert (buckets_left d it < S (S (length (ht_table (ht0 d)) + length (ht_table (ht1 d)))))%nat as Hf by (unfold buckets_left; destruct (it_table it); lia).
    pose proof (next_loop_spec _ d it Hok Hi Hf) as Hn. destruct (ahead d it) as [|e rest]; [by rewrite Hn|].
    destruct Hn as (it' & -> & <- & Hi'). cbn [mbind res_bind length] in *. by rewrite IH by (done || lia). }
  rewrite Hall; [done|exact Hc|done].
Qed.

(** ** Random entries *)

Lemma table_bucket (d : dict) h i :
  ht_ok hash h -> h = ht0 d \/ h = ht1 d -> 0 <= i < ht_size h ->
  exists b, ht_table h !! Z.to_nat i = Some b /\ forall e, e ∈ b -> e ∈ dict_entries d.
Proof.
  intros Hh Hd Hi. pose proof (ht_length _ _ Hh). destruct (lookup_lt_is_Some_2 (ht_table h) (Z.to_nat i)) as [b Hb]; [lia|].
  exists b. split; [done|]. intros e He. unfold dict_entries. apply elem_of_app.
  assert (e ∈ ht_entries h) by (apply elem_of_ht; by eexists _, _). destruct Hd; subst; auto.
Qed.

Lemma mask_index h r : ht_ok hash h -> 0 <= Z.land r (ht_sizemask h) < ht_size (h : dictht key val).
Proof.
  intros Hh. destruct (ht_power _ _ Hh) as (p & Hp & Hs). rewrite (ht_mask _ _ Hh), Hs, mask_mod by lia. apply Z.mod_pos_bound. lia.
Qed.

Lemma rehashing_tables (d : dict) : dict_ok hash d -> dictIsRehashing d = true -> rehash_ok hash d.
Proof.
  intros Hok Er. destruct (dict_tables _ _ Hok) as [(Hx & _)|Ht]; [unfold dictIsRehashing in Er; by rewrite Hx in Er|done].
Qed.

Lemma random_bucket_spec (d : dict) random : dict_ok hash d -> ht_ok hash (ht0 d) -> Forall (Z.le 0) random ->
  exists o, random_bucket d random = Ok o /\
    match o with
    | Some (b, random') => b <> [] /\ (forall e, e ∈ b -> e ∈ dict_entries d) /\ Forall (Z.le 0) random'
    | None => True
    end.
Proof.
  intros Hok H0. induction random as [|r random IH]; intros Hr; [by exists None|]. apply Forall_cons in Hr as [Hr Hrs]. cbn [random_bucket].
  match goal with |- context [mbind _ ?c] => assert (exists b, c = Ok b /\ forall e, e ∈ b -> e ∈ dict_entries d) as (b & -> & Hb) end.
  - destruct (dictIsRehashing d) eqn:Er.
    + destruct (rehashing_tables d Hok Er) as [Ht0 Ht1 Hi Hbd _].
      assert (0 < ht_size (ht1 d)) as Hs1 by (destruct (ht_power _ _ Ht1) as (p & Hp & ->); lia).
      pose proof (Z.rem_bound_pos r (ht_size (ht0 d) + ht_size (ht1 d) - rehashidx d)) as Hrem.
      set (h := rehashidx d + _). rewrite Z.geb_leb. destruct (Z.leb_spec (ht_size (ht0 d)) h).
      * destruct (table_bucket d (ht1 d) (h - ht_size (ht0 d)) Ht1) as (b & -> & Hb); [by right|lia|]. by exists b.
      * destruct (table_bucket d (ht0 d) h Ht0) as (b & -> & Hb); [by left|lia|]. by exists b.
    + destruct (table_bucket d (ht0 d) (Z.land r (ht_sizemask (ht0 d))) H0) as (b & -> & Hb); [by left|by apply mask_index|]. by exists b.
  - cbn [mbind res_bind]. case_bool_decide; [by apply IH|]. by exists (Some (b, random)).
Qed.

(** A random entry is an entry of the dictionary. *)
Lemma dictGetRandomKey_member (d : dict) random : dict_ok hash d -> Forall (Z.le 0) random ->
  exists o d', dictGetRandomKey hash d random = Ok (o, d') /\ rehashed hash d d' /\
    match o with
    | Some (Some e) => e ∈ dict_entries d
    | Some None => dict_entries d = []
    | None => True
    end.
Proof.
  intros Hok Hr. unfold dictGetRandomKey. rewrite (dictSize_zero hash) by done. case_bool_decide as He.
  { exists (Some None), d. split; [done|]. split; [by apply rehashed_refl|done]. }
  destruct (rehash_step_spec hash d Hok) as (d' & -> & Hre). cbn [mbind res_bind].
  assert (ht_ok hash (ht0 d')) as H0.
  { apply Hre, (used_table hash); [done|]. pose proof (dictSize_zero hash d Hok) as Hz. rewrite bool_decide_false in Hz by done.
    apply Z.eqb_neq in Hz. unfold dictSize in Hz. destruct (Z.eq_dec (ht_used (ht0 d)) 0) as [E0|]; [|by left].
    right. intros E1. by rewrite E0, E1 in Hz. }
  destruct (random_bucket_spec d' random (rehashed_ok _ _ _ Hre) H0 Hr) as (o & -> & Ho). cbn [mbind res_bind].
  destruct o as [[b [|r random']]|]; [by exists None, d'| |by exists None, d'].
  destruct Ho as (Hne & Hb & Hr'). apply Forall_cons in Hr' as [Hr0 _].
  assert (0 < Z.of_nat (length b)) by (destruct b; [done|cbn [length]; lia]).
  pose proof (Z.rem_bound_pos r (Z.of_nat (length b))). destruct (lookup_lt_is_Some_2 b (Z.to_nat (Z.rem r (Z.of_nat (length b))))) as [e Ee]; [lia|].
  rewrite Ee. cbn [need mbind res_bind]. eexists _, d'. split; [done|]. split; [done|]. cbn.
  rewrite <- (rehashed_entries _ _ _ Hre). apply Hb. by eapply list_elem_of_lookup_2.
Qed.

(** ** Samples *)

Definition sampling_ok (d : dict) (count : Z) (s : @sampling key val) : Prop :=
  0 <= sm_i s /\ Z.of_nat (length (sm_stored s)) <= count /\ Forall (fun e => e ∈ dict_entries d) (sm_stored s).

Lemma sample_table_spec (d : dict) random two second mask count s :
  dict_ok hash d -> ht_ok hash (ht0 d) -> (two = true -> rehash_ok hash d) -> (second = true -> two = true) -> 0 <= mask ->
  sampling_ok d count s ->
  exists s', sample_table d random two second mask count s = Ok s' /\ sampling_ok d count s'.
Proof.
  intros Hok H0 Htwo Hsec Hm (Hi & Hl & Hs). unfold sample_table.
  destruct (two && negb second && (sm_i s <? rehashidx d)) eqn:E.
  { eexists. split; [done|]. split; [cbn|done]. destruct (sm_i s >=? ht_size (ht1 d)); [|done].
    apply andb_true_iff in E as [[E _]%andb_true_iff _]. by apply Htwo. }
  set (h := if second then ht1 d else ht0 d). rewrite Z.geb_leb.
  destruct (Z.leb_spec (ht_size h) (sm_i s)); [by exists s|].
  destruct (table_bucket d h (sm_i s)) as (b & -> & Hb); [unfold h; destruct second; [by apply Htwo, Hsec|done]|unfold h; destruct second; auto|lia|].
  cbn [need mbind res_bind]. destruct b as [|e b].
  - destruct ((sm_emptylen s + 1 >=? 5) && (sm_emptylen s + 1 >? count)); eexists; split; try done. split; [cbn|done].
    apply Z.land_nonneg. by right.
  - eexists. split; [done|]. split; [done|]. cbn [sm_stored]. split.
    + rewrite length_app, length_take. lia.
    + apply Forall_app. split; [done|]. apply Forall_take, Forall_forall. exact Hb.
Qed.

Lemma sample_loop_spec (d : dict) random two mask count steps : forall s,
  dict_ok hash d -> ht_ok hash (ht0 d) -> (two = true -> rehash_ok hash d) -> 0 <= mask -> sampling_ok d count s ->
  exists l, sample_loop steps d random two mask count s = Ok l /\ Z.of_nat (length l) <= count /\ Forall (fun e => e ∈ dict_entries d) l.
Proof.
  induction steps as [|steps IH]; intros s Hok H0 Htwo Hm Hs; pose proof Hs as (Hi & Hl & Hf); cbn [sample_loop]; [by exists (sm_stored s)|].
  destruct (_ >=? count); [by exists (sm_stored s)|].
  destruct (sample_table_spec d random two false mask count s) as (s1 & -> & Hs1); try done. cbn [mbind res_bind].
  destruct (_ >=? count); [exists (sm_stored s1); split; [done|apply Hs1]|].
  assert (exists s2, (if two then sample_table d random two true mask count s1 else Ok s1) = Ok s2 /\ sampling_ok d count s2) as (s2 & -> & Hs2).
  { destruct two; [apply sample_table_spec; done|by exists s1]. }
  cbn [mbind res_bind]. destruct (_ >=? count); [exists (sm_stored s2); split; [done|apply Hs2]|].
  apply IH; try done. split; [cbn; apply Z.land_nonneg; by right|apply Hs2].
Qed.

(** At most as many entries as asked for, all of the dictionary. *)
Lemma dictGetSomeKeys_members (d : dict) random count : dict_ok hash d -> 0 <= count < 2 ^ 32 ->
  exists l d', dictGetSomeKeys hash d random count = Ok (l, d') /\ rehashed hash d d' /\
    Z.of_nat (length l) <= count /\ Forall (fun e => e ∈ dict_entries d) l.
Proof.
  intros Hok Hc. unfold dictGetSomeKeys. set (c := if dictSize d <? count then dictSize d else count).
  assert (0 <= c <= count /\ (dict_entries d = [] -> c = 0)) as [Hcc Hzero].
  { pose proof (dictSize_zero hash d Hok) as Hz. assert (0 <= dictSize d) by (apply uwrap_range; lia). unfold c. split.
    - destruct (Z.ltb_spec (dictSize d) count); lia.
    - intros E. rewrite bool_decide_true in Hz by done. apply Z.eqb_eq in Hz. destruct (Z.ltb_spec (dictSize d) count); lia. }
  clearbody c.
  assert (forall n (d0 : dict), dict_ok hash d0 -> exists d', rehash_steps hash n d0 = Ok d' /\ rehashed hash d0 d') as Hsteps.
  { induction n as [|n IH]; intros d0 Hd0; cbn [rehash_steps]; [exists d0; split; [done|by apply rehashed_refl]|].
    destruct (dictIsRehashing d0) eqn:Er; [|exists d0; split; [done|by apply rehashed_refl]].
    destruct (rehash_step_spec hash d0 Hd0) as (d1 & E & Hr). unfold rehash_step_if in E. rewrite Er in E. rewrite E. cbn [mbind res_bind].
    destruct (IH d1 (rehashed_ok _ _ _ Hr)) as (d2 & -> & Hr2). exists d2. split; [done|by eapply rehashed_trans]. }
  destruct (Hsteps (Z.to_nat c) d Hok) as (d' & -> & Hr). cbn [mbind res_bind]. set (mask := if _ && _ then _ else _).
  destruct (decide (dict_entries d = [])) as [He|Hne].
  - rewrite (Hzero He). cbn. exists [], d'. split; [done|]. split; [done|]. split; [cbn; lia|apply Forall_nil_2].
  - assert (ht_ok hash (ht0 d')) as H0.
    { destruct (dict_tables _ _ (rehashed_ok _ _ _ Hr)) as [(_ & [Hr0|H0] & Hr1)|Ht]; [|done|apply Ht].
      pose proof (rehashed_entries _ _ _ Hr) as Hp. unfold dict_entries in Hp at 1. rewrite Hr0, Hr1 in Hp. by apply Permutation_nil in Hp. }
    assert (0 <= mask) as Hmask.
    { assert (forall h : dictht key val, ht_ok hash h -> 0 <= ht_sizemask h) as Hm.
      { intros h Hh. pose proof (mask_index h (ht_sizemask h) Hh) as Hx. rewrite Z.land_diag in Hx. lia. }
      unfold mask. destruct (_ && _) eqn:E; [|by apply Hm]. apply andb_true_iff in E as [Er _].
      apply Hm, rehashing_tables; [apply Hr|done]. }
    destruct (sample_loop_spec d' random (dictIsRehashing d') mask c (Z.to_nat (uwrap 32 (c * 10)))
      (MkSampling (Z.land (random 0%nat) mask) 0 [] 1)) as (l & -> & Hl & Hf).
    + apply Hr.
    + done.
    + intros Er. by apply rehashing_tables; [apply Hr|].
    + done.
    + split; [|cbn; split; [lia|done]]. cbn. apply Z.land_nonneg. by right.
    + cbn [mbind res_bind]. exists l, d'. split; [done|]. split; [done|]. split; [lia|].
      eapply Forall_impl; [exact Hf|]. intros e He'. by rewrite <- (rehashed_entries _ _ _ Hr).
Qed.

End others.

Lemma dictRehashMilliseconds_ends_witness :
  exists d n d', run_ops Z.abs (example_grow ++ [(true, 2 ^ 27, OpAdd 4 4)]) dictCreate = Ok (replicate 5 (Done true), d) /\
    dictIsRehashing d = true /\ dictRehashMilliseconds Z.abs (fun _ => false) d = Ok (n, d') /\ dict_map d' = dict_map d /\ rehashidx d' = -1.
Proof.
  destruct (run_ops_spec Z.abs (example_grow ++ [(true, 2 ^ 27, OpAdd 4 4)]) dictCreate) as (d & E & Hd & _);
    [apply dictCreate_ok|vm_compute; reflexivity|repeat constructor|].
  destruct (dictRehashMilliseconds_ends Z.abs (fun _ => false) d Hd) as (n & d' & E' & _ & Hm & Hend).
  exists d, n, d'. split; [exact E|]. split; [vm_compute in E; injection E as <-; reflexivity|]. split; [exact E'|]. split; [exact Hm|].
  by apply Hend.
Defined.
