(* ===== verification/Scan.v ===== *)
(** * Reading the keyspace: SCAN and KEYS ([src/src/db.c])

    The commands that walk through a database.  The dictionary is that of [Dict], the
    walk that of [DictScan], the patterns are those of [Glob], and a key whose time has
    passed is treated as in [Keyspace]. *)

From S2P Require Import Prelude Util Sds VectorClock VcTheory VcText VcClaims Proxy CrdtServer Gc Objects Backlog Resp Glob Dict DictScan Keyspace.

(** What a command runs under: the parameters of [expireIfNeeded], and the clock at its n-th
    reading. *)

Record cmd_env := MkCmdEnv {
  ke_current : running;
  ke_loading : bool;
  ke_master : bool;
  ke_server : crdtServer;
  ke_delay : Z;
  ke_mk_ok : bool;
  ke_clock : nat -> Z
}.

(** ** The cursor *)

(** [strtoul(s, &end, 10)]: the value, [None] if it sets [ERANGE].  A sign is accepted. *)

Definition strtoul (s : bytes) : option Z :=
  let '(neg, t) := after_sign s in
  let v := digits_value 0 t in
  if v >? ULLONG_MAX then None else Some (to_ull (if (neg : bool) then - v else v)).

Definition parseScanCursorOrReply (o : bytes) : option Z :=
  let s := cstr o in
  if match s with c :: _ => isspace c | [] => false end then None else
  if negb (bool_decide (strtoll_end s = [])) then None else strtoul s.

(** ** The options *)

Definition err_invalid_cursor : bytes := str "-ERR invalid cursor" ++ CRLF.
Definition err_syntax : bytes := str "-ERR syntax error" ++ CRLF.
Definition err_no_integer : bytes := str "-ERR value is not an integer or out of range" ++ CRLF.

(** The count and the pattern, if there is one that does not match everything. *)

Fixpoint scan_options (args : list bytes) (count : Z) (pat : option bytes) : bytes + Z * option bytes :=
  match args with
  | [] => inr (count, pat)
  | a :: args =>
      match args with
      | [] => inl err_syntax
      | v :: args =>
          if strcaseeq (cstr a) (str "count") then
            match string2ll v with
            | None => inl err_no_integer
            | Some count => if count <? 1 then inl err_syntax else scan_options args count pat
            end
          else if strcaseeq (cstr a) (str "match") then
            scan_options args count (if bool_decide (v = str "*") then None else Some v)
          else inl err_syntax
      end
  end.

Section scan.

Context {object : Type} `{CrdtModule object} (env : cmd_env).

Implicit Types (db : redisDb object) (d : Dict.dict bytes (dbval object)) (key : bytes).

(** ** The walk *)

(** The [do] loop; [maxit] is [maxiterations], which is tested and then decremented. *)

Fixpoint scan_loop (maxit : nat) d (cursor count : Z) (keys : list bytes) : res (list bytes * Z) :=
  '(out, cursor) ← dictScan d cursor;
  let keys := keys ++ out.*1 in
  if cursor =? 0 then Ok (keys, cursor) else
  match maxit with
  | O => Ok (keys, cursor)
  | S maxit => if Z.of_nat (length keys) <? count then scan_loop maxit d cursor count keys else Ok (keys, cursor)
  end.

Definition expire_now (n : nat) db key : res (bool * redisDb object) :=
  expireIfNeeded (ke_current env) (ke_loading env) (ke_master env) (ke_server env) (ke_clock env n) (ke_delay env) (ke_mk_ok env) db key.

(** Keys that do not match, or that expired, are taken out. *)

Definition key_matches (pat : option bytes) key : res bool :=
  match pat with
  | None => Ok true
  | Some p => stringmatchlen p key false
  end.

Fixpoint filter_keys (n : nat) (pat : option bytes) (keys : list bytes) db : res (list bytes * redisDb object) :=
  match keys with
  | [] => Ok ([], db)
  | key :: keys =>
      b ← key_matches pat key;
      '(keep, db) ← (if (b : bool) then '(expired, db) ← expire_now n db key; Ok (negb (expired : bool), db) else Ok (false, db));
      '(rest, db) ← filter_keys (S n) pat keys db;
      Ok (if (keep : bool) then key :: rest else rest, db)
  end.

(** ** The commands *)

Inductive scan_result := ScanError (msg : bytes) | ScanReply (cursor : bytes) (keys : list bytes).

Definition scan_bytes (r : scan_result) : bytes :=
  match r with
  | ScanError msg => msg
  | ScanReply cursor keys => addReplyMultiBulkLen 2 ++ addReplyBulk cursor ++ addReplyMultiBulkLen (Z.of_nat (length keys)) ++ concat (map addReplyBulk keys)
  end.

(** With [o == NULL]: no other object is scanned by a command of the table.  The cursor is
    written as a [long long]. *)

Definition scanGenericCommand (args : list bytes) (cursor : Z) d db : res (scan_result * redisDb object) :=
  match scan_options args 10 None with
  | inl msg => Ok (ScanError msg, db)
  | inr (count, pat) =>
      if count * 10 >? LLONG_MAX then Undef else
      '(keys, cursor) ← scan_loop (Z.to_nat (count * 10)) d cursor count [];
      '(keys, db) ← filter_keys 0 pat keys db;
      Ok (ScanReply (print_Z (to_ll cursor)) keys, db)
  end.

Definition scanCommand (argv : list bytes) d db : res (scan_result * redisDb object) :=
  o ← need (argv !! 1%nat);
  match parseScanCursorOrReply o with
  | None => Ok (ScanError err_invalid_cursor, db)
  | Some cursor => scanGenericCommand (drop 2 argv) cursor d db
  end.

(** KEYS: the iterator is a safe one, so an entry that was returned may be deleted before
    the next is asked for. *)

Definition keysCommand (argv : list bytes) d db : res (bytes * redisDb object) :=
  pattern ← need (argv !! 1%nat);
  let pat := if bool_decide (take 2 (pattern ++ [0]) = [42; 0]) then None else Some pattern in
  entries ← iterate (S (length (dict_entries d))) d dictGetIterator;
  '(keys, db) ← filter_keys 0 pat entries.*1 db;
  Ok (addReplyMultiBulkLen (Z.of_nat (length keys)) ++ concat (map addReplyBulk keys), db).

End scan.

(** ** The cursor comes back as it was given *)

Lemma print_Z_no_space z : match print_Z z with c :: _ => isspace c | [] => false end = false.
Proof.
  destruct (dec_head (Z.abs z) ltac:(lia)) as (c & t & E & H0 & H1).
  assert (48 <= c <= 57) by (destruct (Z.eq_dec z 0) as [->|]; [destruct (H0 eq_refl); lia|specialize (H1 ltac:(lia)); lia]).
  unfold print_Z. destruct (Z.ltb_spec z 0); [done|]. rewrite <- (Z.abs_eq z), E by lia. unfold isspace. lia.
Qed.

Lemma cursor_roundtrip v : 0 <= v < 2 ^ 64 -> parseScanCursorOrReply (print_Z (to_ll v)) = Some v.
Proof.
  intros Hv. set (z := to_ll v). assert (- 2 ^ 63 <= z < 2 ^ 63) as Hz by (apply (swrap_range 64); lia).
  unfold parseScanCursorOrReply. rewrite cstr_id by apply print_Z_no_nul. rewrite print_Z_no_space.
  destruct (print_Z_reads z) as [_ ->]; [unfold LLONG_MIN, LLONG_MAX; lia|]. rewrite bool_decide_true by done. cbn [negb]. unfold strtoul.
  destruct (print_Z_parts z) as (c & t & -> & Ed & _). rewrite <- Ed. destruct (digits_value_all 0 _ (dec_digits (Z.abs z) ltac:(lia))) as [-> _].
  rewrite num_of_dec by lia. unfold ULLONG_MAX. rewrite Z.gtb_ltb, (proj2 (Z.ltb_ge _ _)) by lia. f_equal.
  replace (if z <? 0 then - Z.abs z else Z.abs z) with z by (destruct (Z.ltb_spec z 0); lia).
  unfold z, to_ll, to_ull, uwrap, swrap. rewrite Zminus_mod_idemp_l. replace (v + 2 ^ (64 - 1) - 2 ^ (64 - 1)) with v by lia. apply Z.mod_small. lia.
Qed.

(** ** The walk and the filter *)

Section walk.

Context {object : Type} `{CrdtModule object} (hash : bytes -> Z).

Implicit Types (db : redisDb object) (d : Dict.dict bytes (dbval object)) (key : bytes).

Lemma scan_calls_app (ds1 ds2 : list (Dict.dict bytes (dbval object))) v :
  scan_calls (ds1 ++ ds2) v = ('(o1, v) ← scan_calls ds1 v; '(o2, v) ← scan_calls ds2 v; Ok (o1 ++ o2, v)).
Proof.
  revert v. induction ds1 as [|d ds1 IH]; intros v; cbn [app scan_calls].
  - cbn [mbind res_bind]. destruct (scan_calls ds2 v) as [[o w]| |]; done.
  - destruct (dictScan d v) as [[o w]| |]; cbn [mbind res_bind]; [|done|done]. rewrite IH.
    destruct (scan_calls ds1 w) as [[o1 w1]| |]; cbn [mbind res_bind]; [|done|done].
    destruct (scan_calls ds2 w1) as [[o2 w2]| |]; cbn [mbind res_bind]; [|done|done]. by rewrite app_assoc.
Qed.

(** One call of the walk, on any dictionary. *)

Lemma scan_one d v :
  dict_ok hash d -> 0 <= v < 2 ^ 64 ->
  exists out v', dictScan d v = Ok (out, v') /\ 0 <= v' < 2 ^ 64 /\ forall k, k ∈ out.*1 -> k ∈ (dict_entries d).*1.
Proof.
  intros Hok Hv. destruct (decide (dict_entries d = [])) as [He|He].
  - exists [], 0. unfold dictScan. rewrite (dictSize_zero hash), bool_decide_true by done. split; [done|]. split; [lia|]. by intros k Hk%not_elem_of_nil.
  - destruct (dictScan_spec hash d v Hok He Hv) as (out & v' & k & -> & [_ Hk Hr _ Hs _]). exists out, v'. split; [done|].
    split; [pose proof (Z.pow_le_mono_r 2 k 64 ltac:(lia) ltac:(lia)); lia|]. intros x Hx. apply list_elem_of_fmap in Hx as (e & -> & Hx). apply list_elem_of_fmap_2. by apply Hs.
Qed.

(** The loop of a command makes [n] calls, and stops at the first cursor 0. *)

Lemma scan_loop_spec maxit d : forall v count keys,
  dict_ok hash d -> 0 <= v < 2 ^ 64 ->
  exists n out v', (0 < n)%nat /\ scan_loop maxit d v count keys = Ok (keys ++ out.*1, v') /\ scan_calls (replicate n d) v = Ok (out, v') /\ 0 <= v' < 2 ^ 64 /\
    (forall k, k ∈ out.*1 -> k ∈ (dict_entries d).*1) /\
    forall i o w, (0 < i < n)%nat -> scan_calls (replicate i d) v = Ok (o, w) -> w <> 0.
Proof.
  induction maxit as [|maxit IH]; intros v count keys Hok Hv; cbn [scan_loop]; destruct (scan_one d v Hok Hv) as (out & v1 & E1 & Hv1 & Hs); rewrite E1; cbn [mbind res_bind].
  - exists 1%nat, out, v1. split; [lia|]. split; [by destruct (v1 =? 0)|]. split; [cbn; rewrite E1; cbn; by rewrite app_nil_r|]. split; [done|]. split; [done|]. intros i o w Hi. lia.
  - assert (scan_calls (replicate 1 d) v = Ok (out, v1)) as Ec by (cbn; rewrite E1; cbn; by rewrite app_nil_r).
    destruct (Z.eqb_spec v1 0) as [Hz|Hz]; [|destruct (Z.ltb_spec (Z.of_nat (length (keys ++ out.*1))) count)].
    1, 3: exists 1%nat, out, v1; split; [lia|]; split; [done|]; split; [done|]; split; [done|]; split; [done|]; intros i o w Hi; lia.
    destruct (IH v1 count (keys ++ out.*1) Hok Hv1) as (n & out2 & v' & Hn & -> & E2 & Hv' & Hs2 & Hnz). exists (S n), (out ++ out2), v'. split; [lia|].
    split; [by rewrite fmap_app, app_assoc|]. split; [cbn [replicate scan_calls]; rewrite E1; cbn [mbind res_bind]; by rewrite E2|]. split; [done|].
    split; [intros k; rewrite fmap_app, elem_of_app; intros [Hk|Hk]; auto|].
    intros [|i] o w Hi Ew; [lia|]. cbn [replicate scan_calls] in Ew. rewrite E1 in Ew. cbn [mbind res_bind] in Ew. destruct (scan_calls (replicate i d) v1) as [[o2 w2]| |] eqn:Ei; [|done|done].
    injection Ew as <- <-. destruct i as [|i]; [by injection Ei as <- <-|]. apply (Hnz (S i) o2); [lia|done].
Qed.

Definition pat_matches (pat : option bytes) key : bool :=
  match pat with
  | None => true
  | Some p => denote false (parse p) key
  end.

Definition pat_ok (pat : option bytes) : Prop := match pat with None => True | Some p => nul_first false p = false end.

Lemma key_matches_spec pat key : pat_ok pat -> key_matches pat key = Ok (pat_matches pat key).
Proof. destruct pat as [p|]; [|done]. intros Hp. apply stringmatchlen_spec. by right. Qed.

(** The time of the key has not passed at any reading of the clock. *)

Definition lasting (env : cmd_env) db key : Prop := forall n, due (ke_loading env) (ke_clock env n) db key = false.

Lemma expire_now_spec (env : cmd_env) n db key :
  db_ok db -> (forall k, methods_ok db k) ->
  exists b db', expire_now env n db key = Ok (b, db') /\ db_ok db' /\ (forall k, methods_ok db' k) /\ (forall k, lasting env db k -> lasting env db' k) /\ (lasting env db key -> b = false).
Proof.
  intros Hok Hm. unfold expire_now. destruct (expireIfNeeded_spec (ke_current env) (ke_loading env) (ke_master env) (ke_server env) (ke_clock env n) (ke_delay env) (ke_mk_ok env) db key Hok (Hm key))
    as (b & db' & -> & Hok' & Hothers & Hb). exists b, db'. split; [done|]. split; [done|]. set (go := _ && _) in Hb.
  assert (lasting env db key -> go = false) as Hgo by (intros Hl; unfold go; by rewrite (Hl n)). split; [|split].
  - intros k val obj Hv Ho. destruct (decide (k = key)) as [-> |Hk].
    + destruct go; [destruct Hb as (_ & Hd & _); congruence|]. destruct Hb as [_ ->]. by apply (Hm key val).
    + apply (Hm k val); [|done]. by rewrite <- (proj1 (Hothers k Hk)).
  - intros k Hl. destruct (decide (k = key)) as [-> |Hk].
    + rewrite (Hgo Hl) in Hb. by destruct Hb as [_ ->].
    + intros m. unfold due. rewrite (proj2 (Hothers k Hk)). apply Hl.
  - intros Hl. rewrite (Hgo Hl) in Hb. destruct Hb as [-> _]. by rewrite (Hl n).
Qed.

Lemma filter_keys_spec (env : cmd_env) pat keys : forall n db,
  db_ok db -> (forall k, methods_ok db k) -> pat_ok pat ->
  exists kept db', filter_keys env n pat keys db = Ok (kept, db') /\ db_ok db' /\ (forall k, k ∈ kept -> k ∈ keys /\ pat_matches pat k = true) /\
    (forall k, k ∈ keys -> pat_matches pat k = true -> lasting env db k -> k ∈ kept).
Proof.
  induction keys as [|key keys IH]; intros n db Hok Hm Hp; cbn [filter_keys].
  - exists [], db. split; [done|]. split; [done|]. split; intros k Hk; by apply not_elem_of_nil in Hk.
  - rewrite key_matches_spec by done. cbn [mbind res_bind]. destruct (pat_matches pat key) eqn:Em.
    + destruct (expire_now_spec env n db key Hok Hm) as (b & db1 & -> & Hok1 & Hm1 & Hl1 & Hb). cbn [mbind res_bind].
      destruct (IH (S n) db1 Hok1 Hm1 Hp) as (kept & db' & -> & Hok' & Hsound & Hall). cbn [mbind res_bind]. eexists _, db'. split; [reflexivity|]. split; [done|].
      split; [intros k Hk|intros k Hk Hmk Hlk].
      * destruct b; cbn [negb] in Hk; [destruct (Hsound k Hk); split; [by right|done]|]. apply elem_of_cons in Hk as [-> |Hk]; [split; [by left|done]|]. destruct (Hsound k Hk). split; [by right|done].
      * apply elem_of_cons in Hk as [-> |Hk]; [rewrite (Hb Hlk); by left|]. specialize (Hall k Hk Hmk (Hl1 k Hlk)). destruct b; [done|by right].
    + cbn [mbind res_bind]. destruct (IH (S n) db Hok Hm Hp) as (kept & db' & -> & Hok' & Hsound & Hall). cbn [mbind res_bind]. exists kept, db'. split; [done|]. split; [done|].
      split; [intros k Hk; destruct (Hsound k Hk); split; [by right|done]|]. intros k Hk Hmk Hlk. apply elem_of_cons in Hk as [-> |Hk]; [congruence|]. by apply Hall.
Qed.

(** ** A client that scans *)

(** A call: the state of the database at that time, as the table that is walked and as the
    keys with their values and times, what it runs under, and the count asked for. *)

Record scan_call := MkCall { sc_dict : Dict.dict bytes (dbval object); sc_db : redisDb object; sc_env : cmd_env; sc_count : Z }.

Definition scan_request (pat : bytes) (cursor : bytes) (count : Z) : list bytes :=
  [str "SCAN"; cursor; str "COUNT"; print_Z count; str "MATCH"; pat].

(** The keys of all the replies, and the last cursor. *)

Fixpoint client_scan (pat : bytes) (calls : list scan_call) (cursor : bytes) : res (list bytes * bytes) :=
  match calls with
  | [] => Ok ([], cursor)
  | c :: calls =>
      '(r, _) ← scanCommand (sc_env c) (scan_request pat cursor (sc_count c)) (sc_dict c) (sc_db c);
      match r with
      | ScanError _ => Undef
      | ScanReply cursor keys =>
          '(rest, cursor) ← client_scan pat calls cursor;
          Ok (keys ++ rest, cursor)
      end
  end.

Record call_ok (c : scan_call) : Prop := {
  ck_dict : dict_ok hash (sc_dict c);
  ck_same : dict (sc_db c) = list_to_map (dict_entries (sc_dict c));
  ck_db : db_ok (sc_db c) /\ forall k, methods_ok (sc_db c) k;
  ck_count : 1 <= sc_count c /\ sc_count c * 10 <= LLONG_MAX
}.

Lemma call_keys c key : call_ok c -> key ∈ (dict_entries (sc_dict c)).*1 <-> is_Some (dict (sc_db c) !! key).
Proof.
  intros Hc. rewrite (ck_same c Hc). split; [intros Hk|].
  - destruct (list_to_map (dict_entries (sc_dict c)) !! key) eqn:E; [by eexists|]. by apply not_elem_of_list_to_map in E.
  - intros [v Hv]. apply elem_of_list_to_map_2 in Hv. by apply (list_elem_of_fmap_2 fst) in Hv.
Qed.

Definition pattern_matches (pat : bytes) key : bool := denote false (parse pat) key.

Lemma star_matches key : pattern_matches (str "*") key = true.
Proof. unfold pattern_matches. change (parse (str "*")) with [Star]. induction key as [|c key IH]; [done|]. cbn. exact IH. Qed.

Lemma request_options pat count :
  1 <= count -> count <= LLONG_MAX ->
  scan_options [str "COUNT"; print_Z count; str "MATCH"; pat] 10 None = inr (count, if bool_decide (pat = str "*") then None else Some pat).
Proof.
  intros H1 H2. cbn [scan_options]. change (strcaseeq (cstr (str "COUNT")) (str "count")) with true. cbv iota.
  rewrite string2ll_print by (unfold LLONG_MIN; lia). rewrite (proj2 (Z.ltb_ge count 1)) by lia. done.
Qed.

Lemma scan_command_spec c pat v :
  call_ok c -> nul_first false pat = false -> 0 <= v < 2 ^ 64 ->
  exists n out v' keys db', (0 < n)%nat /\
    scanCommand (sc_env c) (scan_request pat (print_Z (to_ll v)) (sc_count c)) (sc_dict c) (sc_db c) = Ok (ScanReply (print_Z (to_ll v')) keys, db') /\
    scan_calls (replicate n (sc_dict c)) v = Ok (out, v') /\ 0 <= v' < 2 ^ 64 /\
    (forall k, k ∈ keys -> pattern_matches pat k = true /\ k ∈ (dict_entries (sc_dict c)).*1) /\
    (forall k, k ∈ out.*1 -> pattern_matches pat k = true -> lasting (sc_env c) (sc_db c) k -> k ∈ keys) /\
    forall i o w, (0 < i < n)%nat -> scan_calls (replicate i (sc_dict c)) v = Ok (o, w) -> w <> 0.
Proof.
  intros [Hd _ [Hok Hm] [Hc1 Hc2]] Hp Hv. unfold scanCommand, scan_request. cbn [lookup list_lookup need mbind res_bind]. rewrite cursor_roundtrip by done.
  unfold scanGenericCommand. cbn [drop]. rewrite request_options by lia. rewrite Z.gtb_ltb, (proj2 (Z.ltb_ge _ _)) by lia.
  destruct (scan_loop_spec (Z.to_nat (sc_count c * 10)) (sc_dict c) v (sc_count c) [] Hd Hv) as (n & out & v' & Hn & -> & Ec & Hv' & Hs & Hnz). cbn [mbind res_bind app].
  set (p := if bool_decide (pat = str "*") then None else Some pat).
  assert (pat_ok p /\ forall k, pat_matches p k = pattern_matches pat k) as [Hpok Hpm].
  { unfold p. case_bool_decide as E; [split; [done|]|done]. intros k. rewrite E. by rewrite star_matches. }
  destruct (filter_keys_spec (sc_env c) p out.*1 0 (sc_db c) Hok Hm Hpok) as (keys & db' & -> & _ & Hsound & Hall). cbn [mbind res_bind].
  exists n, out, v', keys, db'. split; [done|]. split; [done|]. split; [done|]. split; [done|]. split; [|split; [|done]].
  - intros k Hk. destruct (Hsound k Hk) as [H1 H2]. split; [by rewrite <- Hpm|by apply Hs].
  - intros k Hk Hmk Hl. apply Hall; [done|by rewrite Hpm|done].
Qed.

(** All the calls of the walk that the commands made: [ns] counts those of each. *)

Definition all_walks (ns : list nat) (calls : list scan_call) : list (Dict.dict bytes (dbval object)) :=
  concat (zip_with (fun n c => replicate n (sc_dict c)) ns calls).

Lemma all_walks_Forall (P : Dict.dict bytes (dbval object) -> Prop) ns calls : Forall (fun c => P (sc_dict c)) calls -> Forall P (all_walks ns calls).
Proof.
  intros Hc. revert ns. induction Hc as [|c calls Hc Hcs IH]; intros [|n ns]; [constructor..|]. unfold all_walks. cbn [zip_with concat].
  apply Forall_app. split; [by apply Forall_replicate|apply IH].
Qed.

Lemma steady_replicate n d ds size :
  (dictIsRehashing d = true -> size <= small_size d) -> scan_steady (small_size d) ds -> (0 < n)%nat -> scan_steady size (replicate n d ++ ds).
Proof.
  intros Hs Hds Hn. destruct n as [|n]; [lia|]. cbn [replicate app scan_steady]. split; [done|]. clear Hn. induction n as [|n IH]; [done|].
  cbn [replicate app scan_steady]. split; [done|exact IH].
Qed.

Lemma all_walks_steady calls : forall ns size,
  Forall (fun n => (0 < n)%nat) ns -> length ns = length calls -> scan_steady size (map sc_dict calls) -> scan_steady size (all_walks ns calls).
Proof.
  induction calls as [|c calls IH]; intros [|n ns] size Hns Hl Hs; [done..|]. apply Forall_cons in Hns as [Hn Hns]. destruct Hs as [Hs1 Hs2]. injection Hl as Hl.
  unfold all_walks. cbn [zip_with concat]. apply steady_replicate; [done|by apply IH|done].
Qed.

Lemma client_scan_spec pat calls : forall v,
  Forall call_ok calls -> nul_first false pat = false -> 0 <= v < 2 ^ 64 ->
  exists ns out keys v', client_scan pat calls (print_Z (to_ll v)) = Ok (keys, print_Z (to_ll v')) /\ 0 <= v' < 2 ^ 64 /\
    length ns = length calls /\ Forall (fun n => (0 < n)%nat) ns /\ scan_calls (all_walks ns calls) v = Ok (out, v') /\
    (forall k, k ∈ keys -> pattern_matches pat k = true /\ Exists (fun c => k ∈ (dict_entries (sc_dict c)).*1) calls) /\
    (forall k, k ∈ out.*1 -> pattern_matches pat k = true -> Forall (fun c => lasting (sc_env c) (sc_db c) k) calls -> k ∈ keys).
Proof.
  induction calls as [|c calls IH]; intros v Hc Hp Hv; cbn [client_scan].
  { exists [], [], [], v. split; [done|]. split; [done|]. split; [done|]. split; [constructor|]. split; [done|]. split; intros k Hk; by apply not_elem_of_nil in Hk. }
  apply Forall_cons in Hc as [Hc Hcs]. destruct (scan_command_spec c pat v Hc Hp Hv) as (n & out1 & v1 & keys1 & db' & Hn & -> & E1 & Hv1 & Hs1 & Ha1 & _). cbn [mbind res_bind].
  destruct (IH v1 Hcs Hp Hv1) as (ns & out2 & keys2 & v' & -> & Hv' & Hl & Hns & E2 & Hs2 & Ha2). cbn [mbind res_bind].
  exists (n :: ns), (out1 ++ out2), (keys1 ++ keys2), v'. split; [done|]. split; [done|]. split; [simpl; lia|]. split; [by constructor|].
  split; [unfold all_walks in *; cbn [zip_with concat]; rewrite scan_calls_app, E1; cbn [mbind res_bind]; by rewrite E2|]. split.
  - intros k [Hk|Hk]%elem_of_app; [destruct (Hs1 k Hk); split; [done|by left]|]. destruct (Hs2 k Hk). split; [done|by right].
  - intros k Hk Hmk Hl2. apply Forall_cons in Hl2 as [Hl1 Hl2]. rewrite fmap_app, elem_of_app in Hk. apply elem_of_app. destruct Hk as [Hk|Hk]; [left; by apply Ha1|right; by apply Ha2].
Qed.

Lemma cursor_zero v : 0 <= v < 2 ^ 64 -> print_Z (to_ll v) = str "0" -> v = 0.
Proof. intros Hv E. pose proof (cursor_roundtrip v Hv) as E2. rewrite E in E2. by injection E2. Qed.

(** On a database that does not change, as many commands as the walk needs calls. *)

Lemma client_scan_ends pat c : forall m v out,
  call_ok c -> nul_first false pat = false -> 0 <= v < 2 ^ 64 -> (0 < m)%nat -> scan_calls (replicate m (sc_dict c)) v = Ok (out, 0) ->
  exists n keys, (0 < n <= m)%nat /\ client_scan pat (replicate n c) (print_Z (to_ll v)) = Ok (keys, str "0").
Proof.
  induction m as [m IH] using lt_wf_ind. intros v out Hc Hp Hv Hm E.
  destruct (scan_command_spec c pat v Hc Hp Hv) as (n & out1 & v1 & keys1 & db' & Hn & E1 & Ew & Hv1 & _ & _ & Hnz).
  assert (n <= m)%nat as Hnm. { destruct (decide (n <= m)%nat); [done|]. exfalso. apply (Hnz m out 0); [lia|done|done]. }
  destruct (Z.eq_dec v1 0) as [-> |Hv0].
  - exists 1%nat, keys1. split; [lia|]. cbn [replicate client_scan]. rewrite E1. cbn [mbind res_bind]. by rewrite app_nil_r.
  - assert (replicate m (sc_dict c) = replicate n (sc_dict c) ++ replicate (m - n) (sc_dict c)) as Er by (rewrite <- replicate_add; f_equal; lia).
    rewrite Er, scan_calls_app, Ew in E. cbn [mbind res_bind] in E. destruct (scan_calls (replicate (m - n) (sc_dict c)) v1) as [[o2 w2]| |] eqn:E2; [|done|done].
    injection E as _ ->. destruct (decide (m - n = 0)%nat) as [Hz|Hz]; [rewrite Hz in E2; by injection E2|].
    destruct (IH (m - n)%nat ltac:(lia) v1 o2 Hc Hp Hv1) as (n2 & keys2 & Hn2 & E3); [lia|done|].
    exists (S n2), (keys1 ++ keys2). split; [lia|]. cbn [replicate client_scan]. rewrite E1. cbn [mbind res_bind]. by rewrite E3.
Qed.

End walk.

(** ** Claim *)

(** C26: SCAN reports every key.  A client begins with the cursor 0 and gives the cursor of
    each reply to the next call, with a COUNT of at least 1 and at most a tenth of the
    greatest number, and any pattern that does not begin with a NUL or with a set that
    contains it; between the calls the database may change.  No call fails.  When the cursor of a reply is 0 again, every key
    that was in the database at all the calls, matches the pattern and did not expire was in
    one of the replies, provided that no call found the smaller table of a rehash smaller
    than at the call before: when the table shrinks during the scan keys can be missed
    ([dictScan_shrink_misses]).  A key that is reported matches the pattern and was in the
    database.  On a database that does not change the cursor is 0 after at most as many calls
    as there are buckets. *)
Theorem scan_reports_all {object : Type} `{CrdtModule object} (hash : bytes -> Z) (pat : bytes) (calls : list scan_call)
    (Hok : Forall (call_ok hash) calls) (Hnul : nul_first false pat = false) (Hst : scan_steady 1 (map sc_dict calls)) :
  exists keys cursor, client_scan pat calls (str "0") = Ok (keys, cursor) /\
    (forall key, calls <> [] -> cursor = str "0" -> pattern_matches pat key = true ->
       Forall (fun c => is_Some (dict (sc_db c) !! key) /\ lasting (sc_env c) (sc_db c) key) calls -> key ∈ keys) /\
    (forall key, key ∈ keys -> pattern_matches pat key = true /\ Exists (fun c => is_Some (dict (sc_db c) !! key)) calls) /\
    (forall c, c ∈ calls -> exists n keys, (0 < n)%nat /\ Z.of_nat n <= Z.max 1 (small_size (sc_dict c)) /\
       client_scan pat (replicate n c) (str "0") = Ok (keys, str "0")).
Proof.
  destruct (client_scan_spec hash pat calls 0 Hok Hnul) as (ns & out & keys & v' & E & Hv' & Hl & Hns & Ew & Hsound & Hall); [lia|].
  rewrite Forall_forall in Hok.
  exists keys, (print_Z (to_ll v')). split; [exact E|]. split; [|split].
  - intros key Hne Hz Hm Hf. apply (cursor_zero v' Hv') in Hz. apply Forall_and in Hf as [Hin Hlast]. apply Hall; [|done|done].
    destruct (scan_calls_spec hash key (all_walks ns calls) 0 1) as (out2 & v2 & E2 & _ & Hk).
    + apply all_walks_Forall, Forall_forall. intros c Hc. apply (ck_dict _ _ (Hok c Hc)).
    + apply all_walks_Forall, Forall_forall. intros c Hc. rewrite (call_keys hash c key (Hok c Hc)). by eapply Forall_forall in Hin.
    + lia.
    + lia.
    + by apply all_walks_steady.
    + rewrite Ew in E2. injection E2 as <- <-. apply Hk; [|change (rev 0) with 0; apply rev_range|by right].
      destruct calls as [|c calls]; [done|]. destruct ns as [|n ns]; [done|]. apply Forall_cons in Hns as [Hn _]. destruct n as [|n]; [lia|done].
  - intros key Hkey. destruct (Hsound key Hkey) as [Hm Hex]. split; [done|]. apply Exists_exists in Hex as (c & Hc & Hin).
    apply Exists_exists. exists c. split; [done|]. by apply (call_keys hash c key (Hok c Hc)).
  - intros c Hc. assert (call_ok hash c) as Hck by (by apply Hok). destruct (scan_same_ends hash (sc_dict c) (ck_dict _ _ Hck)) as (m & o & Hm & Hsz & Em).
    destruct (client_scan_ends hash pat c m 0 o Hck Hnul ltac:(lia) Hm Em) as (n & k & Hn & En). exists n, k. split; [lia|]. split; [lia|exact En].
Qed.

(** KEYS reports exactly the keys that match, but for those that expired. *)

Lemma keys_reports {object : Type} `{CrdtModule object} (hash : bytes -> Z) (env : cmd_env) (pat : bytes) (d : Dict.dict bytes (dbval object)) (db : redisDb object) :
  dict_ok hash d -> db_ok db -> (forall k, methods_ok db k) -> nul_first false pat = false -> (0 ∉ pat) ->
  exists keys db', keysCommand env [str "KEYS"; pat] d db = Ok (addReplyMultiBulkLen (Z.of_nat (length keys)) ++ concat (map addReplyBulk keys), db') /\ db_ok db' /\
    (forall k, k ∈ keys -> k ∈ (dict_entries d).*1 /\ pattern_matches pat k = true) /\
    (forall k, k ∈ (dict_entries d).*1 -> pattern_matches pat k = true -> lasting env db k -> k ∈ keys).
Proof.
  intros Hd Hok Hm Hp Hz. unfold keysCommand. cbn [lookup list_lookup need mbind res_bind]. rewrite (dictNext_all hash) by (done || lia). cbn [mbind res_bind].
  set (p := if bool_decide _ then None else Some pat).
  assert (pat_ok p /\ forall k, pat_matches p k = pattern_matches pat k) as [Hpok Hpm].
  { unfold p. case_bool_decide as E; [split; [done|]|done]. assert (pat = str "*") as ->; [|intros k; by rewrite star_matches].
    destruct pat as [|a [|b pat]]; [done| |]; simpl in E; [by injection E as ->|]. injection E as -> ->. exfalso. apply Hz. by do 2 constructor. }
  destruct (filter_keys_spec env p (dict_entries d).*1 0 db Hok Hm Hpok) as (keys & db' & -> & Hok' & Hs & Ha). cbn [mbind res_bind].
  exists keys, db'. split; [done|]. split; [done|]. split; [intros k Hk; destruct (Hs k Hk); by rewrite <- Hpm|]. intros k Hk Hmk. apply Ha; [done|by rewrite Hpm].
Qed.

(** The number of rounds overflows for a count above a tenth of the greatest number. *)

Lemma scan_count_overflow {object : Type} `{CrdtModule object} env d db :
  scanCommand env [str "SCAN"; str "0"; str "COUNT"; str "9223372036854775807"] d db = Undef.
Proof. reflexivity. Qed.

(** Five keys, of which two match; one of them has an expire time that has not come. *)

Definition example_hash (key : bytes) : Z := foldl Z.add 0 key.

Definition example_keys : list bytes := [str "a1"; str "a2"; str "b"; str "c"; str "d"].

Definition example_table : res (Dict.dict bytes (dbval Z)) :=
  '(_, d) ← run_ops example_hash (map (fun k => (true, 2 ^ 27, OpAdd k (number 7))) example_keys) dictCreate; Ok d.

Definition example_scanned_db : redisDb Z := MkDb (list_to_map (map (fun k => (k, number 7)) example_keys)) {[ str "a2" := 5000 ]} ∅.

Definition example_cmd_env : cmd_env := MkCmdEnv OtherClient false true example_server 0 true (fun n => 4000 + Z.of_nat n mod 10).

Lemma scan_reports_all_witness :
  exists d keys, example_table = Ok d /\
    @client_scan Z number_module (str "a*") [MkCall d example_scanned_db example_cmd_env 2; MkCall d example_scanned_db example_cmd_env 10] (str "0") = Ok (keys, str "0") /\
    str "a2" ∈ keys /\ (forall key, key ∈ keys -> pattern_matches (str "a*") key = true).
Proof.
  destruct (run_ops_spec example_hash (map (fun k => (true, 2 ^ 27, OpAdd k (number 7))) example_keys) dictCreate) as (d & E & Hd & Hm);
    [apply dictCreate_ok|vm_compute; reflexivity|repeat constructor|].
  set (c n := MkCall d example_scanned_db example_cmd_env n).
  assert (forall n, 1 <= n -> n * 10 <= LLONG_MAX -> @call_ok Z number_module example_hash (c n)) as Hc.
  { intros n H1 H2. split; [exact Hd|vm_compute in E; injection E as <-; vm_compute; reflexivity|split; [unfold db_ok; decide_now|intros k val obj _ _; by eexists _, _]|done]. }
  assert (1 <= small_size d) as Hsz by (vm_compute in E; injection E as <-; by vm_compute).
  assert (forall n, 1 <= n -> n * 10 <= LLONG_MAX -> is_Some (dict (sc_db (c n)) !! str "a2") /\ lasting (sc_env (c n)) (sc_db (c n)) (str "a2")) as Hk.
  { intros n _ _. split; [by eexists|]. intros i. unfold due. cbn [c sc_env sc_db example_cmd_env ke_loading ke_clock]. change (expires example_scanned_db !! str "a2") with (Some 5000).
    cbv iota. pose proof (Z.mod_pos_bound (Z.of_nat i) 10 ltac:(lia)). rewrite (proj2 (Z.ltb_ge _ _)) by lia. by rewrite andb_false_r. }
  destruct (@scan_reports_all Z number_module example_hash (str "a*") [c 2; c 10]) as (keys & cursor & Es & Hall & Hsound & _).
  - do 2 (apply Forall_cons_2; [apply Hc; unfold LLONG_MAX; lia|]). apply Forall_nil_2.
  - reflexivity.
  - cbn [map scan_steady c sc_dict]. repeat split; intros; lia.
  - assert (cursor = str "0") as -> by (vm_compute in E; injection E as <-; vm_compute in Es; by injection Es).
    exists d, keys. split; [unfold example_table; rewrite E; reflexivity|]. split; [exact Es|]. split; [|intros key Hkey; by apply Hsound].
    apply Hall; [done|done|reflexivity|]. do 2 (apply Forall_cons_2; [apply Hk; unfold LLONG_MAX; lia|]). apply Forall_nil_2.
Defined.
