(* ===== verification/KeyCommands.v ===== *)
(** * The commands on single keys ([src/src/db.c], [src/src/expire.c])

    EXISTS, TTL, TYPE, RENAME and their relatives, on the keyspace of [Keyspace].  A key whose
    time has passed is treated as in [Keyspace] before it is looked at. *)

From S2P Require Import Prelude Util Sds VectorClock VcTheory VcText VcClaims Proxy CrdtServer Gc Objects Backlog Resp Glob Dict DictScan Keyspace Scan.

Definition reply_ok : bytes := str "+OK" ++ CRLF.
Definition reply_zero : bytes := str ":0" ++ CRLF.
Definition reply_one : bytes := str ":1" ++ CRLF.
Definition err_nokey : bytes := str "-ERR no such key" ++ CRLF.

(** The codes of the types that are kept as [OtherValue]. *)

Definition type_name {object : Type} (o : dbval object) : bytes :=
  match o with
  | ModuleValue mt _ => cstr (mt_name mt)
  | StringValue _ => str "string"
  | OtherValue t => if t =? 0 then str "string" else if t =? 1 then str "list" else if t =? 2 then str "set" else if t =? 3 then str "zset" else if t =? 4 then str "hash" else str "unknown"
  end.

(** What a command that writes leaves: its reply, the database, the keys that were signalled
    as modified, the events, and what it adds to [server.dirty].  [kr_propagated] is the
    command that replaces it for the slaves. *)

Record key_result (object : Type) := MkKeyResult {
  kr_reply : bytes;
  kr_db : redisDb object;
  kr_modified : list bytes;
  kr_events : list (bytes * bytes);
  kr_dirty : Z;
  kr_propagated : option (list bytes)
}.
Arguments MkKeyResult {object} _ _ _ _ _ _.
Arguments kr_reply {object} _.
Arguments kr_db {object} _.
Arguments kr_modified {object} _.
Arguments kr_events {object} _.
Arguments kr_dirty {object} _.
Arguments kr_propagated {object} _.

Definition unchanged {object : Type} (reply : bytes) (db : redisDb object) : key_result object := MkKeyResult reply db [] [] 0 None.

Section commands.

Context {object : Type} `{CrdtModule object} (env : cmd_env).

Implicit Types (db : redisDb object) (key : bytes).

(** The [n]-th reading of the clock is that of this lookup. *)

Definition read_key (ro : bool) (n : nat) db key : res (option (dbval object) * redisDb object) :=
  lookupKeyRead ro (ke_current env) (ke_loading env) (ke_master env) (ke_server env) (ke_clock env n) (ke_delay env) (ke_mk_ok env) db key.

Definition write_key (n : nat) db key : res (option (dbval object) * redisDb object) :=
  lookupKeyWrite (ke_current env) (ke_loading env) (ke_master env) (ke_server env) (ke_clock env n) (ke_delay env) (ke_mk_ok env) db key.

(** ** Commands that read: they are read-only commands, so [ro] tells that the client is not
    the master *)

Fixpoint count_keys (ro : bool) (n : nat) (count : Z) db (keys : list bytes) : res (Z * redisDb object) :=
  match keys with
  | [] => Ok (count, db)
  | key :: keys =>
      '(o, db) ← read_key ro n db key;
      count_keys ro (S n) (match o with Some _ => count + 1 | None => count end) db keys
  end.

Definition existsCommand (ro : bool) (argv : list bytes) db : res (bytes * redisDb object) :=
  '(count, db) ← count_keys ro 0 0 db (drop 1 argv);
  Ok (addReplyLongLong count, db).

(** [touched] is an [int]. *)

Definition touchCommand (ro : bool) (argv : list bytes) db : res (bytes * redisDb object) :=
  '(touched, db) ← count_keys ro 0 0 db (drop 1 argv);
  if touched >? 2 ^ 31 - 1 then Undef else Ok (addReplyLongLong touched, db).

Definition typeCommand (ro : bool) (argv : list bytes) db : res (bytes * redisDb object) :=
  key ← need (argv !! 1%nat);
  '(o, db) ← read_key ro 0 db key;
  Ok (str "+" ++ (match o with Some o => type_name o | None => str "none" end) ++ CRLF, db).

(** The difference of the two times is a [long long], and so is what is rounded. *)

Definition ttlGenericCommand (ro output_ms : bool) (argv : list bytes) db : res (bytes * redisDb object) :=
  key ← need (argv !! 1%nat);
  '(o, db) ← read_key ro 0 db key;
  match o : option (dbval object) with
  | None => Ok (addReplyLongLong (-2), db)
  | Some _ =>
      expire ← getExpire db key;
      if expire =? -1 then Ok (addReplyLongLong (-1), db) else
      let ttl := expire - ke_clock env 1 in
      if negb ((LLONG_MIN <=? ttl) && (ttl <=? LLONG_MAX)) then Undef else
      let ttl := if ttl <? 0 then 0 else ttl in
      if (output_ms : bool) then Ok (addReplyLongLong ttl, db) else
      if ttl + 500 >? LLONG_MAX then Undef else Ok (addReplyLongLong ((ttl + 500) / 1000), db)
  end.

Definition ttlCommand (ro : bool) := ttlGenericCommand ro false.

Definition pttlCommand (ro : bool) := ttlGenericCommand ro true.

Definition dbsizeCommand db : bytes := addReplyLongLong (Z.of_nat (size (dict db))).

(** ** Commands that write *)

Definition renameGenericCommand (nx : bool) (argv : list bytes) db : res (key_result object) :=
  src ← need (argv !! 1%nat);
  dst ← need (argv !! 2%nat);
  '(o, db) ← write_key 0 db src;
  match o : option (dbval object) with
  | None => Ok (unchanged err_nokey db)
  | Some o =>
      if bool_decide (src = dst) then Ok (unchanged (if nx then reply_zero else reply_ok) db) else
      expire ← getExpire db src;
      '(old, db) ← write_key 1 db dst;
      if bool_decide (is_Some (old : option (dbval object))) && nx then Ok (unchanged reply_zero db) else
      let db := if bool_decide (is_Some old) then dbDelete db dst else db in
      db ← dbAdd db dst o;
      db ← (if expire =? -1 then Ok db else setExpire db dst expire);
      Ok (MkKeyResult (if nx then reply_one else reply_ok) (dbDelete db src) [src; dst]
            [(str "rename_from", src); (str "rename_to", dst)] 1 None)
  end.

Definition renameCommand := renameGenericCommand false.

Definition renamenxCommand := renameGenericCommand true.

(** The commands below are not in the table of commands, but are compiled.  [basetime] and
    the time are [long long]s; [lazy] is [lazyfree_lazy_expire], [slave] that there is a
    master, and [crdt_loading] the flag of the second server. *)

Definition expireGenericCommand (basetime : Z) (seconds lazy slave crdt_loading : bool) (argv : list bytes) db : res (key_result object) :=
  key ← need (argv !! 1%nat);
  param ← need (argv !! 2%nat);
  match string2ll param with
  | None => Ok (unchanged err_no_integer db)
  | Some when =>
      let scaled := if seconds then when * 1000 else when in
      if negb ((LLONG_MIN <=? scaled) && (scaled <=? LLONG_MAX)) then Undef else
      let when := scaled + basetime in
      if negb ((LLONG_MIN <=? when) && (when <=? LLONG_MAX)) then Undef else
      '(o, db) ← write_key 0 db key;
      match o : option (dbval object) with
      | None => Ok (unchanged reply_zero db)
      | Some _ =>
          if (when <=? ke_clock env 1) && negb (ke_loading env) && negb crdt_loading && negb slave then
            let '(deleted, db) := dbSyncDelete db key in
            _ ← c_assert deleted;
            Ok (MkKeyResult reply_one db [key] [(str "del", key)] 1 (Some [if (lazy : bool) then str "UNLINK" else str "DEL"; key]))
          else
            db ← setExpire db key when;
            Ok (MkKeyResult reply_one db [key] [(str "expire", key)] 1 None)
      end
  end.

Definition persistCommand (argv : list bytes) db : res (key_result object) :=
  key ← need (argv !! 1%nat);
  '(o, db) ← write_key 0 db key;
  match o : option (dbval object) with
  | None => Ok (unchanged reply_zero db)
  | Some _ =>
      '(removed, db) ← removeExpire db key;
      Ok (if (removed : bool) then MkKeyResult reply_one db [] [] 1 None else unchanged reply_zero db)
  end.

Fixpoint del_keys (n : nat) (numdel : Z) (modified : list bytes) db (keys : list bytes) : res (Z * list bytes * redisDb object) :=
  match keys with
  | [] => Ok (numdel, modified, db)
  | key :: keys =>
      '(_, db) ← expire_now env n db key;
      let '(deleted, db) := dbSyncDelete db key in
      if (deleted : bool) then del_keys (S n) (numdel + 1) (modified ++ [key]) db keys else del_keys (S n) numdel modified db keys
  end.

(** [numdel] is an [int]. *)

Definition delGenericCommand (argv : list bytes) db : res (key_result object) :=
  '(numdel, modified, db) ← del_keys 0 0 [] db (drop 1 argv);
  if numdel >? 2 ^ 31 - 1 then Undef else
  Ok (MkKeyResult (addReplyLongLong numdel) db modified (map (pair (str "del")) modified) numdel None).

End commands.

(** ** What a lookup finds *)

Section found.

Context {object : Type} `{CrdtModule object} (env : cmd_env).

Implicit Types (db : redisDb object) (key : bytes).

(** The lookup deletes the key. *)

Definition gone (n : nat) db key : bool :=
  due (ke_loading env) (ke_clock env n) db key && ke_master env && negb (bool_decide (ke_current env = PeerClient)) &&
  negb (blocked (ke_current env) (ke_server env) (ke_clock env n) (ke_delay env) (ke_mk_ok env) db key).

Definition found (n : nat) db key : option (dbval object) := if gone n db key then None else dict db !! key.

Definition left_time (n : nat) db key : option Z := if gone n db key then None else expires db !! key.

(** A slave hides a key whose time has passed from a client that reads. *)

Definition hidden (ro : bool) (n : nat) db key : bool := due (ke_loading env) (ke_clock env n) db key && negb (ke_master env) && ro.

Definition same_key db db' key : Prop := dict db' !! key = dict db !! key /\ expires db' !! key = expires db !! key.

Lemma same_key_trans db1 db2 db3 key : same_key db1 db2 key -> same_key db2 db3 key -> same_key db1 db3 key.
Proof. intros [H1 H2] [H3 H4]. split; etrans; eassumption. Qed.

Lemma gone_same n db db' key : same_key db db' key -> gone n db' key = gone n db key.
Proof. intros [H1 H2]. unfold gone, due, blocked. by rewrite H1, H2. Qed.

Lemma methods_same db db' key : same_key db db' key -> methods_ok db key -> methods_ok db' key.
Proof. intros [H1 _] Hm val obj. rewrite H1. apply Hm. Qed.

Lemma expire_now_found n db key :
  db_ok db -> methods_ok db key ->
  exists b db', expire_now env n db key = Ok (b, db') /\ db_ok db' /\ (forall k, k <> key -> same_key db db' k) /\
    dict db' !! key = found n db key /\ expires db' !! key = left_time n db key /\
    b = gone n db key || (due (ke_loading env) (ke_clock env n) db key && negb (ke_master env)).
Proof.
  intros Hok Hm. unfold expire_now, found, left_time. destruct (expireIfNeeded_spec (ke_current env) (ke_loading env) (ke_master env) (ke_server env) (ke_clock env n) (ke_delay env) (ke_mk_ok env) db key Hok Hm)
    as (b & db' & -> & Hok' & Ho & Hb). fold (gone n db key) in Hb. exists b, db'. split; [done|]. split; [done|]. split; [done|].
  destruct (gone n db key); [by destruct Hb as (-> & ? & ?)|]. by destruct Hb as [-> ->].
Qed.

Lemma write_key_found n db key :
  db_ok db -> methods_ok db key ->
  exists db', write_key env n db key = Ok (found n db key, db') /\ db_ok db' /\ (forall k, k <> key -> same_key db db' k) /\
    dict db' !! key = found n db key /\ expires db' !! key = left_time n db key.
Proof.
  intros Hok Hm. destruct (expire_now_found n db key Hok Hm) as (b & db' & E & Hok' & Ho & Hd & He & _). exists db'.
  unfold write_key, lookupKeyWrite. unfold expire_now in E. rewrite E. cbn [mbind res_bind]. unfold lookupKey. by rewrite Hd.
Qed.

Lemma read_key_found ro n db key :
  db_ok db -> methods_ok db key ->
  exists db', read_key env ro n db key = Ok (if hidden ro n db key then None else found n db key, db') /\ db_ok db' /\ (forall k, k <> key -> same_key db db' k) /\
    dict db' !! key = found n db key /\ expires db' !! key = left_time n db key.
Proof.
  intros Hok Hm. destruct (expire_now_found n db key Hok Hm) as (b & db' & E & Hok' & Ho & Hd & He & Hb). exists db'.
  unfold read_key, lookupKeyRead. unfold expire_now in E. rewrite E. cbn [mbind res_bind]. unfold lookupKey. rewrite Hd. split; [|done].
  subst b. unfold hidden, found. assert (gone n db key = true -> ke_master env = true) as Hg by (unfold gone; intros; by destruct (ke_master env); rewrite ?andb_false_r in *).
  destruct (gone n db key); [rewrite (Hg eq_refl); by rewrite andb_false_r|]. by destruct (due _ _ _ _), (ke_master env), ro.
Qed.

(** The commands after an [Ok] lookup. *)

Lemma dbDelete_lookup db key k :
  db_ok db -> dict (dbDelete db key) !! k = (if decide (k = key) then None else dict db !! k) /\
    expires (dbDelete db key) !! k = (if decide (k = key) then None else expires db !! k).
Proof.
  intros Hok. destruct (dbDelete_ok db key Hok) as (_ & -> & -> & _). destruct (decide (k = key)) as [-> |Hk]; [by rewrite !lookup_delete_eq|by rewrite !lookup_delete_ne].
Qed.

(** Putting a value in the place of another, and taking the first away. *)

Lemma move_value db src dst o (expire : Z) :
  db_ok db -> src <> dst ->
  let db1 := if bool_decide (is_Some (dict db !! dst)) then dbDelete db dst else db in
  exists db2, (db ← dbAdd db1 dst o; db ← (if expire =? -1 then Ok db else setExpire db dst expire); Ok (dbDelete db src)) = Ok db2 /\ db_ok db2 /\
    dict db2 = delete src (<[dst := o]> (dict db)) /\ (forall k, k <> src -> k <> dst -> same_key db db2 k) /\
    expires db2 !! src = None /\ expires db2 !! dst = (if expire =? -1 then None else Some expire).
Proof.
  intros Hok Hne db1. assert (db_ok db1 /\ dict db1 = delete dst (dict db) /\ expires db1 = delete dst (expires db)) as (Hok1 & Hd1 & He1).
  { unfold db1. case_bool_decide as Hs; [destruct (dbDelete_ok db dst Hok) as (? & ? & ? & ?); done|]. apply eq_None_not_Some in Hs.
    assert (expires db !! dst = None) by (apply not_elem_of_dom; intros Hi%Hok; by apply elem_of_dom in Hi; rewrite Hs in Hi; destruct Hi). by rewrite !delete_id. }
  destruct (dbAdd_ok db1 dst o Hok1 ltac:(by rewrite Hd1, lookup_delete_eq)) as [-> Hok2]. cbn [mbind res_bind]. set (db2 := set_dict _ db1) in *.
  assert (exists db3, (if expire =? -1 then Ok db2 else setExpire db2 dst expire) = Ok db3 /\ db_ok db3 /\ dict db3 = dict db2 /\
    expires db3 = if expire =? -1 then expires db1 else <[dst := expire]> (expires db1)) as (db3 & -> & Hok3 & Hd3 & He3).
  { destruct (expire =? -1); [by exists db2|]. destruct (setExpire_ok db2 dst expire Hok2) as [-> Hok3]; [by exists o; cbn; rewrite lookup_insert_eq|]. by eexists. }
  cbn [mbind res_bind]. destruct (dbDelete_ok db3 src Hok3) as (Hok4 & Hd4 & He4 & _). eexists. split; [done|]. split; [done|].
  assert (dict db3 = <[dst := o]> (dict db)) as Hd by (rewrite Hd3; cbn; by rewrite Hd1, insert_delete_eq).
  rewrite Hd4, Hd, He4, He3, He1. split; [done|]. split; [|split].
  - intros k H1 H2. split; [rewrite Hd4, Hd; by rewrite lookup_delete_ne, lookup_insert_ne|]. rewrite He4, He3, He1, lookup_delete_ne by done.
    destruct (expire =? -1); by rewrite ?lookup_insert_ne, lookup_delete_ne.
  - by rewrite lookup_delete_eq.
  - rewrite lookup_delete_ne by done. destruct (expire =? -1); [by rewrite lookup_delete_eq|by rewrite lookup_insert_eq].
Qed.

End found.

(** DEL and UNLINK: the keys are gone, no other key changes, and as many are counted as are
    signalled. *)

Lemma del_keys_spec {object : Type} `{CrdtModule object} (env : cmd_env) (keys : list bytes) : forall n numdel modified (db : redisDb object),
  db_ok db -> (forall k, methods_ok db k) ->
  exists del db', del_keys env n numdel modified db keys = Ok (numdel + Z.of_nat (length del), modified ++ del, db') /\ db_ok db' /\
    (forall k, k ∈ del -> k ∈ keys) /\ (forall k, k ∈ keys -> dict db' !! k = None /\ expires db' !! k = None) /\ (forall k, k ∉ keys -> same_key db db' k).
Proof.
  induction keys as [|key keys IH]; intros n numdel modified db Hok Hm; cbn [del_keys].
  - exists [], db. rewrite app_nil_r, Z.add_0_r. split; [done|]. split; [done|]. split; [done|]. split; [by intros k Hk%not_elem_of_nil|done].
  - destruct (expire_now_found env n db key Hok (Hm key)) as (b & db1 & -> & Hok1 & Ho1 & _). cbn [mbind res_bind].
    destruct (dbSyncDelete db1 key) as [deleted db2] eqn:Ed. assert (db2 = dbDelete db1 key) as E2 by (unfold dbDelete; by rewrite Ed). destruct (dbDelete_ok db1 key Hok1) as (Hok2 & _). rewrite <- E2 in Hok2.
    assert (forall k, k <> key -> same_key db db2 k) as Hs2.
    { intros k Hk. apply (same_key_trans _ db1); [by apply Ho1|]. destruct (dbDelete_lookup db1 key k Hok1) as [H1 H2]. rewrite E2. rewrite decide_False in H1 by done. rewrite decide_False in H2 by done. by split. }
    assert (dict db2 !! key = None /\ expires db2 !! key = None) as Hn2.
    { destruct (dbDelete_lookup db1 key key Hok1) as [H1 H2]. rewrite E2. rewrite decide_True in H1 by done. rewrite decide_True in H2 by done. by split. }
    assert (forall k, methods_ok db2 k) as Hm2.
    { intros k. destruct (decide (k = key)) as [-> |Hk]; [|by apply (methods_same db); [apply Hs2|]]. intros val obj Hv. destruct Hn2 as [Hn _]. congruence. }
    destruct (IH (S n) (if deleted then numdel + 1 else numdel) (if deleted then modified ++ [key] else modified) db2 Hok2 Hm2) as (del & db' & E & Hok' & Hin & Hgone & Hrest).
    exists (if deleted then key :: del else del), db'. split; [|split; [done|split; [|split]]].
    + destruct deleted; rewrite E; [|done]. rewrite <- app_assoc. cbn [length app]. by replace (numdel + 1 + Z.of_nat (length del)) with (numdel + Z.of_nat (S (length del))) by lia.
    + intros k Hk. destruct deleted; [apply elem_of_cons in Hk as [-> |Hk]; [by left|]|]; right; by apply Hin.
    + intros k Hk. apply elem_of_cons in Hk as [-> |Hk]; [|by apply Hgone]. destruct (decide (key ∈ keys)) as [Hi|Hi]; [by apply Hgone|]. destruct (Hrest key Hi) as [-> ->]. done.
    + intros k [Hk1 Hk2]%not_elem_of_cons. apply (same_key_trans _ db2); [by apply Hs2|by apply Hrest].
Qed.

(** TTL: -2 if there is no key, -1 if it has no time, and otherwise the time that is left,
    rounded to seconds. *)

Lemma ttl_tells {object : Type} `{CrdtModule object} (env : cmd_env) (ro output_ms : bool) (cmd key : bytes) (db : redisDb object) :
  db_ok db -> methods_ok db key ->
  (forall when, expires db !! key = Some when -> 0 <= when /\ when + 500 <= LLONG_MAX) -> 0 <= ke_clock env 1 <= LLONG_MAX ->
  exists db', db_ok db' /\ ttlGenericCommand env ro output_ms [cmd; key] db = Ok (addReplyLongLong
    (match (if hidden env ro 0 db key then None else found env 0 db key), expires db !! key with
     | None, _ => -2
     | Some _, None => -1
     | Some _, Some when => let ms := Z.max 0 (when - ke_clock env 1) in if output_ms then ms else (ms + 500) / 1000
     end), db').
Proof.
  intros Hok Hm Hw Hc. destruct (read_key_found env ro 0 db key Hok Hm) as (db' & E & Hok' & _ & Hd & He). exists db'. split; [done|].
  unfold ttlGenericCommand. cbn [lookup list_lookup need mbind res_bind]. rewrite E. cbn [mbind res_bind].
  destruct (hidden _ _ _ _ _); [done|]. unfold found, left_time in *. destruct (gone _ _ _ _); [done|]. destruct (dict db !! key); [|done].
  rewrite getExpire_ok, He by done. cbn [mbind res_bind]. destruct (expires db !! key) as [when|] eqn:Ew; [|done]. cbn [default]. destruct (Hw when eq_refl) as [H0 H1].
  unfold default, id. rewrite (proj2 (Z.eqb_neq when (-1))) by lia. unfold LLONG_MIN, LLONG_MAX in *.
  rewrite (proj2 (Z.leb_le (-9223372036854775808) _)), (proj2 (Z.leb_le _ 9223372036854775807)) by lia. cbn [negb andb].
  replace (if when - ke_clock env 1 <? 0 then 0 else when - ke_clock env 1) with (Z.max 0 (when - ke_clock env 1)) by (destruct (Z.ltb_spec (when - ke_clock env 1) 0); lia).
  destruct output_ms; [done|]. by rewrite Z.gtb_ltb, (proj2 (Z.ltb_ge _ _)) by lia.
Qed.

(** ** Claims *)

(** C35: RENAME and RENAMENX.  On a well-formed database both complete and leave a well-formed
    one, and no third key changes.  If the source is not there, or its time has passed, the
    reply is an error and nothing is counted as a change.  If the two names are the same
    nothing happens; RENAMENX gives way to a destination that is there.  In every other case
    the value of the source is at the destination, with the expire time of the source and
    not that of the value it replaced, the source is gone, and both are signalled. *)
Theorem rename_moves {object : Type} `{CrdtModule object} (env : cmd_env) (nx : bool) (cmd src dst : bytes) (db : redisDb object)
    (Hok : db_ok db) (Hs : methods_ok db src) (Hd : methods_ok db dst) (Ht : forall w, expires db !! src = Some w -> w <> -1) :
  exists r, renameGenericCommand env nx [cmd; src; dst] db = Ok r /\ db_ok (kr_db r) /\
    (forall k, k <> src -> k <> dst -> same_key db (kr_db r) k) /\
    match found env 0 db src with
    | None => r = unchanged err_nokey (kr_db r) /\ dict (kr_db r) !! src = None /\ (src <> dst -> same_key db (kr_db r) dst)
    | Some o =>
        if decide (src = dst) then r = unchanged (if nx then reply_zero else reply_ok) (kr_db r) /\ same_key db (kr_db r) src
        else if bool_decide (is_Some (found env 1 db dst)) && nx
        then r = unchanged reply_zero (kr_db r) /\ same_key db (kr_db r) src /\ same_key db (kr_db r) dst
        else r = MkKeyResult (if nx then reply_one else reply_ok) (kr_db r) [src; dst] [(str "rename_from", src); (str "rename_to", dst)] 1 None /\
          dict (kr_db r) !! src = None /\ expires (kr_db r) !! src = None /\
          dict (kr_db r) !! dst = Some o /\ expires (kr_db r) !! dst = expires db !! src
    end.
Proof.
  unfold renameGenericCommand. cbn [lookup list_lookup need mbind res_bind].
  destruct (write_key_found env 0 db src Hok Hs) as (db1 & -> & Hok1 & Ho1 & Hd1 & He1). cbn [mbind res_bind].
  destruct (found env 0 db src) as [o|] eqn:Ef.
  2:{ exists (unchanged err_nokey db1). split; [done|]. split; [done|]. split; [by intros k Hk _; apply Ho1|]. split; [done|]. split; [done|]. intros Hne. by apply Ho1. }
  assert (gone env 0 db src = false) as Hg by (unfold found in Ef; by destruct (gone env 0 db src)).
  assert (dict db !! src = Some o) as Eo by (unfold found in Ef; by rewrite Hg in Ef). unfold left_time in He1. rewrite Hg in He1.
  assert (same_key db db1 src) as Hsame by (split; [by rewrite Hd1, Eo|done]).
  destruct (decide (src = dst)) as [Heq|Hne].
  { rewrite bool_decide_true by done. eexists. split; [reflexivity|]. split; [done|]. split; [intros k Hk _; by apply Ho1|]. by split. }
  rewrite (bool_decide_false (src = dst)) by done. rewrite getExpire_ok, He1 by done. cbn [mbind res_bind].
  assert (same_key db db1 dst) as Hsd by (by apply Ho1).
  destruct (write_key_found env 1 db1 dst Hok1 (methods_same db db1 dst Hsd Hd)) as (db2 & -> & Hok2 & Ho2 & Hd2 & He2). cbn [mbind res_bind].
  assert (found env 1 db1 dst = found env 1 db dst) as Ef1 by (unfold found; by rewrite (gone_same env 1 db db1 dst Hsd), (proj1 Hsd)). rewrite Ef1 in *.
  assert (forall k, k <> dst -> same_key db db2 k) as Hk2.
  { intros k Hk. apply (same_key_trans _ db1); [|by apply Ho2]. destruct (decide (k = src)) as [-> |Hks]; [exact Hsame|by apply Ho1]. }
  destruct (bool_decide (is_Some (found env 1 db dst)) && nx) eqn:Enx.
  { apply andb_true_iff in Enx as [Hi%bool_decide_eq_true_1 _]. eexists. split; [reflexivity|]. split; [done|]. split; [by intros k _ Hk; apply Hk2|]. split; [done|]. split; [by apply Hk2|].
    assert (gone env 1 db dst = false) as Hgd by (unfold found in Hi; by destruct (gone env 1 db dst); destruct Hi). unfold left_time, found in *.
    rewrite (gone_same env 1 db db1 dst Hsd), Hgd in He2. rewrite Hgd in Hd2. split; [done|]. cbn. by rewrite He2, (proj2 Hsd). }
  destruct (move_value db2 src dst o (default (-1) (expires db !! src)) Hok2 Hne) as (db3 & E3 & Hok3 & Hd3 & Ho3 & Hes & Hed). rewrite <- Hd2.
  destruct (dbAdd _ dst o) as [dba| |]; [|done|done]. cbn [mbind res_bind] in *. destruct (if _ =? -1 then _ else _) as [dbb| |]; [|done|done]. cbn [mbind res_bind] in *. injection E3 as ->.
  eexists. split; [reflexivity|]. cbn [kr_db]. split; [done|]. split; [intros k H1 H2; apply (same_key_trans _ db2); [by apply Hk2|by apply Ho3]|].
  split; [done|]. rewrite Hd3, lookup_delete_eq, lookup_delete_ne, lookup_insert_eq by done. split; [done|]. split; [done|]. split; [done|]. rewrite Hed.
  destruct (expires db !! src) as [w|] eqn:Ew; [|done]. cbn. by rewrite (proj2 (Z.eqb_neq w (-1))) by (by apply Ht).
Qed.

(** A key with an expire time replaces one that is there. *)

Lemma rename_moves_witness :
  exists r, @renameGenericCommand Z number_module example_cmd_env false [str "RENAME"; str "a2"; str "b"] example_scanned_db = Ok r /\
    kr_reply r = reply_ok /\ dict (kr_db r) !! str "b" = Some (number 7) /\ expires (kr_db r) !! str "b" = Some 5000 /\ dict (kr_db r) !! str "a2" = None.
Proof.
  destruct (@rename_moves Z number_module example_cmd_env false (str "RENAME") (str "a2") (str "b") example_scanned_db) as (r & E & _ & _ & Hr).
  - unfold db_ok. decide_now.
  - intros val obj _ _. by eexists _, _.
  - intros val obj _ _. by eexists _, _.
  - intros w Hw. vm_compute in Hw. injection Hw as <-. done.
  - exists r. split; [exact E|]. change (found example_cmd_env 0 example_scanned_db (str "a2")) with (Some (number 7)) in Hr. cbv iota in Hr.
    rewrite decide_False in Hr by done. rewrite andb_false_r in Hr. destruct Hr as (Er & H1 & _ & H2 & H3). split; [by rewrite Er|]. split; [exact H2|]. split; [rewrite H3; reflexivity|exact H1].
Defined.
