(* ===== verification/Siphash.v ===== *)
(** * The hash function of the dictionaries ([src/src/siphash.c])

    SipHash with one round for each word and two at the end, and its variant that
    does not tell upper from lower case, for names of commands and options. *)

From S2P Require Import Prelude Dict.

Definition siptlw (c : Z) : Z := if (c >=? 65) && (c <=? 90) then c + (97 - 65) else c.

Definition ROTL (x b : Z) : Z := to_ull (Z.lor (to_ull (Z.shiftl x b)) (Z.shiftr x (64 - b))).

Definition word (b0 b1 b2 b3 b4 b5 b6 b7 : Z) : Z :=
  Z.lor b0 (Z.lor (Z.shiftl b1 8) (Z.lor (Z.shiftl b2 16) (Z.lor (Z.shiftl b3 24)
    (Z.lor (Z.shiftl b4 32) (Z.lor (Z.shiftl b5 40) (Z.lor (Z.shiftl b6 48) (Z.shiftl b7 56))))))).

Definition U8TO64_LE (p : bytes) : res Z :=
  match p with
  | b0 :: b1 :: b2 :: b3 :: b4 :: b5 :: b6 :: b7 :: _ => Ok (word b0 b1 b2 b3 b4 b5 b6 b7)
  | _ => Undef
  end.

Record sip := MkSip { v0 : Z; v1 : Z; v2 : Z; v3 : Z }.

Definition SIPROUND (s : sip) : sip :=
  let v0 := to_ull (v0 s + v1 s) in
  let v1 := Z.lxor (ROTL (v1 s) 13) v0 in
  let v0 := ROTL v0 32 in
  let v2 := to_ull (v2 s + v3 s) in
  let v3 := Z.lxor (ROTL (v3 s) 16) v2 in
  let v0 := to_ull (v0 + v3) in
  let v3 := Z.lxor (ROTL v3 21) v0 in
  let v2 := to_ull (v2 + v1) in
  let v1 := Z.lxor (ROTL v1 17) v2 in
  let v2 := ROTL v2 32 in
  MkSip v0 v1 v2 v3.

Definition sip_word (m : Z) (s : sip) : sip :=
  let s := SIPROUND (MkSip (v0 s) (v1 s) (v2 s) (Z.lxor (v3 s) m)) in
  MkSip (Z.lxor (v0 s) m) (v1 s) (v2 s) (v3 s).

Definition sip_init (k : bytes) : res sip :=
  k0 ← U8TO64_LE k;
  k1 ← U8TO64_LE (drop 8 k);
  Ok (MkSip (Z.lxor 0x736f6d6570736575 k0) (Z.lxor 0x646f72616e646f6d k1)
            (Z.lxor 0x6c7967656e657261 k0) (Z.lxor 0x7465646279746573 k1)).

(** The loop over the words; what is left are fewer than eight bytes. *)

Fixpoint sip_loop (input : bytes) (s : sip) : sip * bytes :=
  match input with
  | b0 :: b1 :: b2 :: b3 :: b4 :: b5 :: b6 :: b7 :: input => sip_loop input (sip_word (word b0 b1 b2 b3 b4 b5 b6 b7) s)
  | tail => (s, tail)
  end.

Fixpoint sip_loop_nocase (input : bytes) (s : sip) : sip * bytes :=
  match input with
  | b0 :: b1 :: b2 :: b3 :: b4 :: b5 :: b6 :: b7 :: input =>
      sip_loop_nocase input (sip_word (word (siptlw b0) (siptlw b1) (siptlw b2) (siptlw b3)
        (siptlw b4) (siptlw b5) (siptlw b6) (siptlw b7)) s)
  | tail => (s, tail)
  end.

(** The last word: the bytes left, from the last down, and the length. *)

Fixpoint last_word (tail : bytes) (shift b : Z) : Z :=
  match tail with
  | [] => b
  | c :: tail => Z.lor (last_word tail (shift + 8) b) (Z.shiftl c shift)
  end.

Definition sip_finish (b : Z) (s : sip) : Z :=
  let s := sip_word b s in
  let s := SIPROUND (SIPROUND (MkSip (v0 s) (v1 s) (Z.lxor (v2 s) 0xff) (v3 s))) in
  Z.lxor (Z.lxor (Z.lxor (v0 s) (v1 s)) (v2 s)) (v3 s).

Definition siphash (input k : bytes) : res Z :=
  s ← sip_init k;
  let b := to_ull (Z.shiftl (Z.of_nat (length input)) 56) in
  let '(s, tail) := sip_loop input s in
  Ok (sip_finish (last_word tail 0 b) s).

Definition siphash_nocase (input k : bytes) : res Z :=
  s ← sip_init k;
  let b := to_ull (Z.shiftl (Z.of_nat (length input)) 56) in
  let '(s, tail) := sip_loop_nocase input s in
  Ok (sip_finish (last_word (map siptlw tail) 0 b) s).

(** ** The hash functions of the dictionaries *)

(** [seed] is [dict_hash_function_seed]. *)

Definition dictGenHashFunction (seed key : bytes) : res Z := siphash key seed.

Definition dictGenCaseHashFunction (seed key : bytes) : res Z := siphash_nocase key seed.

(** ** Properties *)

Lemma siptlw_tolower c : siptlw c = tolower c.
Proof. unfold siptlw, tolower. by rewrite Z.geb_leb. Qed.

Lemma list_ind8 (P : bytes -> Prop) :
  (forall l, (length l < 8)%nat -> P l) ->
  (forall b0 b1 b2 b3 b4 b5 b6 b7 l, P l -> P (b0 :: b1 :: b2 :: b3 :: b4 :: b5 :: b6 :: b7 :: l)) ->
  forall l, P l.
Proof.
  intros Hs Hl l. induction l as [l IH] using (induction_ltof1 _ (@length Z)). unfold ltof in IH.
  do 8 (destruct l as [|? l]; [apply Hs; cbn; lia|]). apply Hl, IH. cbn. lia.
Qed.

Lemma sip_loop_case input : forall s,
  sip_loop_nocase input s = (fst (sip_loop (map siptlw input) s), snd (sip_loop_nocase input s)) /\
  snd (sip_loop (map siptlw input) s) = map siptlw (snd (sip_loop_nocase input s)).
Proof.
  induction input as [l Hl|b0 b1 b2 b3 b4 b5 b6 b7 l IH] using list_ind8; intros s.
  - do 8 (destruct l as [|? l]; [done|]). cbn in Hl. lia.
  - apply IH.
Qed.

Lemma siphash_nocase_lower input k : siphash_nocase input k = siphash (map siptlw input) k.
Proof.
  unfold siphash_nocase, siphash. destruct (sip_init k) as [s| |]; [|done|done]. cbn [mbind res_bind].
  rewrite length_map. destruct (sip_loop_case input s) as [E1 E2]. rewrite E1.
  destruct (sip_loop (map siptlw input) s) as [s' tail]. cbn [fst snd] in *. by rewrite <- E2.
Qed.

Lemma xor64_range a b : 0 <= a < 2 ^ 64 -> 0 <= b < 2 ^ 64 -> 0 <= Z.lxor a b < 2 ^ 64.
Proof.
  intros Ha Hb. split; [apply Z.lxor_nonneg; lia|].
  destruct (Z.eq_dec (Z.lxor a b) 0) as [->|]; [lia|]. apply Z.log2_lt_pow2; [pose proof (proj2 (Z.lxor_nonneg a b)); lia|].
  apply Z.le_lt_trans with (Z.max (Z.log2 a) (Z.log2 b)); [apply Z.log2_lxor; lia|].
  apply Z.max_lub_lt; (destruct (Z.eq_dec a 0), (Z.eq_dec b 0); subst; try (cbn; lia); apply Z.log2_lt_pow2; lia).
Qed.

Lemma to_ull_range z : 0 <= to_ull z < 2 ^ 64.
Proof. apply uwrap_range. lia. Qed.

Lemma sip_finish_range b s : 0 <= sip_finish b s < 2 ^ 64.
Proof.
  unfold sip_finish. cbv zeta. generalize (SIPROUND (MkSip (v0 (sip_word b s)) (v1 (sip_word b s)) (Z.lxor (v2 (sip_word b s)) 255) (v3 (sip_word b s)))).
  intros s'. unfold SIPROUND. cbn [v0 v1 v2 v3]. unfold ROTL. repeat apply xor64_range; apply to_ull_range.
Qed.

(** The hash that ignores case is the hash of the key in lower case: it is a
    number of 64 bits, the same for all spellings that the comparison without case
    of the dictionaries takes for equal. *)
Lemma siphash_nocase_spellings seed s t (Hseed : (16 <= length seed)%nat) :
  dictGenCaseHashFunction seed s = dictGenHashFunction seed (map tolower s) /\
  (exists h, dictGenHashFunction seed s = Ok h /\ 0 <= h < 2 ^ 64) /\
  (strcaseeq s t = true -> dictGenCaseHashFunction seed s = dictGenCaseHashFunction seed t).
Proof.
  unfold dictGenCaseHashFunction, dictGenHashFunction.
  assert (forall l : bytes, map siptlw l = map tolower l) as Hm by (intros l; apply map_ext, siptlw_tolower).
  rewrite !siphash_nocase_lower, !Hm. split; [done|]. split.
  - unfold siphash, sip_init. do 16 (destruct seed as [|? seed]; [cbn in Hseed; lia|]). cbn [U8TO64_LE drop mbind res_bind].
    destruct (sip_loop s _) as [s' tail]. eexists. split; [done|apply sip_finish_range].
  - unfold strcaseeq. intros E%bool_decide_eq_true. by rewrite E.
Qed.

Definition example_seed : bytes := seqZ 0 16.

Lemma siphash_nocase_spellings_witness :
  dictGenCaseHashFunction example_seed (str "PeerOf") = dictGenCaseHashFunction example_seed (str "PEEROF") /\
  dictGenCaseHashFunction example_seed (str "PEEROF") = dictGenHashFunction example_seed (str "peerof").
Proof.
  destruct (siphash_nocase_spellings example_seed (str "PEEROF") (str "PeerOf")) as (H1 & _ & H2); [vm_compute; lia|].
  split; [symmetry; apply H2; reflexivity|exact H1].
Defined.

(** A dictionary whose keys are strings. *)

Definition string_hash (seed key : bytes) : Z :=
  match dictGenHashFunction seed key with Ok h => h | _ => 0 end.

Lemma string_dictionary :
  exists d, run_ops (string_hash example_seed)
    [(true, 2 ^ 27, OpAdd (str "a") 1); (true, 2 ^ 27, OpAdd (str "b") 2); (true, 2 ^ 27, OpReplace (str "a") 3); (true, 2 ^ 27, OpFetch (str "a"));
     (true, 2 ^ 27, OpDelete (str "b")); (true, 2 ^ 27, OpFetch (str "b"))] dictCreate =
    Ok ([Done true; Done true; Done false; Value (Some 3); Done true; Value None], d).
Proof. eexists. vm_compute. reflexivity. Qed.
