(* ===== verification/Intset.v ===== *)
(** * Sets of integers ([src/src/intset.c])

    A sorted array of integers of two, four or eight bytes each.  The array is
    the block of memory it is in C; a value that does not fit makes every element
    wider, in place. *)

From S2P Require Import Prelude Crc.

Definition INTSET_ENC_INT16 : Z := 2.

Definition INTSET_ENC_INT32 : Z := 4.

Definition INTSET_ENC_INT64 : Z := 8.

Record intset := MkIntset {
  encoding : Z;
  is_length : Z;
  contents : bytes
}.

Definition _intsetValueEncoding (v : Z) : Z :=
  if (v <? - 2 ^ 31) || (v >? 2 ^ 31 - 1) then INTSET_ENC_INT64
  else if (v <? - 2 ^ 15) || (v >? 2 ^ 15 - 1) then INTSET_ENC_INT32
  else INTSET_ENC_INT16.

(** ** Memory *)

Definition slice (off n : nat) (c : bytes) : bytes := take n (drop off c).

Definition store (off : nat) (w c : bytes) : res bytes :=
  if (off + length w <=? length c)%nat then Ok (take off c ++ w ++ drop (off + length w) c) else Undef.

(** [memmove] within the block. *)

Definition memmove (dst src n : nat) (c : bytes) : res bytes :=
  if (src + n <=? length c)%nat then store dst (slice src n c) c else Undef.

Definition width (enc : Z) : nat :=
  if enc =? INTSET_ENC_INT64 then 8 else if enc =? INTSET_ENC_INT32 then 4 else 2.

Definition load_int (n pos : nat) (c : bytes) : res Z :=
  if (pos * n + n <=? length c)%nat then Ok (swrap (8 * Z.of_nat n) (le_word (slice (pos * n) n c))) else Undef.

Definition store_int (n pos : nat) (v : Z) (c : bytes) : res bytes :=
  store (pos * n) (le_split n (uwrap (8 * Z.of_nat n) v)) c.

Definition _intsetGetEncoded (s : intset) (pos : nat) (enc : Z) : res Z := load_int (width enc) pos (contents s).

Definition _intsetGet (s : intset) (pos : nat) : res Z := _intsetGetEncoded s pos (encoding s).

Definition _intsetSet (s : intset) (pos : nat) (value : Z) : res intset :=
  c ← store_int (width (encoding s)) pos value (contents s);
  Ok (MkIntset (encoding s) (is_length s) c).

Definition intsetNew : intset := MkIntset INTSET_ENC_INT16 0 [].

Section operations.

(** What is in memory that was not written. *)

Context (junk : Z).

Definition intsetResize (s : intset) (len : Z) : intset :=
  let size := Z.to_nat (uwrap 32 (len * encoding s)) in
  MkIntset (encoding s) (is_length s) (take size (contents s ++ replicate size junk)).

(** ** Searching *)

(** The position and the value read last; [None]: nothing was read. *)

Fixpoint search_loop (fuel : nat) (s : intset) (value min max mid cur : Z) : res (Z * Z * Z) :=
  match fuel with
  | O => Undef
  | S fuel =>
      if max >=? min then
        let mid := Z.shiftr (uwrap 32 (uwrap 32 min + uwrap 32 max)) 1 in
        cur ← _intsetGet s (Z.to_nat mid);
        if value >? cur then search_loop fuel s value (mid + 1) max mid cur
        else if value <? cur then search_loop fuel s value min (mid - 1) mid cur
        else Ok (min, mid, cur)
      else Ok (min, mid, cur)
  end.

Definition intsetSearch (s : intset) (value : Z) : res (bool * Z) :=
  if is_length s =? 0 then Ok (false, 0) else
  last ← _intsetGet s (Z.to_nat (is_length s - 1));
  if value >? last then Ok (false, is_length s) else
  first ← _intsetGet s 0;
  if value <? first then Ok (false, 0) else
  '(min, mid, cur) ← search_loop (S (Z.to_nat (is_length s))) s value 0 (is_length s - 1) (-1) (-1);
  if value =? cur then Ok (true, mid) else Ok (false, min).

(** ** Adding *)

Fixpoint upgrade_loop (n : nat) (s : intset) (curenc : Z) (prepend : nat) : res intset :=
  match n with
  | O => Ok s
  | S n =>
      v ← _intsetGetEncoded s n curenc;
      s ← _intsetSet s (n + prepend) v;
      upgrade_loop n s curenc prepend
  end.

Definition intsetUpgradeAndAdd (s : intset) (value : Z) : res intset :=
  let curenc := encoding s in
  let newenc := _intsetValueEncoding value in
  let length := is_length s in
  let prepend := if value <? 0 then 1%nat else 0%nat in
  let s := intsetResize (MkIntset newenc (is_length s) (contents s)) (is_length s + 1) in
  s ← upgrade_loop (Z.to_nat length) s curenc prepend;
  s ← (if (prepend =? 1)%nat then _intsetSet s 0 value else _intsetSet s (Z.to_nat (is_length s)) value);
  Ok (MkIntset (encoding s) (is_length s + 1) (contents s)).

Definition intsetMoveTail (s : intset) (from to : nat) : res intset :=
  let w := width (encoding s) in
  let n := ((Z.to_nat (is_length s) - from) * w)%nat in
  c ← memmove (to * w) (from * w) n (contents s);
  Ok (MkIntset (encoding s) (is_length s) c).

Definition intsetAdd (s : intset) (value : Z) : res (bool * intset) :=
  if _intsetValueEncoding value >? encoding s then
    s ← intsetUpgradeAndAdd s value;
    Ok (true, s)
  else
    '(found, pos) ← intsetSearch s value;
    if found : bool then Ok (false, s) else
    let s := intsetResize s (is_length s + 1) in
    s ← (if pos <? is_length s then intsetMoveTail s (Z.to_nat pos) (Z.to_nat (pos + 1)) else Ok s);
    s ← _intsetSet s (Z.to_nat pos) value;
    Ok (true, MkIntset (encoding s) (is_length s + 1) (contents s)).

Definition intsetRemove (s : intset) (value : Z) : res (bool * intset) :=
  if _intsetValueEncoding value <=? encoding s then
    '(found, pos) ← intsetSearch s value;
    if negb found then Ok (false, s) else
    let len := is_length s in
    s ← (if pos <? len - 1 then intsetMoveTail s (Z.to_nat (pos + 1)) (Z.to_nat pos) else Ok s);
    let s := intsetResize s (len - 1) in
    Ok (true, MkIntset (encoding s) (len - 1) (contents s))
  else Ok (false, s).

End operations.

Definition intsetFind (s : intset) (value : Z) : res bool :=
  if _intsetValueEncoding value <=? encoding s then '(found, _) ← intsetSearch s value; Ok found else Ok false.

Definition intsetRandom (s : intset) (rand : Z) : res Z :=
  if is_length s =? 0 then Undef else _intsetGet s (Z.to_nat (Z.rem rand (is_length s))).

Definition intsetGet (s : intset) (pos : Z) : res (option Z) :=
  if pos <? is_length s then v ← _intsetGet s (Z.to_nat pos); Ok (Some v) else Ok None.

Definition intsetLen (s : intset) : Z := is_length s.

Definition intsetBlobLen (s : intset) : Z := 8 + uwrap 32 (is_length s * encoding s).

(** ** Memory *)

Lemma store_ok off w c :
  (off + length w <= length c)%nat ->
  exists c', store off w c = Ok c' /\ length c' = length c /\ slice off (length w) c' = w /\
    forall a n, (a + n <= off)%nat \/ (off + length w <= a)%nat -> slice a n c' = slice a n c.
Proof.
  intros Hl. unfold store. rewrite (proj2 (Nat.leb_le _ _)) by done. eexists. split; [done|].
  assert (length (take off c) = off) as Ht by (rewrite length_take; lia). split; [rewrite !length_app, length_drop; lia|]. split.
  - unfold slice. rewrite drop_app_length' by done. by rewrite take_app_length.
  - intros a n [Hb|Ha]; unfold slice.
    + rewrite drop_app_le by lia. rewrite take_app_le by (rewrite length_drop; lia).
      apply list_eq. intros i. destruct (decide (i < n)%nat) as [Hi|Hi].
      * rewrite !lookup_take_lt by lia. rewrite !lookup_drop. by rewrite lookup_take_lt by lia.
      * by rewrite !lookup_take_ge by lia.
    + f_equal. rewrite drop_app_ge by lia. rewrite drop_app_ge by lia. rewrite drop_drop. f_equal. lia.
Qed.

Lemma slice_slice a n b m c : (b + m <= n)%nat -> slice b m (slice a n c) = slice (a + b) m c.
Proof.
  intros Hl. unfold slice. apply list_eq. intros i. destruct (decide (i < m)%nat) as [Hi|Hi].
  - rewrite !lookup_take_lt by lia. rewrite !lookup_drop, lookup_take_lt by lia. rewrite lookup_drop. f_equal. lia.
  - by rewrite !lookup_take_ge by lia.
Qed.

Lemma length_slice a n c : (a + n <= length c)%nat -> length (slice a n c) = n.
Proof. intros Hl. unfold slice. rewrite length_take, length_drop. lia. Qed.

Lemma memmove_ok dst src n c :
  (src + n <= length c)%nat -> (dst + n <= length c)%nat ->
  exists c', memmove dst src n c = Ok c' /\ length c' = length c /\
    (forall k m, (k + m <= n)%nat -> slice (dst + k) m c' = slice (src + k) m c) /\
    forall a m, (a + m <= dst)%nat \/ (dst + n <= a)%nat -> slice a m c' = slice a m c.
Proof.
  intros Hs Hd. unfold memmove. rewrite (proj2 (Nat.leb_le _ _)) by done.
  pose proof (length_slice src n c Hs) as Hl. destruct (store_ok dst (slice src n c) c) as (c' & -> & Hl' & Hin & Hout); [lia|].
  exists c'. split; [done|]. split; [done|]. rewrite Hl in *. split; [|done].
  intros k m Hk. rewrite <- (slice_slice dst n) by done. rewrite Hin. by apply slice_slice.
Qed.

(** ** Elements *)

Definition fits (n : nat) (v : Z) : Prop := - 2 ^ (8 * Z.of_nat n - 1) <= v < 2 ^ (8 * Z.of_nat n - 1).

Lemma swrap_uwrap w v : swrap w (uwrap w v) = swrap w v.
Proof. unfold swrap, uwrap. by rewrite Zplus_mod_idemp_l. Qed.

Lemma store_int_ok n pos v c :
  (0 < n)%nat -> fits n v -> (pos * n + n <= length c)%nat ->
  exists c', store_int n pos v c = Ok c' /\ length c' = length c /\ load_int n pos c' = Ok v /\
    forall a m, (a + m <= pos * n)%nat \/ (pos * n + n <= a)%nat -> slice a m c' = slice a m c.
Proof.
  intros Hn Hf Hl. unfold store_int. destruct (le_split_word n (uwrap (8 * Z.of_nat n) v)) as (_ & Hlen & Hw); [apply uwrap_range; lia|].
  destruct (store_ok (pos * n) (le_split n (uwrap (8 * Z.of_nat n) v)) c) as (c' & -> & Hl' & Hin & Hout); [lia|].
  rewrite Hlen in *. exists c'. split; [done|]. split; [done|]. split; [|done].
  unfold load_int. rewrite (proj2 (Nat.leb_le _ _)), Hin, Hw, swrap_uwrap by lia. f_equal. apply swrap_id; [lia|exact Hf].
Qed.

Lemma load_int_slice n p c p' c' :
  (p * n + n <= length c)%nat -> (p' * n + n <= length c')%nat -> slice (p * n) n c = slice (p' * n) n c' ->
  load_int n p c = load_int n p' c'.
Proof. intros H1 H2 E. unfold load_int. by rewrite !(proj2 (Nat.leb_le _ _)), E by done. Qed.

(** The array [l] with elements of [n] bytes. *)

Definition array_of (n : nat) (c : bytes) (l : list Z) : Prop :=
  length c = (length l * n)%nat /\ forall i v, l !! i = Some v -> load_int n i c = Ok v.

Record intset_ok (s : intset) (l : list Z) : Prop := MkIntsetOk {
  ok_encoding : encoding s = INTSET_ENC_INT16 \/ encoding s = INTSET_ENC_INT32 \/ encoding s = INTSET_ENC_INT64;
  ok_length : is_length s = Z.of_nat (length l);
  ok_holds : array_of (width (encoding s)) (contents s) l;
  ok_fits : Forall (fits (width (encoding s))) l;
  ok_sorted : StronglySorted Z.lt l
}.


Lemma sorted_lookup l : StronglySorted Z.lt l -> forall i j x y, (i < j)%nat -> l !! i = Some x -> l !! j = Some y -> x < y.
Proof.
  induction 1 as [|a l Hs IH Hf]; intros i j x y Hij Hi Hj; [done|]. destruct j as [|j]; [lia|]. destruct i as [|i]; cbn in *.
  - simplify_eq. rewrite Forall_forall in Hf. apply Hf. by eapply list_elem_of_lookup_2.
  - apply (IH i j); [lia|done|done].
Qed.

Lemma sorted_from l : (forall i j x y, (i < j)%nat -> l !! i = Some x -> l !! j = Some y -> x < y) -> StronglySorted Z.lt l.
Proof.
  induction l as [|a l IH]; intros H; constructor.
  - apply IH. intros i j x y Hij Hi Hj. apply (H (S i) (S j) x y); [lia|done|done].
  - apply Forall_lookup. intros j y Hj. apply (H O (S j) a y); [lia|done|done].
Qed.

(** ** Searching *)

Section search.

Context (s : intset) (l : list Z) (v : Z).
Hypothesis Hok : intset_ok s l.
Hypothesis Hlen : Z.of_nat (length l) < 2 ^ 28.

Lemma get_spec i x : l !! i = Some x -> _intsetGet s i = Ok x.
Proof. apply (ok_holds s l Hok). Qed.

(** Where [v] belongs. *)

Definition splits_at (p : Z) : Prop := 0 <= p <= Z.of_nat (length l) /\
  forall i x, l !! i = Some x -> (Z.of_nat i < p -> x < v) /\ (p <= Z.of_nat i -> v < x).

Lemma search_loop_spec fuel : forall min max mid cur,
  0 <= min -> max < Z.of_nat (length l) -> min <= max + 1 ->
  (forall i x, l !! i = Some x -> (Z.of_nat i < min -> x < v) /\ (max < Z.of_nat i -> v < x)) ->
  (max < min -> cur <> v) -> max - min + 1 < Z.of_nat fuel ->
  exists min' mid' cur', search_loop fuel s v min max mid cur = Ok (min', mid', cur') /\
    (cur' = v /\ 0 <= mid' /\ l !! Z.to_nat mid' = Some v \/ cur' <> v /\ splits_at min').
Proof.
  induction fuel as [|fuel IH]; intros min max mid cur Hmin Hmax Hle Hinv Hcur Hf; [lia|]. cbn [search_loop]. rewrite Z.geb_leb.
  destruct (Z.leb_spec min max) as [Hgo|Hstop].
  - set (m := Z.shiftr _ 1).
    assert (min <= m <= max) as Hm.
    { unfold m. rewrite !(uwrap_id 32) by (rewrite ?(uwrap_id 32) by lia; lia). rewrite Z.shiftr_div_pow2 by lia. change (2 ^ 1) with 2.
      split; [apply Z.div_le_lower_bound; lia|apply Z.div_le_upper_bound; lia]. }
    clearbody m. destruct (lookup_lt_is_Some_2 l (Z.to_nat m)) as [x Hx]; [lia|]. rewrite (get_spec _ _ Hx). cbn [mbind res_bind].
    pose proof (sorted_lookup l (ok_sorted _ _ Hok)) as Hsort. rewrite Z.gtb_ltb.
    assert (forall i y, l !! i = Some y -> (Z.of_nat i < m -> y < x) /\ (m < Z.of_nat i -> x < y)) as Hx2.
    { intros i y Hi. split; intros Hc; [apply (Hsort i (Z.to_nat m))|apply (Hsort (Z.to_nat m) i)]; done || lia. }
    destruct (Z.ltb_spec x v) as [Hlt|Hge]; [|destruct (Z.ltb_spec v x) as [Hlt|Heq]].
    + apply IH; try lia. intros i y Hi. destruct (Hinv i y Hi), (Hx2 i y Hi). split; [|done]. intros Hc.
      destruct (Z.lt_trichotomy (Z.of_nat i) m) as [?|[E|?]]; [|rewrite <- E, Nat2Z.id in Hx; simplify_eq; lia|lia].
      assert (y < x) by auto. lia.
    + apply IH; try lia. intros i y Hi. destruct (Hinv i y Hi), (Hx2 i y Hi). split; [done|]. intros Hc.
      destruct (Z.lt_trichotomy (Z.of_nat i) m) as [?|[E|?]]; [lia|rewrite <- E, Nat2Z.id in Hx; simplify_eq; lia|].
      assert (x < y) by auto. lia.
    + eexists _, _, _. split; [done|]. left. assert (x = v) as -> by lia. split; [done|]. split; [lia|done].
  - eexists _, _, _. split; [done|]. right. split; [auto|]. split; [lia|]. intros i x Hi. destruct (Hinv i x Hi). split; [done|]. intros ?. auto with lia.
Qed.

Lemma intsetSearch_spec :
  exists found p, intsetSearch s v = Ok (found, p) /\
    (found = true /\ 0 <= p /\ l !! Z.to_nat p = Some v \/ found = false /\ splits_at p).
Proof.
  unfold intsetSearch. rewrite (ok_length _ _ Hok). pose proof (sorted_lookup l (ok_sorted _ _ Hok)) as Hsort.
  destruct (Z.eqb_spec (Z.of_nat (length l)) 0) as [Hz|Hnz].
  { exists false, 0. split; [done|]. right. split; [done|]. split; [lia|]. intros i x Hi%lookup_lt_Some. lia. }
  destruct (lookup_lt_is_Some_2 l (Z.to_nat (Z.of_nat (length l) - 1))) as [x Hx]; [lia|]. rewrite (get_spec _ _ Hx). cbn [mbind res_bind].
  destruct (lookup_lt_is_Some_2 l 0) as [y Hy]; [lia|]. rewrite (get_spec _ _ Hy). cbn [mbind res_bind]. rewrite Z.gtb_ltb.
  destruct (Z.ltb_spec x v) as [Hlt|Hge].
  { eexists false, _. split; [done|]. right. split; [done|]. split; [lia|]. intros i z Hi. pose proof (lookup_lt_Some _ _ _ Hi).
    split; [|lia]. intros _. destruct (decide (i = Z.to_nat (Z.of_nat (length l) - 1))) as [->|]; [by simplify_eq|].
    enough (z < x) by lia. apply (Hsort i (Z.to_nat (Z.of_nat (length l) - 1))); [lia|done|done]. }
  destruct (Z.ltb_spec v y) as [Hlt|Hge2].
  { eexists false, _. split; [done|]. right. split; [done|]. split; [lia|]. intros i z Hi. split; [lia|]. intros _.
    destruct i as [|i]; [by simplify_eq|]. enough (y < z) by lia. apply (Hsort O (S i)); [lia|done|done]. }
  destruct (search_loop_spec (S (Z.to_nat (Z.of_nat (length l)))) 0 (Z.of_nat (length l) - 1) (-1) (-1)) as (min & mid & cur & -> & Hr); try lia.
  { intros i z Hi%lookup_lt_Some. lia. }
  cbn [mbind res_bind]. destruct (Z.eqb_spec v cur) as [<-|Hne].
  - exists true, mid. split; [done|]. left. destruct Hr as [(_ & ? & ?)|[? _]]; done.
  - exists false, min. split; [done|]. right. destruct Hr as [(? & _)|[_ ?]]; [congruence|done].
Qed.

End search.

(** ** Adding and removing *)

Lemma width_cases s l : intset_ok s l -> Z.of_nat (width (encoding s)) = encoding s /\ (0 < width (encoding s))%nat /\ encoding s <= 8.
Proof. intros [[->|[->| ->]] _ _ _ _]; cbn; unfold INTSET_ENC_INT16, INTSET_ENC_INT32, INTSET_ENC_INT64; lia. Qed.

Lemma resize_spec junk enc len n c :
  0 <= n -> n * enc < 2 ^ 32 -> enc = Z.of_nat (width enc) ->
  let s := intsetResize junk (MkIntset enc len c) n in
  encoding s = enc /\ is_length s = len /\ length (contents s) = (Z.to_nat n * width enc)%nat /\
  forall a m, (a + m <= length c)%nat -> (a + m <= Z.to_nat n * width enc)%nat -> slice a m (contents s) = slice a m c.
Proof.
  intros Hn Hb Hw s. split; [done|]. split; [done|]. unfold s, intsetResize. cbn [encoding contents is_length].
  rewrite uwrap_id by nia. assert (Z.to_nat (n * enc) = (Z.to_nat n * width enc)%nat) as -> by lia. split.
  - rewrite length_take, length_app, length_replicate. lia.
  - intros a m H1 H2. unfold slice. apply list_eq. intros i. destruct (decide (i < m)%nat) as [Hi|Hi].
    + rewrite !lookup_take_lt by lia. rewrite !lookup_drop. rewrite lookup_take_lt by lia. by rewrite lookup_app_l by lia.
    + by rewrite !lookup_take_ge by lia.
Qed.

Lemma array_slice n c l i v : array_of n c l -> l !! i = Some v -> (i * n + n <= length c)%nat /\ swrap (8 * Z.of_nat n) (le_word (slice (i * n) n c)) = v.
Proof.
  intros [Hl Hv] Hi. pose proof (lookup_lt_Some _ _ _ Hi). assert (i * n + n <= length c)%nat as Hle by (rewrite Hl; nia).
  split; [done|]. specialize (Hv i v Hi). unfold load_int in Hv. rewrite (proj2 (Nat.leb_le _ _)) in Hv by done. by simplify_eq.
Qed.

Lemma load_from n c i v : (i * n + n <= length c)%nat -> swrap (8 * Z.of_nat n) (le_word (slice (i * n) n c)) = v -> load_int n i c = Ok v.
Proof. intros Hl <-. unfold load_int. by rewrite (proj2 (Nat.leb_le _ _)). Qed.

Lemma insert_sorted l v p : StronglySorted Z.lt l -> splits_at l v p -> StronglySorted Z.lt (take (Z.to_nat p) l ++ v :: drop (Z.to_nat p) l).
Proof.
  intros Hs [Hp Hsplit]. pose proof (sorted_lookup l Hs) as Hsort. apply sorted_from. intros i j x y Hij Hi Hj.
  assert (length (take (Z.to_nat p) l) = Z.to_nat p) as Hlt by (rewrite length_take; lia).
  assert (forall k z, (take (Z.to_nat p) l ++ v :: drop (Z.to_nat p) l) !! k = Some z ->
    (k < Z.to_nat p)%nat /\ l !! k = Some z \/ k = Z.to_nat p /\ z = v \/ (Z.to_nat p < k)%nat /\ l !! (k - 1)%nat = Some z) as Hcase.
  { intros k z Hk. destruct (decide (k < Z.to_nat p)%nat).
    - rewrite lookup_app_l, lookup_take_lt in Hk by lia. auto.
    - rewrite lookup_app_r in Hk by lia. rewrite Hlt in Hk. destruct (decide (k = Z.to_nat p)) as [->|].
      + rewrite Nat.sub_diag in Hk. cbn in Hk. simplify_eq. auto.
      + right. right. split; [lia|]. rewrite lookup_cons_ne_0, lookup_drop in Hk by lia. rewrite <- Hk. f_equal. lia. }
  destruct (Hcase i x Hi) as [[? Hi']|[[-> ->]|[? Hi']]], (Hcase j y Hj) as [[? Hj']|[[-> ->]|[? Hj']]]; try lia.
  - by apply (Hsort i j).
  - apply (Hsplit i x Hi'). lia.
  - apply (Hsort i (j - 1)%nat); [lia|done|done].
  - apply (Hsplit (j - 1)%nat y Hj'). lia.
  - apply (Hsort (i - 1)%nat (j - 1)%nat); [lia|done|done].
Qed.

Lemma value_fits v enc : - 2 ^ 63 <= v < 2 ^ 63 -> _intsetValueEncoding v <= enc -> 
  enc = INTSET_ENC_INT16 \/ enc = INTSET_ENC_INT32 \/ enc = INTSET_ENC_INT64 -> fits (width enc) v.
Proof.
  unfold _intsetValueEncoding, fits, INTSET_ENC_INT16, INTSET_ENC_INT32, INTSET_ENC_INT64.
  intros Hv Hle [->|[->| ->]]; cbn; destruct ((v <? - 2 ^ 31) || (v >? 2 ^ 31 - 1)) eqn:E1; try lia;
    destruct ((v <? - 2 ^ 15) || (v >? 2 ^ 15 - 1)) eqn:E2; lia.
Qed.

Section add.

Context (junk : Z) (s : intset) (l : list Z) (v : Z).
Hypothesis Hok : intset_ok s l.
Hypothesis Hlen : Z.of_nat (length l) + 1 < 2 ^ 28.
Hypothesis Hv : - 2 ^ 63 <= v < 2 ^ 63.

(** The array with a hole at [p], and [v] in the hole. *)

Lemma insert_at_spec p :
  splits_at l v p -> fits (width (encoding s)) v ->
  exists s', (let s := intsetResize junk s (is_length s + 1) in
    s ← (if p <? is_length s then intsetMoveTail s (Z.to_nat p) (Z.to_nat (p + 1)) else Ok s);
    s ← _intsetSet s (Z.to_nat p) v;
    Ok (MkIntset (encoding s) (is_length s + 1) (contents s))) = Ok s' /\
    intset_ok s' (take (Z.to_nat p) l ++ v :: drop (Z.to_nat p) l) /\ encoding s' = encoding s.
Proof.
  intros Hsp Hfit. pose proof Hsp as [Hp _]. destruct (width_cases s l Hok) as (Hw & Hpos & H8). pose proof Hok as [Henc Hl Hh Hf Hs].
  destruct (resize_spec junk (encoding s) (is_length s) (is_length s + 1) (contents s)) as (E1 & E2 & E3 & E4); [lia|nia|done|].
  replace (MkIntset (encoding s) (is_length s) (contents s)) with s in * by (by destruct s).
  set (s1 := intsetResize junk s (is_length s + 1)) in *. cbv zeta. set (w := width (encoding s)) in *.
  set (n := length l) in *. assert (Z.to_nat (is_length s + 1) = S n) as En by lia. rewrite En in *. destruct Hh as [Hc Hget]. fold n in Hc.
  (* the tail has moved *)
  assert (exists c2, (if p <? is_length s1 then intsetMoveTail s1 (Z.to_nat p) (Z.to_nat (p + 1)) else Ok s1) = Ok (MkIntset (encoding s) (is_length s) c2) /\
    length c2 = (S n * w)%nat /\
    (forall i, (i < Z.to_nat p)%nat -> slice (i * w) w c2 = slice (i * w) w (contents s)) /\
    (forall i, (Z.to_nat p <= i < n)%nat -> slice (S i * w) w c2 = slice (i * w) w (contents s))) as (c2 & -> & L2 & Hbelow & Habove).
  { rewrite E2. destruct (Z.ltb_spec p (is_length s)).
    - unfold intsetMoveTail. rewrite E1, E2. fold w.
      destruct (memmove_ok (Z.to_nat (p + 1) * w) (Z.to_nat p * w) ((Z.to_nat (is_length s) - Z.to_nat p) * w) (contents s1)) as (c2 & -> & L2 & Hin & Hout).
      { rewrite E3. nia. } { rewrite E3. nia. }
      cbn [mbind res_bind]. exists c2. split; [done|]. split; [lia|]. split.
      + intros i Hi. rewrite Hout by (left; nia). apply E4; nia.
      + intros i Hi. replace (S i * w)%nat with (Z.to_nat (p + 1) * w + (i - Z.to_nat p) * w)%nat by nia.
        rewrite Hin by nia. replace (Z.to_nat p * w + (i - Z.to_nat p) * w)%nat with (i * w)%nat by nia. apply E4; nia.
    - exists (contents s1). split; [destruct s1; cbn in *; congruence|]. split; [done|]. split; [|lia].
      intros i Hi. apply E4; nia. }
  cbn [mbind res_bind]. unfold _intsetSet. cbn [encoding contents is_length]. fold w.
  destruct (store_int_ok w (Z.to_nat p) v c2 Hpos Hfit) as (c3 & -> & L3 & Hat & Hout); [rewrite L2; nia|].
  cbn [mbind res_bind encoding contents is_length]. eexists. split; [done|]. split; [|done].
  assert (length (take (Z.to_nat p) l) = Z.to_nat p) as Htk by (rewrite length_take; fold n; lia).
  split; cbn [encoding contents is_length]; [done| | | |by apply insert_sorted].
  - rewrite length_app, Htk. cbn [length]. rewrite length_drop. fold n. lia.
  - fold w. split; [rewrite length_app, Htk; cbn [length]; rewrite length_drop; fold n; nia|].
    intros i x Hi. destruct (decide (i < Z.to_nat p)%nat) as [Hlt|Hge].
    + rewrite lookup_app_l, lookup_take_lt in Hi by lia. destruct (array_slice w (contents s) l i x) as [Hb Hx]; [by split|done|].
      apply load_from; [rewrite L3, L2; nia|]. rewrite Hout by (left; nia). by rewrite Hbelow.
    + rewrite lookup_app_r in Hi by lia. rewrite Htk in Hi. destruct (decide (i = Z.to_nat p)) as [->|Hne].
      * rewrite Nat.sub_diag in Hi. cbn in Hi. by simplify_eq.
      * rewrite lookup_cons_ne_0, lookup_drop in Hi by lia.
        replace (Z.to_nat p + pred (i - Z.to_nat p))%nat with (i - 1)%nat in Hi by lia. pose proof (lookup_lt_Some _ _ _ Hi) as Hin. fold n in Hin.
        destruct (array_slice w (contents s) l (i - 1) x) as [Hb Hx]; [by split|done|].
        apply load_from; [rewrite L3, L2; nia|]. rewrite Hout by (right; nia).
        replace i with (S (i - 1)) by lia. rewrite Habove by lia. done.
  - fold w. apply Forall_app. split; [by apply Forall_take|]. constructor; [done|by apply Forall_drop].
Qed.

(** Widening from the last element to the first: an element is read before
    anything is written over it. *)

Lemma load_outside n pos m off c c' x :
  length c' = length c -> (forall a k, (a + k <= off)%nat \/ (off + m <= a)%nat -> slice a k c' = slice a k c) ->
  (pos * n + n <= off)%nat \/ (off + m <= pos * n)%nat -> load_int n pos c = Ok x -> load_int n pos c' = Ok x.
Proof. intros Hl Hout Hd. unfold load_int. rewrite Hl. by rewrite Hout. Qed.

Lemma upgrade_loop_spec newenc curenc len prepend n : forall c,
  (n <= length l)%nat -> (width curenc <= width newenc)%nat -> (0 < width newenc)%nat -> (prepend <= 1)%nat -> length c = (S (length l) * width newenc)%nat ->
  Forall (fits (width newenc)) l ->
  (forall i x, (i < n)%nat -> l !! i = Some x -> load_int (width curenc) i c = Ok x) ->
  (forall i x, (n <= i)%nat -> l !! i = Some x -> load_int (width newenc) (i + prepend) c = Ok x) ->
  exists c', upgrade_loop n (MkIntset newenc len c) curenc prepend = Ok (MkIntset newenc len c') /\ length c' = length c /\
    forall i x, l !! i = Some x -> load_int (width newenc) (i + prepend) c' = Ok x.
Proof.
  induction n as [|n IH]; intros c Hn Hw Hpos Hp Hc Hfits Hold Hnew.
  { exists c. split; [done|]. split; [done|]. intros i x. apply Hnew. lia. }
  cbn [upgrade_loop]. destruct (lookup_lt_is_Some_2 l n) as [x Hx]; [lia|].
  unfold _intsetGetEncoded. cbn [contents]. rewrite (Hold n x) by (lia || done). cbn [mbind res_bind].
  unfold _intsetSet. cbn [encoding contents is_length].
  destruct (store_int_ok (width newenc) (n + prepend) x c Hpos) as (c1 & -> & L1 & Hat & Hout); [by eapply Forall_lookup_1|rewrite Hc; nia|].
  cbn [mbind res_bind]. destruct (IH c1) as (c' & -> & L' & Hall); try done; [lia|lia| | |].
  - intros i y Hi Hy. eapply load_outside; [exact L1|exact Hout|left; nia|]. apply Hold; [lia|done].
  - intros i y Hi Hy. destruct (decide (i = n)) as [->|]; [by simplify_eq|].
    eapply load_outside; [exact L1|exact Hout|right; nia|]. apply Hnew; [lia|done].
  - exists c'. split; [done|]. split; [lia|done].
Qed.

Lemma fits_mono n m x : (0 < n <= m)%nat -> fits n x -> fits m x.
Proof.
  unfold fits. intros Hm Hx. pose proof (Z.pow_le_mono_r 2 (8 * Z.of_nat n - 1) (8 * Z.of_nat m - 1) ltac:(lia) ltac:(lia)). lia.
Qed.

(** A value that needs more bytes is before or after all the others. *)

Lemma wide_value x : _intsetValueEncoding v > encoding s -> x ∈ l -> if v <? 0 then v < x else x < v.
Proof.
  intros Hgt Hx. pose proof (ok_fits _ _ Hok) as Hf. rewrite Forall_forall in Hf. specialize (Hf x Hx). revert Hgt Hf.
  unfold _intsetValueEncoding, fits, INTSET_ENC_INT16, INTSET_ENC_INT32, INTSET_ENC_INT64.
  destruct (ok_encoding _ _ Hok) as [->|[->| ->]]; unfold INTSET_ENC_INT16, INTSET_ENC_INT32, INTSET_ENC_INT64; cbn;
    destruct ((v <? - 2 ^ 31) || (v >? 2 ^ 31 - 1)) eqn:E1; destruct ((v <? - 2 ^ 15) || (v >? 2 ^ 15 - 1)) eqn:E2; intros Hgt Hf;
    destruct (Z.ltb_spec v 0); lia.
Qed.

Lemma value_encoding_cases : _intsetValueEncoding v = INTSET_ENC_INT16 \/ _intsetValueEncoding v = INTSET_ENC_INT32 \/ _intsetValueEncoding v = INTSET_ENC_INT64.
Proof. unfold _intsetValueEncoding. destruct (_ || _); [auto|]. destruct (_ || _); auto. Qed.

Lemma intsetUpgradeAndAdd_spec :
  _intsetValueEncoding v > encoding s ->
  exists s', intsetUpgradeAndAdd junk s v = Ok s' /\ intset_ok s' (if v <? 0 then v :: l else l ++ [v]) /\ encoding s' = _intsetValueEncoding v.
Proof.
  intros Hgt. destruct (width_cases s l Hok) as (Hw & Hpos & H8). pose proof Hok as [Henc Hl Hh Hf Hs]. pose proof value_encoding_cases as Hnew.
  unfold intsetUpgradeAndAdd. set (enc := _intsetValueEncoding v) in *. cbv zeta.
  assert (Z.of_nat (width enc) = enc /\ enc <= 8) as [Hwn Hn8].
  { destruct Hnew as [E|[E|E]]; rewrite E; unfold INTSET_ENC_INT16, INTSET_ENC_INT32, INTSET_ENC_INT64; cbn; lia. }
  destruct (resize_spec junk enc (is_length s) (is_length s + 1) (contents s)) as (E1 & E2 & E3 & E4); [lia|nia|lia|].
  set (s1 := intsetResize junk _ _) in *. set (prepend := if v <? 0 then 1%nat else 0%nat).
  assert (prepend = 0%nat \/ prepend = 1%nat) as Hpre by (unfold prepend; destruct (v <? 0); auto).
  replace s1 with (MkIntset enc (is_length s) (contents s1)) by (destruct s1; cbn in *; congruence).
  assert (Z.to_nat (is_length s + 1) = S (length l)) as En by lia. rewrite En in *.
  assert (fits (width enc) v) as Hvf by (apply value_fits; [done|unfold enc; lia|done]).
  assert (Forall (fits (width enc)) l) as Hfn by (eapply Forall_impl; [exact Hf|]; intros x; apply fits_mono; lia).
  destruct (upgrade_loop_spec enc (encoding s) (is_length s) prepend (Z.to_nat (is_length s)) (contents s1)) as (c2 & -> & L2 & Hall); try done; try lia.
  { intros i x Hi Hx. destruct (array_slice _ _ _ _ _ Hh Hx) as [Hb Hxv]. destruct Hh as [Hc _].
    apply load_from; [rewrite E3; nia|]. rewrite E4; [done|done|nia]. }
  { intros i x Hi Hx%lookup_lt_Some. lia. }
  cbn [mbind res_bind]. assert (length c2 = (S (length l) * width enc)%nat) as L2' by lia.
  set (pos := if (prepend =? 1)%nat then 0%nat else Z.to_nat (is_length s)).
  assert (exists c3, (if (prepend =? 1)%nat then _intsetSet (MkIntset enc (is_length s) c2) 0 v
      else _intsetSet (MkIntset enc (is_length s) c2) (Z.to_nat (is_length (MkIntset enc (is_length s) c2))) v) = Ok (MkIntset enc (is_length s) c3) /\
    length c3 = length c2 /\ load_int (width enc) pos c3 = Ok v /\
    forall a m, (a + m <= pos * width enc)%nat \/ (pos * width enc + width enc <= a)%nat -> slice a m c3 = slice a m c2) as (c3 & -> & L3 & Hat & Hout).
  { destruct (store_int_ok (width enc) pos v c2) as (c3 & E & L3 & Hat & Hout); [lia|done|unfold pos; destruct Hpre as [->| ->]; cbn; nia|].
    exists c3. split; [|done]. unfold pos in E. destruct Hpre as [Hp|Hp]; rewrite Hp in *; cbn in *; unfold _intsetSet; cbn; by rewrite E. }
  cbn [mbind res_bind encoding is_length contents]. eexists. split; [done|]. split; [|done].
  assert (length (if v <? 0 then v :: l else l ++ [v]) = S (length l)) as Hll by (destruct (v <? 0); [done|rewrite length_app; cbn; lia]).
  assert (forall i x, l !! i = Some x -> load_int (width enc) (i + prepend) c3 = Ok x) as Hloads.
  { intros i x Hx. eapply load_outside; [exact L3|exact Hout| |by apply Hall]. pose proof (lookup_lt_Some _ _ _ Hx).
    unfold pos. destruct Hpre as [->| ->]; cbn; [left; nia|right; nia]. }
  split; cbn [encoding is_length contents].
  - done.
  - rewrite Hll. lia.
  - split; [rewrite Hll; lia|]. intros i x Hi. unfold prepend, pos in *. destruct (v <? 0); cbn [Nat.eqb] in Hat.
    + destruct i as [|i]; [by injection Hi as <-|]. change (l !! i = Some x) in Hi. rewrite <- Nat.add_1_r. by apply Hloads.
    + destruct (decide (i < length l)%nat).
      * rewrite lookup_app_l in Hi by done. rewrite <- (Nat.add_0_r i). by apply Hloads.
      * rewrite lookup_app_r in Hi by lia. assert (i = length l) as -> by (apply lookup_lt_Some in Hi; cbn in Hi; lia).
        rewrite Nat.sub_diag in Hi. cbn in Hi. simplify_eq. by replace (Z.to_nat (is_length s)) with (length l) in Hat by lia.
  - destruct (v <? 0); [by apply Forall_cons_2|]. apply Forall_app. split; [done|]. apply Forall_cons_2; [done|apply Forall_nil_2].
  - pose proof (fun x => wide_value x Hgt) as Hwv. destruct (v <? 0).
    + constructor; [done|]. by apply Forall_forall.
    + apply StronglySorted_app. split; [|split; [done|repeat constructor]].
      intros x y Hx Hy%list_elem_of_singleton. subst y. by apply Hwv.
Qed.

Lemma splits_not_in p : splits_at l v p -> v ∉ l.
Proof.
  intros [_ Hsp] [i Hi]%list_elem_of_lookup. destruct (Hsp i v Hi) as [H1 H2]. destruct (Z.lt_ge_cases (Z.of_nat i) p); [specialize (H1 H)|specialize (H2 H)]; lia.
Qed.

Lemma narrow_value : _intsetValueEncoding v > encoding s -> v ∉ l.
Proof. intros Hgt Hin. pose proof (wide_value v Hgt Hin). destruct (v <? 0); lia. Qed.

Lemma intsetAdd_spec :
  exists s' l', intsetAdd junk s v = Ok (bool_decide (v ∉ l), s') /\ intset_ok s' l' /\ (forall x, x ∈ l' <-> x = v \/ x ∈ l) /\
    (length l' <= S (length l))%nat.
Proof.
  unfold intsetAdd. rewrite Z.gtb_ltb. destruct (Z.ltb_spec (encoding s) (_intsetValueEncoding v)) as [Hgt|Hle].
  - destruct intsetUpgradeAndAdd_spec as (s' & -> & Hok' & _); [lia|]. cbn [mbind res_bind]. eexists _, _.
    rewrite bool_decide_true by (apply narrow_value; lia). split; [done|]. split; [exact Hok'|].
    destruct (v <? 0); [split; [intros x; apply elem_of_cons|done]|]. split; [intros x; rewrite elem_of_app, list_elem_of_singleton; tauto|].
    rewrite length_app. cbn. lia.
  - destruct (intsetSearch_spec s l v Hok) as (found & p & -> & [(-> & Hp & Hx)|[-> Hsp]]); [lia|..]; cbn [mbind res_bind].
    + assert (v ∈ l) by (by eapply list_elem_of_lookup_2). exists s, l. rewrite bool_decide_false by (by intros []).
      split; [done|]. split; [done|]. split; [|lia]. intros x. split; [by right|]. by intros [->|].
    + destruct (insert_at_spec p Hsp) as (s' & E & Hok' & _); [by apply value_fits; [|lia|apply Hok]|].
      eexists _, _. rewrite bool_decide_true by (by eapply splits_not_in). split; [|split; [exact Hok'|]].
      * revert E. cbv zeta. intros E. res_inv. subst. rewrite E0. cbn [mbind res_bind]. rewrite E1. cbn [mbind res_bind]. done.
      * split; [|rewrite length_app; cbn [length]; rewrite length_take, length_drop; lia].
        intros x. rewrite elem_of_app, elem_of_cons. rewrite <- (take_drop (Z.to_nat p) l) at 3. rewrite elem_of_app. tauto.
Qed.

Lemma delete_at_spec p :
  0 <= p -> l !! Z.to_nat p = Some v ->
  exists s', (s1 ← (if p <? is_length s - 1 then intsetMoveTail s (Z.to_nat (p + 1)) (Z.to_nat p) else Ok s);
    Ok (MkIntset (encoding (intsetResize junk s1 (is_length s - 1))) (is_length s - 1) (contents (intsetResize junk s1 (is_length s - 1))))) = Ok s' /\
    intset_ok s' (delete (Z.to_nat p) l).
Proof.
  intros Hp Hx. pose proof (lookup_lt_Some _ _ _ Hx) as Hlt. destruct (width_cases s l Hok) as (Hw & Hpos & H8). pose proof Hok as [Henc Hl Hh Hf Hs].
  set (w := width (encoding s)) in *. set (n := length l) in *. pose proof Hh as [Hc _]. fold n in Hc.
  assert (exists c1, (if p <? is_length s - 1 then intsetMoveTail s (Z.to_nat (p + 1)) (Z.to_nat p) else Ok s) = Ok (MkIntset (encoding s) (is_length s) c1) /\
    length c1 = (n * w)%nat /\ (forall i, (i < Z.to_nat p)%nat -> slice (i * w) w c1 = slice (i * w) w (contents s)) /\
    (forall i, (Z.to_nat p <= i < n - 1)%nat -> slice (i * w) w c1 = slice (S i * w) w (contents s))) as (c1 & -> & L1 & Hbelow & Habove).
  { destruct (Z.ltb_spec p (is_length s - 1)).
    - unfold intsetMoveTail. fold w.
      destruct (memmove_ok (Z.to_nat p * w) (Z.to_nat (p + 1) * w) ((Z.to_nat (is_length s) - Z.to_nat (p + 1)) * w) (contents s)) as (c1 & -> & L1 & Hin & Hout).
      { rewrite Hc. nia. } { rewrite Hc. nia. }
      cbn [mbind res_bind]. exists c1. split; [done|]. split; [lia|]. split; [intros i Hi; apply Hout; left; nia|].
      intros i Hi. replace (i * w)%nat with (Z.to_nat p * w + (i - Z.to_nat p) * w)%nat by nia. rewrite Hin by nia. f_equal. nia.
    - exists (contents s). split; [by destruct s|]. split; [done|]. split; [done|]. lia. }
  cbn [mbind res_bind]. eexists. split; [done|].
  destruct (resize_spec junk (encoding s) (is_length s) (is_length s - 1) c1) as (E1 & _ & E3 & E4); [lia|nia|done|]. fold w in E3, E4.
  assert (Z.to_nat (is_length s - 1) = n - 1)%nat as En by lia. rewrite En in *.
  assert (length (delete (Z.to_nat p) l) = n - 1)%nat as Hdl by (rewrite length_delete by (by eexists); lia).
  split; cbn [encoding is_length contents]; rewrite ?E1; [done|lia| | |].
  - fold w. split; [lia|]. intros i x Hi. pose proof (lookup_lt_Some _ _ _ Hi) as Hi2.
    apply load_from; [rewrite E3; nia|]. rewrite E4 by nia. destruct (decide (i < Z.to_nat p)%nat).
    + rewrite list_lookup_delete_lt in Hi by done. rewrite Hbelow by done. by apply (array_slice w (contents s) l i x).
    + rewrite list_lookup_delete_ge in Hi by lia. rewrite Habove by lia. by apply (array_slice w (contents s) l (S i) x).
  - by apply Forall_delete.
  - rewrite delete_take_drop. rewrite <- (take_drop (Z.to_nat p) l) in Hs. apply StronglySorted_app in Hs as (H1 & H2 & H3).
    rewrite (drop_S l v) in H1, H3 by done. apply StronglySorted_app. split; [|split; [done|by inversion H3]].
    intros x y Hx' Hy. apply H1; [done|by right].
Qed.

Lemma intsetRemove_spec :
  exists s' l', intsetRemove junk s v = Ok (bool_decide (v ∈ l), s') /\ intset_ok s' l' /\ (forall x, x ∈ l' <-> x <> v /\ x ∈ l) /\
    (length l' <= S (length l))%nat.
Proof.
  unfold intsetRemove. assert (v ∉ l -> (exists s' l', Ok (false, s) = Ok (bool_decide (v ∈ l), s') /\ intset_ok s' l' /\ (forall x, x ∈ l' <-> x <> v /\ x ∈ l) /\
    (length l' <= S (length l))%nat)) as Hno.
  { intros Hn. exists s, l. rewrite bool_decide_false by done. split; [done|]. split; [done|]. split; [|lia]. intros x. split; [|by intros []].
    intros Hx. split; [|done]. by intros ->. }
  destruct (Z.leb_spec (_intsetValueEncoding v) (encoding s)) as [Hle|Hgt]; [|apply Hno, narrow_value; lia].
  destruct (intsetSearch_spec s l v Hok) as (found & p & -> & [(-> & Hp & Hx)|[-> Hsp]]); [lia|..]; cbn [mbind res_bind negb].
  - destruct (delete_at_spec p Hp Hx) as (s' & E & Hok'). exists s', (delete (Z.to_nat p) l).
    assert (v ∈ l) by (by eapply list_elem_of_lookup_2). rewrite bool_decide_true by done.
    split; [|split; [done|split]].
    + revert E. intros E. res_inv. subst. rewrite E0. cbn [mbind res_bind]. done.
    + intros x. rewrite delete_take_drop. rewrite <- (take_drop_middle l (Z.to_nat p) v Hx) at 3. rewrite !elem_of_app, elem_of_cons.
      pose proof (ok_sorted _ _ Hok) as Hs. rewrite <- (take_drop_middle l (Z.to_nat p) v Hx) in Hs. apply StronglySorted_app in Hs as (H1 & _ & H3).
      inversion H3 as [|? ? _ Hf]; subst. rewrite Forall_forall in Hf. split; [|intros [Hne [?|[?|?]]]; auto; done].
      intros [Hx'|Hx']; (split; [|by auto]); intros ->; [specialize (H1 v v Hx' ltac:(by left))|specialize (Hf v Hx')]; lia.
    + pose proof (length_delete l (Z.to_nat p) ltac:(by eexists)). lia.
  - by apply Hno, (splits_not_in p).
Qed.

Lemma intsetFind_spec : intsetFind s v = Ok (bool_decide (v ∈ l)).
Proof.
  unfold intsetFind. destruct (Z.leb_spec (_intsetValueEncoding v) (encoding s)) as [Hle|Hgt].
  - destruct (intsetSearch_spec s l v Hok) as (found & p & -> & [(-> & Hp & Hx)|[-> Hsp]]); [lia|..]; cbn [mbind res_bind].
    + rewrite bool_decide_true by (by eapply list_elem_of_lookup_2). done.
    + rewrite bool_decide_false by (by eapply splits_not_in). done.
  - rewrite bool_decide_false by (apply narrow_value; lia). done.
Qed.

End add.

(** ** Refinement: an intset is a finite set of integers *)

Inductive intset_op := IsAdd (v : Z) | IsRemove (v : Z) | IsFind (v : Z).

Definition op_value (op : intset_op) : Z := match op with IsAdd v | IsRemove v | IsFind v => v end.

Definition intset_run (junk : Z) (op : intset_op) (s : intset) : res (bool * intset) :=
  match op with
  | IsAdd v => intsetAdd junk s v
  | IsRemove v => intsetRemove junk s v
  | IsFind v => b ← intsetFind s v; Ok (b, s)
  end.

Fixpoint intset_runs (junk : Z) (ops : list intset_op) (s : intset) : res (list bool * intset) :=
  match ops with
  | [] => Ok ([], s)
  | op :: ops =>
      '(b, s) ← intset_run junk op s;
      '(l, s) ← intset_runs junk ops s;
      Ok (b :: l, s)
  end.

Definition set_run (op : intset_op) (X : gset Z) : bool * gset Z :=
  match op with
  | IsAdd v => (bool_decide (v ∉ X), {[ v ]} ∪ X)
  | IsRemove v => (bool_decide (v ∈ X), X ∖ {[ v ]})
  | IsFind v => (bool_decide (v ∈ X), X)
  end.

Fixpoint set_runs (ops : list intset_op) (X : gset Z) : list bool * gset Z :=
  match ops with
  | [] => ([], X)
  | op :: ops =>
      let '(b, X) := set_run op X in
      let '(l, X) := set_runs ops X in
      (b :: l, X)
  end.

Lemma intset_run_spec junk op s l :
  intset_ok s l -> Z.of_nat (length l) + 1 < 2 ^ 28 -> - 2 ^ 63 <= op_value op < 2 ^ 63 ->
  exists s' l', intset_run junk op s = Ok (fst (set_run op (list_to_set l)), s') /\ intset_ok s' l' /\
    list_to_set l' = snd (set_run op (list_to_set l)) /\ (length l' <= S (length l))%nat.
Proof.
  intros Hok Hl Hv. destruct op as [v|v|v]; cbn [intset_run set_run fst snd op_value] in *.
  - destruct (intsetAdd_spec junk s l v Hok Hl Hv) as (s' & l' & -> & Hok' & Hx & Hl'). exists s', l'.
    split; [do 2 f_equal; apply bool_decide_ext; set_solver|]. split; [done|]. split; [set_solver|done].
  - destruct (intsetRemove_spec junk s l v Hok Hl Hv) as (s' & l' & -> & Hok' & Hx & Hl'). exists s', l'.
    split; [do 2 f_equal; apply bool_decide_ext; set_solver|]. split; [done|]. split; [set_solver|done].
  - rewrite (intsetFind_spec s l v Hok Hl). cbn [mbind res_bind]. exists s, l.
    split; [do 2 f_equal; apply bool_decide_ext; set_solver|]. split; [done|]. split; [done|lia].
Qed.

Lemma intset_runs_spec junk ops : forall s l,
  intset_ok s l -> Z.of_nat (length l + length ops) + 1 < 2 ^ 28 -> Forall (fun op => - 2 ^ 63 <= op_value op < 2 ^ 63) ops ->
  exists s' l', intset_runs junk ops s = Ok (fst (set_runs ops (list_to_set l)), s') /\ intset_ok s' l' /\
    list_to_set l' = snd (set_runs ops (list_to_set l)) /\ (length l' <= length l + length ops)%nat.
Proof.
  induction ops as [|op ops IH]; intros s l Hok Hl Hops; [exists s, l; split; [done|]; split; [done|]; split; [done|cbn; lia]|]. apply Forall_cons in Hops as [Hop Hops].
  cbn [intset_runs set_runs length] in *. destruct (intset_run_spec junk op s l Hok) as (s1 & l1 & -> & Hok1 & Hs1 & Hl1); [lia|done|].
  cbn [mbind res_bind]. destruct (set_run op (list_to_set l)) as [b X1]. cbn [fst snd] in *.
  destruct (IH s1 l1 Hok1) as (s' & l' & -> & Hok' & Hs' & Hl'); [lia|done|]. cbn [mbind res_bind]. rewrite Hs1 in *.
  destruct (set_runs ops X1) as [bs X']. exists s', l'. split; [done|]. split; [done|]. split; [done|lia].
Qed.

Lemma intsetNew_ok : intset_ok intsetNew [].
Proof. split; [by left|done|split; [done|]|constructor|constructor]. intros i v Hi. by rewrite lookup_nil in Hi. Qed.

(** C27: whatever is added, removed and looked for, an intset answers as a finite
    set would; the array stays sorted, all its elements fit the encoding, and
    widening them in place loses none, whatever the memory held before. *)
Theorem intset_refines_set junk ops (Hl : Z.of_nat (length ops) + 1 < 2 ^ 28)
    (Hops : Forall (fun op => - 2 ^ 63 <= op_value op < 2 ^ 63) ops) :
  exists s l, intset_runs junk ops intsetNew = Ok (fst (set_runs ops ∅), s) /\ intset_ok s l /\ list_to_set l = snd (set_runs ops ∅) /\
    intsetLen s = Z.of_nat (size (snd (set_runs ops ∅))) /\ intsetBlobLen s = 8 + Z.of_nat (length (contents s)) /\
    forall pos, 0 <= pos < 2 ^ 32 -> intsetGet s pos = Ok (l !! Z.to_nat pos).
Proof.
  destruct (intset_runs_spec junk ops intsetNew [] intsetNew_ok) as (s & l & E & Hok & Hs & Hbound); [cbn; lia|done|].
  assert (NoDup l) as Hnd.
  { apply NoDup_alt. intros i j x Hi Hj. pose proof (sorted_lookup l (ok_sorted _ _ Hok)) as Hsort.
    destruct (Nat.lt_trichotomy i j) as [Hlt|[?|Hlt]]; [pose proof (Hsort _ _ _ _ Hlt Hi Hj); lia|done|pose proof (Hsort _ _ _ _ Hlt Hj Hi); lia]. }
  pose proof (ok_length _ _ Hok) as Hlen. destruct (width_cases s l Hok) as (Hw & Hpos & H8).
  exists s, l. split; [exact E|]. split; [done|]. split; [done|]. split; [|split].
  - unfold intsetLen. rewrite Hlen. f_equal. change (list_to_set []) with (∅ : gset Z) in Hs. rewrite <- Hs. by rewrite size_list_to_set.
  - unfold intsetBlobLen. f_equal. destruct (ok_holds _ _ Hok) as [Hc _]. rewrite Hc, Hlen.
    cbn in Hbound. rewrite uwrap_id by nia. lia.
  - intros pos Hp. unfold intsetGet. rewrite Hlen. destruct (Z.ltb_spec pos (Z.of_nat (length l))).
    + destruct (lookup_lt_is_Some_2 l (Z.to_nat pos)) as [x Hx]; [lia|]. rewrite (get_spec s l Hok _ _ Hx). by rewrite Hx.
    + rewrite lookup_ge_None_2; [done|lia].
Qed.

Definition example_intset_ops : list intset_op :=
  [IsAdd 5; IsAdd (-3); IsAdd 5; IsAdd 70000; IsAdd (-5000000000); IsRemove (-3); IsFind 70000; IsFind 6].

Lemma intset_refines_set_witness :
  exists s l, intset_runs 171 example_intset_ops intsetNew = Ok ([true; true; false; true; true; true; true; false], s) /\ intset_ok s l /\
    encoding s = INTSET_ENC_INT64 /\ l = [-5000000000; 5; 70000].
Proof.
  destruct (intset_refines_set 171 example_intset_ops) as (s & l & E & Hok & _ & _ & _ & Hget).
  - vm_compute. reflexivity.
  - repeat constructor; vm_compute; intuition discriminate.
  - exists s, l. split; [exact E|]. split; [exact Hok|]. vm_compute in E. injection E as <-. split; [reflexivity|].
    pose proof (ok_length _ _ Hok) as Hl. cbn in Hl.
    pose proof (Hget 0 ltac:(lia)) as H0. pose proof (Hget 1 ltac:(lia)) as H1. pose proof (Hget 2 ltac:(lia)) as H2.
    vm_compute in H0, H1, H2. destruct l as [|a [|b [|c [|d l]]]]; cbn in Hl; try lia. congruence.
Defined.
