(* ===== verification/Multi.v ===== *)
(** * Commands and transactions ([src/src/multi.c], [src/src/server.c])

    [processCommand] accepts, queues or rejects a command of a client, [call]
    runs it and propagates it; MULTI, EXEC, DISCARD, WATCH and UNWATCH, and the
    variants with which a transaction travels between the groups, [CRDT.MULTI]
    and [CRDT.EXEC].  The commands on the data come from the CRDT module: what
    one of them does is part of its entry in the table ([cmd_run]), a function
    from the data to an [effect].  The append-only file, the monitors, the
    statistics and scripts are not modelled. *)

From S2P Require Import Prelude Util Sds VectorClock VcTheory VcText VcClaims Proxy CrdtServer Backlog Resp World Feed.

(** ** Replies *)

Definition shared_ok : bytes := str "+OK" ++ CRLF.

Definition shared_queued : bytes := str "+QUEUED" ++ CRLF.

Definition shared_nullmultibulk : bytes := str "*-1" ++ CRLF.

Definition shared_syntaxerr : bytes := str "-ERR syntax error" ++ CRLF.

Definition shared_execaborterr : bytes :=
  str "-EXECABORT Transaction discarded because of previous errors." ++ CRLF.

Definition shared_noautherr : bytes := str "-NOAUTH Authentication required." ++ CRLF.

Definition shared_oomerr : bytes := str "-OOM command not allowed when used memory > 'maxmemory'." ++ CRLF.

Definition shared_noreplicaserr : bytes := str "-NOREPLICAS Not enough good slaves to write." ++ CRLF.

Definition shared_roslaveerr : bytes := str "-READONLY You can't write against a read only slave." ++ CRLF.

Definition shared_loadingerr : bytes := str "-LOADING Redis is loading the dataset in memory" ++ CRLF.

Definition shared_masterdownerr : bytes :=
  str "-MASTERDOWN Link with MASTER is down and slave-serve-stale-data is set to 'no'." ++ CRLF.

Definition shared_slowscripterr : bytes :=
  str "-BUSY Redis is busy running a script. You can only call SCRIPT KILL or SHUTDOWN NOSAVE." ++ CRLF.

(** ** Commands *)

(** What [processCommand] compares [cmd->proc] with. *)

Inductive kind :=
| KMulti | KExec | KCrdtExec | KDiscard | KWatch | KUnwatch | KSelect
| KAuth | KPing | KPubsub | KReplconf | KShutdown | KScript | KMergeEnd | KPlain.

#[global] Instance kind_eq_dec : EqDecision kind.
Proof. solve_decision. Defined.

(** A command to propagate: database, arguments, and whether it goes to the peers
    ([PROPAGATE_CRDT_REPL]) and to the own slaves ([PROPAGATE_REPL]). *)

Record redisOp := MkOp { op_dbid : Z; op_argv : list robj; op_crdt : bool; op_repl : bool }.

(** A key that was changed, or a flush of a database (-1: of all of them) with
    the keys that were present. *)

Inductive key_touch :=
| TouchKey (dbid : Z) (key : bytes)
| TouchFlush (dbid : Z) (present : Z -> bytes -> bool).

(** The propagation flags of a client: [CLIENT_FORCE_AOF], [CLIENT_FORCE_REPL],
    [CLIENT_PREVENT_AOF_PROP], [CLIENT_PREVENT_REPL_PROP] and
    [CLIENT_FORCE_REPL_CRDT]. *)

Record pflags := MkPflags {
  p_force_aof : bool;
  p_force_repl : bool;
  p_prevent_aof : bool;
  p_prevent_repl : bool;
  p_force_crdt : bool
}.

Definition no_prop : pflags := MkPflags false false false false false.

(** What a command does: the new data, the reply, how much it adds to
    [server.dirty], the keys it signals, the commands it asks to propagate, the
    propagation flags it sets, and what it does to the flags of the client
    (authenticated, subscribed) and to the replication state. *)

Record effect (D : Type) := MkEffect {
  e_data : D;
  e_reply : bytes;
  e_dirty : Z;
  e_touched : list key_touch;
  e_also : list redisOp;
  e_prop : pflags;
  e_authenticated : option bool;
  e_pubsub : option bool;
  e_world : world -> world
}.

Arguments MkEffect {D} _ _ _ _ _ _ _ _ _.
Arguments e_data {D} _.
Arguments e_reply {D} _.
Arguments e_dirty {D} _.
Arguments e_touched {D} _.
Arguments e_also {D} _.
Arguments e_prop {D} _.
Arguments e_authenticated {D} _.
Arguments e_pubsub {D} _.
Arguments e_world {D} _.

Record command (D : Type) := MkCommand {
  cmd_name : bytes;
  cmd_arity : Z;
  cmd_write : bool;
  cmd_readonly : bool;
  cmd_denyoom : bool;
  cmd_admin : bool;
  cmd_stale : bool;
  cmd_loading : bool;
  cmd_module : bool;
  cmd_kind : kind;
  cmd_run : list robj -> Z -> D -> effect D
}.

Arguments MkCommand {D} _ _ _ _ _ _ _ _ _ _ _.
Arguments cmd_name {D} _.
Arguments cmd_arity {D} _.
Arguments cmd_write {D} _.
Arguments cmd_readonly {D} _.
Arguments cmd_denyoom {D} _.
Arguments cmd_admin {D} _.
Arguments cmd_stale {D} _.
Arguments cmd_loading {D} _.
Arguments cmd_module {D} _.
Arguments cmd_kind {D} _.
Arguments cmd_run {D} _ _ _ _.

(** ** Clients *)

Record mflags := MkMflags { f_multi : bool; f_dirty_cas : bool; f_dirty_exec : bool }.

Record tclient (D : Type) := MkTc {
  tc_flags : mflags;
  tc_prop : pflags;
  tc_authenticated : bool;
  tc_pubsub : bool;
  tc_master : bool;
  tc_crdt_master : bool;
  tc_db : Z;
  tc_gid : Z;
  tc_mstate : list (command D * list robj);
  tc_watched_keys : list (Z * bytes);
  tc_argv : list robj;
  tc_reply : bytes
}.

Arguments MkTc {D} _ _ _ _ _ _ _ _ _ _ _ _.
Arguments tc_flags {D} _.
Arguments tc_prop {D} _.
Arguments tc_authenticated {D} _.
Arguments tc_pubsub {D} _.
Arguments tc_master {D} _.
Arguments tc_crdt_master {D} _.
Arguments tc_db {D} _.
Arguments tc_gid {D} _.
Arguments tc_mstate {D} _.
Arguments tc_watched_keys {D} _.
Arguments tc_argv {D} _.
Arguments tc_reply {D} _.

(** ** The server

    [tx_watched] is [watched_keys] of all databases: the clients that watch a
    key.  [tx_touched] is a history the program does not keep: the watched keys
    that were touched so far. *)

Record txserver (D : Type) := MkTx {
  tx_world : world;
  tx_clients : gmap nat (tclient D);
  tx_watched : gmap (Z * bytes) (list nat);
  tx_data : D;
  tx_dirty : Z;
  tx_touched : list (Z * bytes)
}.

Arguments MkTx {D} _ _ _ _ _ _.
Arguments tx_world {D} _.
Arguments tx_clients {D} _.
Arguments tx_watched {D} _.
Arguments tx_data {D} _.
Arguments tx_dirty {D} _.
Arguments tx_touched {D} _.

(** What [processCommand] reads of the configuration and the state of the rest of
    the server.  [g_redirect]: in a cluster, the redirection if the keys are not
    served here; [g_oom]: [freeMemoryIfNeeded] failed; [g_freed]: it freed the
    running client; [g_write_error]: the reply if writes are stopped because the
    last save failed. *)

Record gate := MkGate {
  g_requirepass : bool;
  g_redirect : option bytes;
  g_freed : bool;
  g_oom : bool;
  g_write_error : option bytes;
  g_few_slaves : bool;
  g_slave_ro : bool;
  g_serve_stale : bool;
  g_loading : bool;
  g_crdt_loading : bool;
  g_lua_timedout : bool;
  g_cluster : bool;
  g_dbnum : Z
}.

Section transactions.

Context {D : Type} (g : gate).

Implicit Types (st : txserver D) (id : nat) (c : tclient D) (cmd : command D).

Definition set_tc_flags (v : mflags) c : tclient D :=
  MkTc v (tc_prop c) (tc_authenticated c) (tc_pubsub c) (tc_master c) (tc_crdt_master c) (tc_db c) (tc_gid c) (tc_mstate c) (tc_watched_keys c) (tc_argv c) (tc_reply c).

Definition set_tc_prop (v : pflags) c : tclient D :=
  MkTc (tc_flags c) v (tc_authenticated c) (tc_pubsub c) (tc_master c) (tc_crdt_master c) (tc_db c) (tc_gid c) (tc_mstate c) (tc_watched_keys c) (tc_argv c) (tc_reply c).

Definition set_tc_session (auth pubsub : bool) c : tclient D :=
  MkTc (tc_flags c) (tc_prop c) auth pubsub (tc_master c) (tc_crdt_master c) (tc_db c) (tc_gid c) (tc_mstate c) (tc_watched_keys c) (tc_argv c) (tc_reply c).

Definition set_tc_db (v : Z) c : tclient D :=
  MkTc (tc_flags c) (tc_prop c) (tc_authenticated c) (tc_pubsub c) (tc_master c) (tc_crdt_master c) v (tc_gid c) (tc_mstate c) (tc_watched_keys c) (tc_argv c) (tc_reply c).

Definition set_tc_gid (v : Z) c : tclient D :=
  MkTc (tc_flags c) (tc_prop c) (tc_authenticated c) (tc_pubsub c) (tc_master c) (tc_crdt_master c) (tc_db c) v (tc_mstate c) (tc_watched_keys c) (tc_argv c) (tc_reply c).

Definition set_tc_mstate (v : list (command D * list robj)) c : tclient D :=
  MkTc (tc_flags c) (tc_prop c) (tc_authenticated c) (tc_pubsub c) (tc_master c) (tc_crdt_master c) (tc_db c) (tc_gid c) v (tc_watched_keys c) (tc_argv c) (tc_reply c).

Definition set_tc_watched_keys (v : list (Z * bytes)) c : tclient D :=
  MkTc (tc_flags c) (tc_prop c) (tc_authenticated c) (tc_pubsub c) (tc_master c) (tc_crdt_master c) (tc_db c) (tc_gid c) (tc_mstate c) v (tc_argv c) (tc_reply c).

Definition set_tc_argv (v : list robj) c : tclient D :=
  MkTc (tc_flags c) (tc_prop c) (tc_authenticated c) (tc_pubsub c) (tc_master c) (tc_crdt_master c) (tc_db c) (tc_gid c) (tc_mstate c) (tc_watched_keys c) v (tc_reply c).

Definition set_tc_reply (v : bytes) c : tclient D :=
  MkTc (tc_flags c) (tc_prop c) (tc_authenticated c) (tc_pubsub c) (tc_master c) (tc_crdt_master c) (tc_db c) (tc_gid c) (tc_mstate c) (tc_watched_keys c) (tc_argv c) v.

Definition set_tx_world (v : world) st : txserver D :=
  MkTx v (tx_clients st) (tx_watched st) (tx_data st) (tx_dirty st) (tx_touched st).

Definition set_tx_clients (v : gmap nat (tclient D)) st : txserver D :=
  MkTx (tx_world st) v (tx_watched st) (tx_data st) (tx_dirty st) (tx_touched st).

Definition set_tx_watched (v : gmap (Z * bytes) (list nat)) st : txserver D :=
  MkTx (tx_world st) (tx_clients st) v (tx_data st) (tx_dirty st) (tx_touched st).

Definition set_tx_data (v : D) st : txserver D :=
  MkTx (tx_world st) (tx_clients st) (tx_watched st) v (tx_dirty st) (tx_touched st).

Definition set_tx_dirty (v : Z) st : txserver D :=
  MkTx (tx_world st) (tx_clients st) (tx_watched st) (tx_data st) v (tx_touched st).

Definition set_tx_touched (v : list (Z * bytes)) st : txserver D :=
  MkTx (tx_world st) (tx_clients st) (tx_watched st) (tx_data st) (tx_dirty st) v.

Definition upd (f : tclient D -> tclient D) id st : txserver D :=
  set_tx_clients (alter f id (tx_clients st)) st.

Definition get_client id st : res (tclient D) := need (tx_clients st !! id).

Definition addReply (p : bytes) id st : txserver D :=
  upd (fun c => set_tc_reply (tc_reply c ++ p) c) id st.

(** ** WATCH *)

Definition watchForKey id (key : bytes) st : res (txserver D) :=
  c ← get_client id st;
  let wk := (tc_db c, key) in
  if bool_decide (wk ∈ tc_watched_keys c) then Ok st else
  let clients := default [] (tx_watched st !! wk) in
  let st := set_tx_watched (<[wk := clients ++ [id]]> (tx_watched st)) st in
  Ok (upd (fun c => set_tc_watched_keys (tc_watched_keys c ++ [wk]) c) id st).

(** [listDelNode(clients,listSearchKey(clients,c))]: the first node of the
    client. *)

Fixpoint del_client id (clients : list nat) : res (list nat) :=
  match clients with
  | [] => Undef
  | i :: clients => if (i =? id)%nat then Ok clients else rest ← del_client id clients; Ok (i :: rest)
  end.

Fixpoint unwatch_loop id (keys : list (Z * bytes)) (watched : gmap (Z * bytes) (list nat)) :
    res (gmap (Z * bytes) (list nat)) :=
  match keys with
  | [] => Ok watched
  | wk :: keys =>
      _ ← c_assert (bool_decide (is_Some (watched !! wk)));
      clients ← del_client id (default [] (watched !! wk));
      unwatch_loop id keys (match clients with [] => delete wk watched | _ => <[wk := clients]> watched end)
  end.

Definition unwatchAllKeys id st : res (txserver D) :=
  c ← get_client id st;
  match tc_watched_keys c with
  | [] => Ok st
  | keys =>
      watched ← unwatch_loop id keys (tx_watched st);
      Ok (upd (set_tc_watched_keys []) id (set_tx_watched watched st))
  end.

Definition set_dirty_cas c : tclient D :=
  set_tc_flags (MkMflags (f_multi (tc_flags c)) true (f_dirty_exec (tc_flags c))) c.

Definition touchWatchedKey (dbid : Z) (key : bytes) st : txserver D :=
  match tx_watched st !! (dbid, key) with
  | None => st
  | Some clients =>
      set_tx_touched (tx_touched st ++ [(dbid, key)])
        (foldl (fun st id => upd set_dirty_cas id st) st clients)
  end.

(** Does the flush remove the watched key? *)

Definition flushed (dbid : Z) (present : Z -> bytes -> bool) (wk : Z * bytes) : bool :=
  ((dbid =? -1) || (fst wk =? dbid)) && present (fst wk) (snd wk).

Definition touchWatchedKeysOnFlush (dbid : Z) (present : Z -> bytes -> bool) st : txserver D :=
  set_tx_touched (tx_touched st ++ filter (fun wk => flushed dbid present wk = true) (map fst (map_to_list (tx_watched st))))
    (set_tx_clients (fmap (fun c => if existsb (flushed dbid present) (tc_watched_keys c) then set_dirty_cas c else c)
                       (tx_clients st)) st).

Definition apply_touch st (t : key_touch) : txserver D :=
  match t with
  | TouchKey dbid key => touchWatchedKey dbid key st
  | TouchFlush dbid present => touchWatchedKeysOnFlush dbid present st
  end.

(** ** Queueing *)

Definition queueMultiCommand cmd id st : txserver D :=
  upd (fun c => set_tc_mstate (tc_mstate c ++ [(cmd, tc_argv c)]) c) id st.

Definition discardTransaction id st : res (txserver D) :=
  unwatchAllKeys id (upd (fun c => set_tc_flags (MkMflags false false false) (set_tc_mstate [] c)) id st).

Definition flagTransaction id st : txserver D :=
  upd (fun c => if f_multi (tc_flags c)
                then set_tc_flags (MkMflags true (f_dirty_cas (tc_flags c)) true) c else c) id st.

Definition multiCommand id st : res (txserver D) :=
  c ← get_client id st;
  if f_multi (tc_flags c) then Ok (addReply (addReplyError (str "MULTI calls can not be nested")) id st) else
  Ok (addReply shared_ok id
        (upd (fun c => set_tc_flags (MkMflags true (f_dirty_cas (tc_flags c)) (f_dirty_exec (tc_flags c))) c) id st)).

Definition discardCommand id st : res (txserver D) :=
  c ← get_client id st;
  if negb (f_multi (tc_flags c)) then Ok (addReply (addReplyError (str "DISCARD without MULTI")) id st) else
  st ← discardTransaction id st;
  Ok (addReply shared_ok id st).

Fixpoint watch_all id (keys : list robj) st : res (txserver D) :=
  match keys with
  | [] => Ok st
  | key :: keys => st ← watchForKey id (obj_bytes key) st; watch_all id keys st
  end.

Definition watchCommand id st : res (txserver D) :=
  c ← get_client id st;
  if f_multi (tc_flags c) then Ok (addReply (addReplyError (str "WATCH inside MULTI is not allowed")) id st) else
  st ← watch_all id (drop 1 (tc_argv c)) st;
  Ok (addReply shared_ok id st).

Definition unwatchCommand id st : res (txserver D) :=
  st ← unwatchAllKeys id st;
  Ok (addReply shared_ok id
        (upd (fun c => set_tc_flags (MkMflags (f_multi (tc_flags c)) false (f_dirty_exec (tc_flags c))) c) id st)).

(** [freeClient], as far as transactions are concerned. *)

Definition freeClient_tx id st : res (txserver D) :=
  st ← unwatchAllKeys id st;
  Ok (set_tx_clients (delete id (tx_clients st)) st).

(** ** Running a command *)

(** [selectDb] takes an [int]. *)

Definition selectCommand id st : res (txserver D) :=
  c ← get_client id st;
  o ← need (tc_argv c !! 1%nat);
  match string2ll (obj_bytes o) with
  | None => Ok (addReply (addReplyError (str "invalid DB index")) id st)
  | Some dbid =>
      if g_cluster g && negb (dbid =? 0)
      then Ok (addReply (addReplyError (str "SELECT is not allowed in cluster mode")) id st)
      else if (to_int dbid <? 0) || (to_int dbid >=? g_dbnum g)
      then Ok (addReply (addReplyError (str "DB index is out of range")) id st)
      else Ok (addReply shared_ok id (upd (set_tc_db (to_int dbid)) id st))
  end.

(** [alsoPropagate] drops the command while the data is loaded, except from a
    master of the other kind. *)

Definition alsoPropagate (ops : list redisOp) (w : world) : list redisOp :=
  if g_loading g && (bool_decide (w_masterhost w = None) || isSameTypeWithMaster w) then [] else ops.

Definition or_prop (p q : pflags) : pflags :=
  MkPflags (p_force_aof p || p_force_aof q) (p_force_repl p || p_force_repl q)
    (p_prevent_aof p || p_prevent_aof q) (p_prevent_repl p || p_prevent_repl q)
    (p_force_crdt p || p_force_crdt q).

(** A command of the module, or one whose work is elsewhere. *)

Definition plainCommand cmd id st : res (list redisOp * txserver D) :=
  c ← get_client id st;
  let e := cmd_run cmd (tc_argv c) (tc_db c) (tx_data st) in
  let st := set_tx_dirty (tx_dirty st + e_dirty e) (set_tx_data (e_data e) st) in
  let st := foldl apply_touch st (e_touched e) in
  let st := upd (fun c => set_tc_prop (or_prop (tc_prop c) (e_prop e))
                            (set_tc_session (default (tc_authenticated c) (e_authenticated e))
                               (default (tc_pubsub c) (e_pubsub e)) c)) id st in
  let st := addReply (e_reply e) id st in
  Ok (alsoPropagate (e_also e) (tx_world st), set_tx_world (e_world e (tx_world st)) st).

(** The commands that may be queued. *)

Definition run_basic cmd id st : res (list redisOp * txserver D) :=
  match cmd_kind cmd with
  | KMulti => st ← multiCommand id st; Ok ([], st)
  | KDiscard => st ← discardCommand id st; Ok ([], st)
  | KWatch => st ← watchCommand id st; Ok ([], st)
  | KUnwatch => st ← unwatchCommand id st; Ok ([], st)
  | KSelect => st ← selectCommand id st; Ok ([], st)
  | KExec | KCrdtExec => Undef
  | _ => plainCommand cmd id st
  end.

(** [server.current_client], as [propagate] looks at it. *)

Definition current_of cmd c : option (client * bool) :=
  Some (MkClient (tc_gid c) 0 (tc_crdt_master c) false (tc_db c) 0 0 None 0,
        bool_decide (cmd_kind cmd = KMergeEnd)).

Definition propagate_op cmd id (o : redisOp) st : res (txserver D) :=
  c ← get_client id st;
  w ← propagate (current_of cmd c) (op_dbid o) (op_argv o) (op_crdt o) (op_repl o) (tx_world st);
  Ok (set_tx_world w st).

Fixpoint propagate_ops cmd id (ops : list redisOp) st : res (txserver D) :=
  match ops with
  | [] => Ok st
  | o :: ops =>
      st ← (if op_crdt o || op_repl o then propagate_op cmd id o st else Ok st);
      propagate_ops cmd id ops st
  end.

(** [call(c,CMD_CALL_FULL)]; [run] is [c->cmd->proc]. *)

Definition call (run : command D -> nat -> txserver D -> res (list redisOp * txserver D)) cmd id st :
    res (txserver D) :=
  c ← get_client id st;
  let client_old_flags := tc_prop c in
  let st := upd (set_tc_prop no_prop) id st in
  let dirty0 := tx_dirty st in
  '(also, st) ← run cmd id st;
  c ← get_client id st;
  let dirty := Z.max 0 (tx_dirty st - dirty0) in
  let p := tc_prop c in
  st ← (if p_prevent_aof p && p_prevent_repl p then Ok st else
        let repl := (negb (dirty =? 0) || p_force_repl p) && negb (p_prevent_repl p) in
        let o := MkOp (tc_db c) (tc_argv c) (p_force_crdt p) repl in
        if negb (cmd_module cmd) then propagate_ops cmd id [o] st else Ok st);
  let st := upd (set_tc_prop client_old_flags) id st in
  propagate_ops cmd id also st.

(** ** EXEC *)

(** [flags] is [PROPAGATE_CRDT_REPL]. *)

Definition execCrdtCommandPropagateMulti cmd id st : res (txserver D) :=
  c ← get_client id st;
  propagate_op cmd id
    (MkOp (tc_db c) [RSds (str "CRDT.MULTI"); RInt (crdt_gid (w_crdt (tx_world st)))] true false) st.

(** The loop over the queue; the boolean is [must_propagate].  [own]: MULTI is
    propagated before the first command that may write. *)

Fixpoint exec_loop (own : bool) id (queue : list (command D * list robj)) (must_propagate : bool) st :
    res (bool * txserver D) :=
  match queue with
  | [] => Ok (must_propagate, st)
  | (cmd, argv) :: queue =>
      let st := upd (set_tc_argv argv) id st in
      let first := negb must_propagate && negb (cmd_readonly cmd || cmd_admin cmd) in
      st ← (if first && own then
              st ← execCrdtCommandPropagateMulti cmd id st;
              Ok (upd (fun c => set_tc_prop (or_prop (tc_prop c) (MkPflags false false false false true)) c) id st)
            else Ok st);
      st ← call run_basic cmd id st;
      exec_loop own id queue (must_propagate || first) st
  end.

(** [*2 $9 CRDT.EXEC $<n> <gid>], written into both backlogs. *)

Definition exec_text (gid : Z) : bytes :=
  str "*2" ++ CRLF ++ str "$9" ++ CRLF ++ str "CRDT.EXEC" ++ CRLF ++
  str "$" ++ (if gid >? 9 then str "2" else str "1") ++ CRLF ++ print_Z gid ++ CRLF.

Definition exec_propagated (was_master : bool) (gid : Z) st : res (txserver D) :=
  let st := set_tx_dirty (tx_dirty st + 1) st in
  let w := tx_world st in
  if bool_decide (repl_backlog (w_server w) <> None) && was_master && bool_decide (w_masterhost w <> None) then
    s ← feedReplicationBacklog (exec_text gid) (w_server w);
    p ← feedReplicationBacklog (exec_text gid) (w_peers w);
    Ok (set_tx_world (set_w_peers p (set_w_server s w)) st)
  else Ok st.

(** EXEC runs only if no watched key was touched and no command was rejected. *)

Definition exec_refused c : option bytes :=
  if f_dirty_cas (tc_flags c) || f_dirty_exec (tc_flags c)
  then Some (if f_dirty_exec (tc_flags c) then shared_execaborterr else shared_nullmultibulk) else None.

Definition execCommand id st : res (txserver D) :=
  c ← get_client id st;
  let was_master := bool_decide (w_masterhost (tx_world st) = None) in
  if negb (f_multi (tc_flags c)) then Ok (addReply (addReplyError (str "EXEC without MULTI")) id st) else
  match exec_refused c with
  | Some reply => discardTransaction id (addReply reply id st)
  | None =>
      st ← unwatchAllKeys id st;
      let st := addReply (addReplyMultiBulkLen (Z.of_nat (length (tc_mstate c)))) id st in
      '(must_propagate, st) ← exec_loop true id (tc_mstate c) false st;
      st ← discardTransaction id st;
      let gid := crdt_gid (w_crdt (tx_world st)) in
      let st := upd (set_tc_argv [RSds (str "CRDT.EXEC"); RInt gid]) id st in
      if must_propagate : bool then exec_propagated was_master gid st else Ok st
  end.

(** [CRDT.EXEC gid]: the transaction of another group. *)

Definition crdtExecCommand id st : res (txserver D) :=
  c ← get_client id st;
  let was_master := bool_decide (w_masterhost (tx_world st) = None) in
  if negb (f_multi (tc_flags c)) then Ok (addReply (addReplyError (str "EXEC without MULTI")) id st) else
  o ← need (tc_argv c !! 1%nat);
  match string2ll (obj_bytes o) with
  | None => Ok (addReply shared_syntaxerr id st)
  | Some gid =>
      if negb (check_gid (to_int gid)) then Ok (addReply shared_syntaxerr id st) else
      let st := upd (set_tc_gid (to_int gid)) id st in
      match exec_refused c with
      | Some reply => discardTransaction id (addReply reply id st)
      | None =>
          st ← unwatchAllKeys id st;
          let st := addReply (addReplyMultiBulkLen (Z.of_nat (length (tc_mstate c)))) id st in
          '(must_propagate, st) ← exec_loop false id (tc_mstate c) false st;
          let st := upd (set_tc_argv (tc_argv c)) id st in
          st ← discardTransaction id st;
          if must_propagate : bool then exec_propagated was_master gid st else Ok st
      end
  end.

Definition run_full cmd id st : res (list redisOp * txserver D) :=
  match cmd_kind cmd with
  | KExec => st ← execCommand id st; Ok ([], st)
  | KCrdtExec => st ← crdtExecCommand id st; Ok ([], st)
  | _ => run_basic cmd id st
  end.

(** ** Accepting a command *)

Definition lookupCommand (table : list (command D)) (name : bytes) : option (command D) :=
  find (fun cmd => strcaseeq (cmd_name cmd) name) table.

Definition wrong_arity cmd (argc : Z) : bool :=
  ((cmd_arity cmd >? 0) && negb (cmd_arity cmd =? argc)) || (argc <? - cmd_arity cmd).

(** The checks of [processCommand] after the name and the arity, in their order:
    [Some (flag, reply)] rejects the command, [flag] says whether the
    transaction is flagged. *)

Definition arg_starts (argv : list robj) (ch : Z) : bool :=
  match argv with
  | [_; a] => match obj_bytes a with b :: _ => tolower b =? ch | [] => false end
  | _ => false
  end.

Definition in_pubsub cmd : bool :=
  match cmd_kind cmd with KPing | KPubsub => true | _ => false end.

Definition reject cmd c (w : world) : option (bool * bytes) :=
  if g_oom g && cmd_denyoom cmd then Some (true, shared_oomerr) else
  match (if iAmMaster w && (cmd_write cmd || bool_decide (cmd_kind cmd = KPing)) then g_write_error g else None) with
  | Some reply => Some (true, reply)
  | None =>
      if iAmMaster w && g_few_slaves g && cmd_write cmd then Some (true, shared_noreplicaserr) else
      if negb (iAmMaster w) && g_slave_ro g && negb (tc_master c) && cmd_write cmd then Some (false, shared_roslaveerr) else
      if tc_pubsub c && negb (in_pubsub cmd)
      then Some (false, addReplyError (str "only (P)SUBSCRIBE / (P)UNSUBSCRIBE / PING / QUIT allowed in this context")) else
      if negb (iAmMaster w) && negb (w_repl_state w =? REPL_STATE_CONNECTED) && negb (g_serve_stale g) && negb (cmd_stale cmd)
      then Some (true, shared_masterdownerr) else
      if (g_loading g || g_crdt_loading g) && negb (cmd_loading cmd) then Some (false, shared_loadingerr) else
      if g_lua_timedout g &&
         negb (bool_decide (cmd_kind cmd = KAuth)) && negb (bool_decide (cmd_kind cmd = KReplconf)) &&
         negb (bool_decide (cmd_kind cmd = KShutdown) && arg_starts (tc_argv c) 110) &&
         negb (bool_decide (cmd_kind cmd = KScript) && arg_starts (tc_argv c) 107)
      then Some (true, shared_slowscripterr) else
      None
  end.

Definition queued_kind (k : kind) : bool :=
  match k with KExec | KDiscard | KMulti | KWatch | KCrdtExec => false | _ => true end.

(** The last step: queue the command or run it. *)

Definition accept cmd id st : res (txserver D) :=
  c ← get_client id st;
  if f_multi (tc_flags c) && queued_kind (cmd_kind cmd)
  then Ok (addReply shared_queued id (queueMultiCommand cmd id st))
  else call run_full cmd id st.

(** The arguments are in [tc_argv].  The boolean is false if the client is to be
    closed, or gone.  In a cluster a command without keys is never redirected:
    [g_redirect] is then [None]. *)

Definition processCommand (table : list (command D)) id st : res (bool * txserver D) :=
  c ← get_client id st;
  name ← need (tc_argv c !! 0%nat);
  let name := obj_bytes name in
  if strcaseeq (cstr name) (str "quit") then Ok (false, addReply shared_ok id st) else
  match lookupCommand table name with
  | None =>
      Ok (true, addReply (addReplyErrorFormat (str "unknown command '" ++ cstr name ++ str "'")) id
                  (flagTransaction id st))
  | Some cmd =>
      if wrong_arity cmd (Z.of_nat (length (tc_argv c))) then
        Ok (true, addReply (addReplyErrorFormat (str "wrong number of arguments for '" ++ cmd_name cmd ++ str "' command")) id
                    (flagTransaction id st)) else
      if g_requirepass g && negb (tc_authenticated c) && negb (bool_decide (cmd_kind cmd = KAuth))
      then Ok (true, addReply shared_noautherr id (flagTransaction id st)) else
      match g_redirect g with
      | Some reply =>
          st ← (if bool_decide (cmd_kind cmd = KExec) then discardTransaction id st else Ok (flagTransaction id st));
          Ok (true, addReply reply id st)
      | None =>
          if g_freed g then Ok (false, st) else
          match reject cmd c (tx_world st) with
          | Some (flag, reply) =>
              Ok (true, addReply reply id (if flag : bool then flagTransaction id st else st))
          | None => st ← accept cmd id st; Ok (true, st)
          end
      end
  end.

(** A client sends a command, or goes away. *)

Inductive request :=
| Send (id : nat) (argv : list robj)
| Close (id : nat).

Definition serve (table : list (command D)) st (r : request) : res (txserver D) :=
  match r with
  | Send id argv => '(_, st) ← processCommand table id (upd (set_tc_argv argv) id st); Ok st
  | Close id => freeClient_tx id st
  end.

Fixpoint serve_all (table : list (command D)) (rs : list request) st : res (txserver D) :=
  match rs with
  | [] => Ok st
  | r :: rs => st ← serve table st r; serve_all table rs st
  end.

End transactions.
