(* ===== verification/MultiTheory.v ===== *)
(** * Commands and transactions: the invariant and the steps

    Lemmas on [Multi]: the lists of watched keys and of watchers agree, every
    operation completes and keeps that, and what the other clients, the data and
    the streams see of it. *)

From S2P Require Import Prelude Util Sds VectorClock VcTheory VcText VcClaims Proxy CrdtServer Backlog Resp World Feed Multi.

(** ** Who watches what

    The lists of the clients and those of the keys say the same. *)

Record watch_ok (W : gmap (Z * bytes) (list nat)) (C : gmap nat (list (Z * bytes))) : Prop := {
  wo_lists : forall wk l, W !! wk = Some l -> l <> [] /\ NoDup l;
  wo_keys : forall id keys, C !! id = Some keys -> NoDup keys;
  wo_agree : forall wk id, (exists l, W !! wk = Some l /\ id ∈ l) <-> (exists keys, C !! id = Some keys /\ wk ∈ keys)
}.

Definition without (id : nat) (l : list nat) : list nat := filter (fun i => i <> id) l.

Lemma without_absent id l : id ∉ l -> without id l = l.
Proof.
  induction l as [|i l IH]; [done|]. rewrite not_elem_of_cons. intros [Hne Hl]. unfold without.
  rewrite filter_cons_True by done. f_equal. by apply IH.
Qed.

Lemma del_client_spec id l : NoDup l -> id ∈ l -> del_client id l = Ok (without id l).
Proof.
  induction l as [|i l IH]; [by intros _ ?%not_elem_of_nil|]. intros [Hi Hl]%NoDup_cons Hin.
  cbn [del_client without]. unfold without. destruct (Nat.eqb_spec i id) as [-> |Hne].
  - rewrite filter_cons_False by auto. f_equal. symmetry. by apply without_absent.
  - rewrite filter_cons_True by done. apply elem_of_cons in Hin as [-> |Hin]; [done|].
    by rewrite IH.
Qed.

Lemma watch_ok_add W C id wk keys :
  watch_ok W C -> C !! id = Some keys -> wk ∉ keys ->
  watch_ok (<[wk := default [] (W !! wk) ++ [id]]> W) (<[id := keys ++ [wk]]> C).
Proof.
  intros [H1 H2 H3] Hc Hn.
  assert (id ∉ default [] (W !! wk)) as Hid.
  { intros Hin. destruct (W !! wk) as [l|] eqn:E; [|by apply not_elem_of_nil in Hin].
    destruct (proj1 (H3 wk id)) as (k & Hk & Hw); [by exists l|]. rewrite Hc in Hk. by injection Hk as <-. }
  split.
  - intros wk' l. destruct (decide (wk' = wk)) as [-> |Hne].
    + rewrite lookup_insert_eq. intros [= <-]. split; [by destruct (default [] (W !! wk))|].
      apply NoDup_app. split; [|split].
      * destruct (W !! wk) eqn:E; [by eapply H1|constructor].
      * intros x Hx ->%list_elem_of_singleton. done.
      * apply NoDup_singleton.
    + rewrite lookup_insert_ne by done. apply H1.
  - intros id' keys'. destruct (decide (id' = id)) as [-> |Hne].
    + rewrite lookup_insert_eq. intros [= <-]. apply NoDup_app. split; [by eapply H2|]. split; [|apply NoDup_singleton].
      intros x Hx ->%list_elem_of_singleton. done.
    + rewrite lookup_insert_ne by done. apply H2.
  - intros wk' id'. specialize (H3 wk' id').
    destruct (decide (wk' = wk)) as [-> |Hw], (decide (id' = id)) as [-> |Hi];
      rewrite ?lookup_insert_eq, ?lookup_insert_ne by done.
    + split; intros _; [exists (keys ++ [wk])|exists (default [] (W !! wk) ++ [id])]; split; try done; set_solver.
    + rewrite <- H3. split.
      * intros (l & [= <-] & Hin). destruct (W !! wk) as [l|]; simpl in *; [exists l; split; [done|]|]; set_solver.
      * intros (l & El & Hin). rewrite El. exists (l ++ [id]). split; [done|]. set_solver.
    + rewrite H3. split.
      * intros (k & Ek & Hin). rewrite Hc in Ek. injection Ek as <-. exists (keys ++ [wk]). split; [done|]. set_solver.
      * intros (k & [= <-] & Hin). exists keys. split; [done|]. set_solver.
    + done.
Qed.

Lemma watch_ok_remove W C id wk keys l :
  watch_ok W C -> C !! id = Some (wk :: keys) -> W !! wk = Some l ->
  watch_ok (match without id l with [] => delete wk W | _ => <[wk := without id l]> W end) (<[id := keys]> C).
Proof.
  intros [H1 H2 H3] Hc Hl. set (W' := match without id l with [] => delete wk W | _ => <[wk := without id l]> W end).
  destruct (H1 wk l Hl) as [_ Hnd]. pose proof (H2 _ _ Hc) as [Hnk Hkeys]%NoDup_cons.
  assert (forall i, i ∈ without id l <-> i ∈ l /\ i <> id) as Hw.
  { intros i. unfold without. rewrite list_elem_of_filter. tauto. }
  assert (forall wk', wk' <> wk -> W' !! wk' = W !! wk') as Hother.
  { intros wk' Hne. unfold W'. destruct (without id l); [by rewrite lookup_delete_ne|by rewrite lookup_insert_ne]. }
  assert (forall i, (exists l', W' !! wk = Some l' /\ i ∈ l') <-> i ∈ l /\ i <> id) as Hthis.
  { intros i. rewrite <- Hw. unfold W'. destruct (without id l) as [|j l'] eqn:E.
    - rewrite lookup_delete_eq. split; [by intros (? & ? & _)|by intros ?%not_elem_of_nil].
    - rewrite lookup_insert_eq. split; [by intros (? & [= <-] & ?)|intros ?; by eexists]. }
  split.
  - intros wk' l'. destruct (decide (wk' = wk)) as [-> |Hne]; [|rewrite Hother by done; apply H1].
    unfold W'. destruct (without id l) as [|j r] eqn:E; [by rewrite lookup_delete_eq|].
    rewrite lookup_insert_eq. intros [= <-]. split; [done|]. rewrite <- E. by apply NoDup_filter.
  - intros id' keys'. destruct (decide (id' = id)) as [-> |Hne].
    + rewrite lookup_insert_eq. by intros [= <-].
    + rewrite lookup_insert_ne by done. apply H2.
  - intros wk' id'. destruct (decide (wk' = wk)) as [-> |Hwk]; [rewrite Hthis|rewrite (Hother wk' Hwk)];
      (destruct (decide (id' = id)) as [-> |Hi]; [rewrite lookup_insert_eq|rewrite lookup_insert_ne by done]).
    + split; [by intros [_ []]|]. by intros (? & [= <-] & ?).
    + rewrite <- H3. split; [intros [Hin _]; by exists l|]. intros (l' & El & Hin). rewrite Hl in El. by injection El as <-.
    + rewrite H3, Hc. split; intros (k & [= <-] & Hin); eexists; (split; [done|]); set_solver.
    + apply H3.
Qed.

Lemma unwatch_loop_spec id keys : forall W C,
  watch_ok W C -> C !! id = Some keys ->
  exists W', unwatch_loop id keys W = Ok W' /\ watch_ok W' (<[id := []]> C).
Proof.
  induction keys as [|wk keys IH]; intros W C Hok Hc; cbn [unwatch_loop].
  - exists W. split; [done|]. by rewrite insert_id.
  - destruct (proj2 (wo_agree _ _ Hok wk id)) as (l & El & Hin); [exists (wk :: keys); split; [done|]; set_solver|].
    rewrite bool_decide_true by (by rewrite El). rewrite El. cbn [c_assert mbind res_bind]. change (default [] (Some l)) with l.
    rewrite del_client_spec by (done || by eapply wo_lists). cbn [mbind res_bind].
    destruct (IH (match without id l with [] => delete wk W | _ => <[wk := without id l]> W end) (<[id := keys]> C))
      as (W' & E & Hok'); [by apply watch_ok_remove|by rewrite lookup_insert_eq|].
    exists W'. rewrite E. split; [done|]. by rewrite insert_insert_eq in Hok'.
Qed.

(** ** The world that commands are propagated to *)

(** The backlogs are sound, there is one if there are slaves, and both were
    created together. *)

Definition world_good (w : world) : Prop :=
  world_ok w /\ (slaves (w_server w) <> [] -> repl_backlog (w_server w) <> None) /\
  (repl_backlog (w_server w) <> None -> repl_backlog (w_peers w) <> None).

Lemma backlog_kept p s s' : backlog_ok s -> fed p s s' -> repl_backlog s <> None -> repl_backlog s' <> None.
Proof.
  intros [N|[stream R]] [F _] Hne; [done|]. destruct (fed_stream _ _ _ F _ R) as [R' _]. by eapply backlog_rep_some.
Qed.

Lemma backlog_back p s s' : fed_backlog p s s' -> repl_backlog s' <> None -> repl_backlog s <> None.
Proof. intros F Hne E. apply Hne. by apply (fed_none _ _ _ F). Qed.

Lemma no_slaves_kept p s s' : fed p s s' -> slaves s = [] -> slaves s' = [].
Proof. intros [_ E] Hs. rewrite E. unfold each_slave. simpl. by rewrite Hs. Qed.

Lemma world_fed_good p w w' : world_good w -> world_fed p w w' -> world_good w'.
Proof.
  intros (Hok & Hs & Hb) F. split; [by eapply world_fed_ok|]. destruct F as [_ F].
  pose proof (F SERVER) as F1. pose proof (F CRDT) as F2. simpl in F1, F2. split.
  - intros Hne. eapply backlog_kept; [apply (Hok SERVER)|exact F1|]. apply Hs. intros E. by apply Hne, (no_slaves_kept _ _ _ F1).
  - intros Hne. eapply backlog_kept; [apply (Hok CRDT)|exact F2|]. apply Hb. eapply backlog_back; [apply F1|done].
Qed.

Definition peer_known (current : option (client * bool)) (w : world) : Prop :=
  forall c b, current = Some (c, b) -> cl_crdt_master c = true -> is_Some (crdtMasters (w_crdt w) !! cl_gid c).

Lemma feed_own_good current dbid argv w :
  world_good w -> Forall robj_ok argv -> peer_known current w ->
  exists w', replicationFeedSlaves current dbid argv w = Ok w' /\ world_good w' /\ same_rest w w'.
Proof.
  intros (Hok & Hs & Hb) Hargv Hpeer. unfold replicationFeedSlaves.
  assert (same_rest w w) as Hrefl by (by destruct w).
  destruct (proxies_master w); [by exists w|].
  assert (exists b : bool, match current with
     | Some (c, merge_end) =>
         if cl_crdt_master c then
           p ← need (crdtMasters (w_crdt w) !! cl_gid c);
           Ok ((repl_state p =? REPL_STATE_CONNECTED) && negb merge_end)
         else Ok false
     | None => Ok false
     end = Ok b) as [b ->].
  { destruct current as [[c me]|]; [|by eexists]. destruct (cl_crdt_master c) eqn:Ec; [|by eexists].
    destruct (Hpeer c me eq_refl Ec) as [p ->]. by eexists. }
  cbn [mbind res_bind]. destruct b; [by exists w|].
  destruct (bool_decide (repl_backlog (w_server w) = None) && bool_decide (slaves (w_server w) = [])) eqn:E0; [by exists w|].
  assert (negb (negb (bool_decide (slaves (w_server w) = [])) && bool_decide (repl_backlog (w_server w) = None)) = true) as ->.
  { destruct (decide (slaves (w_server w) = [])) as [E|E]; [by rewrite (bool_decide_true _ E)|].
    rewrite (bool_decide_false _ E), (bool_decide_false (repl_backlog _ = None)) by auto. done. }
  cbn [c_assert mbind res_bind]. destruct (feed_own dbid argv w (Hok SERVER) Hargv) as (w' & E & F & _ & R).
  exists w'. split; [exact E|]. split; [|rewrite R; by destruct w]. split; [|split].
  - intros [|]; [|rewrite R; apply (Hok CRDT)]. eapply fed_backlog_ok; [apply F|apply (Hok SERVER)].
  - intros Hne. eapply backlog_kept; [apply (Hok SERVER)|exact F|]. apply Hs. intros E'. by apply Hne, (no_slaves_kept _ _ _ F).
  - intros Hne. rewrite R. apply Hb. eapply backlog_back; [apply F|done].
Qed.

Lemma propagate_good current dbid argv crdt repl w :
  world_good w -> Forall robj_ok argv -> peer_known current w ->
  exists w', propagate current dbid argv crdt repl w = Ok w' /\ world_good w' /\ same_rest w w'.
Proof.
  intros Hw Hargv Hpeer. unfold propagate. assert (same_rest w w) as Hrefl by (by destruct w).
  destruct (crdt && iAmMaster w); [|destruct repl; [by apply feed_own_good|by exists w]].
  destruct (proxies_master w) eqn:Ep; [exists w; unfold replicationFeedAllSlaves; by rewrite Ep|].
  destruct (feed_all dbid argv w (proj1 Hw) Ep Hargv) as (w' & -> & F & _). exists w'. split; [done|].
  split; [by eapply world_fed_good|]. apply F.
Qed.

(** ** The invariant *)

Section invariant.

Context {D : Type} (g : gate).

Implicit Types (st : txserver D) (id : nat) (c : tclient D) (cmd : command D).

(** A command of the table propagates well-formed arguments and leaves a good
    replication state; it does not change the list of the peers.  SELECT and
    CRDT.EXEC take one argument. *)

Definition cmd_ok cmd : Prop :=
  (cmd_kind cmd = KSelect \/ cmd_kind cmd = KCrdtExec -> cmd_arity cmd = 2) /\
  forall argv dbid d, Forall robj_ok argv ->
  let e := cmd_run cmd argv dbid d in
  Forall (fun o => Forall robj_ok (op_argv o)) (e_also e) /\
  forall w, world_good w -> world_good (e_world e w) /\ w_crdt (e_world e w) = w_crdt w.

Definition queued_ok (q : command D * list robj) : Prop :=
  queued_kind (cmd_kind (fst q)) = true /\ cmd_ok (fst q) /\ Forall robj_ok (snd q) /\
  wrong_arity (fst q) (Z.of_nat (length (snd q))) = false.

Definition client_ok (s : crdtServer) c : Prop :=
  (tc_crdt_master c = true -> is_Some (crdtMasters s !! tc_gid c)) /\
  Forall queued_ok (tc_mstate c) /\ Forall robj_ok (tc_argv c).

Definition watched_of st : gmap nat (list (Z * bytes)) := tc_watched_keys <$> tx_clients st.

Record tx_ok st : Prop := {
  so_watch : watch_ok (tx_watched st) (watched_of st);
  so_world : world_good (tx_world st);
  so_gid : check_gid (crdt_gid (w_crdt (tx_world st))) = true;
  so_clients : map_Forall (fun _ c => client_ok (w_crdt (tx_world st)) c) (tx_clients st)
}.

(** What the other clients see of a step: they are marked if it touched a key
    they watch. *)

Definition hit (new : list (Z * bytes)) c : bool :=
  existsb (fun wk => bool_decide (wk ∈ tc_watched_keys c)) new.

Definition mark (new : list (Z * bytes)) c : tclient D := if hit new c then set_dirty_cas c else c.

Definition sees (j : nat) st st' : Prop :=
  exists new, tx_touched st' = tx_touched st ++ new /\ tx_clients st' !! j = mark new <$> tx_clients st !! j.

(** A step of the client [id]. *)

Record acts id st st' : Prop := {
  ac_ok : tx_ok st';
  ac_crdt : w_crdt (tx_world st') = w_crdt (tx_world st);
  ac_self : is_Some (tx_clients st' !! id);
  ac_link : forall c c', tx_clients st !! id = Some c -> tx_clients st' !! id = Some c' ->
    tc_crdt_master c' = tc_crdt_master c;
  ac_others : forall j, j <> id -> sees j st st'
}.

Lemma hit_app new1 new2 c : hit (new1 ++ new2) c = hit new1 c || hit new2 c.
Proof. apply existsb_app. Qed.

Lemma mark_watched new c : tc_watched_keys (mark new c) = tc_watched_keys c.
Proof. unfold mark. by destruct (hit new c). Qed.

Lemma mark_app new1 new2 c : mark new2 (mark new1 c) = mark (new1 ++ new2) c.
Proof.
  unfold mark. rewrite hit_app. destruct (hit new1 c) eqn:E1; simpl; [|done].
  unfold hit in *. simpl. by destruct (existsb _ new2).
Qed.

Lemma sees_refl j st : sees j st st.
Proof.
  exists []. rewrite app_nil_r. split; [done|]. by destruct (tx_clients st !! j).
Qed.

Lemma sees_trans j st1 st2 st3 : sees j st1 st2 -> sees j st2 st3 -> sees j st1 st3.
Proof.
  intros (n1 & T1 & C1) (n2 & T2 & C2). exists (n1 ++ n2). rewrite T2, T1, app_assoc. split; [done|].
  rewrite C2, C1. destruct (tx_clients st1 !! j); [|done]. simpl. by rewrite mark_app.
Qed.

Lemma acts_refl id st : tx_ok st -> is_Some (tx_clients st !! id) -> acts id st st.
Proof.
  intros Hok Hid. split; [done|done|done|by intros c c' -> [= ->]|]. intros. apply sees_refl.
Qed.

Lemma acts_trans id st1 st2 st3 : acts id st1 st2 -> acts id st2 st3 -> acts id st1 st3.
Proof.
  intros [A1 A2 [c2 A3] A4 A5] [B1 B2 B3 B4 B5]. split; [done|congruence|done| |].
  - intros c c' E1 E3. rewrite (B4 c2 c' A3 E3). by apply A4.
  - intros j Hj. eapply sees_trans; [by apply A5|by apply B5].
Qed.

(** Changing the acting client only. *)

Lemma watched_upd f id st :
  (forall c, tc_watched_keys (f c) = tc_watched_keys c) -> watched_of (upd f id st) = watched_of st.
Proof.
  intros Hf. unfold watched_of. apply map_eq. intros j. rewrite !lookup_fmap. simpl.
  destruct (decide (j = id)) as [-> |Hne].
  - rewrite lookup_alter_eq. destruct (tx_clients st !! id); [|done]. simpl. by rewrite Hf.
  - by rewrite lookup_alter_ne.
Qed.

Lemma upd_sees f id j st : j <> id -> sees j st (upd f id st).
Proof.
  intros Hj. exists []. rewrite app_nil_r. split; [done|]. simpl. rewrite lookup_alter_ne by done.
  by destruct (tx_clients st !! j).
Qed.

Lemma upd_acts f id st :
  tx_ok st -> is_Some (tx_clients st !! id) ->
  (forall c, tc_watched_keys (f c) = tc_watched_keys c /\ tc_crdt_master (f c) = tc_crdt_master c) ->
  (forall c, tx_clients st !! id = Some c -> client_ok (w_crdt (tx_world st)) c -> client_ok (w_crdt (tx_world st)) (f c)) ->
  acts id st (upd f id st).
Proof.
  intros [H1 H2 H3 H4] [c Hc] Hf Hcl. split.
  - split; [|done|done|].
    + rewrite watched_upd by apply Hf. done.
    + simpl. intros j cj. destruct (decide (j = id)) as [-> |Hne].
      * rewrite lookup_alter_eq, Hc. simpl. intros [= <-]. apply (Hcl c Hc). by apply (H4 id).
      * rewrite lookup_alter_ne by done. apply H4.
  - done.
  - simpl. rewrite lookup_alter_eq, Hc. by eexists.
  - intros c1 c2. simpl. rewrite lookup_alter_eq, Hc. simpl. intros [= <-] [= <-]. apply Hf.
  - intros j Hj. by apply upd_sees.
Qed.

Lemma addReply_acts p id st : tx_ok st -> is_Some (tx_clients st !! id) -> acts id st (addReply p id st).
Proof. intros Hok Hid. by apply upd_acts. Qed.

(** Changes that no client sees. *)

Lemma silent_acts id st st' :
  tx_ok st -> is_Some (tx_clients st !! id) -> tx_clients st' = tx_clients st -> tx_watched st' = tx_watched st ->
  tx_touched st' = tx_touched st -> world_good (tx_world st') -> w_crdt (tx_world st') = w_crdt (tx_world st) ->
  acts id st st'.
Proof.
  intros [H1 H2 H3 H4] Hid Ec Ew Et Hw Hc. split.
  - split; [|done|by rewrite Hc|].
    + unfold watched_of. by rewrite Ec, Ew.
    + by rewrite Ec, Hc.
  - done.
  - by rewrite Ec.
  - intros c c'. rewrite Ec. by intros -> [= ->].
  - intros j _. exists []. rewrite app_nil_r, Ec. split; [done|]. by destruct (tx_clients st !! j).
Qed.

(** Touching keys. *)

Lemma fold_dirty l : forall st,
  foldl (fun st id => upd set_dirty_cas id st) st l =
  set_tx_clients (map_imap (fun j c => Some (if bool_decide (j ∈ l) then set_dirty_cas c else c)) (tx_clients st)) st.
Proof.
  induction l as [|i l IH]; intros st; cbn [foldl].
  - destruct st. unfold set_tx_clients. simpl. f_equal. apply map_eq. intros j. rewrite map_lookup_imap.
    by destruct (_ !! j).
  - rewrite IH. destruct st as [w cl wa d di t]. unfold set_tx_clients, upd. simpl. f_equal. apply map_eq. intros j.
    rewrite !map_lookup_imap. destruct (decide (j = i)) as [-> |Hne].
    + rewrite lookup_alter_eq. destruct (cl !! i); [|done]. simpl.
      rewrite (bool_decide_true (i ∈ i :: l)) by set_solver. by destruct (bool_decide (i ∈ l)).
    + rewrite lookup_alter_ne by done. destruct (cl !! j); [|done]. simpl. do 2 f_equal.
      rewrite (bool_decide_ext (j ∈ i :: l) (j ∈ l)) by set_solver. done.
Qed.

Lemma set_dirty_cas_ok s c : client_ok s c -> client_ok s (set_dirty_cas c).
Proof. done. Qed.

Lemma mark_ok s new c : client_ok s c -> client_ok s (mark new c).
Proof. unfold mark. by destruct (hit new c). Qed.

(** A step in which every client sees what is touched, and nothing else changes. *)

Lemma touching_ok st st' new :
  tx_ok st -> tx_watched st' = tx_watched st -> tx_world st' = tx_world st ->
  tx_clients st' = mark new <$> tx_clients st -> tx_ok st'.
Proof.
  intros [H1 H2 H3 H4] Ew Ewo Ec. split; [|by rewrite Ewo|by rewrite Ewo|].
  - replace (watched_of st') with (watched_of st); [by rewrite Ew|]. unfold watched_of. rewrite Ec.
    apply map_eq. intros j. rewrite !lookup_fmap. destruct (tx_clients st !! j); [|done]. simpl. by rewrite mark_watched.
  - rewrite Ec, Ewo. intros j cj. rewrite lookup_fmap. destruct (tx_clients st !! j) as [c|] eqn:E; [|done].
    intros [= <-]. apply mark_ok. by apply (H4 j).
Qed.

Record touching st st' (new : list (Z * bytes)) : Prop := {
  to_ok : tx_ok st';
  to_world : tx_world st' = tx_world st;
  to_data : tx_data st' = tx_data st;
  to_dirty : tx_dirty st' = tx_dirty st;
  to_touched : tx_touched st' = tx_touched st ++ new;
  to_clients : tx_clients st' = mark new <$> tx_clients st
}.

Lemma mark_hit new c b : hit new c = b -> mark new c = if b then set_dirty_cas c else c.
Proof. by intros <-. Qed.

Lemma watcher st wk j c :
  tx_ok st -> tx_clients st !! j = Some c ->
  (wk ∈ tc_watched_keys c <-> exists l, tx_watched st !! wk = Some l /\ j ∈ l).
Proof.
  intros Hok Hc. rewrite (wo_agree _ _ (so_watch _ Hok)). unfold watched_of. rewrite lookup_fmap, Hc. simpl.
  split; [intros; by eexists|]. by intros (k & [= <-] & ?).
Qed.

Lemma touchWatchedKey_touches dbid key st :
  tx_ok st -> exists new, touching st (touchWatchedKey dbid key st) new.
Proof.
  intros Hok. unfold touchWatchedKey. destruct (tx_watched st !! (dbid, key)) as [l|] eqn:El.
  - exists [(dbid, key)]. rewrite fold_dirty.
    assert (tx_clients (set_tx_touched (tx_touched st ++ [(dbid, key)])
              (set_tx_clients (map_imap (fun j c => Some (if bool_decide (j ∈ l) then set_dirty_cas c else c)) (tx_clients st)) st)) =
            mark [(dbid, key)] <$> tx_clients st) as Ec.
    { simpl. apply map_eq. intros j. rewrite map_lookup_imap, lookup_fmap. destruct (tx_clients st !! j) as [c|] eqn:Ej; [|done].
      simpl. f_equal. symmetry. apply mark_hit. unfold hit. simpl. rewrite orb_false_r. apply bool_decide_ext.
      rewrite (watcher st _ j c Hok Ej), El. split; [by intros (? & [= <-] & ?)|]. intros; by eexists. }
    split; [|done..|exact Ec]. eapply touching_ok; [exact Hok|done|done|exact Ec].
  - exists []. split; [done..| |].
    + by rewrite app_nil_r.
    + apply map_eq. intros j. rewrite lookup_fmap. by destruct (tx_clients st !! j).
Qed.

Lemma touchFlush_touches dbid present st :
  tx_ok st -> exists new, touching st (touchWatchedKeysOnFlush dbid present st) new.
Proof.
  intros Hok. unfold touchWatchedKeysOnFlush.
  set (new := filter (fun wk => flushed dbid present wk = true) (map fst (map_to_list (tx_watched st)))). exists new.
  assert (tx_clients (set_tx_touched (tx_touched st ++ new)
            (set_tx_clients ((fun c => if existsb (flushed dbid present) (tc_watched_keys c) then set_dirty_cas c else c) <$>
               tx_clients st) st)) = mark new <$> tx_clients st) as Ec.
  { simpl. apply map_eq. intros j. rewrite !lookup_fmap. destruct (tx_clients st !! j) as [c|] eqn:Ej; [|done].
    simpl. f_equal. symmetry. apply mark_hit. unfold hit. apply eq_bool_prop_intro.
    rewrite !Is_true_true, !existsb_exists. split.
    - intros (wk & Hin & Hw). apply bool_decide_eq_true in Hw. apply list_elem_of_In, list_elem_of_filter in Hin as [Hf _].
      exists wk. split; [by apply list_elem_of_In|done].
    - intros (wk & Hin & Hf). apply list_elem_of_In in Hin. exists wk. split; [|by apply bool_decide_eq_true].
      apply list_elem_of_In, list_elem_of_filter. split; [done|].
      destruct (proj1 (watcher st wk j c Hok Ej) Hin) as (l & El & _).
      change wk with (fst (wk, l)). apply list_elem_of_In, in_map. apply list_elem_of_In. by apply elem_of_map_to_list. }
  split; [|done..|exact Ec]. eapply touching_ok; [exact Hok|done|done|exact Ec].
Qed.

Lemma touches_all ts : forall st, tx_ok st -> exists new, touching st (foldl apply_touch st ts) new.
Proof.
  induction ts as [|t ts IH]; intros st Hok; cbn [foldl].
  - exists []. split; [done..| |].
    + by rewrite app_nil_r.
    + apply map_eq. intros j. rewrite lookup_fmap. by destruct (tx_clients st !! j).
  - assert (exists new, touching st (apply_touch st t) new) as [n1 T1].
    { destruct t; [by apply touchWatchedKey_touches|by apply touchFlush_touches]. }
    destruct (IH _ (to_ok _ _ _ T1)) as [n2 T2]. exists (n1 ++ n2). destruct T1, T2. split; [done|congruence..| |].
    + rewrite to_touched1, to_touched0. by rewrite app_assoc.
    + rewrite to_clients1, to_clients0. apply map_eq. intros j. rewrite !lookup_fmap.
      destruct (tx_clients st !! j); [|done]. simpl. by rewrite mark_app.
Qed.

Lemma touches_acts id st st' new : touching st st' new -> is_Some (tx_clients st !! id) -> acts id st st'.
Proof.
  intros [T1 T2 T3 T4 T5 T6] [c Hc]. split; [done|by rewrite T2| | |].
  - rewrite T6, lookup_fmap, Hc. by eexists.
  - intros c1 c2. rewrite T6, lookup_fmap, Hc. simpl. intros [= <-] [= <-]. unfold mark. by destruct (hit new c).
  - intros j _. exists new. by rewrite T6, lookup_fmap.
Qed.

(** A step that leaves everything but the clients and the lists of watchers; the
    acting client becomes [c']. *)

Record keeps_rest id c' st st' : Prop := {
  q_client : tx_clients st' !! id = Some c';
  q_world : tx_world st' = tx_world st;
  q_data : tx_data st' = tx_data st;
  q_dirty : tx_dirty st' = tx_dirty st;
  q_touched : tx_touched st' = tx_touched st
}.

Lemma upd_quiet f id c st : tx_clients st !! id = Some c -> keeps_rest id (f c) st (upd f id st).
Proof. intros Hc. split; [|done..]. simpl. by rewrite lookup_alter_eq, Hc. Qed.

Lemma quiet_trans id c1 c2 st st1 st2 : keeps_rest id c1 st st1 -> keeps_rest id c2 st1 st2 -> keeps_rest id c2 st st2.
Proof. intros [] []. split; congruence. Qed.

Lemma get_client_ok id c st : tx_clients st !! id = Some c -> get_client id st = Ok c.
Proof. intros H. unfold get_client. by rewrite H. Qed.

Lemma set_watched_others (f : tclient D -> tclient D) id (j : nat) (W : gmap (Z * bytes) (list nat)) st :
  j <> id -> sees j st (upd f id (set_tx_watched W st)).
Proof.
  intros Hj. exists []. rewrite app_nil_r. split; [done|]. simpl. rewrite lookup_alter_ne by done.
  by destruct (tx_clients st !! j).
Qed.

Lemma watching_acts f id c st W :
  tx_ok st -> tx_clients st !! id = Some c ->
  watch_ok W (<[id := tc_watched_keys (f c)]> (watched_of st)) ->
  tc_crdt_master (f c) = tc_crdt_master c -> client_ok (w_crdt (tx_world st)) (f c) ->
  acts id st (upd f id (set_tx_watched W st)).
Proof.
  intros [H1 H2 H3 H4] Hc HW Hl Hcl. split.
  - split; [|done|done|].
    + replace (watched_of (upd f id (set_tx_watched W st))) with (<[id := tc_watched_keys (f c)]> (watched_of st)); [done|].
      apply map_eq. intros j. unfold watched_of. rewrite lookup_fmap. simpl. destruct (decide (j = id)) as [-> |Hne].
      * by rewrite lookup_insert_eq, lookup_alter_eq, Hc.
      * by rewrite lookup_insert_ne, lookup_alter_ne, lookup_fmap by done.
    + simpl. intros j cj. destruct (decide (j = id)) as [-> |Hne].
      * rewrite lookup_alter_eq, Hc. simpl. by intros [= <-].
      * rewrite lookup_alter_ne by done. apply H4.
  - done.
  - simpl. rewrite lookup_alter_eq, Hc. by eexists.
  - intros c1 c2. simpl. rewrite lookup_alter_eq, Hc. simpl. by intros [= <-] [= <-].
  - intros j Hj. by apply set_watched_others.
Qed.

Lemma watched_lookup id c st : tx_clients st !! id = Some c -> watched_of st !! id = Some (tc_watched_keys c).
Proof. intros H. unfold watched_of. by rewrite lookup_fmap, H. Qed.

Lemma client_ok_of st id c : tx_ok st -> tx_clients st !! id = Some c -> client_ok (w_crdt (tx_world st)) c.
Proof. intros H Hc. by apply (so_clients _ H id). Qed.

Lemma unwatchAllKeys_spec id c st :
  tx_ok st -> tx_clients st !! id = Some c ->
  exists st', unwatchAllKeys id st = Ok st' /\ acts id st st' /\ keeps_rest id (set_tc_watched_keys [] c) st st'.
Proof.
  intros Hok Hc. unfold unwatchAllKeys. rewrite (get_client_ok _ _ _ Hc). cbn [mbind res_bind].
  destruct (tc_watched_keys c) as [|wk keys] eqn:Ek.
  - exists st. split; [done|]. split; [apply acts_refl; [done|by eexists]|]. split; [|done..].
    rewrite Hc. f_equal. destruct c. simpl in *. by subst.
  - destruct (unwatch_loop_spec id (wk :: keys) (tx_watched st) (watched_of st)) as (W & -> & HW).
    { apply (so_watch _ Hok). } { by rewrite (watched_lookup _ _ _ Hc), Ek. }
    cbn [mbind res_bind]. eexists. split; [reflexivity|]. split.
    + apply (watching_acts _ id c); [done|done|exact HW|done|]. by apply (client_ok_of st id c).
    + split; [|done..]. simpl. by rewrite lookup_alter_eq, Hc.
Qed.

Lemma watchForKey_spec id c key st :
  tx_ok st -> tx_clients st !! id = Some c ->
  exists st', watchForKey id key st = Ok st' /\ acts id st st' /\
    keeps_rest id (if bool_decide ((tc_db c, key) ∈ tc_watched_keys c) then c
              else set_tc_watched_keys (tc_watched_keys c ++ [(tc_db c, key)]) c) st st'.
Proof.
  intros Hok Hc. unfold watchForKey. rewrite (get_client_ok _ _ _ Hc). cbn [mbind res_bind].
  case_bool_decide as Hin.
  - exists st. split; [done|]. split; [apply acts_refl; [done|by eexists]|]. by split.
  - eexists. split; [reflexivity|]. split.
    + apply (watching_acts _ id c); [done|done| |done|by apply (client_ok_of st id c)].
      apply watch_ok_add; [apply (so_watch _ Hok)|by apply watched_lookup|done].
    + split; [|done..]. simpl. by rewrite lookup_alter_eq, Hc.
Qed.

(** The keys a client watches after WATCH. *)

Fixpoint watch_more (dbid : Z) (keys : list bytes) (watched : list (Z * bytes)) : list (Z * bytes) :=
  match keys with
  | [] => watched
  | key :: keys =>
      watch_more dbid keys (if bool_decide ((dbid, key) ∈ watched) then watched else watched ++ [(dbid, key)])
  end.

Lemma watch_all_spec id keys : forall c st,
  tx_ok st -> tx_clients st !! id = Some c ->
  exists st', watch_all id keys st = Ok st' /\ acts id st st' /\
    keeps_rest id (set_tc_watched_keys (watch_more (tc_db c) (map obj_bytes keys) (tc_watched_keys c)) c) st st'.
Proof.
  induction keys as [|key keys IH]; intros c st Hok Hc; cbn [watch_all watch_more map].
  - exists st. split; [done|]. split; [apply acts_refl; [done|by eexists]|]. split; [|done..]. rewrite Hc. by destruct c.
  - destruct (watchForKey_spec id c (obj_bytes key) st Hok Hc) as (st1 & -> & A1 & Q1). cbn [mbind res_bind].
    destruct (IH _ st1 (ac_ok _ _ _ A1) (q_client _ _ _ _ Q1)) as (st2 & -> & A2 & Q2).
    exists st2. split; [done|]. split; [by eapply acts_trans|]. pose proof (quiet_trans _ _ _ _ _ _ Q1 Q2) as Q.
    case_bool_decide; exact Q.
Qed.

Lemma discardTransaction_spec id c st :
  tx_ok st -> tx_clients st !! id = Some c ->
  exists st', discardTransaction id st = Ok st' /\ acts id st st' /\
    keeps_rest id (set_tc_watched_keys [] (set_tc_flags (MkMflags false false false) (set_tc_mstate [] c))) st st'.
Proof.
  intros Hok Hc. unfold discardTransaction.
  assert (acts id st (upd (fun c => set_tc_flags (MkMflags false false false) (set_tc_mstate [] c)) id st)) as A1.
  { apply upd_acts; [done|by eexists|done|]. intros c' Hc' (K1 & K2 & K3). by split. }
  pose proof (upd_quiet (fun c => set_tc_flags (MkMflags false false false) (set_tc_mstate [] c)) id c st Hc) as Q1.
  destruct (unwatchAllKeys_spec id _ _ (ac_ok _ _ _ A1) (q_client _ _ _ _ Q1)) as (st2 & -> & A2 & Q2).
  exists st2. split; [done|]. split; [by eapply acts_trans|]. by eapply quiet_trans.
Qed.

(** ** Propagation *)

Fixpoint feed_ops (current : option (client * bool)) (ops : list redisOp) (w : world) : res world :=
  match ops with
  | [] => Ok w
  | o :: ops =>
      w ← (if op_crdt o || op_repl o then propagate current (op_dbid o) (op_argv o) (op_crdt o) (op_repl o) w else Ok w);
      feed_ops current ops w
  end.

Lemma propagate_ops_feed cmd id c ops : forall st,
  tx_clients st !! id = Some c ->
  propagate_ops cmd id ops st = (w ← feed_ops (current_of cmd c) ops (tx_world st); Ok (set_tx_world w st)).
Proof.
  induction ops as [|o ops IH]; intros st Hc; cbn [propagate_ops feed_ops].
  - by destruct st.
  - destruct (op_crdt o || op_repl o).
    + unfold propagate_op. rewrite (get_client_ok _ _ _ Hc). cbn [mbind res_bind].
      destruct (propagate _ _ _ _ _ _) as [w| |]; [|done|done]. cbn [mbind res_bind]. by rewrite (IH (set_tx_world w st) Hc).
    + cbn [mbind res_bind]. by apply IH.
Qed.

Definition op_wf (o : redisOp) : Prop := Forall robj_ok (op_argv o).

Lemma feed_ops_good current ops : forall w,
  world_good w -> Forall op_wf ops -> peer_known current w ->
  exists w', feed_ops current ops w = Ok w' /\ world_good w' /\ same_rest w w'.
Proof.
  induction ops as [|o ops IH]; intros w Hw Hops Hp; cbn [feed_ops].
  - exists w. split; [done|]. split; [done|]. by destruct w.
  - apply Forall_cons in Hops as [Ho Hops].
    assert (exists w1, (if op_crdt o || op_repl o then propagate current (op_dbid o) (op_argv o) (op_crdt o) (op_repl o) w else Ok w)
              = Ok w1 /\ world_good w1 /\ same_rest w w1) as (w1 & -> & H1 & R1).
    { destruct (op_crdt o || op_repl o); [by apply propagate_good|]. exists w. split; [done|]. split; [done|]. by destruct w. }
    cbn [mbind res_bind]. destruct (IH w1 H1 Hops) as (w2 & -> & H2 & R2); [by rewrite R1|].
    exists w2. split; [done|]. split; [done|]. by eapply same_rest_trans.
Qed.

Lemma feed_ops_app current ops1 ops2 w :
  feed_ops current (ops1 ++ ops2) w = (w ← feed_ops current ops1 w; feed_ops current ops2 w).
Proof.
  revert w. induction ops1 as [|o ops1 IH]; intros w; [done|]. cbn [feed_ops app].
  destruct (if op_crdt o || op_repl o then _ else _); [|done|done]. cbn [mbind res_bind]. apply IH.
Qed.

(** What [call] itself propagates of a command that ran. *)

Definition own_ops cmd c (dirty : Z) : list redisOp :=
  if cmd_module cmd || (p_prevent_aof (tc_prop c) && p_prevent_repl (tc_prop c)) then [] else
  [MkOp (tc_db c) (tc_argv c) (p_force_crdt (tc_prop c))
     ((negb (Z.max 0 dirty =? 0) || p_force_repl (tc_prop c)) && negb (p_prevent_repl (tc_prop c)))].

Lemma current_known cmd c w : client_ok (w_crdt w) c -> peer_known (current_of cmd c) w.
Proof. intros (K & _) c' b [= <- _]. exact K. Qed.

Lemma same_rest_crdt w w' : same_rest w w' -> w_crdt w' = w_crdt w /\ w_masterhost w' = w_masterhost w /\
  iAmMaster w' = iAmMaster w /\ proxies_master w' = proxies_master w.
Proof. intros ->. done. Qed.

Lemma call_spec run cmd id c st also st1 c1 :
  tx_ok st -> tx_clients st !! id = Some c ->
  run cmd id (upd (set_tc_prop no_prop) id st) = Ok (also, st1) ->
  acts id (upd (set_tc_prop no_prop) id st) st1 -> tx_clients st1 !! id = Some c1 -> Forall op_wf also ->
  exists w, feed_ops (current_of cmd c1) (own_ops cmd c1 (tx_dirty st1 - tx_dirty st) ++ also) (tx_world st1) = Ok w /\
    same_rest (tx_world st1) w /\ let st' := set_tx_world w (upd (set_tc_prop (tc_prop c)) id st1) in
    call run cmd id st = Ok st' /\ acts id st st' /\ tx_clients st' !! id = Some (set_tc_prop (tc_prop c) c1).
Proof.
  intros Hok Hc Hrun A1 Hc1 Halso.
  pose proof (client_ok_of _ _ _ (ac_ok _ _ _ A1) Hc1) as Hcl1.
  assert (Forall op_wf (own_ops cmd c1 (tx_dirty st1 - tx_dirty st))) as Hown.
  { unfold own_ops. destruct (_ || _); [constructor|]. constructor; [apply Hcl1|constructor]. }
  destruct (feed_ops_good (current_of cmd c1) (own_ops cmd c1 (tx_dirty st1 - tx_dirty st) ++ also) (tx_world st1))
    as (w & Ew & Hw & Rw); [apply (so_world _ (ac_ok _ _ _ A1))|by apply Forall_app|by apply current_known|].
  exists w. split; [done|]. split; [done|]. cbv zeta.
  assert (tx_clients (set_tx_world w (upd (set_tc_prop (tc_prop c)) id st1)) !! id = Some (set_tc_prop (tc_prop c) c1)) as Hc2
    by (simpl; by rewrite lookup_alter_eq, Hc1).
  split; [|split; [|done]].
  - unfold call. rewrite (get_client_ok _ _ _ Hc). cbn [mbind res_bind]. rewrite Hrun. cbn [mbind res_bind].
    rewrite (get_client_ok _ _ _ Hc1). cbn [mbind res_bind].
    rewrite feed_ops_app in Ew.
    assert ((if p_prevent_aof (tc_prop c1) && p_prevent_repl (tc_prop c1) then Ok st1 else
             if negb (cmd_module cmd)
             then propagate_ops cmd id [MkOp (tc_db c1) (tc_argv c1) (p_force_crdt (tc_prop c1))
               ((negb (Z.max 0 (tx_dirty st1 - tx_dirty (upd (set_tc_prop no_prop) id st)) =? 0) || p_force_repl (tc_prop c1)) &&
                negb (p_prevent_repl (tc_prop c1)))] st1 else Ok st1) =
            propagate_ops cmd id (own_ops cmd c1 (tx_dirty st1 - tx_dirty st)) st1) as ->.
    { unfold own_ops. change (tx_dirty (upd (set_tc_prop no_prop) id st)) with (tx_dirty st).
      by destruct (p_prevent_aof (tc_prop c1)), (p_prevent_repl (tc_prop c1)), (cmd_module cmd). }
    rewrite (propagate_ops_feed cmd id c1) by done.
    destruct (feed_ops (current_of cmd c1) (own_ops cmd c1 (tx_dirty st1 - tx_dirty st)) (tx_world st1)) as [w1| |];
      [|done|done]. cbn [mbind res_bind] in Ew |- *.
    rewrite (propagate_ops_feed cmd id (set_tc_prop (tc_prop c) c1)) by (simpl; by rewrite lookup_alter_eq, Hc1).
    change (current_of cmd (set_tc_prop (tc_prop c) c1)) with (current_of cmd c1).
    change (tx_world (upd (set_tc_prop (tc_prop c)) id (set_tx_world w1 st1))) with w1. rewrite Ew. reflexivity.
  - eapply acts_trans; [by apply (upd_acts (set_tc_prop no_prop)); [|by eexists|..]|].
    eapply acts_trans; [exact A1|].
    eapply acts_trans; [apply (upd_acts (set_tc_prop (tc_prop c))); [apply A1|by eexists|done|done]|].
    apply silent_acts; [|simpl; rewrite lookup_alter_eq, Hc1; by eexists|done..|simpl; by apply same_rest_crdt in Rw as [-> _]].
    apply (upd_acts (set_tc_prop (tc_prop c))); [apply A1|by eexists|done|done].
Qed.

(** ** What a queued command does *)

Definition select_out (argv : list robj) (dbid : Z) : bytes * Z :=
  match argv !! 1%nat with
  | None => ([], dbid)
  | Some o =>
      match string2ll (obj_bytes o) with
      | None => (addReplyError (str "invalid DB index"), dbid)
      | Some n =>
          if g_cluster g && negb (n =? 0) then (addReplyError (str "SELECT is not allowed in cluster mode"), dbid)
          else if (to_int n <? 0) || (to_int n >=? g_dbnum g)
          then (addReplyError (str "DB index is out of range"), dbid)
          else (shared_ok, to_int n)
      end
  end.

(** The reply, the selected database and the data. *)

Definition step_out cmd (argv : list robj) (dbid : Z) (d : D) : bytes * Z * D :=
  match cmd_kind cmd with
  | KSelect => (select_out argv dbid, d)
  | KUnwatch => (shared_ok, dbid, d)
  | _ => let e := cmd_run cmd argv dbid d in (e_reply e, dbid, e_data e)
  end.

Record ran id c (out : bytes * Z * D) c' st' : Prop := {
  ra_client : tx_clients st' !! id = Some c';
  ra_mstate : tc_mstate c' = tc_mstate c;
  ra_argv : tc_argv c' = tc_argv c;
  ra_multi : f_multi (tc_flags c') = f_multi (tc_flags c);
  ra_watched : tc_watched_keys c = [] -> tc_watched_keys c' = [];
  ra_gid : tc_gid c' = tc_gid c;
  ra_reply : tc_reply c' = tc_reply c ++ fst (fst out);
  ra_db : tc_db c' = snd (fst out);
  ra_data : tx_data st' = snd out
}.

(** The acting client after a plain command. *)

Definition after_plain (e : effect D) c : tclient D :=
  set_tc_reply (tc_reply c ++ e_reply e)
    (set_tc_prop (or_prop (tc_prop c) (e_prop e))
       (set_tc_session (default (tc_authenticated c) (e_authenticated e)) (default (tc_pubsub c) (e_pubsub e)) c)).

Lemma plain_spec cmd id c st :
  tx_ok st -> tx_clients st !! id = Some c -> cmd_ok cmd ->
  let e := cmd_run cmd (tc_argv c) (tc_db c) (tx_data st) in
  exists new st1, plainCommand g cmd id st = Ok (alsoPropagate g (e_also e) (tx_world st), st1) /\
    acts id st st1 /\ tx_clients st1 !! id = Some (after_plain e (mark new c)) /\
    tx_data st1 = e_data e /\ tx_dirty st1 = tx_dirty st + e_dirty e /\ tx_world st1 = e_world e (tx_world st) /\
    tx_touched st1 = tx_touched st ++ new /\ Forall op_wf (alsoPropagate g (e_also e) (tx_world st)).
Proof.
  intros Hok Hc Hcmd e. destruct (client_ok_of _ _ _ Hok Hc) as (K1 & K2 & K3).
  destruct (proj2 Hcmd (tc_argv c) (tc_db c) (tx_data st) K3) as [Halso Hworld]. fold e in Halso, Hworld.
  unfold plainCommand. rewrite (get_client_ok _ _ _ Hc). cbn [mbind res_bind]. fold e.
  set (st0 := set_tx_dirty (tx_dirty st + e_dirty e) (set_tx_data (e_data e) st)).
  assert (acts id st st0) as A0 by (apply silent_acts; [done|by eexists|done|done|done|apply Hok|done]).
  destruct (touches_all (e_touched e) st0 (ac_ok _ _ _ A0)) as [new T].
  pose proof (touches_acts id _ _ _ T (ac_self _ _ _ A0)) as A1.
  set (st1 := foldl apply_touch st0 (e_touched e)) in *.
  assert (tx_clients st1 !! id = Some (mark new c)) as Hc1 by (rewrite (to_clients _ _ _ T), lookup_fmap; simpl; by rewrite Hc).
  set (f := fun c => set_tc_prop (or_prop (tc_prop c) (e_prop e))
                  (set_tc_session (default (tc_authenticated c) (e_authenticated e)) (default (tc_pubsub c) (e_pubsub e)) c)).
  assert (acts id st1 (upd f id st1)) as A2 by (apply upd_acts; [apply A1|apply A1|done|done]).
  assert (acts id (upd f id st1) (addReply (e_reply e) id (upd f id st1))) as A3
    by (apply addReply_acts; [apply A2|apply A2]).
  set (st3 := addReply (e_reply e) id (upd f id st1)) in *.
  assert (tx_world st3 = tx_world st) as Ew by (apply (to_world _ _ _ T)).
  assert (tx_clients st3 !! id = Some (after_plain e (mark new c))) as Hc3
    by (simpl; by rewrite lookup_alter_eq, lookup_alter_eq, Hc1).
  assert (tx_data st3 = e_data e /\ tx_dirty st3 = tx_dirty st + e_dirty e /\ tx_touched st3 = tx_touched st ++ new) as E3
    by (split; [apply (to_data _ _ _ T)|split; [apply (to_dirty _ _ _ T)|apply (to_touched _ _ _ T)]]).
  destruct (Hworld (tx_world st) (so_world _ Hok)) as [Hg Hcr].
  assert (acts id st3 (set_tx_world (e_world e (tx_world st3)) st3)) as A4.
  { apply silent_acts; [apply A3|apply A3|done|done|done|by rewrite <- Ew in Hg|by rewrite <- Ew in Hcr]. }
  exists new, (set_tx_world (e_world e (tx_world st3)) st3). split; [by rewrite <- Ew|]. split.
  { eapply acts_trans; [exact A0|]. eapply acts_trans; [exact A1|]. eapply acts_trans; [exact A2|].
    eapply acts_trans; [exact A3|exact A4]. }
  split; [exact Hc3|]. split; [apply E3|]. split; [apply E3|]. split; [by rewrite <- Ew|].
  split; [apply E3|]. unfold alsoPropagate. by destruct (_ && _).
Qed.

Lemma arity_two cmd (argv : list robj) :
  cmd_arity cmd = 2 -> wrong_arity cmd (Z.of_nat (length argv)) = false -> is_Some (argv !! 1%nat).
Proof.
  intros E Hw. unfold wrong_arity in Hw. rewrite E in Hw.
  destruct (Z.eqb_spec 2 (Z.of_nat (length argv))); [apply lookup_lt_is_Some_2; lia|discriminate Hw].
Qed.

Lemma select_spec id c st :
  tx_ok st -> tx_clients st !! id = Some c -> is_Some (tc_argv c !! 1%nat) ->
  exists st1, selectCommand g id st = Ok st1 /\ acts id st st1 /\
    keeps_rest id (set_tc_reply (tc_reply c ++ fst (select_out (tc_argv c) (tc_db c)))
                (set_tc_db (snd (select_out (tc_argv c) (tc_db c))) c)) st st1.
Proof.
  intros Hok Hc [o Ho]. unfold selectCommand, select_out. rewrite (get_client_ok _ _ _ Hc). cbn [mbind res_bind].
  rewrite Ho. cbn [need mbind res_bind].
  assert (forall p, acts id st (addReply p id st) /\
            keeps_rest id (set_tc_reply (tc_reply c ++ p) (set_tc_db (tc_db c) c)) st (addReply p id st)) as Hr.
  { intros p. split; [apply addReply_acts; [done|by eexists]|].
    pose proof (upd_quiet (fun c => set_tc_reply (tc_reply c ++ p) c) id c st Hc) as Q. by destruct c. }
  destruct (string2ll (obj_bytes o)) as [n|]; [|eexists; by split; [reflexivity|]].
  destruct (g_cluster g && negb (n =? 0)); [eexists; by split; [reflexivity|]|].
  destruct ((to_int n <? 0) || (to_int n >=? g_dbnum g)); [eexists; by split; [reflexivity|]|].
  eexists. split; [reflexivity|].
  assert (acts id st (upd (set_tc_db (to_int n)) id st)) as A1 by (apply upd_acts; [done|by eexists|done|done]).
  pose proof (upd_quiet (set_tc_db (to_int n)) id c st Hc) as Q1.
  split; [eapply acts_trans; [exact A1|]; apply addReply_acts; apply A1|].
  eapply quiet_trans; [exact Q1|].
  exact (upd_quiet (fun c => set_tc_reply (tc_reply c ++ shared_ok) c) id _ _ (q_client _ _ _ _ Q1)).
Qed.

Lemma unwatch_spec id c st :
  tx_ok st -> tx_clients st !! id = Some c ->
  exists st1, unwatchCommand id st = Ok st1 /\ acts id st st1 /\
    keeps_rest id (set_tc_reply (tc_reply c ++ shared_ok)
                (set_tc_flags (MkMflags (f_multi (tc_flags c)) false (f_dirty_exec (tc_flags c))) (set_tc_watched_keys [] c))) st st1.
Proof.
  intros Hok Hc. unfold unwatchCommand.
  destruct (unwatchAllKeys_spec id c st Hok Hc) as (st1 & -> & A1 & Q1). cbn [mbind res_bind].
  set (f := fun c => set_tc_flags (MkMflags (f_multi (tc_flags c)) false (f_dirty_exec (tc_flags c))) c).
  assert (acts id st1 (upd f id st1)) as A2 by (apply upd_acts; [apply A1|apply A1|done|done]).
  pose proof (upd_quiet f id _ st1 (q_client _ _ _ _ Q1)) as Q2.
  eexists. split; [reflexivity|]. split.
  - eapply acts_trans; [exact A1|]. eapply acts_trans; [exact A2|]. apply addReply_acts; apply A2.
  - eapply quiet_trans; [exact Q1|]. eapply quiet_trans; [exact Q2|].
    exact (upd_quiet (fun c => set_tc_reply (tc_reply c ++ shared_ok) c) id _ _ (q_client _ _ _ _ Q2)).
Qed.

Lemma run_basic_spec cmd id c st :
  tx_ok st -> tx_clients st !! id = Some c -> cmd_ok cmd -> queued_kind (cmd_kind cmd) = true ->
  wrong_arity cmd (Z.of_nat (length (tc_argv c))) = false ->
  exists also st1 c1, run_basic g cmd id st = Ok (also, st1) /\ acts id st st1 /\ Forall op_wf also /\
    ran id c (step_out cmd (tc_argv c) (tc_db c) (tx_data st)) c1 st1.
Proof.
  intros Hok Hc Hcmd Hk Har. unfold run_basic, step_out.
  assert (exists also st1 c1, plainCommand g cmd id st = Ok (also, st1) /\ acts id st st1 /\ Forall op_wf also /\
    ran id c (let e := cmd_run cmd (tc_argv c) (tc_db c) (tx_data st) in (e_reply e, tc_db c, e_data e)) c1 st1) as Hplain.
  { destruct (plain_spec cmd id c st Hok Hc Hcmd) as (new & st1 & E & A & Hc1 & Hd & _ & _ & _ & Hops).
    eexists _, st1, _. split; [exact E|]. split; [done|]. split; [done|].
    split; [exact Hc1|..]; cbn [after_plain set_tc_reply set_tc_prop set_tc_session tc_mstate tc_argv tc_flags tc_watched_keys tc_gid
      tc_reply tc_db fst snd]; unfold mark; destruct (hit new c); done. }
  destruct (cmd_kind cmd) eqn:Ek; try discriminate Hk; try exact Hplain.
  - destruct (unwatch_spec id c st Hok Hc) as (st1 & -> & A & Q). cbn [mbind res_bind].
    eexists [], st1, _. split; [reflexivity|]. split; [done|]. split; [constructor|].
    split; [apply (q_client _ _ _ _ Q)|done..|apply (q_data _ _ _ _ Q)].
  - destruct (select_spec id c st Hok Hc) as (st1 & -> & A & Q).
    { eapply arity_two; [|exact Har]. apply Hcmd. by left. }
    cbn [mbind res_bind]. eexists [], st1, _. split; [reflexivity|]. split; [done|]. split; [constructor|].
    split; [apply (q_client _ _ _ _ Q)|done..|apply (q_data _ _ _ _ Q)].
Qed.

Lemma call_queued_spec cmd id c st :
  tx_ok st -> tx_clients st !! id = Some c -> queued_ok (cmd, tc_argv c) ->
  exists st' c', call (run_basic g) cmd id st = Ok st' /\ acts id st st' /\
    ran id c (step_out cmd (tc_argv c) (tc_db c) (tx_data st)) c' st' /\ tc_prop c' = tc_prop c.
Proof.
  intros Hok Hc (Hk & Hcmd & _ & Har). cbn [fst snd] in *.
  assert (acts id st (upd (set_tc_prop no_prop) id st)) as A0 by (apply upd_acts; [done|by eexists|done|done]).
  pose proof (upd_quiet (set_tc_prop no_prop) id c st Hc) as Q0.
  destruct (run_basic_spec cmd id _ _ (ac_ok _ _ _ A0) (q_client _ _ _ _ Q0) Hcmd Hk Har) as (also & st1 & c1 & E & A1 & Ho & R).
  destruct (call_spec _ cmd id c st also st1 c1 Hok Hc E A1 (ra_client _ _ _ _ _ R) Ho) as (w & _ & _ & Ec & A & Hc').
  eexists _, (set_tc_prop (tc_prop c) c1). split; [exact Ec|]. split; [exact A|]. split; [|done].
  destruct R. by split.
Qed.

(** The replies, the selected database and the data after the whole queue. *)

Fixpoint queue_out (queue : list (command D * list robj)) (dbid : Z) (d : D) : bytes * Z * D :=
  match queue with
  | [] => ([], dbid, d)
  | (cmd, argv) :: queue =>
      let out := step_out cmd argv dbid d in
      let rest := queue_out queue (snd (fst out)) (snd out) in
      (fst (fst out) ++ fst (fst rest), snd (fst rest), snd rest)
  end.

Definition may_write (q : command D * list robj) : bool := negb (cmd_readonly (fst q) || cmd_admin (fst q)).

Definition multi_op gid (dbid : Z) : redisOp := MkOp dbid [RSds (str "CRDT.MULTI"); RInt gid] true false.

Lemma gid_ok gid : check_gid gid = true -> 0 < gid < 16.
Proof.
  unfold check_gid. change (Z.shiftl 1 GIDSIZE) with 16. lia.
Qed.

Lemma gid_robj gid : check_gid gid = true -> robj_ok (RInt gid).
Proof. intros H%gid_ok. simpl. unfold LLONG_MIN, LLONG_MAX. lia. Qed.

Lemma multi_op_ok gid dbid : check_gid gid = true -> op_wf (multi_op gid dbid).
Proof.
  intros H. unfold op_wf, multi_op. cbn [op_argv]. constructor; [apply (str_ok "CRDT.MULTI")|]. constructor; [by apply gid_robj|constructor].
Qed.

Lemma propagateMulti_spec cmd id c st :
  tx_ok st -> tx_clients st !! id = Some c ->
  exists w, feed_ops (current_of cmd c) [multi_op (crdt_gid (w_crdt (tx_world st))) (tc_db c)] (tx_world st) = Ok w /\
    same_rest (tx_world st) w /\ execCrdtCommandPropagateMulti cmd id st = Ok (set_tx_world w st) /\
    acts id st (set_tx_world w st).
Proof.
  intros Hok Hc.
  destruct (feed_ops_good (current_of cmd c) [multi_op (crdt_gid (w_crdt (tx_world st))) (tc_db c)] (tx_world st))
    as (w & Ew & Hw & Rw); [apply (so_world _ Hok)| |apply current_known; by eapply client_ok_of|].
  { constructor; [apply multi_op_ok, (so_gid _ Hok)|constructor]. }
  exists w. split; [done|]. split; [done|]. split.
  - unfold execCrdtCommandPropagateMulti. rewrite (get_client_ok _ _ _ Hc). cbn [mbind res_bind].
    pose proof (propagate_ops_feed cmd id c [multi_op (crdt_gid (w_crdt (tx_world st))) (tc_db c)] st Hc) as P.
    rewrite Ew in P. cbn [mbind res_bind propagate_ops] in P. cbn [multi_op op_crdt orb] in P.
    unfold multi_op in P. destruct (propagate_op cmd id _ st); done.
  - apply silent_acts; [done|by eexists|done|done|done|done|]. simpl. by apply same_rest_crdt in Rw as [-> _].
Qed.

(** The client after the queue: [argv] is that of the last command. *)

Record ran_queue id c (out : bytes * Z * D) c' st' : Prop := {
  rq_client : tx_clients st' !! id = Some c';
  rq_mstate : tc_mstate c' = tc_mstate c;
  rq_multi : f_multi (tc_flags c') = f_multi (tc_flags c);
  rq_watched : tc_watched_keys c' = [];
  rq_gid : tc_gid c' = tc_gid c;
  rq_reply : tc_reply c' = tc_reply c ++ fst (fst out);
  rq_db : tc_db c' = snd (fst out);
  rq_data : tx_data st' = snd out
}.

Lemma exec_loop_spec own id queue : forall c st must,
  tx_ok st -> tx_clients st !! id = Some c -> Forall queued_ok queue -> tc_watched_keys c = [] ->
  exists st' c', exec_loop g own id queue must st = Ok (must || existsb may_write queue, st') /\ acts id st st' /\
    ran_queue id c (queue_out queue (tc_db c) (tx_data st)) c' st'.
Proof.
  induction queue as [|[cmd argv] queue IH]; intros c st must Hok Hc Hq Hw.
  - exists st, c. cbn [exec_loop existsb queue_out]. rewrite orb_false_r. split; [done|].
    split; [apply acts_refl; [done|by eexists]|]. split; [done..| |done|done]. by rewrite app_nil_r.
  - apply Forall_cons in Hq as [Hq1 Hq]. cbn [exec_loop].
    set (st0 := upd (set_tc_argv argv) id st). set (c0 := set_tc_argv argv c).
    assert (acts id st st0) as A0.
    { apply upd_acts; [done|by eexists|done|]. intros c' _ (K1 & K2 & K3). split; [done|]. split; [done|]. apply Hq1. }
    assert (tx_clients st0 !! id = Some c0) as Hc0 by (apply (q_client _ _ _ _ (upd_quiet (set_tc_argv argv) id c st Hc))).
    set (first := negb must && negb (cmd_readonly cmd || cmd_admin cmd)).
    assert (exists st1 p1, (if first && own then
              st ← execCrdtCommandPropagateMulti cmd id st0;
              Ok (upd (fun c => set_tc_prop (or_prop (tc_prop c) (MkPflags false false false false true)) c) id st)
            else Ok st0) = Ok st1 /\ acts id st0 st1 /\ tx_clients st1 !! id = Some (set_tc_prop p1 c0) /\
            tx_data st1 = tx_data st) as (st1 & p1 & E1 & A1 & Hc1 & Hd1).
    { destruct (first && own).
      - destruct (propagateMulti_spec cmd id c0 st0 (ac_ok _ _ _ A0) Hc0) as (w & _ & _ & -> & A). cbn [mbind res_bind].
        eexists _, _. split; [reflexivity|]. split; [|split].
        + eapply acts_trans; [exact A|]. apply upd_acts; [apply A|apply A|done|done].
        + simpl. rewrite lookup_alter_eq. simpl in Hc0. rewrite Hc0. simpl. reflexivity.
        + done.
      - exists st0, (tc_prop c0). split; [done|]. split; [by apply acts_refl; [apply A0|eexists]|]. split; [|done].
        rewrite Hc0. by destruct c. }
    rewrite E1. cbn [mbind res_bind].
    destruct (call_queued_spec cmd id _ st1 (ac_ok _ _ _ A1) Hc1 Hq1) as (st2 & c2 & -> & A2 & R2 & _).
    cbn [mbind res_bind].
    destruct (IH c2 st2 (must || first) (ac_ok _ _ _ A2) (ra_client _ _ _ _ _ R2) Hq (ra_watched _ _ _ _ _ R2 Hw))
      as (st3 & c3 & -> & A3 & R3).
    exists st3, c3. split; [|split].
    + do 2 f_equal. cbn [existsb]. unfold may_write at 2, first. cbn [fst]. by destruct must.
    + eapply acts_trans; [exact A0|]. eapply acts_trans; [exact A1|]. by eapply acts_trans.
    + destruct R2 as [S1 S2 S3 S4 S5 S6 S7 S8 S9], R3 as [T1 T2 T3 T4 T5 T6 T7 T8].
      cbn [set_tc_prop c0 set_tc_argv tc_mstate tc_flags tc_gid tc_reply tc_argv tc_db] in *. rewrite Hd1 in *.
      cbn [queue_out fst snd]. rewrite S8, S9 in *.
      split; [done|by rewrite T2|by rewrite T3|done|by rewrite T5| |done|done]. rewrite T6, S7. symmetry. apply app_assoc.
Qed.

(** ** EXEC *)

(** What a failed EXEC leaves of the client. *)

Definition discarded (reply : bytes) c : tclient D :=
  set_tc_watched_keys [] (set_tc_flags (MkMflags false false false) (set_tc_mstate [] (set_tc_reply (tc_reply c ++ reply) c))).

Lemma refused_spec id c reply st :
  tx_ok st -> tx_clients st !! id = Some c ->
  exists st', discardTransaction id (addReply reply id st) = Ok st' /\ acts id st st' /\ keeps_rest id (discarded reply c) st st'.
Proof.
  intros Hok Hc. assert (acts id st (addReply reply id st)) as A0 by (apply addReply_acts; [done|by eexists]).
  pose proof (upd_quiet (fun c => set_tc_reply (tc_reply c ++ reply) c) id c st Hc) as Q0.
  destruct (discardTransaction_spec id _ _ (ac_ok _ _ _ A0) (q_client _ _ _ _ Q0)) as (st1 & E & A1 & Q1).
  exists st1. split; [done|]. split; [by eapply acts_trans|]. by eapply quiet_trans.
Qed.

Lemma feed_backlog_good p w :
  world_good w -> repl_backlog (w_server w) <> None ->
  exists s q, feedReplicationBacklog p (w_server w) = Ok s /\ feedReplicationBacklog p (w_peers w) = Ok q /\
    world_good (set_w_peers q (set_w_server s w)).
Proof.
  intros (Hok & Hs & Hb) Hne.
  assert (forall i, repl_backlog (get_srv i w) <> None -> exists s, feedReplicationBacklog p (get_srv i w) = Ok s /\
            fed_backlog p (get_srv i w) s /\ backlog_ok s /\ repl_backlog s <> None) as Hf.
  { intros i Hi. destruct (Hok i) as [N|[stream R]]; [done|].
    destruct (feed_feeds p _ _ R) as (s & E & F & _ & _). exists s. split; [done|]. split; [done|].
    split; [eapply fed_backlog_ok; [exact F|right; by eexists]|].
    eapply backlog_rep_some. by apply (fed_stream _ _ _ F). }
  destruct (Hf SERVER Hne) as (s & E1 & F1 & O1 & N1). destruct (Hf CRDT (Hb Hne)) as (q & E2 & F2 & O2 & N2).
  exists s, q. split; [done|]. split; [done|]. split; [|split]; simpl; [by intros []|by intros _|by intros _].
Qed.

Lemma exec_propagated_spec was_master gid id st :
  tx_ok st -> is_Some (tx_clients st !! id) ->
  exists st', exec_propagated was_master gid st = Ok st' /\ acts id st st' /\
    tx_clients st' = tx_clients st /\ tx_data st' = tx_data st /\ tx_dirty st' = tx_dirty st + 1 /\
    (was_master && bool_decide (w_masterhost (tx_world st) <> None) = false -> tx_world st' = tx_world st).
Proof.
  intros Hok Hid. unfold exec_propagated. set (st0 := set_tx_dirty (tx_dirty st + 1) st).
  change (tx_world st0) with (tx_world st).
  destruct (bool_decide (repl_backlog (w_server (tx_world st)) <> None) && was_master &&
            bool_decide (w_masterhost (tx_world st) <> None)) eqn:E.
  - apply andb_prop in E as [[Eb Em]%andb_prop Eh]. apply bool_decide_eq_true in Eb.
    destruct (feed_backlog_good (exec_text gid) (tx_world st) (so_world _ Hok) Eb) as (s & q & -> & -> & Hg).
    cbn [mbind res_bind]. eexists. split; [reflexivity|]. split; [by apply silent_acts|]. do 3 (split; [done|]).
    rewrite Em, Eh. done.
  - exists st0. split; [done|]. split; [apply silent_acts; [done|done|done|done|done|apply Hok|done]|]. done.
Qed.

(** The part that EXEC and CRDT.EXEC share. *)

Lemma exec_body_spec own id c st :
  tx_ok st -> tx_clients st !! id = Some c ->
  let n := addReplyMultiBulkLen (Z.of_nat (length (tc_mstate c))) in
  let out := queue_out (tc_mstate c) (tc_db c) (tx_data st) in
  exists st1 st2 c2, unwatchAllKeys id st = Ok st1 /\
    exec_loop g own id (tc_mstate c) false (addReply n id st1) = Ok (existsb may_write (tc_mstate c), st2) /\
    acts id st st2 /\ ran_queue id c (n ++ fst (fst out), snd (fst out), snd out) c2 st2.
Proof.
  intros Hok Hc n out. destruct (unwatchAllKeys_spec id c st Hok Hc) as (st1 & E1 & A1 & Q1).
  assert (acts id st1 (addReply n id st1)) as A2 by (apply addReply_acts; apply A1).
  pose proof (upd_quiet (fun c => set_tc_reply (tc_reply c ++ n) c) id _ st1 (q_client _ _ _ _ Q1)) as Q2.
  destruct (client_ok_of _ _ _ Hok Hc) as (_ & Hq & _).
  destruct (exec_loop_spec own id (tc_mstate c) _ (addReply n id st1) false (ac_ok _ _ _ A2) (q_client _ _ _ _ Q2) Hq eq_refl)
    as (st2 & c2 & E2 & A3 & R). exists st1, st2, c2. split; [done|]. split; [done|].
  split; [eapply acts_trans; [exact A1|]; by eapply acts_trans|].
  destruct R as [T1 T2 T3 T4 T5 T6 T7 T8]. change (tx_data (addReply n id st1)) with (tx_data st1) in *.
  rewrite (q_data _ _ _ _ Q1) in *. cbn [set_tc_reply set_tc_watched_keys tc_db tc_reply] in T6, T7.
  split; [done..| |done|done]. cbn [fst snd]. rewrite T6. symmetry. apply app_assoc.
Qed.

(** What EXEC leaves of the client, and the data. *)

Definition executed c (d : D) c' st' : Prop :=
  let out := queue_out (tc_mstate c) (tc_db c) d in
  tx_data st' = snd out /\ tc_db c' = snd (fst out) /\
  tc_reply c' = tc_reply c ++ addReplyMultiBulkLen (Z.of_nat (length (tc_mstate c))) ++ fst (fst out) /\
  tc_mstate c' = [] /\ tc_watched_keys c' = [] /\ tc_flags c' = MkMflags false false false.

Definition exec_result reply_error c st c' st' : Prop :=
  if negb (f_multi (tc_flags c)) then tx_data st' = tx_data st /\ tc_reply c' = tc_reply c ++ addReplyError reply_error
  else match exec_refused c with
       | Some reply => tx_data st' = tx_data st /\ tx_dirty st' = tx_dirty st /\ tx_world st' = tx_world st /\
                       tc_reply c' = tc_reply c ++ reply /\
                       tc_mstate c' = [] /\ tc_watched_keys c' = [] /\ tc_flags c' = MkMflags false false false
       | None => executed c (tx_data st) c' st'
       end.

Lemma finish_exec (argv : list robj) (was_master must : bool) gid id c2 st2 :
  tx_ok st2 -> tx_clients st2 !! id = Some c2 -> Forall robj_ok argv ->
  exists st', (st ← discardTransaction id st2;
               let st := upd (set_tc_argv argv) id st in
               if must then exec_propagated was_master gid st else Ok st) = Ok st' /\
    acts id st2 st' /\ tx_data st' = tx_data st2 /\
    tx_clients st' !! id = Some (set_tc_argv argv (set_tc_watched_keys []
                                   (set_tc_flags (MkMflags false false false) (set_tc_mstate [] c2)))).
Proof.
  intros Hok Hc Hargv. destruct (discardTransaction_spec id c2 st2 Hok Hc) as (st4 & -> & A4 & Q4). cbn [mbind res_bind].
  assert (acts id st4 (upd (set_tc_argv argv) id st4)) as A5.
  { apply upd_acts; [apply A4|apply A4|done|]. intros c' _ (K1 & K2 & _). by split. }
  pose proof (upd_quiet (set_tc_argv argv) id _ st4 (q_client _ _ _ _ Q4)) as Q5. cbv zeta. destruct must.
  - destruct (exec_propagated_spec was_master gid id (upd (set_tc_argv argv) id st4) (ac_ok _ _ _ A5) (ac_self _ _ _ A5))
      as (st6 & E6 & A6 & C6 & D6 & _). exists st6. split; [done|].
    split; [eapply acts_trans; [exact A4|]; by eapply acts_trans|]. rewrite D6, C6. split; [apply (q_data _ _ _ _ Q4)|].
    apply (q_client _ _ _ _ Q5).
  - eexists. split; [reflexivity|]. split; [by eapply acts_trans|]. split; [apply (q_data _ _ _ _ Q4)|apply (q_client _ _ _ _ Q5)].
Qed.

Lemma reply_only id c p st :
  tx_ok st -> tx_clients st !! id = Some c ->
  acts id st (addReply p id st) /\ tx_clients (addReply p id st) !! id = Some (set_tc_reply (tc_reply c ++ p) c).
Proof.
  intros Hok Hc. split; [apply addReply_acts; [done|by eexists]|].
  apply (q_client _ _ _ _ (upd_quiet (fun c => set_tc_reply (tc_reply c ++ p) c) id c st Hc)).
Qed.

Lemma execCommand_spec id c st :
  tx_ok st -> tx_clients st !! id = Some c ->
  exists st' c', execCommand g id st = Ok st' /\ acts id st st' /\ tx_clients st' !! id = Some c' /\
    exec_result (str "EXEC without MULTI") c st c' st'.
Proof.
  intros Hok Hc. unfold execCommand, exec_result. rewrite (get_client_ok _ _ _ Hc). cbn [mbind res_bind].
  destruct (negb (f_multi (tc_flags c))).
  { destruct (reply_only id c (addReplyError (str "EXEC without MULTI")) st Hok Hc) as [A Hc']. eexists _, _. by split. }
  destruct (exec_refused c) as [reply|].
  { destruct (refused_spec id c reply st Hok Hc) as (st' & E & A & Q). destruct Q as [Q1 Q2 Q3 Q4 Q5].
    exists st', (discarded reply c). by repeat (split; [done|]). }
  destruct (exec_body_spec true id c st Hok Hc) as (st1 & st2 & c2 & -> & E2 & A2 & R2). cbn [mbind res_bind].
  rewrite E2. cbn [mbind res_bind].
  destruct (discardTransaction_spec id c2 st2 (ac_ok _ _ _ A2) (rq_client _ _ _ _ _ R2)) as (st4 & E4 & A4 & Q4).
  set (argv := [RSds (str "CRDT.EXEC"); RInt (crdt_gid (w_crdt (tx_world st4)))]).
  destruct (finish_exec argv (bool_decide (w_masterhost (tx_world st) = None)) (existsb may_write (tc_mstate c))
              (crdt_gid (w_crdt (tx_world st4))) id c2 st2 (ac_ok _ _ _ A2) (rq_client _ _ _ _ _ R2)) as (st' & E' & A' & D' & C').
  { constructor; [apply (str_ok "CRDT.EXEC")|]. constructor; [|constructor]. apply gid_robj, (so_gid _ (ac_ok _ _ _ A4)). }
  rewrite E4 in E' |- *. cbn [mbind res_bind] in E' |- *. eexists st', _. split; [exact E'|].
  split; [by eapply acts_trans|]. split; [exact C'|]. destruct R2. unfold executed. rewrite D'. by split.
Qed.

Lemma crdtExecCommand_spec id c st :
  tx_ok st -> tx_clients st !! id = Some c -> is_Some (tc_argv c !! 1%nat) ->
  (forall o n, tc_crdt_master c = true -> tc_argv c !! 1%nat = Some o -> string2ll (obj_bytes o) = Some n ->
     check_gid (to_int n) = true -> is_Some (crdtMasters (w_crdt (tx_world st)) !! to_int n)) ->
  exists st', crdtExecCommand g id st = Ok st' /\ acts id st st' /\
    (forall o n, f_multi (tc_flags c) = true -> exec_refused c = None -> tc_argv c !! 1%nat = Some o ->
       string2ll (obj_bytes o) = Some n -> check_gid (to_int n) = true ->
       exists c', tx_clients st' !! id = Some c' /\ tc_gid c' = to_int n /\ executed c (tx_data st) c' st').
Proof.
  intros Hok Hc [o Ho] Hpeer. unfold crdtExecCommand. rewrite (get_client_ok _ _ _ Hc). cbn [mbind res_bind].
  assert (forall p, exists st', Ok (addReply p id st) = Ok st' /\ acts id st st') as Hr
    by (intros p; eexists; split; [done|]; by eapply reply_only).
  destruct (negb (f_multi (tc_flags c))) eqn:Em.
  { destruct (Hr (addReplyError (str "EXEC without MULTI"))) as (st' & E & A). exists st'. split; [done|]. split; [done|].
    intros o' n Hm. by rewrite Hm in Em. }
  rewrite Ho. cbn [need mbind res_bind]. destruct (string2ll (obj_bytes o)) as [gid|] eqn:Eg.
  2:{ destruct (Hr shared_syntaxerr) as (st' & E & A). exists st'. split; [done|]. split; [done|]. intros o' n _ _ [= <-]. congruence. }
  destruct (check_gid (to_int gid)) eqn:Ec; cbn [negb].
  2:{ destruct (Hr shared_syntaxerr) as (st' & E & A). exists st'. split; [done|]. split; [done|]. intros o' n _ _ [= <-]. congruence. }
  set (c0 := set_tc_gid (to_int gid) c).
  assert (acts id st (upd (set_tc_gid (to_int gid)) id st)) as A0.
  { apply upd_acts; [done|by eexists|done|]. intros c' Hc' (K1 & K2 & K3). rewrite Hc in Hc'. injection Hc' as <-.
    split; [|done]. intros Hl. by eapply Hpeer. }
  pose proof (upd_quiet (set_tc_gid (to_int gid)) id c st Hc) as Q0.
  destruct (exec_refused c) as [reply|] eqn:Er.
  { destruct (refused_spec id c0 reply _ (ac_ok _ _ _ A0) (q_client _ _ _ _ Q0)) as (st' & E & A & Q).
    exists st'. split; [done|]. split; [by eapply acts_trans|done]. }
  destruct (exec_body_spec false id c0 _ (ac_ok _ _ _ A0) (q_client _ _ _ _ Q0)) as (st1 & st2 & c2 & -> & E2 & A2 & R2).
  cbn [mbind res_bind]. change (tc_mstate c0) with (tc_mstate c) in E2. rewrite E2. cbn [mbind res_bind].
  assert (acts id st2 (upd (set_tc_argv (tc_argv c)) id st2)) as A3.
  { apply upd_acts; [apply A2|apply A2|done|]. intros c' _ (K1 & K2 & _). split; [done|]. split; [done|].
    apply (client_ok_of _ _ _ Hok Hc). }
  pose proof (upd_quiet (set_tc_argv (tc_argv c)) id c2 st2 (rq_client _ _ _ _ _ R2)) as Q3.
  destruct (discardTransaction_spec id _ _ (ac_ok _ _ _ A3) (q_client _ _ _ _ Q3)) as (st4 & -> & A4 & Q4). cbn [mbind res_bind].
  assert (exists st', (if existsb may_write (tc_mstate c)
            then exec_propagated (bool_decide (w_masterhost (tx_world st) = None)) gid st4 else Ok st4) = Ok st' /\
            acts id st4 st' /\ tx_clients st' = tx_clients st4 /\ tx_data st' = tx_data st4) as (st' & E' & A' & C' & D').
  { destruct (existsb may_write (tc_mstate c)).
    - destruct (exec_propagated_spec (bool_decide (w_masterhost (tx_world st) = None)) gid id st4 (ac_ok _ _ _ A4) (ac_self _ _ _ A4))
        as (st' & E' & A' & C' & D' & _). exists st'. by split.
    - exists st4. split; [done|]. split; [apply acts_refl; apply A4|done]. }
  exists st'. split; [exact E'|].
  split; [eapply acts_trans; [exact A0|]; eapply acts_trans; [exact A2|]; eapply acts_trans; [exact A3|]; by eapply acts_trans|].
  intros o' n _ _ [= <-] En _. rewrite Eg in En. injection En as <-.
  eexists. rewrite C'. split; [apply (q_client _ _ _ _ Q4)|]. destruct R2. split; [done|]. unfold executed.
  rewrite D', (q_data _ _ _ _ Q4). by split.
Qed.

(** ** Serving a command *)

(** Of [CRDT.EXEC gid] on the link of a peer: the group is a known peer. *)

Definition peer_exec_ok cmd c (s : crdtServer) : Prop :=
  cmd_kind cmd = KCrdtExec -> tc_crdt_master c = true ->
  forall o n, tc_argv c !! 1%nat = Some o -> string2ll (obj_bytes o) = Some n -> check_gid (to_int n) = true ->
  is_Some (crdtMasters s !! to_int n).

Lemma multi_spec id c st :
  tx_ok st -> tx_clients st !! id = Some c -> exists st', multiCommand id st = Ok st' /\ acts id st st'.
Proof.
  intros Hok Hc. unfold multiCommand. rewrite (get_client_ok _ _ _ Hc). cbn [mbind res_bind].
  destruct (f_multi (tc_flags c)); [eexists; split; [done|]; by eapply reply_only|].
  eexists. split; [done|].
  assert (acts id st (upd (fun c => set_tc_flags (MkMflags true (f_dirty_cas (tc_flags c)) (f_dirty_exec (tc_flags c))) c) id st)) as A
    by (apply upd_acts; [done|by eexists|done|done]).
  eapply acts_trans; [exact A|]. apply addReply_acts; apply A.
Qed.

Lemma discard_spec id c st :
  tx_ok st -> tx_clients st !! id = Some c -> exists st', discardCommand id st = Ok st' /\ acts id st st'.
Proof.
  intros Hok Hc. unfold discardCommand. rewrite (get_client_ok _ _ _ Hc). cbn [mbind res_bind].
  destruct (negb (f_multi (tc_flags c))); [eexists; split; [done|]; by eapply reply_only|].
  destruct (discardTransaction_spec id c st Hok Hc) as (st1 & -> & A & _). eexists. split; [done|].
  eapply acts_trans; [exact A|]. apply addReply_acts; apply A.
Qed.

Lemma watch_spec id c st :
  tx_ok st -> tx_clients st !! id = Some c -> exists st', watchCommand id st = Ok st' /\ acts id st st'.
Proof.
  intros Hok Hc. unfold watchCommand. rewrite (get_client_ok _ _ _ Hc). cbn [mbind res_bind].
  destruct (f_multi (tc_flags c)); [eexists; split; [done|]; by eapply reply_only|].
  destruct (watch_all_spec id (drop 1 (tc_argv c)) c st Hok Hc) as (st1 & -> & A & _). eexists. split; [done|].
  eapply acts_trans; [exact A|]. apply addReply_acts; apply A.
Qed.

Lemma run_full_spec cmd id c st :
  tx_ok st -> tx_clients st !! id = Some c -> cmd_ok cmd -> wrong_arity cmd (Z.of_nat (length (tc_argv c))) = false ->
  peer_exec_ok cmd c (w_crdt (tx_world st)) ->
  exists also st1, run_full g cmd id st = Ok (also, st1) /\ acts id st st1 /\ Forall op_wf also.
Proof.
  intros Hok Hc Hcmd Har Hpeer.
  assert (queued_kind (cmd_kind cmd) = true -> exists also st1, run_basic g cmd id st = Ok (also, st1) /\ acts id st st1 /\ Forall op_wf also)
    as Hbasic.
  { intros Hk. destruct (run_basic_spec cmd id c st Hok Hc Hcmd Hk Har) as (also & st1 & c1 & E & A & Ho & _). by exists also, st1. }
  assert (forall m, (exists st', m = Ok st' /\ acts id st st') ->
            exists also st1, (st ← m; Ok ([], st)) = Ok (also, st1) /\ acts id st st1 /\ Forall op_wf also) as Hpair.
  { intros m (st' & -> & A). exists [], st'. split; [done|]. by split. }
  unfold run_full, run_basic in *. destruct (cmd_kind cmd) eqn:Ek; try (by apply Hbasic).
  - apply Hpair. by eapply multi_spec.
  - apply Hpair. destruct (execCommand_spec id c st Hok Hc) as (st' & c' & E & A & _). by exists st'.
  - apply Hpair. destruct (crdtExecCommand_spec id c st Hok Hc) as (st' & E & A & _); [| |by exists st'].
    + eapply arity_two; [|exact Har]. apply Hcmd. by right.
    + intros o n Hl. by apply Hpeer.
  - apply Hpair. by eapply discard_spec.
  - apply Hpair. by eapply watch_spec.
Qed.

Lemma call_full_spec cmd id c st :
  tx_ok st -> tx_clients st !! id = Some c -> cmd_ok cmd -> wrong_arity cmd (Z.of_nat (length (tc_argv c))) = false ->
  peer_exec_ok cmd c (w_crdt (tx_world st)) -> exists st', call (run_full g) cmd id st = Ok st' /\ acts id st st'.
Proof.
  intros Hok Hc Hcmd Har Hpeer.
  assert (acts id st (upd (set_tc_prop no_prop) id st)) as A0 by (apply upd_acts; [done|by eexists|done|done]).
  pose proof (upd_quiet (set_tc_prop no_prop) id c st Hc) as Q0.
  destruct (run_full_spec cmd id _ _ (ac_ok _ _ _ A0) (q_client _ _ _ _ Q0) Hcmd Har) as (also & st1 & E & A1 & Ho); [done|].
  destruct (ac_self _ _ _ A1) as [c1 Hc1].
  destruct (call_spec _ cmd id c st also st1 c1 Hok Hc E A1 Hc1 Ho) as (w & _ & _ & Ec & A & _). by eexists.
Qed.

Lemma flag_acts id st : tx_ok st -> is_Some (tx_clients st !! id) -> acts id st (flagTransaction id st).
Proof.
  intros Hok Hid. apply upd_acts; [done|done| |].
  - intros c. by destruct (f_multi (tc_flags c)).
  - intros c _ Hcl. by destruct (f_multi (tc_flags c)).
Qed.

Lemma accept_spec cmd id c st :
  tx_ok st -> tx_clients st !! id = Some c -> cmd_ok cmd -> wrong_arity cmd (Z.of_nat (length (tc_argv c))) = false ->
  peer_exec_ok cmd c (w_crdt (tx_world st)) -> exists st', accept g cmd id st = Ok st' /\ acts id st st'.
Proof.
  intros Hok Hc Hcmd Har Hpeer. unfold accept. rewrite (get_client_ok _ _ _ Hc). cbn [mbind res_bind].
  destruct (f_multi (tc_flags c) && queued_kind (cmd_kind cmd)) eqn:Eq; [|by eapply call_full_spec].
  apply andb_prop in Eq as [_ Ek]. eexists. split; [done|].
  assert (acts id st (queueMultiCommand cmd id st)) as A.
  { apply upd_acts; [done|by eexists|done|]. intros c' Hc' (K1 & K2 & K3). rewrite Hc in Hc'. injection Hc' as <-.
    split; [done|]. split; [|done]. apply Forall_app. split; [done|]. constructor; [|constructor]. by split. }
  eapply acts_trans; [exact A|]. apply addReply_acts; apply A.
Qed.

Definition table_ok (table : list (command D)) : Prop := Forall cmd_ok table.

Lemma lookupCommand_ok table name cmd : table_ok table -> lookupCommand table name = Some cmd -> cmd_ok cmd.
Proof.
  unfold table_ok, lookupCommand. rewrite Forall_forall. intros Ht E. apply find_some in E as [Hin _].
  apply Ht. by apply list_elem_of_In.
Qed.

Lemma processCommand_spec table id c st :
  table_ok table -> tx_ok st -> tx_clients st !! id = Some c -> tc_argv c <> [] ->
  (forall name rest cmd, tc_argv c = name :: rest -> lookupCommand table (obj_bytes name) = Some cmd ->
     peer_exec_ok cmd c (w_crdt (tx_world st))) ->
  exists b st', processCommand g table id st = Ok (b, st') /\ acts id st st'.
Proof.
  intros Ht Hok Hc Hargv Hpeer. assert (is_Some (tx_clients st !! id)) as Hid by (by eexists).
  unfold processCommand. rewrite (get_client_ok _ _ _ Hc). cbn [mbind res_bind].
  destruct (tc_argv c) as [|name rest] eqn:Ea; [done|]. cbn [lookup list_lookup need mbind res_bind].
  assert (forall p, acts id st (addReply p id (flagTransaction id st))) as Hflag.
  { intros p. eapply acts_trans; [by apply flag_acts|]. apply addReply_acts; by apply flag_acts. }
  destruct (strcaseeq (cstr (obj_bytes name)) (str "quit")); [eexists _, _; split; [reflexivity|]; by apply addReply_acts|].
  destruct (lookupCommand table (obj_bytes name)) as [cmd|] eqn:El; [|eexists _, _; by split; [reflexivity|]].
  destruct (wrong_arity cmd (Z.of_nat (length (name :: rest)))) eqn:Ear; [eexists _, _; by split; [reflexivity|]|].
  destruct (g_requirepass g && negb (tc_authenticated c) && negb (bool_decide (cmd_kind cmd = KAuth)));
    [eexists _, _; by split; [reflexivity|]|].
  destruct (g_redirect g) as [reply|].
  { destruct (bool_decide (cmd_kind cmd = KExec)); [|eexists _, _; by split; [reflexivity|]].
    destruct (discardTransaction_spec id c st Hok Hc) as (st1 & -> & A & _). cbn [mbind res_bind].
    eexists _, _. split; [reflexivity|]. eapply acts_trans; [exact A|]. apply addReply_acts; apply A. }
  destruct (g_freed g); [eexists _, _; split; [reflexivity|]; by apply acts_refl|].
  destruct (reject g cmd c (tx_world st)) as [[flag reply]|].
  { destruct flag; (eexists _, _; split; [reflexivity|]); [done|by apply addReply_acts]. }
  destruct (accept_spec cmd id c st Hok Hc) as (st' & -> & A); [by eapply lookupCommand_ok|by rewrite Ea|by eapply Hpeer|].
  by eexists _, _.
Qed.

(** ** Sequences of requests *)

(** Which clients there are, and which of them are links of peers. *)

Definition links_of st : gmap nat bool := tc_crdt_master <$> tx_clients st.

(** A request comes from a client that is there, and has well-formed arguments;
    a peer that sends [CRDT.EXEC gid] names a known group. *)

Definition argv_ok (table : list (command D)) (s : crdtServer) (link : bool) (argv : list robj) : Prop :=
  argv <> [] /\ Forall robj_ok argv /\
  (link = true -> forall name rest cmd o n, argv = name :: rest -> lookupCommand table (obj_bytes name) = Some cmd ->
     cmd_kind cmd = KCrdtExec -> argv !! 1%nat = Some o -> string2ll (obj_bytes o) = Some n ->
     check_gid (to_int n) = true -> is_Some (crdtMasters s !! to_int n)).

Fixpoint valid_requests (table : list (command D)) (L : gmap nat bool) (s : crdtServer) (rs : list request) : Prop :=
  match rs with
  | [] => True
  | Send id argv :: rs =>
      (exists link, L !! id = Some link /\ argv_ok table s link argv) /\ valid_requests table L s rs
  | Close id :: rs => is_Some (L !! id) /\ valid_requests table (delete id L) s rs
  end.

Definition actor (r : request) : nat := match r with Send id _ => id | Close id => id end.

Lemma acts_links id st st' : acts id st st' -> links_of st' = links_of st \/ tx_clients st !! id = None.
Proof.
  intros [A1 A2 [c' A3] A4 A5]. destruct (tx_clients st !! id) as [c|] eqn:E; [left|by right].
  apply map_eq. intros j. unfold links_of. rewrite !lookup_fmap. destruct (decide (j = id)) as [-> |Hj].
  - rewrite A3, E. simpl. f_equal. by apply A4.
  - destruct (A5 j Hj) as (new & _ & ->). destruct (tx_clients st !! j) as [cj|]; [|done]. simpl. f_equal.
    unfold mark. by destruct (hit new cj).
Qed.

Lemma links_lookup st id link : links_of st !! id = Some link -> exists c, tx_clients st !! id = Some c /\ tc_crdt_master c = link.
Proof.
  unfold links_of. rewrite lookup_fmap. destruct (tx_clients st !! id) as [c|]; [|done]. intros [= <-]. by exists c.
Qed.

Lemma send_spec table id argv c st :
  table_ok table -> tx_ok st -> tx_clients st !! id = Some c ->
  argv_ok table (w_crdt (tx_world st)) (tc_crdt_master c) argv ->
  exists b st', processCommand g table id (upd (set_tc_argv argv) id st) = Ok (b, st') /\ acts id st st'.
Proof.
  intros Ht Hok Hc (Hne & Hargv & Hpeer).
  assert (acts id st (upd (set_tc_argv argv) id st)) as A0.
  { apply upd_acts; [done|by eexists|done|]. intros c' _ (K1 & K2 & _). by split. }
  pose proof (upd_quiet (set_tc_argv argv) id c st Hc) as Q0.
  destruct (processCommand_spec table id (set_tc_argv argv c) (upd (set_tc_argv argv) id st) Ht (ac_ok _ _ _ A0)
              (q_client _ _ _ _ Q0) Hne) as (b & st' & E & A).
  { intros name rest cmd Ea El Hk Hl o n Eo En Hn. cbn [set_tc_argv tc_argv tc_crdt_master] in *. by eapply Hpeer. }
  exists b, st'. split; [done|]. by eapply acts_trans.
Qed.

Lemma watch_ok_gone W C id : watch_ok W C -> C !! id = Some [] -> watch_ok W (delete id C).
Proof.
  intros [H1 H2 H3] Hc. split; [done| |].
  - intros id' keys Hk. apply lookup_delete_Some in Hk as [_ Hk]. by apply (H2 id').
  - intros wk id'. rewrite H3. destruct (decide (id' = id)) as [-> |Hne].
    + rewrite lookup_delete_eq, Hc. split; [|by intros (? & ? & _)]. by intros (? & [= <-] & ?%not_elem_of_nil).
    + by rewrite lookup_delete_ne.
Qed.

Lemma close_spec id c st :
  tx_ok st -> tx_clients st !! id = Some c ->
  exists st', freeClient_tx id st = Ok st' /\ tx_ok st' /\ w_crdt (tx_world st') = w_crdt (tx_world st) /\
    tx_clients st' !! id = None /\ forall j, j <> id -> sees j st st'.
Proof.
  intros Hok Hc. unfold freeClient_tx. destruct (unwatchAllKeys_spec id c st Hok Hc) as (st1 & -> & A & Q). cbn [mbind res_bind].
  eexists. split; [reflexivity|]. destruct A as [[B1 B2 B3 B4] A2 _ _ A5]. split; [|split; [done|split]].
  - split; [|done|done|].
    + simpl. replace (watched_of (set_tx_clients (delete id (tx_clients st1)) st1)) with (delete id (watched_of st1)).
      * apply watch_ok_gone; [done|]. unfold watched_of. rewrite lookup_fmap, (q_client _ _ _ _ Q). done.
      * unfold watched_of. simpl. by rewrite fmap_delete.
    + simpl. intros j cj [_ Hj]%lookup_delete_Some. by apply (B4 j).
  - simpl. by rewrite lookup_delete_eq.
  - intros j Hj. eapply sees_trans; [by apply A5|]. exists []. rewrite app_nil_r. split; [done|].
    simpl. rewrite lookup_delete_ne by done. by destruct (tx_clients st1 !! j).
Qed.

Lemma serve_spec table r rs st :
  table_ok table -> tx_ok st -> valid_requests table (links_of st) (w_crdt (tx_world st)) (r :: rs) ->
  exists st', serve g table st r = Ok st' /\ tx_ok st' /\ valid_requests table (links_of st') (w_crdt (tx_world st')) rs /\
    forall j, j <> actor r -> sees j st st'.
Proof.
  intros Ht Hok Hv. destruct r as [id argv|id]; cbn [valid_requests] in Hv; destruct Hv as [Hr Hv]; cbn [serve actor].
  - destruct Hr as (link & Hl & Ha). destruct (links_lookup _ _ _ Hl) as (c & Hc & <-).
    destruct (send_spec table id argv c st Ht Hok Hc Ha) as (b & st' & -> & A). cbn [mbind res_bind].
    exists st'. split; [done|]. split; [apply A|]. rewrite (ac_crdt _ _ _ A).
    destruct (acts_links _ _ _ A) as [-> | N]; [|congruence]. split; [done|]. apply A.
  - destruct Hr as [link Hl]. destruct (links_lookup _ _ _ Hl) as (c & Hc & _).
    destruct (close_spec id c st Hok Hc) as (st' & -> & Hok' & Ew & Hn & Hs). exists st'. split; [done|]. split; [done|].
    split; [|done]. rewrite Ew. replace (links_of st') with (delete id (links_of st)); [done|].
    apply map_eq. intros j. unfold links_of. rewrite lookup_fmap. destruct (decide (j = id)) as [-> |Hj].
    + by rewrite lookup_delete_eq, Hn.
    + rewrite lookup_delete_ne, lookup_fmap by done. destruct (Hs j Hj) as (new & _ & ->).
      destruct (tx_clients st !! j) as [cj|]; [|done]. simpl. f_equal. unfold mark. by destruct (hit new cj).
Qed.

Lemma serve_all_ok table rs : forall st,
  table_ok table -> tx_ok st -> valid_requests table (links_of st) (w_crdt (tx_world st)) rs ->
  exists st', serve_all g table rs st = Ok st' /\ tx_ok st'.
Proof.
  induction rs as [|r rs IH]; intros st Ht Hok Hv; cbn [serve_all]; [by exists st|].
  destruct (serve_spec table r rs st Ht Hok Hv) as (st1 & -> & Hok1 & Hv1 & _). cbn [mbind res_bind]. by apply IH.
Qed.

(** ** What a client that watches keys knows *)

Definition tracks (j : nat) st st' : Prop :=
  exists new, tx_touched st' = tx_touched st ++ new /\
    forall c, tx_clients st !! j = Some c ->
    exists c', tx_clients st' !! j = Some c' /\ tc_watched_keys c' = tc_watched_keys c /\
      f_dirty_cas (tc_flags c') = f_dirty_cas (tc_flags c) || hit new c.

Lemma sees_tracks j st st' : sees j st st' -> tracks j st st'.
Proof.
  intros (new & T & C). exists new. split; [done|]. intros c Hc. rewrite C, Hc. exists (mark new c). split; [done|].
  split; [apply mark_watched|]. unfold mark. destruct (hit new c); simpl; [by rewrite orb_true_r|by rewrite orb_false_r].
Qed.

Lemma tracks_trans j st1 st2 st3 : tracks j st1 st2 -> tracks j st2 st3 -> tracks j st1 st3.
Proof.
  intros (n1 & T1 & C1) (n2 & T2 & C2). exists (n1 ++ n2). split; [by rewrite T2, T1, app_assoc|].
  intros c Hc. destruct (C1 c Hc) as (c1 & Hc1 & W1 & D1). destruct (C2 c1 Hc1) as (c2 & Hc2 & W2 & D2).
  exists c2. split; [done|]. split; [congruence|]. rewrite D2, D1, hit_app, orb_assoc. f_equal.
  unfold hit. by rewrite W1.
Qed.

(** Steps of the client itself that leave its watch alone. *)

Lemma still_tracks id c c' st st' :
  tx_clients st !! id = Some c -> tx_clients st' !! id = Some c' -> tx_touched st' = tx_touched st ->
  tc_watched_keys c' = tc_watched_keys c -> f_dirty_cas (tc_flags c') = f_dirty_cas (tc_flags c) -> tracks id st st'.
Proof.
  intros Hc Hc' T W Dc. exists []. rewrite app_nil_r. split; [done|]. intros c0 E. rewrite Hc in E. injection E as <-.
  exists c'. split; [done|]. split; [done|]. simpl. by rewrite orb_false_r.
Qed.

Lemma upd_tracks f id c st :
  tx_clients st !! id = Some c -> tc_watched_keys (f c) = tc_watched_keys c ->
  f_dirty_cas (tc_flags (f c)) = f_dirty_cas (tc_flags c) -> tracks id st (upd f id st).
Proof. intros Hc W Dc. eapply still_tracks; [exact Hc|apply (upd_quiet f id c st Hc)|done|done|done]. Qed.

Definition neutral_kind (k : kind) : bool :=
  match k with KExec | KCrdtExec | KDiscard | KWatch | KUnwatch => false | _ => true end.

Lemma run_full_tracks cmd id c st also st1 :
  tx_ok st -> tx_clients st !! id = Some c -> cmd_ok cmd -> neutral_kind (cmd_kind cmd) = true ->
  run_full g cmd id st = Ok (also, st1) -> tracks id st st1.
Proof.
  intros Hok Hc Hcmd Hk.
  assert (plainCommand g cmd id st = Ok (also, st1) -> tracks id st st1) as Hplain.
  { intros E. destruct (plain_spec cmd id c st Hok Hc Hcmd) as (new & st1' & E' & _ & C & _ & _ & _ & T & _).
    rewrite E in E'. injection E' as _ <-. exists new. split; [done|]. intros c0 E0. rewrite Hc in E0. injection E0 as <-.
    eexists. split; [exact C|]. unfold mark. by destruct (hit new c); simpl; rewrite ?orb_true_r, ?orb_false_r. }
  unfold run_full, run_basic. destruct (cmd_kind cmd) eqn:Ek; try discriminate Hk; try exact Hplain.
  - unfold multiCommand. rewrite (get_client_ok _ _ _ Hc). cbn [mbind res_bind].
    destruct (f_multi (tc_flags c)); cbn [mbind res_bind]; intros [= _ <-]; [by eapply upd_tracks|].
    eapply tracks_trans; [|eapply upd_tracks; [apply (upd_quiet _ id c st Hc)|done|done]]. by eapply upd_tracks.
  - unfold selectCommand. rewrite (get_client_ok _ _ _ Hc). cbn [mbind res_bind].
    destruct (tc_argv c !! 1%nat) as [o|]; cbn [need mbind res_bind]; [|done].
    destruct (string2ll (obj_bytes o)) as [n|]; [|cbn [mbind res_bind]; intros [= _ <-]; by eapply upd_tracks].
    destruct (g_cluster g && negb (n =? 0)); [cbn [mbind res_bind]; intros [= _ <-]; by eapply upd_tracks|].
    destruct ((to_int n <? 0) || (to_int n >=? g_dbnum g)); cbn [mbind res_bind]; intros [= _ <-]; [by eapply upd_tracks|].
    eapply tracks_trans; [|eapply upd_tracks; [apply (upd_quiet _ id c st Hc)|done|done]]. by eapply upd_tracks.
Qed.

Lemma call_full_tracks cmd id c st st' :
  tx_ok st -> tx_clients st !! id = Some c -> cmd_ok cmd -> neutral_kind (cmd_kind cmd) = true ->
  wrong_arity cmd (Z.of_nat (length (tc_argv c))) = false ->
  call (run_full g) cmd id st = Ok st' -> tracks id st st'.
Proof.
  intros Hok Hc Hcmd Hk Har E.
  assert (acts id st (upd (set_tc_prop no_prop) id st)) as A0 by (apply upd_acts; [done|by eexists|done|done]).
  pose proof (upd_quiet (set_tc_prop no_prop) id c st Hc) as Q0.
  destruct (run_full_spec cmd id _ _ (ac_ok _ _ _ A0) (q_client _ _ _ _ Q0) Hcmd Har) as (also & st1 & E1 & A1 & Ho).
  { intros Ek. by rewrite Ek in Hk. }
  destruct (ac_self _ _ _ A1) as [c1 Hc1].
  destruct (call_spec _ cmd id c st also st1 c1 Hok Hc E1 A1 Hc1 Ho) as (w & _ & _ & Ec & _ & Hc').
  rewrite E in Ec. injection Ec as ->.
  eapply tracks_trans; [by eapply (upd_tracks (set_tc_prop no_prop))|].
  eapply tracks_trans; [eapply run_full_tracks; [apply A0|apply Q0|done|done|exact E1]|].
  eapply still_tracks; [exact Hc1|exact Hc'|done|done|done].
Qed.

Lemma flag_tracks id c st : tx_clients st !! id = Some c -> tracks id st (flagTransaction id st).
Proof. intros Hc. eapply upd_tracks; [exact Hc|..]; by destruct (f_multi (tc_flags c)). Qed.

Lemma reply_tracks id c p st : tx_clients st !! id = Some c -> tracks id st (addReply p id st).
Proof. intros Hc. by eapply upd_tracks. Qed.

Lemma process_tracks table id c st b st' :
  table_ok table -> tx_ok st -> tx_clients st !! id = Some c ->
  (forall name rest cmd, tc_argv c = name :: rest -> lookupCommand table (obj_bytes name) = Some cmd ->
     neutral_kind (cmd_kind cmd) = true) ->
  processCommand g table id st = Ok (b, st') -> tracks id st st'.
Proof.
  intros Ht Hok Hc Hn. unfold processCommand. rewrite (get_client_ok _ _ _ Hc). cbn [mbind res_bind].
  assert (forall p, tracks id st (addReply p id (flagTransaction id st))) as Hflag.
  { intros p. eapply tracks_trans; [by eapply flag_tracks|].
    destruct (ac_self _ _ _ (flag_acts id st Hok ltac:(by eexists))) as [c1 Hc1]. by eapply reply_tracks. }
  destruct (tc_argv c) as [|name rest] eqn:Ea; [done|]. cbn [lookup list_lookup need mbind res_bind].
  destruct (strcaseeq (cstr (obj_bytes name)) (str "quit")); [intros [= _ <-]; by eapply reply_tracks|].
  destruct (lookupCommand table (obj_bytes name)) as [cmd|] eqn:El; [|intros [= _ <-]; by apply Hflag].
  specialize (Hn name rest cmd eq_refl El).
  destruct (wrong_arity cmd (Z.of_nat (length (name :: rest)))) eqn:Ear; [intros [= _ <-]; by apply Hflag|].
  destruct (g_requirepass g && negb (tc_authenticated c) && negb (bool_decide (cmd_kind cmd = KAuth)));
    [intros [= _ <-]; by apply Hflag|].
  destruct (g_redirect g) as [reply|].
  { rewrite bool_decide_false by (intros Ek; by rewrite Ek in Hn). cbn [mbind res_bind]. intros [= _ <-]. by apply Hflag. }
  destruct (g_freed g); [intros [= _ <-]; apply sees_tracks, sees_refl|].
  destruct (reject g cmd c (tx_world st)) as [[flag reply]|].
  { destruct flag; intros [= _ <-]; [by apply Hflag|by eapply reply_tracks]. }
  unfold accept. rewrite (get_client_ok _ _ _ Hc). cbn [mbind res_bind].
  destruct (f_multi (tc_flags c) && queued_kind (cmd_kind cmd)).
  { cbn [mbind res_bind]. intros [= _ <-].
    eapply tracks_trans; [|eapply reply_tracks; apply (upd_quiet _ id c st Hc)]. by eapply upd_tracks. }
  destruct (call (run_full g) cmd id st) as [st1| |] eqn:E1; [|done|done]. cbn [mbind res_bind]. intros [= _ <-].
  eapply call_full_tracks; [done|done|by eapply lookupCommand_ok|done|by rewrite Ea|done].
Qed.

(** A request that does not end the watch of the client [j]: one of another
    client, or one of its own that is not WATCH, UNWATCH, EXEC or DISCARD. *)

Definition neutral (table : list (command D)) (j : nat) (r : request) : Prop :=
  match r with
  | Close id => id <> j
  | Send id argv => id = j -> forall name rest cmd, argv = name :: rest ->
      lookupCommand table (obj_bytes name) = Some cmd -> neutral_kind (cmd_kind cmd) = true
  end.

Lemma serve_all_tracks table j rs : forall st,
  table_ok table -> tx_ok st -> valid_requests table (links_of st) (w_crdt (tx_world st)) rs ->
  Forall (neutral table j) rs ->
  exists st', serve_all g table rs st = Ok st' /\ tx_ok st' /\ tracks j st st'.
Proof.
  induction rs as [|r rs IH]; intros st Ht Hok Hv Hn; cbn [serve_all].
  - exists st. split; [done|]. split; [done|]. apply sees_tracks, sees_refl.
  - apply Forall_cons in Hn as [Hr Hn].
    destruct (serve_spec table r rs st Ht Hok Hv) as (st1 & E1 & Hok1 & Hv1 & Hs). rewrite E1. cbn [mbind res_bind].
    destruct (IH st1 Ht Hok1 Hv1 Hn) as (st2 & E2 & Hok2 & T2). exists st2. split; [done|]. split; [done|].
    eapply tracks_trans; [|exact T2]. destruct (decide (j = actor r)) as [-> |Hj]; [|by apply sees_tracks, Hs].
    destruct r as [id argv|id]; [|done]. cbn [actor neutral valid_requests] in *. destruct Hv as [(link & Hl & (_ & Hargv & _)) _].
    destruct (links_lookup _ _ _ Hl) as (c & Hc & _). cbn [serve] in E1.
    destruct (processCommand g table id (upd (set_tc_argv argv) id st)) as [[b st0]| |] eqn:Ep; [|done|done].
    cbn [mbind res_bind] in E1. injection E1 as <-.
    assert (acts id st (upd (set_tc_argv argv) id st)) as A0.
    { apply upd_acts; [done|by eexists|done|]. intros c' _ (K1 & K2 & _). by split. }
    eapply tracks_trans; [by eapply (upd_tracks (set_tc_argv argv))|].
    eapply process_tracks; [done|apply A0|apply (upd_quiet (set_tc_argv argv) id c st Hc)| |exact Ep].
    intros name rest cmd Ea. by eapply Hr.
Qed.

End invariant.
