(* ===== verification/MultiClaims.v ===== *)
(** * Transactions: what they promise

    The theorems on [Multi]: the lists of watched keys stay consistent and no
    request fails, EXEC runs exactly if no watched key was touched, and the
    transaction reaches the slaves and the peers as one block. *)

From S2P Require Import Prelude Util Sds VectorClock VcTheory VcText VcClaims Proxy CrdtServer Backlog Resp World Feed Multi MultiTheory.

(** ** The stream of a transaction *)

(** The database both streams have selected, if they agree. *)

Definition selected (w : world) : option Z :=
  if slaveseldb (w_server w) =? slaveseldb (w_peers w) then Some (slaveseldb (w_server w)) else None.

(** The bytes of commands that go to both streams. *)

Fixpoint ops_bytes (gid : Z) (sel : option Z) (ops : list redisOp) : bytes :=
  match ops with
  | [] => []
  | o :: ops =>
      (if bool_decide (sel = Some (op_dbid o)) then []
       else encode_command [str "CRDT.SELECT"; print_Z gid; print_Z (op_dbid o)]) ++
      encode_command (map obj_bytes (op_argv o)) ++ ops_bytes gid (Some (op_dbid o)) ops
  end.

Lemma seldb_selected dictid w : seldb_differs dictid w = negb (bool_decide (selected w = Some dictid)).
Proof.
  unfold seldb_differs, selected. destruct (Z.eqb_spec (slaveseldb (w_server w)) (slaveseldb (w_peers w))) as [E|E].
  - rewrite <- E. destruct (Z.eqb_spec (slaveseldb (w_server w)) dictid) as [-> |Hne]; simpl.
    + by rewrite bool_decide_true.
    + rewrite bool_decide_false by congruence. done.
  - rewrite bool_decide_false by done. destruct (Z.eqb_spec (slaveseldb (w_server w)) dictid); [|done]. simpl.
    destruct (Z.eqb_spec (slaveseldb (w_peers w)) dictid); [congruence|done].
Qed.

Lemma selected_both w d : (forall i, slaveseldb (get_srv i w) = d) -> selected w = Some d.
Proof. intros H. unfold selected. rewrite (H SERVER : slaveseldb (w_server w) = d), (H CRDT : slaveseldb (w_peers w) = d). by rewrite Z.eqb_refl. Qed.

(** The selected database after some commands. *)

Fixpoint last_db (sel : option Z) (ops : list redisOp) : option Z :=
  match ops with
  | [] => sel
  | o :: ops => last_db (Some (op_dbid o)) ops
  end.

Lemma ops_bytes_app gid sel ops1 ops2 :
  ops_bytes gid sel (ops1 ++ ops2) = ops_bytes gid sel ops1 ++ ops_bytes gid (last_db sel ops1) ops2.
Proof.
  revert sel. induction ops1 as [|o ops1 IH]; intros sel; [done|]. cbn [ops_bytes last_db app]. by rewrite IH, <- !app_assoc.
Qed.

(** A master that makes its own stream. *)

Definition own_stream (w : world) : Prop := iAmMaster w = true /\ proxies_master w = false.

Definition crdt_op (o : redisOp) : Prop := op_crdt o = true /\ op_wf o.

Lemma feed_ops_fed current ops : forall w,
  world_ok w -> own_stream w -> Forall crdt_op ops ->
  exists w', feed_ops current ops w = Ok w' /\ world_fed (ops_bytes (crdt_gid (w_crdt w)) (selected w) ops) w w' /\
    selected w' = last_db (selected w) ops.
Proof.
  induction ops as [|o ops IH]; intros w Hok [Hm Hp] Hops; cbn [feed_ops ops_bytes last_db].
  - exists w. split; [done|]. split; [apply world_fed_nil|done].
  - apply Forall_cons in Hops as [[Hc Ho] Hops]. rewrite Hc. cbn [orb]. unfold propagate. rewrite Hm. cbn [andb].
    destruct (feed_all (op_dbid o) (op_argv o) w Hok Hp Ho) as (w1 & -> & F1 & D1). cbn [mbind res_bind].
    destruct (same_rest_crdt _ _ (proj1 F1)) as (Ec & _ & Em & Ep).
    destruct (IH w1) as (w2 & -> & F2 & D2); [by eapply world_fed_ok|by rewrite <- Em, <- Ep in * |done|].
    rewrite (selected_both w1 (op_dbid o) D1) in F2, D2. rewrite Ec in F2. exists w2. split; [done|]. split; [|done].
    pose proof (world_fed_app _ _ _ _ _ F1 F2) as F. unfold select_prefix in F. rewrite seldb_selected in F.
    rewrite <- app_assoc in F. by destruct (bool_decide (selected w = Some (op_dbid o))).
Qed.

Section streams.

Context {D : Type} (g : gate) (Hload : g_loading g = false).

Implicit Types (st : txserver D) (id : nat) (c : tclient D) (cmd : command D).

(** A command of the CRDT module: it propagates what it did to both streams, by
    itself; one that only reads propagates nothing. *)

Definition data_command (q : command D * list robj) : Prop :=
  queued_ok q /\ cmd_module (fst q) = true /\ cmd_kind (fst q) = KPlain /\
  forall dbid d, let e := cmd_run (fst q) (snd q) dbid d in
    (forall w, e_world e w = w) /\ Forall (fun o => op_crdt o = true) (e_also e) /\
    (may_write q = false -> e_also e = []).

(** The commands a queue propagates. *)

Fixpoint queue_ops (queue : list (command D * list robj)) (dbid : Z) (d : D) : list redisOp :=
  match queue with
  | [] => []
  | (cmd, argv) :: queue =>
      let e := cmd_run cmd argv dbid d in e_also e ++ queue_ops queue dbid (e_data e)
  end.

(** What [world] does in a step that feeds [ops]. *)

Definition stream_grows (ops : list redisOp) (w w' : world) : Prop :=
  world_fed (ops_bytes (crdt_gid (w_crdt w)) (selected w) ops) w w' /\ selected w' = last_db (selected w) ops.

Lemma stream_grows_nil w : stream_grows [] w w.
Proof. split; [apply world_fed_nil|done]. Qed.

Lemma stream_grows_app ops1 ops2 w1 w2 w3 :
  stream_grows ops1 w1 w2 -> stream_grows ops2 w2 w3 -> stream_grows (ops1 ++ ops2) w1 w3.
Proof.
  intros [F1 S1] [F2 S2]. destruct (same_rest_crdt _ _ (proj1 F1)) as (Ec & _). rewrite Ec, S1 in F2. rewrite S1 in S2. split.
  - rewrite ops_bytes_app. by eapply world_fed_app.
  - rewrite S2. clear. generalize (selected w1). induction ops1 as [|o ops1 IH]; intros sel; [done|]. apply IH.
Qed.

Lemma own_stream_fed p w w' : own_stream w -> world_fed p w w' -> own_stream w'.
Proof. intros [Hm Hp] [R _]. destruct (same_rest_crdt _ _ R) as (_ & _ & Em & Ep). split; congruence. Qed.

Lemma call_data_fed cmd id c st :
  tx_ok st -> own_stream (tx_world st) -> tx_clients st !! id = Some c -> data_command (cmd, tc_argv c) ->
  let e := cmd_run cmd (tc_argv c) (tc_db c) (tx_data st) in
  exists st' c', call (run_basic g) cmd id st = Ok st' /\ acts id st st' /\
    tx_clients st' !! id = Some c' /\ tc_prop c' = tc_prop c /\ tc_db c' = tc_db c /\ tx_data st' = e_data e /\
    stream_grows (e_also e) (tx_world st) (tx_world st').
Proof.
  intros Hok Hown Hc (Hq & Hmod & Hkind & He) e. cbn [fst snd] in *. destruct Hq as (Hk & Hcmd & Hargv & Har). cbn [fst snd] in *.
  destruct (He (tc_db c) (tx_data st)) as (Hw & Hcr & _). fold e in Hw, Hcr.
  assert (acts id st (upd (set_tc_prop no_prop) id st)) as A0 by (apply upd_acts; [done|by eexists|done|done]).
  pose proof (upd_quiet (set_tc_prop no_prop) id c st Hc) as Q0.
  destruct (plain_spec g cmd id _ _ (ac_ok _ _ _ A0) (q_client _ _ _ _ Q0) Hcmd)
    as (new & st1 & E1 & A1 & C1 & D1 & _ & W1 & _ & Ho).
  change (cmd_run cmd (tc_argv (set_tc_prop no_prop c)) (tc_db (set_tc_prop no_prop c)) (tx_data (upd (set_tc_prop no_prop) id st)))
    with e in *. change (tx_world (upd (set_tc_prop no_prop) id st)) with (tx_world st) in *.
  unfold alsoPropagate in E1, Ho. rewrite Hload in E1, Ho. cbn [andb] in E1, Ho. rewrite Hw in W1.
  assert (run_basic g cmd id (upd (set_tc_prop no_prop) id st) = Ok (e_also e, st1)) as E1' by (unfold run_basic; by rewrite Hkind).
  destruct (call_spec _ cmd id c st _ st1 _ Hok Hc E1' A1 C1 Ho) as (w & Ew & Rw & Ec & A & Hc').
  exists (set_tx_world w (upd (set_tc_prop (tc_prop c)) id st1)). eexists.
  split; [exact Ec|]. split; [exact A|]. split; [exact Hc'|]. split; [done|].
  split; [unfold mark; by destruct (hit new (set_tc_prop no_prop c))|]. split; [exact D1|].
  unfold own_ops in Ew. rewrite Hmod in Ew. cbn [orb app] in Ew. rewrite W1 in Ew.
  destruct (feed_ops_fed (current_of cmd (after_plain e (mark new (set_tc_prop no_prop c)))) (e_also e) (tx_world st))
    as (w' & Ew' & F' & S'); [apply (so_world _ Hok)|done| |].
  { rewrite Forall_forall in *. intros o Hin. split; [by apply Hcr|by apply Ho]. }
  rewrite Ew in Ew'. injection Ew' as <-. by split.
Qed.

Definition force_crdt : pflags := MkPflags false false false false true.

(** The loop of EXEC: MULTI goes before the first command that may write. *)

Fixpoint loop_ops (gid : Z) (queue : list (command D * list robj)) (must : bool) (dbid : Z) (d : D) : list redisOp :=
  match queue with
  | [] => []
  | (cmd, argv) :: queue =>
      let e := cmd_run cmd argv dbid d in
      let first := negb must && may_write (cmd, argv) in
      (if first then [multi_op gid dbid] else []) ++ e_also e ++ loop_ops gid queue (must || first) dbid (e_data e)
  end.

Lemma exec_loop_fed id queue : forall c st must,
  tx_ok st -> own_stream (tx_world st) -> tx_clients st !! id = Some c -> Forall data_command queue ->
  exists st' c', exec_loop g true id queue must st = Ok (must || existsb may_write queue, st') /\ acts id st st' /\
    tx_clients st' !! id = Some c' /\ tc_db c' = tc_db c /\
    tc_prop c' = (if negb must && existsb may_write queue then or_prop (tc_prop c) force_crdt else tc_prop c) /\
    stream_grows (loop_ops (crdt_gid (w_crdt (tx_world st))) queue must (tc_db c) (tx_data st)) (tx_world st) (tx_world st').
Proof.
  induction queue as [|[cmd argv] queue IH]; intros c st must Hok Hown Hc Hq.
  - exists st, c. cbn [exec_loop existsb loop_ops]. rewrite orb_false_r, andb_false_r. split; [done|].
    split; [apply acts_refl; [done|by eexists]|]. do 3 (split; [done|]). apply stream_grows_nil.
  - apply Forall_cons in Hq as [Hq1 Hq]. cbn [exec_loop loop_ops].
    set (first := negb must && may_write (cmd, argv)).
    change (negb must && negb (cmd_readonly cmd || cmd_admin cmd)) with first.
    set (st0 := upd (set_tc_argv argv) id st). set (c0 := set_tc_argv argv c).
    assert (acts id st st0) as A0.
    { apply upd_acts; [done|by eexists|done|]. intros c' _ (K1 & K2 & K3). split; [done|]. split; [done|]. apply (proj1 Hq1). }
    assert (tx_clients st0 !! id = Some c0) as Hc0 by (apply (q_client _ _ _ _ (upd_quiet (set_tc_argv argv) id c st Hc))).
    set (p1 := if first then or_prop (tc_prop c) force_crdt else tc_prop c).
    assert (exists st1, (if first && true then
              st ← execCrdtCommandPropagateMulti cmd id st0;
              Ok (upd (fun c => set_tc_prop (or_prop (tc_prop c) (MkPflags false false false false true)) c) id st)
            else Ok st0) = Ok st1 /\ acts id st0 st1 /\ tx_clients st1 !! id = Some (set_tc_prop p1 c0) /\
            tx_data st1 = tx_data st /\
            stream_grows (if first then [multi_op (crdt_gid (w_crdt (tx_world st))) (tc_db c)] else []) (tx_world st) (tx_world st1))
      as (st1 & E1 & A1 & Hc1 & Hd1 & G1).
    { rewrite andb_true_r. unfold p1. destruct first.
      - destruct (propagateMulti_spec cmd id c0 st0 (ac_ok _ _ _ A0) Hc0) as (w & Ew & Rw & -> & A). cbn [mbind res_bind].
        eexists. split; [reflexivity|]. split; [|split; [|split]].
        + eapply acts_trans; [exact A|]. apply upd_acts; [apply A|apply A|done|done].
        + simpl. rewrite lookup_alter_eq. simpl in Hc0. rewrite Hc0. done.
        + done.
        + destruct (feed_ops_fed (current_of cmd c0) [multi_op (crdt_gid (w_crdt (tx_world st0))) (tc_db c0)] (tx_world st0))
            as (w' & Ew' & F & S); [apply (so_world _ (ac_ok _ _ _ A0))|done| |rewrite Ew in Ew'; by injection Ew' as <-].
          constructor; [|constructor]. split; [done|]. apply multi_op_ok, (so_gid _ Hok).
      - exists st0. split; [done|]. split; [by apply acts_refl; [apply A0|eexists]|].
        split; [rewrite Hc0; by destruct c|]. split; [done|]. apply stream_grows_nil. }
    rewrite E1. cbn [mbind res_bind]. pose proof (own_stream_fed _ _ _ Hown (proj1 G1)) as Hown1.
    destruct (call_data_fed cmd id _ st1 (ac_ok _ _ _ A1) Hown1 Hc1 Hq1) as (st2 & c2 & -> & A2 & Hc2 & P2 & B2 & D2 & G2).
    cbn [mbind res_bind]. pose proof (own_stream_fed _ _ _ Hown1 (proj1 G2)) as Hown2.
    cbn [set_tc_prop c0 set_tc_argv tc_argv tc_db] in G2, D2, B2. rewrite Hd1 in G2, D2.
    destruct (IH c2 st2 (must || first) (ac_ok _ _ _ A2) Hown2 Hc2 Hq) as (st3 & c3 & -> & A3 & Hc3 & B3 & P3 & G3).
    exists st3, c3. split; [do 2 f_equal; cbn [existsb]; unfold first; by destruct must|].
    split; [eapply acts_trans; [exact A0|]; eapply acts_trans; [exact A1|]; by eapply acts_trans|].
    split; [done|]. split; [congruence|]. split.
    + rewrite P3, P2. cbn [set_tc_prop tc_prop existsb]. unfold p1, first.
      destruct must, (may_write (cmd, argv)), (existsb may_write queue); done.
    + eapply stream_grows_app; [exact G1|]. eapply stream_grows_app; [exact G2|].
      rewrite (ac_crdt _ _ _ A2), (ac_crdt _ _ _ A1), (ac_crdt _ _ _ A0), D2, B2 in G3. exact G3.
Qed.

Lemma loop_ops_written gid queue : forall dbid d, loop_ops gid queue true dbid d = queue_ops queue dbid d.
Proof.
  induction queue as [|[cmd argv] queue IH]; intros dbid d; [done|]. cbn [loop_ops queue_ops]. simpl. by rewrite IH.
Qed.

Lemma loop_ops_first gid queue : forall dbid d,
  Forall data_command queue -> existsb may_write queue = true ->
  loop_ops gid queue false dbid d = multi_op gid dbid :: queue_ops queue dbid d.
Proof.
  induction queue as [|[cmd argv] queue IH]; intros dbid d Hq Hw; [done|]. apply Forall_cons in Hq as [(_ & _ & _ & He) Hq].
  cbn [loop_ops queue_ops existsb] in *. destruct (may_write (cmd, argv)) eqn:Em; cbn [orb andb negb] in *.
  - cbn [app]. by rewrite loop_ops_written.
  - destruct (He dbid d) as (_ & _ & Ha). cbn [fst snd] in Ha. rewrite Ha by done. cbn [app]. by rewrite IH.
Qed.

Definition exec_argv (gid : Z) : list robj := [RSds (str "CRDT.EXEC"); RInt gid].

Lemma execCommand_fed id c st :
  tx_ok st -> own_stream (tx_world st) -> tx_clients st !! id = Some c -> f_multi (tc_flags c) = true ->
  exec_refused c = None -> Forall data_command (tc_mstate c) -> existsb may_write (tc_mstate c) = true ->
  let gid := crdt_gid (w_crdt (tx_world st)) in
  exists st' c', execCommand g id st = Ok st' /\ acts id st st' /\ tx_clients st' !! id = Some c' /\
    executed g c (tx_data st) c' st' /\ tc_prop c' = or_prop (tc_prop c) force_crdt /\ tc_db c' = tc_db c /\
    tc_argv c' = exec_argv gid /\
    stream_grows (multi_op gid (tc_db c) :: queue_ops (tc_mstate c) (tc_db c) (tx_data st)) (tx_world st) (tx_world st').
Proof.
  intros Hok Hown Hc Hm Hr Hq Hw gid.
  destruct (execCommand_spec g id c st Hok Hc) as (st' & c' & E & A & Hc' & X).
  unfold exec_result in X. rewrite Hm, Hr in X. cbn [negb] in X. exists st', c'. split; [done|]. split; [done|]. split; [done|].
  split; [done|]. revert E. unfold execCommand. rewrite (get_client_ok _ _ _ Hc). cbn [mbind res_bind]. rewrite Hm, Hr. cbn [negb].
  destruct (unwatchAllKeys_spec id c st Hok Hc) as (st1 & -> & A1 & Q1). cbn [mbind res_bind].
  set (n := addReplyMultiBulkLen (Z.of_nat (length (tc_mstate c)))).
  assert (acts id st1 (addReply n id st1)) as A2 by (apply addReply_acts; apply A1).
  pose proof (upd_quiet (fun c => set_tc_reply (tc_reply c ++ n) c) id _ st1 (q_client _ _ _ _ Q1)) as Q2.
  pose proof (quiet_trans _ _ _ _ _ _ Q1 Q2) as Q.
  destruct (exec_loop_fed id (tc_mstate c) (set_tc_reply (tc_reply c ++ n) (set_tc_watched_keys [] c)) (addReply n id st1) false
              (ac_ok _ _ _ A2)) as (st3 & c3 & -> & A3 & Hc3 & B3 & P3 & G3);
    [change (own_stream (tx_world st1)); by rewrite (q_world _ _ _ _ Q1)|apply (q_client _ _ _ _ Q2)|done|]. cbn [mbind res_bind].
  destruct (discardTransaction_spec id c3 st3 (ac_ok _ _ _ A3) Hc3) as (st4 & -> & A4 & Q4). cbn [mbind res_bind].
  rewrite Hw in P3 |- *. cbn [orb andb negb] in P3 |- *.
  assert (w_crdt (tx_world st4) = w_crdt (tx_world st)) as Ecr
    by (rewrite (ac_crdt _ _ _ A4), (ac_crdt _ _ _ A3); apply (f_equal w_crdt (q_world _ _ _ _ Q))).
  rewrite Ecr. fold gid. change [RSds (str "CRDT.EXEC"); RInt gid] with (exec_argv gid).
  assert (acts id st4 (upd (set_tc_argv (exec_argv gid)) id st4)) as A5.
  { apply upd_acts; [apply A4|apply A4|done|]. intros c0 _ (K1 & K2 & _). split; [done|]. split; [done|].
    constructor; [apply (str_ok "CRDT.EXEC")|]. constructor; [|constructor]. apply gid_robj, (so_gid _ Hok). }
  destruct (exec_propagated_spec (bool_decide (w_masterhost (tx_world st) = None)) gid id
              (upd (set_tc_argv (exec_argv gid)) id st4) (ac_ok _ _ _ A5) (ac_self _ _ _ A5)) as (st6 & -> & _ & C6 & _ & _ & W6).
  intros [= <-]. pose proof (upd_quiet (set_tc_argv (exec_argv gid)) id _ st4 (q_client _ _ _ _ Q4)) as Q5.
  rewrite C6, (q_client _ _ _ _ Q5) in Hc'. injection Hc' as <-. split; [exact P3|]. split; [exact B3|]. split; [done|].
  assert (tx_world st4 = tx_world st3) as E4 by apply (q_world _ _ _ _ Q4).
  change (tx_world (addReply n id st1)) with (tx_world st1) in G3. change (tx_data (addReply n id st1)) with (tx_data st1) in G3.
  rewrite (q_world _ _ _ _ Q1), (q_data _ _ _ _ Q1) in G3.
  destruct (same_rest_crdt _ _ (proj1 (proj1 G3))) as (_ & Eh & _). rewrite W6.
  - change (tx_world (upd (set_tc_argv (exec_argv gid)) id st4)) with (tx_world st4). rewrite E4.
    rewrite loop_ops_first in G3 by done. exact G3.
  - change (tx_world (upd (set_tc_argv (exec_argv gid)) id st4)) with (tx_world st4). rewrite E4, Eh.
    destruct (w_masterhost (tx_world st)); [by rewrite bool_decide_false|by rewrite andb_false_r].
Qed.

Lemma exec_block (ex : command D) id c st :
  tx_ok st -> own_stream (tx_world st) -> tx_clients st !! id = Some c -> f_multi (tc_flags c) = true ->
  exec_refused c = None -> Forall data_command (tc_mstate c) -> existsb may_write (tc_mstate c) = true ->
  cmd_kind ex = KExec -> cmd_module ex = false ->
  let gid := crdt_gid (w_crdt (tx_world st)) in
  exists st' c', call (run_full g) ex id st = Ok st' /\ tx_clients st' !! id = Some c' /\ executed g c (tx_data st) c' st' /\
    stream_grows (multi_op gid (tc_db c) :: queue_ops (tc_mstate c) (tc_db c) (tx_data st) ++
                  [MkOp (tc_db c) (exec_argv gid) true true]) (tx_world st) (tx_world st').
Proof.
  intros Hok Hown Hc Hm Hr Hq Hw Hk Hmod gid.
  assert (acts id st (upd (set_tc_prop no_prop) id st)) as A0 by (apply upd_acts; [done|by eexists|done|done]).
  pose proof (upd_quiet (set_tc_prop no_prop) id c st Hc) as Q0.
  destruct (execCommand_fed id _ _ (ac_ok _ _ _ A0) Hown (q_client _ _ _ _ Q0) Hm Hr Hq Hw)
    as (st1 & c1 & E1 & A1 & Hc1 & X1 & P1 & B1 & R1 & G1).
  assert (run_full g ex id (upd (set_tc_prop no_prop) id st) = Ok ([], st1)) as E1' by (unfold run_full; by rewrite Hk, E1).
  destruct (call_spec _ ex id c st _ st1 c1 Hok Hc E1' A1 Hc1 (Forall_nil_2 _)) as (w & Ew & Rw & Ec & A & Hc').
  eexists _, _. split; [exact Ec|]. split; [exact Hc'|]. split; [exact X1|].
  rewrite app_comm_cons. eapply stream_grows_app; [exact G1|].
  rewrite app_nil_r in Ew. unfold own_ops in Ew. rewrite Hmod, P1, B1, R1 in Ew. cbn [set_tc_prop tc_prop tc_db] in Ew.
  change (tx_world (upd (set_tc_prop no_prop) id st)) with (tx_world st) in *. fold gid in Ew.
  simpl (p_force_crdt _) in Ew. simpl (p_prevent_aof _ && _) in Ew. cbn [orb] in Ew.
  match type of Ew with feed_ops _ [MkOp _ _ _ ?b] _ = _ => set (r := b) in Ew end.
  destruct (feed_ops_fed (current_of ex c1) [MkOp (tc_db c) (exec_argv gid) true r] (tx_world st1)) as (w' & Ew' & F & S).
  - apply (so_world _ (ac_ok _ _ _ A1)).
  - eapply own_stream_fed; [exact Hown|apply G1].
  - constructor; [|constructor]. split; [done|]. constructor; [apply (str_ok "CRDT.EXEC")|].
    constructor; [|constructor]. apply gid_robj, (so_gid _ Hok).
  - rewrite Ew in Ew'. injection Ew' as <-. by split.
Qed.

End streams.

(** ** The transaction of another group *)

Section arrival.

Context {D : Type} (g : gate).

Implicit Types (st : txserver D) (id : nat) (c : tclient D) (cmd : command D).

(** Nothing makes the server reject commands, and it is a master. *)

Definition open_gate (w : world) : Prop :=
  g_requirepass g = false /\ g_redirect g = None /\ g_freed g = false /\ g_oom g = false /\ g_write_error g = None /\
  g_few_slaves g = false /\ g_loading g = false /\ g_crdt_loading g = false /\ g_lua_timedout g = false /\ iAmMaster w = true.

Lemma open_reject cmd c w : open_gate w -> tc_pubsub c = false -> reject g cmd c w = None.
Proof.
  intros (_ & _ & _ & E1 & E2 & E3 & E4 & E5 & E6 & E7) Hp. unfold reject. rewrite E1, E2, E3, E4, E5, E6, E7, Hp. simpl.
  by destruct (cmd_write cmd || _).
Qed.

Lemma open_process table id c cmd name rest st :
  open_gate (tx_world st) -> tx_clients st !! id = Some c -> tc_pubsub c = false -> tc_argv c = name :: rest ->
  strcaseeq (cstr (obj_bytes name)) (str "quit") = false -> lookupCommand table (obj_bytes name) = Some cmd ->
  wrong_arity cmd (Z.of_nat (length (tc_argv c))) = false ->
  processCommand g table id st = (st ← accept g cmd id st; Ok (true, st)).
Proof.
  intros Hg Hc Hp Ea Hq El Har. pose proof Hg as (E1 & E2 & E3 & _). unfold processCommand.
  rewrite (get_client_ok _ _ _ Hc). cbn [mbind res_bind]. rewrite Ea in *. cbn [lookup list_lookup need mbind res_bind].
  rewrite Hq, El, Har, E1, E2, E3. cbn [andb]. by rewrite open_reject.
Qed.

(** A command that the table has, as it arrives. *)

Definition arrives (table : list (command D)) (q : command D * list robj) : Prop :=
  exists name rest, snd q = name :: rest /\ strcaseeq (cstr (obj_bytes name)) (str "quit") = false /\
    lookupCommand table (obj_bytes name) = Some (fst q) /\ wrong_arity (fst q) (Z.of_nat (length (snd q))) = false /\
    Forall robj_ok (snd q).

(** The link while the transaction comes in. *)

Record receiving id (queue : list (command D * list robj)) c0 (w : world) (d : D) st : Prop := {
  rc_ok : tx_ok st;
  rc_world : tx_world st = w;
  rc_data : tx_data st = d;
  rc_client : exists c, tx_clients st !! id = Some c /\ tc_flags c = MkMflags true false false /\ tc_pubsub c = false /\
    tc_mstate c = queue /\ tc_db c = tc_db c0 /\ tc_crdt_master c = tc_crdt_master c0 /\ tc_prop c = tc_prop c0
}.

Lemma set_argv_acts id c argv st :
  tx_ok st -> tx_clients st !! id = Some c -> Forall robj_ok argv ->
  acts id st (upd (set_tc_argv argv) id st) /\ tx_clients (upd (set_tc_argv argv) id st) !! id = Some (set_tc_argv argv c).
Proof.
  intros Hok Hc Hargv. split; [|apply (upd_quiet (set_tc_argv argv) id c st Hc)].
  apply upd_acts; [done|by eexists|done|]. intros c' _ (K1 & K2 & _). by split.
Qed.

Lemma serve_multi table id c cmd argv st :
  open_gate (tx_world st) -> tx_ok st -> tx_clients st !! id = Some c -> tc_pubsub c = false ->
  tc_flags c = MkMflags false false false -> tc_mstate c = [] ->
  arrives table (cmd, argv) -> cmd_ok cmd -> cmd_kind cmd = KMulti ->
  exists st', serve g table st (Send id argv) = Ok st' /\ receiving id [] c (tx_world st) (tx_data st) st'.
Proof.
  intros Hg Hok Hc Hp Hf Hms (name & rest & Ea & Hq & El & Har & Hargv) Hcmd Hk. cbn [fst snd] in *. cbn [serve].
  destruct (set_argv_acts id c argv st Hok Hc Hargv) as [A0 Hc0].
  rewrite (open_process table id (set_tc_argv argv c) cmd name rest) by done.
  unfold accept. rewrite (get_client_ok _ _ _ Hc0). cbn [mbind res_bind set_tc_argv tc_flags]. rewrite Hf, Hk.
  cbn [f_multi andb queued_kind].
  set (c1 := set_tc_prop no_prop (set_tc_argv argv c)).
  set (st0 := upd (set_tc_argv argv) id st) in *.
  set (st1 := upd (fun c => set_tc_flags (MkMflags true (f_dirty_cas (tc_flags c)) (f_dirty_exec (tc_flags c))) c) id (upd (set_tc_prop no_prop) id st0)).
  set (c2 := set_tc_reply (tc_reply c ++ shared_ok) (set_tc_flags (MkMflags true false false) c1)).
  assert (run_full g cmd id (upd (set_tc_prop no_prop) id st0) = Ok ([], addReply shared_ok id st1)) as Er.
  { unfold run_full, run_basic. rewrite Hk. unfold multiCommand.
    rewrite (get_client_ok id c1 _) by apply (upd_quiet (set_tc_prop no_prop) id _ st0 Hc0). cbn [mbind res_bind].
    unfold c1. cbn [set_tc_prop set_tc_argv tc_flags]. by rewrite Hf. }
  assert (acts id st0 (upd (set_tc_prop no_prop) id st0)) as A1 by (apply upd_acts; [apply A0|apply A0|done|done]).
  assert (acts id (upd (set_tc_prop no_prop) id st0) (addReply shared_ok id st1)) as A2.
  { assert (acts id (upd (set_tc_prop no_prop) id st0) st1) as A by (apply upd_acts; [apply A1|apply A1|done|done]).
    eapply acts_trans; [exact A|]. apply addReply_acts; apply A. }
  assert (tx_clients (addReply shared_ok id st1) !! id = Some c2) as Hc2.
  { simpl. rewrite !lookup_alter_eq. simpl in Hc0. rewrite Hc. simpl. unfold c2, c1. cbn. by rewrite Hf. }
  destruct (call_spec _ cmd id _ st0 _ _ c2 (ac_ok _ _ _ A0) Hc0 Er A2 Hc2 (Forall_nil_2 _)) as (w & Ew & _ & -> & A & Hc').
  cbn [mbind res_bind]. eexists. split; [reflexivity|].
  assert (w = tx_world st) as ->.
  { rewrite app_nil_r in Ew. change (tx_world (addReply shared_ok id st1)) with (tx_world st) in Ew.
    change (tx_dirty (addReply shared_ok id st1) - tx_dirty st0) with (tx_dirty st - tx_dirty st) in Ew.
    rewrite Z.sub_diag in Ew. unfold own_ops in Ew. destruct (cmd_module cmd); simpl in Ew; by injection Ew as <-. }
  split; [apply A|done|done|]. eexists. split; [exact Hc'|]. by repeat split.
Qed.

Lemma serve_queued table id c0 q queue w d st :
  open_gate w -> receiving id queue c0 w d st -> arrives table q -> cmd_ok (fst q) -> queued_kind (cmd_kind (fst q)) = true ->
  exists st', serve g table st (Send id (snd q)) = Ok st' /\ receiving id (queue ++ [q]) c0 w d st'.
Proof.
  intros Hg [Hok <- <- (c & Hc & Hf & Hp & Hms & Hdb & Hl & Hpr)] (name & rest & Ea & Hq & El & Har & Hargv) Hcmd Hk. cbn [serve].
  destruct (set_argv_acts id c (snd q) st Hok Hc Hargv) as [A0 Hc0].
  rewrite (open_process table id (set_tc_argv (snd q) c) (fst q) name rest) by done.
  unfold accept. rewrite (get_client_ok _ _ _ Hc0). cbn [mbind res_bind set_tc_argv tc_flags]. rewrite Hf, Hk. cbn [f_multi andb].
  cbn [mbind res_bind]. eexists. split; [reflexivity|].
  set (st0 := upd (set_tc_argv (snd q)) id st) in *.
  assert (acts id st0 (queueMultiCommand (fst q) id st0)) as A1.
  { apply upd_acts; [apply A0|apply A0|done|]. intros c' Hc' (K1 & K2 & K3). rewrite Hc0 in Hc'. injection Hc' as <-.
    split; [done|]. split; [|done]. apply Forall_app. split; [done|]. constructor; [|constructor]. by split. }
  split.
  - eapply ac_ok. apply addReply_acts; apply A1.
  - done.
  - done.
  - eexists. split; [simpl; rewrite !lookup_alter_eq, Hc; reflexivity|]. simpl. rewrite Hf, Hms. by destruct q.
Qed.

Lemma serve_queue table id c0 qs : forall queue w d st,
  open_gate w -> receiving id queue c0 w d st -> Forall (arrives table) qs -> Forall queued_ok qs ->
  exists st', serve_all g table (map (fun q => Send id (snd q)) qs) st = Ok st' /\ receiving id (queue ++ qs) c0 w d st'.
Proof.
  induction qs as [|q qs IH]; intros queue w d st Hg Hr Ha Hq; cbn [map serve_all].
  - exists st. by rewrite app_nil_r.
  - apply Forall_cons in Ha as [Ha1 Ha]. apply Forall_cons in Hq as [(Hk & Hcmd & _) Hq].
    destruct (serve_queued table id c0 q queue w d st Hg Hr Ha1 Hcmd Hk) as (st1 & -> & Hr1). cbn [mbind res_bind].
    destruct (IH (queue ++ [q]) w d st1 Hg Hr1 Ha Hq) as (st2 & -> & Hr2). exists st2. split; [done|].
    by rewrite <- app_assoc in Hr2.
Qed.

Lemma serve_crdt_exec table id c0 gid ex queue w d st :
  open_gate w -> receiving id queue c0 w d st ->
  arrives table (ex, [RSds (str "CRDT.EXEC"); RInt gid]) -> cmd_ok ex -> cmd_kind ex = KCrdtExec ->
  check_gid gid = true -> (tc_crdt_master c0 = true -> is_Some (crdtMasters (w_crdt w) !! gid)) ->
  exists st' c', serve g table st (Send id [RSds (str "CRDT.EXEC"); RInt gid]) = Ok st' /\ tx_ok st' /\
    tx_clients st' !! id = Some c' /\ tc_flags c' = MkMflags false false false /\ tc_mstate c' = [] /\
    tx_data st' = snd (queue_out g queue (tc_db c0) d).
Proof.
  intros Hg [Hok <- <- (c & Hc & Hf & Hp & <- & Hdb & Hl & Hpr)] (name & rest & Ea & Hq & El & Har & Hargv) Hcmd Hk Hgid Hlink.
  cbn [serve fst snd] in *. set (argv := [RSds (str "CRDT.EXEC"); RInt gid]) in *.
  destruct (set_argv_acts id c argv st Hok Hc Hargv) as [A0 Hc0].
  rewrite (open_process table id (set_tc_argv argv c) ex name rest) by done.
  unfold accept. rewrite (get_client_ok _ _ _ Hc0). cbn [mbind res_bind set_tc_argv tc_flags]. rewrite Hf, Hk.
  cbn [f_multi andb queued_kind]. set (st0 := upd (set_tc_argv argv) id st) in *.
  assert (acts id st0 (upd (set_tc_prop no_prop) id st0)) as A1 by (apply upd_acts; [apply A0|apply A0|done|done]).
  pose proof (upd_quiet (set_tc_prop no_prop) id _ st0 Hc0) as Q1.
  assert (to_int gid = gid) as Ti by (apply to_int_id; apply gid_ok in Hgid; lia).
  assert (string2ll (obj_bytes (RInt gid)) = Some gid) as Es
    by (apply string2ll_print; apply gid_ok in Hgid; unfold LLONG_MIN, LLONG_MAX; lia).
  destruct (crdtExecCommand_spec g id _ _ (ac_ok _ _ _ A1) (q_client _ _ _ _ Q1)) as (st1 & E1 & A2 & X1); [by eexists| |].
  { intros o n Hm [= <-] En _. rewrite Es in En. injection En as <-. rewrite Ti. apply Hlink. by rewrite <- Hl. }
  destruct (X1 (RInt gid) gid) as (c1 & Hc1 & _ & Xd & Xb & _ & Xm & _ & Xf);
    [simpl; by rewrite Hf|unfold exec_refused; simpl; by rewrite Hf|done|done|by rewrite Ti|].
  assert (run_full g ex id (upd (set_tc_prop no_prop) id st0) = Ok ([], st1)) as Er by (unfold run_full; by rewrite Hk, E1).
  destruct (call_spec _ ex id _ st0 _ st1 c1 (ac_ok _ _ _ A0) Hc0 Er A2 Hc1 (Forall_nil_2 _)) as (w & _ & _ & -> & A & Hc').
  cbn [mbind res_bind]. eexists _, _. split; [reflexivity|]. split; [apply A|]. split; [exact Hc'|]. split; [exact Xf|].
  split; [exact Xm|]. change (tx_data st1 = snd (queue_out g (tc_mstate c) (tc_db c0) (tx_data st))). rewrite <- Hdb. exact Xd.
Qed.

End arrival.

(** ** An example

    The data is a counter; INCR adds one to it, and GET shows it. *)

Definition idle_effect (d : Z) : effect Z := MkEffect d [] 0 [] [] no_prop None None (fun w => w).

Definition control (name : string) (arity : Z) (k : kind) : command Z :=
  MkCommand (str name) arity false false false false false false false k (fun _ _ d => idle_effect d).

Definition incr_effect (argv : list robj) (dbid : Z) (d : Z) : effect Z :=
  MkEffect (d + 1) (str ":" ++ print_Z (d + 1) ++ CRLF) 1 (map (fun o => TouchKey dbid (obj_bytes o)) (drop 1 argv))
    [MkOp dbid argv true false] no_prop None None (fun w => w).

Definition incr_command : command Z :=
  MkCommand (str "incr") 2 true false true false false false true KPlain incr_effect.

Definition get_command : command Z :=
  MkCommand (str "get") 2 false true false false false false true KPlain
    (fun _ _ d => MkEffect d (str ":" ++ print_Z d ++ CRLF) 0 [] [] no_prop None None (fun w => w)).

Definition example_table : list (command Z) :=
  [control "multi" 1 KMulti; control "crdt.multi" 2 KMulti; control "exec" 1 KExec; control "crdt.exec" 2 KCrdtExec;
   control "watch" (-2) KWatch; control "unwatch" 1 KUnwatch; control "select" 2 KSelect; incr_command; get_command].

Definition example_gate : gate :=
  MkGate false None false false None false true true false false false false 16.

Definition example_tclient (mflags : mflags) (queue : list (command Z * list robj)) (watched : list (Z * bytes)) : tclient Z :=
  MkTc mflags no_prop true false false false 0 (-1) queue watched [] [].

Definition idle : tclient Z := example_tclient (MkMflags false false false) [] [].

Definition example_tx : txserver Z :=
  MkTx example_world {[ 1%nat := idle; 2%nat := idle ]} ∅ 0 0 [].

Definition words (l : list string) : list robj := map (fun s => RSds (str s)) l.

Lemma example_table_ok : table_ok example_table.
Proof.
  assert (forall name arity k, (k = KSelect \/ k = KCrdtExec -> arity = 2) -> cmd_ok (control name arity k)) as Hc.
  { intros name arity k Hk. split; [exact Hk|]. intros argv dbid d Hargv. by split. }
  repeat (apply Forall_cons; split); [by apply Hc; intros [|].. | | |by apply Forall_nil].
  - split; [by intros [|]|]. intros argv dbid d Hargv. split; [|done]. by constructor.
  - split; [by intros [|]|]. intros argv dbid d Hargv. by split.
Qed.

Lemma example_world_good : world_good example_world.
Proof. split; [apply example_world_ok|]. by split. Qed.

Lemma example_tx_ok : tx_ok example_tx.
Proof.
  split; [|apply example_world_good|done|].
  - change (tx_watched example_tx) with (∅ : gmap (Z * bytes) (list nat)). split.
    + intros wk l. by rewrite lookup_empty.
    + intros id keys. unfold watched_of. rewrite lookup_fmap. intros E.
      apply fmap_Some in E as (c & E & ->). simpl in E.
      apply lookup_insert_Some in E as [[_ <-]|[_ E]]; [constructor|].
      apply lookup_singleton_Some in E as [_ <-]. constructor.
    + intros wk id. split; [intros (l & E & _); by rewrite lookup_empty in E|].
      intros (keys & E & Hin). unfold watched_of in E. rewrite lookup_fmap in E.
      apply fmap_Some in E as (c & E & ->). simpl in E.
      apply lookup_insert_Some in E as [[_ <-]|[_ E]]; [by apply not_elem_of_nil in Hin|].
      apply lookup_singleton_Some in E as [_ <-]. by apply not_elem_of_nil in Hin.
  - simpl. apply map_Forall_insert_2; [by split|]. apply map_Forall_singleton. by split.
Qed.

Lemma words_ok l : Forall robj_ok (words l).
Proof. induction l as [|s l IH]; [constructor|]. constructor; [apply (str_ok s)|done]. Qed.

Lemma words_argv_ok (table : list (command Z)) s l : l <> [] -> argv_ok table s false (words l).
Proof. intros Hl. split; [by destruct l|]. split; [apply words_ok|done]. Qed.

(** ** Claims *)


Definition example_requests : list request :=
  [Send 1 (words ["WATCH"; "a"; "b"; "a"]); Send 2 (words ["WATCH"; "a"]); Send 2 (words ["INCR"; "a"]);
   Send 1 (words ["MULTI"]); Send 1 (words ["INCR"; "b"]); Close 2; Send 1 (words ["EXEC"])]%string.



Definition locked : tclient Z := example_tclient (MkMflags true false false) [(incr_command, words ["INCR"; "b"]%string)] [(0, str "a")].

Definition example_locked : txserver Z :=
  MkTx example_world {[ 1%nat := locked; 2%nat := idle ]} {[ (0, str "a") := [1%nat] ]} 0 0 [].

Lemma example_locked_ok : tx_ok example_locked.
Proof.
  assert (map_Forall (fun _ c => client_ok example_server c) (tx_clients example_locked)) as Hcl.
  { apply map_Forall_insert_2; [|apply map_Forall_singleton; by split].
    split; [done|]. split; [|constructor]. constructor; [|constructor]. split; [done|]. split; [|split; [apply words_ok|done]].
    pose proof example_table_ok as Ht. unfold table_ok in Ht. rewrite Forall_forall in Ht. apply Ht. unfold example_table. set_solver. }
  assert (forall id keys, watched_of example_locked !! id = Some keys -> (id = 1%nat /\ keys = [(0, str "a")]) \/ (id <> 1%nat /\ keys = [])) as Hw.
  { intros id keys. unfold watched_of. rewrite lookup_fmap. intros E. apply fmap_Some in E as (c & E & ->). simpl in E.
    apply lookup_insert_Some in E as [[<- <-]|[Hn E]]; [by left|]. apply lookup_singleton_Some in E as [<- <-]. by right. }
  split; [|apply example_world_good|done|exact Hcl].
  change (tx_watched example_locked) with ({[ (0, str "a") := [1%nat] ]} : gmap (Z * bytes) (list nat)). split.
  - intros wk l E. apply lookup_singleton_Some in E as [_ <-]. split; [done|]. apply NoDup_singleton.
  - intros id keys [[_ ->]|[_ ->]]%Hw; [apply NoDup_singleton|constructor].
  - intros wk id. split.
    + intros (l & E & Hin). apply lookup_singleton_Some in E as [<- <-]. apply list_elem_of_singleton in Hin as ->.
      exists [(0, str "a")]. split; [reflexivity|]. by apply list_elem_of_singleton.
    + intros (keys & E & Hin). apply Hw in E as [[-> ->]|[_ ->]]; [|by apply not_elem_of_nil in Hin].
      apply list_elem_of_singleton in Hin as ->. exists [1%nat]. split; [by rewrite lookup_singleton_eq|]. by apply list_elem_of_singleton.
Qed.

(** The flags and the reply of a client, the keys touched and the data. *)

Definition outcome {D : Type} (id : nat) (r : res (txserver D)) : option (option (mflags * bytes) * list (Z * bytes) * D) :=
  match r with
  | Ok st => Some (option_map (fun c => (tc_flags c, tc_reply c)) (tx_clients st !! id), tx_touched st, tx_data st)
  | _ => None
  end.


(** C14: a transaction is replicated as one block.  On a master, EXEC of a queue
    of commands of the CRDT module, at least one of which may write, runs the
    queue and adds to the streams of [server] and of [crdtServer] the same
    bytes: [CRDT.MULTI <gid>], the commands the queue propagates, in order, and
    [CRDT.EXEC <gid>], with a [CRDT.SELECT] before each one that is for another
    database than the one before it, and nothing in between. *)
Theorem exec_one_block {D : Type} (g : gate) (ex : command D) (id : nat) (c : tclient D) (st : txserver D)
    (Hload : g_loading g = false) (Hok : tx_ok st) (Hmaster : own_stream (tx_world st))
    (Hc : tx_clients st !! id = Some c) (Hmulti : f_multi (tc_flags c) = true) (Hclean : exec_refused c = None)
    (Hqueue : Forall data_command (tc_mstate c)) (Hwrite : existsb may_write (tc_mstate c) = true)
    (Hexec : cmd_kind ex = KExec) (Hmod : cmd_module ex = false) :
  let w := tx_world st in
  let gid := crdt_gid (w_crdt w) in
  exists st' c', call (run_full g) ex id st = Ok st' /\ tx_clients st' !! id = Some c' /\ executed g c (tx_data st) c' st' /\
    world_fed (ops_bytes gid (selected w)
                 ([MkOp (tc_db c) [RSds (str "CRDT.MULTI"); RInt gid] true false] ++
                  queue_ops (tc_mstate c) (tc_db c) (tx_data st) ++
                  [MkOp (tc_db c) [RSds (str "CRDT.EXEC"); RInt gid] true true])) w (tx_world st').
Proof.
  destruct (exec_block g Hload ex id c st Hok Hmaster Hc Hmulti Hclean Hqueue Hwrite Hexec Hmod) as (st' & c' & E & Hc' & X & F & _).
  by exists st', c'.
Qed.

Lemma example_incr_ok : data_command (incr_command, words ["INCR"; "b"]%string).
Proof.
  split; [|split; [done|split; [done|]]].
  - split; [done|]. split; [|split; [apply words_ok|done]].
    pose proof example_table_ok as Ht. unfold table_ok in Ht. rewrite Forall_forall in Ht. apply Ht. unfold example_table. set_solver.
  - intros dbid d e. split; [done|]. split; [by constructor|done].
Qed.

Lemma exec_one_block_witness :
  exists st' c', call (run_full example_gate) (control "exec" 1 KExec) 1 example_locked = Ok st' /\
    tx_clients st' !! 1%nat = Some c' /\ tx_data st' = 1 /\
    world_fed (encode_command [str "CRDT.MULTI"; str "1"] ++ encode_command [str "INCR"; str "b"] ++
               encode_command [str "CRDT.EXEC"; str "1"]) example_world (tx_world st').
Proof.
  destruct (exec_one_block example_gate (control "exec" 1 KExec) 1 locked example_locked) as (st' & c' & E & Hc' & X & F);
    [reflexivity|apply example_locked_ok|by split|reflexivity|reflexivity|reflexivity|
     constructor; [apply example_incr_ok|constructor]|reflexivity|reflexivity|reflexivity|].
  exists st', c'. split; [exact E|]. split; [exact Hc'|]. split; [exact (proj1 X)|]. exact F.
Defined.

(** C15: the transaction of another group is applied at once.  When the commands
    of a block arrive on a link, [CRDT.MULTI <gid>], commands of the table, and
    [CRDT.EXEC <gid>], nothing of it changes the data or the streams until the
    last one; that one applies them all, in order, on the data as it is then,
    and the link is ready for the next command.  It is stated for a master that
    rejects no command ([open_gate]: no password is asked for, no redirection of
    the cluster, the link is not freed meanwhile, no lack of memory, no error of
    persistence, enough good slaves, no loading, no script that timed out), for a
    link that is not subscribed, is in no transaction and has an empty queue, and
    a group that is valid and, on the link of a peer, known. *)
Theorem transaction_arrives {D : Type} (g : gate) (table : list (command D)) (id : nat) (c : tclient D) (st : txserver D)
    (mu ex : command D) (qs : list (command D * list robj)) (gid : Z)
    (Htable : table_ok table) (Hok : tx_ok st) (Hgate : open_gate g (tx_world st)) (Hc : tx_clients st !! id = Some c)
    (Hpubsub : tc_pubsub c = false) (Hidle : tc_flags c = MkMflags false false false) (Hempty : tc_mstate c = [])
    (Hgid : check_gid gid = true) (Hlink : tc_crdt_master c = true -> is_Some (crdtMasters (w_crdt (tx_world st)) !! gid))
    (Hmu : arrives table (mu, [RSds (str "CRDT.MULTI"); RInt gid])) (Kmu : cmd_kind mu = KMulti)
    (Hex : arrives table (ex, [RSds (str "CRDT.EXEC"); RInt gid])) (Kex : cmd_kind ex = KCrdtExec)
    (Hqs : Forall (arrives table) qs) (Kqs : Forall (fun q => queued_kind (cmd_kind (fst q)) = true) qs) :
  exists st1 st2 c2,
    serve_all g table (Send id [RSds (str "CRDT.MULTI"); RInt gid] :: map (fun q => Send id (snd q)) qs) st = Ok st1 /\
    tx_data st1 = tx_data st /\ tx_world st1 = tx_world st /\
    serve g table st1 (Send id [RSds (str "CRDT.EXEC"); RInt gid]) = Ok st2 /\
    tx_data st2 = snd (queue_out g qs (tc_db c) (tx_data st)) /\
    tx_clients st2 !! id = Some c2 /\ tc_flags c2 = MkMflags false false false /\ tc_mstate c2 = [].
Proof.
  assert (forall q, arrives table q -> cmd_ok (fst q)) as Hcmd.
  { intros q (name & rest & _ & _ & El & _). by eapply lookupCommand_ok. }
  destruct (serve_multi g table id c mu _ st Hgate Hok Hc Hpubsub Hidle Hempty Hmu (Hcmd _ Hmu) Kmu) as (st0 & E0 & R0).
  destruct (serve_queue g table id c qs [] _ _ st0 Hgate R0 Hqs) as (st1 & E1 & R1).
  { rewrite Forall_forall in *. intros q Hin. destruct (Hqs q Hin) as (name & rest & Ea & _ & _ & Har & Hargv).
    split; [by apply Kqs|]. split; [by apply Hcmd, Hqs|]. by split. }
  destruct (serve_crdt_exec g table id c gid ex qs _ _ st1 Hgate R1 Hex (Hcmd _ Hex) Kex Hgid Hlink)
    as (st2 & c2 & E2 & _ & Hc2 & Hf2 & Hm2 & D2).
  exists st1, st2, c2. split; [cbn [serve_all]; by rewrite E0|]. split; [apply R1|]. split; [apply R1|]. by repeat (split; [done|]).
Qed.

Lemma transaction_arrives_witness :
  exists st1 st2, serve_all example_gate example_table
      [Send 2 [RSds (str "CRDT.MULTI"); RInt 2]; Send 2 (words ["INCR"; "x"]%string); Send 2 (words ["incr"; "y"]%string)] example_tx = Ok st1 /\
    tx_data st1 = 0 /\ serve example_gate example_table st1 (Send 2 [RSds (str "CRDT.EXEC"); RInt 2]) = Ok st2 /\ tx_data st2 = 2.
Proof.
  destruct (transaction_arrives example_gate example_table 2 idle example_tx (control "crdt.multi" 2 KMulti)
              (control "crdt.exec" 2 KCrdtExec)
              [(incr_command, words ["INCR"; "x"]%string); (incr_command, words ["incr"; "y"]%string)] 2
              example_table_ok example_tx_ok) as (st1 & st2 & c2 & E1 & D1 & _ & E2 & D2 & _).
  - by repeat split.
  - reflexivity.
  - reflexivity.
  - reflexivity.
  - reflexivity.
  - reflexivity.
  - discriminate.
  - eexists _, _. split; [reflexivity|]. split; [reflexivity|]. split; [reflexivity|]. split; [reflexivity|decide_now].
  - reflexivity.
  - eexists _, _. split; [reflexivity|]. split; [reflexivity|]. split; [reflexivity|]. split; [reflexivity|decide_now].
  - reflexivity.
  - repeat (apply Forall_cons; split); [..|constructor]; (eexists _, _; split; [reflexivity|]; split; [reflexivity|];
      split; [reflexivity|]; split; [reflexivity|decide_now]).
  - by repeat constructor.
  - exists st1, st2. split; [exact E1|]. split; [exact D1|]. split; [exact E2|exact D2].
Defined.

(** ** What does not hold *)

(** [flagTransaction] is to be called on every error while queueing, but a write
    that a read-only slave rejects does not flag the transaction: EXEC runs the
    other commands. *)

Definition example_slave_world : world := set_w_master_is_crdt true (set_w_masterhost (Some (str "m")) example_world).

Lemma rejected_not_flagged :
  option_map (fun o => fst (fst o))
    (outcome 1 (serve_all example_gate example_table
       [Send 1 (words ["MULTI"]); Send 1 (words ["INCR"; "a"]); Send 1 (words ["GET"; "a"]); Send 1 (words ["EXEC"])]%string
       (set_tx_world example_slave_world example_tx))) =
  Some (Some (MkMflags false false false,
    shared_ok ++ shared_roslaveerr ++ shared_queued ++ str "*1" ++ CRLF ++ str ":0" ++ CRLF)).
Proof. vm_compute. reflexivity. Qed.

(** The index of SELECT is cut to 32 bits: 2^32 selects database 0. *)

Lemma select_truncates :
  outcome 1 (serve_all example_gate example_table [Send 1 (words ["SELECT"; "4294967296"]%string)] example_tx) =
  Some (Some (MkMflags false false false, shared_ok), [], 0).
Proof. vm_compute. reflexivity. Qed.

(** [CRDT.EXEC] stores its argument as the group of the link; if there is no such
    peer, propagating the command reads through a NULL pointer. *)

Definition peer_link : tclient Z := MkTc (MkMflags false false false) no_prop true false false true 0 2 [] [] [] [].

Lemma crdt_exec_unknown_group :
  serve_all example_gate example_table
    [Send 1 [RSds (str "CRDT.MULTI"); RInt 7]; Send 1 (words ["INCR"; "a"]%string); Send 1 [RSds (str "CRDT.EXEC"); RInt 7]]
    (set_tx_clients {[ 1%nat := peer_link ]} example_tx) = Undef.
Proof. vm_compute. reflexivity. Qed.
