(* ===== verification/PeerServer.v ===== *)
(** * What the link with a peer needs of the server

    The link ([PeerLink]) hands the commands of a peer to [processCommand].  Here
    is what it relies on, as an interface: a transaction that is open changes
    nothing that [crdtReplicationCacheMaster] does not undo when the link is lost.
    With it, a peer that loses its link anywhere and continues applies everything
    once.  [PeerMulti] shows that the commands and transactions of [Multi] keep the
    interface. *)

From S2P Require Import Prelude Util Sds VectorClock VcTheory VcText VcClaims Proxy CrdtServer Backlog Resp World Feed Psync PeerLink.

(** [ps_exec] runs a command; [ps_connected] and [ps_multi] are the state
    [REPL_STATE_CONNECTED] of the peer and the flag [CLIENT_MULTI] of its client;
    [ps_cache] is what [crdtReplicationCacheMaster] does to the client.  The states
    in which the link works are [ps_ok], the commands of a stream [ps_cmd]. *)

Class PeerServer (St : Type) := {
  ps_exec : list bytes -> St -> St;
  ps_connected : St -> bool;
  ps_multi : St -> bool;
  ps_cache : St -> St;
  ps_ok : St -> Prop;
  ps_cmd : list bytes -> Prop;
  ps_ok_exec : forall argv st, ps_cmd argv -> ps_ok st -> ps_ok (ps_exec argv st);
  ps_ok_cache : forall st, ps_ok st -> ps_ok (ps_cache st);
  ps_ok_connected : forall st, ps_ok st -> ps_connected st = true;
  ps_cache_idle : forall argv st, ps_cmd argv -> ps_ok st -> ps_multi st = false ->
    ps_exec argv (ps_cache st) = ps_exec argv st;
  ps_cache_open : forall argv st, ps_cmd argv -> ps_ok st -> ps_multi (ps_exec argv st) = true ->
    ps_cache (ps_exec argv st) = ps_cache st
}.

Abbreviation ps_run s0 cmds := (foldl (fun st c => ps_exec c st) s0 cmds).

Abbreviation ps_read := (readQueries ps_exec ps_connected ps_multi).

Section server.

Context {St : Type} `{PeerServer St}.

Implicit Types (st : St) (cmds : list (list bytes)).

Lemma ps_ok_run cmds : forall st, Forall ps_cmd cmds -> ps_ok st -> ps_ok (ps_run st cmds).
Proof.
  induction cmds as [|c cmds IH]; intros st Hf Hok; [done|]. apply Forall_cons in Hf as [Hc Hf]. cbn [foldl].
  by apply IH, ps_ok_exec.
Qed.

Lemma ps_connected_run st cmds : Forall ps_cmd cmds -> ps_ok st -> forall k, ps_connected (ps_run st (take k cmds)) = true.
Proof. intros Hf Hok k. apply ps_ok_connected, ps_ok_run; [by apply Forall_take|done]. Qed.

(** Caching the client undoes the transaction that is open. *)

Lemma ps_cache_run cmds : forall st,
  Forall ps_cmd cmds -> ps_ok st -> (forall i, (0 < i <= length cmds)%nat -> ps_multi (ps_run st (take i cmds)) = true) ->
  ps_cache (ps_run st cmds) = ps_cache st.
Proof.
  induction cmds as [|c cmds IH]; intros st Hf Hok Hm; [done|]. apply Forall_cons in Hf as [Hc Hf]. cbn [foldl].
  rewrite IH; [apply ps_cache_open; [done|done|]|done|by apply ps_ok_exec|].
  - apply (Hm 1%nat). simpl. lia.
  - intros i Hi. apply (Hm (S i)). simpl. lia.
Qed.

(** The commands that count, and the state they leave. *)

Definition counted st cmds : nat := settled ps_exec (applies ps_connected ps_multi) st cmds.

Lemma counted_le st cmds : (counted st cmds <= length cmds)%nat.
Proof. apply settled_le. Qed.

Lemma counted_closed st cmds : ps_multi st = false -> ps_multi (ps_run st (take (counted st cmds) cmds)) = false.
Proof.
  intros Hm. destruct (settled_quiet ps_exec (applies ps_connected ps_multi) cmds st) as [E|E]; unfold counted.
  - by rewrite E.
  - unfold applies in E at 1. apply andb_prop in E as [_ E]. by apply negb_true_iff in E.
Qed.

Lemma counted_all st cmds : Forall ps_cmd cmds -> ps_ok st -> ps_multi (ps_run st cmds) = false -> counted st cmds = length cmds.
Proof.
  intros Hf Hok Hm. pose proof (counted_le st cmds). destruct (decide (counted st cmds < length cmds)%nat) as [Hlt|]; [|lia].
  pose proof (settled_last ps_exec (applies ps_connected ps_multi) cmds st (length cmds)) as E.
  rewrite firstn_all in E. unfold applies in E at 2. rewrite ps_ok_connected, Hm in E by (by apply ps_ok_run).
  discriminate E. split; [exact Hlt|lia].
Qed.

(** The link that is lost after [k] commands. *)

Lemma ps_cache_lost st cmds k :
  Forall ps_cmd cmds -> ps_ok st -> (k <= length cmds)%nat ->
  ps_cache (ps_run st (take k cmds)) = ps_cache (ps_run st (take (counted st (take k cmds)) cmds)).
Proof.
  intros Hf Hok Hk. set (s := counted st (take k cmds)).
  assert (s <= k)%nat as Hs by (pose proof (counted_le st (take k cmds)) as L; rewrite length_take in L; unfold s; lia).
  replace (take k cmds) with (take s cmds ++ drop s (take k cmds)).
  2:{ rewrite <- (take_drop s (take k cmds)) at 2. rewrite take_take, Nat.min_l by done. done. }
  rewrite foldl_app. apply ps_cache_run; [by apply Forall_drop, Forall_take|by apply ps_ok_run; [apply Forall_take|]|].
  intros i Hi. rewrite length_drop, length_take in Hi. rewrite <- foldl_app.
  assert (take s cmds ++ take i (drop s (take k cmds)) = take (s + i) (take k cmds)) as ->.
  { rewrite <- (take_take_drop (take k cmds) s i). f_equal. rewrite take_take. by rewrite Nat.min_l. }
  pose proof (settled_last ps_exec (applies ps_connected ps_multi) (take k cmds) st (s + i)) as E.
  unfold applies in E at 2. rewrite (ps_connected_run st (take k cmds)) in E by (try apply Forall_take; done).
  rewrite length_take in E. apply negb_false_iff, E. unfold s, counted in *. lia.
Qed.

(** Continuing from the last command that counts: what remains is run on the state
    that command left. *)

Lemma ps_resume st cmds :
  Forall ps_cmd cmds -> ps_ok st -> ps_multi st = false -> cmds <> [] -> ps_run (ps_cache st) cmds = ps_run st cmds.
Proof.
  intros Hf Hok Hm Hne. destruct cmds as [|c cmds]; [done|]. apply Forall_cons in Hf as [Hc _]. cbn [foldl].
  by rewrite ps_cache_idle.
Qed.

End server.

(** ** Losing the link and continuing *)

Section resumption.

Context {St : Type} `{PeerServer St} (max_bulk : Z).

(** The link reads [reads1] of the stream of [cmds] and is lost; then it reads from
    its offset on. *)

Lemma link_resumes off0 (st0 : St) cmds reads1 tail1 :
  ps_ok st0 -> Forall ps_cmd cmds -> ps_multi st0 = false -> ps_multi (ps_run st0 cmds) = false ->
  Forall (readable max_bulk) cmds -> concat reads1 ++ tail1 = encodes cmds ->
  exists l st fwd rest, ps_read max_bulk false reads1 (MkLink (fresh []) REQ_UNKNOWN off0 off0 []) st0 = Ok (l, st, fwd) /\
    fwd ++ rest = encodes cmds /\ l_reploff (cacheMaster l) = off0 + Z.of_nat (length fwd) /\
    forall reads2, concat reads2 = rest ->
    exists l2 st2 fwd2, ps_read max_bulk false reads2 (cacheMaster l) (ps_cache st) = Ok (l2, st2, fwd2) /\
      (st2 = ps_run st0 cmds \/ rest = [] /\ st2 = ps_cache (ps_run st0 cmds)) /\
      l_reploff l2 = off0 + Z.of_nat (length (encodes cmds)) /\ fwd ++ fwd2 = encodes cmds.
Proof.
  intros Hok Hcmd Hm0 Hm Hread Hcut.
  destruct (link_steps ps_exec ps_connected ps_multi max_bulk off0 st0 cmds reads1 [] tail1 0
              (MkLink (fresh []) REQ_UNKNOWN off0 off0 []) st0 Hread (ps_connected_run st0 cmds Hcmd Hok) (link_start _ _ _ _ _ _) Hcut)
    as (k & l & st & fwd & E & I & Ef).
  simpl app in I. pose proof (link_inv_cached _ _ _ _ _ _ _ _ _ _ I) as Ec. fold (counted st0 (take k cmds)) in Ef.
  set (s := counted st0 (take k cmds)) in *. assert (encodes (take s cmds) = fwd) as <- by exact Ef.
  destruct I as (part & _ & Hk & -> & Eo & _). fold (counted st0 (take k cmds)) in Eo. fold s in Eo.
  assert (encodes (take s cmds) ++ encodes (drop s cmds) = encodes cmds) as Es by (by rewrite <- encodes_app, take_drop).
  eexists l, _, _, (encodes (drop s cmds)). split; [exact E|]. rewrite Ec. split; [done|]. split; [exact Eo|]. intros reads2 E2.
  set (st1 := ps_run st0 (take s cmds)).
  assert (ps_ok st1) as Hok1 by (apply ps_ok_run; [by apply Forall_take|done]).
  assert (ps_multi st1 = false) as Hm1.
  { pose proof (counted_closed st0 (take k cmds) Hm0) as C. fold s in C. rewrite take_take in C.
    replace (s `min` k)%nat with s in C; [done|]. pose proof (counted_le st0 (take k cmds)) as L. rewrite length_take in L. unfold s. lia. }
  assert (ps_run st1 (drop s cmds) = ps_run st0 cmds) as Hrun by (unfold st1; by rewrite <- foldl_app, take_drop).
  rewrite (ps_cache_lost st0 cmds k Hcmd Hok Hk). fold s. fold st1.
  assert (Forall ps_cmd (drop s cmds)) as Hcmd2 by (by apply Forall_drop).
  destruct (link_steps ps_exec ps_connected ps_multi max_bulk (l_reploff l) (ps_cache st1) (drop s cmds) reads2 [] [] 0
              (MkLink (fresh []) REQ_UNKNOWN (l_reploff l) (l_reploff l) []) (ps_cache st1) ltac:(by apply Forall_drop)
              (ps_connected_run _ _ Hcmd2 (ps_ok_cache _ Hok1)) (link_start _ _ _ _ _ _) ltac:(by rewrite app_nil_r))
    as (k2 & l2 & st2 & fwd2 & R2 & I2 & Ef2).
  simpl app in I2. rewrite E2 in I2. pose proof (link_inv_all _ _ _ _ _ _ _ _ _ I2) as A2.
  destruct I2 as (part2 & _ & _ & -> & Eo2 & _). rewrite A2 in *. exists l2. eexists _, fwd2. split; [exact R2|].
  fold (counted (ps_cache st1) (drop s cmds)) in Ef2, Eo2. simpl in Ef2.
  assert (take (counted (ps_cache st1) (drop s cmds)) (drop s cmds) = drop s cmds /\
          (ps_run (ps_cache st1) (drop s cmds) = ps_run st0 cmds \/
           encodes (drop s cmds) = [] /\ ps_run (ps_cache st1) (drop s cmds) = ps_cache (ps_run st0 cmds))) as [Et Hst].
  { destruct (decide (drop s cmds = [])) as [N|N].
    - rewrite N in *. split; [apply take_nil|]. right. split; [done|]. cbn [foldl]. by rewrite <- Hrun.
    - rewrite (ps_resume st1 (drop s cmds)), Hrun by done. split; [|by left].
      rewrite counted_all; [apply firstn_all|done|by apply ps_ok_cache|]. by rewrite (ps_resume st1), Hrun. }
  rewrite Et in Ef2, Eo2. assert (encodes (drop s cmds) = fwd2) as <- by exact Ef2.
  split; [exact Hst|]. split; [|done]. rewrite Eo2, Eo, <- Es, length_app. lia.
Qed.

End resumption.
