(* ===== verification/PeerMulti.v ===== *)
(** * The client of a peer ([src/src/networking.c], [src/src/multi.c],
    [src/src/ctrip_crdt_replication.c])

    The commands that arrive on the link of a peer go through [processCommand] of
    [Multi], with its transactions: this keeps the interface [PeerServer] of the
    link.  The stream of a peer has commands on the data, [CRDT.MULTI] and
    [CRDT.EXEC]; EXEC, DISCARD and WATCH are not in it. *)

From S2P Require Import Prelude Util Sds VectorClock VcTheory VcText VcClaims Proxy CrdtServer Backlog Resp World Feed Psync PeerLink PeerServer Multi MultiTheory MultiClaims.

Section link.

Context {D : Type} (g : gate) (table : list (command D)) (id : nat).

Implicit Types (st : txserver D) (c : tclient D) (cmd : command D).

(** [prepareClientToWrite] keeps no reply for the client of a peer. *)

Definition link_exec (argv : list bytes) (r : res (txserver D)) : res (txserver D) :=
  st ← r;
  st ← serve g table st (Send id (map RSds argv));
  Ok (upd (set_tc_reply []) id st).

Definition link_client (r : res (txserver D)) : option (tclient D) :=
  match r with Ok st => tx_clients st !! id | _ => None end.

Definition link_multi (r : res (txserver D)) : bool :=
  match link_client r with Some c => f_multi (tc_flags c) | None => false end.

(** [getPeerMaster(c->gid)->repl_state == REPL_STATE_CONNECTED] *)

Definition link_connected (r : res (txserver D)) : bool :=
  match r, link_client r with
  | Ok st, Some c =>
      match crdtMasters (w_crdt (tx_world st)) !! tc_gid c with
      | Some p => repl_state p =? REPL_STATE_CONNECTED
      | None => false
      end
  | _, _ => false
  end.

(** [crdtReplicationCacheMaster], on the client: its transaction is discarded, its
    output is emptied, and its arguments are freed. *)

Definition link_cache (r : res (txserver D)) : res (txserver D) :=
  st ← r;
  c ← get_client id st;
  st ← (if f_multi (tc_flags c) then discardTransaction id st else Ok st);
  Ok (upd (fun c => set_tc_argv [] (set_tc_reply [] c)) id st).

(** ** Steps that change the client only *)

Lemma upd_const (f : tclient D -> tclient D) c st : tx_clients st !! id = Some c -> upd f id st = upd (fun _ => f c) id st.
Proof.
  intros Hc. unfold upd. f_equal. apply map_eq. intros j. destruct (decide (j = id)) as [-> |Hj].
  - by rewrite !lookup_alter_eq, Hc.
  - by rewrite !lookup_alter_ne.
Qed.

Lemma upd_upd (f h : tclient D -> tclient D) st : upd f id (upd h id st) = upd (fun c => f (h c)) id st.
Proof.
  unfold upd, set_tx_clients. simpl. f_equal. apply map_eq. intros j. destruct (decide (j = id)) as [-> |Hj].
  - rewrite !lookup_alter_eq. by destruct (tx_clients st !! id).
  - by rewrite !lookup_alter_ne.
Qed.

Lemma upd_id (f : tclient D -> tclient D) c st : tx_clients st !! id = Some c -> f c = c -> upd f id st = st.
Proof.
  intros Hc Hf. destruct st as [w cl wa d di t]. unfold upd, set_tx_clients. simpl in *. f_equal. apply map_eq. intros j.
  destruct (decide (j = id)) as [-> |Hj]; [by rewrite lookup_alter_eq, Hc; simpl; rewrite Hf|by rewrite lookup_alter_ne].
Qed.

Lemma upd_lookup (f : tclient D -> tclient D) c st : tx_clients st !! id = Some c -> tx_clients (upd f id st) !! id = Some (f c).
Proof. intros Hc. simpl. by rewrite lookup_alter_eq, Hc. Qed.

(** [c'] is [c] but for the transaction, the arguments and the reply. *)

Definition queueing c c' : Prop :=
  c' = set_tc_reply (tc_reply c') (set_tc_argv (tc_argv c') (set_tc_mstate (tc_mstate c') (set_tc_flags (tc_flags c') c))).

Lemma queueing_trans c1 c2 c3 : queueing c1 c2 -> queueing c2 c3 -> queueing c1 c3.
Proof. unfold queueing, set_tc_reply, set_tc_argv, set_tc_mstate, set_tc_flags. destruct c1, c2, c3. simpl. congruence. Qed.

(** A command that touches no more than its client propagates nothing. *)

Lemma call_still run cmd c st (f : tclient D -> tclient D) :
  tx_clients st !! id = Some c -> (forall c, tc_prop (f c) = tc_prop c) ->
  run cmd id (upd (set_tc_prop no_prop) id st) = Ok ([], upd f id (upd (set_tc_prop no_prop) id st)) ->
  call run cmd id st = Ok (upd (fun c1 => set_tc_prop (tc_prop c) (f (set_tc_prop no_prop c1))) id st).
Proof.
  intros Hc Hf E. unfold call. rewrite (get_client_ok _ _ _ Hc). cbn [mbind res_bind]. rewrite E. cbn [mbind res_bind].
  rewrite upd_upd, (get_client_ok _ _ _ (upd_lookup (fun c => f (set_tc_prop no_prop c)) c st Hc)). cbn [mbind res_bind].
  rewrite Hf. cbn [set_tc_prop tc_prop no_prop p_prevent_aof p_prevent_repl p_force_repl p_force_crdt andb].
  change (tx_dirty (upd ?h id st)) with (tx_dirty st). rewrite Z.sub_diag. change (0 `max` 0 =? 0) with true.
  destruct (cmd_module cmd); cbn [negb propagate_ops op_crdt op_repl orb andb mbind res_bind]; by rewrite upd_upd.
Qed.

(** ** The flags of a client that watches nothing *)

Lemma mark_nothing new c : tc_watched_keys c = [] -> mark new c = c.
Proof.
  intros Hw. unfold mark, hit. rewrite Hw. induction new as [|wk new IH]; [done|]. cbn [existsb].
  rewrite bool_decide_false by apply not_elem_of_nil. exact IH.
Qed.

Lemma run_basic_flags cmd c st also st1 c1 :
  tx_ok st -> tx_clients st !! id = Some c -> cmd_ok cmd -> queued_kind (cmd_kind cmd) = true ->
  wrong_arity cmd (Z.of_nat (length (tc_argv c))) = false -> tc_watched_keys c = [] -> f_dirty_cas (tc_flags c) = false ->
  run_basic g cmd id st = Ok (also, st1) -> tx_clients st1 !! id = Some c1 -> tc_flags c1 = tc_flags c.
Proof.
  intros Hok Hc Hcmd Hk Har Hw Hcas E Hc1. unfold run_basic in E.
  assert (plainCommand g cmd id st = Ok (also, st1) -> tc_flags c1 = tc_flags c) as Hplain.
  { intros E'. destruct (plain_spec g cmd id c st Hok Hc Hcmd) as (new & st' & E2 & _ & Hc2 & _).
    rewrite E' in E2. injection E2 as _ <-. rewrite Hc1 in Hc2. injection Hc2 as ->. by rewrite mark_nothing. }
  destruct (cmd_kind cmd) eqn:Ek; try discriminate Hk; try (by apply Hplain).
  - destruct (unwatch_spec id c st Hok Hc) as (st' & E2 & _ & Q). rewrite E2 in E. injection E as _ <-.
    rewrite (q_client _ _ _ _ Q) in Hc1. injection Hc1 as <-. cbn. rewrite <- Hcas. by destruct (tc_flags c).
  - destruct (select_spec g id c st Hok Hc) as (st' & E2 & _ & Q).
    { eapply arity_two; [|exact Har]. apply Hcmd. by left. }
    rewrite E2 in E. injection E as _ <-. rewrite (q_client _ _ _ _ Q) in Hc1. by injection Hc1 as <-.
Qed.

(** ** Serving a command of the stream *)

Definition closed c : Prop := tc_flags c = MkMflags false false false /\ tc_mstate c = [].

(** What the link knows of its client: it watches nothing, and its transaction, if
    it has one, is in its queue. *)

Record link_state (gid : Z) c : Prop := {
  ls_link : tc_crdt_master c = true;
  ls_gid : tc_gid c = gid;
  ls_watched : tc_watched_keys c = [];
  ls_cas : f_dirty_cas (tc_flags c) = false;
  ls_closed : f_multi (tc_flags c) = false -> closed c
}.

(** A step of the client: it ends outside a transaction, or it did no more than
    queueing. *)

Definition link_step_ok (gid : Z) c st c' st' : Prop :=
  tx_clients st' !! id = Some c' /\ tc_gid c' = gid /\ tc_watched_keys c' = [] /\ f_dirty_cas (tc_flags c') = false /\
  (f_multi (tc_flags c') = false -> closed c') /\
  (f_multi (tc_flags c') = true -> queueing c c' /\ st' = upd (fun _ => c') id st).

Lemma still_step gid c st (f : tclient D -> tclient D) :
  tx_clients st !! id = Some c -> link_state gid c -> queueing c (f c) ->
  f_dirty_cas (tc_flags (f c)) = false -> (f_multi (tc_flags (f c)) = false -> closed (f c)) ->
  link_step_ok gid c st (f c) (upd f id st).
Proof.
  intros Hc [L1 L2 L3 L4 L5] Hq Hcas Hcl. split; [by apply upd_lookup|]. pose proof Hq as Hq'. unfold queueing in Hq'.
  split; [by rewrite Hq'|]. split; [by rewrite Hq'|]. split; [done|]. split; [done|]. intros _. split; [done|]. by apply upd_const.
Qed.

(** The replies, with or without a flag. *)

Lemma reply_step gid c p st :
  tx_clients st !! id = Some c -> link_state gid c ->
  link_step_ok gid c st (set_tc_reply (tc_reply c ++ p) c) (addReply p id st).
Proof.
  intros Hc L. apply (still_step gid c st (fun c => set_tc_reply (tc_reply c ++ p) c) Hc L); [by destruct c|apply L|].
  intros Hm. destruct (ls_closed _ _ L Hm) as [E1 E2]. by split.
Qed.

Lemma flag_step gid c p st :
  tx_clients st !! id = Some c -> link_state gid c ->
  exists c', link_step_ok gid c st c' (addReply p id (flagTransaction id st)).
Proof.
  intros Hc L. unfold addReply, flagTransaction. rewrite upd_upd. eexists. apply (still_step gid c st _ Hc L).
  - unfold queueing. destruct c as [[[] ? ?] ? ? ? ? ? ? ? ? ? ? ?]; done.
  - pose proof (ls_cas _ _ L). by destruct (f_multi (tc_flags c)).
  - destruct (f_multi (tc_flags c)) eqn:Em; [done|]. intros _. destruct (ls_closed _ _ L Em) as [E1 E2]. by split.
Qed.

Lemma call_reply_step gid c p cmd st :
  tx_clients st !! id = Some c -> link_state gid c ->
  run_full g cmd id (upd (set_tc_prop no_prop) id st) = Ok ([], addReply p id (upd (set_tc_prop no_prop) id st)) ->
  exists st' c', call (run_full g) cmd id st = Ok st' /\ link_step_ok gid c st c' st'.
Proof.
  intros Hc L E. rewrite (call_still _ _ c st (fun c => set_tc_reply (tc_reply c ++ p) c) Hc) by done.
  eexists _, _. split; [reflexivity|]. apply (still_step gid c st _ Hc L); [by destruct c|apply L|].
  intros Hm. destruct (ls_closed _ _ L Hm) as [E1 E2]. by split.
Qed.

(** [CRDT.MULTI] *)

Lemma call_multi_step gid c cmd st :
  tx_clients st !! id = Some c -> link_state gid c -> cmd_kind cmd = KMulti ->
  exists st' c', call (run_full g) cmd id st = Ok st' /\ link_step_ok gid c st c' st'.
Proof.
  intros Hc L Hk. set (st0 := upd (set_tc_prop no_prop) id st).
  assert (run_full g cmd id st0 = (st ← multiCommand id st0; Ok ([], st))) as Er by (unfold run_full, run_basic; by rewrite Hk).
  unfold multiCommand in Er. rewrite (get_client_ok id (set_tc_prop no_prop c)) in Er by (by apply upd_lookup).
  cbn [mbind res_bind set_tc_prop tc_flags] in Er. destruct (f_multi (tc_flags c)) eqn:Em; cbn [mbind res_bind] in Er.
  - by eapply call_reply_step.
  - unfold addReply in Er. rewrite upd_upd in Er.
    rewrite (call_still _ _ c st (fun c => set_tc_reply (tc_reply c ++ shared_ok)
      (set_tc_flags (MkMflags true (f_dirty_cas (tc_flags c)) (f_dirty_exec (tc_flags c))) c)) Hc) by done.
    eexists _, _. split; [reflexivity|]. apply (still_step gid c st _ Hc L); [by destruct c|apply L|done].
Qed.

(** [CRDT.EXEC] *)

Lemma crdtExec_closes gid c st o n :
  tx_ok st -> tx_clients st !! id = Some c -> f_multi (tc_flags c) = true -> tc_argv c !! 1%nat = Some o ->
  string2ll (obj_bytes o) = Some n -> check_gid (to_int n) = true -> is_Some (crdtMasters (w_crdt (tx_world st)) !! to_int n) ->
  to_int n = gid ->
  exists st' c', crdtExecCommand g id st = Ok st' /\ acts id st st' /\ tx_clients st' !! id = Some c' /\ tc_gid c' = gid /\
    tc_watched_keys c' = [] /\ closed c'.
Proof.
  intros Hok Hc Hm Ho En Hg Hp Hn. destruct (crdtExecCommand_spec g id c st Hok Hc) as (st' & E & A & X).
  { by eexists. } { intros o' n' _ Ho' En' _. rewrite Ho in Ho'. injection Ho' as <-. congruence. }
  destruct (exec_refused c) as [reply|] eqn:Er.
  - pose proof E as E0. unfold crdtExecCommand in E. rewrite (get_client_ok _ _ _ Hc) in E. cbn [mbind res_bind] in E.
    rewrite Hm, Ho in E. cbn [negb need mbind res_bind] in E. rewrite En, Hg, Er in E. cbn [negb] in E.
    set (st0 := upd (set_tc_gid (to_int n)) id st) in *.
    assert (tx_ok st0) as Hok0.
    { apply (upd_acts (set_tc_gid (to_int n))); [done|by eexists|done|]. intros c' _ (K1 & K2 & K3). by split. }
    destruct (refused_spec id (set_tc_gid (to_int n) c) reply st0 Hok0) as (st2 & E2 & _ & Q); [by apply upd_lookup|].
    rewrite E in E2. injection E2 as <-. exists st'. eexists. split; [exact E0|]. split; [done|].
    split; [apply (q_client _ _ _ _ Q)|]. by split.
  - destruct (X o n Hm eq_refl Ho En Hg) as (c' & Hc' & Hg' & _ & _ & _ & X1 & X2 & X3).
    exists st', c'. split; [done|]. split; [done|]. split; [done|]. split; [congruence|]. by split.
Qed.

Lemma call_crdtExec_step gid c cmd st o :
  tx_ok st -> tx_clients st !! id = Some c -> link_state gid c -> cmd_kind cmd = KCrdtExec -> tc_argv c !! 1%nat = Some o ->
  is_Some (crdtMasters (w_crdt (tx_world st)) !! gid) ->
  (forall n, string2ll (obj_bytes o) = Some n -> check_gid (to_int n) = true -> to_int n = gid) ->
  exists st' c', call (run_full g) cmd id st = Ok st' /\ link_step_ok gid c st c' st'.
Proof.
  intros Hok Hc L Hk Ho Hp Hn. set (st0 := upd (set_tc_prop no_prop) id st). set (c0 := set_tc_prop no_prop c).
  assert (tx_clients st0 !! id = Some c0) as Hc0 by (by apply upd_lookup).
  assert (acts id st st0) as A0 by (apply upd_acts; [done|by eexists|done|done]).
  assert (run_full g cmd id st0 = (st ← crdtExecCommand g id st0; Ok ([], st))) as Er by (unfold run_full; by rewrite Hk).
  assert (forall p, crdtExecCommand g id st0 = Ok (addReply p id st0) ->
            exists st' c', call (run_full g) cmd id st = Ok st' /\ link_step_ok gid c st c' st') as Hreply.
  { intros p E. eapply (call_reply_step gid c p); [done|done|]. fold st0. by rewrite Er, E. }
  destruct (f_multi (tc_flags c)) eqn:Em.
  2:{ eapply Hreply. unfold crdtExecCommand. rewrite (get_client_ok _ _ _ Hc0). cbn [mbind res_bind c0 set_tc_prop tc_flags].
      rewrite Em. reflexivity. }
  destruct (string2ll (obj_bytes o)) as [n|] eqn:En.
  2:{ apply (Hreply shared_syntaxerr). unfold crdtExecCommand. rewrite (get_client_ok _ _ _ Hc0).
      cbn [mbind res_bind c0 set_tc_prop tc_flags tc_argv]. rewrite Em, Ho. cbn [negb need mbind res_bind]. by rewrite En. }
  destruct (check_gid (to_int n)) eqn:Eg.
  2:{ apply (Hreply shared_syntaxerr). unfold crdtExecCommand. rewrite (get_client_ok _ _ _ Hc0).
      cbn [mbind res_bind c0 set_tc_prop tc_flags tc_argv]. rewrite Em, Ho. cbn [negb need mbind res_bind]. by rewrite En, Eg. }
  pose proof (Hn n eq_refl Eg) as Egid.
  destruct (crdtExec_closes gid c0 st0 o n (ac_ok _ _ _ A0) Hc0 Em Ho En Eg) as (st1 & c1 & E1 & A1 & Hc1 & G1 & W1 & [F1 M1]);
    [by rewrite Egid|done|].
  rewrite E1 in Er. cbn [mbind res_bind] in Er.
  destruct (call_spec _ cmd id c st [] st1 c1 Hok Hc Er A1 Hc1 (Forall_nil_2 _)) as (w & _ & _ & -> & _ & Hc').
  eexists _, _. split; [reflexivity|]. split; [exact Hc'|]. split; [exact G1|]. split; [exact W1|].
  cbn [set_tc_prop tc_flags]. rewrite F1. split; [done|]. split; [by split|done].
Qed.

(** A command on the data, outside a transaction. *)

Lemma call_data_step gid c cmd st :
  tx_ok st -> tx_clients st !! id = Some c -> link_state gid c -> cmd_ok cmd -> queued_kind (cmd_kind cmd) = true ->
  wrong_arity cmd (Z.of_nat (length (tc_argv c))) = false -> f_multi (tc_flags c) = false ->
  exists st' c', call (run_full g) cmd id st = Ok st' /\ link_step_ok gid c st c' st'.
Proof.
  intros Hok Hc L Hcmd Hk Har Hm. set (st0 := upd (set_tc_prop no_prop) id st). set (c0 := set_tc_prop no_prop c).
  assert (tx_clients st0 !! id = Some c0) as Hc0 by (by apply upd_lookup).
  assert (acts id st st0) as A0 by (apply upd_acts; [done|by eexists|done|done]).
  destruct (run_basic_spec g cmd id c0 st0 (ac_ok _ _ _ A0) Hc0 Hcmd Hk Har) as (also & st1 & c1 & E & A1 & Ho & R).
  pose proof (run_basic_flags cmd c0 st0 also st1 c1 (ac_ok _ _ _ A0) Hc0 Hcmd Hk Har (ls_watched _ _ L) (ls_cas _ _ L) E
                (ra_client _ _ _ _ _ R)) as Hf.
  assert (run_full g cmd id st0 = Ok (also, st1)) as Er by (unfold run_full; by destruct (cmd_kind cmd)).
  destruct (call_spec _ cmd id c st also st1 c1 Hok Hc Er A1 (ra_client _ _ _ _ _ R) Ho) as (w & _ & _ & -> & _ & Hc').
  eexists _, _. split; [reflexivity|]. split; [exact Hc'|]. cbn [set_tc_prop tc_gid tc_watched_keys tc_flags].
  rewrite Hf. cbn [c0 set_tc_prop tc_flags]. destruct (ls_closed _ _ L Hm) as [F M].
  split; [rewrite (ra_gid _ _ _ _ _ R); apply L|]. split; [apply (ra_watched _ _ _ _ _ R), L|].
  split; [apply L|]. rewrite Hm. split; [|done]. intros _. split; [cbn; by rewrite Hf|]. cbn. by rewrite (ra_mstate _ _ _ _ _ R).
Qed.

(** The commands that a stream may have: [CRDT.EXEC] names the peer. *)

Definition link_kind (k : kind) : bool := queued_kind k || bool_decide (k = KMulti) || bool_decide (k = KCrdtExec).

Definition link_cmd (gid : Z) (argv : list bytes) : Prop :=
  argv <> [] /\ Forall robj_ok (map RSds argv) /\
  forall name cmd, argv !! 0%nat = Some name -> lookupCommand table name = Some cmd ->
  link_kind (cmd_kind cmd) = true /\
  (cmd_kind cmd = KCrdtExec -> forall o n, argv !! 1%nat = Some o -> string2ll o = Some n -> check_gid (to_int n) = true -> to_int n = gid).

Hypothesis Htable : table_ok table.

Lemma accept_step gid c cmd st :
  tx_ok st -> tx_clients st !! id = Some c -> link_state gid c -> cmd_ok cmd -> link_kind (cmd_kind cmd) = true ->
  wrong_arity cmd (Z.of_nat (length (tc_argv c))) = false -> is_Some (crdtMasters (w_crdt (tx_world st)) !! gid) ->
  (cmd_kind cmd = KCrdtExec -> forall o n, tc_argv c !! 1%nat = Some o -> string2ll (obj_bytes o) = Some n ->
     check_gid (to_int n) = true -> to_int n = gid) ->
  exists st' c', accept g cmd id st = Ok st' /\ link_step_ok gid c st c' st'.
Proof.
  intros Hok Hc L Hcmd Hk Har Hp Hn. unfold accept. rewrite (get_client_ok _ _ _ Hc). cbn [mbind res_bind].
  destruct (queued_kind (cmd_kind cmd)) eqn:Eq; [destruct (f_multi (tc_flags c)) eqn:Em; cbn [andb]|rewrite andb_false_r].
  - unfold addReply, queueMultiCommand. rewrite upd_upd. eexists _, _. split; [reflexivity|].
    apply (still_step gid c st _ Hc L); [by destruct c|apply L|]. cbn. by rewrite Em.
  - by apply call_data_step.
  - unfold link_kind in Hk. rewrite Eq in Hk. cbn [orb] in Hk.
    apply orb_prop in Hk as [Hk%bool_decide_eq_true|Hk%bool_decide_eq_true]; [by apply call_multi_step|].
    destruct (arity_two cmd (tc_argv c)) as [o Ho]; [apply Hcmd; by right|done|].
    apply (call_crdtExec_step gid c cmd st o); try done. intros n. by apply Hn.
Qed.

Lemma process_step gid c argv st :
  tx_ok st -> tx_clients st !! id = Some c -> link_state gid c -> link_cmd gid argv -> tc_argv c = map RSds argv ->
  is_Some (crdtMasters (w_crdt (tx_world st)) !! gid) ->
  exists b st' c', processCommand g table id st = Ok (b, st') /\ link_step_ok gid c st c' st'.
Proof.
  intros Hok Hc L (Hne & Hargv & Hcmd) Ea Hp. unfold processCommand. rewrite (get_client_ok _ _ _ Hc). cbn [mbind res_bind].
  destruct argv as [|name rest]; [done|]. rewrite Ea. cbn [map lookup list_lookup need mbind res_bind obj_bytes].
  assert (forall p, exists b st' c', Ok (true, addReply p id (flagTransaction id st)) = Ok (b, st') /\ link_step_ok gid c st c' st') as Hflag.
  { intros p. destruct (flag_step gid c p st Hc L) as [c' S]. by eexists _, _, _. }
  assert (forall (b : bool) p, exists b' st' c', Ok (b, addReply p id st) = Ok (b', st') /\ link_step_ok gid c st c' st') as Hreply.
  { intros b p. eexists _, _, _. split; [reflexivity|]. by apply reply_step. }
  destruct (strcaseeq (cstr name) (str "quit")); [apply Hreply|].
  destruct (lookupCommand table name) as [cmd|] eqn:El; [|apply Hflag].
  destruct (wrong_arity cmd _) eqn:Ear; [apply Hflag|]. destruct (_ && _ && _); [apply Hflag|].
  destruct (Hcmd name cmd eq_refl El) as [Hk Hn].
  destruct (g_redirect g) as [reply|].
  { rewrite bool_decide_false; [apply Hflag|]. intros Ek. by rewrite Ek in Hk. }
  destruct (g_freed g).
  { eexists _, _, _. split; [reflexivity|]. rewrite <- (upd_id (fun c => c) c st Hc eq_refl) at 2.
    apply (still_step gid c st (fun c => c) Hc L); [by destruct c|apply L|apply L]. }
  destruct (reject g cmd c (tx_world st)) as [[[] reply]|]; [apply Hflag|apply Hreply|].
  destruct (accept_step gid c cmd st) as (st' & c' & -> & S); try done.
  - by eapply lookupCommand_ok.
  - by rewrite Ea.
  - intros Ek o n. rewrite Ea. intros Ho En. destruct rest as [|x rest]; [done|]. injection Ho as <-. by apply (Hn Ek x).
  - by eexists _, _, _.
Qed.

(** ** The interface *)

(** The state in which the link works: the peer [gid] is connected, and nothing of
    the client is in the way. *)

Record link_good (gid : Z) st c : Prop := {
  lg_ok : tx_ok st;
  lg_client : tx_clients st !! id = Some c;
  lg_state : link_state gid c;
  lg_reply : tc_reply c = [];
  lg_peer : exists p, crdtMasters (w_crdt (tx_world st)) !! gid = Some p /\ repl_state p = REPL_STATE_CONNECTED
}.

Definition link_ok (gid : Z) (r : res (txserver D)) : Prop := exists st c, r = Ok st /\ link_good gid st c.

Lemma link_exec_spec gid argv st c :
  link_cmd gid argv -> link_good gid st c ->
  exists st' c', link_exec argv (Ok st) = Ok st' /\ link_good gid st' c' /\
    (f_multi (tc_flags c') = true -> queueing c c' /\ st' = upd (fun _ => c') id st).
Proof.
  intros Hcmd [Hok Hc L Hr (p & Hp & Hs)]. pose proof Hcmd as (_ & Hargv & _).
  set (st0 := upd (set_tc_argv (map RSds argv)) id st). set (c0 := set_tc_argv (map RSds argv) c).
  assert (acts id st st0) as A0.
  { apply upd_acts; [done|by eexists|done|]. intros c' _ (K1 & K2 & _). by split. }
  assert (tx_clients st0 !! id = Some c0) as Hc0 by (by apply upd_lookup).
  assert (link_state gid c0) as L0 by (destruct L; by split).
  destruct (process_step gid c0 argv st0 (ac_ok _ _ _ A0) Hc0 L0 Hcmd eq_refl) as (b & st1 & c1 & E & S); [by eexists|].
  destruct (processCommand_spec g table id c0 st0 Htable (ac_ok _ _ _ A0) Hc0) as (b' & st1' & E' & A1).
  { destruct Hcmd as (Hne & _). by destruct argv. }
  { intros name rest cmd Ea El Hk _ o n Ho En Hg. destruct Hcmd as (Hne & _ & Hcmd). destruct argv as [|x argv]; [done|].
    injection Ea as <- <-. destruct (Hcmd x cmd eq_refl El) as [_ Hn]. destruct argv as [|y argv]; [done|]. injection Ho as <-.
    rewrite (Hn Hk y n eq_refl En Hg). by eexists. }
  rewrite E in E'. injection E' as <- <-. destruct S as (Hc1 & G1 & W1 & C1 & K1 & M1).
  unfold link_exec. cbn [mbind res_bind serve]. fold st0. rewrite E. cbn [mbind res_bind].
  exists (upd (set_tc_reply []) id st1), (set_tc_reply [] c1). split; [done|].
  assert (acts id st1 (upd (set_tc_reply []) id st1)) as A2 by (apply upd_acts; [apply A1|by eexists|done|done]).
  split; [split|].
  - apply A2.
  - by apply upd_lookup.
  - split; [|done|done|done|intros Hm; by apply K1]. cbn. rewrite (ac_link _ _ _ A1 _ _ Hc0 Hc1). apply L.
  - done.
  - exists p. change (w_crdt (tx_world (upd (set_tc_reply []) id st1))) with (w_crdt (tx_world st1)). by rewrite (ac_crdt _ _ _ A1).
  - intros Hm. destruct (M1 Hm) as [Q ->]. split.
    + apply (queueing_trans c c1); [|by destruct c1]. apply (queueing_trans c c0); [by destruct c|exact Q].
    + unfold st0. by rewrite !upd_upd.
Qed.

Definition reset_client c : tclient D :=
  set_tc_argv [] (set_tc_reply [] (set_tc_flags (MkMflags false false false) (set_tc_mstate [] c))).

Lemma link_cache_spec gid st c :
  link_good gid st c -> link_cache (Ok st) = Ok (upd (fun _ => reset_client c) id st).
Proof.
  intros [Hok Hc L _ _]. unfold link_cache. cbn [mbind res_bind]. rewrite (get_client_ok _ _ _ Hc). cbn [mbind res_bind].
  destruct (f_multi (tc_flags c)) eqn:Em; cbn [mbind res_bind].
  - unfold discardTransaction, unwatchAllKeys.
    rewrite (get_client_ok _ _ _ (upd_lookup (fun c => set_tc_flags (MkMflags false false false) (set_tc_mstate [] c)) c st Hc)).
    cbn [mbind res_bind set_tc_flags set_tc_mstate tc_watched_keys]. rewrite (ls_watched _ _ L). cbn [mbind res_bind].
    rewrite upd_upd. f_equal. by rewrite (upd_const _ c).
  - rewrite (upd_const _ c st Hc). do 2 f_equal. unfold reset_client.
    destruct (ls_closed _ _ L Em) as [E1 E2]. destruct c. cbn in E1, E2. by rewrite E1, E2.
Qed.

Lemma reset_good gid st c : link_good gid st c -> link_good gid (upd (fun _ => reset_client c) id st) (reset_client c).
Proof.
  intros [Hok Hc L Hr Hp]. split; [|by apply (upd_lookup (fun _ => reset_client c) c)| |done|done].
  - rewrite <- (upd_const reset_client c st Hc). apply (upd_acts reset_client); [done|by eexists|done|].
    intros c' _ (K1 & K2 & K3). split; [done|]. by split.
  - destruct L. by split.
Qed.

Lemma queueing_reset c c' : queueing c c' -> reset_client c' = reset_client c.
Proof. unfold queueing. intros ->. by destruct c. Qed.

(** A client that was reset outside a transaction serves the next command as
    before. *)

Lemma reset_exec gid argv st c :
  link_good gid st c -> f_multi (tc_flags c) = false ->
  link_exec argv (Ok (upd (fun _ => reset_client c) id st)) = link_exec argv (Ok st).
Proof.
  intros [Hok Hc L Hr _] Hm. unfold link_exec. cbn [mbind res_bind serve]. rewrite upd_upd.
  rewrite (upd_const (set_tc_argv (map RSds argv)) c st Hc). unfold reset_client.
  destruct (ls_closed _ _ L Hm) as [E1 E2]. destruct c. cbn in E1, E2, Hr. by rewrite E1, E2, Hr.
Qed.

Lemma link_ok_exec gid argv r : link_cmd gid argv -> link_ok gid r -> link_ok gid (link_exec argv r).
Proof.
  intros Hcmd (st & c & -> & G). destruct (link_exec_spec gid argv st c Hcmd G) as (st' & c' & E & G' & _). by exists st', c'.
Qed.

Lemma link_ok_cache gid r : link_ok gid r -> link_ok gid (link_cache r).
Proof. intros (st & c & -> & G). rewrite (link_cache_spec gid st c G). eexists _, _. split; [done|]. by apply reset_good. Qed.

Lemma link_ok_connected gid r : link_ok gid r -> link_connected r = true.
Proof.
  intros (st & c & -> & [_ Hc L _ (p & Hp & Hs)]). unfold link_connected, link_client.
  rewrite Hc, (ls_gid _ _ L), Hp. by apply Z.eqb_eq.
Qed.

Lemma link_cache_idle gid argv r :
  link_ok gid r -> link_multi r = false -> link_exec argv (link_cache r) = link_exec argv r.
Proof.
  intros (st & c & -> & G) Hm. rewrite (link_cache_spec gid st c G). apply (reset_exec gid); [done|].
  unfold link_multi, link_client in Hm. by rewrite (lg_client _ _ _ G) in Hm.
Qed.

Lemma link_cache_open gid argv r :
  link_cmd gid argv -> link_ok gid r -> link_multi (link_exec argv r) = true -> link_cache (link_exec argv r) = link_cache r.
Proof.
  intros Hcmd (st & c & -> & G). destruct (link_exec_spec gid argv st c Hcmd G) as (st' & c' & E & G' & M).
  rewrite E. unfold link_multi, link_client. rewrite (lg_client _ _ _ G'). intros Hm. destruct (M Hm) as [Q Est].
  rewrite (link_cache_spec gid st c G), (link_cache_spec gid st' c' G'), (queueing_reset _ _ Q), Est. by rewrite upd_upd.
Qed.

End link.

(** [processCommand] on the link of the peer [gid], client [id], for any table of
    commands that keep the replication state sound. *)

Definition multi_server {D : Type} (g : gate) (table : list (command D)) (id : nat) (gid : Z) (Htable : table_ok table) :
    PeerServer (res (txserver D)) := {|
  ps_exec := link_exec g table id;
  ps_connected := link_connected id;
  ps_multi := link_multi id;
  ps_cache := link_cache id;
  ps_ok := link_ok id gid;
  ps_cmd := link_cmd table gid;
  ps_ok_exec argv r := link_ok_exec g table id Htable gid argv r;
  ps_ok_cache r := link_ok_cache id gid r;
  ps_ok_connected r := link_ok_connected id gid r;
  ps_cache_idle argv r _ := link_cache_idle g table id gid argv r;
  ps_cache_open argv r := link_cache_open g table id Htable gid argv r
|}.

(** ** Claims *)

(** C1: every write reaches a peer exactly once, also across a lost link.  The
    server feeds any sequence of writes, transactions among them; a peer whose
    link is at the offset where they begin reads any part of them, cut in any way,
    and loses the link: in the middle of a command, between two, or inside a
    transaction.  What it had read and not run is forgotten, a transaction that is
    open is discarded, and it asks to continue from its offset, the end of the last
    command that left no transaction open.  If the backlog holds the writes, the
    server accepts, and when the peer has read what the server sends, again cut in
    any way, its state is the one in which the commands of the writes ran once
    each, in order, with a [CRDT.SELECT] before the first one and wherever the
    database changes (if nothing was left to send, that state with the client of
    the link reset); its offset is that of the server, and what it forwarded to its
    own slaves is the encoding of all of them, once.  The commands are at most
    64 kB, the clients are not paused, the writes end outside a transaction, and
    the peer stays CONNECTED while it reads, as [ps_ok] says.  The server of the
    peer is any that keeps the interface [PeerServer]; [multi_server] is the one of
    [processCommand]. *)
Theorem writes_exactly_once {St : Type} `{PeerServer St}
    (max_bulk : Z) (st0 : St) (w0 : world) (pre : bytes) (writes : list (Z * list robj))
    (c : slave) (id : bytes) (reads1 : list bytes) (tail1 : bytes) :
  let cmds := fed_commands (crdt_gid (w_crdt w0)) (fun d => seldb_differs d w0) writes in
  let off0 := master_repl_offset (w_peers w0) in
  forall (Hok : ps_ok st0) (Hcmds : Forall ps_cmd cmds)
    (Hidle : ps_multi st0 = false) (Hwhole : ps_multi (ps_run st0 cmds) = false)
    (Hw : world_ok w0) (Hrep : backlog_rep (w_peers w0) pre) (Hmaster : proxies_master w0 = false)
    (Hobj : Forall (fun x => Forall robj_ok (snd x)) writes) (Hread : Forall (readable max_bulk) cmds)
    (Hsize : Z.of_nat (length (encodes cmds)) <= repl_backlog_size (w_peers w0))
    (Hoff : 0 <= off0 /\ off0 + Z.of_nat (length (encodes cmds)) < LLONG_MAX)
    (Hid : strcaseeq (cstr id) (replid (w_peers w0)) = true)
    (Hcapa : has_capa c SLAVE_CAPA_BACKSTREAM = false) (Hopen : sl_close_after_reply c = false)
    (Hout : sl_output c = []) (Hcut : concat reads1 ++ tail1 = encodes cmds),
  exists w1 l st fwd c' w2,
    feed_writes writes w0 = Ok w1 /\
    ps_read max_bulk false reads1 (MkLink (fresh []) REQ_UNKNOWN off0 off0 []) st0 = Ok (l, st, fwd) /\
    masterTryPartialResynchronization CRDT true id (print_Z (l_reploff (cacheMaster l) + 1)) c w1 =
      Ok (true, c', w2) /\
    forall reads2, concat reads2 = sl_output c' ->
      exists l2 st2 fwd2, ps_read max_bulk false reads2 (cacheMaster l) (ps_cache st) = Ok (l2, st2, fwd2) /\
        (st2 = ps_run st0 cmds \/ sl_output c' = [] /\ st2 = ps_cache (ps_run st0 cmds)) /\
        l_reploff l2 = master_repl_offset (w_peers w1) /\ fwd ++ fwd2 = encodes cmds.
Proof.
  intros cmds off0 Hok Hcmds Hidle Hwhole Hw Hrep Hmaster Hobj Hread Hsize [Hoff1 Hoff2] Hid Hcapa Hopen Hout Hcut.
  destruct (feed_writes_fed writes w0 Hw Hmaster Hobj) as (w1 & Ew & [_ F]). fold cmds in F.
  destruct (F CRDT) as [Fb _]. simpl in Fb. destruct (fed_stream _ _ _ Fb pre Hrep) as [R1 O1].
  destruct (fed_ids _ _ _ Fb) as (I1 & I2 & I3 & I4). fold off0 in O1.
  destruct (link_resumes max_bulk off0 st0 cmds reads1 tail1 Hok Hcmds Hidle Hwhole Hread Hcut)
    as (l & st & fwd & rest & E & Es & Eo & Hres).
  pose proof (f_equal length Es) as Ls. rewrite length_app in Ls.
  destruct (partial_serves CRDT id (print_Z (l_reploff (cacheMaster l) + 1)) (l_reploff (cacheMaster l) + 1) c w1 (pre ++ encodes cmds))
    as (c' & Em & _ & _ & _ & Eout); try done.
  { apply string2ll_print. unfold LLONG_MIN in *. lia. }
  { unfold id_accepted. simpl. by rewrite I1, Hid. }
  { apply (covered_iff _ _ _ R1). rewrite length_app. change (get_srv CRDT w1) with (w_peers w1). rewrite I4, O1. lia. }
  assert (sl_output c' = rest) as Er.
  { rewrite Eout, Hout. simpl app. simpl get_srv. rewrite O1, length_app.
    replace (length pre + length (encodes cmds) - Z.to_nat (off0 + Z.of_nat (length (encodes cmds)) + 1 -
               (l_reploff l + 1)))%nat with (length pre + length fwd)%nat
      by (change (l_reploff (cacheMaster l)) with (l_reploff l) in Eo; lia).
    rewrite <- Es. by rewrite drop_app_add, drop_app_length. }
  exists w1, l, st, fwd, c'. eexists. split; [done|]. split; [done|]. split; [exact Em|]. intros reads2 E2. rewrite Er in *.
  destruct (Hres reads2 E2) as (l2 & st2 & fwd2 & R2 & Hst & Eo2 & Ef). exists l2, st2, fwd2. split; [done|]. split; [exact Hst|].
  split; [by rewrite Eo2, O1|done].
Qed.

(** A server of group 1 whose peers have selected database 0, and a server of
    group 2 that is connected with it. *)

Definition wide_repl_server : replServer := MkRepl (Some (replicate 128 None)) 128 0 0 1 0 (str "id1") (str "id2") (-1) [] 0 0 0 0 0 0 0.

Definition sending_world : world := MkWorld wide_repl_server wide_repl_server example_server None 0 false true false 1000.

Definition connected_peer : peer :=
  MkPeer 1 None (Some (str "h")) 6379 None None REPL_STATE_CONNECTED (-1) 0 0 None 0 [] 0 [] 0 0 None.

Definition receiving_world : world :=
  MkWorld wide_repl_server wide_repl_server (MkServer 2 (str "ns") [Clk 1 5; Clk 2 8] [] [] {[1 := connected_peer]} 4 0 false 0)
    None 0 false true false 1000.

Definition receiving_client : tclient Z := MkTc (MkMflags false false false) no_prop true false false true 0 1 [] [] [] [].

Definition receiving_tx : txserver Z := MkTx receiving_world {[ 1%nat := receiving_client ]} ∅ 0 0 [].

Lemma wide_repl_rep : backlog_rep wide_repl_server [].
Proof.
  eexists. split; [reflexivity|]. split; [done|]. split; [|split; [reflexivity|split; reflexivity]].
  split; [reflexivity|]. intros k Hk. simpl in Hk. lia.
Qed.

Lemma receiving_tx_ok : tx_ok receiving_tx.
Proof.
  split; [| |done|].
  - change (tx_watched receiving_tx) with (∅ : gmap (Z * bytes) (list nat)). split.
    + intros wk l. by rewrite lookup_empty.
    + intros id keys. unfold watched_of. rewrite lookup_fmap. intros E.
      apply fmap_Some in E as (c & E & ->). simpl in E. apply lookup_singleton_Some in E as [_ <-]. constructor.
    + intros wk id. split; [intros (l & E & _); by rewrite lookup_empty in E|].
      intros (keys & E & Hin). unfold watched_of in E. rewrite lookup_fmap in E.
      apply fmap_Some in E as (c & E & ->). simpl in E.
      apply lookup_singleton_Some in E as [_ <-]. by apply not_elem_of_nil in Hin.
  - split; [|by split]. intros []; right; eexists; apply wide_repl_rep.
  - simpl. apply map_Forall_singleton. split; [|by split]. intros _. eexists. by apply lookup_singleton_eq.
Qed.

Lemma receiving_tx_good : link_good 1 1 receiving_tx receiving_client.
Proof.
  split; [apply receiving_tx_ok|done| |done|].
  - split; [done|done|done|done|]. intros _. by split.
  - exists connected_peer. split; [by apply lookup_singleton_eq|done].
Qed.

(** The link is lost inside the transaction. *)

Lemma writes_exactly_once_witness :
  let PS := multi_server example_gate example_table 1 1 example_table_ok in
  let writes := [(0, [RSds (str "CRDT.MULTI"); RInt 1]); (0, words ["INCR"; "b"]%string); (0, [RSds (str "CRDT.EXEC"); RInt 1])] in
  let cmds := [[str "CRDT.MULTI"; str "1"]; [str "INCR"; str "b"]; [str "CRDT.EXEC"; str "1"]] in
  let reads1 := [take 60 (encodes cmds)] in
  exists w1 l st fwd c' w2,
    feed_writes writes sending_world = Ok w1 /\
    ps_read 512 false reads1 (MkLink (fresh []) REQ_UNKNOWN 0 0 []) (Ok receiving_tx) = Ok (l, st, fwd) /\
    masterTryPartialResynchronization CRDT true (str "id1") (print_Z (l_reploff (cacheMaster l) + 1)) (example_slave 0) w1 =
      Ok (true, c', w2) /\
    forall reads2, concat reads2 = sl_output c' ->
      exists l2 st2 fwd2, ps_read 512 false reads2 (cacheMaster l) (ps_cache st) = Ok (l2, st2, fwd2) /\
        (st2 = ps_run (Ok receiving_tx) cmds \/ sl_output c' = [] /\ st2 = ps_cache (ps_run (Ok receiving_tx) cmds)) /\
        l_reploff l2 = master_repl_offset (w_peers w1) /\ fwd ++ fwd2 = encodes cmds.
Proof.
  intros PS writes cmds reads1.
  apply (@writes_exactly_once _ PS 512 (Ok receiving_tx) sending_world [] writes (example_slave 0) (str "id1") reads1 (drop 60 (encodes cmds))).
  - exists receiving_tx, receiving_client. split; [done|apply receiving_tx_good].
  - repeat (constructor; [split; [done|]; split; [decide_now|]; intros name cmd [= <-] [= <-]; split; [done|]|]); [done|done| |constructor].
    intros _ o n [= <-] [= <-] _. done.
  - reflexivity.
  - vm_compute. reflexivity.
  - intros []; right; eexists; apply wide_repl_rep.
  - apply wide_repl_rep.
  - reflexivity.
  - decide_now.
  - repeat (constructor; [split; decide_now|]). constructor.
  - decide_now.
  - decide_now.
  - reflexivity.
  - reflexivity.
  - reflexivity.
  - reflexivity.
  - reflexivity.
Defined.
